(* ===== verification/_CoqProject ===== *)
-Q . S2P
Prelude.v
Flash.v
FlashRam.v
FlashTorn.v
ItsTypes.v
ItsMblock.v
ItsFs.v
ItsLayout.v
ItsCrash.v
ItsMount.v
ItsFiles.v
ItsService.v
FlashNor.v
FlashNand.v
SpmPool.v
SpmTypes.v
SpmThread.v
SpmIpc.v
SpmCall.v
SpmMsg.v
PsTypes.v
PsBytes.v
PsLaws.v
PsCrypto.v
PsAuth.v
PsTable.v
PsSystem.v
PsObjects.v
PsInvariant.v
PsBoot.v
PsCrash.v
PsStored.v
PsRoundtrip.v
PsSample.v
CryptoTypes.v
CryptoAlloc.v
CryptoOps.v
CryptoService.v
CryptoInv.v
CryptoHandlers.v
CryptoRequest.v
CryptoSlots.v
CryptoMultipart.v
CryptoClients.v
CryptoHash.v
CryptoSample.v
MbTypes.v
MbSpe.v
MbNs.v
MbSystem.v
MbInv.v
MbNsSteps.v
MbSpeSteps.v
MbProtocol.v
MbSafe.v
MbLive.v
MbSample.v
BootData.v
FlashMap.v
FwuTypes.v
FwuService.v
FwuStates.v
FwuLifecycle.v
McuBoot.v
FwuWrite.v
FwuImage.v
FwuSample.v
NsCtx.v
GptTypes.v
GptIo.v
Gpt.v
GptBytes.v
GptLaws.v
GptFlush.v
GptInv.v
GptOps.v
GptEdit.v
GptValid.v
GptMove.v
GptSample.v
