(* ===== verification/Prelude.v ===== *)
(** * Verification library for Trusted Firmware-M

    Trusted Firmware-M is the secure side of an Arm M-profile device: a Secure
    Partition Manager (SPM) that isolates the services of the device from each other
    and from the non-secure world, and the services.  This library models the parts
    of it that hold the program's own logic, one definition per C function, and
    proves what makes them correct.  File names below are those under
    [src/secure_fw/] unless they say otherwise.

    ** The parts and how they interact

    A client calls a service with [psa_call].  The SPM looks the service up, checks
    the caller's rights and its vectors, takes a connection from a pool, turns it
    into a message, queues it for the service's partition and wakes the partition;
    the service reads and writes the client's vectors through the handle of the
    message and replies, which wakes the client.  Four of the services are modelled:
    Internal Trusted Storage (ITS), a filesystem on a flash device; Protected Storage
    (PS), which keeps encrypted objects in files of ITS and the list of them in an
    authenticated table tied to monotonic counters; the crypto service, which keeps
    the multi-part operations of its clients and calls a library in their name; and
    firmware update, a state machine per image over the functions of a bootloader, here
    MCUboot, which writes the images to slots of the flash.  What the bootloader knows
    about the images it leaves as records in a shared area, of which the SPM gives each
    partition its own.  On a
    device with two cores the non-secure world runs on the other core and its calls
    come through a mailbox, a queue in shared memory, to an agent that calls the SPM
    in the name of the client.

    ** The files

    Shared:
    - [Prelude]: machine integers, status codes, the effect monad and its rules, byte
      strings, lists.

    ITS, [partitions/internal_trusted_storage/]:
    - [Flash]: the configuration and the operation table of a flash device
      ([flash_fs/its_flash_fs.h]) as a class, and two contracts: [locality] (what an
      operation may touch, whatever it answers) and the meaning of each operation.
    - [FlashRam] ([flash/its_flash_ram.c]), [FlashNor] ([flash/its_flash_nor.c]),
      [FlashNand] ([flash/its_flash_nand.c]): the three back ends.  [FlashTorn]: a
      device that loses power in the middle of an operation, for the crash theorems.
    - [ItsTypes] ([its_utils.c], the structures of [flash_fs/its_flash_fs_mblock.h]),
      [ItsMblock] ([flash_fs/its_flash_fs_mblock.c]), [ItsFs]
      ([flash_fs/its_flash_fs_dblock.c], [flash_fs/its_flash_fs.c]): the filesystem.
      The context of the C code is the record of [ItsTypes]; the RAM copy of the
      metadata is part of it.
    - [ItsLayout], [ItsCrash], [ItsMount], [ItsFiles]: its theorems.
    - [ItsService] ([tfm_internal_trusted_storage.c]): the service.

    SPM, [spm/core/]:
    - [SpmPool] ([tfm_pools.c], [spm_connection_pool.c], [spm/include/lists.h]).
    - [SpmTypes] ([spm.h], the load information, the call parameters packed in a
      word): the state of the SPM, with maps from pointers to partitions, services
      and connections and a word-addressed memory for the clients' buffers.
    - [SpmThread] ([thread.c]), [SpmIpc] ([spm_ipc.c], [backend_ipc.c]), [SpmCall]
      ([psa_call_api.c], [psa_connection_api.c], [psa_version_api.c],
      [mailbox_agent_api.c]), [SpmMsg] ([psa_api.c], [psa_read_write_skip_api.c],
      [psa_mmiovec_api.c], [psa_irq_api.c]).

    PS, [partitions/protected_storage/]:
    - [PsTypes]: the structures, their bytes, the static variables ([ps_state]) and
      the services called, as the class [PsEnv].  [PsCrypto]
      ([crypto/ps_crypto_interface.c], [nv_counters/ps_nv_counters.c]), [PsTable]
      ([ps_object_table.c]), [PsSystem] ([ps_encrypted_object.c], [ps_utils.c],
      [ps_object_system.c], [tfm_protected_storage.c], [tfm_ps_req_mngr.c]).
    - [PsLaws]: what the partition relies on, as the class [PsEnvLaws], and an
      environment that satisfies it.  [PsBytes], [PsAuth], [PsObjects], [PsInvariant],
      [PsBoot], [PsCrash], [PsStored], [PsRoundtrip]: the theorems.  [PsSample]: a
      concrete partition, at which the theorems are applied and on which three gaps
      of the recovery are shown by computation.

    Crypto service, [partitions/crypto/]:
    - [CryptoTypes]: the request and its identifiers ([tfm_crypto_defs.h]), the state
      ([crypto_state]: the operation slots, the scratch memory, the vectors of the
      request) and the library, whose functions are the constructors of [psa_call].
      [CryptoAlloc] ([crypto_alloc.c]); [CryptoOps]: one interface for each group of
      functions ([crypto_hash.c], [crypto_mac.c], [crypto_cipher.c], [crypto_aead.c],
      [crypto_key_derivation.c], [crypto_asymmetric.c], [crypto_key_management.c],
      [crypto_rng.c]); [CryptoService] ([crypto_init.c], [crypto_library.c]).
    - [CryptoInv], [CryptoHandlers], [CryptoRequest]: what every request keeps, followed
      through each interface and the whole request; [CryptoClients]: what that gives
      the clients.  [CryptoSlots], [CryptoMultipart], [CryptoHash]: the slots as a finite
      map, the life of an operation, a request from the client's vectors and back.
      [CryptoSample]: a concrete service.

    Mailbox between cores, [partitions/ns_agent_mailbox/] and, for the non-secure side,
    [src/interface/]:
    - [MbTypes]: the shared queue ([interface/include/multi_core/tfm_mailbox.h]), the
      private data of the sides, the build ([MboxBuild]) and the SPM and platform as
      the class [MboxEnv].  [MbSpe] ([tfm_spe_mailbox.c],
      [tfm_multi_core_client_id.c]); [MbNs] ([multi_core/tfm_ns_mailbox.c],
      [tfm_ns_mailbox_common.c], [tfm_multi_core_psa_ns_api.c]), where a call and the
      interrupt handler are programs of atomic steps.
    - [MbSystem]: the two cores together, as a step relation that interleaves the calls,
      the interrupt and the secure side and records what happened to each call.
    - [MbInv]: the phases of a slot and the invariant; [MbNsSteps], [MbSpeSteps]: every
      step keeps it.  [MbProtocol], [MbLive]: what follows for the calls.  [MbSafe]:
      the secure side against an arbitrary non-secure side.  [MbSample]: an executable
      scheduler and concrete runs.

    Boot data, [spm/core/tfm_boot_data.c] and the side of the bootloader:
    - [BootData]: the records ([spm/include/boot/tfm_boot_status.h]), how they are
      appended ([src/platform/ext/common/boot_hal_bl2.c]), checked and handed out, and
      the theorems.

    Firmware update, [partitions/firmware_update/]:
    - [FwuTypes]: states, messages, the requests of the client
      ([src/interface/src/tfm_fwu_api.c]) and the bootloader as the class
      [FwuBootloader]; [fs_calls] of the state is a ghost, the list of calls to the
      bootloader.  [FwuService] ([tfm_fwu_req_mngr.c]).
    - [FlashMap] ([src/bl2/src/flash_map.c]): areas of flash over the driver of
      [FlashNor], with their theorems.  [McuBoot] ([bootloader/mcuboot/tfm_mcuboot_fwu.c]): the instance of
      the bootloader's class.
    - [FwuStates] (the diagram of the states as an inductive relation), [FwuLifecycle],
      [FwuWrite], [FwuImage]: the theorems, from the service alone down to the flash.
      [FwuSample]: a concrete device.

    Non-secure client extension, [spm/ns_client_ext/]:
    - [NsCtx] ([tfm_ns_client_ext.c], [tfm_ns_ctx.c], [tfm_spm_ns_ctx.c]): the table of
      contexts that holds which non-secure thread runs, the tokens handed to the
      non-secure scheduler, and the client identifier of a call; the threads as the
      scheduler sees them, and that the table implements them.

    Partition tables, [src/lib/gpt/] with [src/lib/efi_guid/] and
    [src/lib/ext/efi_soft_crc/]:
    - [GptTypes]: the structures and their bytes, the static variables ([gpt_state]), the
      driver a client registers.  [GptIo] ([gpt_defs.c], [io/]): the block buffer, and
      how blocks, entries, headers and both copies of a table are read and written.
      [Gpt] ([gpt_parse.c], [gpt_modify.c]): the operations of the interface.
    - [GptBytes]: bytes and structures, and the checksum.  [GptLaws]: what the library
      relies on of the flash (class [GptFlash]), blocks and arrays read when nothing waits
      to be written.  [GptFlush], [GptInv], [GptOps]: a block of entries on its way to
      both copies, the invariant between operations, reading and writing entries through
      the buffer.  [GptEdit]: the table as a list of entries.  [GptValid]: which tables
      are accepted.  [GptMove]: data on its way to another place.  [GptSample]: a
      concrete flash.

    ** How code is written

    A C function is a value of the monad [M S A]: from a state it goes to a state and
    returns a value, returns a [psa_status_t] that is not success, or does not return
    (a panic, a failed assertion, an access out of bounds, a loss of power).  The
    state is kept in every case.  Integers are [Z], reduced to their width where C
    reduces them; the ABI is that of the 32-bit Arm M profile.  Shared objects of the
    SPM (connections, partitions, services, list nodes) are named by their address
    and updated in a map, so aliases are the same object.

    ** What the theorems show

    - ITS: a write or removal of a file that is interrupted anywhere, by an error of
      the driver or a loss of power, leaves the committed image whole until the new
      metadata header is written, and the header write commits; metadata that passed
      validation keeps accesses inside the block; lookup, reads and placement of
      files are exact; write-once data is neither replaced nor removed; files of
      different clients never share an identifier; [tfm_its_get] returns exactly the
      bytes asked for.
    - Flash back ends: reads and writes through the driver's wider units are those of
      a byte array; the two buffers of the NAND back end are not observable.
    - SPM: the pool implements a list of free chunks; a handle is converted back to
      its connection only while the connection lives; a call is accepted only with
      vectors the caller may use and that do not overlap; a connection is taken only
      for a client with the right to the service; messages are queued and taken in
      order; no wake-up is lost; the vectors of a message follow their protocol (read
      and written piecewise, or mapped once), reads deliver the client's bytes in
      order and writes stay in the vector; the scheduler picks the first runnable
      thread of the highest priority.
    - PS: the object table is a finite map; every request keeps one entry per object
      and one entry to spare; a save of the table interrupted anywhere leaves the old
      or the new table; a table is never accepted that was sealed for another value
      of the counters than a current one; the data set by a request is what a later
      request gets; and three runs the recovery does not cover.
    - Crypto: a client reaches only its own operations and keys; a request leaves
      nothing of it in the scratch memory; the slots are a finite map.
    - Mailbox: an answered call was sent once and answered with what the SPM said; no
      call is lost, and a waiting one can complete; whatever the other core writes to
      the queue, the secure side stays in its own memory and in the client's range of
      identifiers.
    - Boot data: a partition receives the records of its kind as they were recorded, and
      no others.
    - Firmware update: the components follow the diagram of the specification; the
      bootloader is called only in the states its interface names; an image reaches its
      slot byte for byte; accesses to a flash area are exact, but for writes that begin
      inside a program unit and go past the next; a rejection may lose the answer that
      a reboot is needed.
    - Non-secure client extension: a call is made in the name of the thread the
      non-secure scheduler loaded last, whatever the order of its calls.
    - Partition tables: at any access that fails while an entry is read or written, or the
      buffer is written out, one copy of the table on the flash is valid and has the
      entries of before or after; one changed byte in a table is noticed; creating a
      partition keeps partitions apart; changing an entry changes that entry and nothing
      else, wherever it is; data is moved exactly, but for moves up onto a part of
      itself.

    ** Assumptions, bounds and fuel

    Code outside [src/] and hardware are parameters: the CMSIS flash driver (class
    [DriverContract]), the HAL's memory check, Internal Trusted Storage, NV counters,
    PSA Crypto and the SPM calls as PS uses them (class [PsEnvLaws]: a call does what
    its documentation says, or fails and changes nothing; a loss of power may come
    before or after its effect; authenticated decryption is ideal: it accepts what was
    sealed with the same key, nonce and data, and nothing else; keys derived from
    different labels are different).  Of the library of the crypto service nothing is
    assumed, and of the SPM and platform behind the mailbox only, for the theorem on
    completion, that they return ([MboxResponsive]).  The bootloader
    under the update service is arbitrary; under MCUboot's part the driver works and the
    query of the running image leaves the flash alone.  Each class has an instance, so no
    theorem rests on an assumption that cannot hold.  The steps of the mailbox are what
    its locks and critical sections cover; the caches between the cores are taken to be
    flushed where the code flushes them.  The flash under the partition tables has blocks
    that an erase sets and a program clears, and a switch [access_can_fail]: theorems on
    interruption are for either position of it, those on the list of entries for a flash
    whose accesses succeed.

    Loops of the C code are structural recursions over the list or the range they
    scan, or [while_loop]: up to [2 ^ 32] rounds, computed by doubling so that runs
    evaluate, and [Halt OutOfFuel] after that.  A 32-bit loop counter allows no more,
    and the lemmas [while_loop_ghost] and [wp_while] show that a loop with a measure
    below that bound leaves through its exit; theorems that claim a result claim it
    outright and not only when the loop ends.  A read of the partition tables may write
    the buffer out, which reads again with nothing left to write: [read_from_flash] is
    that recursion to a depth of 2, and [flush_spec] holds whatever is below.  Sizes of the structures are those of the builds considered: PS without a
    key usage limit and without format transition, with the ITS partition; ITS without
    encryption of files.

    ** Not modelled

    The architecture code and the entry code of interrupts and system calls
    (assembly); partition loading from linker sections; the SFN backend and local
    connections; the request manager and file encryption of ITS; the crypto service
    in the build that maps vectors instead of copying them; attestation (third party
    encoders); the platform service and board support; the boot stages; firmware update
    with memory-mapped vectors, reads of flash by DMA; the mailbox
    in the builds without an operating system and with a mailbox thread; the functions
    that print a partition table to the log.
    *)

From stdpp Require Import base list numbers gmap.

#[global] Open Scope Z_scope.

(** ** Machine integers

    The target is the 32-bit Arm M-profile ABI: [size_t], [uintptr_t] and
    [uint32_t] are 32 bits wide.  A value of a C integer type is its
    mathematical value in [Z]; every C operation that can wrap is followed by
    the reduction below. *)

Definition u8 (x : Z) : Z := x mod 2 ^ 8.
Definition u16 (x : Z) : Z := x mod 2 ^ 16.
Definition u32 (x : Z) : Z := x mod 2 ^ 32.
Definition u64 (x : Z) : Z := x mod 2 ^ 64.
Definition s16 (x : Z) : Z := if u16 x <? 2 ^ 15 then u16 x else u16 x - 2 ^ 16.
Definition s32 (x : Z) : Z := if u32 x <? 2 ^ 31 then u32 x else u32 x - 2 ^ 32.

Definition UINT32_MAX : Z := 2 ^ 32 - 1.

Definition is_u8 (x : Z) : Prop := 0 <= x < 2 ^ 8.
Definition is_u16 (x : Z) : Prop := 0 <= x < 2 ^ 16.
Definition is_u32 (x : Z) : Prop := 0 <= x < 2 ^ 32.
Definition is_u64 (x : Z) : Prop := 0 <= x < 2 ^ 64.

(** C's view of an integer as a truth value. *)
Definition truth (x : Z) : bool := negb (x =? 0).

(** ** The status codes shared by the components

    [psa_status_t] is [int32_t]. *)

Definition PSA_SUCCESS : Z := 0.
Definition PSA_ERROR_PROGRAMMER_ERROR : Z := -129.
Definition PSA_ERROR_CONNECTION_REFUSED : Z := -130.
Definition PSA_ERROR_CONNECTION_BUSY : Z := -131.
Definition PSA_ERROR_GENERIC_ERROR : Z := -132.
Definition PSA_ERROR_NOT_PERMITTED : Z := -133.
Definition PSA_ERROR_NOT_SUPPORTED : Z := -134.
Definition PSA_ERROR_INVALID_ARGUMENT : Z := -135.
Definition PSA_ERROR_BUFFER_TOO_SMALL : Z := -138.
Definition PSA_ERROR_DOES_NOT_EXIST : Z := -140.
Definition PSA_ERROR_INSUFFICIENT_STORAGE : Z := -142.
Definition PSA_ERROR_STORAGE_FAILURE : Z := -146.
Definition PSA_ERROR_INVALID_SIGNATURE : Z := -149.
Definition PSA_ERROR_DATA_CORRUPT : Z := -152.

(** ** The effect monad

    A C function of the modelled code reads and changes a state and then does
    one of three things: it returns a result ([Val]), it returns a
    [psa_status_t] other than [PSA_SUCCESS] ([Err]), or it does not return to
    its caller at all ([Halt]).  The state is kept in every case: an error
    return does not undo what was already written. *)

Inductive halt :=
  | CorePanic      (* tfm_core_panic() *)
  | AssertFail     (* assert() in a debug build *)
  | OutOfBounds    (* an access outside the object, undefined in C *)
  | PowerLoss      (* the device lost power here *)
  | OutOfFuel.     (* the iteration bound of the model ran out *)

#[export] Instance halt_eq_dec : EqDecision halt.
Proof. solve_decision. Defined.

Inductive outcome (A : Type) :=
  | Val (a : A)
  | Err (e : Z)
  | Halt (h : halt).
Arguments Val {A} a.
Arguments Err {A} e.
Arguments Halt {A} h.

Definition M (S A : Type) : Type := S -> outcome A * S.

#[export] Instance M_ret S : MRet (M S) := fun A a s => (Val a, s).
#[export] Instance M_bind S : MBind (M S) := fun A B f m s =>
  match m s with
  | (Val a, s') => f a s'
  | (Err e, s') => (Err e, s')
  | (Halt h, s') => (Halt h, s')
  end.

Definition throw {S A} (e : Z) : M S A := fun s => (Err e, s).
Definition stop {S A} (h : halt) : M S A := fun s => (Halt h, s).
Definition getS {S} : M S S := fun s => (Val s, s).
Definition gets {S A} (f : S -> A) : M S A := fun s => (Val (f s), s).
Definition putS {S} (s : S) : M S unit := fun _ => (Val tt, s).
Definition modifyS {S} (f : S -> S) : M S unit := fun s => (Val tt, f s).

(** [if (b) return e;] *)
Definition fail_if {S} (b : bool) (e : Z) : M S unit :=
  if b then throw e else mret tt.
(** [if (b) tfm_core_panic();] *)
Definition panic_if {S} (b : bool) : M S unit :=
  if b then stop CorePanic else mret tt.
(** [assert(b);] *)
Definition assert_that {S} (b : bool) : M S unit :=
  if b then mret tt else stop AssertFail.
(** [err = f(); if (err != PSA_SUCCESS) return e;] *)
Definition or_return {S A} (m : M S A) (e : Z) : M S A := fun s =>
  match m s with
  | (Err _, s') => (Err e, s')
  | r => r
  end.
(** [err = f();] with the status kept as a value. *)
Definition attempt {S A} (m : M S A) : M S (Z + A) := fun s =>
  match m s with
  | (Val a, s') => (Val (inr a), s')
  | (Err e, s') => (Val (inl e), s')
  | (Halt h, s') => (Halt h, s')
  end.
(** The status a C caller sees: [PSA_SUCCESS] for a normal return. *)
Definition status_of {S A} (m : M S A) : M S Z := fun s =>
  match m s with
  | (Val _, s') => (Val PSA_SUCCESS, s')
  | (Err e, s') => (Val e, s')
  | (Halt h, s') => (Halt h, s')
  end.

(** A [for] loop over [lo <= i < hi]; the body returns [Some r] to leave the
    enclosing function with [r] and [None] to go on. *)
Fixpoint for_fuel {S A} (fuel : nat) (i : Z) (body : Z -> M S (option A))
  : M S (option A) :=
  match fuel with
  | O => mret None
  | Datatypes.S n =>
      r ← body i;
      match r with
      | Some a => mret (Some a)
      | None => for_fuel n (i + 1) body
      end
  end.
Definition for_range {S A} (lo hi : Z) (body : Z -> M S (option A))
  : M S (option A) := for_fuel (Z.to_nat (hi - lo)) lo body.

(** The same with a value [acc] threaded through the iterations. *)
Fixpoint fold_fuel {S A} (fuel : nat) (i : Z) (acc : A) (body : Z -> A -> M S A)
  : M S A :=
  match fuel with
  | O => mret acc
  | Datatypes.S n => acc' ← body i acc; fold_fuel n (i + 1) acc' body
  end.
Definition fold_range {S A} (lo hi : Z) (acc : A) (body : Z -> A -> M S A)
  : M S A := fold_fuel (Z.to_nat (hi - lo)) lo acc body.

(** A [while] loop: [step x] gives [inl x'] to go round again from [x'] and
    [inr v] to leave the loop with [v].  At most [2 ^ n] rounds are made; [n] is
    32 wherever the loop is bounded by a 32-bit counter. *)
Fixpoint while_pow {S X R} (n : nat) (step : X -> M S (X + R)) (x : X) : M S (X + R) :=
  match n with
  | O => step x
  | Datatypes.S n' =>
      r ← while_pow n' step x;
      match r with
      | inl x' => while_pow n' step x'
      | inr v => mret (inr v)
      end
  end.
Definition while_loop {S X R} (step : X -> M S (X + R)) (x : X) : M S R :=
  r ← while_pow 32 step x;
  match r with
  | inr v => mret v
  | inl _ => stop OutOfFuel
  end.

(** Comparing two computations should not start by running their loops. *)
#[global] Strategy 1000 [while_pow while_loop].

(** ** Byte sequences *)

Abbreviation bytes := (list Z).

Definition is_bytes (l : bytes) : Prop := Forall is_u8 l.

(** Overwrite [l] at offset [i] with [x] ([memcpy] into a buffer). *)
Definition splice (l : bytes) (i : nat) (x : bytes) : bytes :=
  take i l ++ x ++ drop (i + length x) l.

Definition slice (l : bytes) (i n : nat) : bytes := take n (drop i l).

(** Little-endian words. *)
Definition le16 (x : Z) : bytes := [u8 x; u8 (x / 2 ^ 8)].
Definition of_le16 (l : bytes) : Z := nth 0 l 0 + 2 ^ 8 * nth 1 l 0.
Definition le32 (x : Z) : bytes :=
  [u8 x; u8 (x / 2 ^ 8); u8 (x / 2 ^ 16); u8 (x / 2 ^ 24)].
Definition of_le32 (l : bytes) : Z :=
  match l with
  | b0 :: b1 :: b2 :: b3 :: _ => b0 + 2 ^ 8 * b1 + 2 ^ 16 * b2 + 2 ^ 24 * b3
  | _ => 0
  end.

(** 64-bit words. *)
Definition le64 (x : Z) : bytes := le32 x ++ le32 (x / 2 ^ 32).
Definition of_le64 (l : bytes) : Z := of_le32 l + 2 ^ 32 * of_le32 (drop 4 l).

(** [memcmp(a, b, n) == 0] on buffers of the same length. *)
Definition bytes_eqb (a b : bytes) : bool := bool_decide (a = b).

(** ** Machine integers: facts *)

Ltac Zify.zify_post_hook ::= Z.to_euclidean_division_equations.

Lemma u32_small x : is_u32 x -> u32 x = x.
Proof. unfold u32, is_u32. intros. by rewrite Z.mod_small. Qed.

Lemma u8_small x : is_u8 x -> u8 x = x.
Proof. unfold u8, is_u8. intros. by rewrite Z.mod_small. Qed.

Lemma u32_range x : is_u32 (u32 x).
Proof. unfold u32, is_u32. lia. Qed.

Lemma u8_range x : is_u8 (u8 x).
Proof. unfold u8, is_u8. lia. Qed.

Lemma truth_true x : truth x = true <-> x <> 0.
Proof. unfold truth. rewrite negb_true_iff, Z.eqb_neq. done. Qed.

Lemma truth_false x : truth x = false <-> x = 0.
Proof. unfold truth. rewrite negb_false_iff, Z.eqb_eq. done. Qed.

(** A conjunction with a power of two extracts one bit. *)
Lemma land_pow2 x n : 0 <= n -> Z.land x (2 ^ n) = if Z.testbit x n then 2 ^ n else 0.
Proof.
  intros Hn. apply Z.bits_inj'. intros i Hi.
  rewrite Z.land_spec, Z.pow2_bits_eqb by done.
  destruct (Z.testbit x n) eqn:E; [rewrite Z.pow2_bits_eqb by done | rewrite Z.bits_0];
    destruct (Z.eqb_spec n i); subst; rewrite ?E, ?andb_false_r; done.
Qed.

Lemma land_split x m : x = Z.land x m + Z.land x (Z.lnot m).
Proof.
  rewrite Z.add_nocarry_lxor.
  - apply Z.bits_inj'. intros i Hi. rewrite Z.lxor_spec, !Z.land_spec, Z.lnot_spec by done.
    by destruct (Z.testbit x i), (Z.testbit m i).
  - apply Z.bits_inj'. intros i Hi. rewrite !Z.land_spec, Z.lnot_spec, Z.bits_0 by done.
    by destruct (Z.testbit x i), (Z.testbit m i).
Qed.

Lemma land_lnot_le x m : 0 <= x -> 0 <= Z.land x (Z.lnot m) <= x.
Proof.
  intros Hx. assert (0 <= Z.land x m) by (apply Z.land_nonneg; by left).
  assert (0 <= Z.land x (Z.lnot m)) by (apply Z.land_nonneg; by left).
  pose proof (land_split x m). lia.
Qed.

(** A field above the bits of another number. *)
Lemma lor_high_add a b n : 0 <= n -> 0 <= a < 2 ^ n -> Z.lor a (b * 2 ^ n) = a + b * 2 ^ n.
Proof.
  intros Hn Ha. assert (Z.land a (b * 2 ^ n) = 0) as H.
  { apply Z.bits_inj'. intros i Hi. rewrite Z.land_spec, Z.bits_0.
    destruct (Z.ltb_spec i n).
    - rewrite Z.mul_pow2_bits_low, andb_false_r by lia. done.
    - rewrite <- (Z.mod_small a (2 ^ n)), Z.mod_pow2_bits_high by lia. done. }
  rewrite <- Z.lxor_lor by done. symmetry. by apply Z.add_nocarry_lxor.
Qed.

Lemma lor_range x y n : 0 <= n -> 0 <= x < 2 ^ n -> 0 <= y < 2 ^ n ->
  0 <= Z.lor x y < 2 ^ n.
Proof.
  intros Hn Hx Hy. split; [apply Z.lor_nonneg; lia|].
  destruct (Z.eq_dec (Z.lor x y) 0) as [->|]; [lia|].
  apply Z.log2_lt_pow2; [assert (0 <= Z.lor x y) by (apply Z.lor_nonneg; lia); lia|].
  rewrite Z.log2_lor by lia.
  destruct (Z.eq_dec n 0) as [->|]; [assert (x = 0) by lia; assert (y = 0) by lia; subst; done|].
  apply Z.max_lub_lt.
  - destruct (Z.eq_dec x 0) as [->|]; [cbn; lia|]. apply Z.log2_lt_pow2; lia.
  - destruct (Z.eq_dec y 0) as [->|]; [cbn; lia|]. apply Z.log2_lt_pow2; lia.
Qed.

(** ** The monad: running a computation *)

Lemma bind_val {S A B} (m : M S A) (f : A -> M S B) s a s' :
  m s = (Val a, s') -> (x ← m; f x) s = f a s'.
Proof. intros H. unfold mbind, M_bind. by rewrite H. Qed.

Lemma bind_err {S A B} (m : M S A) (f : A -> M S B) s e s' :
  m s = (Err e, s') -> (x ← m; f x) s = (Err e, s').
Proof. intros H. unfold mbind, M_bind. by rewrite H. Qed.

Lemma bind_halt {S A B} (m : M S A) (f : A -> M S B) s h s' :
  m s = (Halt h, s') -> (x ← m; f x) s = (Halt h, s').
Proof. intros H. unfold mbind, M_bind. by rewrite H. Qed.

Lemma bind_gets {S A B} (f : S -> A) (k : A -> M S B) s : (x ← gets f; k x) s = k (f s) s.
Proof. done. Qed.

Lemma bind_getS {S B} (k : S -> M S B) s : (x ← getS; k x) s = k s s.
Proof. done. Qed.

Lemma bind_modifyS {S B} (f : S -> S) (k : unit -> M S B) s :
  (x ← modifyS f; k x) s = k tt (f s).
Proof. done. Qed.

Lemma bind_mret {S A B} (a : A) (k : A -> M S B) s : (x ← mret a; k x) s = k a s.
Proof. done. Qed.

Lemma bind_fail_no {S A} b e (k : unit -> M S A) s :
  b = false -> (x ← fail_if b e; k x) s = k tt s.
Proof. by intros ->. Qed.

Lemma bind_fail_yes {S A} b e (k : unit -> M S A) s :
  b = true -> (x ← fail_if b e; k x) s = (Err e, s).
Proof. by intros ->. Qed.

Lemma bind_val_inv {S A B} (m : M S A) (f : A -> M S B) s b s' :
  (x ← m; f x) s = (Val b, s') ->
  exists a s1, m s = (Val a, s1) /\ f a s1 = (Val b, s').
Proof.
  unfold mbind, M_bind. destruct (m s) as [[a|e|h] s1]; naive_solver.
Qed.

Lemma or_return_val {S A} (m : M S A) e s a s' :
  m s = (Val a, s') -> or_return m e s = (Val a, s').
Proof. unfold or_return. by intros ->. Qed.

Lemma or_return_val_inv {S A} (m : M S A) e s a s' :
  or_return m e s = (Val a, s') -> m s = (Val a, s').
Proof. unfold or_return. destruct (m s) as [[]]; naive_solver. Qed.

Lemma attempt_val {S A} (m : M S A) s a s' :
  m s = (Val a, s') -> attempt m s = (Val (inr a), s').
Proof. unfold attempt. by intros ->. Qed.

Lemma attempt_err {S A} (m : M S A) s e s' :
  m s = (Err e, s') -> attempt m s = (Val (inl e), s').
Proof. unfold attempt. by intros ->. Qed.

Lemma fail_if_val_inv {S} b e (s s' : S) u :
  fail_if b e s = (Val u, s') -> b = false /\ s' = s.
Proof. destruct b; cbv; naive_solver. Qed.

Lemma panic_if_val_inv {S} b (s s' : S) u :
  panic_if b s = (Val u, s') -> b = false /\ s' = s.
Proof. destruct b; cbv; naive_solver. Qed.

Lemma assert_that_val_inv {S} b (s s' : S) u :
  assert_that b s = (Val u, s') -> b = true /\ s' = s.
Proof. destruct b; cbv; naive_solver. Qed.

(** Break a hypothesis saying that a sequence of statements returned a value
    into one hypothesis per statement. *)
Ltac inv_run H :=
  lazymatch type of H with
  | mbind _ _ _ = (Val _, _) =>
      let a := fresh "a" in let s1 := fresh "s1" in
      let H1 := fresh "Hrun" in let H2 := fresh "Hrun" in
      apply bind_val_inv in H as (a & s1 & H1 & H2); inv_run H1; inv_run H2
  | or_return _ _ _ = (Val _, _) => apply or_return_val_inv in H; inv_run H
  | fail_if _ _ _ = (Val _, _) => apply fail_if_val_inv in H as [H ?]; subst
  | panic_if _ _ = (Val _, _) => apply panic_if_val_inv in H as [H ?]; subst
  | assert_that _ _ = (Val _, _) => apply assert_that_val_inv in H as [H ?]; subst
  | gets _ _ = (Val _, _) => first [injection H as <- <- | injection H as <-]
  | getS _ = (Val _, _) => first [injection H as <- <- | injection H as <-]
  | putS _ _ = (Val _, _) => first [injection H as <- <- | injection H as <-]
  | modifyS _ _ = (Val _, _) => first [injection H as <- <- | injection H as <-]
  | mret _ _ = (Val _, _) => first [injection H as <- <- | injection H as <-]
  | throw _ _ = (Val _, _) => discriminate H
  | stop _ _ = (Val _, _) => discriminate H
  | _ => idtac
  end.

(** ** Preservation of a property by every outcome of a computation *)

Definition keeps {S A} (I : S -> Prop) (m : M S A) : Prop :=
  forall s, I s -> I (m s).2.

Create HintDb keeps discriminated.
#[export] Hint Constants Opaque : keeps.
#[export] Hint Variables Opaque : keeps.

Section KeepsRules.
Context {S : Type} (I : S -> Prop).

Lemma keeps_ret {A} (a : A) : keeps I (mret (M := M S) a).
Proof. by intros s. Qed.
Lemma keeps_throw {A} e : keeps I (throw (A := A) e).
Proof. by intros s. Qed.
Lemma keeps_stop {A} h : keeps I (stop (A := A) h).
Proof. by intros s. Qed.
Lemma keeps_getS : keeps I getS.
Proof. by intros s. Qed.
Lemma keeps_gets {A} (f : S -> A) : keeps I (gets f).
Proof. by intros s. Qed.
Lemma keeps_modifyS f : (forall s, I s -> I (f s)) -> keeps I (modifyS f).
Proof. intros H s. apply H. Qed.
Lemma keeps_fail_if b e : keeps I (fail_if b e).
Proof. by destruct b; intros s. Qed.
Lemma keeps_panic_if b : keeps I (panic_if b).
Proof. by destruct b; intros s. Qed.
Lemma keeps_assert_that b : keeps I (assert_that b).
Proof. by destruct b; intros s. Qed.

Lemma keeps_bind {A B} (m : M S A) (f : A -> M S B) :
  keeps I m -> (forall a, keeps I (f a)) -> keeps I (x ← m; f x).
Proof.
  intros Hm Hf s HI. specialize (Hm s HI). unfold mbind, M_bind.
  destruct (m s) as [[a|e|h] s1]; [|done..]. by apply Hf.
Qed.

Lemma keeps_or_return {A} (m : M S A) e : keeps I m -> keeps I (or_return m e).
Proof.
  intros Hm s HI. specialize (Hm s HI). unfold or_return.
  by destruct (m s) as [[] ?].
Qed.

Lemma keeps_attempt {A} (m : M S A) : keeps I m -> keeps I (attempt m).
Proof.
  intros Hm s HI. specialize (Hm s HI). unfold attempt.
  by destruct (m s) as [[] ?].
Qed.

Lemma keeps_status_of {A} (m : M S A) : keeps I m -> keeps I (status_of m).
Proof.
  intros Hm s HI. specialize (Hm s HI). unfold status_of.
  by destruct (m s) as [[] ?].
Qed.

Lemma keeps_for_range {A} lo hi (body : Z -> M S (option A)) :
  (forall i, keeps I (body i)) -> keeps I (for_range lo hi body).
Proof.
  intros Hb. unfold for_range. generalize (Z.to_nat (hi - lo)) as n.
  intros n. revert lo. induction n as [|n IH]; intros lo; simpl; [apply keeps_ret|].
  apply keeps_bind; [apply Hb|]. intros [a|]; [apply keeps_ret | apply IH].
Qed.

Lemma keeps_fold_range {A} lo hi (acc : A) body :
  (forall i a, keeps I (body i a)) -> keeps I (fold_range lo hi acc body).
Proof.
  intros Hb. unfold fold_range. generalize (Z.to_nat (hi - lo)) as n.
  intros n. revert lo acc. induction n as [|n IH]; intros lo acc; simpl; [apply keeps_ret|].
  apply keeps_bind; [apply Hb|]. intros a. apply IH.
Qed.
End KeepsRules.

#[export] Hint Resolve keeps_ret keeps_throw keeps_stop keeps_getS keeps_gets
  keeps_fail_if keeps_panic_if keeps_assert_that keeps_or_return keeps_attempt
  keeps_status_of : keeps.
#[export] Hint Resolve keeps_for_range keeps_fold_range : keeps.

(** Prove [keeps I m] by following the statements of [m]. *)
Ltac keeps_step :=
  lazymatch goal with
  | |- forall _, _ => intros ?
  | |- keeps _ (mbind _ _) => apply keeps_bind
  | |- keeps _ (match ?x with _ => _ end) => destruct x
  | |- keeps _ (let _ := _ in _) => cbv zeta
  | |- keeps _ (for_range _ _ _) => apply keeps_for_range
  | |- keeps _ (fold_range _ _ _ _) => apply keeps_fold_range
  | |- keeps _ (or_return _ _) => apply keeps_or_return
  | |- keeps _ (attempt _) => apply keeps_attempt
  | |- keeps _ (status_of _) => apply keeps_status_of
  | |- keeps _ _ => solve [eauto with keeps]
  end.
Ltac keeps_auto := repeat keeps_step.

(** [keeps_to I m Q]: every outcome of [m] keeps [I], and a normal return
    moreover yields a result satisfying [Q]. *)
Definition keeps_to {S A} (I : S -> Prop) (m : M S A) (Q : A -> Prop) : Prop :=
  forall s, I s -> I (m s).2 /\ (forall a, (m s).1 = Val a -> Q a).

Section KeepsToRules.
Context {S : Type} (I : S -> Prop).

Lemma keeps_to_keeps {A} (m : M S A) Q : keeps_to I m Q -> keeps I m.
Proof. intros H s HI. by apply H. Qed.

Lemma keeps_to_True {A} (m : M S A) : keeps I m -> keeps_to I m (fun _ => True).
Proof. intros H s HI. split; [by apply H|done]. Qed.

Lemma keeps_to_bind {A B} (m : M S A) (f : A -> M S B) P Q :
  keeps_to I m P -> (forall a, P a -> keeps_to I (f a) Q) ->
  keeps_to I (x ← m; f x) Q.
Proof.
  intros Hm Hf s HI. destruct (Hm s HI) as [H1 H2]. unfold mbind, M_bind.
  destruct (m s) as [[a|e|h] s1]; [|done..]. apply Hf; [by apply H2|done].
Qed.

(** The continuation may rely on what the first statement returned. *)
Lemma keeps_bind_to {A B} (m : M S A) (f : A -> M S B) P :
  keeps_to I m P -> (forall a, P a -> keeps I (f a)) -> keeps I (x ← m; f x).
Proof.
  intros Hm Hf s HI. destruct (Hm s HI) as [H1 H2]. unfold mbind, M_bind.
  destruct (m s) as [[a|e|h] s1]; [|done..]. apply Hf; [by apply H2|done].
Qed.

Lemma keeps_to_weaken {A} (m : M S A) P Q :
  (forall a, P a -> Q a) -> keeps_to I m P -> keeps_to I m Q.
Proof. intros HPQ Hm s HI. destruct (Hm s HI). eauto. Qed.

Lemma keeps_to_or_return {A} (m : M S A) e Q :
  keeps_to I m Q -> keeps_to I (or_return m e) Q.
Proof.
  intros Hm s HI. specialize (Hm s HI). unfold or_return.
  destruct (m s) as [[a|e'|h] s1]; cbn in *; intuition congruence.
Qed.

Lemma keeps_to_attempt {A} (m : M S A) Q :
  keeps_to I m Q -> keeps_to I (attempt m) (fun r => match r with inl _ => True | inr a => Q a end).
Proof.
  intros Hm s HI. specialize (Hm s HI). unfold attempt.
  destruct (m s) as [[a|e'|h] s1]; cbn in *; split; try tauto;
    intros r [= <-]; [by apply Hm|done].
Qed.

Lemma keeps_to_ret {A} (a : A) (Q : A -> Prop) : Q a -> keeps_to I (mret (M := M S) a) Q.
Proof. intros HQ s HI. split; [done|]. by intros ? [= <-]. Qed.

Lemma keeps_to_fail_if b e : keeps_to I (fail_if b e) (fun _ => b = false).
Proof. intros s HI. by destruct b. Qed.
End KeepsToRules.

(** [leads I m J]: started in a state satisfying [I], every outcome of [m] ends
    in a state satisfying [J]. *)
Definition leads {S A} (I : S -> Prop) (m : M S A) (J : S -> Prop) : Prop :=
  forall s, I s -> J (m s).2.

Section LeadsRules.
Context {S : Type} (I J : S -> Prop).

Lemma leads_keeps {A} (m : M S A) : (forall s, I s -> J s) -> keeps J m -> leads I m J.
Proof. intros HIJ Hm s HI. by apply Hm, HIJ. Qed.

Lemma leads_post {A} (m : M S A) (K : S -> Prop) :
  (forall s, K s -> J s) -> leads I m K -> leads I m J.
Proof. intros HKJ Hm s HI. by apply HKJ, Hm. Qed.

(** The first statement stays in [I], the rest goes to [J]. *)
Lemma leads_bind {A B} (m : M S A) (f : A -> M S B) :
  (forall s, I s -> J s) -> keeps I m -> (forall a, leads I (f a) J) ->
  leads I (x ← m; f x) J.
Proof.
  intros HIJ Hm Hf s HI. specialize (Hm s HI). unfold mbind, M_bind.
  destruct (m s) as [[a|e|h] s1]; [|by apply HIJ..]. by apply Hf.
Qed.

(** The first statement goes to [J], the rest stays there. *)
Lemma leads_bind_after {A B} (m : M S A) (f : A -> M S B) :
  leads I m J -> (forall a, keeps J (f a)) -> leads I (x ← m; f x) J.
Proof.
  intros Hm Hf s HI. specialize (Hm s HI). unfold mbind, M_bind.
  destruct (m s) as [[a|e|h] s1]; [|done..]. by apply Hf.
Qed.

Lemma leads_bind_to {A B} (m : M S A) (f : A -> M S B) P :
  (forall s, I s -> J s) -> keeps_to I m P -> (forall a, P a -> leads I (f a) J) ->
  leads I (x ← m; f x) J.
Proof.
  intros HIJ Hm Hf s HI. destruct (Hm s HI) as [H1 H2]. unfold mbind, M_bind.
  destruct (m s) as [[a|e|h] s1]; [|by apply HIJ..]. apply Hf; [by apply H2|done].
Qed.
End LeadsRules.

Lemma keeps_to_gets {S A} (I : S -> Prop) (f : S -> A) (Q : A -> Prop) :
  (forall s, I s -> Q (f s)) -> keeps_to I (gets f) Q.
Proof. intros H s HI. split; [done|]. intros a [= <-]. by apply H. Qed.

(** ** Weakest preconditions

    [wp m Q E H s]: run from [s], [m] ends with a result and a state satisfying
    [Q], with an error and a state satisfying [E], or without returning in a state
    satisfying [H]. *)
Definition wp {S A} (m : M S A) (Q : A -> S -> Prop) (E : Z -> S -> Prop) (H : halt -> S -> Prop)
    (s : S) : Prop :=
  match m s with
  | (Val a, s') => Q a s'
  | (Err e, s') => E e s'
  | (Halt h, s') => H h s'
  end.

Section WpRules.
Context {S : Type}.
Implicit Types (E : Z -> S -> Prop) (H : halt -> S -> Prop) (s : S).

Lemma wp_bind {A B} (m : M S A) (f : A -> M S B) Q E H s :
  wp m (fun a => wp (f a) Q E H) E H s -> wp (x ← m; f x) Q E H s.
Proof. unfold wp, mbind, M_bind. by destruct (m s) as [[] ?]. Qed.

Lemma wp_ret {A} (a : A) (Q : A -> S -> Prop) E H s : Q a s -> wp (mret a) Q E H s.
Proof. done. Qed.
Lemma wp_throw {A} e (Q : A -> S -> Prop) E H s : E e s -> wp (throw e) Q E H s.
Proof. done. Qed.
Lemma wp_stop {A} h (Q : A -> S -> Prop) E H s : H h s -> wp (stop h) Q E H s.
Proof. done. Qed.
Lemma wp_getS (Q : S -> S -> Prop) E H s : Q s s -> wp getS Q E H s.
Proof. done. Qed.
Lemma wp_gets {A} (f : S -> A) (Q : A -> S -> Prop) E H s : Q (f s) s -> wp (gets f) Q E H s.
Proof. done. Qed.
Lemma wp_modifyS f (Q : unit -> S -> Prop) E H s : Q tt (f s) -> wp (modifyS f) Q E H s.
Proof. done. Qed.

Lemma wp_fail_if b e (Q : unit -> S -> Prop) E H s :
  (b = true -> E e s) -> (b = false -> Q tt s) -> wp (fail_if b e) Q E H s.
Proof. intros. destruct b; unfold wp; cbn; auto. Qed.

Lemma wp_assert_that b (Q : unit -> S -> Prop) E H s :
  (b = false -> H AssertFail s) -> (b = true -> Q tt s) -> wp (assert_that b) Q E H s.
Proof. intros. destruct b; unfold wp; cbn; auto. Qed.

Lemma wp_or_return {A} (m : M S A) e (Q : A -> S -> Prop) E H s :
  wp m Q (fun _ => E e) H s -> wp (or_return m e) Q E H s.
Proof. unfold wp, or_return. by destruct (m s) as [[] ?]. Qed.

Lemma wp_attempt {A} (m : M S A) (Q : Z + A -> S -> Prop) E H s :
  wp m (fun a => Q (inr a)) (fun e => Q (inl e)) H s -> wp (attempt m) Q E H s.
Proof. unfold wp, attempt. by destruct (m s) as [[] ?]. Qed.

Lemma wp_status_of {A} (m : M S A) (Q : Z -> S -> Prop) E H s :
  wp m (fun _ => Q PSA_SUCCESS) Q H s -> wp (status_of m) Q E H s.
Proof. unfold wp, status_of. by destruct (m s) as [[] ?]. Qed.

Lemma wp_mono {A} (m : M S A) (Q Q' : A -> S -> Prop) E E' H H' s :
  wp m Q E H s -> (forall a s', Q a s' -> Q' a s') -> (forall e s', E e s' -> E' e s') ->
  (forall h s', H h s' -> H' h s') -> wp m Q' E' H' s.
Proof. unfold wp. destruct (m s) as [[] ?]; auto. Qed.

Lemma wp_true {A} (m : M S A) s : wp m (fun _ _ => True) (fun _ _ => True) (fun _ _ => True) s.
Proof. unfold wp. by destruct (m s) as [[] ?]. Qed.

Lemma wp_and {A} (m : M S A) (Q Q' : A -> S -> Prop) E E' H H' s :
  wp m Q E H s -> wp m Q' E' H' s ->
  wp m (fun a s' => Q a s' /\ Q' a s') (fun e s' => E e s' /\ E' e s') (fun h s' => H h s' /\ H' h s') s.
Proof. unfold wp. by destruct (m s) as [[] ?]. Qed.

Lemma wp_keeps {A} (I : S -> Prop) (m : M S A) s :
  keeps I m -> I s -> wp m (fun _ => I) (fun _ => I) (fun _ => I) s.
Proof. intros Hm HI. specialize (Hm s HI). unfold wp. by destruct (m s) as [[] ?]. Qed.

Lemma wp_val {A} (m : M S A) (Q : A -> S -> Prop) E H s a s' :
  wp m Q E H s -> m s = (Val a, s') -> Q a s'.
Proof. unfold wp. intros Hw Hm. by rewrite Hm in Hw. Qed.

Lemma wp_ext {A} (m m' : M S A) (Q : A -> S -> Prop) E H s :
  m s = m' s -> wp m' Q E H s -> wp m Q E H s.
Proof. unfold wp. by intros ->. Qed.

Lemma wp_run {A} (m : M S A) (Q : A -> S -> Prop) E H s a s' :
  m s = (Val a, s') -> Q a s' -> wp m Q E H s.
Proof. unfold wp. intros Hm HQ. by rewrite Hm. Qed.
End WpRules.

(** Follow the statements of a computation; what is left are the conditions on its
    branches and the calls that have a specification of their own. *)
Ltac wp_step :=
  lazymatch goal with
  | |- wp (mbind _ _) _ _ _ _ => apply wp_bind
  | |- wp (mret _) _ _ _ _ => apply wp_ret
  | |- wp (throw _) _ _ _ _ => apply wp_throw
  | |- wp (stop _) _ _ _ _ => apply wp_stop
  | |- wp getS _ _ _ _ => apply wp_getS
  | |- wp (gets _) _ _ _ _ => apply wp_gets
  | |- wp (modifyS _) _ _ _ _ => apply wp_modifyS
  | |- wp (fail_if _ _) _ _ _ _ => apply wp_fail_if; intros ?
  | |- wp (assert_that _) _ _ _ _ => apply wp_assert_that; intros ?
  | |- wp (or_return _ _) _ _ _ _ => apply wp_or_return
  | |- wp (attempt _) _ _ _ _ => apply wp_attempt
  | |- wp (status_of _) _ _ _ _ => apply wp_status_of
  | |- wp (let _ := _ in _) _ _ _ _ => cbv zeta
  end.
Ltac wp_auto := repeat wp_step.

(** ** Byte sequences: facts *)

Lemma le32_length x : length (le32 x) = 4%nat.
Proof. done. Qed.

Lemma le32_bytes x : is_bytes (le32 x).
Proof. unfold is_bytes, le32. repeat constructor; apply Z.mod_pos_bound; lia. Qed.

Lemma of_le32_le32 x l : is_u32 x -> of_le32 (le32 x ++ l) = x.
Proof. unfold is_u32, of_le32, le32, u8. cbn [app]. lia. Qed.

Lemma of_le32_range l : is_bytes l -> is_u32 (of_le32 l).
Proof.
  unfold is_bytes, is_u8, is_u32, of_le32.
  destruct l as [|b0 [|b1 [|b2 [|b3 l]]]]; rewrite ?Forall_cons; intros; lia.
Qed.

Lemma le32_of_le32 b0 b1 b2 b3 :
  is_bytes [b0; b1; b2; b3] -> le32 (of_le32 [b0; b1; b2; b3]) = [b0; b1; b2; b3].
Proof.
  unfold is_bytes, is_u8, le32, of_le32, u8. rewrite !Forall_cons. intros (?&?&?&?&_).
  repeat f_equal; lia.
Qed.

Lemma u16_small x : is_u16 x -> u16 x = x.
Proof. intros. by apply Z.mod_small. Qed.
Lemma of_le16_le16 x l : is_u16 x -> of_le16 (le16 x ++ l) = x.
Proof. unfold of_le16, le16, is_u16, u8. cbn -[Z.pow]. lia. Qed.

Lemma of_le64_le64 x l : is_u64 x -> of_le64 (le64 x ++ l) = x.
Proof.
  unfold is_u64. intros Hx. unfold of_le64, le64. rewrite <- app_assoc.
  change (drop 4 (le32 x ++ le32 (x / 2 ^ 32) ++ l)) with (le32 (x / 2 ^ 32) ++ l).
  rewrite (of_le32_le32 (x / 2 ^ 32)) by (unfold is_u32; lia).
  replace (le32 x) with (le32 (x mod 2 ^ 32)).
  - rewrite of_le32_le32 by (unfold is_u32; lia). lia.
  - unfold le32, u8. f_equal; [lia|]. f_equal; [lia|]. f_equal; [lia|]. f_equal. lia.
Qed.

Lemma le64_length x : length (le64 x) = 8%nat.
Proof. done. Qed.

Lemma slice_app_l (l r : bytes) n : length l = n -> slice (l ++ r) 0 n = l.
Proof. intros <-. unfold slice. by rewrite drop_0, take_app_length. Qed.
Lemma slice_after (l r : bytes) k i n : length l = k -> (k <= i)%nat ->
  slice (l ++ r) i n = slice r (i - k) n.
Proof. intros <- Hi. unfold slice. by rewrite drop_app_ge. Qed.
Lemma drop_after (l r : bytes) k i : length l = k -> (k <= i)%nat ->
  drop i (l ++ r) = drop (i - k) r.
Proof. intros <- Hi. by apply drop_app_ge. Qed.
Lemma drop_all_after (l r : bytes) i : length l = i -> drop i (l ++ r) = r.
Proof. intros <-. apply drop_app_length. Qed.


(** A check that concrete lists satisfy by computation. *)
Definition bytes_check (l : bytes) : bool := forallb (fun x => (0 <=? x) && (x <? 256)) l.

Lemma bytes_check_ok l : bytes_check l = true -> is_bytes l.
Proof.
  unfold bytes_check, is_bytes, is_u8. induction l as [|x l IH]; simpl; [constructor|].
  rewrite !andb_true_iff, Z.leb_le, Z.ltb_lt. intros [? ?]. constructor; [lia|auto].
Qed.

Lemma length_splice l i x : (i + length x <= length l)%nat ->
  length (splice l i x) = length l.
Proof. intros. unfold splice. rewrite !length_app, length_take, length_drop. lia. Qed.

Lemma lookup_splice l i x j : (i + length x <= length l)%nat ->
  splice l i x !! j =
    if decide (i <= j < i + length x)%nat then x !! (j - i)%nat else l !! j.
Proof.
  intros Hl. unfold splice.
  destruct (decide (j < i)%nat).
  - rewrite lookup_app_l by (rewrite length_take; lia).
    rewrite lookup_take_lt by lia. case_decide; [lia|done].
  - rewrite lookup_app_r by (rewrite length_take; lia).
    rewrite length_take, Nat.min_l by lia.
    destruct (decide (j < i + length x)%nat).
    + rewrite lookup_app_l by lia. case_decide; [done|lia].
    + rewrite lookup_app_r by lia. rewrite lookup_drop.
      case_decide; [lia|]. f_equal. lia.
Qed.

Lemma length_slice l i n : (i + n <= length l)%nat -> length (slice l i n) = n.
Proof. intros. unfold slice. rewrite length_take, length_drop. lia. Qed.

Lemma lookup_slice l i n j : (j < n)%nat -> slice l i n !! j = l !! (i + j)%nat.
Proof. intros. unfold slice. rewrite lookup_take_lt, lookup_drop by lia. done. Qed.

Lemma is_bytes_splice l i x : is_bytes l -> is_bytes x -> is_bytes (splice l i x).
Proof.
  unfold is_bytes, splice. intros. repeat apply Forall_app_2; eauto using Forall_take, Forall_drop.
Qed.

Lemma is_bytes_slice l i n : is_bytes l -> is_bytes (slice l i n).
Proof. unfold is_bytes, slice. eauto using Forall_take, Forall_drop. Qed.

(** ** Loops *)

Lemma for_range_nil {S A} lo hi (body : Z -> M S (option A)) s :
  hi <= lo -> for_range lo hi body s = (Val None, s).
Proof. intros. unfold for_range. by replace (Z.to_nat (hi - lo)) with O by lia. Qed.

Lemma for_range_step {S A} lo hi (body : Z -> M S (option A)) s :
  lo < hi ->
  for_range lo hi body s =
    (r ← body lo;
     match r with Some a => mret (Some a) | None => for_range (lo + 1) hi body end) s.
Proof.
  intros. unfold for_range.
  replace (Z.to_nat (hi - lo)) with (Datatypes.S (Z.to_nat (hi - (lo + 1)))) by lia. done.
Qed.

Lemma fold_range_nil {S A} lo hi (acc : A) (body : Z -> A -> M S A) s :
  hi <= lo -> fold_range lo hi acc body s = (Val acc, s).
Proof. intros. unfold fold_range. by replace (Z.to_nat (hi - lo)) with O by lia. Qed.

Lemma fold_range_step {S A} lo hi (acc : A) (body : Z -> A -> M S A) s :
  lo < hi ->
  fold_range lo hi acc body s =
    (acc' ← body lo acc; fold_range (lo + 1) hi acc' body) s.
Proof.
  intros. unfold fold_range.
  replace (Z.to_nat (hi - lo)) with (Datatypes.S (Z.to_nat (hi - (lo + 1)))) by lia. done.
Qed.

(** A search loop: the body keeps [R] and what it does in round [i] is [p i], an
    error, a hit or nothing.  The loop stops at the first round that is an error
    or a hit. *)
Definition search_outcome {A} (r : Z + option A) : outcome (option A) :=
  match r with inl e => Err e | inr o => Val o end.

Definition first_outcome {A} (p : Z -> Z + option A) (lo hi : Z) (r : Z + option A) : Prop :=
  (r = inr None /\ forall j, lo <= j < hi -> p j = inr None) \/
  (r <> inr None /\ exists i, lo <= i < hi /\ p i = r /\ forall j, lo <= j < i -> p j = inr None).

Lemma bind_search {S A B} (m : M S (option A)) (k : option A -> M S B) s r s' :
  m s = (search_outcome r, s') ->
  (x ← m; k x) s = match r with inl e => (Err e, s') | inr o => k o s' end.
Proof. intros H. unfold mbind, M_bind. rewrite H. by destruct r. Qed.

Lemma for_range_search {S A} (body : Z -> M S (option A)) (p : Z -> Z + option A)
    (R : S -> Prop) lo hi s :
  R s ->
  (forall i s1, lo <= i < hi -> R s1 ->
     exists s2, R s2 /\ body i s1 = (search_outcome (p i), s2)) ->
  exists r s', R s' /\ for_range lo hi body s = (search_outcome r, s') /\ first_outcome p lo hi r.
Proof.
  remember (Z.to_nat (hi - lo)) as n eqn:En.
  revert lo s En. induction n as [|n IH]; intros lo s En HR Hb.
  - exists (inr None), s. split; [done|]. split; [by apply for_range_nil; lia|].
    left. split; [done|]. intros; lia.
  - rewrite for_range_step by lia. destruct (Hb lo s ltac:(lia) HR) as (s1 & HR1 & Hr).
    destruct (p lo) as [e|[a|]] eqn:Ep; simpl in Hr.
    + exists (inl e), s1. split; [done|]. split; [by erewrite bind_err by exact Hr|].
      right. split; [done|]. exists lo. split_and!; [lia|lia|done|intros; lia].
    + exists (inr (Some a)), s1. split; [done|]. split; [by erewrite bind_val by exact Hr|].
      right. split; [done|]. exists lo. split_and!; [lia|lia|done|intros; lia].
    + destruct (IH (lo + 1) s1) as (r & s2 & HR2 & Hrun & Hf); [lia|done|intros; apply Hb; [lia|done]|].
      exists r, s2. split; [done|]. split; [by erewrite bind_val by exact Hr|].
      assert (forall j, lo <= j -> lo + 1 <= j \/ j = lo) as Hlo by lia.
      destruct Hf as [[-> Hn]|[Hne (i & Hi & Hpi & Hn)]]; [left|right].
      * split; [done|]. intros j Hj. destruct (Hlo j); [lia|apply Hn; lia|by subst].
      * split; [done|]. exists i. split_and!; [lia|lia|done|].
        intros j Hj. destruct (Hlo j); [lia|apply Hn; lia|by subst].
Qed.

(** A loop whose body never leaves it carries an invariant from the first index to
    the last. *)
Lemma for_range_leads {S A} (P : Z -> S -> Prop) lo hi (body : Z -> M S (option A)) : lo <= hi ->
  (forall i s, lo <= i < hi -> P i s -> exists s', body i s = (Val None, s') /\ P (i + 1) s') ->
  forall s, P lo s -> exists s', for_range lo hi body s = (Val None, s') /\ P hi s'.
Proof.
  intros Hle. remember (Z.to_nat (hi - lo)) as n eqn:En. revert lo Hle En.
  induction n as [|n IH]; intros lo Hle En Hb s HP.
  - exists s. rewrite for_range_nil by lia. by replace hi with lo by lia.
  - rewrite for_range_step by lia. destruct (Hb lo s ltac:(lia) HP) as (s1 & H1 & HP1).
    rewrite (bind_val _ _ _ _ _ H1). apply IH; [lia|lia| |done]. intros i s2 Hi. apply Hb. lia.
Qed.

(** A loop that only leaves early through an error: an invariant of its rounds
    holds at the end of a normal run. *)
Lemma for_range_val {S A} (P : Z -> S -> Prop) lo hi (body : Z -> M S (option A)) :
  (forall i s s' r, lo <= i < hi -> P i s -> body i s = (Val r, s') -> r = None /\ P (i + 1) s') ->
  forall s s' r, P lo s -> for_range lo hi body s = (Val r, s') -> r = None /\ P (Z.max lo hi) s'.
Proof.
  remember (Z.to_nat (hi - lo)) as n eqn:En. revert lo En.
  induction n as [|n IH]; intros lo En Hb s s' r HP Hrun.
  - rewrite for_range_nil in Hrun by lia. injection Hrun as <- <-.
    split; [done|]. by rewrite Z.max_l by lia.
  - rewrite for_range_step in Hrun by lia. apply bind_val_inv in Hrun as (r1 & s1 & H1 & H2).
    destruct (Hb lo s s1 r1 ltac:(lia) HP H1) as [-> HP1].
    destruct (IH (lo + 1) ltac:(lia)) with (s := s1) (s' := s') (r := r) as [-> HP']; [|done|done|].
    + intros i t t' r' Hi. apply Hb. lia.
    + split; [done|]. by replace (Z.max lo hi) with (Z.max (lo + 1) hi) by lia.
Qed.

Lemma wp_fold_range {S A} (P : Z -> A -> S -> Prop) lo hi acc body (Q : A -> S -> Prop) E H s :
  lo <= hi -> P lo acc s ->
  (forall i a s, lo <= i < hi -> P i a s -> wp (body i a) (fun a' s' => P (i + 1) a' s') E H s) ->
  (forall a s, P hi a s -> Q a s) ->
  wp (fold_range lo hi acc body) Q E H s.
Proof.
  intros Hle HP Hbody HQ. unfold fold_range.
  remember (Z.to_nat (hi - lo)) as n eqn:Hn. revert lo acc s Hle HP Hbody Hn.
  induction n as [|n IH]; intros lo acc s Hle HP Hbody Hn; cbn [fold_fuel].
  - apply wp_ret, HQ. by replace hi with lo by lia.
  - apply wp_bind. eapply wp_mono; [by apply Hbody; [lia|]|..]; cbn beta; [|done..].
    intros a' s' HP'. apply IH; [lia|done| |lia]. intros; apply Hbody; [lia|done].
Qed.

(** The same for a loop that only leaves early through an error. *)
Lemma wp_for_range {S A} (P : Z -> S -> Prop) lo hi (body : Z -> M S (option A)) (Q : option A -> S -> Prop) E H s :
  lo <= hi -> P lo s ->
  (forall i s, lo <= i < hi -> P i s -> wp (body i) (fun r s' => r = None /\ P (i + 1) s') E H s) ->
  (forall s, P hi s -> Q None s) ->
  wp (for_range lo hi body) Q E H s.
Proof.
  intros Hle HP Hbody HQ. unfold for_range.
  remember (Z.to_nat (hi - lo)) as n eqn:Hn. revert lo s Hle HP Hbody Hn.
  induction n as [|n IH]; intros lo s Hle HP Hbody Hn; cbn [for_fuel].
  - apply wp_ret, HQ. by replace hi with lo by lia.
  - apply wp_bind. eapply wp_mono; [by apply Hbody; [lia|]|..]; cbn beta; [|done..].
    intros r s' [-> HP']. apply IH; [lia|done| |lia]. intros; apply Hbody; [lia|done].
Qed.

(** The doubling loop does the rounds of the plain one. *)
Fixpoint while_fuel {S X R} (k : nat) (step : X -> M S (X + R)) (x : X) : M S (X + R) :=
  match k with
  | O => mret (inl x)
  | Datatypes.S k' =>
      r ← step x;
      match r with
      | inl x' => while_fuel k' step x'
      | inr v => mret (inr v)
      end
  end.

Lemma while_fuel_add {S X R} (step : X -> M S (X + R)) j k x s :
  while_fuel (j + k) step x s =
    (r ← while_fuel j step x;
     match r with inl x' => while_fuel k step x' | inr v => mret (inr v) end) s.
Proof.
  revert x s. induction j as [|j IH]; intros x s; [done|].
  simpl. unfold mbind, M_bind. destruct (step x s) as [[[x'|v]|e|h] s']; [|done..].
  rewrite IH. done.
Qed.

Lemma while_pow_fuel {S X R} (step : X -> M S (X + R)) n x s :
  while_pow n step x s = while_fuel (2 ^ n) step x s.
Proof.
  revert x s. induction n as [|n IH]; intros x s.
  - simpl. unfold mbind, M_bind. by destruct (step x s) as [[[x'|v]|e|h] s'].
  - replace (2 ^ Datatypes.S n)%nat with (2 ^ n + 2 ^ n)%nat by (simpl; lia).
    rewrite while_fuel_add. simpl. unfold mbind, M_bind. rewrite IH.
    destruct (while_fuel (2 ^ n) step x s) as [[[x'|v]|e|h] s']; try done.
Qed.

(** A loop whose rounds succeed and decrease a measure below [2 ^ 32] leaves
    through its exit: [P] is the loop invariant; it may speak of a ghost value
    that the loop does not compute, and the measure is one of the ghost. *)
Lemma while_loop_ghost {S X R G} (step : X -> M S (X + R)) (P : X -> G -> S -> Prop)
    (Q : R -> S -> Prop) (measure : G -> Z) :
  (forall x g s, P x g s -> exists r s', step x s = (Val r, s') /\
     match r with
     | inl x' => exists g', P x' g' s' /\ 0 <= measure g' < measure g
     | inr v => Q v s'
     end) ->
  forall x g s, P x g s -> 0 <= measure g < 2 ^ 32 ->
  exists v s', while_loop step x s = (Val v, s') /\ Q v s'.
Proof.
  intros Hstep.
  assert (forall k x g s, P x g s -> 0 <= measure g < Z.of_nat k ->
    exists v s', while_fuel k step x s = (Val (inr v), s') /\ Q v s') as Hfuel.
  { induction k as [|k IH]; intros x g s HP Hm; [lia|].
    destruct (Hstep x g s HP) as (r & s' & Hr & Hpost). simpl.
    rewrite (bind_val _ _ _ _ _ Hr). destruct r as [x'|v]; [|by eauto].
    destruct Hpost as (g' & HP' & Hm'). apply (IH _ g'); [done|lia]. }
  intros x g s HP Hm. unfold while_loop.
  destruct (Hfuel (2 ^ 32)%nat x g s HP) as (v & s' & Hv & HQ).
  { rewrite Nat2Z.inj_pow. done. }
  exists v, s'. split; [|done]. rewrite (bind_val _ _ s (inr v) s'); [done|].
  by rewrite while_pow_fuel.
Qed.

Lemma while_loop_total {S X R} (step : X -> M S (X + R)) (P : X -> S -> Prop)
    (Q : R -> S -> Prop) (measure : X -> Z) :
  (forall x s, P x s -> exists r s', step x s = (Val r, s') /\
     match r with
     | inl x' => P x' s' /\ 0 <= measure x' < measure x
     | inr v => Q v s'
     end) ->
  forall x s, P x s -> 0 <= measure x < 2 ^ 32 ->
  exists v s', while_loop step x s = (Val v, s') /\ Q v s'.
Proof.
  intros Hstep x s HP Hm.
  apply (while_loop_ghost step (fun x g s => P x s /\ g = measure x) Q (fun g => g))
    with (g := measure x); [|done|done].
  clear - Hstep. intros x g s [HP ->]. destruct (Hstep x s HP) as (r & s' & Hr & Hpost).
  exists r, s'. split; [done|]. destruct r; [|done]. destruct Hpost. eauto.
Qed.

Lemma wp_while {S X R} (step : X -> M S (X + R)) (P : X -> S -> Prop) (Q : R -> S -> Prop)
    E H (measure : X -> Z) :
  (forall x s, P x s -> wp (step x) (fun r s' =>
     match r with inl x' => P x' s' /\ 0 <= measure x' < measure x | inr v => Q v s' end) E H s) ->
  forall x s, P x s -> 0 <= measure x < 2 ^ 32 -> wp (while_loop step x) Q E H s.
Proof.
  intros Hstep.
  assert (forall k x s, P x s -> 0 <= measure x < Z.of_nat k ->
    wp (while_fuel k step x) (fun r s' => exists v, r = inr v /\ Q v s') E H s) as Hfuel.
  { induction k as [|k IH]; intros x s HP Hm; [lia|]. cbn [while_fuel]. apply wp_bind.
    eapply wp_mono; [by apply Hstep|..]; cbn beta; [|done..].
    intros [x'|v] s' Hpost; [apply IH; [apply Hpost|lia]|]. apply wp_ret. by exists v. }
  intros x s HP Hm. unfold while_loop. apply wp_bind.
  assert (wp (while_pow 32 step x) (fun r s' => exists v, r = inr v /\ Q v s') E H s) as Hw.
  { apply (wp_ext _ _ _ _ _ _ (while_pow_fuel step 32 x s)). apply Hfuel; [done|].
    rewrite Nat2Z.inj_pow. done. }
  eapply wp_mono; [exact Hw|..]; cbn beta; [|done..]. intros r s' (v & -> & HQ). by apply wp_ret.
Qed.

Lemma keeps_while_loop {S X R} (I : S -> Prop) (step : X -> M S (X + R)) x :
  (forall x', keeps I (step x')) -> keeps I (while_loop step x).
Proof.
  intros Hs. unfold while_loop. apply keeps_bind.
  - generalize 32%nat as n. intros n. revert x.
    induction n as [|n IH]; intros x; simpl; [apply Hs|].
    apply keeps_bind; [apply IH|]. intros [x'|v]; [apply IH|apply keeps_ret].
  - intros [x'|v]; [apply keeps_stop|apply keeps_ret].
Qed.
#[export] Hint Resolve keeps_while_loop : keeps.
