(* ===== verification/Flash.v ===== *)
(** The flash interface of Internal Trusted Storage: the filesystem
    configuration, the operation table [its_flash_fs_ops_t] as a class, and the
    two contracts the filesystem relies on (locality and byte-level meaning). *)

From stdpp Require Import base list numbers gmap.
From S2P Require Import Prelude.

(** [struct its_flash_fs_config_t]; [flash_dev] is the device state the
    operations of [FlashOps] act on. *)
Record its_flash_fs_config_t := mk_fs_config {
  flash_area_addr : Z;
  sector_size : Z;
  block_size : Z;
  num_blocks : Z;
  program_unit : Z;
  max_file_size : Z;
  max_num_files : Z;
  erase_val : Z;
}.

(** The field ranges of the C types. *)
Definition cfg_typed (cfg : its_flash_fs_config_t) : Prop :=
  is_u32 (flash_area_addr cfg) /\ is_u32 (sector_size cfg) /\
  is_u32 (block_size cfg) /\ is_u16 (num_blocks cfg) /\
  is_u16 (program_unit cfg) /\ is_u16 (max_file_size cfg) /\
  is_u16 (max_num_files cfg) /\ is_u8 (erase_val cfg).

(** [struct its_flash_fs_ops_t]. *)
Class FlashOps (D : Type) := {
  op_init : its_flash_fs_config_t -> M D unit;
  op_read : its_flash_fs_config_t -> Z -> Z -> Z -> M D bytes;
  op_write : its_flash_fs_config_t -> Z -> bytes -> Z -> M D unit;
  op_flush : its_flash_fs_config_t -> Z -> M D unit;
  op_erase : its_flash_fs_config_t -> Z -> M D unit;
}.

(** "This function assumes all input values are valid. That is, the address
    range, based on block_id, offset and size, is a valid range in flash." *)
Definition valid_block (cfg : its_flash_fs_config_t) (b : Z) : bool :=
  (0 <=? b) && (b <? num_blocks cfg).
Definition valid_range (cfg : its_flash_fs_config_t) (b off n : Z) : bool :=
  valid_block cfg b && (0 <=? off) && (0 <=? n) && (off + n <=? block_size cfg).

(** What a device holds: [byte_at cfg d b o] is the byte a read of block [b] at
    offset [o] gives. *)
Class FlashView (D : Type) := {
  dev_ok : its_flash_fs_config_t -> D -> Prop;
  byte_at : its_flash_fs_config_t -> D -> Z -> Z -> option Z;
}.

Section Contracts.
Context {D : Type} `{!FlashOps D} `{!FlashView D} (cfg : its_flash_fs_config_t).

Definition same_block (b : Z) (d d' : D) : Prop :=
  forall o, byte_at cfg d' b o = byte_at cfg d b o.

(** Locality: whatever its outcome (an error, or a loss of power in the middle),
    an operation on block [b] leaves every other block as it was, and a read
    leaves every block as it was. *)
Class FlashLocal := {
  local_init : forall d b', same_block b' d (op_init cfg d).2;
  local_read : forall d b off n b', same_block b' d (op_read cfg b off n d).2;
  local_write : forall d b l off b',
    valid_range cfg b off (Z.of_nat (length l)) = true -> valid_block cfg b' = true ->
    b' <> b -> same_block b' d (op_write cfg b l off d).2;
  local_flush : forall d b b',
    valid_block cfg b = true -> valid_block cfg b' = true ->
    b' <> b -> same_block b' d (op_flush cfg b d).2;
  local_erase : forall d b b',
    valid_block cfg b = true -> valid_block cfg b' = true ->
    b' <> b -> same_block b' d (op_erase cfg b d).2;
}.

(** Byte-level meaning, for a device that works. *)
Class FlashSpec := {
  spec_in_range : forall d b o, dev_ok cfg d -> valid_range cfg b o 1 = true ->
    exists v, byte_at cfg d b o = Some v /\ is_u8 v;
  spec_init : forall d, dev_ok cfg d ->
    exists d', op_init cfg d = (Val tt, d') /\ dev_ok cfg d' /\
      (forall b, same_block b d d');
  spec_read : forall d b off n, dev_ok cfg d -> valid_range cfg b off n = true ->
    exists l d', op_read cfg b off n d = (Val l, d') /\ dev_ok cfg d' /\
      (forall b', same_block b' d d') /\
      Z.of_nat (length l) = n /\
      (forall i : nat, (i < length l)%nat -> l !! i = byte_at cfg d b (off + Z.of_nat i));
  spec_write : forall d b l off, dev_ok cfg d -> is_bytes l ->
    valid_range cfg b off (Z.of_nat (length l)) = true ->
    exists d', op_write cfg b l off d = (Val tt, d') /\ dev_ok cfg d' /\
      (forall b' o, valid_range cfg b' o 1 = true -> byte_at cfg d' b' o =
        if decide (b' = b /\ off <= o < off + Z.of_nat (length l))
        then l !! Z.to_nat (o - off) else byte_at cfg d b' o);
  spec_flush : forall d b, dev_ok cfg d -> valid_block cfg b = true ->
    exists d', op_flush cfg b d = (Val tt, d') /\ dev_ok cfg d' /\
      (forall b', same_block b' d d');
  spec_erase : forall d b, dev_ok cfg d -> valid_block cfg b = true ->
    exists d', op_erase cfg b d = (Val tt, d') /\ dev_ok cfg d' /\
      (forall b' o, valid_range cfg b' o 1 = true -> byte_at cfg d' b' o =
        if decide (b' = b) then Some (erase_val cfg) else byte_at cfg d b' o);
}.
End Contracts.

Arguments FlashLocal {D _ _} cfg.
Arguments FlashSpec {D _ _} cfg.

Lemma valid_range_spec cfg b off n :
  valid_range cfg b off n = true <->
  0 <= b < num_blocks cfg /\ 0 <= off /\ 0 <= n /\ off + n <= block_size cfg.
Proof.
  unfold valid_range, valid_block. rewrite !andb_true_iff, !Z.leb_le, Z.ltb_lt. lia.
Qed.

Lemma valid_block_spec cfg b : valid_block cfg b = true <-> 0 <= b < num_blocks cfg.
Proof. unfold valid_block. rewrite andb_true_iff, Z.leb_le, Z.ltb_lt. lia. Qed.

Lemma valid_range_block cfg b off n :
  valid_range cfg b off n = true -> valid_block cfg b = true.
Proof. rewrite valid_range_spec, valid_block_spec. tauto. Qed.

Lemma same_block_refl {D} `{!FlashView D} cfg b (d : D) : same_block cfg b d d.
Proof. by intros o. Qed.

Lemma same_block_trans {D} `{!FlashView D} cfg b (d1 d2 d3 : D) :
  same_block cfg b d1 d2 -> same_block cfg b d2 d3 -> same_block cfg b d1 d3.
Proof. intros H1 H2 o. by rewrite H2, H1. Qed.

#[export] Hint Resolve same_block_refl : core.
