(* ===== verification/FlashRam.v ===== *)
(** [flash/its_flash_ram.c]: the flash emulated in RAM, and the proof that it
    meets both contracts of [Flash]. *)

From stdpp Require Import base list numbers gmap.
From S2P Require Import Prelude Flash.

(** The device is the byte array [cfg->flash_dev] points to. *)
Definition ram_dev : Type := list Z.

Definition get_phys_address (cfg : its_flash_fs_config_t) (block_id offset : Z) : Z :=
  u32 (u32 (block_id * block_size cfg) + offset).

(** [memcpy(buff, flash_dev + idx, size)]. *)
Definition ram_load (idx n : Z) : M ram_dev bytes := fun d =>
  if (idx + n <=? Z.of_nat (length d)) && (0 <=? n)
  then (Val (slice d (Z.to_nat idx) (Z.to_nat n)), d)
  else (Halt OutOfBounds, d).

(** [memcpy(flash_dev + idx, l, length l)]. *)
Definition ram_store (idx : Z) (l : bytes) : M ram_dev unit := fun d =>
  if idx + Z.of_nat (length l) <=? Z.of_nat (length d)
  then (Val tt, splice d (Z.to_nat idx) l)
  else (Halt OutOfBounds, d).

Definition its_flash_ram_init (cfg : its_flash_fs_config_t) : M ram_dev unit :=
  mret tt.

Definition its_flash_ram_read (cfg : its_flash_fs_config_t)
    (block_id offset size : Z) : M ram_dev bytes :=
  let idx := get_phys_address cfg block_id offset in
  ram_load idx size.

Definition its_flash_ram_write (cfg : its_flash_fs_config_t)
    (block_id : Z) (buff : bytes) (offset : Z) : M ram_dev unit :=
  let idx := get_phys_address cfg block_id offset in
  ram_store idx buff.

Definition its_flash_ram_flush (cfg : its_flash_fs_config_t) (block_id : Z)
  : M ram_dev unit := mret tt.

Definition its_flash_ram_erase (cfg : its_flash_fs_config_t) (block_id : Z)
  : M ram_dev unit :=
  let idx := get_phys_address cfg block_id 0 in
  ram_store idx (replicate (Z.to_nat (block_size cfg)) (erase_val cfg)).

Definition its_flash_fs_ops_ram : FlashOps ram_dev := {|
  op_init := its_flash_ram_init;
  op_read := its_flash_ram_read;
  op_write := its_flash_ram_write;
  op_flush := its_flash_ram_flush;
  op_erase := its_flash_ram_erase;
|}.
#[export] Existing Instance its_flash_fs_ops_ram.

(** The array covers the configured area and holds bytes. *)
Definition ram_ok (cfg : its_flash_fs_config_t) (d : ram_dev) : Prop :=
  block_size cfg * num_blocks cfg <= Z.of_nat (length d) /\ is_bytes d.

Definition ram_byte_at (cfg : its_flash_fs_config_t) (d : ram_dev) (b o : Z) : option Z :=
  if valid_range cfg b o 1 then d !! Z.to_nat (b * block_size cfg + o) else None.

#[export] Instance ram_view : FlashView ram_dev := {|
  dev_ok := ram_ok;
  byte_at := ram_byte_at;
|}.

Section Ram.
Context (cfg : its_flash_fs_config_t).
Hypothesis Htyped : cfg_typed cfg.
Hypothesis Hfits : block_size cfg * num_blocks cfg <= 2 ^ 32.

Lemma phys_address_exact b o n :
  valid_range cfg b o n = true -> 0 < n ->
  get_phys_address cfg b o = b * block_size cfg + o.
Proof.
  rewrite valid_range_spec. intros (Hb & Ho & Hn & Hle) Hpos.
  destruct Htyped as (_ & _ & Hbs & _). unfold is_u32 in Hbs.
  assert (b * block_size cfg + block_size cfg <= 2 ^ 32) by nia.
  assert (0 <= b * block_size cfg) by nia.
  unfold get_phys_address. rewrite (u32_small (b * _)) by (unfold is_u32; lia).
  apply u32_small. unfold is_u32. lia.
Qed.

(** Two in-range positions of different blocks are different addresses. *)
Lemma block_positions_apart b1 o1 b2 o2 :
  0 <= o1 < block_size cfg -> 0 <= o2 < block_size cfg ->
  b1 * block_size cfg + o1 = b2 * block_size cfg + o2 -> b1 = b2 /\ o1 = o2.
Proof. intros. assert (b1 = b2) by nia. subst. lia. Qed.

Lemma ram_store_other d idx b l off b' :
  valid_range cfg b off (Z.of_nat (length l)) = true -> 
  (0 < Z.of_nat (length l) -> idx = b * block_size cfg + off) -> 0 <= idx ->
  b' <> b -> same_block cfg b' d (ram_store idx l d).2.
Proof.
  intros Hr Hidx Hpos Hne o. unfold ram_store. case_match eqn:E; [|done].
  apply Z.leb_le in E. simpl. unfold byte_at; simpl; unfold ram_byte_at.
  destruct (valid_range cfg b' o 1) eqn:Hv; [|done].
  rewrite valid_range_spec in Hr, Hv. rewrite lookup_splice by lia.
  case_decide as Hd; [|done]. exfalso. specialize (Hidx ltac:(lia)). subst idx.
  destruct (block_positions_apart b' o b (b' * block_size cfg + o - b * block_size cfg)); nia.
Qed.

#[export] Instance ram_local : FlashLocal cfg.
Proof.
  constructor.
  - intros d b'. apply same_block_refl.
  - intros d b off n b'. simpl. unfold its_flash_ram_read, ram_load.
    case_match; apply same_block_refl.
  - intros d b l off b' Hr _ Hne. simpl. unfold its_flash_ram_write.
    eapply ram_store_other; eauto; [|apply u32_range].
    intros Hl. by eapply phys_address_exact.
  - intros d b b' _ _ _. apply same_block_refl.
  - intros d b b' Hb _ Hne. simpl. unfold its_flash_ram_erase.
    rewrite valid_block_spec in Hb.
    assert (valid_range cfg b 0 (Z.of_nat (length
      (replicate (Z.to_nat (block_size cfg)) (erase_val cfg)))) = true) as Hr.
    { rewrite valid_range_spec, length_replicate.
      destruct Htyped as (_ & _ & Hbs & _). unfold is_u32 in Hbs. lia. }
    eapply ram_store_other; eauto; [|apply u32_range].
    intros Hl. by eapply phys_address_exact.
Qed.

Lemma ram_position_bound b o n d :
  ram_ok cfg d -> valid_range cfg b o n = true ->
  0 <= b * block_size cfg + o /\ b * block_size cfg + o + n <= Z.of_nat (length d).
Proof.
  intros [Hl _] Hr. rewrite valid_range_spec in Hr. nia.
Qed.

(** The address a request is turned into stays inside the array, also for an
    empty request just past the last block, where the sum may wrap to 0. *)
Lemma phys_address_bound b o n d :
  ram_ok cfg d -> valid_range cfg b o n = true ->
  get_phys_address cfg b o + n <= Z.of_nat (length d).
Proof.
  intros Hok Hr. destruct (ram_position_bound _ _ _ _ Hok Hr) as [Hp1 Hp2].
  destruct (decide (n = 0)) as [->|Hn].
  - unfold get_phys_address, u32. rewrite Z.add_mod_idemp_l by lia.
    pose proof (Z.mod_le (b * block_size cfg + o) (2 ^ 32) ltac:(lia) ltac:(lia)). lia.
  - assert (0 < n) by (apply valid_range_spec in Hr; lia).
    rewrite (phys_address_exact _ _ _ Hr) by done. lia.
Qed.

(** A store of an in-range sequence succeeds and has the interface's meaning. *)
Lemma ram_store_spec d b l off :
  ram_ok cfg d -> is_bytes l ->
  valid_range cfg b off (Z.of_nat (length l)) = true ->
  exists d', ram_store (get_phys_address cfg b off) l d = (Val tt, d') /\ ram_ok cfg d' /\
    (forall b' o, valid_range cfg b' o 1 = true -> ram_byte_at cfg d' b' o =
      if decide (b' = b /\ off <= o < off + Z.of_nat (length l))
      then l !! Z.to_nat (o - off) else ram_byte_at cfg d b' o).
Proof.
  intros Hok Hl Hr.
  destruct (ram_position_bound _ _ _ _ Hok Hr) as [Hp1 Hp2].
  destruct l as [|x l].
  - exists d. unfold ram_store. simpl length.
    assert (splice d (Z.to_nat (get_phys_address cfg b off)) [] = d) as Hs.
    { unfold splice. simpl. rewrite Nat.add_0_r. apply take_drop. }
    rewrite Hs. replace (_ <=? _) with true
      by (symmetry; apply Z.leb_le; apply (phys_address_bound _ _ _ _ Hok Hr)).
    repeat split; [apply Hok..|]. intros b' o _. case_decide; [simpl in *; lia|done].
  - rewrite (phys_address_exact _ _ _ Hr) by (simpl; lia).
    exists (splice d (Z.to_nat (b * block_size cfg + off)) (x :: l)).
    unfold ram_store. replace (_ <=? _) with true by lia.
    split; [done|]. destruct Hok as [Hlen Hb]. split.
    { split; [rewrite length_splice by lia; done|by apply is_bytes_splice]. }
    intros b' o Hv. unfold ram_byte_at. rewrite Hv.
    rewrite valid_range_spec in Hv, Hr. rewrite lookup_splice by lia.
    destruct (decide (b' = b /\ off <= o < off + Z.of_nat (length (x :: l)))) as [[-> Ho]|Hno].
    + rewrite decide_True by nia. f_equal. nia.
    + rewrite decide_False; [done|]. intros Hd. apply Hno.
      destruct (block_positions_apart b' o b (b' * block_size cfg + o - b * block_size cfg)); nia.
Qed.

#[export] Instance ram_spec : FlashSpec cfg.
Proof.
  constructor.
  - intros d b o Hok Hv. simpl in *. unfold ram_byte_at. rewrite Hv.
    destruct (ram_position_bound _ _ _ _ Hok Hv).
    destruct (lookup_lt_is_Some_2 d (Z.to_nat (b * block_size cfg + o))) as [v Hv']; [lia|].
    exists v. split; [done|]. destruct Hok as [_ Hb].
    by apply (Forall_lookup_1 is_u8 d _ _ Hb Hv').
  - intros d Hok. exists d. by repeat split; try apply Hok.
  - intros d b off n Hok Hr. simpl. unfold its_flash_ram_read, ram_load.
    destruct (ram_position_bound _ _ _ _ Hok Hr) as [Hp1 Hp2].
    destruct (decide (n = 0)) as [->|Hn].
    + exists [], d. pose proof (phys_address_bound _ _ _ _ Hok Hr).
      replace (_ && _) with true by (symmetry; rewrite andb_true_iff, !Z.leb_le; lia).
      repeat split; try apply Hok. simpl. lia.
    + assert (0 < n) by (apply valid_range_spec in Hr; lia).
      rewrite (phys_address_exact _ _ _ Hr) by done.
      replace (_ && _) with true by (symmetry; rewrite andb_true_iff, !Z.leb_le; lia).
      eexists _, d. split; [done|]. split; [done|]. split; [done|].
      split; [rewrite length_slice; lia|].
      intros i Hi. rewrite length_slice in Hi by lia. rewrite lookup_slice by done.
      unfold ram_byte_at. apply valid_range_spec in Hr.
      replace (valid_range cfg b (off + Z.of_nat i) 1) with true
        by (symmetry; apply valid_range_spec; lia).
      f_equal. lia.
  - intros d b l off Hok Hl Hr. by apply ram_store_spec.
  - intros d b Hok _. exists d. by repeat split; try apply Hok.
  - intros d b Hok Hb. rewrite valid_block_spec in Hb.
    destruct Htyped as (_ & _ & Hbs & _ & _ & _ & _ & Hev). unfold is_u32 in Hbs.
    destruct (ram_store_spec d b (replicate (Z.to_nat (block_size cfg)) (erase_val cfg)) 0)
      as (d' & Hd' & Hok' & Hby); [done| |  |].
    { by apply Forall_replicate. }
    { rewrite valid_range_spec, length_replicate. lia. }
    exists d'. split; [done|]. split; [done|]. intros b' o Hv. simpl. rewrite Hby by done.
    rewrite length_replicate. rewrite valid_range_spec in Hv.
    destruct (decide (b' = b)) as [->|].
    + rewrite !decide_True by lia. rewrite lookup_replicate_2 by lia. done.
    + rewrite !decide_False by lia. done.
Qed.
End Ram.
