(* ===== verification/FlashTorn.v ===== *)
(** A flash device that loses power: the RAM device of [FlashRam] with a budget
    of bytes it can still program or erase.  When a request exceeds the budget
    the bytes the budget allows are programmed and the operation does not
    return.  It meets the locality contract of [Flash], so the theorems about
    interrupted updates apply to it at every point of interruption. *)

From stdpp Require Import base list numbers gmap.
From S2P Require Import Prelude Flash FlashRam.

Record torn_dev := mk_torn { torn_mem : ram_dev; torn_budget : nat }.

(** Program as much of [l] as the budget allows. *)
Definition torn_store (cfg : its_flash_fs_config_t) (b : Z) (l : bytes) (off : Z)
  : M torn_dev unit := fun d =>
  if (length l <=? torn_budget d)%nat then
    match its_flash_ram_write cfg b l off (torn_mem d) with
    | (o, m) => (o, mk_torn m (torn_budget d - length l))
    end
  else (Halt PowerLoss,
        mk_torn (its_flash_ram_write cfg b (take (torn_budget d) l) off (torn_mem d)).2 0).

#[export] Instance torn_ops : FlashOps torn_dev := {|
  op_init cfg := mret tt;
  op_read cfg b off n := fun d =>
    match its_flash_ram_read cfg b off n (torn_mem d) with
    | (o, m) => (o, mk_torn m (torn_budget d))
    end;
  op_write := torn_store;
  op_flush cfg b := mret tt;
  op_erase cfg b := torn_store cfg b (replicate (Z.to_nat (block_size cfg)) (erase_val cfg)) 0;
|}.

#[export] Instance torn_view : FlashView torn_dev := {|
  dev_ok cfg d := ram_ok cfg (torn_mem d);
  byte_at cfg d := ram_byte_at cfg (torn_mem d);
|}.

Section Torn.
Context (cfg : its_flash_fs_config_t).
Hypothesis Htyped : cfg_typed cfg.
Hypothesis Hfits : block_size cfg * num_blocks cfg <= 2 ^ 32.

Lemma torn_store_other d b l off b' :
  valid_range cfg b off (Z.of_nat (length l)) = true -> b' <> b ->
  same_block cfg b' d (torn_store cfg b l off d).2.
Proof.
  intros Hr Hne. destruct d as [m n].
  assert (forall l', (length l' <= length l)%nat ->
    same_block cfg b' m (its_flash_ram_write cfg b l' off m).2) as Hw.
  { intros l' Hl'. unfold its_flash_ram_write.
    assert (valid_range cfg b off (Z.of_nat (length l')) = true) as Hr'
      by (rewrite valid_range_spec in *; lia).
    eapply ram_store_other; eauto; [|apply u32_range].
    intros Hl. by eapply phys_address_exact. }
  unfold torn_store. simpl. case_match eqn:E.
  - specialize (Hw l ltac:(lia)).
    destruct (its_flash_ram_write cfg b l off m) as [o m'] eqn:Ew. exact Hw.
  - apply Hw. rewrite length_take. lia.
Qed.

#[export] Instance torn_local : FlashLocal cfg.
Proof.
  constructor.
  - intros d b'. apply same_block_refl.
  - intros [m n] b off k b'. simpl. unfold its_flash_ram_read, ram_load.
    destruct (_ && _); apply same_block_refl.
  - intros d b l off b' Hr _ Hne. by apply torn_store_other.
  - intros d b b' _ _ _. apply same_block_refl.
  - intros d b b' Hb _ Hne. apply torn_store_other; [|done].
    rewrite valid_block_spec in Hb. rewrite valid_range_spec, length_replicate.
    destruct Htyped as (_ & _ & Hbs & _). unfold is_u32 in Hbs. lia.
Qed.
End Torn.
