(* ===== verification/ItsTypes.v ===== *)
(** Data of the Internal Trusted Storage filesystem: the utilities of
    [its_utils.c], the on-flash structures of [its_flash_fs_mblock.h] with their
    byte layout, the filesystem context and the calls through the operation
    table. *)

From stdpp Require Import base list numbers gmap.
From S2P Require Import Prelude Flash.

(** ** its_utils *)

Definition ITS_FILE_ID_SIZE : nat := 12.
Definition ITS_DEFAULT_EMPTY_BUFF_VAL : Z := 0.

Definition ITS_UTILS_MIN (x y : Z) : Z := if x <? y then x else y.
Definition ITS_UTILS_MAX (x y : Z) : Z := if x >? y then x else y.
(** [(((x) + ((a) - 1)) & ~((a) - 1))] on [uint32_t]. *)
Definition ITS_UTILS_ALIGN (x a : Z) : Z :=
  Z.land (u32 (x + (a - 1))) (u32 (Z.lnot (a - 1))).
Definition ITS_UTILS_IS_ALIGNED (x a : Z) : bool := Z.land x (a - 1) =? 0.

(** Both utilities return a [psa_status_t] as a plain value. *)
Definition its_utils_check_contained_in (superset_size subset_offset subset_size : Z) : Z :=
  if subset_offset >? superset_size then PSA_ERROR_INVALID_ARGUMENT
  else if subset_size >? u32 (superset_size - subset_offset)
  then PSA_ERROR_INVALID_ARGUMENT
  else PSA_SUCCESS.

Fixpoint its_utils_validate_fid (fid : bytes) : Z :=
  match fid with
  | [] => PSA_ERROR_DOES_NOT_EXIST
  | b :: fid' => if truth b then PSA_SUCCESS else its_utils_validate_fid fid'
  end.

(** ** Build options *)

Record its_build := mk_its_build {
  ITS_FLASH_MAX_ALIGNMENT : Z;
  ITS_VALIDATE_METADATA_FROM_FLASH : bool;
}.

(** Storage a C function leaves uninitialised. *)
Definition indeterminate (n : nat) : bytes := replicate n 0.

Definition round_up (x a : Z) : Z := ((x + a - 1) / a) * a.

(** Size of a structure whose members take [n] bytes (a multiple of 4) once the
    [roundup] member and the padding of the ABI are added. *)
Definition struct_size (b : its_build) (n : Z) : Z :=
  if ITS_FLASH_MAX_ALIGNMENT b >? 4 then round_up n (ITS_FLASH_MAX_ALIGNMENT b) else n.

Definition ITS_BLOCK_META_HEADER_SIZE (b : its_build) : Z := struct_size b 8.
Definition ITS_BLOCK_META_HEADER_COMP_SIZE (b : its_build) : Z := struct_size b 8.
Definition ITS_BLOCK_METADATA_SIZE (b : its_build) : Z := struct_size b 12.
Definition ITS_FILE_METADATA_SIZE (b : its_build) : Z := struct_size b 32.

(** ** Structures programmed to flash *)

Record its_metadata_block_header_t := mk_header {
  scratch_dblock : Z;
  fs_version : Z;
  metadata_xor : Z;
  active_swap_count : Z;
  h_roundup : bytes;  (* [roundup] and the bytes the ABI pads with *)
}.

Record its_block_meta_t := mk_block_meta {
  phy_id : Z;
  data_start : Z;
  free_size : Z;
  b_roundup : bytes;
}.

Record its_file_meta_t := mk_file_meta {
  lblock : Z;
  data_idx : Z;
  cur_size : Z;
  max_size : Z;
  flags : Z;
  id : bytes;
  f_roundup : bytes;
}.

(** The object representation of a structure, and its inverse. *)
Definition header_bytes (h : its_metadata_block_header_t) : bytes :=
  le32 (scratch_dblock h) ++
  [fs_version h; metadata_xor h; active_swap_count h] ++ h_roundup h.
Definition header_of (l : bytes) : its_metadata_block_header_t := {|
  scratch_dblock := of_le32 l;
  fs_version := l !!! 4%nat;
  metadata_xor := l !!! 5%nat;
  active_swap_count := l !!! 6%nat;
  h_roundup := drop 7 l;
|}.
(** [((struct its_metadata_block_header_comp_t * )h)->active_swap_count]: in the
    version 1 header the swap count sits where [metadata_xor] is now. *)
Definition comp_active_swap_count (h : its_metadata_block_header_t) : Z :=
  metadata_xor h.

Definition block_meta_bytes (m : its_block_meta_t) : bytes :=
  le32 (phy_id m) ++ le32 (data_start m) ++ le32 (free_size m) ++ b_roundup m.
Definition block_meta_of (l : bytes) : its_block_meta_t := {|
  phy_id := of_le32 l;
  data_start := of_le32 (drop 4 l);
  free_size := of_le32 (drop 8 l);
  b_roundup := drop 12 l;
|}.

Definition file_meta_bytes (m : its_file_meta_t) : bytes :=
  le32 (lblock m) ++ le32 (data_idx m) ++ le32 (cur_size m) ++
  le32 (max_size m) ++ le32 (flags m) ++ id m ++ f_roundup m.
Definition file_meta_of (l : bytes) : its_file_meta_t := {|
  lblock := of_le32 l;
  data_idx := of_le32 (drop 4 l);
  cur_size := of_le32 (drop 8 l);
  max_size := of_le32 (drop 12 l);
  flags := of_le32 (drop 16 l);
  id := take ITS_FILE_ID_SIZE (drop 20 l);
  f_roundup := drop 32 l;
|}.

(** [(struct its_file_meta_t){0}], or [memset] of the structure to 0. *)
Definition zero_file_meta (b : its_build) : its_file_meta_t := {|
  lblock := 0; data_idx := 0; cur_size := 0; max_size := 0; flags := 0;
  id := replicate ITS_FILE_ID_SIZE 0;
  f_roundup := replicate (Z.to_nat (ITS_FILE_METADATA_SIZE b - 32)) 0;
|}.

(** ** The filesystem context *)

(** [struct its_flash_fs_ctx_t].  [cfg] and [ops] never change once
    [its_flash_fs_init_ctx] has set them: they are parameters of the model, and
    the device the operations act on is kept beside the context. *)
Record its_flash_fs_ctx_t (D : Type) := mk_fs {
  fs_dev : D;
  meta_block_header : its_metadata_block_header_t;
  active_metablock : Z;
  scratch_metablock : Z;
}.
Arguments mk_fs {D}.
Arguments fs_dev {D}.
Arguments meta_block_header {D}.
Arguments active_metablock {D}.
Arguments scratch_metablock {D}.

Definition set_dev {D} (d : D) (s : its_flash_fs_ctx_t D) : its_flash_fs_ctx_t D :=
  mk_fs d (meta_block_header s) (active_metablock s) (scratch_metablock s).
Definition set_header {D} (h : its_metadata_block_header_t) (s : its_flash_fs_ctx_t D)
  : its_flash_fs_ctx_t D :=
  mk_fs (fs_dev s) h (active_metablock s) (scratch_metablock s).
Definition set_metablocks {D} (a sc : Z) (s : its_flash_fs_ctx_t D)
  : its_flash_fs_ctx_t D := mk_fs (fs_dev s) (meta_block_header s) a sc.

Definition set_swap_count (c : Z) (h : its_metadata_block_header_t) :=
  mk_header (scratch_dblock h) (fs_version h) (metadata_xor h) c (h_roundup h).
Definition set_metadata_xor (x : Z) (h : its_metadata_block_header_t) :=
  mk_header (scratch_dblock h) (fs_version h) x (active_swap_count h) (h_roundup h).
Definition set_scratch_dblock (b : Z) (h : its_metadata_block_header_t) :=
  mk_header b (fs_version h) (metadata_xor h) (active_swap_count h) (h_roundup h).
Definition set_fs_version (v : Z) (h : its_metadata_block_header_t) :=
  mk_header (scratch_dblock h) v (metadata_xor h) (active_swap_count h) (h_roundup h).
Definition set_phy_id (p : Z) (m : its_block_meta_t) :=
  mk_block_meta p (data_start m) (free_size m) (b_roundup m).
Definition set_free_size (n : Z) (m : its_block_meta_t) :=
  mk_block_meta (phy_id m) (data_start m) n (b_roundup m).
Definition set_data_idx (n : Z) (m : its_file_meta_t) :=
  mk_file_meta (lblock m) n (cur_size m) (max_size m) (flags m) (id m) (f_roundup m).
Definition set_cur_size (n : Z) (m : its_file_meta_t) :=
  mk_file_meta (lblock m) (data_idx m) n (max_size m) (flags m) (id m) (f_roundup m).
Definition set_flags (n : Z) (m : its_file_meta_t) :=
  mk_file_meta (lblock m) (data_idx m) (cur_size m) (max_size m) n (id m) (f_roundup m).

(** Calls through [fs_ctx->ops].  The contract of the table asks for a valid
    range: a call outside it has no meaning the interface defines. *)
Section OpsCalls.
Context {D : Type} `{!FlashOps D} (cfg : its_flash_fs_config_t).

Definition on_dev {A} (ok : bool) (m : M D A) : M (its_flash_fs_ctx_t D) A := fun s =>
  if ok then match m (fs_dev s) with (o, d') => (o, set_dev d' s) end
  else (Halt OutOfBounds, s).

Definition flash_init : M (its_flash_fs_ctx_t D) unit := on_dev true (op_init cfg).
Definition flash_read (b off n : Z) : M (its_flash_fs_ctx_t D) bytes :=
  on_dev (valid_range cfg b off n) (op_read cfg b off n).
Definition flash_write (b : Z) (l : bytes) (off : Z) : M (its_flash_fs_ctx_t D) unit :=
  on_dev (valid_range cfg b off (Z.of_nat (length l))) (op_write cfg b l off).
Definition flash_flush (b : Z) : M (its_flash_fs_ctx_t D) unit :=
  on_dev (valid_block cfg b) (op_flush cfg b).
Definition flash_erase (b : Z) : M (its_flash_fs_ctx_t D) unit :=
  on_dev (valid_block cfg b) (op_erase cfg b).
End OpsCalls.

(** ** Facts *)

Definition header_wf (b : its_build) (h : its_metadata_block_header_t) : Prop :=
  is_u32 (scratch_dblock h) /\ is_u8 (fs_version h) /\ is_u8 (metadata_xor h) /\
  is_u8 (active_swap_count h) /\ is_bytes (h_roundup h) /\
  Z.of_nat (length (h_roundup h)) = ITS_BLOCK_META_HEADER_SIZE b - 7.

Definition block_meta_wf (b : its_build) (m : its_block_meta_t) : Prop :=
  is_u32 (phy_id m) /\ is_u32 (data_start m) /\ is_u32 (free_size m) /\
  is_bytes (b_roundup m) /\
  Z.of_nat (length (b_roundup m)) = ITS_BLOCK_METADATA_SIZE b - 12.

Definition file_meta_wf (b : its_build) (m : its_file_meta_t) : Prop :=
  is_u32 (lblock m) /\ is_u32 (data_idx m) /\ is_u32 (cur_size m) /\
  is_u32 (max_size m) /\ is_u32 (flags m) /\
  is_bytes (id m) /\ length (id m) = ITS_FILE_ID_SIZE /\
  is_bytes (f_roundup m) /\
  Z.of_nat (length (f_roundup m)) = ITS_FILE_METADATA_SIZE b - 32.

(** The alignment is a power of two, at most 32 as the default layouts use. *)
Definition build_ok (b : its_build) : Prop :=
  exists k, 0 <= k <= 5 /\ ITS_FLASH_MAX_ALIGNMENT b = 2 ^ k.

Lemma build_ok_cases b : build_ok b ->
  ITS_FLASH_MAX_ALIGNMENT b ∈ [1; 2; 4; 8; 16; 32].
Proof.
  intros (k & Hk & ->).
  assert (k = 0 \/ k = 1 \/ k = 2 \/ k = 3 \/ k = 4 \/ k = 5) as H by lia. clear Hk.
  destruct H as [-> | [-> | [-> | [-> | [-> | -> ]]]]]; set_solver.
Qed.

Lemma struct_size_bounds b n : build_ok b -> 0 <= n ->
  n <= struct_size b n < n + 32.
Proof.
  intros Hb Hn. apply build_ok_cases in Hb. unfold struct_size, round_up.
  rewrite !list_elem_of_In in Hb. simpl in Hb.
  destruct Hb as [<-|[<-|[<-|[<-|[<-|[<-|[]]]]]]]; simpl; lia.
Qed.

Lemma header_size_bounds b : build_ok b -> 8 <= ITS_BLOCK_META_HEADER_SIZE b < 40.
Proof. intros. apply struct_size_bounds; [done|lia]. Qed.
Lemma block_size_bounds b : build_ok b -> 12 <= ITS_BLOCK_METADATA_SIZE b < 44.
Proof. intros. apply struct_size_bounds; [done|lia]. Qed.
Lemma file_size_bounds b : build_ok b -> 32 <= ITS_FILE_METADATA_SIZE b < 64.
Proof. intros. apply struct_size_bounds; [done|lia]. Qed.

Lemma header_bytes_length b h : header_wf b h ->
  Z.of_nat (length (header_bytes h)) = ITS_BLOCK_META_HEADER_SIZE b.
Proof. intros (_&_&_&_&_&Hl). unfold header_bytes. rewrite !length_app, le32_length. simpl. lia. Qed.
Lemma block_meta_bytes_length b m : block_meta_wf b m ->
  Z.of_nat (length (block_meta_bytes m)) = ITS_BLOCK_METADATA_SIZE b.
Proof. intros (_&_&_&_&Hl). unfold block_meta_bytes. rewrite !length_app, !le32_length. lia. Qed.
Lemma file_meta_bytes_length b m : file_meta_wf b m ->
  Z.of_nat (length (file_meta_bytes m)) = ITS_FILE_METADATA_SIZE b.
Proof.
  intros (_&_&_&_&_&_&Hid&_&Hl). unfold file_meta_bytes.
  rewrite !length_app, !le32_length, Hid. unfold ITS_FILE_ID_SIZE. lia.
Qed.

Lemma header_bytes_ok b h : header_wf b h -> is_bytes (header_bytes h).
Proof.
  intros (?&?&?&?&?&_). unfold header_bytes, is_bytes in *.
  rewrite !Forall_app, !Forall_cons, Forall_nil.
  split_and!; try done; apply le32_bytes.
Qed.
Lemma block_meta_bytes_ok b m : block_meta_wf b m -> is_bytes (block_meta_bytes m).
Proof.
  intros (_&_&_&?&_). unfold block_meta_bytes, is_bytes in *.
  rewrite !Forall_app. split_and!; try done; apply le32_bytes.
Qed.
Lemma file_meta_bytes_ok b m : file_meta_wf b m -> is_bytes (file_meta_bytes m).
Proof.
  intros (_&_&_&_&_&?&_&?&_). unfold file_meta_bytes, is_bytes in *.
  rewrite !Forall_app. split_and!; try done; apply le32_bytes.
Qed.

Lemma drop_le32 x l n : drop (4 + n) (le32 x ++ l) = drop n l.
Proof. done. Qed.

Lemma header_of_bytes b h : header_wf b h -> header_of (header_bytes h) = h.
Proof.
  intros (?&?&?&?&?&?). unfold header_of, header_bytes.
  rewrite of_le32_le32 by done. by destruct h.
Qed.

Lemma block_meta_of_bytes b m : block_meta_wf b m -> block_meta_of (block_meta_bytes m) = m.
Proof.
  intros (?&?&?&?&?). unfold block_meta_of, block_meta_bytes.
  rewrite (drop_le32 _ _ 0), (drop_le32 _ _ 4), (drop_le32 _ _ 0), (drop_le32 _ _ 8),
    (drop_le32 _ _ 4), (drop_le32 _ _ 0), !drop_0, !of_le32_le32 by done. by destruct m.
Qed.

Lemma file_meta_of_bytes b m : file_meta_wf b m -> file_meta_of (file_meta_bytes m) = m.
Proof.
  intros (?&?&?&?&?&?&Hid&?&?). unfold file_meta_of, file_meta_bytes.
  change 32%nat with (4 + (4 + (4 + (4 + (4 + ITS_FILE_ID_SIZE)))))%nat.
  change 20%nat with (4 + (4 + (4 + (4 + (4 + 0)))))%nat.
  change 16%nat with (4 + (4 + (4 + (4 + 0))))%nat.
  change 12%nat with (4 + (4 + (4 + 0)))%nat at 1.
  change 8%nat with (4 + (4 + 0))%nat. change 4%nat with (4 + 0)%nat at 1.
  rewrite !drop_le32, !drop_0, !of_le32_le32 by done.
  rewrite take_app_length', drop_app_length' by done. by destruct m.
Qed.

(** A list read from flash is the representation of what it decodes to. *)
Lemma le32_of_le32_app l n : is_bytes l -> (n + 4 <= length l)%nat ->
  le32 (of_le32 (drop n l)) ++ drop (n + 4) l = drop n l.
Proof.
  intros Hl Hn. rewrite <- drop_drop.
  assert (is_bytes (drop n l)) as Hd by by apply Forall_drop.
  assert (4 <= length (drop n l))%nat as Hlen by (rewrite length_drop; lia).
  destruct (drop n l) as [|b0 [|b1 [|b2 [|b3 r]]]]; simpl in Hlen; try lia.
  change (of_le32 (b0 :: b1 :: b2 :: b3 :: r)) with (of_le32 [b0; b1; b2; b3]).
  rewrite le32_of_le32; [done|]. exact (Forall_take is_u8 4 _ Hd).
Qed.

Lemma file_meta_bytes_of l : is_bytes l -> (32 <= length l)%nat ->
  file_meta_bytes (file_meta_of l) = l.
Proof.
  intros Hl Hn. unfold file_meta_bytes, file_meta_of.
  cbn [lblock data_idx cur_size max_size flags id f_roundup].
  rewrite <- (drop_0 l) at 1.
  replace (drop 32 l) with (drop ITS_FILE_ID_SIZE (drop 20 l)) by (by rewrite drop_drop).
  rewrite (take_drop ITS_FILE_ID_SIZE (drop 20 l)).
  pose proof (le32_of_le32_app l 16 Hl ltac:(lia)) as E16.
  pose proof (le32_of_le32_app l 12 Hl ltac:(lia)) as E12.
  pose proof (le32_of_le32_app l 8 Hl ltac:(lia)) as E8.
  pose proof (le32_of_le32_app l 4 Hl ltac:(lia)) as E4.
  pose proof (le32_of_le32_app l 0 Hl ltac:(lia)) as E0.
  cbn [Nat.add] in E16, E12, E8, E4, E0.
  by rewrite E16, E12, E8, E4, E0, drop_0.
Qed.

Lemma block_meta_bytes_of l : is_bytes l -> (12 <= length l)%nat ->
  block_meta_bytes (block_meta_of l) = l.
Proof.
  intros Hl Hn. unfold block_meta_bytes, block_meta_of.
  cbn [phy_id data_start free_size b_roundup].
  rewrite <- (drop_0 l) at 1.
  pose proof (le32_of_le32_app l 8 Hl ltac:(lia)) as E8.
  pose proof (le32_of_le32_app l 4 Hl ltac:(lia)) as E4.
  pose proof (le32_of_le32_app l 0 Hl ltac:(lia)) as E0.
  cbn [Nat.add] in E8, E4, E0. by rewrite E8, E4, E0, drop_0.
Qed.

Lemma file_meta_of_wf b l : is_bytes l ->
  Z.of_nat (length l) = ITS_FILE_METADATA_SIZE b -> 32 <= ITS_FILE_METADATA_SIZE b ->
  file_meta_wf b (file_meta_of l).
Proof.
  intros Hl Hlen Hb. unfold file_meta_wf, file_meta_of; simpl.
  assert (forall n, is_bytes (drop n l)) as Hd by (intros; by apply Forall_drop).
  split_and!; try solve [apply of_le32_range; auto].
  - apply Forall_take, Hd.
  - rewrite length_take, length_drop. unfold ITS_FILE_ID_SIZE. lia.
  - apply Hd.
  - rewrite length_drop. lia.
Qed.

Lemma block_meta_of_wf b l : is_bytes l ->
  Z.of_nat (length l) = ITS_BLOCK_METADATA_SIZE b -> 12 <= ITS_BLOCK_METADATA_SIZE b ->
  block_meta_wf b (block_meta_of l).
Proof.
  intros Hl Hlen Hb. unfold block_meta_wf, block_meta_of; simpl.
  assert (forall n, is_bytes (drop n l)) as Hd by (intros; by apply Forall_drop).
  split_and!; try solve [apply of_le32_range; auto].
  - apply Hd.
  - rewrite length_drop. lia.
Qed.

Lemma check_contained_in_exact superset_size subset_offset subset_size :
  is_u32 superset_size -> is_u32 subset_offset -> is_u32 subset_size ->
  its_utils_check_contained_in superset_size subset_offset subset_size =
    if subset_offset + subset_size <=? superset_size
    then PSA_SUCCESS else PSA_ERROR_INVALID_ARGUMENT.
Proof.
  unfold is_u32, its_utils_check_contained_in. intros.
  destruct (Z.gtb_spec subset_offset superset_size).
  - by rewrite (proj2 (Z.leb_gt _ _)) by lia.
  - rewrite u32_small by (unfold is_u32; lia).
    destruct (Z.gtb_spec subset_size (superset_size - subset_offset)),
      (Z.leb_spec (subset_offset + subset_size) superset_size); done || lia.
Qed.

Lemma validate_fid_spec fid :
  its_utils_validate_fid fid = PSA_SUCCESS <-> Exists (fun b => b <> 0) fid.
Proof.
  induction fid as [|b fid IH]; simpl; [rewrite Exists_nil; done|].
  rewrite Exists_cons. destruct (truth b) eqn:E.
  - apply truth_true in E. tauto.
  - apply truth_false in E. rewrite IH. tauto.
Qed.

Lemma on_dev_keeps {D A} (ok : bool) (m : M D A) (I : its_flash_fs_ctx_t D -> Prop) :
  (forall s, ok = true -> I s -> I (set_dev (m (fs_dev s)).2 s)) -> keeps I (on_dev ok m).
Proof.
  intros H s HI. unfold on_dev. destruct ok; [|done].
  specialize (H s eq_refl HI). by destruct (m (fs_dev s)).
Qed.

(** ** Theorems *)

(** Every structure programmed to flash survives the round trip through its
    object representation, and conversely a stored file entry of the right
    length is exactly the representation of what it decodes to. *)
Theorem metadata_roundtrip b h bm fm raw :
  build_ok b -> header_wf b h -> block_meta_wf b bm -> file_meta_wf b fm ->
  is_bytes raw -> Z.of_nat (length raw) = ITS_FILE_METADATA_SIZE b ->
  header_of (header_bytes h) = h /\
  block_meta_of (block_meta_bytes bm) = bm /\
  file_meta_of (file_meta_bytes fm) = fm /\
  file_meta_bytes (file_meta_of raw) = raw /\ file_meta_wf b (file_meta_of raw).
Proof.
  intros Hb Hh Hbm Hfm Hr Hl. pose proof (file_size_bounds b Hb).
  split_and!; [by eapply header_of_bytes|by eapply block_meta_of_bytes
    |by eapply file_meta_of_bytes| |].
  - apply file_meta_bytes_of; [done|lia].
  - apply file_meta_of_wf; [done..|lia].
Qed.

Lemma metadata_roundtrip_witness :
  let b := mk_its_build 1 true in
  header_of (header_bytes (mk_header 2 2 77 5 [0])) = mk_header 2 2 77 5 [0] /\
  file_meta_bytes (file_meta_of (replicate 32 9)) = replicate 32 9.
Proof.
  destruct (metadata_roundtrip (mk_its_build 1 true) (mk_header 2 2 77 5 [0])
    (mk_block_meta 3 0 256 []) (zero_file_meta (mk_its_build 1 true)) (replicate 32 9))
    as (H1 & _ & _ & H2 & _); [exists 0; split; [lia|done]| | | | |done|done];
    unfold header_wf, block_meta_wf, file_meta_wf, is_u32, is_u8, is_bytes, is_u8; simpl;
    split_and?; try lia; try done; repeat constructor; lia.
Defined.

(** The boundary check accepts exactly the requests whose end, computed
    without wrap-around, lies inside the superset. *)
Theorem contained_in_iff superset_size subset_offset subset_size :
  is_u32 superset_size -> is_u32 subset_offset -> is_u32 subset_size ->
  its_utils_check_contained_in superset_size subset_offset subset_size = PSA_SUCCESS <->
  subset_offset + subset_size <= superset_size.
Proof.
  intros. rewrite check_contained_in_exact by done.
  destruct (Z.leb_spec (subset_offset + subset_size) superset_size); split; intros; done || lia.
Qed.

Lemma contained_in_iff_witness :
  its_utils_check_contained_in 100 60 40 = PSA_SUCCESS <-> 60 + 40 <= 100.
Proof. apply (contained_in_iff 100 60 40); unfold is_u32; lia. Defined.

(** Aligning to a power of two that does not overflow gives the least
    multiple of it that is not smaller. *)
Theorem its_utils_align_least x k :
  0 <= k < 32 -> 0 <= x -> x + (2 ^ k - 1) < 2 ^ 32 ->
  x <= ITS_UTILS_ALIGN x (2 ^ k) < x + 2 ^ k /\ (2 ^ k | ITS_UTILS_ALIGN x (2 ^ k)).
Proof.
  intros Hk Hx Hle. assert (0 < 2 ^ k) by (apply Z.pow_pos_nonneg; lia).
  assert (2 ^ k <= 2 ^ 31) by (apply Z.pow_le_mono_r; lia).
  set (y := x + (2 ^ k - 1)).
  assert (ITS_UTILS_ALIGN x (2 ^ k) = y / 2 ^ k * 2 ^ k) as ->.
  { unfold ITS_UTILS_ALIGN. fold y. rewrite u32_small by (unfold is_u32; subst y; lia).
    rewrite <- Z.shiftr_div_pow2, <- Z.shiftl_mul_pow2 by lia.
    apply Z.bits_inj'. intros i Hi.
    rewrite Z.land_spec, Z.shiftl_spec by lia. unfold u32.
    destruct (Z.ltb_spec i k).
    - rewrite (Z.testbit_neg_r _ (i - k)) by lia.
      rewrite Z.mod_pow2_bits_low by lia. rewrite Z.lnot_spec by lia.
      replace (2 ^ k - 1) with (Z.ones k) by (rewrite Z.ones_equiv; lia).
      rewrite Z.ones_spec_low by lia. apply andb_false_r.
    - rewrite Z.shiftr_spec by lia. replace (i - k + k) with i by lia.
      destruct (Z.ltb_spec i 32).
      + rewrite Z.mod_pow2_bits_low by lia. rewrite Z.lnot_spec by lia.
        replace (2 ^ k - 1) with (Z.ones k) by (rewrite Z.ones_equiv; lia).
        rewrite Z.ones_spec_high by lia. apply andb_true_r.
      + assert (Z.testbit y i = false) as ->; [|done].
        destruct (Z.eq_dec y 0) as [->|]; [apply Z.bits_0|].
        apply Z.bits_above_log2; [subst y; lia|].
        assert (Z.log2 y < 32) by (apply Z.log2_lt_pow2; subst y; lia). lia. }
  split; [|by exists (y / 2 ^ k)]. subst y. 
  pose proof (Z.div_mod (x + (2 ^ k - 1)) (2 ^ k)).
  pose proof (Z.mod_pos_bound (x + (2 ^ k - 1)) (2 ^ k)). lia.
Qed.

Lemma its_utils_align_least_witness :
  33 <= ITS_UTILS_ALIGN 33 (2 ^ 4) < 33 + 2 ^ 4 /\ (2 ^ 4 | ITS_UTILS_ALIGN 33 (2 ^ 4)).
Proof. apply (its_utils_align_least 33 4); lia. Defined.
