(* ===== verification/ItsMblock.v ===== *)
(** [flash_fs/its_flash_fs_mblock.c]: the metadata block layer of the Internal
    Trusted Storage filesystem.  One definition per function, in the order of
    the file except that a function comes after those it calls. *)

From stdpp Require Import base list numbers gmap.
From S2P Require Import Prelude Flash ItsTypes.

Definition ITS_SUPPORTED_VERSION : Z := 2.
Definition ITS_BACKWARD_SUPPORTED_VERSION : Z := 1.
Definition ITS_METADATA_INVALID_INDEX : Z := 65535.
Definition ITS_LOGICAL_DBLOCK0 : Z := 0.
Definition ITS_BLOCK_INVALID_ID : Z := 2 ^ 32 - 1.
Definition ITS_MAX_BLOCK_DATA_COPY : Z := 256.
Definition ITS_METADATA_BLOCK0 : Z := 0.
Definition ITS_METADATA_BLOCK1 : Z := 1.
Definition ITS_OTHER_META_BLOCK (metablock : Z) : Z :=
  if metablock =? ITS_METADATA_BLOCK0 then ITS_METADATA_BLOCK1 else ITS_METADATA_BLOCK0.

Section Mblock.
Context {D : Type} `{!FlashOps D} (bld : its_build) (cfg : its_flash_fs_config_t).

Abbreviation FS := (M (its_flash_fs_ctx_t D)).

(** A C test [err == PSA_SUCCESS] on a status computed without effects. *)
Definition check (st : Z) : FS unit := fail_if (negb (st =? PSA_SUCCESS)) st.

(** ** Layout *)

Definition its_init_scratch_dblock : Z := if num_blocks cfg =? 2 then 1 else 2.

Definition its_init_dblock_start : Z := if num_blocks cfg =? 2 then 0 else 3.

Definition its_num_dedicated_dblocks : Z :=
  if num_blocks cfg =? 2 then 0 else u32 (num_blocks cfg - its_init_dblock_start).

Definition its_num_active_dblocks : Z := u32 (its_num_dedicated_dblocks + 1).

Definition its_mblock_block_meta_offset (lb : Z) : Z :=
  u32 (ITS_BLOCK_META_HEADER_SIZE bld + u32 (lb * ITS_BLOCK_METADATA_SIZE bld)).

Definition its_mblock_file_meta_offset (idx : Z) : Z :=
  u32 (u32 (ITS_BLOCK_META_HEADER_SIZE bld +
            u32 (its_num_active_dblocks * ITS_BLOCK_METADATA_SIZE bld)) +
       u32 (idx * ITS_FILE_METADATA_SIZE bld)).

Definition its_mblock_swap_metablocks : FS unit :=
  modifyS (fun s => set_metablocks (scratch_metablock s) (active_metablock s) s).

Definition its_mblock_latest_meta_block
    (h_meta0 h_meta1 : its_metadata_block_header_t) : Z :=
  let meta0_swap_count := active_swap_count h_meta0 in
  let meta1_swap_count := active_swap_count h_meta1 in
  let rollover_val := if erase_val cfg =? 0 then 1 else 0 in
  if (meta1_swap_count =? rollover_val) && negb (meta0_swap_count =? rollover_val + 1)
  then ITS_METADATA_BLOCK1
  else if (meta0_swap_count =? rollover_val) && negb (meta1_swap_count =? rollover_val + 1)
  then ITS_METADATA_BLOCK0
  else if meta1_swap_count >? meta0_swap_count then ITS_METADATA_BLOCK1
  else ITS_METADATA_BLOCK0.

(** ** Validation of what is read from flash *)

Definition its_mblock_validate_file_meta (file_meta : its_file_meta_t) : Z :=
  if lblock file_meta >=? its_num_active_dblocks then PSA_ERROR_DATA_CORRUPT
  else if its_utils_validate_fid (id file_meta) =? PSA_SUCCESS then
    if max_size file_meta >? max_file_size cfg then PSA_ERROR_DATA_CORRUPT
    else if cur_size file_meta >? max_size file_meta then PSA_ERROR_DATA_CORRUPT
    else if (lblock file_meta =? ITS_LOGICAL_DBLOCK0) &&
            (data_idx file_meta <? its_mblock_file_meta_offset (max_num_files cfg))
    then PSA_ERROR_DATA_CORRUPT
    else if negb (its_utils_check_contained_in (block_size cfg)
                    (data_idx file_meta) (max_size file_meta) =? PSA_SUCCESS)
    then PSA_ERROR_DATA_CORRUPT
    else PSA_SUCCESS
  else PSA_SUCCESS.

(** The two block metadata checks differ only in where data may start in a
    metadata block. *)
Definition validate_block_meta_at (meta_end : Z) (block_meta : its_block_meta_t) : Z :=
  if phy_id block_meta >=? num_blocks cfg then PSA_ERROR_DATA_CORRUPT
  else if negb (its_utils_check_contained_in (block_size cfg)
                  (data_start block_meta) (free_size block_meta) =? PSA_SUCCESS)
  then PSA_ERROR_DATA_CORRUPT
  else
    let valid_data_start_value :=
      if (phy_id block_meta =? ITS_METADATA_BLOCK0) ||
         (phy_id block_meta =? ITS_METADATA_BLOCK1)
      then meta_end else 0 in
    if negb (data_start block_meta =? valid_data_start_value)
    then PSA_ERROR_DATA_CORRUPT
    else PSA_SUCCESS.

Definition its_mblock_validate_block_meta (block_meta : its_block_meta_t) : Z :=
  validate_block_meta_at (its_mblock_file_meta_offset (max_num_files cfg)) block_meta.

Definition its_mblock_validate_block_meta_comp (block_meta : its_block_meta_t) : Z :=
  validate_block_meta_at
    (u32 (u32 (ITS_BLOCK_META_HEADER_COMP_SIZE bld +
               u32 (its_num_active_dblocks * ITS_BLOCK_METADATA_SIZE bld)) +
          u32 (max_num_files cfg * ITS_FILE_METADATA_SIZE bld)))
    block_meta.

(** [for (j = 0; j < n; j++) xor_value_temp ^= metadata[j];] *)
Definition xor_bytes (acc : Z) (l : bytes) : Z := fold_left Z.lxor l acc.

Definition its_mblock_calculate_metadata_xor (block_id : Z) : FS Z :=
  _ ← fail_if (negb (block_id =? ITS_METADATA_BLOCK0) &&
               negb (block_id =? ITS_METADATA_BLOCK1)) PSA_ERROR_INVALID_ARGUMENT;
  x ← fold_range 0 its_num_active_dblocks 0 (fun i acc =>
        metadata ← flash_read cfg block_id (its_mblock_block_meta_offset i)
                     (ITS_BLOCK_METADATA_SIZE bld);
        mret (xor_bytes acc metadata));
  fold_range 0 (max_num_files cfg) x (fun i acc =>
    metadata ← flash_read cfg block_id (its_mblock_file_meta_offset i)
                 (ITS_FILE_METADATA_SIZE bld);
    mret (xor_bytes acc metadata)).

Definition its_mblock_validate_metadata_xor
    (h_meta : its_metadata_block_header_t) (block_id : Z) : FS unit :=
  xor_value ← its_mblock_calculate_metadata_xor block_id;
  fail_if (negb (xor_value =? metadata_xor h_meta)) PSA_ERROR_STORAGE_FAILURE.

Definition its_mblock_validate_swap_count (swap_count : Z) : Z :=
  if swap_count =? erase_val cfg then PSA_ERROR_GENERIC_ERROR else PSA_SUCCESS.

(** Returns the value of [*backward_comp]. *)
Definition its_mblock_validate_fs_version (ver : Z) : FS bool :=
  if ver =? ITS_BACKWARD_SUPPORTED_VERSION then mret true
  else if ver =? ITS_SUPPORTED_VERSION then mret false
  else throw PSA_ERROR_GENERIC_ERROR.

Definition its_mblock_validate_header_meta
    (h_meta : its_metadata_block_header_t) (block_id : Z) : FS unit :=
  backward_compatible ← its_mblock_validate_fs_version (fs_version h_meta);
  if (backward_compatible : bool) then
    check (its_mblock_validate_swap_count (comp_active_swap_count h_meta))
  else
    _ ← check (its_mblock_validate_swap_count (active_swap_count h_meta));
    if ITS_VALIDATE_METADATA_FROM_FLASH bld
    then its_mblock_validate_metadata_xor h_meta block_id
    else mret tt.

(** ** Reading metadata *)

Definition its_flash_fs_mblock_read_file_meta (idx : Z) : FS its_file_meta_t :=
  active ← gets active_metablock;
  raw ← flash_read cfg active (its_mblock_file_meta_offset idx)
          (ITS_FILE_METADATA_SIZE bld);
  let file_meta := file_meta_of raw in
  _ ← (if ITS_VALIDATE_METADATA_FROM_FLASH bld
       then check (its_mblock_validate_file_meta file_meta) else mret tt);
  mret file_meta.

Definition its_flash_fs_mblock_read_block_metadata (lb : Z) : FS its_block_meta_t :=
  active ← gets active_metablock;
  raw ← flash_read cfg active (its_mblock_block_meta_offset lb)
          (ITS_BLOCK_METADATA_SIZE bld);
  let block_meta := block_meta_of raw in
  _ ← (if ITS_VALIDATE_METADATA_FROM_FLASH bld
       then check (its_mblock_validate_block_meta block_meta) else mret tt);
  mret block_meta.

Definition its_flash_fs_mblock_read_block_metadata_comp (lb : Z) : FS its_block_meta_t :=
  let pos := u32 (ITS_BLOCK_META_HEADER_COMP_SIZE bld +
                  u32 (lb * ITS_BLOCK_METADATA_SIZE bld)) in
  active ← gets active_metablock;
  raw ← flash_read cfg active pos (ITS_BLOCK_METADATA_SIZE bld);
  let block_meta := block_meta_of raw in
  _ ← (if ITS_VALIDATE_METADATA_FROM_FLASH bld
       then check (its_mblock_validate_block_meta_comp block_meta) else mret tt);
  mret block_meta.

(** Returns the index, or [ITS_METADATA_INVALID_INDEX]; [use_spare] is a local
    the loop overwrites. *)
Fixpoint free_file_index_from (n : nat) (i : Z) (use_spare : bool) : FS Z :=
  match n with
  | O => mret ITS_METADATA_INVALID_INDEX
  | S n' =>
      r ← attempt (its_flash_fs_mblock_read_file_meta i);
      match r with
      | inl _ => mret ITS_METADATA_INVALID_INDEX
      | inr tmp_metadata =>
          if negb (its_utils_validate_fid (id tmp_metadata) =? PSA_SUCCESS) then
            if negb use_spare then free_file_index_from n' (i + 1) true
            else mret i
          else free_file_index_from n' (i + 1) use_spare
      end
  end.
Definition its_get_free_file_index (use_spare : bool) : FS Z :=
  free_file_index_from (Z.to_nat (max_num_files cfg)) 0 use_spare.

Definition its_flash_fs_mblock_get_file_idx_meta (fid : bytes)
  : FS (Z * its_file_meta_t) :=
  r ← for_range 0 (max_num_files cfg) (fun i =>
        tmp_metadata ← or_return (its_flash_fs_mblock_read_file_meta i)
                                 PSA_ERROR_GENERIC_ERROR;
        mret (if bytes_eqb (id tmp_metadata) fid then Some (i, tmp_metadata) else None));
  match r with
  | Some found => mret found
  | None => throw PSA_ERROR_DOES_NOT_EXIST
  end.

Definition its_flash_fs_mblock_get_file_idx_flag (fl : Z) : FS Z :=
  r ← for_range 0 (max_num_files cfg) (fun i =>
        tmp_metadata ← or_return (its_flash_fs_mblock_read_file_meta i)
                                 PSA_ERROR_GENERIC_ERROR;
        mret (if truth (Z.land (flags tmp_metadata) fl) then Some i else None));
  match r with
  | Some i => mret i
  | None => throw PSA_ERROR_DOES_NOT_EXIST
  end.

(** ** The scratch blocks *)

Definition its_flash_fs_mblock_cur_data_scratch_id (lb : Z) : FS Z :=
  if lb =? ITS_LOGICAL_DBLOCK0 then gets scratch_metablock
  else gets (fun s => scratch_dblock (meta_block_header s)).

Definition its_flash_fs_mblock_set_data_scratch (phy lb : Z) : FS unit :=
  if negb (lb =? ITS_LOGICAL_DBLOCK0)
  then modifyS (fun s => set_header (set_scratch_dblock phy (meta_block_header s)) s)
  else mret tt.

Definition its_mblock_erase_scratch_blocks : FS unit :=
  sc ← gets scratch_metablock;
  _ ← flash_erase cfg sc;
  if num_blocks cfg >? 2 then
    scratch_datablock ← its_flash_fs_mblock_cur_data_scratch_id (ITS_LOGICAL_DBLOCK0 + 1);
    flash_erase cfg scratch_datablock
  else mret tt.

(** One round of the copy loop, on [(dst_offset, src_offset, size)]. *)
Definition block_move_step (dst_block src_block : Z) (x : Z * Z * Z)
  : FS ((Z * Z * Z) + unit) :=
  let '(dst_offset, src_offset, size) := x in
  if size >? 0 then
    let bytes_to_move := ITS_UTILS_MIN size ITS_MAX_BLOCK_DATA_COPY in
    copy ← flash_read cfg src_block src_offset bytes_to_move;
    _ ← flash_write cfg dst_block copy dst_offset;
    mret (inl (u32 (dst_offset + bytes_to_move), u32 (src_offset + bytes_to_move),
               size - bytes_to_move))
  else mret (inr tt).

Definition its_flash_fs_block_to_block_move
    (dst_block dst_offset src_block src_offset size : Z) : FS unit :=
  while_loop (block_move_step dst_block src_block) (dst_offset, src_offset, size).

Definition its_mblock_update_scratch_block_meta (lb : Z) (block_meta : its_block_meta_t)
  : FS unit :=
  sc ← gets scratch_metablock;
  flash_write cfg sc (block_meta_bytes block_meta) (its_mblock_block_meta_offset lb).

Definition its_mblock_copy_remaining_block_meta (lb : Z) : FS unit :=
  scratch_block ← gets scratch_metablock;
  meta_block ← gets active_metablock;
  _ ← (if negb (lb =? ITS_LOGICAL_DBLOCK0) then
         block_meta ← or_return
           (its_flash_fs_mblock_read_block_metadata ITS_LOGICAL_DBLOCK0)
           PSA_ERROR_GENERIC_ERROR;
         _ ← or_return
           (its_mblock_update_scratch_block_meta ITS_LOGICAL_DBLOCK0
              (set_phy_id scratch_block block_meta))
           PSA_ERROR_GENERIC_ERROR;
         if lb >? 1 then
           let pos := its_mblock_block_meta_offset (ITS_LOGICAL_DBLOCK0 + 1) in
           let size := u32 (its_mblock_block_meta_offset lb - pos) in
           its_flash_fs_block_to_block_move scratch_block pos meta_block pos size
         else mret tt
       else mret tt);
  let pos := its_mblock_block_meta_offset (u32 (lb + 1)) in
  let size := u32 (its_mblock_file_meta_offset 0 - pos) in
  its_flash_fs_block_to_block_move scratch_block pos meta_block pos size.

(** [*block_meta] is updated in place: the caller sees the new physical ID, so
    the updated structure is returned. *)
Definition its_flash_fs_mblock_update_scratch_block_meta
    (lb : Z) (block_meta : its_block_meta_t) : FS its_block_meta_t :=
  sc ← gets scratch_metablock;
  let block_meta' := if lb =? ITS_LOGICAL_DBLOCK0 then set_phy_id sc block_meta
                     else block_meta in
  _ ← or_return (its_mblock_update_scratch_block_meta lb block_meta')
                PSA_ERROR_GENERIC_ERROR;
  _ ← its_mblock_copy_remaining_block_meta lb;
  mret block_meta'.

Definition its_flash_fs_mblock_update_scratch_file_meta
    (idx : Z) (file_meta : its_file_meta_t) : FS unit :=
  sc ← gets scratch_metablock;
  flash_write cfg sc (file_meta_bytes file_meta) (its_mblock_file_meta_offset idx).

Definition its_flash_fs_mblock_cp_file_meta (idx_start idx_end : Z) : FS unit :=
  let pos_start := its_mblock_file_meta_offset idx_start in
  let pos_end := its_mblock_file_meta_offset idx_end in
  sc ← gets scratch_metablock;
  active ← gets active_metablock;
  its_flash_fs_block_to_block_move sc pos_start active pos_start (u32 (pos_end - pos_start)).

Definition its_flash_fs_mblock_migrate_lb0_data_to_scratch : FS unit :=
  block_meta ← its_flash_fs_mblock_read_block_metadata ITS_LOGICAL_DBLOCK0;
  let data_size := u32 (u32 (block_size cfg - data_start block_meta) -
                        free_size block_meta) in
  sc ← gets scratch_metablock;
  active ← gets active_metablock;
  its_flash_fs_block_to_block_move sc (data_start block_meta) active
    (data_start block_meta) data_size.

(** ** Committing an update *)

Definition bump_swap_count : FS unit :=
  modifyS (fun s => set_header
    (set_swap_count (u8 (active_swap_count (meta_block_header s) + 1))
       (meta_block_header s)) s).

Definition its_mblock_write_scratch_meta_header : FS unit :=
  _ ← bump_swap_count;
  c ← gets (fun s => active_swap_count (meta_block_header s));
  _ ← (if negb (its_mblock_validate_swap_count c =? PSA_SUCCESS)
       then bump_swap_count else mret tt);
  sc ← gets scratch_metablock;
  _ ← (if ITS_VALIDATE_METADATA_FROM_FLASH bld then
         x ← its_mblock_calculate_metadata_xor sc;
         modifyS (fun s => set_header (set_metadata_xor x (meta_block_header s)) s)
       else
         modifyS (fun s => set_header (set_metadata_xor 0 (meta_block_header s)) s));
  h ← gets meta_block_header;
  flash_write cfg sc (header_bytes h) 0.

Definition its_flash_fs_mblock_meta_update_finalize : FS unit :=
  _ ← its_mblock_write_scratch_meta_header;
  sc ← gets scratch_metablock;
  _ ← flash_flush cfg sc;
  _ ← its_mblock_swap_metablocks;
  its_mblock_erase_scratch_blocks.

(** ** Mounting *)

Definition its_mblock_upgrade_meta_header : FS unit :=
  h ← gets meta_block_header;
  backward_compatible ← its_mblock_validate_fs_version (fs_version h);
  if negb backward_compatible then mret tt
  else
    block_meta_0 ← its_flash_fs_mblock_read_block_metadata_comp ITS_LOGICAL_DBLOCK0;
    let number := u32 (u32 (block_size cfg - free_size block_meta_0) -
                       ITS_BLOCK_META_HEADER_COMP_SIZE bld) in
    sc ← gets scratch_metablock;
    active ← gets active_metablock;
    _ ← its_flash_fs_block_to_block_move sc
          (its_mblock_block_meta_offset ITS_LOGICAL_DBLOCK0) active
          (ITS_BLOCK_META_HEADER_COMP_SIZE bld) number;
    _ ← modifyS (fun s => set_header
          (set_swap_count (comp_active_swap_count (meta_block_header s))
             (meta_block_header s)) s);
    _ ← modifyS (fun s => set_header
          (set_fs_version ITS_SUPPORTED_VERSION (meta_block_header s)) s);
    its_flash_fs_mblock_meta_update_finalize.

Definition its_mblock_read_meta_header : FS unit :=
  active ← gets active_metablock;
  raw ← flash_read cfg active 0 (ITS_BLOCK_META_HEADER_SIZE bld);
  _ ← modifyS (set_header (header_of raw));
  its_mblock_validate_header_meta (header_of raw) active.

(** The header of a metadata block together with its validity. *)
Definition read_candidate (block : Z) : FS (option its_metadata_block_header_t) :=
  r ← attempt (flash_read cfg block 0 (ITS_BLOCK_META_HEADER_SIZE bld));
  match r with
  | inl _ => mret None
  | inr raw =>
      v ← attempt (its_mblock_validate_header_meta (header_of raw) block);
      mret (match v with inl _ => None | inr _ => Some (header_of raw) end)
  end.

Definition its_init_get_active_metablock : FS unit :=
  c0 ← read_candidate ITS_METADATA_BLOCK0;
  c1 ← read_candidate ITS_METADATA_BLOCK1;
  cur_meta_block ←
    match c0, c1 with
    | Some h_meta0, Some h_meta1 => mret (its_mblock_latest_meta_block h_meta0 h_meta1)
    | Some _, None => mret ITS_METADATA_BLOCK0
    | None, Some _ => mret ITS_METADATA_BLOCK1
    | None, None => throw PSA_ERROR_GENERIC_ERROR
    end;
  modifyS (set_metablocks cur_meta_block (ITS_OTHER_META_BLOCK cur_meta_block)).

Definition its_flash_fs_mblock_init : FS unit :=
  _ ← flash_init cfg;
  _ ← or_return its_init_get_active_metablock PSA_ERROR_GENERIC_ERROR;
  _ ← or_return its_mblock_read_meta_header PSA_ERROR_GENERIC_ERROR;
  _ ← or_return its_mblock_erase_scratch_blocks PSA_ERROR_GENERIC_ERROR;
  its_mblock_upgrade_meta_header.

(** ** Allocation *)

Definition its_mblock_reserve_file (fid : bytes) (size fl : Z) (file_meta : its_file_meta_t)
  : FS (its_file_meta_t * its_block_meta_t) :=
  r ← for_range 0 its_num_active_dblocks (fun i =>
        block_meta ← or_return (its_flash_fs_mblock_read_block_metadata i)
                               PSA_ERROR_GENERIC_ERROR;
        mret (if free_size block_meta >=? size then
                Some ({| lblock := i;
                         data_idx := u32 (block_size cfg - free_size block_meta);
                         cur_size := 0;
                         max_size := size;
                         flags := fl;
                         id := fid;
                         f_roundup := f_roundup file_meta |},
                      set_free_size (free_size block_meta - size) block_meta)
              else None));
  match r with
  | Some reserved => mret reserved
  | None => throw PSA_ERROR_INSUFFICIENT_STORAGE
  end.

Definition its_flash_fs_mblock_reserve_file (fid : bytes) (use_spare : bool) (size fl : Z)
    (file_meta : its_file_meta_t) : FS (Z * its_file_meta_t * its_block_meta_t) :=
  r ← attempt (its_mblock_reserve_file fid size fl file_meta);
  file_meta_idx ← its_get_free_file_index use_spare;
  match r with
  | inl _ => throw PSA_ERROR_INSUFFICIENT_STORAGE
  | inr (fm, bm) =>
      if file_meta_idx =? ITS_METADATA_INVALID_INDEX
      then throw PSA_ERROR_INSUFFICIENT_STORAGE
      else mret (file_meta_idx, fm, bm)
  end.

(** ** Wiping *)

(** [err |= erase(...)] over the dedicated data blocks, errors accumulated. *)
Definition erase_dedicated_dblocks : FS Z :=
  fold_range 0 its_num_dedicated_dblocks 0 (fun i err =>
    st ← status_of (flash_erase cfg (u32 (i + its_init_dblock_start)));
    mret (Z.lor err st)).

Definition its_flash_fs_mblock_reset_metablock : FS unit :=
  r ← attempt its_init_get_active_metablock;
  metablock_to_erase_first ←
    match r with
    | inr _ => gets scratch_metablock
    | inl _ => mret ITS_METADATA_BLOCK0
    end;
  _ ← flash_erase cfg metablock_to_erase_first;
  _ ← flash_erase cfg (ITS_OTHER_META_BLOCK metablock_to_erase_first);
  _ ← modifyS (fun s => set_header
        (set_swap_count (if erase_val cfg =? 0 then 1 else 0) (meta_block_header s)) s);
  _ ← modifyS (fun s => set_header
        (set_scratch_dblock its_init_scratch_dblock (meta_block_header s)) s);
  _ ← modifyS (fun s => set_header
        (set_fs_version ITS_SUPPORTED_VERSION (meta_block_header s)) s);
  _ ← modifyS (set_metablocks ITS_METADATA_BLOCK0 ITS_METADATA_BLOCK1);
  let start := its_mblock_file_meta_offset (max_num_files cfg) in
  let roundup := indeterminate (Z.to_nat (ITS_BLOCK_METADATA_SIZE bld - 12)) in
  sc ← gets scratch_metablock;
  _ ← its_mblock_update_scratch_block_meta ITS_LOGICAL_DBLOCK0
        (mk_block_meta sc start (u32 (block_size cfg - start)) roundup);
  err ← erase_dedicated_dblocks;
  _ ← fail_if (negb (err =? PSA_SUCCESS)) PSA_ERROR_STORAGE_FAILURE;
  _ ← for_range 0 its_num_dedicated_dblocks (fun i =>
        _ ← or_return
          (its_mblock_update_scratch_block_meta (u32 (i + 1))
             (mk_block_meta (u32 (i + its_init_dblock_start)) 0 (block_size cfg) roundup))
          PSA_ERROR_GENERIC_ERROR;
        mret (@None unit));
  _ ← for_range 0 (max_num_files cfg) (fun i =>
        _ ← or_return
          (its_flash_fs_mblock_update_scratch_file_meta i (zero_file_meta bld))
          PSA_ERROR_GENERIC_ERROR;
        mret (@None unit));
  _ ← or_return its_mblock_write_scratch_meta_header PSA_ERROR_GENERIC_ERROR;
  sc' ← gets scratch_metablock;
  _ ← flash_flush cfg sc';
  its_mblock_swap_metablocks.
End Mblock.
