(* ===== verification/ItsFs.v ===== *)
(** [flash_fs/its_flash_fs_dblock.c] and [flash_fs/its_flash_fs.c]: the data
    block layer and the file operations of the filesystem. *)

From stdpp Require Import base list numbers gmap.
From S2P Require Import Prelude Flash ItsTypes ItsMblock.

Definition ITS_FLASH_FS_INTERNAL_FLAGS_MASK : Z := UINT32_MAX - (2 ^ 24 - 1).
Definition ITS_FLASH_FS_FLAG_DELETE : Z := 2 ^ 24.
Definition ITS_FLASH_FS_USER_FLAGS_MASK : Z := 2 ^ 16 - 1.
Definition ITS_FLASH_FS_FLAG_CREATE : Z := 2 ^ 16.
Definition ITS_FLASH_FS_FLAG_TRUNCATE : Z := 2 ^ 17.

(** [struct its_flash_fs_file_info_t] (without [ITS_ENCRYPTION]). *)
Record its_flash_fs_file_info_t := mk_file_info {
  size_current : Z;
  size_max : Z;
  info_flags : Z;
}.

Section Fs.
Context {D : Type} `{!FlashOps D} (bld : its_build) (cfg : its_flash_fs_config_t).

Abbreviation FS := (M (its_flash_fs_ctx_t D)).

(** ** its_flash_fs_dblock.c *)

Definition its_dblock_lo_to_phy (lb : Z) : FS Z :=
  r ← attempt (its_flash_fs_mblock_read_block_metadata bld cfg lb);
  mret (match r with
        | inl _ => ITS_BLOCK_INVALID_ID
        | inr block_meta => phy_id block_meta
        end).

Definition its_flash_fs_dblock_compact_block
    (lb free src_offset dst_offset size : Z) : FS unit :=
  block_meta ← its_flash_fs_mblock_read_block_metadata bld cfg lb;
  let block_meta := set_free_size (u32 (free_size block_meta + free)) block_meta in
  scratch_id ← its_flash_fs_mblock_cur_data_scratch_id lb;
  flush_data1 ← (if size >? 0 then
      _ ← or_return (its_flash_fs_block_to_block_move cfg scratch_id dst_offset
                       (phy_id block_meta) src_offset size) PSA_ERROR_GENERIC_ERROR;
      mret true
    else mret false);
  flush_data ← (if dst_offset >? data_start block_meta then
      _ ← or_return (its_flash_fs_block_to_block_move cfg scratch_id
                       (data_start block_meta) (phy_id block_meta)
                       (data_start block_meta) (u32 (dst_offset - data_start block_meta)))
                    PSA_ERROR_GENERIC_ERROR;
      mret true
    else mret flush_data1);
  _ ← its_flash_fs_mblock_set_data_scratch (phy_id block_meta) lb;
  r ← attempt (its_flash_fs_mblock_update_scratch_block_meta bld cfg lb
                 (set_phy_id scratch_id block_meta));
  match r with
  | inl err =>
      _ ← its_flash_fs_mblock_set_data_scratch scratch_id lb;
      throw err
  | inr _ =>
      if negb (lb =? ITS_LOGICAL_DBLOCK0) && flush_data
      then flash_flush cfg scratch_id
      else mret tt
  end.

Definition its_flash_fs_dblock_read_file (file_meta : its_file_meta_t)
    (offset size : Z) : FS bytes :=
  phys_block ← its_dblock_lo_to_phy (lblock file_meta);
  _ ← fail_if (phys_block =? ITS_BLOCK_INVALID_ID) PSA_ERROR_GENERIC_ERROR;
  let pos := u32 (data_idx file_meta + offset) in
  flash_read cfg phys_block pos size.

(** The caller's buffer must hold the [size] bytes written from it. *)
Definition write_buffer (b : Z) (data : bytes) (off size : Z) : FS unit :=
  if size <=? Z.of_nat (length data)
  then flash_write cfg b (take (Z.to_nat size) data) off
  else stop OutOfBounds.

Definition its_flash_fs_dblock_write_file (block_meta : its_block_meta_t)
    (file_meta : its_file_meta_t) (offset size : Z) (data : bytes) : FS unit :=
  scratch_id ← its_flash_fs_mblock_cur_data_scratch_id (lblock file_meta);
  let pos := u32 (data_idx file_meta + offset) in
  _ ← its_flash_fs_block_to_block_move cfg scratch_id (data_start block_meta)
        (phy_id block_meta) (data_start block_meta) (u32 (pos - data_start block_meta));
  _ ← write_buffer scratch_id data pos size;
  let pos := u32 (data_idx file_meta + max_size file_meta) in
  let num_bytes := u32 (u32 (block_size cfg - free_size block_meta) - pos) in
  _ ← its_flash_fs_block_to_block_move cfg scratch_id pos (phy_id block_meta) pos num_bytes;
  if negb (lblock file_meta =? ITS_LOGICAL_DBLOCK0)
  then flash_flush cfg scratch_id
  else mret tt.

(** ** its_flash_fs.c *)

Definition its_flash_fs_file_write_aligned_data (block_meta : its_block_meta_t)
    (file_meta : its_file_meta_t) (offset size : Z) (data : bytes) : FS unit :=
  size ← (if negb (ITS_FLASH_MAX_ALIGNMENT bld =? 1) then
      _ ← fail_if (negb (ITS_UTILS_IS_ALIGNED offset (program_unit cfg)))
                  PSA_ERROR_INVALID_ARGUMENT;
      mret (ITS_UTILS_ALIGN size (program_unit cfg))
    else mret size);
  _ ← fail_if (offset >? cur_size file_meta) PSA_ERROR_INVALID_ARGUMENT;
  _ ← fail_if (negb (its_utils_check_contained_in (max_size file_meta) offset size
                       =? PSA_SUCCESS)) PSA_ERROR_INVALID_ARGUMENT;
  its_flash_fs_dblock_write_file block_meta file_meta offset size data.

Definition its_flash_fs_num_active_dblocks : Z :=
  if num_blocks cfg =? 2 then 1 else u32 (num_blocks cfg - 2).

Definition its_flash_fs_all_metadata_size : Z :=
  u32 (u32 (ITS_BLOCK_META_HEADER_SIZE bld +
            u32 (its_flash_fs_num_active_dblocks * ITS_BLOCK_METADATA_SIZE bld)) +
       u32 (max_num_files cfg * ITS_FILE_METADATA_SIZE bld)).

Definition its_flash_fs_validate_config : Z :=
  let ret := PSA_SUCCESS in
  let ret := if (num_blocks cfg <? 2) || (num_blocks cfg =? 3)
             then PSA_ERROR_INVALID_ARGUMENT else ret in
  let ret := if (num_blocks cfg =? 2) &&
                (max_file_size cfg >? u32 (block_size cfg - its_flash_fs_all_metadata_size))
             then PSA_ERROR_INVALID_ARGUMENT else ret in
  let ret := if max_file_size cfg >? block_size cfg
             then PSA_ERROR_INVALID_ARGUMENT else ret in
  if its_flash_fs_all_metadata_size >? block_size cfg
  then PSA_ERROR_INVALID_ARGUMENT else ret.

(** The zeroed context: [memset(fs_ctx, 0, sizeof( *fs_ctx))]. *)
Definition zero_header : its_metadata_block_header_t :=
  mk_header 0 0 0 0 (replicate (Z.to_nat (ITS_BLOCK_META_HEADER_SIZE bld - 7)) 0).

(** The three pointers of the C signature are references here, so they are not
    NULL. *)
Definition its_flash_fs_init_ctx : FS unit :=
  _ ← check its_flash_fs_validate_config;
  modifyS (fun s => mk_fs (fs_dev s) zero_header 0 0).

(** The scan over all file entries of [its_flash_fs_delete_idx]: every entry but
    the deleted one goes to the scratch metadata block, those behind the deleted
    data in the same block moved down.  Carries [(src_offset,
    nbr_bytes_to_move)]. *)
Definition delete_scan_step (del_file_idx del_file_lblock del_file_data_idx
    del_file_max_size : Z) (idx : Z) (acc : Z * Z) : FS (Z * Z) :=
  let '(src_offset, nbr_bytes_to_move) := acc in
  if idx =? del_file_idx then mret acc
  else
    file_meta ← its_flash_fs_mblock_read_file_meta bld cfg idx;
    let moves := (lblock file_meta =? del_file_lblock) &&
                 (its_utils_validate_fid (id file_meta) =? PSA_SUCCESS) &&
                 (data_idx file_meta >? del_file_data_idx) in
    let file_meta' := if moves
      then set_data_idx (u32 (data_idx file_meta - del_file_max_size)) file_meta
      else file_meta in
    _ ← its_flash_fs_mblock_update_scratch_file_meta bld cfg idx file_meta';
    mret (if moves
          then (if src_offset >? data_idx file_meta then data_idx file_meta else src_offset,
                u32 (nbr_bytes_to_move + max_size file_meta))
          else acc).

(** Everything [its_flash_fs_delete_idx] does before the update is committed. *)
Definition delete_prepare (del_file_idx : Z) : FS unit :=
  file_meta ← its_flash_fs_mblock_read_file_meta bld cfg del_file_idx;
  _ ← fail_if (negb (its_utils_validate_fid (id file_meta) =? PSA_SUCCESS))
              PSA_ERROR_DOES_NOT_EXIST;
  let del_file_lblock := lblock file_meta in
  let del_file_data_idx := data_idx file_meta in
  let del_file_max_size := max_size file_meta in
  _ ← its_flash_fs_mblock_update_scratch_file_meta bld cfg del_file_idx (zero_file_meta bld);
  '(src_offset, nbr_bytes_to_move) ←
    fold_range 0 (max_num_files cfg) (block_size cfg, 0)
      (delete_scan_step del_file_idx del_file_lblock del_file_data_idx del_file_max_size);
  _ ← (if del_file_max_size =? 0 then
         block_meta ← its_flash_fs_mblock_read_block_metadata bld cfg ITS_LOGICAL_DBLOCK0;
         _ ← its_flash_fs_mblock_update_scratch_block_meta bld cfg ITS_LOGICAL_DBLOCK0
               block_meta;
         mret tt
       else
         its_flash_fs_dblock_compact_block del_file_lblock del_file_max_size
           src_offset del_file_data_idx nbr_bytes_to_move);
  if (negb (del_file_max_size =? 0) && negb (del_file_lblock =? ITS_LOGICAL_DBLOCK0))
     || (del_file_max_size =? 0)
  then or_return (its_flash_fs_mblock_migrate_lb0_data_to_scratch bld cfg)
                 PSA_ERROR_GENERIC_ERROR
  else mret tt.

Definition its_flash_fs_delete_idx (del_file_idx : Z) : FS unit :=
  _ ← delete_prepare del_file_idx;
  its_flash_fs_mblock_meta_update_finalize bld cfg.

Definition its_flash_fs_prepare : FS unit :=
  _ ← its_flash_fs_mblock_init bld cfg;
  r ← attempt (its_flash_fs_mblock_get_file_idx_flag bld cfg ITS_FLASH_FS_FLAG_DELETE);
  match r with
  | inr idx => its_flash_fs_delete_idx idx
  | inl err => if negb (err =? PSA_ERROR_DOES_NOT_EXIST) then throw err else mret tt
  end.

Definition its_flash_fs_wipe_all : FS unit :=
  its_flash_fs_mblock_reset_metablock bld cfg.

Definition its_flash_fs_file_get_info (fid : bytes) : FS its_flash_fs_file_info_t :=
  '(_, tmp_metadata) ← or_return (its_flash_fs_mblock_get_file_idx_meta bld cfg fid)
                                 PSA_ERROR_DOES_NOT_EXIST;
  mret (mk_file_info (cur_size tmp_metadata) (max_size tmp_metadata)
          (Z.land (flags tmp_metadata) ITS_FLASH_FS_USER_FLAGS_MASK)).

(** What [its_flash_fs_file_write] knows of the file once it has looked it up. *)
Record write_target := mk_target {
  wt_file_meta : its_file_meta_t;
  wt_old_idx : Z;
  wt_new_idx : Z;
}.

(** "Check if the file already exists" up to the next blank step. *)
Definition file_write_lookup (fid : bytes) (fl sz_max : Z) : FS write_target :=
  r ← attempt (its_flash_fs_mblock_get_file_idx_meta bld cfg fid);
  match r with
  | inr (old_idx, file_meta) =>
      if truth (Z.land fl ITS_FLASH_FS_FLAG_TRUNCATE) then
        if max_size file_meta =? sz_max then
          mret (mk_target (set_flags fl (set_cur_size 0 file_meta)) old_idx old_idx)
        else
          let file_meta' := set_flags (Z.lor (flags file_meta) ITS_FLASH_FS_FLAG_DELETE)
                                      file_meta in
          _ ← or_return (its_flash_fs_mblock_update_scratch_file_meta bld cfg old_idx file_meta')
                        PSA_ERROR_GENERIC_ERROR;
          mret (mk_target file_meta' old_idx ITS_METADATA_INVALID_INDEX)
      else mret (mk_target file_meta old_idx old_idx)
  | inl err =>
      if err =? PSA_ERROR_DOES_NOT_EXIST then
        _ ← fail_if (negb (truth (Z.land fl ITS_FLASH_FS_FLAG_CREATE)))
                    PSA_ERROR_DOES_NOT_EXIST;
        mret (mk_target (zero_file_meta bld) ITS_METADATA_INVALID_INDEX
                ITS_METADATA_INVALID_INDEX)
      else throw err
  end.

(** Reserve a new file or read the block metadata of the existing one. *)
Definition file_write_reserve (fid : bytes) (fl sz_max : Z) (t : write_target)
  : FS (write_target * its_block_meta_t) :=
  if wt_new_idx t =? ITS_METADATA_INVALID_INDEX then
    _ ← fail_if (sz_max >? max_file_size cfg) PSA_ERROR_INVALID_ARGUMENT;
    let use_spare := negb (wt_old_idx t =? ITS_METADATA_INVALID_INDEX) in
    '(new_idx, file_meta, block_meta) ←
      its_flash_fs_mblock_reserve_file bld cfg fid use_spare sz_max fl (wt_file_meta t);
    mret (mk_target file_meta (wt_old_idx t) new_idx, block_meta)
  else
    block_meta ← or_return
      (its_flash_fs_mblock_read_block_metadata bld cfg (lblock (wt_file_meta t)))
      PSA_ERROR_GENERIC_ERROR;
    mret (t, block_meta).

(** "Write the content into scratch data block". *)
Definition file_write_data (data_size offset : Z) (data : bytes)
    (file_meta : its_file_meta_t) (block_meta : its_block_meta_t)
  : FS (its_file_meta_t * its_block_meta_t) :=
  if negb (data_size =? 0) then
    _ ← or_return (its_flash_fs_file_write_aligned_data block_meta file_meta offset
                     data_size data) PSA_ERROR_GENERIC_ERROR;
    let file_meta' := if u32 (offset + data_size) >? cur_size file_meta
                      then set_cur_size (u32 (offset + data_size)) file_meta
                      else file_meta in
    let cur_phys_block := phy_id block_meta in
    scratch_id ← its_flash_fs_mblock_cur_data_scratch_id (lblock file_meta');
    _ ← its_flash_fs_mblock_set_data_scratch cur_phys_block (lblock file_meta');
    mret (file_meta', set_phy_id scratch_id block_meta)
  else mret (file_meta, block_meta).

(** Write the new entries of the metadata block and copy all the others. *)
Definition file_write_meta (t : write_target) (file_meta : its_file_meta_t)
    (block_meta : its_block_meta_t) : FS unit :=
  let new_idx := wt_new_idx t in
  let old_idx := wt_old_idx t in
  _ ← or_return (its_flash_fs_mblock_update_scratch_block_meta bld cfg (lblock file_meta)
                   block_meta) PSA_ERROR_GENERIC_ERROR;
  _ ← or_return (its_flash_fs_mblock_update_scratch_file_meta bld cfg new_idx file_meta)
                PSA_ERROR_GENERIC_ERROR;
  let idx := ITS_UTILS_MIN new_idx old_idx in
  _ ← or_return (its_flash_fs_mblock_cp_file_meta bld cfg 0 idx) PSA_ERROR_GENERIC_ERROR;
  let replaces := negb (old_idx =? ITS_METADATA_INVALID_INDEX) &&
                  negb (old_idx =? new_idx) in
  _ ← (if replaces then
         or_return (its_flash_fs_mblock_cp_file_meta bld cfg (u32 (idx + 1))
                      (ITS_UTILS_MAX new_idx old_idx)) PSA_ERROR_GENERIC_ERROR
       else mret tt);
  let idx := if replaces then ITS_UTILS_MAX new_idx old_idx else idx in
  or_return (its_flash_fs_mblock_cp_file_meta bld cfg (u32 (idx + 1)) (max_num_files cfg))
            PSA_ERROR_GENERIC_ERROR.

(** Everything [its_flash_fs_file_write] does before the update is committed;
    returns the indices. *)
Definition file_write_prepare (fid : bytes) (finfo : its_flash_fs_file_info_t)
    (data_size offset : Z) (data : bytes) : FS write_target :=
  _ ← fail_if (truth (Z.land (info_flags finfo) ITS_FLASH_FS_INTERNAL_FLAGS_MASK))
              PSA_ERROR_INVALID_ARGUMENT;
  let sz_max := if negb (ITS_FLASH_MAX_ALIGNMENT bld =? 1)
                then ITS_UTILS_ALIGN (size_max finfo) (program_unit cfg)
                else size_max finfo in
  t0 ← file_write_lookup fid (info_flags finfo) sz_max;
  '(t, block_meta) ← file_write_reserve fid (info_flags finfo) sz_max t0;
  '(file_meta, block_meta) ← file_write_data data_size offset data (wt_file_meta t) block_meta;
  _ ← file_write_meta t file_meta block_meta;
  _ ← (if negb (lblock file_meta =? ITS_LOGICAL_DBLOCK0) || (data_size =? 0)
       then or_return (its_flash_fs_mblock_migrate_lb0_data_to_scratch bld cfg)
                      PSA_ERROR_GENERIC_ERROR
       else mret tt);
  mret t.

(** [*finfo] keeps its aligned [size_max] for the caller. *)
Definition write_finfo (finfo : its_flash_fs_file_info_t) : its_flash_fs_file_info_t :=
  if truth (Z.land (info_flags finfo) ITS_FLASH_FS_INTERNAL_FLAGS_MASK) then finfo
  else if negb (ITS_FLASH_MAX_ALIGNMENT bld =? 1)
  then mk_file_info (size_current finfo) (ITS_UTILS_ALIGN (size_max finfo) (program_unit cfg))
         (info_flags finfo)
  else finfo.

Definition its_flash_fs_file_write (fid : bytes) (finfo : its_flash_fs_file_info_t)
    (data_size offset : Z) (data : bytes) : FS unit :=
  t ← file_write_prepare fid finfo data_size offset data;
  _ ← its_flash_fs_mblock_meta_update_finalize bld cfg;
  if negb (wt_old_idx t =? ITS_METADATA_INVALID_INDEX) &&
     negb (wt_old_idx t =? wt_new_idx t)
  then its_flash_fs_delete_idx (wt_old_idx t)
  else mret tt.

Definition its_flash_fs_file_delete (fid : bytes) : FS unit :=
  '(del_file_idx, _) ← or_return (its_flash_fs_mblock_get_file_idx_meta bld cfg fid)
                                 PSA_ERROR_DOES_NOT_EXIST;
  its_flash_fs_delete_idx del_file_idx.

Definition its_flash_fs_file_read (fid : bytes) (size offset : Z) : FS bytes :=
  '(_, tmp_metadata) ← or_return (its_flash_fs_mblock_get_file_idx_meta bld cfg fid)
                                 PSA_ERROR_DOES_NOT_EXIST;
  _ ← check (its_utils_check_contained_in (cur_size tmp_metadata) offset size);
  or_return (its_flash_fs_dblock_read_file tmp_metadata offset size) PSA_ERROR_GENERIC_ERROR.
End Fs.
