(* ===== verification/ItsLayout.v ===== *)
(** Facts about the metadata layer that every later proof uses: the layout of
    the metadata block without wrap-around, the meaning of the calls through the
    operation table on a working device, and the exact effect of
    [its_flash_fs_block_to_block_move]. *)

From stdpp Require Import base list numbers gmap.
From S2P Require Import Prelude Flash FlashRam ItsTypes ItsMblock ItsFs.

(** The configurations the filesystem accepts. *)
Record cfg_ok (bld : its_build) (cfg : its_flash_fs_config_t) : Prop := {
  ok_build : build_ok bld;
  ok_typed : cfg_typed cfg;
  ok_valid : its_flash_fs_validate_config bld cfg = PSA_SUCCESS;
}.

(** The byte of block [b] at offset [o], as the filesystem sees it. *)
Definition view {D} `{!FlashView D} (cfg : its_flash_fs_config_t)
  (s : its_flash_fs_ctx_t D) (b o : Z) : option Z := byte_at cfg (fs_dev s) b o.

(** Two states with the same context fields. *)
Definition same_ctx {D} (s s' : its_flash_fs_ctx_t D) : Prop :=
  meta_block_header s' = meta_block_header s /\
  active_metablock s' = active_metablock s /\
  scratch_metablock s' = scratch_metablock s.

(** Two states that no operation of the filesystem can tell apart. *)
Definition same_fs {D} `{!FlashView D} (cfg : its_flash_fs_config_t)
    (s s' : its_flash_fs_ctx_t D) : Prop :=
  same_ctx s s' /\ dev_ok cfg (fs_dev s') /\ (forall b o, view cfg s' b o = view cfg s b o).

(** Block [b] holds the bytes [l] at offset [off]. *)
Definition holds {D} `{!FlashView D} (cfg : its_flash_fs_config_t)
    (s : its_flash_fs_ctx_t D) (b off : Z) (l : bytes) : Prop :=
  forall i x, l !! i = Some x -> view cfg s b (off + Z.of_nat i) = Some x.

(** The [n] bytes stored in block [b] from offset [off]. *)
Definition stored {D} `{!FlashView D} (cfg : its_flash_fs_config_t)
    (s : its_flash_fs_ctx_t D) (b off n : Z) : bytes :=
  (fun i => default 0 (view cfg s b i)) <$> seqZ off n.

Lemma stored_length {D} `{!FlashView D} cfg (s : its_flash_fs_ctx_t D) b off n :
  length (stored cfg s b off n) = Z.to_nat n.
Proof. unfold stored. by rewrite length_fmap, length_seqZ. Qed.

Lemma stored_split {D} `{!FlashView D} cfg (s : its_flash_fs_ctx_t D) b off n m :
  0 <= n -> 0 <= m ->
  stored cfg s b off (n + m) = stored cfg s b off n ++ stored cfg s b (off + n) m.
Proof. intros. unfold stored. by rewrite seqZ_app, fmap_app. Qed.

(** Only the bytes of the region matter. *)
Lemma stored_ext {D} `{!FlashView D} cfg (s s' : its_flash_fs_ctx_t D) b b' off n :
  (forall o, off <= o < off + n -> view cfg s' b' o = view cfg s b o) ->
  stored cfg s' b' off n = stored cfg s b off n.
Proof.
  intros H. unfold stored. apply list_fmap_ext. intros i x Hi.
  apply lookup_seqZ in Hi as [-> ?]. rewrite H by lia. done.
Qed.

Lemma same_fs_stored {D} `{!FlashView D} cfg (s s' : its_flash_fs_ctx_t D) b off n :
  same_fs cfg s s' -> stored cfg s' b off n = stored cfg s b off n.
Proof. intros (_ & _ & Hv). by apply stored_ext. Qed.

Section Layout.
Context (bld : its_build) (cfg : its_flash_fs_config_t) (Hcfg : cfg_ok bld cfg).

Lemma num_blocks_cases : num_blocks cfg = 2 \/ 4 <= num_blocks cfg < 2 ^ 16.
Proof.
  destruct Hcfg as [_ Ht Hv]. unfold its_flash_fs_validate_config in Hv.
  destruct Ht as (_&_&_&Hnb&_). unfold is_u16 in Hnb.
  repeat case_match; try discriminate;
    rewrite ?orb_false_iff, ?Z.ltb_ge, ?Z.eqb_neq, ?Z.eqb_eq in *; lia.
Qed.

Lemma num_active_eq :
  its_num_active_dblocks cfg = if num_blocks cfg =? 2 then 1 else num_blocks cfg - 2.
Proof.
  unfold its_num_active_dblocks, its_num_dedicated_dblocks, its_init_dblock_start.
  destruct num_blocks_cases as [->|H]; [done|].
  rewrite (proj2 (Z.eqb_neq _ _)) by lia. rewrite !u32_small; unfold is_u32, u32; lia.
Qed.

Lemma num_active_bounds : 1 <= its_num_active_dblocks cfg < 2 ^ 16.
Proof.
  rewrite num_active_eq. destruct num_blocks_cases as [->|H]; [done|].
  rewrite (proj2 (Z.eqb_neq _ _)) by lia. lia.
Qed.

Lemma max_num_files_bounds : 0 <= max_num_files cfg < 2 ^ 16.
Proof. by destruct Hcfg as [_ (_&_&_&_&_&_&?&_) _]. Qed.

Lemma block_meta_offset_exact lb : 0 <= lb <= 2 ^ 16 ->
  its_mblock_block_meta_offset bld lb =
    ITS_BLOCK_META_HEADER_SIZE bld + lb * ITS_BLOCK_METADATA_SIZE bld.
Proof.
  intros Hlb. pose proof (header_size_bounds _ (ok_build _ _ Hcfg)).
  pose proof (block_size_bounds _ (ok_build _ _ Hcfg)).
  unfold its_mblock_block_meta_offset.
  rewrite (u32_small (lb * _)) by (unfold is_u32; nia). apply u32_small. unfold is_u32; nia.
Qed.

Lemma file_meta_offset_exact idx : 0 <= idx <= 2 ^ 16 ->
  its_mblock_file_meta_offset bld cfg idx =
    ITS_BLOCK_META_HEADER_SIZE bld +
    its_num_active_dblocks cfg * ITS_BLOCK_METADATA_SIZE bld +
    idx * ITS_FILE_METADATA_SIZE bld.
Proof.
  intros Hi. pose proof (header_size_bounds _ (ok_build _ _ Hcfg)).
  pose proof (block_size_bounds _ (ok_build _ _ Hcfg)).
  pose proof (file_size_bounds _ (ok_build _ _ Hcfg)). pose proof num_active_bounds.
  unfold its_mblock_file_meta_offset.
  rewrite (u32_small (its_num_active_dblocks cfg * _)) by (unfold is_u32; nia).
  rewrite (u32_small (ITS_BLOCK_META_HEADER_SIZE bld + _)) by (unfold is_u32; nia).
  rewrite (u32_small (idx * _)) by (unfold is_u32; nia). apply u32_small. unfold is_u32; nia.
Qed.

(** The two computations of the metadata size agree. *)
Lemma all_metadata_size_eq :
  its_flash_fs_all_metadata_size bld cfg =
  its_mblock_file_meta_offset bld cfg (max_num_files cfg).
Proof.
  pose proof max_num_files_bounds. rewrite file_meta_offset_exact by lia.
  pose proof (header_size_bounds _ (ok_build _ _ Hcfg)).
  pose proof (block_size_bounds _ (ok_build _ _ Hcfg)).
  pose proof (file_size_bounds _ (ok_build _ _ Hcfg)). pose proof num_active_bounds as Hna.
  unfold its_flash_fs_all_metadata_size.
  assert (its_flash_fs_num_active_dblocks cfg = its_num_active_dblocks cfg) as ->.
  { rewrite num_active_eq. unfold its_flash_fs_num_active_dblocks.
    destruct num_blocks_cases as [->|Hn]; [done|].
    rewrite (proj2 (Z.eqb_neq _ _)) by lia. apply u32_small. unfold is_u32. lia. }
  rewrite (u32_small (its_num_active_dblocks cfg * _)) by (unfold is_u32; nia).
  rewrite (u32_small (ITS_BLOCK_META_HEADER_SIZE bld + _)) by (unfold is_u32; nia).
  rewrite (u32_small (max_num_files cfg * _)) by (unfold is_u32; nia).
  apply u32_small. unfold is_u32; nia.
Qed.

Lemma metadata_fits :
  its_mblock_file_meta_offset bld cfg (max_num_files cfg) <= block_size cfg.
Proof.
  rewrite <- all_metadata_size_eq. destruct Hcfg as [_ _ Hv].
  unfold its_flash_fs_validate_config in Hv.
  destruct (Z.gtb_spec (its_flash_fs_all_metadata_size bld cfg) (block_size cfg)); [done|lia].
Qed.

Lemma block_size_range : 52 <= block_size cfg < 2 ^ 32 \/ max_num_files cfg = 0 /\ 20 <= block_size cfg < 2 ^ 32.
Proof.
  pose proof metadata_fits as Hf. pose proof max_num_files_bounds.
  rewrite file_meta_offset_exact in Hf by lia.
  pose proof (header_size_bounds _ (ok_build _ _ Hcfg)).
  pose proof (block_size_bounds _ (ok_build _ _ Hcfg)).
  pose proof (file_size_bounds _ (ok_build _ _ Hcfg)). pose proof num_active_bounds.
  destruct Hcfg as [_ (_&_&Hbs&_) _]. unfold is_u32 in Hbs.
  destruct (decide (max_num_files cfg = 0)); [right|left]; nia.
Qed.

Lemma block_size_u32 : is_u32 (block_size cfg).
Proof. by destruct Hcfg as [_ (_&_&?&_) _]. Qed.

Lemma metablock_valid b : b = 0 \/ b = 1 -> valid_block cfg b = true.
Proof. intros. apply valid_block_spec. destruct num_blocks_cases; lia. Qed.

Lemma header_range b : valid_block cfg b = true ->
  valid_range cfg b 0 (ITS_BLOCK_META_HEADER_SIZE bld) = true.
Proof.
  rewrite valid_block_spec, valid_range_spec. intros Hb.
  pose proof metadata_fits as Hf. pose proof max_num_files_bounds.
  rewrite file_meta_offset_exact in Hf by lia.
  pose proof (header_size_bounds _ (ok_build _ _ Hcfg)).
  pose proof (block_size_bounds _ (ok_build _ _ Hcfg)).
  pose proof (file_size_bounds _ (ok_build _ _ Hcfg)). pose proof num_active_bounds. nia.
Qed.

Lemma block_meta_range b lb : valid_block cfg b = true -> 0 <= lb < its_num_active_dblocks cfg ->
  valid_range cfg b (its_mblock_block_meta_offset bld lb) (ITS_BLOCK_METADATA_SIZE bld) = true.
Proof.
  rewrite valid_block_spec, valid_range_spec. intros Hb Hlb.
  pose proof num_active_bounds. rewrite block_meta_offset_exact by lia.
  pose proof metadata_fits as Hf. pose proof max_num_files_bounds.
  rewrite file_meta_offset_exact in Hf by lia.
  pose proof (header_size_bounds _ (ok_build _ _ Hcfg)).
  pose proof (block_size_bounds _ (ok_build _ _ Hcfg)).
  pose proof (file_size_bounds _ (ok_build _ _ Hcfg)). nia.
Qed.

Lemma file_meta_range b idx : valid_block cfg b = true -> 0 <= idx < max_num_files cfg ->
  valid_range cfg b (its_mblock_file_meta_offset bld cfg idx) (ITS_FILE_METADATA_SIZE bld) = true.
Proof.
  rewrite valid_block_spec, valid_range_spec. intros Hb Hi.
  pose proof max_num_files_bounds. rewrite file_meta_offset_exact by lia.
  pose proof metadata_fits as Hf. rewrite file_meta_offset_exact in Hf by lia.
  pose proof (header_size_bounds _ (ok_build _ _ Hcfg)).
  pose proof (block_size_bounds _ (ok_build _ _ Hcfg)). pose proof num_active_bounds.
  pose proof (file_size_bounds _ (ok_build _ _ Hcfg)). nia.
Qed.
End Layout.

(** ** The operation table on a working device *)

Section Ops.
Context {D : Type} `{!FlashOps D} `{!FlashView D} (cfg : its_flash_fs_config_t).
Context `{!FlashSpec cfg}.
Implicit Types s : its_flash_fs_ctx_t D.

Lemma same_fs_refl s : dev_ok cfg (fs_dev s) -> same_fs cfg s s.
Proof. by repeat split. Qed.

Lemma same_fs_trans s1 s2 s3 : same_fs cfg s1 s2 -> same_fs cfg s2 s3 -> same_fs cfg s1 s3.
Proof.
  intros ((?&?&?)&_&H12) ((?&?&?)&?&H23). repeat split; congruence.
Qed.

Lemma same_fs_holds s s' b off l : same_fs cfg s s' -> holds cfg s b off l -> holds cfg s' b off l.
Proof. intros (_&_&Hv) Hh i x Hi. rewrite Hv. by apply Hh. Qed.

Lemma view_in_range s b o : dev_ok cfg (fs_dev s) -> valid_range cfg b o 1 = true ->
  exists v, view cfg s b o = Some v /\ is_u8 v.
Proof. intros. by apply spec_in_range. Qed.

Lemma flash_read_spec s b off n : dev_ok cfg (fs_dev s) -> valid_range cfg b off n = true ->
  exists l s', flash_read cfg b off n s = (Val l, s') /\ same_fs cfg s s' /\
    Z.of_nat (length l) = n /\ is_bytes l /\ holds cfg s b off l.
Proof.
  intros Hok Hr. destruct (spec_read cfg (fs_dev s) b off n Hok Hr)
    as (l & d' & Hrd & Hok' & Hsame & Hlen & Hl).
  exists l, (set_dev d' s). unfold flash_read, on_dev. rewrite Hr, Hrd.
  assert (holds cfg s b off l) as Hh.
  { intros i x Hi. unfold view. rewrite <- Hl; [done|]. by eapply lookup_lt_Some. }
  split; [done|]. split; [repeat split; [done|]; intros b' o; apply Hsame|].
  split; [done|]. split; [|done].
  - apply Forall_lookup. intros i x Hi. specialize (Hh i x Hi).
    destruct (view_in_range s b (off + Z.of_nat i) Hok) as (v & Hv & ?).
    { apply lookup_lt_Some in Hi. apply valid_range_spec in Hr. apply valid_range_spec. lia. }
    by rewrite Hv in Hh; injection Hh as <-.
Qed.

Lemma flash_read_holds s b off l : dev_ok cfg (fs_dev s) ->
  valid_range cfg b off (Z.of_nat (length l)) = true -> holds cfg s b off l ->
  exists s', flash_read cfg b off (Z.of_nat (length l)) s = (Val l, s') /\ same_fs cfg s s'.
Proof.
  intros Hok Hr Hh. destruct (flash_read_spec s b off _ Hok Hr)
    as (l' & s' & Hrd & Hsame & Hlen & _ & Hh').
  assert (l' = l) as ->; [|by exists s'].
  apply list_eq_same_length with (length l); [done|lia|]. intros i x y Hi Hx Hy.
  specialize (Hh i y Hy). specialize (Hh' i x Hx). congruence.
Qed.

Lemma holds_stored s b off l : holds cfg s b off l ->
  stored cfg s b off (Z.of_nat (length l)) = l.
Proof.
  intros Hh. apply list_eq_same_length with (length l); [done|by rewrite stored_length, Nat2Z.id|].
  intros i x y Hi Hx Hy. unfold stored in Hx. rewrite list_lookup_fmap, lookup_seqZ_lt in Hx by lia.
  simpl in Hx. rewrite (Hh i y Hy) in Hx. by injection Hx as <-.
Qed.

(** A read returns exactly what is stored. *)
Lemma flash_read_stored s b off n : dev_ok cfg (fs_dev s) -> valid_range cfg b off n = true ->
  exists s', flash_read cfg b off n s = (Val (stored cfg s b off n), s') /\ same_fs cfg s s'.
Proof.
  intros Hok Hr. destruct (flash_read_spec s b off n Hok Hr) as (l & s' & Hrd & Hs & Hl & _ & Hh).
  subst n.
  exists s'. split; [|done]. by rewrite (holds_stored _ _ _ _ Hh).
Qed.

Lemma stored_bytes s b off n : dev_ok cfg (fs_dev s) -> valid_range cfg b off n = true ->
  is_bytes (stored cfg s b off n).
Proof.
  intros Hok Hr. destruct (flash_read_spec s b off n Hok Hr) as (l & s' & Hrd & Hs & Hl & Hb & Hh).
  subst n. by rewrite (holds_stored _ _ _ _ Hh).
Qed.

Lemma flash_write_spec s b l off : dev_ok cfg (fs_dev s) -> is_bytes l ->
  valid_range cfg b off (Z.of_nat (length l)) = true ->
  exists s', flash_write cfg b l off s = (Val tt, s') /\ same_ctx s s' /\
    dev_ok cfg (fs_dev s') /\
    forall b' o, valid_range cfg b' o 1 = true -> view cfg s' b' o =
      if decide (b' = b /\ off <= o < off + Z.of_nat (length l))
      then l !! Z.to_nat (o - off) else view cfg s b' o.
Proof.
  intros Hok Hl Hr. destruct (spec_write cfg (fs_dev s) b l off Hok Hl Hr)
    as (d' & Hw & Hok' & Hv).
  exists (set_dev d' s). unfold flash_write, on_dev. rewrite Hr, Hw. by repeat split.
Qed.

Lemma flash_flush_spec s b : dev_ok cfg (fs_dev s) -> valid_block cfg b = true ->
  exists s', flash_flush cfg b s = (Val tt, s') /\ same_fs cfg s s'.
Proof.
  intros Hok Hb. destruct (spec_flush cfg (fs_dev s) b Hok Hb) as (d' & Hf & Hok' & Hv).
  exists (set_dev d' s). unfold flash_flush, on_dev. rewrite Hb, Hf.
  repeat split; [done|]. intros b' o. apply Hv.
Qed.

Lemma flash_erase_spec s b : dev_ok cfg (fs_dev s) -> valid_block cfg b = true ->
  exists s', flash_erase cfg b s = (Val tt, s') /\ same_ctx s s' /\ dev_ok cfg (fs_dev s') /\
    forall b' o, valid_range cfg b' o 1 = true -> view cfg s' b' o =
      if decide (b' = b) then Some (erase_val cfg) else view cfg s b' o.
Proof.
  intros Hok Hb. destruct (spec_erase cfg (fs_dev s) b Hok Hb) as (d' & He & Hok' & Hv).
  exists (set_dev d' s). unfold flash_erase, on_dev. rewrite Hb, He. by repeat split.
Qed.

Lemma flash_init_spec s : dev_ok cfg (fs_dev s) ->
  exists s', flash_init cfg s = (Val tt, s') /\ same_fs cfg s s'.
Proof.
  intros Hok. destruct (spec_init cfg (fs_dev s) Hok) as (d' & Hi & Hok' & Hv).
  exists (set_dev d' s). unfold flash_init, on_dev. rewrite Hi.
  repeat split; [done|]. intros b o. apply Hv.
Qed.

Lemma valid_range_sub b off n o : valid_range cfg b off n = true -> off <= o < off + n ->
  valid_range cfg b o 1 = true.
Proof. rewrite !valid_range_spec. lia. Qed.

(** What has been copied when [k] bytes of a move are done. *)
Definition copied (dst doff src soff k : Z) (s s' : its_flash_fs_ctx_t D) : Prop :=
  same_ctx s s' /\ dev_ok cfg (fs_dev s') /\
  forall b o, valid_range cfg b o 1 = true -> view cfg s' b o =
    if decide (b = dst /\ doff <= o < doff + k)
    then view cfg s src (soff + (o - doff)) else view cfg s b o.

(** One round of the loop copies the next chunk. *)
Lemma copied_chunk dst doff src soff size k n s s1 l s2 s3 :
  src <> dst -> valid_range cfg dst doff size = true ->
  valid_range cfg src soff size = true -> 0 <= k -> 0 < n -> k + n <= size ->
  copied dst doff src soff k s s1 ->
  same_fs cfg s1 s2 -> Z.of_nat (length l) = n -> holds cfg s1 src (soff + k) l ->
  same_ctx s2 s3 -> dev_ok cfg (fs_dev s3) ->
  (forall b o, valid_range cfg b o 1 = true -> view cfg s3 b o =
     if decide (b = dst /\ doff + k <= o < doff + k + Z.of_nat (length l))
     then l !! Z.to_nat (o - (doff + k)) else view cfg s2 b o) ->
  copied dst doff src soff (k + n) s s3.
Proof.
  intros Hne Hrd Hrs Hk Hn Hkn (Hc1 & _ & Hv1) (Hc2 & _ & Hv2) Hlen Hl Hc3 Hok3 Hv3.
  unfold same_ctx in *. repeat split; try (intuition congruence).
  intros b o Hb. rewrite (Hv3 b o Hb), Hlen.
  destruct (decide (b = dst /\ doff + k <= o < doff + k + n)) as [[-> Ho]|Hno].
  - rewrite decide_True by lia.
    assert (Z.to_nat (o - (doff + k)) < length l)%nat as Hlt by lia.
    destruct (lookup_lt_is_Some_2 l _ Hlt) as [x Hx]. rewrite Hx.
    specialize (Hl _ _ Hx). rewrite Hv1 in Hl.
    + rewrite decide_False in Hl by (intros [? _]; done). rewrite <- Hl. f_equal. lia.
    + eapply valid_range_sub; [apply Hrs|lia].
  - rewrite Hv2, Hv1 by done.
    destruct (decide (b = dst /\ doff <= o < doff + k)).
    + rewrite decide_True by lia. done.
    + rewrite decide_False by lia. done.
Qed.

Lemma is_u32_block_offset o n : cfg_typed cfg -> 0 <= o -> 0 <= n -> o + n <= block_size cfg ->
  u32 (o + n) = o + n.
Proof. intros (_&_&Hbs&_) ???. apply u32_small. unfold is_u32 in *. lia. Qed.

Lemma block_to_block_move_spec dst doff src soff size s :
  cfg_typed cfg -> dev_ok cfg (fs_dev s) -> src <> dst ->
  valid_range cfg dst doff size = true -> valid_range cfg src soff size = true ->
  exists s', its_flash_fs_block_to_block_move cfg dst doff src soff size s = (Val tt, s') /\
    copied dst doff src soff size s s'.
Proof.
  intros Ht Hok Hne Hrd Hrs. pose proof Ht as (_&_&Hbs&_). unfold is_u32 in Hbs.
  pose proof Hrd as Hrd'. pose proof Hrs as Hrs'. rewrite valid_range_spec in Hrd', Hrs'.
  unfold its_flash_fs_block_to_block_move.
  destruct (while_loop_total (block_move_step cfg dst src)
    (fun x s1 => exists k, 0 <= k <= size /\ x = (doff + k, soff + k, size - k) /\
       copied dst doff src soff k s s1)
    (fun _ s' => copied dst doff src soff size s s')
    (fun x => x.2)) with (x := (doff, soff, size)) (s := s) as ([] & s' & Hrun & Hpost).
  2: { exists 0. split_and!; try lia; [f_equal; [f_equal|]; lia|].
       repeat split; [done|]. intros b o Hb. rewrite decide_False by lia. done. }
  2: { simpl. lia. }
  2: { by exists s'. }
  intros x s1 (k & Hk & -> & Hc). unfold block_move_step.
  destruct (Z.gtb_spec (size - k) 0) as [Hpos|Hend].
  - set (n := ITS_UTILS_MIN (size - k) ITS_MAX_BLOCK_DATA_COPY).
    assert (0 < n <= size - k) as Hn.
    { subst n. unfold ITS_UTILS_MIN, ITS_MAX_BLOCK_DATA_COPY.
      destruct (Z.ltb_spec (size - k) 256); lia. }
    destruct Hc as (Hctx & Hok1 & Hv1).
    destruct (flash_read_spec s1 src (soff + k) n Hok1) as (l & s2 & Hr & Hs2 & Hlen & Hlb & Hlh).
    { apply valid_range_spec. lia. }
    destruct (flash_write_spec s2 dst l (doff + k)) as (s3 & Hw & Hs3 & Hok3 & Hv3);
      [by apply Hs2|done|apply valid_range_spec; lia|].
    eexists _, s3. rewrite (bind_val _ _ _ _ _ Hr), (bind_val _ _ _ _ _ Hw).
    split; [done|]. simpl. split; [|lia].
    exists (k + n). rewrite !(is_u32_block_offset _ n) by (done || lia).
    split; [lia|]. split; [f_equal; [f_equal|]; lia|].
    eapply (copied_chunk dst doff src soff size k n s s1 l s2 s3); try done; lia.
  - eexists _, s1. split; [done|]. simpl. by replace size with k by lia.
Qed.
End Ops.

(** ** A sample filesystem

    Four blocks of 256 bytes in RAM, wiped and mounted, and the same with one
    file of ten bytes of which three are written.  The witnesses of the theorems
    use it. *)

Definition sample_cfg : its_flash_fs_config_t := mk_fs_config 0 256 256 4 1 100 4 255.
Definition sample_bld : its_build := mk_its_build 1 true.
Definition sample_fid : bytes := replicate 12 7.
Definition sample_finfo : its_flash_fs_file_info_t :=
  mk_file_info 0 10 (Z.lor ITS_FLASH_FS_FLAG_CREATE ITS_FLASH_FS_FLAG_TRUNCATE).

Definition sample_format {D} `{!FlashOps D} : M (its_flash_fs_ctx_t D) unit :=
  _ ← its_flash_fs_wipe_all sample_bld sample_cfg; its_flash_fs_prepare sample_bld sample_cfg.
Definition sample_write {D} `{!FlashOps D} : M (its_flash_fs_ctx_t D) unit :=
  its_flash_fs_file_write sample_bld sample_cfg sample_fid sample_finfo 3 0 [1; 2; 3].

Definition sample_state : its_flash_fs_ctx_t ram_dev :=
  (sample_format (mk_fs (replicate 1024 255) (zero_header sample_bld) 0 0)).2.
Definition sample_file_state : its_flash_fs_ctx_t ram_dev := (sample_write sample_state).2.

Lemma sample_cfg_ok : cfg_ok sample_bld sample_cfg.
Proof.
  split; [exists 0; split; [lia|done]| |done].
  unfold cfg_typed, is_u32, is_u16, is_u8, sample_cfg; simpl; lia.
Qed.

Definition sample_spec : FlashSpec sample_cfg :=
  ram_spec sample_cfg (ok_typed _ _ sample_cfg_ok) ltac:(done).

Lemma sample_ram_ok (d : ram_dev) : (length d =? 1024)%nat && bytes_check d = true ->
  ram_ok sample_cfg d.
Proof.
  rewrite andb_true_iff, Nat.eqb_eq. intros [Hl Hb]. split; [by rewrite Hl|by apply bytes_check_ok].
Qed.

Lemma sample_state_ram_ok : ram_ok sample_cfg (fs_dev sample_state).
Proof. apply sample_ram_ok. vm_compute. reflexivity. Qed.
Lemma sample_file_state_ram_ok : ram_ok sample_cfg (fs_dev sample_file_state).
Proof. apply sample_ram_ok. vm_compute. reflexivity. Qed.
