(* ===== verification/ItsCrash.v ===== *)
(** Which blocks an update of the filesystem may touch, on any device and for any
    outcome: an error of the driver or a loss of power at any point leaves the
    committed image alone until the new metadata header has been written. *)

From stdpp Require Import base list numbers gmap.
From S2P Require Import Prelude Flash FlashRam FlashTorn ItsTypes ItsMblock ItsFs.
From S2P Require Import ItsLayout.

Section Crash.
Context {D : Type} `{!FlashOps D} `{!FlashView D}.
Context (bld : its_build) (cfg : its_flash_fs_config_t) `{!FlashLocal cfg}.
Implicit Types s : its_flash_fs_ctx_t D.

(** Every block but the two scratch blocks is as it was on [d0]. *)
Definition untouched (sm sd : Z) (d0 : D) (d : D) : Prop :=
  forall b, valid_block cfg b = true -> b <> sm -> b <> sd -> same_block cfg b d0 d.

(** An update is in progress: the roles of the metadata blocks are those of the
    committed image, and only scratch blocks have changed.  [P] is what is known
    of the data scratch block the context names. *)
Definition in_progress (a sm sd : Z) (d0 : D) (P : Z -> Prop) s : Prop :=
  active_metablock s = a /\ scratch_metablock s = sm /\
  P (scratch_dblock (meta_block_header s)) /\ untouched sm sd d0 (fs_dev s).

Section Invariant.
Context (a sm sd : Z) (d0 : D) (P : Z -> Prop).
Abbreviation I := (in_progress a sm sd d0 P).

Lemma untouched_step (d d' : D) :
  untouched sm sd d0 d ->
  (forall b, valid_block cfg b = true -> b <> sm -> b <> sd -> same_block cfg b d d') ->
  untouched sm sd d0 d'.
Proof. intros H1 H2 b ???. eapply same_block_trans; [by apply H1|by apply H2]. Qed.

Lemma keeps_on_dev {A} ok (m : M D A) :
  (forall d b, ok = true -> valid_block cfg b = true -> b <> sm -> b <> sd ->
     same_block cfg b d (m d).2) ->
  keeps I (on_dev ok m).
Proof.
  intros Hm. apply on_dev_keeps. intros s Hok (?&?&?&Hu). repeat split; try done.
  eapply untouched_step; [exact Hu|]. intros. by apply Hm.
Qed.

Lemma keeps_flash_read b off n : keeps I (flash_read cfg b off n).
Proof. apply keeps_on_dev. intros. apply (local_read cfg). Qed.

Lemma keeps_flash_write b l off : b = sm \/ b = sd -> keeps I (flash_write cfg b l off).
Proof.
  intros Hb. apply keeps_on_dev. intros d b' Hr Hv ??.
  apply (local_write cfg); [done..|]. by destruct Hb; congruence.
Qed.

Lemma keeps_flash_flush b : b = sm \/ b = sd -> keeps I (flash_flush cfg b).
Proof.
  intros Hb. apply keeps_on_dev. intros d b' Hr Hv ??.
  apply (local_flush cfg); [done..|]. by destruct Hb; congruence.
Qed.

Lemma keeps_to_scratch : keeps_to I (gets scratch_metablock) (fun x => x = sm).
Proof. apply keeps_to_gets. by intros s (_&?&_). Qed.

Lemma keeps_check st : keeps I (check st).
Proof. apply keeps_fail_if. Qed.

Lemma keeps_block_move dst doff src soff n : dst = sm \/ dst = sd ->
  keeps I (its_flash_fs_block_to_block_move cfg dst doff src soff n).
Proof.
  intros Hd. apply keeps_while_loop. intros [[d o] z]. unfold block_move_step.
  keeps_auto; [apply keeps_flash_read|by apply keeps_flash_write].
Qed.
End Invariant.

#[local] Hint Resolve keeps_flash_read keeps_flash_write keeps_flash_flush keeps_check
  keeps_block_move : keeps.

(** Bind the scratch metadata block. *)
Ltac scratch_step :=
  eapply keeps_bind_to; [apply keeps_to_scratch|]; intros ? ->.

Section Operations.
Context (a sm sd : Z) (d0 : D) (P : Z -> Prop).
Abbreviation I := (in_progress a sm sd d0 P).

Lemma keeps_read_file_meta idx : keeps I (its_flash_fs_mblock_read_file_meta bld cfg idx).
Proof. unfold its_flash_fs_mblock_read_file_meta. keeps_auto. Qed.

Lemma keeps_read_block_metadata lb :
  keeps I (its_flash_fs_mblock_read_block_metadata bld cfg lb).
Proof. unfold its_flash_fs_mblock_read_block_metadata. keeps_auto. Qed.

#[local] Hint Resolve keeps_read_file_meta keeps_read_block_metadata : keeps.

Lemma keeps_get_file_idx_meta fid :
  keeps I (its_flash_fs_mblock_get_file_idx_meta bld cfg fid).
Proof. unfold its_flash_fs_mblock_get_file_idx_meta. keeps_auto. Qed.

Lemma keeps_get_free_file_index spare : keeps I (its_get_free_file_index bld cfg spare).
Proof.
  unfold its_get_free_file_index. generalize (Z.to_nat (max_num_files cfg)) as n, 0.
  intros n. revert spare. induction n as [|n IH]; intros spare i; simpl; keeps_auto; apply IH.
Qed.

Lemma keeps_reserve_file fid spare size fl fm :
  keeps I (its_flash_fs_mblock_reserve_file bld cfg fid spare size fl fm).
Proof.
  unfold its_flash_fs_mblock_reserve_file, its_mblock_reserve_file.
  pose proof keeps_get_free_file_index. keeps_auto.
Qed.

Lemma keeps_update_file_meta idx fm :
  keeps I (its_flash_fs_mblock_update_scratch_file_meta bld cfg idx fm).
Proof. unfold its_flash_fs_mblock_update_scratch_file_meta. scratch_step. auto with keeps. Qed.

Lemma keeps_update_block_meta lb bm :
  keeps I (its_mblock_update_scratch_block_meta bld cfg lb bm).
Proof. unfold its_mblock_update_scratch_block_meta. scratch_step. auto with keeps. Qed.

#[local] Hint Resolve keeps_update_file_meta keeps_update_block_meta : keeps.

Lemma keeps_copy_remaining lb : keeps I (its_mblock_copy_remaining_block_meta bld cfg lb).
Proof. unfold its_mblock_copy_remaining_block_meta. scratch_step. keeps_auto. Qed.

Lemma keeps_update_scratch_block_meta lb bm :
  keeps I (its_flash_fs_mblock_update_scratch_block_meta bld cfg lb bm).
Proof.
  unfold its_flash_fs_mblock_update_scratch_block_meta. pose proof keeps_copy_remaining.
  scratch_step. keeps_auto.
Qed.

Lemma keeps_cp_file_meta i j : keeps I (its_flash_fs_mblock_cp_file_meta bld cfg i j).
Proof. unfold its_flash_fs_mblock_cp_file_meta. scratch_step. keeps_auto. Qed.

Lemma keeps_migrate : keeps I (its_flash_fs_mblock_migrate_lb0_data_to_scratch bld cfg).
Proof.
  unfold its_flash_fs_mblock_migrate_lb0_data_to_scratch. keeps_step; [auto with keeps|].
  intros bm. scratch_step. keeps_auto.
Qed.

Lemma keeps_calculate_xor b : keeps I (its_mblock_calculate_metadata_xor bld cfg b).
Proof. unfold its_mblock_calculate_metadata_xor. keeps_auto. Qed.

Lemma keeps_set_header f : (forall h, P (scratch_dblock h) -> P (scratch_dblock (f h))) ->
  keeps I (modifyS (fun s => set_header (f (meta_block_header s)) s)).
Proof. intros Hf. apply keeps_modifyS. intros s (?&?&?&?). split_and!; simpl; auto. Qed.

Lemma keeps_write_header : keeps I (its_mblock_write_scratch_meta_header bld cfg).
Proof.
  unfold its_mblock_write_scratch_meta_header. pose proof keeps_calculate_xor.
  assert (keeps I bump_swap_count) by by apply (keeps_set_header
    (fun h => set_swap_count (u8 (active_swap_count h + 1)) h)).
  assert (forall x, keeps I (modifyS (fun s => set_header (set_metadata_xor x
    (meta_block_header s)) s))) by (intros x; by apply (keeps_set_header (set_metadata_xor x))).
  keeps_step; [done|]. intros _. keeps_step; [auto with keeps|]. intros c.
  keeps_step; [keeps_auto|]. intros _. scratch_step. keeps_auto.
Qed.
End Operations.

#[local] Hint Resolve keeps_read_file_meta keeps_read_block_metadata
  keeps_update_file_meta keeps_update_scratch_block_meta keeps_get_file_idx_meta
  keeps_reserve_file keeps_cp_file_meta keeps_migrate : keeps.

(** The steps that write file data: the context's data scratch block must still
    be the one the update started with. *)
Section Data.
Context (a sm sd : Z) (d0 : D).
Abbreviation I := (in_progress a sm sd d0 (fun x => x = sd)).
Abbreviation J := (in_progress a sm sd d0 (fun _ => True)).

Lemma in_progress_weaken s : I s -> J s.
Proof. intros (?&?&_&?). by split_and!. Qed.

Lemma keeps_to_data_scratch lb :
  keeps_to I (its_flash_fs_mblock_cur_data_scratch_id lb) (fun x => x = sm \/ x = sd).
Proof.
  unfold its_flash_fs_mblock_cur_data_scratch_id.
  case_match; apply keeps_to_gets; intros s (?&?&?&?); auto.
Qed.

Lemma keeps_set_data_scratch phy lb : keeps J (its_flash_fs_mblock_set_data_scratch phy lb).
Proof.
  unfold its_flash_fs_mblock_set_data_scratch. case_match; [|apply keeps_ret].
  by apply (keeps_set_header _ _ _ _ _ (set_scratch_dblock phy)).
Qed.

Lemma keeps_cur_data_scratch_id lb : keeps J (its_flash_fs_mblock_cur_data_scratch_id lb).
Proof. unfold its_flash_fs_mblock_cur_data_scratch_id. keeps_auto. Qed.

#[local] Hint Resolve keeps_set_data_scratch keeps_cur_data_scratch_id : keeps.

(** Bind the data scratch block. *)
Ltac data_scratch_step :=
  eapply keeps_bind_to; [apply keeps_to_data_scratch|]; intros ? ?.

Lemma keeps_write_buffer b data off n : b = sm \/ b = sd -> keeps I (write_buffer cfg b data off n).
Proof. intros. unfold write_buffer. keeps_auto. Qed.

Lemma keeps_dblock_write_file bm fm off n data :
  keeps I (its_flash_fs_dblock_write_file cfg bm fm off n data).
Proof.
  unfold its_flash_fs_dblock_write_file. data_scratch_step.
  pose proof keeps_write_buffer. keeps_auto.
Qed.

Lemma leads_compact_block lb free src dst n :
  leads I (its_flash_fs_dblock_compact_block bld cfg lb free src dst n) J.
Proof.
  unfold its_flash_fs_dblock_compact_block.
  apply leads_bind; [apply in_progress_weaken|auto with keeps|]. intros bm.
  eapply leads_bind_to; [apply in_progress_weaken|apply keeps_to_data_scratch|].
  intros sc Hsc.
  apply leads_bind; [apply in_progress_weaken|keeps_auto|]. intros f1.
  apply leads_bind; [apply in_progress_weaken|keeps_auto|]. intros f2.
  apply leads_keeps; [apply in_progress_weaken|]. keeps_auto.
Qed.

Lemma keeps_delete_scan i lb di ms idx acc :
  keeps I (delete_scan_step bld cfg i lb di ms idx acc).
Proof. unfold delete_scan_step. keeps_auto. Qed.

Lemma leads_delete_prepare i : leads I (delete_prepare bld cfg i) J.
Proof.
  unfold delete_prepare. pose proof keeps_delete_scan. pose proof leads_compact_block.
  apply leads_bind; [apply in_progress_weaken|auto with keeps|]. intros fm.
  apply leads_bind; [apply in_progress_weaken|auto with keeps|]. intros _.
  apply leads_bind; [apply in_progress_weaken|auto with keeps|]. intros _.
  apply leads_bind; [apply in_progress_weaken|keeps_auto|]. intros [so nb].
  apply leads_bind_after; [|keeps_auto].
  case_match; [|done]. apply leads_keeps; [apply in_progress_weaken|keeps_auto].
Qed.

Lemma keeps_write_lookup fid fl n : keeps I (file_write_lookup bld cfg fid fl n).
Proof. unfold file_write_lookup. keeps_auto. Qed.

Lemma keeps_write_reserve fid fl n t : keeps I (file_write_reserve bld cfg fid fl n t).
Proof. unfold file_write_reserve. keeps_auto. Qed.

Lemma leads_write_data n off data fm bm : leads I (file_write_data bld cfg n off data fm bm) J.
Proof.
  unfold file_write_data. case_match; [|apply leads_keeps; [apply in_progress_weaken|keeps_auto]].
  apply leads_bind; [apply in_progress_weaken| |].
  - pose proof keeps_dblock_write_file.
    unfold its_flash_fs_file_write_aligned_data. keeps_auto.
  - intros _. apply leads_keeps; [apply in_progress_weaken|keeps_auto].
Qed.

Lemma keeps_write_meta t fm bm : keeps J (file_write_meta bld cfg t fm bm).
Proof. unfold file_write_meta. keeps_auto. Qed.

Lemma leads_write_prepare fid finfo n off data :
  leads I (file_write_prepare bld cfg fid finfo n off data) J.
Proof.
  unfold file_write_prepare. pose proof keeps_write_meta.
  apply leads_bind; [apply in_progress_weaken|auto with keeps|]. intros _.
  apply leads_bind; [apply in_progress_weaken|apply keeps_write_lookup|]. intros t0.
  apply leads_bind; [apply in_progress_weaken|apply keeps_write_reserve|]. intros [t bm].
  apply leads_bind_after; [apply leads_write_data|]. intros [fm' bm']. keeps_auto.
Qed.
End Data.

(** ** Committing *)

(** The last write of an update and the flush that makes it durable. *)
Definition commit_run : M (its_flash_fs_ctx_t D) unit :=
  _ ← its_mblock_write_scratch_meta_header bld cfg;
  sc ← gets scratch_metablock;
  flash_flush cfg sc.

(** The update of [s] has not been committed in [s']: the metadata block roles
    are those of [s] and every block of the committed image is intact. *)
Definition not_committed s s' : Prop :=
  in_progress (active_metablock s) (scratch_metablock s)
    (scratch_dblock (meta_block_header s)) (fs_dev s) (fun _ => True) s'.

(** The update of [s] is committed in [s']: the header of the new image was
    written and flushed in [s2], the roles are swapped, and since then only the
    blocks that are scratch now have changed. *)
Definition committed s s' : Prop :=
  exists s1 s2, not_committed s s1 /\ commit_run s1 = (Val tt, s2) /\
    active_metablock s' = scratch_metablock s /\
    scratch_metablock s' = active_metablock s /\
    meta_block_header s' = meta_block_header s2 /\
    untouched (active_metablock s) (scratch_dblock (meta_block_header s2))
      (fs_dev s2) (fs_dev s').

(** An update either has not happened or is committed. *)
Definition update_outcome s s' : Prop := not_committed s s' \/ committed s s'.

Lemma start_in_progress s :
  in_progress (active_metablock s) (scratch_metablock s)
    (scratch_dblock (meta_block_header s)) (fs_dev s)
    (fun x => x = scratch_dblock (meta_block_header s)) s.
Proof. by split_and!. Qed.

Lemma keeps_commit_run a sm sd d0 : keeps (in_progress a sm sd d0 (fun _ => True)) commit_run.
Proof.
  unfold commit_run. apply keeps_bind; [apply keeps_write_header; by auto|]. intros _.
  eapply keeps_bind_to; [apply keeps_to_scratch|]. intros ? ->.
  apply keeps_flash_flush. by left.
Qed.

(** The roles the erasures after the swap keep. *)
Lemma erase_scratch_untouched s :
  let s' := (its_mblock_erase_scratch_blocks cfg s).2 in
  same_ctx s s' /\
  untouched (scratch_metablock s) (scratch_dblock (meta_block_header s)) (fs_dev s) (fs_dev s').
Proof.
  cbv zeta. set (I := fun s' => same_ctx s s' /\
    untouched (scratch_metablock s) (scratch_dblock (meta_block_header s)) (fs_dev s) (fs_dev s')).
  assert (forall b, b = scratch_metablock s \/ b = scratch_dblock (meta_block_header s) ->
    keeps I (flash_erase cfg b)) as He.
  { intros b Hb. apply on_dev_keeps. intros s' Hv [Hc Hu]. split; [exact Hc|].
    eapply untouched_step; [exact Hu|]. intros b' ???.
    apply (local_erase cfg); [done..|]. by destruct Hb; congruence. }
  enough (keeps I (its_mblock_erase_scratch_blocks cfg)) as Hk.
  { apply (Hk s). by split. }
  unfold its_mblock_erase_scratch_blocks.
  eapply keeps_bind_to with (P := fun x => x = scratch_metablock s).
  { apply keeps_to_gets. intros s' [(_&_&Hc) _]. exact Hc. }
  intros ? ->. apply keeps_bind; [by apply He; left|]. intros _.
  case_match; [|apply keeps_ret].
  eapply keeps_bind_to with (P := fun x => x = scratch_dblock (meta_block_header s)).
  { apply keeps_to_gets. intros s' [(Hc&_&_) _]. by rewrite Hc. }
  intros ? ->. by apply He; right.
Qed.

Lemma finalize_outcome s s1 :
  not_committed s s1 ->
  update_outcome s (its_flash_fs_mblock_meta_update_finalize bld cfg s1).2 /\
  (forall s', its_flash_fs_mblock_meta_update_finalize bld cfg s1 = (Val tt, s') -> committed s s').
Proof.
  intros Hn. pose proof (keeps_commit_run _ _ _ _ s1 Hn) as Hc.
  assert (its_flash_fs_mblock_meta_update_finalize bld cfg s1 =
    (_ ← commit_run; _ ← its_mblock_swap_metablocks; its_mblock_erase_scratch_blocks cfg) s1) as ->.
  { unfold its_flash_fs_mblock_meta_update_finalize, commit_run, mbind, M_bind, gets.
    destruct (its_mblock_write_scratch_meta_header bld cfg s1) as [[[]|e|h] s2]; [|done..].
    by destruct (flash_flush cfg (scratch_metablock s2) s2) as [[[]|e|h] s3]. }
  destruct (commit_run s1) as [[[]|e|h] s2] eqn:E; cycle 1.
  { erewrite bind_err by exact E. split; [by left|done]. }
  { erewrite bind_halt by exact E. split; [by left|done]. }
  erewrite bind_val by exact E. simpl in Hc. destruct Hc as (Ha & Hs & _ & _).
  erewrite bind_val by reflexivity.
  set (s3 := set_metablocks (scratch_metablock s2) (active_metablock s2) s2).
  destruct (erase_scratch_untouched s3) as ((H1 & H2 & H3) & Hu).
  assert (committed s (its_mblock_erase_scratch_blocks cfg s3).2) as Hd.
  { exists s1, s2. split_and!; try done; try congruence.
    - by rewrite H2.
    - by rewrite H3.
    - simpl in Hu. by rewrite <- Ha. }
  split; [by right|]. intros s' Hs'. by rewrite Hs' in Hd.
Qed.

(** What the operations read before they start writing. *)
Definition only_read s s1 : Prop :=
  in_progress (active_metablock s) (scratch_metablock s)
    (scratch_dblock (meta_block_header s)) (fs_dev s)
    (fun x => x = scratch_dblock (meta_block_header s)) s1.

Lemma prepare_then_finalize {A} (m : M (its_flash_fs_ctx_t D) A) s s1 :
  leads (only_read s) m (not_committed s) -> only_read s s1 ->
  let run := _ ← m; its_flash_fs_mblock_meta_update_finalize bld cfg in
  update_outcome s (run s1).2 /\ (forall s', run s1 = (Val tt, s') -> committed s s').
Proof.
  intros Hm H1. specialize (Hm s1 H1). cbv zeta. unfold mbind, M_bind at 1 2.
  destruct (m s1) as [[x|e|h] s2]; [|split; [by left|done]..].
  by apply finalize_outcome.
Qed.

Lemma delete_idx_outcome i s s1 : only_read s s1 ->
  update_outcome s (its_flash_fs_delete_idx bld cfg i s1).2 /\
  (forall s', its_flash_fs_delete_idx bld cfg i s1 = (Val tt, s') -> committed s s').
Proof. intros H. by apply prepare_then_finalize; [apply leads_delete_prepare|]. Qed.

(** ** Theorems *)

(** C4: deleting a file is atomic at block granularity on any device that keeps
    its writes local: whatever the outcome (success, a driver error at any call,
    or a loss of power at any point), either nothing but the two scratch blocks
    has changed and the metadata blocks keep their roles, or the new metadata
    header was written and flushed, and since then only blocks outside the new
    image have changed; and success means the update is committed. *)
Theorem file_delete_crash_safe fid s :
  update_outcome s (its_flash_fs_file_delete bld cfg fid s).2 /\
  (forall s', its_flash_fs_file_delete bld cfg fid s = (Val tt, s') -> committed s s').
Proof.
  pose proof (keeps_or_return _ _ PSA_ERROR_DOES_NOT_EXIST
    (keeps_get_file_idx_meta _ _ _ _ _ fid) s (start_in_progress s)) as Hk.
  unfold its_flash_fs_file_delete. unfold mbind, M_bind.
  destruct (or_return _ _ s) as [[[i fm]|e|h] s1]; simpl in Hk.
  - by apply delete_idx_outcome.
  - split; [left; by eapply in_progress_weaken|done].
  - split; [left; by eapply in_progress_weaken|done].
Qed.

End Crash.

(** The theorems at a device that loses power in the middle of a write. *)
Definition crash_state (budget : nat) : its_flash_fs_ctx_t torn_dev :=
  let s0 := mk_fs (mk_torn (replicate 1024 255) (Z.to_nat 10000)) (zero_header sample_bld) 0 0 in
  let s1 := ((_ ← sample_format; sample_write) s0).2 in
  set_dev (mk_torn (torn_mem (fs_dev s1)) budget) s1.

Definition sample_torn : FlashLocal (D := torn_dev) sample_cfg :=
  torn_local sample_cfg (ok_typed _ _ sample_cfg_ok) ltac:(done).

Lemma file_delete_crash_safe_witness :
  (its_flash_fs_file_delete sample_bld sample_cfg sample_fid (crash_state 30)).1
    = Halt PowerLoss /\
  update_outcome sample_bld sample_cfg (crash_state 30)
    (its_flash_fs_file_delete sample_bld sample_cfg sample_fid (crash_state 30)).2.
Proof.
  split; [vm_compute; reflexivity|].
  apply (file_delete_crash_safe sample_bld sample_cfg (FlashLocal0 := sample_torn)).
Defined.

