(* ===== verification/ItsMount.v ===== *)
(** Mounting and committing on a working device: what the validation of a
    metadata header computes, which metadata block a mount selects, what the
    header write of an update leaves on flash, and that the header write is the
    point at which a mount switches from the old image to the new one. *)

From stdpp Require Import base list numbers gmap.
From S2P Require Import Prelude Flash FlashRam ItsTypes ItsMblock ItsFs ItsLayout.

(** The swap count that follows [c]: counts step by one and skip the value that
    erased flash reads as. *)
Definition next_swap_count (ev c : Z) : Z :=
  if u8 (c + 1) =? ev then u8 (u8 (c + 1) + 1) else u8 (c + 1).

Section Mount.
Context {D : Type} `{!FlashOps D} `{!FlashView D}.
Context (bld : its_build) (cfg : its_flash_fs_config_t) `{!FlashSpec cfg}.
Context (Hcfg : cfg_ok bld cfg).
Implicit Types s : its_flash_fs_ctx_t D.

(** The metadata region behind the header. *)
Definition meta_size : Z :=
  its_mblock_file_meta_offset bld cfg (max_num_files cfg) - ITS_BLOCK_META_HEADER_SIZE bld.
Definition meta_region s (b : Z) : bytes :=
  stored cfg s b (ITS_BLOCK_META_HEADER_SIZE bld) meta_size.

(** The header stored in block [b]. *)
Definition stored_header s (b : Z) : its_metadata_block_header_t :=
  header_of (stored cfg s b 0 (ITS_BLOCK_META_HEADER_SIZE bld)).

(** What the validation of a header amounts to. *)
Definition header_valid s (h : its_metadata_block_header_t) (b : Z) : bool :=
  if fs_version h =? ITS_BACKWARD_SUPPORTED_VERSION
  then negb (comp_active_swap_count h =? erase_val cfg)
  else (fs_version h =? ITS_SUPPORTED_VERSION) &&
       negb (active_swap_count h =? erase_val cfg) &&
       (negb (ITS_VALIDATE_METADATA_FROM_FLASH bld) ||
        (xor_bytes 0 (meta_region s b) =? metadata_xor h)).

(** The metadata block a mount of [s] selects, if any. *)
Definition mount_choice s : option Z :=
  let h0 := stored_header s ITS_METADATA_BLOCK0 in
  let h1 := stored_header s ITS_METADATA_BLOCK1 in
  match header_valid s h0 ITS_METADATA_BLOCK0, header_valid s h1 ITS_METADATA_BLOCK1 with
  | true, true => Some (its_mblock_latest_meta_block cfg h0 h1)
  | true, false => Some ITS_METADATA_BLOCK0
  | false, true => Some ITS_METADATA_BLOCK1
  | false, false => None
  end.

Lemma xor_bytes_app acc l l' : xor_bytes acc (l ++ l') = xor_bytes (xor_bytes acc l) l'.
Proof. apply fold_left_app. Qed.

(** A loop that reads consecutive records of size [sz] folds over all of them. *)
Lemma xor_loop b (offset : Z -> Z) sz base lo hi acc s :
  dev_ok cfg (fs_dev s) -> 0 <= sz -> lo <= hi ->
  (forall i, lo <= i < hi -> offset i = base + i * sz /\ valid_range cfg b (offset i) sz = true) ->
  exists s', fold_range lo hi acc (fun i acc =>
      metadata ← flash_read cfg b (offset i) sz; mret (xor_bytes acc metadata)) s
    = (Val (xor_bytes acc (stored cfg s b (base + lo * sz) ((hi - lo) * sz))), s') /\
    same_fs cfg s s'.
Proof.
  intros Hok Hsz. remember (Z.to_nat (hi - lo)) as n eqn:En.
  revert lo acc s En Hok. induction n as [|n IH]; intros lo acc s En Hok Hle Hoff.
  - replace ((hi - lo) * sz) with 0 by nia. exists s.
    rewrite fold_range_nil by lia. split; [done|by apply same_fs_refl].
  - rewrite fold_range_step by lia. destruct (Hoff lo ltac:(lia)) as [Ho Hr].
    destruct (flash_read_stored cfg s b (offset lo) sz Hok Hr) as (s1 & Hrd & Hs1).
    destruct (IH (lo + 1) (xor_bytes acc (stored cfg s b (offset lo) sz)) s1)
      as (s2 & Hrun & Hs2); [lia|by apply Hs1|lia|intros; apply Hoff; lia|].
    exists s2. split; [|by eapply same_fs_trans].
    erewrite bind_val; [rewrite Hrun|by rewrite (bind_val _ _ _ _ _ Hrd)].
    f_equal. f_equal. rewrite (same_fs_stored _ _ _ _ _ _ Hs1), <- xor_bytes_app. f_equal.
    rewrite Ho. replace ((hi - lo) * sz) with (sz + (hi - (lo + 1)) * sz) by lia.
    rewrite stored_split by nia. do 2 f_equal. lia.
Qed.

(** The two loops together cover the metadata region exactly. *)
Lemma calculate_xor_spec b s :
  dev_ok cfg (fs_dev s) -> b = 0 \/ b = 1 ->
  exists s', its_mblock_calculate_metadata_xor bld cfg b s
      = (Val (xor_bytes 0 (meta_region s b)), s') /\ same_fs cfg s s'.
Proof.
  intros Hok Hb. pose proof (num_active_bounds _ _ Hcfg) as Hna.
  pose proof (max_num_files_bounds _ _ Hcfg) as Hmf.
  pose proof (block_size_bounds _ (ok_build _ _ Hcfg)).
  pose proof (file_size_bounds _ (ok_build _ _ Hcfg)).
  assert (valid_block cfg b = true) as Hv by by eapply metablock_valid.
  destruct (xor_loop b (its_mblock_block_meta_offset bld) (ITS_BLOCK_METADATA_SIZE bld)
    (ITS_BLOCK_META_HEADER_SIZE bld) 0 (its_num_active_dblocks cfg) 0 s Hok)
    as (s1 & H1 & Hs1); [lia|lia| |].
  { intros i Hi. split; [by rewrite (block_meta_offset_exact _ _ Hcfg) by lia|].
    by apply (block_meta_range _ _ Hcfg). }
  destruct (xor_loop b (its_mblock_file_meta_offset bld cfg) (ITS_FILE_METADATA_SIZE bld)
    (its_mblock_file_meta_offset bld cfg 0) 0 (max_num_files cfg)
    (xor_bytes 0 (stored cfg s b (ITS_BLOCK_META_HEADER_SIZE bld + 0 * ITS_BLOCK_METADATA_SIZE bld)
      ((its_num_active_dblocks cfg - 0) * ITS_BLOCK_METADATA_SIZE bld))) s1)
    as (s2 & H2 & Hs2); [by apply Hs1|lia|lia| |].
  { intros i Hi. split; [rewrite !(file_meta_offset_exact _ _ Hcfg) by lia; lia|].
    by apply (file_meta_range _ _ Hcfg). }
  exists s2. split; [|by eapply same_fs_trans].
  unfold its_mblock_calculate_metadata_xor.
  replace (fail_if _ _) with (mret tt : M (its_flash_fs_ctx_t D) unit)
    by (by destruct Hb as [-> | ->]).
  rewrite (bind_val _ _ s tt s), (bind_val _ _ _ _ _ H1), H2 by done.
  do 2 f_equal. rewrite (same_fs_stored _ _ _ _ _ _ Hs1), <- xor_bytes_app. f_equal.
  unfold meta_region, meta_size. rewrite !(file_meta_offset_exact _ _ Hcfg) by lia.
  rewrite Z.mul_0_l, !Z.add_0_r, !Z.sub_0_r.
  rewrite <- stored_split by nia. f_equal. lia.
Qed.
(** Validating a header computes [header_valid] and changes nothing. *)
Lemma validate_header_spec h b s :
  dev_ok cfg (fs_dev s) -> b = 0 \/ b = 1 ->
  exists s', same_fs cfg s s' /\
    if header_valid s h b
    then its_mblock_validate_header_meta bld cfg h b s = (Val tt, s')
    else exists e, its_mblock_validate_header_meta bld cfg h b s = (Err e, s').
Proof.
  intros Hok Hb. unfold its_mblock_validate_header_meta, its_mblock_validate_fs_version, header_valid.
  destruct (fs_version h =? ITS_BACKWARD_SUPPORTED_VERSION).
  { exists s. split; [by apply same_fs_refl|]. unfold its_mblock_validate_swap_count.
    rewrite (bind_val _ _ s true s) by done.
    destruct (comp_active_swap_count h =? erase_val cfg); [by eexists|done]. }
  destruct (fs_version h =? ITS_SUPPORTED_VERSION); simpl; cycle 1.
  { exists s. split; [by apply same_fs_refl|by eexists]. }
  rewrite (bind_val _ _ s false s) by done. unfold its_mblock_validate_swap_count.
  destruct (active_swap_count h =? erase_val cfg); simpl.
  { exists s. split; [by apply same_fs_refl|by eexists]. }
  destruct (ITS_VALIDATE_METADATA_FROM_FLASH bld); simpl; cycle 1.
  { exists s. by split; [apply same_fs_refl|]. }
  destruct (calculate_xor_spec b s Hok Hb) as (s' & Hx & Hs'). exists s'. split; [done|].
  rewrite (bind_val _ _ s tt s) by done. unfold its_mblock_validate_metadata_xor.
  destruct (xor_bytes 0 (meta_region s b) =? metadata_xor h) eqn:E.
  - rewrite (bind_val _ _ _ _ _ Hx), E. done.
  - eexists. rewrite (bind_val _ _ _ _ _ Hx), E. done.
Qed.

Lemma read_candidate_spec b s :
  dev_ok cfg (fs_dev s) -> b = 0 \/ b = 1 ->
  exists s', same_fs cfg s s' /\
    read_candidate bld cfg b s =
      (Val (if header_valid s (stored_header s b) b then Some (stored_header s b) else None), s').
Proof.
  intros Hok Hb. assert (valid_block cfg b = true) as Hv by by eapply metablock_valid.
  destruct (flash_read_stored cfg s b 0 _ Hok (header_range _ _ Hcfg b Hv)) as (s1 & Hr & Hs1).
  destruct (validate_header_spec (stored_header s b) b s1) as (s2 & Hs2 & Hval); [by apply Hs1|done|].
  exists s2. split; [by eapply same_fs_trans|]. unfold read_candidate.
  rewrite (bind_val _ _ _ _ _ (attempt_val _ _ _ _ Hr)).
  change (header_of (stored cfg s b 0 _)) with (stored_header s b).
  assert (header_valid s1 (stored_header s b) b = header_valid s (stored_header s b) b) as Heq.
  { unfold header_valid, meta_region. by rewrite (same_fs_stored _ _ _ _ _ _ Hs1). }
  rewrite Heq in Hval. destruct (header_valid s (stored_header s b) b).
  - by rewrite (bind_val _ _ _ _ _ (attempt_val _ _ _ _ Hval)).
  - destruct Hval as [e He]. by rewrite (bind_val _ _ _ _ _ (attempt_err _ _ _ _ He)).
Qed.

Lemma same_fs_header_valid s s' h b : same_fs cfg s s' -> header_valid s' h b = header_valid s h b.
Proof. intros Hs. unfold header_valid, meta_region. by rewrite (same_fs_stored _ _ _ _ _ _ Hs). Qed.

Lemma same_fs_stored_header s s' b : same_fs cfg s s' -> stored_header s' b = stored_header s b.
Proof. intros Hs. unfold stored_header. by rewrite (same_fs_stored _ _ _ _ _ _ Hs). Qed.

(** Selecting the active metadata block computes [mount_choice]. *)
Lemma get_active_metablock_spec s :
  dev_ok cfg (fs_dev s) ->
  exists s', same_fs cfg s s' /\
    its_init_get_active_metablock bld cfg s =
      match mount_choice s with
      | Some b => (Val tt, set_metablocks b (ITS_OTHER_META_BLOCK b) s')
      | None => (Err PSA_ERROR_GENERIC_ERROR, s')
      end.
Proof.
  intros Hok. unfold its_init_get_active_metablock, mount_choice.
  destruct (read_candidate_spec ITS_METADATA_BLOCK0 s Hok) as (s1 & Hs1 & H0); [by left|].
  destruct (read_candidate_spec ITS_METADATA_BLOCK1 s1) as (s2 & Hs2 & H1); [by apply Hs1|by right|].
  rewrite (same_fs_stored_header _ _ _ Hs1), (same_fs_header_valid _ _ _ _ Hs1) in H1.
  exists s2. split; [by eapply same_fs_trans|].
  rewrite (bind_val _ _ _ _ _ H0), (bind_val _ _ _ _ _ H1).
  by destruct (header_valid s (stored_header s ITS_METADATA_BLOCK0) _),
    (header_valid s (stored_header s ITS_METADATA_BLOCK1) _).
Qed.

(** ** The header write of an update *)

Lemma bump_run s :
  bump_swap_count s = (Val tt, set_header
    (set_swap_count (u8 (active_swap_count (meta_block_header s) + 1)) (meta_block_header s)) s).
Proof. done. Qed.

(** The header an update writes for the block [sc]. *)
Definition committed_header s (sc : Z) : its_metadata_block_header_t :=
  let h := meta_block_header s in
  mk_header (scratch_dblock h) (fs_version h)
    (if ITS_VALIDATE_METADATA_FROM_FLASH bld then xor_bytes 0 (meta_region s sc) else 0)
    (next_swap_count (erase_val cfg) (active_swap_count h)) (h_roundup h).

Lemma xor_bytes_u8 l acc : is_u8 acc -> is_bytes l -> is_u8 (xor_bytes acc l).
Proof.
  unfold xor_bytes. revert acc. induction l as [|x l IH]; intros acc Ha Hl; [done|].
  apply Forall_cons in Hl as [Hx Hl]. simpl. apply IH; [|done].
  unfold is_u8 in *. split; [apply Z.lxor_nonneg; lia|].
  destruct (Z.eq_dec (Z.lxor acc x) 0) as [->|]; [lia|].
  apply Z.log2_lt_pow2; [assert (0 <= Z.lxor acc x) by (apply Z.lxor_nonneg; lia); lia|].
  pose proof (Z.log2_lxor acc x ltac:(lia) ltac:(lia)).
  assert (Z.log2 acc < 8) by (destruct (Z.eq_dec acc 0) as [->|]; [done|apply Z.log2_lt_pow2; lia]).
  assert (Z.log2 x < 8) by (destruct (Z.eq_dec x 0) as [->|]; [done|apply Z.log2_lt_pow2; lia]).
  lia.
Qed.

Lemma meta_region_range b : valid_block cfg b = true ->
  valid_range cfg b (ITS_BLOCK_META_HEADER_SIZE bld) meta_size = true.
Proof.
  rewrite valid_block_spec, valid_range_spec. intros Hb. unfold meta_size.
  pose proof (metadata_fits _ _ Hcfg). pose proof (header_size_bounds _ (ok_build _ _ Hcfg)).
  pose proof (block_size_bounds _ (ok_build _ _ Hcfg)).
  pose proof (file_size_bounds _ (ok_build _ _ Hcfg)). pose proof (num_active_bounds _ _ Hcfg).
  pose proof (max_num_files_bounds _ _ Hcfg).
  assert (ITS_BLOCK_META_HEADER_SIZE bld <= its_mblock_file_meta_offset bld cfg (max_num_files cfg)).
  { rewrite (file_meta_offset_exact _ _ Hcfg) by lia. nia. }
  lia.
Qed.

Lemma next_swap_count_u8 ev c : is_u8 (next_swap_count ev c).
Proof. unfold next_swap_count. case_match; apply u8_range. Qed.

Lemma committed_header_wf s sc : dev_ok cfg (fs_dev s) -> sc = 0 \/ sc = 1 ->
  header_wf bld (meta_block_header s) -> header_wf bld (committed_header s sc).
Proof.
  intros Hok Hsc (?&?&_&_&?&?). unfold committed_header, header_wf; simpl.
  split; [done|]. split; [done|]. split; [|split; [apply next_swap_count_u8|done]].
  case_match; [|by compute]. apply xor_bytes_u8; [by compute|].
  apply (stored_bytes cfg); [done|]. apply meta_region_range. by eapply metablock_valid.
Qed.
(** On a working device the header write stores [committed_header] in the scratch
    metablock and changes nothing else. *)
Lemma write_scratch_meta_header_spec s :
  dev_ok cfg (fs_dev s) -> scratch_metablock s = 0 \/ scratch_metablock s = 1 ->
  header_wf bld (meta_block_header s) ->
  let sc := scratch_metablock s in
  let h := committed_header s sc in
  exists s', its_mblock_write_scratch_meta_header bld cfg s = (Val tt, s') /\
    meta_block_header s' = h /\ active_metablock s' = active_metablock s /\
    scratch_metablock s' = sc /\ dev_ok cfg (fs_dev s') /\
    stored cfg s' sc 0 (ITS_BLOCK_META_HEADER_SIZE bld) = header_bytes h /\
    (forall b o, valid_range cfg b o 1 = true ->
       b <> sc \/ ITS_BLOCK_META_HEADER_SIZE bld <= o -> view cfg s' b o = view cfg s b o).
Proof.
  intros Hok Hsc Hwf sc h. unfold its_mblock_write_scratch_meta_header.
  rewrite (bind_val _ _ _ _ _ (bump_run s)).
  set (h1 := set_swap_count _ (meta_block_header s)). rewrite bind_gets.
  change (active_swap_count _) with (u8 (active_swap_count (meta_block_header s) + 1)).
  set (h2 := set_swap_count (next_swap_count (erase_val cfg)
    (active_swap_count (meta_block_header s))) (meta_block_header s)).
  assert ((if negb (its_mblock_validate_swap_count cfg
      (u8 (active_swap_count (meta_block_header s) + 1)) =? PSA_SUCCESS)
    then bump_swap_count else mret tt) (set_header h1 s) = (Val tt, set_header h2 s)) as Hb.
  { unfold its_mblock_validate_swap_count. subst h1 h2. unfold next_swap_count.
    by destruct (u8 (active_swap_count (meta_block_header s) + 1) =? erase_val cfg). }
  rewrite (bind_val _ _ _ _ _ Hb), bind_gets.
  assert (exists s3, (if ITS_VALIDATE_METADATA_FROM_FLASH bld
    then x ← its_mblock_calculate_metadata_xor bld cfg (scratch_metablock (set_header h2 s));
         modifyS (fun s => set_header (set_metadata_xor x (meta_block_header s)) s)
    else modifyS (fun s => set_header (set_metadata_xor 0 (meta_block_header s)) s))
      (set_header h2 s) = (Val tt, set_header h s3) /\ same_fs cfg s s3) as (s3 & Hx & Hs3).
  { subst h. unfold committed_header. destruct (ITS_VALIDATE_METADATA_FROM_FLASH bld).
    - destruct (calculate_xor_spec sc (set_header h2 s)) as (s3 & Hx & Hs3); [done|done|].
      exists (set_header (meta_block_header s) s3). rewrite (bind_val _ _ _ _ _ Hx).
      destruct Hs3 as ((Hh & ? & ?) & ? & ?). unfold modifyS. rewrite Hh. done.
    - exists s. split; [done|by apply same_fs_refl]. }
  rewrite (bind_val _ _ _ _ _ Hx), bind_gets.
  assert (header_wf bld h) as Hwf' by by apply committed_header_wf.
  pose proof (header_bytes_length bld h Hwf') as Hlen.
  assert (valid_range cfg sc 0 (ITS_BLOCK_META_HEADER_SIZE bld) = true) as Hr.
  { apply (header_range _ _ Hcfg). by eapply metablock_valid. }
  destruct (flash_write_spec cfg (set_header h s3) sc (header_bytes h) 0)
    as (s4 & Hw & (Hc1 & Hc2 & Hc3) & Hok4 & Hv4);
    [by apply Hs3|by eapply header_bytes_ok|by rewrite Hlen|].
  destruct Hs3 as ((Hd1 & Hd2 & Hd3) & _ & Hv3).
  exists s4. split; [exact Hw|]. split; [exact Hc1|]. split; [by rewrite Hc2; simpl|].
  split; [by rewrite Hc3; simpl|]. split; [done|]. split.
  - rewrite <- Hlen. apply holds_stored. intros i x Hi. rewrite Hv4.
    + apply lookup_lt_Some in Hi as Hlt. rewrite decide_True by lia.
      by replace (Z.to_nat _) with i by lia.
    + apply lookup_lt_Some in Hi as Hlt. eapply valid_range_sub; [exact Hr|lia].
  - intros b o Hbo Hor. rewrite Hv4 by done. rewrite decide_False by lia. apply Hv3.
Qed.
(** ** The image between updates *)

(** What the context must satisfy when an update is committed. *)
Definition ctx_ok s : Prop :=
  dev_ok cfg (fs_dev s) /\
  (active_metablock s = 0 \/ active_metablock s = 1) /\
  scratch_metablock s = ITS_OTHER_META_BLOCK (active_metablock s) /\
  header_wf bld (meta_block_header s) /\
  fs_version (meta_block_header s) = ITS_SUPPORTED_VERSION /\
  (num_blocks cfg = 2 \/ 2 <= scratch_dblock (meta_block_header s) < num_blocks cfg).

(** The filesystem is mounted and idle: the context caches the header of the
    active metadata block, which is valid, and the other block has no valid
    header. *)
Definition mounted s : Prop :=
  ctx_ok s /\
  stored_header s (active_metablock s) = meta_block_header s /\
  header_valid s (meta_block_header s) (active_metablock s) = true /\
  header_valid s (stored_header s (scratch_metablock s)) (scratch_metablock s) = false.

Lemma ctx_ok_scratch s : ctx_ok s -> scratch_metablock s = 0 \/ scratch_metablock s = 1.
Proof. intros (_&[Ha|Ha]&->&_); rewrite Ha; auto. Qed.

Lemma ctx_ok_roles s : ctx_ok s -> scratch_metablock s <> active_metablock s /\
  ITS_OTHER_META_BLOCK (scratch_metablock s) = active_metablock s.
Proof. intros (_&[Ha|Ha]&->&_); by rewrite Ha. Qed.

(** An erased block has no valid header. *)
Lemma erased_header_invalid s b : valid_block cfg b = true ->
  (forall o, valid_range cfg b o 1 = true -> view cfg s b o = Some (erase_val cfg)) ->
  header_valid s (stored_header s b) b = false.
Proof.
  intros Hb Hv. pose proof (header_range _ _ Hcfg b Hb) as Hr.
  pose proof (header_size_bounds _ (ok_build _ _ Hcfg)) as Hh.
  assert (forall i, (i < 8)%nat ->
    stored cfg s b 0 (ITS_BLOCK_META_HEADER_SIZE bld) !!! i = erase_val cfg) as Hi.
  { intros i Hi. apply list_lookup_total_correct. unfold stored.
    rewrite list_lookup_fmap, lookup_seqZ_lt by lia. simpl.
    rewrite Hv; [done|]. apply (valid_range_sub _ _ _ _ _ Hr). lia. }
  unfold header_valid, stored_header, header_of, comp_active_swap_count; simpl.
  rewrite !Hi by lia. rewrite Z.eqb_refl, andb_false_r. by case_match.
Qed.

Lemma erase_scratch_blocks_spec s : ctx_ok s ->
  exists s', its_mblock_erase_scratch_blocks cfg s = (Val tt, s') /\ same_ctx s s' /\
    dev_ok cfg (fs_dev s') /\
    forall b o, valid_range cfg b o 1 = true -> view cfg s' b o =
      if decide (b = scratch_metablock s \/
                 (2 < num_blocks cfg /\ b = scratch_dblock (meta_block_header s)))
      then Some (erase_val cfg) else view cfg s b o.
Proof.
  intros Hc. pose proof (ctx_ok_scratch _ Hc) as Hsc.
  destruct Hc as (Hok & _ & _ & _ & _ & Hsd).
  unfold its_mblock_erase_scratch_blocks. rewrite bind_gets.
  destruct (flash_erase_spec cfg s (scratch_metablock s) Hok) as (s1 & He & Hs1 & Hok1 & Hv1);
    [by eapply metablock_valid|].
  rewrite (bind_val _ _ _ _ _ He). pose proof (num_blocks_cases _ _ Hcfg).
  destruct (Z.gtb_spec (num_blocks cfg) 2); cycle 1.
  { exists s1. split_and!; try done. intros b o Hr. rewrite Hv1 by done.
    destruct (decide (b = scratch_metablock s)).
    - by rewrite decide_True by auto.
    - rewrite decide_False; [done|]. intros [?|[? _]]; [done|lia]. }
  unfold its_flash_fs_mblock_cur_data_scratch_id. simpl. rewrite bind_gets.
  destruct Hs1 as (Hh & Ha & Hs). rewrite Hh.
  destruct (flash_erase_spec cfg s1 (scratch_dblock (meta_block_header s)) Hok1)
    as (s2 & He2 & (?&?&?) & Hok2 & Hv2); [apply valid_block_spec; lia|].
  exists s2. unfold same_ctx. split_and!; try done; try congruence. intros b o Hr.
  rewrite Hv2, Hv1 by done.
  destruct (decide (b = scratch_dblock (meta_block_header s))) as [->|Hne].
  - by rewrite decide_True by auto.
  - destruct (decide (b = scratch_metablock s)).
    + by rewrite decide_True by auto.
    + rewrite decide_False; [done|]. intros [?|[_ ?]]; done.
Qed.

Lemma other_region s s' b : valid_block cfg b = true ->
  (forall o, valid_range cfg b o 1 = true -> view cfg s' b o = view cfg s b o) ->
  stored_header s' b = stored_header s b /\ forall h, header_valid s' h b = header_valid s h b.
Proof.
  intros Hb Hv. unfold stored_header, header_valid, meta_region.
  rewrite (stored_ext cfg s s' b b 0), (stored_ext cfg s s' b b (ITS_BLOCK_META_HEADER_SIZE bld)).
  - done.
  - intros o Ho. apply Hv. eapply valid_range_sub; [by apply meta_region_range|done].
  - intros o Ho. apply Hv. eapply valid_range_sub; [by apply header_range|done].
Qed.

Lemma same_region s s' b : valid_block cfg b = true ->
  (forall o, valid_range cfg b o 1 = true -> ITS_BLOCK_META_HEADER_SIZE bld <= o ->
     view cfg s' b o = view cfg s b o) ->
  meta_region s' b = meta_region s b.
Proof.
  intros Hb Hv. apply stored_ext. intros o Ho. apply Hv; [|lia].
  eapply valid_range_sub; [by apply meta_region_range|done].
Qed.

Lemma next_swap_count_ne_erase ev c : is_u8 ev -> next_swap_count ev c <> ev.
Proof.
  unfold next_swap_count, u8, is_u8. intros Hev.
  destruct (Z.eqb_spec ((c + 1) mod 2 ^ 8) ev); [lia|done].
Qed.

(** The header written by an update is valid where it was written. *)
Lemma committed_header_valid s s' sc :
  fs_version (meta_block_header s) = ITS_SUPPORTED_VERSION ->
  meta_region s' sc = meta_region s sc ->
  header_valid s' (committed_header s sc) sc = true.
Proof.
  intros Hver Hreg. unfold header_valid, committed_header; simpl. rewrite Hver, Hreg. simpl.
  pose proof (next_swap_count_ne_erase (erase_val cfg)
    (active_swap_count (meta_block_header s))) as Hne.
  destruct Hcfg as [_ (_&_&_&_&_&_&_&Hev) _].
  rewrite (proj2 (Z.eqb_neq _ _)) by (by apply Hne). simpl.
  destruct (ITS_VALIDATE_METADATA_FROM_FLASH bld); simpl; [by rewrite Z.eqb_refl|done].
Qed.
End Mount.

(** ** Which of two valid headers is newer *)

(** The comparison recognises a successor count in both positions, also across
    the roll-over and the skipped value. *)
Lemma latest_newer cfg c h0 h1 :
  is_u8 (erase_val cfg) -> is_u8 c -> erase_val cfg <> 1 -> c <> erase_val cfg ->
  (active_swap_count h0 = c -> active_swap_count h1 = next_swap_count (erase_val cfg) c ->
   its_mblock_latest_meta_block cfg h0 h1 = ITS_METADATA_BLOCK1) /\
  (active_swap_count h0 = next_swap_count (erase_val cfg) c -> active_swap_count h1 = c ->
   its_mblock_latest_meta_block cfg h0 h1 = ITS_METADATA_BLOCK0).
Proof.
  unfold its_mblock_latest_meta_block, next_swap_count, is_u8, u8.
  generalize (erase_val cfg), (active_swap_count h0), (active_swap_count h1).
  intros ev c0 c1 Hev Hc Hne Hce.
  split; intros -> ->;
    destruct (Z.eqb_spec ev 0), (Z.eqb_spec ((c + 1) mod 2 ^ 8) ev);
    repeat match goal with
    | |- context [?x =? ?y] => destruct (Z.eqb_spec x y)
    | |- context [?x >? ?y] => destruct (Z.gtb_spec x y)
    end; simpl; try done; exfalso; lia.
Qed.

Section Commit.
Context {D : Type} `{!FlashOps D} `{!FlashView D}.
Context (bld : its_build) (cfg : its_flash_fs_config_t) `{!FlashSpec cfg}.
Context (Hcfg : cfg_ok bld cfg).
Implicit Types s : its_flash_fs_ctx_t D.

Lemma mount_choice_cases s a sc :
  a = 0 \/ a = 1 -> sc = ITS_OTHER_META_BLOCK a ->
  header_valid bld cfg s (stored_header bld cfg s a) a = true ->
  header_valid bld cfg s (stored_header bld cfg s sc) sc = false ->
  mount_choice bld cfg s = Some a.
Proof.
  unfold mount_choice. intros [-> | ->] -> H1 H2.
  - change (ITS_OTHER_META_BLOCK 0) with ITS_METADATA_BLOCK1 in H2.
    change 0 with ITS_METADATA_BLOCK0 in H1. by rewrite H1, H2.
  - change (ITS_OTHER_META_BLOCK 1) with ITS_METADATA_BLOCK0 in H2.
    change 1 with ITS_METADATA_BLOCK1 in H1. by rewrite H1, H2.
Qed.

Lemma mount_choice_newer s a sc c :
  erase_val cfg <> 1 -> a = 0 \/ a = 1 -> sc = ITS_OTHER_META_BLOCK a ->
  is_u8 c -> c <> erase_val cfg ->
  header_valid bld cfg s (stored_header bld cfg s a) a = true ->
  header_valid bld cfg s (stored_header bld cfg s sc) sc = true ->
  active_swap_count (stored_header bld cfg s a) = c ->
  active_swap_count (stored_header bld cfg s sc) = next_swap_count (erase_val cfg) c ->
  mount_choice bld cfg s = Some sc.
Proof.
  unfold mount_choice. intros Hev Ha -> Hc Hce H1 H2 Hca Hcs.
  assert (is_u8 (erase_val cfg)) as Hu by by destruct Hcfg as [_ (_&_&_&_&_&_&_&?) _].
  destruct (latest_newer cfg c (stored_header bld cfg s 0)
    (stored_header bld cfg s 1)) as [L1 L0]; [done..|].
  destruct Ha as [-> | ->].
  - change (ITS_OTHER_META_BLOCK 0) with ITS_METADATA_BLOCK1 in *.
    change 0 with ITS_METADATA_BLOCK0 in *. change 1 with ITS_METADATA_BLOCK1 in *.
    rewrite H1, H2. by rewrite L1.
  - change (ITS_OTHER_META_BLOCK 1) with ITS_METADATA_BLOCK0 in *.
    change 0 with ITS_METADATA_BLOCK0 in *. change 1 with ITS_METADATA_BLOCK1 in *.
    rewrite H1, H2. by rewrite L0.
Qed.
(** Committing works, and leaves a mounted filesystem whose active metadata block
    is the former scratch block. *)
Lemma finalize_spec s : ctx_ok bld cfg s ->
  exists s', its_flash_fs_mblock_meta_update_finalize bld cfg s = (Val tt, s') /\
    mounted bld cfg s' /\ active_metablock s' = scratch_metablock s /\
    meta_block_header s' = committed_header bld cfg s (scratch_metablock s) /\
    forall b o, valid_range cfg b o 1 = true -> b <> active_metablock s ->
      (2 < num_blocks cfg -> b <> scratch_dblock (meta_block_header s)) ->
      (b <> scratch_metablock s \/ ITS_BLOCK_META_HEADER_SIZE bld <= o) ->
      view cfg s' b o = view cfg s b o.
Proof.
  intros Hc. pose proof (ctx_ok_scratch bld cfg s Hc) as Hsc.
  destruct (ctx_ok_roles bld cfg s Hc) as [Hne Hother].
  destruct Hc as (Hok & Ha & Hs & Hwf & Hver & Hsd).
  pose proof (committed_header_wf bld cfg Hcfg s _ Hok Hsc Hwf) as Hwf'.
  destruct (write_scratch_meta_header_spec bld cfg Hcfg s Hok Hsc Hwf)
    as (s1 & Hw & H1h & H1a & H1s & Hok1 & H1st & H1v).
  destruct (flash_flush_spec cfg s1 (scratch_metablock s) Hok1)
    as (s2 & Hf & (H2h & H2a & H2s) & Hok2 & H2v); [by eapply metablock_valid|].
  set (s3 := set_metablocks (scratch_metablock s2) (active_metablock s2) s2).
  assert (active_metablock s3 = scratch_metablock s) as H3a by (simpl; congruence).
  assert (scratch_metablock s3 = active_metablock s) as H3s by (simpl; congruence).
  assert (meta_block_header s3 = committed_header bld cfg s (scratch_metablock s)) as H3h
    by (simpl; congruence).
  assert (ctx_ok bld cfg s3) as Hc3.
  { unfold ctx_ok. rewrite H3a, H3s, H3h. by split_and!. }
  destruct (erase_scratch_blocks_spec bld cfg Hcfg s3 Hc3) as (s4 & He & (H4h & H4a & H4s) & Hok4 & H4v).
  rewrite H3s, H3h in H4v. simpl in H4v. change (view cfg s3) with (view cfg s2) in H4v.
  assert (forall b o, valid_range cfg b o 1 = true -> b <> active_metablock s ->
    (2 < num_blocks cfg -> b <> scratch_dblock (meta_block_header s)) ->
    view cfg s4 b o = view cfg s1 b o) as Hv.
  { intros b o Hr Hb Hbd. rewrite H4v, decide_False, H2v; [done| |done].
    intros [?|[? ?]]; [done|by apply Hbd]. }
  assert (forall o, valid_range cfg (scratch_metablock s) o 1 = true ->
    view cfg s4 (scratch_metablock s) o = view cfg s1 (scratch_metablock s) o) as Hvs.
  { intros o Hr. apply Hv; [done|done|]. intros ? Heq. destruct Hsd as [?|Hsd]; [lia|].
    rewrite <- Heq in Hsd. destruct Hsc as [E | E]; rewrite E in Hsd; lia. }
  exists s4. split.
  { unfold its_flash_fs_mblock_meta_update_finalize.
    rewrite (bind_val _ _ _ _ _ Hw), bind_gets, H1s, (bind_val _ _ _ _ _ Hf). exact He. }
  assert (valid_block cfg (scratch_metablock s) = true) as Hvb by by eapply metablock_valid.
  destruct (other_region bld cfg Hcfg s1 s4 (scratch_metablock s) Hvb Hvs) as [Hsh Hhv].
  rewrite H3h in H4h. rewrite H3a in H4a. rewrite H3s in H4s.
  split; [|split; [done|split; [done|]]].
  - unfold mounted. rewrite H4a, H4s, H4h, Hsh, Hhv. split_and!.
    + unfold ctx_ok. rewrite H4a, H4s, H4h. by split_and!.
    + unfold stored_header. rewrite H1st. by eapply header_of_bytes.
    + apply committed_header_valid; [done|done|]. apply same_region; [done|done|].
      intros o Hr Ho. apply H1v; [done|by right].
    + apply erased_header_invalid; [done|by eapply metablock_valid|].
      intros o Hr. rewrite H4v, decide_True by auto. done.
  - intros b o Hr Hb Hbd Hbs. rewrite Hv by done. by apply H1v.
Qed.

(** Two states whose flash reads the same. *)
Definition same_flash s s' : Prop :=
  dev_ok cfg (fs_dev s') /\ forall b o, view cfg s' b o = view cfg s b o.

Lemma same_flash_header s s' b : same_flash s s' ->
  stored_header bld cfg s' b = stored_header bld cfg s b /\
  forall h, header_valid bld cfg s' h b = header_valid bld cfg s h b.
Proof.
  intros [_ Hv]. unfold stored_header, header_valid, meta_region.
  assert (forall off n, stored cfg s' b off n = stored cfg s b off n) as E
    by (intros; by apply stored_ext).
  by rewrite !E.
Qed.

(** A mount selects the active block of an idle filesystem. *)
Lemma mount_selects s s0 : mounted bld cfg s -> same_flash s s0 ->
  exists s', its_init_get_active_metablock bld cfg s0 = (Val tt, s') /\ same_flash s s' /\
    active_metablock s' = active_metablock s /\ scratch_metablock s' = scratch_metablock s.
Proof.
  intros ((_ & Ha & Hs & _) & Hst & Hval & Hinv) Hsf.
  destruct (get_active_metablock_spec bld cfg Hcfg s0) as (s1 & (_ & Hok1 & H1v) & Hg); [apply Hsf|].
  destruct (same_flash_header s s0 (active_metablock s) Hsf) as [Hh Hv].
  destruct (same_flash_header s s0 (scratch_metablock s) Hsf) as [Hh' Hv'].
  rewrite (mount_choice_cases s0 (active_metablock s) (scratch_metablock s)) in Hg;
    [|done|done|by rewrite Hh, Hv, Hst|by rewrite Hh', Hv'].
  rewrite <- Hs in Hg. eexists. split; [exact Hg|]. split; [|done]. split; [done|].
  intros b o. change (view cfg s1 b o = view cfg s b o). by rewrite H1v, (proj2 Hsf).
Qed.

(** Reading the header back gives the context's header. *)
Lemma read_header_mounted s s1 : mounted bld cfg s -> same_flash s s1 ->
  active_metablock s1 = active_metablock s -> scratch_metablock s1 = scratch_metablock s ->
  exists s', its_mblock_read_meta_header bld cfg s1 = (Val tt, s') /\ same_flash s s' /\
    same_ctx s s'.
Proof.
  intros ((_ & Ha & _) & Hst & Hval & _) [Hok1 H1v] H1a H1s.
  assert (valid_block cfg (active_metablock s) = true) as Hva by by eapply metablock_valid.
  destruct (flash_read_stored cfg s1 (active_metablock s) 0 _ Hok1 (header_range _ _ Hcfg _ Hva))
    as (s2 & Hr & (_ & H2a & H2s) & Hok2 & H2v).
  unfold its_mblock_read_meta_header. rewrite bind_gets, H1a, (bind_val _ _ _ _ _ Hr).
  change (header_of _) with (stored_header bld cfg s1 (active_metablock s)).
  rewrite (proj1 (same_flash_header s s1 _ (conj Hok1 H1v))), Hst, bind_modifyS.
  set (s3 := set_header (meta_block_header s) s2).
  assert (same_flash s s3) as Hs3.
  { split; [done|]. intros b o. change (view cfg s2 b o = view cfg s b o). by rewrite H2v, H1v. }
  destruct (validate_header_spec bld cfg Hcfg (meta_block_header s) (active_metablock s) s3)
    as (s4 & ((H4h & H4a & H4s) & Hok4 & H4v) & Hvv); [done|done|].
  rewrite (proj2 (same_flash_header s s3 _ Hs3)), Hval in Hvv.
  exists s4. split; [done|]. split.
  - split; [done|]. intros b o. by rewrite H4v, (proj2 Hs3).
  - unfold same_ctx. rewrite H4h, H4a, H4s. simpl. by rewrite H2a, H2s.
Qed.

(** Mounting an idle filesystem rebuilds the context it had. *)
Lemma mblock_init_spec s0 s : mounted bld cfg s -> fs_dev s0 = fs_dev s ->
  exists s', its_flash_fs_mblock_init bld cfg s0 = (Val tt, s') /\
    mounted bld cfg s' /\ same_ctx s s' /\
    forall b o, valid_range cfg b o 1 = true -> b <> scratch_metablock s ->
      (2 < num_blocks cfg -> b <> scratch_dblock (meta_block_header s)) ->
      view cfg s' b o = view cfg s b o.
Proof.
  intros Hm Hdev. pose proof Hm as (Hc & Hst & Hval & _).
  destruct (ctx_ok_roles bld cfg s Hc) as [Hne _].
  pose proof (ctx_ok_scratch bld cfg s Hc) as Hsc.
  pose proof Hc as (Hok & Ha & Hs & Hwf & Hver & Hsd).
  destruct (flash_init_spec cfg s0) as (s1 & Hi & _ & Hok1 & H1v); [by rewrite Hdev|].
  assert (same_flash s s1) as Hs1.
  { split; [done|]. intros. rewrite H1v. unfold view. by rewrite Hdev. }
  destruct (mount_selects s s1 Hm Hs1) as (s2 & Hg & Hs2 & H2a & H2s).
  destruct (read_header_mounted s s2 Hm Hs2 H2a H2s) as (s3 & Hr & [Hok3 H3v] & H3h & H3a & H3s).
  assert (ctx_ok bld cfg s3) as Hc3 by (unfold ctx_ok; rewrite H3h, H3a, H3s; by split_and!).
  destruct (erase_scratch_blocks_spec bld cfg Hcfg s3 Hc3) as (s4 & He & (H4h & H4a & H4s) & Hok4 & H4v).
  rewrite H3s, H3h in H4v. rewrite H3h in H4h. rewrite H3a in H4a. rewrite H3s in H4s.
  assert (forall b o, valid_range cfg b o 1 = true -> b <> scratch_metablock s ->
    (2 < num_blocks cfg -> b <> scratch_dblock (meta_block_header s)) ->
    view cfg s4 b o = view cfg s b o) as Hv4.
  { intros b o Hb Hbs Hbd. rewrite H4v, decide_False; [apply H3v| |done].
    intros [?|[? ?]]; [done|by apply Hbd]. }
  exists s4. split; [|split; [|split; [done|done]]].
  - unfold its_flash_fs_mblock_init.
    rewrite (bind_val _ _ _ _ _ Hi), (bind_val _ _ _ _ _ (or_return_val _ _ _ _ _ Hg)),
      (bind_val _ _ _ _ _ (or_return_val _ _ _ _ _ Hr)),
      (bind_val _ _ _ _ _ (or_return_val _ _ _ _ _ He)).
    unfold its_mblock_upgrade_meta_header. rewrite bind_gets, H4h.
    unfold its_mblock_validate_fs_version. by rewrite Hver.
  - assert (valid_block cfg (active_metablock s) = true) as Hva by by eapply metablock_valid.
    destruct (other_region bld cfg Hcfg s s4 (active_metablock s) Hva) as [Hsh Hhv].
    { intros o Ho. apply Hv4; [done|done|]. intros Hlt Heq. destruct Hsd as [?|Hsd]; [lia|].
      rewrite <- Heq in Hsd. destruct Ha as [E|E]; rewrite E in Hsd; lia. }
    unfold mounted, ctx_ok. rewrite H4h, H4a, H4s, Hsh, Hhv. split_and!; try done.
    apply erased_header_invalid; [done|by eapply metablock_valid|].
    intros o Ho. by rewrite H4v, decide_True by auto.
Qed.
(** ** Theorems *)

(** The write of the metadata header is the commit point.  While the scratch
    block has no valid header a mount selects the active block, that is the image
    from before the update; once the header write has returned, a mount of the
    same flash selects the scratch block, although the old header is still there
    and valid. *)
Theorem header_write_commits s :
  erase_val cfg <> 1 -> ctx_ok bld cfg s ->
  let a := active_metablock s in
  let sc := scratch_metablock s in
  header_valid bld cfg s (stored_header bld cfg s a) a = true ->
  fs_version (stored_header bld cfg s a) = ITS_SUPPORTED_VERSION ->
  active_swap_count (stored_header bld cfg s a) = active_swap_count (meta_block_header s) ->
  header_valid bld cfg s (stored_header bld cfg s sc) sc = false ->
  (exists s1, its_init_get_active_metablock bld cfg s = (Val tt, s1) /\ active_metablock s1 = a) /\
  exists s2 s3, its_mblock_write_scratch_meta_header bld cfg s = (Val tt, s2) /\
    its_init_get_active_metablock bld cfg s2 = (Val tt, s3) /\ active_metablock s3 = sc.
Proof.
  intros Hev Hc a sc Hva Hver Hcnt Hvs. pose proof (ctx_ok_scratch bld cfg s Hc) as Hsc.
  destruct (ctx_ok_roles bld cfg s Hc) as [Hne _].
  destruct Hc as (Hok & Ha & Hs & Hwf & Hver' & Hsd). split.
  - destruct (get_active_metablock_spec bld cfg Hcfg s Hok) as (s1 & _ & Hg).
    rewrite (mount_choice_cases s a sc) in Hg by done. by eexists.
  - destruct (write_scratch_meta_header_spec bld cfg Hcfg s Hok Hsc Hwf)
      as (s2 & Hw & H2h & H2a & H2s & Hok2 & H2st & H2v).
    destruct (get_active_metablock_spec bld cfg Hcfg s2 Hok2) as (s3 & _ & Hg).
    destruct (other_region bld cfg Hcfg s s2 a) as [Hsh Hhv];
      [by eapply metablock_valid|intros; apply H2v; [done|by left]|].
    assert (stored_header bld cfg s2 sc = committed_header bld cfg s sc) as Hsh2.
    { unfold stored_header, sc. rewrite H2st. by eapply header_of_bytes, committed_header_wf. }
    rewrite (mount_choice_newer s2 a sc (active_swap_count (stored_header bld cfg s a))) in Hg;
      [by eexists _, _|done..|by rewrite Hcnt; apply Hwf| |by rewrite Hsh, Hhv| |by rewrite Hsh|].
    + unfold header_valid in Hva. rewrite Hver in Hva. simpl in Hva.
      apply andb_true_iff in Hva as [Hva _]. by apply negb_true_iff, Z.eqb_neq in Hva.
    + rewrite Hsh2. apply committed_header_valid; [done|done|].
      apply same_region; [done|by eapply metablock_valid|]. intros; apply H2v; [done|by right].
    + rewrite Hsh2, Hcnt. done.
Qed.

(** C36: on a working device committing an update succeeds, and mounting the
    flash afterwards from any context succeeds and rebuilds the context the
    update ended with: its new metadata block is active, its header carries the
    next swap count, and every byte of the new image outside the header reads as
    it was prepared. *)
Theorem commit_then_remount s s0 :
  ctx_ok bld cfg s ->
  exists s1, its_flash_fs_mblock_meta_update_finalize bld cfg s = (Val tt, s1) /\
    (fs_dev s0 = fs_dev s1 ->
     exists s2, its_flash_fs_mblock_init bld cfg s0 = (Val tt, s2) /\ same_ctx s1 s2 /\
       active_metablock s2 = scratch_metablock s /\
       active_swap_count (meta_block_header s2)
         = next_swap_count (erase_val cfg) (active_swap_count (meta_block_header s)) /\
       forall b o, valid_range cfg b o 1 = true -> b <> active_metablock s ->
         (2 < num_blocks cfg -> b <> scratch_dblock (meta_block_header s)) ->
         (b <> scratch_metablock s \/ ITS_BLOCK_META_HEADER_SIZE bld <= o) ->
         view cfg s2 b o = view cfg s b o).
Proof.
  intros Hc. destruct (finalize_spec s Hc) as (s1 & Hf & Hm & H1a & H1h & H1v).
  destruct (ctx_ok_roles bld cfg s Hc) as [_ Hother].
  exists s1. split; [done|]. intros Hdev.
  destruct (mblock_init_spec s0 s1 Hm Hdev) as (s2 & Hi & _ & (H2h & H2a & H2s) & H2v).
  exists s2. split; [done|]. split; [done|]. split; [congruence|].
  split; [by rewrite H2h, H1h|]. intros b o Hr Hb Hbd Hbs.
  destruct Hm as ((_ & _ & H1s & _) & _). rewrite H1a, Hother in H1s.
  rewrite H2v; [by apply H1v|done|by rewrite H1s|by rewrite H1h].
Qed.
End Commit.

Lemma sample_state_ok : ctx_ok sample_bld sample_cfg sample_state.
Proof.
  assert (active_metablock sample_state = 1 /\ scratch_metablock sample_state = 0 /\
    meta_block_header sample_state = mk_header 2 2 195 1 [0]) as (Ha & Hs & Hh)
    by (vm_compute; done).
  pose proof sample_state_ram_ok as Hok. unfold ctx_ok. rewrite Ha, Hs, Hh.
  split; [exact Hok|]. clear.
  unfold header_wf, is_u32, is_u8; simpl. split_and?; try lia; try done.
  by apply bytes_check_ok.
Qed.

Lemma header_write_commits_witness :
  exists s2 s3, its_mblock_write_scratch_meta_header sample_bld sample_cfg sample_state = (Val tt, s2) /\
    its_init_get_active_metablock sample_bld sample_cfg s2 = (Val tt, s3) /\ active_metablock s3 = 0.
Proof.
  apply (header_write_commits sample_bld sample_cfg
    (FlashSpec0 := sample_spec)
    sample_cfg_ok sample_state); try (vm_compute; done). apply sample_state_ok.
Defined.

Lemma commit_then_remount_witness :
  exists s1, its_flash_fs_mblock_meta_update_finalize sample_bld sample_cfg sample_state = (Val tt, s1).
Proof.
  destruct (commit_then_remount sample_bld sample_cfg
    (FlashSpec0 := sample_spec)
    sample_cfg_ok sample_state sample_state sample_state_ok) as (s1 & H & _).
  by exists s1.
Defined.
