(* ===== verification/ItsFiles.v ===== *)
(** File operations on a working device: what the metadata checks guarantee, which
    entry a lookup finds, what a read returns and where a new file is placed. *)

From stdpp Require Import base list numbers gmap.
From S2P Require Import Prelude Flash FlashRam ItsTypes ItsMblock ItsFs ItsLayout.

Section Files.
Context {D : Type} `{!FlashOps D} `{!FlashView D}.
Context (bld : its_build) (cfg : its_flash_fs_config_t) `{!FlashSpec cfg}.
Context (Hcfg : cfg_ok bld cfg).
Implicit Types s : its_flash_fs_ctx_t D.

(** ** Checks on what is read from flash *)

(** The data region of a file entry lies inside its block, and behind the
    metadata when the block is the one shared with it. *)
Definition file_in_bounds (fm : its_file_meta_t) : Prop :=
  lblock fm < its_num_active_dblocks cfg /\
  cur_size fm <= max_size fm /\ max_size fm <= max_file_size cfg /\
  data_idx fm + max_size fm <= block_size cfg /\
  (lblock fm = ITS_LOGICAL_DBLOCK0 ->
   its_mblock_file_meta_offset bld cfg (max_num_files cfg) <= data_idx fm).

Lemma validate_file_meta_cases fm :
  its_mblock_validate_file_meta bld cfg fm = PSA_SUCCESS \/
  its_mblock_validate_file_meta bld cfg fm = PSA_ERROR_DATA_CORRUPT.
Proof. unfold its_mblock_validate_file_meta. repeat case_match; auto. Qed.

Lemma validate_file_meta_spec fm : file_meta_wf bld fm ->
  its_utils_validate_fid (id fm) = PSA_SUCCESS ->
  its_mblock_validate_file_meta bld cfg fm = PSA_SUCCESS <-> file_in_bounds fm.
Proof.
  intros (_ & Hdi & Hcs & Hms & _) Hid. unfold its_mblock_validate_file_meta, file_in_bounds.
  rewrite Hid. change (PSA_SUCCESS =? PSA_SUCCESS) with true. cbv iota.
  rewrite check_contained_in_exact by (by apply block_size_u32 with bld || done).
  unfold PSA_ERROR_DATA_CORRUPT, PSA_SUCCESS, PSA_ERROR_INVALID_ARGUMENT.
  destruct (Z.geb_spec (lblock fm) (its_num_active_dblocks cfg)),
    (Z.gtb_spec (max_size fm) (max_file_size cfg)), (Z.gtb_spec (cur_size fm) (max_size fm)),
    (Z.eqb_spec (lblock fm) ITS_LOGICAL_DBLOCK0),
    (Z.ltb_spec (data_idx fm) (its_mblock_file_meta_offset bld cfg (max_num_files cfg))),
    (Z.leb_spec (data_idx fm + max_size fm) (block_size cfg)); simpl;
    split; intros; try lia; intuition lia.
Qed.

Definition block_meta_in_bounds (bm : its_block_meta_t) : Prop :=
  phy_id bm < num_blocks cfg /\ data_start bm + free_size bm <= block_size cfg /\
  data_start bm = if decide (phy_id bm = 0 \/ phy_id bm = 1)
                  then its_mblock_file_meta_offset bld cfg (max_num_files cfg) else 0.

Lemma validate_block_meta_cases bm :
  its_mblock_validate_block_meta bld cfg bm = PSA_SUCCESS \/
  its_mblock_validate_block_meta bld cfg bm = PSA_ERROR_DATA_CORRUPT.
Proof. unfold its_mblock_validate_block_meta, validate_block_meta_at. repeat case_match; auto. Qed.

Lemma validate_block_meta_spec bm : block_meta_wf bld bm ->
  its_mblock_validate_block_meta bld cfg bm = PSA_SUCCESS <-> block_meta_in_bounds bm.
Proof.
  intros (Hp & Hds & Hfs & _).
  unfold its_mblock_validate_block_meta, validate_block_meta_at, block_meta_in_bounds.
  rewrite check_contained_in_exact by (by apply block_size_u32 with bld || done).
  unfold PSA_ERROR_DATA_CORRUPT, PSA_SUCCESS, PSA_ERROR_INVALID_ARGUMENT,
    ITS_METADATA_BLOCK0, ITS_METADATA_BLOCK1.
  destruct (Z.geb_spec (phy_id bm) (num_blocks cfg)),
    (Z.leb_spec (data_start bm + free_size bm) (block_size cfg)), (Z.eqb_spec (phy_id bm) 0),
    (Z.eqb_spec (phy_id bm) 1); simpl; case_decide; try lia;
    match goal with |- context [negb (?x =? ?y)] => destruct (Z.eqb_spec x y) | _ => idtac end;
    simpl; split; intros; try lia; intuition lia.
Qed.

(** ** Reading entries *)

Definition file_entry s (i : Z) : its_file_meta_t :=
  file_meta_of (stored cfg s (active_metablock s) (its_mblock_file_meta_offset bld cfg i)
    (ITS_FILE_METADATA_SIZE bld)).
Definition block_entry s (lb : Z) : its_block_meta_t :=
  block_meta_of (stored cfg s (active_metablock s) (its_mblock_block_meta_offset bld lb)
    (ITS_BLOCK_METADATA_SIZE bld)).

#[local] Arguments file_entry : simpl never.
#[local] Arguments block_entry : simpl never.

Definition file_entry_ok s (i : Z) : bool :=
  negb (ITS_VALIDATE_METADATA_FROM_FLASH bld) ||
  (its_mblock_validate_file_meta bld cfg (file_entry s i) =? PSA_SUCCESS).
Definition block_entry_ok s (lb : Z) : bool :=
  negb (ITS_VALIDATE_METADATA_FROM_FLASH bld) ||
  (its_mblock_validate_block_meta bld cfg (block_entry s lb) =? PSA_SUCCESS).

(** The active metadata block can be read. *)
Definition readable s : Prop :=
  dev_ok cfg (fs_dev s) /\ valid_block cfg (active_metablock s) = true.

Lemma same_fs_readable s s' : readable s -> same_fs cfg s s' -> readable s'.
Proof. intros [_ Hv] ((_ & Ha & _) & Hok & _). split; [done|by rewrite Ha]. Qed.

Lemma same_fs_file_entry s s' i : same_fs cfg s s' -> file_entry s' i = file_entry s i.
Proof.
  intros Hs. unfold file_entry. rewrite (proj1 (proj2 (proj1 Hs))).
  by rewrite (same_fs_stored _ _ _ _ _ _ Hs).
Qed.

Lemma same_fs_block_entry s s' i : same_fs cfg s s' -> block_entry s' i = block_entry s i.
Proof.
  intros Hs. unfold block_entry. rewrite (proj1 (proj2 (proj1 Hs))).
  by rewrite (same_fs_stored _ _ _ _ _ _ Hs).
Qed.

Lemma file_entry_wf s i : readable s -> 0 <= i < max_num_files cfg -> file_meta_wf bld (file_entry s i).
Proof.
  intros [Hok Hv] Hi. pose proof (file_size_bounds _ (ok_build _ _ Hcfg)).
  apply file_meta_of_wf; [|rewrite stored_length; lia|lia].
  apply (stored_bytes cfg); [done|]. by apply (file_meta_range _ _ Hcfg).
Qed.

Lemma block_entry_wf s lb : readable s -> 0 <= lb < its_num_active_dblocks cfg ->
  block_meta_wf bld (block_entry s lb).
Proof.
  intros [Hok Hv] Hi. pose proof (block_size_bounds _ (ok_build _ _ Hcfg)).
  apply block_meta_of_wf; [|rewrite stored_length; lia|lia].
  apply (stored_bytes cfg); [done|]. by apply (block_meta_range _ _ Hcfg).
Qed.

Lemma read_file_meta_spec s i : readable s -> 0 <= i < max_num_files cfg ->
  exists s', same_fs cfg s s' /\ its_flash_fs_mblock_read_file_meta bld cfg i s =
    (if file_entry_ok s i then Val (file_entry s i) else Err PSA_ERROR_DATA_CORRUPT, s').
Proof.
  intros [Hok Hv] Hi.
  destruct (flash_read_stored cfg s (active_metablock s) _ _ Hok
    (file_meta_range _ _ Hcfg _ _ Hv Hi)) as (s' & Hr & Hs').
  exists s'. split; [done|]. unfold its_flash_fs_mblock_read_file_meta.
  rewrite bind_gets, (bind_val _ _ _ _ _ Hr).
  change (file_meta_of _) with (file_entry s i). unfold file_entry_ok.
  destruct (ITS_VALIDATE_METADATA_FROM_FLASH bld); simpl; [|done].
  by destruct (validate_file_meta_cases (file_entry s i)) as [-> | ->].
Qed.

Lemma read_block_metadata_spec s lb : readable s -> 0 <= lb < its_num_active_dblocks cfg ->
  exists s', same_fs cfg s s' /\ its_flash_fs_mblock_read_block_metadata bld cfg lb s =
    (if block_entry_ok s lb then Val (block_entry s lb) else Err PSA_ERROR_DATA_CORRUPT, s').
Proof.
  intros [Hok Hv] Hi.
  destruct (flash_read_stored cfg s (active_metablock s) _ _ Hok
    (block_meta_range _ _ Hcfg _ _ Hv Hi)) as (s' & Hr & Hs').
  exists s'. split; [done|]. unfold its_flash_fs_mblock_read_block_metadata.
  rewrite bind_gets, (bind_val _ _ _ _ _ Hr).
  change (block_meta_of _) with (block_entry s lb). unfold block_entry_ok.
  destruct (ITS_VALIDATE_METADATA_FROM_FLASH bld); simpl; [|done].
  by destruct (validate_block_meta_cases (block_entry s lb)) as [-> | ->].
Qed.
(** ** Looking a file up *)

(** Entry [i] is the one a lookup of [fid] stops at: it is the first that matches
    and no entry up to it is refused by the checks. *)
Definition file_at s (fid : bytes) (i : Z) : Prop :=
  0 <= i < max_num_files cfg /\ id (file_entry s i) = fid /\
  (forall j, 0 <= j <= i -> file_entry_ok s j = true) /\
  (forall j, 0 <= j < i -> id (file_entry s j) <> fid).

Lemma same_fs_file_at s s' fid i : same_fs cfg s s' -> file_at s fid i -> file_at s' fid i.
Proof.
  intros Hs (H1 & H2 & H3 & H4). split; [done|].
  split; [by rewrite (same_fs_file_entry _ _ _ Hs)|].
  split; intros j Hj; unfold file_entry_ok; rewrite (same_fs_file_entry _ _ _ Hs);
    [by apply H3|by apply H4].
Qed.

(** A refused entry comes before any match. *)
Definition lookup_corrupt s (fid : bytes) : Prop :=
  exists i, 0 <= i < max_num_files cfg /\ file_entry_ok s i = false /\
    forall j, 0 <= j < i -> id (file_entry s j) <> fid.

Definition lookup_absent s (fid : bytes) : Prop :=
  forall j, 0 <= j < max_num_files cfg -> file_entry_ok s j = true /\ id (file_entry s j) <> fid.

Definition lookup_round s (fid : bytes) (i : Z) : Z + option (Z * its_file_meta_t) :=
  if file_entry_ok s i then
    inr (if bytes_eqb (id (file_entry s i)) fid then Some (i, file_entry s i) else None)
  else inl PSA_ERROR_GENERIC_ERROR.

Lemma same_fs_round s s' fid i : same_fs cfg s s' -> lookup_round s' fid i = lookup_round s fid i.
Proof. intros Hs. unfold lookup_round, file_entry_ok. by rewrite (same_fs_file_entry _ _ _ Hs). Qed.

Lemma lookup_round_none s fid i : lookup_round s fid i = inr None ->
  file_entry_ok s i = true /\ id (file_entry s i) <> fid.
Proof.
  unfold lookup_round, bytes_eqb. destruct (file_entry_ok s i); [|done].
  case_bool_decide; [done|]. by intros _.
Qed.

Lemma get_file_idx_meta_spec s fid : readable s ->
  exists s', same_fs cfg s s' /\
    ((exists i, file_at s fid i /\
        its_flash_fs_mblock_get_file_idx_meta bld cfg fid s = (Val (i, file_entry s i), s')) \/
     (lookup_corrupt s fid /\
        its_flash_fs_mblock_get_file_idx_meta bld cfg fid s = (Err PSA_ERROR_GENERIC_ERROR, s')) \/
     (lookup_absent s fid /\
        its_flash_fs_mblock_get_file_idx_meta bld cfg fid s = (Err PSA_ERROR_DOES_NOT_EXIST, s'))).
Proof.
  intros Hrd. unfold its_flash_fs_mblock_get_file_idx_meta.
  destruct (for_range_search (fun i =>
      tmp_metadata ← or_return (its_flash_fs_mblock_read_file_meta bld cfg i) PSA_ERROR_GENERIC_ERROR;
      mret (if bytes_eqb (id tmp_metadata) fid then Some (i, tmp_metadata) else None))
    (lookup_round s fid) (same_fs cfg s) 0 (max_num_files cfg) s) as (r & s' & Hs' & Hrun & Hf).
  { apply same_fs_refl, Hrd. }
  { intros i s1 Hi Hs1.
    destruct (read_file_meta_spec s1 i) as (s2 & Hs2 & Hr); [by eapply same_fs_readable|done|].
    exists s2. split; [by eapply same_fs_trans|]. rewrite <- (same_fs_round _ _ _ _ Hs1).
    unfold lookup_round, mbind, M_bind, or_return. rewrite Hr.
    by destruct (file_entry_ok s1 i). }
  exists s'. split; [done|]. rewrite !(bind_search _ _ _ _ _ Hrun).
  destruct Hf as [[-> Hn]|[Hne (i & Hi & Hp & Hn)]]; cbv iota beta.
  - right. right. split; [|done]. intros j Hj. by apply lookup_round_none, Hn.
  - assert (forall j, 0 <= j < i -> file_entry_ok s j = true /\ id (file_entry s j) <> fid) as Hb.
    { intros j Hj. by apply lookup_round_none, Hn. }
    unfold lookup_round in Hp. destruct (file_entry_ok s i) eqn:Eok; subst r; cbv iota beta.
    + unfold bytes_eqb in *. case_bool_decide as Eid; [|done]. left. exists i. split; [|done].
      split; [lia|]. split; [done|]. split; [|intros; by apply Hb].
      intros j Hj. destruct (Z.eq_dec j i) as [->|]; [done|]. apply Hb. lia.
    + right. left. split; [|done]. exists i. split; [done|]. split; [done|].
      intros j Hj. by apply Hb.
Qed.

(** ** Reading *)

Lemma lo_to_phy_spec s lb : readable s -> 0 <= lb < its_num_active_dblocks cfg ->
  exists s', same_fs cfg s s' /\ its_dblock_lo_to_phy bld cfg lb s =
    (Val (if block_entry_ok s lb then phy_id (block_entry s lb) else ITS_BLOCK_INVALID_ID), s').
Proof.
  intros Hrd Hlb. destruct (read_block_metadata_spec s lb Hrd Hlb) as (s' & Hs' & Hr).
  exists s'. split; [done|]. unfold its_dblock_lo_to_phy, attempt, mbind, M_bind. rewrite Hr.
  by destruct (block_entry_ok s lb).
Qed.

Lemma block_entry_ok_bounds s lb : ITS_VALIDATE_METADATA_FROM_FLASH bld = true ->
  readable s -> 0 <= lb < its_num_active_dblocks cfg -> block_entry_ok s lb = true ->
  block_meta_in_bounds (block_entry s lb) /\ valid_block cfg (phy_id (block_entry s lb)) = true.
Proof.
  intros Hval Hrd Hlb. unfold block_entry_ok. rewrite Hval. cbn [negb orb]. rewrite Z.eqb_eq.
  pose proof (block_entry_wf s lb Hrd Hlb) as Hwf. rewrite (validate_block_meta_spec _ Hwf).
  intros Hb. split; [done|]. rewrite valid_block_spec. destruct Hb as [? _].
  destruct Hwf as [Hp _]. unfold is_u32 in Hp. lia.
Qed.

Lemma file_entry_ok_bounds s i : ITS_VALIDATE_METADATA_FROM_FLASH bld = true ->
  readable s -> 0 <= i < max_num_files cfg ->
  its_utils_validate_fid (id (file_entry s i)) = PSA_SUCCESS ->
  file_entry_ok s i = true -> file_in_bounds (file_entry s i).
Proof.
  intros Hval Hrd Hi Hid. unfold file_entry_ok. rewrite Hval. cbn [negb orb]. rewrite Z.eqb_eq.
  by rewrite (validate_file_meta_spec _ (file_entry_wf s i Hrd Hi) Hid).
Qed.

(** The data region of a file that passed the checks, read from its block. *)
Lemma dblock_read_file_spec s fm offset size :
  ITS_VALIDATE_METADATA_FROM_FLASH bld = true -> readable s ->
  file_meta_wf bld fm -> file_in_bounds fm ->
  0 <= offset -> 0 <= size -> offset + size <= max_size fm ->
  exists s', same_fs cfg s s' /\ its_flash_fs_dblock_read_file bld cfg fm offset size s =
    (if block_entry_ok s (lblock fm)
     then Val (stored cfg s (phy_id (block_entry s (lblock fm))) (data_idx fm + offset) size)
     else Err PSA_ERROR_GENERIC_ERROR, s').
Proof.
  intros Hval Hrd (Hlb & Hdi & _) (Hlbm & _ & _ & Hin & _) Hoff Hsz Hle.
  unfold is_u32 in Hlb, Hdi.
  destruct (lo_to_phy_spec s (lblock fm) Hrd ltac:(lia)) as (s1 & Hs1 & Hp).
  unfold its_flash_fs_dblock_read_file. rewrite (bind_val _ _ _ _ _ Hp).
  destruct (block_entry_ok s (lblock fm)) eqn:Eok; cycle 1.
  { exists s1. by split. }
  destruct (block_entry_ok_bounds s (lblock fm) Hval Hrd ltac:(lia) Eok) as [[Hphy _] Hvb].
  destruct (ok_typed _ _ Hcfg) as (_&_&Hbs&Hnb&_). unfold is_u32 in Hbs. unfold is_u16 in Hnb.
  rewrite (proj2 (Z.eqb_neq (phy_id _) ITS_BLOCK_INVALID_ID)) by (unfold ITS_BLOCK_INVALID_ID; lia).
  rewrite bind_mret || (erewrite bind_val by reflexivity).
  rewrite u32_small by (unfold is_u32; lia).
  destruct (flash_read_stored cfg s1 (phy_id (block_entry s (lblock fm))) (data_idx fm + offset) size)
    as (s2 & Hr & Hs2); [apply Hs1| |].
  { apply valid_range_spec. apply valid_block_spec in Hvb. lia. }
  exists s2. split; [by eapply same_fs_trans|]. rewrite Hr.
  by rewrite (same_fs_stored _ _ _ _ _ _ Hs1).
Qed.
(** ** Free entries *)

Definition entry_free s (i : Z) : bool :=
  negb (its_utils_validate_fid (id (file_entry s i)) =? PSA_SUCCESS).

(** The free entries in index order, as far as the entries pass the checks. *)
Fixpoint free_indices_from s (n : nat) (i : Z) : list Z :=
  match n with
  | O => []
  | S n' =>
      if file_entry_ok s i then
        (if entry_free s i then [i] else []) ++ free_indices_from s n' (i + 1)
      else []
  end.
Definition free_indices s : list Z := free_indices_from s (Z.to_nat (max_num_files cfg)) 0.

Lemma free_indices_ext s s' n i : same_fs cfg s s' -> free_indices_from s' n i = free_indices_from s n i.
Proof.
  intros Hs. revert i. induction n as [|n IH]; intros i; simpl; [done|].
  unfold file_entry_ok, entry_free. by rewrite (same_fs_file_entry _ _ _ Hs), IH.
Qed.

Lemma free_file_index_spec n i use_spare s :
  readable s -> 0 <= i -> i + Z.of_nat n <= max_num_files cfg ->
  exists s', same_fs cfg s s' /\ free_file_index_from bld cfg n i use_spare s =
    (Val (default ITS_METADATA_INVALID_INDEX
       (free_indices_from s n i !! (if use_spare then 0 else 1)%nat)), s').
Proof.
  revert i use_spare s. induction n as [|n IH]; intros i use_spare s Hrd Hi Hn.
  { exists s. split; [apply same_fs_refl, Hrd|done]. }
  destruct (read_file_meta_spec s i Hrd) as (s1 & Hs1 & Hr); [lia|].
  assert (readable s1) as Hrd1 by by eapply same_fs_readable.
  simpl. destruct (file_entry_ok s i) eqn:Eok; cycle 1.
  { rewrite (bind_val _ _ _ _ _ (attempt_err _ _ _ _ Hr)). exists s1. split; [done|].
    by destruct use_spare. }
  rewrite (bind_val _ _ _ _ _ (attempt_val _ _ _ _ Hr)).
  fold (entry_free s i). destruct (entry_free s i); cbn [app negb];
    [destruct use_spare; cbn [negb]|].
  - exists s1. by split.
  - destruct (IH (i + 1) true s1 Hrd1) as (s2 & Hs2 & Hrun); [lia|lia|].
    exists s2. split; [by eapply same_fs_trans|].
    rewrite Hrun, (free_indices_ext _ _ _ _ Hs1). done.
  - destruct (IH (i + 1) use_spare s1 Hrd1) as (s2 & Hs2 & Hrun); [lia|lia|].
    exists s2. split; [by eapply same_fs_trans|].
    by rewrite Hrun, (free_indices_ext _ _ _ _ Hs1).
Qed.

(** ** Placing a new file *)

Definition reserve_round s (size : Z) (i : Z) : Z + option Z :=
  if block_entry_ok s i then
    inr (if free_size (block_entry s i) >=? size then Some i else None)
  else inl PSA_ERROR_GENERIC_ERROR.

(** What a reservation in block [i] gives. *)
Definition reserved s (fid : bytes) (size fl : Z) (fm : its_file_meta_t) (i : Z)
  : its_file_meta_t * its_block_meta_t :=
  ({| lblock := i; data_idx := u32 (block_size cfg - free_size (block_entry s i));
      cur_size := 0; max_size := size; flags := fl; id := fid; f_roundup := f_roundup fm |},
   set_free_size (free_size (block_entry s i) - size) (block_entry s i)).

Lemma mblock_reserve_spec s fid size fl fm : readable s ->
  exists r s', same_fs cfg s s' /\
    first_outcome (reserve_round s size) 0 (its_num_active_dblocks cfg) r /\
    its_mblock_reserve_file bld cfg fid size fl fm s =
      (match r with
       | inl e => Err e
       | inr (Some i) => Val (reserved s fid size fl fm i)
       | inr None => Err PSA_ERROR_INSUFFICIENT_STORAGE
       end, s').
Proof.
  intros Hrd. unfold its_mblock_reserve_file.
  match goal with |- context [for_range 0 _ ?b] => set (body := b) end.
  set (place := fun i => match reserve_round s size i with
    | inl e => inl e
    | inr o => inr (reserved s fid size fl fm <$> o) end).
  destruct (for_range_search body place (same_fs cfg s) 0 (its_num_active_dblocks cfg) s)
    as (r & s' & Hs' & Hrun & Hf).
  { apply same_fs_refl, Hrd. }
  { intros i s1 Hi Hs1. destruct (read_block_metadata_spec s1 i) as (s2 & Hs2 & Hr);
      [by eapply same_fs_readable|done|].
    exists s2. split; [by eapply same_fs_trans|].
    assert (block_entry_ok s1 i = block_entry_ok s i) as Eok.
    { unfold block_entry_ok. by rewrite (same_fs_block_entry _ _ _ Hs1). }
    rewrite Eok, (same_fs_block_entry _ _ _ Hs1) in Hr.
    unfold body, place, reserve_round. destruct (block_entry_ok s i).
    - rewrite (bind_val _ _ _ _ _ (or_return_val _ _ _ _ _ Hr)).
      by destruct (free_size (block_entry s i) >=? size).
    - unfold mbind, M_bind, or_return. by rewrite Hr. }
  exists (match r with
     | inl e => inl e
     | inr (Some p) => inr (Some (lblock p.1))
     | inr None => inr None end), s'.
  split; [done|]. rewrite (bind_search _ _ _ _ _ Hrun).
  assert (forall j, place j = inr None <-> reserve_round s size j = inr None) as Hnone.
  { intros j. unfold place. destruct (reserve_round s size j) as [|[]]; simpl; naive_solver. }
  destruct Hf as [[-> Hn]|[Hne (i & Hi & Hp & Hn)]].
  - split; [|done]. left. split; [done|]. intros j Hj. by apply Hnone, Hn.
  - unfold place, reserve_round in Hp. destruct (block_entry_ok s i) eqn:Eok; cbv iota beta in Hp.
    + destruct (free_size (block_entry s i) >=? size) eqn:Efit; cbv iota beta in Hp; cbn in Hp; [|by destruct Hne].
      subst r. split; [|done]. right. split; [done|]. exists i.
      split; [done|]. split; [by unfold reserve_round; rewrite Eok, Efit|].
      intros j Hj. by apply Hnone, Hn.
    + subst r. split; [|done]. right. split; [done|]. exists i.
      split; [done|]. split; [by unfold reserve_round; rewrite Eok|].
      intros j Hj. by apply Hnone, Hn.
Qed.
(** Reading and querying the file a lookup finds. *)
Lemma file_at_unique s fid i : readable s -> file_at s fid i ->
  exists s', same_fs cfg s s' /\
    its_flash_fs_mblock_get_file_idx_meta bld cfg fid s = (Val (i, file_entry s i), s').
Proof.
  intros Hrd (Hi & Hid & Hok & Hn).
  destruct (get_file_idx_meta_spec s fid Hrd) as (s' & Hs' & [(j & Hat & Hr)|[[Hc Hr]|[Ha Hr]]]).
  - assert (j = i) as ->; [|by exists s'].
    destruct Hat as (Hj & Hidj & Hokj & Hnj). destruct (Z.lt_trichotomy i j) as [?|[?|?]]; [|done|].
    + by destruct (Hnj i ltac:(lia)).
    + by destruct (Hn j ltac:(lia)).
  - destruct Hc as (j & Hj & Hbad & Hnj). exfalso.
    destruct (Z.le_gt_cases j i); [by rewrite Hok in Hbad by lia|]. by destruct (Hnj i ltac:(lia)).
  - by destruct (Ha i Hi).
Qed.

Lemma file_get_info_at s fid i : readable s -> file_at s fid i ->
  exists s', same_fs cfg s s' /\ its_flash_fs_file_get_info bld cfg fid s =
    (Val (mk_file_info (cur_size (file_entry s i)) (max_size (file_entry s i))
            (Z.land (flags (file_entry s i)) ITS_FLASH_FS_USER_FLAGS_MASK)), s').
Proof.
  intros Hrd Hat. destruct (file_at_unique s fid i Hrd Hat) as (s' & Hs' & Hr).
  exists s'. split; [done|]. unfold its_flash_fs_file_get_info.
  by rewrite (bind_val _ _ _ _ _ (or_return_val _ _ _ _ _ Hr)).
Qed.

Lemma file_read_at s fid i size offset :
  ITS_VALIDATE_METADATA_FROM_FLASH bld = true -> readable s ->
  its_utils_validate_fid fid = PSA_SUCCESS -> is_u32 size -> is_u32 offset ->
  file_at s fid i ->
  let fm := file_entry s i in
  let bm := block_entry s (lblock fm) in
  exists s', same_fs cfg s s' /\
    its_flash_fs_file_read bld cfg fid size offset s =
      (if offset + size <=? cur_size fm then
         if block_entry_ok s (lblock fm)
         then Val (stored cfg s (phy_id bm) (data_idx fm + offset) size)
         else Err PSA_ERROR_GENERIC_ERROR
       else Err PSA_ERROR_INVALID_ARGUMENT, s').
Proof.
  intros Hval Hrd Hfid Hsz Hoff Hat. cbv zeta. unfold its_flash_fs_file_read.
  destruct (file_at_unique s fid i Hrd Hat) as (s1 & Hs1 & Hr).
  rewrite (bind_val _ _ _ _ _ (or_return_val _ _ _ _ _ Hr)).
  destruct Hat as (Hi & Hid & Hok & _). specialize (Hok i ltac:(lia)).
  pose proof (file_entry_wf s i Hrd Hi) as Hwf.
  assert (file_in_bounds (file_entry s i)) as Hb by (apply file_entry_ok_bounds; by rewrite ?Hid).
  pose proof Hwf as (_ & _ & Hcur & _). pose proof Hb as (_ & Hcm & _).
  rewrite check_contained_in_exact by done. unfold is_u32 in Hsz, Hoff.
  destruct (Z.leb_spec (offset + size) (cur_size (file_entry s i))) as [Hle|Hgt]; cycle 1.
  { exists s1. by split. }
  destruct (dblock_read_file_spec s1 (file_entry s i) offset size Hval) as (s2 & Hs2 & Hd);
    [by eapply same_fs_readable|done|done|lia|lia|lia|].
  exists s2. split; [by eapply same_fs_trans|].
  change (check PSA_SUCCESS) with (mret tt : M (its_flash_fs_ctx_t D) unit).
  rewrite bind_mret. unfold or_return. rewrite Hd.
  assert (block_entry_ok s1 (lblock (file_entry s i)) = block_entry_ok s (lblock (file_entry s i))) as ->.
  { unfold block_entry_ok. by rewrite (same_fs_block_entry _ _ _ Hs1). }
  rewrite (same_fs_block_entry _ _ _ Hs1), (same_fs_stored _ _ _ _ _ _ Hs1).
  by destruct (block_entry_ok s _).
Qed.

(** ** Theorems *)

(** A file entry that passes the check on what is read from flash describes a
    data region inside its block, behind the metadata in the shared block, and of
    a permitted size, and every such entry passes; likewise for block metadata. *)
Theorem validated_metadata_bounds fm bm :
  file_meta_wf bld fm -> block_meta_wf bld bm ->
  its_utils_validate_fid (id fm) = PSA_SUCCESS ->
  (its_mblock_validate_file_meta bld cfg fm = PSA_SUCCESS <-> file_in_bounds fm) /\
  (its_mblock_validate_block_meta bld cfg bm = PSA_SUCCESS <-> block_meta_in_bounds bm).
Proof.
  intros Hfm Hbm Hid. split; [by apply validate_file_meta_spec|by apply validate_block_meta_spec].
Qed.

(** A lookup on a working device changes nothing and stops at the first entry
    that matches or is refused: it returns the first match when all entries up to
    it pass the checks, [PSA_ERROR_GENERIC_ERROR] when a refused entry comes
    first, and [PSA_ERROR_DOES_NOT_EXIST] exactly when no entry matches. *)
Theorem lookup_finds_first s fid : readable s ->
  exists s', same_fs cfg s s' /\
    ((exists i, file_at s fid i /\
        its_flash_fs_mblock_get_file_idx_meta bld cfg fid s = (Val (i, file_entry s i), s')) \/
     (lookup_corrupt s fid /\
        its_flash_fs_mblock_get_file_idx_meta bld cfg fid s = (Err PSA_ERROR_GENERIC_ERROR, s')) \/
     (lookup_absent s fid /\
        its_flash_fs_mblock_get_file_idx_meta bld cfg fid s = (Err PSA_ERROR_DOES_NOT_EXIST, s'))).
Proof. apply get_file_idx_meta_spec. Qed.

(** Reading a file on a working device never leaves the flash area and
    changes nothing.  It returns exactly the requested bytes of the file's data
    region when the request lies within the current size; otherwise it fails with
    the status of the first check that refuses the request. *)
Theorem file_read_exact s fid size offset :
  ITS_VALIDATE_METADATA_FROM_FLASH bld = true -> readable s ->
  its_utils_validate_fid fid = PSA_SUCCESS -> is_u32 size -> is_u32 offset ->
  exists s', same_fs cfg s s' /\
    ((exists i, file_at s fid i /\
        let fm := file_entry s i in
        let bm := block_entry s (lblock fm) in
        its_flash_fs_file_read bld cfg fid size offset s =
          (if offset + size <=? cur_size fm then
             if block_entry_ok s (lblock fm)
             then Val (stored cfg s (phy_id bm) (data_idx fm + offset) size)
             else Err PSA_ERROR_GENERIC_ERROR
           else Err PSA_ERROR_INVALID_ARGUMENT, s')) \/
     ((lookup_corrupt s fid \/ lookup_absent s fid) /\
        its_flash_fs_file_read bld cfg fid size offset s = (Err PSA_ERROR_DOES_NOT_EXIST, s'))).
Proof.
  intros Hval Hrd Hfid Hsz Hoff.
  destruct (get_file_idx_meta_spec s fid Hrd) as (s1 & Hs1 & [(i & Hat & _)|[[Hc Hr]|[Ha Hr]]]).
  - destruct (file_read_at s fid i size offset Hval Hrd Hfid Hsz Hoff Hat) as (s2 & Hs2 & Hrun).
    exists s2. split; [done|]. left. by exists i.
  - exists s1. split; [done|]. right. split; [by left|].
    unfold its_flash_fs_file_read, mbind, M_bind, or_return. by rewrite Hr.
  - exists s1. split; [done|]. right. split; [by right|].
    unfold its_flash_fs_file_read, mbind, M_bind, or_return. by rewrite Hr.
Qed.

(** A new file is placed in the first data block with enough free space, at
    the start of the free tail of that block: its region lies inside the block,
    behind the data the block already holds, and the recorded free space shrinks
    by exactly its size.  Without such a block the reservation reports
    insufficient storage; a refused entry on the way is a generic error. *)
Theorem reserve_first_fit s fid size fl fm :
  ITS_VALIDATE_METADATA_FROM_FLASH bld = true -> readable s -> is_u32 size ->
  exists s', same_fs cfg s s' /\
    ((exists i rfm rbm, its_mblock_reserve_file bld cfg fid size fl fm s = (Val (rfm, rbm), s') /\
        0 <= i < its_num_active_dblocks cfg /\
        (forall j, 0 <= j < i -> block_entry_ok s j = true /\ free_size (block_entry s j) < size) /\
        id rfm = fid /\ lblock rfm = i /\ max_size rfm = size /\ cur_size rfm = 0 /\
        free_size rbm = free_size (block_entry s i) - size /\ 0 <= free_size rbm /\
        data_idx rfm = block_size cfg - free_size (block_entry s i) /\
        data_start rbm <= data_idx rfm /\
        data_idx rfm + max_size rfm = block_size cfg - free_size rbm) \/
     ((forall j, 0 <= j < its_num_active_dblocks cfg ->
         block_entry_ok s j = true /\ free_size (block_entry s j) < size) /\
        its_mblock_reserve_file bld cfg fid size fl fm s = (Err PSA_ERROR_INSUFFICIENT_STORAGE, s')) \/
     ((exists i, 0 <= i < its_num_active_dblocks cfg /\ block_entry_ok s i = false /\
         forall j, 0 <= j < i -> block_entry_ok s j = true /\ free_size (block_entry s j) < size) /\
        its_mblock_reserve_file bld cfg fid size fl fm s = (Err PSA_ERROR_GENERIC_ERROR, s'))).
Proof.
  intros Hval Hrd Hsz. destruct (mblock_reserve_spec s fid size fl fm Hrd) as (r & s' & Hs' & Hf & Hrun).
  assert (forall j, reserve_round s size j = inr None ->
    block_entry_ok s j = true /\ free_size (block_entry s j) < size) as Hnone.
  { unfold reserve_round. intros j. destruct (block_entry_ok s j); [|done].
    destruct (Z.geb_spec (free_size (block_entry s j)) size); [done|]. by split. }
  exists s'. split; [done|]. destruct Hf as [[-> Hn]|[Hne (i & Hi & Hp & Hn)]].
  { right. left. split; [|done]. intros j Hj. by apply Hnone, Hn. }
  assert (forall j, 0 <= j < i -> block_entry_ok s j = true /\ free_size (block_entry s j) < size)
    as Hbefore by (intros j Hj; by apply Hnone, Hn).
  unfold reserve_round in Hp. destruct (block_entry_ok s i) eqn:Eok; cycle 1.
  { subst r. right. right. split; [|done]. by exists i. }
  destruct (Z.geb_spec (free_size (block_entry s i)) size) as [Hfit|]; [|by subst r].
  subst r. left. eexists i, _, _. split; [exact Hrun|].
  destruct (block_entry_ok_bounds s i Hval Hrd Hi Eok) as [(_ & Hds & _) _].
  destruct (block_entry_wf s i Hrd Hi) as (_ & Hdsu & Hfs & _).
  pose proof (block_size_u32 _ _ Hcfg). unfold is_u32 in *.
  change (lblock _) with i. change (max_size _) with size. change (cur_size _) with 0.
  change (data_idx _) with (u32 (block_size cfg - free_size (block_entry s i))).
  change (free_size (set_free_size _ _)) with (free_size (block_entry s i) - size).
  change (data_start (set_free_size _ _)) with (data_start (block_entry s i)).
  rewrite u32_small by (unfold is_u32; lia). split; [done|]. split; [done|]. split_and!; try done; lia.
Qed.

(** The index for a new entry is the first free one when the spare may be
    used, and the second free one otherwise, so that one entry always stays free
    for replacing a file; without such an entry the invalid index is returned. *)
Theorem free_file_index_keeps_spare s use_spare : readable s ->
  exists s', same_fs cfg s s' /\ its_get_free_file_index bld cfg use_spare s =
    (Val (default ITS_METADATA_INVALID_INDEX
       (free_indices s !! (if use_spare then 0 else 1)%nat)), s').
Proof.
  intros Hrd. pose proof (max_num_files_bounds _ _ Hcfg).
  by apply free_file_index_spec; [|lia|lia].
Qed.
End Files.

Lemma sample_readable : readable sample_cfg sample_file_state.
Proof. split; [exact sample_file_state_ram_ok|]. vm_compute. reflexivity. Qed.

Lemma validated_metadata_bounds_witness :
  its_mblock_validate_file_meta sample_bld sample_cfg
    (mk_file_meta 0 170 3 10 0 sample_fid []) = PSA_SUCCESS <->
  file_in_bounds sample_bld sample_cfg (mk_file_meta 0 170 3 10 0 sample_fid []).
Proof.
  apply (validated_metadata_bounds sample_bld sample_cfg sample_cfg_ok
    (mk_file_meta 0 170 3 10 0 sample_fid []) (mk_block_meta 3 0 256 []));
    unfold file_meta_wf, block_meta_wf, is_u32; simpl; split_and?; try lia; try done;
    by apply bytes_check_ok.
Defined.

Lemma lookup_finds_first_witness :
  file_at sample_bld sample_cfg sample_file_state sample_fid 1 /\
  exists s', same_fs sample_cfg sample_file_state s'.
Proof.
  split.
  - split; [done|]. split; [vm_compute; reflexivity|]. split; intros j Hj.
    + assert (j = 0 \/ j = 1) as [-> | ->] by lia; vm_compute; reflexivity.
    + assert (j = 0) as -> by lia. vm_compute. discriminate.
  - destruct (lookup_finds_first sample_bld sample_cfg (FlashSpec0 := sample_spec) sample_cfg_ok
      sample_file_state sample_fid sample_readable) as (s' & Hs' & _). by exists s'.
Defined.

Lemma file_read_exact_witness :
  its_flash_fs_file_read sample_bld sample_cfg sample_fid 2 1 sample_file_state
    = (Val [2; 3], sample_file_state) /\
  exists s', same_fs sample_cfg sample_file_state s'.
Proof.
  split; [vm_compute; reflexivity|].
  destruct (file_read_exact sample_bld sample_cfg (FlashSpec0 := sample_spec) sample_cfg_ok
    sample_file_state sample_fid 2 1) as (s' & Hs' & _); try done; [apply sample_readable|].
  by exists s'.
Defined.

Lemma reserve_first_fit_witness :
  exists s', same_fs sample_cfg sample_file_state s'.
Proof.
  destruct (reserve_first_fit sample_bld sample_cfg (FlashSpec0 := sample_spec) sample_cfg_ok
    sample_file_state (replicate 12 9) 200 0 (zero_file_meta sample_bld))
    as (s' & Hs' & _); try done; [apply sample_readable|]. by exists s'.
Defined.

Lemma free_file_index_keeps_spare_witness :
  free_indices sample_bld sample_cfg sample_file_state = [0; 2; 3] /\
  exists s', its_get_free_file_index sample_bld sample_cfg false sample_file_state = (Val 2, s').
Proof.
  split; [vm_compute; reflexivity|].
  destruct (free_file_index_keeps_spare sample_bld sample_cfg (FlashSpec0 := sample_spec)
    sample_cfg_ok sample_file_state false sample_readable) as (s' & _ & Hr).
  exists s'. rewrite Hr. vm_compute. reflexivity.
Defined.
