(* ===== verification/ItsService.v ===== *)
(** [tfm_internal_trusted_storage.c]: the Internal Trusted Storage service on top
    of the filesystem, built for a system with the Protected Storage partition,
    without [ITS_ENCRYPTION] and without memory-mapped vectors. *)

From stdpp Require Import base list numbers gmap.
From S2P Require Import Prelude Flash FlashRam ItsTypes ItsMblock ItsFs ItsLayout ItsFiles.

Definition TFM_ITS_INVALID_UID : Z := 0.
Definition PSA_STORAGE_FLAG_WRITE_ONCE : Z := 2 ^ 0.
Definition PSA_STORAGE_FLAG_NO_CONFIDENTIALITY : Z := 2 ^ 1.
Definition PSA_STORAGE_FLAG_NO_REPLAY_PROTECTION : Z := 2 ^ 2.

(** [struct tfm_hal_its_fs_info_t] and [struct tfm_hal_ps_fs_info_t]. *)
Record hal_fs_info := mk_hal_fs_info {
  hal_flash_area_addr : Z;
  hal_flash_area_size : Z;
  hal_sectors_per_block : Z;
}.

(** What the platform answers: [Driver.Initialize(NULL) == ARM_DRIVER_OK], the
    fields of [GetInfo()] and the answer of [tfm_hal_its_fs_info]. *)
Record flash_hal := mk_flash_hal {
  hal_initialize_ok : bool;
  hal_program_unit : Z;
  hal_sector_size : Z;
  hal_erased_value : Z;
  hal_info : option hal_fs_info;
}.

(** The build: options, the partition ID of Protected Storage, the buffer size and
    for each of the two filesystems the static configuration, the platform and
    whether its layout is created on demand. *)
Record service_build := mk_service_build {
  sb_fs : its_build;
  TFM_SP_PS : Z;
  ITS_BUF_SIZE : Z;
  its_static_cfg : its_flash_fs_config_t;
  ps_static_cfg : its_flash_fs_config_t;
  TFM_HAL_ITS_PROGRAM_UNIT : Z;
  TFM_HAL_PS_PROGRAM_UNIT : Z;
  its_hal : flash_hal;
  ps_hal : flash_hal;
  ITS_CREATE_FLASH_LAYOUT : bool;
  PS_CREATE_FLASH_LAYOUT : bool;
}.

(** The static variables of the file, and the caller's vectors of the request being
    served: what is still to be read of the input and what was written to the
    output. *)
Record its_service (D : Type) := mk_service {
  g_fid : bytes;
  g_file_info : its_flash_fs_file_info_t;
  asset_data : bytes;
  fs_cfg_its : its_flash_fs_config_t;
  fs_cfg_ps : its_flash_fs_config_t;
  fs_ctx_its : its_flash_fs_ctx_t D;
  fs_ctx_ps : its_flash_fs_ctx_t D;
  req_in : bytes;
  req_out : bytes;
}.
Arguments mk_service {D}.
Arguments g_fid {D}.
Arguments g_file_info {D}.
Arguments asset_data {D}.
Arguments fs_cfg_its {D}.
Arguments fs_cfg_ps {D}.
Arguments fs_ctx_its {D}.
Arguments fs_ctx_ps {D}.
Arguments req_in {D}.
Arguments req_out {D}.

(** The file ID: the client's ID, then the UID, which is 64 bits wide. *)
Definition make_fid (client_id uid : Z) : bytes := le32 client_id ++ le64 uid.

Section Service.
Context {D : Type} `{!FlashOps D} (sb : service_build).

Abbreviation SVC := (M (its_service D)).

Definition set_g_fid (l : bytes) (s : its_service D) : its_service D :=
  mk_service l (g_file_info s) (asset_data s) (fs_cfg_its s) (fs_cfg_ps s)
    (fs_ctx_its s) (fs_ctx_ps s) (req_in s) (req_out s).
Definition set_g_file_info (i : its_flash_fs_file_info_t) (s : its_service D) : its_service D :=
  mk_service (g_fid s) i (asset_data s) (fs_cfg_its s) (fs_cfg_ps s)
    (fs_ctx_its s) (fs_ctx_ps s) (req_in s) (req_out s).
Definition set_asset_data (l : bytes) (s : its_service D) : its_service D :=
  mk_service (g_fid s) (g_file_info s) l (fs_cfg_its s) (fs_cfg_ps s)
    (fs_ctx_its s) (fs_ctx_ps s) (req_in s) (req_out s).
Definition set_cfg_its (c : its_flash_fs_config_t) (s : its_service D) : its_service D :=
  mk_service (g_fid s) (g_file_info s) (asset_data s) c (fs_cfg_ps s)
    (fs_ctx_its s) (fs_ctx_ps s) (req_in s) (req_out s).
Definition set_cfg_ps (c : its_flash_fs_config_t) (s : its_service D) : its_service D :=
  mk_service (g_fid s) (g_file_info s) (asset_data s) (fs_cfg_its s) c
    (fs_ctx_its s) (fs_ctx_ps s) (req_in s) (req_out s).
Definition set_ctx_its (f : its_flash_fs_ctx_t D) (s : its_service D) : its_service D :=
  mk_service (g_fid s) (g_file_info s) (asset_data s) (fs_cfg_its s) (fs_cfg_ps s)
    f (fs_ctx_ps s) (req_in s) (req_out s).
Definition set_ctx_ps (f : its_flash_fs_ctx_t D) (s : its_service D) : its_service D :=
  mk_service (g_fid s) (g_file_info s) (asset_data s) (fs_cfg_its s) (fs_cfg_ps s)
    (fs_ctx_its s) f (req_in s) (req_out s).
Definition set_req (i o : bytes) (s : its_service D) : its_service D :=
  mk_service (g_fid s) (g_file_info s) (asset_data s) (fs_cfg_its s) (fs_cfg_ps s)
    (fs_ctx_its s) (fs_ctx_ps s) i o.

(** [get_fs_ctx] selects the filesystem: a selector, the context and its
    configuration, and an update of the selected context. *)
Inductive fs_select := FsIts | FsPs.
Definition get_fs_ctx (client_id : Z) : fs_select :=
  if client_id =? TFM_SP_PS sb then FsPs else FsIts.
Definition sel_cfg (f : fs_select) (s : its_service D) : its_flash_fs_config_t :=
  match f with FsIts => fs_cfg_its s | FsPs => fs_cfg_ps s end.
Definition sel_ctx (f : fs_select) (s : its_service D) : its_flash_fs_ctx_t D :=
  match f with FsIts => fs_ctx_its s | FsPs => fs_ctx_ps s end.
Definition sel_set (f : fs_select) (c : its_flash_fs_ctx_t D) (s : its_service D) : its_service D :=
  match f with FsIts => set_ctx_its c s | FsPs => set_ctx_ps c s end.

(** Run a filesystem operation on the selected context. *)
Definition on_fs {A} (f : fs_select)
    (m : its_flash_fs_config_t -> M (its_flash_fs_ctx_t D) A) : SVC A := fun s =>
  match m (sel_cfg f s) (sel_ctx f s) with
  | (o, c) => (o, sel_set f c s)
  end.

(** ** Initialisation *)

(** The configuration derived from the platform, with the C types' widths. *)
Definition derive_cfg (c : its_flash_fs_config_t) (h : flash_hal) (i : hal_fs_info)
  : its_flash_fs_config_t :=
  let bs := u32 (hal_sector_size h * hal_sectors_per_block i) in
  mk_fs_config (hal_flash_area_addr i) (hal_sector_size h) bs
    (u16 (hal_flash_area_size i / bs)) (program_unit c) (max_file_size c)
    (max_num_files c) (hal_erased_value h).

(** The division by a zero block size has no defined result. *)
Definition init_fs_cfg (h : flash_hal) (unit_const : Z)
    (get : its_service D -> its_flash_fs_config_t)
    (set : its_flash_fs_config_t -> its_service D -> its_service D) : SVC unit :=
  _ ← fail_if (negb (hal_initialize_ok h)) PSA_ERROR_STORAGE_FAILURE;
  _ ← fail_if (negb (hal_program_unit h =? unit_const)) PSA_ERROR_PROGRAMMER_ERROR;
  c ← gets get;
  _ ← modifyS (set (mk_fs_config (flash_area_addr c) (hal_sector_size h) (block_size c)
                      (num_blocks c) (program_unit c) (max_file_size c) (max_num_files c)
                      (hal_erased_value h)));
  match hal_info h with
  | None => throw PSA_ERROR_PROGRAMMER_ERROR
  | Some i =>
      if u32 (hal_sector_size h * hal_sectors_per_block i) =? 0 then stop OutOfBounds
      else modifyS (set (derive_cfg c h i))
  end.

Definition init_its_fs_cfg : SVC unit :=
  init_fs_cfg (its_hal sb) (TFM_HAL_ITS_PROGRAM_UNIT sb) fs_cfg_its set_cfg_its.

Definition init_ps_fs_cfg : SVC unit :=
  init_fs_cfg (ps_hal sb) (TFM_HAL_PS_PROGRAM_UNIT sb) fs_cfg_ps set_cfg_ps.

(** Prepare a filesystem, creating an empty layout when that is configured. *)
Definition init_fs (f : fs_select) (create_layout : bool) : SVC unit :=
  _ ← on_fs f (its_flash_fs_init_ctx (sb_fs sb));
  r ← attempt (on_fs f (its_flash_fs_prepare (sb_fs sb)));
  match r with
  | inr _ => mret tt
  | inl status =>
      if create_layout then
        _ ← on_fs f (its_flash_fs_wipe_all (sb_fs sb));
        on_fs f (its_flash_fs_prepare (sb_fs sb))
      else throw status
  end.

Definition tfm_its_init : SVC unit :=
  _ ← init_its_fs_cfg;
  _ ← init_fs FsIts (ITS_CREATE_FLASH_LAYOUT sb);
  _ ← init_ps_fs_cfg;
  init_fs FsPs (PS_CREATE_FLASH_LAYOUT sb).

(** ** Requests *)

Definition get_file_info (uid client_id : Z) : SVC unit :=
  _ ← fail_if (uid =? TFM_ITS_INVALID_UID) PSA_ERROR_INVALID_ARGUMENT;
  _ ← modifyS (set_g_fid (make_fid client_id uid));
  info ← on_fs (get_fs_ctx client_id) (fun cfg =>
    its_flash_fs_file_get_info (sb_fs sb) cfg (make_fid client_id uid));
  modifyS (set_g_file_info info).

(** [its_req_mngr_read] and [its_req_mngr_write]: the caller's vectors. *)
Definition its_req_mngr_read (num_bytes : Z) : SVC unit :=
  modifyS (fun s =>
    let l := take (Z.to_nat num_bytes) (req_in s) in
    set_req (drop (length l) (req_in s)) (req_out s)
      (set_asset_data (splice (asset_data s) 0 l) s)).
Definition its_req_mngr_write (l : bytes) : SVC unit :=
  modifyS (fun s => set_req (req_in s) (req_out s ++ l) s).

(** [its_flash_fs_file_write] updates [g_file_info] through its pointer. *)
Definition tfm_its_write_data_to_fs (client_id : Z) (fid : bytes) (data_size offset : Z)
    (data : bytes) : SVC unit :=
  let f := get_fs_ctx client_id in
  finfo ← gets g_file_info;
  cfg ← gets (sel_cfg f);
  _ ← modifyS (set_g_file_info (write_finfo (sb_fs sb) cfg finfo));
  on_fs f (fun cfg => its_flash_fs_file_write (sb_fs sb) cfg fid finfo data_size offset data).

Definition zeroize_excess_asset_data (client_id write_size : Z) : SVC unit :=
  n ← gets (fun s => Z.of_nat (length (asset_data s)));
  if negb (write_size =? n) then
    cfg ← gets (sel_cfg (get_fs_ctx client_id));
    let k := ITS_UTILS_ALIGN write_size (program_unit cfg) in
    if k <=? n
    then modifyS (fun s => set_asset_data
           (splice (asset_data s) 0 (replicate (Z.to_nat k) 0)) s)
    else stop OutOfBounds
  else mret tt.

Definition not_create_or_truncate (fl : Z) : Z :=
  Z.land fl (Z.lnot (Z.lor ITS_FLASH_FS_FLAG_CREATE ITS_FLASH_FS_FLAG_TRUNCATE)).

(** One round of the loop of [tfm_its_set], on [(offset, data_length)]. *)
Definition set_step (client_id : Z) (x : Z * Z) : SVC ((Z * Z) + unit) :=
  let '(offset, data_length) := x in
  n ← gets (fun s => Z.of_nat (length (asset_data s)));
  let write_size := ITS_UTILS_MIN data_length n in
  _ ← (if negb (ITS_FLASH_MAX_ALIGNMENT (sb_fs sb) =? 1)
       then zeroize_excess_asset_data client_id write_size else mret tt);
  _ ← its_req_mngr_read write_size;
  fid ← gets g_fid;
  data ← gets asset_data;
  _ ← tfm_its_write_data_to_fs client_id fid write_size offset data;
  _ ← modifyS (fun s => set_g_file_info
        (mk_file_info (size_current (g_file_info s)) (size_max (g_file_info s))
           (not_create_or_truncate (info_flags (g_file_info s)))) s);
  let data_length' := data_length - write_size in
  mret (if data_length' >? 0 then inl (u32 (offset + write_size), data_length') else inr tt).

Definition tfm_its_set (client_id uid data_length create_flags : Z) : SVC unit :=
  _ ← fail_if (uid =? TFM_ITS_INVALID_UID) PSA_ERROR_INVALID_ARGUMENT;
  _ ← fail_if (truth (Z.land create_flags
         (Z.lnot (Z.lor (Z.lor PSA_STORAGE_FLAG_WRITE_ONCE PSA_STORAGE_FLAG_NO_CONFIDENTIALITY)
                    PSA_STORAGE_FLAG_NO_REPLAY_PROTECTION)))) PSA_ERROR_NOT_SUPPORTED;
  r ← attempt (get_file_info uid client_id);
  _ ← match r with
      | inr _ =>
          fl ← gets (fun s => info_flags (g_file_info s));
          fail_if (truth (Z.land fl PSA_STORAGE_FLAG_WRITE_ONCE)) PSA_ERROR_NOT_PERMITTED
      | inl status => fail_if (negb (status =? PSA_ERROR_DOES_NOT_EXIST)) status
      end;
  _ ← modifyS (fun s => set_g_file_info
        (mk_file_info (size_current (g_file_info s)) data_length
           (Z.lor (Z.lor create_flags ITS_FLASH_FS_FLAG_CREATE) ITS_FLASH_FS_FLAG_TRUNCATE)) s);
  while_loop (set_step client_id) (0, data_length).

(** One round of the loop of [tfm_its_get_plain], on [(data_offset, data_size)]. *)
Definition get_step (client_id : Z) (x : Z * Z) : SVC ((Z * Z) + unit) :=
  let '(data_offset, data_size) := x in
  n ← gets (fun s => Z.of_nat (length (asset_data s)));
  let read_size := ITS_UTILS_MIN data_size n in
  fid ← gets g_fid;
  l ← on_fs (get_fs_ctx client_id) (fun cfg =>
        its_flash_fs_file_read (sb_fs sb) cfg fid read_size data_offset);
  _ ← modifyS (fun s => set_asset_data (splice (asset_data s) 0 l) s);
  _ ← its_req_mngr_write l;
  let data_size' := data_size - read_size in
  mret (if data_size' >? 0 then inl (u32 (data_offset + read_size), data_size') else inr tt).

Definition tfm_its_get_plain (client_id data_offset data_size : Z) : SVC unit :=
  while_loop (get_step client_id) (data_offset, data_size).

(** Returns [*p_data_length]. *)
Definition tfm_its_get (client_id uid data_offset data_size : Z) : SVC Z :=
  _ ← fail_if (uid =? TFM_ITS_INVALID_UID) PSA_ERROR_INVALID_ARGUMENT;
  _ ← get_file_info uid client_id;
  cur ← gets (fun s => size_current (g_file_info s));
  _ ← fail_if (data_offset >? cur) PSA_ERROR_INVALID_ARGUMENT;
  let data_size := ITS_UTILS_MIN data_size (u32 (cur - data_offset)) in
  _ ← tfm_its_get_plain client_id data_offset data_size;
  mret data_size.

(** Returns [(capacity, size, flags)] of [*p_info]. *)
Definition tfm_its_get_info (client_id uid : Z) : SVC (Z * Z * Z) :=
  _ ← get_file_info uid client_id;
  gets (fun s => (size_current (g_file_info s), size_current (g_file_info s),
                  info_flags (g_file_info s))).

Definition tfm_its_remove (client_id uid : Z) : SVC unit :=
  _ ← get_file_info uid client_id;
  fl ← gets (fun s => info_flags (g_file_info s));
  _ ← fail_if (truth (Z.land fl PSA_STORAGE_FLAG_WRITE_ONCE)) PSA_ERROR_NOT_PERMITTED;
  fid ← gets g_fid;
  on_fs (get_fs_ctx client_id) (fun cfg => its_flash_fs_file_delete (sb_fs sb) cfg fid).
End Service.

(** ** Facts *)

Lemma sel_ctx_set {D} f (c : its_flash_fs_ctx_t D) s : sel_ctx f (sel_set f c s) = c.
Proof. by destruct f. Qed.
Lemma sel_ctx_set_other {D} f f' (c : its_flash_fs_ctx_t D) s :
  f' <> f -> sel_ctx f' (sel_set f c s) = sel_ctx f' s.
Proof. by destruct f, f'. Qed.
Lemma sel_cfg_set {D} f f' (c : its_flash_fs_ctx_t D) s : sel_cfg f' (sel_set f c s) = sel_cfg f' s.
Proof. by destruct f, f'. Qed.

Lemma le32_inj x y : le32 x = le32 y -> u32 x = u32 y.
Proof. unfold le32, u8, u32. intros [= H0 H1 H2 H3]. lia. Qed.

Lemma le64_inj x y : 0 <= x < 2 ^ 64 -> 0 <= y < 2 ^ 64 -> le64 x = le64 y -> x = y.
Proof.
  intros Hx Hy H. unfold le64 in H. apply app_inj_1 in H as [H1 H2]; [|done].
  apply le32_inj in H1, H2. unfold u32 in *. lia.
Qed.

Lemma make_fid_valid client_id uid : 0 < uid < 2 ^ 64 ->
  its_utils_validate_fid (make_fid client_id uid) = PSA_SUCCESS.
Proof.
  intros Hu. apply validate_fid_spec. unfold make_fid. apply Exists_app. right.
  destruct (decide (Exists (fun b => b <> 0) (le64 uid))) as [|Hn]; [done|].
  exfalso. assert (le64 uid = le64 0) as Heq.
  { symmetry. change (le64 0) with (replicate 8 0). apply replicate_as_elem_of.
    split; [done|]. intros y Hy. apply dec_stable. intros Hne. apply Hn, Exists_exists. eauto. }
  apply le64_inj in Heq; lia.
Qed.

Section ServiceFacts.
Context {D : Type} `{!FlashOps D} `{!FlashView D} (sb : service_build).
Context (cfg : its_flash_fs_config_t) `{!FlashSpec cfg} (Hcfg : cfg_ok (sb_fs sb) cfg).
Implicit Types s : its_service D.

(** The stored data of both filesystems reads as before. *)
Definition same_storage (f : fs_select) s s' : Prop :=
  sel_cfg f s' = sel_cfg f s /\ same_fs cfg (sel_ctx f s) (sel_ctx f s') /\
  forall f', f' <> f -> sel_ctx f' s' = sel_ctx f' s.

Lemma on_fs_run {A} f (m : its_flash_fs_config_t -> M (its_flash_fs_ctx_t D) A) s o c :
  sel_cfg f s = cfg -> m cfg (sel_ctx f s) = (o, c) -> on_fs f m s = (o, sel_set f c s).
Proof. intros Hc Hm. unfold on_fs. by rewrite Hc, Hm. Qed.

(** The information of a stored file, as the service sees it. *)
Definition stored_info (c : its_flash_fs_ctx_t D) (i : Z) : its_flash_fs_file_info_t :=
  let fm := file_entry (sb_fs sb) cfg c i in
  mk_file_info (cur_size fm) (max_size fm) (Z.land (flags fm) ITS_FLASH_FS_USER_FLAGS_MASK).

Lemma get_file_info_run client uid i s :
  let f := get_fs_ctx sb client in
  sel_cfg f s = cfg -> uid <> 0 -> readable cfg (sel_ctx f s) ->
  file_at (sb_fs sb) cfg (sel_ctx f s) (make_fid client uid) i ->
  exists c, same_fs cfg (sel_ctx f s) c /\
    get_file_info sb uid client s =
      (Val tt, set_g_file_info (stored_info (sel_ctx f s) i)
                 (sel_set f c (set_g_fid (make_fid client uid) s))).
Proof.
  intros f Hc Hu Hrd Hat.
  destruct (file_get_info_at (sb_fs sb) cfg Hcfg _ _ i Hrd Hat) as (c & Hs & Hr).
  exists c. split; [done|]. unfold get_file_info. fold f. clearbody f.
  rewrite (proj2 (Z.eqb_neq uid TFM_ITS_INVALID_UID) Hu). unfold fail_if.
  rewrite bind_mret, bind_modifyS.
  assert (sel_cfg f (set_g_fid (make_fid client uid) s) = cfg) as Hc' by by rewrite <- Hc; destruct f.
  assert (sel_ctx f (set_g_fid (make_fid client uid) s) = sel_ctx f s) as Hx by by destruct f.
  rewrite <- Hx in Hr. by rewrite (bind_val _ _ _ _ _ (on_fs_run f _ _ _ _ Hc' Hr)).
Qed.

Lemma same_storage_trans f s1 s2 s3 :
  same_storage f s1 s2 -> same_storage f s2 s3 -> same_storage f s1 s3.
Proof.
  intros (H1 & H2 & H3) (H4 & H5 & H6). split; [congruence|]. split; [by eapply same_fs_trans|].
  intros f' Hf. by rewrite H6, H3.
Qed.

Lemma info_same_storage f s fid info c :
  same_fs cfg (sel_ctx f s) c ->
  same_storage f s (set_g_file_info info (sel_set f c (set_g_fid fid s))).
Proof. intros Hs. unfold same_storage. destruct f; split; try done; split; try done; by intros []. Qed.

Lemma info_fields f s fid info (c : its_flash_fs_ctx_t D) :
  let s1 := set_g_file_info info (sel_set f c (set_g_fid fid s)) in
  g_fid s1 = fid /\ asset_data s1 = asset_data s /\ req_out s1 = req_out s.
Proof. by destruct f. Qed.

Lemma write_once_flag fl : Z.testbit fl 0 = true ->
  truth (Z.land (Z.land fl ITS_FLASH_FS_USER_FLAGS_MASK) PSA_STORAGE_FLAG_WRITE_ONCE) = true.
Proof.
  intros Hb. unfold PSA_STORAGE_FLAG_WRITE_ONCE. rewrite land_pow2 by lia.
  by rewrite Z.land_spec, Hb.
Qed.

(** ** Reading in chunks *)

(** [k] bytes of the answer have been delivered. *)
Definition delivered (f : fs_select) (fid : bytes) (b off k : Z) s s' : Prop :=
  same_storage f s s' /\ g_fid s' = fid /\ length (asset_data s') = length (asset_data s) /\
  req_out s' = req_out s ++ stored cfg (sel_ctx f s) b off k.

Lemma length_splice_0 (l x : bytes) : (length x <= length l)%nat -> length (splice l 0 x) = length l.
Proof. intros. by rewrite length_splice by lia. Qed.

Lemma get_step_run client fid i s s1 off n k :
  let f := get_fs_ctx sb client in
  let c := sel_ctx f s in
  let fm := file_entry (sb_fs sb) cfg c i in
  let b := phy_id (block_entry (sb_fs sb) cfg c (lblock fm)) in
  ITS_VALIDATE_METADATA_FROM_FLASH (sb_fs sb) = true -> sel_cfg f s = cfg ->
  readable cfg c -> its_utils_validate_fid fid = PSA_SUCCESS ->
  file_at (sb_fs sb) cfg c fid i -> block_entry_ok (sb_fs sb) cfg c (lblock fm) = true ->
  0 <= off -> 0 <= n -> off + n <= cur_size fm -> 0 < Z.of_nat (length (asset_data s)) ->
  0 <= k <= n -> delivered f fid b (data_idx fm + off) k s s1 ->
  let r := ITS_UTILS_MIN (n - k) (Z.of_nat (length (asset_data s))) in
  exists s2, get_step sb client (off + k, n - k) s1 =
    (Val (if n - k - r >? 0 then inl (off + (k + r), n - (k + r)) else inr tt), s2) /\
    0 <= r <= n - k /\ (0 < n - k -> 0 < r) /\
    delivered f fid b (data_idx fm + off) (k + r) s s2.
Proof.
  intros f c fm b Hval Hc Hrd Hfid Hat Hbok Hoff Hn Hle Hlen Hk ((Hc1 & Hs1 & Ho1) & Hg1 & Hl1 & Hreq) r.
  assert (0 <= r <= n - k /\ (0 < n - k -> 0 < r) /\ r <= Z.of_nat (length (asset_data s))) as (Hr & Hr' & Hrl).
  { subst r. unfold ITS_UTILS_MIN. destruct (Z.ltb_spec (n - k) (Z.of_nat (length (asset_data s)))); lia. }
  assert (0 <= cur_size fm < 2 ^ 32) as Hcur.
  { apply (file_entry_wf (sb_fs sb) cfg Hcfg c i Hrd). by destruct Hat. }
  assert (file_at (sb_fs sb) cfg (sel_ctx f s1) fid i) as Hat1 by by eapply same_fs_file_at.
  destruct (file_read_at (sb_fs sb) cfg Hcfg (sel_ctx f s1) fid i r (off + k) Hval)
    as (c2 & Hs2 & Hread); [by eapply same_fs_readable|done|unfold is_u32; lia|unfold is_u32; lia|done|].
  rewrite (same_fs_file_entry _ _ _ _ _ Hs1), (same_fs_block_entry _ _ _ _ _ Hs1) in Hread.
  fold c fm in Hread. fold b in Hread.
  assert (block_entry_ok (sb_fs sb) cfg (sel_ctx f s1) (lblock fm) = true) as Hbok1.
  { unfold block_entry_ok. by rewrite (same_fs_block_entry _ _ _ _ _ Hs1). }
  rewrite Hbok1, (proj2 (Z.leb_le _ _)), (same_fs_stored _ _ _ _ _ _ Hs1) in Hread by lia.
  fold c in Hread. set (l := stored cfg c b (data_idx fm + (off + k)) r) in *.
  assert (length l = Z.to_nat r) as Hll by apply stored_length.
  eexists. split; [|split; [done|split; [done|]]].
  - unfold get_step. rewrite !bind_gets, Hl1, Hg1. fold r. fold f.
    rewrite (bind_val _ _ _ _ _ (on_fs_run f _ s1 _ _ ltac:(by rewrite Hc1) Hread)).
    rewrite bind_modifyS. unfold its_req_mngr_write. rewrite bind_modifyS.
    rewrite u32_small by (unfold is_u32; lia).
    replace (n - k - r) with (n - (k + r)) by lia. replace (off + k + r) with (off + (k + r)) by lia.
    reflexivity.
  - clearbody f. split; [|split; [|split]].
    + split; [by destruct f|]. split; [|by destruct f; intros []; try done; intros; rewrite <- Ho1].
      destruct f; (eapply same_fs_trans; [exact Hs1|exact Hs2]).
    + by destruct f.
    + destruct f; simpl; rewrite length_splice_0; (done || lia).
    + rewrite stored_split, app_assoc, <- Hreq by lia.
      assert (l = stored cfg (sel_ctx f s) b (data_idx fm + off + k) r) as <-
        by (unfold l, c; f_equal; lia).
      clearbody l. by destruct f.
Qed.

Lemma get_plain_run client fid i s off n :
  let f := get_fs_ctx sb client in
  let c := sel_ctx f s in
  let fm := file_entry (sb_fs sb) cfg c i in
  let b := phy_id (block_entry (sb_fs sb) cfg c (lblock fm)) in
  ITS_VALIDATE_METADATA_FROM_FLASH (sb_fs sb) = true -> sel_cfg f s = cfg ->
  readable cfg c -> its_utils_validate_fid fid = PSA_SUCCESS -> g_fid s = fid ->
  file_at (sb_fs sb) cfg c fid i -> block_entry_ok (sb_fs sb) cfg c (lblock fm) = true ->
  0 <= off -> 0 <= n -> off + n <= cur_size fm -> 0 < Z.of_nat (length (asset_data s)) ->
  exists s', tfm_its_get_plain sb client off n s = (Val tt, s') /\
    delivered f fid b (data_idx fm + off) n s s'.
Proof.
  intros f c fm b Hval Hc Hrd Hfid Hg Hat Hbok Hoff Hn Hle Hlen.
  assert (0 <= cur_size fm < 2 ^ 32) as Hcur.
  { apply (file_entry_wf (sb_fs sb) cfg Hcfg c i Hrd). by destruct Hat. }
  unfold tfm_its_get_plain.
  destruct (while_loop_total (get_step sb client)
    (fun x s1 => exists k, 0 <= k <= n /\ x = (off + k, n - k) /\
       delivered f fid b (data_idx fm + off) k s s1)
    (fun _ s1 => delivered f fid b (data_idx fm + off) n s s1) snd)
    with (x := (off, n)) (s := s) as ([] & s' & Hrun & Hpost).
  - intros x s1 (k & Hk & -> & Hd).
    destruct (get_step_run client fid i s s1 off n k Hval Hc Hrd Hfid Hat Hbok Hoff Hn Hle Hlen Hk Hd)
      as (s2 & Hrun & Hr & Hr' & Hd2).
    eexists _, s2. split; [exact Hrun|].
    set (r := ITS_UTILS_MIN (n - k) (Z.of_nat (length (asset_data s)))) in *.
    destruct (Z.gtb_spec (n - k - r) 0).
    + split; [|simpl; lia]. exists (k + r). split; [lia|]. by split.
    + by replace n with (k + r) by lia.
  - exists 0. split; [lia|]. split; [f_equal; lia|]. split; [|split; [done|split; [done|]]].
    + split; [done|]. split; [apply same_fs_refl, Hrd|done].
    + by rewrite app_nil_r.
  - simpl. lia.
  - by exists s'.
Qed.

(** ** Theorems *)

(** C6: a client cannot name another client's file, nor two of its own files with
    one name: the file ID determines the client ID and the UID, and it is never
    the all-zero ID that marks a free entry. *)
Theorem fid_isolates_clients c c' u u' :
  - 2 ^ 31 <= c < 2 ^ 31 -> - 2 ^ 31 <= c' < 2 ^ 31 -> 0 < u < 2 ^ 64 -> 0 < u' < 2 ^ 64 ->
  its_utils_validate_fid (make_fid c u) = PSA_SUCCESS /\
  (make_fid c u = make_fid c' u' -> c = c' /\ u = u').
Proof.
  intros Hc Hc' Hu Hu'. split; [by apply make_fid_valid|]. unfold make_fid. intros H.
  apply app_inj_1 in H as [H1 H2]; [|done]. apply le32_inj in H1. apply le64_inj in H2; [|lia|lia].
  split; [|done]. unfold u32 in H1. lia.
Qed.

(** C5: a file created with [PSA_STORAGE_FLAG_WRITE_ONCE] can be neither replaced
    nor removed: both requests return [PSA_ERROR_NOT_PERMITTED] and leave both
    filesystems as they were. *)
Theorem write_once_protected client uid len create_flags i s :
  let f := get_fs_ctx sb client in
  let c := sel_ctx f s in
  sel_cfg f s = cfg -> uid <> 0 -> readable cfg c -> 0 <= create_flags < 2 ^ 3 ->
  file_at (sb_fs sb) cfg c (make_fid client uid) i ->
  Z.testbit (flags (file_entry (sb_fs sb) cfg c i)) 0 = true ->
  exists s1 s2,
    tfm_its_set sb client uid len create_flags s = (Err PSA_ERROR_NOT_PERMITTED, s1) /\
    tfm_its_remove sb client uid s = (Err PSA_ERROR_NOT_PERMITTED, s2) /\
    same_storage f s s1 /\ same_storage f s s2.
Proof.
  intros f c Hc Hu Hrd Hcf Hat Hbit.
  destruct (get_file_info_run client uid i s Hc Hu Hrd Hat) as (c' & Hs' & Hrun).
  fold f c in Hrun. set (s1 := set_g_file_info _ _) in Hrun.
  assert (same_storage f s s1) as Hss.
  { by apply info_same_storage. }
  assert (truth (Z.land (info_flags (g_file_info s1)) PSA_STORAGE_FLAG_WRITE_ONCE) = true) as Hfl
    by by apply write_once_flag.
  exists s1, s1. split_and!; [| |exact Hss|exact Hss].
  - unfold tfm_its_set. rewrite bind_fail_no by by apply Z.eqb_neq.
    assert (Z.land create_flags (Z.lnot (Z.lor (Z.lor PSA_STORAGE_FLAG_WRITE_ONCE
      PSA_STORAGE_FLAG_NO_CONFIDENTIALITY) PSA_STORAGE_FLAG_NO_REPLAY_PROTECTION)) = 0) as ->.
    { assert (create_flags ∈ seqZ 0 8) as Hin by (apply elem_of_seqZ; lia).
      rewrite list_elem_of_In in Hin. simpl in Hin. by repeat destruct Hin as [<-|Hin]. }
    rewrite bind_fail_no by done.
    rewrite (bind_val _ _ _ _ _ (attempt_val _ _ _ _ Hrun)).
    assert ((fl ← gets (fun s : its_service D => info_flags (g_file_info s));
      fail_if (truth (Z.land fl PSA_STORAGE_FLAG_WRITE_ONCE)) PSA_ERROR_NOT_PERMITTED) s1
      = (Err PSA_ERROR_NOT_PERMITTED, s1)) as He by (by rewrite bind_gets, Hfl).
    by rewrite (bind_err _ _ _ _ _ He).
  - unfold tfm_its_remove. rewrite (bind_val _ _ _ _ _ Hrun), bind_gets, Hfl. done.
Qed.

(** A request for [n] bytes at [off] of a stored file delivers, in chunks no
    larger than the service's buffer, exactly the bytes of the file's data region
    from [off] up to the smaller of the requested length and the end of the file,
    reports that length, and leaves both filesystems as they were; an offset
    behind the end of the file is refused. *)
Theorem tfm_its_get_exact client uid off n i s :
  let f := get_fs_ctx sb client in
  let c := sel_ctx f s in
  let fm := file_entry (sb_fs sb) cfg c i in
  let b := phy_id (block_entry (sb_fs sb) cfg c (lblock fm)) in
  ITS_VALIDATE_METADATA_FROM_FLASH (sb_fs sb) = true -> sel_cfg f s = cfg -> 0 < uid < 2 ^ 64 ->
  readable cfg c -> 0 < Z.of_nat (length (asset_data s)) -> is_u32 off -> is_u32 n ->
  file_at (sb_fs sb) cfg c (make_fid client uid) i ->
  block_entry_ok (sb_fs sb) cfg c (lblock fm) = true ->
  exists s', same_storage f s s' /\
    if off <=? cur_size fm then
      let len := Z.min n (cur_size fm - off) in
      tfm_its_get sb client uid off n s = (Val len, s') /\
      req_out s' = req_out s ++ stored cfg c b (data_idx fm + off) len
    else tfm_its_get sb client uid off n s = (Err PSA_ERROR_INVALID_ARGUMENT, s').
Proof.
  intros f c fm b Hval Hc Hu Hrd Hlen Hoff Hn Hat Hbok. unfold is_u32 in Hoff, Hn.
  assert (0 <= cur_size fm < 2 ^ 32) as Hcur.
  { apply (file_entry_wf (sb_fs sb) cfg Hcfg c i Hrd). by destruct Hat. }
  destruct (get_file_info_run client uid i s Hc ltac:(lia) Hrd Hat) as (c' & Hs' & Hrun).
  fold f c in Hrun. set (s1 := set_g_file_info _ _) in Hrun.
  assert (same_storage f s s1) as Hss.
  { by apply info_same_storage. }
  unfold tfm_its_get.
  rewrite bind_fail_no by (apply Z.eqb_neq; unfold TFM_ITS_INVALID_UID; lia). rewrite (bind_val _ _ _ _ _ Hrun), bind_gets.
  change (size_current (g_file_info s1)) with (cur_size fm).
  rewrite Z.gtb_ltb. destruct (Z.leb_spec off (cur_size fm)) as [Hle|Hgt]; cycle 1.
  { exists s1. split; [done|]. by rewrite bind_fail_yes by lia. }
  rewrite bind_fail_no by lia. rewrite (u32_small (cur_size fm - off)) by (unfold is_u32; lia).
  assert (ITS_UTILS_MIN n (cur_size fm - off) = Z.min n (cur_size fm - off)) as ->.
  { unfold ITS_UTILS_MIN. destruct (Z.ltb_spec n (cur_size fm - off)); lia. }
  assert (same_fs cfg c (sel_ctx f s1)) as Hc1 by apply Hss.
  assert (g_fid s1 = make_fid client uid /\ asset_data s1 = asset_data s /\
    req_out s1 = req_out s) as (Hg1 & Ha1 & Hr1) by apply info_fields.
  destruct (get_plain_run client (make_fid client uid) i s1 off (Z.min n (cur_size fm - off)) Hval)
    as (s2 & Hrun2 & Hd).
  all: fold f; rewrite ?(same_fs_file_entry _ _ _ _ _ Hc1), ?(same_fs_block_entry _ _ _ _ _ Hc1).
  { rewrite <- Hc. apply Hss. }
  { by eapply same_fs_readable. }
  { by apply make_fid_valid. }
  { exact Hg1. }
  { by eapply same_fs_file_at. }
  { unfold block_entry_ok. rewrite (same_fs_block_entry _ _ _ _ _ Hc1). exact Hbok. }
  { lia. } { lia. } { fold c fm. lia. } { by rewrite Ha1. }
  fold f in Hd. rewrite (same_fs_file_entry _ _ _ _ _ Hc1), (same_fs_block_entry _ _ _ _ _ Hc1) in Hd.
  fold c fm b in Hd. destruct Hd as (Hss2 & _ & _ & Hreq). exists s2. split.
  - by eapply same_storage_trans.
  - split; [by rewrite (bind_val _ _ _ _ _ Hrun2)|].
    rewrite Hreq, (same_fs_stored _ _ _ _ _ _ Hc1). f_equal. exact Hr1.
Qed.
End ServiceFacts.

(** ** A sample service

    Client 1 has stored ten bytes with the write-once flag under UID 5, through a
    buffer of four bytes. *)

Definition sample_hal : flash_hal :=
  mk_flash_hal true 1 256 255 (Some (mk_hal_fs_info 0 1024 1)).
Definition sample_sb : service_build :=
  mk_service_build sample_bld 7 4 sample_cfg sample_cfg 1 1 sample_hal sample_hal true true.
Definition sample_svc0 : its_service ram_dev :=
  mk_service (replicate 12 0) (mk_file_info 0 0 0) (replicate 4 0) sample_cfg sample_cfg
    sample_state sample_state [10; 11; 12; 13; 14; 15; 16; 17; 18; 19] [].
Definition sample_svc : its_service ram_dev :=
  (tfm_its_set sample_sb 1 5 10 PSA_STORAGE_FLAG_WRITE_ONCE sample_svc0).2.

Lemma sample_svc_readable : readable sample_cfg (sel_ctx (get_fs_ctx sample_sb 1) sample_svc).
Proof.
  split; [|vm_compute; reflexivity].
  assert (ram_ok sample_cfg (fs_dev (sel_ctx (get_fs_ctx sample_sb 1) sample_svc))) as H.
  { apply sample_ram_ok. vm_compute. reflexivity. }
  exact H.
Qed.

Lemma sample_svc_file :
  file_at sample_bld sample_cfg (sel_ctx (get_fs_ctx sample_sb 1) sample_svc) (make_fid 1 5) 1.
Proof.
  split; [done|]. split; [vm_compute; reflexivity|]. split; intros j Hj.
  - assert (j = 0 \/ j = 1) as [-> | ->] by lia; vm_compute; reflexivity.
  - assert (j = 0) as -> by lia. vm_compute. discriminate.
Qed.

Lemma sample_svc_cfg : sel_cfg (get_fs_ctx sample_sb 1) sample_svc = sample_cfg.
Proof. vm_compute. reflexivity. Qed.

Lemma fid_isolates_clients_witness :
  its_utils_validate_fid (make_fid (-1) 5) = PSA_SUCCESS.
Proof. apply (fid_isolates_clients (-1) 2 5 5); lia. Defined.

Lemma write_once_protected_witness :
  exists s1 s2,
    tfm_its_set sample_sb 1 5 3 0 sample_svc = (Err PSA_ERROR_NOT_PERMITTED, s1) /\
    tfm_its_remove sample_sb 1 5 sample_svc = (Err PSA_ERROR_NOT_PERMITTED, s2).
Proof.
  destruct (write_once_protected sample_sb sample_cfg (FlashSpec0 := sample_spec) sample_cfg_ok
    1 5 3 0 1 sample_svc sample_svc_cfg ltac:(lia) sample_svc_readable ltac:(lia) sample_svc_file
    ltac:(vm_compute; reflexivity)) as (s1 & s2 & H1 & H2 & _).
  exists s1, s2. exact (conj H1 H2).
Defined.

Lemma tfm_its_get_exact_witness :
  req_out (tfm_its_get sample_sb 1 5 2 100 sample_svc).2 = [12; 13; 14; 15; 16; 17; 18; 19] /\
  exists s', same_storage sample_cfg (get_fs_ctx sample_sb 1) sample_svc s'.
Proof.
  split; [vm_compute; reflexivity|].
  destruct (tfm_its_get_exact sample_sb sample_cfg (FlashSpec0 := sample_spec) sample_cfg_ok
    1 5 2 100 1 sample_svc eq_refl sample_svc_cfg ltac:(lia) sample_svc_readable
    ltac:(vm_compute; reflexivity) ltac:(unfold is_u32; lia) ltac:(unfold is_u32; lia)
    sample_svc_file ltac:(vm_compute; reflexivity)) as (s' & Hs & _).
  exists s'. exact Hs.
Defined.
