(* ===== verification/FlashNor.v ===== *)
(** [flash/its_flash_nor.c]: the flash interface on top of a CMSIS flash driver.
    The driver is not part of the repository's own code: it is a parameter, and
    what the code relies on is the class [DriverContract]. *)

From stdpp Require Import base list numbers gmap.
From S2P Require Import Prelude Flash.

(** [ARM_DRIVER_FLASH]: each call returns a status code, negative for an error. *)
Class ArmDriverFlash (H : Type) := {
  drv_data_width : Z;  (* index, from GetCapabilities().data_width *)
  ReadData : Z -> Z -> H -> (Z * bytes) * H;
  ProgramData : Z -> bytes -> Z -> H -> Z * H;
  EraseSector : Z -> H -> Z * H;
}.

Definition ARM_DRIVER_OK : Z := 0.

Definition data_width_byte (i : Z) : Z :=
  if i =? 0 then 1 else if i =? 1 then 2 else 4.

Section Nor.
Context {H : Type} `{!ArmDriverFlash H}.

Definition data_width : Z := data_width_byte drv_data_width.

(** [ret = driver->ReadData(addr, buff, cnt); if (ret < 0) return ...;] *)
Definition read_items (addr cnt : Z) : M H bytes := fun h =>
  match ReadData addr cnt h with
  | ((ret, l), h') => if ret <? 0 then (Err PSA_ERROR_STORAGE_FAILURE, h') else (Val l, h')
  end.

Definition get_phys_address (cfg : its_flash_fs_config_t) (block_id offset : Z) : Z :=
  u32 (u32 (flash_area_addr cfg + u32 (block_id * block_size cfg)) + offset).

Definition its_flash_nor_init (cfg : its_flash_fs_config_t) : M H unit := mret tt.

(** The part before the first aligned item: what it read and how much. *)
Definition read_head (addr size : Z) : M H (bytes * Z) :=
  let aligned_addr := (addr / data_width) * data_width in
  if negb (aligned_addr =? addr) then
    temp_buffer ← read_items aligned_addr 1;
    let read_length :=
      if u32 (addr - aligned_addr + size) >=? data_width
      then data_width - (addr - aligned_addr) else size in
    mret (slice temp_buffer (Z.to_nat (addr - aligned_addr)) (Z.to_nat read_length), read_length)
  else mret ([], 0).

(** The whole items in the middle. *)
Definition read_body (addr read_length remaining_len : Z) : M H (bytes * Z) :=
  let item_number := remaining_len / data_width in
  if truth remaining_len && truth item_number then
    l ← read_items (u32 (addr + read_length)) item_number;
    mret (l, item_number * data_width)
  else mret ([], 0).

(** The bytes of the last, incomplete item. *)
Definition read_tail (addr read_length remaining_len : Z) : M H bytes :=
  if truth remaining_len then
    temp_buffer ← read_items (u32 (addr + read_length)) 1;
    mret (take (Z.to_nat remaining_len) temp_buffer)
  else mret [].

Definition flash_read_unaligned (addr size : Z) : M H bytes :=
  '(head, n1) ← read_head addr size;
  '(body, n2) ← read_body addr n1 (size - n1);
  tail ← read_tail addr (u32 (n1 + n2)) (size - n1 - n2);
  mret (head ++ body ++ tail).

Definition its_flash_nor_read (cfg : its_flash_fs_config_t) (block_id offset size : Z)
  : M H bytes :=
  if size =? 0 then mret []
  else flash_read_unaligned (get_phys_address cfg block_id offset) size.

(** [ProgramData] is given the buffer and the number of data items. *)
Definition its_flash_nor_write (cfg : its_flash_fs_config_t) (block_id : Z) (buff : bytes)
    (offset : Z) : M H unit := fun h =>
  match ProgramData (get_phys_address cfg block_id offset) buff
          (Z.of_nat (length buff) / data_width) h with
  | (err, h') => if err <? 0 then (Err PSA_ERROR_STORAGE_FAILURE, h') else (Val tt, h')
  end.

Definition its_flash_nor_flush (cfg : its_flash_fs_config_t) (block_id : Z) : M H unit :=
  mret tt.

(** One round of the erase loop at [offset]. *)
Definition erase_step (cfg : its_flash_fs_config_t) (block_id offset : Z) : M H (Z + unit) :=
  fun h =>
  if offset <? block_size cfg then
    match EraseSector (get_phys_address cfg block_id offset) h with
    | (err, h') =>
        if negb (err =? ARM_DRIVER_OK) then (Err PSA_ERROR_STORAGE_FAILURE, h')
        else (Val (inl (u32 (offset + sector_size cfg))), h')
    end
  else (Val (inr tt), h).

Definition its_flash_nor_erase (cfg : its_flash_fs_config_t) (block_id : Z) : M H unit :=
  while_loop (erase_step cfg block_id) 0.

Definition its_flash_fs_ops_nor : FlashOps H := {|
  op_init := its_flash_nor_init;
  op_read := its_flash_nor_read;
  op_write := its_flash_nor_write;
  op_flush := its_flash_nor_flush;
  op_erase := its_flash_nor_erase;
|}.

(** ** What the code relies on *)

(** The documented behaviour of a driver that works: [flash h a] is the byte at
    address [a].  [ReadData] and [ProgramData] take addresses aligned to the data
    width and a number of items; [ProgramData] stores the bytes; [EraseSector]
    sets the sector that contains the address to [ev]. *)
Class DriverContract (flash : H -> Z -> Z) (sector ev : Z) := {
  contract_read : forall h addr cnt, (data_width | addr) -> 0 <= addr -> 0 < cnt ->
    addr + cnt * data_width <= 2 ^ 32 ->
    exists ret h', ReadData addr cnt h = ((ret, flash h <$> seqZ addr (cnt * data_width)), h') /\
      0 <= ret /\ forall a, flash h' a = flash h a;
  contract_program : forall h addr l cnt, (data_width | addr) -> 0 <= addr ->
    Z.of_nat (length l) = cnt * data_width -> addr + cnt * data_width <= 2 ^ 32 ->
    exists ret h', ProgramData addr l cnt h = (ret, h') /\ 0 <= ret /\
      forall a, flash h' a = if decide (addr <= a < addr + cnt * data_width)
                             then default 0 (l !! Z.to_nat (a - addr)) else flash h a;
  contract_erase : forall h addr, (sector | addr) -> 0 <= addr -> addr + sector <= 2 ^ 32 ->
    exists h', EraseSector addr h = (ARM_DRIVER_OK, h') /\
      forall a, flash h' a = if decide (addr <= a < addr + sector) then ev else flash h a;
}.

(** [n] bytes of flash from address [a]. *)
Definition flash_bytes (flash : H -> Z -> Z) (h : H) (a n : Z) : bytes := flash h <$> seqZ a n.

Context (flash : H -> Z -> Z) (sector ev : Z) `{!DriverContract flash sector ev}.

Lemma data_width_cases : data_width = 1 \/ data_width = 2 \/ data_width = 4.
Proof. unfold data_width, data_width_byte. repeat case_match; auto. Qed.

Lemma read_items_spec h addr cnt : (data_width | addr) -> 0 <= addr -> 0 < cnt ->
  addr + cnt * data_width <= 2 ^ 32 ->
  exists h', read_items addr cnt h = (Val (flash_bytes flash h addr (cnt * data_width)), h') /\
    forall a, flash h' a = flash h a.
Proof.
  intros Ha H0 Hc Hle. destruct (contract_read h addr cnt Ha H0 Hc Hle) as (ret & h' & Hr & Hret & Hf).
  exists h'. unfold read_items. rewrite Hr. rewrite (proj2 (Z.ltb_ge _ _)) by lia. by split.
Qed.

Lemma flash_bytes_app h a n m : 0 <= n -> 0 <= m ->
  flash_bytes flash h a (n + m) = flash_bytes flash h a n ++ flash_bytes flash h (a + n) m.
Proof. intros. unfold flash_bytes. by rewrite seqZ_app, fmap_app. Qed.

Lemma flash_bytes_ext h h' a n : (forall x, flash h' x = flash h x) ->
  flash_bytes flash h' a n = flash_bytes flash h a n.
Proof. intros Hf. unfold flash_bytes. apply list_fmap_ext. auto. Qed.

Lemma length_flash_bytes h a n : length (flash_bytes flash h a n) = Z.to_nat n.
Proof. unfold flash_bytes. by rewrite length_fmap, length_seqZ. Qed.

Lemma slice_flash_bytes h a w i n : 0 <= i -> 0 <= n -> i + n <= w ->
  slice (flash_bytes flash h a w) (Z.to_nat i) (Z.to_nat n) = flash_bytes flash h (a + i) n.
Proof.
  intros Hi Hn Hle. replace w with (i + (n + (w - i - n))) by lia.
  rewrite flash_bytes_app, flash_bytes_app by lia. unfold slice.
  rewrite drop_app_length' by (by rewrite length_flash_bytes).
  by rewrite take_app_length' by (by rewrite length_flash_bytes).
Qed.

Lemma aligned_bounds addr : 0 <= addr < 2 ^ 32 ->
  let al := addr / data_width * data_width in
  (data_width | al) /\ 0 <= al <= addr /\ addr < al + data_width /\ al + data_width <= 2 ^ 32.
Proof.
  intros Ha al. split; [by exists (addr / data_width)|].
  subst al. destruct data_width_cases as [-> | [-> | ->]]; lia.
Qed.

Lemma read_head_spec h addr size :
  0 <= addr -> 0 < size -> addr + size < 2 ^ 32 ->
  exists n h', read_head addr size h = (Val (flash_bytes flash h addr n, n), h') /\
    0 <= n <= size /\ (n = size \/ (data_width | addr + n)) /\
    forall a, flash h' a = flash h a.
Proof.
  intros Ha Hs Hle. destruct (aligned_bounds addr ltac:(lia)) as (Hdiv & Hal & Hlt & Hub).
  unfold read_head. set (al := addr / data_width * data_width) in *.
  destruct (Z.eqb_spec al addr) as [->|Hne]; simpl.
  { exists 0, h. split_and!; try done; [lia|]. right. by rewrite Z.add_0_r. }
  destruct (read_items_spec h al 1 Hdiv) as (h' & Hr & Hf); [lia|lia|lia|].
  rewrite (bind_val _ _ _ _ _ Hr), Z.mul_1_l.
  rewrite u32_small by (unfold is_u32; lia).
  set (n := if _ >=? _ then _ else _).
  assert (0 <= n <= size /\ addr - al + n <= data_width /\ (n = size \/ addr + n = al + data_width))
    as (Hn & Hn' & Hn'').
  { subst n. destruct (Z.geb_spec (addr - al + size) data_width); lia. }
  exists n, h'. rewrite slice_flash_bytes by lia. replace (al + (addr - al)) with addr by lia.
  split; [done|]. split; [done|]. split; [|done].
  destruct Hn'' as [|Heq]; [by left|right]. rewrite Heq. by apply Z.divide_add_r; [|exists 1; lia].
Qed.

Lemma read_body_spec h addr n1 rem :
  0 <= addr -> 0 <= n1 -> 0 <= rem -> addr + n1 + rem < 2 ^ 32 ->
  rem = 0 \/ (data_width | addr + n1) ->
  exists n h', read_body addr n1 rem h = (Val (flash_bytes flash h (addr + n1) n, n), h') /\
    0 <= n <= rem /\ rem - n < data_width /\ (rem - n = 0 \/ (data_width | addr + n1 + n)) /\
    forall a, flash h' a = flash h a.
Proof.
  intros Ha Hn1 Hrem Hle Hal. unfold read_body.
  pose proof data_width_cases as Hw.
  assert (0 <= rem / data_width * data_width <= rem /\ rem - rem / data_width * data_width < data_width)
    as [Hq1 Hq2] by (destruct Hw as [-> | [-> | ->]]; lia).
  destruct (truth rem && truth (rem / data_width)) eqn:E.
  - apply andb_true_iff in E as [E1 E2]. apply truth_true in E1, E2.
    destruct Hal as [|Hal]; [done|].
    destruct (read_items_spec h (addr + n1) (rem / data_width) Hal) as (h' & Hr & Hf); [lia| |lia|].
    { destruct Hw as [Hw | [Hw | Hw]]; rewrite Hw in *; lia. }
    exists (rem / data_width * data_width), h'. rewrite u32_small by (unfold is_u32; lia).
    rewrite (bind_val _ _ _ _ _ Hr). split; [done|]. split; [done|]. split; [done|].
    split; [|done]. right. apply Z.divide_add_r; [done|]. by exists (rem / data_width).
  - exists 0, h. split; [done|]. apply andb_false_iff in E.
    assert (rem < data_width) as Hlt.
    { destruct E as [E|E]; apply truth_false in E; [|lia]. destruct Hw as [-> | [-> | ->]]; lia. }
    split; [lia|]. split; [lia|]. split; [|done].
    destruct Hal as [->|]; [by left|right]. by rewrite Z.add_0_r.
Qed.

Lemma read_tail_spec h addr n rem :
  0 <= addr -> 0 <= n -> 0 <= rem < data_width -> addr + n + rem < 2 ^ 32 ->
  rem = 0 \/ (data_width | addr + n) ->
  exists h', read_tail addr n rem h = (Val (flash_bytes flash h (addr + n) rem), h') /\
    forall a, flash h' a = flash h a.
Proof.
  intros Ha Hn Hrem Hle Hal. unfold read_tail. destruct (truth rem) eqn:E; cycle 1.
  { apply truth_false in E as ->. by exists h. }
  apply truth_true in E. destruct Hal as [|Hal]; [done|].
  assert (addr + n + data_width <= 2 ^ 32) as Hub.
  { destruct Hal as [q Hq]. destruct data_width_cases as [Hw | [Hw | Hw]]; rewrite Hw in *; lia. }
  destruct (read_items_spec h (addr + n) 1 Hal) as (h' & Hr & Hf); [lia|lia|lia|].
  exists h'. rewrite u32_small by (unfold is_u32; pose proof data_width_cases; lia).
  rewrite (bind_val _ _ _ _ _ Hr), Z.mul_1_l. split; [|done].
  pose proof (slice_flash_bytes h (addr + n) data_width 0 rem) as Hsl. unfold slice in Hsl.
  change (Z.to_nat 0) with 0%nat in Hsl. rewrite drop_0, Z.add_0_r in Hsl. by rewrite Hsl by lia.
Qed.

Lemma flash_read_unaligned_spec h addr size :
  0 <= addr -> 0 < size -> addr + size < 2 ^ 32 ->
  exists h', flash_read_unaligned addr size h = (Val (flash_bytes flash h addr size), h') /\
    forall a, flash h' a = flash h a.
Proof.
  intros Ha Hs Hle. unfold flash_read_unaligned.
  destruct (read_head_spec h addr size Ha Hs Hle) as (n1 & h1 & H1 & Hn1 & Hd1 & Hf1).
  rewrite (bind_val _ _ _ _ _ H1).
  destruct (read_body_spec h1 addr n1 (size - n1)) as (n2 & h2 & H2 & Hn2 & Hr2 & Hd2 & Hf2);
    [lia|lia|lia|lia|destruct Hd1; [left; lia|by right]|].
  rewrite (bind_val _ _ _ _ _ H2). rewrite (u32_small (n1 + n2)) by (unfold is_u32; lia).
  destruct (read_tail_spec h2 addr (n1 + n2) (size - n1 - n2)) as (h3 & H3 & Hf3);
    [lia|lia|lia|lia|rewrite Z.add_assoc; done|].
  exists h3. rewrite (bind_val _ _ _ _ _ H3). split; [|intros; by rewrite Hf3, Hf2, Hf1].
  rewrite (flash_bytes_ext h h1) by done.
  rewrite (flash_bytes_ext h h2) by (intros; by rewrite Hf2, Hf1).
  do 2 f_equal. replace size with (n1 + (n2 + (size - n1 - n2))) at 2 by lia.
  rewrite !flash_bytes_app by lia. by rewrite Z.add_assoc.
Qed.

(** ** Theorems *)

(** A read of the NOR flash at any address and of any length returns exactly
    the bytes stored there, whatever the data width of the driver: the leading,
    whole and trailing data items together cover the request once. *)
Theorem nor_read_exact cfg b off size h :
  0 <= b -> 0 <= off -> 0 <= size -> 0 <= flash_area_addr cfg -> 0 <= block_size cfg ->
  flash_area_addr cfg + b * block_size cfg + off + size < 2 ^ 32 ->
  exists h', its_flash_nor_read cfg b off size h =
    (Val (flash_bytes flash h (flash_area_addr cfg + b * block_size cfg + off) size), h') /\
    forall a, flash h' a = flash h a.
Proof.
  intros Hb Hoff Hs Ha Hbs Hle. unfold its_flash_nor_read.
  destruct (Z.eqb_spec size 0) as [->|]; [by exists h|].
  assert (0 <= b * block_size cfg) by nia.
  assert (get_phys_address cfg b off = flash_area_addr cfg + b * block_size cfg + off) as ->.
  { unfold get_phys_address.
    rewrite (u32_small (b * _)), (u32_small (flash_area_addr cfg + _)), u32_small by (unfold is_u32; lia). done. }
  apply flash_read_unaligned_spec; lia.
Qed.

(** C37: erasing a block on a working driver terminates and sets exactly the bytes
    of the block to the erase value, sector by sector. *)
Theorem nor_erase_exact cfg b k h :
  sector_size cfg = sector -> 0 < sector -> block_size cfg = k * sector -> 0 <= k -> 0 <= b ->
  0 <= flash_area_addr cfg -> (sector | flash_area_addr cfg) ->
  flash_area_addr cfg + (b + 1) * block_size cfg <= 2 ^ 32 - sector ->
  exists h', its_flash_nor_erase cfg b h = (Val tt, h') /\
    forall a, flash h' a =
      if decide (flash_area_addr cfg + b * block_size cfg <= a
                 < flash_area_addr cfg + (b + 1) * block_size cfg)
      then ev else flash h a.
Proof.
  intros Hsec Hpos Hbs Hk Hb Ha Hdiv Hle. set (base := flash_area_addr cfg + b * block_size cfg).
  assert (0 <= b * block_size cfg) by nia.
  unfold its_flash_nor_erase.
  destruct (while_loop_total (erase_step cfg b)
    (fun off h1 => exists j, 0 <= j <= k /\ off = j * sector /\
       forall a, flash h1 a = if decide (base <= a < base + j * sector) then ev else flash h a)
    (fun _ h1 => forall a, flash h1 a =
       if decide (base <= a < base + k * sector) then ev else flash h a)
    (fun off => block_size cfg - off)) with (x := 0) (s := h) as ([] & h' & Hrun & Hpost).
  - intros off h1 (j & Hj & -> & Hf). unfold erase_step.
    destruct (Z.ltb_spec (j * sector) (block_size cfg)) as [Hlt|Hge]; cycle 1.
    { exists (inr tt), h1. split; [done|]. assert (j = k) as -> by nia. done. }
    assert (j < k) by nia.
    assert ((j + 1) * sector <= k * sector) by nia.
    assert (get_phys_address cfg b (j * sector) = base + j * sector) as Hpa.
    { unfold get_phys_address, base. assert (0 <= j * sector) by nia.
      rewrite (u32_small (b * _)), (u32_small (flash_area_addr cfg + _)), u32_small by (unfold is_u32; lia). done. }
    destruct (contract_erase h1 (base + j * sector)) as (h2 & He & Hf2).
    { unfold base. rewrite Hbs. repeat apply Z.divide_add_r; [done| |by exists j].
      exists (b * k). lia. }
    { unfold base. nia. } { unfold base. lia. }
    exists (inl ((j + 1) * sector)), h2. rewrite Hpa, He. simpl.
    rewrite Hsec, u32_small by (unfold is_u32; nia). split; [do 3 f_equal; lia|].
    split; [|nia]. exists (j + 1). split; [lia|]. split; [done|]. intros a. rewrite Hf2, Hf.
    destruct (decide (base + j * sector <= a < base + j * sector + sector)).
    + rewrite decide_True by nia. done.
    + destruct (decide (base <= a < base + j * sector)).
      * rewrite decide_True by nia. done.
      * rewrite decide_False by nia. done.
  - exists 0. split; [lia|]. split; [lia|]. intros a. by rewrite decide_False by lia.
  - unfold base in *. lia.
  - exists h'. split; [done|]. intros a. rewrite Hpost.
    replace (flash_area_addr cfg + (b + 1) * block_size cfg) with (base + k * sector)
      by (unfold base; lia). done.
Qed.
End Nor.

(** ** A driver that meets the contract

    Flash as a function from addresses to bytes, four bytes per data item, sectors
    of 16 bytes. *)

Definition sim_flash : Type := Z -> Z.
Definition sim_sector : Z := 16.

#[export] Instance sim_driver : ArmDriverFlash sim_flash := {|
  drv_data_width := 2;
  ReadData a cnt h := ((cnt, h <$> seqZ a (cnt * 4)), h);
  ProgramData a l cnt h :=
    (cnt, fun x => if decide (a <= x < a + cnt * 4) then default 0 (l !! Z.to_nat (x - a)) else h x);
  EraseSector a h :=
    (ARM_DRIVER_OK, fun x => if decide (a <= x < a + sim_sector) then 255 else h x);
|}.

#[export] Instance sim_contract : DriverContract (H := sim_flash) (fun h => h) sim_sector 255.
Proof.
  constructor.
  - intros h a cnt Ha H0 Hc Hle. exists cnt, h. split; [done|]. split; [lia|done].
  - intros h a l cnt Ha H0 Hl Hle. eexists cnt, _. split; [done|]. split; [|done].
    change (data_width (H := sim_flash)) with 4 in Hl. lia.
  - intros h a Ha H0 Hle. eexists. split; [done|]. done.
Qed.

Definition sim_cfg : its_flash_fs_config_t := mk_fs_config 64 16 32 4 4 100 4 255.

Lemma nor_read_exact_witness :
  (its_flash_nor_read sim_cfg 1 3 10 (fun a : Z => a mod 256)).1 =
    Val [99; 100; 101; 102; 103; 104; 105; 106; 107; 108].
Proof.
  destruct (nor_read_exact (H := sim_flash) (fun h => h) sim_sector 255 sim_cfg 1 3 10
    (fun a => a mod 256)) as (h' & Hr & _); try (simpl; lia).
  refine (eq_trans (f_equal fst Hr) _). vm_compute. reflexivity.
Defined.

Lemma nor_erase_exact_witness :
  exists h' : sim_flash, its_flash_nor_erase sim_cfg 1 (fun a => a mod 256) = (Val tt, h').
Proof.
  destruct (nor_erase_exact (H := sim_flash) (fun h => h) sim_sector 255 sim_cfg 1 2
    (fun a => a mod 256)) as (h' & Hr & _); try (simpl; unfold sim_sector; lia); [|by exists h'].
  exists 4. done.
Defined.
