(* ===== verification/FlashNand.v ===== *)
(** [flash/its_flash_nand.c]: the flash interface for NAND flash, where a block is
    programmed as a whole: writes are collected in one of two block buffers until
    the block is flushed.  The CMSIS driver is the parameter of [FlashNor]. *)

From stdpp Require Import base list numbers gmap.
From S2P Require Import Prelude Flash ItsMblock FlashNor.

(** [struct its_flash_nand_dev_t], with the state of the device behind [driver]. *)
Record its_flash_nand_dev_t (H : Type) := mk_nand {
  driver : H;
  buf_block_id_0 : Z;
  buf_block_id_1 : Z;
  write_buf_0 : bytes;
  write_buf_1 : bytes;
  buf_size : Z;
}.
Arguments mk_nand {H}.
Arguments driver {H}.
Arguments buf_block_id_0 {H}.
Arguments buf_block_id_1 {H}.
Arguments write_buf_0 {H}.
Arguments write_buf_1 {H}.
Arguments buf_size {H}.

Section Nand.
Context {H : Type} `{!ArmDriverFlash H}.

Abbreviation NAND := (M (its_flash_nand_dev_t H)).

Definition set_driver (h : H) (d : its_flash_nand_dev_t H) : its_flash_nand_dev_t H :=
  mk_nand h (buf_block_id_0 d) (buf_block_id_1 d) (write_buf_0 d) (write_buf_1 d) (buf_size d).
Definition set_buf_0 (b : Z) (l : bytes) (d : its_flash_nand_dev_t H) : its_flash_nand_dev_t H :=
  mk_nand (driver d) b (buf_block_id_1 d) l (write_buf_1 d) (buf_size d).
Definition set_buf_1 (b : Z) (l : bytes) (d : its_flash_nand_dev_t H) : its_flash_nand_dev_t H :=
  mk_nand (driver d) (buf_block_id_0 d) b (write_buf_0 d) l (buf_size d).

Definition on_driver {A} (m : M H A) : NAND A := fun d =>
  match m (driver d) with (o, h) => (o, set_driver h d) end.

(** [memcpy] out of and into a buffer. *)
Definition buf_load (buf : bytes) (offset size : Z) : NAND bytes :=
  if (0 <=? offset) && (0 <=? size) && (offset + size <=? Z.of_nat (length buf))
  then mret (slice buf (Z.to_nat offset) (Z.to_nat size))
  else stop OutOfBounds.
Definition buf_store (buf : bytes) (offset : Z) (l : bytes) : NAND bytes :=
  if (0 <=? offset) && (offset + Z.of_nat (length l) <=? Z.of_nat (length buf))
  then mret (splice buf (Z.to_nat offset) l)
  else stop OutOfBounds.

Definition its_flash_nand_init (cfg : its_flash_fs_config_t) : NAND unit :=
  n ← gets buf_size;
  fail_if (n <? block_size cfg) PSA_ERROR_PROGRAMMER_ERROR.

Definition its_flash_nand_read (cfg : its_flash_fs_config_t) (block_id offset size : Z)
  : NAND bytes :=
  _ ← fail_if (block_id =? ITS_BLOCK_INVALID_ID) PSA_ERROR_PROGRAMMER_ERROR;
  d ← getS;
  if block_id =? buf_block_id_0 d then buf_load (write_buf_0 d) offset size
  else if block_id =? buf_block_id_1 d then buf_load (write_buf_1 d) offset size
  else on_driver (flash_read_unaligned (get_phys_address cfg block_id offset) size).

Definition its_flash_nand_write (cfg : its_flash_fs_config_t) (block_id : Z) (buff : bytes)
    (offset : Z) : NAND unit :=
  _ ← fail_if (block_id =? ITS_BLOCK_INVALID_ID) PSA_ERROR_PROGRAMMER_ERROR;
  d ← getS;
  if block_id =? buf_block_id_0 d then
    l ← buf_store (write_buf_0 d) offset buff;
    modifyS (set_buf_0 (buf_block_id_0 d) l)
  else if block_id =? buf_block_id_1 d then
    l ← buf_store (write_buf_1 d) offset buff;
    modifyS (set_buf_1 (buf_block_id_1 d) l)
  else if buf_block_id_0 d =? ITS_BLOCK_INVALID_ID then
    l ← buf_store (write_buf_0 d) offset buff;
    modifyS (set_buf_0 block_id l)
  else if buf_block_id_1 d =? ITS_BLOCK_INVALID_ID then
    l ← buf_store (write_buf_1 d) offset buff;
    modifyS (set_buf_1 block_id l)
  else throw PSA_ERROR_PROGRAMMER_ERROR.

(** [ProgramData] reads [block_size / data_width] items from the buffer. *)
Definition program_block (cfg : its_flash_fs_config_t) (block_id : Z) (buf : bytes) : M H unit :=
  fun h =>
  let cnt := block_size cfg / data_width in
  if cnt * data_width <=? Z.of_nat (length buf) then
    match ProgramData (get_phys_address cfg block_id 0)
            (take (Z.to_nat (cnt * data_width)) buf) cnt h with
    | (err, h') => if err <? 0 then (Err PSA_ERROR_STORAGE_FAILURE, h') else (Val tt, h')
    end
  else (Halt OutOfBounds, h).

Definition its_flash_nand_flush (cfg : its_flash_fs_config_t) (block_id : Z) : NAND unit :=
  d ← getS;
  let cleared := replicate (Z.to_nat (buf_size d)) 0 in
  if block_id =? buf_block_id_0 d then
    _ ← on_driver (program_block cfg (buf_block_id_0 d) (write_buf_0 d));
    modifyS (set_buf_0 ITS_BLOCK_INVALID_ID cleared)
  else if block_id =? buf_block_id_1 d then
    _ ← on_driver (program_block cfg (buf_block_id_1 d) (write_buf_1 d));
    modifyS (set_buf_1 ITS_BLOCK_INVALID_ID cleared)
  else throw PSA_ERROR_GENERIC_ERROR.

Definition its_flash_nand_erase (cfg : its_flash_fs_config_t) (block_id : Z) : NAND unit :=
  on_driver (while_loop (erase_step cfg block_id) 0).

Definition its_flash_fs_ops_nand : FlashOps (its_flash_nand_dev_t H) := {|
  op_init := its_flash_nand_init;
  op_read := its_flash_nand_read;
  op_write := its_flash_nand_write;
  op_flush := its_flash_nand_flush;
  op_erase := its_flash_nand_erase;
|}.

(** ** Facts *)

Context (cfg : its_flash_fs_config_t) (flash : H -> Z -> Z) (sector ev : Z).
Context `{!DriverContract flash sector ev}.

(** The area fits in the address space and blocks are whole data items. *)
Record nand_cfg_ok : Prop := {
  nand_area : 0 <= flash_area_addr cfg /\ 0 < block_size cfg /\
    flash_area_addr cfg + num_blocks cfg * block_size cfg < 2 ^ 32;
  nand_width : (data_width | block_size cfg) /\ (data_width | flash_area_addr cfg);
  nand_blocks : num_blocks cfg <= 2 ^ 16;
}.
Context (Hcfg : nand_cfg_ok).

(** The buffers have the size of a block or more, and hold different blocks. *)
Definition nand_ok (d : its_flash_nand_dev_t H) : Prop :=
  block_size cfg <= buf_size d /\
  Z.of_nat (length (write_buf_0 d)) = buf_size d /\
  Z.of_nat (length (write_buf_1 d)) = buf_size d /\
  (buf_block_id_0 d = ITS_BLOCK_INVALID_ID \/ valid_block cfg (buf_block_id_0 d) = true) /\
  (buf_block_id_1 d = ITS_BLOCK_INVALID_ID \/ valid_block cfg (buf_block_id_1 d) = true) /\
  (buf_block_id_0 d = buf_block_id_1 d -> buf_block_id_0 d = ITS_BLOCK_INVALID_ID).

(** What a block reads as. *)
Definition nand_bytes (d : its_flash_nand_dev_t H) (b off n : Z) : bytes :=
  if b =? buf_block_id_0 d then slice (write_buf_0 d) (Z.to_nat off) (Z.to_nat n)
  else if b =? buf_block_id_1 d then slice (write_buf_1 d) (Z.to_nat off) (Z.to_nat n)
  else flash_bytes flash (driver d) (flash_area_addr cfg + b * block_size cfg + off) n.

Lemma valid_block_not_invalid b : valid_block cfg b = true -> b <> ITS_BLOCK_INVALID_ID.
Proof.
  destruct Hcfg as [_ _ Hn]. rewrite valid_block_spec. unfold ITS_BLOCK_INVALID_ID. lia.
Qed.

Lemma nand_phys b off : valid_range cfg b off 0 = true ->
  get_phys_address cfg b off = flash_area_addr cfg + b * block_size cfg + off /\
  0 <= flash_area_addr cfg + b * block_size cfg /\
  flash_area_addr cfg + b * block_size cfg + block_size cfg < 2 ^ 32.
Proof.
  destruct Hcfg as [(Ha & Hbs & Hle) _ _]. rewrite valid_range_spec. intros (Hb & Ho & _ & Hob).
  assert ((b + 1) * block_size cfg <= num_blocks cfg * block_size cfg) by nia.
  assert (0 <= b * block_size cfg) by nia. split; [|lia].
  unfold get_phys_address.
  rewrite (u32_small (b * _)), (u32_small (flash_area_addr cfg + _)), u32_small by (unfold is_u32; lia).
  done.
Qed.

Lemma buf_load_ok buf off n d : 0 <= off -> 0 <= n -> off + n <= Z.of_nat (length buf) ->
  buf_load buf off n d = (Val (slice buf (Z.to_nat off) (Z.to_nat n)), d).
Proof. intros. unfold buf_load. by rewrite !(proj2 (Z.leb_le _ _)) by lia. Qed.

Lemma buf_store_ok buf off l d : 0 <= off -> off + Z.of_nat (length l) <= Z.of_nat (length buf) ->
  buf_store buf off l d = (Val (splice buf (Z.to_nat off) l), d).
Proof. intros. unfold buf_store. by rewrite !(proj2 (Z.leb_le _ _)) by lia. Qed.

Lemma slice_splice_same (l x : bytes) i : (i + length x <= length l)%nat ->
  slice (splice l i x) i (length x) = x.
Proof.
  intros Hl. apply list_eq. intros j. destruct (decide (j < length x)%nat).
  - rewrite lookup_slice, lookup_splice by lia. rewrite decide_True by lia. f_equal. lia.
  - rewrite !lookup_ge_None_2; [done|lia|]. rewrite length_slice by (rewrite length_splice; lia). lia.
Qed.

Lemma same_driver_bytes d h b off n : (forall a, flash h a = flash (driver d) a) ->
  nand_bytes (set_driver h d) b off n = nand_bytes d b off n.
Proof. intros Hf. unfold nand_bytes. simpl. by rewrite (flash_bytes_ext flash (driver d) h). Qed.

Lemma nand_read_spec d b off n : nand_ok d -> valid_range cfg b off n = true -> 0 < n ->
  exists d', its_flash_nand_read cfg b off n d = (Val (nand_bytes d b off n), d') /\
    nand_ok d' /\ forall b' off' n', nand_bytes d' b' off' n' = nand_bytes d b' off' n'.
Proof.
  intros Hok Hr Hn. pose proof (valid_block_not_invalid b (valid_range_block _ _ _ _ Hr)) as Hb.
  pose proof Hr as Hr'. rewrite valid_range_spec in Hr'. destruct Hok as (Hbs & Hl0 & Hl1 & Hok).
  unfold its_flash_nand_read. rewrite bind_fail_no by by apply Z.eqb_neq.
  rewrite bind_getS. unfold nand_bytes at 1.
  destruct (b =? buf_block_id_0 d); [|destruct (b =? buf_block_id_1 d)].
  - exists d. split; [by apply buf_load_ok; lia|done].
  - exists d. split; [by apply buf_load_ok; lia|done].
  - destruct (nand_phys b off) as (Hp & Hp0 & Hp1); [rewrite valid_range_spec; lia|].
    destruct (flash_read_unaligned_spec flash sector ev (driver d)
      (flash_area_addr cfg + b * block_size cfg + off) n) as (h' & Hrd & Hf); [lia|lia|lia|].
    exists (set_driver h' d). unfold on_driver. rewrite Hp, Hrd. split; [done|]. split; [done|].
    intros. by apply same_driver_bytes.
Qed.

Lemma valid_range_len b off (l : bytes) d : nand_ok d ->
  valid_range cfg b off (Z.of_nat (length l)) = true ->
  0 <= off /\ off + Z.of_nat (length l) <= Z.of_nat (length (write_buf_0 d)) /\
  off + Z.of_nat (length l) <= Z.of_nat (length (write_buf_1 d)).
Proof. intros (Hbs & Hl0 & Hl1 & _). rewrite valid_range_spec. lia. Qed.

(** Storing into a buffer that belongs to [b] afterwards. *)
Lemma set_buf_0_spec d b off l : nand_ok d -> valid_block cfg b = true ->
  valid_range cfg b off (Z.of_nat (length l)) = true ->
  b <> buf_block_id_1 d ->
  (buf_block_id_0 d = b \/ buf_block_id_0 d = ITS_BLOCK_INVALID_ID) ->
  let d' := set_buf_0 b (splice (write_buf_0 d) (Z.to_nat off) l) d in
  nand_ok d' /\ nand_bytes d' b off (Z.of_nat (length l)) = l /\
  forall b' o n, valid_block cfg b' = true -> b' <> b -> nand_bytes d' b' o n = nand_bytes d b' o n.
Proof.
  intros Hok Hv Hr Hne Hid d'. destruct (valid_range_len b off l d Hok Hr) as (Ho & Hb0 & _).
  destruct Hok as (Hbs & Hl0 & Hl1 & Hv0 & Hv1 & Hd). split; [|split].
  - split; [done|]. split; [simpl; rewrite length_splice by lia; done|].
    split; [done|]. split; [by right|]. split; [done|]. simpl. intros. congruence.
  - unfold nand_bytes, d'. simpl. rewrite Z.eqb_refl, Nat2Z.id. apply slice_splice_same. lia.
  - intros b' o n Hb' Hbb. unfold nand_bytes, d'. simpl.
    rewrite (proj2 (Z.eqb_neq b' b)) by done. rewrite (proj2 (Z.eqb_neq b' (buf_block_id_0 d))); [done|].
    destruct Hid as [-> | ->]; [done|]. by apply valid_block_not_invalid.
Qed.

Lemma set_buf_1_spec d b off l : nand_ok d -> valid_block cfg b = true ->
  valid_range cfg b off (Z.of_nat (length l)) = true ->
  b <> buf_block_id_0 d ->
  (buf_block_id_1 d = b \/ buf_block_id_1 d = ITS_BLOCK_INVALID_ID) ->
  let d' := set_buf_1 b (splice (write_buf_1 d) (Z.to_nat off) l) d in
  nand_ok d' /\ nand_bytes d' b off (Z.of_nat (length l)) = l /\
  forall b' o n, valid_block cfg b' = true -> b' <> b -> nand_bytes d' b' o n = nand_bytes d b' o n.
Proof.
  intros Hok Hv Hr Hne Hid d'. destruct (valid_range_len b off l d Hok Hr) as (Ho & _ & Hb1).
  destruct Hok as (Hbs & Hl0 & Hl1 & Hv0 & Hv1 & Hd). split; [|split].
  - split; [done|]. split; [done|]. split; [simpl; rewrite length_splice by lia; done|].
    split; [done|]. split; [by right|]. simpl. intros. congruence.
  - unfold nand_bytes, d'. simpl. rewrite (proj2 (Z.eqb_neq b _)) by done.
    rewrite Z.eqb_refl, Nat2Z.id. apply slice_splice_same. lia.
  - intros b' o n Hb' Hbb. unfold nand_bytes, d'. simpl.
    rewrite (proj2 (Z.eqb_neq b' b)) by done. rewrite (proj2 (Z.eqb_neq b' (buf_block_id_1 d))); [done|].
    destruct Hid as [-> | ->]; [done|]. by apply valid_block_not_invalid.
Qed.

(** Programming a block stores the buffer and touches no other block. *)
Lemma program_block_spec b buf h : valid_block cfg b = true ->
  block_size cfg <= Z.of_nat (length buf) ->
  exists h', program_block cfg b buf h = (Val tt, h') /\
    (forall o n, valid_range cfg b o n = true ->
       flash_bytes flash h' (flash_area_addr cfg + b * block_size cfg + o) n
         = slice buf (Z.to_nat o) (Z.to_nat n)) /\
    (forall b' o n, valid_range cfg b' o n = true -> b' <> b ->
       flash_bytes flash h' (flash_area_addr cfg + b' * block_size cfg + o) n
         = flash_bytes flash h (flash_area_addr cfg + b' * block_size cfg + o) n).
Proof.
  intros Hv Hlen. destruct (nand_phys b 0) as (Hp & Hp0 & Hp1).
  { rewrite valid_block_spec in Hv. apply valid_range_spec. destruct Hcfg as [(_ & ? & _) _ _]. lia. }
  rewrite Z.add_0_r in Hp. destruct Hcfg as [(Ha & Hbs & _) [Hw Hwa] _].
  assert (block_size cfg / data_width * data_width = block_size cfg) as Hcnt.
  { destruct Hw as [q Hq]. rewrite Hq. rewrite Z.div_mul; [done|]. pose proof data_width_cases. lia. }
  unfold program_block. rewrite Hcnt, (proj2 (Z.leb_le _ _)) by lia. rewrite Hp.
  destruct (contract_program h (flash_area_addr cfg + b * block_size cfg)
    (take (Z.to_nat (block_size cfg)) buf) (block_size cfg / data_width))
    as (ret & h' & Hpr & Hret & Hf).
  { apply Z.divide_add_r; [done|]. by apply Z.divide_mul_r. }
  { lia. } { rewrite length_take, Hcnt. lia. } { rewrite Hcnt. lia. }
  exists h'. rewrite Hpr, (proj2 (Z.ltb_ge _ _)) by lia. rewrite Hcnt in Hf. split; [done|].
  split.
  - intros o n Hr. rewrite valid_range_spec in Hr. apply list_eq_same_length with (Z.to_nat n).
    { by rewrite length_slice by lia. } { by rewrite length_flash_bytes. }
    intros i x y Hi Hx Hy. unfold flash_bytes in Hx.
    rewrite list_lookup_fmap, lookup_seqZ_lt in Hx by lia. injection Hx as <-.
    rewrite Hf, decide_True by lia. rewrite lookup_slice in Hy by lia.
    rewrite lookup_take_lt by lia.
    replace (Z.to_nat _) with (Z.to_nat o + i)%nat by lia. by rewrite Hy.
  - intros b' o n Hr Hne. rewrite valid_range_spec in Hr. unfold flash_bytes.
    apply list_fmap_ext. intros i a Hi. apply lookup_seqZ in Hi as [-> Hi]. rewrite Hf.
    rewrite decide_False; [done|]. intros Hin. apply Hne.
    assert (- block_size cfg < (b' - b) * block_size cfg < block_size cfg) by lia. nia.
Qed.

Lemma flush_buffer_spec (b : Z) (d d' : its_flash_nand_dev_t H) (buf : bytes) :
  valid_block cfg b = true -> block_size cfg <= Z.of_nat (length buf) ->
  (forall o n, nand_bytes d b o n = slice buf (Z.to_nat o) (Z.to_nat n)) ->
  (forall h o n, nand_bytes (set_driver h d') b o n =
     flash_bytes flash h (flash_area_addr cfg + b * block_size cfg + o) n) ->
  (forall h b' o n, b' <> b -> valid_block cfg b' = true ->
     nand_bytes (set_driver h d') b' o n = nand_bytes (set_driver h d) b' o n) ->
  exists h', program_block cfg b buf (driver d) = (Val tt, h') /\
    forall b' o n, valid_range cfg b' o n = true ->
      nand_bytes (set_driver h' d') b' o n = nand_bytes d b' o n.
Proof.
  intros Hv Hlen Hd Hd' Hoth. destruct (program_block_spec b buf (driver d) Hv Hlen)
    as (h' & Hp & Hb & Ho). exists h'. split; [done|]. intros b' o n Hr.
  destruct (decide (b' = b)) as [->|Hne].
  - by rewrite Hd', Hd, Hb.
  - rewrite Hoth by (done || by eapply valid_range_block). unfold nand_bytes. simpl.
    by rewrite Ho by done.
Qed.

(** The buffers can take a write to [b]. *)
Definition buffer_for (d : its_flash_nand_dev_t H) (b : Z) : Prop :=
  b = buf_block_id_0 d \/ b = buf_block_id_1 d \/
  buf_block_id_0 d = ITS_BLOCK_INVALID_ID \/ buf_block_id_1 d = ITS_BLOCK_INVALID_ID.

(** ** Theorems *)

(** A write to a block that has a buffer, or can get one, succeeds; a read of
    the written range then returns the written bytes although the flash has not
    been programmed, and every other block reads as before.  When both buffers
    hold other blocks the write is refused and nothing changes. *)
Theorem nand_read_your_writes d b l off : nand_ok d ->
  valid_range cfg b off (Z.of_nat (length l)) = true -> (0 < length l)%nat ->
  (buffer_for d b ->
   exists d' d'', its_flash_nand_write cfg b l off d = (Val tt, d') /\ driver d' = driver d /\
     its_flash_nand_read cfg b off (Z.of_nat (length l)) d' = (Val l, d'') /\
     forall b' o n, valid_block cfg b' = true -> b' <> b ->
       nand_bytes d'' b' o n = nand_bytes d b' o n) /\
  (~ buffer_for d b -> its_flash_nand_write cfg b l off d = (Err PSA_ERROR_PROGRAMMER_ERROR, d)).
Proof.
  intros Hok Hr Hlen. pose proof (valid_range_block _ _ _ _ Hr) as Hv.
  destruct (valid_range_len b off l d Hok Hr) as (Ho & Hb0 & Hb1).
  assert (forall d', nand_ok d' /\ nand_bytes d' b off (Z.of_nat (length l)) = l /\
    (forall b' o n, valid_block cfg b' = true -> b' <> b -> nand_bytes d' b' o n = nand_bytes d b' o n) ->
    exists d'', its_flash_nand_read cfg b off (Z.of_nat (length l)) d' = (Val l, d'') /\
      forall b' o n, valid_block cfg b' = true -> b' <> b -> nand_bytes d'' b' o n = nand_bytes d b' o n)
    as Hread.
  { intros d' (Hok' & Hl & Hoth). destruct (nand_read_spec d' b off _ Hok' Hr) as (d'' & Hrd & _ & Hsame);
      [lia|]. exists d''. rewrite Hrd, Hl. split; [done|]. intros. rewrite Hsame. by apply Hoth. }
  pose proof (valid_block_not_invalid b Hv) as Hbi.
  unfold its_flash_nand_write. rewrite bind_fail_no by by apply Z.eqb_neq.
  rewrite bind_getS. unfold buffer_for.
  destruct (Z.eqb_spec b (buf_block_id_0 d)) as [E0|E0]; [|destruct (Z.eqb_spec b (buf_block_id_1 d)) as [E1|E1];
    [|destruct (Z.eqb_spec (buf_block_id_0 d) ITS_BLOCK_INVALID_ID) as [F0|F0];
    [|destruct (Z.eqb_spec (buf_block_id_1 d) ITS_BLOCK_INVALID_ID) as [F1|F1]]]].
  all: split; [intros Hbuf|intros Hno; try (exfalso; apply Hno; tauto)].
  all: try (rewrite (bind_val _ _ _ _ _ (buf_store_ok _ off l d Ho Hb0)); unfold modifyS).
  all: try (rewrite (bind_val _ _ _ _ _ (buf_store_ok _ off l d Ho Hb1)); unfold modifyS).
  - rewrite <- E0. destruct (Hread (set_buf_0 b (splice (write_buf_0 d) (Z.to_nat off) l) d)) as (d'' & ? & ?).
    { apply set_buf_0_spec; auto. intros E. apply Hbi. rewrite E0. apply Hok. congruence. }
    eexists _, d''. by split_and!.
  - rewrite <- E1. destruct (Hread (set_buf_1 b (splice (write_buf_1 d) (Z.to_nat off) l) d)) as (d'' & ? & ?).
    { by apply set_buf_1_spec; auto. }
    eexists _, d''. by split_and!.
  - destruct (Hread (set_buf_0 b (splice (write_buf_0 d) (Z.to_nat off) l) d)) as (d'' & ? & ?).
    { by apply set_buf_0_spec; auto. }
    eexists _, d''. by split_and!.
  - destruct (Hread (set_buf_1 b (splice (write_buf_1 d) (Z.to_nat off) l) d)) as (d'' & ? & ?).
    { by apply set_buf_1_spec; auto. }
    eexists _, d''. by split_and!.
  - tauto.
  - done.
Qed.

(** Flushing a buffered block succeeds, frees its buffer and is invisible to
    reads: every byte of every block reads the same before and after, the flushed
    block now from the flash.  Flushing a block without a buffer is refused. *)
Theorem nand_flush_transparent d b : nand_ok d -> valid_block cfg b = true ->
  (b = buf_block_id_0 d \/ b = buf_block_id_1 d ->
   exists d', its_flash_nand_flush cfg b d = (Val tt, d') /\ nand_ok d' /\
     b <> buf_block_id_0 d' /\ b <> buf_block_id_1 d' /\
     forall b' o n, valid_range cfg b' o n = true -> nand_bytes d' b' o n = nand_bytes d b' o n) /\
  (b <> buf_block_id_0 d -> b <> buf_block_id_1 d ->
   its_flash_nand_flush cfg b d = (Err PSA_ERROR_GENERIC_ERROR, d)).
Proof.
  intros (Hbs & Hl0 & Hl1 & Hv0 & Hv1 & Hne) Hv. pose proof (valid_block_not_invalid b Hv) as Hbi.
  assert (0 <= buf_size d) as Hpos by lia.
  unfold its_flash_nand_flush. rewrite bind_getS.
  set (z := replicate (Z.to_nat (buf_size d)) 0).
  assert (Z.of_nat (length z) = buf_size d) as Hz by (unfold z; rewrite length_replicate; lia).
  destruct (Z.eqb_spec b (buf_block_id_0 d)) as [E0|E0]; [|destruct (Z.eqb_spec b (buf_block_id_1 d)) as [E1|E1]].
  all: split; [intros Hbuf|intros; try done].
  - assert (b <> buf_block_id_1 d) as E1 by (intros E; apply Hbi; rewrite E0; apply Hne; congruence).
    destruct (flush_buffer_spec b d (set_buf_0 ITS_BLOCK_INVALID_ID z d) (write_buf_0 d))
      as (h' & Hp & Hsame); [done|lia| | | |].
    + intros. unfold nand_bytes. by rewrite (proj2 (Z.eqb_eq b _)).
    + intros. unfold nand_bytes. simpl. by rewrite !(proj2 (Z.eqb_neq b _)).
    + intros h b' o n Hb' Hvb. unfold nand_bytes. simpl. rewrite <- E0.
      rewrite (proj2 (Z.eqb_neq b' b)) by done.
      by rewrite (proj2 (Z.eqb_neq b' ITS_BLOCK_INVALID_ID)) by by apply valid_block_not_invalid.
    + exists (set_driver h' (set_buf_0 ITS_BLOCK_INVALID_ID z d)). rewrite <- E0.
      unfold on_driver, mbind, M_bind. rewrite Hp. split; [done|].
      split; [|by split]. split; [done|]. split; [done|]. split; [done|]. split; [by left|]. by split.
  - destruct (flush_buffer_spec b d (set_buf_1 ITS_BLOCK_INVALID_ID z d) (write_buf_1 d))
      as (h' & Hp & Hsame); [done|lia| | | |].
    + intros. unfold nand_bytes. rewrite (proj2 (Z.eqb_neq b _)) by done. by rewrite (proj2 (Z.eqb_eq b _)).
    + intros. unfold nand_bytes. simpl. by rewrite !(proj2 (Z.eqb_neq b _)).
    + intros h b' o n Hb' Hvb. unfold nand_bytes. simpl. rewrite <- E1.
      rewrite (proj2 (Z.eqb_neq b' b)) by done.
      by rewrite (proj2 (Z.eqb_neq b' ITS_BLOCK_INVALID_ID)) by by apply valid_block_not_invalid.
    + exists (set_driver h' (set_buf_1 ITS_BLOCK_INVALID_ID z d)). rewrite <- E1.
      unfold on_driver, mbind, M_bind. rewrite Hp. split; [done|].
      split; [|by split]. split; [done|]. split; [done|]. split; [done|]. split; [done|].
      split; [by left|]. done.
  - exfalso. tauto.
Qed.
End Nand.

(** A device on the simulated driver with both buffers free. *)
Definition sim_nand : its_flash_nand_dev_t sim_flash :=
  mk_nand (fun a => a mod 256) ITS_BLOCK_INVALID_ID ITS_BLOCK_INVALID_ID
    (replicate 32 0) (replicate 32 0) 32.
Definition sim_nand_full : its_flash_nand_dev_t sim_flash :=
  mk_nand (fun a => a mod 256) 2 3 (replicate 32 5) (replicate 32 6) 32.

Lemma sim_nand_cfg_ok : nand_cfg_ok (H := sim_flash) sim_cfg.
Proof.
  constructor; simpl; [lia| |lia]. split; [by exists 8|by exists 16].
Qed.

Lemma nand_read_your_writes_witness :
  exists d', its_flash_nand_write sim_cfg 1 [7; 8] 3 sim_nand = (Val tt, d').
Proof.
  destruct (nand_read_your_writes sim_cfg (fun h => h) sim_sector 255 sim_nand_cfg_ok
    sim_nand 1 [7; 8] 3) as [Hw _].
  - split; [done|]. split; [done|]. split; [done|]. split; [by left|]. split; [by left|]. done.
  - done.
  - simpl. lia.
  - destruct Hw as (d' & d'' & Hw & _); [right; right; by left|]. exists d'. exact Hw.
Defined.

Lemma nand_flush_transparent_witness :
  exists d', its_flash_nand_flush sim_cfg 3 sim_nand_full = (Val tt, d').
Proof.
  destruct (nand_flush_transparent sim_cfg (fun h => h) sim_sector 255 sim_nand_cfg_ok
    sim_nand_full 3) as [Hf _].
  - split; [done|]. split; [done|]. split; [done|]. split; [by right|]. split; [by right|]. done.
  - done.
  - destruct Hf as (d' & Hf & _); [by right|]. exists d'. exact Hf.
Defined.
