(* ===== verification/SpmPool.v ===== *)
(** The SPM's chunk pool and the connection pool built on it.

    [secure_fw/spm/include/lists.h] (the [UNI_LIST_*] macros),
    [secure_fw/spm/core/tfm_pools.c] and
    [secure_fw/spm/core/spm_connection_pool.c].

    The pool is modelled in the memory it lives in: a map from word addresses to
    32-bit words in which the free list is threaded through the chunks.  An
    access to an address that is not mapped is [Halt OutOfBounds].  The abstract
    state is the list of the indices of the free chunks; [pool_inv] ties the two
    together, and each operation is shown to do to the list what a pool should
    do.  [debug] says whether assertions are compiled in. *)

From stdpp Require Import base list numbers gmap.
From S2P Require Import Prelude.

(** ** Word memory *)

Abbreviation mem := (gmap Z Z).

Definition NULL : Z := 0.

Definition load (a : Z) : M mem Z := fun m =>
  match m !! a with
  | Some w => (Val w, m)
  | None => (Halt OutOfBounds, m)
  end.

Definition store (a w : Z) : M mem unit := fun m =>
  match m !! a with
  | Some _ => (Val tt, <[a := w]> m)
  | None => (Halt OutOfBounds, m)
  end.

(** [assert(b)], compiled in debug builds only. *)
Definition c_assert {S} (debug : bool) (m : M S bool) : M S unit :=
  if debug then b ← m; assert_that b else mret tt.

(** [spm_memset] on whole words; the memory has no smaller unit. *)
Definition spm_memset (p c n : Z) : M mem unit :=
  if n mod 4 =? 0 then
    fold_range 0 (n / 4) tt (fun i _ => store (p + 4 * i) (c * 0x01010101))
  else stop OutOfBounds.

(** ** The list macros; [link] is the offset of the link field *)

Definition UNI_LIST_INIT_NODE (head link : Z) : M mem unit :=
  if head =? NULL then mret tt else store (head + link) NULL.

Definition UNI_LIST_INSERT_AFTER (posi node link : Z) : M mem unit :=
  if (posi =? NULL) || (node =? NULL) then mret tt
  else
    n ← load (posi + link);
    _ ← store (node + link) n;
    store (posi + link) node.

Definition UNI_LIST_IS_EMPTY (node link : Z) : M mem bool :=
  if node =? NULL then mret true
  else n ← load (node + link); mret (n =? NULL).

Definition UNI_LIST_NEXT_NODE (node link : Z) : M mem Z :=
  if node =? NULL then mret NULL else load (node + link).

Definition UNI_LIST_REMOVE_NODE (prev node link : Z) : M mem unit :=
  if (prev =? NULL) || (node =? NULL) then mret tt
  else
    n ← load (node + link);
    _ ← store (prev + link) n;
    store (node + link) NULL.

(** ** tfm_pools.c *)

Definition POOL_MAGIC_ALLOCATED : Z := 0xF0F0CCAA.

Definition SPM_ERROR_BAD_PARAMETERS : Z := -249.
Definition SPM_ERROR_SHORT_BUFFER : Z := -250.
Definition SPM_ERROR_VERSION : Z := -251.
Definition SPM_ERROR_MEMORY_CHECK : Z := -252.
Definition SPM_ERROR_GENERIC : Z := -253.

(** The layout of [struct tfm_pool_chunk_t]. *)
Module pool_chunk.
Definition next : Z := 0.
Definition magic : Z := 4.
Definition data : Z := 8.
Definition size : Z := 8.
End pool_chunk.

(** The layout of [struct tfm_pool_instance_t]. *)
Module pool_instance.
Definition next : Z := 0.
Definition chunksz : Z := 4.
Definition pool_sz : Z := 8.
Definition chunks : Z := 12.
Definition size : Z := 12.
End pool_instance.

Definition POOL_BUFFER_SIZE (chunksz num : Z) : Z :=
  u32 ((chunksz + pool_chunk.size) * num + pool_instance.size).

Definition tfm_pool_init (pool poolsz chunksz num : Z) : M mem unit :=
  _ ← fail_if ((pool =? NULL) || (num =? 0)) SPM_ERROR_BAD_PARAMETERS;
  _ ← fail_if (negb (poolsz =? u32 ((chunksz + pool_chunk.size) * num + pool_instance.size)))
        SPM_ERROR_BAD_PARAMETERS;
  _ ← spm_memset pool 0 poolsz;
  _ ← UNI_LIST_INIT_NODE pool pool_instance.next;
  _ ← fold_range 0 num (pool + pool_instance.chunks) (fun _ pchunk =>
        _ ← UNI_LIST_INSERT_AFTER pool pchunk pool_instance.next;
        mret (u32 (pchunk + pool_chunk.data + chunksz)));
  _ ← store (pool + pool_instance.chunksz) chunksz;
  store (pool + pool_instance.pool_sz) poolsz.

Definition is_valid_chunk_data_in_pool (pool data : Z) : M mem bool :=
  if pool =? NULL then mret false
  else
    let chunks_start := pool + pool_instance.chunks in
    let chunks_offset := u32 (data - chunks_start) in
    if data <? chunks_start then mret false
    else
      pool_sz ← load (pool + pool_instance.pool_sz);
      if pool_sz <=? chunks_offset then mret false
      else
        chunksz ← load (pool + pool_instance.chunksz);
        if negb (chunks_offset mod u32 (chunksz + pool_chunk.size) =? pool_chunk.data)
        then mret false
        else
          magic ← load (data - pool_chunk.data + pool_chunk.magic);
          mret (magic =? POOL_MAGIC_ALLOCATED).

Definition tfm_pool_alloc (debug : bool) (pool : Z) : M mem Z :=
  _ ← c_assert debug (mret (negb (pool =? NULL)));
  e ← UNI_LIST_IS_EMPTY pool pool_instance.next;
  if (e : bool) then mret NULL
  else
    node ← UNI_LIST_NEXT_NODE pool pool_instance.next;
    _ ← c_assert debug (mret (negb (node =? NULL)));
    _ ← UNI_LIST_REMOVE_NODE pool node pool_instance.next;
    _ ← c_assert debug (magic ← load (node + pool_chunk.magic);
                        mret (negb (magic =? POOL_MAGIC_ALLOCATED)));
    _ ← store (node + pool_chunk.magic) POOL_MAGIC_ALLOCATED;
    mret (node + pool_chunk.data).

Definition tfm_pool_free (debug : bool) (pool ptr : Z) : M mem unit :=
  _ ← c_assert debug (is_valid_chunk_data_in_pool pool ptr);
  let pchunk := ptr - pool_chunk.data in
  _ ← store (pchunk + pool_chunk.magic) 0;
  _ ← UNI_LIST_INSERT_AFTER pool pchunk pool_instance.next;
  if debug then
    chunksz ← load (pool + pool_instance.chunksz);
    spm_memset (pchunk + pool_chunk.data) 0xFF chunksz
  else mret tt.

(** ** spm_connection_pool.c *)

Definition CONVERSION_FACTOR_BITOFFSET : Z := 3.
Definition CONVERSION_FACTOR_VALUE : Z := Z.shiftl 1 CONVERSION_FACTOR_BITOFFSET.
Definition CLIENT_HANDLE_VALUE_MIN : Z := 1.
Definition PSA_NULL_HANDLE : Z := 0.

(** The file's two static objects: the memory that holds [connection_pool] and
    the [loop_index] counter. *)
Record conn_space := {
  pool_mem : mem;
  loop_index : Z;
}.

Definition on_pool {A} (m : M mem A) : M conn_space A := fun s =>
  let '(r, m') := m s.(pool_mem) in
  (r, {| pool_mem := m'; loop_index := s.(loop_index) |}).

Definition set_loop_index (i : Z) (s : conn_space) : conn_space :=
  {| pool_mem := s.(pool_mem); loop_index := i |}.

Section ConnectionPool.
(** The address of [connection_pool_pool_buf], [sizeof(struct connection_t)] and
    the build option for the number of connections. *)
Context (debug : bool) (connection_pool sizeof_connection CONFIG_TFM_CONN_HANDLE_MAX_NUM : Z).

Definition spm_init_connection_space : M conn_space unit :=
  r ← attempt (on_pool (tfm_pool_init connection_pool
                 (POOL_BUFFER_SIZE sizeof_connection CONFIG_TFM_CONN_HANDLE_MAX_NUM)
                 sizeof_connection CONFIG_TFM_CONN_HANDLE_MAX_NUM));
  match r with
  | inl _ => stop CorePanic
  | inr _ => mret tt
  end.

Definition spm_allocate_connection : M conn_space Z :=
  on_pool (tfm_pool_alloc debug connection_pool).

Definition spm_validate_connection (p_connection : Z) : M conn_space unit :=
  b ← on_pool (is_valid_chunk_data_in_pool connection_pool p_connection);
  fail_if (negb b) SPM_ERROR_GENERIC.

Definition spm_free_connection (p_connection : Z) : M conn_space unit :=
  _ ← c_assert debug (mret (negb (p_connection =? NULL)));
  on_pool (tfm_pool_free debug connection_pool p_connection).

(** [psa_handle_t] is [int32_t]. *)
Definition connection_to_handle (p_connection : Z) : M conn_space Z :=
  _ ← c_assert debug (on_pool (is_valid_chunk_data_in_pool connection_pool p_connection));
  i ← gets loop_index;
  let i' := u32 (i + 1) mod CONVERSION_FACTOR_VALUE in
  _ ← modifyS (set_loop_index i');
  mret (s32 (u32 (Z.shiftl (u32 (p_connection - connection_pool)) CONVERSION_FACTOR_BITOFFSET
                  + CLIENT_HANDLE_VALUE_MIN + i'))).

Definition handle_to_connection (handle : Z) : M conn_space Z :=
  if handle =? PSA_NULL_HANDLE then mret NULL
  else
    let p_connection :=
      u32 (Z.shiftr (u32 (handle - CLIENT_HANDLE_VALUE_MIN)) CONVERSION_FACTOR_BITOFFSET
           + connection_pool) in
    _ ← c_assert debug (on_pool (is_valid_chunk_data_in_pool connection_pool p_connection));
    mret p_connection.
End ConnectionPool.

(** ** Memory: facts *)

Lemma bind_load {A} a w (k : Z -> M mem A) m :
  m !! a = Some w -> (x ← load a; k x) m = k w m.
Proof. intros H. unfold mbind, M_bind, load. by rewrite H. Qed.

Lemma store_ok a w m : is_Some (m !! a) -> store a w m = (Val tt, <[a := w]> m).
Proof. intros [v H]. unfold store. by rewrite H. Qed.

Lemma bind_store {A} a w (k : unit -> M mem A) m :
  is_Some (m !! a) -> (x ← store a w; k x) m = k tt (<[a := w]> m).
Proof. intros H. by rewrite (bind_val _ _ _ _ _ (store_ok a w m H)). Qed.

Lemma c_assert_true {S} debug (m : M S bool) s :
  m s = (Val true, s) -> c_assert debug m s = (Val tt, s).
Proof. intros H. destruct debug; [|done]. cbn. by rewrite (bind_val _ _ _ _ _ H). Qed.

Lemma bind_c_assert {S A} debug (m : M S bool) (k : unit -> M S A) s :
  m s = (Val true, s) -> (x ← c_assert debug m; k x) s = k tt s.
Proof. intros H. by rewrite (bind_val _ _ _ _ _ (c_assert_true debug m s H)). Qed.

#[export] Instance in_words_dec p n a : Decision (exists i, 0 <= i < n / 4 /\ a = p + 4 * i).
Proof.
  destruct (decide ((a - p) mod 4 = 0 /\ 0 <= (a - p) / 4 < n / 4)) as [H|H];
    [left|right].
  - exists ((a - p) / 4). lia.
  - intros (i & Hi & ->). apply H.
    replace (p + 4 * i - p) with (i * 4) by lia.
    rewrite Z.mod_mul, Z.div_mul by lia. lia.
Defined.

(** What [spm_memset] leaves behind. *)
Definition filled (p n w : Z) (m m' : mem) : Prop :=
  forall a, m' !! a =
    if decide (exists i, 0 <= i < n / 4 /\ a = p + 4 * i) then Some w else m !! a.

Lemma spm_memset_ok p c n m :
  n mod 4 = 0 -> (forall i, 0 <= i < n / 4 -> is_Some (m !! (p + 4 * i))) ->
  exists m', spm_memset p c n m = (Val tt, m') /\ filled p n (c * 0x01010101) m m'.
Proof.
  intros Hn Hm. unfold spm_memset. rewrite Hn. cbn [Z.eqb].
  assert (forall k lo m, 0 <= lo -> Z.to_nat (n / 4 - lo) = k ->
    (forall i, lo <= i < n / 4 -> is_Some (m !! (p + 4 * i))) ->
    exists m', fold_range lo (n / 4) tt (fun i _ => store (p + 4 * i) (c * 0x01010101)) m
                 = (Val tt, m') /\
      forall a, ((forall i, lo <= i < n / 4 -> a <> p + 4 * i) -> m' !! a = m !! a) /\
                (forall i, lo <= i < n / 4 -> a = p + 4 * i -> m' !! a = Some (c * 0x01010101)))
    as Hloop.
  { clear. induction k as [|k IH]; intros lo m Hlo Hk Hm.
    - exists m. rewrite fold_range_nil by lia. split; [done|]. intros a.
      split; [done|]. intros; lia.
    - rewrite fold_range_step by lia. rewrite bind_store by (apply Hm; lia).
      destruct (IH (lo + 1) (<[p + 4 * lo := c * 0x01010101]> m)) as (m' & Hrun & Hm');
        [lia|lia| |].
      { intros i Hi. rewrite lookup_insert_ne by lia. apply Hm. lia. }
      exists m'. split; [done|]. intros a. destruct (Hm' a) as [Ho Hi]. split.
      + intros Hne. rewrite Ho by (intros; apply Hne; lia).
        apply lookup_insert_ne. intros <-. apply (Hne lo); lia.
      + intros i Hi' ->. destruct (decide (i = lo)) as [->|]; [|by apply (Hi i); lia].
        rewrite Ho by lia. apply lookup_insert_eq. }
  destruct (Hloop _ 0 m ltac:(lia) eq_refl Hm) as (m' & Hrun & Hm').
  exists m'. split; [done|]. intros a. destruct (Hm' a) as [Ho Hi]. case_decide as Hd.
  - destruct Hd as (i & Hr & Ha). by apply (Hi i).
  - apply Ho. intros i Hr Ha. apply Hd. eauto.
Qed.

(** ** The pool invariant *)

(** A list of nodes threaded through their link fields (at offset 0), starting
    from the field at [a] and ended by a null pointer. *)
Fixpoint chain (m : mem) (a : Z) (l : list Z) : Prop :=
  match l with
  | [] => m !! a = Some NULL
  | p :: l' => m !! a = Some p /\ p <> NULL /\ chain m p l'
  end.

Lemma chain_frame m m' a l :
  (forall b, b = a \/ b ∈ l -> m' !! b = m !! b) -> chain m a l -> chain m' a l.
Proof.
  revert a. induction l as [|p l IH]; intros a Heq; cbn.
  - rewrite Heq by auto. done.
  - rewrite Heq by auto. intros (? & ? & Hc). split_and!; [done..|].
    apply IH; [|done]. intros b Hb. apply Heq. right. set_solver.
Qed.

Section PoolInvariant.
(** The geometry [TFM_POOL_DECLARE] fixes for a pool. *)
Context (pool chunksz num : Z).

Definition pool_size : Z := (chunksz + 8) * num + 12.

Record pool_geometry : Prop := {
  geo_pool : 0 < pool;
  geo_chunksz : 0 < chunksz /\ chunksz mod 4 = 0;
  geo_num : 0 < num;
  geo_fits : pool + pool_size + 8 < 2 ^ 32;
}.

(** The address of chunk [i]; [tfm_pool_alloc] returns [chunk_data i]. *)
Definition chunk_at (i : Z) : Z := pool + 12 + i * (chunksz + 8).
Definition chunk_data (i : Z) : Z := chunk_at i + 8.

Record pool_inv (m : mem) (free : list Z) : Prop := {
  pi_chain : chain m pool (chunk_at <$> free);
  pi_chunksz : m !! (pool + 4) = Some chunksz;
  pi_pool_sz : m !! (pool + 8) = Some pool_size;
  pi_nodup : NoDup free;
  pi_range : Forall (fun i => 0 <= i < num) free;
  pi_next : forall i, 0 <= i < num -> is_Some (m !! chunk_at i);
  pi_magic : forall i, 0 <= i < num -> exists w, m !! (chunk_at i + 4) = Some w /\
    (w = POOL_MAGIC_ALLOCATED <-> i ∉ free);
  pi_data : forall i j, 0 <= i < num -> 0 <= j < chunksz / 4 ->
    is_Some (m !! (chunk_data i + 4 * j));
}.

Context (Hgeo : pool_geometry).

Lemma chunk_gap i j : 0 <= i -> i < j -> chunk_at i + 8 + chunksz <= chunk_at j.
Proof. destruct Hgeo. unfold chunk_at. nia. Qed.

Lemma chunk_inj i j : 0 <= i -> 0 <= j -> chunk_at i = chunk_at j -> i = j.
Proof.
  intros Hi Hj H. destruct Hgeo. destruct (decide (i < j)); [pose proof (chunk_gap i j); lia|].
  destruct (decide (j < i)); [pose proof (chunk_gap j i); lia|lia].
Qed.

Lemma chunk_range i : 0 <= i < num ->
  pool + 12 <= chunk_at i /\ chunk_at i + 8 + chunksz <= pool + pool_size.
Proof.
  intros. destruct Hgeo. unfold pool_size. split; [unfold chunk_at; nia|].
  pose proof (chunk_gap i num). unfold chunk_at in *. nia.
Qed.

(** A header word of one chunk is no other pool word. *)
Lemma chunk_sep i j o o' : 0 <= i -> 0 <= j -> 0 <= o < chunksz + 8 -> 0 <= o' < chunksz + 8 ->
  chunk_at i + o = chunk_at j + o' -> i = j /\ o = o'.
Proof.
  intros Hi Hj Ho Ho' H. destruct (decide (i < j)); [pose proof (chunk_gap i j); lia|].
  destruct (decide (j < i)); [pose proof (chunk_gap j i); lia|].
  assert (i = j) by lia. subst. lia.
Qed.

Lemma elem_of_chunks b (l : list Z) : b ∈ chunk_at <$> l <-> exists i, b = chunk_at i /\ i ∈ l.
Proof. apply list_elem_of_fmap. Qed.

(** Words that no operation of the pool reads can change freely: the contents of
    the chunks belong to whoever allocated them. *)
Lemma pool_inv_frame m m' free :
  pool_inv m free ->
  (forall a, a = pool \/ a = pool + 4 \/ a = pool + 8 -> m' !! a = m !! a) ->
  (forall i, 0 <= i < num -> m' !! chunk_at i = m !! chunk_at i /\
                             m' !! (chunk_at i + 4) = m !! (chunk_at i + 4)) ->
  (forall a, is_Some (m !! a) -> is_Some (m' !! a)) ->
  pool_inv m' free.
Proof.
  intros [] Hp Hc Hs. split; rewrite ?Hp by auto; try done.
  - eapply chain_frame; [|done]. intros b [->|Hb]; [apply Hp; auto|].
    apply elem_of_chunks in Hb as (i & -> & Hi). rewrite Forall_forall in pi_range0.
    by apply Hc, pi_range0.
  - intros i Hi. by apply Hs, pi_next0.
  - intros i Hi. destruct (Hc i Hi) as [_ ->]. by apply pi_magic0.
  - intros i j Hi Hj. by apply Hs, pi_data0.
Qed.

(** *** An update of the header of one chunk and of the list head *)

Definition relink (h i n w : Z) (m : mem) : mem :=
  <[chunk_at i + 4 := w]> (<[chunk_at i := n]> (<[pool := h]> m)).

Lemma relink_pool h i n w m : 0 <= i < num -> relink h i n w m !! pool = Some h.
Proof.
  intros Hi. destruct (chunk_range i Hi). unfold relink.
  rewrite !lookup_insert_ne by lia. apply lookup_insert_eq.
Qed.

Lemma relink_self h i n w m : 0 <= i < num ->
  relink h i n w m !! chunk_at i = Some n /\ relink h i n w m !! (chunk_at i + 4) = Some w.
Proof.
  intros Hi. unfold relink. rewrite lookup_insert_eq, lookup_insert_ne, lookup_insert_eq by lia.
  done.
Qed.

Lemma relink_other h i n w m k o : 0 <= i < num -> 0 <= k < num -> k <> i ->
  0 <= o < chunksz + 8 -> relink h i n w m !! (chunk_at k + o) = m !! (chunk_at k + o).
Proof.
  intros Hi Hk Hki Ho. destruct (chunk_range k Hk). destruct Hgeo. unfold relink.
  rewrite !lookup_insert_ne; [done|lia|..]; intros E; apply Hki.
  - destruct (chunk_sep i k 0 o); lia.
  - destruct (chunk_sep i k 4 o); lia.
Qed.

Lemma relink_static h i n w m a : 0 <= i < num -> a = pool + 4 \/ a = pool + 8 ->
  relink h i n w m !! a = m !! a.
Proof.
  intros Hi Ha. destruct (chunk_range i Hi). unfold relink. rewrite !lookup_insert_ne by lia. done.
Qed.

Lemma relink_chain h i n w m k l : 0 <= i < num ->
  Forall (fun j => 0 <= j < num) (k :: l) -> i ∉ k :: l ->
  chain m (chunk_at k) (chunk_at <$> l) -> chain (relink h i n w m) (chunk_at k) (chunk_at <$> l).
Proof.
  intros Hi Hr Hni. apply chain_frame. intros b Hb.
  assert (exists j, b = chunk_at j /\ j ∈ k :: l) as (j & -> & Hj).
  { destruct Hb as [->|Hb]; [exists k; set_solver|].
    apply elem_of_chunks in Hb as (j & ? & ?). exists j. set_solver. }
  rewrite Forall_forall in Hr. specialize (Hr j Hj). destruct Hgeo.
  rewrite <- (Z.add_0_r (chunk_at j)). apply relink_other; [done|done|set_solver|lia].
Qed.

Lemma pool_inv_relink h i n w m free free' :
  pool_inv m free -> 0 <= i < num ->
  chain (relink h i n w m) pool (chunk_at <$> free') ->
  NoDup free' -> Forall (fun j => 0 <= j < num) free' ->
  (forall k, k <> i -> k ∈ free' <-> k ∈ free) ->
  (w = POOL_MAGIC_ALLOCATED <-> i ∉ free') ->
  pool_inv (relink h i n w m) free'.
Proof.
  intros [] Hi Hc Hnd Hr Hk Hw. destruct Hgeo. split; try done.
  - rewrite relink_static by auto. done.
  - rewrite relink_static by auto. done.
  - intros k Hkr. unfold relink. rewrite !lookup_insert_is_Some'. auto.
  - intros k Hkr. destruct (decide (k = i)) as [->|Hki].
    + exists w. split; [by apply relink_self|done].
    + destruct (pi_magic0 k Hkr) as (v & Hv & Hvm). exists v.
      rewrite relink_other by (done || lia). split; [done|]. by rewrite Hvm, Hk.
  - intros k j Hkr Hj. unfold relink. rewrite !lookup_insert_is_Some'. auto.
Qed.

(** *** Allocation *)

Lemma tfm_pool_alloc_empty debug m :
  pool_inv m [] -> tfm_pool_alloc debug pool m = (Val NULL, m).
Proof.
  intros [Hc _ _ _ _ _ _ _]. destruct Hgeo. cbn in Hc. unfold tfm_pool_alloc.
  rewrite bind_c_assert by (unfold mret, M_ret; repeat f_equal; unfold NULL; lia).
  unfold UNI_LIST_IS_EMPTY. destruct (Z.eqb_spec pool NULL) as [?|_]; [unfold NULL in *; lia|].
  rewrite Z.add_0_r. erewrite bind_val; [|erewrite bind_load by exact Hc; reflexivity]. done.
Qed.

Lemma tfm_pool_alloc_run debug m i n w :
  0 <= i < num ->
  m !! pool = Some (chunk_at i) -> m !! chunk_at i = Some n -> m !! (chunk_at i + 4) = Some w ->
  w <> POOL_MAGIC_ALLOCATED ->
  tfm_pool_alloc debug pool m = (Val (chunk_data i), relink n i NULL POOL_MAGIC_ALLOCATED m).
Proof.
  intros Hi Hhd Hn Hw Hwn. destruct (chunk_range i Hi) as [Hlo Hhi]. destruct Hgeo.
  unfold tfm_pool_alloc, UNI_LIST_IS_EMPTY, UNI_LIST_NEXT_NODE, UNI_LIST_REMOVE_NODE,
    pool_instance.next, pool_chunk.magic, pool_chunk.data, NULL in *.
  rewrite bind_c_assert by (unfold mret, M_ret; repeat f_equal; lia).
  destruct (Z.eqb_spec pool 0) as [?|_]; [lia|]. rewrite !Z.add_0_r.
  erewrite bind_val; [|erewrite bind_load by exact Hhd; reflexivity].
  destruct (Z.eqb_spec (chunk_at i) 0) as [?|_]; [lia|].
  rewrite (bind_load _ _ _ _ Hhd). cbn [orb].
  rewrite bind_c_assert by (unfold mret, M_ret; repeat f_equal; lia).
  erewrite bind_val; last first.
  { destruct (Z.eqb_spec (chunk_at i) 0) as [?|_]; [lia|]. rewrite !Z.add_0_r. erewrite bind_load by exact Hn.
    rewrite bind_store by done. apply store_ok. rewrite lookup_insert_ne by lia. done. }
  rewrite bind_c_assert; last first.
  { erewrite bind_load by (rewrite !lookup_insert_ne by lia; exact Hw).
    unfold mret, M_ret. repeat f_equal. lia. }
  rewrite bind_store by (rewrite !lookup_insert_ne by lia; done). done.
Qed.

Lemma tfm_pool_alloc_cons debug m i free :
  pool_inv m (i :: free) ->
  exists m', tfm_pool_alloc debug pool m = (Val (chunk_data i), m') /\ pool_inv m' free.
Proof.
  intros Hinv. pose proof Hinv as [(Hhd & Hnz & Htl) Hcs Hps Hnd Hr Hnx Hmg Hdt].
  rewrite Forall_cons in Hr. destruct Hr as [Hi Hr]. rewrite NoDup_cons in Hnd.
  destruct Hnd as [Hni Hnd]. destruct (Hmg i Hi) as (w & Hw & Hwm).
  assert (w <> POOL_MAGIC_ALLOCATED) as Hwn by (intros E; apply Hwm in E; set_solver).
  set (n := match chunk_at <$> free with [] => NULL | p :: _ => p end).
  assert (m !! chunk_at i = Some n) as Hn by (subst n; destruct free; cbn in *; tauto).
  exists (relink n i NULL POOL_MAGIC_ALLOCATED m).
  split; [by apply (tfm_pool_alloc_run _ _ _ _ w)|].
  apply (pool_inv_relink _ _ _ _ _ (i :: free)); try done; [|set_solver].
  subst n. destruct free as [|j free]; cbn in *; rewrite relink_pool by done; [done|].
  split_and!; [done|tauto|]. apply relink_chain; tauto.
Qed.

(** *** Validation *)

(** Every pointer but one is classified exactly; the pointer just past the last
    chunk makes the code look beyond the buffer. *)
Lemma is_valid_chunk_spec m free d :
  pool_inv m free -> is_u32 d -> d <> chunk_data num ->
  exists b, is_valid_chunk_data_in_pool pool d m = (Val b, m) /\
    (b = true <-> exists i, 0 <= i < num /\ i ∉ free /\ d = chunk_data i).
Proof.
  intros [] Hd Hne. unfold is_u32 in Hd. pose proof chunk_range as Hcr.
  pose proof Hgeo as []. unfold is_valid_chunk_data_in_pool, NULL, pool_instance.chunks,
    pool_instance.pool_sz, pool_instance.chunksz, pool_chunk.data, pool_chunk.size, pool_chunk.magic.
  destruct (Z.eqb_spec pool 0); [lia|].
  destruct (Z.ltb_spec d (pool + 12)) as [Hlo|Hlo].
  { exists false. split; [done|]. split; [done|]. intros (i & Hi & _ & ->).
    specialize (Hcr i Hi). unfold chunk_data in *. lia. }
  assert (0 < pool_size) by (unfold pool_size; nia).
  assert (u32 (d - (pool + 12)) = d - (pool + 12)) as -> by (apply u32_small; unfold is_u32; lia).
  assert (u32 (chunksz + 8) = chunksz + 8) as Hcz.
  { apply u32_small. unfold is_u32, pool_size in *. nia. }
  rewrite (bind_load _ _ _ _ pi_pool_sz0).
  destruct (Z.leb_spec pool_size (d - (pool + 12))) as [Hhi|Hhi].
  { exists false. split; [done|]. split; [done|]. intros (i & Hi & _ & ->).
    specialize (Hcr i Hi). unfold chunk_data in *. lia. }
  rewrite (bind_load _ _ _ _ pi_chunksz0), Hcz.
  destruct (Z.eqb_spec ((d - (pool + 12)) mod (chunksz + 8)) 8) as [Hmod|Hmod]; cbn [negb]; last first.
  { exists false. split; [done|]. split; [done|]. intros (i & Hi & _ & ->). exfalso. apply Hmod.
    unfold chunk_data, chunk_at. replace (pool + 12 + i * (chunksz + 8) + 8 - (pool + 12))
      with (8 + i * (chunksz + 8)) by lia. rewrite Z.mod_add by lia. apply Z.mod_small. lia. }
  set (k := (d - (pool + 12)) / (chunksz + 8)).
  assert (d = chunk_data k) as Hdk.
  { pose proof (Z.div_mod (d - (pool + 12)) (chunksz + 8)) as Hdm. unfold chunk_data, chunk_at. fold k in Hdm. lia. }
  assert (0 <= k) by (apply Z.div_pos; lia).
  assert (k < num) as Hk.
  { assert (k <> num) by (intros E; apply Hne; by rewrite <- E).
    unfold chunk_data, chunk_at, pool_size in *. nia. }
  destruct (pi_magic0 k ltac:(lia)) as (w & Hw & Hwm).
  replace (d - 8 + 4) with (chunk_at k + 4) by (unfold chunk_data in Hdk; lia).
  rewrite (bind_load _ _ _ _ Hw). exists (w =? POOL_MAGIC_ALLOCATED). split; [done|].
  rewrite Z.eqb_eq, Hwm. split; [intros; exists k; split_and!; [lia|lia|done|done]|].
  intros (i & Hi & Hni & E). replace k with i; [done|]. apply chunk_inj; [lia|lia|].
  unfold chunk_data in *. lia.
Qed.

(** *** Freeing *)

Lemma tfm_pool_free_ok debug m i free :
  pool_inv m free -> 0 <= i < num -> i ∉ free ->
  exists m', tfm_pool_free debug pool (chunk_data i) m = (Val tt, m') /\ pool_inv m' (i :: free) /\
    (debug = true -> forall j, 0 <= j < chunksz / 4 -> m' !! (chunk_data i + 4 * j) = Some 0xFFFFFFFF).
Proof.
  intros Hinv Hi Hni. pose proof Hinv as [Hc Hcs Hps Hnd Hr Hnx Hmg Hdt].
  destruct (chunk_range i Hi) as [Hlo Hhi]. pose proof Hgeo as [].
  assert (exists h, m !! pool = Some h) as [h Hh] by (destruct free; cbn in Hc; naive_solver).
  destruct (is_valid_chunk_spec m free (chunk_data i) Hinv) as (b & Hb & Hbt).
  { unfold is_u32, chunk_data. lia. }
  { unfold chunk_data. intros E. pose proof (chunk_gap i num). lia. }
  assert (b = true) as -> by (apply Hbt; eauto).
  destruct (Hmg i Hi) as (w & Hw & _).
  set (m1 := relink (chunk_at i) i h 0 m).
  assert (pool_inv m1 (i :: free)) as Hinv1.
  { apply (pool_inv_relink _ _ _ _ _ free); try done.
    - cbn. subst m1. rewrite relink_pool by done. split_and!; [done|unfold NULL; lia|].
      destruct free as [|j free]; cbn in *.
      + destruct (relink_self (chunk_at i) i h 0 m Hi) as [-> _]. congruence.
      + destruct (relink_self (chunk_at i) i h 0 m Hi) as [-> _].
        split_and!; [destruct Hc; congruence|tauto|]. apply relink_chain; tauto.
    - by constructor.
    - by constructor.
    - set_solver.
    - unfold POOL_MAGIC_ALLOCATED. split; [done|]. set_solver. }
  assert (tfm_pool_free debug pool (chunk_data i) m =
          (if debug then chunksz ← load (pool + 4); spm_memset (chunk_data i) 0xFF chunksz
           else mret tt) m1) as ->.
  { unfold tfm_pool_free. rewrite bind_c_assert by exact Hb. cbv zeta.
    unfold pool_chunk.magic, pool_chunk.data, pool_instance.next, pool_instance.chunksz.
    replace (chunk_data i - 8) with (chunk_at i) by (unfold chunk_data; lia).
    rewrite bind_store by (by eexists). unfold UNI_LIST_INSERT_AFTER, NULL.
    destruct (Z.eqb_spec pool 0) as [?|_]; [lia|]. destruct (Z.eqb_spec (chunk_at i) 0) as [?|_]; [lia|].
    cbn [orb]. rewrite !Z.add_0_r. erewrite bind_val; last first.
    { erewrite bind_load by (rewrite lookup_insert_ne by lia; exact Hh).
      rewrite bind_store by (rewrite lookup_insert_ne by lia; auto).
      apply store_ok. rewrite !lookup_insert_ne by lia. by eexists. }
    replace (<[pool:=chunk_at i]> (<[chunk_at i:=h]> (<[chunk_at i + 4:=0]> m))) with m1; [done|].
    subst m1. unfold relink. apply map_eq. intros a.
    rewrite !lookup_insert. repeat case_decide; try lia; done. }
  destruct debug; [|by exists m1].
  erewrite bind_load by (subst m1; rewrite relink_static by auto; exact Hcs).
  destruct (spm_memset_ok (chunk_data i) 0xFF chunksz m1) as (m2 & -> & Hm2); [lia| |].
  { intros j Hj. by apply (pi_data _ _ Hinv1). }
  exists m2. split; [done|]. split.
  - apply (pool_inv_frame m1); [done|..].
    + intros a Ha. rewrite Hm2. case_decide as Hd; [|done]. destruct Hd as (j & ? & ?).
      unfold chunk_data in *. lia.
    + intros k Hk. rewrite !Hm2. split; case_decide as Hd; try done;
        destruct Hd as (j & ? & ?); unfold chunk_data in *; exfalso.
      * destruct (chunk_sep k i 0 (8 + 4 * j)); lia.
      * destruct (chunk_sep k i 4 (8 + 4 * j)); lia.
    + intros a Ha. rewrite Hm2. case_decide; [by eexists|done].
  - intros _ j Hj. rewrite Hm2. case_decide as Hd; [done|]. exfalso. apply Hd. eauto.
Qed.

(** *** Initialisation *)

Definition pool_mapped (m : mem) : Prop :=
  forall i, 0 <= i < pool_size / 4 -> is_Some (m !! (pool + 4 * i)).

(** The chunks are pushed in address order, so the last one comes out first. *)
Fixpoint chunks_below (n : nat) : list Z :=
  match n with
  | O => []
  | S k => Z.of_nat k :: chunks_below k
  end.

Lemma elem_of_chunks_below n i : i ∈ chunks_below n <-> 0 <= i < Z.of_nat n.
Proof.
  induction n as [|n IH]; cbn [chunks_below]; [set_solver by lia|].
  rewrite elem_of_cons, IH. lia.
Qed.

Lemma chunks_below_nodup n : NoDup (chunks_below n).
Proof.
  induction n as [|n IH]; constructor; [|done]. rewrite elem_of_chunks_below. lia.
Qed.

(** The memory while the chunks are being linked: [n] of them are. *)
Record linking (m : mem) (n : nat) : Prop := {
  lk_chain : chain m pool (chunk_at <$> chunks_below n);
  lk_magic : forall i, 0 <= i < num -> m !! (chunk_at i + 4) = Some 0;
  lk_mapped : pool_mapped m;
}.

Lemma pool_size_words : pool_size mod 4 = 0 /\ 0 < pool_size.
Proof.
  destruct Hgeo as [? [? Hc] ? ?]. unfold pool_size. split; [|nia].
  apply Z.mod_divide in Hc as [q ->]; [|lia].
  replace ((q * 4 + 8) * num + 12) with (((q + 2) * num + 3) * 4) by lia. apply Z.mod_mul. lia.
Qed.

Lemma pool_word o : 0 <= o < pool_size -> o mod 4 = 0 -> exists j, 0 <= j < pool_size / 4 /\ o = 4 * j.
Proof. intros. pose proof pool_size_words. exists (o / 4). lia. Qed.

Lemma chunk_word i o : 0 <= i < num -> 0 <= o < chunksz + 8 -> o mod 4 = 0 ->
  exists j, 0 <= j < pool_size / 4 /\ chunk_at i + o = pool + 4 * j.
Proof.
  intros Hi Ho Hm. destruct (chunk_range i Hi). destruct Hgeo as [? [? Hc] ? ?].
  destruct (pool_word (chunk_at i + o - pool)) as (j & Hj & E).
  - lia.
  - unfold chunk_at. apply Z.mod_divide in Hc as [q Hc]; [|lia].
    apply Z.mod_divide in Hm as [r Hm]; [|lia]. apply Z.mod_divide; [lia|].
    exists (3 + i * (q + 2) + r). rewrite Hc, Hm. lia.
  - exists j. lia.
Qed.

Lemma linking_step m n : Z.of_nat n < num -> linking m n ->
  exists m', UNI_LIST_INSERT_AFTER pool (chunk_at (Z.of_nat n)) 0 m = (Val tt, m') /\
    linking m' (S n).
Proof.
  intros Hn [Hc Hmg Hmp]. set (i := Z.of_nat n) in *.
  assert (0 <= i < num) as Hi by lia. destruct (chunk_range i Hi). pose proof Hgeo as [].
  assert (exists h, m !! pool = Some h) as [h Hh] by (destruct n; cbn in Hc; naive_solver).
  assert (is_Some (m !! chunk_at i)) as Hci.
  { destruct (chunk_word i 0 Hi) as (j & Hj & E); [lia|done|].
    rewrite Z.add_0_r in E. rewrite E. by apply Hmp. }
  exists (<[pool := chunk_at i]> (<[chunk_at i := h]> m)). split.
  { unfold UNI_LIST_INSERT_AFTER, NULL. destruct (Z.eqb_spec pool 0) as [?|_]; [lia|].
    destruct (Z.eqb_spec (chunk_at i) 0) as [?|_]; [lia|]. cbn [orb]. rewrite !Z.add_0_r.
    rewrite (bind_load _ _ _ _ Hh), bind_store by done.
    apply store_ok. rewrite lookup_insert_ne by lia. by eexists. }
  assert (forall k, 0 <= k < i -> forall o, o = 0 \/ o = 4 ->
    <[pool := chunk_at i]> (<[chunk_at i := h]> m) !! (chunk_at k + o) = m !! (chunk_at k + o)) as Hold.
  { intros k Hk o Ho. destruct (chunk_range k ltac:(lia)).
    rewrite !lookup_insert_ne; [done|..]; [pose proof (chunk_gap k i); lia|lia]. }
  split.
  - cbn [chunks_below fmap list_fmap chain]. fold i.
    split_and!; [apply lookup_insert_eq|unfold NULL; lia|].
    pose proof (elem_of_chunks_below n) as Hel.
    destruct (chunks_below n) as [|k l]; cbn in *.
    + rewrite lookup_insert_ne, lookup_insert_eq by lia. congruence.
    + rewrite lookup_insert_ne, lookup_insert_eq by lia. destruct Hc as (Hk & Hnz & Hc).
      split_and!; [congruence|done|]. eapply chain_frame; [|exact Hc].
      intros b Hb. assert (exists j, b = chunk_at j /\ j ∈ k :: l) as (j & -> & Hj).
      { destruct Hb as [->|Hb]; [exists k; set_solver|].
        apply elem_of_chunks in Hb as (j & ? & ?). exists j. set_solver. }
      apply Hel in Hj. rewrite <- (Z.add_0_r (chunk_at j)). apply Hold; [lia|by left].
  - intros k Hk. destruct (chunk_range k Hk).
    rewrite !lookup_insert_ne; [by apply Hmg| |lia].
    intros E. destruct (chunk_sep i k 0 4); lia.
  - intros j Hj. rewrite !lookup_insert_is_Some'. auto.
Qed.

Lemma linking_loop m n k : linking m n -> Z.of_nat n + Z.of_nat k = num ->
  exists m' e, fold_range (Z.of_nat n) num (chunk_at (Z.of_nat n)) (fun _ pchunk =>
      _ ← UNI_LIST_INSERT_AFTER pool pchunk 0; mret (u32 (pchunk + 8 + chunksz))) m = (Val e, m') /\
    linking m' (Z.to_nat num).
Proof.
  revert m n. induction k as [|k IH]; intros m n Hl Hk.
  - exists m, (chunk_at (Z.of_nat n)). rewrite fold_range_nil by lia.
    split; [done|]. by replace (Z.to_nat num) with n by lia.
  - rewrite fold_range_step by lia.
    destruct (linking_step m n ltac:(lia) Hl) as (m1 & H1 & Hl1).
    destruct (IH m1 (S n) Hl1 ltac:(lia)) as (m2 & e & H2 & Hl2).
    exists m2, e. split; [|done]. erewrite bind_val; [|erewrite bind_val by exact H1; reflexivity].
    replace (u32 (chunk_at (Z.of_nat n) + 8 + chunksz)) with (chunk_at (Z.of_nat (S n))).
    + replace (Z.of_nat n + 1) with (Z.of_nat (S n)) by lia. exact H2.
    + destruct (chunk_range (Z.of_nat n)) as [? Hhi]; [lia|]. pose proof Hgeo as [].
      rewrite u32_small by (unfold is_u32; lia). unfold chunk_at. lia.
Qed.

Lemma tfm_pool_init_ok m :
  pool_mapped m ->
  exists m', tfm_pool_init pool pool_size chunksz num m = (Val tt, m') /\
    pool_inv m' (chunks_below (Z.to_nat num)).
Proof.
  intros Hm. pose proof pool_size_words as [Hw Hpos]. pose proof Hgeo as [Hp [Hc1 Hc2] Hn Hfit].
  unfold tfm_pool_init, NULL, pool_chunk.size, pool_chunk.data, pool_instance.size,
    pool_instance.chunks, pool_instance.next, pool_instance.chunksz, pool_instance.pool_sz.
  rewrite bind_fail_no by lia. fold pool_size.
  rewrite u32_small by (unfold is_u32; lia). rewrite bind_fail_no by lia.
  destruct (spm_memset_ok pool 0 pool_size m Hw Hm) as (m1 & H1 & Hm1).
  rewrite (bind_val _ _ _ _ _ H1).
  assert (forall j, 0 <= j < pool_size / 4 -> m1 !! (pool + 4 * j) = Some 0) as Hz.
  { intros j Hj. rewrite Hm1. case_decide as Hd; [done|]. exfalso. apply Hd. eauto. }
  assert (m1 !! pool = Some 0) as Hp0.
  { replace pool with (pool + 4 * 0) by lia. apply Hz. lia. }
  assert (UNI_LIST_INIT_NODE pool 0 m1 = (Val tt, <[pool := 0]> m1)) as H2.
  { unfold UNI_LIST_INIT_NODE, NULL. destruct (Z.eqb_spec pool 0) as [?|_]; [lia|].
    rewrite Z.add_0_r. apply store_ok. by eexists. }
  rewrite insert_id in H2 by done. rewrite (bind_val _ _ _ _ _ H2).
  assert (linking m1 0) as Hl.
  { split; [done| |intros j Hj; rewrite Hz by done; by eexists].
    intros i Hi. destruct (chunk_word i 4 Hi) as (j & Hj & ->); [lia|done|]. by apply Hz. }
  destruct (linking_loop m1 0 (Z.to_nat num) Hl ltac:(lia)) as (m3 & e & H3 & [Hch Hmg Hmp]).
  replace (chunk_at (Z.of_nat 0)) with (pool + 12) in H3 by (unfold chunk_at; lia).
  rewrite (bind_val _ _ _ _ _ H3).
  assert (forall o, 0 <= o < pool_size -> o mod 4 = 0 -> is_Some (m3 !! (pool + o))) as Hmo.
  { intros o Ho Hom. destruct (pool_word o Ho Hom) as (j & Hj & ->). by apply Hmp. }
  assert (12 <= pool_size) by (unfold pool_size; nia).
  rewrite bind_store by (apply Hmo; [lia|done]).
  rewrite store_ok by (rewrite lookup_insert_ne by lia; apply Hmo; [lia|done]).
  eexists. split; [done|]. split.
  - eapply chain_frame; [|exact Hch]. intros b Hb. rewrite !lookup_insert_ne; [done|..];
      (destruct Hb as [->|Hb]; [lia|]; apply elem_of_chunks in Hb as (i & -> & Hi);
       apply elem_of_chunks_below in Hi; destruct (chunk_range i); lia).
  - rewrite lookup_insert_ne, lookup_insert_eq by lia. done.
  - apply lookup_insert_eq.
  - apply chunks_below_nodup.
  - apply Forall_forall. intros i Hi. apply elem_of_chunks_below in Hi. lia.
  - intros i Hi. rewrite !lookup_insert_is_Some'. do 2 right.
    destruct (chunk_word i 0 Hi) as (j & Hj & E); [lia|done|]. rewrite Z.add_0_r in E. rewrite E. auto.
  - intros i Hi. exists 0. destruct (chunk_range i Hi). rewrite !lookup_insert_ne by lia.
    split; [auto|]. rewrite elem_of_chunks_below. unfold POOL_MAGIC_ALLOCATED. lia.
  - intros i j Hi Hj. rewrite !lookup_insert_is_Some'. do 2 right. unfold chunk_data.
    destruct (chunk_word i (8 + 4 * j) Hi) as (j' & Hj' & E); [lia| |].
    { replace (8 + 4 * j) with ((2 + j) * 4) by lia. apply Z.mod_mul. lia. }
    rewrite <- Z.add_assoc, E. auto.
Qed.
End PoolInvariant.

(** ** What the pool promises

    The abstract pool is the list of free chunks, used last in first out.  The
    operations of its users are allocation, the release of a chunk and writes
    into chunks they hold. *)

Inductive pool_op :=
  | op_alloc
  | op_free (i : Z)
  | op_write (i j w : Z).

Section PoolSpec.
Context (pool chunksz num : Z).

(** The result and the new free list; [None] for an operation nobody may do. *)
Definition pool_spec (op : pool_op) (free : list Z) : option (Z * list Z) :=
  match op with
  | op_alloc =>
      match free with
      | [] => Some (NULL, [])
      | i :: free' => Some (chunk_data pool chunksz i, free')
      end
  | op_free i =>
      if (0 <=? i) && (i <? num) && bool_decide (i ∉ free) then Some (0, i :: free) else None
  | op_write i j _ =>
      if (0 <=? i) && (i <? num) && bool_decide (i ∉ free) && (0 <=? j) && (j <? chunksz / 4)
      then Some (0, free) else None
  end.

Fixpoint pool_specs (ops : list pool_op) (free : list Z) : option (list Z * list Z) :=
  match ops with
  | [] => Some ([], free)
  | op :: ops' =>
      '(r, free') ← pool_spec op free;
      '(rs, free'') ← pool_specs ops' free';
      Some (r :: rs, free'')
  end.

Definition pool_step (debug : bool) (op : pool_op) : M mem Z :=
  match op with
  | op_alloc => tfm_pool_alloc debug pool
  | op_free i => _ ← tfm_pool_free debug pool (chunk_data pool chunksz i); mret 0
  | op_write i j w => _ ← store (chunk_data pool chunksz i + 4 * j) w; mret 0
  end.

Fixpoint pool_steps (debug : bool) (ops : list pool_op) : M mem (list Z) :=
  match ops with
  | [] => mret []
  | op :: ops' => r ← pool_step debug op; rs ← pool_steps debug ops'; mret (r :: rs)
  end.

Context (Hgeo : pool_geometry pool chunksz num).

Lemma pool_step_ok debug op m free r free' :
  pool_inv pool chunksz num m free -> pool_spec op free = Some (r, free') ->
  exists m', pool_step debug op m = (Val r, m') /\ pool_inv pool chunksz num m' free'.
Proof.
  intros Hinv Hs. destruct op as [|i|i j w]; cbn in Hs |- *.
  - destruct free as [|i free]; injection Hs as <- <-.
    + exists m. by rewrite (tfm_pool_alloc_empty pool chunksz num).
    + by apply tfm_pool_alloc_cons.
  - case_match eqn:E; [|done]. injection Hs as <- <-.
    rewrite !andb_true_iff, bool_decide_eq_true in E.
    destruct (tfm_pool_free_ok pool chunksz num Hgeo debug m i free Hinv)
      as (m' & Hrun & Hinv' & _); [lia|tauto|].
    exists m'. by rewrite (bind_val _ _ _ _ _ Hrun).
  - case_match eqn:E; [|done]. injection Hs as <- <-.
    rewrite !andb_true_iff, bool_decide_eq_true in E.
    assert (0 <= i < num /\ 0 <= j < chunksz / 4 /\ i ∉ free) as (Hi & Hj & Hni).
    { split; [lia|]. split; [lia|]. tauto. }
    rewrite bind_store by (by apply (pi_data _ _ _ _ _ Hinv)).
    eexists. split; [done|]. destruct (chunk_range pool chunksz num Hgeo i Hi).
    pose proof Hgeo as []. unfold chunk_data.
    apply (pool_inv_frame pool chunksz num m); [done|..].
    + intros a Ha. rewrite lookup_insert_ne by lia. done.
    + intros k Hk.
      split; rewrite lookup_insert_ne; try done; intros E';
        [destruct (chunk_sep pool chunksz num Hgeo i k (8 + 4 * j) 0)
        |destruct (chunk_sep pool chunksz num Hgeo i k (8 + 4 * j) 4)]; lia.
    + intros a Ha. rewrite lookup_insert_is_Some'. auto.
Qed.
End PoolSpec.

(** A pool of three 8-byte chunks at address 64. *)
Definition sample_pool_mem : mem := list_to_map ((fun i => (64 + 4 * i, 0xDEAD)) <$> seqZ 0 15).

Lemma sample_geometry : pool_geometry 64 8 3.
Proof. split; unfold pool_size; lia. Qed.

Lemma sample_pool_mapped : pool_mapped 64 8 3 sample_pool_mem.
Proof.
  intros i Hi. unfold pool_size in Hi.
  assert (i ∈ seqZ 0 15) as Hin.
  { apply elem_of_seqZ. change ((8 + 8) * 3 + 12) with (15 * 4) in Hi. rewrite Z.div_mul in Hi; lia. }
  revert i Hi Hin. assert (Forall (fun i => is_Some (sample_pool_mem !! (64 + 4 * i))) (seqZ 0 15)) as H.
  { repeat constructor; eexists; vm_compute; reflexivity. }
  rewrite Forall_forall in H. auto.
Qed.

(** C33: the chunk pool refines a last-in first-out free list.  From
    [tfm_pool_init] on, whatever sequence of allocations, releases of allocated
    chunks and writes into allocated chunks the users perform, every operation
    returns and gives the result the abstract pool gives: an allocation yields a
    chunk that is free at that moment (a null pointer only if there is none),
    and no sequence of writes to the chunks disturbs the free list. *)
Theorem pool_refines debug pool chunksz num ops rs free m :
  pool_geometry pool chunksz num -> pool_mapped pool chunksz num m ->
  pool_specs pool chunksz num ops (chunks_below (Z.to_nat num)) = Some (rs, free) ->
  exists m', (_ ← tfm_pool_init pool (pool_size chunksz num) chunksz num;
              pool_steps pool chunksz debug ops) m = (Val rs, m') /\
    pool_inv pool chunksz num m' free.
Proof.
  intros Hgeo Hm Hs. destruct (tfm_pool_init_ok _ _ _ Hgeo m Hm) as (m1 & H1 & Hinv).
  rewrite (bind_val _ _ _ _ _ H1). clear H1 Hm m. revert m1 rs Hinv Hs.
  generalize (chunks_below (Z.to_nat num)) as fr.
  induction ops as [|op ops IH]; intros fr m rs Hinv Hs; cbn in Hs |- *.
  { injection Hs as <- <-. by exists m. }
  apply bind_Some in Hs as ([r fr'] & H1 & Hs). apply bind_Some in Hs as ([rs' fr''] & H2 & [= <- <-]).
  destruct (pool_step_ok pool chunksz num Hgeo debug op m fr r fr' Hinv H1) as (m1 & Hrun & Hinv1).
  destruct (IH fr' m1 rs' Hinv1 H2) as (m2 & Hrun2 & Hinv2). exists m2. split; [|done].
  by rewrite (bind_val _ _ _ _ _ Hrun), (bind_val _ _ _ _ _ Hrun2).
Qed.

Lemma pool_refines_witness :
  exists m', (_ ← tfm_pool_init 64 60 8 3;
              pool_steps 64 8 true [op_alloc; op_alloc; op_write 2 1 0xABCD; op_alloc; op_alloc;
                                    op_free 1; op_alloc]) sample_pool_mem
    = (Val [116; 100; 0; 84; 0; 0; 100], m') /\ pool_inv 64 8 3 m' [].
Proof.
  apply (pool_refines true 64 8 3 _ _ [] sample_pool_mem sample_geometry sample_pool_mapped).
  vm_compute. reflexivity.
Defined.

(** [is_valid_chunk_data_in_pool] accepts exactly the data pointers of the
    chunks that are allocated now.  For every 32-bit pointer except the one just
    past the last chunk it answers without leaving the pool's memory, whatever
    the pointer is: free chunks, unaligned pointers and pointers outside the
    pool are refused. *)
Theorem is_valid_chunk_exact pool chunksz num m free d :
  pool_geometry pool chunksz num -> pool_inv pool chunksz num m free ->
  is_u32 d -> d <> chunk_data pool chunksz num ->
  exists b, is_valid_chunk_data_in_pool pool d m = (Val b, m) /\
    (b = true <-> exists i, 0 <= i < num /\ i ∉ free /\ d = chunk_data pool chunksz i).
Proof. intros Hgeo. by apply is_valid_chunk_spec. Qed.

Definition sample_pool : mem :=
  (tfm_pool_alloc true 64 (tfm_pool_init 64 60 8 3 sample_pool_mem).2).2.

Lemma sample_pool_inv : pool_inv 64 8 3 sample_pool [1; 0].
Proof.
  unfold sample_pool.
  destruct (tfm_pool_init_ok 64 8 3 sample_geometry sample_pool_mem sample_pool_mapped) as (m1 & H1 & Hi1).
  change (pool_size 8 3) with 60 in H1. rewrite H1. cbn [snd].
  destruct (tfm_pool_alloc_cons 64 8 3 sample_geometry true m1 2 [1; 0] Hi1) as (m2 & H2 & Hi2).
  rewrite H2. exact Hi2.
Qed.

Lemma is_valid_chunk_exact_witness :
  exists b, is_valid_chunk_data_in_pool 64 116 sample_pool = (Val b, sample_pool) /\
    (b = true <-> exists i, 0 <= i < 3 /\ i ∉ [1; 0] /\ 116 = chunk_data 64 8 i).
Proof.
  apply (is_valid_chunk_exact 64 8 3 sample_pool [1; 0] 116 sample_geometry sample_pool_inv);
    [unfold is_u32; lia|unfold chunk_data, chunk_at; lia].
Defined.

(** The remaining pointer.  The bound the code compares with is the size of
    the whole buffer, its instance header included, while offsets are counted
    from the first chunk; so the pointer just past the last chunk passes the
    range and the alignment check and the code reads a "magic" word that lies
    beyond the end of the buffer.  If that word is not mapped the access is
    outside the object; if it happens to hold the magic value the pointer is
    accepted as an allocated chunk. *)
Theorem is_valid_chunk_past_end pool chunksz num m free :
  pool_geometry pool chunksz num -> pool_inv pool chunksz num m free ->
  let past := chunk_data pool chunksz num in
  pool + pool_size chunksz num <= past - 4 /\
  is_valid_chunk_data_in_pool pool past m =
    match m !! (past - 4) with
    | Some w => (Val (w =? POOL_MAGIC_ALLOCATED), m)
    | None => (Halt OutOfBounds, m)
    end.
Proof.
  intros Hgeo [] past. pose proof Hgeo as [].
  assert (past = pool + pool_size chunksz num + 8) as Hpast
    by (unfold past, chunk_data, chunk_at, pool_size; lia).
  split; [lia|]. pose proof (pool_size_words _ _ _ Hgeo). clearbody past.
  unfold is_valid_chunk_data_in_pool, NULL, pool_instance.chunks,
    pool_instance.pool_sz, pool_instance.chunksz, pool_chunk.data, pool_chunk.size, pool_chunk.magic.
  destruct (Z.eqb_spec pool 0); [lia|]. destruct (Z.ltb_spec past (pool + 12)); [lia|].
  rewrite (u32_small (past - _)) by (unfold is_u32; lia). rewrite (bind_load _ _ _ _ pi_pool_sz0).
  destruct (Z.leb_spec (pool_size chunksz num) (past - (pool + 12))); [lia|].
  rewrite (bind_load _ _ _ _ pi_chunksz0).
  assert (is_u32 (chunksz + 8)) by (unfold is_u32, pool_size in *; nia).
  rewrite u32_small by done.
  assert ((past - (pool + 12)) mod (chunksz + 8) = 8) as ->.
  { rewrite Hpast. unfold pool_size. replace (pool + ((chunksz + 8) * num + 12) + 8 - (pool + 12))
      with (8 + num * (chunksz + 8)) by lia. rewrite Z.mod_add by lia. apply Z.mod_small. lia. }
  change (negb (8 =? 8)) with false. cbv iota. replace (past - 8 + 4) with (past - 4) by lia.
  unfold mbind, M_bind, load. destruct (m !! (past - 4)); reflexivity.
Qed.

Lemma is_valid_chunk_past_end_witness :
  64 + pool_size 8 3 <= 132 - 4 /\
  is_valid_chunk_data_in_pool 64 132 sample_pool = (Halt OutOfBounds, sample_pool).
Proof.
  exact (is_valid_chunk_past_end 64 8 3 sample_pool [1; 0] sample_geometry sample_pool_inv).
Defined.

(** ** Handles *)

Section Handles.
Context (debug : bool) (pool sizeof num : Z).
Context (Hgeo : pool_geometry pool sizeof num) (Hsmall : 8 * pool_size sizeof num < 2 ^ 30).

Abbreviation to_handle := (connection_to_handle debug pool).
Abbreviation of_handle := (handle_to_connection debug pool).

(** Chunk [i] is the memory of an established connection. *)
Definition connected (s : conn_space) (i : Z) : Prop :=
  exists free, pool_inv pool sizeof num s.(pool_mem) free /\ 0 <= i < num /\ i ∉ free.

(** The handle [connection_to_handle] makes of chunk [i] in round [j]. *)
Definition handle_of (i j : Z) : Z := 8 * (chunk_data pool sizeof i - pool) + 1 + j.

Lemma on_pool_valid s i : connected s i ->
  on_pool (is_valid_chunk_data_in_pool pool (chunk_data pool sizeof i)) s = (Val true, s).
Proof.
  intros (free & Hinv & Hi & Hni). destruct (chunk_range _ _ _ Hgeo i Hi). pose proof Hgeo as [].
  destruct (is_valid_chunk_spec _ _ _ Hgeo _ free (chunk_data pool sizeof i) Hinv) as (b & Hb & Hbt).
  { unfold is_u32, chunk_data. lia. }
  { unfold chunk_data. pose proof (chunk_gap _ _ _ Hgeo i num). lia. }
  unfold on_pool. rewrite Hb. destruct Hbt as [_ ->]; [by destruct s|eauto].
Qed.

Lemma on_pool_invalid s free i : pool_inv pool sizeof num s.(pool_mem) free -> i ∈ free ->
  on_pool (is_valid_chunk_data_in_pool pool (chunk_data pool sizeof i)) s = (Val false, s).
Proof.
  intros Hinv Hif. pose proof (pi_range _ _ _ _ _ Hinv) as Hr. rewrite Forall_forall in Hr.
  specialize (Hr i Hif) as Hi. destruct (chunk_range _ _ _ Hgeo i Hi). pose proof Hgeo as [].
  destruct (is_valid_chunk_spec _ _ _ Hgeo _ free (chunk_data pool sizeof i) Hinv) as (b & Hb & Hbt).
  { unfold is_u32, chunk_data. lia. }
  { unfold chunk_data. pose proof (chunk_gap _ _ _ Hgeo i num). lia. }
  unfold on_pool. rewrite Hb. destruct b; [|by destruct s].
  destruct Hbt as [Hbt _]. destruct (Hbt eq_refl) as (k & Hk & Hnk & E). destruct Hnk.
  replace k with i; [done|]. apply (chunk_inj _ _ _ Hgeo); [lia|lia|].
  unfold chunk_data in E. lia.
Qed.

Lemma handle_of_range i j : 0 <= i < num -> 0 <= j < 8 -> 0 < handle_of i j < 2 ^ 30.
Proof.
  intros Hi Hj. destruct (chunk_range _ _ _ Hgeo i Hi). pose proof Hgeo as [].
  unfold handle_of, chunk_data. lia.
Qed.

Lemma connection_to_handle_run s i :
  connected s i ->
  let j := (u32 (s.(loop_index) + 1)) mod 8 in
  to_handle (chunk_data pool sizeof i) s = (Val (handle_of i j), set_loop_index j s).
Proof.
  intros Hc j. pose proof Hc as (free & _ & Hi & _). destruct (chunk_range _ _ _ Hgeo i Hi).
  pose proof Hgeo as []. unfold connection_to_handle.
  rewrite bind_c_assert by (by apply on_pool_valid).
  rewrite bind_gets. change CONVERSION_FACTOR_VALUE with 8. fold j.
  assert (0 <= j < 8) by (apply Z.mod_pos_bound; lia).
  pose proof (handle_of_range i j Hi ltac:(done)) as Hr. rewrite bind_modifyS.
  unfold mret, M_ret. repeat f_equal. unfold CONVERSION_FACTOR_BITOFFSET, CLIENT_HANDLE_VALUE_MIN.
  rewrite Z.shiftl_mul_pow2 by lia. unfold handle_of in *. clearbody j.
  rewrite (u32_small (chunk_data pool sizeof i - pool)) by (unfold is_u32, chunk_data; lia).
  unfold s32. rewrite !u32_small by (rewrite ?u32_small by (unfold is_u32; lia); unfold is_u32; lia).
  destruct (Z.ltb_spec ((chunk_data pool sizeof i - pool) * 2 ^ 3 + 1 + j) (2 ^ 31)); lia.
Qed.

Lemma handle_to_pointer i j : 0 <= i < num -> 0 <= j < 8 ->
  u32 (Z.shiftr (u32 (handle_of i j - CLIENT_HANDLE_VALUE_MIN)) CONVERSION_FACTOR_BITOFFSET + pool)
  = chunk_data pool sizeof i.
Proof.
  intros Hi Hj. pose proof (handle_of_range i j Hi Hj). destruct (chunk_range _ _ _ Hgeo i Hi).
  pose proof Hgeo as []. unfold CONVERSION_FACTOR_BITOFFSET, CLIENT_HANDLE_VALUE_MIN.
  rewrite (u32_small (_ - 1)) by (unfold is_u32; lia). rewrite Z.shiftr_div_pow2 by lia.
  unfold handle_of. replace (8 * (chunk_data pool sizeof i - pool) + 1 + j - 1)
    with (j + (chunk_data pool sizeof i - pool) * 2 ^ 3) by lia.
  rewrite Z.div_add, Z.div_small by lia. rewrite u32_small; [lia|].
  unfold is_u32, chunk_data. lia.
Qed.
End Handles.

(** Handles stand for connections.  The handle made for an established
    connection is a positive number below [2 ^ 30], so it is never taken for a
    null or a static handle; it is the documented scaling of the offset in the
    pool; and as long as the connection stays established, whatever else
    happened to the pool in between, the handle converts back to that very
    connection and is validated. *)
Theorem handle_roundtrip debug pool sizeof num i s s' :
  pool_geometry pool sizeof num -> 8 * pool_size sizeof num < 2 ^ 30 ->
  connected pool sizeof num s i -> connected pool sizeof num s' i ->
  exists h j, connection_to_handle debug pool (chunk_data pool sizeof i) s
                = (Val h, set_loop_index j s) /\
    j = u32 (s.(loop_index) + 1) mod 8 /\
    h = 8 * (chunk_data pool sizeof i - pool) + 1 + j /\
    0 < h < 2 ^ 30 /\
    handle_to_connection debug pool h s' = (Val (chunk_data pool sizeof i), s') /\
    spm_validate_connection pool (chunk_data pool sizeof i) s' = (Val tt, s').
Proof.
  intros Hgeo Hsmall Hc Hc'. pose proof Hc as (_ & _ & Hi & _).
  set (j := u32 (s.(loop_index) + 1) mod 8).
  assert (0 <= j < 8) as Hj by (apply Z.mod_pos_bound; lia).
  pose proof (handle_of_range _ _ _ Hgeo Hsmall i j Hi Hj) as Hr.
  exists (handle_of pool sizeof i j), j.
  split; [by apply (connection_to_handle_run _ _ _ num)|]. split; [done|]. split; [done|].
  split; [done|]. split.
  - unfold handle_to_connection, PSA_NULL_HANDLE. destruct (Z.eqb_spec (handle_of pool sizeof i j) 0); [lia|].
    rewrite (handle_to_pointer _ _ num) by done. cbv zeta.
    rewrite bind_c_assert; [done|]. by apply (on_pool_valid _ _ num).
  - unfold spm_validate_connection. erewrite bind_val by (by apply (on_pool_valid _ _ num)). done.
Qed.

Definition sample_space : conn_space := {| pool_mem := sample_pool; loop_index := 7 |}.

Lemma sample_connected : connected 64 8 3 sample_space 2.
Proof. exists [1; 0]. split; [exact sample_pool_inv|]. split; [lia|]. set_solver. Qed.

Lemma handle_roundtrip_witness :
  exists h j, connection_to_handle true 64 116 sample_space = (Val h, set_loop_index j sample_space) /\
    j = u32 8 mod 8 /\ h = 8 * (116 - 64) + 1 + j /\ 0 < h < 2 ^ 30 /\
    handle_to_connection true 64 h sample_space = (Val 116, sample_space) /\
    spm_validate_connection 64 116 sample_space = (Val tt, sample_space).
Proof.
  exact (handle_roundtrip true 64 8 3 2 sample_space sample_space sample_geometry
           ltac:(unfold pool_size; lia) sample_connected sample_connected).
Defined.

(** A handle dies with its connection.  After [spm_free_connection] the old
    handle still converts to the old address, and the conversion alone does not
    say so: a release build returns the pointer and [spm_validate_connection]
    then refuses it; a debug build stops at the assertion inside
    [handle_to_connection]. *)
Theorem stale_handle_refused debug pool sizeof num i j s :
  pool_geometry pool sizeof num -> 8 * pool_size sizeof num < 2 ^ 30 -> 0 <= j < 8 ->
  connected pool sizeof num s i ->
  exists s', spm_free_connection debug pool (chunk_data pool sizeof i) s = (Val tt, s') /\
    handle_to_connection debug pool (8 * (chunk_data pool sizeof i - pool) + 1 + j) s' =
      (if debug then Halt AssertFail else Val (chunk_data pool sizeof i), s') /\
    spm_validate_connection pool (chunk_data pool sizeof i) s' = (Err SPM_ERROR_GENERIC, s').
Proof.
  intros Hgeo Hsmall Hj (free & Hinv & Hi & Hni).
  destruct (tfm_pool_free_ok _ _ _ Hgeo debug _ i free Hinv Hi Hni) as (m' & Hrun & Hinv' & _).
  destruct (chunk_range _ _ _ Hgeo i Hi). pose proof Hgeo as [].
  exists {| pool_mem := m'; loop_index := s.(loop_index) |}. split.
  { unfold spm_free_connection, NULL. rewrite bind_c_assert.
    - unfold on_pool. by rewrite Hrun.
    - unfold mret, M_ret. repeat f_equal. unfold chunk_data. lia. }
  set (s' := {| pool_mem := m'; loop_index := s.(loop_index) |}).
  assert (on_pool (is_valid_chunk_data_in_pool pool (chunk_data pool sizeof i)) s' = (Val false, s')) as Hinval.
  { apply (on_pool_invalid _ _ num Hgeo _ (i :: free)); [done|]. apply list_elem_of_here. }
  split.
  - fold (handle_of pool sizeof i j).
    pose proof (handle_of_range _ _ _ Hgeo Hsmall i j Hi Hj).
    unfold handle_to_connection, PSA_NULL_HANDLE. destruct (Z.eqb_spec (handle_of pool sizeof i j) 0); [lia|].
    rewrite (handle_to_pointer _ _ num) by done. cbv zeta. unfold c_assert. destruct debug; [|done].
    erewrite bind_halt; [done|]. by rewrite (bind_val _ _ _ _ _ Hinval).
  - unfold spm_validate_connection. by rewrite (bind_val _ _ _ _ _ Hinval).
Qed.

Lemma stale_handle_refused_witness :
  exists s', spm_free_connection false 64 116 sample_space = (Val tt, s') /\
    handle_to_connection false 64 (8 * (116 - 64) + 1 + 5) s' = (Val 116, s') /\
    spm_validate_connection 64 116 s' = (Err SPM_ERROR_GENERIC, s').
Proof.
  exact (stale_handle_refused false 64 8 3 2 5 sample_space sample_geometry
           ltac:(unfold pool_size; lia) ltac:(lia) sample_connected).
Defined.
