(* ===== verification/SpmTypes.v ===== *)
(** The data of the Secure Partition Manager and what its files share.

    The structures of [secure_fw/spm/core/spm.h], the load information of
    [secure_fw/spm/include/load/*_defs.h], the control word of
    [interface/include/tfm_psa_call_pack.h], the MM-IOVEC status word of
    [secure_fw/spm/include/ffm/psa_api.h], and the state the functions of
    [secure_fw/spm/core/*.c] work on. *)

From stdpp Require Import base list numbers gmap.
From S2P Require Import Prelude SpmPool.

(** ** Constants *)

Definition STATUS_NEED_SCHEDULE : Z := -254.
Definition PSA_MAX_IOVEC : Z := 4.
Definition PSA_IPC_CALL : Z := 0.
Definition PSA_IPC_CONNECT : Z := -1.
Definition PSA_IPC_DISCONNECT : Z := -2.
Definition PSA_BLOCK : Z := 0x80000000.
Definition PSA_TIMEOUT_MASK : Z := PSA_BLOCK.
Definition PSA_DOORBELL : Z := 0x8.
Definition ASYNC_MSG_REPLY : Z := 0x4.
Definition PSA_FRAMEWORK_VERSION : Z := 0x0101.
Definition PSA_VERSION_NONE : Z := 0.
Definition INVALID_PARTITION_ID : Z := 0.

Definition TFM_HANDLE_STATUS_IDLE : Z := 0.
Definition TFM_HANDLE_STATUS_ACTIVE : Z := 1.
Definition TFM_HANDLE_STATUS_TO_FREE : Z := 2.
Definition TFM_HANDLE_STATUS_MAX : Z := 3.

Definition TFM_HAL_ACCESS_READABLE : Z := 2.
Definition TFM_HAL_ACCESS_WRITABLE : Z := 4.
Definition TFM_HAL_ACCESS_NS : Z := 32.
Definition TFM_HAL_ACCESS_READWRITE : Z := Z.lor TFM_HAL_ACCESS_READABLE TFM_HAL_ACCESS_WRITABLE.

(** ** tfm_psa_call_pack.h *)

Definition TYPE_MASK : Z := 0xFFFF.
Definition IN_LEN_OFFSET : Z := 24.
Definition IN_LEN_MASK : Z := Z.shiftl 7 IN_LEN_OFFSET.
Definition OUT_LEN_OFFSET : Z := 16.
Definition OUT_LEN_MASK : Z := Z.shiftl 7 OUT_LEN_OFFSET.
Definition NS_VEC_DESC_BIT : Z := 0x80000000.
Definition NS_INVEC_OFFSET : Z := 27.
Definition NS_INVEC_BIT : Z := Z.shiftl 1 NS_INVEC_OFFSET.
Definition NS_OUTVEC_OFFSET : Z := 19.
Definition NS_OUTVEC_BIT : Z := Z.shiftl 1 NS_OUTVEC_OFFSET.

Definition PARAM_PACK (type in_len out_len : Z) : Z :=
  Z.lor (Z.lor (Z.land (u32 type) TYPE_MASK)
               (Z.land (u32 (Z.shiftl (u32 in_len) IN_LEN_OFFSET)) IN_LEN_MASK))
        (Z.land (u32 (Z.shiftl (u32 out_len) OUT_LEN_OFFSET)) OUT_LEN_MASK).
(** [(int32_t)(int16_t)]: sign extension from 16 bits. *)
Definition PARAM_UNPACK_TYPE (ctrl_param : Z) : Z := s16 (Z.land ctrl_param TYPE_MASK).
Definition PARAM_UNPACK_IN_LEN (ctrl_param : Z) : Z :=
  Z.shiftr (Z.land ctrl_param IN_LEN_MASK) IN_LEN_OFFSET.
Definition PARAM_UNPACK_OUT_LEN (ctrl_param : Z) : Z :=
  Z.shiftr (Z.land ctrl_param OUT_LEN_MASK) OUT_LEN_OFFSET.
Definition PARAM_SET_NS_VEC (ctrl_param : Z) : Z := Z.lor ctrl_param NS_VEC_DESC_BIT.
Definition PARAM_IS_NS_VEC (ctrl_param : Z) : bool := truth (Z.land ctrl_param NS_VEC_DESC_BIT).
Definition PARAM_SET_NS_INVEC (ctrl_param : Z) : Z := Z.lor ctrl_param NS_INVEC_BIT.
Definition PARAM_IS_NS_INVEC (ctrl_param : Z) : bool := truth (Z.land ctrl_param NS_INVEC_BIT).
Definition PARAM_SET_NS_OUTVEC (ctrl_param : Z) : Z := Z.lor ctrl_param NS_OUTVEC_BIT.
Definition PARAM_IS_NS_OUTVEC (ctrl_param : Z) : bool := truth (Z.land ctrl_param NS_OUTVEC_BIT).
Definition PARAM_HAS_IOVEC (ctrl_param : Z) : bool :=
  negb (ctrl_param =? u32 (PARAM_UNPACK_TYPE ctrl_param)).

(** ** The macros of spm.h and of the load definitions *)

Definition STATIC_HANDLE_NUM_LIMIT : Z := 32.
Definition STATIC_HANDLE_IDX_MASK : Z := Z.shiftl 1 5 - 1.
Definition STATIC_HANDLE_VER_MASK : Z := Z.shiftl 1 8 - 1.
Definition GET_INDEX_FROM_STATIC_HANDLE (handle : Z) : Z :=
  u32 (Z.land handle STATIC_HANDLE_IDX_MASK).
Definition GET_VERSION_FROM_STATIC_HANDLE (handle : Z) : Z :=
  u32 (Z.land (Z.shiftr handle 8) STATIC_HANDLE_VER_MASK).
Definition IS_STATIC_HANDLE (handle : Z) : bool := truth (Z.land (u32 handle) (Z.shiftl 1 30)).
Definition TFM_CLIENT_ID_IS_NS (client_id : Z) : bool := client_id <? 0.

Definition SERVICE_GET_STATELESS_HINDEX (flag : Z) : Z := Z.land flag 0xFF.
Definition SERVICE_IS_NS_ACCESSIBLE (flag : Z) : bool := truth (Z.land flag (Z.shiftl 1 8)).
Definition SERVICE_IS_STATELESS (flag : Z) : bool := truth (Z.land flag (Z.shiftl 1 9)).
Definition SERVICE_VERSION_POLICY_RELAXED : Z := 0.
Definition SERVICE_VERSION_POLICY_STRICT : Z := Z.shiftl 1 10.
Definition SERVICE_GET_VERSION_POLICY (flag : Z) : Z := Z.land flag (Z.shiftl 1 10).
Definition SERVICE_ENABLED_MM_IOVEC (flag : Z) : bool := truth (Z.land flag (Z.shiftl 1 11)).

Definition PARTITION_MODEL_IPC : Z := Z.shiftl 1 9.
Definition PARTITION_NS_AGENT_MB : Z := Z.shiftl 1 10.
Definition PARTITION_NS_AGENT_TZ : Z := Z.shiftl 1 11.

(** [bitops.h] *)
Definition IS_ONLY_ONE_BIT_IN_UINT32 (n : Z) : bool :=
  truth (u32 n) && negb (truth (Z.land (u32 n) (u32 (u32 n - 1)))).

(** ** Data *)

(** [struct service_load_info_t] *)
Record service_load_info_t := {
  sl_sid : Z;
  sl_flags : Z;
  sl_version : Z;
  sl_signal : Z;
}.

(** [struct irq_load_info_t]: what the SPM uses of it. *)
Record irq_load_info_t := {
  il_source : Z;
  il_signal : Z;
  il_flih_func : Z;
}.

(** [struct partition_load_info_t] with the tables that follow it. *)
Record partition_load_info_t := {
  pl_pid : Z;
  pl_flags : Z;
  pl_deps : list Z;
  pl_irqs : list irq_load_info_t;
}.

Definition IS_NS_AGENT (pldi : partition_load_info_t) : bool :=
  truth (Z.land pldi.(pl_flags) (Z.lor PARTITION_NS_AGENT_MB PARTITION_NS_AGENT_TZ)).

(** [psa_msg_t] *)
Record psa_msg_t := {
  msg_type : Z;
  msg_handle : Z;
  msg_client_id : Z;
  msg_rhandle : Z;
  msg_in_size : list Z;
  msg_out_size : list Z;
}.
Definition set_msg_type (v : Z) (m : psa_msg_t) : psa_msg_t :=
  {| msg_type := v; msg_handle := m.(msg_handle); msg_client_id := m.(msg_client_id);
     msg_rhandle := m.(msg_rhandle); msg_in_size := m.(msg_in_size); msg_out_size :=
     m.(msg_out_size) |}.
Definition set_msg_client_id (v : Z) (m : psa_msg_t) : psa_msg_t :=
  {| msg_type := m.(msg_type); msg_handle := m.(msg_handle); msg_client_id := v;
     msg_rhandle := m.(msg_rhandle); msg_in_size := m.(msg_in_size); msg_out_size :=
     m.(msg_out_size) |}.
Definition set_msg_handle (v : Z) (m : psa_msg_t) : psa_msg_t :=
  {| msg_type := m.(msg_type); msg_handle := v; msg_client_id := m.(msg_client_id);
     msg_rhandle := m.(msg_rhandle); msg_in_size := m.(msg_in_size); msg_out_size :=
     m.(msg_out_size) |}.
Definition set_msg_rhandle (v : Z) (m : psa_msg_t) : psa_msg_t :=
  {| msg_type := m.(msg_type); msg_handle := m.(msg_handle); msg_client_id :=
     m.(msg_client_id); msg_rhandle := v; msg_in_size := m.(msg_in_size); msg_out_size
     := m.(msg_out_size) |}.
Definition set_msg_in_size (v : list Z) (m : psa_msg_t) : psa_msg_t :=
  {| msg_type := m.(msg_type); msg_handle := m.(msg_handle); msg_client_id :=
     m.(msg_client_id); msg_rhandle := m.(msg_rhandle); msg_in_size := v; msg_out_size
     := m.(msg_out_size) |}.
Definition set_msg_out_size (v : list Z) (m : psa_msg_t) : psa_msg_t :=
  {| msg_type := m.(msg_type); msg_handle := m.(msg_handle); msg_client_id :=
     m.(msg_client_id); msg_rhandle := m.(msg_rhandle); msg_in_size := m.(msg_in_size);
     msg_out_size := v |}.

(** [struct connection_t]; pointers are addresses *)
Record connection_t := {
  conn_status : Z;
  conn_p_client : Z;
  conn_service : Z;
  conn_msg : psa_msg_t;
  conn_invec_base : list Z;
  conn_invec_accessed : list Z;
  conn_outvec_base : list Z;
  conn_outvec_written : list Z;
  conn_caller_outvec : Z;
  conn_client_data : Z;
  conn_iovec_status : Z;
  conn_p_reqs : Z;
  conn_p_replied : Z;
  conn_replied_value : Z;
}.
Definition set_conn_status (v : Z) (c : connection_t) : connection_t :=
  {| conn_status := v; conn_p_client := c.(conn_p_client); conn_service :=
     c.(conn_service); conn_msg := c.(conn_msg); conn_invec_base := c.(conn_invec_base);
     conn_invec_accessed := c.(conn_invec_accessed); conn_outvec_base :=
     c.(conn_outvec_base); conn_outvec_written := c.(conn_outvec_written);
     conn_caller_outvec := c.(conn_caller_outvec); conn_client_data :=
     c.(conn_client_data); conn_iovec_status := c.(conn_iovec_status); conn_p_reqs :=
     c.(conn_p_reqs); conn_p_replied := c.(conn_p_replied); conn_replied_value :=
     c.(conn_replied_value) |}.
Definition set_conn_p_client (v : Z) (c : connection_t) : connection_t :=
  {| conn_status := c.(conn_status); conn_p_client := v; conn_service :=
     c.(conn_service); conn_msg := c.(conn_msg); conn_invec_base := c.(conn_invec_base);
     conn_invec_accessed := c.(conn_invec_accessed); conn_outvec_base :=
     c.(conn_outvec_base); conn_outvec_written := c.(conn_outvec_written);
     conn_caller_outvec := c.(conn_caller_outvec); conn_client_data :=
     c.(conn_client_data); conn_iovec_status := c.(conn_iovec_status); conn_p_reqs :=
     c.(conn_p_reqs); conn_p_replied := c.(conn_p_replied); conn_replied_value :=
     c.(conn_replied_value) |}.
Definition set_conn_service (v : Z) (c : connection_t) : connection_t :=
  {| conn_status := c.(conn_status); conn_p_client := c.(conn_p_client); conn_service :=
     v; conn_msg := c.(conn_msg); conn_invec_base := c.(conn_invec_base);
     conn_invec_accessed := c.(conn_invec_accessed); conn_outvec_base :=
     c.(conn_outvec_base); conn_outvec_written := c.(conn_outvec_written);
     conn_caller_outvec := c.(conn_caller_outvec); conn_client_data :=
     c.(conn_client_data); conn_iovec_status := c.(conn_iovec_status); conn_p_reqs :=
     c.(conn_p_reqs); conn_p_replied := c.(conn_p_replied); conn_replied_value :=
     c.(conn_replied_value) |}.
Definition set_conn_msg (v : psa_msg_t) (c : connection_t) : connection_t :=
  {| conn_status := c.(conn_status); conn_p_client := c.(conn_p_client); conn_service :=
     c.(conn_service); conn_msg := v; conn_invec_base := c.(conn_invec_base);
     conn_invec_accessed := c.(conn_invec_accessed); conn_outvec_base :=
     c.(conn_outvec_base); conn_outvec_written := c.(conn_outvec_written);
     conn_caller_outvec := c.(conn_caller_outvec); conn_client_data :=
     c.(conn_client_data); conn_iovec_status := c.(conn_iovec_status); conn_p_reqs :=
     c.(conn_p_reqs); conn_p_replied := c.(conn_p_replied); conn_replied_value :=
     c.(conn_replied_value) |}.
Definition set_conn_invec_base (v : list Z) (c : connection_t) : connection_t :=
  {| conn_status := c.(conn_status); conn_p_client := c.(conn_p_client); conn_service :=
     c.(conn_service); conn_msg := c.(conn_msg); conn_invec_base := v;
     conn_invec_accessed := c.(conn_invec_accessed); conn_outvec_base :=
     c.(conn_outvec_base); conn_outvec_written := c.(conn_outvec_written);
     conn_caller_outvec := c.(conn_caller_outvec); conn_client_data :=
     c.(conn_client_data); conn_iovec_status := c.(conn_iovec_status); conn_p_reqs :=
     c.(conn_p_reqs); conn_p_replied := c.(conn_p_replied); conn_replied_value :=
     c.(conn_replied_value) |}.
Definition set_conn_invec_accessed (v : list Z) (c : connection_t) : connection_t :=
  {| conn_status := c.(conn_status); conn_p_client := c.(conn_p_client); conn_service :=
     c.(conn_service); conn_msg := c.(conn_msg); conn_invec_base := c.(conn_invec_base);
     conn_invec_accessed := v; conn_outvec_base := c.(conn_outvec_base);
     conn_outvec_written := c.(conn_outvec_written); conn_caller_outvec :=
     c.(conn_caller_outvec); conn_client_data := c.(conn_client_data); conn_iovec_status
     := c.(conn_iovec_status); conn_p_reqs := c.(conn_p_reqs); conn_p_replied :=
     c.(conn_p_replied); conn_replied_value := c.(conn_replied_value) |}.
Definition set_conn_outvec_base (v : list Z) (c : connection_t) : connection_t :=
  {| conn_status := c.(conn_status); conn_p_client := c.(conn_p_client); conn_service :=
     c.(conn_service); conn_msg := c.(conn_msg); conn_invec_base := c.(conn_invec_base);
     conn_invec_accessed := c.(conn_invec_accessed); conn_outvec_base := v;
     conn_outvec_written := c.(conn_outvec_written); conn_caller_outvec :=
     c.(conn_caller_outvec); conn_client_data := c.(conn_client_data); conn_iovec_status
     := c.(conn_iovec_status); conn_p_reqs := c.(conn_p_reqs); conn_p_replied :=
     c.(conn_p_replied); conn_replied_value := c.(conn_replied_value) |}.
Definition set_conn_outvec_written (v : list Z) (c : connection_t) : connection_t :=
  {| conn_status := c.(conn_status); conn_p_client := c.(conn_p_client); conn_service :=
     c.(conn_service); conn_msg := c.(conn_msg); conn_invec_base := c.(conn_invec_base);
     conn_invec_accessed := c.(conn_invec_accessed); conn_outvec_base :=
     c.(conn_outvec_base); conn_outvec_written := v; conn_caller_outvec :=
     c.(conn_caller_outvec); conn_client_data := c.(conn_client_data); conn_iovec_status
     := c.(conn_iovec_status); conn_p_reqs := c.(conn_p_reqs); conn_p_replied :=
     c.(conn_p_replied); conn_replied_value := c.(conn_replied_value) |}.
Definition set_conn_caller_outvec (v : Z) (c : connection_t) : connection_t :=
  {| conn_status := c.(conn_status); conn_p_client := c.(conn_p_client); conn_service :=
     c.(conn_service); conn_msg := c.(conn_msg); conn_invec_base := c.(conn_invec_base);
     conn_invec_accessed := c.(conn_invec_accessed); conn_outvec_base :=
     c.(conn_outvec_base); conn_outvec_written := c.(conn_outvec_written);
     conn_caller_outvec := v; conn_client_data := c.(conn_client_data);
     conn_iovec_status := c.(conn_iovec_status); conn_p_reqs := c.(conn_p_reqs);
     conn_p_replied := c.(conn_p_replied); conn_replied_value := c.(conn_replied_value) |}.
Definition set_conn_client_data (v : Z) (c : connection_t) : connection_t :=
  {| conn_status := c.(conn_status); conn_p_client := c.(conn_p_client); conn_service :=
     c.(conn_service); conn_msg := c.(conn_msg); conn_invec_base := c.(conn_invec_base);
     conn_invec_accessed := c.(conn_invec_accessed); conn_outvec_base :=
     c.(conn_outvec_base); conn_outvec_written := c.(conn_outvec_written);
     conn_caller_outvec := c.(conn_caller_outvec); conn_client_data := v;
     conn_iovec_status := c.(conn_iovec_status); conn_p_reqs := c.(conn_p_reqs);
     conn_p_replied := c.(conn_p_replied); conn_replied_value := c.(conn_replied_value) |}.
Definition set_conn_iovec_status (v : Z) (c : connection_t) : connection_t :=
  {| conn_status := c.(conn_status); conn_p_client := c.(conn_p_client); conn_service :=
     c.(conn_service); conn_msg := c.(conn_msg); conn_invec_base := c.(conn_invec_base);
     conn_invec_accessed := c.(conn_invec_accessed); conn_outvec_base :=
     c.(conn_outvec_base); conn_outvec_written := c.(conn_outvec_written);
     conn_caller_outvec := c.(conn_caller_outvec); conn_client_data :=
     c.(conn_client_data); conn_iovec_status := v; conn_p_reqs := c.(conn_p_reqs);
     conn_p_replied := c.(conn_p_replied); conn_replied_value := c.(conn_replied_value) |}.
Definition set_conn_p_reqs (v : Z) (c : connection_t) : connection_t :=
  {| conn_status := c.(conn_status); conn_p_client := c.(conn_p_client); conn_service :=
     c.(conn_service); conn_msg := c.(conn_msg); conn_invec_base := c.(conn_invec_base);
     conn_invec_accessed := c.(conn_invec_accessed); conn_outvec_base :=
     c.(conn_outvec_base); conn_outvec_written := c.(conn_outvec_written);
     conn_caller_outvec := c.(conn_caller_outvec); conn_client_data :=
     c.(conn_client_data); conn_iovec_status := c.(conn_iovec_status); conn_p_reqs := v;
     conn_p_replied := c.(conn_p_replied); conn_replied_value := c.(conn_replied_value) |}.
Definition set_conn_p_replied (v : Z) (c : connection_t) : connection_t :=
  {| conn_status := c.(conn_status); conn_p_client := c.(conn_p_client); conn_service :=
     c.(conn_service); conn_msg := c.(conn_msg); conn_invec_base := c.(conn_invec_base);
     conn_invec_accessed := c.(conn_invec_accessed); conn_outvec_base :=
     c.(conn_outvec_base); conn_outvec_written := c.(conn_outvec_written);
     conn_caller_outvec := c.(conn_caller_outvec); conn_client_data :=
     c.(conn_client_data); conn_iovec_status := c.(conn_iovec_status); conn_p_reqs :=
     c.(conn_p_reqs); conn_p_replied := v; conn_replied_value := c.(conn_replied_value) |}.
Definition set_conn_replied_value (v : Z) (c : connection_t) : connection_t :=
  {| conn_status := c.(conn_status); conn_p_client := c.(conn_p_client); conn_service :=
     c.(conn_service); conn_msg := c.(conn_msg); conn_invec_base := c.(conn_invec_base);
     conn_invec_accessed := c.(conn_invec_accessed); conn_outvec_base :=
     c.(conn_outvec_base); conn_outvec_written := c.(conn_outvec_written);
     conn_caller_outvec := c.(conn_caller_outvec); conn_client_data :=
     c.(conn_client_data); conn_iovec_status := c.(conn_iovec_status); conn_p_reqs :=
     c.(conn_p_reqs); conn_p_replied := c.(conn_p_replied); conn_replied_value := v |}.

(** [struct partition_t] *)
Record partition_t := {
  part_ldinf : partition_load_info_t;
  part_boundary : Z;
  part_signals_allowed : Z;
  part_signals_waiting : Z;
  part_signals_asserted : Z;
  part_p_replied : Z;
  part_p_reqs : Z;
  part_next : Z;
}.
Definition set_part_signals_allowed (v : Z) (p : partition_t) : partition_t :=
  {| part_ldinf := p.(part_ldinf); part_boundary := p.(part_boundary);
     part_signals_allowed := v; part_signals_waiting := p.(part_signals_waiting);
     part_signals_asserted := p.(part_signals_asserted); part_p_replied :=
     p.(part_p_replied); part_p_reqs := p.(part_p_reqs); part_next := p.(part_next) |}.
Definition set_part_signals_waiting (v : Z) (p : partition_t) : partition_t :=
  {| part_ldinf := p.(part_ldinf); part_boundary := p.(part_boundary);
     part_signals_allowed := p.(part_signals_allowed); part_signals_waiting := v;
     part_signals_asserted := p.(part_signals_asserted); part_p_replied :=
     p.(part_p_replied); part_p_reqs := p.(part_p_reqs); part_next := p.(part_next) |}.
Definition set_part_signals_asserted (v : Z) (p : partition_t) : partition_t :=
  {| part_ldinf := p.(part_ldinf); part_boundary := p.(part_boundary);
     part_signals_allowed := p.(part_signals_allowed); part_signals_waiting :=
     p.(part_signals_waiting); part_signals_asserted := v; part_p_replied :=
     p.(part_p_replied); part_p_reqs := p.(part_p_reqs); part_next := p.(part_next) |}.
Definition set_part_p_replied (v : Z) (p : partition_t) : partition_t :=
  {| part_ldinf := p.(part_ldinf); part_boundary := p.(part_boundary);
     part_signals_allowed := p.(part_signals_allowed); part_signals_waiting :=
     p.(part_signals_waiting); part_signals_asserted := p.(part_signals_asserted);
     part_p_replied := v; part_p_reqs := p.(part_p_reqs); part_next := p.(part_next) |}.
Definition set_part_p_reqs (v : Z) (p : partition_t) : partition_t :=
  {| part_ldinf := p.(part_ldinf); part_boundary := p.(part_boundary);
     part_signals_allowed := p.(part_signals_allowed); part_signals_waiting :=
     p.(part_signals_waiting); part_signals_asserted := p.(part_signals_asserted);
     part_p_replied := p.(part_p_replied); part_p_reqs := v; part_next := p.(part_next) |}.
Definition set_part_next (v : Z) (p : partition_t) : partition_t :=
  {| part_ldinf := p.(part_ldinf); part_boundary := p.(part_boundary);
     part_signals_allowed := p.(part_signals_allowed); part_signals_waiting :=
     p.(part_signals_waiting); part_signals_asserted := p.(part_signals_asserted);
     part_p_replied := p.(part_p_replied); part_p_reqs := p.(part_p_reqs); part_next :=
     v |}.

(** [struct service_t] *)
Record service_t := {
  serv_ldinf : service_load_info_t;
  serv_partition : Z;
  serv_next : Z;
}.
Definition set_serv_next (v : Z) (x : service_t) : service_t :=
  {| serv_ldinf := x.(serv_ldinf); serv_partition := x.(serv_partition); serv_next := v |}.

(** The objects of the SPM *)
Record spm := {
  sp_conns : gmap Z connection_t;  (* the contents of the allocated connections *)
  sp_space : conn_space;  (* spm_connection_pool.c *)
  sp_parts : gmap Z partition_t;
  sp_parts_head : Z;  (* partition_listhead.next *)
  sp_servs : gmap Z service_t;
  sp_services_head : Z;  (* services_listhead.next *)
  sp_ref_tbl : list Z;  (* stateless_services_ref_tbl *)
  sp_current : Z;  (* the running partition *)
  sp_ns_client_id : Z;  (* of the non-secure caller *)
  sp_mem : gmap Z Z;  (* client and partition memory, by byte *)
  sp_irq_log : list (Z * Z);  (* the calls made to the interrupt HAL *)
}.
Definition set_sp_conns (v : gmap Z connection_t) (s : spm) : spm :=
  {| sp_conns := v; sp_space := s.(sp_space); sp_parts := s.(sp_parts); sp_parts_head :=
     s.(sp_parts_head); sp_servs := s.(sp_servs); sp_services_head :=
     s.(sp_services_head); sp_ref_tbl := s.(sp_ref_tbl); sp_current := s.(sp_current);
     sp_ns_client_id := s.(sp_ns_client_id); sp_mem := s.(sp_mem); sp_irq_log :=
     s.(sp_irq_log) |}.
Definition set_sp_space (v : conn_space) (s : spm) : spm :=
  {| sp_conns := s.(sp_conns); sp_space := v; sp_parts := s.(sp_parts); sp_parts_head :=
     s.(sp_parts_head); sp_servs := s.(sp_servs); sp_services_head :=
     s.(sp_services_head); sp_ref_tbl := s.(sp_ref_tbl); sp_current := s.(sp_current);
     sp_ns_client_id := s.(sp_ns_client_id); sp_mem := s.(sp_mem); sp_irq_log :=
     s.(sp_irq_log) |}.
Definition set_sp_parts (v : gmap Z partition_t) (s : spm) : spm :=
  {| sp_conns := s.(sp_conns); sp_space := s.(sp_space); sp_parts := v; sp_parts_head :=
     s.(sp_parts_head); sp_servs := s.(sp_servs); sp_services_head :=
     s.(sp_services_head); sp_ref_tbl := s.(sp_ref_tbl); sp_current := s.(sp_current);
     sp_ns_client_id := s.(sp_ns_client_id); sp_mem := s.(sp_mem); sp_irq_log :=
     s.(sp_irq_log) |}.
Definition set_sp_servs (v : gmap Z service_t) (s : spm) : spm :=
  {| sp_conns := s.(sp_conns); sp_space := s.(sp_space); sp_parts := s.(sp_parts);
     sp_parts_head := s.(sp_parts_head); sp_servs := v; sp_services_head :=
     s.(sp_services_head); sp_ref_tbl := s.(sp_ref_tbl); sp_current := s.(sp_current);
     sp_ns_client_id := s.(sp_ns_client_id); sp_mem := s.(sp_mem); sp_irq_log :=
     s.(sp_irq_log) |}.
Definition set_sp_services_head (v : Z) (s : spm) : spm :=
  {| sp_conns := s.(sp_conns); sp_space := s.(sp_space); sp_parts := s.(sp_parts);
     sp_parts_head := s.(sp_parts_head); sp_servs := s.(sp_servs); sp_services_head :=
     v; sp_ref_tbl := s.(sp_ref_tbl); sp_current := s.(sp_current); sp_ns_client_id :=
     s.(sp_ns_client_id); sp_mem := s.(sp_mem); sp_irq_log := s.(sp_irq_log) |}.
Definition set_sp_ref_tbl (v : list Z) (s : spm) : spm :=
  {| sp_conns := s.(sp_conns); sp_space := s.(sp_space); sp_parts := s.(sp_parts);
     sp_parts_head := s.(sp_parts_head); sp_servs := s.(sp_servs); sp_services_head :=
     s.(sp_services_head); sp_ref_tbl := v; sp_current := s.(sp_current);
     sp_ns_client_id := s.(sp_ns_client_id); sp_mem := s.(sp_mem); sp_irq_log :=
     s.(sp_irq_log) |}.
Definition set_sp_current (v : Z) (s : spm) : spm :=
  {| sp_conns := s.(sp_conns); sp_space := s.(sp_space); sp_parts := s.(sp_parts);
     sp_parts_head := s.(sp_parts_head); sp_servs := s.(sp_servs); sp_services_head :=
     s.(sp_services_head); sp_ref_tbl := s.(sp_ref_tbl); sp_current := v;
     sp_ns_client_id := s.(sp_ns_client_id); sp_mem := s.(sp_mem); sp_irq_log :=
     s.(sp_irq_log) |}.
Definition set_sp_mem (v : gmap Z Z) (s : spm) : spm :=
  {| sp_conns := s.(sp_conns); sp_space := s.(sp_space); sp_parts := s.(sp_parts);
     sp_parts_head := s.(sp_parts_head); sp_servs := s.(sp_servs); sp_services_head :=
     s.(sp_services_head); sp_ref_tbl := s.(sp_ref_tbl); sp_current := s.(sp_current);
     sp_ns_client_id := s.(sp_ns_client_id); sp_mem := v; sp_irq_log := s.(sp_irq_log) |}.
Definition set_sp_irq_log (v : list (Z * Z)) (s : spm) : spm :=
  {| sp_conns := s.(sp_conns); sp_space := s.(sp_space); sp_parts := s.(sp_parts);
     sp_parts_head := s.(sp_parts_head); sp_servs := s.(sp_servs); sp_services_head :=
     s.(sp_services_head); sp_ref_tbl := s.(sp_ref_tbl); sp_current := s.(sp_current);
     sp_ns_client_id := s.(sp_ns_client_id); sp_mem := s.(sp_mem); sp_irq_log := v |}.

(** ** Build options and the platform

    The build options of the SPM, the place of its connection pool, and
    [tfm_hal_memory_check] of the platform: whether a partition with the given
    boundary may access a range of memory in the given way. *)
Class SpmConfig := {
  debug : bool;                    (* NDEBUG is not defined *)
  PSA_FRAMEWORK_HAS_MM_IOVEC : bool;
  CONFIG_TFM_CONNECTION_BASED_SERVICE_API : bool;
  TFM_PARTITION_NS_AGENT_MAILBOX : bool;
  connection_pool : Z;             (* address of the pool buffer *)
  sizeof_connection : Z;
  CONFIG_TFM_CONN_HANDLE_MAX_NUM : Z;
  recycled : connection_t;         (* what a fresh chunk happens to contain *)
  tfm_hal_memory_check : Z -> Z -> Z -> Z -> Z;
}.

(** ** Access to the objects

    Dereferencing an address at which there is no object is undefined. *)

Abbreviation SPM := (M spm).

Definition deref {A} (f : spm -> gmap Z A) (p : Z) : SPM A := fun s =>
  match f s !! p with
  | Some x => (Val x, s)
  | None => (Halt OutOfBounds, s)
  end.

Definition get_conn : Z -> SPM connection_t := deref sp_conns.
Definition get_part : Z -> SPM partition_t := deref sp_parts.
Definition get_serv : Z -> SPM service_t := deref sp_servs.

Definition upd_conn (p : Z) (f : connection_t -> connection_t) : SPM unit :=
  c ← get_conn p; modifyS (fun s => set_sp_conns (<[p := f c]> s.(sp_conns)) s).
Definition upd_part (p : Z) (f : partition_t -> partition_t) : SPM unit :=
  x ← get_part p; modifyS (fun s => set_sp_parts (<[p := f x]> s.(sp_parts)) s).
Definition upd_serv (p : Z) (f : service_t -> service_t) : SPM unit :=
  x ← get_serv p; modifyS (fun s => set_sp_servs (<[p := f x]> s.(sp_servs)) s).

(** [tfm_core_panic()] *)
Definition tfm_core_panic {A} : SPM A := stop CorePanic.

(** Byte memory: [spm_memcpy] reads and writes through these. *)
Fixpoint mem_read (m : gmap Z Z) (p : Z) (n : nat) : option bytes :=
  match n with
  | O => Some []
  | S k => b ← m !! p; l ← mem_read m (p + 1) k; Some (b :: l)
  end.
Fixpoint mem_write (m : gmap Z Z) (p : Z) (l : bytes) : option (gmap Z Z) :=
  match l with
  | [] => Some m
  | b :: l' => _ ← m !! p; mem_write (<[p := b]> m) (p + 1) l'
  end.

Definition read_bytes (p n : Z) : SPM bytes := fun s =>
  match mem_read s.(sp_mem) p (Z.to_nat n) with
  | Some l => (Val l, s)
  | None => (Halt OutOfBounds, s)
  end.
Definition write_bytes (p : Z) (l : bytes) : SPM unit := fun s =>
  match mem_write s.(sp_mem) p l with
  | Some m => (Val tt, set_sp_mem m s)
  | None => (Halt OutOfBounds, s)
  end.
Definition spm_memcpy (dest src n : Z) : SPM unit :=
  l ← read_bytes src n; write_bytes dest l.

(** An array of structs of two words, such as [psa_invec] and [psa_outvec]:
    element [i] is [(base, len)]. *)
Definition sizeof_psa_vec : Z := 8.
Fixpoint decode_vecs (n : nat) (l : bytes) : list (Z * Z) :=
  match n with
  | O => []
  | S k => (of_le32 l, of_le32 (drop 4 l)) :: decode_vecs k (drop 8 l)
  end.

(** [a\[i\]] for a field that is a C array; reading outside it is undefined. *)
Definition elem (l : list Z) (i : Z) : SPM Z :=
  match (if i <? 0 then None else l !! Z.to_nat i) with
  | Some x => mret x
  | None => stop OutOfBounds
  end.
Definition set_elem (l : list Z) (i x : Z) : list Z := <[Z.to_nat i := x]> l.

(** ** The connection pool, as the SPM uses it

    The pool hands out addresses; the object at the address exists from
    allocation to release. *)
Section Pool.
Context {cfg : SpmConfig}.

Definition on_space {A} (m : M conn_space A) : SPM A := fun s =>
  let '(r, x) := m s.(sp_space) in (r, set_sp_space x s).

Definition alloc_connection : SPM Z :=
  p ← on_space (spm_allocate_connection debug connection_pool);
  if p =? NULL then mret NULL
  else
    _ ← modifyS (fun s => set_sp_conns (<[p := recycled]> s.(sp_conns)) s);
    mret p.

Definition free_connection (p : Z) : SPM unit :=
  _ ← on_space (spm_free_connection debug connection_pool p);
  modifyS (fun s => set_sp_conns (delete p s.(sp_conns)) s).

Definition IS_NS_AGENT_MAILBOX (pldi : partition_load_info_t) : bool :=
  TFM_PARTITION_NS_AGENT_MAILBOX && truth (Z.land pldi.(pl_flags) PARTITION_NS_AGENT_MB).
End Pool.

(** ** The MM-IOVEC status word: four bits for each vector *)

Definition IOVEC_STATUS_BITS : Z := 4.
Definition OUTVEC_IDX_BASE : Z := 4.
Definition INVEC_IDX_BASE : Z := 0.
Definition IOVEC_MAPPED_BIT : Z := 1.
Definition IOVEC_UNMAPPED_BIT : Z := 2.
Definition IOVEC_ACCESSED_BIT : Z := 4.

Definition iovec_bit (bit : Z) (c : connection_t) (iovec_idx : Z) : bool :=
  truth (Z.land (Z.shiftr c.(conn_iovec_status) (iovec_idx * IOVEC_STATUS_BITS)) bit).
Definition IOVEC_IS_MAPPED := iovec_bit IOVEC_MAPPED_BIT.
Definition IOVEC_IS_UNMAPPED := iovec_bit IOVEC_UNMAPPED_BIT.
Definition IOVEC_IS_ACCESSED := iovec_bit IOVEC_ACCESSED_BIT.

Definition iovec_on (bit iovec_idx st : Z) : Z :=
  Z.lor st (u32 (Z.shiftl bit (iovec_idx * IOVEC_STATUS_BITS))).
Definition iovec_off (bit iovec_idx st : Z) : Z :=
  Z.land st (u32 (Z.lnot (Z.shiftl bit (iovec_idx * IOVEC_STATUS_BITS)))).

Definition SET_IOVEC_ACCESSED (iovec_idx : Z) (c : connection_t) : connection_t :=
  set_conn_iovec_status (iovec_on IOVEC_ACCESSED_BIT iovec_idx c.(conn_iovec_status)) c.
Definition SET_IOVEC_MAPPED (iovec_idx : Z) (c : connection_t) : connection_t :=
  set_conn_iovec_status (iovec_off IOVEC_UNMAPPED_BIT iovec_idx
    (iovec_on IOVEC_MAPPED_BIT iovec_idx c.(conn_iovec_status))) c.
Definition SET_IOVEC_UNMAPPED (iovec_idx : Z) (c : connection_t) : connection_t :=
  set_conn_iovec_status (iovec_off IOVEC_MAPPED_BIT iovec_idx
    (iovec_on IOVEC_UNMAPPED_BIT iovec_idx c.(conn_iovec_status))) c.

(** ** Linked lists in the objects

    [linked next h l]: following [next] from the pointer [h] one meets exactly
    the objects [l] and then a null pointer. *)
Fixpoint linked (next : Z -> option Z) (h : Z) (l : list Z) : Prop :=
  match l with
  | [] => h = NULL
  | p :: l' => h = p /\ p <> NULL /\ exists n, next p = Some n /\ linked next n l'
  end.

Lemma linked_ext next next' h l :
  (forall p, p ∈ l -> next' p = next p) -> linked next h l -> linked next' h l.
Proof.
  revert h. induction l as [|p l IH]; intros h He; cbn; [done|].
  intros (-> & Hn & n & Hp & Hl). split_and!; [done..|]. exists n.
  rewrite He by apply list_elem_of_here. split; [done|].
  apply IH; [|done]. intros q Hq. apply He. by apply list_elem_of_further.
Qed.

(** A list ends: its nodes are distinct. *)
Lemma linked_functional next h l l' : linked next h l -> linked next h l' -> l = l'.
Proof.
  revert h l'. induction l as [|p l IH]; intros h [|p' l']; cbn; [done|naive_solver..|].
  intros (-> & ? & n & Hn & Hl) (<- & ? & n' & Hn' & Hl'). f_equal.
  apply (IH n); [done|]. congruence.
Qed.

Lemma linked_app next h l1 l2 : linked next h (l1 ++ l2) -> exists h', linked next h' l2.
Proof.
  revert h. induction l1 as [|p l1 IH]; intros h; cbn; [eauto|]. intros (_ & _ & n & _ & Hl). eauto.
Qed.

Lemma linked_at next h l1 p l2 : linked next h (l1 ++ p :: l2) -> linked next p (p :: l2).
Proof. intros H. apply linked_app in H as (h' & H). cbn in *. naive_solver. Qed.

Lemma linked_suffix next h p l : linked next h l -> p ∈ l ->
  exists l1 l2, l = l1 ++ p :: l2 /\ linked next p (p :: l2).
Proof.
  intros Hl Hp. apply list_elem_of_split in Hp as (l1 & l2 & ->). exists l1, l2.
  split; [done|]. by eapply linked_at.
Qed.

Lemma linked_nodup next h l : linked next h l -> NoDup l.
Proof.
  revert h. induction l as [|p l IH]; intros h Hl; [constructor|].
  pose proof Hl as (_ & _ & n & _ & Hl'). constructor; [|by eapply IH].
  intros Hp. destruct (linked_suffix _ _ _ _ Hl' Hp) as (l1 & l2 & -> & H).
  assert (linked next p (p :: l1 ++ p :: l2)) as Hl2 by (cbn in *; naive_solver).
  pose proof (linked_functional _ _ _ _ Hl2 H) as E. apply (f_equal length) in E.
  cbn in E. rewrite length_app in E. cbn in E. lia.
Qed.

(** ** The control word: theorems *)

Lemma lor_pow2_add a n : 0 <= n -> Z.testbit a n = false -> Z.lor a (2 ^ n) = a + 2 ^ n.
Proof.
  intros Hn Ha. assert (Z.land a (2 ^ n) = 0) as H by (rewrite land_pow2, Ha by done; done).
  rewrite <- Z.lxor_lor by done. symmetry. by apply Z.add_nocarry_lxor.
Qed.

Lemma testbit_div a n : 0 <= n -> Z.testbit a n = (a / 2 ^ n mod 2 =? 1).
Proof. intros. pose proof (Z.testbit_spec' a n). destruct (Z.testbit a n); cbn in *; lia. Qed.

Lemma truth_land_pow2 a n : 0 <= n -> truth (Z.land a (2 ^ n)) = Z.testbit a n.
Proof.
  intros. rewrite land_pow2 by done. destruct (Z.testbit a n); [|done].
  apply truth_true. lia.
Qed.

Lemma field_div x k : 0 <= k -> Z.shiftr (Z.land x (Z.shiftl 7 k)) k = x / 2 ^ k mod 8.
Proof.
  intros. rewrite Z.shiftr_land, Z.shiftr_shiftl_l, Z.sub_diag by lia.
  change (Z.shiftl 7 0) with (Z.ones 3). rewrite Z.land_ones, Z.shiftr_div_pow2 by lia. done.
Qed.

Definition packed (t i o : Z) : Z := t + o * 2 ^ 16 + i * 2 ^ 24.

Lemma param_pack_packed type in_len out_len :
  0 <= in_len < 8 -> 0 <= out_len < 8 ->
  PARAM_PACK type in_len out_len = packed (type mod 2 ^ 16) in_len out_len.
Proof.
  intros Hi Ho. unfold PARAM_PACK, packed.
  change TYPE_MASK with (Z.ones 16). rewrite Z.land_ones by lia.
  assert (forall x k, 0 <= x < 8 -> 0 <= k <= 24 ->
    Z.land (u32 (Z.shiftl (u32 x) k)) (Z.shiftl 7 k) = x * 2 ^ k) as Hf.
  { intros x k Hx Hk. assert (2 ^ k <= 2 ^ 24) by (apply Z.pow_le_mono_r; lia).
    rewrite (u32_small x) by (unfold is_u32; lia).
    rewrite u32_small by (unfold is_u32; rewrite Z.shiftl_mul_pow2 by lia; nia).
    rewrite <- Z.shiftl_land. change 7 with (Z.ones 3).
    rewrite Z.land_ones, Z.shiftl_mul_pow2 by lia. rewrite Z.mod_small by (cbn; lia). done. }
  unfold IN_LEN_MASK, OUT_LEN_MASK, IN_LEN_OFFSET, OUT_LEN_OFFSET. rewrite !Hf by lia.
  replace (u32 type mod 2 ^ 16) with (type mod 2 ^ 16) by (unfold u32; lia).
  rewrite <- Z.lor_assoc, (Z.lor_comm (in_len * 2 ^ 24)), Z.lor_assoc.
  rewrite (lor_high_add _ out_len 16) by lia.
  rewrite (lor_high_add _ in_len 24) by lia. done.
Qed.

Lemma packed_unpack t i o q : 0 <= t < 2 ^ 16 -> 0 <= i < 8 -> 0 <= o < 8 ->
  q mod 2 ^ 16 = t -> q / 2 ^ 24 mod 8 = i -> q / 2 ^ 16 mod 8 = o ->
  PARAM_UNPACK_TYPE q = s16 t /\ PARAM_UNPACK_IN_LEN q = i /\ PARAM_UNPACK_OUT_LEN q = o.
Proof.
  intros Ht Hi Ho E1 E2 E3. unfold PARAM_UNPACK_TYPE, PARAM_UNPACK_IN_LEN, PARAM_UNPACK_OUT_LEN.
  change TYPE_MASK with (Z.ones 16). rewrite Z.land_ones by lia.
  unfold IN_LEN_MASK, OUT_LEN_MASK, IN_LEN_OFFSET, OUT_LEN_OFFSET. rewrite !field_div by lia.
  rewrite E1, E2, E3. done.
Qed.

(** The control word of [psa_call] carries what was packed: the type of the
    request (any 16-bit signed number) and the numbers of vectors (up to 7), and
    the non-secure marks that the dispatchers add do not disturb them.  A word
    without the "has vectors" look carries no vectors. *)
Theorem param_pack_roundtrip type in_len out_len :
  - 2 ^ 15 <= type < 2 ^ 15 -> 0 <= in_len < 8 -> 0 <= out_len < 8 ->
  let p := PARAM_PACK type in_len out_len in
  let unpacked q := PARAM_UNPACK_TYPE q = type /\ PARAM_UNPACK_IN_LEN q = in_len /\
                    PARAM_UNPACK_OUT_LEN q = out_len in
  unpacked p /\ unpacked (PARAM_SET_NS_VEC p) /\
  unpacked (PARAM_SET_NS_INVEC (PARAM_SET_NS_OUTVEC p)) /\
  (PARAM_IS_NS_VEC p = false /\ PARAM_IS_NS_INVEC p = false /\ PARAM_IS_NS_OUTVEC p = false) /\
  (PARAM_HAS_IOVEC p = false -> in_len = 0 /\ out_len = 0).
Proof.
  intros Ht Hi Ho p unpacked. unfold unpacked. clear unpacked.
  set (t := type mod 2 ^ 16). assert (0 <= t < 2 ^ 16) by (subst t; lia).
  assert (p = packed t in_len out_len) as Hp by (by apply param_pack_packed).
  assert (type = s16 t) as Hty by (unfold s16, u16; subst t; destruct (Z.ltb_spec (type mod 2 ^ 16 mod 2 ^ 16) (2 ^ 15)); lia).
  clearbody p t. rewrite Hty. clear Ht Hty type. unfold packed in Hp.
  unfold PARAM_SET_NS_VEC, PARAM_SET_NS_INVEC, PARAM_SET_NS_OUTVEC, PARAM_IS_NS_VEC,
    PARAM_IS_NS_INVEC, PARAM_IS_NS_OUTVEC, NS_INVEC_BIT, NS_OUTVEC_BIT.
  change NS_VEC_DESC_BIT with (2 ^ 31). change (Z.shiftl 1 NS_INVEC_OFFSET) with (2 ^ 27).
  change (Z.shiftl 1 NS_OUTVEC_OFFSET) with (2 ^ 19).
  assert (forall n, n = 31 \/ n = 27 \/ n = 19 -> Z.testbit p n = false) as Hbits.
  { intros n Hn. rewrite testbit_div by lia. destruct Hn as [->|[-> | ->]]; lia. }
  rewrite (lor_pow2_add p 31), (lor_pow2_add p 19) by (lia || (apply Hbits; auto)).
  rewrite (lor_pow2_add (p + 2 ^ 19) 27) by (try lia; rewrite testbit_div by lia; lia).
  rewrite !truth_land_pow2, !Hbits by (lia || auto).
  split; [apply packed_unpack; lia|]. split; [apply packed_unpack; lia|].
  split; [apply packed_unpack; lia|]. split; [done|].
  unfold PARAM_HAS_IOVEC. rewrite negb_false_iff, Z.eqb_eq.
  destruct (packed_unpack t in_len out_len p) as (-> & _); [lia..|].
  unfold s16, u16, u32. destruct (Z.ltb_spec (t mod 2 ^ 16) (2 ^ 15)); lia.
Qed.

Lemma param_pack_roundtrip_witness :
  PARAM_UNPACK_TYPE (PARAM_PACK (-7) 3 1) = -7 /\ PARAM_UNPACK_IN_LEN (PARAM_PACK (-7) 3 1) = 3 /\
  PARAM_UNPACK_OUT_LEN (PARAM_PACK (-7) 3 1) = 1.
Proof. exact (proj1 (param_pack_roundtrip (-7) 3 1 ltac:(lia) ltac:(lia) ltac:(lia))). Defined.
