(* ===== verification/SpmThread.v ===== *)
(** The SPM's threads: [secure_fw/spm/core/thread.c] and [thread.h].

    Threads are objects in a linked list sorted by priority.  The state holds the
    objects, the two list heads, the saved contexts and whatever the query
    callback works on ([ext], a type parameter: the backend's partitions).
    [thrd_inv] is the invariant: the list is well formed and sorted, and the
    scan starts at its head.  The theorems show that starting a thread is sorted
    insertion and that the scheduler picks the first runnable thread. *)

From stdpp Require Import base list numbers gmap sorting.
From S2P Require Import Prelude SpmPool SpmTypes.

Definition THRD_STATE_CREATING : Z := 0.
Definition THRD_STATE_RUNNABLE : Z := 1.
Definition THRD_STATE_BLOCK : Z := 2.
Definition THRD_STATE_DETACH : Z := 3.
Definition THRD_STATE_INVALID : Z := 4.
Definition THRD_STATE_RET_VAL_AVAIL : Z := 5.

Record thread_t := {
  th_priority : Z;
  th_state : Z;
  th_flags : Z;
  th_context : Z;     (* p_context_ctrl *)
  th_next : Z;
}.

(** What [tfm_arch_init_context] and [tfm_arch_set_context_ret_code] leave in the
    saved frame of a context. *)
Record saved_frame := {
  fr_r0 : Z;
  fr_ra : Z;
  fr_lr : Z;
}.

Record thrd_sys (X : Type) := {
  ts_threads : gmap Z thread_t;
  ts_head : Z;                       (* p_thrd_head *)
  ts_rnbl : Z;                       (* p_rnbl_head *)
  ts_frames : gmap Z saved_frame;
  ts_cb : option (thread_t -> Z -> M X (Z * Z));   (* query_state_cb *)
  ts_ext : X;
}.
Arguments ts_threads {X}.
Arguments ts_head {X}.
Arguments ts_rnbl {X}.
Arguments ts_frames {X}.
Arguments ts_cb {X}.
Arguments ts_ext {X}.

Section Threads.
Context {X : Type}.

Definition with_threads (v : gmap Z thread_t) (s : thrd_sys X) : thrd_sys X :=
  {| ts_threads := v; ts_head := s.(ts_head); ts_rnbl := s.(ts_rnbl); ts_frames := s.(ts_frames);
     ts_cb := s.(ts_cb); ts_ext := s.(ts_ext) |}.
Definition with_head (v : Z) (s : thrd_sys X) : thrd_sys X :=
  {| ts_threads := s.(ts_threads); ts_head := v; ts_rnbl := s.(ts_rnbl); ts_frames := s.(ts_frames);
     ts_cb := s.(ts_cb); ts_ext := s.(ts_ext) |}.
Definition with_rnbl (v : Z) (s : thrd_sys X) : thrd_sys X :=
  {| ts_threads := s.(ts_threads); ts_head := s.(ts_head); ts_rnbl := v; ts_frames := s.(ts_frames);
     ts_cb := s.(ts_cb); ts_ext := s.(ts_ext) |}.
Definition with_frames (v : gmap Z saved_frame) (s : thrd_sys X) : thrd_sys X :=
  {| ts_threads := s.(ts_threads); ts_head := s.(ts_head); ts_rnbl := s.(ts_rnbl); ts_frames := v;
     ts_cb := s.(ts_cb); ts_ext := s.(ts_ext) |}.
Definition with_cb v (s : thrd_sys X) : thrd_sys X :=
  {| ts_threads := s.(ts_threads); ts_head := s.(ts_head); ts_rnbl := s.(ts_rnbl);
     ts_frames := s.(ts_frames); ts_cb := v; ts_ext := s.(ts_ext) |}.
Definition with_ext (v : X) (s : thrd_sys X) : thrd_sys X :=
  {| ts_threads := s.(ts_threads); ts_head := s.(ts_head); ts_rnbl := s.(ts_rnbl);
     ts_frames := s.(ts_frames); ts_cb := s.(ts_cb); ts_ext := v |}.

Definition set_state (st : Z) (t : thread_t) : thread_t :=
  {| th_priority := t.(th_priority); th_state := u8 st; th_flags := t.(th_flags);
     th_context := t.(th_context); th_next := t.(th_next) |}.
Definition set_next (n : Z) (t : thread_t) : thread_t :=
  {| th_priority := t.(th_priority); th_state := t.(th_state); th_flags := t.(th_flags);
     th_context := t.(th_context); th_next := n |}.

Definition THRD_INIT (p_ctx_ctrl prio : Z) (t : thread_t) : thread_t :=
  {| th_priority := u16 prio; th_state := THRD_STATE_CREATING; th_flags := 0;
     th_context := p_ctx_ctrl; th_next := t.(th_next) |}.

Abbreviation T := (M (thrd_sys X)).

Definition thread (p : Z) : T thread_t := fun s =>
  match s.(ts_threads) !! p with
  | Some t => (Val t, s)
  | None => (Halt OutOfBounds, s)
  end.
Definition upd_thread (p : Z) (f : thread_t -> thread_t) : T unit :=
  t ← thread p; modifyS (fun s => with_threads (<[p := f t]> s.(ts_threads)) s).

(** [core/arch/tfm_arch.c]: the frame on the context's stack. *)
Definition tfm_arch_set_context_ret_code (ctx ret_code : Z) : T unit :=
  modifyS (fun s => with_frames (alter (fun f =>
    {| fr_r0 := ret_code; fr_ra := f.(fr_ra); fr_lr := f.(fr_lr) |}) ctx s.(ts_frames)) s).
Definition tfm_arch_init_context (ctx pfn param pfnlr : Z) : T unit :=
  modifyS (fun s => with_frames (<[ctx := {| fr_r0 := param; fr_ra := pfn; fr_lr := pfnlr |}]>
                                   s.(ts_frames)) s).

Definition thrd_set_query_callback (fn : option (thread_t -> Z -> M X (Z * Z))) : T unit :=
  modifyS (with_cb fn).

Definition run_cb (fn : thread_t -> Z -> M X (Z * Z)) (t : thread_t) (retval : Z) : T (Z * Z) :=
  fun s => let '(r, x) := fn t retval s.(ts_ext) in (r, with_ext x s).

(** One round of the loop of [thrd_next] at thread [p]: [inr p] to leave. *)
Definition thrd_next_round (fn : thread_t -> Z -> M X (Z * Z)) (pr : Z * Z)
  : T ((Z * Z) + Z) :=
  let '(p, retval) := pr in
  if p =? NULL then mret (inr NULL)
  else
    t ← thread p;
    '(st, retval') ← run_cb fn t retval;
    _ ← upd_thread p (set_state st);
    _ ← (if u8 st =? THRD_STATE_RET_VAL_AVAIL then
           _ ← tfm_arch_set_context_ret_code t.(th_context) retval';
           upd_thread p (set_state THRD_STATE_RUNNABLE)
         else mret tt);
    t' ← thread p;
    mret (if t'.(th_state) =? THRD_STATE_RUNNABLE then inr p else inl (t'.(th_next), retval')).

Definition thrd_next : T Z :=
  p ← gets ts_rnbl;
  cb ← gets ts_cb;
  match cb with
  | None => stop AssertFail
  | Some fn => while_loop (thrd_next_round fn) (p, 0)
  end.

Definition insert_by_prior (node : Z) : T unit :=
  n ← thread node;
  head ← gets ts_head;
  at_head ← (if head =? NULL then mret true
             else h ← thread head; mret (n.(th_priority) <=? h.(th_priority)));
  if (at_head : bool) then
    _ ← upd_thread node (set_next head);
    modifyS (with_head node)
  else
    iter ← while_loop (fun iter =>
      it ← thread iter;
      if it.(th_next) =? NULL then mret (inr iter)
      else
        nx ← thread it.(th_next);
        if nx.(th_priority) <? n.(th_priority) then mret (inl it.(th_next))
        else mret (inr iter)) head;
    it ← thread iter;
    _ ← upd_thread node (set_next it.(th_next));
    upd_thread iter (set_next node).

Definition thrd_set_state (p_thrd new_state : Z) : T unit :=
  _ ← assert_that (negb (p_thrd =? NULL));
  _ ← upd_thread p_thrd (set_state new_state);
  t ← thread p_thrd;
  rnbl ← gets ts_rnbl;
  first ← (if t.(th_state) =? THRD_STATE_RUNNABLE then
             if rnbl =? NULL then mret true
             else r ← thread rnbl; mret (t.(th_priority) <? r.(th_priority))
           else mret false);
  if (first : bool) then modifyS (with_rnbl p_thrd)
  else head ← gets ts_head; modifyS (with_rnbl head).

Definition thrd_start (p_thrd fn exit_fn param : Z) : T unit :=
  _ ← assert_that (negb (p_thrd =? NULL));
  _ ← assert_that (negb (fn =? NULL));
  _ ← insert_by_prior p_thrd;
  t ← thread p_thrd;
  _ ← tfm_arch_init_context t.(th_context) fn param exit_fn;
  thrd_set_state p_thrd THRD_STATE_RUNNABLE.

(** [thrd_start_scheduler] up to the return into the first thread's context. *)
Definition thrd_start_scheduler : T Z :=
  pth ← thrd_next;
  _ ← assert_that (negb (pth =? NULL));
  mret pth.

(** ** The invariant *)

Definition next_of (ths : gmap Z thread_t) (p : Z) : option Z := th_next <$> (ths !! p).
Definition prio_of (ths : gmap Z thread_t) (p : Z) : Z :=
  match ths !! p with Some t => t.(th_priority) | None => 0 end.

Record thrd_inv (s : thrd_sys X) (l : list Z) : Prop := {
  ti_linked : linked (next_of s.(ts_threads)) s.(ts_head) l;
  ti_sorted : StronglySorted (fun p q => prio_of s.(ts_threads) p <= prio_of s.(ts_threads) q) l;
  ti_rnbl : s.(ts_rnbl) = s.(ts_head);
  ti_short : Z.of_nat (length l) < 2 ^ 32 - 1;
}.

(** Where a new thread goes: before the first one whose priority value is not
    below its own. *)
Fixpoint insert_sorted (prio : Z -> Z) (p : Z) (l : list Z) : list Z :=
  match l with
  | [] => [p]
  | q :: l' => if prio p <=? prio q then p :: l else q :: insert_sorted prio p l'
  end.
End Threads.

(** ** Sorted insertion *)

Section Insertion.
Context (prio : Z -> Z) (p : Z).

Lemma insert_sorted_split l1 l2 :
  Forall (fun q => prio q < prio p) l1 ->
  match l2 with [] => True | q :: _ => prio p <= prio q end ->
  insert_sorted prio p (l1 ++ l2) = l1 ++ p :: l2.
Proof.
  intros H1 H2. induction l1 as [|q l1 IH]; cbn.
  - destruct l2 as [|q l2]; [done|]. cbn. by destruct (Z.leb_spec (prio p) (prio q)); [|lia].
  - rewrite Forall_cons in H1. destruct H1 as [Hq H1].
    destruct (Z.leb_spec (prio p) (prio q)); [lia|]. by rewrite IH.
Qed.

Lemma elem_of_insert_sorted q l : q ∈ insert_sorted prio p l <-> q = p \/ q ∈ l.
Proof.
  induction l as [|r l IH]; cbn; [set_solver|].
  destruct (prio p <=? prio r); rewrite ?elem_of_cons, ?IH; set_solver.
Qed.

Lemma insert_sorted_sorted l :
  StronglySorted (fun a b => prio a <= prio b) l ->
  StronglySorted (fun a b => prio a <= prio b) (insert_sorted prio p l).
Proof.
  induction l as [|q l IH]; intros Hs; cbn; [repeat constructor|].
  inversion Hs as [|? ? Hs' Hall]; subst.
  destruct (Z.leb_spec (prio p) (prio q)); constructor.
  - done.
  - constructor; [done|]. eapply Forall_impl; [exact Hall|]. intros ? ?. cbn in *. lia.
  - by apply IH.
  - apply Forall_forall. intros r Hr. apply elem_of_insert_sorted in Hr as [->|Hr]; [lia|].
    rewrite Forall_forall in Hall. by apply Hall.
Qed.

Lemma length_insert_sorted l : length (insert_sorted prio p l) = S (length l).
Proof. induction l as [|q l IH]; cbn; [done|]. destruct (prio p <=? prio q); cbn; congruence. Qed.
End Insertion.

(** Linking [p] behind [q]. *)
Lemma linked_insert_after next next' h l1 q l2 p :
  linked next h (l1 ++ q :: l2) -> p <> NULL -> p ∉ l1 ++ q :: l2 ->
  next' q = Some p -> next' p = next q ->
  (forall x, x <> q -> x <> p -> next' x = next x) ->
  linked next' h (l1 ++ q :: p :: l2).
Proof.
  revert h. induction l1 as [|r l1 IH]; intros h Hl Hp Hnp Hq' Hp' Ho.
  - cbn in *. destruct Hl as (-> & Hq & n & Hn & Hl). split_and!; [done..|].
    exists p. split_and!; [done..|]. exists n. split; [congruence|].
    pose proof (linked_nodup next q (q :: l2)) as Hnd. cbn in Hnd.
    rewrite NoDup_cons in Hnd. destruct Hnd as [Hql _]; [split_and!; eauto|].
    eapply linked_ext; [|exact Hl]. intros x Hx. apply Ho; set_solver.
  - cbn in Hl. pose proof (linked_nodup next h ((r :: l1) ++ q :: l2)) as Hnd.
    cbn in Hnd. rewrite NoDup_cons in Hnd. destruct (Hnd Hl) as [Hr _].
    destruct Hl as (-> & Hrn & n & Hn & Hl). cbn. split_and!; [done..|].
    exists n. split; [rewrite Ho by set_solver; done|].
    apply IH; [done|done|set_solver|done..].
Qed.

Section ThreadProofs.
Context {X : Type}.
Implicit Types (s : thrd_sys X).

Lemma bind_thread {A} p t (k : thread_t -> M (thrd_sys X) A) s :
  s.(ts_threads) !! p = Some t -> (x ← thread p; k x) s = k t s.
Proof. intros H. unfold mbind, M_bind, thread. by rewrite H. Qed.

Lemma bind_upd_thread {A} p t f (k : unit -> M (thrd_sys X) A) s :
  s.(ts_threads) !! p = Some t ->
  (x ← upd_thread p f; k x) s = k tt (with_threads (<[p := f t]> s.(ts_threads)) s).
Proof.
  intros H. unfold upd_thread. erewrite bind_val; [done|]. by rewrite (bind_thread _ _ _ _ H).
Qed.

Lemma upd_thread_run p t f s :
  s.(ts_threads) !! p = Some t ->
  upd_thread p f s = (Val tt, with_threads (<[p := f t]> s.(ts_threads)) s).
Proof. intros H. unfold upd_thread. by rewrite (bind_thread _ _ _ _ H). Qed.

Lemma linked_mapped ths h l p : linked (next_of ths) h l -> p ∈ l -> is_Some (ths !! p).
Proof.
  intros Hl Hp. destruct (linked_suffix _ _ _ _ Hl Hp) as (l1 & l2 & _ & _ & _ & n & Hn & _).
  unfold next_of in Hn. apply fmap_Some in Hn as (t & Ht & _). by exists t.
Qed.

(** The fields other than the links. *)
Definition same_threads (ths ths' : gmap Z thread_t) : Prop :=
  forall q, (set_next 0 <$> ths' !! q) = (set_next 0 <$> ths !! q).

Lemma same_threads_prio ths ths' q : same_threads ths ths' -> prio_of ths' q = prio_of ths q.
Proof.
  intros H. specialize (H q). unfold prio_of.
  destruct (ths !! q) as [t|], (ths' !! q) as [t'|]; cbn in *; try done.
  by injection H.
Qed.

Lemma same_threads_relink ths p f : (forall t, set_next 0 (f t) = set_next 0 t) ->
  forall t, ths !! p = Some t -> same_threads ths (<[p := f t]> ths).
Proof.
  intros Hf t Ht q. destruct (decide (q = p)) as [->|].
  - rewrite lookup_insert_eq, Ht. cbn. by rewrite Hf.
  - by rewrite lookup_insert_ne.
Qed.

Lemma same_threads_trans a b c : same_threads a b -> same_threads b c -> same_threads a c.
Proof. intros H1 H2 q. by rewrite H2, H1. Qed.

(** What [insert_by_prior] does to a well-formed list. *)
Lemma insert_by_prior_ok s l p t :
  linked (next_of s.(ts_threads)) s.(ts_head) l ->
  StronglySorted (fun a b => prio_of s.(ts_threads) a <= prio_of s.(ts_threads) b) l ->
  Z.of_nat (length l) < 2 ^ 32 - 1 ->
  s.(ts_threads) !! p = Some t -> p <> NULL -> p ∉ l ->
  exists ths h, insert_by_prior p s = (Val tt, with_head h (with_threads ths s)) /\
    linked (next_of ths) h (insert_sorted (prio_of s.(ts_threads)) p l) /\
    same_threads s.(ts_threads) ths.
Proof.
  intros Hl Hsort Hlen Ht Hp Hnp. set (prio := prio_of s.(ts_threads)) in *.
  assert (prio p = t.(th_priority)) as Hpt by (unfold prio, prio_of; by rewrite Ht).
  unfold insert_by_prior. rewrite (bind_thread _ _ _ _ Ht), bind_gets.
  destruct l as [|h l].
  { cbn in Hl. rewrite Hl. cbn [Z.eqb NULL]. rewrite bind_mret.
    rewrite (bind_upd_thread _ _ _ _ _ Ht). do 2 eexists. split; [reflexivity|].
    split; [|by apply same_threads_relink]. cbn. split_and!; [done..|].
    exists NULL. unfold next_of. by rewrite lookup_insert_eq. }
  pose proof Hl as (Hh & Hhn & nh & Hnh & Hl').
  assert (exists th, s.(ts_threads) !! h = Some th) as [th Hth].
  { unfold next_of in Hnh. apply fmap_Some in Hnh as (th & ? & _). by exists th. }
  assert (prio h = th.(th_priority)) as Hpth by (unfold prio, prio_of; by rewrite Hth).
  rewrite Hh. destruct (Z.eqb_spec h NULL); [done|].
  erewrite bind_val; [|erewrite bind_thread by exact Hth; reflexivity].
  destruct (Z.leb_spec t.(th_priority) th.(th_priority)) as [Hle|Hgt].
  { rewrite (bind_upd_thread _ _ _ _ _ Ht). do 2 eexists. split; [reflexivity|].
    split; [|by apply same_threads_relink].
    cbn [insert_sorted]. destruct (Z.leb_spec (prio p) (prio h)); [|lia].
    cbn [linked]. split_and!; [done..|]. exists h. unfold next_of. rewrite lookup_insert_eq.
    split; [done|]. split_and!; [done..|]. exists nh.
    rewrite lookup_insert_ne by set_solver. split; [done|].
    eapply linked_ext; [|exact Hl']. intros x Hx. unfold next_of. rewrite lookup_insert_ne; [done|].
    set_solver. }
  (* somewhere behind the head *)
  match goal with |- context [while_loop ?st h] => set (step := st) end.
  destruct (while_loop_ghost step
    (fun iter l2 s' => s' = s /\ exists l1, h :: l = l1 ++ iter :: l2 /\
       Forall (fun q => prio q < prio p) (l1 ++ [iter]))
    (fun iter s' => s' = s /\ exists l1 l2, h :: l = l1 ++ iter :: l2 /\
       Forall (fun q => prio q < prio p) (l1 ++ [iter]) /\
       match l2 with [] => True | q :: _ => prio p <= prio q end)
    (fun l2 => Z.of_nat (length l2)))
    with (x := h) (g := l) (s := s) as (iter & s' & Hloop & -> & l1 & l2 & Hsplit & Hlt & Hge).
  { intros iter l2 s' (-> & l1 & Hsplit & Hlt). rewrite Hsplit in Hl.
    pose proof (linked_at _ _ _ _ _ Hl) as (_ & _ & nn & Hn & Hl2).
    destruct (linked_mapped _ _ _ iter Hl) as [it Hit]; [set_solver|].
    unfold next_of in Hn. rewrite Hit in Hn. injection Hn as Hn.
    unfold step. rewrite (bind_thread _ _ _ _ Hit), Hn.
    destruct l2 as [|q l2].
    - cbn in Hl2. rewrite Hl2. exists (inr iter), s. split; [done|]. split; [done|]. eauto 10.
    - destruct Hl2 as (-> & Hqn & _). destruct (Z.eqb_spec q NULL); [done|].
      destruct (linked_mapped _ _ _ q Hl) as [qt Hqt]; [set_solver|].
      assert (prio q = qt.(th_priority)) as Hpq by (unfold prio, prio_of; by rewrite Hqt).
      rewrite (bind_thread _ _ _ _ Hqt).
      destruct (Z.ltb_spec qt.(th_priority) t.(th_priority)).
      + exists (inl q), s. split; [done|]. exists l2. split; [|cbn [length]; lia].
        split; [done|]. exists (l1 ++ [iter]). rewrite <- app_assoc. split; [done|].
        apply Forall_app. split; [done|]. constructor; [lia|constructor].
      + exists (inr iter), s. split; [done|]. split; [done|]. exists l1, (q :: l2).
        split; [done|]. split; [done|]. lia. }
  { split; [done|]. exists []. split; [done|]. constructor; [lia|constructor]. }
  { cbn [length] in Hlen. lia. }
  rewrite (bind_val _ _ _ _ _ Hloop). rewrite Hsplit in Hl, Hnp |- *.
  destruct (linked_mapped _ _ _ iter Hl) as [it Hit]; [set_solver|].
  assert (iter <> p) as Hip by set_solver.
  rewrite (bind_thread _ _ _ _ Hit), (bind_upd_thread _ _ _ _ _ Ht).
  assert ((<[p := set_next it.(th_next) t]> s.(ts_threads)) !! iter = Some it) as Hit'
    by (by rewrite lookup_insert_ne).
  rewrite (upd_thread_run iter it (set_next p)) by exact Hit'.
  exists (<[iter := set_next p it]> (<[p := set_next it.(th_next) t]> s.(ts_threads))), s.(ts_head).
  split; [unfold with_threads, with_head; cbn; reflexivity|].
  split.
  - replace (l1 ++ iter :: l2) with ((l1 ++ [iter]) ++ l2) by (by rewrite <- app_assoc).
    rewrite insert_sorted_split by done. rewrite <- app_assoc. cbn [app].
    eapply linked_insert_after; [exact Hl|done|done|..]; unfold next_of.
    + rewrite lookup_insert_eq. done.
    + rewrite lookup_insert_ne, lookup_insert_eq, Hit by done. done.
    + intros x Hx1 Hx2. rewrite !lookup_insert_ne by done. done.
  - apply same_threads_trans with (<[p := set_next it.(th_next) t]> s.(ts_threads));
      [by apply same_threads_relink|].
    apply same_threads_relink; [done|]. exact Hit'.
Qed.

Lemma set_state_lookup (ths : gmap Z thread_t) p t st q :
  ths !! p = Some t ->
  next_of (<[p := set_state st t]> ths) q = next_of ths q /\
  prio_of (<[p := set_state st t]> ths) q = prio_of ths q.
Proof.
  intros Ht. unfold next_of, prio_of. destruct (decide (q = p)) as [->|].
  - by rewrite lookup_insert_eq, Ht.
  - by rewrite lookup_insert_ne.
Qed.

Lemma sorted_head (prio : Z -> Z) h l p :
  StronglySorted (fun a b => prio a <= prio b) (h :: l) -> p ∈ h :: l -> prio h <= prio p.
Proof.
  intros Hs Hp. inversion Hs as [|? ? _ Hall]; subst. apply elem_of_cons in Hp as [->|Hp]; [lia|].
  rewrite Forall_forall in Hall. by apply Hall.
Qed.

(** Changing the state of a thread of the list puts the scan's start back to the
    head, whatever it was: [rnbl] is the head, or a thread that outranks nobody
    in front of it. *)
Lemma thrd_set_state_ok s l p t st :
  linked (next_of s.(ts_threads)) s.(ts_head) l ->
  StronglySorted (fun a b => prio_of s.(ts_threads) a <= prio_of s.(ts_threads) b) l ->
  Z.of_nat (length l) < 2 ^ 32 - 1 ->
  s.(ts_threads) !! p = Some t -> p ∈ l ->
  (s.(ts_rnbl) = NULL /\ s.(ts_head) = p) \/
  (s.(ts_rnbl) <> NULL /\ s.(ts_rnbl) ∈ l /\
   (prio_of s.(ts_threads) p < prio_of s.(ts_threads) s.(ts_rnbl) -> s.(ts_head) = p)) ->
  let s' := with_rnbl s.(ts_head) (with_threads (<[p := set_state st t]> s.(ts_threads)) s) in
  thrd_set_state p st s = (Val tt, s') /\ thrd_inv s' l.
Proof.
  intros Hl Hsort Hlen Ht Hp Hr. cbv zeta.
  pose proof (set_state_lookup s.(ts_threads) p t st) as Hss.
  assert (p <> NULL) as Hpn.
  { destruct (linked_suffix _ _ _ _ Hl Hp) as (? & ? & _ & _ & ? & _). done. }
  split; last first.
  { split; cbn.
    - eapply linked_ext; [|exact Hl]. intros q _. by apply Hss.
    - eapply StronglySorted_ind with (P := StronglySorted _); [constructor| |exact Hsort].
      intros a k _ IH Hall. constructor; [done|]. eapply Forall_impl; [exact Hall|].
      intros b Hb. cbn in *. destruct (Hss a Ht) as [_ ->], (Hss b Ht) as [_ ->]. done.
    - done.
    - done. }
  unfold thrd_set_state. destruct (Z.eqb_spec p NULL); [done|]. cbn [negb assert_that].
  rewrite bind_mret, (bind_upd_thread _ _ _ _ _ Ht).
  set (s1 := with_threads (<[p := set_state st t]> s.(ts_threads)) s).
  assert (s1.(ts_threads) !! p = Some (set_state st t)) as Ht1 by apply lookup_insert_eq.
  rewrite (bind_thread _ _ _ _ Ht1), bind_gets.
  change (ts_rnbl s1) with (ts_rnbl s). set (stp := set_state st t) in *.
  assert (exists b, (if th_state stp =? THRD_STATE_RUNNABLE then
             if ts_rnbl s =? NULL then mret true
             else r ← thread (ts_rnbl s); mret (th_priority stp <? th_priority r)
           else mret false) s1 = (Val b, s1) /\ (b = true -> ts_head s = p)) as (b & Hb & Hbp).
  { destruct (th_state stp =? THRD_STATE_RUNNABLE); [|by exists false].
    destruct Hr as [[-> Hhp]|(Hrn & Hrl & Hrp)]; [by exists true|].
    destruct (Z.eqb_spec (ts_rnbl s) NULL); [done|].
    assert (is_Some (ts_threads s1 !! ts_rnbl s)) as [rt Hrt].
    { cbn. rewrite lookup_insert_is_Some'. right. by eapply linked_mapped. }
    rewrite (bind_thread _ _ _ _ Hrt). eexists. split; [done|]. intros Hlt. apply Hrp.
    assert (prio_of (ts_threads s) p = th_priority stp) as -> by (unfold prio_of; by rewrite Ht).
    assert (prio_of (ts_threads s) (ts_rnbl s) = th_priority rt) as ->.
    { destruct (Hss (ts_rnbl s) Ht) as [_ <-]. unfold prio_of. cbn in Hrt. by rewrite Hrt. }
    lia. }
  rewrite (bind_val _ _ _ _ _ Hb). destruct b; [by rewrite Hbp|done].
Qed.
End ThreadProofs.

(** Starting a thread is sorted insertion.  [thrd_start] on a new thread puts
    it into the scheduler's list in front of the first thread whose priority
    value is not lower, marks it runnable, prepares its context, and changes
    nothing else about the threads; the list stays well formed and sorted.  The
    "first runnable" pointer is again the head of the list, so the scan never
    misses the new thread. *)
Theorem thrd_start_sorted {X} (s : thrd_sys X) l p t fn exit_fn param :
  thrd_inv s l -> s.(ts_threads) !! p = Some t -> p <> NULL -> p ∉ l -> fn <> NULL ->
  Z.of_nat (length l) < 2 ^ 32 - 2 ->
  exists s', thrd_start p fn exit_fn param s = (Val tt, s') /\
    thrd_inv s' (insert_sorted (prio_of s.(ts_threads)) p l) /\
    (th_state <$> s'.(ts_threads) !! p) = Some THRD_STATE_RUNNABLE /\
    (forall q, q <> p -> (th_state <$> s'.(ts_threads) !! q) = (th_state <$> s.(ts_threads) !! q)) /\
    (forall q, prio_of s'.(ts_threads) q = prio_of s.(ts_threads) q) /\
    s'.(ts_frames) = <[t.(th_context) := {| fr_r0 := param; fr_ra := fn; fr_lr := exit_fn |}]>
                       s.(ts_frames).
Proof.
  intros [Hl Hsort Hrn Hlen] Ht Hp Hnp Hfn Hlen'.
  destruct (insert_by_prior_ok s l p t Hl Hsort Hlen Ht Hp Hnp) as (ths & h & Hins & Hl' & Hsame).
  unfold thrd_start. destruct (Z.eqb_spec p NULL); [done|]. destruct (Z.eqb_spec fn NULL); [done|].
  cbn [negb assert_that]. rewrite !bind_mret, (bind_val _ _ _ _ _ Hins).
  pose proof (Hsame p) as Hsp. rewrite Ht in Hsp.
  destruct (ths !! p) as [t'|] eqn:Ht'; [|done]. injection Hsp as Hpr Hst Hfl Hcx.
  assert (ts_threads (with_head h (with_threads ths s)) !! p = Some t') as Ht'' by done.
  rewrite (bind_thread _ _ _ _ Ht''). unfold tfm_arch_init_context. rewrite bind_modifyS.
  set (s1 := with_frames _ _).
  assert (forall q, prio_of ths q = prio_of s.(ts_threads) q) as Hprio
    by (intros q; by apply same_threads_prio).
  destruct (thrd_set_state_ok s1 (insert_sorted (prio_of s.(ts_threads)) p l) p t' THRD_STATE_RUNNABLE)
    as [Hrun Hinv].
  - exact Hl'.
  - cbn. apply (insert_sorted_sorted _ p) in Hsort.
    eapply StronglySorted_ind with (P := StronglySorted _); [constructor| |exact Hsort].
    intros a k _ IH Hall. constructor; [done|]. eapply Forall_impl; [exact Hall|].
    intros b Hb. cbn in *. by rewrite !Hprio.
  - rewrite length_insert_sorted. lia.
  - done.
  - apply elem_of_insert_sorted. by left.
  - cbn. rewrite Hrn. destruct l as [|q l].
    + left. cbn in Hl, Hl'. split; [done|]. naive_solver.
    + right. cbn in Hl. destruct Hl as (Hhq & Hq & _). rewrite Hhq. split; [done|].
      split; [apply elem_of_insert_sorted; set_solver|]. rewrite !Hprio. intros Hlt.
      cbn in Hl'. destruct (Z.leb_spec (prio_of s.(ts_threads) p) (prio_of s.(ts_threads) q)); [|lia].
      by destruct Hl' as [-> _].
  - eexists. split; [exact Hrun|]. split; [exact Hinv|]. cbn. split; [by rewrite lookup_insert_eq|].
    split; [|split].
    + intros q Hq. rewrite lookup_insert_ne by done. specialize (Hsame q).
      destruct (ths !! q), (s.(ts_threads) !! q); cbn in *; try done. by injection Hsame as _ -> _.
    + intros q. destruct (set_state_lookup ths p t' THRD_STATE_RUNNABLE q Ht') as [_ ->]. apply Hprio.
    + by rewrite Hcx.
Qed.

(** Three threads; the callback blocks every thread whose flags are set. *)
Definition sample_thread (prio fl ctx next : Z) : thread_t :=
  {| th_priority := prio; th_state := 0; th_flags := fl; th_context := ctx; th_next := next |}.
Definition sample_sys : thrd_sys unit :=
  {| ts_threads := list_to_map [(8, sample_thread 3 1 108 16); (16, sample_thread 7 0 116 0);
                                (24, sample_thread 5 0 124 99)];
     ts_head := 8; ts_rnbl := 8; ts_frames := ∅;
     ts_cb := Some (fun t retval x => (Val (if truth t.(th_flags) then THRD_STATE_BLOCK
                                            else THRD_STATE_RET_VAL_AVAIL, 77), x));
     ts_ext := tt |}.

Lemma sample_sys_inv : thrd_inv sample_sys [8; 16].
Proof.
  split; [|repeat constructor; vm_compute; done|done|cbn; lia].
  cbn. split_and!; [done..|]. exists 16. split; [by vm_compute|]. split_and!; [done..|].
  exists 0. by vm_compute.
Qed.

Lemma thrd_start_sorted_witness :
  exists s', thrd_start 24 0x400 0x500 5 sample_sys = (Val tt, s') /\ thrd_inv s' [8; 24; 16] /\
    (th_state <$> s'.(ts_threads) !! 24) = Some THRD_STATE_RUNNABLE.
Proof.
  destruct (thrd_start_sorted sample_sys [8; 16] 24 (sample_thread 5 0 124 99) 0x400 0x500 5
              sample_sys_inv eq_refl ltac:(done) ltac:(set_solver) ltac:(done) ltac:(cbn; lia))
    as (s' & H1 & H2 & H3 & _).
  exact (ex_intro _ s' (conj H1 (conj H2 H3))).
Defined.

(** ** Scheduling *)

Section Scheduling.
Context {X : Type} (fn : thread_t -> Z -> M X (Z * Z)).

Definition runs (st : Z) : Prop :=
  u8 st = THRD_STATE_RUNNABLE \/ u8 st = THRD_STATE_RET_VAL_AVAIL.

(** The callback was asked about the threads [l] one after the other and told for
    each of them that it cannot run. *)
Inductive polled : list thread_t -> Z -> X -> Z -> X -> Prop :=
  | polled_nil rv x : polled [] rv x rv x
  | polled_snoc l t st rv x rv1 x1 rv2 x2 :
      polled l rv x rv1 x1 -> fn t rv1 x1 = (Val (st, rv2), x2) -> ~ runs st ->
      polled (l ++ [t]) rv x rv2 x2.

(** The threads of the list as the round finds them. *)
Definition objects (ths : gmap Z thread_t) (l : list Z) : list thread_t :=
  omap (fun p => ths !! p) l.

(** Only states of threads in [l] differ. *)
Definition only_states (l : list Z) (ths ths' : gmap Z thread_t) : Prop :=
  (forall q, next_of ths' q = next_of ths q /\ prio_of ths' q = prio_of ths q) /\
  (forall q, q ∉ l -> ths' !! q = ths !! q).

Lemma only_states_step l ths ths' p t st :
  only_states l ths ths' -> ths' !! p = Some t ->
  only_states (l ++ [p]) ths (<[p := set_state st t]> ths').
Proof.
  intros [H1 H2] Ht. split.
  - intros q. destruct (H1 q) as [<- <-]. by apply set_state_lookup.
  - intros q Hq. rewrite lookup_insert_ne by set_solver. apply H2. set_solver.
Qed.

Lemma only_states_inv l ths ths' (s s' : thrd_sys X) k :
  only_states l ths ths' -> thrd_inv s k -> s.(ts_threads) = ths -> s'.(ts_threads) = ths' ->
  s'.(ts_head) = s.(ts_head) -> s'.(ts_rnbl) = s.(ts_rnbl) -> thrd_inv s' k.
Proof.
  intros [H _] [Hl Hs Hr Hk] <- <- Hh Hb. split; rewrite ?Hh, ?Hb; [| |done|done].
  - eapply linked_ext; [|exact Hl]. intros q _. by apply H.
  - eapply StronglySorted_ind with (P := StronglySorted _); [constructor| |exact Hs].
    intros a m _ IH Hall. constructor; [done|]. eapply Forall_impl; [exact Hall|].
    intros b Hb'. cbn in *. destruct (H a) as [_ ->], (H b) as [_ ->]. done.
Qed.

(** What [thrd_next] leaves behind when it found thread [p]. *)
Record chosen (s s' : thrd_sys X) (l1 : list Z) (p : Z) (t : thread_t) : Prop := {
  ch_polled : exists rv x st rv', polled (objects s.(ts_threads) l1) 0 s.(ts_ext) rv x /\
    s.(ts_threads) !! p = Some t /\ fn t rv x = (Val (st, rv'), s'.(ts_ext)) /\ runs st /\
    s'.(ts_frames) =
      (if u8 st =? THRD_STATE_RET_VAL_AVAIL then
         alter (fun f => {| fr_r0 := rv'; fr_ra := f.(fr_ra); fr_lr := f.(fr_lr) |})
               t.(th_context) s.(ts_frames)
       else s.(ts_frames));
  ch_state : th_state <$> s'.(ts_threads) !! p = Some THRD_STATE_RUNNABLE;
  ch_threads : only_states (l1 ++ [p]) s.(ts_threads) s'.(ts_threads);
}.

(** One round on thread [p]. *)
Lemma thrd_next_round_ok (s : thrd_sys X) p t rv st rv' x' :
  p <> NULL -> s.(ts_threads) !! p = Some t ->
  fn t rv s.(ts_ext) = (Val (st, rv'), x') ->
  exists s' st', u8 st' = st' /\ (runs st -> st' = THRD_STATE_RUNNABLE) /\
    s'.(ts_threads) = <[p := set_state st' t]> s.(ts_threads) /\
    s'.(ts_head) = s.(ts_head) /\ s'.(ts_rnbl) = s.(ts_rnbl) /\ s'.(ts_ext) = x' /\
    s'.(ts_frames) =
      (if u8 st =? THRD_STATE_RET_VAL_AVAIL then
         alter (fun f => {| fr_r0 := rv'; fr_ra := f.(fr_ra); fr_lr := f.(fr_lr) |})
               t.(th_context) s.(ts_frames)
       else s.(ts_frames)) /\
    (runs st -> thrd_next_round fn (p, rv) s = (Val (inr p), s')) /\
    (~ runs st -> thrd_next_round fn (p, rv) s = (Val (inl (t.(th_next), rv')), s')).
Proof.
  intros Hp Ht Hcb. unfold thrd_next_round. destruct (Z.eqb_spec p NULL); [done|].
  assert (forall (k : Z * Z -> M (thrd_sys X) ((Z * Z) + Z)),
    (t0 ← thread p; r ← run_cb fn t0 rv; k r) s = k (st, rv') (with_ext x' s)) as Hk.
  { intros k. rewrite (bind_thread _ _ _ _ Ht). erewrite bind_val; [done|].
    unfold run_cb. by rewrite Hcb. }
  set (s1 := with_threads (<[p := set_state st t]> s.(ts_threads)) (with_ext x' s)).
  assert (s1.(ts_threads) !! p = Some (set_state st t)) as Ht1 by apply lookup_insert_eq.
  assert (u8 (u8 st) = u8 st) as Hu by (unfold u8; by rewrite Z.mod_mod).
  destruct (Z.eqb_spec (u8 st) THRD_STATE_RET_VAL_AVAIL) as [Hav|Hav].
  - assert (runs st) as Hrun by (by right).
    exists (with_threads (<[p := set_state THRD_STATE_RUNNABLE t]> s.(ts_threads))
             (with_frames (alter (fun f =>
                {| fr_r0 := rv'; fr_ra := f.(fr_ra); fr_lr := f.(fr_lr) |}) t.(th_context)
                s.(ts_frames)) (with_ext x' s))), THRD_STATE_RUNNABLE.
    split_and!; try done. intros _.
    rewrite (bind_thread _ _ _ _ Ht). erewrite bind_val by (unfold run_cb; by rewrite Hcb).
    cbv beta iota. erewrite bind_upd_thread by exact Ht. fold s1. rewrite Hav.
    cbn [Z.eqb THRD_STATE_RET_VAL_AVAIL Pos.eqb].
    erewrite bind_val; last first.
    { unfold tfm_arch_set_context_ret_code. rewrite bind_modifyS.
      apply upd_thread_run. exact Ht1. }
    erewrite bind_thread by apply lookup_insert_eq. cbn.
    rewrite insert_insert_eq. done.
  - exists s1, (u8 st). split; [done|]. split; [by intros [? | ?]|].
    assert (set_state (u8 st) t = set_state st t) as Hss by (unfold set_state; by rewrite Hu).
    rewrite Hss.
    split_and!; try done; intros Hr; rewrite (bind_thread _ _ _ _ Ht);
      erewrite bind_val by (unfold run_cb; by rewrite Hcb); cbv beta iota;
      (erewrite bind_upd_thread by exact Ht); fold s1;
      (destruct (Z.eqb_spec (u8 st) THRD_STATE_RET_VAL_AVAIL); [done|]);
      rewrite bind_mret, (bind_thread _ _ _ _ Ht1); cbn [th_state set_state];
      unfold mret, M_ret.
    + destruct Hr as [-> | ?]; [done|done].
    + destruct (Z.eqb_spec (u8 st) THRD_STATE_RUNNABLE); [|done]. exfalso. apply Hr. by left.
Qed.
End Scheduling.

(** The scheduler runs the first runnable thread.  Whatever the backend's
    query callback answers, as long as it answers, [thrd_next] terminates; it
    asks the threads in list order from the very front, stops at the first one
    that is runnable or has a return value available (which is then put into the
    saved context of exactly that thread), and returns it; a null pointer means
    that every thread was asked and none can run.  No thread of higher priority
    is passed over, and the list and the priorities stay what they were. *)
Theorem thrd_next_first_runnable {X} (fn : thread_t -> Z -> M X (Z * Z)) (s : thrd_sys X) l :
  thrd_inv s l -> s.(ts_cb) = Some fn ->
  (forall t rv x, exists st rv' x', fn t rv x = (Val (st, rv'), x')) ->
  exists p s', thrd_next s = (Val p, s') /\ thrd_inv s' l /\
    ((p = NULL /\ exists rv, polled fn (objects s.(ts_threads) l) 0 s.(ts_ext) rv s'.(ts_ext)) \/
     (exists l1 l2 t, l = l1 ++ p :: l2 /\ chosen fn s s' l1 p t /\
        Forall (fun q => prio_of s.(ts_threads) p <= prio_of s.(ts_threads) q) l2)).
Proof.
  intros Hinv Hcb Htot. pose proof Hinv as [Hl Hsort Hrn Hlen].
  unfold thrd_next. rewrite !bind_gets, Hcb, Hrn.
  destruct (while_loop_ghost (thrd_next_round fn)
    (fun '(p, rv) l2 s1 => exists l1, l = l1 ++ l2 /\
       linked (next_of s.(ts_threads)) p l2 /\
       only_states l1 s.(ts_threads) s1.(ts_threads) /\
       s1.(ts_head) = s.(ts_head) /\ s1.(ts_rnbl) = s.(ts_rnbl) /\ s1.(ts_frames) = s.(ts_frames) /\
       polled fn (objects s.(ts_threads) l1) 0 s.(ts_ext) rv s1.(ts_ext))
    (fun p s' => (thrd_inv s' l) /\
    ((p = NULL /\ exists rv, polled fn (objects s.(ts_threads) l) 0 s.(ts_ext) rv s'.(ts_ext)) \/
     (exists l1 l2 t, l = l1 ++ p :: l2 /\ chosen fn s s' l1 p t)))
    (fun l2 => Z.of_nat (length l2)))
    with (x := (ts_head s, 0)) (g := l) (s := s) as (p & s' & Hrun & Hinv' & Hp).
  - intros [p rv] l2 s1 (l1 & Hsplit & Hl2 & Hos & Hh1 & Hr1 & Hf1 & Hpol).
    destruct l2 as [|q l2]; cbn in Hl2.
    + subst p. exists (inr NULL), s1. split; [done|]. rewrite app_nil_r in Hsplit. subst l1.
      split; [by eapply only_states_inv|]. left. eauto.
    + destruct Hl2 as (-> & Hq & n & Hn & Hl2).
      assert (q ∉ l1) as Hql1.
      { pose proof (linked_nodup _ _ _ Hl) as Hnd. rewrite Hsplit in Hnd.
        apply NoDup_app in Hnd as (_ & Hd & _). intros Hi. apply (Hd q Hi). apply list_elem_of_here. }
      unfold next_of in Hn. apply fmap_Some in Hn as (t & Ht & ->).
      assert (s1.(ts_threads) !! q = Some t) as Ht1 by (destruct Hos as [_ ->]; done).
      destruct (Htot t rv s1.(ts_ext)) as (st & rv' & x' & Hfn).
      destruct (thrd_next_round_ok fn s1 q t rv st rv' x' Hq Ht1 Hfn)
        as (s2 & st' & Hst' & Hrst & Hth & Hh & Hr & Hx & Hfr & Hgo & Hno).
      pose proof (only_states_step fn l1 _ _ q t st' Hos Ht1) as Hos2. rewrite <- Hth in Hos2.
      assert (objects s.(ts_threads) (l1 ++ [q]) = objects s.(ts_threads) l1 ++ [t]) as Hobj.
      { unfold objects. rewrite omap_app. cbn. by rewrite Ht. }
      assert (runs st \/ ~ runs st) as [Hruns|Hruns].
      { unfold runs. destruct (decide (u8 st = THRD_STATE_RUNNABLE)), (decide (u8 st = THRD_STATE_RET_VAL_AVAIL)); tauto. }
      * exists (inr q), s2. split; [by apply Hgo|].
        split; [eapply only_states_inv; [exact Hos2|exact Hinv|done|done|congruence|congruence]|].
        right. exists l1, l2, t. split; [done|]. split.
        -- exists rv, s1.(ts_ext), st, rv'. rewrite Hx, Hfr, Hf1. done.
        -- rewrite Hth, lookup_insert_eq. cbn. by rewrite Hst', Hrst.
        -- done.
      * exists (inl (t.(th_next), rv')), s2. split; [by apply Hno|].
        exists l2. split; [|cbn [length]; lia]. exists (l1 ++ [q]).
        rewrite <- app_assoc. split; [done|]. split; [done|]. split; [done|].
        split; [congruence|]. split; [congruence|].
        split.
        -- rewrite Hfr, Hf1. destruct (Z.eqb_spec (u8 st) THRD_STATE_RET_VAL_AVAIL); [|done].
           exfalso. apply Hruns. by right.
        -- rewrite Hobj, Hx. by eapply polled_snoc.
  - exists []. split_and!; try done. constructor.
  - lia.
  - exists p, s'. split; [done|]. split; [done|]. destruct Hp as [Hp|(l1 & l2 & t & Hsplit & Hch)]; [by left|].
    right. exists l1, l2, t. split; [done|]. split; [done|].
    clear - Hsort Hsplit. subst l. induction l1 as [|r l1 IH]; inversion Hsort; subst; [done|by apply IH].
Qed.

Lemma thrd_next_first_runnable_witness :
  exists p s', thrd_next sample_sys = (Val p, s') /\ thrd_inv s' [8; 16].
Proof.
  destruct (thrd_next_first_runnable _ sample_sys [8; 16] sample_sys_inv eq_refl
              (fun t rv x => ex_intro _ _ (ex_intro _ _ (ex_intro _ _ eq_refl))))
    as (p & s' & H1 & H2 & _).
  exact (ex_intro _ p (ex_intro _ s' (conj H1 H2))).
Defined.

Example sample_sys_schedules : (thrd_next sample_sys).1 = Val 16.
Proof. by vm_compute. Qed.
