(* ===== verification/SpmIpc.v ===== *)
(** The core of the Secure Partition Manager with the IPC backend.

    [secure_fw/spm/core/spm_ipc.c] (message queues, service lookup,
    authorisation, connections, client ids) and the part of
    [secure_fw/spm/core/backend_ipc.c] that moves messages and signals
    ([query_state], [backend_messaging], [backend_replying],
    [backend_wait_signals], [backend_assert_signal]).

    Critical sections make each of these functions atomic, so each is one
    transition of the state.  The theorems show that the linked lists behave as
    first in, first out queues, that no wake-up is lost, and who gets hold of
    which connection. *)

From stdpp Require Import base list numbers gmap.
From S2P Require Import Prelude SpmPool SpmTypes SpmThread.

(** ** Lists of connections hanging off a partition

    [p_reqs] and [p_replied] are link fields of both structures; a "pnode" of
    the list macros is the address of such a field. *)

Record link_field := {
  of_part : partition_t -> Z;
  of_conn : connection_t -> Z;
  set_of_part : Z -> partition_t -> partition_t;
  set_of_conn : Z -> connection_t -> connection_t;
}.
Definition p_reqs : link_field :=
  {| of_part := part_p_reqs; of_conn := conn_p_reqs;
     set_of_part := set_part_p_reqs; set_of_conn := set_conn_p_reqs |}.
Definition p_replied : link_field :=
  {| of_part := part_p_replied; of_conn := conn_p_replied;
     set_of_part := set_part_p_replied; set_of_conn := set_conn_p_replied |}.

Inductive pnode :=
  | in_part (p : Z)
  | in_conn (c : Z).

Definition read_pnode (f : link_field) (n : pnode) : SPM Z :=
  match n with
  | in_part p => x ← get_part p; mret (f.(of_part) x)
  | in_conn c => x ← get_conn c; mret (f.(of_conn) x)
  end.
Definition write_pnode (f : link_field) (n : pnode) (v : Z) : SPM unit :=
  match n with
  | in_part p => upd_part p (f.(set_of_part) v)
  | in_conn c => upd_conn c (f.(set_of_conn) v)
  end.

(** [UNI_LIST_INSERT_AFTER(part, conn, f)] *)
Definition LIST_INSERT_AFTER (f : link_field) (part conn : Z) : SPM unit :=
  if (part =? NULL) || (conn =? NULL) then mret tt
  else
    h ← read_pnode f (in_part part);
    _ ← write_pnode f (in_conn conn) h;
    write_pnode f (in_part part) conn.

(** [UNI_LIST_REMOVE_NODE_BY_PNODE(pnode, f)] *)
Definition LIST_REMOVE_NODE_BY_PNODE (f : link_field) (n : pnode) : SPM unit :=
  c ← read_pnode f n;
  if c =? NULL then mret tt
  else
    nxt ← read_pnode f (in_conn c);
    write_pnode f n nxt.

(** ** spm_ipc.c *)

Section SpmIpc.
Context {cfg : SpmConfig}.

Definition signals_off (sg : Z) (x : partition_t) : partition_t :=
  set_part_signals_asserted (Z.land x.(part_signals_asserted) (u32 (Z.lnot sg))) x.
Definition signals_on (sg : Z) (x : partition_t) : partition_t :=
  set_part_signals_asserted (Z.lor x.(part_signals_asserted) sg) x.

Definition spm_get_async_replied_handle (partition : Z) : SPM Z :=
  x ← get_part partition;
  _ ← panic_if (x.(part_p_replied) =? NULL);
  prev ← while_loop (fun '(iter, handle, prev) =>
           if handle =? NULL then mret (inr prev)
           else
             nxt ← read_pnode p_replied (in_conn handle);
             mret (inl (in_conn handle, nxt, iter)))
         (in_part partition, x.(part_p_replied), in_part partition);
  handle ← read_pnode p_replied prev;
  _ ← LIST_REMOVE_NODE_BY_PNODE p_replied prev;
  x' ← get_part partition;
  _ ← (if x'.(part_p_replied) =? NULL then upd_part partition (signals_off ASYNC_MSG_REPLY)
       else mret tt);
  mret handle.

Definition spm_get_handle_by_signal (p_ptn signal : Z) : SPM Z :=
  x ← get_part p_ptn;
  '(last_found, nr_found_msgs) ← while_loop (fun '(iter, handle, last_found, nr) =>
      if handle =? NULL then mret (inr (last_found, nr))
      else
        c ← get_conn handle;
        sv ← get_serv c.(conn_service);
        let found := sv.(serv_ldinf).(sl_signal) =? signal in
        mret (inl (in_conn handle, c.(conn_p_reqs),
                   if found then Some iter else last_found,
                   if found then u32 (nr + 1) else nr)))
    (in_part p_ptn, x.(part_p_reqs), None, 0);
  match last_found with
  | None => mret NULL
  | Some holder =>
      handle ← read_pnode p_reqs holder;
      _ ← LIST_REMOVE_NODE_BY_PNODE p_reqs holder;
      _ ← (if nr_found_msgs =? 1 then upd_part p_ptn (signals_off signal) else mret tt);
      mret handle
  end.

(** [UNI_LIST_MOVE_AFTER(&services_listhead, prev, node, next)] *)
Definition SERVICE_MOVE_AFTER (prev node : Z) : SPM unit :=
  if (prev =? NULL) || (node =? NULL) then mret tt
  else
    n ← get_serv node;
    _ ← upd_serv prev (set_serv_next n.(serv_next));
    h ← gets sp_services_head;
    _ ← upd_serv node (set_serv_next h);
    modifyS (set_sp_services_head node).

Definition tfm_spm_get_service_by_sid (sid : Z) : SPM Z :=
  h ← gets sp_services_head;
  while_loop (fun '(p_prev, p_curr) =>
    if p_curr =? NULL then mret (inr NULL)
    else
      x ← get_serv p_curr;
      if x.(serv_ldinf).(sl_sid) =? sid then
        _ ← SERVICE_MOVE_AFTER p_prev p_curr;
        mret (inr p_curr)
      else mret (inl (p_curr, x.(serv_next)))) (NULL, h).

Definition tfm_spm_get_partition_by_id (partition_id : Z) : SPM Z :=
  h ← gets sp_parts_head;
  while_loop (fun p_part =>
    if p_part =? NULL then mret (inr NULL)
    else
      x ← get_part p_part;
      if x.(part_ldinf).(pl_pid) =? partition_id then mret (inr p_part)
      else mret (inl x.(part_next))) h.

Definition tfm_spm_check_client_version (service version : Z) : SPM unit :=
  _ ← c_assert debug (mret (negb (service =? NULL)));
  x ← get_serv service;
  let ld := x.(serv_ldinf) in
  let policy := SERVICE_GET_VERSION_POLICY ld.(sl_flags) in
  if policy =? SERVICE_VERSION_POLICY_RELAXED then
    fail_if (ld.(sl_version) <? version) SPM_ERROR_VERSION
  else if policy =? SERVICE_VERSION_POLICY_STRICT then
    fail_if (negb (version =? ld.(sl_version))) SPM_ERROR_VERSION
  else throw SPM_ERROR_VERSION.

Definition tfm_spm_check_authorization (sid service : Z) (ns_caller : bool) : SPM unit :=
  _ ← c_assert debug (mret (negb (service =? NULL)));
  if ns_caller then
    x ← get_serv service;
    fail_if (negb (SERVICE_IS_NS_ACCESSIBLE x.(serv_ldinf).(sl_flags))) SPM_ERROR_GENERIC
  else
    p ← gets sp_current;
    _ ← panic_if (p =? NULL);
    x ← get_part p;
    (* the loop over the dependencies stops at the first one equal to [sid] *)
    fail_if (negb (existsb (Z.eqb sid) x.(part_ldinf).(pl_deps))) SPM_ERROR_GENERIC.

Definition tfm_spm_partition_get_running_partition_id : SPM Z :=
  p ← gets sp_current;
  if p =? NULL then mret INVALID_PARTITION_ID
  else x ← get_part p; mret x.(part_ldinf).(pl_pid).

Definition tfm_spm_is_ns_caller : SPM bool :=
  p ← gets sp_current;
  _ ← panic_if (p =? NULL);
  x ← get_part p;
  mret (IS_NS_AGENT x.(part_ldinf)).

Definition tfm_spm_get_client_id (ns_caller : bool) : SPM Z :=
  client_id ← (if ns_caller then gets sp_ns_client_id
               else tfm_spm_partition_get_running_partition_id);
  _ ← panic_if (negb (Bool.eqb ns_caller (client_id <? 0)));
  mret client_id.

Definition zero_msg : psa_msg_t :=
  {| msg_type := 0; msg_handle := 0; msg_client_id := 0; msg_rhandle := 0;
     msg_in_size := [0; 0; 0; 0]; msg_out_size := [0; 0; 0; 0] |}.

Definition spm_init_idle_connection (p_connection service client_id : Z) : SPM unit :=
  _ ← c_assert debug (mret (negb (p_connection =? NULL)));
  _ ← c_assert debug (mret (negb (service =? NULL)));
  p ← gets sp_current;
  _ ← upd_conn p_connection (fun c =>
        set_conn_msg (set_msg_client_id client_id zero_msg)
          (set_conn_p_client p (set_conn_service service c)));
  h ← on_space (connection_to_handle debug connection_pool p_connection);
  upd_conn p_connection (fun c =>
    let c := set_conn_msg (set_msg_handle h c.(conn_msg)) c in
    let c := set_conn_status TFM_HANDLE_STATUS_IDLE c in
    let c := if PSA_FRAMEWORK_HAS_MM_IOVEC then set_conn_iovec_status 0 c else c in
    if TFM_PARTITION_NS_AGENT_MAILBOX then set_conn_client_data NULL c else c).

Definition spm_get_idle_connection (handle client_id : Z) : SPM Z :=
  _ ← fail_if (handle =? PSA_NULL_HANDLE) PSA_ERROR_PROGRAMMER_ERROR;
  if IS_STATIC_HANDLE handle then
    let index := GET_INDEX_FROM_STATIC_HANDLE handle in
    tbl ← gets sp_ref_tbl;
    service ← elem tbl index;
    _ ← fail_if (service =? NULL) PSA_ERROR_PROGRAMMER_ERROR;
    x ← get_serv service;
    ns_caller ← tfm_spm_is_ns_caller;
    _ ← or_return (tfm_spm_check_authorization x.(serv_ldinf).(sl_sid) service ns_caller)
          PSA_ERROR_CONNECTION_REFUSED;
    let version := GET_VERSION_FROM_STATIC_HANDLE handle in
    _ ← or_return (tfm_spm_check_client_version service version) PSA_ERROR_PROGRAMMER_ERROR;
    connection ← alloc_connection;
    _ ← fail_if (connection =? NULL) PSA_ERROR_CONNECTION_BUSY;
    _ ← spm_init_idle_connection connection service client_id;
    mret connection
  else if CONFIG_TFM_CONNECTION_BASED_SERVICE_API then
    connection ← on_space (handle_to_connection debug connection_pool handle);
    _ ← fail_if (connection =? NULL) PSA_ERROR_PROGRAMMER_ERROR;
    _ ← or_return (on_space (spm_validate_connection connection_pool connection))
          PSA_ERROR_PROGRAMMER_ERROR;
    c ← get_conn connection;
    _ ← fail_if (negb (c.(conn_msg).(msg_client_id) =? client_id)) PSA_ERROR_PROGRAMMER_ERROR;
    _ ← fail_if (negb (c.(conn_status) =? TFM_HANDLE_STATUS_IDLE)) PSA_ERROR_PROGRAMMER_ERROR;
    _ ← fail_if (c.(conn_service) =? NULL) PSA_ERROR_PROGRAMMER_ERROR;
    mret connection
  else throw PSA_ERROR_PROGRAMMER_ERROR.

Definition spm_msg_handle_to_connection (msg_handle : Z) : SPM Z :=
  p ← on_space (handle_to_connection debug connection_pool msg_handle);
  v ← attempt (on_space (spm_validate_connection connection_pool p));
  match v with
  | inl _ => mret NULL
  | inr _ =>
      partition_id ← tfm_spm_partition_get_running_partition_id;
      c ← get_conn p;
      sv ← get_serv c.(conn_service);
      owner ← get_part sv.(serv_partition);
      mret (if partition_id =? owner.(part_ldinf).(pl_pid) then p else NULL)
  end.

(** ** backend_ipc.c *)

Definition backend_wait_signals (p_pt signals : Z) : SPM Z :=
  _ ← panic_if (p_pt =? NULL);
  x ← get_part p_pt;
  let ret := Z.land x.(part_signals_asserted) signals in
  _ ← (if ret =? 0 then upd_part p_pt (set_part_signals_waiting signals) else mret tt);
  mret ret.

(** The platforms without a hybrid scheduling policy. *)
Definition backend_assert_signal (p_pt signal : Z) : SPM Z :=
  _ ← panic_if (p_pt =? NULL);
  _ ← upd_part p_pt (signals_on signal);
  x ← get_part p_pt;
  mret (if truth (Z.land x.(part_signals_asserted) x.(part_signals_waiting))
        then STATUS_NEED_SCHEDULE else PSA_SUCCESS).

Definition backend_messaging (p_connection : Z) : SPM Z :=
  if p_connection =? NULL then mret PSA_ERROR_PROGRAMMER_ERROR
  else
    c ← get_conn p_connection;
    if c.(conn_service) =? NULL then mret PSA_ERROR_PROGRAMMER_ERROR
    else
      sv ← get_serv c.(conn_service);
      if sv.(serv_partition) =? NULL then mret PSA_ERROR_PROGRAMMER_ERROR
      else
        let p_owner := sv.(serv_partition) in
        let signal := sv.(serv_ldinf).(sl_signal) in
        _ ← LIST_INSERT_AFTER p_reqs p_owner p_connection;
        ret ← backend_assert_signal p_owner signal;
        client ← get_part c.(conn_p_client);
        if IS_NS_AGENT_MAILBOX client.(part_ldinf) then mret PSA_SUCCESS
        else
          signal' ← backend_wait_signals c.(conn_p_client) ASYNC_MSG_REPLY;
          mret (if signal' =? 0 then STATUS_NEED_SCHEDULE else ret).

Definition backend_replying (handle status : Z) : SPM Z :=
  c ← get_conn handle;
  let client := c.(conn_p_client) in
  _ ← upd_conn handle (set_conn_replied_value (u32 status));
  _ ← LIST_INSERT_AFTER p_replied client handle;
  backend_assert_signal client ASYNC_MSG_REPLY.

(** The callback of the scheduler; the context of a thread is the [ctx_ctrl] of
    its partition. *)
Definition query_state (p_thrd : thread_t) (retval : Z) : SPM (Z * Z) :=
  let p_pt := p_thrd.(th_context) in
  x ← get_part p_pt;
  let retval_signals := Z.land x.(part_signals_waiting) x.(part_signals_asserted) in
  if truth retval_signals then
    retval' ←
      (if (retval_signals =? ASYNC_MSG_REPLY) &&
          negb (Z.land x.(part_signals_allowed) ASYNC_MSG_REPLY =? ASYNC_MSG_REPLY) then
         _ ← upd_part p_pt (signals_off ASYNC_MSG_REPLY);
         _ ← c_assert debug (mret (negb (x.(part_p_replied) =? NULL)));
         c ← get_conn x.(part_p_replied);
         _ ← c_assert debug (mret (c.(conn_status) <? TFM_HANDLE_STATUS_MAX));
         _ ← (if c.(conn_status) =? TFM_HANDLE_STATUS_TO_FREE
              then free_connection x.(part_p_replied) else mret tt);
         _ ← upd_part p_pt (set_part_p_replied NULL);
         mret (u32 c.(conn_replied_value))
       else mret retval_signals);
    _ ← upd_part p_pt (set_part_signals_waiting 0);
    mret (THRD_STATE_RET_VAL_AVAIL, retval')
  else mret (if truth x.(part_signals_waiting) then THRD_STATE_BLOCK else p_thrd.(th_state), retval).
End SpmIpc.

(** ** Lists: the state they describe *)

Class LinkLaws (f : link_field) : Prop := {
  of_part_set v x : f.(of_part) (f.(set_of_part) v x) = v;
  of_conn_set v c : f.(of_conn) (f.(set_of_conn) v c) = v;
}.
#[export] Instance p_reqs_laws : LinkLaws p_reqs.
Proof. by split. Qed.
#[export] Instance p_replied_laws : LinkLaws p_replied.
Proof. by split. Qed.

Definition conn_next (f : link_field) (s : spm) (c : Z) : option Z :=
  f.(of_conn) <$> s.(sp_conns) !! c.

(** The list [l], newest entry first, hangs off partition [p]. *)
Definition chained (f : link_field) (s : spm) (p : Z) (l : list Z) : Prop :=
  exists x, s.(sp_parts) !! p = Some x /\ linked (conn_next f s) (f.(of_part) x) l.

(** The address of the link field behind the entries [l]. *)
Definition pnode_after (p : Z) (l : list Z) : pnode :=
  match last l with
  | None => in_part p
  | Some c => in_conn c
  end.

Definition set_pnode (f : link_field) (n : pnode) (v : Z) (s : spm) : spm :=
  match n with
  | in_part p => set_sp_parts (alter (f.(set_of_part) v) p s.(sp_parts)) s
  | in_conn c => set_sp_conns (alter (f.(set_of_conn) v) c s.(sp_conns)) s
  end.

Lemma insert_alter {A} (m : gmap Z A) p x (g : A -> A) :
  m !! p = Some x -> <[p := g x]> m = alter g p m.
Proof.
  intros H. apply map_eq. intros q. destruct (decide (q = p)) as [->|].
  - by rewrite lookup_insert_eq, lookup_alter_eq, H.
  - by rewrite lookup_insert_ne, lookup_alter_ne.
Qed.

Lemma bind_deref {A B} (f : spm -> gmap Z A) p x (k : A -> SPM B) s :
  f s !! p = Some x -> (y ← deref f p; k y) s = k x s.
Proof. intros H. unfold mbind, M_bind, deref. by rewrite H. Qed.

Lemma upd_part_run p x g s : s.(sp_parts) !! p = Some x ->
  upd_part p g s = (Val tt, set_sp_parts (alter g p s.(sp_parts)) s).
Proof.
  intros H. unfold upd_part, get_part. rewrite (bind_deref _ _ _ _ _ H). unfold modifyS.
  by rewrite (insert_alter _ _ _ _ H).
Qed.

Lemma upd_conn_run c x g s : s.(sp_conns) !! c = Some x ->
  upd_conn c g s = (Val tt, set_sp_conns (alter g c s.(sp_conns)) s).
Proof.
  intros H. unfold upd_conn, get_conn. rewrite (bind_deref _ _ _ _ _ H). unfold modifyS.
  by rewrite (insert_alter _ _ _ _ H).
Qed.

Lemma last_snoc_inv (l : list Z) c : last l = Some c -> exists l', l = l' ++ [c].
Proof. rewrite last_Some. done. Qed.

Lemma linked_remove_after next next' h l1 b c l2 n :
  linked next h (l1 ++ b :: c :: l2) -> next c = Some n -> next' b = Some n ->
  (forall x, x <> b -> next' x = next x) -> linked next' h (l1 ++ b :: l2).
Proof.
  revert h. induction l1 as [|a l1 IH]; intros h Hl Hc Hb Ho;
    pose proof (linked_nodup _ _ _ Hl) as Hnd; cbn in Hnd; rewrite NoDup_cons in Hnd;
    destruct Hnd as [Hna _]; cbn in *.
  - destruct Hl as (-> & ? & nb & Hnb & -> & ? & nc & Hnc & Hl). split_and!; [done..|].
    exists n. split; [done|]. replace n with nc by congruence.
    eapply linked_ext; [|exact Hl]. intros x Hx. apply Ho. set_solver.
  - destruct Hl as (-> & ? & na & Hna' & Hl). split_and!; [done..|]. exists na.
    split; [rewrite Ho by set_solver; done|]. by apply IH.
Qed.

Section Lists.
Context (f : link_field) `{!LinkLaws f}.

Lemma chained_at s p l1 c l2 : chained f s p (l1 ++ c :: l2) ->
  c <> NULL /\ exists n, conn_next f s c = Some n /\ linked (conn_next f s) n l2.
Proof. intros (x & _ & Hl). by destruct (linked_at _ _ _ _ _ Hl) as (_ & ? & ?). Qed.

Lemma read_pnode_after s p l1 l2 : chained f s p (l1 ++ l2) ->
  exists h, read_pnode f (pnode_after p l1) s = (Val h, s) /\ linked (conn_next f s) h l2.
Proof.
  intros (x & Hx & Hl). unfold pnode_after. destruct (last l1) as [b|] eqn:E.
  - apply last_snoc_inv in E as (l' & ->). rewrite <- app_assoc in Hl. cbn in Hl.
    destruct (linked_at _ _ _ _ _ Hl) as (_ & Hb & n & Hn & Hl2). exists n. split; [|done].
    unfold conn_next in Hn. apply fmap_Some in Hn as (cb & Hcb & ->).
    cbn. by rewrite (bind_deref sp_conns _ _ _ _ Hcb).
  - apply last_None in E as ->. exists (f.(of_part) x). split; [|done].
    cbn. by rewrite (bind_deref sp_parts _ _ _ _ Hx).
Qed.

Lemma write_pnode_after s p l1 l2 v : chained f s p (l1 ++ l2) ->
  write_pnode f (pnode_after p l1) v s = (Val tt, set_pnode f (pnode_after p l1) v s).
Proof.
  intros (x & Hx & Hl). unfold pnode_after. destruct (last l1) as [b|] eqn:E.
  - apply last_snoc_inv in E as (l' & ->). rewrite <- app_assoc in Hl. cbn in Hl.
    destruct (linked_at _ _ _ _ _ Hl) as (_ & Hb & n & Hn & Hl2).
    unfold conn_next in Hn. apply fmap_Some in Hn as (cb & Hcb & ->).
    cbn. by eapply upd_conn_run.
  - cbn. by eapply upd_part_run.
Qed.

(** Taking an entry out. *)
Lemma chained_remove s p l1 c l2 n :
  chained f s p (l1 ++ c :: l2) -> conn_next f s c = Some n ->
  chained f (set_pnode f (pnode_after p l1) n s) p (l1 ++ l2).
Proof.
  intros (x & Hx & Hl) Hn. unfold pnode_after. destruct (last l1) as [b|] eqn:E.
  - apply last_snoc_inv in E as (l' & ->). rewrite <- app_assoc in Hl |- *. cbn in Hl.
    exists x. split; [done|]. cbn [app].
    destruct (linked_at _ _ _ _ _ Hl) as (_ & _ & nb & Hnb & _).
    eapply linked_remove_after; [exact Hl|exact Hn|..]; unfold conn_next; cbn.
    + rewrite lookup_alter_eq. unfold conn_next in Hnb.
      apply fmap_Some in Hnb as (cb & -> & _). cbn. by rewrite of_conn_set.
    + intros y Hy. by rewrite lookup_alter_ne.
  - apply last_None in E as ->. exists (f.(set_of_part) n x). cbn. rewrite lookup_alter_eq, Hx.
    split; [done|]. rewrite of_part_set. destruct (linked_at _ _ [] _ _ Hl) as (_ & _ & n' & Hn' & Hl2).
    by replace n with n' by congruence.
Qed.

Lemma remove_run s p l1 c l2 n :
  chained f s p (l1 ++ c :: l2) -> conn_next f s c = Some n ->
  LIST_REMOVE_NODE_BY_PNODE f (pnode_after p l1) s =
    (Val tt, set_pnode f (pnode_after p l1) n s).
Proof.
  intros Hc Hn. unfold LIST_REMOVE_NODE_BY_PNODE.
  destruct (read_pnode_after s p l1 (c :: l2) Hc) as (h & Hh & -> & Hnz & _).
  rewrite (bind_val _ _ _ _ _ Hh). destruct (Z.eqb_spec c NULL); [done|].
  unfold conn_next in Hn. apply fmap_Some in Hn as (x & Hx & ->).
  erewrite bind_val; last first.
  { cbn. by rewrite (bind_deref sp_conns _ _ _ _ Hx). }
  by eapply write_pnode_after.
Qed.

(** Putting an entry in at the front. *)
Lemma insert_run s p c l :
  chained f s p l -> p <> NULL -> c <> NULL -> is_Some (s.(sp_conns) !! c) -> c ∉ l ->
  exists h, let s' := set_pnode f (in_part p) c (set_pnode f (in_conn c) h s) in
    LIST_INSERT_AFTER f p c s = (Val tt, s') /\ chained f s' p (c :: l).
Proof.
  intros (x & Hx & Hl) Hp Hc [cx Hcx] Hcl. exists (f.(of_part) x).
  unfold LIST_INSERT_AFTER. destruct (Z.eqb_spec p NULL); [done|]. destruct (Z.eqb_spec c NULL); [done|].
  cbn [orb]. split.
  - erewrite bind_val by (cbn; by rewrite (bind_deref sp_parts _ _ _ _ Hx)).
    cbn [write_pnode]. rewrite (bind_val _ _ _ _ _ (upd_conn_run c cx _ s Hcx)).
    by rewrite (upd_part_run p x).
  - exists (f.(set_of_part) c x). cbn. rewrite lookup_alter_eq, Hx. split; [done|].
    rewrite of_part_set. split_and!; [done..|]. exists (f.(of_part) x).
    unfold conn_next. cbn. rewrite lookup_alter_eq, Hcx. cbn. rewrite of_conn_set. split; [done|].
    eapply linked_ext; [|exact Hl]. intros y Hy. unfold conn_next. cbn.
    rewrite lookup_alter_ne; [done|]. set_solver.
Qed.
End Lists.

(** ** Message queues *)

(** The queue of partition [p], oldest entry first. *)
Definition queue (f : link_field) (s : spm) (p : Z) (q : list Z) : Prop :=
  chained f s p (reverse q).

(** The signal that announces connection [c] to its service. *)
Definition conn_signal (s : spm) (c : Z) : option Z :=
  x ← s.(sp_conns) !! c; sv ← s.(sp_servs) !! x.(conn_service); Some sv.(serv_ldinf).(sl_signal).

Definition wants (s : spm) (sg c : Z) : bool := bool_decide (conn_signal s c = Some sg).

(** The oldest entry that satisfies [P], and the queue without it. *)
Fixpoint take_first (P : Z -> bool) (q : list Z) : option (Z * list Z) :=
  match q with
  | [] => None
  | c :: q' =>
      if P c then Some (c, q')
      else match take_first P q' with
           | Some (d, q'') => Some (d, c :: q'')
           | None => None
           end
  end.

Lemma take_first_none P q : take_first P q = None <-> Forall (fun c => P c = false) q.
Proof.
  induction q as [|c q IH]; cbn; [by split|]. rewrite Forall_cons.
  destruct (P c); [naive_solver|]. destruct (take_first P q) as [[]|]; naive_solver.
Qed.

Lemma take_first_app P q1 c q2 : Forall (fun c => P c = false) q1 -> P c = true ->
  take_first P (q1 ++ c :: q2) = Some (c, q1 ++ q2).
Proof.
  intros H Hc. induction q1 as [|d q1 IH]; cbn; [by rewrite Hc|].
  rewrite Forall_cons in H. destruct H as [-> H]. by rewrite IH.
Qed.

Lemma count_step (P : Z -> bool) l c :
  length (filter P (l ++ [c])) = (length (filter P l) + if P c then 1 else 0)%nat.
Proof.
  rewrite filter_app, length_app. f_equal. destruct (P c) eqn:E.
  - rewrite filter_cons_True by (by rewrite E). done.
  - rewrite filter_cons_False by (rewrite E; intros []). done.
Qed.

Lemma forall_not_filter (P : Z -> bool) l : filter P l = [] <-> Forall (fun c => P c = false) l.
Proof.
  induction l as [|c l IH]; [by split|]. rewrite Forall_cons. destruct (P c) eqn:E.
  - rewrite filter_cons_True by (by rewrite E). split; [done|]. by intros [? _].
  - rewrite filter_cons_False, IH by (rewrite E; intros []). naive_solver.
Qed.

(** What the search loop has found when it has passed the entries [l1]. *)
Definition found_in (P : Z -> bool) (p : Z) (l1 : list Z) (last_found : option pnode) (nr : Z) : Prop :=
  nr = Z.of_nat (length (filter P l1)) /\
  match last_found with
  | None => Forall (fun c => P c = false) l1
  | Some n => exists k1 c k2, l1 = k1 ++ c :: k2 /\ n = pnode_after p k1 /\ P c = true /\
                Forall (fun c => P c = false) k2
  end.

Lemma found_in_step P p l1 last_found nr c :
  found_in P p l1 last_found nr -> Z.of_nat (length l1) < 2 ^ 32 - 1 ->
  found_in P p (l1 ++ [c]) (if P c then Some (pnode_after p l1) else last_found)
           (if P c then u32 (nr + 1) else nr).
Proof.
  intros [-> Hf] Hlen. unfold found_in. rewrite count_step.
  pose proof (length_filter P l1) as Hle. split.
  - destruct (P c); [|lia]. rewrite u32_small; [lia|]. unfold is_u32. lia.
  - destruct (P c) eqn:E; [by exists l1, c, []|].
    destruct last_found as [n|].
    + destruct Hf as (k1 & d & k2 & -> & -> & Hd & Hk). exists k1, d, (k2 ++ [c]).
      rewrite <- app_assoc. split_and!; [done..|]. apply Forall_app. auto.
    + apply Forall_app. auto.
Qed.

Lemma pnode_after_snoc p l c : pnode_after p (l ++ [c]) = in_conn c.
Proof. unfold pnode_after. by rewrite last_snoc. Qed.

(** The fields of the connections other than the links. *)
Definition same_conns (s s' : spm) : Prop :=
  forall c, (fun x => set_conn_p_reqs 0 (set_conn_p_replied 0 x)) <$> s'.(sp_conns) !! c =
            (fun x => set_conn_p_reqs 0 (set_conn_p_replied 0 x)) <$> s.(sp_conns) !! c.

Lemma same_conns_signal s s' c : same_conns s s' -> s'.(sp_servs) = s.(sp_servs) ->
  conn_signal s' c = conn_signal s c.
Proof.
  intros H Hs. specialize (H c). unfold conn_signal. rewrite Hs.
  destruct (s.(sp_conns) !! c) as [x|], (s'.(sp_conns) !! c) as [x'|]; cbn in *; try done.
  injection H. intros. congruence.
Qed.

Lemma same_conns_pnode f n v s : f = p_reqs \/ f = p_replied -> same_conns s (set_pnode f n v s).
Proof.
  intros Hf c. destruct n as [p|b]; [done|]. cbn. destruct (decide (c = b)) as [->|].
  - rewrite lookup_alter_eq. destruct (s.(sp_conns) !! b); [|done]. by destruct Hf as [-> | ->].
  - by rewrite lookup_alter_ne.
Qed.

(** Everything but the links of connections, and partition [p]. *)
Definition only_part (p : Z) (s s' : spm) : Prop :=
  same_conns s s' /\ s'.(sp_servs) = s.(sp_servs) /\ s'.(sp_space) = s.(sp_space) /\
  s'.(sp_current) = s.(sp_current) /\ s'.(sp_mem) = s.(sp_mem) /\
  (forall p', p' <> p -> s'.(sp_parts) !! p' = s.(sp_parts) !! p').

Section Queues.
Context {cfg : SpmConfig}.

(** The loop of [spm_get_handle_by_signal]. *)
Lemma search_loop s p l sg x :
  chained p_reqs s p l -> s.(sp_parts) !! p = Some x ->
  (forall c, c ∈ l -> is_Some (conn_signal s c)) -> Z.of_nat (length l) < 2 ^ 32 - 1 ->
  exists lf nr, while_loop (fun '(iter, handle, last_found, nr) =>
      if handle =? NULL then mret (inr (last_found, nr))
      else
        c ← get_conn handle;
        sv ← get_serv c.(conn_service);
        let found := sv.(serv_ldinf).(sl_signal) =? sg in
        mret (inl (in_conn handle, c.(conn_p_reqs),
                   if found then Some iter else last_found,
                   if found then u32 (nr + 1) else nr)))
    (in_part p, x.(part_p_reqs), None, 0) s = (Val (lf, nr), s) /\
    found_in (wants s sg) p l lf nr.
Proof.
  intros Hch Hx Hsig Hlen.
  edestruct (while_loop_ghost (S := spm) (X := pnode * Z * option pnode * Z)
    (R := option pnode * Z) (G := list Z) (fun '(iter, handle, last_found, nr) =>
      if handle =? NULL then mret (inr (last_found, nr))
      else
        c ← get_conn handle;
        sv ← get_serv c.(conn_service);
        let found := sv.(serv_ldinf).(sl_signal) =? sg in
        mret (inl (in_conn handle, c.(conn_p_reqs),
                   if found then Some iter else last_found,
                   if found then u32 (nr + 1) else nr)))
    (fun '(iter, handle, lf, nr) l2 s' => s' = s /\ exists l1, l = l1 ++ l2 /\
       iter = pnode_after p l1 /\ linked (conn_next p_reqs s) handle l2 /\
       found_in (wants s sg) p l1 lf nr)
    (fun '(lf, nr) s' => s' = s /\ found_in (wants s sg) p l lf nr)
    (fun l2 => Z.of_nat (length l2)))
    with (x := (in_part p, x.(part_p_reqs), @None pnode, 0)) (g := l) (s := s)
    as ([lf nr] & s' & Hrun & -> & Hf); last by exists lf, nr.
  - intros [[[iter h] lf] nr] l2 s' (-> & l1 & Hl & Hiter & Hl2 & Hf).
    destruct l2 as [|c l2]; cbn in Hl2.
    + subst h. exists (inr (lf, nr)), s. split; [done|]. split; [done|].
      rewrite app_nil_r in Hl. by subst l1.
    + destruct Hl2 as (-> & Hc & n & Hn & Hl2). destruct (Z.eqb_spec c NULL); [done|].
      destruct (Hsig c) as [sgc Hsgc]; [rewrite Hl; set_solver|].
      unfold conn_signal in Hsgc. apply bind_Some in Hsgc as (cx & Hcx & Hsgc).
      apply bind_Some in Hsgc as (sv & Hsv & [= <-]).
      eexists _, s. split.
      { unfold get_conn, get_serv. rewrite (bind_deref sp_conns _ _ _ _ Hcx).
        rewrite (bind_deref sp_servs _ _ _ _ Hsv). reflexivity. }
      cbv beta iota zeta. exists l2. split; [|cbn [length]; lia]. split; [done|]. exists (l1 ++ [c]).
      rewrite <- app_assoc. split; [done|]. split; [by rewrite pnode_after_snoc|].
      split. { unfold conn_next in Hn. rewrite Hcx in Hn. injection Hn as Hn. cbn in Hn. by rewrite Hn. }
      assert ((sl_signal (serv_ldinf sv) =? sg) = wants s sg c) as ->.
      { unfold wants, conn_signal. rewrite Hcx. cbn. rewrite Hsv. cbn.
        destruct (Z.eqb_spec (sl_signal (serv_ldinf sv)) sg) as [->|Hne]; [by rewrite bool_decide_true|].
        rewrite bool_decide_false; [done|]. congruence. }
      subst iter. apply found_in_step; [done|]. rewrite Hl, length_app in Hlen. cbn in Hlen. lia.
  - split; [done|]. exists []. destruct Hch as (x' & Hx' & Hl).
    replace x' with x in Hl by congruence. split_and!; try done.
  - lia.
Qed.

Lemma set_pnode_part f n v s p x : f = p_reqs \/ f = p_replied ->
  s.(sp_parts) !! p = Some x ->
  exists x', (set_pnode f n v s).(sp_parts) !! p = Some x' /\
    x'.(part_signals_asserted) = x.(part_signals_asserted) /\
    x'.(part_signals_waiting) = x.(part_signals_waiting) /\
    x'.(part_signals_allowed) = x.(part_signals_allowed) /\ x'.(part_ldinf) = x.(part_ldinf).
Proof.
  intros Hf Hx. destruct n as [p'|c]; cbn; [|by exists x].
  destruct (decide (p' = p)) as [->|].
  - rewrite lookup_alter_eq, Hx. eexists. split; [done|]. by destruct Hf as [-> | ->].
  - rewrite lookup_alter_ne by done. by exists x.
Qed.

Lemma set_pnode_only f p l v s : f = p_reqs \/ f = p_replied ->
  only_part p s (set_pnode f (pnode_after p l) v s).
Proof.
  intros Hf. split; [by apply same_conns_pnode|]. unfold pnode_after.
  destruct (last l); cbn; split_and!; try done. intros p' Hp. by rewrite lookup_alter_ne.
Qed.

(** Changing fields of the partition that are not the list head. *)
Lemma chained_alter_part f s p g l : (forall x, f.(of_part) (g x) = f.(of_part) x) ->
  chained f s p l -> chained f (set_sp_parts (alter g p s.(sp_parts)) s) p l.
Proof.
  intros Hg (x & Hx & Hl). exists (g x). cbn. rewrite lookup_alter_eq, Hx. split; [done|].
  rewrite Hg. exact Hl.
Qed.

Lemma only_part_alter p g s s' :
  only_part p s s' -> only_part p s (set_sp_parts (alter g p s'.(sp_parts)) s').
Proof.
  intros (H1 & H2 & H3 & H4 & H5 & H6). split; [exact H1|]. split_and!; try done. intros p' Hp. cbn.
  rewrite lookup_alter_ne by done. by apply H6.
Qed.
End Queues.

Lemma get_handle_spec `{cfg : SpmConfig} s p q sg x :
  queue p_reqs s p q -> s.(sp_parts) !! p = Some x ->
  (forall c, c ∈ q -> is_Some (conn_signal s c)) -> Z.of_nat (length q) < 2 ^ 32 - 1 ->
  match take_first (wants s sg) q with
  | None => spm_get_handle_by_signal p sg s = (Val NULL, s)
  | Some (c, q') => exists s' x',
      spm_get_handle_by_signal p sg s = (Val c, s') /\ queue p_reqs s' p q' /\
      only_part p s s' /\ s'.(sp_parts) !! p = Some x' /\
      x'.(part_signals_asserted) =
        (if existsb (wants s sg) q' then x.(part_signals_asserted)
         else Z.land x.(part_signals_asserted) (u32 (Z.lnot sg))) /\
      x'.(part_signals_waiting) = x.(part_signals_waiting)
  end.
Proof.
  intros Hq Hx Hsig Hlen. unfold queue in Hq. set (l := reverse q) in *.
  assert (q = reverse l) as Hql by (subst l; by rewrite reverse_involutive).
  destruct (search_loop s p l sg x Hq Hx) as (lf & nr & Hloop & Hnr & Hlf).
  { intros c Hc. apply Hsig. rewrite Hql. by apply elem_of_reverse. }
  { subst l. by rewrite length_reverse. }
  clearbody l.
  assert (forall k, spm_get_handle_by_signal p sg s = k <->
    (match lf with
     | None => mret NULL
     | Some holder =>
        handle ← read_pnode p_reqs holder;
        _ ← LIST_REMOVE_NODE_BY_PNODE p_reqs holder;
        _ ← (if nr =? 1 then upd_part p (signals_off sg) else mret tt);
        mret handle
     end) s = k) as Hrun.
  { intros k. unfold spm_get_handle_by_signal, get_part.
    rewrite (bind_deref sp_parts _ _ _ _ Hx), (bind_val _ _ _ _ _ Hloop). done. }
  destruct lf as [n|].
  - destruct Hlf as (k1 & c & k2 & Hl & -> & Hc & Hk2). rewrite Hl in Hq.
    assert (take_first (wants s sg) q = Some (c, reverse (k1 ++ k2))) as ->.
    { rewrite Hql, Hl, reverse_app, reverse_cons, <- app_assoc. cbn.
      rewrite take_first_app; [by rewrite reverse_app| |done].
      rewrite Forall_forall in Hk2 |- *. intros d Hd. apply Hk2. by apply elem_of_reverse. }
    destruct (read_pnode_after p_reqs s p k1 (c :: k2) Hq) as (h & Hread & -> & Hcn & nx & Hnx & _).
    pose proof (remove_run p_reqs s p k1 c k2 nx Hq Hnx) as Hrem.
    pose proof (chained_remove p_reqs s p k1 c k2 nx Hq Hnx) as Hch.
    pose proof (set_pnode_only p_reqs p k1 nx s (or_introl eq_refl)) as Hop.
    destruct (set_pnode_part p_reqs (pnode_after p k1) nx s p x (or_introl eq_refl) Hx)
      as (x1 & Hx1 & Has & Hwt & _ & _).
    assert (existsb (wants s sg) (reverse (k1 ++ k2)) = negb (nr =? 1)) as Hex.
    { rewrite Hnr, Hl, filter_app, length_app. rewrite filter_cons_True by (by rewrite Hc).
      rewrite (proj2 (forall_not_filter _ k2) Hk2). cbn [length].
      destruct (Z.eqb_spec (Z.of_nat (length (filter (wants s sg) k1) + 1)) 1) as [E|E]; cbn [negb].
      - apply not_true_iff_false. rewrite existsb_exists. intros (d & Hd & Hwd).
        apply list_elem_of_In in Hd. rewrite elem_of_reverse, elem_of_app in Hd.
        destruct (filter (wants s sg) k1) eqn:Ef; [|cbn in E; lia].
        apply forall_not_filter in Ef. rewrite Forall_forall in Ef, Hk2.
        destruct Hd as [Hd|Hd]; [rewrite (Ef d Hd) in Hwd|rewrite (Hk2 d Hd) in Hwd]; done.
      - apply existsb_exists. destruct (filter (wants s sg) k1) as [|d fl] eqn:Ef; [cbn in E; lia|].
        assert (d ∈ filter (wants s sg) k1) as Hd by (rewrite Ef; apply list_elem_of_here).
        apply list_elem_of_filter in Hd as [Hwd Hd]. exists d. split; [|by apply Is_true_true].
        apply list_elem_of_In. rewrite elem_of_reverse, elem_of_app. by left. }
    rewrite Hex. set (s1 := set_pnode _ _ _ _) in *. clearbody s1.
    destruct (Z.eqb_spec nr 1) as [->|Hn1]; cbn [negb].
    + exists (set_sp_parts (alter (signals_off sg) p s1.(sp_parts)) s1), (signals_off sg x1).
      split_and!.
      * apply Hrun. rewrite (bind_val _ _ _ _ _ Hread), (bind_val _ _ _ _ _ Hrem).
        cbn [Z.eqb Pos.eqb]. by rewrite (bind_val _ _ _ _ _ (upd_part_run p x1 _ s1 Hx1)).
      * unfold queue. rewrite reverse_involutive. by apply chained_alter_part.
      * by apply only_part_alter.
      * cbn. by rewrite lookup_alter_eq, Hx1.
      * cbn. by rewrite Has.
      * done.
    + exists s1, x1. split_and!; try done.
      * apply Hrun. rewrite (bind_val _ _ _ _ _ Hread), (bind_val _ _ _ _ _ Hrem).
        destruct (Z.eqb_spec nr 1); done.
      * unfold queue. by rewrite reverse_involutive.
  - assert (take_first (wants s sg) q = None) as ->; [|by apply Hrun].
    apply take_first_none. rewrite Hql. rewrite Forall_forall in Hlf |- *. intros d Hd. apply Hlf.
    by rewrite elem_of_reverse in Hd.
Qed.

(** [psa_get]'s search is a first in, first out queue for each signal.  In a
    partition whose pending requests are [q] (oldest first), the message taken
    for a signal is the oldest one announced by that signal; exactly that message
    leaves the queue, the order of the others is kept, and the partition's signal
    is cleared if and only if no further message waits for it.  Without a
    matching message nothing changes. *)
Theorem get_handle_fifo `{cfg : SpmConfig} s p q sg x :
  queue p_reqs s p q -> s.(sp_parts) !! p = Some x ->
  (forall c, c ∈ q -> is_Some (conn_signal s c)) -> Z.of_nat (length q) < 2 ^ 32 - 1 ->
  match take_first (wants s sg) q with
  | None => spm_get_handle_by_signal p sg s = (Val NULL, s)
  | Some (c, q') => exists s' x',
      spm_get_handle_by_signal p sg s = (Val c, s') /\ queue p_reqs s' p q' /\
      only_part p s s' /\ s'.(sp_parts) !! p = Some x' /\
      x'.(part_signals_asserted) =
        (if existsb (wants s sg) q' then x.(part_signals_asserted)
         else Z.land x.(part_signals_asserted) (u32 (Z.lnot sg))) /\
      x'.(part_signals_waiting) = x.(part_signals_waiting)
  end.
Proof. apply get_handle_spec. Qed.

(** ** Signals *)

Section Signals.
Context {cfg : SpmConfig}.

Lemma assert_signal_run s p x sg : p <> NULL -> s.(sp_parts) !! p = Some x ->
  backend_assert_signal p sg s =
    (Val (if truth (Z.land (Z.lor x.(part_signals_asserted) sg) x.(part_signals_waiting))
          then STATUS_NEED_SCHEDULE else PSA_SUCCESS),
     set_sp_parts (alter (signals_on sg) p s.(sp_parts)) s).
Proof.
  intros Hp Hx. unfold backend_assert_signal. destruct (Z.eqb_spec p NULL); [done|].
  cbn [panic_if]. rewrite bind_mret, (bind_val _ _ _ _ _ (upd_part_run p x _ s Hx)).
  unfold get_part. erewrite (bind_deref sp_parts p (signals_on sg x)); [reflexivity|]. cbn.
  by rewrite lookup_alter_eq, Hx.
Qed.

Lemma wait_signals_run s p x m : p <> NULL -> s.(sp_parts) !! p = Some x ->
  backend_wait_signals p m s =
    (Val (Z.land x.(part_signals_asserted) m),
     if Z.land x.(part_signals_asserted) m =? 0
     then set_sp_parts (alter (set_part_signals_waiting m) p s.(sp_parts)) s else s).
Proof.
  intros Hp Hx. unfold backend_wait_signals. destruct (Z.eqb_spec p NULL); [done|].
  cbn [panic_if]. rewrite bind_mret. unfold get_part. rewrite (bind_deref sp_parts _ _ _ _ Hx).
  cbv zeta. destruct (Z.land _ _ =? 0); [|done].
  by rewrite (bind_val _ _ _ _ _ (upd_part_run p x _ s Hx)).
Qed.

(** Interrupts and other partitions assert signals one after the other. *)
Fixpoint assert_all (p : Z) (sgs : list Z) : SPM (list Z) :=
  match sgs with
  | [] => mret []
  | sg :: sgs' => r ← backend_assert_signal p sg; rs ← assert_all p sgs'; mret (r :: rs)
  end.

Definition signals_of (sgs : list Z) (a : Z) : Z := foldl Z.lor a sgs.

Lemma assert_all_run s p x sgs : p <> NULL -> s.(sp_parts) !! p = Some x ->
  exists rs s', assert_all p sgs s = (Val rs, s') /\
    s'.(sp_parts) = <[p := set_part_signals_asserted
                             (signals_of sgs x.(part_signals_asserted)) x]> s.(sp_parts) /\
    s'.(sp_conns) = s.(sp_conns) /\
    (truth (Z.land x.(part_signals_asserted) x.(part_signals_waiting)) = false ->
     truth (Z.land (signals_of sgs x.(part_signals_asserted)) x.(part_signals_waiting)) = true ->
     STATUS_NEED_SCHEDULE ∈ rs).
Proof.
  intros Hp. revert s x. induction sgs as [|sg sgs IH]; intros s x Hx.
  - exists [], s. split; [done|]. cbn. split.
    + rewrite insert_id; [done|]. rewrite Hx. by destruct x.
    + split; [done|]. by intros ->.
  - cbn [assert_all]. rewrite (bind_val _ _ _ _ _ (assert_signal_run s p x sg Hp Hx)).
    set (s1 := set_sp_parts _ s). set (x1 := signals_on sg x).
    destruct (IH s1 x1) as (rs & s' & Hrun & Hparts & Hconns & Hned).
    { cbn. by rewrite lookup_alter_eq, Hx. }
    eexists _, s'. split; [by rewrite (bind_val _ _ _ _ _ Hrun)|]. split; [|split; [done|]].
    + rewrite Hparts. unfold s1. cbn [sp_parts set_sp_parts].
      rewrite <- (insert_alter _ _ _ _ Hx), insert_insert_eq. done.
    + cbn in Hned |- *. intros H0 H1.
      destruct (truth (Z.land (Z.lor (part_signals_asserted x) sg) (part_signals_waiting x))) eqn:E;
        [apply list_elem_of_here|]. apply list_elem_of_further. by apply Hned.
Qed.
End Signals.

(** C35: no wake-up is lost between waiting and being scheduled.  Let a partition
    wait for the signals [m] and let any signals be asserted for it afterwards.
    If one of [m] was already asserted, the wait returns it at once and the
    partition is not marked waiting.  Otherwise the scheduler's query answers
    BLOCK exactly as long as none of [m] has been asserted; as soon as one has,
    some assertion asked for scheduling, and the query makes the thread runnable
    with exactly the asserted signals of [m] as the result of the wait, ends the
    waiting and clears no signal.  (A reply that only the SPM itself waits for is
    delivered differently, see [sync_reply_delivered].) *)
Theorem no_lost_wakeup `{cfg : SpmConfig} s p x m sgs t retval :
  p <> NULL -> s.(sp_parts) !! p = Some x -> t.(th_context) = p -> m <> 0 ->
  let ready := Z.land x.(part_signals_asserted) m in
  let asserted' := signals_of sgs x.(part_signals_asserted) in
  let ready' := Z.land m asserted' in
  (ready' = ASYNC_MSG_REPLY -> Z.land x.(part_signals_allowed) ASYNC_MSG_REPLY = ASYNC_MSG_REPLY) ->
  exists s1, backend_wait_signals p m s = (Val ready, s1) /\ (ready <> 0 -> s1 = s) /\
    (ready = 0 -> exists rs s2, assert_all p sgs s1 = (Val rs, s2) /\
       (ready' = 0 -> query_state t retval s2 = (Val (THRD_STATE_BLOCK, retval), s2)) /\
       (ready' <> 0 -> STATUS_NEED_SCHEDULE ∈ rs /\
          exists s3, query_state t retval s2 = (Val (THRD_STATE_RET_VAL_AVAIL, ready'), s3) /\
            s3.(sp_parts) !! p = Some (set_part_signals_waiting 0
                                         (set_part_signals_asserted asserted' x)))).
Proof.
  intros Hp Hx Ht Hm ready asserted' ready' Hasync. eexists.
  split; [by apply wait_signals_run|]. fold ready. split.
  { intros Hr. by destruct (Z.eqb_spec ready 0). }
  intros Hready. rewrite Hready. cbn [Z.eqb].
  set (s1 := set_sp_parts _ s). set (x1 := set_part_signals_waiting m x).
  assert (s1.(sp_parts) !! p = Some x1) as Hx1 by (cbn; by rewrite lookup_alter_eq, Hx).
  destruct (assert_all_run s1 p x1 sgs Hp Hx1) as (rs & s2 & Hrun & Hparts & Hconns & Hned).
  exists rs, s2. split; [done|].
  set (x2 := set_part_signals_asserted asserted' x1).
  assert (s2.(sp_parts) !! p = Some x2) as Hx2 by (rewrite Hparts; apply lookup_insert_eq).
  assert (query_state t retval s2 =
    (if truth ready' then
       retval' ← (if (ready' =? ASYNC_MSG_REPLY) &&
                     negb (Z.land x.(part_signals_allowed) ASYNC_MSG_REPLY =? ASYNC_MSG_REPLY)
                  then stop AssertFail else mret ready');
       _ ← upd_part p (set_part_signals_waiting 0);
       mret (THRD_STATE_RET_VAL_AVAIL, retval')
     else mret (if truth m then THRD_STATE_BLOCK else t.(th_state), retval)) s2) as ->.
  { unfold query_state, get_part. rewrite Ht, (bind_deref sp_parts _ _ _ _ Hx2). cbv zeta.
    change (Z.land (part_signals_waiting x2) (part_signals_asserted x2)) with ready'.
    change (part_signals_allowed x2) with (part_signals_allowed x).
    change (part_signals_waiting x2) with m.
    destruct (Z.eqb_spec ready' ASYNC_MSG_REPLY) as [E|]; [|done].
    rewrite (Hasync E). done. }
  assert (truth m = true) as -> by (by apply truth_true).
  split; intros Hr.
  - by rewrite (proj2 (truth_false ready') Hr).
  - split.
    + apply Hned; [by apply truth_false|]. rewrite Z.land_comm. by apply truth_true.
    + rewrite (proj2 (truth_true ready') Hr).
      exists (set_sp_parts (alter (set_part_signals_waiting 0) p s2.(sp_parts)) s2).
      assert ((ready' =? ASYNC_MSG_REPLY) &&
              negb (Z.land (part_signals_allowed x) ASYNC_MSG_REPLY =? ASYNC_MSG_REPLY) = false) as ->.
      { destruct (Z.eqb_spec ready' ASYNC_MSG_REPLY) as [E|]; [|done]. by rewrite (Hasync E). }
      rewrite bind_mret, (bind_val _ _ _ _ _ (upd_part_run p x2 _ s2 Hx2)). split; [done|].
      cbn. by rewrite lookup_alter_eq, Hx2.
Qed.

(** ** A sample system

    A client partition (at 1000), a server (at 2000) with two services (at 5000
    and 5100, announced by bits 4 and 5), a non-secure agent (at 3000), and a
    pool of three connections. *)

Definition sample_conn (status client service reqs : Z) : connection_t :=
  {| conn_status := status; conn_p_client := client; conn_service := service; conn_msg := zero_msg;
     conn_invec_base := [0; 0; 0; 0]; conn_invec_accessed := [0; 0; 0; 0];
     conn_outvec_base := [0; 0; 0; 0]; conn_outvec_written := [0; 0; 0; 0];
     conn_caller_outvec := 0; conn_client_data := 0; conn_iovec_status := 0;
     conn_p_reqs := reqs; conn_p_replied := 0; conn_replied_value := 0 |}.

#[local] Instance sample_cfg : SpmConfig := {|
  debug := true;
  PSA_FRAMEWORK_HAS_MM_IOVEC := true;
  CONFIG_TFM_CONNECTION_BASED_SERVICE_API := true;
  TFM_PARTITION_NS_AGENT_MAILBOX := false;
  connection_pool := 64;
  sizeof_connection := 8;
  CONFIG_TFM_CONN_HANDLE_MAX_NUM := 3;
  recycled := sample_conn 0xFF 0xFF 0xFF 0xFF;
  tfm_hal_memory_check := fun boundary base size access =>
    (* everything from address 100000 up is out of bounds *)
    if (base <=? 100000) && (base + size <=? 100000) then 0 else -1;
|}.

Definition sample_part (pid flags : Z) (deps : list Z) (allowed waiting asserted reqs next : Z)
  : partition_t :=
  {| part_ldinf := {| pl_pid := pid; pl_flags := flags; pl_deps := deps; pl_irqs := [] |};
     part_boundary := 0; part_signals_allowed := allowed; part_signals_waiting := waiting;
     part_signals_asserted := asserted; part_p_replied := 0; part_p_reqs := reqs; part_next := next |}.

Definition sample_serv (sid flags version signal partition next : Z) : service_t :=
  {| serv_ldinf := {| sl_sid := sid; sl_flags := flags; sl_version := version; sl_signal := signal |};
     serv_partition := partition; serv_next := next |}.

(** Service 0x20 is stateless, has index 3 and is open to non-secure clients;
    service 0x21 is connection based. *)
Definition sample_spm : spm :=
  {| sp_conns := ∅;
     sp_space := {| pool_mem := (tfm_pool_init 64 60 8 3 sample_pool_mem).2; loop_index := 0 |};
     sp_parts := list_to_map [(1000, sample_part 1 512 [0x20; 0x21] 0x100 0 0 0 2000);
                              (2000, sample_part 2 512 [] 0x30 0 0 0 3000);
                              (3000, sample_part 0 2048 [] 0 0 0 0 0)];
     sp_parts_head := 1000;
     sp_servs := list_to_map [(5000, sample_serv 0x20 (256 + 512 + 2048 + 3) 1 0x10 2000 5100);
                              (5100, sample_serv 0x21 2048 1 0x20 2000 0)];
     sp_services_head := 5000;
     sp_ref_tbl := <[3%nat := 5000]> (replicate 32 0);
     sp_current := 1000; sp_ns_client_id := -5; sp_mem := ∅; sp_irq_log := [] |}.

(** The server has three pending messages: 84 (the oldest), 116 and 100. *)
Definition sample_queue_state : spm :=
  set_sp_conns (list_to_map [(84, sample_conn 1 1000 5000 0); (116, sample_conn 1 1000 5100 84);
                             (100, sample_conn 1 1000 5000 116)])
    (set_sp_parts (<[2000 := sample_part 2 512 [] 0x30 0 0x30 100 3000]> sample_spm.(sp_parts))
       sample_spm).

Lemma sample_queue : queue p_reqs sample_queue_state 2000 [84; 116; 100].
Proof.
  exists (sample_part 2 512 [] 0x30 0 0x30 100 3000). split; [by vm_compute|].
  cbn [reverse rev_append linked of_part p_reqs part_p_reqs sample_part].
  split_and!; [done..|]. exists 116. split; [by vm_compute|].
  split_and!; [done..|]. exists 84. split; [by vm_compute|].
  split_and!; [done..|]. exists 0. split; [by vm_compute|done].
Qed.

Lemma sample_queue_signals c : c ∈ [84; 116; 100] -> is_Some (conn_signal sample_queue_state c).
Proof.
  intros Hc. apply list_elem_of_In in Hc. cbn in Hc.
  destruct Hc as [<-|[<-|[<-|[]]]]; eexists; vm_compute; reflexivity.
Qed.

(** The first [psa_get] for bit 4 yields 84 and leaves the signal set. *)
Lemma get_handle_fifo_witness :
  exists s' x', spm_get_handle_by_signal 2000 0x10 sample_queue_state = (Val 84, s') /\
    queue p_reqs s' 2000 [116; 100] /\ s'.(sp_parts) !! 2000 = Some x' /\
    x'.(part_signals_asserted) = 0x30.
Proof.
  destruct (get_handle_fifo sample_queue_state 2000 [84; 116; 100] 0x10
              (sample_part 2 512 [] 0x30 0 0x30 100 3000) sample_queue
              ltac:(vm_compute; reflexivity) sample_queue_signals ltac:(cbn; lia))
    as (s' & x' & H1 & H2 & _ & H3 & H4 & _).
  exact (ex_intro _ s' (ex_intro _ x' (conj H1 (conj H2 (conj H3 H4))))).
Defined.

Lemma no_lost_wakeup_witness :
  exists s1, backend_wait_signals 2000 0x30 sample_spm = (Val 0, s1) /\
    exists rs s2, assert_all 2000 [0x40; 0x20] s1 = (Val rs, s2) /\ STATUS_NEED_SCHEDULE ∈ rs.
Proof.
  destruct (no_lost_wakeup sample_spm 2000 (sample_part 2 512 [] 0x30 0 0 0 3000) 0x30 [0x40; 0x20]
              (sample_thread 0 0 2000 0) 0 ltac:(done) ltac:(vm_compute; reflexivity) eq_refl
              ltac:(done) ltac:(vm_compute; discriminate))
    as (s1 & H1 & _ & H2).
  destruct (H2 eq_refl) as (rs & s2 & H3 & _ & H4).
  destruct (H4 ltac:(vm_compute; discriminate)) as (H5 & _).
  exact (ex_intro _ s1 (conj H1 (ex_intro _ rs (ex_intro _ s2 (conj H3 H5))))).
Defined.

(** ** Messages and replies *)

Section Messaging.
Context {cfg : SpmConfig}.

(** Asserting a signal keeps the queues. *)
Lemma queue_signals_on f s p p' sg q : f = p_reqs \/ f = p_replied ->
  queue f s p q -> queue f (set_sp_parts (alter (signals_on sg) p' s.(sp_parts)) s) p q.
Proof.
  intros Hf (x & Hx & Hl). destruct (decide (p' = p)) as [->|Hne].
  - exists (signals_on sg x). cbn. rewrite lookup_alter_eq, Hx. split; [done|].
    replace (of_part f (signals_on sg x)) with (of_part f x); [exact Hl|].
    by destruct Hf as [-> | ->].
  - exists x. cbn. rewrite lookup_alter_ne by done. done.
Qed.

Lemma queue_waiting f s p p' m q : f = p_reqs \/ f = p_replied ->
  queue f s p q -> queue f (set_sp_parts (alter (set_part_signals_waiting m) p' s.(sp_parts)) s) p q.
Proof.
  intros Hf (x & Hx & Hl). destruct (decide (p' = p)) as [->|Hne].
  - exists (set_part_signals_waiting m x). cbn. rewrite lookup_alter_eq, Hx. split; [done|].
    replace (of_part f (set_part_signals_waiting m x)) with (of_part f x); [exact Hl|].
    by destruct Hf as [-> | ->].
  - exists x. cbn. rewrite lookup_alter_ne by done. done.
Qed.

Lemma queue_insert f `{!LinkLaws f} s p c q :
  queue f s p q -> p <> NULL -> c <> NULL -> is_Some (s.(sp_conns) !! c) -> c ∉ q ->
  exists h, let s' := set_pnode f (in_part p) c (set_pnode f (in_conn c) h s) in
    LIST_INSERT_AFTER f p c s = (Val tt, s') /\ queue f s' p (q ++ [c]).
Proof.
  intros Hq Hp Hc Hs Hn. destruct (insert_run f s p c (reverse q) Hq Hp Hc Hs) as (h & Hrun & Hq').
  { by rewrite elem_of_reverse. }
  exists h. split; [done|]. unfold queue. rewrite reverse_app. exact Hq'.
Qed.
End Messaging.

(** Sending a message.  [backend_messaging] appends the connection to the
    owner's queue of pending requests behind everything that is already there
    and asserts the service's signal; a client that is not a mailbox agent and
    has no reply waiting is made to wait for the reply, and the caller is told
    to schedule. *)
Theorem messaging_enqueues `{cfg : SpmConfig} s c cx sv p q x client y :
  s.(sp_conns) !! c = Some cx -> c <> NULL -> c ∉ q ->
  cx.(conn_service) <> NULL -> s.(sp_servs) !! cx.(conn_service) = Some sv ->
  sv.(serv_partition) = p -> p <> NULL -> s.(sp_parts) !! p = Some x ->
  cx.(conn_p_client) = client -> client <> NULL -> client <> p -> s.(sp_parts) !! client = Some y ->
  IS_NS_AGENT_MAILBOX y.(part_ldinf) = false ->
  Z.land y.(part_signals_asserted) ASYNC_MSG_REPLY = 0 ->
  queue p_reqs s p q ->
  exists s' x', backend_messaging c s = (Val STATUS_NEED_SCHEDULE, s') /\
    queue p_reqs s' p (q ++ [c]) /\ same_conns s s' /\
    s'.(sp_parts) !! p = Some x' /\
    x'.(part_signals_asserted) =
      Z.lor x.(part_signals_asserted) sv.(serv_ldinf).(sl_signal) /\
    x'.(part_signals_waiting) = x.(part_signals_waiting) /\
    s'.(sp_parts) !! client = Some (set_part_signals_waiting ASYNC_MSG_REPLY y).
Proof.
  intros Hc Hcn Hcq Hsn Hsv Hsp Hp Hx Hcl Hcln Hne Hy Hmb Has Hq.
  destruct (queue_insert p_reqs s p c q Hq Hp Hcn (mk_is_Some _ _ Hc) Hcq) as (h & Hins & Hq1).
  set (s1 := set_pnode p_reqs (in_part p) c (set_pnode p_reqs (in_conn c) h s)) in *.
  assert (s1.(sp_parts) !! p = Some (set_part_p_reqs c x)) as Hx1.
  { cbn. by rewrite lookup_alter_eq, Hx. }
  assert (s1.(sp_parts) !! client = Some y) as Hy1 by (cbn; by rewrite lookup_alter_ne).
  assert (same_conns s s1) as Hsc1 by (by apply (same_conns_pnode p_reqs (in_conn c)); left).
  set (sg := sv.(serv_ldinf).(sl_signal)).
  set (s2 := set_sp_parts (alter (signals_on sg) p s1.(sp_parts)) s1).
  assert (s2.(sp_parts) !! client = Some y) as Hy2 by (unfold s2; cbn [sp_parts set_sp_parts]; by rewrite lookup_alter_ne).
  set (s3 := set_sp_parts (alter (set_part_signals_waiting ASYNC_MSG_REPLY) client s2.(sp_parts)) s2).
  exists s3, (signals_on sg (set_part_p_reqs c x)).
  assert (queue p_reqs s3 p (q ++ [c])) as Hq3.
  { apply queue_waiting; [by left|]. apply queue_signals_on; [by left|]. exact Hq1. }
  split; [|split; [exact Hq3|]; split; [exact Hsc1|]; split; [|split; [done|]; split; [done|]]].
  - unfold backend_messaging. destruct (Z.eqb_spec c NULL); [done|].
    unfold get_conn. rewrite (bind_deref sp_conns _ _ _ _ Hc).
    destruct (Z.eqb_spec cx.(conn_service) NULL); [done|].
    unfold get_serv. rewrite (bind_deref sp_servs _ _ _ _ Hsv), Hsp.
    destruct (Z.eqb_spec p NULL); [done|]. cbv zeta. rewrite (bind_val _ _ _ _ _ Hins).
    rewrite (bind_val _ _ _ _ _ (assert_signal_run s1 p _ sg Hp Hx1)). fold s2.
    rewrite Hcl. unfold get_part. rewrite (bind_deref sp_parts _ _ _ _ Hy2), Hmb.
    rewrite (bind_val _ _ _ _ _ (wait_signals_run s2 client y ASYNC_MSG_REPLY Hcln Hy2)), Has.
    done.
  - unfold s3, s2. cbn [sp_parts set_sp_parts].
    rewrite lookup_alter_ne by done. by rewrite lookup_alter_eq, Hx1.
  - unfold s3. cbn [sp_parts set_sp_parts]. by rewrite lookup_alter_eq, Hy2.
Qed.

Definition sample_call_state : spm :=
  set_sp_conns (<[84 := sample_conn 0 1000 5100 7]> ∅) sample_spm.

Lemma messaging_enqueues_witness :
  exists s' x', backend_messaging 84 sample_call_state
      = (Val STATUS_NEED_SCHEDULE, s') /\ queue p_reqs s' 2000 [84] /\
    s'.(sp_parts) !! 2000 = Some x' /\ x'.(part_signals_asserted) = 0x20.
Proof.
  assert (queue p_reqs sample_call_state 2000 []) as Hq.
  { exists (sample_part 2 512 [] 0x30 0 0 0 3000). split; [by vm_compute|done]. }
  destruct (messaging_enqueues sample_call_state 84
              (sample_conn 0 1000 5100 7) (sample_serv 0x21 2048 1 0x20 2000 0) 2000 []
              (sample_part 2 512 [] 0x30 0 0 0 3000) 1000
              (sample_part 1 512 [0x20; 0x21] 0x100 0 0 0 2000)
              ltac:(vm_compute; reflexivity) ltac:(done) ltac:(set_solver) ltac:(done)
              ltac:(vm_compute; reflexivity) eq_refl ltac:(done) ltac:(vm_compute; reflexivity)
              eq_refl ltac:(done) ltac:(done) ltac:(vm_compute; reflexivity) eq_refl eq_refl Hq)
    as (s' & x' & H1 & H2 & _ & H3 & H4 & _).
  exact (ex_intro _ s' (ex_intro _ x' (conj H1 (conj H2 (conj H3 H4))))).
Defined.

(** A synchronous reply reaches the client.  A partition that is not a
    mailbox agent and waits for the reply of its one outstanding call is made
    runnable by [backend_replying], and the scheduler's query then hands it the
    very status the service replied with, takes the reply off the partition and
    ends the waiting; a connection marked to be freed is given back to the pool
    at that moment, any other connection is kept. *)
Theorem sync_reply_delivered `{cfg : SpmConfig} s c cx p x t status retval :
  s.(sp_conns) !! c = Some cx -> c <> NULL -> p <> NULL -> s.(sp_parts) !! p = Some x ->
  cx.(conn_p_client) = p -> t.(th_context) = p ->
  x.(part_signals_waiting) = ASYNC_MSG_REPLY ->
  Z.testbit x.(part_signals_allowed) 2 = false -> part_p_replied x = NULL ->
  cx.(conn_status) < TFM_HANDLE_STATUS_MAX ->
  (cx.(conn_status) = TFM_HANDLE_STATUS_TO_FREE ->
     exists i, pool_geometry connection_pool sizeof_connection CONFIG_TFM_CONN_HANDLE_MAX_NUM /\
       connected connection_pool sizeof_connection CONFIG_TFM_CONN_HANDLE_MAX_NUM s.(sp_space) i /\
       c = chunk_data connection_pool sizeof_connection i) ->
  exists s1 s2 x', backend_replying c status s = (Val STATUS_NEED_SCHEDULE, s1) /\
    query_state t retval s1 = (Val (THRD_STATE_RET_VAL_AVAIL, u32 status), s2) /\
    s2.(sp_parts) !! p = Some x' /\ x'.(part_p_replied) = NULL /\
    x'.(part_signals_waiting) = 0 /\
    x'.(part_signals_asserted) = Z.land (Z.lor x.(part_signals_asserted) ASYNC_MSG_REPLY)
                                        (u32 (Z.lnot ASYNC_MSG_REPLY)) /\
    (is_Some (s2.(sp_conns) !! c) <-> cx.(conn_status) <> TFM_HANDLE_STATUS_TO_FREE).
Proof.
  intros Hc Hcn Hp Hx Hcl Ht Hw Hal Hrep Hst Hfree.
  set (cx1 := set_conn_replied_value (u32 status) cx).
  set (s0 := set_sp_conns (alter (set_conn_replied_value (u32 status)) c s.(sp_conns)) s).
  assert (chained p_replied s0 p []) as Hch by (exists x; split; [done|exact Hrep]).
  assert (s0.(sp_conns) !! c = Some cx1) as Hc0 by (cbn; by rewrite lookup_alter_eq, Hc).
  destruct (insert_run p_replied s0 p c [] Hch Hp Hcn (mk_is_Some _ _ Hc0)) as (h & Hins & _); [set_solver|].
  set (s1 := set_pnode p_replied (in_part p) c (set_pnode p_replied (in_conn c) h s0)) in *.
  set (x1 := set_part_p_replied c x).
  assert (s1.(sp_parts) !! p = Some x1) as Hx1 by (cbn; by rewrite lookup_alter_eq, Hx).
  set (cx2 := set_conn_p_replied h cx1).
  assert (s1.(sp_conns) !! c = Some cx2) as Hc1.
  { unfold s1. cbn [set_pnode sp_conns set_sp_conns set_sp_parts p_replied set_of_conn].
    by rewrite lookup_alter_eq, Hc0. }
  set (s2 := set_sp_parts (alter (signals_on ASYNC_MSG_REPLY) p s1.(sp_parts)) s1).
  set (x2 := signals_on ASYNC_MSG_REPLY x1).
  assert (s2.(sp_parts) !! p = Some x2) as Hx2.
  { unfold s2. cbn [sp_parts set_sp_parts]. by rewrite lookup_alter_eq, Hx1. }
  assert (Z.land (Z.lor x.(part_signals_asserted) ASYNC_MSG_REPLY) ASYNC_MSG_REPLY = ASYNC_MSG_REPLY) as Hand.
  { apply Z.bits_inj'. intros n Hn. rewrite Z.land_spec, Z.lor_spec.
    by destruct (Z.testbit ASYNC_MSG_REPLY n), (Z.testbit (part_signals_asserted x) n). }
  assert (Z.land x.(part_signals_allowed) ASYNC_MSG_REPLY =? ASYNC_MSG_REPLY = false) as Hna.
  { change ASYNC_MSG_REPLY with (2 ^ 2). by rewrite land_pow2, Hal. }
  set (x3 := signals_off ASYNC_MSG_REPLY x2).
  set (s3 := set_sp_parts (alter (signals_off ASYNC_MSG_REPLY) p s2.(sp_parts)) s2).
  assert (s3.(sp_parts) !! p = Some x3) as Hx3.
  { unfold s3. cbn [sp_parts set_sp_parts]. by rewrite lookup_alter_eq, Hx2. }
  assert (exists s4, (if cx2.(conn_status) =? TFM_HANDLE_STATUS_TO_FREE
       then free_connection c else mret tt) s3 = (Val tt, s4) /\ s4.(sp_parts) = s3.(sp_parts) /\
       (is_Some (s4.(sp_conns) !! c) <-> cx.(conn_status) <> TFM_HANDLE_STATUS_TO_FREE)) as (s4 & Hf & Hp4 & Hc4).
  { change (conn_status cx2) with (conn_status cx).
    destruct (Z.eqb_spec cx.(conn_status) TFM_HANDLE_STATUS_TO_FREE) as [E|E].
    - destruct (Hfree E) as (i & Hgeo & (free & Hinv & Hi & Hni) & ->).
      destruct (tfm_pool_free_ok _ _ _ Hgeo debug _ i free Hinv Hi Hni) as (m' & Hrun & _).
      eexists. split.
      { unfold free_connection, spm_free_connection. erewrite bind_val; [reflexivity|].
        unfold on_space. cbn [sp_space s3 set_sp_parts s2 s1 set_pnode set_sp_conns s0].
        rewrite bind_c_assert; last first.
        { unfold mret, M_ret. repeat f_equal. by destruct (Z.eqb_spec (chunk_data connection_pool sizeof_connection i) NULL). }
        unfold on_pool. rewrite Hrun. reflexivity. }
      split; [done|]. cbn [sp_conns modifyS set_sp_conns]. rewrite lookup_delete_eq.
      split; [by intros []|done].
    - exists s3. split; [done|]. split; [done|]. split; [done|]. intros _. by exists cx2. }
  exists s2, (set_sp_parts (alter (set_part_signals_waiting 0) p
      (alter (set_part_p_replied NULL) p s4.(sp_parts))) s4),
    (set_part_signals_waiting 0 (set_part_p_replied NULL x3)).
  split; [|split; [|split; [|split; [done|split; [done|split; [done|exact Hc4]]]]]].
  - unfold backend_replying, get_conn. rewrite (bind_deref sp_conns _ _ _ _ Hc). cbv zeta.
    rewrite (bind_val _ _ _ _ _ (upd_conn_run c cx _ s Hc)). fold s0. rewrite Hcl.
    rewrite (bind_val _ _ _ _ _ Hins), (assert_signal_run s1 p x1 ASYNC_MSG_REPLY Hp Hx1).
    cbn [part_signals_asserted part_signals_waiting x1 set_part_p_replied]. by rewrite Hw, Hand.
  - unfold query_state, get_part. rewrite Ht, (bind_deref sp_parts _ _ _ _ Hx2). cbv zeta.
    cbn [x2 signals_on set_part_signals_asserted part_signals_asserted part_signals_waiting
         part_signals_allowed part_p_replied x1 set_part_p_replied].
    rewrite Hw, Z.land_comm, Hand, Hna. cbn [truth Z.eqb Pos.eqb negb andb ASYNC_MSG_REPLY].
    erewrite bind_val; last first.
    { rewrite (bind_val _ _ _ _ _ (upd_part_run p x2 _ s2 Hx2)). fold s3.
      rewrite bind_c_assert by (unfold mret, M_ret; repeat f_equal; by destruct (Z.eqb_spec c NULL)).
      unfold get_conn. rewrite (bind_deref sp_conns c cx2) by exact Hc1.
      rewrite bind_c_assert; last first.
      { unfold mret, M_ret. repeat f_equal. apply Z.ltb_lt. exact Hst. }
      rewrite (bind_val _ _ _ _ _ Hf).
      rewrite (bind_val _ _ _ _ _ (upd_part_run p x3 _ s4 ltac:(rewrite Hp4; exact Hx3))). reflexivity. }
    erewrite bind_val; last first.
    { apply (upd_part_run p (set_part_p_replied NULL x3)). cbn. by rewrite lookup_alter_eq, Hp4, Hx3. }
    change (u32 (conn_replied_value cx2)) with (u32 (u32 status)).
    rewrite (u32_small (u32 status)) by apply u32_range. reflexivity.
  - cbn [sp_parts set_sp_parts]. rewrite !lookup_alter_eq, Hp4, Hx3. done.
Qed.

(** The client waits for the reply on connection 116, which is to be freed. *)
Definition sample_reply_state : spm :=
  set_sp_conns (<[116 := sample_conn 2 1000 5000 0]> ∅) (set_sp_space sample_space
    (set_sp_parts (<[1000 := sample_part 1 512 [0x20; 0x21] 0x100 4 0 0 2000]> sample_spm.(sp_parts))
       sample_spm)).

Lemma sync_reply_delivered_witness :
  exists s1 s2 x', backend_replying 116 (-9) sample_reply_state = (Val STATUS_NEED_SCHEDULE, s1) /\
    query_state (sample_thread 0 0 1000 0) 0 s1 = (Val (THRD_STATE_RET_VAL_AVAIL, u32 (-9)), s2) /\
    s2.(sp_parts) !! 1000 = Some x' /\ x'.(part_p_replied) = NULL.
Proof.
  destruct (sync_reply_delivered sample_reply_state 116 (sample_conn 2 1000 5000 0) 1000
              (sample_part 1 512 [0x20; 0x21] 0x100 4 0 0 2000) (sample_thread 0 0 1000 0) (-9) 0
              ltac:(vm_compute; reflexivity) ltac:(done) ltac:(done) ltac:(vm_compute; reflexivity)
              eq_refl eq_refl eq_refl ltac:(vm_compute; reflexivity) eq_refl ltac:(done)
              (fun _ => ex_intro _ 2 (conj sample_geometry (conj sample_connected eq_refl))))
    as (s1 & s2 & x' & H1 & H2 & H3 & H4 & _).
  exact (ex_intro _ s1 (ex_intro _ s2 (ex_intro _ x' (conj H1 (conj H2 (conj H3 H4)))))).
Defined.

(** ** Finding services *)

Definition serv_next_of (s : spm) (p : Z) : option Z := serv_next <$> s.(sp_servs) !! p.
Definition sid_of (s : spm) (p : Z) : option Z := (fun x => x.(serv_ldinf).(sl_sid)) <$> s.(sp_servs) !! p.
Definition service_list (s : spm) (l : list Z) : Prop :=
  linked (serv_next_of s) s.(sp_services_head) l.

Section ServiceLookup.
Context {cfg : SpmConfig}.

Lemma upd_serv_run p x g s : s.(sp_servs) !! p = Some x ->
  upd_serv p g s = (Val tt, set_sp_servs (alter g p s.(sp_servs)) s).
Proof.
  intros H. unfold upd_serv, get_serv. rewrite (bind_deref _ _ _ _ _ H). unfold modifyS.
  by rewrite (insert_alter _ _ _ _ H).
Qed.

(** The service descriptions, without the links. *)
Definition same_services (s s' : spm) : Prop :=
  forall p, set_serv_next 0 <$> s'.(sp_servs) !! p = set_serv_next 0 <$> s.(sp_servs) !! p.

Lemma same_services_sid s s' p : same_services s s' -> sid_of s' p = sid_of s p.
Proof.
  intros H. specialize (H p). unfold sid_of.
  destruct (s.(sp_servs) !! p), (s'.(sp_servs) !! p); cbn in *; try done. by injection H as ->.
Qed.

(** Moving the entry behind [l1 ++ \[b\]] to the front. *)
Lemma move_after_ok s l1 b c l2 :
  service_list s (l1 ++ b :: c :: l2) ->
  exists s', SERVICE_MOVE_AFTER b c s = (Val tt, s') /\
    service_list s' (c :: l1 ++ b :: l2) /\ same_services s s' /\
    s'.(sp_conns) = s.(sp_conns) /\ s'.(sp_parts) = s.(sp_parts) /\ s'.(sp_space) = s.(sp_space) /\
    s'.(sp_current) = s.(sp_current) /\ s'.(sp_ref_tbl) = s.(sp_ref_tbl).
Proof.
  unfold service_list. intros Hl.
  pose proof (linked_nodup _ _ _ Hl) as Hnd.
  destruct (linked_at _ _ _ _ _ Hl) as (_ & Hb & nb & Hnb & Hl').
  cbn in Hl'. destruct Hl' as (-> & Hc & nc & Hnc & Hl2).
  unfold serv_next_of in Hnb, Hnc. apply fmap_Some in Hnb as (xb & Hxb & Hnb).
  apply fmap_Some in Hnc as (xc & Hxc & Hnc).
  assert (b <> c) as Hbc.
  { apply NoDup_app in Hnd as (_ & _ & Hnd). rewrite NoDup_cons in Hnd. set_solver. }
  set (h := s.(sp_services_head)).
  set (s1 := set_sp_servs (alter (set_serv_next nc) b s.(sp_servs)) s).
  set (s2 := set_sp_servs (alter (set_serv_next h) c s1.(sp_servs)) s1).
  assert (s1.(sp_servs) !! c = Some xc) as Hxc1 by (cbn; by rewrite lookup_alter_ne).
  exists (set_sp_services_head c s2). split.
  { unfold SERVICE_MOVE_AFTER. destruct (Z.eqb_spec b NULL); [done|].
    destruct (Z.eqb_spec c NULL); [done|]. cbn [orb]. unfold get_serv.
    rewrite (bind_deref sp_servs _ _ _ _ Hxc), <- Hnc.
    rewrite (bind_val _ _ _ _ _ (upd_serv_run b xb _ s Hxb)). fold s1. rewrite bind_gets.
    rewrite (bind_val _ _ _ _ _ (upd_serv_run c xc _ s1 Hxc1)). done. }
  split; [|split; [|done]].
  - cbn [linked sp_services_head set_sp_services_head]. split_and!; [done..|]. exists h.
    unfold serv_next_of. cbn [sp_servs set_sp_services_head s2 set_sp_servs].
    rewrite lookup_alter_eq, Hxc1. split; [done|].
    apply (linked_ext (fun p => serv_next <$> s1.(sp_servs) !! p)).
    { intros p Hp. rewrite lookup_alter_ne; [done|]. intros <-.
      apply NoDup_app in Hnd as (_ & Hd & Hnd). rewrite !NoDup_cons in Hnd. set_solver. }
    eapply linked_remove_after with (next := serv_next_of s) (n := nc); [exact Hl|..].
    + unfold serv_next_of. rewrite Hxc. cbn. by rewrite Hnc.
    + cbn. by rewrite lookup_alter_eq, Hxb.
    + intros p Hp. unfold serv_next_of. cbn. by rewrite lookup_alter_ne.
  - intros p. cbn. destruct (decide (p = c)) as [->|].
    + rewrite lookup_alter_eq, lookup_alter_ne, Hxc by done. done.
    + rewrite lookup_alter_ne by done. destruct (decide (p = b)) as [->|].
      * by rewrite lookup_alter_eq, Hxb.
      * by rewrite lookup_alter_ne.
Qed.
End ServiceLookup.

Lemma service_lookup_spec `{cfg : SpmConfig} s l sid :
  service_list s l -> Z.of_nat (length l) < 2 ^ 32 - 1 ->
  match take_first (fun p => bool_decide (sid_of s p = Some sid)) l with
  | None => tfm_spm_get_service_by_sid sid s = (Val NULL, s)
  | Some (p, rest) => exists s', tfm_spm_get_service_by_sid sid s = (Val p, s') /\
      service_list s' (p :: rest) /\ same_services s s' /\
      s'.(sp_conns) = s.(sp_conns) /\ s'.(sp_parts) = s.(sp_parts) /\ s'.(sp_space) = s.(sp_space) /\
      s'.(sp_current) = s.(sp_current)
  end.
Proof.
  intros Hl Hlen. set (P := fun p => bool_decide (sid_of s p = Some sid)).
  unfold tfm_spm_get_service_by_sid. rewrite bind_gets.
  match goal with |- context [while_loop ?st _] => set (step := st) end.
  set (post := fun (r : Z) s' => match take_first P l with
    | None => r = NULL /\ s' = s
    | Some (p, rest) => r = p /\ service_list s' (p :: rest) /\ same_services s s' /\
        s'.(sp_conns) = s.(sp_conns) /\ s'.(sp_parts) = s.(sp_parts) /\ s'.(sp_space) = s.(sp_space) /\
      s'.(sp_current) = s.(sp_current)
    end).
  destruct (while_loop_ghost step
    (fun '(prev, curr) l2 s' => s' = s /\ exists l1, l = l1 ++ l2 /\
       Forall (fun p => P p = false) l1 /\ prev = default NULL (last l1) /\
       linked (serv_next_of s) curr l2)
    post (fun l2 => Z.of_nat (length l2)))
    with (x := (NULL, s.(sp_services_head))) (g := l) (s := s) as (r & s' & Hrun & Hpost).
  - intros [prev curr] l2 s' (-> & l1 & Hsplit & Hno & Hprev & Hl2).
    destruct l2 as [|c l2]; cbn in Hl2.
    + subst curr. exists (inr NULL), s. split; [done|]. unfold post.
      rewrite app_nil_r in Hsplit. subst l1. by rewrite (proj2 (take_first_none P l) Hno).
    + destruct Hl2 as (-> & Hc & n & Hn & Hl2).
      unfold serv_next_of in Hn. apply fmap_Some in Hn as (x & Hx & ->).
      unfold step. destruct (Z.eqb_spec c NULL); [done|]. unfold get_serv.
      rewrite (bind_deref sp_servs _ _ _ _ Hx).
      assert (P c = (sl_sid (serv_ldinf x) =? sid)) as HPc.
      { unfold P, sid_of. rewrite Hx. cbn. destruct (Z.eqb_spec (sl_sid (serv_ldinf x)) sid) as [->|Hne];
          [by rewrite bool_decide_true|]. rewrite bool_decide_false; [done|]. congruence. }
      rewrite <- HPc. destruct (P c) eqn:E.
      * assert (take_first P l = Some (c, l1 ++ l2)) as Htf by (rewrite Hsplit; by apply take_first_app).
        destruct (last l1) as [b|] eqn:El.
        -- apply last_snoc_inv in El as (l1' & ->). cbn in Hprev. subst prev.
           rewrite <- app_assoc in Hsplit, Htf. cbn in Hsplit, Htf. rewrite Hsplit in Hl.
           destruct (move_after_ok s l1' b c l2 Hl) as (s1 & Hmv & Hl1 & Hsame & H1 & H2 & H3 & H4 & _).
           exists (inr c), s1. split; [by rewrite (bind_val _ _ _ _ _ Hmv)|].
           unfold post. by rewrite Htf.
        -- cbn in Hprev. subst prev. exists (inr c), s. split; [done|].
           unfold post. rewrite Htf. apply last_None in El as ->. cbn in *. subst l.
           split; [done|]. split; [done|]. split; [by intros ?|done].
      * exists (inl (c, serv_next x)), s. split; [done|]. exists l2. split; [|cbn [length]; lia].
        split; [done|]. exists (l1 ++ [c]). rewrite <- app_assoc, last_snoc. split; [done|].
        split; [|done]. apply Forall_app. split; [done|]. by constructor.
  - split; [done|]. exists []. split_and!; done.
  - lia.
  - unfold post in Hpost. destruct (take_first P l) as [[p rest]|].
    + destruct Hpost as (-> & ?). by exists s'.
    + by destruct Hpost as (-> & ->).
Qed.

(** Service lookup.  [tfm_spm_get_service_by_sid] finds the first service of
    the list with the given id, or answers with a null pointer when no service
    has it; a hit behind the head is moved to the front, so that the next lookup
    is short, and apart from that move the list keeps every service and their
    order, and nothing else changes. *)
Theorem service_lookup_moves_to_front `{cfg : SpmConfig} s l sid :
  service_list s l -> Z.of_nat (length l) < 2 ^ 32 - 1 ->
  match take_first (fun p => bool_decide (sid_of s p = Some sid)) l with
  | None => tfm_spm_get_service_by_sid sid s = (Val NULL, s)
  | Some (p, rest) => exists s', tfm_spm_get_service_by_sid sid s = (Val p, s') /\
      service_list s' (p :: rest) /\ same_services s s' /\
      s'.(sp_conns) = s.(sp_conns) /\ s'.(sp_parts) = s.(sp_parts) /\ s'.(sp_space) = s.(sp_space)
  end.
Proof.
  intros Hl Hlen. pose proof (service_lookup_spec s l sid Hl Hlen) as H.
  destruct (take_first _ l) as [[p rest]|]; [|exact H].
  destruct H as (s' & H1 & H2 & H3 & H4 & H5 & H6 & _). by exists s'.
Qed.

Lemma service_lookup_moves_to_front_witness :
  exists s', tfm_spm_get_service_by_sid 0x21 sample_spm = (Val 5100, s') /\
    service_list s' [5100; 5000].
Proof.
  assert (service_list sample_spm [5000; 5100]) as Hl.
  { cbn [linked service_list]. split_and!; [done..|]. exists 5100. split; [by vm_compute|].
    split_and!; [done..|]. exists 0. split; [by vm_compute|done]. }
  destruct (service_lookup_moves_to_front sample_spm [5000; 5100] 0x21 Hl ltac:(cbn; lia))
    as (s' & H1 & H2 & _).
  exact (ex_intro _ s' (conj H1 H2)).
Defined.

(** ** Who gets hold of a connection *)

Lemma bind_snd_same {S A B} (m : M S A) (f : A -> M S B) s :
  (m s).2 = s -> (forall a, (f a s).2 = s) -> ((x ← m; f x) s).2 = s.
Proof. intros H Hf. unfold mbind, M_bind. destruct (m s) as [[]]; cbn in *; subst; auto. Qed.

Lemma is_valid_readonly pool d m : (is_valid_chunk_data_in_pool pool d m).2 = m.
Proof.
  assert (forall a, (load a m).2 = m) as Hload by (intros a; unfold load; by destruct (m !! a)).
  unfold is_valid_chunk_data_in_pool. destruct (pool =? NULL); [done|]. cbv zeta.
  destruct (d <? pool + pool_instance.chunks); [done|].
  apply bind_snd_same; [apply Hload|]. intros a. destruct (a <=? _); [done|].
  apply bind_snd_same; [apply Hload|]. intros b. destruct (negb _); [done|].
  by apply bind_snd_same; [apply Hload|].
Qed.

Lemma deref_val {A} f p (x : A) s s' : deref f p s = (Val x, s') -> f s !! p = Some x /\ s' = s.
Proof. unfold deref. destruct (f s !! p); [|done]. by intros [= -> ->]. Qed.

Lemma c_assert_val {S} d (b : bool) (s s' : S) u :
  c_assert d (mret b) s = (Val u, s') -> s' = s.
Proof. unfold c_assert. destruct d; [|by intros [= _ <-]]. cbn. destruct b; by intros [= _ <-]. Qed.

Ltac inv_spm := repeat lazymatch goal with
  | H : get_conn _ _ = (Val _, _) |- _ => apply deref_val in H as [? ?]; subst
  | H : get_part _ _ = (Val _, _) |- _ => apply deref_val in H as [? ?]; subst
  | H : get_serv _ _ = (Val _, _) |- _ => apply deref_val in H as [? ?]; subst
  | H : c_assert _ (mret _) _ = (Val _, _) |- _ => apply c_assert_val in H; subst
  end.

Section IdleConnection.
Context {cfg : SpmConfig}.

Lemma on_pool_same {A} (m : M mem A) s : (forall k, (m k).2 = k) -> (on_pool m s).2 = s.
Proof. intros H. unfold on_pool. specialize (H s.(pool_mem)). destruct (m (pool_mem s)). cbn in *. subst. by destruct s. Qed.

Lemma on_space_same {A} (m : M conn_space A) s : (forall k, (m k).2 = k) -> (on_space m s).2 = s.
Proof. intros H. unfold on_space. specialize (H s.(sp_space)). destruct (m (sp_space s)). cbn in *. subst. by destruct s. Qed.

Lemma handle_to_connection_readonly h s :
  (on_space (handle_to_connection debug connection_pool h) s).2 = s.
Proof.
  apply on_space_same. intros k. unfold handle_to_connection. destruct (h =? PSA_NULL_HANDLE); [done|].
  cbv zeta. apply bind_snd_same; [|done]. unfold c_assert. destruct debug; [|done].
  apply bind_snd_same; [|by intros []]. apply on_pool_same, is_valid_readonly.
Qed.

Lemma validate_readonly p s : (on_space (spm_validate_connection connection_pool p) s).2 = s.
Proof.
  apply on_space_same. intros k. apply bind_snd_same; [|by intros []].
  apply on_pool_same, is_valid_readonly.
Qed.

(** The services a caller may use. *)
Definition authorised (s : spm) (x : service_t) : Prop :=
  exists cur, s.(sp_parts) !! s.(sp_current) = Some cur /\
    if IS_NS_AGENT cur.(part_ldinf) then SERVICE_IS_NS_ACCESSIBLE x.(serv_ldinf).(sl_flags) = true
    else x.(serv_ldinf).(sl_sid) ∈ cur.(part_ldinf).(pl_deps).

Definition version_ok (x : service_t) (version : Z) : Prop :=
  if SERVICE_GET_VERSION_POLICY x.(serv_ldinf).(sl_flags) =? SERVICE_VERSION_POLICY_RELAXED
  then version <= x.(serv_ldinf).(sl_version) else version = x.(serv_ldinf).(sl_version).

Lemma check_version_val service version s s' u :
  tfm_spm_check_client_version service version s = (Val u, s') ->
  s' = s /\ exists x, s.(sp_servs) !! service = Some x /\ version_ok x version.
Proof.
  unfold tfm_spm_check_client_version. intros H. inv_run H. inv_spm. cbv zeta in Hrun2. unfold version_ok.
  destruct (_ =? SERVICE_VERSION_POLICY_RELAXED) eqn:E1.
  - inv_run Hrun2. split; [done|]. eexists. split; [done|]. rewrite E1. lia.
  - destruct (_ =? SERVICE_VERSION_POLICY_STRICT); [|done].
    inv_run Hrun2. split; [done|]. eexists. split; [done|]. rewrite E1. lia.
Qed.

Lemma check_authorization_val sid service ns s s' u :
  tfm_spm_check_authorization sid service ns s = (Val u, s') ->
  s' = s /\
  if ns then exists x, s.(sp_servs) !! service = Some x /\
                       SERVICE_IS_NS_ACCESSIBLE x.(serv_ldinf).(sl_flags) = true
  else exists cur, s.(sp_parts) !! s.(sp_current) = Some cur /\ sid ∈ cur.(part_ldinf).(pl_deps).
Proof.
  unfold tfm_spm_check_authorization. intros H. inv_run H. inv_spm.
  destruct ns; inv_run Hrun0; inv_spm; (split; [done|]); (eexists; split; [done|]).
  - by apply negb_false_iff.
  - apply list_elem_of_In.
    match goal with E : negb (existsb _ _) = false |- _ =>
      apply negb_false_iff, existsb_exists in E as (d & Hd & Ed) end.
    apply Z.eqb_eq in Ed. by subst.
Qed.

Lemma is_ns_caller_val s s' b : tfm_spm_is_ns_caller s = (Val b, s') ->
  s' = s /\ exists cur, s.(sp_parts) !! s.(sp_current) = Some cur /\ b = IS_NS_AGENT cur.(part_ldinf).
Proof.
  unfold tfm_spm_is_ns_caller. intros H. inv_run H. inv_spm. eauto.
Qed.

Lemma upd_conn_val c g s s' u : upd_conn c g s = (Val u, s') ->
  exists x, s.(sp_conns) !! c = Some x /\ s' = set_sp_conns (alter g c s.(sp_conns)) s.
Proof.
  intros H. unfold upd_conn in H. inv_run H. inv_spm. eexists. split; [done|].
  by erewrite insert_alter.
Qed.
End IdleConnection.

Section IdleConnection2.
Context {cfg : SpmConfig}.

Lemma on_space_frame {A} (m : M conn_space A) s r s' :
  on_space m s = (r, s') -> exists sp, s' = set_sp_space sp s.
Proof. unfold on_space. destruct (m (sp_space s)) as [r' sp]. intros [= <- <-]. eauto. Qed.

(** What a freshly initialised connection looks like. *)
Record fresh (s : spm) (service client_id : Z) (x : connection_t) : Prop := {
  fr_service : x.(conn_service) = service;
  fr_client : x.(conn_p_client) = s.(sp_current);
  fr_status : x.(conn_status) = TFM_HANDLE_STATUS_IDLE;
  fr_client_id : x.(conn_msg).(msg_client_id) = client_id;
  fr_in_size : x.(conn_msg).(msg_in_size) = [0; 0; 0; 0];
  fr_out_size : x.(conn_msg).(msg_out_size) = [0; 0; 0; 0];
  fr_rhandle : x.(conn_msg).(msg_rhandle) = 0;
  fr_iovec : PSA_FRAMEWORK_HAS_MM_IOVEC = true -> x.(conn_iovec_status) = 0;
}.

Lemma init_idle_val c service client_id s s' u :
  spm_init_idle_connection c service client_id s = (Val u, s') ->
  s'.(sp_parts) = s.(sp_parts) /\ s'.(sp_servs) = s.(sp_servs) /\
  s'.(sp_current) = s.(sp_current) /\ s'.(sp_ref_tbl) = s.(sp_ref_tbl) /\
  (exists x, s'.(sp_conns) !! c = Some x /\ fresh s service client_id x) /\
  (forall c', c' <> c -> s'.(sp_conns) !! c' = s.(sp_conns) !! c').
Proof.
  unfold spm_init_idle_connection. intros H. inv_run H. inv_spm.
  repeat match goal with E : upd_conn _ _ _ = (Val _, _) |- _ =>
    apply upd_conn_val in E as (? & ? & ->) end.
  match goal with E : on_space _ _ = (Val _, _) |- _ => apply on_space_frame in E as (sp & ->) end.
  cbn [set_sp_conns set_sp_space sp_parts sp_servs sp_current sp_ref_tbl sp_conns] in *.
  split_and!; try done.
  - rewrite !lookup_alter_eq in *. match goal with E : alter _ _ _ !! _ = Some _ |- _ =>
      rewrite E end || idtac.
    repeat match goal with E : _ !! c = Some _ |- _ => rewrite E; clear E end.
    eexists. split; [reflexivity|].
    split; cbn; try (destruct PSA_FRAMEWORK_HAS_MM_IOVEC, TFM_PARTITION_NS_AGENT_MAILBOX; done).
  - intros c' Hc'. by rewrite !lookup_alter_ne by done.
Qed.

Lemma alloc_connection_val s c s' :
  alloc_connection s = (Val c, s') -> c <> NULL ->
  exists sp, s' = set_sp_conns (<[c := recycled]> s.(sp_conns)) (set_sp_space sp s).
Proof.
  unfold alloc_connection. intros H Hc. inv_run H.
  match goal with E : on_space _ _ = (Val _, _) |- _ => apply on_space_frame in E as (sp & ->) end.
  destruct (_ =? NULL) eqn:E in Hrun0.
  - inv_run Hrun0. apply Z.eqb_eq in E. done.
  - inv_run Hrun0. by exists sp.
Qed.
End IdleConnection2.

(** C2: who gets a connection to a service.  When [spm_get_idle_connection]
    yields a connection for a handle, then
    - for a static handle: the stateless service at the handle's index exists,
      the running partition may use it (a non-secure agent only if the service is
      open to non-secure clients, a secure partition only if it declared the
      dependency), the handle's version satisfies the service's policy, and the
      connection is a fresh idle one for that service, client and client id, with
      no other connection touched;
    - for any other handle: nothing is changed, and the connection is an
      allocated one that was established for exactly this client id and is idle. *)
Theorem idle_connection_guarded `{cfg : SpmConfig} s handle client_id c s' :
  spm_get_idle_connection handle client_id s = (Val c, s') ->
  handle <> PSA_NULL_HANDLE /\
  if IS_STATIC_HANDLE handle then
    exists service x cx,
      s.(sp_ref_tbl) !! Z.to_nat (GET_INDEX_FROM_STATIC_HANDLE handle) = Some service /\
      service <> NULL /\ s.(sp_servs) !! service = Some x /\ authorised s x /\
      version_ok x (GET_VERSION_FROM_STATIC_HANDLE handle) /\
      s'.(sp_conns) !! c = Some cx /\ fresh s service client_id cx /\
      (forall c', c' <> c -> s'.(sp_conns) !! c' = s.(sp_conns) !! c')
  else
    s' = s /\ exists cx, s.(sp_conns) !! c = Some cx /\ c <> NULL /\
      cx.(conn_msg).(msg_client_id) = client_id /\
      cx.(conn_status) = TFM_HANDLE_STATUS_IDLE /\ cx.(conn_service) <> NULL.
Proof.
  unfold spm_get_idle_connection. intros H. inv_run H.
  split; [by apply Z.eqb_neq|].
  destruct (IS_STATIC_HANDLE handle).
  - inv_run Hrun0. inv_spm.
    match goal with E : elem _ _ _ = (Val ?sv, _) |- _ =>
      unfold elem in E; destruct (_ <? 0) in E; [done|];
      destruct (_ !! _) as [sv'|] eqn:Hsv in E; [injection E as -> ->|done] end.
    match goal with E : tfm_spm_is_ns_caller _ = _ |- _ =>
      apply is_ns_caller_val in E as (-> & cur & Hcur & ->) end.
    match goal with E : tfm_spm_check_authorization _ _ _ _ = _ |- _ =>
      apply check_authorization_val in E as (-> & Hauth) end.
    match goal with E : tfm_spm_check_client_version _ _ _ = _ |- _ =>
      apply check_version_val in E as (-> & x & Hx & Hver) end.
    match goal with E : alloc_connection _ = (Val ?c', _), E' : (?c' =? NULL) = false |- _ =>
      apply Z.eqb_neq in E'; apply (alloc_connection_val _ _ _ E) in E' as (sp & ->) end.
    match goal with E : spm_init_idle_connection _ _ _ _ = _ |- _ =>
      apply init_idle_val in E as (_ & _ & _ & _ & (cx & Hcx & Hfr) & Hoth) end.
    do 3 eexists. split_and!; [exact Hsv|by apply Z.eqb_neq|exact Hx| |exact Hver|exact Hcx| |].
    + exists cur. split; [done|]. destruct (IS_NS_AGENT (part_ldinf cur)).
      * destruct Hauth as (x' & Hx' & ?). congruence.
      * destruct Hauth as (cur' & Hcur' & ?). congruence.
    + by destruct Hfr.
    + intros c' Hc'. rewrite Hoth by done. cbn. by rewrite lookup_insert_ne.
  - destruct CONFIG_TFM_CONNECTION_BASED_SERVICE_API; [|done]. inv_run Hrun0. inv_spm.
    match goal with E : on_space (handle_to_connection _ _ _) s = _ |- _ =>
      pose proof (handle_to_connection_readonly handle s) as Hro; rewrite E in Hro; cbn in Hro; subst end.
    match goal with E : on_space (spm_validate_connection _ ?p) ?s0 = _ |- _ =>
      pose proof (validate_readonly p s0) as Hro; rewrite E in Hro; cbn in Hro; subst end.
    split; [done|]. eexists. split; [eassumption|]. rewrite negb_false_iff, Z.eqb_eq, Z.eqb_neq in *.
    done.
Qed.

Lemma idle_connection_guarded_witness :
  exists c s', spm_get_idle_connection 0x40000103 1 sample_spm = (Val c, s') /\
    0x40000103 <> PSA_NULL_HANDLE.
Proof.
  destruct (spm_get_idle_connection 0x40000103 1 sample_spm) as [[c|e|h] s'] eqn:E.
  - exists c, s'. split; [reflexivity|].
    exact (proj1 (idle_connection_guarded sample_spm 0x40000103 1 c s' E)).
  - exfalso. apply (f_equal fst) in E. vm_compute in E. discriminate.
  - exfalso. apply (f_equal fst) in E. vm_compute in E. discriminate.
Defined.
