(* ===== verification/SpmCall.v ===== *)
(** The client side of the PSA API: calls, connections, versions.

    [secure_fw/spm/core/psa_call_api.c], [psa_connection_api.c],
    [psa_version_api.c] and the callers' checks of [mailbox_agent_api.c].  The
    functions run on behalf of the current partition; their results are what the
    dispatcher hands back to it (see [SpmMsg.spm_handle_programmer_errors]). *)

From stdpp Require Import base list numbers gmap.
From S2P Require Import Prelude SpmPool SpmTypes SpmThread SpmIpc.

Section SpmCall.
Context {cfg : SpmConfig}.

(** [tfm_hal_memory_check] for the boundary of partition [p], any failure being
    a programmer error of the caller. *)
Definition memory_check (p base size access : Z) : SPM unit :=
  x ← get_part p;
  fail_if (negb (tfm_hal_memory_check x.(part_boundary) base size access =? PSA_SUCCESS))
    PSA_ERROR_PROGRAMMER_ERROR.

Definition msg_upd (f : psa_msg_t -> psa_msg_t) (c : connection_t) : connection_t :=
  set_conn_msg (f c.(conn_msg)) c.

(** The overlap check for the pair [i], [j] of input vectors. *)
Definition vec_apart (vi vj : Z * Z) : bool :=
  (u32 (vj.1 + vj.2) <=? vi.1) || (u32 (vi.1 + vi.2) <=? vj.1).

Definition nth_vec (l : list (Z * Z)) (i : Z) : Z * Z := nth (Z.to_nat i) l (0, 0).

Definition check_overlap (ivecs : list (Z * Z)) (ivec_num : Z) : SPM (option unit) :=
  for_range 0 (ivec_num - 1) (fun i =>
    let vi := nth_vec ivecs i in
    _ ← fail_if (u32 (vi.1 + vi.2) <? vi.1) PSA_ERROR_PROGRAMMER_ERROR;
    for_range (i + 1) ivec_num (fun j =>
      _ ← fail_if (negb (vec_apart vi (nth_vec ivecs j))) PSA_ERROR_PROGRAMMER_ERROR;
      mret None)).

Definition record_invec (i : Z) (v : Z * Z) (c : connection_t) : connection_t :=
  set_conn_invec_accessed (set_elem c.(conn_invec_accessed) i 0)
    (set_conn_invec_base (set_elem c.(conn_invec_base) i v.1)
      (msg_upd (fun m => set_msg_in_size (set_elem m.(msg_in_size) i v.2) m) c)).

Definition record_outvec (i : Z) (v : Z * Z) (c : connection_t) : connection_t :=
  set_conn_outvec_written (set_elem c.(conn_outvec_written) i 0)
    (set_conn_outvec_base (set_elem c.(conn_outvec_base) i v.1)
      (msg_upd (fun m => set_msg_out_size (set_elem m.(msg_out_size) i v.2) m) c)).

Definition spm_associate_call_params (p_connection ctrl_param inptr outptr : Z) : SPM unit :=
  curr_partition ← gets sp_current;
  let ivec_num := PARAM_UNPACK_IN_LEN ctrl_param in
  let ovec_num := PARAM_UNPACK_OUT_LEN ctrl_param in
  let type := PARAM_UNPACK_TYPE ctrl_param in
  _ ← fail_if (type <? 0) PSA_ERROR_PROGRAMMER_ERROR;
  _ ← upd_conn p_connection (msg_upd (set_msg_type type));
  if negb (PARAM_HAS_IOVEC ctrl_param) then mret tt
  else
    _ ← fail_if ((u32 (UINT32_MAX - ovec_num) <? ivec_num) ||
                 (PSA_MAX_IOVEC <? u32 (ivec_num + ovec_num))) PSA_ERROR_PROGRAMMER_ERROR;
    let ns_access := if PARAM_IS_NS_VEC ctrl_param then TFM_HAL_ACCESS_NS else 0 in
    _ ← memory_check curr_partition inptr (u32 (ivec_num * sizeof_psa_vec))
          (Z.lor TFM_HAL_ACCESS_READABLE ns_access);
    iraw ← read_bytes inptr (u32 (ivec_num * sizeof_psa_vec));
    let ivecs_local := decode_vecs (Z.to_nat ivec_num) iraw in
    _ ← memory_check curr_partition outptr (u32 (ovec_num * sizeof_psa_vec))
          (Z.lor TFM_HAL_ACCESS_READWRITE ns_access);
    oraw ← read_bytes outptr (u32 (ovec_num * sizeof_psa_vec));
    let ovecs_local := decode_vecs (Z.to_nat ovec_num) oraw in
    _ ← check_overlap ivecs_local ivec_num;
    let ns_access := if PARAM_IS_NS_INVEC ctrl_param then TFM_HAL_ACCESS_NS else ns_access in
    _ ← upd_conn p_connection (msg_upd (fun m =>
          set_msg_out_size [0; 0; 0; 0] (set_msg_in_size [0; 0; 0; 0] m)));
    _ ← for_range 0 ivec_num (fun i =>
          let v := nth_vec ivecs_local i in
          _ ← memory_check curr_partition v.1 v.2 (Z.lor TFM_HAL_ACCESS_READABLE ns_access);
          _ ← upd_conn p_connection (record_invec i v);
          mret (A := option unit) None);
    let ns_access :=
      if (ns_access =? TFM_HAL_ACCESS_NS) && negb (PARAM_IS_NS_VEC ctrl_param) &&
         negb (PARAM_IS_NS_OUTVEC ctrl_param) then 0 else ns_access in
    _ ← for_range 0 ovec_num (fun i =>
          let v := nth_vec ovecs_local i in
          _ ← memory_check curr_partition v.1 v.2 (Z.lor TFM_HAL_ACCESS_READWRITE ns_access);
          _ ← upd_conn p_connection (record_outvec i v);
          mret (A := option unit) None);
    upd_conn p_connection (set_conn_caller_outvec outptr).

Definition tfm_spm_client_psa_call (handle ctrl_param inptr outptr : Z) : SPM Z :=
  ns_caller ← tfm_spm_is_ns_caller;
  client_id ← tfm_spm_get_client_id ns_caller;
  p_connection ← spm_get_idle_connection handle client_id;
  r ← attempt (spm_associate_call_params p_connection ctrl_param inptr outptr);
  match r with
  | inl status =>
      _ ← (if IS_STATIC_HANDLE handle then free_connection p_connection else mret tt);
      throw status
  | inr _ =>
      status ← backend_messaging p_connection;
      _ ← upd_conn p_connection (set_conn_status TFM_HANDLE_STATUS_ACTIVE);
      mret status
  end.

(** ** psa_connection_api.c *)

Definition spm_psa_connect_client_id_associated (sid version client_id : Z) : SPM Z :=
  service ← tfm_spm_get_service_by_sid sid;
  _ ← fail_if (service =? NULL) PSA_ERROR_CONNECTION_REFUSED;
  x ← get_serv service;
  _ ← fail_if (SERVICE_IS_STATELESS x.(serv_ldinf).(sl_flags)) PSA_ERROR_PROGRAMMER_ERROR;
  _ ← or_return (tfm_spm_check_authorization sid service (client_id <? 0))   (* ns_caller *)
        PSA_ERROR_CONNECTION_REFUSED;
  _ ← or_return (tfm_spm_check_client_version service version) PSA_ERROR_CONNECTION_REFUSED;
  connection ← alloc_connection;
  _ ← fail_if (connection =? NULL) PSA_ERROR_CONNECTION_BUSY;
  _ ← spm_init_idle_connection connection service client_id;
  _ ← upd_conn connection (msg_upd (set_msg_type PSA_IPC_CONNECT));
  mret connection.

Definition tfm_spm_client_psa_connect (sid version : Z) : SPM Z :=
  ns_caller ← tfm_spm_is_ns_caller;
  client_id ← tfm_spm_get_client_id ns_caller;
  p_connection ← spm_psa_connect_client_id_associated sid version client_id;
  status ← backend_messaging p_connection;
  _ ← upd_conn p_connection (set_conn_status TFM_HANDLE_STATUS_ACTIVE);
  mret status.

Definition spm_psa_close_client_id_associated (handle client_id : Z) : SPM Z :=
  if handle =? PSA_NULL_HANDLE then mret PSA_SUCCESS
  else
    _ ← fail_if (IS_STATIC_HANDLE handle) PSA_ERROR_PROGRAMMER_ERROR;
    p_connection ← spm_get_idle_connection handle client_id;
    _ ← upd_conn p_connection (msg_upd (set_msg_type PSA_IPC_DISCONNECT));
    status ← backend_messaging p_connection;
    _ ← upd_conn p_connection (set_conn_status TFM_HANDLE_STATUS_TO_FREE);
    mret status.

Definition tfm_spm_client_psa_close (handle : Z) : SPM Z :=
  ns_caller ← tfm_spm_is_ns_caller;
  client_id ← tfm_spm_get_client_id ns_caller;
  spm_psa_close_client_id_associated handle client_id.

Definition tfm_spm_partition_psa_set_rhandle (msg_handle rhandle : Z) : SPM Z :=
  handle ← spm_msg_handle_to_connection msg_handle;
  _ ← panic_if (handle =? NULL);
  c ← get_conn handle;
  sv ← get_serv c.(conn_service);
  _ ← panic_if (SERVICE_IS_STATELESS sv.(serv_ldinf).(sl_flags));
  _ ← upd_conn handle (msg_upd (set_msg_rhandle rhandle));
  mret PSA_SUCCESS.

(** ** psa_version_api.c *)

Definition tfm_spm_client_psa_framework_version : Z := PSA_FRAMEWORK_VERSION.

Definition tfm_spm_client_psa_version (sid : Z) : SPM Z :=
  ns_caller ← tfm_spm_is_ns_caller;
  service ← tfm_spm_get_service_by_sid sid;
  if service =? NULL then mret PSA_VERSION_NONE
  else
    r ← attempt (tfm_spm_check_authorization sid service ns_caller);
    match r with
    | inl _ => mret PSA_VERSION_NONE
    | inr _ => x ← get_serv service; mret x.(serv_ldinf).(sl_version)
    end.

(** ** mailbox_agent_api.c *)

(** [struct client_params_t] *)
Record client_params_t := {
  cp_ns_client_id_stateless : Z;
  cp_p_invecs : Z;
  cp_p_outvecs : Z;
}.

(** [params_at] is the address of the structure, [sizeof_params] its size. *)
Definition tfm_spm_agent_psa_call (handle control params_at sizeof_params : Z)
    (params : client_params_t) (client_data_stateless : Z) : SPM Z :=
  curr_partition ← gets sp_current;
  _ ← memory_check curr_partition params_at sizeof_params TFM_HAL_ACCESS_READABLE;
  p_connection ← spm_get_idle_connection handle params.(cp_ns_client_id_stateless);
  r ← attempt (spm_associate_call_params p_connection control params.(cp_p_invecs)
                 params.(cp_p_outvecs));
  match r with
  | inl status =>
      _ ← (if IS_STATIC_HANDLE handle then free_connection p_connection else mret tt);
      throw status
  | inr _ =>
      _ ← c_assert debug (mret (negb (client_data_stateless =? NULL)));
      _ ← upd_conn p_connection (set_conn_client_data client_data_stateless);
      status ← backend_messaging p_connection;
      _ ← upd_conn p_connection (set_conn_status TFM_HANDLE_STATUS_ACTIVE);
      mret status
  end.

Definition tfm_spm_agent_psa_connect (sid version ns_client_id client_data : Z) : SPM Z :=
  p ← gets sp_current;
  x ← get_part p;
  _ ← panic_if (negb (IS_NS_AGENT_MAILBOX x.(part_ldinf)));
  _ ← panic_if (0 <=? ns_client_id);
  p_connection ← spm_psa_connect_client_id_associated sid version ns_client_id;
  _ ← upd_conn p_connection (set_conn_client_data client_data);
  status ← backend_messaging p_connection;
  _ ← upd_conn p_connection (set_conn_status TFM_HANDLE_STATUS_ACTIVE);
  mret status.

Definition tfm_spm_agent_psa_close (handle ns_client_id : Z) : SPM Z :=
  p ← gets sp_current;
  x ← get_part p;
  _ ← panic_if (negb (IS_NS_AGENT_MAILBOX x.(part_ldinf)) || (0 <=? ns_client_id));
  spm_psa_close_client_id_associated handle ns_client_id.
End SpmCall.

(** ** What an accepted call looks like *)

Definition in_access (ctrl : Z) : Z :=
  Z.lor TFM_HAL_ACCESS_READABLE
    (if PARAM_IS_NS_VEC ctrl || PARAM_IS_NS_INVEC ctrl then TFM_HAL_ACCESS_NS else 0).
Definition out_access (ctrl : Z) : Z :=
  Z.lor TFM_HAL_ACCESS_READWRITE
    (if PARAM_IS_NS_VEC ctrl || (PARAM_IS_NS_INVEC ctrl && PARAM_IS_NS_OUTVEC ctrl)
     then TFM_HAL_ACCESS_NS else 0).

(** The arrays of the structure have their declared length. *)
Definition arrays_ok (c : connection_t) : Prop :=
  length c.(conn_msg).(msg_in_size) = 4%nat /\ length c.(conn_msg).(msg_out_size) = 4%nat /\
  length c.(conn_invec_base) = 4%nat /\ length c.(conn_invec_accessed) = 4%nat /\
  length c.(conn_outvec_base) = 4%nat /\ length c.(conn_outvec_written) = 4%nat.

Definition in_recorded (vs : list (Z * Z)) (n : Z) (c : connection_t) : Prop :=
  forall j, 0 <= j < 4 ->
    c.(conn_msg).(msg_in_size) !! Z.to_nat j = Some (if j <? n then (nth_vec vs j).2 else 0) /\
    (j < n -> c.(conn_invec_base) !! Z.to_nat j = Some (nth_vec vs j).1 /\
              c.(conn_invec_accessed) !! Z.to_nat j = Some 0).
Definition out_recorded (vs : list (Z * Z)) (n : Z) (c : connection_t) : Prop :=
  forall j, 0 <= j < 4 ->
    c.(conn_msg).(msg_out_size) !! Z.to_nat j = Some (if j <? n then (nth_vec vs j).2 else 0) /\
    (j < n -> c.(conn_outvec_base) !! Z.to_nat j = Some (nth_vec vs j).1 /\
              c.(conn_outvec_written) !! Z.to_nat j = Some 0).

Lemma lookup_set_elem l i j v : 0 <= i < 4 -> 0 <= j -> length l = 4%nat ->
  set_elem l i v !! Z.to_nat j = if j =? i then Some v else l !! Z.to_nat j.
Proof.
  intros Hi Hj Hl. unfold set_elem. destruct (Z.eqb_spec j i) as [->|].
  - apply list_lookup_insert_eq. lia.
  - apply list_lookup_insert_ne. lia.
Qed.

Lemma length_set_elem l i v : length (set_elem l i v) = length l.
Proof. apply length_insert. Qed.

Lemma record_invec_ok vs n c : 0 <= n < 4 -> arrays_ok c -> in_recorded vs n c ->
  in_recorded vs (n + 1) (record_invec n (nth_vec vs n) c) /\
  arrays_ok (record_invec n (nth_vec vs n) c).
Proof.
  intros Hn (H1 & H2 & H3 & H4 & H5 & H6) Hr. split.
  - intros j Hj. destruct (Hr j Hj) as [Hs Hb]. cbn. rewrite !lookup_set_elem by (done || lia).
    destruct (Z.eqb_spec j n) as [->|].
    + destruct (Z.ltb_spec n (n + 1)); [|lia]. done.
    + rewrite Hs. destruct (Z.ltb_spec j n), (Z.ltb_spec j (n + 1)); try lia; (split; [done|]);
        intros; apply Hb; lia.
  - by repeat split; cbn; rewrite ?length_set_elem.
Qed.

Lemma record_outvec_ok vs n c : 0 <= n < 4 -> arrays_ok c -> out_recorded vs n c ->
  out_recorded vs (n + 1) (record_outvec n (nth_vec vs n) c) /\
  arrays_ok (record_outvec n (nth_vec vs n) c).
Proof.
  intros Hn (H1 & H2 & H3 & H4 & H5 & H6) Hr. split.
  - intros j Hj. destruct (Hr j Hj) as [Hs Hb]. cbn. rewrite !lookup_set_elem by (done || lia).
    destruct (Z.eqb_spec j n) as [->|].
    + destruct (Z.ltb_spec n (n + 1)); [|lia]. done.
    + rewrite Hs. destruct (Z.ltb_spec j n), (Z.ltb_spec j (n + 1)); try lia; (split; [done|]);
        intros; apply Hb; lia.
  - by repeat split; cbn; rewrite ?length_set_elem.
Qed.

(** What a connection keeps while parameters are associated with it. *)
Definition same_conn_id (c c' : connection_t) : Prop :=
  c'.(conn_service) = c.(conn_service) /\ c'.(conn_p_client) = c.(conn_p_client) /\
  c'.(conn_status) = c.(conn_status) /\ c'.(conn_iovec_status) = c.(conn_iovec_status) /\
  c'.(conn_msg).(msg_client_id) = c.(conn_msg).(msg_client_id) /\
  c'.(conn_msg).(msg_handle) = c.(conn_msg).(msg_handle) /\
  c'.(conn_p_reqs) = c.(conn_p_reqs) /\ c'.(conn_p_replied) = c.(conn_p_replied).

Section CallProofs.
Context {cfg : SpmConfig}.

Lemma memory_check_val p base size access s s' u :
  memory_check p base size access s = (Val u, s') ->
  s' = s /\ exists x, s.(sp_parts) !! p = Some x /\
    tfm_hal_memory_check x.(part_boundary) base size access = PSA_SUCCESS.
Proof.
  unfold memory_check. intros H. inv_run H. inv_spm. split; [done|]. eexists. split; [done|]. lia.
Qed.

Lemma overlap_inner vs i n s s' r :
  for_range (S := spm) (i + 1) n (fun j =>
      _ ← fail_if (negb (vec_apart (nth_vec vs i) (nth_vec vs j))) PSA_ERROR_PROGRAMMER_ERROR;
      mret (A := option unit) None) s = (Val r, s') ->
  r = None /\ s' = s /\ forall b, i < b < n -> vec_apart (nth_vec vs i) (nth_vec vs b) = true.
Proof.
  intros H. eapply (for_range_val (fun j (t : spm) => t = s /\ forall b, i < b < j ->
    vec_apart (nth_vec vs i) (nth_vec vs b) = true)) in H.
  - destruct H as (-> & -> & Hin). split; [done|]. split; [done|]. intros b Hb. apply Hin. lia.
  - intros j t t1 r1 Hj [-> Hacc1] Hb. inv_run Hb. split; [done|]. split; [done|].
    intros b Hb'. destruct (decide (b = j)) as [->|]; [by apply negb_false_iff|apply Hacc1; lia].
  - split; [done|]. intros; lia.
Qed.

Lemma check_overlap_val vs n s s' r :
  check_overlap vs n s = (Val r, s') ->
  s' = s /\ forall i j, 0 <= i -> i < j < n ->
    vec_apart (nth_vec vs i) (nth_vec vs j) = true /\
    (nth_vec vs i).1 <= u32 ((nth_vec vs i).1 + (nth_vec vs i).2).
Proof.
  intros H. eapply (for_range_val (fun i (t : spm) => t = s /\ forall a b, 0 <= a < i -> a < b < n ->
      vec_apart (nth_vec vs a) (nth_vec vs b) = true /\
      (nth_vec vs a).1 <= u32 ((nth_vec vs a).1 + (nth_vec vs a).2))) in H.
  - destruct H as (_ & -> & Hall). split; [done|]. intros i j Hi Hj. apply Hall; lia.
  - intros i t t' r' Hi [-> Hacc] Hb. cbv zeta in Hb. inv_run Hb.
    match goal with E : for_range (i + 1) n _ _ = _ |- _ => apply overlap_inner in E as (-> & -> & Hin) end.
    split; [done|]. split; [done|].
    intros k b Hk Hkb. destruct (decide (k = i)) as [->|]; [|apply Hacc; lia].
    split; [apply Hin; lia|lia].
  - split; [done|]. intros; lia.
Qed.

(** The loops that check and record the vectors. *)
Lemma record_loop p cur boundary access vs n rec (ok : Z -> connection_t -> Prop) s s' r cx :
  s.(sp_conns) !! p = Some cx -> ok 0 cx ->
  (forall i c, 0 <= i < n -> ok i c -> ok (i + 1) (rec i (nth_vec vs i) c)) ->
  (exists x, s.(sp_parts) !! cur = Some x /\ x.(part_boundary) = boundary) ->
  for_range 0 n (fun i =>
      let v := nth_vec vs i in
      _ ← memory_check cur v.1 v.2 access;
      _ ← upd_conn p (rec i v);
      mret (A := option unit) None) s = (Val r, s') ->
  (exists cx', ok (Z.max 0 n) cx' /\ s' = set_sp_conns (<[p := cx']> s.(sp_conns)) s) /\
  (forall i, 0 <= i < n ->
     tfm_hal_memory_check boundary (nth_vec vs i).1 (nth_vec vs i).2 access = PSA_SUCCESS).
Proof.
  intros Hcx Hok Hstep (x & Hx & Hb) H.
  eapply (for_range_val (fun i t =>
    (exists cx', ok i cx' /\ t = set_sp_conns (<[p := cx']> s.(sp_conns)) s) /\
    (forall j, 0 <= j < i ->
     tfm_hal_memory_check boundary (nth_vec vs j).1 (nth_vec vs j).2 access = PSA_SUCCESS))) in H.
  - destruct H as (_ & Hcx' & Hall). split; [done|]. intros i Hi. apply Hall. lia.
  - intros i t t' r' Hi [(cx' & Hok' & ->) Hall] Hbody. cbv zeta in Hbody. inv_run Hbody.
    match goal with E : memory_check _ _ _ _ _ = _ |- _ =>
      apply memory_check_val in E as (-> & x' & Hx' & Hck) end.
    match goal with E : upd_conn _ _ _ = _ |- _ => apply upd_conn_val in E as (cx1 & Hcx1 & ->) end.
    cbn in Hx', Hcx1. rewrite lookup_insert_eq in Hcx1. injection Hcx1 as <-.
    split; [done|]. split.
    + exists (rec i (nth_vec vs i) cx'). split; [by apply Hstep|]. cbn.
      rewrite <- (insert_alter _ _ cx') by apply lookup_insert_eq. by rewrite insert_insert_eq.
    + intros j Hj. destruct (decide (j = i)) as [->|]; [|apply Hall; lia]. congruence.
  - split; [|intros; lia]. exists cx. split; [done|]. rewrite insert_id by done. by destruct s.
Qed.
End CallProofs.

(** Both loops, from a connection whose sizes were cleared. *)
Lemma record_all `{cfg : SpmConfig} p cur boundary ia oa iv ov ni no cx s0 s1 s2 r1 r2 :
  s0.(sp_conns) !! p = Some cx -> arrays_ok cx -> in_recorded iv 0 cx -> out_recorded ov 0 cx ->
  0 <= ni <= 4 -> 0 <= no <= 4 ->
  (exists x, s0.(sp_parts) !! cur = Some x /\ x.(part_boundary) = boundary) ->
  for_range 0 ni (fun i =>
      let v := nth_vec iv i in
      _ ← memory_check cur v.1 v.2 ia;
      _ ← upd_conn p (record_invec i v);
      mret (A := option unit) None) s0 = (Val r1, s1) ->
  for_range 0 no (fun i =>
      let v := nth_vec ov i in
      _ ← memory_check cur v.1 v.2 oa;
      _ ← upd_conn p (record_outvec i v);
      mret (A := option unit) None) s1 = (Val r2, s2) ->
  exists cx', s2 = set_sp_conns (<[p := cx']> s0.(sp_conns)) s0 /\
    same_conn_id cx cx' /\ cx'.(conn_msg).(msg_type) = cx.(conn_msg).(msg_type) /\
    in_recorded iv ni cx' /\ out_recorded ov no cx' /\
    (forall i, 0 <= i < ni ->
       tfm_hal_memory_check boundary (nth_vec iv i).1 (nth_vec iv i).2 ia = PSA_SUCCESS) /\
    (forall i, 0 <= i < no ->
       tfm_hal_memory_check boundary (nth_vec ov i).1 (nth_vec ov i).2 oa = PSA_SUCCESS).
Proof.
  intros Hcx Harr Hin Hout Hni Hno Hb H1 H2.
  set (ok := fun c => arrays_ok c /\ same_conn_id cx c /\
                      c.(conn_msg).(msg_type) = cx.(conn_msg).(msg_type)).
  destruct (record_loop p cur boundary ia iv ni record_invec
    (fun i c => ok c /\ in_recorded iv i c /\ out_recorded ov 0 c) s0 s1 r1 cx Hcx)
    as ((cx1 & ((Ha1 & Hs1 & Ht1) & Hi1 & Ho1) & ->) & Hck1); [| |exact Hb|exact H1|].
  { split; [|done]. split; [done|]. split; [|done]. by repeat split. }
  { intros i c Hi ((Ha & Hs & Ht) & Hir & Hor).
    destruct (record_invec_ok iv i c ltac:(lia) Ha Hir) as [Hir' Ha']. done. }
  rewrite Z.max_r in Hi1 by lia.
  destruct (record_loop p cur boundary oa ov no record_outvec
    (fun i c => ok c /\ in_recorded iv ni c /\ out_recorded ov i c)
    (set_sp_conns (<[p := cx1]> s0.(sp_conns)) s0) s2 r2 cx1)
    as ((cx2 & ((Ha2 & Hs2 & Ht2) & Hi2 & Ho2) & ->) & Hck2); [| | |exact Hb|exact H2|].
  { apply lookup_insert_eq. }
  { split; [done|]. split; [done|]. exact Ho1. }
  { intros i c Hi ((Ha & Hs & Ht) & Hir & Hor).
    destruct (record_outvec_ok ov i c ltac:(lia) Ha Hor) as [Hor' Ha']. done. }
  rewrite Z.max_r in Ho2 by lia.
  exists cx2. split; [|done]. cbn. by rewrite insert_insert_eq.
Qed.

Lemma unpack_len_range ctrl :
  0 <= PARAM_UNPACK_IN_LEN ctrl < 8 /\ 0 <= PARAM_UNPACK_OUT_LEN ctrl < 8.
Proof.
  unfold PARAM_UNPACK_IN_LEN, PARAM_UNPACK_OUT_LEN, IN_LEN_MASK, OUT_LEN_MASK,
    IN_LEN_OFFSET, OUT_LEN_OFFSET. rewrite !field_div by lia. lia.
Qed.

Lemma mem_read_bytes m p n l :
  map_Forall (fun _ b => is_u8 b) m -> mem_read m p n = Some l -> is_bytes l.
Proof.
  intros Hm. revert p l. induction n as [|n IH]; intros p l H; cbn in H.
  - injection H as <-. constructor.
  - apply bind_Some in H as (b & Hb & H). apply bind_Some in H as (l' & Hl & [= <-]).
    constructor; [by apply (Hm p b)|by eapply IH].
Qed.

Lemma decode_vecs_range n l i : is_bytes l ->
  is_u32 (nth_vec (decode_vecs n l) i).1 /\ is_u32 (nth_vec (decode_vecs n l) i).2.
Proof.
  unfold nth_vec. generalize (Z.to_nat i) as k. revert l.
  induction n as [|n IH]; intros l k Hl; cbn [decode_vecs].
  - destruct k; cbn; unfold is_u32; lia.
  - destruct k as [|k]; cbn [nth]; [|apply IH; by apply Forall_drop].
    cbn [fst snd]. split; apply of_le32_range; [done|by apply Forall_drop].
Qed.

(** Two ranges of memory without a common byte. *)
Definition disjoint_ranges (v w : Z * Z) : Prop := v.1 + v.2 <= w.1 \/ w.1 + w.2 <= v.1.

Lemma vec_apart_disjoint v w :
  vec_apart v w = true -> 0 <= v.1 -> 0 <= w.1 -> 0 <= v.2 -> 0 <= w.2 ->
  v.1 + v.2 < 2 ^ 32 -> w.1 + w.2 < 2 ^ 32 -> disjoint_ranges v w.
Proof.
  unfold vec_apart, disjoint_ranges. intros H ? ? ? ? ? ?.
  rewrite (u32_small (w.1 + w.2)), (u32_small (v.1 + v.2)) in H by (unfold is_u32; lia). lia.
Qed.

(** What [spm_associate_call_params] has made sure of when it succeeds. *)
Record call_accepted `{cfg : SpmConfig} (s : spm) (c ctrl inptr outptr : Z) (cx : connection_t)
    (cur : partition_t) (iv ov : list (Z * Z)) (cx' : connection_t) : Prop := {
  ca_type : 0 <= PARAM_UNPACK_TYPE ctrl /\ cx'.(conn_msg).(msg_type) = PARAM_UNPACK_TYPE ctrl;
  ca_same : same_conn_id cx cx';
  ca_outptr : cx'.(conn_caller_outvec) = outptr;
  ca_in : in_recorded iv (PARAM_UNPACK_IN_LEN ctrl) cx';
  ca_out : out_recorded ov (PARAM_UNPACK_OUT_LEN ctrl) cx';
  ca_in_check : forall i, 0 <= i < PARAM_UNPACK_IN_LEN ctrl ->
    tfm_hal_memory_check cur.(part_boundary) (nth_vec iv i).1 (nth_vec iv i).2 (in_access ctrl)
      = PSA_SUCCESS;
  ca_out_check : forall i, 0 <= i < PARAM_UNPACK_OUT_LEN ctrl ->
    tfm_hal_memory_check cur.(part_boundary) (nth_vec ov i).1 (nth_vec ov i).2 (out_access ctrl)
      = PSA_SUCCESS;
  ca_descriptors :
    let ns := if PARAM_IS_NS_VEC ctrl then TFM_HAL_ACCESS_NS else 0 in
    tfm_hal_memory_check cur.(part_boundary) inptr (PARAM_UNPACK_IN_LEN ctrl * 8)
      (Z.lor TFM_HAL_ACCESS_READABLE ns) = PSA_SUCCESS /\
    tfm_hal_memory_check cur.(part_boundary) outptr (PARAM_UNPACK_OUT_LEN ctrl * 8)
      (Z.lor TFM_HAL_ACCESS_READWRITE ns) = PSA_SUCCESS;
  ca_apart : forall i j, 0 <= i -> i < j < PARAM_UNPACK_IN_LEN ctrl ->
    vec_apart (nth_vec iv i) (nth_vec iv j) = true;
}.

(** Ranges that do not wrap and are apart share no byte. *)
Lemma vecs_disjoint n vs : (forall i j, 0 <= i -> i < j < n -> vec_apart (nth_vec vs i) (nth_vec vs j) = true) ->
  (forall k, 0 <= k < n -> 0 <= (nth_vec vs k).1 /\ 0 <= (nth_vec vs k).2 /\ (nth_vec vs k).1 + (nth_vec vs k).2 < 2 ^ 32) ->
  forall i j, 0 <= i < n -> 0 <= j < n -> i <> j -> disjoint_ranges (nth_vec vs i) (nth_vec vs j).
Proof.
  intros Hapart Hr. assert (forall i j, 0 <= i -> i < j < n -> disjoint_ranges (nth_vec vs i) (nth_vec vs j)) as Hd.
  { intros i j Hi Hj. destruct (Hr i ltac:(lia)) as (? & ? & ?), (Hr j ltac:(lia)) as (? & ? & ?).
    apply vec_apart_disjoint; try done. by apply Hapart. }
  intros i j Hi Hj Hne. destruct (decide (i < j)); [apply Hd; lia|].
  destruct (Hd j i ltac:(lia) ltac:(lia)); [by right|by left].
Qed.

(** The accesses as the code asks for them. *)
Lemma in_access_nested ctrl : in_access ctrl = Z.lor TFM_HAL_ACCESS_READABLE
  (if PARAM_IS_NS_INVEC ctrl then TFM_HAL_ACCESS_NS else if PARAM_IS_NS_VEC ctrl then TFM_HAL_ACCESS_NS else 0).
Proof. unfold in_access. by destruct (PARAM_IS_NS_INVEC ctrl), (PARAM_IS_NS_VEC ctrl). Qed.

Lemma zero_sizes j : 0 <= j < 4 -> [0; 0; 0; 0] !! Z.to_nat j = Some 0.
Proof. intros Hj. assert (j = 0 \/ j = 1 \/ j = 2 \/ j = 3) as [-> |[-> |[-> | ->]]] by lia; done. Qed.

(** A connection altered, replaced and altered again. *)
Lemma alter_replaced {A} (f g h : A -> A) (m : gmap Z A) c a :
  alter h c (<[c := a]> (alter g c (alter f c m))) = <[c := h a]> m.
Proof.
  rewrite <- (insert_alter _ _ a) by apply lookup_insert_eq. rewrite insert_insert_eq.
  apply map_eq. intros q. destruct (decide (q = c)) as [->|]; [by rewrite !lookup_insert_eq|].
  by rewrite !lookup_insert_ne, !lookup_alter_ne by done.
Qed.

(** C1: an accepted [psa_call] has checked parameters.  When
    [spm_associate_call_params] succeeds for a call with vectors, there are at
    most four of them in all; the client's vector descriptors were read once, and
    what is recorded in the connection are those very values: for each input
    vector a range that the platform allows the caller to read and for each
    output vector one it may read and write (with the non-secure attribute where
    the control word asks for it), nothing accessed or written yet, and size 0
    for the vectors that do not exist.  If the platform's check refuses ranges
    that wrap around the address space, no two input vectors share a byte. *)
Theorem call_params_checked `{cfg : SpmConfig} s c ctrl inptr outptr s' cx cur :
  spm_associate_call_params c ctrl inptr outptr s = (Val tt, s') ->
  s.(sp_conns) !! c = Some cx -> arrays_ok cx ->
  s.(sp_parts) !! s.(sp_current) = Some cur -> PARAM_HAS_IOVEC ctrl = true ->
  let ni := PARAM_UNPACK_IN_LEN ctrl in
  let no := PARAM_UNPACK_OUT_LEN ctrl in
  ni + no <= PSA_MAX_IOVEC /\
  exists iraw oraw cx',
    mem_read s.(sp_mem) inptr (Z.to_nat (ni * 8)) = Some iraw /\
    mem_read s.(sp_mem) outptr (Z.to_nat (no * 8)) = Some oraw /\
    s' = set_sp_conns (<[c := cx']> s.(sp_conns)) s /\
    call_accepted s c ctrl inptr outptr cx cur
      (decode_vecs (Z.to_nat ni) iraw) (decode_vecs (Z.to_nat no) oraw) cx' /\
    ((forall b base size access, tfm_hal_memory_check b base size access = PSA_SUCCESS ->
        base + size < 2 ^ 32) ->
     map_Forall (fun _ b => is_u8 b) s.(sp_mem) ->
     forall i j, 0 <= i < ni -> 0 <= j < ni -> i <> j ->
       disjoint_ranges (nth_vec (decode_vecs (Z.to_nat ni) iraw) i)
                       (nth_vec (decode_vecs (Z.to_nat ni) iraw) j)).
Proof.
  intros H Hcx Harr Hcur Hio ni no. destruct (unpack_len_range ctrl) as [Hni Hno]. fold ni no in Hni, Hno.
  unfold spm_associate_call_params in H. rewrite Hio in H. fold ni no in H. cbn [negb] in H. cbv zeta in H.
  inv_run H.
  repeat match goal with
  | E : memory_check _ _ _ _ _ = (Val _, _) |- _ => apply memory_check_val in E as (-> & ? & ? & ?)
  | E : check_overlap _ _ _ = (Val _, _) |- _ => apply check_overlap_val in E as (-> & Hapart)
  | E : read_bytes _ _ ?t = (Val _, _) |- _ =>
      unfold read_bytes in E; destruct (mem_read _ _ _) eqn:? in E; [injection E as <- <-|done]
  | E : upd_conn _ _ _ = (Val _, _) |- _ => apply upd_conn_val in E as (? & ? & ->)
  end.
  cbn [sp_parts sp_mem sp_conns set_sp_conns] in *.
  repeat match goal with
  | E : s.(sp_parts) !! s.(sp_current) = Some ?y |- _ =>
      tryif constr_eq y cur then fail else (rewrite Hcur in E; injection E as <-)
  | E : s.(sp_conns) !! c = Some ?y |- _ =>
      tryif constr_eq y cx then fail else (rewrite Hcx in E; injection E as <-)
  end.
  assert (ni + no <= 4) as Hsum.
  { rewrite (u32_small (ni + no)) in Hrun1 by (unfold is_u32; lia). unfold PSA_MAX_IOVEC in Hrun1. lia. }
  unfold sizeof_psa_vec in *. rewrite !u32_small in * by (unfold is_u32; lia).
  match goal with E : mem_read _ inptr _ = Some ?l |- _ => rename l into iraw, E into Hiraw end.
  match goal with E : mem_read _ outptr _ = Some ?l |- _ => rename l into oraw, E into Horaw end.
  set (iv := decode_vecs (Z.to_nat ni) iraw) in *. set (ov := decode_vecs (Z.to_nat no) oraw) in *.
  match goal with
  | E : for_range 0 ni _ ?t = _ |- _ => rename E into Hloop1; set (s1 := t) in Hloop1
  end.
  match goal with E : for_range 0 no _ _ = _ |- _ => rename E into Hloop2 end.
  match goal with E : sp_conns _ !! c = Some ?y |- _ =>
    tryif constr_eq y cx then fail else rename E into Hlast, y into cx3 end.
  set (cx1 := msg_upd (set_msg_type (PARAM_UNPACK_TYPE ctrl)) cx).
  set (cx2 := msg_upd (fun m => set_msg_out_size [0; 0; 0; 0] (set_msg_in_size [0; 0; 0; 0] m)) cx1).
  assert (s1.(sp_conns) !! c = Some cx2) as Hcx2.
  { unfold s1. cbn [sp_conns set_sp_conns]. by rewrite lookup_alter_eq, lookup_alter_eq, Hcx. }
  pose proof (fun Ha Hi Ho Hn Hm Hb => record_all c s.(sp_current) cur.(part_boundary) _ _
    iv ov ni no cx2 s1 _ _ _ _ Hcx2 Ha Hi Ho Hn Hm Hb Hloop1 Hloop2) as Hall.
  destruct Hall as (cx' & Hs2 & Hid & Hty & Hin & Hout & Hck1 & Hck2).
  { destruct Harr as (_ & _ & ? & ? & ? & ?). done. }
  { intros j Hj. cbn. rewrite zero_sizes by done. destruct (Z.ltb_spec j 0); [lia|]. split; [done|lia]. }
  { intros j Hj. cbn. rewrite zero_sizes by done. destruct (Z.ltb_spec j 0); [lia|]. split; [done|lia]. }
  { lia. } { lia. } { by exists cur. }
  rewrite Hs2 in Hlast |- *. cbn [sp_conns set_sp_conns] in Hlast.
  rewrite lookup_insert_eq in Hlast. injection Hlast as <-.
  split; [exact Hsum|]. exists iraw, oraw, (set_conn_caller_outvec outptr cx').
  split; [done|]. split; [done|]. split; [|split].
  - unfold s1. cbn [sp_conns set_sp_conns]. rewrite alter_replaced. reflexivity.
  - split; try done.
    + split; [lia|]. cbn. by rewrite Hty.
    + by rewrite in_access_nested.
    + intros i Hi. rewrite <- (Hck2 i Hi). f_equal. unfold out_access. f_equal.
      by destruct (PARAM_IS_NS_INVEC ctrl), (PARAM_IS_NS_VEC ctrl), (PARAM_IS_NS_OUTVEC ctrl).
    + intros i j Hi Hj. by apply Hapart.
  - intros Hwrap Hbytes. apply vecs_disjoint; [intros; by apply Hapart|]. intros k Hk.
    destruct (decode_vecs_range (Z.to_nat ni) iraw k) as [H6 H7]; [by eapply mem_read_bytes|].
    unfold is_u32 in H6, H7. split; [lia|]. split; [lia|]. by eapply Hwrap, Hck1.
Qed.

(** ** A sample call

    Client memory: at 9000 the descriptors of two input vectors, (20000, 4) and
    (20004, 3), at 9100 one of an output vector, (30000, 8), and the vectors. *)
#[local] Existing Instance sample_cfg.

Definition bytes_at (p : Z) (l : bytes) : gmap Z Z :=
  list_to_map (imap (fun i b => (p + Z.of_nat i, b)) l).
Definition sample_mem : gmap Z Z :=
  bytes_at 9000 (le32 20000 ++ le32 4 ++ le32 20004 ++ le32 3) ∪
  bytes_at 9100 (le32 30000 ++ le32 8) ∪
  bytes_at 20000 [10; 11; 12; 13; 14; 15; 16] ∪ bytes_at 30000 [0; 0; 0; 0; 0; 0; 0; 0] ∪
  bytes_at 40000 [0xA; 0xB; 0xC; 0xD; 0xE; 0xF; 0x10; 0x11].

Definition sample_client_state : spm :=
  set_sp_conns (<[116 := sample_conn 0 1000 5100 0]> ∅)
    (set_sp_space sample_space (set_sp_mem sample_mem sample_spm)).

Lemma call_params_checked_witness :
  exists s' iraw oraw cx', spm_associate_call_params 116 (PARAM_PACK 5 2 1) 9000 9100 sample_client_state
      = (Val tt, s') /\
    call_accepted sample_client_state 116 (PARAM_PACK 5 2 1) 9000 9100 (sample_conn 0 1000 5100 0)
      (sample_part 1 512 [0x20; 0x21] 0x100 0 0 0 2000)
      (decode_vecs 2 iraw) (decode_vecs 1 oraw) cx'.
Proof.
  destruct (spm_associate_call_params 116 (PARAM_PACK 5 2 1) 9000 9100 sample_client_state)
    as [[[]|e|h] s'] eqn:E; [|exfalso; apply (f_equal fst) in E; vm_compute in E; discriminate..].
  destruct (call_params_checked sample_client_state 116 (PARAM_PACK 5 2 1) 9000 9100 s'
              (sample_conn 0 1000 5100 0) (sample_part 1 512 [0x20; 0x21] 0x100 0 0 0 2000) E
              ltac:(vm_compute; reflexivity) ltac:(by repeat split) ltac:(vm_compute; reflexivity)
              ltac:(vm_compute; reflexivity))
    as (_ & iraw & oraw & cx' & _ & _ & _ & H & _).
  exact (ex_intro _ s' (ex_intro _ iraw (ex_intro _ oraw (ex_intro _ cx' (conj eq_refl H))))).
Defined.

(** ** Connecting *)

Section Connect.
Context {cfg : SpmConfig}.

Definition authorised_as (ns : bool) (s : spm) (sid : Z) (x : service_t) : Prop :=
  if ns then SERVICE_IS_NS_ACCESSIBLE x.(serv_ldinf).(sl_flags) = true
  else exists cur, s.(sp_parts) !! s.(sp_current) = Some cur /\ sid ∈ cur.(part_ldinf).(pl_deps).

Lemma take_first_some P q c q' : take_first P q = Some (c, q') -> c ∈ q /\ P c = true.
Proof.
  revert q'. induction q as [|d q IH]; intros q'; cbn; [done|].
  destruct (P d) eqn:E; [intros [= <- <-]; split; [apply list_elem_of_here|done]|].
  destruct (take_first P q) as [[e q'']|]; [|done]. intros [= <- <-].
  destruct (IH q'' eq_refl). split; [by apply list_elem_of_further|done].
Qed.

Lemma service_lookup_frame sid s l p s' :
  service_list s l -> Z.of_nat (length l) < 2 ^ 32 - 1 ->
  tfm_spm_get_service_by_sid sid s = (Val p, s') -> p <> NULL ->
  p ∈ l /\ sid_of s p = Some sid /\ same_services s s' /\ s'.(sp_conns) = s.(sp_conns) /\
  s'.(sp_parts) = s.(sp_parts) /\ s'.(sp_current) = s.(sp_current).
Proof.
  intros Hl Hlen H Hp. pose proof (service_lookup_spec s l sid Hl Hlen) as Hs.
  destruct (take_first _ l) as [[q rest]|] eqn:E.
  - destruct Hs as (s1 & Hrun & _ & H1 & H2 & H3 & _ & H4). rewrite H in Hrun. injection Hrun as -> ->.
    apply take_first_some in E as [Hin HP]. by apply bool_decide_eq_true in HP.
  - rewrite H in Hs. by injection Hs as -> _.
Qed.
End Connect.

(** Connecting.  When [psa_connect] for a client id creates a connection, the
    service with that id exists, is connection based, is open to this caller (a
    non-secure client needs an NS-accessible service, a secure partition must
    have declared the dependency) and accepts the requested version; the
    connection is fresh, belongs to that service and client id and carries a
    connect message, and no other connection is touched. *)
Theorem connect_guarded `{cfg : SpmConfig} s l sid version client_id c s' :
  service_list s l -> Z.of_nat (length l) < 2 ^ 32 - 1 ->
  spm_psa_connect_client_id_associated sid version client_id s = (Val c, s') ->
  exists p x cx, p ∈ l /\ s.(sp_servs) !! p = Some x /\ x.(serv_ldinf).(sl_sid) = sid /\
    SERVICE_IS_STATELESS x.(serv_ldinf).(sl_flags) = false /\
    authorised_as (TFM_CLIENT_ID_IS_NS client_id) s sid x /\ version_ok x version /\
    s'.(sp_conns) !! c = Some cx /\ cx.(conn_service) = p /\ cx.(conn_p_client) = s.(sp_current) /\
    cx.(conn_status) = TFM_HANDLE_STATUS_IDLE /\
    cx.(conn_msg).(msg_client_id) = client_id /\ cx.(conn_msg).(msg_type) = PSA_IPC_CONNECT /\
    (forall c', c' <> c -> s'.(sp_conns) !! c' = s.(sp_conns) !! c').
Proof.
  intros Hl Hlen H. unfold spm_psa_connect_client_id_associated in H.
  inv_run H. inv_spm.
  match goal with E : tfm_spm_get_service_by_sid _ _ = _, E' : (?p =? NULL) = false |- _ =>
    apply Z.eqb_neq in E';
    destruct (service_lookup_frame sid s l p _ Hl Hlen E E') as (Hin & Hsid & Hsame & Hc1 & Hp1 & Hcur1);
    pose proof E' as Hpn end.
  match goal with E : tfm_spm_check_authorization _ _ _ _ = _ |- _ =>
    apply check_authorization_val in E as (-> & Hauth) end.
  match goal with E : tfm_spm_check_client_version _ _ _ = _ |- _ =>
    apply check_version_val in E as (-> & x1 & Hx1 & Hver) end.
  match goal with E : alloc_connection _ = (Val ?c', _), E' : (?c' =? NULL) = false |- _ =>
    apply Z.eqb_neq in E'; apply (alloc_connection_val _ _ _ E) in E' as (sp & ->) end.
  match goal with E : spm_init_idle_connection _ _ _ _ = _ |- _ =>
    apply init_idle_val in E as (_ & _ & _ & _ & (cx & Hcx & Hfr) & Hoth) end.
  match goal with E : upd_conn _ _ _ = _ |- _ => apply upd_conn_val in E as (cx' & Hcx' & ->) end.
  match goal with E : sp_servs s1 !! a = Some ?y |- _ =>
    tryif constr_eq y x1 then fail else (rewrite Hx1 in E; injection E as <-) end.
  rewrite Hcx in Hcx'. injection Hcx' as <-. destruct Hfr.
  assert (exists x, s.(sp_servs) !! a = Some x /\ x.(serv_ldinf) = x1.(serv_ldinf)) as (x & Hx & Hld).
  { specialize (Hsame a). rewrite Hx1 in Hsame. destruct (s.(sp_servs) !! a) as [x|]; [|done].
    exists x. split; [done|]. by injection Hsame. }
  exists a, x, (msg_upd (set_msg_type PSA_IPC_CONNECT) cx).
  rewrite Hld. split_and!; try done.
  - unfold sid_of in Hsid. rewrite Hx in Hsid. injection Hsid. by rewrite Hld.
  - unfold authorised_as, TFM_CLIENT_ID_IS_NS. rewrite Hp1, Hcur1 in Hauth.
    destruct (client_id <? 0); [|exact Hauth]. destruct Hauth as (x2 & Hx2 & Hns). rewrite Hld.
    congruence.
  - unfold version_ok in *. by rewrite Hld.
  - cbn. by rewrite lookup_alter_eq, Hcx.
  - cbn in *. congruence.
  - intros c' Hc'. cbn. rewrite lookup_alter_ne, Hoth by done. cbn.
    rewrite lookup_insert_ne by done. by rewrite Hc1.
Qed.

Definition sample_pool_state : spm := set_sp_mem sample_mem sample_spm.

Lemma sample_service_list : service_list sample_pool_state [5000; 5100].
Proof.
  cbn [linked service_list]. split_and!; [done..|]. exists 5100. split; [by vm_compute|].
  split_and!; [done..|]. exists 0. split; [by vm_compute|done].
Qed.

Lemma connect_guarded_witness :
  exists c s' p x, spm_psa_connect_client_id_associated 0x21 1 1 sample_pool_state = (Val c, s') /\
    sample_pool_state.(sp_servs) !! p = Some x /\ x.(serv_ldinf).(sl_sid) = 0x21.
Proof.
  destruct (spm_psa_connect_client_id_associated 0x21 1 1 sample_pool_state) as [[c|e|h] s'] eqn:E;
    [|exfalso; apply (f_equal fst) in E; vm_compute in E; discriminate..].
  destruct (connect_guarded sample_pool_state [5000; 5100] 0x21 1 1 c s' sample_service_list
              ltac:(cbn; lia) E) as (p & x & cx & _ & Hx & Hs & _).
  exact (ex_intro _ c (ex_intro _ s' (ex_intro _ p (ex_intro _ x (conj eq_refl (conj Hx Hs)))))).
Defined.
