(* ===== verification/SpmMsg.v ===== *)
(** The service side of the PSA API: messages, vectors, replies, signals.

    [secure_fw/spm/core/psa_api.c], [psa_read_write_skip_api.c],
    [psa_mmiovec_api.c], [psa_irq_api.c] and [get_irq_info_for_signal] of
    [interrupt.c].  The caller is the running partition; a fatal error of the
    caller is [Halt CorePanic]. *)

From stdpp Require Import base list numbers gmap.
From S2P Require Import Prelude SpmPool SpmTypes SpmThread SpmIpc SpmCall.

Section SpmMsg.
Context {cfg : SpmConfig}.

(** The platform's check of memory of partition [p]; a failure is fatal. *)
Definition memory_check_or_panic (p base size access : Z) : SPM unit :=
  x ← get_part p;
  panic_if (negb (tfm_hal_memory_check x.(part_boundary) base size access =? PSA_SUCCESS)).

(** The connection a message handle stands for; an invalid handle is fatal. *)
Definition message_of (msg_handle : Z) : SPM Z :=
  handle ← spm_msg_handle_to_connection msg_handle;
  _ ← panic_if (handle =? NULL);
  mret handle.

(** ** psa_read_write_skip_api.c *)

(** The checks [psa_read], [psa_skip] and [psa_write] share: a request message, a
    vector number in range, and a vector that was never mapped; the vector counts
    as accessed from here on. *)
Definition check_request (c : connection_t) (idx : Z) : SPM unit :=
  _ ← panic_if (c.(conn_msg).(msg_type) <? PSA_IPC_CALL);
  panic_if (PSA_MAX_IOVEC <=? idx).
Definition access_iovec (handle iovec_idx : Z) : SPM unit :=
  if PSA_FRAMEWORK_HAS_MM_IOVEC then
    c ← get_conn handle;
    _ ← panic_if (IOVEC_IS_MAPPED c iovec_idx || IOVEC_IS_UNMAPPED c iovec_idx);
    upd_conn handle (SET_IOVEC_ACCESSED iovec_idx)
  else mret tt.

Definition tfm_spm_partition_psa_read (msg_handle invec_idx buffer num_bytes : Z) : SPM Z :=
  curr_partition ← gets sp_current;
  handle ← message_of msg_handle;
  c ← get_conn handle;
  _ ← check_request c invec_idx;
  _ ← access_iovec handle (invec_idx + INVEC_IDX_BASE);
  in_size ← elem c.(conn_msg).(msg_in_size) invec_idx;
  accessed ← elem c.(conn_invec_accessed) invec_idx;
  let remaining := u32 (in_size - accessed) in
  _ ← panic_if (in_size <? remaining);
  if remaining =? 0 then mret 0
  else
    _ ← memory_check_or_panic curr_partition buffer num_bytes TFM_HAL_ACCESS_READWRITE;
    let bytes := if num_bytes <? remaining then num_bytes else remaining in
    base ← elem c.(conn_invec_base) invec_idx;
    _ ← spm_memcpy buffer (base + accessed) bytes;
    _ ← upd_conn handle (fun c =>
          set_conn_invec_accessed (set_elem c.(conn_invec_accessed) invec_idx (u32 (accessed + bytes))) c);
    mret bytes.

Definition tfm_spm_partition_psa_skip (msg_handle invec_idx num_bytes : Z) : SPM Z :=
  handle ← message_of msg_handle;
  c ← get_conn handle;
  _ ← check_request c invec_idx;
  _ ← access_iovec handle (invec_idx + INVEC_IDX_BASE);
  in_size ← elem c.(conn_msg).(msg_in_size) invec_idx;
  accessed ← elem c.(conn_invec_accessed) invec_idx;
  let remaining := u32 (in_size - accessed) in
  _ ← panic_if (in_size <? remaining);
  if remaining =? 0 then mret 0
  else
    let num_bytes := if remaining <? num_bytes then remaining else num_bytes in
    _ ← upd_conn handle (fun c =>
          set_conn_invec_accessed (set_elem c.(conn_invec_accessed) invec_idx (u32 (accessed + num_bytes))) c);
    mret num_bytes.

Definition tfm_spm_partition_psa_write (msg_handle outvec_idx buffer num_bytes : Z) : SPM Z :=
  curr_partition ← gets sp_current;
  handle ← message_of msg_handle;
  c ← get_conn handle;
  _ ← check_request c outvec_idx;
  out_size ← elem c.(conn_msg).(msg_out_size) outvec_idx;
  written ← elem c.(conn_outvec_written) outvec_idx;
  _ ← panic_if (out_size <? written);
  _ ← panic_if (u32 (out_size - written) <? num_bytes);
  _ ← panic_if (out_size <? num_bytes);
  _ ← access_iovec handle (outvec_idx + OUTVEC_IDX_BASE);
  _ ← memory_check_or_panic curr_partition buffer num_bytes TFM_HAL_ACCESS_READABLE;
  base ← elem c.(conn_outvec_base) outvec_idx;
  _ ← spm_memcpy (base + written) buffer num_bytes;
  _ ← upd_conn handle (fun c =>
        set_conn_outvec_written (set_elem c.(conn_outvec_written) outvec_idx (u32 (written + num_bytes))) c);
  mret PSA_SUCCESS.

(** ** psa_mmiovec_api.c *)

Definition check_mm_request (c : connection_t) (idx : Z) : SPM service_t :=
  sv ← get_serv c.(conn_service);
  _ ← panic_if (negb (SERVICE_ENABLED_MM_IOVEC sv.(serv_ldinf).(sl_flags)));
  _ ← check_request c idx;
  mret sv.

Definition tfm_spm_partition_psa_map_invec (msg_handle invec_idx : Z) : SPM Z :=
  handle ← message_of msg_handle;
  c ← get_conn handle;
  _ ← c_assert debug (mret (negb (c.(conn_service) =? NULL)));
  sv ← check_mm_request c invec_idx;
  let i := invec_idx + INVEC_IDX_BASE in
  in_size ← elem c.(conn_msg).(msg_in_size) invec_idx;
  _ ← panic_if (in_size =? 0);
  _ ← panic_if (IOVEC_IS_MAPPED c i);
  _ ← panic_if (IOVEC_IS_ACCESSED c i);
  base ← elem c.(conn_invec_base) invec_idx;
  _ ← memory_check_or_panic sv.(serv_partition) base in_size TFM_HAL_ACCESS_READABLE;
  _ ← upd_conn handle (SET_IOVEC_MAPPED i);
  mret base.

Definition tfm_spm_partition_psa_unmap_invec (msg_handle invec_idx : Z) : SPM unit :=
  handle ← message_of msg_handle;
  c ← get_conn handle;
  _ ← check_mm_request c invec_idx;
  let i := invec_idx + INVEC_IDX_BASE in
  _ ← panic_if (negb (IOVEC_IS_MAPPED c i));
  _ ← panic_if (IOVEC_IS_UNMAPPED c i);
  upd_conn handle (SET_IOVEC_UNMAPPED i).

Definition tfm_spm_partition_psa_map_outvec (msg_handle outvec_idx : Z) : SPM Z :=
  handle ← message_of msg_handle;
  c ← get_conn handle;
  _ ← c_assert debug (mret (negb (c.(conn_service) =? NULL)));
  sv ← check_mm_request c outvec_idx;
  let i := outvec_idx + OUTVEC_IDX_BASE in
  out_size ← elem c.(conn_msg).(msg_out_size) outvec_idx;
  _ ← panic_if (out_size =? 0);
  _ ← panic_if (IOVEC_IS_MAPPED c i);
  _ ← panic_if (IOVEC_IS_ACCESSED c i);
  base ← elem c.(conn_outvec_base) outvec_idx;
  _ ← memory_check_or_panic sv.(serv_partition) base out_size TFM_HAL_ACCESS_READWRITE;
  _ ← upd_conn handle (SET_IOVEC_MAPPED i);
  mret base.

Definition tfm_spm_partition_psa_unmap_outvec (msg_handle outvec_idx len : Z) : SPM unit :=
  handle ← message_of msg_handle;
  c ← get_conn handle;
  _ ← check_mm_request c outvec_idx;
  let i := outvec_idx + OUTVEC_IDX_BASE in
  out_size ← elem c.(conn_msg).(msg_out_size) outvec_idx;
  _ ← panic_if (out_size <? len);
  _ ← panic_if (negb (IOVEC_IS_MAPPED c i));
  _ ← panic_if (IOVEC_IS_UNMAPPED c i);
  _ ← upd_conn handle (SET_IOVEC_UNMAPPED i);
  upd_conn handle (fun c =>
    set_conn_outvec_written (set_elem c.(conn_outvec_written) outvec_idx len) c).

(** ** psa_api.c *)

Definition spm_handle_programmer_errors (status : Z) : SPM unit :=
  if (status =? PSA_ERROR_PROGRAMMER_ERROR) || (status =? PSA_ERROR_CONNECTION_REFUSED) then
    ns_caller ← tfm_spm_is_ns_caller;
    panic_if (negb ns_caller)
  else mret tt.

(** The builds in which an interrupt that finds nothing to do is not recorded. *)
Definition tfm_spm_partition_psa_wait (signal_mask timeout : Z) : SPM Z :=
  let timeout := Z.land timeout PSA_TIMEOUT_MASK in
  partition ← gets sp_current;
  x ← get_part partition;
  _ ← panic_if (truth x.(part_signals_allowed) &&
                (Z.land x.(part_signals_allowed) signal_mask =? 0));
  if timeout =? PSA_BLOCK then
    signal ← backend_wait_signals partition signal_mask;
    mret (if signal =? 0 then u32 STATUS_NEED_SCHEDULE else signal)
  else mret (Z.land x.(part_signals_asserted) signal_mask).

(** [psa_msg_t] in memory. *)
Definition sizeof_psa_msg : Z := 48.
Definition encode_msg (m : psa_msg_t) : bytes :=
  le32 m.(msg_type) ++ le32 m.(msg_handle) ++ le32 m.(msg_client_id) ++ le32 m.(msg_rhandle) ++
  concat (le32 <$> m.(msg_in_size)) ++ concat (le32 <$> m.(msg_out_size)).
Definition offsetof_rhandle : Z := 12.

Definition tfm_spm_partition_psa_get (signal msg : Z) : SPM Z :=
  _ ← panic_if (negb (IS_ONLY_ONE_BIT_IN_UINT32 signal));
  partition ← gets sp_current;
  _ ← memory_check_or_panic partition msg sizeof_psa_msg TFM_HAL_ACCESS_READWRITE;
  x ← get_part partition;
  _ ← panic_if (x.(part_signals_asserted) =? 0);
  _ ← panic_if (Z.land x.(part_signals_asserted) signal =? 0);
  if signal =? ASYNC_MSG_REPLY then
    handle ← spm_get_async_replied_handle partition;
    _ ← write_bytes (msg + offsetof_rhandle) (le32 handle);
    mret PSA_SUCCESS
  else
    handle ← spm_get_handle_by_signal partition signal;
    if handle =? NULL then mret PSA_ERROR_DOES_NOT_EXIST
    else
      c ← get_conn handle;
      _ ← write_bytes msg (encode_msg c.(conn_msg));
      mret PSA_SUCCESS.

Definition clear_unreported (c : connection_t) (i : Z) : list Z :=
  if negb (IOVEC_IS_UNMAPPED c (i + OUTVEC_IDX_BASE)) && negb (IOVEC_IS_ACCESSED c (i + OUTVEC_IDX_BASE))
  then set_elem c.(conn_outvec_written) i 0 else c.(conn_outvec_written).

Definition update_caller_outvec_len (handle : Z) : SPM unit :=
  _ ← (if PSA_FRAMEWORK_HAS_MM_IOVEC then
         _ ← for_range OUTVEC_IDX_BASE (PSA_MAX_IOVEC * 2) (fun i =>
           _ ← upd_conn handle (fun c =>
                 set_conn_outvec_written (clear_unreported c (i - OUTVEC_IDX_BASE)) c);
           mret (A := option unit) None);
         mret tt
       else mret tt);
  _ ← for_range 0 PSA_MAX_IOVEC (fun i =>
        c ← get_conn handle;
        size ← elem c.(conn_msg).(msg_out_size) i;
        if size =? 0 then mret (A := option unit) None
        else
          let v := c.(conn_caller_outvec) + sizeof_psa_vec * i in
          obase ← elem c.(conn_outvec_base) i;
          _ ← c_assert debug (b ← read_bytes v 4; mret (of_le32 b =? obase));
          written ← elem c.(conn_outvec_written) i;
          _ ← write_bytes (v + 4) (le32 written);
          mret None);
  mret tt.

(** [psa_reply_error_connection] with the IPC backend *)
Definition psa_reply_error_connection (handle status : Z) : SPM Z :=
  _ ← upd_conn handle (set_conn_status TFM_HANDLE_STATUS_TO_FREE);
  mret status.

Definition tfm_spm_partition_psa_reply (msg_handle status : Z) : SPM Z :=
  handle ← message_of msg_handle;
  c ← get_conn handle;
  _ ← panic_if (c.(conn_service) =? NULL);
  sv ← get_serv c.(conn_service);
  let type := c.(conn_msg).(msg_type) in
  ret ←
    (if type =? PSA_IPC_CONNECT then
       if status =? PSA_SUCCESS then mret msg_handle
       else if status =? PSA_ERROR_CONNECTION_REFUSED then psa_reply_error_connection handle status
       else if status =? PSA_ERROR_CONNECTION_BUSY then psa_reply_error_connection handle status
       else tfm_core_panic
     else if type =? PSA_IPC_DISCONNECT then
       _ ← upd_conn handle (set_conn_status TFM_HANDLE_STATUS_TO_FREE);
       mret PSA_SUCCESS
     else if PSA_IPC_CALL <=? type then
       _ ← update_caller_outvec_len handle;
       _ ← (if SERVICE_IS_STATELESS sv.(serv_ldinf).(sl_flags)
            then upd_conn handle (set_conn_status TFM_HANDLE_STATUS_TO_FREE) else mret tt);
       mret status
     else tfm_core_panic);
  _ ← (if ret =? PSA_ERROR_PROGRAMMER_ERROR then
         panic_if (negb (TFM_CLIENT_ID_IS_NS c.(conn_msg).(msg_client_id)))
       else mret tt);
  ret ← backend_replying handle ret;
  client ← get_part c.(conn_p_client);
  if IS_NS_AGENT_MAILBOX client.(part_ldinf) then mret ret
  else
    _ ← upd_conn handle (fun c =>
          if c.(conn_status) =? TFM_HANDLE_STATUS_TO_FREE then c
          else set_conn_status TFM_HANDLE_STATUS_IDLE c);
    mret ret.

Definition tfm_spm_partition_psa_notify (partition_id : Z) : SPM Z :=
  p_pt ← tfm_spm_get_partition_by_id partition_id;
  backend_assert_signal p_pt PSA_DOORBELL.

Definition tfm_spm_partition_psa_clear : SPM Z :=
  partition ← gets sp_current;
  x ← get_part partition;
  _ ← panic_if (Z.land x.(part_signals_asserted) PSA_DOORBELL =? 0);
  _ ← upd_part partition (signals_off PSA_DOORBELL);
  mret PSA_SUCCESS.

(** ** psa_irq_api.c and get_irq_info_for_signal *)

Definition get_irq_info_for_signal (p_ldinf : partition_load_info_t) (signal : Z)
  : option irq_load_info_t :=
  if negb (IS_ONLY_ONE_BIT_IN_UINT32 signal) then None
  else List.find (fun i => i.(il_signal) =? signal) p_ldinf.(pl_irqs).

Definition HAL_IRQ_ENABLE : Z := 0.
Definition HAL_IRQ_DISABLE : Z := 1.
Definition HAL_IRQ_CLEAR_PENDING : Z := 2.
(** A call of the platform's interrupt functions. *)
Definition hal_irq (op source : Z) : SPM unit :=
  modifyS (fun s => set_sp_irq_log (s.(sp_irq_log) ++ [(op, source)]) s).

Definition irq_info_of (irq_signal : Z) : SPM (Z * partition_t * irq_load_info_t) :=
  partition ← gets sp_current;
  x ← get_part partition;
  match get_irq_info_for_signal x.(part_ldinf) irq_signal with
  | None => tfm_core_panic
  | Some i => mret (partition, x, i)
  end.

Definition tfm_spm_partition_psa_irq_enable (irq_signal : Z) : SPM Z :=
  '(_, _, irq_info) ← irq_info_of irq_signal;
  _ ← hal_irq HAL_IRQ_ENABLE irq_info.(il_source);
  mret PSA_SUCCESS.

Definition tfm_spm_partition_psa_irq_disable (irq_signal : Z) : SPM Z :=
  '(_, _, irq_info) ← irq_info_of irq_signal;
  _ ← hal_irq HAL_IRQ_DISABLE irq_info.(il_source);
  mret 1.

Definition tfm_spm_partition_psa_reset_signal (irq_signal : Z) : SPM Z :=
  '(partition, x, irq_info) ← irq_info_of irq_signal;
  _ ← panic_if (irq_info.(il_flih_func) =? NULL);
  _ ← panic_if (Z.land x.(part_signals_asserted) irq_signal =? 0);
  _ ← panic_if (negb (IS_ONLY_ONE_BIT_IN_UINT32 irq_signal));
  _ ← upd_part partition (signals_off irq_signal);
  mret PSA_SUCCESS.

Definition tfm_spm_partition_psa_eoi (irq_signal : Z) : SPM Z :=
  '(partition, x, irq_info) ← irq_info_of irq_signal;
  _ ← panic_if (negb (irq_info.(il_flih_func) =? NULL));
  _ ← panic_if (Z.land x.(part_signals_asserted) irq_signal =? 0);
  _ ← panic_if (negb (IS_ONLY_ONE_BIT_IN_UINT32 irq_signal));
  _ ← upd_part partition (signals_off irq_signal);
  _ ← hal_irq HAL_IRQ_CLEAR_PENDING irq_info.(il_source);
  _ ← hal_irq HAL_IRQ_ENABLE irq_info.(il_source);
  mret PSA_SUCCESS.
End SpmMsg.

(** ** Memory: facts *)

Lemma mem_read_length m p n l : mem_read m p n = Some l -> length l = n.
Proof.
  revert p l. induction n as [|n IH]; intros p l H; cbn in H; [by injection H as <-|].
  apply bind_Some in H as (b & _ & H). apply bind_Some in H as (l' & Hl & [= <-]).
  cbn. by rewrite (IH _ _ Hl).
Qed.

Lemma mem_read_split m p a b l : mem_read m p (a + b) = Some l ->
  mem_read m p a = Some (take a l) /\ mem_read m (p + Z.of_nat a) b = Some (drop a l).
Proof.
  revert p l. induction a as [|a IH]; intros p l H.
  - by rewrite Z.add_0_r.
  - cbn in H. apply bind_Some in H as (c & Hc & H). apply bind_Some in H as (l' & Hl & [= <-]).
    destruct (IH _ _ Hl) as [H1 H2]. cbn. rewrite Hc. cbn. rewrite H1. cbn. split; [done|].
    by replace (p + Z.of_nat (S a)) with (p + 1 + Z.of_nat a) by lia.
Qed.

(** Writing where one may read succeeds, keeps everything outside the range and
    puts the bytes inside it. *)
Lemma mem_write_ok m p l : is_Some (mem_read m p (length l)) ->
  exists m', mem_write m p l = Some m' /\ mem_read m' p (length l) = Some l /\
    (forall q, q < p \/ p + Z.of_nat (length l) <= q -> m' !! q = m !! q) /\
    (forall q, is_Some (m !! q) -> is_Some (m' !! q)).
Proof.
  revert m p. induction l as [|b l IH]; intros m p [l0 H]; cbn in H |- *.
  - exists m. done.
  - apply bind_Some in H as (c & Hc & H). apply bind_Some in H as (l' & Hl & _).
    rewrite Hc. cbn. destruct (IH (<[p := b]> m) (p + 1)) as (m' & Hw & Hr & Ho & Hs).
    { assert (forall k q, p < q -> mem_read (<[p := b]> m) q k = mem_read m q k) as Heq.
      { induction k as [|k IHk]; intros q Hq; cbn; [done|]. rewrite lookup_insert_ne by lia.
        by rewrite IHk by lia. }
      rewrite Heq by lia. eauto. }
    exists m'. split; [done|]. split; [|split].
    + rewrite Ho by lia. rewrite lookup_insert_eq. cbn. by rewrite Hr.
    + intros q Hq. rewrite Ho by lia. apply lookup_insert_ne. lia.
    + intros q Hq. apply Hs. rewrite lookup_insert_is_Some'. auto.
Qed.

Lemma mem_read_frame m m' p n :
  (forall q, p <= q < p + Z.of_nat n -> m' !! q = m !! q) -> mem_read m' p n = mem_read m p n.
Proof.
  revert p. induction n as [|n IH]; intros p H; cbn; [done|].
  rewrite H by lia. destruct (m !! p); [|done]. cbn. by rewrite IH by (intros; apply H; lia).
Qed.

(** ** The status word of the vectors: facts *)

Lemma iovec_bit_test k c i : 0 <= k -> 0 <= i ->
  iovec_bit (2 ^ k) c i = Z.testbit c.(conn_iovec_status) (i * 4 + k).
Proof.
  intros Hk Hi. unfold iovec_bit, IOVEC_STATUS_BITS. rewrite land_pow2 by done.
  rewrite Z.shiftr_spec by done. replace (k + i * 4) with (i * 4 + k) by lia.
  destruct (Z.testbit _ _); [|done]. apply truth_true. pose proof (Z.pow_pos_nonneg 2 k). lia.
Qed.

Lemma shifted_bit k i : 0 <= k < 4 -> 0 <= i < 8 ->
  Z.shiftl (2 ^ k) (i * IOVEC_STATUS_BITS) = 2 ^ (i * 4 + k) /\ is_u32 (2 ^ (i * 4 + k)).
Proof.
  intros Hk Hi. unfold IOVEC_STATUS_BITS. rewrite Z.shiftl_mul_pow2 by lia.
  rewrite <- Z.pow_add_r by lia. split; [f_equal; lia|].
  unfold is_u32. pose proof (Z.pow_pos_nonneg 2 (i * 4 + k)).
  pose proof (Z.pow_lt_mono_r 2 (i * 4 + k) 32). lia.
Qed.

Lemma iovec_on_test k i st n : 0 <= k < 4 -> 0 <= i < 8 -> 0 <= n ->
  Z.testbit (iovec_on (2 ^ k) i st) n = Z.testbit st n || (n =? i * 4 + k).
Proof.
  intros Hk Hi Hn. unfold iovec_on. destruct (shifted_bit k i Hk Hi) as [-> Hr].
  rewrite u32_small by done. rewrite Z.lor_spec, Z.pow2_bits_eqb by lia.
  by rewrite (Z.eqb_sym n).
Qed.

Lemma iovec_off_test k i st n : 0 <= k < 4 -> 0 <= i < 8 -> 0 <= n < 32 ->
  Z.testbit (iovec_off (2 ^ k) i st) n = Z.testbit st n && negb (n =? i * 4 + k).
Proof.
  intros Hk Hi Hn. unfold iovec_off. destruct (shifted_bit k i Hk Hi) as [-> Hr].
  unfold u32. rewrite Z.land_spec, Z.mod_pow2_bits_low by lia.
  rewrite Z.lnot_spec, Z.pow2_bits_eqb by lia. by rewrite (Z.eqb_sym n).
Qed.

(** How far the service has got with vector [i]: input vectors are 0 to 3, output
    vectors 4 to 7. *)
Inductive vec_mode := Untouched | Accessed | Mapped | Unmapped.
#[global] Instance vec_mode_eq : EqDecision vec_mode.
Proof. solve_decision. Defined.
Definition vec_mode_of (c : connection_t) (i : Z) : option vec_mode :=
  match IOVEC_IS_MAPPED c i, IOVEC_IS_UNMAPPED c i, IOVEC_IS_ACCESSED c i with
  | false, false, false => Some Untouched
  | false, false, true => Some Accessed
  | true, false, false => Some Mapped
  | false, true, false => Some Unmapped
  | _, _, _ => None
  end.

Lemma set_accessed_modes c i j : 0 <= i < 8 -> 0 <= j < 8 ->
  IOVEC_IS_MAPPED (SET_IOVEC_ACCESSED i c) j = IOVEC_IS_MAPPED c j /\
  IOVEC_IS_UNMAPPED (SET_IOVEC_ACCESSED i c) j = IOVEC_IS_UNMAPPED c j /\
  IOVEC_IS_ACCESSED (SET_IOVEC_ACCESSED i c) j = IOVEC_IS_ACCESSED c j || (j =? i).
Proof.
  intros Hi Hj. unfold IOVEC_IS_MAPPED, IOVEC_IS_UNMAPPED, IOVEC_IS_ACCESSED, SET_IOVEC_ACCESSED.
  change IOVEC_MAPPED_BIT with (2 ^ 0). change IOVEC_UNMAPPED_BIT with (2 ^ 1).
  change IOVEC_ACCESSED_BIT with (2 ^ 2). rewrite !iovec_bit_test by lia. cbn [conn_iovec_status set_conn_iovec_status].
  rewrite !iovec_on_test by lia. split_and!.
  - destruct (Z.eqb_spec (j * 4 + 0) (i * 4 + 2)); [lia|]. by rewrite orb_false_r.
  - destruct (Z.eqb_spec (j * 4 + 1) (i * 4 + 2)); [lia|]. by rewrite orb_false_r.
  - f_equal. destruct (Z.eqb_spec (j * 4 + 2) (i * 4 + 2)), (Z.eqb_spec j i); lia.
Qed.

Lemma set_on_off_modes on off c i j : 0 <= on < 2 -> off = 1 - on -> 0 <= i < 8 -> 0 <= j < 8 ->
  let st := iovec_off (2 ^ off) i (iovec_on (2 ^ on) i c.(conn_iovec_status)) in
  let c' := set_conn_iovec_status st c in
  iovec_bit (2 ^ on) c' j = iovec_bit (2 ^ on) c j || (j =? i) /\
  iovec_bit (2 ^ off) c' j = iovec_bit (2 ^ off) c j && negb (j =? i) /\
  iovec_bit (2 ^ 2) c' j = iovec_bit (2 ^ 2) c j.
Proof.
  intros Hon -> Hi Hj st c'. rewrite !iovec_bit_test by lia. subst c' st.
  cbn [conn_iovec_status set_conn_iovec_status]. rewrite !iovec_off_test, !iovec_on_test by lia.
  split_and!.
  - destruct (Z.eqb_spec (j * 4 + on) (i * 4 + (1 - on))); [lia|].
    destruct (Z.eqb_spec (j * 4 + on) (i * 4 + on)), (Z.eqb_spec j i); try lia; by rewrite andb_true_r.
  - destruct (Z.eqb_spec (j * 4 + (1 - on)) (i * 4 + on)); [lia|]. rewrite orb_false_r.
    destruct (Z.eqb_spec (j * 4 + (1 - on)) (i * 4 + (1 - on))), (Z.eqb_spec j i); try lia; done.
  - destruct (Z.eqb_spec (j * 4 + 2) (i * 4 + (1 - on))); [lia|].
    destruct (Z.eqb_spec (j * 4 + 2) (i * 4 + on)); [lia|]. by rewrite orb_false_r, andb_true_r.
Qed.

(** ** Valid messages *)

Section Messages.
Context {cfg : SpmConfig}.

(** [h] is the handle of the message on connection [c], and the running partition
    is the one that provides the service. *)
Definition message (s : spm) (h c : Z) : Prop :=
  handle_to_connection debug connection_pool h s.(sp_space) = (Val c, s.(sp_space)) /\
  spm_validate_connection connection_pool c s.(sp_space) = (Val tt, s.(sp_space)) /\ c <> NULL /\
  exists cx sv owner cur, s.(sp_conns) !! c = Some cx /\ s.(sp_servs) !! cx.(conn_service) = Some sv /\
    s.(sp_parts) !! sv.(serv_partition) = Some owner /\ s.(sp_current) <> NULL /\
    s.(sp_parts) !! s.(sp_current) = Some cur /\
    cur.(part_ldinf).(pl_pid) = owner.(part_ldinf).(pl_pid).

Lemma on_space_run {A} (m : M conn_space A) r s :
  m s.(sp_space) = (r, s.(sp_space)) -> on_space m s = (r, s).
Proof. intros H. unfold on_space. rewrite H. by destruct s. Qed.

Lemma msg_handle_run s h c : message s h c -> spm_msg_handle_to_connection h s = (Val c, s).
Proof.
  intros (H1 & H2 & Hc & cx & sv & owner & cur & Hcx & Hsv & How & Hn & Hcur & Hpid).
  unfold spm_msg_handle_to_connection. rewrite (bind_val _ _ _ _ _ (on_space_run _ _ _ H1)).
  rewrite (bind_val _ _ _ _ _ (attempt_val _ _ _ _ (on_space_run _ _ _ H2))).
  cbv beta iota. rewrite (bind_val _ _ s cur.(part_ldinf).(pl_pid) s).
  2: { unfold tfm_spm_partition_get_running_partition_id. rewrite bind_gets.
    destruct (Z.eqb_spec (sp_current s) NULL); [done|].
    unfold get_part. by rewrite (bind_deref sp_parts _ _ _ _ Hcur). }
  unfold get_conn, get_serv, get_part. rewrite (bind_deref sp_conns _ _ _ _ Hcx).
  rewrite (bind_deref sp_servs _ _ _ _ Hsv), (bind_deref sp_parts _ _ _ _ How).
  rewrite Hpid, Z.eqb_refl. done.
Qed.

Lemma message_of_run s h c : message s h c -> message_of h s = (Val c, s).
Proof.
  intros H. unfold message_of. rewrite (bind_val _ _ _ _ _ (msg_handle_run s h c H)).
  destruct H as (_ & _ & Hc & _). by destruct (Z.eqb_spec c NULL).
Qed.

(** The message stays valid while the connection and the memory are worked on. *)
Lemma message_stable s h c g m :
  (forall x, (g x).(conn_service) = x.(conn_service)) -> message s h c ->
  message (set_sp_mem m (set_sp_conns (alter g c s.(sp_conns)) s)) h c.
Proof.
  intros Hg (H1 & H2 & Hc & cx & sv & owner & cur & Hcx & Hsv & How & Hn & Hcur & Hpid).
  split; [exact H1|]. split; [exact H2|]. split; [done|]. exists (g cx), sv, owner, cur.
  cbn. rewrite lookup_alter_eq, Hcx, Hg. done.
Qed.

Lemma message_conn s h c : message s h c -> exists cx, s.(sp_conns) !! c = Some cx.
Proof. intros (_ & _ & _ & cx & _ & _ & _ & H & _). eauto. Qed.

Lemma elem_run l i v s : 0 <= i -> l !! Z.to_nat i = Some v -> elem l i s = (Val v, s).
Proof. intros Hi H. unfold elem. destruct (Z.ltb_spec i 0); [lia|]. by rewrite H. Qed.

(** A vector that is still to be read or written. *)
Definition unmapped_yet (c : connection_t) (i : Z) : Prop :=
  PSA_FRAMEWORK_HAS_MM_IOVEC = true -> IOVEC_IS_MAPPED c i = false /\ IOVEC_IS_UNMAPPED c i = false.

Definition mark_accessed (i : Z) (c : connection_t) : connection_t :=
  if PSA_FRAMEWORK_HAS_MM_IOVEC then SET_IOVEC_ACCESSED i c else c.

Lemma access_iovec_run s c cx i : s.(sp_conns) !! c = Some cx -> unmapped_yet cx i ->
  access_iovec c i s = (Val tt, set_sp_conns (alter (mark_accessed i) c s.(sp_conns)) s).
Proof.
  intros Hcx Hun. unfold access_iovec, mark_accessed, unmapped_yet in *.
  destruct PSA_FRAMEWORK_HAS_MM_IOVEC.
  - destruct (Hun eq_refl) as [Hm Hu]. unfold get_conn. rewrite (bind_deref sp_conns _ _ _ _ Hcx).
    rewrite Hm, Hu. cbn [orb panic_if]. rewrite bind_mret. by eapply upd_conn_run.
  - unfold mret, M_ret. f_equal. destruct s. unfold set_sp_conns. cbn in *. f_equal. symmetry.
    apply map_eq. intros q. destruct (decide (q = c)) as [->|].
    + by rewrite lookup_alter_eq, Hcx.
    + by rewrite lookup_alter_ne.
Qed.

Lemma memory_check_run s p x base size access : s.(sp_parts) !! p = Some x ->
  tfm_hal_memory_check x.(part_boundary) base size access = PSA_SUCCESS ->
  memory_check_or_panic p base size access s = (Val tt, s).
Proof.
  intros Hx Hok. unfold memory_check_or_panic, get_part.
  rewrite (bind_deref sp_parts _ _ _ _ Hx), Hok. done.
Qed.

Lemma memcpy_run s dst src n l m' : mem_read s.(sp_mem) src (Z.to_nat n) = Some l ->
  mem_write s.(sp_mem) dst l = Some m' -> spm_memcpy dst src n s = (Val tt, set_sp_mem m' s).
Proof.
  intros Hr Hw. unfold spm_memcpy. rewrite (bind_val _ _ _ l s).
  - unfold write_bytes. by rewrite Hw.
  - unfold read_bytes. by rewrite Hr.
Qed.

(** A partition reading vector [i], of [sz] bytes at [base], of the message [h]:
    [acc] bytes of it have been consumed. *)
Definition reading (s : spm) (h c i base sz acc : Z) : Prop :=
  message s h c /\ 0 <= acc <= sz /\ is_u32 sz /\ 0 <= i < PSA_MAX_IOVEC /\
  exists cx, s.(sp_conns) !! c = Some cx /\ PSA_IPC_CALL <= cx.(conn_msg).(msg_type) /\
    unmapped_yet cx (i + INVEC_IDX_BASE) /\ cx.(conn_msg).(msg_in_size) !! Z.to_nat i = Some sz /\
    cx.(conn_invec_accessed) !! Z.to_nat i = Some acc /\
    cx.(conn_invec_base) !! Z.to_nat i = Some base.

(** A buffer of [n] bytes that the running partition may write. *)
Definition buffer_ok (s : spm) (buf n : Z) : Prop :=
  0 <= n /\ is_Some (mem_read s.(sp_mem) buf (Z.to_nat n)) /\
  exists x, s.(sp_parts) !! s.(sp_current) = Some x /\
    tfm_hal_memory_check x.(part_boundary) buf n TFM_HAL_ACCESS_READWRITE = PSA_SUCCESS.

Lemma check_request_run s c i : PSA_IPC_CALL <= c.(conn_msg).(msg_type) -> i < PSA_MAX_IOVEC ->
  check_request c i s = (Val tt, s).
Proof.
  intros Ht Hi. unfold check_request. destruct (Z.ltb_spec (msg_type (conn_msg c)) PSA_IPC_CALL); [lia|].
  destruct (Z.leb_spec PSA_MAX_IOVEC i); [lia|]. done.
Qed.

Lemma list_insert_step (l : list Z) i a : l !! Z.to_nat i = Some a -> set_elem l i a = l.
Proof. intros H. unfold set_elem. by apply list_insert_id. Qed.

Lemma mark_accessed_conn i x :
  (mark_accessed i x).(conn_msg) = x.(conn_msg) /\ (mark_accessed i x).(conn_service) = x.(conn_service) /\
  (mark_accessed i x).(conn_invec_accessed) = x.(conn_invec_accessed) /\
  (mark_accessed i x).(conn_invec_base) = x.(conn_invec_base) /\
  (mark_accessed i x).(conn_outvec_written) = x.(conn_outvec_written) /\
  (mark_accessed i x).(conn_outvec_base) = x.(conn_outvec_base).
Proof. unfold mark_accessed. by destruct PSA_FRAMEWORK_HAS_MM_IOVEC. Qed.

(** The state after [k] bytes were read into [buf]. *)
Definition consumed (i acc : Z) (x : connection_t) : connection_t :=
  set_conn_invec_accessed (set_elem x.(conn_invec_accessed) i acc) (mark_accessed (i + INVEC_IDX_BASE) x).

Lemma psa_read_run s h c i base sz acc buf n l m' : reading s h c i base sz acc ->
  buffer_ok s buf n -> mem_read s.(sp_mem) (base + acc) (Z.to_nat (Z.min n (sz - acc))) = Some l ->
  mem_write s.(sp_mem) buf l = Some m' ->
  tfm_spm_partition_psa_read h i buf n s =
    (Val (Z.min n (sz - acc)),
     set_sp_mem m' (set_sp_conns (alter (consumed i (acc + Z.min n (sz - acc))) c s.(sp_conns)) s)).
Proof.
  intros (Hm & Hacc & Hsz & Hi & cx & Hcx & Ht & Hun & Hin & Hac & Hb) (Hn & _ & x & Hx & Hok) Hl Hw.
  unfold is_u32 in Hsz. unfold PSA_MAX_IOVEC in *.
  unfold tfm_spm_partition_psa_read. rewrite bind_gets, (bind_val _ _ _ _ _ (message_of_run _ _ _ Hm)).
  unfold get_conn at 1. rewrite (bind_deref sp_conns _ _ _ _ Hcx).
  rewrite (bind_val _ _ _ _ _ (check_request_run _ _ i Ht ltac:(unfold PSA_MAX_IOVEC; lia))).
  rewrite (bind_val _ _ _ _ _ (access_iovec_run _ _ _ _ Hcx Hun)).
  rewrite (bind_val _ _ _ _ _ (elem_run _ i _ _ ltac:(lia) Hin)).
  rewrite (bind_val _ _ _ _ _ (elem_run _ i _ _ ltac:(lia) Hac)). cbv zeta.
  rewrite (u32_small (sz - acc)) by (unfold is_u32; lia).
  destruct (Z.ltb_spec sz (sz - acc)); [lia|]. cbn [panic_if]. rewrite bind_mret.
  pose proof (mark_accessed_conn (i + INVEC_IDX_BASE) cx) as (_ & _ & Ha & _).
  destruct (Z.eqb_spec (sz - acc) 0) as [E|E].
  - assert (Z.min n (sz - acc) = 0) as Hk by lia. rewrite Hk in Hl |- *. cbn in Hl.
    injection Hl as <-. cbn in Hw. injection Hw as <-. unfold mret, M_ret. do 2 f_equal.
    destruct s. unfold set_sp_conns, set_sp_mem. cbn in *. f_equal. apply map_eq. intros q.
    destruct (decide (q = c)) as [-> |]; [|by rewrite !lookup_alter_ne].
    rewrite !lookup_alter_eq, Hcx. cbn. f_equal. unfold consumed.
    replace (acc + 0) with acc by lia. rewrite (list_insert_step _ _ _ Hac), <- Ha. by destruct (mark_accessed _ cx).
  - rewrite (bind_val _ _ _ _ _ (memory_check_run (set_sp_conns _ s) _ x _ _ _ Hx Hok)).
    replace (if n <? sz - acc then n else sz - acc) with (Z.min n (sz - acc))
      by (destruct (Z.ltb_spec n (sz - acc)); lia).
    rewrite (bind_val _ _ _ _ _ (elem_run _ i _ _ ltac:(lia) Hb)).
    rewrite (bind_val _ _ _ _ _ (memcpy_run (set_sp_conns _ s) _ _ _ _ _ Hl Hw)).
    rewrite (u32_small (acc + _)) by (unfold is_u32; lia).
    erewrite bind_val by (apply (upd_conn_run c (mark_accessed (i + INVEC_IDX_BASE) cx)); cbn;
      by rewrite lookup_alter_eq, Hcx).
    unfold mret, M_ret. do 2 f_equal. destruct s. unfold set_sp_conns, set_sp_mem. cbn in *. f_equal.
    apply map_eq. intros q. destruct (decide (q = c)) as [-> |]; [|by rewrite !lookup_alter_ne].
    rewrite !lookup_alter_eq, Hcx. cbn. f_equal. unfold consumed. by rewrite Ha.
Qed.

Lemma mark_accessed_unmapped x i j : 0 <= i < 8 -> 0 <= j < 8 -> unmapped_yet x j ->
  unmapped_yet (mark_accessed i x) j.
Proof.
  intros Hi Hj H. unfold unmapped_yet, mark_accessed in *. destruct PSA_FRAMEWORK_HAS_MM_IOVEC; [|done].
  intros _. destruct (H eq_refl) as [H1 H2].
  destruct (set_accessed_modes x i j Hi Hj) as (-> & -> & _). done.
Qed.

Lemma mem_read_prefix m p a n l : mem_read m p n = Some l -> (a <= n)%nat ->
  mem_read m p a = Some (take a l).
Proof.
  intros H Ha. replace n with (a + (n - a))%nat in H by lia. by destruct (mem_read_split _ _ _ _ _ H).
Qed.

Lemma mem_read_window m p a k n l : mem_read m p n = Some l -> (a + k <= n)%nat ->
  mem_read m (p + Z.of_nat a) k = Some (take k (drop a l)).
Proof.
  intros H Hk. replace n with (a + (n - a))%nat in H by lia.
  destruct (mem_read_split _ _ _ _ _ H) as [_ H2]. eapply mem_read_prefix; [done|lia].
Qed.

Lemma mem_read_mapped m m' p n : (forall q, is_Some (m !! q) -> is_Some (m' !! q)) ->
  is_Some (mem_read m p n) -> is_Some (mem_read m' p n).
Proof.
  intros H. revert p. induction n as [|n IH]; intros p [l Hl]; cbn in *; [done|].
  apply bind_Some in Hl as (b & Hb & Hl). apply bind_Some in Hl as (l' & Hl' & _).
  destruct (H p ltac:(eauto)) as [b' ->]. destruct (IH (p + 1) ltac:(eauto)) as [l'' Hl'']. cbn.
  rewrite Hl''. eauto.
Qed.

(** One [psa_read] into a buffer apart from the vector: the next bytes of the
    vector, and a state from which reading goes on. *)
Lemma psa_read_step s h c i base sz acc v buf n : reading s h c i base sz acc ->
  buffer_ok s buf n -> mem_read s.(sp_mem) base (Z.to_nat sz) = Some v ->
  buf + n <= base \/ base + sz <= buf ->
  let k := Z.min n (sz - acc) in
  exists s', tfm_spm_partition_psa_read h i buf n s = (Val k, s') /\
    mem_read s'.(sp_mem) buf (Z.to_nat k) = Some (take (Z.to_nat k) (drop (Z.to_nat acc) v)) /\
    mem_read s'.(sp_mem) base (Z.to_nat sz) = Some v /\ reading s' h c i base sz (acc + k) /\
    (forall b m, buffer_ok s b m -> buffer_ok s' b m).
Proof.
  intros Hr Hbuf Hv Hdis k. pose proof Hr as (Hm & Hacc & Hsz & Hi & cx & Hcx & Ht & Hun & Hin & Hac & Hb).
  pose proof Hbuf as (Hn & [l0 Hl0] & _). assert (0 <= k <= n /\ acc + k <= sz) as Hk by lia.
  pose proof (mem_read_window _ _ (Z.to_nat acc) (Z.to_nat k) _ _ Hv ltac:(lia)) as Hl.
  rewrite Z2Nat.id in Hl by lia. pose proof (mem_read_length _ _ _ _ Hl) as Hlen.
  destruct (mem_write_ok s.(sp_mem) buf (take (Z.to_nat k) (drop (Z.to_nat acc) v)))
    as (m' & Hw & Hrd & Hout & Hsome).
  { rewrite Hlen. eexists. eapply mem_read_prefix; [exact Hl0|lia]. }
  rewrite Hlen in Hrd, Hout.
  exists (set_sp_mem m' (set_sp_conns (alter (consumed i (acc + k)) c s.(sp_conns)) s)).
  split_and!.
  - exact (psa_read_run s h c i base sz acc buf n _ m' Hr Hbuf Hl Hw).
  - exact Hrd.
  - cbn [sp_mem set_sp_mem]. rewrite <- Hv. apply mem_read_frame. intros q Hq. apply Hout. lia.
  - pose proof (mark_accessed_conn (i + INVEC_IDX_BASE) cx) as (Hf1 & _ & Hf2 & Hf3 & _).
    assert (forall x, conn_service (consumed i (acc + k) x) = conn_service x) as Hsvc.
    { intros x. destruct (mark_accessed_conn (i + INVEC_IDX_BASE) x) as (_ & Hs & _). exact Hs. }
    split; [by apply message_stable|]. split; [lia|]. split; [done|]. split; [done|].
    exists (consumed i (acc + k) cx). cbn [sp_conns set_sp_mem set_sp_conns].
    rewrite lookup_alter_eq, Hcx. split; [done|].
    cbn [conn_msg conn_invec_accessed conn_invec_base consumed set_conn_invec_accessed].
    rewrite Hf1, Hf3. split_and!; try done.
    + intros HM. unfold INVEC_IDX_BASE, PSA_MAX_IOVEC in *.
      by apply (mark_accessed_unmapped cx (i + 0) (i + 0) ltac:(lia) ltac:(lia) Hun).
    + unfold set_elem. rewrite list_lookup_insert_eq; [done|]. by apply lookup_lt_is_Some; eauto.
  - intros b m (Hbm & Hbr & x & Hx & Hok). split; [done|]. split; [|eauto].
    cbn [sp_mem set_sp_mem]. by eapply mem_read_mapped.
Qed.

(** A partition that reads vector [i] in chunks: one [psa_read] for each buffer and
    size, and what it found in the buffer. *)
Fixpoint read_chunks (h i : Z) (reqs : list (Z * Z)) : SPM (list bytes) :=
  match reqs with
  | [] => mret []
  | (buf, n) :: reqs' =>
      k ← tfm_spm_partition_psa_read h i buf n;
      piece ← read_bytes buf k;
      rest ← read_chunks h i reqs';
      mret (piece :: rest)
  end.

Definition total (reqs : list (Z * Z)) : Z := foldr (fun r a => r.2 + a) 0 reqs.

(** However a service splits its reading of an input vector into [psa_read]
    calls (buffers it may write, apart from the client's vector), the pieces it
    receives are consecutive: together they are the bytes of the vector from where
    reading stood, as many as were asked for and are left, none repeated, skipped
    or beyond the end; and the message still stands for the rest. *)
Theorem psa_read_stream s h c i base sz acc v reqs :
  reading s h c i base sz acc -> mem_read s.(sp_mem) base (Z.to_nat sz) = Some v ->
  Forall (fun r => buffer_ok s r.1 r.2 /\ (r.1 + r.2 <= base \/ base + sz <= r.1)) reqs ->
  exists pieces s', read_chunks h i reqs s = (Val pieces, s') /\
    concat pieces = take (Z.to_nat (total reqs)) (drop (Z.to_nat acc) v) /\
    reading s' h c i base sz (Z.min sz (acc + total reqs)).
Proof.
  intros Hr Hv Hreqs. revert s acc Hr Hv Hreqs. induction reqs as [|[buf n] reqs IH];
    intros s acc Hr Hv Hreqs.
  { exists [], s. split; [done|]. split; [done|]. pose proof Hr as (_ & Hacc & _). cbn [total foldr].
    replace (Z.min sz (acc + 0)) with acc by lia. done. }
  apply Forall_cons in Hreqs as [[Hb Hdis] Hreqs]. cbn [fst snd] in Hb, Hdis.
  destruct (psa_read_step s h c i base sz acc v buf n Hr Hb Hv Hdis) as (s1 & Hrun & Hbuf & Hv1 & Hr1 & Hok).
  destruct (IH s1 _ Hr1 Hv1) as (pieces & s2 & Hrun2 & Hcat & Hr2).
  { eapply Forall_impl; [exact Hreqs|]. intros r [H1 H2]. split; [by apply Hok|done]. }
  pose proof Hr as (_ & Hacc & Hsz & _). pose proof Hb as (Hn & _).
  assert (0 <= total reqs) as Htot.
  { clear -Hreqs. induction Hreqs as [|r l [(H & _) _] _ IHl]; cbn [total foldr]; [lia|]. unfold total in IHl. lia. }
  set (k := Z.min n (sz - acc)) in *.
  exists (take (Z.to_nat k) (drop (Z.to_nat acc) v) :: pieces), s2. split_and!.
  - cbn [read_chunks]. rewrite (bind_val _ _ _ _ _ Hrun).
    rewrite (bind_val _ _ s1 (take (Z.to_nat k) (drop (Z.to_nat acc) v)) s1)
      by (unfold read_bytes; by rewrite Hbuf).
    by rewrite (bind_val _ _ _ _ _ Hrun2).
  - cbn [concat total foldr snd]. fold (total reqs). rewrite Hcat.
    pose proof (mem_read_length _ _ _ _ Hv) as Hlen.
    replace (Z.to_nat (acc + k)) with (Z.to_nat acc + Z.to_nat k)%nat by lia.
    rewrite <- drop_drop. generalize (drop (Z.to_nat acc) v), (length_drop v (Z.to_nat acc)).
    intros w Hw. destruct (Z.le_gt_cases n (sz - acc)).
    + replace (Z.to_nat (n + total reqs)) with (Z.to_nat k + Z.to_nat (total reqs))%nat by lia.
      by rewrite take_take_drop.
    + rewrite !(take_ge w) by lia. rewrite (drop_ge w) by lia. rewrite take_nil. by rewrite app_nil_r.
  - cbn [total foldr snd]. fold (total reqs).
    replace (Z.min sz (acc + (n + total reqs))) with (Z.min sz (acc + k + total reqs)) by lia. done.
Qed.

Lemma mem_read_join m p a b x y : mem_read m p a = Some x -> mem_read m (p + Z.of_nat a) b = Some y ->
  mem_read m p (a + b) = Some (x ++ y).
Proof.
  revert p x. induction a as [|a IH]; intros p x H1 H2; cbn in H1 |- *.
  - injection H1 as <-. by rewrite Z.add_0_r in H2.
  - apply bind_Some in H1 as (c & Hc & H1). apply bind_Some in H1 as (l' & Hl & [= <-]).
    rewrite Hc. cbn. rewrite (IH (p + 1) l' Hl); [done|].
    by replace (p + 1 + Z.of_nat a) with (p + Z.of_nat (S a)) by lia.
Qed.

(** A partition writing output vector [i], of [sz] bytes at [base], of the message
    [h]: [w] bytes of it are written. *)
Definition writing (s : spm) (h c i base sz w : Z) : Prop :=
  message s h c /\ 0 <= w <= sz /\ is_u32 sz /\ 0 <= i < PSA_MAX_IOVEC /\
  exists cx, s.(sp_conns) !! c = Some cx /\ PSA_IPC_CALL <= cx.(conn_msg).(msg_type) /\
    unmapped_yet cx (i + OUTVEC_IDX_BASE) /\ cx.(conn_msg).(msg_out_size) !! Z.to_nat i = Some sz /\
    cx.(conn_outvec_written) !! Z.to_nat i = Some w /\
    cx.(conn_outvec_base) !! Z.to_nat i = Some base.

Definition produced (i w : Z) (x : connection_t) : connection_t :=
  set_conn_outvec_written (set_elem x.(conn_outvec_written) i w) (mark_accessed (i + OUTVEC_IDX_BASE) x).

Lemma writing_next s h c i base sz w w' m : writing s h c i base sz w -> 0 <= w' <= sz ->
  writing (set_sp_mem m (set_sp_conns (alter (produced i w') c s.(sp_conns)) s)) h c i base sz w'.
Proof.
  intros (Hm & Hw & Hsz & Hi & cx & Hcx & Ht & Hun & Hout & Hwr & Hb) Hw'.
  pose proof (mark_accessed_conn (i + OUTVEC_IDX_BASE) cx) as (Hf1 & _ & _ & _ & _ & Hf3).
  split.
  { apply message_stable; [|done]. intros x.
    by destruct (mark_accessed_conn (i + OUTVEC_IDX_BASE) x) as (_ & Hs & _). }
  split; [lia|]. split; [done|]. split; [done|].
  exists (produced i w' cx). cbn [sp_conns set_sp_mem set_sp_conns].
  rewrite lookup_alter_eq, Hcx. split; [done|].
  cbn [conn_msg conn_outvec_written conn_outvec_base produced set_conn_outvec_written].
  rewrite Hf1, Hf3. split_and!; try done.
  - unfold PSA_MAX_IOVEC, OUTVEC_IDX_BASE in *.
    exact (mark_accessed_unmapped cx (i + 4) (i + 4) ltac:(lia) ltac:(lia) Hun).
  - unfold set_elem. rewrite list_lookup_insert_eq; [done|]. by apply lookup_lt_is_Some; eauto.
Qed.

Lemma psa_write_run s h c i base sz w x buf n l m' : writing s h c i base sz w ->
  0 <= n <= sz - w -> s.(sp_parts) !! s.(sp_current) = Some x ->
  tfm_hal_memory_check x.(part_boundary) buf n TFM_HAL_ACCESS_READABLE = PSA_SUCCESS ->
  mem_read s.(sp_mem) buf (Z.to_nat n) = Some l -> mem_write s.(sp_mem) (base + w) l = Some m' ->
  tfm_spm_partition_psa_write h i buf n s =
    (Val PSA_SUCCESS, set_sp_mem m' (set_sp_conns (alter (produced i (w + n)) c s.(sp_conns)) s)).
Proof.
  intros (Hm & Hw & Hsz & Hi & cx & Hcx & Ht & Hun & Hout & Hwr & Hb) Hn Hx Hok Hl Hm'.
  unfold is_u32, PSA_MAX_IOVEC in *.
  unfold tfm_spm_partition_psa_write. rewrite bind_gets, (bind_val _ _ _ _ _ (message_of_run _ _ _ Hm)).
  unfold get_conn at 1. rewrite (bind_deref sp_conns _ _ _ _ Hcx).
  rewrite (bind_val _ _ _ _ _ (check_request_run _ _ i Ht ltac:(unfold PSA_MAX_IOVEC; lia))).
  rewrite (bind_val _ _ _ _ _ (elem_run _ i _ _ ltac:(lia) Hout)).
  rewrite (bind_val _ _ _ _ _ (elem_run _ i _ _ ltac:(lia) Hwr)).
  rewrite (u32_small (sz - w)) by (unfold is_u32; lia).
  destruct (Z.ltb_spec sz w), (Z.ltb_spec (sz - w) n), (Z.ltb_spec sz n); try lia.
  cbn [panic_if]. rewrite !bind_mret.
  rewrite (bind_val _ _ _ _ _ (access_iovec_run _ _ _ _ Hcx Hun)).
  rewrite (bind_val _ _ _ _ _ (memory_check_run (set_sp_conns _ s) _ x _ _ _ Hx Hok)).
  rewrite (bind_val _ _ _ _ _ (elem_run _ i _ _ ltac:(lia) Hb)).
  rewrite (bind_val _ _ _ _ _ (memcpy_run (set_sp_conns _ s) _ _ _ _ _ Hl Hm')).
  rewrite (u32_small (w + n)) by (unfold is_u32; lia).
  erewrite bind_val by (apply (upd_conn_run c (mark_accessed (i + OUTVEC_IDX_BASE) cx)); cbn;
    by rewrite lookup_alter_eq, Hcx).
  pose proof (mark_accessed_conn (i + OUTVEC_IDX_BASE) cx) as (_ & _ & _ & _ & Ha & _).
  unfold mret, M_ret. do 2 f_equal. destruct s. unfold set_sp_conns, set_sp_mem. cbn in *. f_equal.
  apply map_eq. intros q. destruct (decide (q = c)) as [-> |]; [|by rewrite !lookup_alter_ne].
  rewrite !lookup_alter_eq, Hcx. cbn. f_equal. unfold produced. by rewrite Ha.
Qed.

(** [psa_write] appends to the client's output vector and never leaves it.  If
    the [n] bytes fit in what is left of the vector, they become its bytes from
    [w] on, the bytes before and after them and the rest of memory stay as they
    were, and [w + n] bytes count as written; if they do not fit, the caller
    panics and nothing at all has changed. *)
Theorem psa_write_appends s h c i base sz w x buf n l v :
  writing s h c i base sz w -> is_u32 n -> s.(sp_parts) !! s.(sp_current) = Some x ->
  tfm_hal_memory_check x.(part_boundary) buf n TFM_HAL_ACCESS_READABLE = PSA_SUCCESS ->
  mem_read s.(sp_mem) buf (Z.to_nat n) = Some l -> mem_read s.(sp_mem) base (Z.to_nat sz) = Some v ->
  if w + n <=? sz then
    exists s', tfm_spm_partition_psa_write h i buf n s = (Val PSA_SUCCESS, s') /\
      mem_read s'.(sp_mem) base (Z.to_nat sz) =
        Some (take (Z.to_nat w) v ++ l ++ drop (Z.to_nat (w + n)) v) /\
      (forall q, q < base + w \/ base + w + n <= q -> s'.(sp_mem) !! q = s.(sp_mem) !! q) /\
      writing s' h c i base sz (w + n)
  else tfm_spm_partition_psa_write h i buf n s = (Halt CorePanic, s).
Proof.
  intros Hwr Hn Hx Hok Hl Hv. pose proof Hwr as (Hm & Hw & Hsz & Hi & cx & Hcx & Ht & Hun & Hout & Hwn & Hb).
  unfold is_u32 in *. destruct (Z.leb_spec (w + n) sz) as [Hfit|Hfit].
  - pose proof (mem_read_length _ _ _ _ Hl) as Hlen. pose proof (mem_read_length _ _ _ _ Hv) as Hlenv.
    destruct (mem_write_ok s.(sp_mem) (base + w) l) as (m' & Hmw & Hrd & Hoth & _).
    { rewrite Hlen. pose proof (mem_read_window _ _ (Z.to_nat w) (Z.to_nat n) _ _ Hv ltac:(lia)) as H.
      rewrite Z2Nat.id in H by lia. eauto. }
    eexists. split; [exact (psa_write_run s h c i base sz w x buf n l m' Hwr ltac:(lia) Hx Hok Hl Hmw)|].
    rewrite Hlen in Hrd, Hoth. split; [|split].
    + cbn [sp_mem set_sp_mem]. replace (Z.to_nat sz) with (Z.to_nat w + (Z.to_nat n + Z.to_nat (sz - w - n)))%nat by lia.
      apply mem_read_join; [|rewrite Z2Nat.id by lia; apply mem_read_join; [done|rewrite Z2Nat.id by lia]].
      * rewrite (mem_read_frame s.(sp_mem)) by (intros; apply Hoth; lia).
        eapply mem_read_prefix; [done|lia].
      * rewrite (mem_read_frame s.(sp_mem)) by (intros; apply Hoth; lia).
        pose proof (mem_read_window _ _ (Z.to_nat (w + n)) (Z.to_nat (sz - w - n)) _ _ Hv ltac:(lia)) as H.
        rewrite Z2Nat.id, Z.add_assoc in H by lia. rewrite H, take_ge; [done|]. rewrite length_drop. lia.
    + intros q Hq. apply Hoth. lia.
    + apply (writing_next _ _ _ _ _ _ w); [done|lia].
  - unfold PSA_MAX_IOVEC in *. unfold tfm_spm_partition_psa_write.
    rewrite bind_gets, (bind_val _ _ _ _ _ (message_of_run _ _ _ Hm)).
    unfold get_conn at 1. rewrite (bind_deref sp_conns _ _ _ _ Hcx).
    rewrite (bind_val _ _ _ _ _ (check_request_run _ _ i Ht ltac:(unfold PSA_MAX_IOVEC; lia))).
    rewrite (bind_val _ _ _ _ _ (elem_run _ i _ _ ltac:(lia) Hout)).
    rewrite (bind_val _ _ _ _ _ (elem_run _ i _ _ ltac:(lia) Hwn)).
    rewrite (u32_small (sz - w)) by (unfold is_u32; lia).
    destruct (Z.ltb_spec sz w), (Z.ltb_spec (sz - w) n); try lia. done.
Qed.
End Messages.

(** ** The life of a vector *)

Section Modes.
Context {cfg : SpmConfig}.

Lemma running_id_val s s' v : tfm_spm_partition_get_running_partition_id s = (Val v, s') -> s' = s.
Proof.
  unfold tfm_spm_partition_get_running_partition_id. intros H. inv_run H.
  destruct (_ =? NULL); inv_run Hrun0; by inv_spm.
Qed.

Lemma validate_attempt_val p s v s' :
  attempt (on_space (spm_validate_connection connection_pool p)) s = (Val v, s') -> s' = s.
Proof.
  unfold attempt. intros H. pose proof (validate_readonly p s) as Hro.
  destruct (on_space (spm_validate_connection connection_pool p) s) as [[] t]; cbn in Hro; congruence.
Qed.

Lemma msg_handle_val h s c s' : spm_msg_handle_to_connection h s = (Val c, s') -> s' = s.
Proof.
  unfold spm_msg_handle_to_connection. intros H. apply bind_val_inv in H as (p & s1 & H1 & H).
  pose proof (handle_to_connection_readonly h s) as Hro. rewrite H1 in Hro. cbn [snd] in Hro. subst.
  apply bind_val_inv in H as (v & s1 & H2 & H). apply validate_attempt_val in H2 as ->.
  destruct v; inv_run H; [done|]. inv_spm. by apply running_id_val in Hrun.
Qed.

Lemma message_of_val h s c s' : message_of h s = (Val c, s') -> s' = s.
Proof.
  intros H. unfold message_of in H. apply bind_val_inv in H as (p & s1 & H1 & H).
  apply msg_handle_val in H1 as ->. inv_run H. done.
Qed.

Lemma elem_val l i s v s' : elem l i s = (Val v, s') -> s' = s /\ l !! Z.to_nat i = Some v /\ 0 <= i.
Proof.
  unfold elem. destruct (Z.ltb_spec i 0); [done|]. destruct (l !! Z.to_nat i) eqn:E; [|done].
  intros [= -> ->]. done.
Qed.

Lemma memory_check_or_panic_val p base size access s u s' :
  memory_check_or_panic p base size access s = (Val u, s') -> s' = s.
Proof. unfold memory_check_or_panic. intros H. inv_run H. by inv_spm. Qed.

Lemma memcpy_val dst src n s u s' : spm_memcpy dst src n s = (Val u, s') -> s'.(sp_conns) = s.(sp_conns).
Proof.
  unfold spm_memcpy. intros H. inv_run H. unfold read_bytes, write_bytes in *.
  destruct (mem_read _ _ _); [|done]. injection Hrun as <- <-.
  destruct (mem_write _ _ _); [|done]. by injection Hrun0 as <- <-.
Qed.

Lemma check_request_val c i s u s' : check_request c i s = (Val u, s') -> s' = s /\ i < PSA_MAX_IOVEC.
Proof. unfold check_request. intros H. inv_run H. split; [done|]. lia. Qed.

Lemma check_mm_request_val c i s u s' : check_mm_request c i s = (Val u, s') -> s' = s /\ i < PSA_MAX_IOVEC.
Proof.
  unfold check_mm_request. intros H. inv_run H. inv_spm.
  match goal with E : check_request _ _ _ = _ |- _ => by apply check_request_val in E end.
Qed.

(** The calls a service makes on a vector of a message. *)
Inductive vector_call :=
  | CallRead (buffer num_bytes : Z) | CallSkip (num_bytes : Z) | CallWrite (buffer num_bytes : Z)
  | CallMapInvec | CallUnmapInvec | CallMapOutvec | CallUnmapOutvec (len : Z).

Definition vector_of (o : vector_call) (idx : Z) : Z :=
  match o with
  | CallRead _ _ | CallSkip _ | CallMapInvec | CallUnmapInvec => idx + INVEC_IDX_BASE
  | _ => idx + OUTVEC_IDX_BASE
  end.

Definition run_vector_call (h idx : Z) (o : vector_call) : SPM unit :=
  match o with
  | CallRead b n => _ ← tfm_spm_partition_psa_read h idx b n; mret tt
  | CallSkip n => _ ← tfm_spm_partition_psa_skip h idx n; mret tt
  | CallWrite b n => _ ← tfm_spm_partition_psa_write h idx b n; mret tt
  | CallMapInvec => _ ← tfm_spm_partition_psa_map_invec h idx; mret tt
  | CallUnmapInvec => tfm_spm_partition_psa_unmap_invec h idx
  | CallMapOutvec => _ ← tfm_spm_partition_psa_map_outvec h idx; mret tt
  | CallUnmapOutvec len => tfm_spm_partition_psa_unmap_outvec h idx len
  end.

(** The protocol: a vector is either copied piecewise or mapped. *)
Inductive mode_step : vector_call -> vec_mode -> vec_mode -> Prop :=
  | step_read b n m : m = Untouched \/ m = Accessed -> mode_step (CallRead b n) m Accessed
  | step_skip n m : m = Untouched \/ m = Accessed -> mode_step (CallSkip n) m Accessed
  | step_write b n m : m = Untouched \/ m = Accessed -> mode_step (CallWrite b n) m Accessed
  | step_map_invec m : m = Untouched \/ m = Unmapped -> mode_step CallMapInvec m Mapped
  | step_map_outvec m : m = Untouched \/ m = Unmapped -> mode_step CallMapOutvec m Mapped
  | step_unmap_invec : mode_step CallUnmapInvec Mapped Unmapped
  | step_unmap_outvec len : mode_step (CallUnmapOutvec len) Mapped Unmapped.

(** What a call does to the vectors of connection [c]. *)
Definition moves (c j : Z) (P : vec_mode -> vec_mode -> Prop) (s s' : spm) : Prop :=
  exists cx cx', s.(sp_conns) !! c = Some cx /\ s'.(sp_conns) !! c = Some cx' /\
    (forall q, q <> c -> s'.(sp_conns) !! q = s.(sp_conns) !! q) /\
    (forall i, 0 <= i < 8 -> i <> j -> vec_mode_of cx' i = vec_mode_of cx i) /\
    forall m, vec_mode_of cx j = Some m -> exists m', vec_mode_of cx' j = Some m' /\ P m m'.

Lemma mode_status c c' i : c.(conn_iovec_status) = c'.(conn_iovec_status) -> vec_mode_of c i = vec_mode_of c' i.
Proof. intros H. unfold vec_mode_of, IOVEC_IS_MAPPED, IOVEC_IS_UNMAPPED, IOVEC_IS_ACCESSED, iovec_bit. by rewrite H. Qed.

(** Later changes of the connection that leave the status word alone do not matter. *)
Lemma moves_alter c j P s s1 s' g : moves c j P s s1 ->
  (forall x, (g x).(conn_iovec_status) = x.(conn_iovec_status)) ->
  s'.(sp_conns) = alter g c s1.(sp_conns) -> moves c j P s s'.
Proof.
  intros (cx & cx' & H1 & H2 & H3 & H4 & H5) Hg Hs. exists cx, (g cx').
  rewrite Hs. split; [done|]. split; [by rewrite lookup_alter_eq, H2|]. split; [|split].
  - intros q Hq. rewrite lookup_alter_ne by done. by apply H3.
  - intros i Hi Hne. rewrite <- H4 by done. by apply mode_status.
  - intros m Hm. destruct (H5 m Hm) as (m' & Hm' & HP). exists m'. split; [|done].
    rewrite <- Hm'. by apply mode_status.
Qed.

Lemma moves_same c j P s s1 s' : moves c j P s s1 -> s'.(sp_conns) = s1.(sp_conns) -> moves c j P s s'.
Proof.
  intros H Hs. eapply (moves_alter _ _ _ _ _ _ (fun x => x)); [done..|]. rewrite Hs. symmetry.
  apply map_eq. intros q. destruct (decide (q = c)) as [-> |]; [|by rewrite lookup_alter_ne].
  rewrite lookup_alter_eq. by destruct (_ !! _).
Qed.
Lemma vec_mode_cases c i m : vec_mode_of c i = Some m ->
  IOVEC_IS_MAPPED c i = bool_decide (m = Mapped) /\ IOVEC_IS_UNMAPPED c i = bool_decide (m = Unmapped) /\
  IOVEC_IS_ACCESSED c i = bool_decide (m = Accessed).
Proof.
  unfold vec_mode_of. destruct (IOVEC_IS_MAPPED c i), (IOVEC_IS_UNMAPPED c i), (IOVEC_IS_ACCESSED c i);
    intros [= <-]; done.
Qed.

Lemma vec_mode_of_bits c i m : IOVEC_IS_MAPPED c i = bool_decide (m = Mapped) ->
  IOVEC_IS_UNMAPPED c i = bool_decide (m = Unmapped) ->
  IOVEC_IS_ACCESSED c i = bool_decide (m = Accessed) -> vec_mode_of c i = Some m.
Proof. unfold vec_mode_of. intros -> -> ->. by destruct m. Qed.

(** The three changes of a status nibble. *)
Lemma moves_intro c j P s s' cx g : s.(sp_conns) !! c = Some cx ->
  s'.(sp_conns) = alter g c s.(sp_conns) ->
  (forall i, 0 <= i < 8 -> i <> j -> vec_mode_of (g cx) i = vec_mode_of cx i) ->
  (forall m, vec_mode_of cx j = Some m -> exists m', vec_mode_of (g cx) j = Some m' /\ P m m') ->
  moves c j P s s'.
Proof.
  intros Hc Hs Ho Hj. exists cx, (g cx). rewrite Hs, lookup_alter_eq, Hc. split_and!; try done.
  intros q Hq. by apply lookup_alter_ne.
Qed.

Lemma modes_same c c' i : IOVEC_IS_MAPPED c i = IOVEC_IS_MAPPED c' i ->
  IOVEC_IS_UNMAPPED c i = IOVEC_IS_UNMAPPED c' i -> IOVEC_IS_ACCESSED c i = IOVEC_IS_ACCESSED c' i ->
  vec_mode_of c i = vec_mode_of c' i.
Proof. unfold vec_mode_of. by intros -> -> ->. Qed.

Lemma accessed_move c j s s' cx : s.(sp_conns) !! c = Some cx -> 0 <= j < 8 ->
  IOVEC_IS_MAPPED cx j || IOVEC_IS_UNMAPPED cx j = false ->
  s'.(sp_conns) = alter (SET_IOVEC_ACCESSED j) c s.(sp_conns) ->
  moves c j (fun m m' => (m = Untouched \/ m = Accessed) /\ m' = Accessed) s s'.
Proof.
  intros Hc Hj Hno Hs. eapply moves_intro; [done|exact Hs|..].
  - intros i Hi Hne. destruct (set_accessed_modes cx j i Hj Hi) as (H1 & H2 & H3).
    apply modes_same; [done..|]. rewrite H3. destruct (Z.eqb_spec i j); [done|]. by rewrite orb_false_r.
  - intros m Hm. destruct (vec_mode_cases _ _ _ Hm) as (Em & Eu & Ea).
    destruct (set_accessed_modes cx j j Hj Hj) as (H1 & H2 & H3). rewrite Z.eqb_refl, orb_true_r in H3.
    rewrite Em, Eu in Hno. exists Accessed. split; [apply vec_mode_of_bits|by destruct m; auto].
    all: rewrite ?H1, ?H2, ?H3, ?Em, ?Eu; by destruct m.
Qed.

Lemma mapped_move c j s s' cx : s.(sp_conns) !! c = Some cx -> 0 <= j < 8 ->
  IOVEC_IS_MAPPED cx j = false -> IOVEC_IS_ACCESSED cx j = false ->
  s'.(sp_conns) = alter (SET_IOVEC_MAPPED j) c s.(sp_conns) ->
  moves c j (fun m m' => (m = Untouched \/ m = Unmapped) /\ m' = Mapped) s s'.
Proof.
  intros Hc Hj Hnm Hna Hs. eapply moves_intro; [done|exact Hs|..].
  - intros i Hi Hne. destruct (set_on_off_modes 0 1 cx j i ltac:(lia) eq_refl Hj Hi) as (H1 & H2 & H3).
    destruct (Z.eqb_spec i j); [done|]. rewrite orb_false_r in H1. rewrite andb_true_r in H2.
    by apply modes_same.
  - intros m Hm. destruct (vec_mode_cases _ _ _ Hm) as (Em & Eu & Ea).
    destruct (set_on_off_modes 0 1 cx j j ltac:(lia) eq_refl Hj Hj) as (H1 & H2 & H3).
    rewrite Z.eqb_refl in H1, H2. rewrite orb_true_r in H1. rewrite andb_false_r in H2.
    exists Mapped. split; [apply vec_mode_of_bits|].
    + exact H1.
    + exact H2.
    + etransitivity; [exact H3|]. exact Hna.
    + rewrite Hnm in Em. rewrite Hna in Ea. destruct m; try done; auto.
Qed.

Lemma unmapped_move c j s s' cx : s.(sp_conns) !! c = Some cx -> 0 <= j < 8 ->
  IOVEC_IS_MAPPED cx j = true ->
  s'.(sp_conns) = alter (SET_IOVEC_UNMAPPED j) c s.(sp_conns) ->
  moves c j (fun m m' => m = Mapped /\ m' = Unmapped) s s'.
Proof.
  intros Hc Hj Hm Hs. eapply moves_intro; [done|exact Hs|..].
  - intros i Hi Hne. destruct (set_on_off_modes 1 0 cx j i ltac:(lia) eq_refl Hj Hi) as (H1 & H2 & H3).
    destruct (Z.eqb_spec i j); [done|]. rewrite orb_false_r in H1. rewrite andb_true_r in H2.
    by apply modes_same.
  - intros m Hmo. destruct (vec_mode_cases _ _ _ Hmo) as (Em & Eu & Ea).
    destruct (set_on_off_modes 1 0 cx j j ltac:(lia) eq_refl Hj Hj) as (H1 & H2 & H3).
    rewrite Z.eqb_refl in H1, H2. rewrite orb_true_r in H1. rewrite andb_false_r in H2.
    rewrite Hm in Em. symmetry in Em. apply bool_decide_eq_true in Em as ->.
    exists Unmapped. split; [apply vec_mode_of_bits|done].
    + exact H2.
    + exact H1.
    + etransitivity; [exact H3|]. exact Ea.
Qed.

Lemma access_iovec_val c j s s' u : PSA_FRAMEWORK_HAS_MM_IOVEC = true -> 0 <= j < 8 ->
  access_iovec c j s = (Val u, s') ->
  moves c j (fun m m' => (m = Untouched \/ m = Accessed) /\ m' = Accessed) s s'.
Proof.
  intros HM Hj H. unfold access_iovec in H. rewrite HM in H. inv_run H. inv_spm.
  match goal with E : upd_conn _ _ _ = _ |- _ => apply upd_conn_val in E as (x & Hx & ->) end.
  eapply accessed_move; [|done|eassumption|reflexivity]. done.
Qed.

Lemma upd_conn_moves c j P s s1 s' u g : moves c j P s s1 -> upd_conn c g s1 = (Val u, s') ->
  (forall x, (g x).(conn_iovec_status) = x.(conn_iovec_status)) -> moves c j P s s'.
Proof.
  intros Hm H Hg. apply upd_conn_val in H as (x & _ & ->). by eapply moves_alter.
Qed.
End Modes.

(** Break the successful run of a service call: the guards become facts, the state
    is the one before the call until the first update. *)
Ltac inv_service := inv_spm; repeat (lazymatch goal with
  | H : message_of _ _ = (Val _, _) |- _ => apply message_of_val in H as ->
  | H : elem _ _ _ = (Val _, _) |- _ => let E := fresh "Eelem" in apply elem_val in H as (-> & E & ?)
  | H : memory_check_or_panic _ _ _ _ _ = (Val _, _) |- _ => apply memory_check_or_panic_val in H as ->
  | H : check_request _ _ _ = (Val _, _) |- _ => apply check_request_val in H as [-> ?]
  | H : check_mm_request _ _ _ = (Val _, _) |- _ => apply check_mm_request_val in H as [-> ?]
  end; inv_spm).

Section Protocol.
Context {cfg : SpmConfig}.

Abbreviation to_accessed := (fun m m' => (m = Untouched \/ m = Accessed) /\ m' = Accessed).
Abbreviation to_mapped := (fun m m' => (m = Untouched \/ m = Unmapped) /\ m' = Mapped).
Abbreviation to_unmapped := (fun m m' => m = Mapped /\ m' = Unmapped).

Lemma psa_read_moves h idx b n s s' r : PSA_FRAMEWORK_HAS_MM_IOVEC = true ->
  tfm_spm_partition_psa_read h idx b n s = (Val r, s') ->
  exists c, moves c (idx + INVEC_IDX_BASE) to_accessed s s'.
Proof.
  intros HM H. unfold tfm_spm_partition_psa_read in H. inv_run H. cbv zeta in *. inv_service.
  exists a. unfold INVEC_IDX_BASE, PSA_MAX_IOVEC in *. apply access_iovec_val in Hrun2; [|done|lia].
  destruct (_ =? 0); [by inv_run Hrun7|]. inv_run Hrun7. inv_service.
  eapply upd_conn_moves; [|eassumption|done]. eapply moves_same; [exact Hrun2|].
  by eapply memcpy_val.
Qed.

Lemma psa_skip_moves h idx n s s' r : PSA_FRAMEWORK_HAS_MM_IOVEC = true ->
  tfm_spm_partition_psa_skip h idx n s = (Val r, s') ->
  exists c, moves c (idx + INVEC_IDX_BASE) to_accessed s s'.
Proof.
  intros HM H. unfold tfm_spm_partition_psa_skip in H. inv_run H. cbv zeta in *. inv_service.
  exists a. unfold INVEC_IDX_BASE, PSA_MAX_IOVEC in *.
  match goal with E : access_iovec _ _ _ = _ |- _ => apply access_iovec_val in E; [|done|lia] end.
  match goal with E : (if _ =? 0 then _ else _) _ = _ |- _ =>
    destruct (_ =? 0); inv_run E; [done|] end.
  eapply upd_conn_moves; [eassumption|eassumption|done].
Qed.

Lemma psa_write_moves h idx b n s s' r : PSA_FRAMEWORK_HAS_MM_IOVEC = true ->
  tfm_spm_partition_psa_write h idx b n s = (Val r, s') ->
  exists c, moves c (idx + OUTVEC_IDX_BASE) to_accessed s s'.
Proof.
  intros HM H. unfold tfm_spm_partition_psa_write in H. inv_run H. cbv zeta in *. inv_service.
  exists a. unfold OUTVEC_IDX_BASE, PSA_MAX_IOVEC in *.
  match goal with E : access_iovec _ _ _ = _ |- _ => apply access_iovec_val in E; [|done|lia] end.
  eapply upd_conn_moves; [|eassumption|done]. eapply moves_same; [eassumption|].
  by eapply memcpy_val.
Qed.

Lemma map_invec_moves h idx s s' r : tfm_spm_partition_psa_map_invec h idx s = (Val r, s') ->
  exists c, moves c (idx + INVEC_IDX_BASE) to_mapped s s'.
Proof.
  intros H. unfold tfm_spm_partition_psa_map_invec in H. inv_run H. cbv zeta in *. inv_service.
  exists a. unfold INVEC_IDX_BASE, PSA_MAX_IOVEC in *.
  match goal with E : upd_conn _ _ _ = _ |- _ => apply upd_conn_val in E as (x & Hx & ->) end.
  eapply mapped_move; [|lia|eassumption|eassumption|reflexivity]; eassumption.
Qed.

Lemma map_outvec_moves h idx s s' r : tfm_spm_partition_psa_map_outvec h idx s = (Val r, s') ->
  exists c, moves c (idx + OUTVEC_IDX_BASE) to_mapped s s'.
Proof.
  intros H. unfold tfm_spm_partition_psa_map_outvec in H. inv_run H. cbv zeta in *. inv_service.
  exists a. unfold OUTVEC_IDX_BASE, PSA_MAX_IOVEC in *.
  match goal with E : upd_conn _ _ _ = _ |- _ => apply upd_conn_val in E as (x & Hx & ->) end.
  eapply mapped_move; [|lia|eassumption|eassumption|reflexivity]; eassumption.
Qed.

Lemma unmap_invec_moves h idx s s' r : 0 <= idx ->
  tfm_spm_partition_psa_unmap_invec h idx s = (Val r, s') ->
  exists c, moves c (idx + INVEC_IDX_BASE) to_unmapped s s'.
Proof.
  intros Hi H. unfold tfm_spm_partition_psa_unmap_invec in H. cbv zeta in H. inv_run H. inv_service.
  exists a. unfold INVEC_IDX_BASE, PSA_MAX_IOVEC in *.
  match goal with E : upd_conn _ _ _ = _ |- _ => apply upd_conn_val in E as (x & Hx & ->) end.
  eapply unmapped_move; [|lia|by apply negb_false_iff|reflexivity]; eassumption.
Qed.

Lemma unmap_outvec_moves h idx len s s' r : 
  tfm_spm_partition_psa_unmap_outvec h idx len s = (Val r, s') ->
  exists c, moves c (idx + OUTVEC_IDX_BASE) to_unmapped s s'.
Proof.
  intros H. unfold tfm_spm_partition_psa_unmap_outvec in H. cbv zeta in H. inv_run H. inv_service.
  exists a. unfold OUTVEC_IDX_BASE, PSA_MAX_IOVEC in *.
  eapply upd_conn_moves; [|eassumption|done].
  match goal with E : upd_conn _ (SET_IOVEC_UNMAPPED _) _ = _ |- _ =>
    apply upd_conn_val in E as (x & Hx & ->) end.
  eapply unmapped_move; [|lia|by apply negb_false_iff|reflexivity]; eassumption.
Qed.

Lemma moves_impl c j (P Q : vec_mode -> vec_mode -> Prop) s s' : moves c j P s s' ->
  (forall m m', P m m' -> Q m m') -> moves c j Q s s'.
Proof.
  intros (cx & cx' & H1 & H2 & H3 & H4 & H5) HPQ. exists cx, cx'. split_and!; try done.
  intros m Hm. destruct (H5 m Hm) as (m' & H & HP). eauto.
Qed.

(** C34: The two ways of reaching a vector exclude each other.  Whatever call a
    service makes on a vector of its message, if it returns, then that vector moved
    along the protocol -- copying only from untouched or already copied vectors,
    mapping only untouched or released ones, releasing only mapped ones -- and
    every other vector of the connection, and every other connection, is in the
    mode it was in.  So a vector is never both mapped and copied, and the second
    check of the unmapping functions, that the vector is not released yet, never
    decides. *)
Theorem vector_protocol h idx o s s' u : PSA_FRAMEWORK_HAS_MM_IOVEC = true -> 0 <= idx ->
  run_vector_call h idx o s = (Val u, s') ->
  exists c, moves c (vector_of o idx) (mode_step o) s s'.
Proof.
  intros HM Hi H. destruct o; cbn [run_vector_call vector_of] in *; try (inv_run H).
  - apply psa_read_moves in Hrun as (c & Hc); [|done]. exists c. eapply moves_impl; [exact Hc|].
    intros m m' [Hm ->]. by constructor.
  - apply psa_skip_moves in Hrun as (c & Hc); [|done]. exists c. eapply moves_impl; [exact Hc|].
    intros m m' [Hm ->]. by constructor.
  - apply psa_write_moves in Hrun as (c & Hc); [|done]. exists c. eapply moves_impl; [exact Hc|].
    intros m m' [Hm ->]. by constructor.
  - apply map_invec_moves in Hrun as (c & Hc). exists c. eapply moves_impl; [exact Hc|].
    intros m m' [Hm ->]. by constructor.
  - apply unmap_invec_moves in H as (c & Hc); [|done]. exists c. eapply moves_impl; [exact Hc|].
    intros m m' [-> ->]. by constructor.
  - apply map_outvec_moves in Hrun as (c & Hc). exists c. eapply moves_impl; [exact Hc|].
    intros m m' [Hm ->]. by constructor.
  - apply unmap_outvec_moves in H as (c & Hc). exists c. eapply moves_impl; [exact Hc|].
    intros m m' [-> ->]. by constructor.
Qed.
End Protocol.

(** ** The reply's report of the output lengths *)

Section Reply.
Context {cfg : SpmConfig}.

(** The length a reply reports for output vector [i], of which [w] bytes were
    written. *)
Definition reported (c : connection_t) (i w : Z) : Z :=
  if PSA_FRAMEWORK_HAS_MM_IOVEC && negb (IOVEC_IS_UNMAPPED c (i + OUTVEC_IDX_BASE)) &&
     negb (IOVEC_IS_ACCESSED c (i + OUTVEC_IDX_BASE)) then 0 else w.

(** The connection while the first [j] vectors are done. *)
Definition cleared (cx : connection_t) (j : Z) (c : connection_t) : Prop :=
  exists ws, c = set_conn_outvec_written ws cx /\
    forall i w, 0 <= i -> cx.(conn_outvec_written) !! Z.to_nat i = Some w ->
      ws !! Z.to_nat i = Some (if i <? j then reported cx i w else w).

Lemma set_conn_outvec_written_id cx : set_conn_outvec_written cx.(conn_outvec_written) cx = cx.
Proof. by destruct cx. Qed.

Lemma cleared_step cx j c : PSA_FRAMEWORK_HAS_MM_IOVEC = true -> 0 <= j -> cleared cx j c ->
  cleared cx (j + 1) (set_conn_outvec_written (clear_unreported c j) c).
Proof.
  intros HM Hj (ws & -> & Hws). eexists. split; [reflexivity|]. intros i w Hi Hw.
  specialize (Hws i w Hi Hw). unfold clear_unreported.
  change (IOVEC_IS_UNMAPPED (set_conn_outvec_written ws cx)) with (IOVEC_IS_UNMAPPED cx).
  change (IOVEC_IS_ACCESSED (set_conn_outvec_written ws cx)) with (IOVEC_IS_ACCESSED cx).
  cbn [conn_outvec_written set_conn_outvec_written]. unfold set_elem, reported in *.
  rewrite HM in *. cbn [andb] in *.
  destruct (negb (IOVEC_IS_UNMAPPED cx (j + OUTVEC_IDX_BASE)) &&
            negb (IOVEC_IS_ACCESSED cx (j + OUTVEC_IDX_BASE))) eqn:E.
  - destruct (decide (i = j)) as [-> |].
    + rewrite list_lookup_insert_eq by (apply lookup_lt_is_Some; eauto).
      destruct (Z.ltb_spec j (j + 1)); [|lia]. by rewrite E.
    + rewrite list_lookup_insert_ne by lia. rewrite Hws.
      destruct (Z.ltb_spec i j), (Z.ltb_spec i (j + 1)); try lia; done.
  - rewrite Hws. destruct (Z.ltb_spec i j), (Z.ltb_spec i (j + 1)); try lia; try done.
    assert (i = j) as -> by lia. by rewrite E.
Qed.

Definition clearing (s : spm) (c : Z) (cx : connection_t) (j : Z) (s1 : spm) : Prop :=
  exists cx1, cleared cx j cx1 /\ s1 = set_sp_conns (<[c := cx1]> s.(sp_conns)) s.

Lemma clear_loop s c cx : s.(sp_conns) !! c = Some cx ->
  exists s1, (if PSA_FRAMEWORK_HAS_MM_IOVEC then
         _ ← for_range OUTVEC_IDX_BASE (PSA_MAX_IOVEC * 2) (fun i =>
           _ ← upd_conn c (fun c =>
                 set_conn_outvec_written (clear_unreported c (i - OUTVEC_IDX_BASE)) c);
           mret (A := option unit) None);
         mret tt
       else mret tt) s = (Val tt, s1) /\ clearing s c cx PSA_MAX_IOVEC s1.
Proof.
  intros Hc. assert (clearing s c cx 0 s) as H0.
  { exists cx. split.
    - exists cx.(conn_outvec_written). split; [by rewrite set_conn_outvec_written_id|].
      intros i w Hi Hw. by destruct (Z.ltb_spec i 0); [lia|].
    - rewrite insert_id by done. by destruct s. }
  destruct PSA_FRAMEWORK_HAS_MM_IOVEC eqn:HM.
  - unfold OUTVEC_IDX_BASE, PSA_MAX_IOVEC in *.
    pose proof (fun H => for_range_leads (A := unit) (fun i => clearing s c cx (i - 4)) 4 8
      (fun i => _ ← upd_conn c (fun c => set_conn_outvec_written (clear_unreported c (i - 4)) c);
                mret None) ltac:(lia) H s H0) as Hloop.
    destruct Hloop as (s1 & H1 & HP); [|exists s1; split; [by rewrite (bind_val _ _ _ _ _ H1)|exact HP]].
    intros i s1 Hi (cx1 & Hcl & ->). eexists. split.
    { erewrite bind_val by (apply (upd_conn_run c cx1); apply lookup_insert_eq). reflexivity. }
    exists (set_conn_outvec_written (clear_unreported cx1 (i - 4)) cx1). split.
    { replace (i + 1 - 4) with (i - 4 + 1) by lia. apply cleared_step; [done|lia|done]. }
    cbn [sp_conns set_sp_conns]. by rewrite alter_insert_eq.
  - exists s. split; [done|]. destruct H0 as (cx1 & (ws & -> & Hws) & Hs). 
    exists (set_conn_outvec_written ws cx). split; [|done]. exists ws. split; [done|].
    intros i w Hi Hw. rewrite (Hws i w Hi Hw). unfold reported. rewrite HM. cbn [andb].
    by destruct (i <? 0), (i <? PSA_MAX_IOVEC).
Qed.
(** What the client's array of output vectors looks like to the reply: the vectors
    with a size are mapped and still describe the buffers the call recorded. *)
Definition caller_array_ok (m : gmap Z Z) (cx : connection_t) : Prop :=
  length cx.(conn_msg).(msg_out_size) = 4%nat /\ length cx.(conn_outvec_base) = 4%nat /\
  length cx.(conn_outvec_written) = 4%nat /\
  forall i sz b, 0 <= i < PSA_MAX_IOVEC -> cx.(conn_msg).(msg_out_size) !! Z.to_nat i = Some sz ->
    sz <> 0 -> cx.(conn_outvec_base) !! Z.to_nat i = Some b ->
    let v := cx.(conn_caller_outvec) + sizeof_psa_vec * i in
    mem_read m v 4 = Some (le32 b) /\ of_le32 (le32 b) = b /\ is_Some (mem_read m (v + 4) 4).

(** The memory once the vectors before [j] are reported. *)
Definition reported_below (m : gmap Z Z) (cx : connection_t) (j : Z) (m' : gmap Z Z) : Prop :=
  let v i := cx.(conn_caller_outvec) + sizeof_psa_vec * i in
  (forall i sz w, 0 <= i < j -> cx.(conn_msg).(msg_out_size) !! Z.to_nat i = Some sz -> sz <> 0 ->
     cx.(conn_outvec_written) !! Z.to_nat i = Some w ->
     mem_read m' (v i + 4) 4 = Some (le32 (reported cx i w))) /\
  (forall q, (forall i, 0 <= i < j -> cx.(conn_msg).(msg_out_size) !! Z.to_nat i <> Some 0 ->
     q < v i + 4 \/ v i + 8 <= q) -> m' !! q = m !! q).

Lemma reported_skip m cx j m' : cx.(conn_msg).(msg_out_size) !! Z.to_nat j = Some 0 -> 0 <= j ->
  reported_below m cx j m' -> reported_below m cx (j + 1) m'.
Proof.
  intros H0 Hj [H1 H2]. split.
  - intros i sz w Hi Hs Hne Hw. destruct (decide (i = j)) as [-> |]; [congruence|].
    eapply H1; [lia|eassumption..].
  - intros q Hq. apply H2. intros i Hi. apply Hq. lia.
Qed.

Lemma reported_write m cx j m1 m2 w sz : 0 <= j ->
  cx.(conn_msg).(msg_out_size) !! Z.to_nat j = Some sz -> sz <> 0 ->
  cx.(conn_outvec_written) !! Z.to_nat j = Some w -> reported_below m cx j m1 ->
  let p := cx.(conn_caller_outvec) + sizeof_psa_vec * j + 4 in
  mem_read m2 p 4 = Some (le32 (reported cx j w)) ->
  (forall q, q < p \/ p + 4 <= q -> m2 !! q = m1 !! q) -> reported_below m cx (j + 1) m2.
Proof.
  intros Hj Hs Hsz Hw [H1 H2] p Hr Ho. subst p. split; unfold sizeof_psa_vec in *.
  - intros i sz' w' Hi Hs' Hne Hw'. destruct (decide (i = j)) as [-> |]; [by simplify_eq|].
    rewrite (mem_read_frame m1) by (intros q Hq; apply Ho; lia).
    eapply H1; [lia|eassumption..].
  - intros q Hq. rewrite Ho.
    + apply H2. intros i Hi. apply Hq. lia.
    + destruct (Hq j ltac:(lia) ltac:(congruence)); lia.
Qed.

(** The lengths a reply reports.  [update_caller_outvec_len] runs to completion
    and leaves, in the client's own array, for every output vector that has a
    buffer exactly the number of bytes the service produced: 0 for a vector that
    was neither written nor released, and what was written or declared on release
    otherwise.  No other byte of memory changes: the bases stay, vectors without a
    buffer stay. *)
Theorem reply_reports_lengths s c cx : s.(sp_conns) !! c = Some cx ->
  caller_array_ok s.(sp_mem) cx ->
  exists s', update_caller_outvec_len c s = (Val tt, s') /\
    reported_below s.(sp_mem) cx PSA_MAX_IOVEC s'.(sp_mem).
Proof.
  intros Hc (Hl1 & Hl2 & Hl3 & Hok). unfold update_caller_outvec_len.
  destruct (clear_loop s c cx Hc) as (s1 & H1 & cx1 & (ws & -> & Hws) & ->).
  rewrite (bind_val _ _ _ _ _ H1). clear H1.
  match goal with |- context [for_range 0 PSA_MAX_IOVEC ?b] => set (body := b) end.
  set (s1 := set_sp_conns _ s).
  assert (exists s', for_range 0 PSA_MAX_IOVEC body s1 = (Val None, s') /\
    exists m, s' = set_sp_mem m s1 /\ reported_below s.(sp_mem) cx PSA_MAX_IOVEC m) as (s' & Hrun & m & -> & HP).
  { apply (for_range_leads (fun j s' => exists m, s' = set_sp_mem m s1 /\
      reported_below s.(sp_mem) cx j m)); [done| |exists s.(sp_mem); split; [by destruct s|split; [lia|done]]].
    intros j s2 Hj (m & -> & HP). unfold PSA_MAX_IOVEC in *.
    destruct (lookup_lt_is_Some_2 (cx.(conn_msg).(msg_out_size)) (Z.to_nat j) ltac:(lia)) as [sz Hsz].
    destruct (lookup_lt_is_Some_2 (cx.(conn_outvec_base)) (Z.to_nat j) ltac:(lia)) as [b Hb].
    destruct (lookup_lt_is_Some_2 (cx.(conn_outvec_written)) (Z.to_nat j) ltac:(lia)) as [w Hw].
    unfold body, get_conn.
    rewrite (bind_deref sp_conns c (set_conn_outvec_written ws cx)) by (cbn; apply lookup_insert_eq).
    cbn [conn_msg conn_outvec_base conn_outvec_written conn_caller_outvec set_conn_outvec_written].
    rewrite (bind_val _ _ _ _ _ (elem_run _ j _ _ ltac:(lia) Hsz)). cbv zeta.
    destruct (Z.eqb_spec sz 0) as [-> |Hne].
    { eexists. split; [reflexivity|]. exists m. split; [done|]. by apply reported_skip; [|lia|]. }
    rewrite (bind_val _ _ _ _ _ (elem_run _ j _ _ ltac:(lia) Hb)).
    destruct (Hok j sz b ltac:(unfold PSA_MAX_IOVEC; lia) Hsz Hne Hb) as (Hbase & Hbb & Hlen).
    assert (forall q, cx.(conn_caller_outvec) + sizeof_psa_vec * j <= q < cx.(conn_caller_outvec) + sizeof_psa_vec * j + 8
            -> m !! q = s.(sp_mem) !! q) as Hq.
    { intros q Hq. apply (proj2 HP). intros i Hi _. unfold sizeof_psa_vec in *. lia. }
    rewrite (bind_val _ _ (set_sp_mem m s1) tt (set_sp_mem m s1)).
    2: { unfold c_assert. destruct debug; [|done].
      rewrite (bind_val _ _ _ true (set_sp_mem m s1)); [done|].
      rewrite (bind_val _ _ _ (le32 b) (set_sp_mem m s1)); [by rewrite Hbb, Z.eqb_refl|].
      unfold read_bytes. cbn [sp_mem set_sp_mem].
      rewrite (mem_read_frame s.(sp_mem)) by (intros q ?; apply Hq; lia).
      change (Z.to_nat 4) with 4%nat. by rewrite Hbase. }
    rewrite (bind_val _ _ _ _ _ (elem_run _ j _ (set_sp_mem m s1) ltac:(lia) (Hws j w ltac:(lia) Hw))).
    destruct (Z.ltb_spec j 4); [|lia].
    destruct (mem_write_ok m (cx.(conn_caller_outvec) + sizeof_psa_vec * j + 4) (le32 (reported cx j w)))
      as (m' & Hmw & Hrd & Ho & _).
    { change (length (le32 (reported cx j w))) with 4%nat. 
      rewrite (mem_read_frame s.(sp_mem)) by (intros q ?; apply Hq; lia). done. }
    eexists. split.
    { erewrite bind_val by (unfold write_bytes; cbn [sp_mem set_sp_mem]; by rewrite Hmw). reflexivity. }
    exists m'. split; [done|]. eapply reported_write; [lia|eassumption..]. }
  exists (set_sp_mem m s1). split; [by rewrite (bind_val _ _ _ _ _ Hrun)|done].
Qed.
End Reply.

(** ** Witnesses *)

#[local] Existing Instance sample_cfg.

(** The server works on a message with an input vector of 7 bytes at 20000 and an
    output vector of 8 bytes at 30000, of a service that may map vectors. *)
Definition sample_message : connection_t :=
  set_conn_msg {| msg_type := 5; msg_handle := 417; msg_client_id := 1; msg_rhandle := 0;
                  msg_in_size := [7; 0; 0; 0]; msg_out_size := [8; 0; 0; 0] |}
    (set_conn_invec_base [20000; 0; 0; 0] (set_conn_outvec_base [30000; 0; 0; 0]
      (set_conn_caller_outvec 9100 (sample_conn 1 1000 5200 0)))).
Definition sample_service_state : spm :=
  set_sp_current 2000 (set_sp_conns (<[116 := sample_message]> ∅)
    (set_sp_servs (<[5200 := sample_serv 0x22 (2 ^ 16 + 4096 + 2048) 1 0x40 2000 0]> ∅) sample_client_state)).

Lemma sample_message_ok : message sample_service_state 417 116.
Proof.
  split; [by vm_compute|]. split; [by vm_compute|]. split; [done|].
  exists sample_message, (sample_serv 0x22 (2 ^ 16 + 4096 + 2048) 1 0x40 2000 0),
    (sample_part 2 512 [] 0x30 0 0 0 3000), (sample_part 2 512 [] 0x30 0 0 0 3000).
  split_and!; [by vm_compute..|done|by vm_compute|done].
Qed.

Lemma sample_reading : reading sample_service_state 417 116 0 20000 7 0.
Proof.
  split; [exact sample_message_ok|]. split; [lia|]. split; [unfold is_u32; lia|]. split; [done|].
  exists sample_message. split_and!; by vm_compute.
Qed.

Lemma sample_buffer b n : (b, n) ∈ [(40000, 3); (40003, 2); (40000, 5)] -> buffer_ok sample_service_state b n.
Proof.
  intros H. apply list_elem_of_In in H. cbn in H.
  destruct H as [[= <- <-]|[[= <- <-]|[[= <- <-]|[]]]];
    (split; [lia|split; [vm_compute; eexists; reflexivity|]]);
    exists (sample_part 2 512 [] 0x30 0 0 0 3000); split; by vm_compute.
Qed.

(** Three reads of 3, 2 and 5 bytes yield the seven bytes of the vector. *)
Lemma psa_read_stream_witness :
  exists pieces s', read_chunks 417 0 [(40000, 3); (40003, 2); (40000, 5)] sample_service_state
      = (Val pieces, s') /\ concat pieces = [10; 11; 12; 13; 14; 15; 16].
Proof.
  destruct (psa_read_stream sample_service_state 417 116 0 20000 7 0 [10; 11; 12; 13; 14; 15; 16]
              [(40000, 3); (40003, 2); (40000, 5)] sample_reading ltac:(vm_compute; reflexivity))
    as (pieces & s' & Hrun & Hcat & _).
  { apply Forall_forall. intros [b n] H. split; [by apply sample_buffer|].
    apply list_elem_of_In in H. cbn in H.
    destruct H as [[= <- <-]|[[= <- <-]|[[= <- <-]|[]]]]; cbn; lia. }
  exists pieces, s'. split; [exact Hrun|]. rewrite Hcat. reflexivity.
Defined.

Lemma sample_writing : writing sample_service_state 417 116 0 30000 8 0.
Proof.
  split; [exact sample_message_ok|]. split; [lia|]. split; [unfold is_u32; lia|]. split; [done|].
  exists sample_message. split_and!; by vm_compute.
Qed.

Lemma psa_write_appends_witness :
  exists s', tfm_spm_partition_psa_write 417 0 40000 3 sample_service_state = (Val PSA_SUCCESS, s') /\
    mem_read s'.(sp_mem) 30000 8 = Some [0xA; 0xB; 0xC; 0; 0; 0; 0; 0].
Proof.
  destruct (psa_write_appends sample_service_state 417 116 0 30000 8 0
              (sample_part 2 512 [] 0x30 0 0 0 3000) 40000 3 [0xA; 0xB; 0xC] [0; 0; 0; 0; 0; 0; 0; 0]
              sample_writing ltac:(unfold is_u32; lia) ltac:(by vm_compute) ltac:(by vm_compute)
              ltac:(by vm_compute) ltac:(by vm_compute)) as (s' & Hrun & Hmem & _).
  exists s'. split; [exact Hrun|]. exact Hmem.
Defined.

Lemma vector_protocol_witness :
  exists u s' c, run_vector_call 417 0 CallMapInvec sample_service_state = (Val u, s') /\
    moves c 0 (mode_step CallMapInvec) sample_service_state s'.
Proof.
  destruct (run_vector_call 417 0 CallMapInvec sample_service_state) as [[u|e|h] s'] eqn:E;
    [|exfalso; apply (f_equal fst) in E; vm_compute in E; discriminate..].
  destruct (vector_protocol (cfg := sample_cfg) 417 0 CallMapInvec sample_service_state s' u ltac:(reflexivity) ltac:(lia) E) as (c & Hc).
  exact (ex_intro _ u (ex_intro _ s' (ex_intro _ c (conj eq_refl Hc)))).
Defined.

(** The service produced nothing: the reply reports a length of 0. *)
Lemma reply_reports_lengths_witness :
  exists s', update_caller_outvec_len 116 sample_service_state = (Val tt, s') /\
    mem_read s'.(sp_mem) 9104 4 = Some [0; 0; 0; 0].
Proof.
  destruct (reply_reports_lengths sample_service_state 116 sample_message ltac:(by vm_compute))
    as (s' & Hrun & Hrep & _).
  { split_and!; [done..|]. intros i sz b Hi Hsz Hne Hb. unfold PSA_MAX_IOVEC in *.
    assert (i = 0 \/ i = 1 \/ i = 2 \/ i = 3) as [-> |[-> |[-> | ->]]] by lia;
      vm_compute in Hsz; injection Hsz as <-; try done.
    vm_compute in Hb. injection Hb as <-. vm_compute. split; [done|]. split; [done|].
    eexists. reflexivity. }
  exists s'. split; [exact Hrun|].
  exact (Hrep 0 8 0 ltac:(done) ltac:(by vm_compute) ltac:(done) ltac:(by vm_compute)).
Defined.
