(* ===== verification/PsTypes.v ===== *)
(** Protected Storage: the structures and the environment.

    The structures of [ps_object_table.c], [ps_object_defs.h] and
    [crypto/ps_crypto_interface.h] with their layout in memory and on storage, and
    the services the partition calls: Internal Trusted Storage, the NV counters of
    the platform, PSA Crypto and the SPM.  Those are parameters ([PsEnv]).

    The builds without a key usage limit and without format transition. *)

From stdpp Require Import base list numbers.
From S2P Require Import Prelude.

Definition PSA_STORAGE_FLAG_NONE : Z := 0.
Definition PS_WRITE_ONCE : Z := 1.
Definition PS_STORAGE_FLAGS : Z := Z.lor (Z.lor 1 2) 4.

Definition TFM_PS_INVALID_UID : Z := 0.
Definition PS_INVALID_FID : Z := 0.
Definition PS_DEFAULT_EMPTY_BUFF_VAL : Z := 0.
Definition PS_FLASH_DEFAULT_VAL : Z := 0xFF.
Definition PS_OBJECT_SYSTEM_VERSION : Z := 1.
Definition PS_TAG_LEN_BYTES : Z := 16.
Definition PS_IV_LEN_BYTES : Z := 12.
Definition PS_OBJ_TABLE_UID : Z := 0x4ee143e1df40bd00.
Definition PS_OBJ_TABLE_IDX_0 : Z := 0.
Definition PS_OBJ_TABLE_IDX_1 : Z := 1.
Definition PS_INVALID_NVC_VALUE : Z := 0.
Definition TFM_PS_NV_COUNTER_1 : Z := 0.
Definition TFM_PS_NV_COUNTER_2 : Z := 1.
Definition TFM_PS_NV_COUNTER_3 : Z := 2.

(** The build. *)
Class PsBuild := {
  PS_ENCRYPTION : bool;
  PS_ROLLBACK_PROTECTION : bool;
  PS_CREATE_FLASH_LAYOUT : bool;
  PS_NUM_ASSETS : Z;
  PS_MAX_ASSET_SIZE : Z;
  TFM_SP_PS : Z;                  (* the partition's own client ID *)
}.

(** ** The structures *)

Record ps_crypto_t := {
  cr_tag : bytes;
  cr_uid : Z;
  cr_client_id : Z;
  cr_iv : bytes;
}.

(** An entry has a tag in a build with encryption and a version in one without;
    [en_pad] are the padding bytes of the structure. *)
Record ps_obj_table_entry_t := {
  en_tag : bytes;
  en_version : Z;
  en_uid : Z;
  en_client_id : Z;
  en_pad : bytes;
}.

Record ps_obj_table_t := {
  tb_crypto : ps_crypto_t;
  tb_version : Z;
  tb_swap_count : Z;             (* without rollback protection *)
  tb_pad : bytes;
  tb_obj_db : list ps_obj_table_entry_t;
}.

(** [fid] of [tag]: the tag of [g_obj_tbl_info] is a pointer to the tag in
    [g_ps_object]; the value here is what it points to. *)
Record ps_obj_table_info_t := {
  ti_fid : Z;
  ti_tag : bytes;
  ti_version : Z;
}.

(** [ob_body] is the memory from [header.info] to the end of [data]: the object is
    encrypted and decrypted there in place. *)
Record ps_object_t := {
  ob_crypto : ps_crypto_t;
  ob_version : Z;
  ob_fid : Z;
  ob_body : bytes;
}.

Record psa_storage_info_t := {
  st_capacity : Z;
  st_size : Z;
  st_flags : Z;
}.

Definition zeros (n : Z) : bytes := replicate (Z.to_nat n) PS_DEFAULT_EMPTY_BUFF_VAL.

Section Layout.
Context `{PsBuild}.

Definition PS_OBJ_TABLE_ENTRIES : Z := PS_NUM_ASSETS + 1.
Definition PS_OBJECTS_TABLE_ENTRY_SIZE : Z := if PS_ENCRYPTION then 32 else 24.
Definition sizeof_crypto : Z := 40.
Definition table_pad_size : Z := if PS_ROLLBACK_PROTECTION then 7 else 6.
Definition entry_pad_size : Z := if PS_ENCRYPTION then 4 else 8.
Definition PS_OBJ_TABLE_SIZE : Z :=
  (if PS_ENCRYPTION then sizeof_crypto else 0) + 8 +
  PS_OBJ_TABLE_ENTRIES * PS_OBJECTS_TABLE_ENTRY_SIZE.

Definition PS_TABLE_FS_ID (idx : Z) : Z := idx + 1.
Definition PS_OBJECT_FS_ID (idx : Z) : Z := (idx + 1) + PS_TABLE_FS_ID PS_OBJ_TABLE_IDX_1.

Definition crypto_bytes (c : ps_crypto_t) : bytes :=
  c.(cr_tag) ++ le64 c.(cr_uid) ++ le32 c.(cr_client_id) ++ c.(cr_iv).
Definition crypto_of (l : bytes) : ps_crypto_t :=
  {| cr_tag := slice l 0 16; cr_uid := of_le64 (drop 16 l);
     cr_client_id := s32 (of_le32 (drop 24 l)); cr_iv := slice l 28 12 |}.

Definition entry_bytes (e : ps_obj_table_entry_t) : bytes :=
  if PS_ENCRYPTION then e.(en_tag) ++ le64 e.(en_uid) ++ le32 e.(en_client_id) ++ e.(en_pad)
  else le32 e.(en_version) ++ take 4 e.(en_pad) ++ le64 e.(en_uid) ++ le32 e.(en_client_id) ++
       drop 4 e.(en_pad).
Definition entry_of (l : bytes) : ps_obj_table_entry_t :=
  if PS_ENCRYPTION then
    {| en_tag := slice l 0 16; en_version := 0; en_uid := of_le64 (drop 16 l);
       en_client_id := s32 (of_le32 (drop 24 l)); en_pad := slice l 28 4 |}
  else
    {| en_tag := []; en_version := of_le32 l; en_uid := of_le64 (drop 8 l);
       en_client_id := s32 (of_le32 (drop 16 l)); en_pad := slice l 4 4 ++ slice l 20 4 |}.

(** The table without its crypto data: what the tag covers. *)
Definition auth_bytes (t : ps_obj_table_t) : bytes :=
  t.(tb_version) :: (if PS_ROLLBACK_PROTECTION then [] else [t.(tb_swap_count)]) ++
  t.(tb_pad) ++ concat (entry_bytes <$> t.(tb_obj_db)).
Definition table_bytes (t : ps_obj_table_t) : bytes :=
  (if PS_ENCRYPTION then crypto_bytes t.(tb_crypto) else []) ++ auth_bytes t.

Fixpoint entries_of (n : nat) (l : bytes) : list ps_obj_table_entry_t :=
  match n with
  | O => []
  | S n' => entry_of l :: entries_of n' (drop (Z.to_nat PS_OBJECTS_TABLE_ENTRY_SIZE) l)
  end.
Definition table_of (l : bytes) : ps_obj_table_t :=
  let a := if PS_ENCRYPTION then drop (Z.to_nat sizeof_crypto) l else l in
  {| tb_crypto := if PS_ENCRYPTION then crypto_of l
                  else {| cr_tag := []; cr_uid := 0; cr_client_id := 0; cr_iv := [] |};
     tb_version := nth 0 a 0;
     tb_swap_count := if PS_ROLLBACK_PROTECTION then 0 else nth 1 a 0;
     tb_pad := slice a (8 - Z.to_nat table_pad_size) (Z.to_nat table_pad_size);
     tb_obj_db := entries_of (Z.to_nat PS_OBJ_TABLE_ENTRIES) (drop 8 a) |}.

(** [memset] to [PS_DEFAULT_EMPTY_BUFF_VAL]. *)
Definition zero_crypto : ps_crypto_t :=
  {| cr_tag := zeros 16; cr_uid := 0; cr_client_id := 0; cr_iv := zeros 12 |}.
Definition no_crypto : ps_crypto_t := {| cr_tag := []; cr_uid := 0; cr_client_id := 0; cr_iv := [] |}.
Definition empty_entry : ps_obj_table_entry_t :=
  {| en_tag := if PS_ENCRYPTION then zeros 16 else []; en_version := 0; en_uid := 0;
     en_client_id := 0; en_pad := zeros entry_pad_size |}.
Definition zero_table : ps_obj_table_t :=
  {| tb_crypto := if PS_ENCRYPTION then zero_crypto else no_crypto; tb_version := 0;
     tb_swap_count := 0; tb_pad := zeros table_pad_size;
     tb_obj_db := replicate (Z.to_nat PS_OBJ_TABLE_ENTRIES) empty_entry |}.

(** ** The object *)

Definition PS_OBJECT_BUF_SIZE : Z := PS_MAX_ASSET_SIZE + (if PS_ENCRYPTION then PS_TAG_LEN_BYTES else 0).
Definition sizeof_info : Z := 12.
Definition PS_OBJECT_HEADER_SIZE : Z := if PS_ENCRYPTION then sizeof_crypto + sizeof_info else 20.
Definition zero_object : ps_object_t :=
  {| ob_crypto := if PS_ENCRYPTION then zero_crypto else no_crypto; ob_version := 0; ob_fid := 0;
     ob_body := zeros (sizeof_info + PS_OBJECT_BUF_SIZE) |}.
End Layout.

Definition current_size (o : ps_object_t) : Z := of_le32 o.(ob_body).
Definition max_size (o : ps_object_t) : Z := of_le32 (drop 4 o.(ob_body)).
Definition create_flags (o : ps_object_t) : Z := of_le32 (drop 8 o.(ob_body)).
Definition object_data (o : ps_object_t) : bytes := drop 12 o.(ob_body).

Definition set_ob_body (l : bytes) (o : ps_object_t) : ps_object_t :=
  {| ob_crypto := o.(ob_crypto); ob_version := o.(ob_version); ob_fid := o.(ob_fid); ob_body := l |}.
Definition set_ob_crypto (c : ps_crypto_t) (o : ps_object_t) : ps_object_t :=
  {| ob_crypto := c; ob_version := o.(ob_version); ob_fid := o.(ob_fid); ob_body := o.(ob_body) |}.
Definition set_ob_version_fid (v f : Z) (o : ps_object_t) : ps_object_t :=
  {| ob_crypto := o.(ob_crypto); ob_version := v; ob_fid := f; ob_body := o.(ob_body) |}.
Definition set_current_size (v : Z) (o : ps_object_t) : ps_object_t :=
  set_ob_body (splice o.(ob_body) 0 (le32 v)) o.
Definition set_max_size (v : Z) (o : ps_object_t) : ps_object_t :=
  set_ob_body (splice o.(ob_body) 4 (le32 v)) o.
Definition set_create_flags (v : Z) (o : ps_object_t) : ps_object_t :=
  set_ob_body (splice o.(ob_body) 8 (le32 v)) o.

Definition set_cr_tag (v : bytes) (c : ps_crypto_t) : ps_crypto_t :=
  {| cr_tag := v; cr_uid := c.(cr_uid); cr_client_id := c.(cr_client_id); cr_iv := c.(cr_iv) |}.
Definition set_cr_iv (v : bytes) (c : ps_crypto_t) : ps_crypto_t :=
  {| cr_tag := c.(cr_tag); cr_uid := c.(cr_uid); cr_client_id := c.(cr_client_id); cr_iv := v |}.
Definition set_cr_owner (uid cid : Z) (c : ps_crypto_t) : ps_crypto_t :=
  {| cr_tag := c.(cr_tag); cr_uid := uid; cr_client_id := cid; cr_iv := c.(cr_iv) |}.

Definition set_tb_crypto (c : ps_crypto_t) (t : ps_obj_table_t) : ps_obj_table_t :=
  {| tb_crypto := c; tb_version := t.(tb_version); tb_swap_count := t.(tb_swap_count);
     tb_pad := t.(tb_pad); tb_obj_db := t.(tb_obj_db) |}.
Definition set_tb_version (v : Z) (t : ps_obj_table_t) : ps_obj_table_t :=
  {| tb_crypto := t.(tb_crypto); tb_version := v; tb_swap_count := t.(tb_swap_count);
     tb_pad := t.(tb_pad); tb_obj_db := t.(tb_obj_db) |}.
Definition set_tb_swap_count (v : Z) (t : ps_obj_table_t) : ps_obj_table_t :=
  {| tb_crypto := t.(tb_crypto); tb_version := t.(tb_version); tb_swap_count := v;
     tb_pad := t.(tb_pad); tb_obj_db := t.(tb_obj_db) |}.
Definition set_tb_obj_db (l : list ps_obj_table_entry_t) (t : ps_obj_table_t) : ps_obj_table_t :=
  {| tb_crypto := t.(tb_crypto); tb_version := t.(tb_version); tb_swap_count := t.(tb_swap_count);
     tb_pad := t.(tb_pad); tb_obj_db := l |}.

(** ** The environment

    What the partition calls.  [psa_its_get] returns the bytes it stored to the
    buffer; the crypto and platform calls fail with a status. *)
Class PsEnv (X : Type) := {
  psa_its_get : Z -> Z -> Z -> M X bytes;             (* uid, offset, size *)
  psa_its_set : Z -> bytes -> Z -> M X unit;          (* uid, data, flags *)
  psa_its_remove : Z -> M X unit;
  tfm_platform_nv_counter_read : Z -> M X Z;
  tfm_platform_nv_counter_increment : Z -> M X unit;
  psa_key_derivation_setup : M X unit;
  psa_key_derivation_input_key : M X unit;
  psa_key_derivation_input_bytes : bytes -> M X unit;
  psa_key_derivation_output_key : M X Z;
  psa_key_derivation_abort : M X unit;
  psa_destroy_key : Z -> M X unit;
  psa_aead_encrypt : Z -> bytes -> bytes -> bytes -> M X bytes;  (* key, nonce, data, plaintext *)
  psa_aead_decrypt : Z -> bytes -> bytes -> bytes -> M X bytes;  (* key, nonce, data, ciphertext *)
  psa_read : Z -> Z -> Z -> M X bytes;                (* message, vector, size *)
  psa_write : Z -> Z -> bytes -> M X unit;
}.

(** The static variables of the partition. *)
Record ps_state (X : Type) := {
  ps_table : ps_obj_table_t;         (* ps_obj_table_ctx *)
  ps_active : Z;
  ps_scratch : Z;
  ps_crypto_iv_buf : bytes;
  g_ps_object : ps_object_t;
  g_obj_tbl_info : ps_obj_table_info_t;
  ps_handle : Z;                     (* p_msg->handle *)
  ps_env : X;
}.
Arguments ps_table {X}.
Arguments ps_active {X}.
Arguments ps_scratch {X}.
Arguments ps_crypto_iv_buf {X}.
Arguments g_ps_object {X}.
Arguments g_obj_tbl_info {X}.
Arguments ps_handle {X}.
Arguments ps_env {X}.

Section Setters.
Context {X : Type}.
Definition set_ps_table (v : ps_obj_table_t) (s : ps_state X) : ps_state X :=
  {| ps_table := v; ps_active := s.(ps_active); ps_scratch := s.(ps_scratch); ps_crypto_iv_buf
     := s.(ps_crypto_iv_buf); g_ps_object := s.(g_ps_object); g_obj_tbl_info :=
     s.(g_obj_tbl_info); ps_handle := s.(ps_handle); ps_env := s.(ps_env) |}.
Definition set_ps_active (v : Z) (s : ps_state X) : ps_state X :=
  {| ps_table := s.(ps_table); ps_active := v; ps_scratch := s.(ps_scratch); ps_crypto_iv_buf :=
     s.(ps_crypto_iv_buf); g_ps_object := s.(g_ps_object); g_obj_tbl_info := s.(g_obj_tbl_info);
     ps_handle := s.(ps_handle); ps_env := s.(ps_env) |}.
Definition set_ps_scratch (v : Z) (s : ps_state X) : ps_state X :=
  {| ps_table := s.(ps_table); ps_active := s.(ps_active); ps_scratch := v; ps_crypto_iv_buf :=
     s.(ps_crypto_iv_buf); g_ps_object := s.(g_ps_object); g_obj_tbl_info := s.(g_obj_tbl_info);
     ps_handle := s.(ps_handle); ps_env := s.(ps_env) |}.
Definition set_ps_crypto_iv_buf (v : bytes) (s : ps_state X) : ps_state X :=
  {| ps_table := s.(ps_table); ps_active := s.(ps_active); ps_scratch := s.(ps_scratch);
     ps_crypto_iv_buf := v; g_ps_object := s.(g_ps_object); g_obj_tbl_info :=
     s.(g_obj_tbl_info); ps_handle := s.(ps_handle); ps_env := s.(ps_env) |}.
Definition set_g_ps_object (v : ps_object_t) (s : ps_state X) : ps_state X :=
  {| ps_table := s.(ps_table); ps_active := s.(ps_active); ps_scratch := s.(ps_scratch);
     ps_crypto_iv_buf := s.(ps_crypto_iv_buf); g_ps_object := v; g_obj_tbl_info :=
     s.(g_obj_tbl_info); ps_handle := s.(ps_handle); ps_env := s.(ps_env) |}.
Definition set_g_obj_tbl_info (v : ps_obj_table_info_t) (s : ps_state X) : ps_state X :=
  {| ps_table := s.(ps_table); ps_active := s.(ps_active); ps_scratch := s.(ps_scratch);
     ps_crypto_iv_buf := s.(ps_crypto_iv_buf); g_ps_object := s.(g_ps_object); g_obj_tbl_info :=
     v; ps_handle := s.(ps_handle); ps_env := s.(ps_env) |}.
Definition set_ps_handle (v : Z) (s : ps_state X) : ps_state X :=
  {| ps_table := s.(ps_table); ps_active := s.(ps_active); ps_scratch := s.(ps_scratch);
     ps_crypto_iv_buf := s.(ps_crypto_iv_buf); g_ps_object := s.(g_ps_object); g_obj_tbl_info :=
     s.(g_obj_tbl_info); ps_handle := v; ps_env := s.(ps_env) |}.
Definition set_ps_env (v : X) (s : ps_state X) : ps_state X :=
  {| ps_table := s.(ps_table); ps_active := s.(ps_active); ps_scratch := s.(ps_scratch);
     ps_crypto_iv_buf := s.(ps_crypto_iv_buf); g_ps_object := s.(g_ps_object); g_obj_tbl_info :=
     s.(g_obj_tbl_info); ps_handle := s.(ps_handle); ps_env := v |}.
End Setters.

Abbreviation PS X := (M (ps_state X)).

(** Call the environment. *)
Definition on_env {X A} (m : M X A) : PS X A := fun s =>
  let '(r, x) := m s.(ps_env) in (r, set_ps_env x s).
