(* ===== verification/PsBytes.v ===== *)
(** Protected Storage: the object table on storage.

    A well-formed table is read back from its bytes. *)

From stdpp Require Import base list numbers.
From S2P Require Import Prelude PsTypes.

Section Bytes.
Context `{PsBuild}.

Definition is_s32 (x : Z) : Prop := - 2 ^ 31 <= x < 2 ^ 31.

Definition crypto_wf (c : ps_crypto_t) : Prop :=
  length c.(cr_tag) = 16%nat /\ is_u64 c.(cr_uid) /\ is_s32 c.(cr_client_id) /\
  length c.(cr_iv) = 12%nat.
Definition entry_wf (e : ps_obj_table_entry_t) : Prop :=
  is_u64 e.(en_uid) /\ is_s32 e.(en_client_id) /\ Z.of_nat (length e.(en_pad)) = entry_pad_size /\
  if PS_ENCRYPTION then length e.(en_tag) = 16%nat /\ e.(en_version) = 0
  else e.(en_tag) = [] /\ is_u32 e.(en_version).
Definition table_bytes_wf (t : ps_obj_table_t) : Prop :=
  (if PS_ENCRYPTION then crypto_wf t.(tb_crypto) else t.(tb_crypto) = no_crypto) /\
  (if PS_ROLLBACK_PROTECTION then t.(tb_swap_count) = 0 else True) /\
  Z.of_nat (length t.(tb_pad)) = table_pad_size /\
  Z.of_nat (length t.(tb_obj_db)) = PS_OBJ_TABLE_ENTRIES /\ Forall entry_wf t.(tb_obj_db).

Lemma of_le32_le32_s32 x l : is_s32 x -> s32 (of_le32 (le32 x ++ l)) = x.
Proof.
  unfold is_s32, s32, u32, of_le32, le32, u8. cbn [app]. intros Hx.
  destruct (Z.ltb_spec ((x mod 2 ^ 8 + 2 ^ 8 * ((x / 2 ^ 8) mod 2 ^ 8) +
    2 ^ 16 * ((x / 2 ^ 16) mod 2 ^ 8) + 2 ^ 24 * ((x / 2 ^ 24) mod 2 ^ 8)) mod 2 ^ 32) (2 ^ 31)); lia.
Qed.

Lemma length_entry e : entry_wf e ->
  Z.of_nat (length (entry_bytes e)) = PS_OBJECTS_TABLE_ENTRY_SIZE.
Proof.
  unfold entry_wf, entry_bytes, PS_OBJECTS_TABLE_ENTRY_SIZE, entry_pad_size.
  destruct PS_ENCRYPTION; intros (_ & _ & Hp & Ht & _);
    rewrite !length_app, ?length_take, ?length_drop, ?le64_length, !le32_length; lia.
Qed.

Lemma entry_roundtrip e l : entry_wf e -> entry_of (entry_bytes e ++ l) = e.
Proof.
  unfold entry_wf, entry_bytes, entry_of, entry_pad_size.
  destruct e as [tag ver uid cid pad]; cbn [en_tag en_version en_uid en_client_id en_pad].
  destruct PS_ENCRYPTION.
  - intros (Hu & Hc & Hp & Ht & ->). rewrite <- !app_assoc.
    rewrite slice_app_l, (drop_all_after tag), (drop_after tag _ 16) by (done || lia).
    rewrite (drop_all_after (le64 uid)),
      (slice_after tag _ 16), (slice_after (le64 uid) _ 8), (slice_after (le32 cid) _ 4),
      of_le64_le64, of_le32_le32_s32 by (done || lia).
    by rewrite (slice_app_l pad) by lia.
  - intros (Hu & Hc & Hp & -> & Hv). rewrite <- !app_assoc.
    assert (length (take 4 pad) = 4%nat) as H4 by (rewrite length_take; lia).
    rewrite of_le32_le32, !(drop_after (le32 ver) _ 4), (drop_all_after (take 4 pad)),
      (drop_after (take 4 pad) _ 4), (drop_all_after (le64 uid)), of_le64_le64, of_le32_le32_s32,
      !(slice_after (le32 ver) _ 4), (slice_app_l (take 4 pad)), (slice_after (take 4 pad) _ 4),
      (slice_after (le64 uid) _ 8), (slice_after (le32 cid) _ 4) by (done || lia).
    rewrite (slice_app_l (drop 4 pad)) by (rewrite length_drop; lia). by rewrite take_drop.
Qed.

Lemma entries_roundtrip db l : Forall entry_wf db ->
  entries_of (length db) (concat (entry_bytes <$> db) ++ l) = db.
Proof.
  induction 1 as [|e db He Hdb IH]; cbn [fmap list_fmap concat length entries_of]; [done|].
  rewrite <- app_assoc, entry_roundtrip by done. f_equal.
  assert (Z.to_nat PS_OBJECTS_TABLE_ENTRY_SIZE = length (entry_bytes e)) as ->
    by (rewrite <- (length_entry e He); lia).
  by rewrite drop_app_length.
Qed.

Lemma crypto_roundtrip c l : crypto_wf c -> crypto_of (crypto_bytes c ++ l) = c.
Proof.
  intros (Ht & Hu & Hc & Hi). destruct c as [tag uid cid iv];
    cbn [cr_tag cr_uid cr_client_id cr_iv] in *.
  unfold crypto_of, crypto_bytes. cbn [cr_tag cr_uid cr_client_id cr_iv]. rewrite <- !app_assoc.
  rewrite slice_app_l, (drop_all_after tag), (drop_after tag _ 16), (drop_all_after (le64 uid)),
    (slice_after tag _ 16), (slice_after (le64 uid) _ 8), (slice_after (le32 cid) _ 4),
    of_le64_le64, of_le32_le32_s32 by (done || lia).
  by rewrite (slice_app_l iv) by lia.
Qed.

Lemma length_crypto c : crypto_wf c -> Z.of_nat (length (crypto_bytes c)) = sizeof_crypto.
Proof.
  intros (Ht & _ & _ & Hi). unfold crypto_bytes, sizeof_crypto. rewrite !length_app. cbn. lia.
Qed.

Lemma length_entries db : Forall entry_wf db ->
  Z.of_nat (length (concat (entry_bytes <$> db))) = Z.of_nat (length db) * PS_OBJECTS_TABLE_ENTRY_SIZE.
Proof.
  induction 1 as [|e db He Hdb IH]; cbn [fmap list_fmap concat length]; [done|].
  rewrite length_app. pose proof (length_entry e He). lia.
Qed.

(** A well-formed object table is read back from the bytes it is stored as, in
    every build, whatever follows them in the buffer. *)
Theorem table_bytes_roundtrip t l : table_bytes_wf t -> table_of (table_bytes t ++ l) = t.
Proof.
  intros (Hc & Hs & Hp & Hl & Hdb). unfold table_of, table_bytes.
  set (a := (if PS_ENCRYPTION then drop _ _ else _)).
  assert (a = auth_bytes t ++ l) as ->.
  { subst a. destruct PS_ENCRYPTION; [|done]. rewrite <- app_assoc.
    replace (Z.to_nat sizeof_crypto) with (length (crypto_bytes t.(tb_crypto)))
      by (rewrite <- (length_crypto _ Hc); lia). by rewrite drop_app_length. }
  replace (if PS_ENCRYPTION then crypto_of _ else _) with t.(tb_crypto).
  2:{ destruct PS_ENCRYPTION; [|done]. by rewrite <- app_assoc, crypto_roundtrip. }
  unfold auth_bytes, table_pad_size in *.
  replace (Z.to_nat PS_OBJ_TABLE_ENTRIES) with (length t.(tb_obj_db)) by lia.
  destruct t as [c v sw pad db]; cbn in *. destruct PS_ROLLBACK_PROTECTION; cbn.
  - subst sw. rewrite <- app_assoc. f_equal.
    + change (slice (v :: ?x) 1 7) with (slice x 0 7). by apply slice_app_l; lia.
    + change (drop 8 (v :: ?x)) with (drop 7 x).
      replace 7%nat with (length pad) by lia. rewrite drop_app_length. by apply entries_roundtrip.
  - rewrite <- app_assoc. f_equal.
    + change (slice (v :: sw :: ?x) 2 6) with (slice x 0 6). by apply slice_app_l; lia.
    + change (drop 8 (v :: sw :: ?x)) with (drop 6 x).
      replace 6%nat with (length pad) by lia. rewrite drop_app_length. by apply entries_roundtrip.
Qed.
End Bytes.
