(* ===== verification/PsLaws.v ===== *)
(** Protected Storage: what the partition relies on.

    The observable state of the services the partition calls ([ps_world]) and, as a
    class of laws over [PsEnv], their documented behaviour: a call does what it says,
    or fails and changes nothing, or does not return, having done it or not (power
    was lost).  Authenticated decryption is ideal: what it accepts was encrypted
    before.  [ideal_env] is an environment that satisfies the laws. *)

From stdpp Require Import base list numbers gmap.
From S2P Require Import Prelude PsTypes.

(** One authenticated encryption: the label its key was derived from, the nonce, the
    associated data, the plaintext and the output, whose last bytes are the tag. *)
Record seal := {
  se_label : bytes;
  se_nonce : bytes;
  se_data : bytes;
  se_plain : bytes;
  se_out : bytes;
}.
#[export] Instance seal_eq_dec : EqDecision seal.
Proof. solve_decision. Defined.

Record ps_world := {
  w_files : gmap Z bytes;           (* the partition's files in its_get / its_set *)
  w_counter : Z -> Z;               (* the NV counters *)
  w_sealed : list seal;             (* every encryption that was made *)
  w_label : bytes;                  (* the key derivation in progress *)
  w_keys : Z -> option bytes;       (* the label of a derived key *)
  w_input : Z -> Z -> bytes;        (* what is left to read of a message's vector *)
  w_output : list (Z * Z * bytes);  (* what was written to a message's vector *)
}.

Definition set_w_files (v : gmap Z bytes) (w : ps_world) : ps_world :=
  {| w_files := v; w_counter := w.(w_counter); w_sealed := w.(w_sealed); w_label := w.(w_label);
     w_keys := w.(w_keys); w_input := w.(w_input); w_output := w.(w_output) |}.
Definition set_w_counter (v : Z -> Z) (w : ps_world) : ps_world :=
  {| w_files := w.(w_files); w_counter := v; w_sealed := w.(w_sealed); w_label := w.(w_label);
     w_keys := w.(w_keys); w_input := w.(w_input); w_output := w.(w_output) |}.
Definition set_w_sealed (v : list seal) (w : ps_world) : ps_world :=
  {| w_files := w.(w_files); w_counter := w.(w_counter); w_sealed := v; w_label := w.(w_label);
     w_keys := w.(w_keys); w_input := w.(w_input); w_output := w.(w_output) |}.
Definition set_w_label (v : bytes) (w : ps_world) : ps_world :=
  {| w_files := w.(w_files); w_counter := w.(w_counter); w_sealed := w.(w_sealed); w_label := v;
     w_keys := w.(w_keys); w_input := w.(w_input); w_output := w.(w_output) |}.
Definition set_w_keys (v : Z -> option bytes) (w : ps_world) : ps_world :=
  {| w_files := w.(w_files); w_counter := w.(w_counter); w_sealed := w.(w_sealed);
     w_label := w.(w_label); w_keys := v; w_input := w.(w_input); w_output := w.(w_output) |}.
Definition set_w_input (v : Z -> Z -> bytes) (w : ps_world) : ps_world :=
  {| w_files := w.(w_files); w_counter := w.(w_counter); w_sealed := w.(w_sealed);
     w_label := w.(w_label); w_keys := w.(w_keys); w_input := v; w_output := w.(w_output) |}.
Definition set_w_output (v : list (Z * Z * bytes)) (w : ps_world) : ps_world :=
  {| w_files := w.(w_files); w_counter := w.(w_counter); w_sealed := w.(w_sealed);
     w_label := w.(w_label); w_keys := w.(w_keys); w_input := w.(w_input); w_output := v |}.

(** ** The calls as changes of the world *)
Section Steps.
Implicit Types w : ps_world.

Definition its_get_step (fid off n : Z) (l : bytes) w w' : Prop :=
  w' = w /\ exists d, w.(w_files) !! fid = Some d /\ l = slice d (Z.to_nat off) (Z.to_nat n).
Definition its_set_step (fid : Z) (d : bytes) (_ : unit) w w' : Prop :=
  w' = set_w_files (<[fid := d]> w.(w_files)) w.
Definition its_remove_step (fid : Z) (_ : unit) w w' : Prop :=
  w' = set_w_files (delete fid w.(w_files)) w.
Definition counter_step (c v : Z) w w' : Prop := w' = w /\ v = w.(w_counter) c.
Definition increment_step (c : Z) (_ : unit) w w' : Prop :=
  w' = set_w_counter (fun i => if i =? c then w.(w_counter) c + 1 else w.(w_counter) i) w.
Definition same_step {A} (_ : A) w w' : Prop := w' = w.
Definition label_step (l : bytes) (_ : unit) w w' : Prop := w' = set_w_label l w.
Definition output_key_step (k : Z) w w' : Prop :=
  w' = set_w_keys (fun i => if i =? k then Some w.(w_label) else w.(w_keys) i) w.
Definition encrypt_step (k : Z) (nonce data plain out : bytes) w w' : Prop :=
  exists label, w.(w_keys) k = Some label /\ length out = (length plain + 16)%nat /\
    w' = set_w_sealed ({| se_label := label; se_nonce := nonce; se_data := data;
                          se_plain := plain; se_out := out |} :: w.(w_sealed)) w.
Definition decrypt_step (k : Z) (nonce data c out : bytes) w w' : Prop :=
  w' = w /\ length c = (length out + 16)%nat /\ exists label, w.(w_keys) k = Some label /\
    {| se_label := label; se_nonce := nonce; se_data := data; se_plain := out; se_out := c |}
      ∈ w.(w_sealed).
Definition read_step (h v n : Z) (l : bytes) w w' : Prop :=
  l = take (Z.to_nat n) (w.(w_input) h v) /\
  w' = set_w_input (fun h' v' => if (h' =? h) && (v' =? v)
                                 then drop (Z.to_nat n) (w.(w_input) h v) else w.(w_input) h' v') w.
Definition write_step (h v : Z) (l : bytes) (_ : unit) w w' : Prop :=
  w' = set_w_output (w.(w_output) ++ [(h, v, l)]) w.
End Steps.

(** [does world m P x]: the call [m] made in [x] changes the world by [P], or not at
    all when it fails; when power is lost during it, one or the other. *)
Definition does {X A} (world : X -> ps_world) (m : M X A) (P : A -> ps_world -> ps_world -> Prop)
    (x : X) : Prop :=
  wp m (fun a x' => P a (world x) (world x')) (fun _ x' => world x' = world x)
    (fun _ x' => world x' = world x \/ exists a, P a (world x) (world x')) x.

Class PsEnvLaws (X : Type) `{!PsEnv X} := {
  world : X -> ps_world;
  get_does fid off n x : does world (psa_its_get fid off n) (its_get_step fid off n) x;
  set_does fid d fl x : does world (psa_its_set fid d fl) (its_set_step fid d) x;
  remove_does fid x : does world (psa_its_remove fid) (its_remove_step fid) x;
  counter_does c x : does world (tfm_platform_nv_counter_read c) (counter_step c) x;
  increment_does c x : does world (tfm_platform_nv_counter_increment c) (increment_step c) x;
  setup_does x : does world psa_key_derivation_setup (label_step []) x;
  input_key_does x : does world psa_key_derivation_input_key same_step x;
  input_bytes_does l x : does world (psa_key_derivation_input_bytes l) (label_step l) x;
  output_key_does x : does world psa_key_derivation_output_key output_key_step x;
  abort_does x : does world psa_key_derivation_abort same_step x;
  destroy_does k x : does world (psa_destroy_key k) same_step x;
  encrypt_does k n d p x : does world (psa_aead_encrypt k n d p) (encrypt_step k n d p) x;
  decrypt_does k n d c x : does world (psa_aead_decrypt k n d c) (decrypt_step k n d c) x;
  read_does h v n x : does world (psa_read h v n) (read_step h v n) x;
  write_does h v l x : does world (psa_write h v l) (write_step h v l) x;
  (* the services that answer from [x] on *)
  healthy : X -> Prop;
  healthy_get fid n x : healthy x ->
    wp (psa_its_get fid 0 n) (fun _ => healthy)
      (fun _ x' => healthy x' /\ (world x).(w_files) !! fid = None) (fun _ _ => False) x;
  healthy_remove fid x : healthy x ->
    wp (psa_its_remove fid) (fun _ => healthy)
      (fun e x' => healthy x' /\ e = PSA_ERROR_DOES_NOT_EXIST) (fun _ _ => False) x;
  healthy_counter c x : healthy x ->
    wp (tfm_platform_nv_counter_read c) (fun _ => healthy) (fun _ _ => False) (fun _ _ => False) x;
  healthy_setup x : healthy x ->
    wp psa_key_derivation_setup (fun _ => healthy) (fun _ _ => False) (fun _ _ => False) x;
  healthy_input_key x : healthy x ->
    wp psa_key_derivation_input_key (fun _ => healthy) (fun _ _ => False) (fun _ _ => False) x;
  healthy_input_bytes l x : healthy x ->
    wp (psa_key_derivation_input_bytes l) (fun _ => healthy) (fun _ _ => False) (fun _ _ => False) x;
  healthy_output_key x : healthy x ->
    wp psa_key_derivation_output_key (fun _ => healthy) (fun _ _ => False) (fun _ _ => False) x;
  healthy_abort x : healthy x ->
    wp psa_key_derivation_abort (fun _ => healthy) (fun _ _ => False) (fun _ _ => False) x;
  healthy_destroy k x : healthy x ->
    wp (psa_destroy_key k) (fun _ => healthy) (fun _ _ => False) (fun _ _ => False) x;
  healthy_decrypt k n d c x : healthy x ->
    wp (psa_aead_decrypt k n d c)
      (fun p x' => healthy x' /\ forall se, se ∈ (world x).(w_sealed) ->
         (world x).(w_keys) k = Some se.(se_label) -> n = se.(se_nonce) -> d = se.(se_data) ->
         c = se.(se_out) -> p = se.(se_plain))
      (fun _ x' => healthy x' /\ forall se, se ∈ (world x).(w_sealed) ->
         (world x).(w_keys) k = Some se.(se_label) -> n = se.(se_nonce) -> d = se.(se_data) ->
         c = se.(se_out) -> False)
      (fun _ _ => False) x;
  healthy_write h v l x : healthy x ->
    wp (psa_write h v l) (fun _ => healthy) (fun _ _ => False) (fun _ _ => False) x;
}.

(** ** An environment *)

(** [id_power]: the calls left before the power is lost, if it is to be;
    [id_capacity]: the size of the largest file there is room for. *)
Record ideal := { id_world : ps_world; id_power : option nat; id_capacity : nat }.

(** A call that answers [f w] in the world [w]. *)
Definition ideally {A} (f : ps_world -> outcome A * ps_world) : M ideal A := fun x =>
  match x.(id_power) with
  | Some O => (Halt PowerLoss, x)
  | p => let '(r, w) := f x.(id_world) in (r, {| id_world := w; id_power := pred <$> p; id_capacity := x.(id_capacity) |})
  end.

Definition ideal_tag (w : ps_world) : bytes :=
  le32 (Z.of_nat (length w.(w_sealed))) ++ zeros 12.
Definition ideal_accepts (label nonce data c : bytes) (se : seal) : bool :=
  bytes_eqb se.(se_label) label && bytes_eqb se.(se_nonce) nonce && bytes_eqb se.(se_data) data &&
  bytes_eqb se.(se_out) c && (length c =? length se.(se_plain) + 16)%nat.

#[export] Instance ideal_env : PsEnv ideal := {|
  psa_its_get fid off n := ideally (fun w =>
    match w.(w_files) !! fid with
    | Some d => (Val (slice d (Z.to_nat off) (Z.to_nat n)), w)
    | None => (Err PSA_ERROR_DOES_NOT_EXIST, w)
    end);
  psa_its_set fid d _ := fun x => ideally (fun w =>
    if (length d <=? x.(id_capacity))%nat then (Val tt, set_w_files (<[fid := d]> w.(w_files)) w)
    else (Err PSA_ERROR_INSUFFICIENT_STORAGE, w)) x;
  psa_its_remove fid := ideally (fun w =>
    match w.(w_files) !! fid with
    | Some _ => (Val tt, set_w_files (delete fid w.(w_files)) w)
    | None => (Err PSA_ERROR_DOES_NOT_EXIST, w)
    end);
  tfm_platform_nv_counter_read c := ideally (fun w => (Val (w.(w_counter) c), w));
  tfm_platform_nv_counter_increment c := ideally (fun w =>
    (Val tt, set_w_counter (fun i => if i =? c then w.(w_counter) c + 1 else w.(w_counter) i) w));
  psa_key_derivation_setup := ideally (fun w => (Val tt, set_w_label [] w));
  psa_key_derivation_input_key := ideally (fun w => (Val tt, w));
  psa_key_derivation_input_bytes l := ideally (fun w => (Val tt, set_w_label l w));
  psa_key_derivation_output_key := ideally (fun w =>
    (Val 1, set_w_keys (fun i => if i =? 1 then Some w.(w_label) else w.(w_keys) i) w));
  psa_key_derivation_abort := ideally (fun w => (Val tt, w));
  psa_destroy_key _ := ideally (fun w => (Val tt, w));
  psa_aead_encrypt k nonce data plain := ideally (fun w =>
    match w.(w_keys) k with
    | Some label =>
        let out := plain ++ ideal_tag w in
        (Val out, set_w_sealed ({| se_label := label; se_nonce := nonce; se_data := data;
                                   se_plain := plain; se_out := out |} :: w.(w_sealed)) w)
    | None => (Err PSA_ERROR_INVALID_ARGUMENT, w)
    end);
  psa_aead_decrypt k nonce data c := ideally (fun w =>
    match w.(w_keys) k with
    | Some label =>
        match find (ideal_accepts label nonce data c) w.(w_sealed) with
        | Some se => (Val se.(se_plain), w)
        | None => (Err PSA_ERROR_INVALID_SIGNATURE, w)
        end
    | None => (Err PSA_ERROR_INVALID_ARGUMENT, w)
    end);
  psa_read h v n := ideally (fun w =>
    (Val (take (Z.to_nat n) (w.(w_input) h v)),
     set_w_input (fun h' v' => if (h' =? h) && (v' =? v)
                               then drop (Z.to_nat n) (w.(w_input) h v) else w.(w_input) h' v') w));
  psa_write h v l := ideally (fun w => (Val tt, set_w_output (w.(w_output) ++ [(h, v, l)]) w));
|}.

Lemma ideally_does {A} (f : ps_world -> outcome A * ps_world) P x :
  (forall w, match f w with
             | (Val a, w') => P a w w'
             | (Err _, w') => w' = w
             | (Halt _, w') => w' = w
             end) -> does id_world (ideally f) P x.
Proof.
  intros Hf. specialize (Hf x.(id_world)). unfold does, wp, ideally.
  destruct (f (id_world x)) as [[a|e|h] w'], x.(id_power) as [[|n]|]; cbn; auto.
Qed.

(** The power stays and the plaintext is that of the ciphertext. *)
Definition ideal_healthy (x : ideal) : Prop :=
  x.(id_power) = None /\
  Forall (fun se => exists tag, length tag = 16%nat /\ se.(se_out) = se.(se_plain) ++ tag)
    x.(id_world).(w_sealed).

Lemma ideally_healthy {A} (f : ps_world -> outcome A * ps_world) (Q : A -> Prop) (E : Z -> Prop) x :
  ideal_healthy x ->
  (match f x.(id_world) with
   | (Val a, w') => w'.(w_sealed) = x.(id_world).(w_sealed) /\ Q a
   | (Err e, w') => w'.(w_sealed) = x.(id_world).(w_sealed) /\ E e
   | (Halt _, w') => False
   end) ->
  wp (ideally f) (fun a x' => ideal_healthy x' /\ Q a) (fun e x' => ideal_healthy x' /\ E e)
    (fun _ _ => False) x.
Proof.
  intros [Hp Hs] Hf. unfold wp, ideally. rewrite Hp. unfold ideal_healthy.
  destruct (f (id_world x)) as [[a|e|h] w']; cbn; destruct Hf as [-> ?] || destruct Hf; auto.
Qed.

Lemma ideally_total {A} (f : ps_world -> outcome A * ps_world) x : ideal_healthy x ->
  (exists a w', f x.(id_world) = (Val a, w') /\ w'.(w_sealed) = x.(id_world).(w_sealed)) ->
  wp (ideally f) (fun _ => ideal_healthy) (fun _ _ => False) (fun _ _ => False) x.
Proof.
  intros Hh (a & w' & Hf & Hs).
  eapply wp_mono; [apply (ideally_healthy f (fun _ => True) (fun _ => False)); [done|by rewrite Hf]|..];
    cbn; tauto.
Qed.

Lemma ideal_accepts_spec label nonce data c se : ideal_accepts label nonce data c se = true <->
  se.(se_label) = label /\ se.(se_nonce) = nonce /\ se.(se_data) = data /\ se.(se_out) = c /\
  length c = (length se.(se_plain) + 16)%nat.
Proof.
  unfold ideal_accepts, bytes_eqb. rewrite !andb_true_iff, !bool_decide_eq_true, Nat.eqb_eq. tauto.
Qed.

#[export] Program Instance ideal_laws : PsEnvLaws ideal := {|
  world := id_world;
  healthy := ideal_healthy;
|}.
Solve Obligations with
  try (intros; apply ideally_does; intros w; cbv [its_get_step its_set_step its_remove_step counter_step
    increment_step same_step label_step output_key_step read_step write_step];
    try destruct (w_files w !! fid) eqn:?; try destruct (_ <=? _)%nat; naive_solver).
Solve Obligations with
  try (intros; apply ideally_total; [done|]; by eexists _, _).
Next Obligation.
  intros. apply ideally_does. intros w. destruct (w_keys w k) as [label|] eqn:Ek; [|done].
  exists label. split; [done|]. split; [|done]. by rewrite length_app.
Qed.
Next Obligation.
  intros. apply ideally_does. intros w. destruct (w_keys w k) as [label|] eqn:Ek; [|done].
  destruct (find _ _) as [se|] eqn:Ef; [|done].
  apply find_some in Ef as [Hin Ha]. apply ideal_accepts_spec in Ha as (<- & <- & <- & <- & Hl).
  split; [done|]. split; [done|]. exists se.(se_label). split; [done|]. apply list_elem_of_In. by destruct se.
Qed.
Next Obligation.
  intros fid n x Hx.
  eapply wp_mono; [apply (ideally_healthy _ (fun _ => True)
    (fun _ => w_files (id_world x) !! fid = None)); [exact Hx|]|..]; cbn; [|tauto..].
  by destruct (w_files (id_world x) !! fid).
Qed.
Next Obligation.
  intros fid x Hx.
  eapply wp_mono; [apply (ideally_healthy _ (fun _ => True)
    (fun e => e = PSA_ERROR_DOES_NOT_EXIST)); [exact Hx|]|..]; cbn; [|tauto..].
  by destruct (w_files (id_world x) !! fid).
Qed.
Next Obligation.
  intros k n d c x Hx.
  apply (ideally_healthy _
    (fun p => forall se, se ∈ (id_world x).(w_sealed) -> w_keys (id_world x) k = Some se.(se_label) ->
       n = se.(se_nonce) -> d = se.(se_data) -> c = se.(se_out) -> p = se.(se_plain))
    (fun _ => forall se, se ∈ (id_world x).(w_sealed) -> w_keys (id_world x) k = Some se.(se_label) ->
       n = se.(se_nonce) -> d = se.(se_data) -> c = se.(se_out) -> False)); [done|].
  destruct (w_keys (id_world x) k) as [label|] eqn:Ek; [|split; [done|]; intros; congruence].
  destruct (find _ _) as [se0|] eqn:Ef; (split; [done|]); intros se Hse [= ->] -> -> ->.
  - apply find_some in Ef as [Hin Ha]. apply ideal_accepts_spec in Ha as (_ & _ & _ & Ho & _).
    destruct Hx as [_ Hs]. rewrite Forall_forall in Hs.
    apply list_elem_of_In in Hin. destruct (Hs _ Hin) as (t0 & Ht0 & E0).
    destruct (Hs _ Hse) as (t & Ht & E). rewrite E0, E in Ho.
    apply app_inj_2 in Ho as [? _]; [done|lia].
  - eapply find_none in Ef; [|by apply list_elem_of_In]. apply not_true_iff_false in Ef.
    apply Ef. apply ideal_accepts_spec. do 4 (split; [done|]).
    destruct Hx as [_ Hs]. rewrite Forall_forall in Hs. destruct (Hs _ Hse) as (t & Ht & ->).
    rewrite length_app. lia.
Qed.
