(* ===== verification/PsCrypto.v ===== *)
(** Protected Storage: the crypto interface and the NV counters.

    [crypto/ps_crypto_interface.c] and [nv_counters/ps_nv_counters.c] over the
    environment of [PsTypes]. *)

From stdpp Require Import base list numbers.
From S2P Require Import Prelude PsTypes.

Section PsCrypto.
Context `{PsBuild} {X : Type} `{!PsEnv X}.

(** ** nv_counters/ps_nv_counters.c *)

Definition ps_read_nv_counter (counter_id : Z) : PS X Z :=
  or_return (on_env (tfm_platform_nv_counter_read counter_id)) PSA_ERROR_GENERIC_ERROR.
Definition ps_increment_nv_counter (counter_id : Z) : PS X unit :=
  or_return (on_env (tfm_platform_nv_counter_increment counter_id)) PSA_ERROR_GENERIC_ERROR.

(** ** crypto/ps_crypto_interface.c *)

Definition fill_key_label (crypto : ps_crypto_t) : bytes :=
  le32 crypto.(cr_client_id) ++ le64 crypto.(cr_uid).

(** Once the operation is set up, every failure releases it. *)
Definition ps_crypto_setkey (key_label : bytes) : PS X Z :=
  _ ← fail_if (length key_label =? 0)%nat PSA_ERROR_INVALID_ARGUMENT;
  _ ← on_env psa_key_derivation_setup;
  r ← attempt (
    _ ← on_env psa_key_derivation_input_key;
    _ ← on_env (psa_key_derivation_input_bytes key_label);
    on_env psa_key_derivation_output_key);
  match r with
  | inl _ =>
      _ ← status_of (on_env psa_key_derivation_abort);
      throw PSA_ERROR_GENERIC_ERROR
  | inr ps_key =>
      r ← attempt (on_env psa_key_derivation_abort);
      match r with
      | inr _ => mret ps_key
      | inl _ =>
          _ ← status_of (on_env (psa_destroy_key ps_key));
          _ ← status_of (on_env psa_key_derivation_abort);
          throw PSA_ERROR_GENERIC_ERROR
      end
  end.

Definition ps_crypto_to_blocks (in_len : Z) : Z := u32 (1 + u32 (in_len + 16 - 1) / 16).

Definition ps_crypto_set_iv (crypto : ps_crypto_t) : PS X unit :=
  modifyS (set_ps_crypto_iv_buf crypto.(cr_iv)).

(** The next IV: a 96-bit counter, the low 64 bits first. *)
Definition ps_crypto_get_iv (crypto : ps_crypto_t) : PS X ps_crypto_t :=
  buf ← gets ps_crypto_iv_buf;
  let iv_l := (of_le64 buf + 1) mod 2 ^ 64 in
  let iv_h := of_le32 (drop 8 buf) in
  let iv_h' := if iv_l =? 0 then u32 (iv_h + 1) else iv_h in
  _ ← fail_if ((iv_l =? 0) && (iv_h' =? 0)) PSA_ERROR_GENERIC_ERROR;
  let buf' := le64 iv_l ++ le32 iv_h' in
  _ ← modifyS (set_ps_crypto_iv_buf buf');
  mret (set_cr_iv buf' crypto).

(** Derive the key for [crypto], run [m] with it, keep its result when it is
    acceptable, and destroy the key. *)
Definition with_key {A B} (crypto : ps_crypto_t) (m : Z -> PS X A) (ok : A -> bool) (e : Z)
    (keep : A -> PS X B) : PS X B :=
  ps_key ← ps_crypto_setkey (fill_key_label crypto);
  r ← attempt (m ps_key);
  match r with
  | inr a =>
      if ok a then
        b ← keep a;
        _ ← or_return (on_env (psa_destroy_key ps_key)) PSA_ERROR_GENERIC_ERROR;
        mret b
      else _ ← status_of (on_env (psa_destroy_key ps_key)); throw e
  | inl _ => _ ← status_of (on_env (psa_destroy_key ps_key)); throw e
  end.

(** [put out] fills the output buffer, [put_tag] the tag of [crypto]; the result is
    the length of the ciphertext. *)
Definition ps_crypto_encrypt_and_tag (crypto : ps_crypto_t) (add plain : bytes)
    (put put_tag : bytes -> PS X unit) : PS X Z :=
  with_key crypto (fun k => on_env (psa_aead_encrypt k crypto.(cr_iv) add plain)) (fun _ => true)
    PSA_ERROR_GENERIC_ERROR (fun out =>
      let out_len := Z.of_nat (length out) - PS_TAG_LEN_BYTES in
      if out_len <? 0 then stop OutOfBounds
      else
        _ ← put out;
        _ ← put_tag (drop (Z.to_nat out_len) out);
        mret out_len).

(** [buf] is the buffer that holds the ciphertext, [in_len] bytes of it: the tag of
    [crypto] is stored behind them, and the plaintext over them. *)
Definition ps_crypto_auth_and_decrypt (crypto : ps_crypto_t) (add : bytes) (in_len : nat)
    (buf : ps_state X -> bytes) (put : bytes -> PS X unit) : PS X Z :=
  b ← gets buf;
  _ ← put (splice b in_len crypto.(cr_tag));
  b ← gets buf;
  with_key crypto (fun k => on_env (psa_aead_decrypt k crypto.(cr_iv) add
                              (take (in_len + Z.to_nat PS_TAG_LEN_BYTES) b)))
    (fun _ => true) PSA_ERROR_INVALID_SIGNATURE (fun out =>
      _ ← put (splice b 0 out);
      mret (Z.of_nat (length out))).

Definition ps_crypto_generate_auth_tag (crypto : ps_crypto_t) (add : bytes)
    (put_tag : bytes -> PS X unit) : PS X unit :=
  with_key crypto (fun k => on_env (psa_aead_encrypt k crypto.(cr_iv) add []))
    (fun tag => Z.of_nat (length tag) =? PS_TAG_LEN_BYTES) PSA_ERROR_GENERIC_ERROR put_tag.

Definition ps_crypto_authenticate (crypto : ps_crypto_t) (add : bytes) : PS X unit :=
  with_key crypto (fun k => on_env (psa_aead_decrypt k crypto.(cr_iv) add crypto.(cr_tag)))
    (fun out => Z.of_nat (length out) =? 0) PSA_ERROR_INVALID_SIGNATURE (fun _ => mret tt).
End PsCrypto.
