(* ===== verification/PsAuth.v ===== *)
(** Protected Storage: the crypto interface against the laws of its environment.

    What [PsCrypto] promises the object table and the objects: authentication
    accepts what was sealed under the same label, and only that. *)

From stdpp Require Import base list numbers gmap.
From S2P Require Import Prelude PsTypes PsLaws PsCrypto.

Section Quiet.
Context {X : Type} `{!PsEnv X} `{!PsEnvLaws X}.
Implicit Types s : ps_state X.

Definition world_of s : ps_world := world s.(ps_env).
Definition fit s : Prop := healthy s.(ps_env).

(** Only the environment changed, and of its world only the keys. *)
Record same_store (w w' : ps_world) : Prop := {
  ss_files : w'.(w_files) = w.(w_files);
  ss_counter : w'.(w_counter) = w.(w_counter);
  ss_sealed : w'.(w_sealed) = w.(w_sealed);
  ss_input : w'.(w_input) = w.(w_input);
  ss_output : w'.(w_output) = w.(w_output);
}.
#[export] Instance same_store_preorder : PreOrder same_store.
Proof. split; [by intros w|]. intros w1 w2 w3 [] []. split; congruence. Qed.

Definition quiet s s' : Prop :=
  s' = set_ps_env s'.(ps_env) s /\ same_store (world_of s) (world_of s').
#[export] Instance quiet_preorder : PreOrder quiet.
Proof.
  split; [by intros []|]. intros s1 s2 s3 [E1 H1] [E2 H2]. split; [|by etrans].
  by rewrite E2 at 1; rewrite E1.
Qed.

Lemma quiet_env s x : same_store (world_of s) (world x) -> quiet s (set_ps_env x s).
Proof. done. Qed.

(** A call of the environment that a fit environment answers. *)
Lemma env_wp {A} (m : M X A) P (Q : A -> ps_state X -> Prop) E H s :
  does world m P s.(ps_env) ->
  (fit s -> wp m (fun _ => healthy) (fun _ _ => False) (fun _ _ => False) s.(ps_env)) ->
  (forall a x', P a (world_of s) (world x') -> (fit s -> healthy x') -> Q a (set_ps_env x' s)) ->
  (forall e x', world x' = world_of s -> ~ fit s -> E e (set_ps_env x' s)) ->
  (forall h x', world x' = world_of s \/ (exists a, P a (world_of s) (world x')) -> ~ fit s ->
     H h (set_ps_env x' s)) ->
  wp (on_env m) Q E H s.
Proof.
  unfold does, wp, on_env, fit, world_of. intros Hd Hh HQ HE HH.
  destruct (m (ps_env s)) as [[a|e|h] x']; [apply HQ|apply HE|apply HH]; auto; tauto.
Qed.

(** A computation that ends quietly in every case, with a result satisfying [R], and
    that does return when the environment was [F]it. *)
Definition calm (F : Prop) {A} (m : PS X A) (R : A -> ps_state X -> Prop) s : Prop :=
  wp m (fun a s' => quiet s s' /\ (F -> fit s') /\ R a s')
    (fun _ s' => quiet s s' /\ ~ F) (fun _ s' => quiet s s' /\ ~ F) s.

Context (F : Prop).

Lemma calm_env {A} (m : M X A) P (R : A -> ps_state X -> Prop) s :
  does world m P s.(ps_env) ->
  (fit s -> wp m (fun _ => healthy) (fun _ _ => False) (fun _ _ => False) s.(ps_env)) ->
  (forall a w', P a (world_of s) w' -> same_store (world_of s) w') ->
  (forall a x', P a (world_of s) (world x') -> R a (set_ps_env x' s)) ->
  (F -> fit s) -> calm F (on_env m) R s.
Proof.
  intros Hd Hh Hq HR HF. eapply env_wp; [exact Hd|exact Hh|..].
  - intros a x' HP Hf. split; [apply quiet_env, (Hq a), HP|]. split; [by intros; apply Hf, HF|by apply HR].
  - intros e x' Hw Hf. split; [|tauto]. apply quiet_env. by rewrite Hw.
  - intros h x' [Hw|[a HP]] Hf; (split; [|tauto]); apply quiet_env; [by rewrite Hw|by apply (Hq a)].
Qed.

Lemma calm_after {A B} (m : PS X A) (f : A -> PS X B) R Q s :
  calm F m R s ->
  (forall a s', quiet s s' -> (F -> fit s') -> R a s' -> calm F (f a) Q s') ->
  calm F (x ← m; f x) Q s.
Proof.
  unfold calm. intros Hm Hf. wp_auto. eapply wp_mono; [exact Hm|..]; cbn beta; [|done..].
  intros a s' (Hq & Hfit & HR). eapply wp_mono; [by apply (Hf a)|..]; cbn beta.
  - intros b s2 (Hq2 & Hfit2 & HQ). split; [by etrans|]. split; [tauto|done].
  - intros e s2 (Hq2 & Hfit2). split; [by etrans|tauto].
  - intros h s2 (Hq2 & Hfit2). split; [by etrans|tauto].
Qed.

Lemma calm_ret {A} (a : A) (R : A -> ps_state X -> Prop) s :
  (F -> fit s) -> R a s -> calm F (mret a) R s.
Proof. by intros HF HR. Qed.

Lemma calm_throw {A} e (R : A -> ps_state X -> Prop) s : ~ F -> calm F (throw e) R s.
Proof. by intros HF. Qed.

Lemma calm_or_return {A} (m : PS X A) e R s : calm F m R s -> calm F (or_return m e) R s.
Proof. unfold calm. intros Hm. by wp_auto. Qed.

Lemma calm_attempt {A} (m : PS X A) R s : calm F m R s ->
  calm F (attempt m) (fun r s' => match r with inr a => R a s' | inl _ => ~ F end) s.
Proof.
  unfold calm. intros Hm. wp_auto. eapply wp_mono; [exact Hm|..]; cbn beta; [done| |done].
  intros e s' [Hq Hf]. split; [done|]. split; [tauto|done].
Qed.

Lemma calm_status {A} (m : PS X A) R s : calm F m R s ->
  calm F (status_of m) (fun st s' => st = PSA_SUCCESS /\ (exists a, R a s') \/ ~ F) s.
Proof.
  unfold calm. intros Hm. wp_auto. eapply wp_mono; [exact Hm|..]; cbn beta; [| |done].
  - intros a s' (Hq & Hf & HR). split; [done|]. split; [done|]. left. by split; [|exists a].
  - intros e s' [Hq Hf]. split; [done|]. split; [tauto|by right].
Qed.

Lemma calm_mono {A} (m : PS X A) (R R' : A -> ps_state X -> Prop) s :
  calm F m R s -> (forall a s', quiet s s' -> R a s' -> R' a s') -> calm F m R' s.
Proof.
  unfold calm. intros Hm HR. eapply wp_mono; [exact Hm|..]; cbn beta; [|done..].
  intros a s' (? & ? & ?). auto.
Qed.

Lemma calm_same {A} (m : M X A) s :
  does world m same_step s.(ps_env) ->
  (fit s -> wp m (fun _ => healthy) (fun _ _ => False) (fun _ _ => False) s.(ps_env)) ->
  (F -> fit s) -> calm F (on_env m) (fun _ s' => world_of s' = world_of s) s.
Proof.
  intros Hd Hh HF. eapply calm_env; [exact Hd|exact Hh|..|done]; unfold same_step; cbn; [|done].
  by intros ? ? ->.
Qed.
End Quiet.

Section Auth.
Context `{PsBuild} {X : Type} `{!PsEnv X} `{!PsEnvLaws X} (F : Prop).
Implicit Types s : ps_state X.

Lemma abort_calm s : (F -> fit s) ->
  calm F (on_env psa_key_derivation_abort) (fun _ s' => world_of s' = world_of s) s.
Proof. apply calm_same; [apply abort_does|apply healthy_abort]. Qed.
Lemma destroy_calm k s : (F -> fit s) ->
  calm F (on_env (psa_destroy_key k)) (fun _ s' => world_of s' = world_of s) s.
Proof. apply calm_same; [apply destroy_does|apply healthy_destroy]. Qed.
Lemma setup_calm s : (F -> fit s) -> calm F (on_env psa_key_derivation_setup) (fun _ _ => True) s.
Proof.
  eapply calm_env; [apply setup_does|apply healthy_setup|..]; unfold label_step; cbn;
    [by intros ? ? ->|done].
Qed.

Lemma derive_calm l s : (F -> fit s) ->
  calm F (_ ← on_env psa_key_derivation_input_key;
          _ ← on_env (psa_key_derivation_input_bytes l);
          on_env psa_key_derivation_output_key)
    (fun k s' => (world_of s').(w_keys) k = Some l) s.
Proof.
  intros HF.
  eapply calm_after; [apply calm_same; [apply input_key_does|apply healthy_input_key|done]|].
  intros [] s1 _ HF1 _. eapply (calm_after _ _ _ (fun _ s2 => (world_of s2).(w_label) = l)).
  { eapply calm_env; [apply input_bytes_does|apply healthy_input_bytes|..|done];
      unfold label_step, world_of; cbn.
    - by intros ? ? ->.
    - by intros _ x' ->. }
  intros [] s2 _ HF2 Hl. eapply calm_env; [apply output_key_does|apply healthy_output_key|..|done];
    unfold output_key_step; cbn.
  - by intros ? ? ->.
  - intros k x' E. unfold world_of at 1. cbn. rewrite E. cbn. by rewrite Z.eqb_refl, Hl.
Qed.

(** The key derives from the label. *)
Lemma setkey_calm l s : (0 < length l)%nat -> (F -> fit s) ->
  calm F (ps_crypto_setkey l) (fun k s' => (world_of s').(w_keys) k = Some l) s.
Proof.
  intros Hl HF. unfold ps_crypto_setkey. destruct (Nat.eqb_spec (length l) 0) as [|_]; [lia|].
  eapply (calm_after _ (mret tt) _ (fun _ _ => True)); [by apply calm_ret|]. intros [] s0 _ HF0 _.
  eapply calm_after; [by apply setup_calm|]. intros [] s1 _ HF1 _.
  eapply calm_after; [by apply calm_attempt, (derive_calm l)|].
  intros [e|k] s2 _ HF2 Hk; cbn beta in Hk.
  - eapply calm_after; [by apply calm_status, abort_calm|]. intros _ s3 _ HF3 _. by apply calm_throw.
  - eapply calm_after; [by apply calm_attempt, abort_calm|].
    intros [e|[]] s3 _ HF3 Hw; cbn beta in Hw; [|by apply calm_ret; [|rewrite Hw]].
    eapply calm_after; [by apply calm_status, destroy_calm|]. intros _ s4 _ HF4 _.
    eapply calm_after; [by apply calm_status, abort_calm|]. intros _ s5 _ HF5 _.
    by apply calm_throw.
Qed.

Definition label_of (c : ps_crypto_t) : bytes := fill_key_label c.

(** [w] holds the seal of an authenticated text. *)
Definition sealed_as (w : ps_world) (label n d p c : bytes) : Prop :=
  {| se_label := label; se_nonce := n; se_data := d; se_plain := p; se_out := c |} ∈ w.(w_sealed).

Lemma decrypt_calm k label n d c s : (world_of s).(w_keys) k = Some label -> (F -> fit s) ->
  calm F (attempt (on_env (psa_aead_decrypt k n d c)))
    (fun r s' => world_of s' = world_of s /\
       match r with
       | inr p => length c = (length p + 16)%nat /\ sealed_as (world_of s) label n d p c /\
           (F -> forall p', sealed_as (world_of s) label n d p' c -> p = p')
       | inl _ => F -> forall p', ~ sealed_as (world_of s) label n d p' c
       end) s.
Proof.
  intros Hk HF. pose proof (decrypt_does k n d c s.(ps_env)) as Hd.
  pose proof (healthy_decrypt k n d c s.(ps_env)) as Hh.
  unfold calm, does, wp, attempt, on_env, fit, quiet, sealed_as, world_of, decrypt_step in *.
  destruct (psa_aead_decrypt k n d c (ps_env s)) as [[p|e|h] x']; cbn.
  - destruct Hd as (Hw & Hlen & label' & Hk' & Hin). assert (label' = label) as -> by congruence.
    rewrite Hw. repeat split; try done; [intros HF1; by destruct (Hh (HF HF1))|].
    intros HF1 p' Hp'. destruct (Hh (HF HF1)) as [_ Hh']. by apply (Hh' _ Hp').
  - rewrite Hd. repeat split; try done; [intros HF1; by destruct (Hh (HF HF1))|].
    intros HF1 p' Hp'. destruct (Hh (HF HF1)) as [_ Hh']. by apply (Hh' _ Hp').
  - split; [|tauto]. split; [done|]. by destruct Hd as [->|[? (-> & _)]].
Qed.

(** Authentication accepts what was sealed, and nothing else. *)
Lemma authenticate_calm c add s : (F -> fit s) ->
  calm F (attempt (ps_crypto_authenticate c add))
    (fun r _ => match r with
                | inr _ => sealed_as (world_of s) (label_of c) c.(cr_iv) add [] c.(cr_tag)
                | inl _ => F -> ~ sealed_as (world_of s) (label_of c) c.(cr_iv) add [] c.(cr_tag)
                end) s.
Proof.
  intros HF. unfold ps_crypto_authenticate, with_key.
  unfold calm. apply wp_attempt, wp_bind.
  eapply wp_mono; [apply (setkey_calm (fill_key_label c)); [cbn; lia|done]|..]; cbn beta; [| |done].
  2:{ intros e s1 [Hq1 HF1]. split; [done|]. split; tauto. }
  intros k s1 (Hq1 & HF1 & Hk).
  assert (w_sealed (world_of s1) = w_sealed (world_of s)) as Hsame by apply Hq1.
  apply wp_bind. eapply wp_mono; [by apply decrypt_calm|..]; cbn beta.
  - intros r s2 (Hq2 & HF2 & Hw2 & Hr). unfold sealed_as in *. rewrite Hsame in Hr.
    assert (quiet s s2) as Hq by (by etrans).
    destruct r as [e|p]; cbn beta iota zeta.
    + wp_auto. eapply wp_mono; [by apply (destroy_calm k)|..]; cbn beta; intros ? s3 (Hq3 & HF3);
        wp_auto; (split; [by etrans|]); [|tauto..]. split; [tauto|]. intros HF0. by apply Hr.
    + destruct Hr as (_ & Hin & Hu). destruct (Z.eqb_spec (Z.of_nat (length p)) 0) as [E|E].
      * destruct p; [|done]. wp_auto.
        eapply wp_mono; [by apply (destroy_calm k)|..]; cbn beta; intros ? s3 (Hq3 & HF3);
          wp_auto; (split; [by etrans|]); tauto.
      * wp_auto.
        eapply wp_mono; [by apply (destroy_calm k)|..]; cbn beta; intros ? s3 (Hq3 & HF3);
          wp_auto; (split; [by etrans|]); [|tauto..]. split; [tauto|]. intros HF0 Hin0.
        by rewrite (Hu HF0 _ Hin0) in E.
  - intros e s2 [Hq2 HnF]. split; [by etrans|]. split; tauto.
  - intros h s2 [Hq2 HnF]. split; [by etrans|done].
Qed.
End Auth.
