(* ===== verification/PsTable.v ===== *)
(** Protected Storage: the object table ([ps_object_table.c]).

    The table says which file holds the object of a client and UID, and the tag
    (or version) that file must have.  It is stored in two files in turn, each
    authenticated, in a build with rollback protection, together with the value of
    an NV counter. *)

From stdpp Require Import base list numbers.
From S2P Require Import Prelude PsTypes PsCrypto.

(** [enum ps_obj_table_state] *)
Inductive ps_obj_table_state :=
  | PS_OBJ_TABLE_VALID | PS_OBJ_TABLE_INVALID | PS_OBJ_TABLE_NVC_1_VALID | PS_OBJ_TABLE_NVC_3_VALID.
#[export] Instance ps_obj_table_state_eq : EqDecision ps_obj_table_state.
Proof. solve_decision. Defined.

(** [p_table[0]] is the table of the context, [p_table[1]] lies in the data buffer
    of [g_ps_object]. *)
Record ps_obj_table_init_ctx_t := {
  table_state_0 : ps_obj_table_state;
  table_state_1 : ps_obj_table_state;
  nvc_1 : Z;
  nvc_3 : Z;
}.

Definition table_state (i : Z) (c : ps_obj_table_init_ctx_t) : ps_obj_table_state :=
  if i =? PS_OBJ_TABLE_IDX_0 then c.(table_state_0) else c.(table_state_1).
Definition set_table_state (i : Z) (v : ps_obj_table_state) (c : ps_obj_table_init_ctx_t)
  : ps_obj_table_init_ctx_t :=
  {| table_state_0 := if i =? PS_OBJ_TABLE_IDX_0 then v else c.(table_state_0);
     table_state_1 := if i =? PS_OBJ_TABLE_IDX_0 then c.(table_state_1) else v;
     nvc_1 := c.(nvc_1); nvc_3 := c.(nvc_3) |}.

Section PsTable.
Context `{PsBuild} {X : Type} `{!PsEnv X}.

Definition p_table (i : Z) (s : ps_state X) : ps_obj_table_t :=
  if i =? PS_OBJ_TABLE_IDX_0 then s.(ps_table)
  else table_of (object_data s.(g_ps_object)).
(** Overwrite the start of [p_table[i]] with [l]. *)
Definition store_p_table (i : Z) (l : bytes) (s : ps_state X) : ps_state X :=
  if i =? PS_OBJ_TABLE_IDX_0 then
    set_ps_table (table_of (splice (table_bytes s.(ps_table)) 0 l)) s
  else set_g_ps_object
    (set_ob_body (splice s.(g_ps_object).(ob_body) 12 l) s.(g_ps_object)) s.
Definition set_p_table (i : Z) (t : ps_obj_table_t) (s : ps_state X) : ps_state X :=
  if i =? PS_OBJ_TABLE_IDX_0 then set_ps_table t s else store_p_table i (table_bytes t) s.

Definition upd_table (f : ps_obj_table_t -> ps_obj_table_t) : PS X unit :=
  modifyS (fun s => set_ps_table (f s.(ps_table)) s).

(** ** Storage *)

Definition fs_read_one (i : Z) (c : ps_obj_table_init_ctx_t) : PS X ps_obj_table_init_ctx_t :=
  r ← attempt (on_env (psa_its_get (PS_TABLE_FS_ID i) 0 PS_OBJ_TABLE_SIZE));
  match r with
  | inl _ => mret (set_table_state i PS_OBJ_TABLE_INVALID c)
  | inr l => _ ← modifyS (store_p_table i l); mret c
  end.
Definition ps_object_table_fs_read_table (c : ps_obj_table_init_ctx_t) : PS X ps_obj_table_init_ctx_t :=
  c ← fs_read_one PS_OBJ_TABLE_IDX_0 c;
  fs_read_one PS_OBJ_TABLE_IDX_1 c.

Definition ps_object_table_fs_write_table : PS X unit :=
  swap_table_idxs ← gets ps_scratch;
  t ← gets ps_table;
  _ ← on_env (psa_its_set (PS_TABLE_FS_ID swap_table_idxs) (table_bytes t) PSA_STORAGE_FLAG_NONE);
  modifyS (fun s => set_ps_active swap_table_idxs (set_ps_scratch s.(ps_active) s)).

(** ** Authentication *)

(** Increment the counter up to [nvc_1]. *)
Definition align_counter (counter_id nvc_1 : Z) : PS X unit :=
  nvc_x_val ← or_return (ps_read_nv_counter counter_id) PSA_ERROR_GENERIC_ERROR;
  while_loop (fun v =>
    if v <? nvc_1 then _ ← ps_increment_nv_counter counter_id; mret (inl (v + 1))
    else mret (inr tt)) nvc_x_val.
Definition ps_object_table_align_nv_counters (nvc_1 : Z) : PS X unit :=
  _ ← align_counter TFM_PS_NV_COUNTER_2 nvc_1;
  align_counter TFM_PS_NV_COUNTER_3 nvc_1.

(** The bytes the tag covers: with rollback protection the counter follows. *)
Definition assoc_data (t : ps_obj_table_t) (nv_counter : Z) : bytes :=
  auth_bytes t ++ (if PS_ROLLBACK_PROTECTION then le32 nv_counter else []).

(** Both versions of the function that generates the tag of the table. *)
Definition ps_object_table_nvc_generate_auth_tag (nvc_1 : Z) : PS X unit :=
  t ← gets ps_table;
  crypto ← ps_crypto_get_iv t.(tb_crypto);
  _ ← upd_table (set_tb_crypto crypto);
  ps_crypto_generate_auth_tag crypto (assoc_data t nvc_1) (fun tag =>
    upd_table (set_tb_crypto (set_cr_tag tag crypto))).

Definition authenticates (i nv_counter : Z) : PS X bool :=
  t ← gets (p_table i);
  r ← attempt (ps_crypto_authenticate t.(tb_crypto) (assoc_data t nv_counter));
  mret (match r with inr _ => true | inl _ => false end).

Definition ps_object_table_authenticate (i : Z) (c : ps_obj_table_init_ctx_t)
  : PS X ps_obj_table_init_ctx_t :=
  ok ← authenticates i c.(nvc_1);
  if (ok : bool) then mret (set_table_state i PS_OBJ_TABLE_NVC_1_VALID c)
  else if c.(nvc_3) =? PS_INVALID_NVC_VALUE then mret (set_table_state i PS_OBJ_TABLE_INVALID c)
  else
    ok ← authenticates i c.(nvc_3);
    mret (set_table_state i (if (ok : bool) then PS_OBJ_TABLE_NVC_3_VALID else PS_OBJ_TABLE_INVALID) c).

Definition authenticate_if_read (f : Z -> ps_obj_table_init_ctx_t -> PS X ps_obj_table_init_ctx_t)
    (c : ps_obj_table_init_ctx_t) : PS X ps_obj_table_init_ctx_t :=
  c ← (if decide (table_state PS_OBJ_TABLE_IDX_0 c = PS_OBJ_TABLE_INVALID) then mret c
       else f PS_OBJ_TABLE_IDX_0 c);
  if decide (table_state PS_OBJ_TABLE_IDX_1 c = PS_OBJ_TABLE_INVALID) then mret c
  else f PS_OBJ_TABLE_IDX_1 c.

Definition ps_object_table_nvc_authenticate (c : ps_obj_table_init_ctx_t)
  : PS X ps_obj_table_init_ctx_t :=
  nvc_1 ← ps_read_nv_counter TFM_PS_NV_COUNTER_1;
  nvc_2 ← ps_read_nv_counter TFM_PS_NV_COUNTER_2;
  nvc_3 ← ps_read_nv_counter TFM_PS_NV_COUNTER_3;
  authenticate_if_read ps_object_table_authenticate
    {| table_state_0 := c.(table_state_0); table_state_1 := c.(table_state_1); nvc_1 := nvc_1;
       nvc_3 := if nvc_3 =? nvc_2 then nvc_3 else PS_INVALID_NVC_VALUE |}.

Definition ps_object_table_authenticate_ctx_tables (c : ps_obj_table_init_ctx_t)
  : PS X ps_obj_table_init_ctx_t :=
  authenticate_if_read (fun i c =>
    ok ← authenticates i 0;
    mret (if (ok : bool) then c else set_table_state i PS_OBJ_TABLE_INVALID c)) c.

(** ** Saving *)

Definition ps_object_table_save_table : PS X unit :=
  nvc_1 ←
    (if PS_ROLLBACK_PROTECTION then
       _ ← ps_increment_nv_counter TFM_PS_NV_COUNTER_1;
       ps_read_nv_counter TFM_PS_NV_COUNTER_1
     else
       _ ← upd_table (fun t =>
             let n := u8 (t.(tb_swap_count) + 1) in
             set_tb_swap_count (if n =? PS_FLASH_DEFAULT_VAL then 0 else n) t);
       mret 0);
  _ ← (if PS_ENCRYPTION then ps_object_table_nvc_generate_auth_tag nvc_1 else mret tt);
  _ ← ps_object_table_fs_write_table;
  if PS_ROLLBACK_PROTECTION then ps_object_table_align_nv_counters nvc_1 else mret tt.

(** ** Initialisation *)

Definition validate_version (i : Z) (s : ps_state X) (c : ps_obj_table_init_ctx_t)
  : ps_obj_table_init_ctx_t :=
  if negb (PS_OBJECT_SYSTEM_VERSION =? (p_table i s).(tb_version))
  then set_table_state i PS_OBJ_TABLE_INVALID c else c.
Definition ps_object_table_validate_version (c : ps_obj_table_init_ctx_t)
  : PS X ps_obj_table_init_ctx_t :=
  s ← getS;
  mret (validate_version PS_OBJ_TABLE_IDX_1 s (validate_version PS_OBJ_TABLE_IDX_0 s c)).

Definition activate (i : Z) (s : ps_state X) : ps_state X :=
  set_ps_active i (set_ps_scratch
    (if i =? PS_OBJ_TABLE_IDX_0 then PS_OBJ_TABLE_IDX_1 else PS_OBJ_TABLE_IDX_0) s).
Definition load_active (i : Z) (s : ps_state X) : ps_state X :=
  let s' := activate i s in
  if i =? PS_OBJ_TABLE_IDX_0 then s' else set_ps_table (p_table i s') s'.

(** Of two valid tables, the one with the later swap count. *)
Definition latest_table (table0_swap_count table1_swap_count : Z) : Z :=
  if (table1_swap_count =? 0) && negb (table0_swap_count =? 1) then PS_OBJ_TABLE_IDX_1
  else if (table0_swap_count =? 0) && negb (table1_swap_count =? 1) then PS_OBJ_TABLE_IDX_0
  else if table0_swap_count <? table1_swap_count then PS_OBJ_TABLE_IDX_1
  else PS_OBJ_TABLE_IDX_0.

Definition ps_set_active_object_table (c : ps_obj_table_init_ctx_t) : PS X unit :=
  let st0 := table_state PS_OBJ_TABLE_IDX_0 c in
  let st1 := table_state PS_OBJ_TABLE_IDX_1 c in
  s ← getS;
  if decide (st0 = PS_OBJ_TABLE_INVALID /\ st1 = PS_OBJ_TABLE_INVALID) then throw PSA_ERROR_GENERIC_ERROR
  else if decide (st0 = PS_OBJ_TABLE_INVALID) then modifyS (load_active PS_OBJ_TABLE_IDX_1)
  else if decide (st1 = PS_OBJ_TABLE_INVALID) then modifyS (load_active PS_OBJ_TABLE_IDX_0)
  else if PS_ROLLBACK_PROTECTION then
    modifyS (load_active (if decide (st1 = PS_OBJ_TABLE_NVC_1_VALID) then PS_OBJ_TABLE_IDX_1
                          else PS_OBJ_TABLE_IDX_0))
  else modifyS (load_active (latest_table (p_table 0 s).(tb_swap_count) (p_table 1 s).(tb_swap_count))).

(** [psa_its_remove] where a missing file is no error. *)
Definition remove_if_present (fid : Z) : PS X unit :=
  r ← attempt (on_env (psa_its_remove fid));
  match r with
  | inl e => fail_if (negb (e =? PSA_ERROR_DOES_NOT_EXIST)) e
  | inr _ => mret tt
  end.

Definition own_table (t : ps_obj_table_t) : ps_obj_table_t :=
  set_tb_crypto (set_cr_owner PS_OBJ_TABLE_UID TFM_SP_PS t.(tb_crypto)) t.

Definition ps_object_table_create : PS X unit :=
  _ ← modifyS (fun s => set_ps_active PS_OBJ_TABLE_IDX_1 (set_ps_scratch PS_OBJ_TABLE_IDX_0
        (set_ps_table (set_tb_version PS_OBJECT_SYSTEM_VERSION
           (if PS_ENCRYPTION then own_table zero_table else zero_table)) s)));
  ps_object_table_save_table.

Definition ps_object_table_init : PS X unit :=
  c ← ps_object_table_fs_read_table {| table_state_0 := PS_OBJ_TABLE_VALID;
        table_state_1 := PS_OBJ_TABLE_VALID; nvc_1 := 0; nvc_3 := 0 |};
  c ← (if PS_ENCRYPTION then
         _ ← modifyS (fun s => set_p_table 0 (own_table (p_table 0 s)) s);
         _ ← modifyS (fun s => set_p_table 1 (own_table (p_table 1 s)) s);
         if PS_ROLLBACK_PROTECTION then ps_object_table_nvc_authenticate c
         else ps_object_table_authenticate_ctx_tables c
       else mret c);
  c ← ps_object_table_validate_version c;
  _ ← ps_set_active_object_table c;
  scratch ← gets ps_scratch;
  _ ← remove_if_present (PS_TABLE_FS_ID scratch);
  if PS_ENCRYPTION then t ← gets ps_table; ps_crypto_set_iv t.(tb_crypto) else mret tt.

(** ** Entries *)

Definition entry_matches (uid client_id : Z) (e : ps_obj_table_entry_t) : bool :=
  (e.(en_uid) =? uid) && (e.(en_client_id) =? client_id).

Fixpoint find_entry (f : ps_obj_table_entry_t -> bool) (i : Z) (l : list ps_obj_table_entry_t)
  : option Z :=
  match l with
  | [] => None
  | e :: l' => if f e then Some i else find_entry f (i + 1) l'
  end.

Definition ps_get_object_entry_idx (uid client_id : Z) : PS X Z :=
  t ← gets ps_table;
  match find_entry (entry_matches uid client_id) 0 t.(tb_obj_db) with
  | Some idx => mret idx
  | None => throw PSA_ERROR_DOES_NOT_EXIST
  end.

(** Scan until [idx_num] free entries were met: what is still missing of them and
    the last one met. *)
Fixpoint scan_free (i idx_num last_free : Z) (l : list ps_obj_table_entry_t) : Z * Z :=
  match l with
  | [] => (idx_num, last_free)
  | e :: l' =>
      if idx_num >? 0 then
        if e.(en_uid) =? TFM_PS_INVALID_UID then scan_free (i + 1) (idx_num - 1) i l'
        else scan_free (i + 1) idx_num last_free l'
      else (idx_num, last_free)
  end.

Definition ps_table_free_idx (idx_num : Z) : PS X Z :=
  _ ← fail_if (idx_num =? 0) PSA_ERROR_INVALID_ARGUMENT;
  t ← gets ps_table;
  let '(missing, last_free) := scan_free 0 idx_num 0 t.(tb_obj_db) in
  _ ← fail_if (negb (missing =? 0)) PSA_ERROR_INSUFFICIENT_STORAGE;
  mret last_free.

Definition set_entry (idx : Z) (e : ps_obj_table_entry_t) (t : ps_obj_table_t) : ps_obj_table_t :=
  set_tb_obj_db (<[Z.to_nat idx := e]> t.(tb_obj_db)) t.
Definition ps_table_delete_entry (idx : Z) : PS X unit := upd_table (set_entry idx empty_entry).

(** An entry read by index; the index is in range where the code uses it. *)
Definition entry_at (idx : Z) : PS X ps_obj_table_entry_t :=
  t ← gets ps_table;
  match t.(tb_obj_db) !! Z.to_nat idx with
  | Some e => mret e
  | None => stop OutOfBounds
  end.

Definition ps_object_table_obj_exist (uid client_id : Z) : PS X unit :=
  _ ← ps_get_object_entry_idx uid client_id; mret tt.

Definition ps_object_table_get_free_fid (fid_num : Z) : PS X Z :=
  idx ← ps_table_free_idx fid_num;
  let fid := PS_OBJECT_FS_ID idx in
  _ ← remove_if_present fid;
  mret fid.

(** [PS_OBJECT_FS_ID_TO_IDX], with its assertion. *)
Definition ps_object_fs_id_to_idx (fid : Z) : PS X Z :=
  let idx := u32 (fid - 1 - PS_TABLE_FS_ID PS_OBJ_TABLE_IDX_1) in
  _ ← assert_that (idx <? PS_OBJ_TABLE_ENTRIES);
  mret idx.

Definition fill_entry (uid client_id : Z) (info : ps_obj_table_info_t) (e : ps_obj_table_entry_t)
  : ps_obj_table_entry_t :=
  {| en_tag := if PS_ENCRYPTION then info.(ti_tag) else e.(en_tag);
     en_version := if PS_ENCRYPTION then e.(en_version) else info.(ti_version);
     en_uid := uid; en_client_id := client_id; en_pad := e.(en_pad) |}.

Definition ps_object_table_set_obj_tbl_info (uid client_id : Z) (info : ps_obj_table_info_t)
  : PS X unit :=
  r ← attempt (ps_get_object_entry_idx uid client_id);
  backup ← match r with
           | inr backup_idx =>
               e ← entry_at backup_idx;
               _ ← ps_table_delete_entry backup_idx;
               mret (Some (backup_idx, e))
           | inl _ => mret None
           end;
  idx ← ps_object_fs_id_to_idx info.(ti_fid);
  e ← entry_at idx;
  _ ← upd_table (set_entry idx (fill_entry uid client_id info e));
  r ← attempt ps_object_table_save_table;
  match r with
  | inr _ => mret tt
  | inl err =>
      _ ← match backup with
          | Some (backup_idx, backup_entry) =>
              if negb (backup_entry.(en_uid) =? TFM_PS_INVALID_UID)
              then upd_table (set_entry backup_idx backup_entry) else mret tt
          | None => mret tt
          end;
      _ ← ps_table_delete_entry idx;
      throw err
  end.

Definition ps_object_table_get_obj_tbl_info (uid client_id : Z) : PS X ps_obj_table_info_t :=
  idx ← ps_get_object_entry_idx uid client_id;
  e ← entry_at idx;
  mret {| ti_fid := PS_OBJECT_FS_ID idx; ti_tag := e.(en_tag); ti_version := e.(en_version) |}.

Definition ps_object_table_delete_object (uid client_id : Z) : PS X unit :=
  backup_idx ← ps_get_object_entry_idx uid client_id;
  backup_entry ← entry_at backup_idx;
  _ ← ps_table_delete_entry backup_idx;
  r ← attempt ps_object_table_save_table;
  match r with
  | inr _ => mret tt
  | inl err => _ ← upd_table (set_entry backup_idx backup_entry); throw err
  end.

Definition ps_object_table_delete_old_table : PS X unit :=
  scratch ← gets ps_scratch;
  on_env (psa_its_remove (PS_TABLE_FS_ID scratch)).
End PsTable.
