(* ===== verification/PsSystem.v ===== *)
(** Protected Storage: the object system and the requests.

    [ps_encrypted_object.c], [ps_utils.c], [ps_object_system.c],
    [tfm_protected_storage.c] and [tfm_ps_req_mngr.c].  The functions that use
    [goto] are written as the status computed up to the label and the statements
    after it, which run whatever the status is. *)

From stdpp Require Import base list numbers.
From S2P Require Import Prelude PsTypes PsCrypto PsTable.

(** The message as [psa_get] delivered it. *)
Record ps_msg_t := {
  pm_type : Z;
  pm_handle : Z;
  pm_client_id : Z;
  pm_in_size : list Z;
  pm_out_size : list Z;
}.
Definition in_size (m : ps_msg_t) (i : nat) : Z := nth i m.(pm_in_size) 0.
Definition out_size (m : ps_msg_t) (i : nat) : Z := nth i m.(pm_out_size) 0.

Definition TFM_PS_SET : Z := 1001.
Definition TFM_PS_GET : Z := 1002.
Definition TFM_PS_GET_INFO : Z := 1003.
Definition TFM_PS_REMOVE : Z := 1004.
Definition TFM_PS_GET_SUPPORT : Z := 1005.

Definition ps_utils_check_contained_in (superset_size subset_offset subset_size : Z) : Z :=
  if subset_offset >? superset_size then PSA_ERROR_INVALID_ARGUMENT
  else if subset_size >? u32 (superset_size - subset_offset) then PSA_ERROR_INVALID_ARGUMENT
  else PSA_SUCCESS.

Definition info_bytes (i : psa_storage_info_t) : bytes :=
  le32 i.(st_capacity) ++ le32 i.(st_size) ++ le32 i.(st_flags).

Section PsSystem.
Context `{PsBuild} {X : Type} `{!PsEnv X}.

Definition upd_obj (f : ps_object_t -> ps_object_t) : PS X unit :=
  modifyS (fun s => set_g_ps_object (f s.(g_ps_object)) s).
Definition set_info_fid (fid : Z) : PS X unit :=
  modifyS (fun s => set_g_obj_tbl_info
    {| ti_fid := fid; ti_tag := s.(g_obj_tbl_info).(ti_tag);
       ti_version := s.(g_obj_tbl_info).(ti_version) |} s).
Definition set_info_version (v : Z) : PS X unit :=
  modifyS (fun s => set_g_obj_tbl_info
    {| ti_fid := s.(g_obj_tbl_info).(ti_fid); ti_tag := s.(g_obj_tbl_info).(ti_tag);
       ti_version := v |} s).

(** ** ps_encrypted_object.c *)

Definition STORED_HEADER_DATA_SIZE : Z := PS_IV_LEN_BYTES.
Definition PS_ENCRYPT_SIZE (plaintext_size : Z) : Z := u32 (plaintext_size + sizeof_info).
Definition PS_MAX_ENCRYPTED_OBJ_SIZE : Z := PS_ENCRYPT_SIZE PS_MAX_ASSET_SIZE.

(** [struct auth_data_t] *)
Definition auth_data (fid : Z) : bytes := le32 fid.

Definition put_body (out : bytes) : PS X unit := upd_obj (set_ob_body out).

Definition ps_object_auth_decrypt (fid cur_size : Z) : PS X unit :=
  o ← gets g_ps_object;
  out_len ← or_return
    (ps_crypto_auth_and_decrypt o.(ob_crypto) (auth_data fid) (Z.to_nat cur_size)
       (fun s => s.(g_ps_object).(ob_body)) put_body) PSA_ERROR_GENERIC_ERROR;
  fail_if (negb (out_len =? cur_size)) PSA_ERROR_GENERIC_ERROR.

Definition ps_object_auth_encrypt (fid cur_size : Z) : PS X unit :=
  o ← gets g_ps_object;
  crypto ← ps_crypto_get_iv o.(ob_crypto);
  _ ← upd_obj (set_ob_crypto crypto);
  let plain := take (Z.to_nat cur_size) o.(ob_body) in
  out_len ← or_return
    (ps_crypto_encrypt_and_tag crypto (auth_data fid) plain
       (fun out => upd_obj (fun o => set_ob_body (splice o.(ob_body) 0 out) o))
       (fun tag => upd_obj (fun o => set_ob_crypto (set_cr_tag tag o.(ob_crypto)) o)))
    PSA_ERROR_GENERIC_ERROR;
  fail_if (negb (out_len =? cur_size)) PSA_ERROR_GENERIC_ERROR.

(** The file is read to the IV of the object's header and on into its body. *)
Definition put_stored (l : bytes) (o : ps_object_t) : ps_object_t :=
  set_ob_body (splice o.(ob_body) 0 (drop 12 l))
    (set_ob_crypto (set_cr_iv (splice o.(ob_crypto).(cr_iv) 0 (take 12 l)) o.(ob_crypto)) o).

Definition ps_encrypted_object_read (fid : Z) : PS X unit :=
  l ← on_env (psa_its_get fid 0 (u32 (PS_MAX_ENCRYPTED_OBJ_SIZE + STORED_HEADER_DATA_SIZE)));
  _ ← upd_obj (put_stored l);
  let data_length := Z.of_nat (length l) in
  let decrypt_size := if data_length <? STORED_HEADER_DATA_SIZE then UINT32_MAX
                      else data_length - STORED_HEADER_DATA_SIZE in
  _ ← fail_if (decrypt_size >? PS_MAX_ENCRYPTED_OBJ_SIZE) PSA_ERROR_DATA_CORRUPT;
  ps_object_auth_decrypt fid decrypt_size.

Definition ps_encrypted_object_blocks (size : Z) : Z := ps_crypto_to_blocks (PS_ENCRYPT_SIZE size).

Definition ps_encrypted_object_write (fid : Z) : PS X unit :=
  o ← gets g_ps_object;
  let wrt_size := PS_ENCRYPT_SIZE (current_size o) in
  _ ← ps_object_auth_encrypt fid wrt_size;
  o ← gets g_ps_object;
  on_env (psa_its_set fid (o.(ob_crypto).(cr_iv) ++ take (Z.to_nat wrt_size) o.(ob_body))
            PSA_STORAGE_FLAG_NONE).

(** An access to the data buffer, which ends with the object. *)
Definition in_data (pos size : Z) : PS X unit :=
  o ← gets g_ps_object;
  if pos + size <=? Z.of_nat (length (object_data o)) then mret tt else stop OutOfBounds.

(** ** tfm_ps_req_mngr.c: the data of the asset *)

Definition ps_req_mngr_read_asset_data (pos size : Z) : PS X unit :=
  h ← gets ps_handle;
  l ← on_env (psa_read h 1 size);
  _ ← in_data pos (Z.of_nat (length l));
  _ ← upd_obj (fun o => set_ob_body (splice o.(ob_body) (12 + Z.to_nat pos) l) o);
  fail_if (negb (Z.of_nat (length l) =? size)) PSA_ERROR_PROGRAMMER_ERROR.

Definition ps_req_mngr_write_asset_data (pos size : Z) : PS X unit :=
  h ← gets ps_handle;
  o ← gets g_ps_object;
  _ ← in_data pos size;
  on_env (psa_write h 0 (slice (object_data o) (Z.to_nat pos) (Z.to_nat size))).

(** ** ps_object_system.c *)

Definition ps_init_empty_object (uid client_id flags size : Z) : PS X unit :=
  upd_obj (fun _ =>
    let o := zero_object in
    let o := if PS_ENCRYPTION then set_ob_crypto (set_cr_owner uid client_id o.(ob_crypto)) o
             else o in
    set_create_flags flags (set_max_size size o)).

(** [g_obj_tbl_info.tag] points to the tag in [g_ps_object]. *)
Definition ps_update_table (uid client_id : Z) : PS X unit :=
  s ← getS;
  let info := s.(g_obj_tbl_info) in
  r ← attempt (ps_object_table_set_obj_tbl_info uid client_id
        {| ti_fid := info.(ti_fid); ti_tag := s.(g_ps_object).(ob_crypto).(cr_tag);
           ti_version := info.(ti_version) |});
  match r with
  | inr _ => ps_object_table_delete_old_table
  | inl err => _ ← status_of (on_env (psa_its_remove info.(ti_fid))); throw err
  end.

Definition load_obj_tbl_info (uid client_id : Z) : PS X unit :=
  info ← ps_object_table_get_obj_tbl_info uid client_id;
  _ ← modifyS (set_g_obj_tbl_info info);
  if PS_ENCRYPTION
  then upd_obj (fun o => set_ob_crypto (set_cr_tag info.(ti_tag) o.(ob_crypto)) o)
  else mret tt.

Inductive read_type_t := READ_HEADER_ONLY | READ_ALL_OBJECT.

(** The header as bytes: [version], [fid], then the information. *)
Definition put_header (l : bytes) (o : ps_object_t) : ps_object_t :=
  let hd := splice (le32 o.(ob_version) ++ le32 o.(ob_fid) ++ take 12 o.(ob_body)) 0 l in
  set_ob_body (splice o.(ob_body) 0 (slice hd 8 12))
    (set_ob_version_fid (of_le32 hd) (of_le32 (drop 4 hd)) o).

Definition ps_read_object (type : read_type_t) : PS X unit :=
  info ← gets g_obj_tbl_info;
  l ← on_env (psa_its_get info.(ti_fid) 0 PS_OBJECT_HEADER_SIZE);
  _ ← upd_obj (put_header l);
  o ← gets g_ps_object;
  _ ← fail_if (negb (o.(ob_fid) =? info.(ti_fid)) || negb (o.(ob_version) =? info.(ti_version)))
        PSA_ERROR_DATA_CORRUPT;
  match type with
  | READ_HEADER_ONLY => mret tt
  | READ_ALL_OBJECT =>
      if current_size o >? 0 then
        d ← on_env (psa_its_get info.(ti_fid) PS_OBJECT_HEADER_SIZE (current_size o));
        _ ← in_data 0 (Z.of_nat (length d));
        upd_obj (fun o => set_ob_body (splice o.(ob_body) 12 d) o)
      else mret tt
  end.

Definition ps_write_object (wrt_size : Z) : PS X unit :=
  info ← gets g_obj_tbl_info;
  _ ← upd_obj (fun o => set_ob_version_fid (u32 (o.(ob_version) + 1)) info.(ti_fid) o);
  o ← gets g_ps_object;
  _ ← set_info_version o.(ob_version);
  on_env (psa_its_set info.(ti_fid)
    (take (Z.to_nat wrt_size) (le32 o.(ob_version) ++ le32 o.(ob_fid) ++ o.(ob_body)))
    PSA_STORAGE_FLAG_NONE).

Definition PS_OBJECT_SIZE (max_size : Z) : Z := u32 (PS_OBJECT_HEADER_SIZE + max_size).

Definition ps_store_object : PS X unit :=
  s ← getS;
  if PS_ENCRYPTION then ps_encrypted_object_write s.(g_obj_tbl_info).(ti_fid)
  else ps_write_object (PS_OBJECT_SIZE (current_size s.(g_ps_object))).

(** Read the object of [g_obj_tbl_info]: all of it when it is encrypted. *)
Definition read_stored_object (uid client_id : Z) (type : read_type_t) : PS X unit :=
  if PS_ENCRYPTION then
    _ ← upd_obj (fun o => set_ob_crypto (set_cr_owner uid client_id o.(ob_crypto)) o);
    info ← gets g_obj_tbl_info;
    ps_encrypted_object_read info.(ti_fid)
  else ps_read_object type.

Definition ps_system_prepare : PS X unit := ps_object_table_init.

Definition clear_object : PS X unit := upd_obj (fun _ => zero_object).

Definition is_write_once (o : ps_object_t) : bool := truth (Z.land (create_flags o) PS_WRITE_ONCE).

(** [err = m; ... return err;] with [memset] before the return. *)
Definition then_clear {A} (m : PS X A) : PS X A :=
  r ← attempt m;
  _ ← clear_object;
  match r with inl err => throw err | inr a => mret a end.

(** The result is [*p_data_length]. *)
Definition ps_object_read (uid client_id offset size : Z) : PS X Z :=
  _ ← load_obj_tbl_info uid client_id;
  then_clear (
    _ ← read_stored_object uid client_id READ_ALL_OBJECT;
    o ← gets g_ps_object;
    _ ← fail_if (offset >? current_size o) PSA_ERROR_INVALID_ARGUMENT;
    let size := Z.min size (u32 (current_size o - offset)) in
    _ ← status_of (ps_req_mngr_write_asset_data offset size);
    mret size).

(** The object's new file: on failure the old one stays the object's. *)
Definition store_in_free_fid (fid_num old_fid size : Z) : PS X unit :=
  fid ← ps_object_table_get_free_fid fid_num;
  _ ← set_info_fid fid;
  _ ← upd_obj (set_current_size size);
  r ← attempt ps_store_object;
  match r with
  | inr _ => mret tt
  | inl err =>
      _ ← (if old_fid =? PS_INVALID_FID then mret tt else set_info_fid old_fid);
      throw err
  end.

(** The tail of a create or write: the table takes the new file, or, for an object
    that existed, is written again after a failure; then the old file goes. *)
Definition update_table_and_return (uid client_id : Z) (object_exists : bool) (r : Z + unit) (old_fid : Z)
  : PS X unit :=
  then_clear (
    _ ← match r with
        | inr _ => ps_update_table uid client_id
        | inl err =>
            _ ← (if object_exists then status_of (ps_update_table uid client_id) else mret PSA_SUCCESS);
            throw err
        end;
    if old_fid =? PS_INVALID_FID then mret tt else on_env (psa_its_remove old_fid)).

Definition create_over_existing (uid client_id flags size : Z) : PS X unit :=
  _ ← read_stored_object uid client_id READ_HEADER_ONLY;
  o ← gets g_ps_object;
  _ ← fail_if (is_write_once o) PSA_ERROR_NOT_PERMITTED;
  upd_obj (fun o => set_max_size size (set_create_flags flags o)).

Definition ps_object_create (uid client_id flags size : Z) : PS X unit :=
  _ ← fail_if (size >? PS_MAX_ASSET_SIZE) PSA_ERROR_INVALID_ARGUMENT;
  r ← attempt (load_obj_tbl_info uid client_id);
  match r with
  | inr _ =>
      old_fid ← gets (fun s => s.(g_obj_tbl_info).(ti_fid));
      r ← attempt (
        _ ← create_over_existing uid client_id flags size;
        _ ← ps_req_mngr_read_asset_data 0 size;
        store_in_free_fid 1 old_fid size);
      update_table_and_return uid client_id true r old_fid
  | inl err =>
      if err =? PSA_ERROR_DOES_NOT_EXIST then
        _ ← ps_init_empty_object uid client_id flags size;
        r ← attempt (
          _ ← ps_req_mngr_read_asset_data 0 size;
          store_in_free_fid 2 PS_INVALID_FID size);
        update_table_and_return uid client_id false r PS_INVALID_FID
      else throw err
  end.

Definition ps_object_write (uid client_id offset size : Z) : PS X unit :=
  _ ← load_obj_tbl_info uid client_id;
  old_fid ← gets (fun s => s.(g_obj_tbl_info).(ti_fid));
  r ← attempt (
    _ ← read_stored_object uid client_id READ_ALL_OBJECT;
    o ← gets g_ps_object;
    _ ← fail_if (is_write_once o) PSA_ERROR_NOT_PERMITTED;
    _ ← fail_if (offset >? current_size o) PSA_ERROR_INVALID_ARGUMENT;
    let st := ps_utils_check_contained_in (max_size o) offset size in
    _ ← fail_if (negb (st =? PSA_SUCCESS)) st;
    _ ← ps_req_mngr_read_asset_data offset size;
    store_in_free_fid 1 old_fid
      (if u32 (offset + size) >? current_size o then u32 (offset + size) else current_size o));
  update_table_and_return uid client_id true r old_fid.

Definition ps_object_get_info (uid client_id : Z) : PS X psa_storage_info_t :=
  _ ← load_obj_tbl_info uid client_id;
  then_clear (
    _ ← read_stored_object uid client_id READ_HEADER_ONLY;
    o ← gets g_ps_object;
    mret {| st_capacity := max_size o; st_size := current_size o; st_flags := create_flags o |}).

Definition ps_object_delete (uid client_id : Z) : PS X unit :=
  _ ← load_obj_tbl_info uid client_id;
  then_clear (
    _ ← read_stored_object uid client_id READ_HEADER_ONLY;
    o ← gets g_ps_object;
    _ ← fail_if (is_write_once o) PSA_ERROR_NOT_PERMITTED;
    _ ← ps_object_table_delete_object uid client_id;
    _ ← ps_object_table_delete_old_table;
    info ← gets g_obj_tbl_info;
    on_env (psa_its_remove info.(ti_fid))).

Definition ps_system_wipe_all : PS X unit := ps_object_table_create.

(** ** tfm_protected_storage.c *)

Definition tfm_ps_init : PS X unit :=
  if PS_CREATE_FLASH_LAYOUT then
    r ← attempt ps_system_prepare;
    match r with
    | inr _ => mret tt
    | inl _ => _ ← ps_system_wipe_all; ps_system_prepare
    end
  else ps_system_prepare.

Definition tfm_ps_set (client_id uid data_length flags : Z) : PS X unit :=
  _ ← fail_if (uid =? TFM_PS_INVALID_UID) PSA_ERROR_INVALID_ARGUMENT;
  _ ← fail_if (truth (Z.land flags (Z.lnot PS_STORAGE_FLAGS))) PSA_ERROR_NOT_SUPPORTED;
  ps_object_create uid client_id flags data_length.

Definition tfm_ps_get (client_id uid data_offset data_size : Z) : PS X Z :=
  _ ← fail_if (uid =? TFM_PS_INVALID_UID) PSA_ERROR_INVALID_ARGUMENT;
  ps_object_read uid client_id data_offset data_size.

Definition tfm_ps_get_info (client_id uid : Z) : PS X psa_storage_info_t :=
  _ ← fail_if (uid =? TFM_PS_INVALID_UID) PSA_ERROR_INVALID_ARGUMENT;
  ps_object_get_info uid client_id.

Definition tfm_ps_remove (client_id uid : Z) : PS X unit :=
  _ ← fail_if (uid =? TFM_PS_INVALID_UID) PSA_ERROR_INVALID_ARGUMENT;
  r ← attempt (ps_object_delete uid client_id);
  match r with
  | inr _ => mret tt
  | inl err => throw (if err =? PSA_ERROR_INVALID_SIGNATURE then PSA_ERROR_GENERIC_ERROR else err)
  end.

Definition tfm_ps_get_support : Z := 0.

(** ** tfm_ps_req_mngr.c: the requests *)

Definition sizeof_uid : Z := 8.
Definition sizeof_u32 : Z := 4.

(** Read the whole of a vector, or fail. *)
Definition read_vec (m : ps_msg_t) (vec size : Z) : PS X bytes :=
  l ← on_env (psa_read m.(pm_handle) vec size);
  _ ← fail_if (negb (Z.of_nat (length l) =? size)) PSA_ERROR_PROGRAMMER_ERROR;
  mret l.

Definition tfm_ps_set_req (m : ps_msg_t) : PS X unit :=
  _ ← fail_if (negb (in_size m 0 =? sizeof_uid) || negb (in_size m 2 =? sizeof_u32))
        PSA_ERROR_PROGRAMMER_ERROR;
  uid ← read_vec m 0 sizeof_uid;
  flags ← read_vec m 2 sizeof_u32;
  tfm_ps_set m.(pm_client_id) (of_le64 uid) (in_size m 1) (of_le32 flags).

Definition tfm_ps_get_req (m : ps_msg_t) : PS X unit :=
  _ ← fail_if (negb (in_size m 0 =? sizeof_uid) || negb (in_size m 1 =? sizeof_u32))
        PSA_ERROR_PROGRAMMER_ERROR;
  uid ← read_vec m 0 sizeof_uid;
  offset ← read_vec m 1 sizeof_u32;
  _ ← tfm_ps_get m.(pm_client_id) (of_le64 uid) (of_le32 offset) (out_size m 0);
  mret tt.

Definition tfm_ps_get_info_req (m : ps_msg_t) : PS X unit :=
  _ ← fail_if (negb (in_size m 0 =? sizeof_uid) || negb (out_size m 0 =? sizeof_info))
        PSA_ERROR_PROGRAMMER_ERROR;
  uid ← read_vec m 0 sizeof_uid;
  info ← tfm_ps_get_info m.(pm_client_id) (of_le64 uid);
  on_env (psa_write m.(pm_handle) 0 (info_bytes info)).

Definition tfm_ps_remove_req (m : ps_msg_t) : PS X unit :=
  _ ← fail_if (negb (in_size m 0 =? sizeof_uid)) PSA_ERROR_PROGRAMMER_ERROR;
  uid ← read_vec m 0 sizeof_uid;
  tfm_ps_remove m.(pm_client_id) (of_le64 uid).

Definition tfm_ps_get_support_req (m : ps_msg_t) : PS X unit :=
  _ ← fail_if (negb (out_size m 0 =? sizeof_u32)) PSA_ERROR_PROGRAMMER_ERROR;
  on_env (psa_write m.(pm_handle) 0 (le32 tfm_ps_get_support)).

Definition tfm_protected_storage_service_sfn (m : ps_msg_t) : PS X unit :=
  _ ← modifyS (set_ps_handle m.(pm_handle));
  if m.(pm_type) =? TFM_PS_SET then tfm_ps_set_req m
  else if m.(pm_type) =? TFM_PS_GET then tfm_ps_get_req m
  else if m.(pm_type) =? TFM_PS_GET_INFO then tfm_ps_get_info_req m
  else if m.(pm_type) =? TFM_PS_REMOVE then tfm_ps_remove_req m
  else if m.(pm_type) =? TFM_PS_GET_SUPPORT then tfm_ps_get_support_req m
  else throw PSA_ERROR_PROGRAMMER_ERROR.

Definition tfm_ps_entry : PS X unit := tfm_ps_init.
End PsSystem.
