(* ===== verification/PsObjects.v ===== *)
(** Protected Storage: the object table as a finite map.

    The table of [PsTable] stands for a map from a client's UID to the file of the
    object and the tag (or version) the file must have.  The operations of the table
    are those of the map, whatever the services they call do, and the requests keep
    the table well formed with an entry to spare. *)

From stdpp Require Import base list numbers gmap.
From S2P Require Import Prelude PsTypes PsCrypto PsTable PsSystem.

Definition entry_key (e : ps_obj_table_entry_t) : Z * Z := (e.(en_uid), e.(en_client_id)).
Definition entry_used (e : ps_obj_table_entry_t) : bool := negb (e.(en_uid) =? TFM_PS_INVALID_UID).

Section Objects.
Context `{PsBuild}.

(** What an object's information says in this build. *)
Definition object_info (info : ps_obj_table_info_t) : ps_obj_table_info_t :=
  {| ti_fid := info.(ti_fid); ti_tag := if PS_ENCRYPTION then info.(ti_tag) else [];
     ti_version := if PS_ENCRYPTION then 0 else info.(ti_version) |}.
Definition entry_info (idx : Z) (e : ps_obj_table_entry_t) : ps_obj_table_info_t :=
  object_info {| ti_fid := PS_OBJECT_FS_ID idx; ti_tag := e.(en_tag); ti_version := e.(en_version) |}.

Fixpoint objects_from (i : Z) (db : list ps_obj_table_entry_t) : gmap (Z * Z) ps_obj_table_info_t :=
  match db with
  | [] => ∅
  | e :: db' =>
      if entry_used e then <[entry_key e := entry_info i e]> (objects_from (i + 1) db')
      else objects_from (i + 1) db'
  end.
Definition table_objects (db : list ps_obj_table_entry_t) := objects_from 0 db.

(** At most one entry for an object. *)
Definition unique_entries (db : list ps_obj_table_entry_t) : Prop :=
  forall i j e e', db !! i = Some e -> db !! j = Some e' -> entry_used e = true ->
    entry_key e = entry_key e' -> i = j.
Definition table_wf (db : list ps_obj_table_entry_t) : Prop :=
  Z.of_nat (length db) = PS_OBJ_TABLE_ENTRIES /\ unique_entries db.

Fixpoint free_entries (db : list ps_obj_table_entry_t) : Z :=
  match db with
  | [] => 0
  | e :: db' => (if entry_used e then 0 else 1) + free_entries db'
  end.

(** ** The list and the map *)

Lemma entry_used_key e e' : entry_key e = entry_key e' -> entry_used e = entry_used e'.
Proof. unfold entry_key, entry_used. intros [= -> _]. done. Qed.

Lemma empty_unused : entry_used empty_entry = false.
Proof. done. Qed.

Lemma fill_entry_key uid cid info e : entry_key (fill_entry uid cid info e) = (uid, cid).
Proof. done. Qed.

Lemma fill_entry_used uid cid info e : uid <> 0 -> entry_used (fill_entry uid cid info e) = true.
Proof. unfold entry_used, TFM_PS_INVALID_UID. cbn. intros. destruct (Z.eqb_spec uid 0); done. Qed.

Lemma fill_entry_info idx uid cid info e :
  info.(ti_fid) = PS_OBJECT_FS_ID idx -> entry_info idx (fill_entry uid cid info e) = object_info info.
Proof. unfold entry_info, object_info, fill_entry. cbn. intros ->. by destruct PS_ENCRYPTION. Qed.

Lemma find_entry_from f i db :
  match find_entry f i db with
  | Some j => exists n e, j = i + Z.of_nat n /\ db !! n = Some e /\ f e = true
  | None => forall n e, db !! n = Some e -> f e = false
  end.
Proof.
  revert i. induction db as [|e db IH]; intros i; cbn [find_entry]; [done|].
  destruct (f e) eqn:Ef; [exists O, e; split; [lia|done]|].
  specialize (IH (i + 1)). destruct (find_entry f (i + 1) db) as [j|].
  - destruct IH as (n & e' & -> & ? & ?). exists (S n), e'. split; [lia|done].
  - intros [|n] e' He; cbn in He; [by injection He as <-|eauto].
Qed.

Lemma entry_matches_key uid cid e : entry_matches uid cid e = true <-> entry_key e = (uid, cid).
Proof.
  unfold entry_matches, entry_key. rewrite andb_true_iff, !Z.eqb_eq.
  split; [by intros [-> ->] | by intros [= -> ->]].
Qed.

(** The search finds what the map holds. *)
Lemma objects_find uid cid i db : uid <> 0 ->
  objects_from i db !! (uid, cid) =
    j ← find_entry (entry_matches uid cid) i db;
    e ← db !! Z.to_nat (j - i);
    Some (entry_info j e).
Proof.
  intros Hu. revert i. induction db as [|e db IH]; intros i; cbn [objects_from find_entry]; [done|].
  destruct (entry_matches uid cid e) eqn:Em.
  - apply entry_matches_key in Em.
    replace (entry_used e) with true; [rewrite <- Em, lookup_insert_eq; cbn;
      by replace (Z.to_nat (i - i)) with O by lia|].
    unfold entry_used, entry_key, TFM_PS_INVALID_UID in *. injection Em as -> _.
    destruct (Z.eqb_spec uid 0); done.
  - transitivity (objects_from (i + 1) db !! (uid, cid)).
    + destruct (entry_used e); [|done]. apply lookup_insert_ne. intros E.
      apply (entry_matches_key uid cid e) in E. congruence.
    + rewrite IH. pose proof (find_entry_from (entry_matches uid cid) (i + 1) db) as Hf.
      destruct (find_entry _ (i + 1) db) as [j|]; [|done].
      destruct Hf as (n & e' & -> & He & _). cbn.
      replace (Z.to_nat (i + 1 + Z.of_nat n - i)) with (S n) by lia.
      by replace (Z.to_nat (i + 1 + Z.of_nat n - (i + 1))) with n by lia.
Qed.

Lemma objects_key i db k info : objects_from i db !! k = Some info ->
  exists n e, db !! n = Some e /\ entry_used e = true /\ entry_key e = k /\
    info = entry_info (i + Z.of_nat n) e.
Proof.
  revert i. induction db as [|e db IH]; intros i; cbn [objects_from]; [done|].
  assert (objects_from (i + 1) db !! k = Some info ->
    exists n e', (e :: db) !! n = Some e' /\ entry_used e' = true /\ entry_key e' = k /\
      info = entry_info (i + Z.of_nat n) e') as Hrec.
  { intros Hl. destruct (IH _ Hl) as (n & e' & ? & ? & ? & ->). exists (S n), e'.
    repeat split; [done..|]. f_equal. lia. }
  destruct (entry_used e) eqn:Eu; [|done].
  destruct (decide (entry_key e = k)) as [<- |Hk].
  - rewrite lookup_insert_eq. intros [= <-]. exists O, e. repeat split; [done|]. f_equal. lia.
  - rewrite lookup_insert_ne by done. done.
Qed.

Lemma objects_absent i db k : objects_from i db !! k = None ->
  forall n e, db !! n = Some e -> entry_used e = true -> entry_key e <> k.
Proof.
  revert i. induction db as [|e db IH]; intros i; cbn [objects_from]; [done|].
  intros Hn [|n] e' He Hu Hk; cbn in He.
  - injection He as <-. rewrite Hu, Hk, lookup_insert_eq in Hn. done.
  - destruct (entry_used e).
    + apply lookup_insert_None in Hn as [Hn _]. by eapply IH.
    + by eapply IH.
Qed.

Lemma objects_unused i db n : (forall e, db !! n = Some e -> entry_used e = false) ->
  objects_from i (<[n := empty_entry]> db) = objects_from i db.
Proof.
  revert i n. induction db as [|e db IH]; intros i [|n] Hn; cbn; [done..| |].
  - by rewrite (Hn e eq_refl).
  - rewrite IH; [done|]. intros e' He. by apply Hn.
Qed.

Lemma objects_add i db n e e' k : db !! n = Some e -> entry_used e = false ->
  entry_used e' = true -> entry_key e' = k -> objects_from i db !! k = None ->
  objects_from i (<[n := e']> db) = <[k := entry_info (i + Z.of_nat n) e']> (objects_from i db).
Proof.
  intros He Hu Hu' <-. revert i n He. induction db as [|e0 db IH]; intros i [|n] He Hk; [done..| |].
  - cbn in He. injection He as ->. change (<[O := e']> (e :: db)) with (e' :: db).
    cbn [objects_from].
    replace (i + Z.of_nat 0) with i by lia. by rewrite Hu, Hu'.
  - cbn in He. change (<[S n := e']> (e0 :: db)) with (e0 :: <[n := e']> db).
    cbn [objects_from] in Hk |- *. destruct (entry_used e0) eqn:Eu.
    + apply lookup_insert_None in Hk as [Hk Hne]. rewrite IH by done.
      replace (i + Z.of_nat (S n)) with (i + 1 + Z.of_nat n) by lia.
      by rewrite insert_insert_ne.
    + replace (i + Z.of_nat (S n)) with (i + 1 + Z.of_nat n) by lia. by apply IH.
Qed.

Lemma unique_tail e db : unique_entries (e :: db) -> unique_entries db.
Proof.
  intros Hq i j a b Ha Hb Hu Hk. assert (S i = S j) as [= ->]; [|done].
  by apply (Hq (S i) (S j) a b).
Qed.

Lemma objects_remove i db n e : unique_entries db -> db !! n = Some e -> entry_used e = true ->
  objects_from i (<[n := empty_entry]> db) = delete (entry_key e) (objects_from i db).
Proof.
  intros Hq He Hu. revert i n Hq He. induction db as [|e0 db IH]; intros i [|n] Hq He; [done..| |].
  - cbn in He. injection He as ->. cbn. rewrite Hu. symmetry. apply delete_insert_id.
    destruct (objects_from (i + 1) db !! entry_key e) as [info|] eqn:El; [|done].
    apply objects_key in El as (m & e' & He' & Hu' & Hk & _).
    by specialize (Hq O (S m) e e' eq_refl He' Hu (eq_sym Hk)).
  - cbn in He. cbn. pose proof (unique_tail _ _ Hq) as Hq'.
    destruct (entry_used e0) eqn:Eu; [|by apply IH].
    rewrite IH by done. rewrite delete_insert_ne; [done|].
    intros Hk. by specialize (Hq O (S n) e0 e eq_refl He Eu (eq_sym Hk)).
Qed.

Lemma unique_empty db n : unique_entries db -> unique_entries (<[n := empty_entry]> db).
Proof.
  intros Hq i j a b Ha Hb Hu Hk.
  assert (entry_used b = true) as Hub by (by rewrite <- (entry_used_key _ _ Hk)).
  apply list_lookup_insert_Some in Ha as [(_ & <- & _)|[_ Ha]]; [done|].
  apply list_lookup_insert_Some in Hb as [(_ & <- & _)|[_ Hb]]; [done|].
  by apply (Hq i j a b).
Qed.

Lemma unique_add db n e k : unique_entries db -> table_objects db !! k = None -> entry_key e = k ->
  unique_entries (<[n := e]> db).
Proof.
  intros Hq Hk <- i j a b Ha Hb Hu Hab.
  assert (entry_used b = true) as Hub by (by rewrite <- (entry_used_key _ _ Hab)).
  pose proof (objects_absent _ _ _ Hk) as Hno.
  apply list_lookup_insert_Some in Ha as [(<- & <- & _)|[_ Ha]];
    apply list_lookup_insert_Some in Hb as [(<- & <- & _)|[_ Hb]]; [done|..].
  - destruct (Hno j b Hb Hub (eq_sym Hab)).
  - destruct (Hno i a Ha Hu Hab).
  - by apply (Hq i j a b).
Qed.

(** ** Free entries *)

Lemma free_insert db n e e' : db !! n = Some e ->
  free_entries (<[n := e']> db) =
    free_entries db - (if entry_used e then 0 else 1) + (if entry_used e' then 0 else 1).
Proof.
  revert n. induction db as [|e0 db IH]; intros [|n] He; [done..| |]; cbn in He.
  - injection He as ->. change (<[O := e']> (e :: db)) with (e' :: db). cbn [free_entries]. lia.
  - change (<[S n := e']> (e0 :: db)) with (e0 :: <[n := e']> db). cbn [free_entries].
    rewrite (IH _ He). lia.
Qed.

Lemma free_nonneg db : 0 <= free_entries db.
Proof.
  induction db as [|e db IH]; cbn [free_entries]; [done|]. destruct (entry_used e); lia.
Qed.

Lemma scan_free_spec i n last db missing last' : 0 <= n ->
  scan_free i n last db = (missing, last') ->
  0 <= missing /\ n - missing <= free_entries db /\
  (n = missing /\ last' = last \/
   exists k e, last' = i + Z.of_nat k /\ db !! k = Some e /\ entry_used e = false).
Proof.
  revert i n last. induction db as [|e db IH]; intros i n last Hn; cbn [scan_free free_entries].
  { intros [= <- <-]. split; [done|]. split; [lia|by left]. }
  pose proof (free_nonneg db) as Hf.
  destruct (Z.gtb_spec n 0).
  2:{ intros [= <- <-]. split; [done|]. split; [|by left]. destruct (entry_used e); lia. }
  destruct (Z.eqb_spec e.(en_uid) TFM_PS_INVALID_UID) as [Eu|Eu]; intros Hs;
    apply IH in Hs as (? & ? & Hl); try lia.
  - assert (entry_used e = false) as Hu by (unfold entry_used; by rewrite Eu).
    rewrite Hu. split; [done|]. split; [lia|]. right.
    destruct Hl as [[_ ->]|(k & e' & -> & ? & ?)]; [exists O, e|exists (S k), e'];
      (split; [lia|done]).
  - assert (entry_used e = true) as Hu.
    { unfold entry_used. destruct (Z.eqb_spec e.(en_uid) TFM_PS_INVALID_UID); done. }
    rewrite Hu. split; [done|]. split; [lia|].
    destruct Hl as [Hl|(k & e' & -> & ? & ?)]; [by left|]. right. exists (S k), e'. split; [lia|done].
Qed.
End Objects.

(** ** Frames

    Whatever the environment does, the services the table calls change neither the
    entries nor the information of the current object. *)
Section Frames.
Context `{PsBuild} {X : Type} `{!PsEnv X}.
Context (db : list ps_obj_table_entry_t) (info : ps_obj_table_info_t).

Definition stays (s : ps_state X) : Prop :=
  s.(ps_table).(tb_obj_db) = db /\ s.(g_obj_tbl_info) = info.

Lemma stays_on_env {A} (m : M X A) : keeps stays (on_env m).
Proof. intros s [? ?]. unfold on_env. by destruct (m (ps_env s)). Qed.

Lemma stays_modifyS f : (forall s, (f s).(ps_table).(tb_obj_db) = s.(ps_table).(tb_obj_db)) ->
  (forall s, (f s).(g_obj_tbl_info) = s.(g_obj_tbl_info)) -> keeps stays (modifyS f).
Proof.
  intros Ht Hi. apply keeps_modifyS. intros s [H1 H2]. by split; rewrite ?Ht, ?Hi.
Qed.

Lemma stays_upd_table f : (forall t, (f t).(tb_obj_db) = t.(tb_obj_db)) -> keeps stays (upd_table f).
Proof. intros Hf. apply stays_modifyS; [intros s; apply Hf|done]. Qed.

Lemma stays_upd_obj f : keeps stays (upd_obj f).
Proof. by apply stays_modifyS. Qed.
#[local] Hint Resolve stays_on_env stays_upd_obj : keeps.
#[local] Hint Extern 3 (keeps stays (modifyS _)) => by apply stays_modifyS : keeps.
#[local] Hint Extern 3 (keeps stays (upd_table _)) => by apply stays_upd_table : keeps.

Lemma stays_read_counter c : keeps stays (ps_read_nv_counter c).
Proof. unfold ps_read_nv_counter. keeps_auto. Qed.
Lemma stays_increment_counter c : keeps stays (ps_increment_nv_counter c).
Proof. unfold ps_increment_nv_counter. keeps_auto. Qed.
#[local] Hint Resolve stays_read_counter stays_increment_counter : keeps.

Lemma stays_setkey l : keeps stays (ps_crypto_setkey l).
Proof. unfold ps_crypto_setkey. keeps_auto. Qed.
Lemma stays_get_iv c : keeps stays (ps_crypto_get_iv c).
Proof. unfold ps_crypto_get_iv. keeps_auto. Qed.
#[local] Hint Resolve stays_setkey stays_get_iv : keeps.

Lemma stays_with_key {A B} c (m : Z -> PS X A) ok e (keep : A -> PS X B) :
  (forall k, keeps stays (m k)) -> (forall a, keeps stays (keep a)) ->
  keeps stays (with_key c m ok e keep).
Proof. intros Hm Hk. unfold with_key. keeps_auto; auto. Qed.
#[local] Hint Resolve stays_with_key : keeps.

Lemma stays_generate_auth_tag n : keeps stays (ps_object_table_nvc_generate_auth_tag n).
Proof.
  unfold ps_object_table_nvc_generate_auth_tag, ps_crypto_generate_auth_tag. keeps_auto.
Qed.
Lemma stays_align_counter c n : keeps stays (align_counter c n).
Proof.
  unfold align_counter. keeps_auto. apply keeps_while_loop. keeps_auto.
Qed.
#[local] Hint Resolve stays_generate_auth_tag stays_align_counter : keeps.

Lemma stays_save_table : keeps stays ps_object_table_save_table.
Proof.
  unfold ps_object_table_save_table, ps_object_table_fs_write_table,
    ps_object_table_align_nv_counters.
  keeps_auto.
Qed.

Lemma stays_delete_old_table : keeps stays ps_object_table_delete_old_table.
Proof. unfold ps_object_table_delete_old_table. keeps_auto. Qed.

Lemma stays_remove_if_present fid : keeps stays (remove_if_present fid).
Proof. unfold remove_if_present. keeps_auto. Qed.

(** ** The object and its file *)

Lemma stays_encrypted_read fid : keeps stays (ps_encrypted_object_read fid).
Proof.
  unfold ps_encrypted_object_read, ps_object_auth_decrypt, ps_crypto_auth_and_decrypt, put_body.
  keeps_auto. apply stays_with_key; keeps_auto.
Qed.

Lemma stays_encrypted_write fid : keeps stays (ps_encrypted_object_write fid).
Proof.
  unfold ps_encrypted_object_write, ps_object_auth_encrypt, ps_crypto_encrypt_and_tag.
  keeps_auto. apply stays_with_key; keeps_auto.
Qed.

Lemma stays_read_object type : keeps stays (ps_read_object type).
Proof. unfold ps_read_object, in_data. keeps_auto. Qed.
#[local] Hint Resolve stays_encrypted_read stays_encrypted_write stays_read_object : keeps.

Lemma stays_read_stored_object uid cid type : keeps stays (read_stored_object uid cid type).
Proof. unfold read_stored_object. keeps_auto. Qed.
Lemma stays_read_asset_data pos size : keeps stays (ps_req_mngr_read_asset_data pos size).
Proof. unfold ps_req_mngr_read_asset_data, in_data. keeps_auto. Qed.
Lemma stays_write_asset_data pos size : keeps stays (ps_req_mngr_write_asset_data pos size).
Proof. unfold ps_req_mngr_write_asset_data, in_data. keeps_auto. Qed.
Lemma stays_create_over uid cid flags size : keeps stays (create_over_existing uid cid flags size).
Proof. pose proof stays_read_stored_object. unfold create_over_existing. keeps_auto. Qed.
Lemma stays_init_empty uid cid flags size : keeps stays (ps_init_empty_object uid cid flags size).
Proof. unfold ps_init_empty_object. keeps_auto. Qed.
End Frames.

#[export] Hint Resolve stays_on_env stays_upd_obj stays_save_table stays_delete_old_table
  stays_remove_if_present stays_read_stored_object stays_read_asset_data stays_write_asset_data
  stays_create_over stays_init_empty stays_encrypted_write : keeps.

(** ** The operations of the table *)
Section Operations.
Context `{PsBuild} {X : Type} `{!PsEnv X}.

Definition obj_db (s : ps_state X) : list ps_obj_table_entry_t := s.(ps_table).(tb_obj_db).

(** The entry of file [fid] is free or the object's own. *)
Definition entry_for (uid cid fid : Z) (db : list ps_obj_table_entry_t) : Prop :=
  exists n e, fid = PS_OBJECT_FS_ID (Z.of_nat n) /\ db !! n = Some e /\
    (entry_used e = false \/ entry_key e = (uid, cid)).

(** What a table that was not saved holds: the object is lost when the entry was its
    own. *)
Definition after_failure (uid cid fid : Z) (m : gmap (Z * Z) ps_obj_table_info_t)
  : gmap (Z * Z) ps_obj_table_info_t :=
  match m !! (uid, cid) with
  | Some old => if old.(ti_fid) =? fid then delete (uid, cid) m else m
  | None => m
  end.

Lemma find_own_entry uid cid db : uid <> 0 ->
  match find_entry (entry_matches uid cid) 0 db with
  | Some j => exists n e, j = Z.of_nat n /\ db !! n = Some e /\ entry_used e = true /\
                entry_key e = (uid, cid) /\ table_objects db !! (uid, cid) = Some (entry_info j e)
  | None => table_objects db !! (uid, cid) = None
  end.
Proof.
  intros Hu. pose proof (find_entry_from (entry_matches uid cid) 0 db) as Hf.
  pose proof (objects_find uid cid 0 db Hu) as Ho. unfold table_objects. rewrite Ho.
  destruct (find_entry _ 0 db) as [j|]; [|done].
  destruct Hf as (n & e & -> & He & Hm). apply entry_matches_key in Hm.
  exists n, e. repeat split; [done| |done|].
  - unfold entry_used, entry_key, TFM_PS_INVALID_UID in *. injection Hm as -> _.
    by destruct (Z.eqb_spec uid 0).
  - cbn [mbind option_bind]. rewrite Z.sub_0_r, Z.add_0_l, Nat2Z.id, He. done.
Qed.

Lemma fs_id_to_idx_wp (n : nat) (Q : Z -> ps_state X -> Prop) E W s :
  Z.of_nat n < PS_OBJ_TABLE_ENTRIES < 2 ^ 31 -> Q (Z.of_nat n) s ->
  wp (ps_object_fs_id_to_idx (PS_OBJECT_FS_ID (Z.of_nat n))) Q E W s.
Proof.
  intros Hn HQ. unfold ps_object_fs_id_to_idx.
  replace (u32 (PS_OBJECT_FS_ID (Z.of_nat n) - 1 - PS_TABLE_FS_ID PS_OBJ_TABLE_IDX_1))
    with (Z.of_nat n).
  2:{ unfold PS_OBJECT_FS_ID, PS_TABLE_FS_ID, PS_OBJ_TABLE_IDX_1.
      rewrite u32_small; [lia|]. unfold is_u32. lia. }
  wp_auto; [|done]. lia.
Qed.

Lemma entry_at_wp (n : nat) e (Q : ps_obj_table_entry_t -> ps_state X -> Prop) E W s :
  obj_db s !! n = Some e -> Q e s -> wp (entry_at (Z.of_nat n)) Q E W s.
Proof.
  intros He HQ. unfold entry_at. wp_auto. unfold obj_db in He. rewrite Nat2Z.id, He. by wp_auto.
Qed.

(** The object's own entry, if it has one. *)
Definition own_entry (uid cid : Z) (db : list ps_obj_table_entry_t)
  : option (nat * ps_obj_table_entry_t) :=
  j ← find_entry (entry_matches uid cid) 0 db; e ← db !! Z.to_nat j; Some (Z.to_nat j, e).
(** The list of entries with the object's own taken out. *)
Definition own_removed (own : option (nat * ps_obj_table_entry_t)) (db : list ps_obj_table_entry_t) :=
  match own with Some (b, _) => <[b := empty_entry]> db | None => db end.


Lemma own_entry_spec uid cid db : uid <> 0 ->
  match own_entry uid cid db with
  | Some (b, e) => db !! b = Some e /\ entry_used e = true /\ entry_key e = (uid, cid) /\
      table_objects db !! (uid, cid) = Some (entry_info (Z.of_nat b) e) /\
      find_entry (entry_matches uid cid) 0 db = Some (Z.of_nat b)
  | None => table_objects db !! (uid, cid) = None /\ find_entry (entry_matches uid cid) 0 db = None
  end.
Proof.
  intros Hu. pose proof (find_own_entry uid cid db Hu) as Hf. unfold own_entry.
  destruct (find_entry _ 0 db) as [j|]; cbn [mbind option_bind]; [|done].
  destruct Hf as (n & e & -> & He & ? & ? & ?). by rewrite Nat2Z.id, He.
Qed.

Lemma own_removed_spec uid cid db : table_wf db -> uid <> 0 ->
  let db1 := own_removed (own_entry uid cid db) db in
  table_wf db1 /\ table_objects db1 = delete (uid, cid) (table_objects db).
Proof.
  intros [Hl Hq] Hu. pose proof (own_entry_spec uid cid db Hu) as Ho. cbn.
  destruct (own_entry uid cid db) as [[b e]|]; cbn [own_removed].
  - destruct Ho as (He & Hue & Hk & _). split; [split; [by rewrite length_insert|]|].
    + by apply unique_empty.
    + unfold table_objects. rewrite <- Hk. by eapply objects_remove.
  - destruct Ho as [Ho _]. split; [done|]. symmetry. by apply delete_id.
Qed.

(** The entry of the object's file is free once its own entry is taken out. *)
Lemma entry_freed uid cid n db e : table_wf db -> uid <> 0 -> db !! n = Some e ->
  entry_used e = false \/ entry_key e = (uid, cid) ->
  exists e1, own_removed (own_entry uid cid db) db !! n = Some e1 /\ entry_used e1 = false.
Proof.
  intros [_ Hq] Hu He Hor. pose proof (own_entry_spec uid cid db Hu) as Ho.
  assert (n < length db)%nat as Hn by (by eapply lookup_lt_Some).
  destruct (own_entry uid cid db) as [[b eb]|]; cbn [own_removed].
  - destruct Ho as (Hb & Hub & Hkb & _).
    destruct (decide (b = n)) as [->|Hne]; [rewrite list_lookup_insert_eq by done; eauto|].
    rewrite list_lookup_insert_ne by done. exists e. split; [done|].
    destruct Hor as [|Hk]; [done|]. destruct Hne. apply (Hq b n eb e); congruence.
  - destruct Ho as [Ho _]. exists e. split; [done|]. destruct Hor as [|Hk]; [done|].
    destruct (entry_used e) eqn:Eu; [|done]. by destruct (objects_absent _ _ _ Ho n e).
Qed.

Lemma set_db uid cid info n e1 db : table_wf db -> uid <> 0 ->
  info.(ti_fid) = PS_OBJECT_FS_ID (Z.of_nat n) ->
  own_removed (own_entry uid cid db) db !! n = Some e1 -> entry_used e1 = false ->
  let db2 := <[n := fill_entry uid cid info e1]> (own_removed (own_entry uid cid db) db) in
  table_wf db2 /\ table_objects db2 = <[(uid, cid) := object_info info]> (table_objects db) /\
  free_entries db2 = free_entries (own_removed (own_entry uid cid db) db) - 1.
Proof.
  intros Hwf Hu Hfid He1 Hu1. cbn.
  destruct (own_removed_spec uid cid db Hwf Hu) as [[Hl Hq] Ho].
  set (db1 := own_removed _ db) in *.
  assert (table_objects db1 !! (uid, cid) = None) as Hno by (rewrite Ho; apply lookup_delete_eq).
  split; [split; [by rewrite length_insert|by apply (unique_add _ _ _ (uid, cid))]|].
  pose proof (fill_entry_used uid cid info e1 Hu) as Hfu. split.
  - unfold table_objects at 1. rewrite (objects_add 0 _ _ _ _ (uid, cid) He1); [|done..].
    rewrite fill_entry_info by done. fold (table_objects db1). rewrite Ho. by rewrite insert_delete_eq.
  - rewrite (free_insert _ _ _ _ He1), Hu1, Hfu. lia.
Qed.

Lemma failed_db uid cid n e db : table_wf db -> uid <> 0 -> db !! n = Some e ->
  entry_used e = false \/ entry_key e = (uid, cid) ->
  table_wf (<[n := empty_entry]> db) /\
  table_objects (<[n := empty_entry]> db) =
    after_failure uid cid (PS_OBJECT_FS_ID (Z.of_nat n)) (table_objects db) /\
  free_entries db <= free_entries (<[n := empty_entry]> db).
Proof.
  intros [Hl Hq] Hu He Hor. split; [split; [by rewrite length_insert|by apply unique_empty]|].
  split.
  2:{ rewrite (free_insert _ _ _ _ He), empty_unused. destruct (entry_used e); lia. }
  pose proof (own_entry_spec uid cid db Hu) as Ho. unfold after_failure.
  destruct (entry_used e) eqn:Eu.
  - destruct Hor as [|Hk]; [done|].
    destruct (own_entry uid cid db) as [[b eb]|].
    + destruct Ho as (Hb & Hub & Hkb & -> & _). assert (b = n) as ->.
      { apply (Hq b n eb e); congruence. }
      cbn. rewrite Z.eqb_refl. rewrite <- Hk. by eapply objects_remove.
    + destruct Ho as [Ho _]. by destruct (objects_absent _ _ _ Ho n e).
  - transitivity (table_objects db).
    { apply objects_unused. intros e' He'. congruence. }
    destruct (own_entry uid cid db) as [[b eb]|].
    + destruct Ho as (Hb & Hub & _ & -> & _). cbn.
      destruct (Z.eqb_spec (PS_OBJECT_FS_ID (Z.of_nat b)) (PS_OBJECT_FS_ID (Z.of_nat n))) as [E|];
        [|done].
      unfold PS_OBJECT_FS_ID in E. assert (b = n) as -> by lia. congruence.
    + by destruct Ho as [-> _].
Qed.

(** The rollback of a failed save empties the entry of the new file. *)
Lemma rolled_back uid cid n e' db : uid <> 0 ->
  let own := own_entry uid cid db in
  let db2 := <[n := e']> (own_removed own db) in
  <[n := empty_entry]> (match own with Some (b, eb) => <[b := eb]> db2 | None => db2 end) =
  <[n := empty_entry]> db.
Proof.
  intros Hu. pose proof (own_entry_spec uid cid db Hu) as Ho. cbn.
  destruct (own_entry uid cid db) as [[b eb]|]; cbn [own_removed].
  - destruct Ho as (Hb & _). destruct (decide (b = n)) as [->|Hne].
    + by rewrite !list_insert_insert_eq.
    + rewrite (list_insert_insert_ne _ b n) by done.
      rewrite !list_insert_insert_eq. by rewrite (list_insert_id db b).
  - by rewrite list_insert_insert_eq.
Qed.

Lemma save_table_wp s :
  wp ps_object_table_save_table
    (fun _ => stays (obj_db s) s.(g_obj_tbl_info)) (fun _ => stays (obj_db s) s.(g_obj_tbl_info))
    (fun _ => stays (obj_db s) s.(g_obj_tbl_info)) s.
Proof. apply wp_keeps; [apply stays_save_table|done]. Qed.

(** The entry index of the object, as the code gets it. *)
Lemma get_entry_idx_wp uid cid (Q : Z -> ps_state X -> Prop) E W s : uid <> 0 ->
  match own_entry uid cid (obj_db s) with
  | Some (b, _) => Q (Z.of_nat b) s
  | None => E PSA_ERROR_DOES_NOT_EXIST s
  end -> wp (ps_get_object_entry_idx uid cid) Q E W s.
Proof.
  intros Hu HQ. pose proof (own_entry_spec uid cid (obj_db s) Hu) as Ho.
  unfold ps_get_object_entry_idx. wp_auto. fold (obj_db s).
  destruct (own_entry uid cid (obj_db s)) as [[b e]|].
  - destruct Ho as (_ & _ & _ & _ & ->). by wp_auto.
  - destruct Ho as [_ ->]. by wp_auto.
Qed.

(** What the table holds after it took the object's new file, and when it could not
    be saved. *)
Lemma set_obj_tbl_info_wp uid cid info n e s : table_wf (obj_db s) ->
  PS_OBJ_TABLE_ENTRIES < 2 ^ 31 -> uid <> 0 -> info.(ti_fid) = PS_OBJECT_FS_ID (Z.of_nat n) ->
  obj_db s !! n = Some e -> entry_used e = false \/ entry_key e = (uid, cid) ->
  exists e1, own_removed (own_entry uid cid (obj_db s)) (obj_db s) !! n = Some e1 /\
  entry_used e1 = false /\
  let db2 := <[n := fill_entry uid cid info e1]>
               (own_removed (own_entry uid cid (obj_db s)) (obj_db s)) in
  wp (ps_object_table_set_obj_tbl_info uid cid info)
    (fun _ => stays db2 s.(g_obj_tbl_info))
    (fun _ => stays (<[n := empty_entry]> (obj_db s)) s.(g_obj_tbl_info))
    (fun _ => stays db2 s.(g_obj_tbl_info)) s.
Proof.
  intros Hwf HN Hu Hfid He Hor. destruct (entry_freed uid cid n _ e Hwf Hu He Hor) as (e1 & He1 & Hu1).
  exists e1. split; [done|]. split; [done|]. cbn zeta.
  assert (Z.of_nat n < PS_OBJ_TABLE_ENTRIES) as Hn.
  { destruct Hwf as [<- _]. apply lookup_lt_Some in He. lia. }
  pose proof (own_entry_spec uid cid (obj_db s) Hu) as Ho.
  unfold ps_object_table_set_obj_tbl_info. wp_auto. apply get_entry_idx_wp; [done|].
  pose proof (rolled_back uid cid n (fill_entry uid cid info e1) (obj_db s) Hu) as Hroll.
  destruct (own_entry uid cid (obj_db s)) as [[b eb]|] eqn:Eown; cbn [own_removed] in *.
  - destruct Ho as (Hb & Hub & _). wp_auto. apply (entry_at_wp b eb); [done|].
    unfold ps_table_delete_entry, upd_table. wp_auto. rewrite Hfid.
    apply fs_id_to_idx_wp; [lia|]. wp_auto. apply (entry_at_wp n e1); [by cbn; rewrite Nat2Z.id|].
    wp_auto. eapply wp_mono; [apply save_table_wp|..].
    + intros [] s' Hs'. cbn in Hs'. rewrite !Nat2Z.id in Hs'. by wp_auto.
    + intros err s' Hs'. cbn in Hs'. rewrite !Nat2Z.id in Hs'. wp_auto.
      unfold entry_used in Hub. rewrite Hub. wp_auto.
      destruct Hs' as [Hs1 Hs2]. split; [|done]. cbn. rewrite !Nat2Z.id, Hs1. done.
    + intros h s' Hs'. cbn in Hs'. by rewrite !Nat2Z.id in Hs'.
  - wp_auto. rewrite Hfid.
    apply fs_id_to_idx_wp; [lia|]. wp_auto. apply (entry_at_wp n e1); [done|].
    unfold ps_table_delete_entry, upd_table.
    wp_auto. eapply wp_mono; [apply save_table_wp|..].
    + intros [] s' Hs'. cbn in Hs'. rewrite !Nat2Z.id in Hs'. by wp_auto.
    + intros err s' Hs'. cbn in Hs'. rewrite !Nat2Z.id in Hs'. wp_auto.
      wp_auto.
      destruct Hs' as [Hs1 Hs2]. split; [|done]. cbn. rewrite !Nat2Z.id, Hs1. done.
    + intros h s' Hs'. cbn in Hs'. by rewrite !Nat2Z.id in Hs'.
Qed.

Lemma get_obj_tbl_info_wp uid cid s : uid <> 0 ->
  wp (ps_object_table_get_obj_tbl_info uid cid)
    (fun info s' => s' = s /\ table_objects (obj_db s) !! (uid, cid) = Some (object_info info) /\
       exists n e, info.(ti_fid) = PS_OBJECT_FS_ID (Z.of_nat n) /\ obj_db s !! n = Some e /\
         entry_key e = (uid, cid) /\ entry_used e = true /\ info.(ti_tag) = e.(en_tag))
    (fun err s' => s' = s /\ err = PSA_ERROR_DOES_NOT_EXIST /\
       table_objects (obj_db s) !! (uid, cid) = None)
    (fun _ _ => False) s.
Proof.
  intros Hu. unfold ps_object_table_get_obj_tbl_info. wp_auto. apply get_entry_idx_wp; [done|].
  pose proof (own_entry_spec uid cid (obj_db s) Hu) as Ho.
  destruct (own_entry uid cid (obj_db s)) as [[b e]|].
  - destruct Ho as (Hb & Hub & Hkb & Hm & _). wp_auto. apply (entry_at_wp b e); [done|].
    wp_auto. split; [done|]. split; [done|]. by exists b, e.
  - by destruct Ho as [Ho _].
Qed.

Lemma delete_object_wp uid cid s : table_wf (obj_db s) -> uid <> 0 ->
  let db1 := own_removed (own_entry uid cid (obj_db s)) (obj_db s) in
  wp (ps_object_table_delete_object uid cid)
    (fun _ s' => stays db1 s.(g_obj_tbl_info) s' /\ table_objects (obj_db s) !! (uid, cid) <> None)
    (fun _ => stays (obj_db s) s.(g_obj_tbl_info))
    (fun _ => stays db1 s.(g_obj_tbl_info)) s.
Proof.
  intros Hwf Hu. cbn zeta. unfold ps_object_table_delete_object. wp_auto.
  apply get_entry_idx_wp; [done|].
  pose proof (own_entry_spec uid cid (obj_db s) Hu) as Ho.
  destruct (own_entry uid cid (obj_db s)) as [[b e]|]; cbn [own_removed]; [|done].
  destruct Ho as (Hb & Hub & Hkb & Hm & _). wp_auto. apply (entry_at_wp b e); [done|].
  unfold ps_table_delete_entry, upd_table. wp_auto.
  eapply wp_mono; [apply save_table_wp|..].
  - intros [] s' Hs'. cbn in Hs'. rewrite Nat2Z.id in Hs'. wp_auto. split; [done|]. by rewrite Hm.
  - intros err s' Hs'. cbn in Hs'. rewrite Nat2Z.id in Hs'. wp_auto.
    destruct Hs' as [Hs1 Hs2]. split; [|done]. cbn. rewrite Nat2Z.id, Hs1.
    by rewrite list_insert_insert_eq, list_insert_id.
  - intros h s' Hs'. cbn in Hs'. by rewrite Nat2Z.id in Hs'.
Qed.
End Operations.

(** C10: the object table implements a finite map from the UID and client of an object
    to its file and its tag (or version).  Whatever the services it calls do: an
    object is looked up in the map; recording a new file for an object is the map's
    insertion; deleting it is the map's deletion; a table that could not be saved
    stands for the map it stood for before, except that an object whose entry was to
    keep its file is then lost ([after_failure]).  In every case the table stays well
    formed: no object has two entries. *)
Theorem ps_table_refines `{PsBuild} {X : Type} `{!PsEnv X} (s : ps_state X) uid cid info :
  table_wf (obj_db s) -> PS_OBJ_TABLE_ENTRIES < 2 ^ 31 -> uid <> 0 ->
  entry_for uid cid info.(ti_fid) (obj_db s) ->
  let m := table_objects (obj_db s) in
  wp (ps_object_table_get_obj_tbl_info uid cid)
    (fun found s' => s' = s /\ m !! (uid, cid) = Some (object_info found))
    (fun err s' => s' = s /\ err = PSA_ERROR_DOES_NOT_EXIST /\ m !! (uid, cid) = None)
    (fun _ _ => False) s /\
  wp (ps_object_table_set_obj_tbl_info uid cid info)
    (fun _ s' => table_wf (obj_db s') /\
       table_objects (obj_db s') = <[(uid, cid) := object_info info]> m)
    (fun _ s' => table_wf (obj_db s') /\
       table_objects (obj_db s') = after_failure uid cid info.(ti_fid) m)
    (fun _ s' => table_wf (obj_db s')) s /\
  wp (ps_object_table_delete_object uid cid)
    (fun _ s' => table_wf (obj_db s') /\ table_objects (obj_db s') = delete (uid, cid) m)
    (fun _ s' => table_wf (obj_db s') /\ table_objects (obj_db s') = m)
    (fun _ s' => table_wf (obj_db s')) s.
Proof.
  intros Hwf HN Hu (n & e & Hfid & He & Hor). cbn zeta. split; [|split].
  - eapply wp_mono; [by apply get_obj_tbl_info_wp|..]; cbn; naive_solver.
  - destruct (set_obj_tbl_info_wp uid cid info n e s Hwf HN Hu Hfid He Hor) as (e1 & He1 & Hu1 & Hw).
    destruct (set_db uid cid info n e1 _ Hwf Hu Hfid He1 Hu1) as (Hwf2 & Ho2 & _).
    destruct (failed_db uid cid n e _ Hwf Hu He Hor) as (Hwf3 & Ho3 & _).
    rewrite Hfid.
    eapply wp_mono; [exact Hw|..]; unfold stays, obj_db in *; cbn;
      intros ? s' [-> _]; tauto.
  - destruct (own_removed_spec uid cid _ Hwf Hu) as [Hwf1 Ho1].
    eapply wp_mono; [by apply delete_object_wp|..]; unfold stays, obj_db in *; cbn.
    + intros ? s' [[-> _] _]. done.
    + intros ? s' [-> _]. done.
    + intros ? s' [-> _]. done.
Qed.
