(* ===== verification/PsInvariant.v ===== *)
(** Protected Storage: what every request leaves true.

    Whatever Internal Trusted Storage, the counters, the crypto service and the SPM
    answer, and however a request ends, the object table keeps one entry per object
    and an entry to spare: the one a change of an existing object needs for the
    object's new file. *)

From stdpp Require Import base list numbers gmap.
From S2P Require Import Prelude PsTypes PsCrypto PsTable PsSystem PsObjects.

Section Invariant.
Context `{PsBuild} {X : Type} `{!PsEnv X}.
Implicit Types s : ps_state X.

Definition db_ok (db : list ps_obj_table_entry_t) : Prop := table_wf db /\ 1 <= free_entries db.
Definition ps_inv s : Prop := db_ok (obj_db s).

(** Every outcome of [m] from [s] satisfies the invariant. *)
Abbreviation safe m s := (wp m (fun _ => ps_inv) (fun _ => ps_inv) (fun _ => ps_inv) s).

(** The entries are [db] still. *)
Definition same_db (db : list ps_obj_table_entry_t) s : Prop := obj_db s = db.

Lemma same_db_inv db s : same_db db s -> db_ok db -> ps_inv s.
Proof. unfold same_db, ps_inv. by intros ->. Qed.

Lemma keeps_same_db {A} (m : PS X A) db :
  (forall info, keeps (stays db info) m) -> keeps (same_db db) m.
Proof. intros Hm s Hs. by destruct (Hm s.(g_obj_tbl_info) s (conj Hs eq_refl)). Qed.

Lemma keeps_inv {A} (m : PS X A) :
  (forall db info, keeps (stays db info) m) -> keeps ps_inv m.
Proof.
  intros Hm s Hs. eapply same_db_inv; [|exact Hs]. by apply (keeps_same_db m (obj_db s)).
Qed.

Lemma safe_keeps {A} (m : PS X A) : (forall s, ps_inv s -> safe m s) -> keeps ps_inv m.
Proof. intros Hm s Hs. specialize (Hm s Hs). unfold wp in Hm. by destruct (m s) as [[] ?]. Qed.

(** ** Room for the new file *)

(** Without its own entry, the object has its new entry and one more. *)
Definition room (uid cid : Z) (db : list ps_obj_table_entry_t) : Prop :=
  2 <= free_entries (own_removed (own_entry uid cid db) db).

Lemma room_own uid cid db : db_ok db -> uid <> 0 -> table_objects db !! (uid, cid) <> None ->
  room uid cid db.
Proof.
  intros [_ Hf] Hu Ho. pose proof (own_entry_spec uid cid db Hu) as Hown. unfold room.
  destruct (own_entry uid cid db) as [[b e]|]; [|by destruct Hown].
  destruct Hown as (Hb & Hub & _). cbn [own_removed].
  rewrite (free_insert _ _ _ _ Hb), Hub, empty_unused. lia.
Qed.

Lemma room_new uid cid db : uid <> 0 -> table_objects db !! (uid, cid) = None -> 2 <= free_entries db ->
  room uid cid db.
Proof.
  intros Hu Ho Hf. pose proof (own_entry_spec uid cid db Hu) as Hown. unfold room.
  destruct (own_entry uid cid db) as [[b e]|]; [|done].
  destruct Hown as (_ & _ & _ & E & _). congruence.
Qed.

(** The file of a free entry. *)
Definition free_slot (fid : Z) (db : list ps_obj_table_entry_t) : Prop :=
  exists n e, fid = PS_OBJECT_FS_ID (Z.of_nat n) /\ db !! n = Some e /\ entry_used e = false.

Lemma free_slot_for uid cid fid db : free_slot fid db -> entry_for uid cid fid db.
Proof. intros (n & e & -> & He & Hu). exists n, e. split; [done|]. split; [done|by left]. Qed.

Definition env_only s s' : Prop := s' = set_ps_env s'.(ps_env) s.

Lemma keeps_env_only {A} (m : M X A) s : keeps (env_only s) (on_env m).
Proof.
  intros s1 ->. unfold on_env. destruct (m _) as [r x]. by destruct s.
Qed.

Lemma env_only_stays s s' : env_only s s' -> stays (obj_db s) s.(g_obj_tbl_info) s'.
Proof. by intros ->. Qed.

Lemma free_fid_wp n s :
  wp (ps_object_table_get_free_fid n)
    (fun fid s' => env_only s s' /\ free_slot fid (obj_db s) /\ n <= free_entries (obj_db s))
    (fun _ => env_only s) (fun _ => env_only s) s.
Proof.
  assert (env_only s s) as Hs by (by destruct s).
  unfold ps_object_table_get_free_fid, ps_table_free_idx. wp_auto; [done|]. fold (obj_db s).
  destruct (scan_free 0 n 0 (obj_db s)) as [missing last] eqn:Es. wp_auto; [done|].
  assert (0 <= n \/ n < 0) as [Hn|Hn] by lia.
  - destruct (scan_free_spec _ _ _ _ _ _ Hn Es) as (_ & Hle & Hl).
    eapply wp_mono; [apply (wp_keeps (env_only s)); [|done]| |done..].
    { pose proof (fun A => @keeps_env_only A). unfold remove_if_present. keeps_auto; auto. }
    intros [] s' Hs'. wp_auto. split; [done|].
    assert (n <> 0 /\ missing = 0) as [Hn0 ->] by lia.
    destruct Hl as [[? _]|(k & e & -> & He & Hue)]; [lia|].
    split; [|lia]. exists k, e. by split; [|split].
  - destruct (obj_db s); cbn in Es; [injection Es as <- <-; lia|].
    destruct (Z.gtb_spec n 0); [lia|]. injection Es as <- <-. lia.
Qed.

(** ** The parts of a request *)

Lemma update_table_safe uid cid s : ps_inv s -> PS_OBJ_TABLE_ENTRIES < 2 ^ 31 -> uid <> 0 ->
  entry_for uid cid s.(g_obj_tbl_info).(ti_fid) (obj_db s) -> room uid cid (obj_db s) ->
  safe (ps_update_table uid cid) s.
Proof.
  intros [Hwf Hf] HN Hu (n & e & Hfid & He & Hor) Hroom. unfold ps_update_table. wp_auto.
  set (info := {| ti_fid := _ |}).
  destruct (set_obj_tbl_info_wp uid cid info n e s Hwf HN Hu Hfid He Hor) as (e1 & He1 & Hu1 & Hw).
  destruct (set_db uid cid info n e1 _ Hwf Hu Hfid He1 Hu1) as (Hwf2 & _ & Hfree2).
  destruct (failed_db uid cid n e _ Hwf Hu He Hor) as (Hwf3 & _ & Hfree3).
  unfold room in Hroom.
  eapply wp_mono; [exact Hw|..]; cbn beta; intros ? s' [Hs1 _].
  - eapply wp_mono; [apply (wp_keeps ps_inv); [apply keeps_inv; keeps_auto|]|done..].
    eapply same_db_inv; [exact Hs1|]. split; [done|lia].
  - wp_auto. assert (ps_inv s') by (eapply same_db_inv; [exact Hs1|]; split; [done|lia]).
    eapply wp_mono; [apply (wp_keeps ps_inv); [apply keeps_inv; keeps_auto|done]|done..].
  - eapply same_db_inv; [exact Hs1|]. split; [done|lia].
Qed.

Lemma store_object_stays db info : keeps (fun s => obj_db s = db /\ s.(g_obj_tbl_info).(ti_fid) = info)
  (ps_store_object (X := X)).
Proof.
  unfold ps_store_object. apply keeps_bind; [keeps_auto|]. intros s0. destruct PS_ENCRYPTION.
  - intros s [Hs <-]. destruct (stays_encrypted_write (obj_db s) s.(g_obj_tbl_info)
      s0.(g_obj_tbl_info).(ti_fid) s (conj eq_refl eq_refl)) as [H1 H2].
    unfold obj_db in *. split; congruence.
  - unfold ps_write_object, upd_obj, set_info_version. keeps_auto;
      try (apply keeps_modifyS; by intros s []).
    intros s [? ?]. unfold on_env. by destruct (psa_its_set _ _ _ _).
Qed.

Lemma store_in_free_fid_wp uid cid n old size db s : same_db db s ->
  wp (store_in_free_fid n old size)
    (fun _ s' => same_db db s' /\ entry_for uid cid s'.(g_obj_tbl_info).(ti_fid) db /\
       n <= free_entries db)
    (fun _ s' => same_db db s' /\ (old <> PS_INVALID_FID ->
       s'.(g_obj_tbl_info).(ti_fid) = old \/ s'.(g_obj_tbl_info) = s.(g_obj_tbl_info)))
    (fun _ => same_db db) s.
Proof.
  intros Hdb. unfold store_in_free_fid. wp_auto.
  eapply wp_mono; [apply (free_fid_wp n s)|..]; rewrite ?Hdb.
  - intros fid s1 (Hs1%env_only_stays & Hfor%(free_slot_for uid cid) & Hle).
    destruct Hs1 as [Hs1 Hi1]. rewrite Hdb in Hs1. unfold set_info_fid, upd_obj. wp_auto.
    eapply wp_mono; [apply wp_keeps; [apply (store_object_stays db fid)|done]|..].
    + intros [] s2 [Hs2 Hf2]. wp_auto. by rewrite Hf2.
    + intros err s2 [Hs2 Hf2]. wp_auto. destruct (Z.eqb_spec old PS_INVALID_FID); wp_auto; [done|].
      split; [done|]. by left.
    + intros h s2 [Hs2 _]. done.
  - intros e s1 [Hs1 Hi1]%env_only_stays. split; [by rewrite Hdb in Hs1|]. by right.
  - intros h s1 [Hs1 _]%env_only_stays. by rewrite Hdb in Hs1.
Qed.

(** [g_obj_tbl_info] names the object's own entry. *)
Definition own_info (uid cid : Z) (db : list ps_obj_table_entry_t) s : Prop :=
  same_db db s /\ entry_for uid cid s.(g_obj_tbl_info).(ti_fid) db.

Lemma keeps_own_info {A} (m : PS X A) uid cid db :
  (forall info, keeps (stays db info) m) -> keeps (own_info uid cid db) m.
Proof.
  intros Hm s [Hs Hf]. destruct (Hm s.(g_obj_tbl_info) s (conj Hs eq_refl)) as [H1 H2].
  split; [done|]. by rewrite H2.
Qed.

Lemma load_info_wp uid cid s : uid <> 0 ->
  wp (load_obj_tbl_info uid cid)
    (fun _ s' => own_info uid cid (obj_db s) s' /\ table_objects (obj_db s) !! (uid, cid) <> None)
    (fun err s' => s' = s /\ table_objects (obj_db s) !! (uid, cid) = None)
    (fun _ _ => False) s.
Proof.
  intros Hu. unfold load_obj_tbl_info. wp_auto.
  eapply wp_mono; [by apply get_obj_tbl_info_wp|..]; cbn beta; [|naive_solver|done].
  intros info s' (-> & Hm & n & e & Hfid & He & Hk & Hue & _). wp_auto.
  assert (own_info uid cid (obj_db s) (set_g_obj_tbl_info info s)) as Hi.
  { split; [done|]. exists n, e. cbn. split; [done|]. split; [done|by right]. }
  destruct PS_ENCRYPTION; unfold upd_obj; wp_auto; (split; [done|by rewrite Hm]).
Qed.

Lemma then_clear_safe {A} (m : PS X A) s : safe m s -> safe (then_clear m) s.
Proof.
  intros Hm. unfold then_clear, clear_object, upd_obj. wp_auto.
  eapply wp_mono; [exact Hm|..]; [|by intros; wp_auto..]. intros; by wp_auto.
Qed.

(** What a request that ends without changing the table does. *)
Lemma reads_safe {A} (m : PS X A) uid cid s : ps_inv s -> uid <> 0 ->
  (forall db info, keeps (stays db info) m) ->
  safe (_ ← load_obj_tbl_info uid cid; then_clear m) s.
Proof.
  intros Hs Hu Hm. wp_auto. eapply wp_mono; [by apply load_info_wp|..]; cbn beta; [|naive_solver|done].
  intros _ s1 [[Hs1 _] _]. apply then_clear_safe.
  apply wp_keeps; [by apply keeps_inv|]. by eapply same_db_inv.
Qed.

Lemma tail_safe uid cid ex r old db s : db_ok db -> PS_OBJ_TABLE_ENTRIES < 2 ^ 31 -> uid <> 0 ->
  same_db db s ->
  (r = inr tt \/ ex = true -> own_info uid cid db s /\ room uid cid db) ->
  safe (update_table_and_return uid cid ex r old) s.
Proof.
  intros Hok HN Hu Hdb Hown. assert (ps_inv s) as Hinv by (by eapply same_db_inv).
  unfold update_table_and_return. apply then_clear_safe. wp_auto.
  assert (r = inr tt \/ ex = true -> safe (ps_update_table uid cid) s) as Hupd.
  { intros Hc. destruct (Hown Hc) as [[_ Hf] Hr].
    apply update_table_safe; by rewrite ?Hdb. }
  assert (forall s', ps_inv s' ->
    safe (if old =? PS_INVALID_FID then mret tt else on_env (psa_its_remove old)) s') as Hrm.
  { intros s' Hs'. apply wp_keeps; [|done]. apply keeps_inv. keeps_auto. }
  destruct r as [err|[]]; [|wp_auto].
  2:{ eapply wp_mono; [apply Hupd; by left|..]; [|done..]. intros [] s' Hs'. by apply Hrm. }
  wp_auto. destruct ex; wp_auto; [|done].
    eapply wp_mono; [apply Hupd; by right|..]; [by intros; wp_auto..|done].
Qed.

(** The new file of an object that has one: its entry remains the object's. *)
Lemma store_over_wp uid cid old pos size size' db s : own_info uid cid db s -> entry_for uid cid old db ->
  wp (ps_req_mngr_read_asset_data pos size)
    (fun _ => wp (store_in_free_fid 1 old size')
       (fun _ => own_info uid cid db) (fun _ => own_info uid cid db) (fun _ => same_db db))
    (fun _ => own_info uid cid db) (fun _ => same_db db) s.
Proof.
  intros Hi Hold.
  eapply wp_mono; [apply wp_keeps; [by apply keeps_own_info; intros; apply stays_read_asset_data|exact Hi]|..];
    cbn beta; [|done|by intros h s' []].
  intros [] s1 Hi1. eapply wp_mono; [apply (store_in_free_fid_wp uid cid), Hi1|..]; cbn beta.
  - intros [] s2 (? & ? & _). done.
  - intros e s2 [Hs2 Hor]. split; [done|].
    assert (old <> PS_INVALID_FID) as Hne.
    { destruct Hold as (n & e' & -> & _). unfold PS_OBJECT_FS_ID, PS_TABLE_FS_ID, PS_INVALID_FID,
        PS_OBJ_TABLE_IDX_1. lia. }
    destruct (Hor Hne) as [-> | ->]; [done|]. apply Hi1.
  - done.
Qed.

Section Requests.
Context (uid cid : Z) (s : ps_state X).
Context (Hs : ps_inv s) (HN : PS_OBJ_TABLE_ENTRIES < 2 ^ 31) (Hu : uid <> 0).

(** A change of an object that exists: whatever happens on the way, the tail finds
    the object's entry. *)
Lemma change_safe (m : PS X unit) old s1 :
  own_info uid cid (obj_db s) s1 -> table_objects (obj_db s) !! (uid, cid) <> None ->
  (wp m (fun _ => own_info uid cid (obj_db s)) (fun _ => own_info uid cid (obj_db s))
     (fun _ => same_db (obj_db s)) s1) ->
  safe (r ← attempt m; update_table_and_return uid cid true r old) s1.
Proof.
  intros Hi Ho Hm. wp_auto. pose proof (room_own _ _ _ Hs Hu Ho) as Hr.
  assert (forall st s2, own_info uid cid (obj_db s) s2 ->
    safe (update_table_and_return uid cid true st old) s2) as Htail.
  { intros st s2 Hi2. eapply tail_safe; [done..|apply Hi2|done]. }
  eapply wp_mono; [exact Hm|..]; cbn beta; [by intros; apply Htail..|].
  intros h s2 Hs2. by eapply same_db_inv.
Qed.

Lemma create_safe flags size : safe (ps_object_create uid cid flags size) s.
Proof.
  unfold ps_object_create. wp_auto; [done|].
  eapply wp_mono; [by apply load_info_wp|..]; cbn beta; [| |done].
  - intros [] s1 [Hi Ho]. apply wp_bind, wp_gets. apply change_safe; [done..|]. wp_auto.
    eapply wp_mono; [apply wp_keeps; [by apply keeps_own_info; intros; apply stays_create_over|exact Hi]|..];
      cbn beta; [|done|by intros h s' []].
    intros [] s2 Hi2. apply wp_bind, store_over_wp; [done|]. apply Hi.
  - intros err s1 [-> Ho]. destruct (err =? PSA_ERROR_DOES_NOT_EXIST); [|by wp_auto].
    wp_auto.
    eapply wp_mono; [apply (wp_keeps (same_db (obj_db s))); [by apply keeps_same_db; intros; apply stays_init_empty|done]|..];
      cbn beta; [|by intros; eapply same_db_inv..].
    intros [] s1 Hs1. wp_auto.
    eapply wp_mono; [apply (wp_keeps (same_db (obj_db s))); [by apply keeps_same_db; intros; apply stays_read_asset_data|done]|..];
      cbn beta; [| |by intros; eapply same_db_inv].
    + intros [] s2 Hs2. eapply wp_mono; [apply (store_in_free_fid_wp uid cid), Hs2|..]; cbn beta.
      * intros [] s3 (Hs3 & Hf3 & Hle). apply (tail_safe _ _ _ _ _ (obj_db s)); [done..|].
        intros _. split; [done|]. by apply room_new.
      * intros e s3 [Hs3 _]. apply (tail_safe _ _ _ _ _ (obj_db s)); [done..|]. by intros [|].
      * by intros h s3 Hs3; eapply same_db_inv.
    + intros e s2 Hs2. apply (tail_safe _ _ _ _ _ (obj_db s)); [done..|]. by intros [|].
Qed.

Lemma write_safe offset size : safe (ps_object_write uid cid offset size) s.
Proof.
  unfold ps_object_write. apply wp_bind.
  eapply wp_mono; [by apply load_info_wp|..]; cbn beta; [|by intros err s1 [-> _]|done].
  intros [] s1 [Hi Ho]. apply wp_bind, wp_gets. apply change_safe; [done..|]. wp_auto.
  eapply wp_mono; [apply wp_keeps; [by apply keeps_own_info; intros; apply stays_read_stored_object|exact Hi]|..];
    cbn beta; [|done|by intros h s' []].
  intros [] s2 Hi2. wp_auto; [done..|]. apply store_over_wp; [done|]. apply Hi.
Qed.

Lemma delete_safe : safe (ps_object_delete uid cid) s.
Proof.
  unfold ps_object_delete. apply wp_bind.
  eapply wp_mono; [by apply load_info_wp|..]; cbn beta; [|by intros err s1 [-> _]|done].
  intros [] s1 [[Hs1 _] Ho]. apply then_clear_safe. wp_auto.
  assert (ps_inv s1) as Hinv1 by (by eapply same_db_inv).
  eapply wp_mono; [apply wp_keeps; [by apply keeps_inv; intros; apply stays_read_stored_object|exact Hinv1]|..];
    cbn beta; [|done..].
  intros [] s2 Hinv2. wp_auto; [done|]. destruct Hinv2 as [Hwf2 Hf2].
  destruct (own_removed_spec uid cid _ Hwf2 Hu) as [Hwf3 _].
  assert (db_ok (own_removed (own_entry uid cid (obj_db s2)) (obj_db s2))) as Hok3.
  { split; [done|]. pose proof (own_entry_spec uid cid (obj_db s2) Hu) as Hown.
    destruct (own_entry uid cid (obj_db s2)) as [[b e]|]; [|done]. destruct Hown as (Hb & Hub & _).
    cbn [own_removed]. rewrite (free_insert _ _ _ _ Hb), Hub, empty_unused. lia. }
  eapply wp_mono; [by apply delete_object_wp|..]; cbn beta.
  - intros [] s3 [[Hs3 _] _]. assert (ps_inv s3) by (by eapply same_db_inv).
    apply (wp_keeps ps_inv); [|done]. apply keeps_inv. keeps_auto.
  - intros e s3 [Hs3 _]. by eapply same_db_inv.
  - intros h s3 [Hs3 _]. by eapply same_db_inv.
Qed.

Lemma get_safe offset size : safe (ps_object_read uid cid offset size) s.
Proof.
  apply (reads_safe _ uid cid); [done..|]. intros. keeps_auto.
Qed.

Lemma get_info_safe : safe (ps_object_get_info uid cid) s.
Proof. apply (reads_safe _ uid cid); [done..|]. intros. keeps_auto. Qed.
End Requests.
End Invariant.

(** ** The requests *)
Section Service.
Context `{PsBuild} {X : Type} `{!PsEnv X}.

Lemma read_vec_inv m v n : keeps ps_inv (read_vec m v n).
Proof. apply keeps_inv. intros. unfold read_vec. keeps_auto. Qed.
#[local] Hint Resolve read_vec_inv : keeps.

Lemma valid_uid_inv {A} uid (m : PS X A) :
  (uid <> 0 -> keeps ps_inv m) ->
  keeps ps_inv (_ ← fail_if (uid =? TFM_PS_INVALID_UID) PSA_ERROR_INVALID_ARGUMENT; m).
Proof.
  intros Hm. apply (keeps_bind_to _ _ _ _ (keeps_to_fail_if _ _ _)). intros _ Hu. apply Hm.
  unfold TFM_PS_INVALID_UID in Hu. lia.
Qed.

Lemma on_env_inv {A} (m : M X A) : keeps ps_inv (on_env m).
Proof. apply keeps_inv. keeps_auto. Qed.
#[local] Hint Resolve on_env_inv : keeps.

(** C11: whatever the services the partition calls answer (Internal Trusted Storage,
    the NV counters, the crypto service and the SPM), every request of every client
    leaves the object table with at most one entry per object and at least one free
    entry, however the request ends.  The free entry is what a later change of an
    existing object needs to write the object's new file before the old one goes. *)
Theorem ps_requests_keep_spare m : PS_OBJ_TABLE_ENTRIES < 2 ^ 31 ->
  keeps (ps_inv (X := X)) (tfm_protected_storage_service_sfn m).
Proof.
  intros HN. unfold tfm_protected_storage_service_sfn.
  apply keeps_bind; [by apply keeps_modifyS|]. intros _.
  repeat match goal with |- keeps _ (if ?b then _ else _) => destruct b end; [..|keeps_auto].
  - unfold tfm_ps_set_req, tfm_ps_set. keeps_step; [keeps_auto|]. intros _.
    do 2 (keeps_step; [keeps_auto|]; intros ?). apply valid_uid_inv. intros Hu.
    keeps_step; [keeps_auto|]. intros _. apply safe_keeps. intros s Hs. by apply create_safe.
  - unfold tfm_ps_get_req, tfm_ps_get. keeps_step; [keeps_auto|]. intros _.
    do 2 (keeps_step; [keeps_auto|]; intros ?). keeps_step; [|keeps_auto]. apply valid_uid_inv.
    intros Hu. apply safe_keeps. intros s Hs. by apply get_safe.
  - unfold tfm_ps_get_info_req, tfm_ps_get_info. keeps_step; [keeps_auto|]. intros _.
    keeps_step; [keeps_auto|]. intros ?. keeps_step; [|keeps_auto]. apply valid_uid_inv.
    intros Hu. apply safe_keeps. intros s Hs. by apply get_info_safe.
  - unfold tfm_ps_remove_req, tfm_ps_remove. keeps_step; [keeps_auto|]. intros _.
    keeps_step; [keeps_auto|]. intros ?. apply valid_uid_inv. intros Hu.
    keeps_step; [|keeps_auto]. apply keeps_attempt, safe_keeps. intros s Hs. by apply delete_safe.
  - unfold tfm_ps_get_support_req. keeps_auto.
Qed.
End Service.
