(* ===== verification/PsBoot.v ===== *)
(** Protected Storage: initialisation of the object table.

    In a build with encryption and rollback protection, against the laws of
    [PsLaws]: which tables initialisation accepts. *)

From stdpp Require Import base list numbers gmap.
From S2P Require Import Prelude PsTypes PsBytes PsLaws PsCrypto PsAuth PsTable.

Section Boot.
Context `{PsBuild} {X : Type} `{!PsEnv X} `{!PsEnvLaws X}.
Implicit Types (s : ps_state X) (w : ps_world) (t : ps_obj_table_t).

(** The table was sealed with the value [n] of the NV counter. *)
Definition authentic w t (n : Z) : Prop :=
  sealed_as w (label_of t.(tb_crypto)) t.(tb_crypto).(cr_iv) (assoc_data t n) [] t.(tb_crypto).(cr_tag).

(** The counters an accepted table may be sealed with: the third one only while it
    agrees with the second. *)
Definition current_value w (n : Z) : Prop :=
  n = w.(w_counter) TFM_PS_NV_COUNTER_1 \/
  n = w.(w_counter) TFM_PS_NV_COUNTER_3 /\
  w.(w_counter) TFM_PS_NV_COUNTER_3 = w.(w_counter) TFM_PS_NV_COUNTER_2 /\ n <> PS_INVALID_NVC_VALUE.

Lemma quiet_ram s s' : quiet s s' -> s' = set_ps_env s'.(ps_env) s.
Proof. by intros []. Qed.

Lemma quiet_p_table i s s' : quiet s s' -> p_table i s' = p_table i s.
Proof. intros ->%quiet_ram. done. Qed.

Lemma quiet_authentic s s' t n : quiet s s' -> authentic (world_of s') t n = authentic (world_of s) t n.
Proof. intros [_ Hs]. unfold authentic, sealed_as. by rewrite (ss_sealed _ _ Hs). Qed.

Lemma quiet_counter s s' c : quiet s s' -> (world_of s').(w_counter) c = (world_of s).(w_counter) c.
Proof. intros [_ Hs]. by rewrite (ss_counter _ _ Hs). Qed.

Section Calm.
Context (F : Prop).

Lemma authenticates_calm i n s : (F -> fit s) ->
  calm F (authenticates i n)
    (fun ok _ => if ok : bool then authentic (world_of s) (p_table i s) n
                 else F -> ~ authentic (world_of s) (p_table i s) n) s.
Proof.
  intros HF. unfold authenticates.
  eapply calm_after; [by apply (calm_ret _ _ (fun t _ => t = p_table i s))|].
  intros t s1 Hq1 HF1 ->. eapply calm_after; [by apply authenticate_calm|].
  intros r s2 Hq2 HF2 Hr. apply calm_ret; [done|].
  pose proof (quiet_authentic s s1 (p_table i s) n Hq1) as Ha. unfold authentic in *.
  rewrite Ha in Hr. by destruct r.
Qed.

Lemma read_counter_calm c s : (F -> fit s) ->
  calm F (ps_read_nv_counter c) (fun v _ => v = (world_of s).(w_counter) c) s.
Proof.
  intros HF. apply calm_or_return.
  eapply calm_env; [apply counter_does|apply healthy_counter|..|done]; unfold counter_step; cbn.
  - by intros ? ? [-> _].
  - by intros v x' [_ ->].
Qed.

(** What authentication makes of a table that could be read. *)
Definition judged (c : ps_obj_table_init_ctx_t) w t (st : ps_obj_table_state) : Prop :=
  match st with
  | PS_OBJ_TABLE_NVC_1_VALID => authentic w t c.(nvc_1)
  | PS_OBJ_TABLE_NVC_3_VALID => authentic w t c.(nvc_3) /\ c.(nvc_3) <> PS_INVALID_NVC_VALUE
  | PS_OBJ_TABLE_INVALID => F -> ~ authentic w t c.(nvc_1) /\
      (c.(nvc_3) <> PS_INVALID_NVC_VALUE -> ~ authentic w t c.(nvc_3))
  | PS_OBJ_TABLE_VALID => False
  end.

Lemma table_authenticate_calm i c s : (F -> fit s) ->
  calm F (ps_object_table_authenticate i c)
    (fun c' _ => exists st, c' = set_table_state i st c /\
       judged c (world_of s) (p_table i s) st) s.
Proof.
  intros HF. unfold ps_object_table_authenticate.
  eapply calm_after; [by apply authenticates_calm|]. intros ok s1 Hq1 HF1 Hok.
  destruct ok; [by apply calm_ret; [|eexists]|].
  destruct (Z.eqb_spec c.(nvc_3) PS_INVALID_NVC_VALUE) as [E|E].
  { apply calm_ret; [done|]. eexists. split; [done|]. cbn. intros HF0. split; [auto|done]. }
  eapply calm_after; [by apply authenticates_calm|]. intros ok s2 Hq2 HF2 Hok2.
  rewrite (quiet_p_table i s s1 Hq1), (quiet_authentic s s1 _ _ Hq1) in Hok2.
  apply calm_ret; [done|]. eexists. split; [done|]. destruct ok; cbn; [done|]. auto.
Qed.

(** The context after the tables that could be read were authenticated. *)
Definition judged_ctx w t0 t1 (c c' : ps_obj_table_init_ctx_t) : Prop :=
  c'.(nvc_1) = w.(w_counter) TFM_PS_NV_COUNTER_1 /\
  (c'.(nvc_3) = PS_INVALID_NVC_VALUE /\ w.(w_counter) TFM_PS_NV_COUNTER_3 <> w.(w_counter) TFM_PS_NV_COUNTER_2 \/
   c'.(nvc_3) = w.(w_counter) TFM_PS_NV_COUNTER_3 /\
   w.(w_counter) TFM_PS_NV_COUNTER_3 = w.(w_counter) TFM_PS_NV_COUNTER_2) /\
  forall i, i = PS_OBJ_TABLE_IDX_0 \/ i = PS_OBJ_TABLE_IDX_1 ->
    if decide (table_state i c = PS_OBJ_TABLE_INVALID) then table_state i c' = PS_OBJ_TABLE_INVALID
    else judged c' w (if i =? PS_OBJ_TABLE_IDX_0 then t0 else t1) (table_state i c').

Lemma judged_nvc c c' w t st : c'.(nvc_1) = c.(nvc_1) -> c'.(nvc_3) = c.(nvc_3) ->
  judged c w t st -> judged c' w t st.
Proof. unfold judged. by intros -> ->. Qed.

Lemma nvc_authenticate_calm c s : (F -> fit s) ->
  calm F (ps_object_table_nvc_authenticate c)
    (fun c' _ => judged_ctx (world_of s) (p_table 0 s) (p_table 1 s) c c') s.
Proof.
  intros HF. unfold ps_object_table_nvc_authenticate.
  eapply calm_after; [by apply read_counter_calm|]. intros n1 s1 Hq1 HF1 ->.
  eapply calm_after; [by apply read_counter_calm|]. intros n2 s2 Hq2 HF2 ->.
  rewrite (quiet_counter s s1) by done.
  eapply calm_after; [by apply read_counter_calm|]. intros n3 s3 Hq3 HF3 ->.
  assert (quiet s s2) as Hq02 by (by etrans). rewrite (quiet_counter s s2) by done.
  assert (quiet s s3) as Hq03 by (by etrans).
  unfold authenticate_if_read. set (c1 := {| table_state_0 := _ |}).
  eapply (calm_after _ _ _ (fun c' _ => c'.(nvc_1) = c1.(nvc_1) /\ c'.(nvc_3) = c1.(nvc_3) /\
    c'.(table_state_1) = c1.(table_state_1) /\
    if decide (table_state 0 c = PS_OBJ_TABLE_INVALID) then table_state 0 c' = PS_OBJ_TABLE_INVALID
    else judged c1 (world_of s) (p_table 0 s) (table_state 0 c'))).
  { change (table_state PS_OBJ_TABLE_IDX_0 c1) with (table_state 0 c).
    destruct (decide _) as [E|E]; [by apply calm_ret|].
    eapply calm_mono; [by apply table_authenticate_calm|]. intros c' s' _ (st & -> & Hj).
    rewrite (quiet_p_table _ s s3 Hq03) in Hj.
    repeat split; [done..|]. revert Hj. unfold judged.
    destruct st; cbn; by rewrite ?(quiet_authentic s s3 _ _ Hq03). }
  intros c2 s4 Hq4 HF4 (E1 & E3 & Est & Hj0).
  assert (quiet s s4) as Hq04 by (by etrans).
  assert (forall c', c'.(nvc_1) = c1.(nvc_1) -> c'.(nvc_3) = c1.(nvc_3) ->
    table_state 0 c' = table_state 0 c2 ->
    (if decide (table_state 1 c = PS_OBJ_TABLE_INVALID) then table_state 1 c' = PS_OBJ_TABLE_INVALID
     else judged c1 (world_of s) (p_table 1 s) (table_state 1 c')) ->
    judged_ctx (world_of s) (p_table 0 s) (p_table 1 s) c c') as Hdone.
  { intros c' F1 F3 F0 Hj1. split; [by rewrite F1|]. split.
    - rewrite F3. subst c1. cbn. destruct (Z.eqb_spec (w_counter (world_of s) TFM_PS_NV_COUNTER_3)
        (w_counter (world_of s) TFM_PS_NV_COUNTER_2)); auto.
    - intros i [-> | ->]; unfold PS_OBJ_TABLE_IDX_0, PS_OBJ_TABLE_IDX_1.
      + change (0 =? 0) with true. rewrite F0. destruct (decide (table_state 0 c = _)); [done|].
        by apply (judged_nvc c1).
      + change (1 =? 0) with false. destruct (decide (table_state 1 c = _)); [done|].
        by apply (judged_nvc c1). }
  assert (table_state PS_OBJ_TABLE_IDX_1 c2 = table_state 1 c) as Hst1.
  { unfold table_state. cbn. by rewrite Est. }
  rewrite Hst1. destruct (decide (table_state 1 c = _)) as [E|E].
  - apply calm_ret; [done|]. apply Hdone; [done..|].
    by rewrite <- E.
  - eapply calm_mono; [by apply table_authenticate_calm|]. intros c' s' _ (st & -> & Hj).
    rewrite (quiet_p_table _ s s4 Hq04) in Hj. apply Hdone; [done..|]. revert Hj. unfold judged.
    destruct st; cbn; rewrite ?(quiet_authentic s s4 _ _ Hq04), ?E1, ?E3; done.
Qed.
End Calm.

(** ** The phases of initialisation *)

Definition is_table_idx (i : Z) : Prop := i = PS_OBJ_TABLE_IDX_0 \/ i = PS_OBJ_TABLE_IDX_1.
Definition other_idx (i : Z) : Z :=
  if i =? PS_OBJ_TABLE_IDX_0 then PS_OBJ_TABLE_IDX_1 else PS_OBJ_TABLE_IDX_0.

(** The memory the second table is read to. *)
Definition object_ok s : Prop :=
  Z.of_nat (length s.(g_ps_object).(ob_body)) = sizeof_info + PS_OBJECT_BUF_SIZE.

Lemma set_active_wp c s :
  wp (ps_set_active_object_table c)
    (fun _ s' => exists i, is_table_idx i /\ table_state i c <> PS_OBJ_TABLE_INVALID /\
       s' = set_ps_table (p_table i s) (set_ps_active i (set_ps_scratch (other_idx i) s)))
    (fun _ s' => s' = s /\ table_state 0 c = PS_OBJ_TABLE_INVALID /\
       table_state 1 c = PS_OBJ_TABLE_INVALID) (fun _ _ => False) s.
Proof.
  assert (forall i, is_table_idx i -> load_active i s =
    set_ps_table (p_table i s) (set_ps_active i (set_ps_scratch (other_idx i) s))) as Hl.
  { intros i [-> | ->]; [by destruct s|done]. }
  assert (is_table_idx 0) as I0 by (by left). assert (is_table_idx 1) as I1 by (by right).
  unfold ps_set_active_object_table, PS_OBJ_TABLE_IDX_0, PS_OBJ_TABLE_IDX_1. wp_auto.
  destruct (decide _) as [[E0 E1]|E]; [done|].
  destruct (decide _) as [E0|E0]; wp_auto.
  { exists 1. split; [done|]. split; [tauto|]. by apply Hl. }
  destruct (decide _) as [E1|E1]; wp_auto.
  { exists 0. split; [done|]. split; [tauto|]. by apply Hl. }
  assert (forall i, is_table_idx i -> table_state i c <> PS_OBJ_TABLE_INVALID) as Hst.
  { intros i [-> | ->]; done. }
  destruct PS_ROLLBACK_PROTECTION.
  - wp_auto. destruct (decide _); eexists; (split; [|split; [|by apply Hl]]); auto.
  - wp_auto. exists (latest_table (tb_swap_count (p_table 0 s)) (tb_swap_count (p_table 1 s))).
    assert (is_table_idx (latest_table (tb_swap_count (p_table 0 s)) (tb_swap_count (p_table 1 s))))
      as Hi by (unfold latest_table; repeat case_match; auto).
    split; [done|]. split; [auto|]. by apply Hl.
Qed.

Lemma remove_if_present_wp F fid s : (F -> fit s) ->
  wp (remove_if_present fid)
    (fun _ s' => s' = set_ps_env s'.(ps_env) s /\ (F -> fit s') /\
       (world_of s').(w_counter) = (world_of s).(w_counter) /\
       (world_of s').(w_sealed) = (world_of s).(w_sealed))
    (fun _ _ => ~ F) (fun _ _ => ~ F) s.
Proof.
  intros HF. unfold remove_if_present.
  pose proof (remove_does fid s.(ps_env)) as Hd. pose proof (healthy_remove fid s.(ps_env)) as Hh.
  unfold does, wp, fit, world_of, mbind, M_bind, attempt, on_env in *.
  destruct (psa_its_remove fid (ps_env s)) as [[[]|e|h] x']; cbn.
  - unfold its_remove_step in Hd. rewrite Hd. cbn. repeat split; auto.
  - destruct (Z.eqb_spec e PSA_ERROR_DOES_NOT_EXIST) as [->|Hne]; cbn.
    + rewrite Hd. repeat split. intros HF0. by destruct (Hh (HF HF0)).
    + intros HF0. destruct (Hh (HF HF0)) as [_ ->]. done.
  - intros HF0. by apply Hh, HF.
Qed.

(** Reading one table: its file's bytes, or the table is marked. *)
Lemma fs_read_one_wp F i c s : (F -> fit s) ->
  wp (fs_read_one i c)
    (fun c' s' => (F -> fit s') /\ world_of s' = world_of s /\
       ((exists d, (world_of s).(w_files) !! PS_TABLE_FS_ID i = Some d /\ c' = c /\
           s' = store_p_table i (slice d 0 (Z.to_nat PS_OBJ_TABLE_SIZE)) (set_ps_env s'.(ps_env) s)) \/
        (F -> (world_of s).(w_files) !! PS_TABLE_FS_ID i = None) /\
          c' = set_table_state i PS_OBJ_TABLE_INVALID c /\ s' = set_ps_env s'.(ps_env) s))
    (fun _ _ => False) (fun _ _ => ~ F) s.
Proof.
  intros HF. unfold fs_read_one.
  pose proof (get_does (PS_TABLE_FS_ID i) 0 PS_OBJ_TABLE_SIZE s.(ps_env)) as Hd.
  pose proof (healthy_get (PS_TABLE_FS_ID i) PS_OBJ_TABLE_SIZE s.(ps_env)) as Hh.
  unfold does, wp, fit, world_of, mbind, M_bind, attempt, on_env in *.
  destruct (psa_its_get (PS_TABLE_FS_ID i) 0 PS_OBJ_TABLE_SIZE (ps_env s)) as [[l|e|h] x']; cbn.
  - destruct Hd as [Hw (d & Hf & ->)].
    assert (ps_env (store_p_table i (slice d (Z.to_nat 0) (Z.to_nat PS_OBJ_TABLE_SIZE))
      (set_ps_env x' s)) = x') as E by (unfold store_p_table; by destruct (i =? _)).
    rewrite E. split; [auto|]. split; [done|]. left. by exists d.
  - split; [intros HF0; by destruct (Hh (HF HF0))|]. split; [done|]. right.
    split; [|done]. intros HF0. by destruct (Hh (HF HF0)).
  - intros HF0. by apply Hh, HF.
Qed.

(** The tables with the owner of the object table as theirs. *)
Definition own_tables s : ps_state X :=
  let s1 := set_p_table 0 (own_table (p_table 0 s)) s in
  set_p_table 1 (own_table (p_table 1 s1)) s1.

Definition accepted w t : Prop := exists n, current_value w n /\ authentic w t n.

(** What follows reading the tables. *)
Definition choose_table (c : ps_obj_table_init_ctx_t) : PS X unit :=
  c ← ps_object_table_nvc_authenticate c;
  c ← ps_object_table_validate_version c;
  _ ← ps_set_active_object_table c;
  scratch ← gets ps_scratch;
  _ ← remove_if_present (PS_TABLE_FS_ID scratch);
  t ← gets ps_table;
  ps_crypto_set_iv t.(tb_crypto).

Lemma validated_state i s c : is_table_idx i ->
  table_state i (validate_version PS_OBJ_TABLE_IDX_1 s (validate_version PS_OBJ_TABLE_IDX_0 s c)) =
    if (p_table i s).(tb_version) =? PS_OBJECT_SYSTEM_VERSION then table_state i c
    else PS_OBJ_TABLE_INVALID.
Proof.
  unfold validate_version. rewrite (Z.eqb_sym PS_OBJECT_SYSTEM_VERSION (tb_version (p_table 0 s))),
    (Z.eqb_sym PS_OBJECT_SYSTEM_VERSION (tb_version (p_table 1 s))).
  intros [-> | ->]; unfold PS_OBJ_TABLE_IDX_0, PS_OBJ_TABLE_IDX_1;
    destruct (tb_version (p_table 0 s) =? _), (tb_version (p_table 1 s) =? _); done.
Qed.

Lemma choose_table_wp F c s : (F -> fit s) ->
  wp (choose_table c)
    (fun _ s' => exists i, is_table_idx i /\ table_state i c <> PS_OBJ_TABLE_INVALID /\
       s'.(ps_table) = p_table i s /\ s'.(ps_active) = i /\ s'.(ps_scratch) = other_idx i /\
       s'.(ps_crypto_iv_buf) = (p_table i s).(tb_crypto).(cr_iv) /\
       (p_table i s).(tb_version) = PS_OBJECT_SYSTEM_VERSION /\ accepted (world_of s) (p_table i s) /\
       (F -> fit s'))
    (fun _ _ => F -> forall i, is_table_idx i -> table_state i c = PS_OBJ_TABLE_INVALID \/
       (p_table i s).(tb_version) <> PS_OBJECT_SYSTEM_VERSION \/
       ~ authentic (world_of s) (p_table i s) ((world_of s).(w_counter) TFM_PS_NV_COUNTER_1) /\
       ((world_of s).(w_counter) TFM_PS_NV_COUNTER_3 = (world_of s).(w_counter) TFM_PS_NV_COUNTER_2 ->
        (world_of s).(w_counter) TFM_PS_NV_COUNTER_3 <> PS_INVALID_NVC_VALUE ->
        ~ authentic (world_of s) (p_table i s) ((world_of s).(w_counter) TFM_PS_NV_COUNTER_3)))
    (fun _ _ => ~ F) s.
Proof.
  intros HF. unfold choose_table. apply wp_bind.
  eapply wp_mono; [by apply (nvc_authenticate_calm F c)|..]; cbn beta; [|tauto..].
  intros c1 s1 (Hq & HF1 & H1 & H3 & Hj). unfold ps_object_table_validate_version. wp_auto.
  set (c2 := validate_version _ _ _).
  eapply wp_mono; [apply set_active_wp|..]; cbn beta; [| |done].
  - intros _ s2 (i & Hi & Hst & ->). wp_auto.
    set (s2 := set_ps_table _ _). eapply wp_mono; [apply (remove_if_present_wp F); subst s2; exact HF1|..];
      cbn beta; [|by intros; tauto|done].
    intros _ s3 (E3 & HF3 & _). unfold ps_crypto_set_iv. wp_auto. rewrite E3. cbn.
    unfold c2 in Hst. rewrite validated_state in Hst by done.
    rewrite (quiet_p_table i s s1 Hq) in Hst |- *.
    destruct (Z.eqb_spec (p_table i s).(tb_version) PS_OBJECT_SYSTEM_VERSION) as [Ev|]; [|done].
    specialize (Hj i Hi). destruct (decide (table_state i c = _)) as [E|E]; [congruence|].
    exists i. split; [done|]. split; [done|]. do 5 (split; [done|]).
    replace (if i =? _ then _ else _) with (p_table i s) in Hj by (destruct Hi as [-> | ->]; done).
    split.
    + destruct (table_state i c1); cbn in Hj; [done|done|..].
      * exists (w_counter (world_of s) TFM_PS_NV_COUNTER_1). split; [by left|]. by rewrite <- H1.
      * destruct Hj as [Hj Hne]. destruct H3 as [[H3 _]|[H3 Heq]]; [congruence|].
        exists (w_counter (world_of s) TFM_PS_NV_COUNTER_3). rewrite H3 in Hj, Hne.
        split; [|exact Hj]. right. by split.
    + intros HF0. specialize (HF3 HF0). exact HF3.
  - intros e s2 (-> & E0 & E1) HF0 i Hi. unfold c2 in E0, E1.
    assert (table_state i (validate_version PS_OBJ_TABLE_IDX_1 s1
      (validate_version PS_OBJ_TABLE_IDX_0 s1 c1)) = PS_OBJ_TABLE_INVALID) as Ei
      by (destruct Hi as [-> | ->]; done).
    rewrite validated_state, (quiet_p_table i s s1 Hq) in Ei by done.
    destruct (Z.eqb_spec (p_table i s).(tb_version) PS_OBJECT_SYSTEM_VERSION) as [Ev|]; [|auto].
    specialize (Hj i Hi). destruct (decide (table_state i c = _)) as [E|E]; [auto|]. right. right.
    replace (if i =? _ then _ else _) with (p_table i s) in Hj by (destruct Hi as [-> | ->]; done).
    rewrite Ei in Hj. destruct (Hj HF0) as [Hn1 Hn3]. rewrite H1 in Hn1. split; [done|].
    intros Heq Hne. destruct H3 as [[_ H3]|[H3 _]]; [done|]. rewrite H3 in Hn3. auto.
Qed.

(** The builds considered: encryption and rollback protection, with an object buffer
    that holds a table (which the source checks when it is compiled). *)
Record ps_build_ok : Prop := {
  bo_enc : PS_ENCRYPTION = true;
  bo_rollback : PS_ROLLBACK_PROTECTION = true;
  bo_assets : 0 <= PS_NUM_ASSETS;
  bo_fits : PS_OBJ_TABLE_SIZE <= PS_MAX_ASSET_SIZE;
  bo_owner : is_s32 TFM_SP_PS;
}.
Context (HB : ps_build_ok).

Lemma table_size_nonneg : 0 <= PS_OBJ_TABLE_SIZE <= PS_OBJECT_BUF_SIZE.
Proof.
  destruct HB as [Henc _ Hn Hf _]. unfold PS_OBJECT_BUF_SIZE, PS_OBJ_TABLE_SIZE, PS_TAG_LEN_BYTES,
    PS_OBJ_TABLE_ENTRIES, PS_OBJECTS_TABLE_ENTRY_SIZE, sizeof_crypto in *. rewrite Henc in *. lia.
Qed.

Definition unread : ps_obj_table_init_ctx_t :=
  {| table_state_0 := PS_OBJ_TABLE_VALID; table_state_1 := PS_OBJ_TABLE_VALID; nvc_1 := 0; nvc_3 := 0 |}.

(** Initialisation in this build. *)
Lemma init_phases s : ps_object_table_init s =
  (c ← ps_object_table_fs_read_table unread; _ ← modifyS own_tables; choose_table c) s.
Proof.
  unfold ps_object_table_init, choose_table. rewrite (bo_enc HB), (bo_rollback HB). unfold mbind, M_bind, modifyS, own_tables.
  destruct (ps_object_table_fs_read_table _ s) as [[c|e|h] s1]; [|done..].
  by destruct (ps_object_table_nvc_authenticate c _) as [[c1|e|h] s2].
Qed.

(** The label of the object table's key. *)
Definition table_label : bytes := le32 TFM_SP_PS ++ le64 PS_OBJ_TABLE_UID.

Lemma own_label t : label_of (own_table t).(tb_crypto) = table_label.
Proof. done. Qed.

Lemma body_length_store i l s : object_ok s -> (length l <= Z.to_nat PS_OBJECT_BUF_SIZE)%nat ->
  object_ok (store_p_table i l s).
Proof.
  unfold object_ok, store_p_table. intros Ho Hl. destruct (i =? _); [done|].
  cbn. rewrite length_splice; [done|]. pose proof table_size_nonneg. unfold sizeof_info in Ho. lia.
Qed.

Lemma p_table_1_set t s : (12 <= length s.(g_ps_object).(ob_body))%nat ->
  p_table 1 (set_p_table 1 t s) =
    table_of (table_bytes t ++ drop (12 + length (table_bytes t)) s.(g_ps_object).(ob_body)).
Proof.
  intros Hl. unfold set_p_table, store_p_table, p_table, object_data, splice.
  change (1 =? PS_OBJ_TABLE_IDX_0) with false. cbn [g_ps_object set_g_ps_object ob_body set_ob_body].
  rewrite drop_all_after by (rewrite length_take; lia). done.
Qed.

(** The label survives the second table's way through memory. *)
Lemma label_of_stored t l : length t.(tb_crypto).(cr_tag) = 16%nat ->
  label_of (table_of (table_bytes (own_table t) ++ l)).(tb_crypto) = table_label.
Proof.
  intros Ht. destruct HB as [Henc _ _ _ Hs]. unfold table_of, table_bytes, label_of. rewrite Henc. cbn [tb_crypto].
  unfold crypto_of, crypto_bytes, own_table. cbn [cr_tag cr_uid cr_client_id cr_iv tb_crypto
    set_tb_crypto set_cr_owner]. rewrite <- !app_assoc.
  rewrite (drop_all_after _ _ 16), (drop_after _ _ 16 24), (drop_all_after (le64 _)) by (done || lia).
  unfold fill_key_label. cbn [cr_uid cr_client_id].
  rewrite of_le64_le64, of_le32_le32_s32 by (done || unfold is_u64, PS_OBJ_TABLE_UID; lia). done.
Qed.

Lemma own_tables_label s i : object_ok s -> is_table_idx i ->
  label_of (p_table i (own_tables s)).(tb_crypto) = table_label.
Proof.
  intros Ho [-> | ->]; [done|]. pose proof table_size_nonneg as [Hs0 Hs1].
  unfold object_ok, sizeof_info in Ho.
  unfold own_tables. change PS_OBJ_TABLE_IDX_1 with 1. rewrite p_table_1_set by (cbn; lia).
  apply label_of_stored. unfold p_table, table_of, object_data. rewrite (bo_enc HB).
  change (1 =? PS_OBJ_TABLE_IDX_0) with false. cbn [tb_crypto].
  unfold crypto_of. cbn [cr_tag]. apply length_slice. rewrite length_drop.
  cbn [g_ps_object set_p_table set_ps_table]. change (p_table 0 s) with s.(ps_table).
  unfold PS_OBJ_TABLE_SIZE, sizeof_crypto in Hs1. rewrite (bo_enc HB) in Hs1.
  unfold PS_OBJECTS_TABLE_ENTRY_SIZE, PS_OBJ_TABLE_ENTRIES in Hs1. rewrite (bo_enc HB) in Hs1.
  pose proof (bo_assets HB). cbn. lia.
Qed.

(** Reading leaves the environment's world and the size of the object. *)
Lemma read_phase_wp F c s : (F -> fit s) -> object_ok s ->
  wp (ps_object_table_fs_read_table c)
    (fun c' s' => (F -> fit s') /\ world_of s' = world_of s /\ object_ok s')
    (fun _ _ => False) (fun _ _ => ~ F) s.
Proof.
  intros HF Ho. unfold ps_object_table_fs_read_table. pose proof table_size_nonneg.
  assert (forall i d s1, object_ok s1 -> object_ok (store_p_table i (slice d 0 (Z.to_nat PS_OBJ_TABLE_SIZE)) s1)) as Hst.
  { intros i d s1 H1. apply body_length_store; [done|]. unfold slice. rewrite length_take. lia. }
  assert (forall i c1 s1, (F -> fit s1) -> object_ok s1 -> world_of s1 = world_of s ->
    wp (fs_read_one i c1)
      (fun _ s' => (F -> fit s') /\ world_of s' = world_of s /\ object_ok s')
      (fun _ _ => False) (fun _ _ => ~ F) s1) as Hone.
  { intros i c1 s1 HF1 Ho1 Hw1. eapply wp_mono; [by apply (fs_read_one_wp F)|..]; cbn beta; [|done..].
    intros c2 s2 (HF2 & Hw2 & Hor). split; [done|]. split; [congruence|].
    destruct Hor as [(d & _ & _ & ->)|(_ & _ & ->)]; [by apply Hst|done]. }
  wp_auto. eapply wp_mono; [by apply Hone|..]; cbn beta; [|done..].
  intros c1 s1 (HF1 & Hw1 & Ho1). by apply Hone.
Qed.

(** C8: rollback protection.  Whatever is in storage, when initialisation of the object
    table succeeds, the table it loaded was sealed under the key of the object table
    together with a current value of the NV counters: that of the first counter, or
    that of the third while it agrees with the second.  A table sealed for an earlier
    value is never loaded.  (Authenticated decryption is ideal, [PsLaws].) *)
Theorem init_refuses_rollback s : object_ok s ->
  wp ps_object_table_init
    (fun _ s' => let t := s'.(ps_table) in
       t.(tb_version) = PS_OBJECT_SYSTEM_VERSION /\
       exists n, current_value (world_of s) n /\
         sealed_as (world_of s) table_label t.(tb_crypto).(cr_iv) (assoc_data t n) []
           t.(tb_crypto).(cr_tag))
    (fun _ _ => True) (fun _ _ => True) s.
Proof.
  intros Ho. apply (wp_ext _ _ _ _ _ _ (init_phases s)). apply wp_bind.
  eapply wp_mono; [by apply (read_phase_wp False)|..]; cbn beta; [|done..].
  intros c s1 (_ & Hw & Ho1). wp_auto.
  eapply wp_mono; [by apply (choose_table_wp False)|..]; cbn beta; [|done..].
  intros _ s2 (i & Hi & _ & -> & _ & _ & _ & Hv & (n & Hcur & Ha) & _).
  assert (world_of (own_tables s1) = world_of s) as Hw2.
  { rewrite <- Hw. unfold own_tables, set_p_table, store_p_table. done. }
  rewrite Hw2 in Hcur, Ha. split; [done|]. exists n. split; [done|].
  unfold authentic in Ha. by rewrite (own_tables_label _ _ Ho1 Hi) in Ha.
Qed.
End Boot.
