(* ===== verification/PsCrash.v ===== *)
(** Protected Storage: saving the object table and losing power.

    In a build with encryption and rollback protection, against the laws of
    [PsLaws]: after power was lost at any point of saving a table, initialisation
    loads the old table or the new one. *)

From stdpp Require Import base list numbers gmap.
From S2P Require Import Prelude PsTypes PsBytes PsLaws PsCrypto PsAuth PsTable PsBoot.

Section Crash.
Context `{PsBuild} {X : Type} `{!PsEnv X} `{!PsEnvLaws X} (HB : ps_build_ok).
Implicit Types (s : ps_state X) (w : ps_world) (t : ps_obj_table_t).

Lemma length_table_bytes t : table_bytes_wf t ->
  Z.of_nat (length (table_bytes t)) = PS_OBJ_TABLE_SIZE.
Proof.
  intros (Hc & _ & Hp & Hl & Hdb). unfold table_bytes, auth_bytes, PS_OBJ_TABLE_SIZE, table_pad_size in *.
  rewrite (bo_enc HB), (bo_rollback HB) in *. rewrite length_app. cbn [length app]. rewrite length_app.
  pose proof (length_entries _ Hdb). pose proof (length_crypto _ Hc). lia.
Qed.

(** A table of the partition's own, as it is kept. *)
Definition table_kept t : Prop :=
  table_bytes_wf t /\ own_table t = t /\ t.(tb_version) = PS_OBJECT_SYSTEM_VERSION.

(** ** Reading what was stored *)

(** The two table files hold [T]. *)
Definition files_hold w (T : Z -> option ps_obj_table_t) : Prop :=
  forall i, is_table_idx i -> w.(w_files) !! PS_TABLE_FS_ID i = table_bytes <$> T i /\
    (forall t, T i = Some t -> table_kept t).

Definition read_as (T : Z -> option ps_obj_table_t) (c : ps_obj_table_init_ctx_t) s (i : Z) : Prop :=
  match T i with
  | Some t => table_state i c = PS_OBJ_TABLE_VALID /\ p_table i s = t
  | None => table_state i c = PS_OBJ_TABLE_INVALID
  end.

Lemma p_table_store i j t s : table_bytes_wf t -> is_table_idx i -> is_table_idx j -> object_ok s ->
  p_table j (store_p_table i (slice (table_bytes t) 0 (Z.to_nat PS_OBJ_TABLE_SIZE)) s) =
    if j =? i then t else p_table j s.
Proof.
  intros Hwf Hi Hj Ho. pose proof (length_table_bytes t Hwf) as Hl.
  assert (slice (table_bytes t) 0 (Z.to_nat PS_OBJ_TABLE_SIZE) = table_bytes t) as ->.
  { rewrite <- Hl, Nat2Z.id. unfold slice. rewrite drop_0. apply take_ge. lia. }
  pose proof (table_size_nonneg HB) as [Hs0 Hs1]. unfold object_ok, sizeof_info in Ho.
  destruct Hi as [-> | ->], Hj as [-> | ->]; try done.
  - unfold p_table, store_p_table, splice.
    change (PS_OBJ_TABLE_IDX_0 =? PS_OBJ_TABLE_IDX_0) with true. cbn [ps_table set_ps_table].
    rewrite take_0, app_nil_l. by rewrite table_bytes_roundtrip.
  - unfold p_table, store_p_table, object_data, splice.
    change (PS_OBJ_TABLE_IDX_1 =? PS_OBJ_TABLE_IDX_0) with false.
    cbn [g_ps_object set_g_ps_object ob_body set_ob_body].
    rewrite drop_all_after by (rewrite length_take; lia). by rewrite table_bytes_roundtrip.
Qed.

(** One read, when the services answer. *)
Lemma read_one_as T i c s : fit s -> object_ok s -> files_hold (world_of s) T -> is_table_idx i ->
  table_state i c = PS_OBJ_TABLE_VALID ->
  wp (fs_read_one i c)
    (fun c' s' => fit s' /\ world_of s' = world_of s /\ object_ok s' /\ read_as T c' s' i /\
       forall j, is_table_idx j -> j <> i -> p_table j s' = p_table j s /\
         table_state j c' = table_state j c)
    (fun _ _ => False) (fun _ _ => False) s.
Proof.
  intros Hf Ho HT Hi Hc.
  eapply wp_mono; [by apply (fs_read_one_wp True)|..]; cbn beta; [|done|tauto].
  intros c' s' (Hf' & Hw & Hor). destruct (HT i Hi) as [Hfile Hkept]. split; [auto|]. split; [done|].
  unfold read_as. destruct Hor as [(d & Hd & -> & Hs')|(Hn & -> & Hs')].
  - rewrite Hd in Hfile. destruct (T i) as [t|] eqn:Et; [|done]. injection Hfile as ->.
    destruct (Hkept t eq_refl) as [Hwf _]. rewrite Hs'. split.
    { apply body_length_store; [done|done|]. unfold slice. rewrite length_take.
      pose proof (table_size_nonneg HB). lia. }
    split; [split; [done|]; rewrite p_table_store by done; by rewrite Z.eqb_refl|].
    intros j Hj Hne. split; [|done]. rewrite p_table_store by done.
    apply Z.eqb_neq in Hne. by rewrite Hne.
  - rewrite (Hn I) in Hfile. destruct (T i); [done|]. rewrite Hs'. split; [done|]. split.
    + unfold table_state, set_table_state. destruct Hi as [-> | ->]; done.
    + intros j Hj Hne. split; [done|]. destruct Hi as [-> | ->], Hj as [-> | ->]; done.
Qed.

Lemma read_tables_as T s : fit s -> object_ok s -> files_hold (world_of s) T ->
  wp (ps_object_table_fs_read_table unread)
    (fun c' s' => fit s' /\ world_of s' = world_of s /\ object_ok s' /\
       forall i, is_table_idx i -> read_as T c' s' i)
    (fun _ _ => False) (fun _ _ => False) s.
Proof.
  intros Hf Ho HT. unfold ps_object_table_fs_read_table. apply wp_bind.
  eapply wp_mono; [apply (read_one_as T PS_OBJ_TABLE_IDX_0); try done; by left|..]; cbn beta; [|done..].
  intros c1 s1 (Hf1 & Hw1 & Ho1 & Hr1 & Hk1).
  assert (is_table_idx PS_OBJ_TABLE_IDX_1) as H1 by (by right).
  destruct (Hk1 _ H1 ltac:(done)) as [_ Hst1].
  eapply wp_mono; [apply (read_one_as T PS_OBJ_TABLE_IDX_1); [done|done|by rewrite Hw1|done|by rewrite Hst1]|..];
    cbn beta; [|done..].
  intros c2 s2 (Hf2 & Hw2 & Ho2 & Hr2 & Hk2). split; [done|]. split; [congruence|]. split; [done|].
  intros i [-> | ->]; [|done]. destruct (Hk2 PS_OBJ_TABLE_IDX_0 ltac:(by left) ltac:(done)) as [Hp Hst].
  unfold read_as in *. destruct (T PS_OBJ_TABLE_IDX_0); [|congruence].
  split; [rewrite Hst; apply Hr1|rewrite Hp; apply Hr1].
Qed.

Lemma own_tables_as T c s : object_ok s -> files_hold (world_of s) T ->
  (forall i, is_table_idx i -> read_as T c s i) ->
  forall i, is_table_idx i -> read_as T c (own_tables s) i.
Proof.
  intros Ho HT Hr i Hi. pose proof (table_size_nonneg HB). unfold object_ok, sizeof_info in Ho.
  specialize (Hr i Hi). destruct (HT i Hi) as [_ Hkept]. unfold read_as in *.
  destruct (T i) as [t|]; [|done]. destruct Hr as [Hst Hp]. split; [done|].
  destruct (Hkept t eq_refl) as (Hwf & Hown & _). destruct Hi as [-> | ->].
  - change (own_table (p_table 0 s) = t). change 0 with PS_OBJ_TABLE_IDX_0. by rewrite Hp.
  - unfold own_tables. change PS_OBJ_TABLE_IDX_1 with 1 in *.
    rewrite p_table_1_set by (cbn; lia).
    change (p_table 1 (set_p_table 0 (own_table (p_table 0 s)) s)) with (p_table 1 s).
    rewrite Hp, Hown. by apply table_bytes_roundtrip.
Qed.

(** Initialisation loads an accepted table, if there is one. *)
Lemma boot_wp T s : fit s -> object_ok s -> files_hold (world_of s) T ->
  (exists i t n, is_table_idx i /\ T i = Some t /\ authentic (world_of s) t n /\
     (n = (world_of s).(w_counter) TFM_PS_NV_COUNTER_1 \/
      n = (world_of s).(w_counter) TFM_PS_NV_COUNTER_3 /\
      n = (world_of s).(w_counter) TFM_PS_NV_COUNTER_2 /\ n <> PS_INVALID_NVC_VALUE)) ->
  wp ps_object_table_init
    (fun _ s' => fit s' /\ exists i t, is_table_idx i /\ T i = Some t /\ s'.(ps_table) = t /\
       s'.(ps_active) = i /\ s'.(ps_scratch) = other_idx i)
    (fun _ _ => False) (fun _ _ => False) s.
Proof.
  intros Hf Ho HT (i0 & t0 & n & Hi0 & Ht0 & Ha & Hn).
  apply (wp_ext _ _ _ _ _ _ (init_phases HB s)). apply wp_bind.
  eapply wp_mono; [by apply (read_tables_as T)|..]; cbn beta; [|done..].
  intros c s1 (Hf1 & Hw1 & Ho1 & Hr1). wp_auto. rewrite <- Hw1 in HT.
  pose proof (own_tables_as T c s1 Ho1 HT Hr1) as Hr2.
  assert (world_of (own_tables s1) = world_of s) as Hw2.
  { rewrite <- Hw1. unfold own_tables, set_p_table, store_p_table. done. }
  assert (fit (own_tables s1)) as Hf2.
  { unfold fit in *. unfold own_tables, set_p_table, store_p_table. done. }
  eapply wp_mono; [by apply (choose_table_wp True)|..]; cbn beta; [| |tauto].
  - intros _ s2 (i & Hi & Hst & -> & Hact & Hscr & _ & _ & _ & Hf3). split; [auto|].
    specialize (Hr2 i Hi). unfold read_as in Hr2. destruct (T i) as [t|] eqn:Et; [|done].
    exists i, t. split; [done|]. split; [done|]. by destruct Hr2.
  - intros e s2 Herr. specialize (Herr I i0 Hi0). specialize (Hr2 i0 Hi0).
    unfold read_as in Hr2. rewrite Ht0 in Hr2. destruct Hr2 as [Hst Hp]. rewrite Hp, Hw2 in Herr.
    destruct (HT i0 Hi0) as [_ Hk]. destruct (Hk t0 Ht0) as (_ & _ & Hv).
    destruct Herr as [E|[E|[E1 E3]]]; [congruence|done|].
    destruct Hn as [-> |(-> & E & Hne)]; [done|]. by apply E3.
Qed.

(** ** Saving *)

Lemma env_does_wp {A} (m : M X A) P (Q : A -> ps_state X -> Prop) E W s :
  does world m P s.(ps_env) ->
  (forall a x', P a (world_of s) (world x') -> Q a (set_ps_env x' s)) ->
  (forall e x', world x' = world_of s -> E e (set_ps_env x' s)) ->
  (forall h x', world x' = world_of s \/ (exists a, P a (world_of s) (world x')) ->
     W h (set_ps_env x' s)) ->
  wp (on_env m) Q E W s.
Proof.
  unfold does, wp, on_env, world_of. intros Hd HQ HE HW.
  destruct (m (ps_env s)) as [[a|e|h] x']; [apply HQ|apply HE|apply HW]; auto.
Qed.

(** The files and counters are as before, and no seal is forgotten. *)
Definition grown w w' : Prop :=
  w'.(w_files) = w.(w_files) /\ w'.(w_counter) = w.(w_counter) /\
  (forall se, se ∈ w.(w_sealed) -> se ∈ w'.(w_sealed)).

Lemma grown_trans w1 w2 w3 : grown w1 w2 -> grown w2 w3 -> grown w1 w3.
Proof. intros (? & ? & ?) (? & ? & ?). split; [congruence|]. split; [congruence|auto]. Qed.

Lemma quiet_grown s s' : quiet s s' -> grown (world_of s) (world_of s').
Proof. intros [_ []]. split; [done|]. split; [done|]. congruence. Qed.

Lemma grown_authentic w w' t n : grown w w' -> authentic w t n -> authentic w' t n.
Proof. intros (_ & _ & Hs) Ha. by apply Hs. Qed.

(** The tag covers everything of the table but its crypto data. *)
Lemma generate_auth_tag_wp n s : table_kept s.(ps_table) ->
  wp (ps_object_table_nvc_generate_auth_tag n)
    (fun _ s' => grown (world_of s) (world_of s') /\ authentic (world_of s') s'.(ps_table) n /\
       table_kept s'.(ps_table) /\ s'.(ps_table).(tb_obj_db) = s.(ps_table).(tb_obj_db) /\
       s'.(ps_scratch) = s.(ps_scratch))
    (fun _ s' => grown (world_of s) (world_of s')) (fun _ s' => grown (world_of s) (world_of s')) s.
Proof.
  intros ((Hc & Hsw & Hpad & Hlen & Hdb) & Hown & Hv). rewrite (bo_enc HB) in Hc.
  destruct Hc as (Htag & Huid & Hcid & Hiv).
  unfold ps_object_table_nvc_generate_auth_tag, ps_crypto_get_iv, upd_table. wp_auto.
  { done. }
  set (iv := le64 _ ++ le32 _). set (t := ps_table s). set (c1 := set_cr_iv iv t.(tb_crypto)).
  set (s1 := set_ps_table _ _). unfold ps_crypto_generate_auth_tag, with_key. apply wp_bind.
  assert (world_of s1 = world_of s) as Hw1 by done.
  eapply wp_mono; [apply (setkey_calm False); [cbn; lia|done]|..]; cbn beta;
    [|intros ? s2 [Hq2 _]; rewrite <- Hw1; by apply quiet_grown..].
  intros k s2 (Hq2 & _ & Hk). apply quiet_grown in Hq2 as Hg2. rewrite Hw1 in Hg2.
  wp_auto. eapply env_does_wp; [apply encrypt_does|..].
  - intros tag x3 (label & Hk3 & Hlt & Hw3). cbn [length Nat.add] in Hlt.
    assert (label = fill_key_label c1) as -> by congruence.
    set (s3 := set_ps_env x3 s2).
    assert (grown (world_of s) (world_of s3)) as Hg3.
    { eapply grown_trans; [exact Hg2|]. change (world_of s3) with (world x3). rewrite Hw3.
      split; [done|]. split; [done|]. intros se Hse. cbn. by right. }
    assert (sealed_as (world_of s3) (fill_key_label c1) iv (assoc_data t n) [] tag) as Hseal.
    { unfold sealed_as. change (world_of s3) with (world x3). rewrite Hw3. left. }
    replace (Z.of_nat (length tag) =? PS_TAG_LEN_BYTES) with true by (rewrite Hlt; done).
    wp_auto. set (s4 := set_ps_table _ s3).
    pose proof (quiet_ram _ _ Hq2) as E2.
    assert (s4.(ps_table) = set_tb_crypto (set_cr_tag tag c1) t) as Et4.
    { unfold s4, s3. rewrite E2. done. }
    assert (s4.(ps_scratch) = s.(ps_scratch)) as Es4.
    { unfold s4, s3. rewrite E2. done. }
    eapply wp_mono; [apply (destroy_calm False); done|..]; cbn beta;
      [|intros ? s5 [Hq5 _]; eapply grown_trans; [exact Hg3|];
        change (world_of s3) with (world_of s4); by apply quiet_grown..].
    intros _ s5 (Hq5 & _ & _). wp_auto. apply quiet_grown in Hq5 as Hg5.
    change (world_of s4) with (world_of s3) in Hg5.
    rewrite (quiet_ram _ _ Hq5). cbn [ps_table ps_scratch set_ps_env]. rewrite Et4, Es4.
    split; [by eapply grown_trans|]. split; [|split; [|by split]].
    + eapply grown_authentic; [exact Hg5|]. exact Hseal.
    + unfold table_kept, table_bytes_wf. rewrite (bo_enc HB), (bo_rollback HB) in *. cbn.
      split; [|split; [|done]].
      * unfold crypto_wf. cbn. repeat split; try done; try lia; apply Huid || apply Hcid.
      * assert (cr_uid (tb_crypto (own_table t)) = PS_OBJ_TABLE_UID) as Eu by done.
        assert (cr_client_id (tb_crypto (own_table t)) = TFM_SP_PS) as Ec by done.
        unfold t in Eu, Ec. rewrite Hown in Eu, Ec. subst c1.
        unfold own_table, set_cr_owner, set_tb_crypto, set_cr_tag, set_cr_iv, t. cbn.
        by rewrite Eu, Ec.
  - intros e x3 Hw3. cbn. wp_auto. set (s3 := set_ps_env x3 s2).
    assert (grown (world_of s) (world_of s3)) as Hg3.
    { change (world_of s3) with (world x3). by rewrite Hw3. }
    eapply wp_mono; [apply (destroy_calm False); done|..]; cbn beta; intros ? s5 [Hq5 _]; wp_auto;
      (eapply grown_trans; [exact Hg3|]; by apply quiet_grown).
  - intros h x3 Hor. eapply grown_trans; [exact Hg2|].
    change (world_of (set_ps_env x3 s2)) with (world x3).
    destruct Hor as [-> |(a & label & _ & _ & ->)]; split; try done.
    split; [done|]. intros se Hse. cbn. by right.
Qed.

(** What a restart keeps: the files, the counters and what was ever sealed. *)
Record same_durable (w w' : ps_world) : Prop := {
  sd_files : w'.(w_files) = w.(w_files);
  sd_counter : w'.(w_counter) = w.(w_counter);
  sd_sealed : w'.(w_sealed) = w.(w_sealed);
}.

Lemma same_store_durable w w' : same_store w w' -> same_durable w w'.
Proof. by intros []. Qed.

(** The counters besides the first stand at [n] or the first has been followed. *)
Definition counters_follow w (n : Z) : Prop :=
  w.(w_counter) TFM_PS_NV_COUNTER_1 = n + 1 /\
  (w.(w_counter) TFM_PS_NV_COUNTER_2 = n \/ w.(w_counter) TFM_PS_NV_COUNTER_2 = n + 1) /\
  (w.(w_counter) TFM_PS_NV_COUNTER_3 = n \/ w.(w_counter) TFM_PS_NV_COUNTER_3 = n + 1).
Definition counters_at w (n : Z) : Prop :=
  (w.(w_counter) TFM_PS_NV_COUNTER_1 = n \/ w.(w_counter) TFM_PS_NV_COUNTER_1 = n + 1) /\
  w.(w_counter) TFM_PS_NV_COUNTER_2 = n /\ w.(w_counter) TFM_PS_NV_COUNTER_3 = n.

(** What saving the table leaves of the world [w] at any point: nothing is written, or
    the new table is. *)
Definition unwritten (n : Z) w w' : Prop :=
  (forall se, se ∈ w.(w_sealed) -> se ∈ w'.(w_sealed)) /\
  w'.(w_files) = w.(w_files) /\ counters_at w' n.
Definition written (db : list ps_obj_table_entry_t) (scratch n : Z) w w' : Prop :=
  (forall se, se ∈ w.(w_sealed) -> se ∈ w'.(w_sealed)) /\
  exists t, t.(tb_obj_db) = db /\ table_kept t /\
    w'.(w_files) = <[PS_TABLE_FS_ID scratch := table_bytes t]> w.(w_files) /\
    authentic w' t (n + 1) /\ counters_follow w' n.
Definition save_point (db : list ps_obj_table_entry_t) (scratch n : Z) w w' : Prop :=
  unwritten n w w' \/ written db scratch n w w'.

Lemma unwritten_grown n w w1 w2 : unwritten n w w1 -> grown w1 w2 -> unwritten n w w2.
Proof.
  intros (Hs & Hf & Hc) (Hf2 & Hc2 & Hs2). split; [auto|]. split; [congruence|].
  unfold counters_at in *. by rewrite Hc2.
Qed.

Lemma written_same db scr n w w1 w2 : written db scr n w w1 -> same_durable w1 w2 ->
  written db scr n w w2.
Proof.
  intros (Hs & t & Hdb & Ht & Hf & Ha & Hc) [Ef Ec Es].
  split; [by rewrite Es|]. exists t. split; [done|]. split; [done|]. split; [congruence|].
  split; [unfold authentic, sealed_as; by rewrite Es|]. unfold counters_follow in *. by rewrite Ec.
Qed.

Lemma written_follow db scr n w w1 c v : c = TFM_PS_NV_COUNTER_2 \/ c = TFM_PS_NV_COUNTER_3 ->
  written db scr n w w1 -> v = n + 1 ->
  written db scr n w (set_w_counter (fun i => if i =? c then v else w1.(w_counter) i) w1).
Proof.
  intros Hc (Hs & t & Hdb & Ht & Hf & Ha & Hcs) ->. split; [done|]. exists t.
  do 4 (split; [done|]). unfold counters_follow, TFM_PS_NV_COUNTER_1, TFM_PS_NV_COUNTER_2,
    TFM_PS_NV_COUNTER_3 in *. cbn. destruct Hc as [-> | ->]; cbn; tauto.
Qed.

Lemma increment_counter_wp c (Q : unit -> ps_state X -> Prop) E W s :
  (forall s', s' = set_ps_env s'.(ps_env) s ->
     world_of s' = set_w_counter (fun i => if i =? c then (world_of s).(w_counter) c + 1
                                           else (world_of s).(w_counter) i) (world_of s) ->
     Q tt s' /\ forall h, W h s') ->
  (forall s', s' = set_ps_env s'.(ps_env) s -> world_of s' = world_of s ->
     E PSA_ERROR_GENERIC_ERROR s' /\ forall h, W h s') ->
  wp (ps_increment_nv_counter c) Q E W s.
Proof.
  intros H1 H2. unfold ps_increment_nv_counter. apply wp_or_return.
  eapply env_does_wp; [apply increment_does|..]; unfold increment_step.
  - intros [] x' Hw. by apply H1.
  - intros e x' Hw. by apply H2.
  - intros h x' [Hw|[[] Hw]]; [by apply H2|by apply H1].
Qed.

(** Aligning a counter that is one behind. *)
Lemma align_counter_wp c n (I : ps_world -> Prop) s :
  (world_of s).(w_counter) c = n \/ (world_of s).(w_counter) c = n + 1 ->
  I (world_of s) ->
  (forall w w', I w -> same_store w w' -> I w') ->
  (forall w v, I w -> v = n + 1 ->
     I (set_w_counter (fun i => if i =? c then v else w.(w_counter) i) w)) ->
  wp (align_counter c (n + 1)) (fun _ s' => I (world_of s')) (fun _ s' => I (world_of s'))
    (fun _ s' => I (world_of s')) s.
Proof.
  intros Hc HI Hsame Hinc. unfold align_counter. wp_auto.
  eapply wp_mono; [apply (read_counter_calm False); done|..]; cbn beta;
    [|intros ? s' [[_ Hq] _]; by eapply Hsame..].
  intros v s1 ([_ Hq] & _ & ->). assert (I (world_of s1)) as HI1 by (by eapply Hsame).
  assert ((world_of s1).(w_counter) c = (world_of s).(w_counter) c) as Hc1 by (by destruct Hq as [_ -> _ _ _]).
  apply (wp_while _ (fun v s' => (v = n \/ v = n + 1) /\ (v = n -> (world_of s').(w_counter) c = n) /\
    I (world_of s')) _ _ _ (fun v => n + 1 - v)).
  - intros v s2 (Hv & Hcv & HI2). destruct (Z.ltb_spec v (n + 1)); wp_auto; [|done].
    assert (v = n) as -> by lia. apply increment_counter_wp.
    + intros s3 _ Hw3. wp_auto. rewrite (Hcv eq_refl) in Hw3.
      assert (I (world_of s3)) by (rewrite Hw3; by apply Hinc). split; [|done].
      split; [|lia]. split; [lia|]. split; [lia|done].
    + intros s3 _ Hw3. by rewrite Hw3.
  - rewrite Hc1. split; [lia|]. split; [done|done].
  - rewrite <- Hc1 in Hc. lia.
Qed.

Lemma align_wp db scr n w s : written db scr n w (world_of s) ->
  wp (ps_object_table_align_nv_counters (n + 1))
    (fun _ s' => written db scr n w (world_of s')) (fun _ s' => written db scr n w (world_of s'))
    (fun _ s' => written db scr n w (world_of s')) s.
Proof.
  intros Hw. unfold ps_object_table_align_nv_counters. wp_auto.
  assert (forall c s1, c = TFM_PS_NV_COUNTER_2 \/ c = TFM_PS_NV_COUNTER_3 ->
    written db scr n w (world_of s1) -> wp (align_counter c (n + 1))
      (fun _ s' => written db scr n w (world_of s')) (fun _ s' => written db scr n w (world_of s'))
      (fun _ s' => written db scr n w (world_of s')) s1) as Hone.
  { intros c s1 Hc Hw1. apply (align_counter_wp c n (written db scr n w)); [|done|..].
    - destruct Hw1 as (_ & t & _ & _ & _ & _ & _ & H2 & H3). by destruct Hc as [-> | ->].
    - intros w1 w2 Hw12 Hss. by eapply written_same, same_store_durable.
    - intros w1 v. by apply written_follow. }
  eapply wp_mono; [apply Hone; [by left|done]|..]; cbn beta; [|done..].
  intros _ s1 Hw1. apply Hone; [by right|done].
Qed.

Lemma write_table_wp n w s : table_kept s.(ps_table) -> unwritten n w (world_of s) ->
  (world_of s).(w_counter) TFM_PS_NV_COUNTER_1 = n + 1 ->
  authentic (world_of s) s.(ps_table) (n + 1) ->
  wp ps_object_table_fs_write_table
    (fun _ s' => written s.(ps_table).(tb_obj_db) s.(ps_scratch) n w (world_of s'))
    (fun _ s' => unwritten n w (world_of s'))
    (fun _ s' => save_point s.(ps_table).(tb_obj_db) s.(ps_scratch) n w (world_of s')) s.
Proof.
  intros Ht (Hse & Hf & Hat) Hn1 Ha. unfold ps_object_table_fs_write_table. wp_auto.
  set (w2 := set_w_files (<[PS_TABLE_FS_ID s.(ps_scratch) := table_bytes s.(ps_table)]>
    (world_of s).(w_files)) (world_of s)).
  assert (written s.(ps_table).(tb_obj_db) s.(ps_scratch) n w w2) as Hw2.
  { split; [done|]. exists s.(ps_table). do 2 (split; [done|]). split; [cbn; by rewrite Hf|].
    split; [done|]. unfold counters_follow, counters_at in *. cbn. tauto. }
  eapply env_does_wp; [apply set_does|..]; unfold its_set_step.
  - intros _ x Hx. wp_auto. unfold world_of at 1. cbn. by rewrite Hx.
  - intros e x Hx. unfold world_of at 1. cbn. by rewrite Hx.
  - intros h x Hor. unfold world_of at 1. cbn. destruct Hor as [-> |[_ ->]]; [by left|by right].
Qed.

Lemma save_wp n s : table_kept s.(ps_table) -> counters_at (world_of s) n ->
  (world_of s).(w_counter) TFM_PS_NV_COUNTER_1 = n ->
  let sp := save_point s.(ps_table).(tb_obj_db) s.(ps_scratch) n (world_of s) in
  wp ps_object_table_save_table (fun _ s' => sp (world_of s')) (fun _ s' => sp (world_of s'))
    (fun _ s' => sp (world_of s')) s.
Proof.
  intros Ht [_ [Hc2 Hc3]] Hc1 sp.
  unfold ps_object_table_save_table. rewrite (bo_enc HB), (bo_rollback HB). wp_auto.
  apply increment_counter_wp.
  2:{ intros s1 _ Hw1. assert (sp (world_of s1)); [|done]. left. rewrite Hw1. split; [done|].
      split; [done|]. unfold counters_at. auto. }
  intros s1 E1 Hw1.
  assert (unwritten n (world_of s) (world_of s1)) as Hun1.
  { rewrite Hw1. split; [done|]. split; [done|].
    unfold counters_at, TFM_PS_NV_COUNTER_1, TFM_PS_NV_COUNTER_2, TFM_PS_NV_COUNTER_3 in *.
    cbn. rewrite Hc1, Hc2, Hc3. auto. }
  assert (forall w', grown (world_of s1) w' -> sp w') as Hgrown.
  { intros w' Hg. left. by eapply unwritten_grown. }
  split; [|by intros; apply Hgrown].
  assert ((world_of s1).(w_counter) TFM_PS_NV_COUNTER_1 = n + 1) as Hn1 by (rewrite Hw1; cbn; lia).
  eapply wp_mono; [apply (read_counter_calm False); done|..]; cbn beta;
    [|intros ? s2 [Hq2 _]; by apply Hgrown, quiet_grown..].
  intros v s2 (Hq2 & _ & ->). rewrite Hn1. apply quiet_grown in Hq2 as Hg2.
  assert (s2.(ps_table) = s.(ps_table) /\ s2.(ps_scratch) = s.(ps_scratch)) as [Et2 Es2].
  { by rewrite (quiet_ram _ _ Hq2), E1. }
  apply wp_bind. eapply wp_mono; [apply (generate_auth_tag_wp (n + 1)); by rewrite Et2|..]; cbn beta;
    [|intros; apply Hgrown; by eapply grown_trans..].
  intros _ s3 (Hg3 & Ha3 & Hk3 & Hdb3 & Hs3). rewrite Et2 in Hdb3. rewrite Es2 in Hs3.
  pose proof (grown_trans _ _ _ Hg2 Hg3) as Hg. pose proof (unwritten_grown _ _ _ _ Hun1 Hg) as Hun3.
  unfold sp. rewrite <- Hdb3, <- Hs3.
  apply wp_bind. eapply wp_mono; [apply (write_table_wp n (world_of s)); try done|..]; cbn beta.
  - destruct Hg as (_ & -> & _). done.
  - intros _ s4 Hw4. eapply wp_mono; [by apply align_wp|..]; cbn beta; by right.
  - by left.
  - done.
Qed.

(** The table in use is the one in its file, sealed with the value at which the
    counters stand; its other file is absent. *)
Record in_use (s : ps_state X) t n : Prop := {
  iu_kept : table_kept t;
  iu_active : is_table_idx s.(ps_active);
  iu_scratch : s.(ps_scratch) = other_idx s.(ps_active);
  iu_file : (world_of s).(w_files) !! PS_TABLE_FS_ID s.(ps_active) = Some (table_bytes t);
  iu_absent : (world_of s).(w_files) !! PS_TABLE_FS_ID s.(ps_scratch) = None;
  iu_sealed : authentic (world_of s) t n;
  iu_value : n <> PS_INVALID_NVC_VALUE;
  iu_counters c : c = TFM_PS_NV_COUNTER_1 \/ c = TFM_PS_NV_COUNTER_2 \/ c = TFM_PS_NV_COUNTER_3 ->
    (world_of s).(w_counter) c = n;
}.

(** What the table files hold: [t] in the active one, and perhaps [t'] in the other. *)
Definition tables s t (t' : option ps_obj_table_t) (i : Z) : option ps_obj_table_t :=
  if i =? s.(ps_active) then Some t else t'.

Lemma save_point_boots s t n w : in_use s t n ->
  save_point s.(ps_table).(tb_obj_db) s.(ps_scratch) n (world_of s) w ->
  exists t' : option ps_obj_table_t, (forall t1, t' = Some t1 -> t1.(tb_obj_db) = s.(ps_table).(tb_obj_db)) /\
    files_hold w (tables s t t') /\
    exists i t1 n', is_table_idx i /\ tables s t t' i = Some t1 /\ authentic w t1 n' /\
      (n' = w.(w_counter) TFM_PS_NV_COUNTER_1 \/
       n' = w.(w_counter) TFM_PS_NV_COUNTER_3 /\ n' = w.(w_counter) TFM_PS_NV_COUNTER_2 /\
       n' <> PS_INVALID_NVC_VALUE).
Proof.
  intros [Hk Ha Hscr Hfa Hfs Hau Hn0 Hc] Hsp.
  assert (tables s t None s.(ps_active) = Some t /\ forall o, tables s t o s.(ps_scratch) = o)
    as [HTa HTs].
  { unfold tables. rewrite Z.eqb_refl. split; [done|]. intros o. rewrite Hscr.
    by destruct Ha as [-> | ->]. }
  assert (forall i, is_table_idx i -> i <> s.(ps_active) -> i = s.(ps_scratch)) as Hother.
  { rewrite Hscr. intros i [-> | ->]; destruct Ha as [-> | ->]; done. }
  destruct Hsp as [(Hse & Hff & Hcc)|(Hse & t1 & Hdb & Hkt & Hff & Hat & Hcc)].
  - exists None. split; [done|]. split.
    + intros i Hi. rewrite Hff. unfold tables. destruct (Z.eqb_spec i s.(ps_active)) as [->|Hne].
      * split; [done|]. by intros ? [= <-].
      * rewrite (Hother i Hi Hne). by split.
    + exists s.(ps_active), t, n. split; [done|]. split; [done|]. split; [by apply Hse|].
      right. by destruct Hcc as (_ & -> & ->).
  - exists (Some t1). split; [by intros ? [= <-]|]. split.
    + intros i Hi. rewrite Hff. unfold tables. destruct (Z.eqb_spec i s.(ps_active)) as [->|Hne].
      * rewrite lookup_insert_ne; [split; [done|]; by intros ? [= <-]|].
        rewrite Hscr. by destruct Ha as [-> | ->].
      * rewrite (Hother i Hi Hne), lookup_insert_eq. split; [done|]. by intros ? [= <-].
    + exists s.(ps_scratch), t1, (n + 1).
      split; [rewrite Hscr; by destruct Ha as [-> | ->]; [right|left]|].
      split; [done|]. split; [done|]. left. symmetry. apply Hcc.
Qed.

Lemma save_point_same db scr n w w1 w2 : save_point db scr n w w1 -> same_durable w1 w2 ->
  save_point db scr n w w2.
Proof.
  intros [Hu|Hw] Hs; [left|right; by eapply written_same].
  eapply unwritten_grown; [exact Hu|]. destruct Hs. split; [done|]. split; [done|]. congruence.
Qed.

(** C7: saving the object table is atomic.  Let the table in use be the one in its
    file, sealed with the value at which the three NV counters stand, and its other
    file absent ([in_use]).  However saving a new table ends, with success, with an
    error of any service or by a loss of power at any point, once the partition
    starts again with services that answer, initialisation succeeds and loads the old
    entries or the new ones. *)
Theorem table_save_power_safe (s : ps_state X) t n r s1 (s2 : ps_state X) :
  in_use s t n -> table_kept s.(ps_table) ->
  ps_object_table_save_table s = (r, s1) ->
  object_ok s2 -> fit s2 -> same_durable (world_of s1) (world_of s2) ->
  exists s3, ps_object_table_init s2 = (Val tt, s3) /\
    (s3.(ps_table).(tb_obj_db) = t.(tb_obj_db) \/
     s3.(ps_table).(tb_obj_db) = s.(ps_table).(tb_obj_db)).
Proof.
  intros Hu Hkn Hrun Ho Hf Hst.
  assert (save_point s.(ps_table).(tb_obj_db) s.(ps_scratch) n (world_of s) (world_of s1)) as Hsp.
  { pose proof (save_wp n s Hkn) as Hw. unfold wp in Hw. rewrite Hrun in Hw.
    pose proof (iu_counters _ _ _ Hu) as Hc.
    assert (counters_at (world_of s) n) by (unfold counters_at; rewrite !Hc by auto; auto).
    destruct r; apply Hw; auto. }
  apply (save_point_same _ _ _ _ _ _ Hsp) in Hst.
  destruct (save_point_boots s t n _ Hu Hst) as (t' & Ht' & HT & Hacc).
  pose proof (boot_wp _ s2 Hf Ho HT Hacc) as Hw. unfold wp in Hw.
  destruct (ps_object_table_init s2) as [[[]|e|h] s3]; [|done..].
  exists s3. split; [done|]. destruct Hw as (_ & i & t1 & _ & Ht1 & -> & _).
  unfold tables in Ht1. destruct (i =? _); [left; congruence|right; by apply Ht'].
Qed.
End Crash.
