(* ===== verification/PsStored.v ===== *)
(** Protected Storage: the file of an object while the table is saved.

    Saving the object table writes and removes the two files of the table only, and
    forgets no seal. *)

From stdpp Require Import base list numbers gmap.
From S2P Require Import Prelude PsTypes PsBytes PsLaws PsCrypto PsAuth PsTable PsSystem.

Section TableFiles.
Context `{PsBuild} {X : Type} `{!PsEnv X} `{!PsEnvLaws X}.
Implicit Types (s : ps_state X) (w : ps_world).

(** A property of the world that saving the table does not affect. *)
Class TableBlind (I : ps_world -> Prop) := {
  tb_same w w' : same_store w w' -> I w -> I w';
  tb_seal w se : I w -> I (set_w_sealed (se :: w.(w_sealed)) w);
  tb_count w f : I w -> I (set_w_counter f w);
  tb_write w i d : i = PS_OBJ_TABLE_IDX_0 \/ i = PS_OBJ_TABLE_IDX_1 -> I w ->
    I (set_w_files (<[PS_TABLE_FS_ID i := d]> w.(w_files)) w);
  tb_remove w i : i = PS_OBJ_TABLE_IDX_0 \/ i = PS_OBJ_TABLE_IDX_1 -> I w ->
    I (set_w_files (delete (PS_TABLE_FS_ID i) w.(w_files)) w);
}.

Context (I : ps_world -> Prop) `{!TableBlind I}.

Definition blind s : Prop :=
  I (world_of s) /\ (s.(ps_active) = PS_OBJ_TABLE_IDX_0 \/ s.(ps_active) = PS_OBJ_TABLE_IDX_1) /\
  (s.(ps_scratch) = PS_OBJ_TABLE_IDX_0 \/ s.(ps_scratch) = PS_OBJ_TABLE_IDX_1).

Lemma blind_env {A} (m : M X A) P :
  (forall x, does world m P x) -> (forall a w w', P a w w' -> I w -> I w') ->
  keeps blind (on_env m).
Proof.
  intros Hd HP s (HI & Ha & Hs). specialize (Hd s.(ps_env)).
  unfold does, wp, blind, on_env, world_of in *. destruct (m (ps_env s)) as [[a|e|h] x']; cbn.
  - split; [by eapply HP|done].
  - by rewrite Hd.
  - split; [|done]. destruct Hd as [->|[a Hd]]; [done|by eapply HP].
Qed.

Lemma blind_modifyS f : (forall s, (f s).(ps_env) = s.(ps_env)) ->
  (forall s, (f s).(ps_active) = s.(ps_active)) -> (forall s, (f s).(ps_scratch) = s.(ps_scratch)) ->
  keeps blind (modifyS f).
Proof.
  intros He Ha Hs. apply keeps_modifyS. intros s. unfold blind, world_of. by rewrite He, Ha, Hs.
Qed.

Ltac same_world := cbv [counter_step increment_step label_step output_key_step same_step];
  intros; repeat match goal with H : _ /\ _ |- _ => destruct H end; subst; try done;
  (eapply tb_same; [|eassumption]; split; done).

Lemma blind_read_counter c : keeps blind (ps_read_nv_counter c).
Proof.
  apply keeps_or_return. eapply blind_env; [intros; apply counter_does|]. same_world.
Qed.
Lemma blind_increment c : keeps blind (ps_increment_nv_counter c).
Proof.
  apply keeps_or_return. eapply blind_env; [intros; apply increment_does|].
  intros [] w w' -> HI. by apply tb_count.
Qed.
Lemma blind_abort : keeps blind (on_env psa_key_derivation_abort).
Proof. eapply blind_env; [apply abort_does|]. same_world. Qed.
Lemma blind_destroy k : keeps blind (on_env (psa_destroy_key k)).
Proof. eapply blind_env; [apply destroy_does|]. same_world. Qed.
Lemma blind_setup : keeps blind (on_env psa_key_derivation_setup).
Proof. eapply blind_env; [apply setup_does|]. same_world. Qed.
Lemma blind_input_key : keeps blind (on_env psa_key_derivation_input_key).
Proof. eapply blind_env; [apply input_key_does|]. same_world. Qed.
Lemma blind_input_bytes l : keeps blind (on_env (psa_key_derivation_input_bytes l)).
Proof. eapply blind_env; [apply input_bytes_does|]. same_world. Qed.
Lemma blind_output_key : keeps blind (on_env psa_key_derivation_output_key).
Proof. eapply blind_env; [apply output_key_does|]. same_world. Qed.
Lemma blind_encrypt k n d p : keeps blind (on_env (psa_aead_encrypt k n d p)).
Proof.
  eapply blind_env; [apply encrypt_does|]. intros out w w' (l & _ & _ & ->) HI. by apply tb_seal.
Qed.
#[local] Hint Resolve blind_read_counter blind_increment blind_abort blind_destroy blind_setup
  blind_input_key blind_input_bytes blind_output_key blind_encrypt : keeps.

Lemma blind_write_table : keeps blind ps_object_table_fs_write_table.
Proof.
  intros s (HI & Ha & Hs). unfold ps_object_table_fs_write_table.
  unfold mbind, M_bind, gets. cbn.
  pose proof (set_does (PS_TABLE_FS_ID s.(ps_scratch)) (table_bytes s.(ps_table))
    PSA_STORAGE_FLAG_NONE s.(ps_env)) as Hd.
  unfold does, wp, on_env, its_set_step in *.
  destruct (psa_its_set _ _ _ (ps_env s)) as [[[]|e|h] x']; cbn; unfold blind, world_of in *; cbn.
  - split; [|done]. rewrite Hd. by apply tb_write.
  - by rewrite Hd.
  - split; [|done]. destruct Hd as [->|[_ ->]]; [done|by apply tb_write].
Qed.

Lemma blind_delete_old : keeps blind ps_object_table_delete_old_table.
Proof.
  intros s (HI & Ha & Hs). unfold ps_object_table_delete_old_table.
  unfold mbind, M_bind, gets. cbn.
  pose proof (remove_does (PS_TABLE_FS_ID s.(ps_scratch)) s.(ps_env)) as Hd.
  unfold does, wp, on_env, its_remove_step in *.
  destruct (psa_its_remove _ (ps_env s)) as [[[]|e|h] x']; cbn; unfold blind, world_of in *; cbn.
  - split; [|done]. rewrite Hd. by apply tb_remove.
  - by rewrite Hd.
  - split; [|done]. destruct Hd as [->|[_ ->]]; [done|by apply tb_remove].
Qed.

Lemma blind_setkey l : keeps blind (ps_crypto_setkey l).
Proof. unfold ps_crypto_setkey. keeps_auto. Qed.
#[local] Hint Extern 3 (keeps blind (modifyS _)) => by apply blind_modifyS : keeps.
#[local] Hint Extern 3 (keeps blind (upd_table _)) => by apply blind_modifyS : keeps.
#[local] Hint Resolve blind_setkey blind_write_table : keeps.

Lemma blind_save_table : keeps blind ps_object_table_save_table.
Proof.
  unfold ps_object_table_save_table, ps_object_table_nvc_generate_auth_tag, ps_crypto_get_iv,
    ps_crypto_generate_auth_tag, with_key, ps_object_table_align_nv_counters, align_counter.
  keeps_auto; apply keeps_while_loop; keeps_auto.
Qed.
End TableFiles.
