(* ===== verification/PsRoundtrip.v ===== *)
(** Protected Storage: what was set is what is read.

    In a build with encryption, against the laws of [PsLaws]: the file of an object,
    from the request that stores it to the request that reads it. *)

From stdpp Require Import base list numbers gmap.
From S2P Require Import Prelude PsTypes PsBytes PsLaws PsCrypto PsAuth PsTable PsSystem PsObjects PsInvariant PsBoot PsCrash PsStored.

Section Roundtrip.
Context `{PsBuild} {X : Type} `{!PsEnv X} `{!PsEnvLaws X}.
Implicit Types (s : ps_state X) (w : ps_world).

(** The builds considered: encryption, with or without rollback protection. *)
Record sizes_ok : Prop := {
  so_enc : PS_ENCRYPTION = true;
  so_size : 0 <= PS_MAX_ASSET_SIZE;
  so_small : PS_MAX_ASSET_SIZE + 24 < 2 ^ 32;
  so_table : PS_OBJ_TABLE_ENTRIES < 2 ^ 31;
}.
Context (HS : sizes_ok).

Lemma body_length s : object_ok s ->
  Z.of_nat (length s.(g_ps_object).(ob_body)) = PS_MAX_ASSET_SIZE + 28.
Proof.
  unfold object_ok, PS_OBJECT_BUF_SIZE, sizeof_info, PS_TAG_LEN_BYTES. rewrite (so_enc HS). lia.
Qed.

(** Only the object and the environment changed. *)
Definition object_only s s' : Prop :=
  s' = set_g_ps_object s'.(g_ps_object) (set_ps_env s'.(ps_env) s).

Lemma object_only_trans s1 s2 s3 : object_only s1 s2 -> object_only s2 s3 -> object_only s1 s3.
Proof. unfold object_only. intros E1 E2. rewrite E2 at 1. by rewrite E1. Qed.

Lemma quiet_object_only s s' : quiet s s' -> object_only s s'.
Proof. intros [-> _]. unfold object_only. by destruct s. Qed.

Lemma quiet_object s s' : quiet s s' -> s'.(g_ps_object) = s.(g_ps_object).
Proof. by intros [-> _]. Qed.

(** ** Decryption in place *)

Lemma take_tagged (b tag : bytes) n : length tag = 16%nat -> (n + 16 <= length b)%nat ->
  take (n + 16) (splice b n tag) = take n b ++ tag.
Proof.
  intros Ht Hl. unfold splice. rewrite app_assoc.
  rewrite take_app_length'; [done|]. rewrite length_app, length_take. lia.
Qed.

Lemma auth_decrypt_wp F fid n s : (F -> fit s) -> 0 <= n ->
  Z.of_nat (length s.(g_ps_object).(ob_body)) >= n + 16 ->
  length s.(g_ps_object).(ob_crypto).(cr_tag) = 16%nat ->
  let o := s.(g_ps_object) in
  let sealed p := sealed_as (world_of s) (label_of o.(ob_crypto)) o.(ob_crypto).(cr_iv) (auth_data fid) p
                    (take (Z.to_nat n) o.(ob_body) ++ o.(ob_crypto).(cr_tag)) in
  wp (ps_object_auth_decrypt fid n)
    (fun _ s' => object_only s s' /\ same_store (world_of s) (world_of s') /\ (F -> fit s') /\
       exists p, Z.of_nat (length p) = n /\ sealed p /\ (F -> forall p', sealed p' -> p = p') /\
         s'.(g_ps_object) = set_ob_body (splice (splice o.(ob_body) (Z.to_nat n) o.(ob_crypto).(cr_tag)) 0 p) o)
    (fun _ _ => F -> forall p, Z.of_nat (length p) = n -> ~ sealed p)
    (fun _ _ => ~ F) s.
Proof.
  intros HF Hn Hl Ht o sealed. fold o in Hl, Ht. unfold ps_object_auth_decrypt, ps_crypto_auth_and_decrypt, put_body, upd_obj.
  wp_auto. fold o. set (b := splice o.(ob_body) (Z.to_nat n) o.(ob_crypto).(cr_tag)).
  set (s1 := set_g_ps_object (set_ob_body b o) s).
  change (ob_body (g_ps_object s1)) with b. unfold with_key. apply wp_bind.
  assert (take (Z.to_nat n + Z.to_nat PS_TAG_LEN_BYTES) b =
    take (Z.to_nat n) o.(ob_body) ++ o.(ob_crypto).(cr_tag)) as ->.
  { apply take_tagged; [done|]. lia. }
  eapply wp_mono; [apply (setkey_calm F); [cbn; lia|exact HF]|..]; cbn beta; [|tauto..].
  intros k s2 (Hq2 & HF2 & Hk2). assert (object_only s s2) as Hoo2.
  { eapply object_only_trans; [|by apply quiet_object_only]. unfold object_only, s1. by destruct s. }
  assert (same_store (world_of s) (world_of s2)) as Hss2 by apply Hq2.
  pose proof (quiet_object _ _ Hq2) as Ho2.
  apply wp_bind. eapply wp_mono; [by apply decrypt_calm|..]; cbn beta; [|tauto..].
  intros r s3 (Hq3 & HF3 & Hw3 & Hr). unfold sealed_as in Hr. rewrite (ss_sealed _ _ Hss2) in Hr.
  assert (same_store (world_of s) (world_of s3)) as Hss3 by (etrans; [exact Hss2|apply Hq3]).
  assert (object_only s s3) as Hoo3 by (eapply object_only_trans; [exact Hoo2|by apply quiet_object_only]).
  pose proof (quiet_object _ _ Hq3) as Ho3. rewrite Ho2 in Ho3.
  destruct r as [e|p]; cbn beta iota.
  - wp_auto. eapply wp_mono; [by apply (destroy_calm F)|..]; cbn beta; intros; wp_auto; [|tauto..].
    intros HF0 p _ Hp. by apply (Hr HF0 p).
  - destruct Hr as (Hlen & Hin & Huniq). wp_auto. rewrite Ho3. set (s4 := set_g_ps_object _ s3).
    assert (object_only s s4) as Hoo4.
    { eapply object_only_trans; [exact Hoo3|]. unfold object_only, s4. by destruct s3. }
    eapply wp_mono; [by apply (destroy_calm F)|..]; cbn beta; [|tauto..].
    intros _ s5 (Hq5 & HF5 & _).
    assert (length p = Z.to_nat n) as Hpn.
    { rewrite length_app, length_take, Ht in Hlen. lia. }
    wp_auto.
    + intros _ p' Hp' Hs'. destruct (Z.eqb_spec (Z.of_nat (length p)) n); [done|lia].
    + split; [eapply object_only_trans; [exact Hoo4|by apply quiet_object_only]|].
      split; [etrans; [exact Hss3|apply Hq5]|]. split; [done|]. exists p.
      split; [destruct (Z.eqb_spec (Z.of_nat (length p)) n); [done|discriminate]|].
      split; [done|]. split; [done|]. by rewrite (quiet_object _ _ Hq5).
Qed.

(** ** The file of an object *)

(** File [fid] holds [plain], sealed under [label] with the tag [tag]. *)
Definition object_file (fid : Z) (tag label plain : bytes) w : Prop :=
  length tag = 16%nat /\
  exists iv c, w.(w_files) !! fid = Some (iv ++ c) /\ length iv = 12%nat /\
    length c = length plain /\ sealed_as w label iv (auth_data fid) plain (c ++ tag).

#[export] Instance stored_blind fid tag label plain : 3 <= fid ->
  TableBlind (object_file fid tag label plain).
Proof.
  intros Hfid.
  assert (forall i, i = PS_OBJ_TABLE_IDX_0 \/ i = PS_OBJ_TABLE_IDX_1 -> PS_TABLE_FS_ID i <> fid) as Hne.
  { unfold PS_TABLE_FS_ID. intros i [-> | ->]; unfold PS_OBJ_TABLE_IDX_0, PS_OBJ_TABLE_IDX_1; lia. }
  unfold object_file, sealed_as. split.
  - intros w w' [Ef _ Es _ _]. by rewrite Ef, Es.
  - intros w se (? & iv & c & ? & ? & ? & ?). split; [done|]. exists iv, c. cbn.
    do 3 (split; [done|]). by right.
  - done.
  - intros w i d Hi. cbn. by rewrite lookup_insert_ne by auto.
  - intros w i Hi. cbn. by rewrite lookup_delete_ne by auto.
Qed.

Lemma its_get_wp F fid n s : (F -> fit s) ->
  wp (on_env (psa_its_get fid 0 n))
    (fun l s' => quiet s s' /\ (F -> fit s') /\
       exists d, (world_of s).(w_files) !! fid = Some d /\ l = take (Z.to_nat n) d)
    (fun _ _ => F -> (world_of s).(w_files) !! fid = None) (fun _ _ => ~ F) s.
Proof.
  intros HF. pose proof (get_does fid 0 n s.(ps_env)) as Hd. pose proof (healthy_get fid n s.(ps_env)) as Hh.
  unfold does, wp, on_env, fit, world_of in *.
  destruct (psa_its_get fid 0 n (ps_env s)) as [[l|e|h] x].
  - destruct Hd as (Hw & d & Hf & ->). split; [apply quiet_env; unfold world_of; by rewrite Hw|].
    split; [intros HF0; by apply Hh, HF|]. exists d. split; [done|]. unfold slice. by rewrite drop_0.
  - intros HF0. by destruct (Hh (HF HF0)).
  - intros HF0. by apply Hh, HF.
Qed.

Lemma put_stored_iv (iv c : bytes) o : length iv = 12%nat -> length o.(ob_crypto).(cr_iv) = 12%nat ->
  put_stored (iv ++ c) o =
    set_ob_body (splice o.(ob_body) 0 c) (set_ob_crypto (set_cr_iv iv o.(ob_crypto)) o).
Proof.
  intros Hiv Ho. unfold put_stored. rewrite take_app_length', drop_app_length' by done.
  do 3 f_equal. unfold splice. rewrite take_0, drop_ge by lia. by rewrite app_nil_l, app_nil_r.
Qed.

Lemma sizes_values : PS_MAX_ENCRYPTED_OBJ_SIZE = PS_MAX_ASSET_SIZE + 12 /\
  u32 (PS_MAX_ENCRYPTED_OBJ_SIZE + STORED_HEADER_DATA_SIZE) = PS_MAX_ASSET_SIZE + 24.
Proof.
  destruct HS. assert (PS_MAX_ENCRYPTED_OBJ_SIZE = PS_MAX_ASSET_SIZE + 12) as ->.
  { unfold PS_MAX_ENCRYPTED_OBJ_SIZE, PS_ENCRYPT_SIZE, sizeof_info. apply u32_small. unfold is_u32. lia. }
  split; [done|]. unfold STORED_HEADER_DATA_SIZE, PS_IV_LEN_BYTES. rewrite u32_small; [lia|].
  unfold is_u32. lia.
Qed.

(** The size of the ciphertext in a file of [len] bytes. *)
Definition cipher_size (len : Z) : Z :=
  if len <? STORED_HEADER_DATA_SIZE then UINT32_MAX else len - STORED_HEADER_DATA_SIZE.

Lemma cipher_size_app (iv c : bytes) : length iv = 12%nat ->
  cipher_size (Z.of_nat (length (iv ++ c))) = Z.of_nat (length c).
Proof.
  intros Hiv. unfold cipher_size, STORED_HEADER_DATA_SIZE, PS_IV_LEN_BYTES. rewrite length_app.
  destruct (Z.ltb_spec (Z.of_nat (length iv + length c)) 12); lia.
Qed.

Lemma cipher_size_nonneg len : 0 <= len -> 0 <= cipher_size len.
Proof.
  intros Hl. unfold cipher_size, STORED_HEADER_DATA_SIZE, PS_IV_LEN_BYTES, UINT32_MAX.
  destruct (Z.ltb_spec len 12); lia.
Qed.

(** What [holds] of the file where the object's tag and owner are known. *)
Definition object_holds fid (o : ps_object_t) plain w : Prop :=
  object_file fid o.(ob_crypto).(cr_tag) (label_of o.(ob_crypto)) plain w /\
  length o.(ob_crypto).(cr_iv) = 12%nat /\ Z.of_nat (length plain) <= PS_MAX_ASSET_SIZE + 12.

Lemma encrypted_read_wp F fid s : (F -> fit s) -> object_ok s ->
  length s.(g_ps_object).(ob_crypto).(cr_tag) = 16%nat ->
  let o := s.(g_ps_object) in
  wp (ps_encrypted_object_read fid)
    (fun _ s' => object_only s s' /\ same_store (world_of s) (world_of s') /\ (F -> fit s') /\
       object_ok s' /\ label_of s'.(g_ps_object).(ob_crypto) = label_of o.(ob_crypto) /\
       (F -> forall plain, object_holds fid o plain (world_of s) ->
          take (length plain) s'.(g_ps_object).(ob_body) = plain))
    (fun _ _ => F -> forall plain, ~ object_holds fid o plain (world_of s))
    (fun _ _ => ~ F) s.
Proof.
  intros HF Ho Ht o. pose proof (body_length s Ho) as Hb. fold o in Hb, Ht.
  destruct sizes_values as [Hmax Hrd]. pose proof (so_size HS) as Hsz.
  unfold ps_encrypted_object_read, upd_obj. rewrite Hrd, Hmax. apply wp_bind.
  eapply wp_mono; [by apply (its_get_wp F)|..]; cbn beta; [| |done].
  2:{ intros e s1 Hn HF0 plain ((_ & iv & c & Hf & _) & _). specialize (Hn HF0). congruence. }
  intros l s1 (Hq1 & HF1 & d & Hf & ->). set (l := take _ d).
  pose proof (quiet_object _ _ Hq1) as Ho1.
  assert (Z.of_nat (length l) <= PS_MAX_ASSET_SIZE + 24) as Hll.
  { unfold l. rewrite length_take. lia. }
  apply wp_bind, wp_modifyS. rewrite Ho1. fold o. set (s2 := set_g_ps_object (put_stored l o) s1).
  assert (forall plain, object_holds fid o plain (world_of s) -> exists iv c, l = iv ++ c /\
    length iv = 12%nat /\ length c = length plain /\
    sealed_as (world_of s) (label_of o.(ob_crypto)) iv (auth_data fid) plain (c ++ o.(ob_crypto).(cr_tag)) /\
    (put_stored l o) = set_ob_body (splice o.(ob_body) 0 c) (set_ob_crypto (set_cr_iv iv o.(ob_crypto)) o))
    as Hholds.
  { intros plain ((_ & iv & c & Hf' & Hiv & Hc & Hse) & Hiv0 & Hlp). exists iv, c.
    assert (l = iv ++ c) as El.
    { assert (d = iv ++ c) as -> by congruence. unfold l. apply take_ge. rewrite length_app. lia. }
    do 4 (split; [done|]). rewrite El. by apply put_stored_iv. }
  assert (Z.of_nat (length s2.(g_ps_object).(ob_body)) = PS_MAX_ASSET_SIZE + 28) as Hb2.
  { unfold s2, put_stored. cbn. rewrite length_splice; [exact Hb|]. rewrite length_drop. lia. }
  assert (object_only s s2) as Hoo2.
  { eapply object_only_trans; [by apply quiet_object_only|]. unfold object_only, s2. by destruct s1. }
  fold (cipher_size (Z.of_nat (length l))).
  assert (forall c iv : bytes, l = iv ++ c -> length iv = 12%nat ->
    cipher_size (Z.of_nat (length l)) = Z.of_nat (length c)) as En.
  { intros c iv -> Hiv. by apply cipher_size_app. }
  pose proof (cipher_size_nonneg (Z.of_nat (length l)) ltac:(lia)) as Hn0.
  generalize dependent (cipher_size (Z.of_nat (length l))). intros n En Hn0.
  apply wp_bind, wp_fail_if.
  { intros Hn HF0 plain Hp. destruct (Hholds plain Hp) as (iv & c & El & Hiv & Hc & _).
    specialize (En c iv El Hiv). destruct Hp as (_ & _ & Hlp). lia. }
  intros Hn. assert (0 <= n <= PS_MAX_ASSET_SIZE + 12) as Hn12 by lia.
  assert (same_store (world_of s) (world_of s2)) as Hss2 by apply Hq1.
  eapply wp_mono; [apply (auth_decrypt_wp F fid n s2); [exact HF1|lia|lia|exact Ht]|..]; cbn beta; [| |done].
  - intros _ s3 (Hoo3 & Hss3 & HF3 & p & Hp & Hin & Huniq & Ho3).
    split; [by eapply object_only_trans|]. split; [by etrans|]. split; [done|].
    assert (Z.of_nat (length (splice (ob_body (g_ps_object s2)) (Z.to_nat n)
      (cr_tag (ob_crypto (g_ps_object s2))))) = PS_MAX_ASSET_SIZE + 28) as Hb3.
    { rewrite length_splice; [done|]. change (cr_tag _) with o.(ob_crypto).(cr_tag). lia. }
    split.
    { unfold object_ok. rewrite Ho3. cbn [ob_body set_ob_body]. rewrite length_splice by lia.
      unfold sizeof_info, PS_OBJECT_BUF_SIZE, PS_TAG_LEN_BYTES. rewrite (so_enc HS). lia. }
    split; [by rewrite Ho3|]. intros HF0 plain Hp'.
    destruct (Hholds plain Hp') as (iv & c & El & Hiv & Hc & Hse & Hput).
    specialize (En c iv El Hiv).
    assert (p = plain) as ->.
    { apply (Huniq HF0). change (g_ps_object s2) with (put_stored l o). rewrite Hput.
      cbn [ob_crypto ob_body set_ob_body set_ob_crypto cr_iv cr_tag set_cr_iv].
      change (label_of (set_cr_iv iv (ob_crypto o))) with (label_of o.(ob_crypto)).
      unfold sealed_as. rewrite (ss_sealed _ _ Hss2).
      unfold splice. rewrite take_0, app_nil_l, En, Nat2Z.id, take_app_length. exact Hse. }
    rewrite Ho3. cbn [ob_body set_ob_body]. unfold splice at 1. rewrite take_0, app_nil_l.
    apply take_app_length.
  - intros e s3 Herr HF0 plain Hp.
    destruct (Hholds plain Hp) as (iv & c & El & Hiv & Hc & Hse & Hput).
    specialize (En c iv El Hiv).
    apply (Herr HF0 plain); [lia|]. change (g_ps_object s2) with (put_stored l o). rewrite Hput.
    cbn [ob_crypto ob_body set_ob_body set_ob_crypto cr_iv cr_tag set_cr_iv].
    change (label_of (set_cr_iv iv (ob_crypto o))) with (label_of o.(ob_crypto)).
    unfold sealed_as. rewrite (ss_sealed _ _ Hss2).
    unfold splice. rewrite take_0, app_nil_l, En, Nat2Z.id, take_app_length. exact Hse.
Qed.

(** ** Storing *)

(** Only the object, the IV and the environment changed. *)
Definition writes_object s s' : Prop :=
  s'.(ps_table) = s.(ps_table) /\ s'.(ps_active) = s.(ps_active) /\
  s'.(ps_scratch) = s.(ps_scratch) /\ s'.(g_obj_tbl_info) = s.(g_obj_tbl_info) /\
  s'.(ps_handle) = s.(ps_handle).

Lemma object_only_writes s s' : object_only s s' -> writes_object s s'.
Proof. unfold writes_object. by intros ->. Qed.

Lemma writes_object_trans s1 s2 s3 : writes_object s1 s2 -> writes_object s2 s3 -> writes_object s1 s3.
Proof. unfold writes_object. intros (? & ? & ? & ? & ?) (? & ? & ? & ? & ?). repeat split; congruence. Qed.

Lemma auth_encrypt_wp fid n s : 0 <= n -> n <= Z.of_nat (length s.(g_ps_object).(ob_body)) ->
  let o := s.(g_ps_object) in
  let plain := take (Z.to_nat n) o.(ob_body) in
  wp (ps_object_auth_encrypt fid n)
    (fun _ s' => writes_object s s' /\ exists iv c tag, length iv = 12%nat /\ length c = length plain /\
       length tag = 16%nat /\
       sealed_as (world_of s') (label_of o.(ob_crypto)) iv (auth_data fid) plain (c ++ tag) /\
       s'.(g_ps_object).(ob_crypto).(cr_iv) = iv /\ s'.(g_ps_object).(ob_crypto).(cr_tag) = tag /\
       take (Z.to_nat n) s'.(g_ps_object).(ob_body) = c)
    (fun _ _ => True) (fun _ _ => True) s.
Proof.
  intros Hn Hl o plain. fold o in Hl.
  assert (length plain = Z.to_nat n) as Hpl by (unfold plain; rewrite length_take; lia).
  unfold ps_object_auth_encrypt, ps_crypto_get_iv, upd_obj. wp_auto; [done|].
  set (iv := le64 _ ++ le32 _). fold o. fold plain.
  set (s1 := set_g_ps_object _ _). unfold ps_crypto_encrypt_and_tag, with_key.
  wp_auto.
  set (crypto := set_cr_iv iv o.(ob_crypto)).
  eapply wp_mono; [apply (setkey_calm False (fill_key_label crypto)); [cbn; lia|done]|..]; cbn beta;
    [|done..].
  intros k s2 (Hq2 & _ & Hk2). apply wp_bind, wp_attempt.
  eapply env_does_wp; [apply encrypt_does|..]; [|intros e x _; cbn beta; wp_auto|done].
  2:{ unfold wp, status_of, mbind, M_bind. by destruct (on_env _ _) as [[] ?]. }
  intros out x (label & Hk & Hlen & Hw). assert (label = label_of o.(ob_crypto)) as ->.
  { change (label_of o.(ob_crypto)) with (fill_key_label crypto). congruence. }
  cbv zeta beta iota.
  replace (Z.of_nat (length out) - PS_TAG_LEN_BYTES) with n by (unfold PS_TAG_LEN_BYTES; lia).
  destruct (Z.ltb_spec n 0) as [?|_]; [lia|]. wp_auto. set (s3 := set_g_ps_object _ _).
  eapply wp_mono; [apply (destroy_calm False); done|..]; cbn beta; [|done..].
  intros _ s4 (Hq4 & _ & _). wp_auto; [done|].
  pose proof (quiet_object _ _ Hq2) as Ho2.
  assert (s3.(g_ps_object) = set_ob_crypto (set_cr_tag (drop (Z.to_nat n) out) crypto)
    (set_ob_body (splice o.(ob_body) 0 out) (set_ob_crypto crypto o))) as Ho3.
  { unfold s3. cbn. rewrite Ho2. done. }
  split.
  { apply (writes_object_trans _ s1); [done|].
    apply (writes_object_trans _ s2); [by apply object_only_writes, quiet_object_only|].
    apply (writes_object_trans _ s3); [done|]. by apply object_only_writes, quiet_object_only. }
  rewrite (quiet_object _ _ Hq4), Ho3. cbn [ob_crypto ob_body set_ob_crypto set_ob_body cr_iv cr_tag set_cr_tag].
  exists iv, (take (Z.to_nat n) out), (drop (Z.to_nat n) out).
  split; [done|]. split; [rewrite length_take; lia|]. split; [rewrite length_drop; lia|].
  split; [|split; [done|split; [done|]]].
  - rewrite take_drop. unfold sealed_as. destruct Hq4 as [_ Hss4]. rewrite (ss_sealed _ _ Hss4).
    change (world_of s3) with (world x). rewrite Hw. left.
  - unfold splice. rewrite take_0, app_nil_l. apply take_app_le. lia.
Qed.

(** The object with its size in its header, written to file [fid]. *)
Lemma encrypted_write_wp fid s : object_ok s -> 0 <= current_size s.(g_ps_object) <= PS_MAX_ASSET_SIZE ->
  let o := s.(g_ps_object) in
  wp (ps_encrypted_object_write fid)
    (fun _ s' => writes_object s s' /\
       object_file fid s'.(g_ps_object).(ob_crypto).(cr_tag) (label_of o.(ob_crypto))
         (take (Z.to_nat (current_size o + 12)) o.(ob_body)) (world_of s'))
    (fun _ _ => True) (fun _ _ => True) s.
Proof.
  intros Ho Hc o. fold o in Hc. pose proof (body_length s Ho) as Hb. fold o in Hb.
  pose proof (so_small HS) as Hsm. unfold ps_encrypted_object_write. apply wp_bind, wp_gets. fold o.
  assert (PS_ENCRYPT_SIZE (current_size o) = current_size o + 12) as ->.
  { unfold PS_ENCRYPT_SIZE, sizeof_info. apply u32_small. unfold is_u32. lia. }
  apply wp_bind. eapply wp_mono; [apply auth_encrypt_wp; [lia|fold o; lia]|..]; cbn beta; [|done..].
  fold o. set (plain := take _ _).
  intros _ s1 (Hw1 & iv & c & tag & Hiv & Hcl & Htag & Hse & Eiv & Etag & Ec).
  apply wp_bind, wp_gets. rewrite Eiv, Ec.
  eapply env_does_wp; [apply set_does|..]; unfold its_set_step; [|done..].
  intros _ x Hx. split; [by apply (writes_object_trans _ s1)|].
  unfold object_file. cbn [g_ps_object set_ps_env]. rewrite Etag. split; [done|].
  exists iv, c. change (world_of (set_ps_env x s1)) with (world x). rewrite Hx. cbn.
  rewrite lookup_insert_eq. done.
Qed.

(** ** The request that stores an object *)

(** What is sealed of an object of [size] bytes [d]: its header, then its data. *)
Definition text_of (size : Z) (d plain : bytes) : Prop :=
  Z.of_nat (length plain) = size + 12 /\ of_le32 plain = size /\ drop 12 plain = d.

(** The object [uid] of [cid] is [d]. *)
Definition object_is (uid cid size : Z) (d : bytes) s : Prop :=
  exists fid tag plain, object_file fid tag (label_of {| cr_tag := []; cr_uid := uid; cr_client_id := cid; cr_iv := [] |})
      plain (world_of s) /\
    text_of size d plain /\
    table_objects (obj_db s) !! (uid, cid) = Some {| ti_fid := fid; ti_tag := tag; ti_version := 0 |}.

Lemma text_of_body body size d : is_u32 size -> length d = Z.to_nat size ->
  (12 + length d <= length body)%nat -> take (length d) (drop 12 body) = d ->
  text_of size d (take (Z.to_nat (size + 12)) (splice body 0 (le32 size))).
Proof.
  intros Hs Hd Hl Hb. unfold splice. rewrite take_0, app_nil_l, le32_length, Nat.add_0_l.
  unfold is_u32 in Hs. rewrite take_app_ge, le32_length by (rewrite le32_length; lia).
  split; [|split].
  - rewrite length_app, le32_length, length_take, length_drop. lia.
  - by apply of_le32_le32.
  - rewrite (drop_after (le32 size) _ 4) by (done || lia).
    replace (Z.to_nat (size + 12) - 4)%nat with (12 - 4 + length d)%nat by lia.
    by rewrite <- take_drop_commute, drop_drop.
Qed.

Lemma current_size_set v o : is_u32 v -> current_size (set_current_size v o) = v.
Proof.
  intros Hv. unfold current_size, set_current_size. cbn [ob_body set_ob_body]. unfold splice.
  rewrite take_0, app_nil_l. by apply of_le32_le32.
Qed.

(** An object in memory, ready to be stored: [d] in its data buffer. *)
Definition object_ready (label : bytes) (d : bytes) s : Prop :=
  object_ok s /\ label_of s.(g_ps_object).(ob_crypto) = label /\
  take (length d) (drop 12 s.(g_ps_object).(ob_body)) = d.

Lemma store_object_stored label d fid s : object_ready label d s ->
  Z.of_nat (length d) <= PS_MAX_ASSET_SIZE -> s.(g_obj_tbl_info).(ti_fid) = fid ->
  wp ps_store_object
    (fun _ s' => writes_object s s' /\ exists plain, text_of (Z.of_nat (length d)) d plain /\
       object_file fid s'.(g_ps_object).(ob_crypto).(cr_tag) label plain (world_of s'))
    (fun _ _ => True) (fun _ _ => True)
    (set_g_ps_object (set_current_size (Z.of_nat (length d)) s.(g_ps_object)) s).
Proof.
  intros (Ho & Hlab & Hd) Hsz Hfid. pose proof (body_length s Ho) as Hb.
  pose proof (so_small HS) as Hsm. assert (is_u32 (Z.of_nat (length d))) as Hu by (unfold is_u32; lia).
  set (s1 := set_g_ps_object _ s).
  unfold ps_store_object. wp_auto. rewrite (so_enc HS). change (g_obj_tbl_info s1) with (g_obj_tbl_info s).
  rewrite Hfid.
  assert (s1.(g_ps_object).(ob_body) = splice s.(g_ps_object).(ob_body) 0 (le32 (Z.of_nat (length d))))
    as Eb by done.
  assert (current_size s1.(g_ps_object) = Z.of_nat (length d)) as Ecs by (by apply current_size_set).
  assert (object_ok s1) as Ho1.
  { unfold object_ok. rewrite Eb, length_splice by (rewrite le32_length; lia). exact Ho. }
  eapply wp_mono; [apply encrypted_write_wp; [done|rewrite Ecs; lia]|..]; cbn beta; [|done..].
  intros _ s2 (Hw & Hst). split; [by apply (writes_object_trans _ s1)|]. eexists.
  split; [|change (label_of (ob_crypto (g_ps_object s1))) with (label_of s.(g_ps_object).(ob_crypto)) in Hst;
    rewrite Hlab in Hst; exact Hst].
  rewrite Ecs, Eb. apply text_of_body; [done|lia|lia|done].
Qed.

(** The table takes the stored file. *)
Lemma set_info_stored uid cid label plain n e s : table_wf (obj_db s) -> uid <> 0 ->
  let fid := PS_OBJECT_FS_ID (Z.of_nat n) in
  let tag := s.(g_ps_object).(ob_crypto).(cr_tag) in
  s.(g_obj_tbl_info).(ti_fid) = fid -> obj_db s !! n = Some e -> entry_used e = false ->
  blind (object_file fid tag label plain) s ->
  wp (ps_update_table uid cid)
    (fun _ s' => blind (object_file fid tag label plain) s' /\
       table_objects (obj_db s') !! (uid, cid) = Some {| ti_fid := fid; ti_tag := tag; ti_version := 0 |})
    (fun _ _ => True) (fun _ _ => True) s.
Proof.
  intros Hwf Hu fid tag Hfid He Hfree Hst. unfold ps_update_table. wp_auto.
  assert (3 <= fid) as H3 by (unfold fid, PS_OBJECT_FS_ID, PS_TABLE_FS_ID, PS_OBJ_TABLE_IDX_1; lia).
  pose proof (stored_blind fid tag label plain H3) as Hblind.
  set (info := {| ti_fid := _ |}).
  destruct (set_obj_tbl_info_wp uid cid info n e s Hwf (so_table HS) Hu Hfid He (or_introl Hfree))
    as (e1 & He1 & Hu1 & Hw). cbv zeta in Hw.
  destruct (set_db uid cid info n e1 _ Hwf Hu Hfid He1 Hu1) as (_ & Ho2 & _).
  assert (keeps (blind (object_file fid tag label plain)) (ps_object_table_set_obj_tbl_info uid cid info)) as Hk.
  { pose proof (blind_save_table (object_file fid tag label plain)) as Hsave.
    unfold ps_object_table_set_obj_tbl_info, ps_get_object_entry_idx, entry_at,
      ps_object_fs_id_to_idx, ps_table_delete_entry, upd_table.
    keeps_auto; apply blind_modifyS; done. }
  eapply wp_mono; [apply wp_and; [exact Hw|apply (wp_keeps _ _ _ Hk Hst)]|..]; cbn beta; [| |done].
  - intros _ s1 [[Hs1 _] Hst1].
    assert (table_objects (obj_db s1) !! (uid, cid) = Some {| ti_fid := fid; ti_tag := tag; ti_version := 0 |}) as Ho1.
    { unfold obj_db at 1. rewrite Hs1, Ho2, lookup_insert_eq. unfold object_info. rewrite (so_enc HS).
      unfold info. cbn. by rewrite Hfid. }
    eapply wp_mono; [apply wp_and; [apply (wp_keeps _ _ _ (blind_delete_old (object_file fid tag label plain)) Hst1)|
      apply (wp_keeps (stays (obj_db s1) s1.(g_obj_tbl_info)) _ s1); [apply stays_delete_old_table|done]]|..];
      cbn beta; [|done..].
    intros _ s2 [Hst2 [Hs2 _]]. split; [done|]. unfold obj_db at 1. by rewrite Hs2.
  - intros err s1 _. wp_auto. by eapply wp_mono; [apply wp_true|..].
Qed.

Lemma tail_fails uid cid ex e old (Q : unit -> ps_state X -> Prop) s :
  wp (update_table_and_return uid cid ex (inl e) old) Q (fun _ _ => True) (fun _ _ => True) s.
Proof.
  unfold update_table_and_return, then_clear, clear_object, upd_obj. wp_auto.
  destruct ex; wp_auto; [|done].
  eapply wp_mono; [apply wp_true|..]; cbn beta; [intros; by wp_auto..|done].
Qed.

(** The entries and the file survive the removal of the old file. *)
Lemma tail_stored uid cid ex label plain n e old s : table_wf (obj_db s) -> uid <> 0 ->
  let fid := PS_OBJECT_FS_ID (Z.of_nat n) in
  let tag := s.(g_ps_object).(ob_crypto).(cr_tag) in
  s.(g_obj_tbl_info).(ti_fid) = fid -> obj_db s !! n = Some e -> entry_used e = false ->
  blind (object_file fid tag label plain) s -> old <> fid ->
  wp (update_table_and_return uid cid ex (inr tt) old)
    (fun _ s' => object_file fid tag label plain (world_of s') /\
       table_objects (obj_db s') !! (uid, cid) = Some {| ti_fid := fid; ti_tag := tag; ti_version := 0 |} /\
       s'.(g_ps_object) = zero_object)
    (fun _ _ => True) (fun _ _ => True) s.
Proof.
  intros Hwf Hu fid tag Hfid He Hfree Hst Hold.
  unfold update_table_and_return, then_clear, clear_object, upd_obj. wp_auto.
  eapply wp_mono; [by apply (set_info_stored uid cid label plain n e)|..]; cbn beta;
    [|intros; by wp_auto|done].
  intros _ s1 [(Hst1 & _) Ho1]. destruct (old =? PS_INVALID_FID); wp_auto; [done|].
  eapply env_does_wp; [apply remove_does|..]; unfold its_remove_step; [|intros; by wp_auto|done].
  intros [] x Hx. wp_auto. split; [|done].
  change (world_of (set_g_ps_object _ _)) with (world x). rewrite Hx.
  destruct Hst1 as (Ht & iv & c & Hf & Hr). split; [done|]. exists iv, c. cbn.
  by rewrite lookup_delete_ne.
Qed.

(** Storing what the client sent. *)
Lemma finish_wp uid cid ex k old size s :
  let d := take (Z.to_nat size) ((world_of s).(w_input) s.(ps_handle) 1) in
  let label := label_of {| cr_tag := []; cr_uid := uid; cr_client_id := cid; cr_iv := [] |} in
  table_wf (obj_db s) -> uid <> 0 -> 0 <= size <= PS_MAX_ASSET_SIZE ->
  object_ok s -> label_of s.(g_ps_object).(ob_crypto) = label ->
  (s.(ps_active) = 0 \/ s.(ps_active) = 1) /\ (s.(ps_scratch) = 0 \/ s.(ps_scratch) = 1) ->
  (old = PS_INVALID_FID \/ exists m e, old = PS_OBJECT_FS_ID (Z.of_nat m) /\ obj_db s !! m = Some e /\
     entry_used e = true) ->
  wp (ps_req_mngr_read_asset_data 0 size)
    (fun _ => wp (store_in_free_fid k old size)
       (fun a => wp (update_table_and_return uid cid ex (inr a) old)
          (fun _ s' => Z.of_nat (length d) = size /\ object_is uid cid size d s' /\
             s'.(g_ps_object) = zero_object) (fun _ _ => True) (fun _ _ => True))
       (fun _ _ => True) (fun _ _ => True))
    (fun _ _ => True) (fun _ _ => True) s.
Proof.
  intros d label Hwf Hu Hsz Ho Hlab Hidx Hold. pose proof (body_length s Ho) as Hb.
  unfold ps_req_mngr_read_asset_data, in_data, upd_obj. wp_auto.
  eapply env_does_wp; [apply read_does|..]; unfold read_step; [|done..].
  intros l x [El Hx]. fold d in El. subst l. wp_auto.
  destruct (Z.leb_spec (0 + Z.of_nat (length d)) (Z.of_nat (length (object_data (g_ps_object
    (set_ps_env x s)))))) as [Hfit|]; wp_auto; [done| |done].
  assert (Z.of_nat (length d) = size) as Hd.
  { destruct (Z.eqb_spec (Z.of_nat (length d)) size); [done|discriminate]. }
  set (s1 := set_g_ps_object _ _). unfold store_in_free_fid, upd_obj. wp_auto.
  assert (object_ready label d s1) as Hready.
  { unfold object_ready, object_ok, s1. cbn [g_ps_object set_g_ps_object set_ps_env ob_body set_ob_body
      ob_crypto]. unfold object_data in Hfit. cbn in Hfit. rewrite length_drop in Hfit.
    split; [rewrite length_splice by lia; exact Ho|]. split; [exact Hlab|].
    change (12 + Z.to_nat 0)%nat with 12%nat. unfold splice.
    rewrite drop_all_after by (rewrite length_take; lia). apply take_app_length. }
  eapply wp_mono; [apply (free_fid_wp k s1)|..]; cbn beta; [|done..].
  intros fid s2 (E2 & (n & e & -> & He & Hfree) & _). unfold set_info_fid. wp_auto.
  set (s3 := set_g_obj_tbl_info _ s2). set (fid := PS_OBJECT_FS_ID (Z.of_nat n)).
  assert (object_ready label d s3) as Hready3.
  { unfold object_ready, object_ok in *. unfold s3. cbn [g_ps_object set_g_obj_tbl_info]. rewrite E2.
    exact Hready. }
  pose proof (store_object_stored label d fid s3 Hready3 ltac:(lia) ltac:(done)) as Hstore.
  rewrite Hd in Hstore. eapply wp_mono; [exact Hstore|..]; cbn beta; [| |done].
  2:{ intros err s4 _. wp_auto. destruct (old =? PS_INVALID_FID); by wp_auto. }
  intros _ s4 ((Et4 & Ea4 & Es4 & Ei4 & _) & plain & Htext & Hst). wp_auto.
  assert (obj_db s4 = obj_db s) as Edb by (unfold obj_db; rewrite Et4; unfold s3; cbn; by rewrite E2).
  assert (old <> fid) as Hne.
  { destruct Hold as [->|(m & e' & -> & He' & Hu')]; unfold fid, PS_INVALID_FID, PS_OBJECT_FS_ID,
      PS_TABLE_FS_ID, PS_OBJ_TABLE_IDX_1; [lia|]. intros E. assert (m = n) as -> by lia.
    change (obj_db s1) with (obj_db s) in He. congruence. }
  eapply wp_mono; [apply (tail_stored uid cid ex label plain n e old s4)|..]; cbn beta; rewrite ?Edb; try done.
  - by rewrite Ei4.
  - split; [exact Hst|]. rewrite Ea4, Es4. unfold s3. cbn. rewrite E2. exact Hidx.
  - intros _ s5 (Hst5 & Ho5 & Hz). split; [done|]. split; [|done]. by exists fid, (cr_tag (ob_crypto (g_ps_object s4))), plain.
Qed.

Definition tags_ok (db : list ps_obj_table_entry_t) : Prop :=
  Forall (fun e => length e.(en_tag) = 16%nat) db.
Definition idx_ok s : Prop :=
  (s.(ps_active) = 0 \/ s.(ps_active) = 1) /\ (s.(ps_scratch) = 0 \/ s.(ps_scratch) = 1).

(** The object's information is loaded: its tag goes to the object. *)
Lemma load_tag_wp uid cid (Q : unit -> ps_state X -> Prop) (E : Z -> ps_state X -> Prop) W s : uid <> 0 ->
  (forall n e, obj_db s !! n = Some e -> entry_used e = true ->
     table_objects (obj_db s) !! (uid, cid) =
       Some {| ti_fid := PS_OBJECT_FS_ID (Z.of_nat n); ti_tag := e.(en_tag); ti_version := 0 |} ->
     forall info, info.(ti_fid) = PS_OBJECT_FS_ID (Z.of_nat n) ->
     Q tt (set_g_ps_object
       (set_ob_crypto (set_cr_tag e.(en_tag) s.(g_ps_object).(ob_crypto)) s.(g_ps_object))
       (set_g_obj_tbl_info info s))) ->
  (table_objects (obj_db s) !! (uid, cid) = None -> E PSA_ERROR_DOES_NOT_EXIST s) ->
  wp (load_obj_tbl_info uid cid) Q E W s.
Proof.
  intros Hu HQ HE. unfold load_obj_tbl_info, upd_obj. wp_auto.
  eapply wp_mono; [by apply get_obj_tbl_info_wp|..]; cbn beta; [| |done].
  - intros info s1 (-> & Hm & n & e & Hfid & He & _ & Hue & Htag). wp_auto. rewrite (so_enc HS).
    wp_auto. rewrite Htag. apply (HQ n); [done..| |done]. rewrite Hm. unfold object_info.
    rewrite (so_enc HS). by rewrite Hfid, Htag.
  - intros err s1 (-> & -> & Hn). auto.
Qed.

Lemma object_ok_header v f o : (12 <= length o.(ob_body))%nat ->
  length (set_max_size v (set_create_flags f o)).(ob_body) = length o.(ob_body).
Proof.
  intros Hl. cbn [set_max_size set_create_flags ob_body set_ob_body].
  rewrite !length_splice; rewrite ?length_splice; rewrite ?le32_length; lia.
Qed.

Lemma object_ok_zero s : s.(g_ps_object) = zero_object -> object_ok s.
Proof.
  unfold object_ok. intros ->. unfold zero_object, zeros. cbn [ob_body]. rewrite length_replicate.
  unfold PS_OBJECT_BUF_SIZE, sizeof_info, PS_TAG_LEN_BYTES. rewrite (so_enc HS).
  pose proof (so_size HS). lia.
Qed.

Definition client_data size s : bytes :=
  take (Z.to_nat size) ((world_of s).(w_input) s.(ps_handle) 1).

Lemma create_over_wp uid cid flags size s n e : table_wf (obj_db s) -> uid <> 0 ->
  0 <= size <= PS_MAX_ASSET_SIZE -> object_ok s -> idx_ok s ->
  length s.(g_ps_object).(ob_crypto).(cr_tag) = 16%nat ->
  s.(g_obj_tbl_info).(ti_fid) = PS_OBJECT_FS_ID (Z.of_nat n) -> obj_db s !! n = Some e ->
  entry_used e = true ->
  wp (r ← attempt (_ ← create_over_existing uid cid flags size;
                   _ ← ps_req_mngr_read_asset_data 0 size;
                   store_in_free_fid 1 s.(g_obj_tbl_info).(ti_fid) size);
      update_table_and_return uid cid true r s.(g_obj_tbl_info).(ti_fid))
    (fun _ s' => Z.of_nat (length (client_data size s)) = size /\
       object_is uid cid size (client_data size s) s' /\ s'.(g_ps_object) = zero_object)
    (fun _ _ => True) (fun _ _ => True) s.
Proof.
  intros Hwf Hu Hsz Ho Hidx Htag Hfid He Hue. apply wp_bind, wp_attempt, wp_bind.
  unfold create_over_existing, read_stored_object, upd_obj. rewrite (so_enc HS). wp_auto.
  set (s1 := set_g_ps_object _ s).
  eapply wp_mono; [apply (encrypted_read_wp False); done|..]; cbn beta;
    [|intros; apply tail_fails|done].
  intros _ s2 (Hoo & Hss & _ & Ho2 & Hlab & _). wp_auto; [apply tail_fails|].
  set (s3 := set_g_ps_object _ s2). pose proof (body_length s2 Ho2) as Hb2.
  pose proof (so_size HS).
  assert (client_data size s3 = client_data size s) as Hd.
  { unfold client_data, s3. change (world_of (set_g_ps_object _ s2)) with (world_of s2).
    rewrite (ss_input _ _ Hss). unfold object_only in Hoo. rewrite Hoo. done. }
  assert (obj_db s3 = obj_db s /\ s3.(ps_active) = s.(ps_active) /\ s3.(ps_scratch) = s.(ps_scratch))
    as (Edb & Ea & Es) by (unfold object_only in Hoo; unfold s3; rewrite Hoo; done).
  rewrite <- Hd.
  pose proof (finish_wp uid cid true 1 s.(g_obj_tbl_info).(ti_fid) size s3) as Hfin. cbv zeta in Hfin.
  eapply wp_mono; [apply Hfin|..]; cbn beta; rewrite ?Edb; try done.
  - unfold object_ok, s3. cbn [g_ps_object set_g_ps_object]. rewrite object_ok_header by lia. exact Ho2.
  - by rewrite Ea, Es.
  - right. by exists n, e.
  - intros [] s4 Hs4. eapply wp_mono; [exact Hs4|..]; cbn beta; [done| |done].
    intros. apply tail_fails.
  - intros. apply tail_fails.
Qed.

Lemma create_stores_wp uid cid flags size s : table_wf (obj_db s) -> tags_ok (obj_db s) ->
  uid <> 0 -> 0 <= size -> object_ok s -> idx_ok s ->
  wp (ps_object_create uid cid flags size)
    (fun _ s' => size <= PS_MAX_ASSET_SIZE /\ Z.of_nat (length (client_data size s)) = size /\
       object_is uid cid size (client_data size s) s' /\ s'.(g_ps_object) = zero_object)
    (fun _ _ => True) (fun _ _ => True) s.
Proof.
  intros Hwf Htags Hu Hsz Ho Hidx. unfold ps_object_create. apply wp_bind, wp_fail_if; [done|].
  intros Hmax. assert (0 <= size <= PS_MAX_ASSET_SIZE) as Hszm by lia.
  assert (forall m : PS X unit, forall s1,
    wp m (fun _ s' => Z.of_nat (length (client_data size s1)) = size /\
      object_is uid cid size (client_data size s1) s' /\ s'.(g_ps_object) = zero_object)
      (fun _ _ => True) (fun _ _ => True) s1 -> client_data size s1 = client_data size s ->
    wp m (fun _ s' => size <= PS_MAX_ASSET_SIZE /\ Z.of_nat (length (client_data size s)) = size /\
      object_is uid cid size (client_data size s) s' /\ s'.(g_ps_object) = zero_object)
      (fun _ _ => True) (fun _ _ => True) s1) as Hpost.
  { intros m s1 Hm Hd. eapply wp_mono; [exact Hm|..]; cbn beta; [|done..]. rewrite Hd. tauto. }
  apply wp_bind, wp_attempt, load_tag_wp; [done| |].
  - intros n e He Hue Ho1 info Hfid. set (s1 := set_g_ps_object _ _). wp_step. wp_step.
    apply Hpost; [|done]. apply (create_over_wp uid cid flags size s1 n e); try done.
    unfold tags_ok in Htags. rewrite Forall_lookup in Htags. by apply (Htags n e).
  - intros Hnone. unfold ps_init_empty_object, upd_obj. rewrite (so_enc HS).
    rewrite Z.eqb_refl. wp_step. wp_step. set (s1 := set_g_ps_object _ s).
    apply Hpost; [|done]. apply wp_bind, wp_attempt, wp_bind.
    pose proof (finish_wp uid cid false 2 PS_INVALID_FID size s1) as Hfin. cbv zeta in Hfin.
    eapply wp_mono; [apply Hfin|..]; cbn beta; try done.
    + unfold object_ok. change (g_ps_object s1) with (set_create_flags flags (set_max_size size
        (set_ob_crypto (set_cr_owner uid cid zero_object.(ob_crypto)) zero_object))).
      pose proof (object_ok_zero (set_g_ps_object zero_object s) eq_refl) as Hz.
      pose proof (body_length _ Hz) as Hb. unfold object_ok in Hz. cbn [g_ps_object set_g_ps_object] in Hz, Hb.
      pose proof (so_size HS).
      cbn [set_max_size set_create_flags ob_body set_ob_body set_ob_crypto].
      rewrite !length_splice; rewrite ?length_splice; rewrite ?le32_length; try lia; exact Hz.
    + by left.
Qed.

(** ** The request that reads it *)

Lemma write_asset_wp pos size s : fit s -> 0 <= pos -> 0 <= size ->
  pos + size <= Z.of_nat (length (object_data s.(g_ps_object))) ->
  wp (ps_req_mngr_write_asset_data pos size)
    (fun _ s' => (world_of s').(w_output) = (world_of s).(w_output) ++
       [(s.(ps_handle), 0, slice (object_data s.(g_ps_object)) (Z.to_nat pos) (Z.to_nat size))])
    (fun _ _ => False) (fun _ _ => False) s.
Proof.
  intros Hf Hp Hs Hl. unfold ps_req_mngr_write_asset_data, in_data. wp_auto.
  destruct (Z.leb_spec (pos + size) (Z.of_nat (length (object_data s.(g_ps_object))))); [|lia].
  wp_auto. eapply env_wp; [apply write_does|apply healthy_write|..]; unfold write_step.
  - intros _ x Hx _. change (world_of (set_ps_env x s)) with (world x). by rewrite Hx.
  - intros e x _ Hn. by destruct Hn.
  - intros h x _ Hn. by destruct Hn.
Qed.

Lemma text_in_body size d plain body : 0 <= size -> text_of size d plain ->
  take (length plain) body = plain ->
  of_le32 body = size /\ (Z.to_nat size <= length (drop 12 body))%nat /\
  forall off m, (off + m <= Z.to_nat size)%nat -> slice (drop 12 body) off m = slice d off m.
Proof.
  intros Hs (Hlen & Hcur & Hdat) Hb. assert (length plain <= length body)%nat as Hlb.
  { rewrite <- Hb at 1. rewrite length_take. lia. }
  rewrite <- Hb in Hcur. rewrite <- Hcur at 1. split; [|split].
  - replace (length plain) with (S (S (S (S (length plain - 4))))) by lia.
    by destruct body as [|b0 [|b1 [|b2 [|b3 l]]]].
  - rewrite length_drop. lia.
  - intros off m Hm. rewrite <- Hdat, <- Hb. unfold slice.
    replace (length plain) with (12 + Z.to_nat size)%nat by lia.
    rewrite skipn_firstn_comm, skipn_firstn_comm, take_take. f_equal. lia.
Qed.

Lemma read_back_wp uid cid size d off n s : uid <> 0 -> fit s -> s.(g_ps_object) = zero_object ->
  object_is uid cid size d s -> 0 <= size <= PS_MAX_ASSET_SIZE -> 0 <= off <= size -> 0 <= n ->
  let m := Z.min n (size - off) in
  wp (ps_object_read uid cid off n)
    (fun r s' => r = m /\ (world_of s').(w_output) = (world_of s).(w_output) ++
       [(s.(ps_handle), 0, slice d (Z.to_nat off) (Z.to_nat m))])
    (fun _ _ => False) (fun _ _ => False) s.
Proof.
  intros Hu Hf Hz (fid & tag & plain & Hst & (Hlen & Hcur & Hdat) & Hobj) Hsz Hoff Hn m.
  unfold ps_object_read. apply wp_bind, load_tag_wp; [done| |congruence].
  intros k e He Hue Hobj' info Hfid. rewrite Hobj in Hobj'. injection Hobj' as -> ->.
  set (s1 := set_g_ps_object _ _). unfold then_clear, read_stored_object, clear_object, upd_obj.
  rewrite (so_enc HS). wp_auto. set (s2 := set_g_ps_object _ s1).
  change (g_obj_tbl_info s2) with info. rewrite Hfid.
  assert (object_ok s2) as Ho2.
  { pose proof (object_ok_zero s Hz) as Ho. unfold s2, s1, object_ok in *.
    cbn [g_ps_object set_g_ps_object set_g_obj_tbl_info ob_body set_ob_crypto]. exact Ho. }
  assert (s2.(g_ps_object) = set_ob_crypto (set_cr_owner uid cid (set_cr_tag (en_tag e) zero_crypto))
    zero_object) as Hg2.
  { unfold s2, s1. cbn [g_ps_object set_g_ps_object set_g_obj_tbl_info]. rewrite Hz.
    unfold zero_object. by rewrite (so_enc HS). }
  assert (object_holds (PS_OBJECT_FS_ID (Z.of_nat k)) s2.(g_ps_object) plain (world_of s2)) as Hh.
  { rewrite Hg2. split; [exact Hst|]. split; [done|lia]. }
  eapply wp_mono; [apply (encrypted_read_wp True (PS_OBJECT_FS_ID (Z.of_nat k)) s2)|..]; cbn beta.
  { intros _. exact Hf. }
  { done. }
  { rewrite Hg2. apply Hst. }
  2:{ intros err s3 Hno. by destruct (Hno I plain). }
  2:{ tauto. }
  intros _ s3 (Hoo & Hss & Hf3 & Ho3 & _ & Hread). specialize (Hread I plain Hh).
  destruct (text_in_body size d plain _ ltac:(lia) (conj Hlen (conj Hcur Hdat)) Hread) as (Hc & Hl & Hsl).
  change (of_le32 _) with (current_size s3.(g_ps_object)) in Hc.
  change (drop 12 _) with (object_data s3.(g_ps_object)) in Hl, Hsl.
  pose proof (so_small HS). assert (u32 (size - off) = size - off) as Hu32.
  { apply u32_small. unfold is_u32. lia. }
  wp_auto; rewrite ?Hc, ?Hu32 in *; [lia|].
  eapply wp_mono; [apply write_asset_wp; [by apply Hf3|lia|lia|lia]|..]; cbn beta; [|done..].
  intros _ s4 Hout. wp_auto. split; [done|]. change (world_of (set_g_ps_object _ _)) with (world_of s4).
  rewrite Hout, (ss_output _ _ Hss), Hoo, Hsl by lia. done.
Qed.
(** C9: What was set is what is read, through encryption: after a [tfm_ps_set] that succeeded, the client
    had sent all the bytes it announced, and a [tfm_ps_get] of the same client and identifier, served under
    any handle while the environment does not fail, returns exactly the minimum of the length asked for and
    what is left after the offset, and writes exactly those bytes to the client, and nothing else: whatever
    file, IV, key and tag the two requests chose in between. *)
Theorem ps_set_then_get cid uid flags size off n h s s1 :
  table_wf (obj_db s) -> tags_ok (obj_db s) -> object_ok s -> idx_ok s -> 0 <= size ->
  tfm_ps_set cid uid size flags s = (Val tt, s1) -> fit s1 -> 0 <= off <= size -> 0 <= n ->
  let data := client_data size s in
  let m := Z.min n (size - off) in
  Z.of_nat (length data) = size /\
  exists s2, tfm_ps_get cid uid off n (set_ps_handle h s1) = (Val m, s2) /\
    (world_of s2).(w_output) =
      (world_of s1).(w_output) ++ [(h, 0, slice data (Z.to_nat off) (Z.to_nat m))].
Proof.
  intros Hwf Htags Ho Hidx Hsz Hset Hf Hoff Hn data m. unfold tfm_ps_set, tfm_ps_get in *.
  unfold fail_if in *. unfold TFM_PS_INVALID_UID in *. destruct (Z.eqb_spec uid 0) as [->|Hu]; [done|].
  unfold mbind, M_bind, mret, M_ret in *. destruct (truth _); [done|].
  pose proof (create_stores_wp uid cid flags size s Hwf Htags Hu Hsz Ho Hidx) as Hc.
  unfold wp in Hc. rewrite Hset in Hc. destruct Hc as (Hmax & Hlen & Hobj & Hz). split; [done|].
  pose proof (read_back_wp uid cid size data off n (set_ps_handle h s1) Hu Hf Hz Hobj ltac:(lia) Hoff Hn) as Hr.
  unfold wp in Hr. destruct (ps_object_read _ _ _ _ _) as [[r|e|x] s2]; [|done..].
  destruct Hr as [-> Hout]. by exists s2.
Qed.
End Roundtrip.
