(* ===== verification/PsSample.v ===== *)
(** Protected Storage: a sample partition.

    A build with one asset, encryption and rollback protection, over the environment
    [ideal_env] of [PsLaws], and what runs of it show. *)

From stdpp Require Import base list numbers gmap.
From S2P Require Import Prelude PsTypes PsBytes PsLaws PsCrypto PsAuth PsTable PsSystem PsObjects PsInvariant PsBoot PsCrash PsStored PsRoundtrip.

Definition sample_build : PsBuild := {|
  PS_ENCRYPTION := true;
  PS_ROLLBACK_PROTECTION := true;
  PS_CREATE_FLASH_LAYOUT := true;
  PS_NUM_ASSETS := 1;
  PS_MAX_ASSET_SIZE := 128;
  TFM_SP_PS := 5;
|}.
#[local] Existing Instance sample_build.

Definition empty_world : ps_world :=
  {| w_files := ∅; w_counter := fun _ => 0; w_sealed := []; w_label := []; w_keys := fun _ => None;
     w_input := fun _ _ => []; w_output := [] |}.

(** The partition as it starts, with power for [power] calls. *)
Definition started (w : ps_world) (power : option nat) : ps_state ideal :=
  {| ps_table := zero_table; ps_active := 0; ps_scratch := 0; ps_crypto_iv_buf := zeros 12;
     g_ps_object := zero_object;
     g_obj_tbl_info := {| ti_fid := 0; ti_tag := zeros 16; ti_version := 0 |}; ps_handle := 0;
     ps_env := {| id_world := w; id_power := power; id_capacity := 256 |} |}.
Definition with_power (power : option nat) (s : ps_state ideal) : ps_state ideal :=
  set_ps_env {| id_world := s.(ps_env).(id_world); id_power := power; id_capacity := s.(ps_env).(id_capacity) |} s.

(** The first start of the device. *)
Definition first_start : ps_state ideal := (tfm_ps_init (started empty_world None)).2.

(** Losing power while the table is saved. *)
Definition save_cut (k : nat) (s : ps_state ideal) : ps_world :=
  (ps_object_table_save_table (with_power (Some k) s)).2.(ps_env).(id_world).
Definition start_again (w : ps_world) : outcome unit * ps_state ideal :=
  tfm_ps_init (started w None).

(** The partition started a second time: one table, sealed, in use. *)
Definition running : ps_state ideal := (start_again first_start.(ps_env).(id_world)).2.

(** Closed well-formedness goals: a conjunction of bounds and equations. *)
Ltac concrete := split_and?; try first [reflexivity | unfold is_u64, is_s32, is_u32; cbn; lia].

Lemma sample_ps_build_ok : ps_build_ok.
Proof. by split. Qed.
Lemma sample_sizes_ok : sizes_ok.
Proof. by split; vm_compute. Qed.
Lemma started_durable w p : same_durable w (world_of (started w p)).
Proof. done. Qed.
Lemma started_ok w p : object_ok (started w p).
Proof. done. Qed.

(** The seals of a world are ciphertexts followed by a tag. *)
Definition sealed_fit (w : ps_world) : bool :=
  forallb (fun se => (16 <=? length se.(se_out))%nat &&
    bytes_eqb (take (length se.(se_out) - 16) se.(se_out)) se.(se_plain)) w.(w_sealed).

Lemma sealed_fit_healthy s : s.(ps_env).(id_power) = None -> sealed_fit (world_of s) = true -> fit s.
Proof.
  intros Hp Hs. split; [done|]. apply Forall_forall. intros se Hin.
  unfold sealed_fit in Hs. rewrite forallb_forall in Hs. specialize (Hs se (proj1 (list_elem_of_In _ _) Hin)).
  apply andb_true_iff in Hs as [Hl Ht]. apply Nat.leb_le in Hl. apply bool_decide_eq_true in Ht.
  exists (drop (length se.(se_out) - 16) se.(se_out)). rewrite length_drop. split; [lia|].
  by rewrite <- Ht, take_drop.
Qed.

Lemma init_refuses_rollback_witness :
  wp ps_object_table_init
    (fun _ s' => s'.(ps_table).(tb_version) = PS_OBJECT_SYSTEM_VERSION) (fun _ _ => True) (fun _ _ => True)
    (started first_start.(ps_env).(id_world) None).
Proof.
  eapply wp_mono; [apply (init_refuses_rollback sample_ps_build_ok); done|..]; cbn beta; [|done..].
  by intros _ s' [Hv _].
Defined.

Definition running_table : ps_obj_table_t := Eval vm_compute in running.(ps_table).
Lemma running_table_eq : running.(ps_table) = running_table.
Proof. by vm_compute. Qed.
Lemma running_bytes_wf : table_bytes_wf running_table.
Proof.
  unfold table_bytes_wf, crypto_wf. concrete.
  repeat (apply Forall_cons; split; [unfold entry_wf; concrete|]). by apply Forall_nil.
Qed.
Lemma running_kept : table_kept running.(ps_table).
Proof. rewrite running_table_eq. split; [exact running_bytes_wf|]. concrete. Qed.

Definition running_value : Z := Eval vm_compute in (world_of running).(w_counter) 0.

Lemma running_in_use : in_use running running.(ps_table) running_value.
Proof.
  split; [exact running_kept|left| | | | | |].
  { reflexivity. } { reflexivity. } { vm_compute. reflexivity. } { vm_compute. reflexivity. }
  { unfold authentic, sealed_as. vm_compute. left. }
  { done. }
  intros c [-> | [-> | ->]]; by vm_compute.
Qed.

(** ** The requests *)

(** What the clients send: three bytes, under handle 7. *)
Definition sample_input (h v : Z) : bytes := if (h =? 7) && (v =? 1) then [11; 12; 13] else [].
Definition serving : ps_state ideal :=
  set_ps_handle 7 (set_ps_env {| id_world := set_w_input sample_input (world_of running);
    id_power := None; id_capacity := 256 |} running).
Definition after_set : ps_state ideal := (tfm_ps_set 1 42 3 0 serving).2.

Lemma serving_wf : table_wf (obj_db serving).
Proof.
  split; [done|]. intros i j e e' Hi _ Hu.
  assert (Forall (fun e => entry_used e = false) (obj_db serving)) as Hf by (vm_compute; repeat constructor).
  rewrite Forall_lookup in Hf. specialize (Hf i e Hi). congruence.
Qed.
Lemma serving_tags : tags_ok (obj_db serving).
Proof. unfold tags_ok. vm_compute. repeat constructor. Qed.

Lemma ps_set_then_get_witness :
  exists s2, tfm_ps_get 1 42 1 5 (set_ps_handle 9 after_set) = (Val 2, s2) /\
    (world_of s2).(w_output) = [(9, 0, [12; 13])].
Proof.
  destruct (ps_set_then_get sample_sizes_ok 1 42 0 3 1 5 9 serving after_set) as (_ & s2 & Hget & Hout).
  - exact serving_wf.
  - exact serving_tags.
  - by vm_compute.
  - split; by left + by right.
  - done.
  - by vm_compute.
  - apply sealed_fit_healthy; by vm_compute.
  - done.
  - done.
  - exists s2. split; [exact Hget|]. rewrite Hout. by vm_compute.
Defined.

Lemma table_bytes_roundtrip_witness : table_of (table_bytes running_table ++ [1; 2; 3]) = running_table.
Proof. apply table_bytes_roundtrip. exact running_bytes_wf. Defined.

Definition set_message : ps_msg_t :=
  {| pm_type := TFM_PS_SET; pm_handle := 7; pm_client_id := 1; pm_in_size := [8; 3; 4; 0]; pm_out_size := [0; 0; 0; 0] |}.
Lemma serving_inv : ps_inv serving.
Proof. split; [exact serving_wf|by vm_compute]. Qed.
Lemma ps_requests_keep_spare_witness :
  ps_inv (tfm_protected_storage_service_sfn set_message serving).2.
Proof. refine (ps_requests_keep_spare set_message _ serving serving_inv). reflexivity. Defined.

(** The table with the new object, to be saved when the power is about to go. *)
Definition new_table : ps_obj_table_t := Eval vm_compute in after_set.(ps_table).
Definition low_power (k : nat) : ps_state ideal := with_power (Some k) (set_ps_table new_table running).
Definition cut_short (k : nat) : outcome unit * ps_state ideal := ps_object_table_save_table (low_power k).

Lemma new_table_kept : table_kept new_table.
Proof.
  split; [|concrete]. unfold table_bytes_wf, crypto_wf. concrete.
  repeat (apply Forall_cons; split; [unfold entry_wf; concrete|]). by apply Forall_nil.
Qed.
Lemma in_use_ram s t t' p n : in_use s t n -> in_use (with_power p (set_ps_table t' s)) t n.
Proof. by intros []. Qed.

Lemma table_save_power_safe_witness :
  (cut_short 13).1 = Halt PowerLoss /\
  exists s3, ps_object_table_init (started (world_of (cut_short 13).2) None) = (Val tt, s3) /\
    (s3.(ps_table).(tb_obj_db) = running.(ps_table).(tb_obj_db) \/
     s3.(ps_table).(tb_obj_db) = (low_power 13).(ps_table).(tb_obj_db)).
Proof.
  split; [by vm_compute|].
  apply (table_save_power_safe sample_ps_build_ok (low_power 13) running.(ps_table) running_value
    (cut_short 13).1 (cut_short 13).2 (started (world_of (cut_short 13).2) None)).
  - apply in_use_ram, running_in_use.
  - exact new_table_kept.
  - apply surjective_pairing.
  - apply started_ok.
  - apply sealed_fit_healthy; by vm_compute.
  - apply started_durable.
Defined.

Lemma ps_table_refines_witness :
  wp (ps_object_table_set_obj_tbl_info 42 1 {| ti_fid := PS_OBJECT_FS_ID 0; ti_tag := zeros 16; ti_version := 0 |})
    (fun _ s' => table_objects (obj_db s') !! (42, 1) <> None)
    (fun _ _ => True) (fun _ _ => True) serving.
Proof.
  destruct (ps_table_refines serving 42 1 {| ti_fid := PS_OBJECT_FS_ID 0; ti_tag := zeros 16; ti_version := 0 |})
    as (_ & Hset & _).
  - exact serving_wf.
  - done.
  - done.
  - eexists 0%nat, _. split; [done|]. split; [by vm_compute|]. by left.
  - eapply wp_mono; [exact Hset|..]; cbn beta; [|done..].
    intros _ s' [_ ->]. by rewrite lookup_insert_eq.
Defined.

(** ** What the recovery does not cover *)

(** The partition as before, with other data for the clients and room for files of
    [capacity] bytes. *)
Definition with_client (input : Z -> Z -> bytes) (capacity : nat) (s : ps_state ideal) : ps_state ideal :=
  set_ps_env {| id_world := set_w_input input (world_of s); id_power := None; id_capacity := capacity |} s.
Definition input_of (d : bytes) (h v : Z) : bytes := if (h =? 7) && (v =? 1) then d else [].

(** Storage is too full for the new version of an object. *)
Definition overwrite_failed : outcome unit * ps_state ideal :=
  tfm_ps_set 1 42 100 0 (with_client (input_of (replicate 100 21)) 120 after_set).
Definition room_again : ps_state ideal := with_client sample_input 256 overwrite_failed.2.


(** The object table is read by a partition that starts with the world [w]. *)
Definition tables_read (w : ps_world) : outcome unit * ps_state ideal :=
  ps_object_table_init (started w None).

(** The atomicity of a save covers one loss of power.  A loss while the counters follow the new table
    leaves the first ahead of the others; initialisation accepts the table and does not align them; a
    second loss, in the next save and before its table is written, has advanced the first counter again,
    and no stored table agrees with the first counter or with the third: initialisation fails. *)
Theorem second_power_cut_loses_table :
  (cut_short 11).1 = Halt PowerLoss /\
  let once := tables_read (world_of (cut_short 11).2) in
  once.1 = Val tt /\
  let again := ps_object_table_save_table (with_power (Some 2%nat) once.2) in
  again.1 = Halt PowerLoss /\
  (tables_read (world_of again.2)).1 = Err PSA_ERROR_GENERIC_ERROR.
Proof. vm_compute. repeat split. Qed.

(** A new object is stored, and the power lost before the table records it; the device starts again and
    the client stores other data. *)
Definition interrupted : outcome unit * ps_state ideal := tfm_ps_set 1 42 3 0 (with_power (Some 10%nat) serving).
Definition restarted : ps_state ideal :=
  set_ps_handle 7 (with_client (input_of [21; 22; 23]) 256 (start_again (world_of interrupted.2)).2).
Definition set_again : outcome unit * ps_state ideal := tfm_ps_set 1 42 3 0 restarted.

