(* ===== verification/CryptoTypes.v ===== *)
(** Crypto service: the data.

    The request of a client ([tfm_crypto_pack_iovec]), the function identifiers of
    [interface/include/tfm_crypto_defs.h], the operation slots of [crypto_alloc.c],
    the scratch memory of [crypto_init.c] and the calls of the PSA Crypto library,
    which is the parameter [CryptoEnv]. *)

From stdpp Require Import base list numbers.
From S2P Require Import Prelude.

Definition PSA_ERROR_BAD_STATE : Z := -137.
Definition PSA_ERROR_INSUFFICIENT_MEMORY : Z := -141.
Definition PSA_IPC_CALL : Z := 0.
Definition PSA_MAX_IOVEC : nat := 4.

(** ** Function identifiers *)

Definition TFM_CRYPTO_GROUP_ID_RANDOM : Z := 1.
Definition TFM_CRYPTO_GROUP_ID_KEY_MANAGEMENT : Z := 2.
Definition TFM_CRYPTO_GROUP_ID_HASH : Z := 3.
Definition TFM_CRYPTO_GROUP_ID_MAC : Z := 4.
Definition TFM_CRYPTO_GROUP_ID_CIPHER : Z := 5.
Definition TFM_CRYPTO_GROUP_ID_AEAD : Z := 6.
Definition TFM_CRYPTO_GROUP_ID_ASYM_SIGN : Z := 7.
Definition TFM_CRYPTO_GROUP_ID_ASYM_ENCRYPT : Z := 8.
Definition TFM_CRYPTO_GROUP_ID_KEY_DERIVATION : Z := 9.
Definition BASE__VALUE (x : Z) : Z := Z.land (Z.shiftl x 8) 0xFF00.
Definition TFM_CRYPTO_GET_GROUP_ID (function_id : Z) : Z := Z.land (Z.shiftr (u16 function_id) 8) 0xFF.

Definition TFM_CRYPTO_GENERATE_RANDOM_SID : Z := BASE__VALUE TFM_CRYPTO_GROUP_ID_RANDOM.

Definition TFM_CRYPTO_GET_KEY_ATTRIBUTES_SID : Z := BASE__VALUE TFM_CRYPTO_GROUP_ID_KEY_MANAGEMENT.
Definition TFM_CRYPTO_ABANDONED_OPEN_KEY_SID : Z := BASE__VALUE TFM_CRYPTO_GROUP_ID_KEY_MANAGEMENT + 1.
Definition TFM_CRYPTO_ABANDONED_CLOSE_KEY_SID : Z := BASE__VALUE TFM_CRYPTO_GROUP_ID_KEY_MANAGEMENT + 2.
Definition TFM_CRYPTO_IMPORT_KEY_SID : Z := BASE__VALUE TFM_CRYPTO_GROUP_ID_KEY_MANAGEMENT + 3.
Definition TFM_CRYPTO_DESTROY_KEY_SID : Z := BASE__VALUE TFM_CRYPTO_GROUP_ID_KEY_MANAGEMENT + 4.
Definition TFM_CRYPTO_EXPORT_KEY_SID : Z := BASE__VALUE TFM_CRYPTO_GROUP_ID_KEY_MANAGEMENT + 5.
Definition TFM_CRYPTO_EXPORT_PUBLIC_KEY_SID : Z := BASE__VALUE TFM_CRYPTO_GROUP_ID_KEY_MANAGEMENT + 6.
Definition TFM_CRYPTO_PURGE_KEY_SID : Z := BASE__VALUE TFM_CRYPTO_GROUP_ID_KEY_MANAGEMENT + 7.
Definition TFM_CRYPTO_COPY_KEY_SID : Z := BASE__VALUE TFM_CRYPTO_GROUP_ID_KEY_MANAGEMENT + 8.
Definition TFM_CRYPTO_GENERATE_KEY_SID : Z := BASE__VALUE TFM_CRYPTO_GROUP_ID_KEY_MANAGEMENT + 9.

Definition TFM_CRYPTO_HASH_COMPUTE_SID : Z := BASE__VALUE TFM_CRYPTO_GROUP_ID_HASH.
Definition TFM_CRYPTO_HASH_COMPARE_SID : Z := BASE__VALUE TFM_CRYPTO_GROUP_ID_HASH + 1.
Definition TFM_CRYPTO_HASH_SETUP_SID : Z := BASE__VALUE TFM_CRYPTO_GROUP_ID_HASH + 2.
Definition TFM_CRYPTO_HASH_UPDATE_SID : Z := BASE__VALUE TFM_CRYPTO_GROUP_ID_HASH + 3.
Definition TFM_CRYPTO_HASH_CLONE_SID : Z := BASE__VALUE TFM_CRYPTO_GROUP_ID_HASH + 4.
Definition TFM_CRYPTO_HASH_FINISH_SID : Z := BASE__VALUE TFM_CRYPTO_GROUP_ID_HASH + 5.
Definition TFM_CRYPTO_HASH_VERIFY_SID : Z := BASE__VALUE TFM_CRYPTO_GROUP_ID_HASH + 6.
Definition TFM_CRYPTO_HASH_ABORT_SID : Z := BASE__VALUE TFM_CRYPTO_GROUP_ID_HASH + 7.
Definition TFM_CRYPTO_CAN_DO_HASH_SID : Z := BASE__VALUE TFM_CRYPTO_GROUP_ID_HASH + 8.

Definition TFM_CRYPTO_MAC_COMPUTE_SID : Z := BASE__VALUE TFM_CRYPTO_GROUP_ID_MAC.
Definition TFM_CRYPTO_MAC_VERIFY_SID : Z := BASE__VALUE TFM_CRYPTO_GROUP_ID_MAC + 1.
Definition TFM_CRYPTO_MAC_SIGN_SETUP_SID : Z := BASE__VALUE TFM_CRYPTO_GROUP_ID_MAC + 2.
Definition TFM_CRYPTO_MAC_VERIFY_SETUP_SID : Z := BASE__VALUE TFM_CRYPTO_GROUP_ID_MAC + 3.
Definition TFM_CRYPTO_MAC_UPDATE_SID : Z := BASE__VALUE TFM_CRYPTO_GROUP_ID_MAC + 4.
Definition TFM_CRYPTO_MAC_SIGN_FINISH_SID : Z := BASE__VALUE TFM_CRYPTO_GROUP_ID_MAC + 5.
Definition TFM_CRYPTO_MAC_VERIFY_FINISH_SID : Z := BASE__VALUE TFM_CRYPTO_GROUP_ID_MAC + 6.
Definition TFM_CRYPTO_MAC_ABORT_SID : Z := BASE__VALUE TFM_CRYPTO_GROUP_ID_MAC + 7.

Definition TFM_CRYPTO_CIPHER_ENCRYPT_SID : Z := BASE__VALUE TFM_CRYPTO_GROUP_ID_CIPHER.
Definition TFM_CRYPTO_CIPHER_DECRYPT_SID : Z := BASE__VALUE TFM_CRYPTO_GROUP_ID_CIPHER + 1.
Definition TFM_CRYPTO_CIPHER_ENCRYPT_SETUP_SID : Z := BASE__VALUE TFM_CRYPTO_GROUP_ID_CIPHER + 2.
Definition TFM_CRYPTO_CIPHER_DECRYPT_SETUP_SID : Z := BASE__VALUE TFM_CRYPTO_GROUP_ID_CIPHER + 3.
Definition TFM_CRYPTO_CIPHER_GENERATE_IV_SID : Z := BASE__VALUE TFM_CRYPTO_GROUP_ID_CIPHER + 4.
Definition TFM_CRYPTO_CIPHER_SET_IV_SID : Z := BASE__VALUE TFM_CRYPTO_GROUP_ID_CIPHER + 5.
Definition TFM_CRYPTO_CIPHER_UPDATE_SID : Z := BASE__VALUE TFM_CRYPTO_GROUP_ID_CIPHER + 6.
Definition TFM_CRYPTO_CIPHER_FINISH_SID : Z := BASE__VALUE TFM_CRYPTO_GROUP_ID_CIPHER + 7.
Definition TFM_CRYPTO_CIPHER_ABORT_SID : Z := BASE__VALUE TFM_CRYPTO_GROUP_ID_CIPHER + 8.
Definition TFM_CRYPTO_CAN_DO_CIPHER_SID : Z := BASE__VALUE TFM_CRYPTO_GROUP_ID_CIPHER + 9.

Definition TFM_CRYPTO_AEAD_ENCRYPT_SID : Z := BASE__VALUE TFM_CRYPTO_GROUP_ID_AEAD.
Definition TFM_CRYPTO_AEAD_DECRYPT_SID : Z := BASE__VALUE TFM_CRYPTO_GROUP_ID_AEAD + 1.
Definition TFM_CRYPTO_AEAD_ENCRYPT_SETUP_SID : Z := BASE__VALUE TFM_CRYPTO_GROUP_ID_AEAD + 2.
Definition TFM_CRYPTO_AEAD_DECRYPT_SETUP_SID : Z := BASE__VALUE TFM_CRYPTO_GROUP_ID_AEAD + 3.
Definition TFM_CRYPTO_AEAD_GENERATE_NONCE_SID : Z := BASE__VALUE TFM_CRYPTO_GROUP_ID_AEAD + 4.
Definition TFM_CRYPTO_AEAD_SET_NONCE_SID : Z := BASE__VALUE TFM_CRYPTO_GROUP_ID_AEAD + 5.
Definition TFM_CRYPTO_AEAD_SET_LENGTHS_SID : Z := BASE__VALUE TFM_CRYPTO_GROUP_ID_AEAD + 6.
Definition TFM_CRYPTO_AEAD_UPDATE_AD_SID : Z := BASE__VALUE TFM_CRYPTO_GROUP_ID_AEAD + 7.
Definition TFM_CRYPTO_AEAD_UPDATE_SID : Z := BASE__VALUE TFM_CRYPTO_GROUP_ID_AEAD + 8.
Definition TFM_CRYPTO_AEAD_FINISH_SID : Z := BASE__VALUE TFM_CRYPTO_GROUP_ID_AEAD + 9.
Definition TFM_CRYPTO_AEAD_VERIFY_SID : Z := BASE__VALUE TFM_CRYPTO_GROUP_ID_AEAD + 10.
Definition TFM_CRYPTO_AEAD_ABORT_SID : Z := BASE__VALUE TFM_CRYPTO_GROUP_ID_AEAD + 11.

Definition TFM_CRYPTO_ASYMMETRIC_SIGN_MESSAGE_SID : Z := BASE__VALUE TFM_CRYPTO_GROUP_ID_ASYM_SIGN.
Definition TFM_CRYPTO_ASYMMETRIC_VERIFY_MESSAGE_SID : Z := BASE__VALUE TFM_CRYPTO_GROUP_ID_ASYM_SIGN + 1.
Definition TFM_CRYPTO_ASYMMETRIC_SIGN_HASH_SID : Z := BASE__VALUE TFM_CRYPTO_GROUP_ID_ASYM_SIGN + 2.
Definition TFM_CRYPTO_ASYMMETRIC_VERIFY_HASH_SID : Z := BASE__VALUE TFM_CRYPTO_GROUP_ID_ASYM_SIGN + 3.

Definition TFM_CRYPTO_ASYMMETRIC_ENCRYPT_SID : Z := BASE__VALUE TFM_CRYPTO_GROUP_ID_ASYM_ENCRYPT.
Definition TFM_CRYPTO_ASYMMETRIC_DECRYPT_SID : Z := BASE__VALUE TFM_CRYPTO_GROUP_ID_ASYM_ENCRYPT + 1.

Definition TFM_CRYPTO_RAW_KEY_AGREEMENT_SID : Z := BASE__VALUE TFM_CRYPTO_GROUP_ID_KEY_DERIVATION.
Definition TFM_CRYPTO_KEY_DERIVATION_SETUP_SID : Z := BASE__VALUE TFM_CRYPTO_GROUP_ID_KEY_DERIVATION + 1.
Definition TFM_CRYPTO_KEY_DERIVATION_GET_CAPACITY_SID : Z := BASE__VALUE TFM_CRYPTO_GROUP_ID_KEY_DERIVATION + 2.
Definition TFM_CRYPTO_KEY_DERIVATION_SET_CAPACITY_SID : Z := BASE__VALUE TFM_CRYPTO_GROUP_ID_KEY_DERIVATION + 3.
Definition TFM_CRYPTO_KEY_DERIVATION_INPUT_BYTES_SID : Z := BASE__VALUE TFM_CRYPTO_GROUP_ID_KEY_DERIVATION + 4.
Definition TFM_CRYPTO_KEY_DERIVATION_INPUT_KEY_SID : Z := BASE__VALUE TFM_CRYPTO_GROUP_ID_KEY_DERIVATION + 5.
Definition TFM_CRYPTO_KEY_DERIVATION_INPUT_INTEGER_SID : Z := BASE__VALUE TFM_CRYPTO_GROUP_ID_KEY_DERIVATION + 6.
Definition TFM_CRYPTO_KEY_DERIVATION_KEY_AGREEMENT_SID : Z := BASE__VALUE TFM_CRYPTO_GROUP_ID_KEY_DERIVATION + 7.
Definition TFM_CRYPTO_KEY_DERIVATION_OUTPUT_BYTES_SID : Z := BASE__VALUE TFM_CRYPTO_GROUP_ID_KEY_DERIVATION + 8.
Definition TFM_CRYPTO_KEY_DERIVATION_OUTPUT_KEY_SID : Z := BASE__VALUE TFM_CRYPTO_GROUP_ID_KEY_DERIVATION + 9.
Definition TFM_CRYPTO_KEY_DERIVATION_ABORT_SID : Z := BASE__VALUE TFM_CRYPTO_GROUP_ID_KEY_DERIVATION + 10.

(** [enum tfm_crypto_operation_type] *)
Inductive tfm_crypto_operation_type :=
  | TFM_CRYPTO_OPERATION_NONE | TFM_CRYPTO_CIPHER_OPERATION | TFM_CRYPTO_MAC_OPERATION
  | TFM_CRYPTO_HASH_OPERATION | TFM_CRYPTO_KEY_DERIVATION_OPERATION | TFM_CRYPTO_AEAD_OPERATION.
#[export] Instance operation_type_eq : EqDecision tfm_crypto_operation_type.
Proof. solve_decision. Defined.

Definition TFM_CRYPTO_INVALID_HANDLE : Z := 0.
Definition TFM_CRYPTO_MAX_NONCE_LENGTH : Z := 16.

(** The request; [capacity] and [value] share their bytes. *)
Record tfm_crypto_pack_iovec := {
  key_id : Z;
  alg : Z;
  op_handle : Z;
  ad_length : Z;
  plaintext_length : Z;
  aead_nonce : bytes;
  aead_nonce_length : Z;
  function_id : Z;
  step : Z;
  kd_capacity : Z;
  kd_value : Z;
}.

Definition sizeof_iovec : Z := 56.
Definition iov_of (l : bytes) : tfm_crypto_pack_iovec :=
  {| key_id := of_le32 l; alg := of_le32 (drop 4 l); op_handle := of_le32 (drop 8 l);
     ad_length := of_le32 (drop 12 l); plaintext_length := of_le32 (drop 16 l);
     aead_nonce := slice l 20 16; aead_nonce_length := of_le32 (drop 36 l);
     function_id := of_le16 (drop 40 l); step := of_le16 (drop 42 l);
     kd_capacity := of_le32 (drop 48 l); kd_value := of_le64 (drop 48 l) |}.

(** [struct tfm_crypto_key_id_s] *)
Record tfm_crypto_key_id_s := { kid : Z; kowner : Z }.

(** A vector whose buffer lies in the scratch memory; [None] is NULL. *)
Record vec := { v_base : option Z; v_len : Z }.
Definition no_vec : vec := {| v_base := None; v_len := 0 |}.

(** The message as [psa_get] delivered it. *)
Record crypto_msg := {
  cm_type : Z;
  cm_handle : Z;
  cm_client_id : Z;
  cm_in_size : list Z;
  cm_out_size : list Z;
}.

(** ** The calls of the PSA Crypto library

    One constructor for each function the service calls.  An operation is passed by
    reference: the call has its value and the result its new value; an output buffer
    is passed as its size and the result has the bytes written; [attr] are the bytes
    of a [psa_key_attributes_t] as the client sees them, with the owner apart. *)
Inductive psa_call (O : Type) :=
  | psa_hash_compute (alg : Z) (input : bytes) (hash_size : Z)
  | psa_hash_compare (alg : Z) (input hash : bytes)
  | psa_hash_setup (op : O) (alg : Z)
  | psa_hash_update (op : O) (input : bytes)
  | psa_hash_finish (op : O) (hash_size : Z)
  | psa_hash_verify (op : O) (hash : bytes)
  | psa_hash_abort (op : O)
  | psa_hash_clone (op target : O)
  | psa_mac_compute (key : tfm_crypto_key_id_s) (alg : Z) (input : bytes) (mac_size : Z)
  | psa_mac_verify (key : tfm_crypto_key_id_s) (alg : Z) (input mac : bytes)
  | psa_mac_sign_setup (op : O) (key : tfm_crypto_key_id_s) (alg : Z)
  | psa_mac_verify_setup (op : O) (key : tfm_crypto_key_id_s) (alg : Z)
  | psa_mac_update (op : O) (input : bytes)
  | psa_mac_sign_finish (op : O) (mac_size : Z)
  | psa_mac_verify_finish (op : O) (mac : bytes)
  | psa_mac_abort (op : O)
  | psa_cipher_encrypt (key : tfm_crypto_key_id_s) (alg : Z) (input : bytes) (output_size : Z)
  | psa_cipher_decrypt (key : tfm_crypto_key_id_s) (alg : Z) (input : bytes) (output_size : Z)
  | psa_cipher_encrypt_setup (op : O) (key : tfm_crypto_key_id_s) (alg : Z)
  | psa_cipher_decrypt_setup (op : O) (key : tfm_crypto_key_id_s) (alg : Z)
  | psa_cipher_generate_iv (op : O) (iv_size : Z)
  | psa_cipher_set_iv (op : O) (iv : bytes)
  | psa_cipher_update (op : O) (input : bytes) (output_size : Z)
  | psa_cipher_finish (op : O) (output_size : Z)
  | psa_cipher_abort (op : O)
  | psa_aead_encrypt (key : tfm_crypto_key_id_s) (alg : Z) (nonce additional plaintext : bytes)
      (ciphertext_size : Z)
  | psa_aead_decrypt (key : tfm_crypto_key_id_s) (alg : Z) (nonce additional ciphertext : bytes)
      (plaintext_size : Z)
  | psa_aead_encrypt_setup (op : O) (key : tfm_crypto_key_id_s) (alg : Z)
  | psa_aead_decrypt_setup (op : O) (key : tfm_crypto_key_id_s) (alg : Z)
  | psa_aead_generate_nonce (op : O) (nonce_size : Z)
  | psa_aead_set_nonce (op : O) (nonce : bytes)
  | psa_aead_set_lengths (op : O) (ad_length plaintext_length : Z)
  | psa_aead_update (op : O) (input : bytes) (output_size : Z)
  | psa_aead_update_ad (op : O) (input : bytes)
  | psa_aead_finish (op : O) (ciphertext_size tag_size : Z)
  | psa_aead_verify (op : O) (plaintext_size : Z) (tag : bytes)
  | psa_aead_abort (op : O)
  | psa_raw_key_agreement (alg : Z) (key : tfm_crypto_key_id_s) (peer : bytes) (output_size : Z)
  | psa_key_derivation_setup (op : O) (alg : Z)
  | psa_key_derivation_get_capacity (op : O)
  | psa_key_derivation_set_capacity (op : O) (capacity : Z)
  | psa_key_derivation_input_bytes (op : O) (step : Z) (data : bytes)
  | psa_key_derivation_input_integer (op : O) (step value : Z)
  | psa_key_derivation_input_key (op : O) (step : Z) (key : tfm_crypto_key_id_s)
  | psa_key_derivation_output_bytes (op : O) (output_length : Z)
  | psa_key_derivation_output_key (attr : bytes) (owner : Z) (op : O)
  | psa_key_derivation_key_agreement (op : O) (step : Z) (key : tfm_crypto_key_id_s) (peer : bytes)
  | psa_key_derivation_abort (op : O)
  | psa_sign_message (key : tfm_crypto_key_id_s) (alg : Z) (input : bytes) (signature_size : Z)
  | psa_verify_message (key : tfm_crypto_key_id_s) (alg : Z) (input signature : bytes)
  | psa_sign_hash (key : tfm_crypto_key_id_s) (alg : Z) (hash : bytes) (signature_size : Z)
  | psa_verify_hash (key : tfm_crypto_key_id_s) (alg : Z) (hash signature : bytes)
  | psa_asymmetric_encrypt (key : tfm_crypto_key_id_s) (alg : Z) (input salt : bytes) (output_size : Z)
  | psa_asymmetric_decrypt (key : tfm_crypto_key_id_s) (alg : Z) (input salt : bytes) (output_size : Z)
  | psa_import_key (attr : bytes) (owner : Z) (data : bytes)
  | psa_destroy_key (key : tfm_crypto_key_id_s)
  | psa_get_key_attributes (key : tfm_crypto_key_id_s)
  | psa_export_key (key : tfm_crypto_key_id_s) (data_size : Z)
  | psa_export_public_key (key : tfm_crypto_key_id_s) (data_size : Z)
  | psa_purge_key (key : tfm_crypto_key_id_s)
  | psa_copy_key (key : tfm_crypto_key_id_s) (attr : bytes) (owner : Z)
  | psa_generate_key (attr : bytes) (owner : Z)
  | psa_generate_random (output_size : Z).

(** [pr_op]: the operation afterwards ([pr_target]: the target of a clone);
    [pr_out], [pr_out2]: the bytes written to the output buffers; [pr_key]: the
    identifier of a key that was made. *)
Record psa_result (O : Type) := {
  pr_status : Z;
  pr_op : O;
  pr_target : O;
  pr_out : bytes;
  pr_out2 : bytes;
  pr_key : Z;
}.
Arguments pr_status {O}.
Arguments pr_op {O}.
Arguments pr_target {O}.
Arguments pr_out {O}.
Arguments pr_out2 {O}.
Arguments pr_key {O}.

(** What the service calls.  [op_zero]: an operation cleared to zero.  [spm_read] and
    [spm_write] have no status to return: they do their work or do not return. *)
Class CryptoEnv (O X : Type) := {
  op_zero : O;
  psa_lib : psa_call O -> M X (psa_result O);
  spm_read : Z -> Z -> Z -> X -> (halt + bytes) * X;        (* handle, vector, size *)
  spm_write : Z -> Z -> bytes -> X -> (halt + unit) * X;    (* handle, vector, data *)
  tfm_plat_crypto_provision_entropy_seed : M X bool;
  mbedtls_setup : M X unit;                   (* the allocator and the printf of the library *)
  psa_crypto_init : M X unit;
}.

(** The build. *)
Class CryptoBuild := {
  CRYPTO_CONC_OPER_NUM : nat;
  CRYPTO_IOVEC_BUFFER_SIZE : Z;
  CRYPTO_SINGLE_PART_FUNCS_DISABLED : bool;
  CRYPTO_NV_SEED : bool;
  module_enabled : Z -> bool;                 (* by group *)
  wanted_hash : list Z;                       (* PSA_WANT_ALG_* *)
  wanted_key_type : list Z;                   (* PSA_WANT_KEY_TYPE_* *)
  wanted_cipher : list Z;
  key_attr_size : Z;                          (* sizeof(psa_key_attributes_t) *)
  TFM_CRYPTO_KEY_ATTR_OFFSET_CLIENT_SERVER : Z;
}.

(** ** The state *)

Record tfm_crypto_operation_s (O : Type) := {
  in_use : bool;
  owner : Z;
  type : tfm_crypto_operation_type;
  operation : O;
}.
Arguments in_use {O}.
Arguments owner {O}.
Arguments type {O}.
Arguments operation {O}.

(** [in_vec] and [out_vec] are the vectors of the request in progress. *)
Record crypto_state (O X : Type) := {
  operations : list (tfm_crypto_operation_s O);
  scratch_buf : bytes;
  scratch_alloc_index : Z;
  scratch_owner : Z;
  in_vec : list vec;
  out_vec : list vec;
  crypto_env : X;
}.
Arguments operations {O X}.
Arguments scratch_buf {O X}.
Arguments scratch_alloc_index {O X}.
Arguments scratch_owner {O X}.
Arguments in_vec {O X}.
Arguments out_vec {O X}.
Arguments crypto_env {O X}.

Section Setters.
Context {O X : Type}.
Definition set_operations (v : list (tfm_crypto_operation_s O)) (s : crypto_state O X) : crypto_state O X :=
  {| operations := v; scratch_buf := s.(scratch_buf); scratch_alloc_index := s.(scratch_alloc_index);
     scratch_owner := s.(scratch_owner); in_vec := s.(in_vec); out_vec := s.(out_vec);
     crypto_env := s.(crypto_env) |}.
Definition set_scratch_buf (v : bytes) (s : crypto_state O X) : crypto_state O X :=
  {| operations := s.(operations); scratch_buf := v; scratch_alloc_index := s.(scratch_alloc_index);
     scratch_owner := s.(scratch_owner); in_vec := s.(in_vec); out_vec := s.(out_vec);
     crypto_env := s.(crypto_env) |}.
Definition set_scratch_alloc_index (v : Z) (s : crypto_state O X) : crypto_state O X :=
  {| operations := s.(operations); scratch_buf := s.(scratch_buf); scratch_alloc_index := v;
     scratch_owner := s.(scratch_owner); in_vec := s.(in_vec); out_vec := s.(out_vec);
     crypto_env := s.(crypto_env) |}.
Definition set_scratch_owner (v : Z) (s : crypto_state O X) : crypto_state O X :=
  {| operations := s.(operations); scratch_buf := s.(scratch_buf); scratch_alloc_index := s.(scratch_alloc_index);
     scratch_owner := v; in_vec := s.(in_vec); out_vec := s.(out_vec);
     crypto_env := s.(crypto_env) |}.
Definition set_in_vec (v : list vec) (s : crypto_state O X) : crypto_state O X :=
  {| operations := s.(operations); scratch_buf := s.(scratch_buf); scratch_alloc_index := s.(scratch_alloc_index);
     scratch_owner := s.(scratch_owner); in_vec := v; out_vec := s.(out_vec);
     crypto_env := s.(crypto_env) |}.
Definition set_out_vec (v : list vec) (s : crypto_state O X) : crypto_state O X :=
  {| operations := s.(operations); scratch_buf := s.(scratch_buf); scratch_alloc_index := s.(scratch_alloc_index);
     scratch_owner := s.(scratch_owner); in_vec := s.(in_vec); out_vec := v;
     crypto_env := s.(crypto_env) |}.
Definition set_crypto_env (v : X) (s : crypto_state O X) : crypto_state O X :=
  {| operations := s.(operations); scratch_buf := s.(scratch_buf); scratch_alloc_index := s.(scratch_alloc_index);
     scratch_owner := s.(scratch_owner); in_vec := s.(in_vec); out_vec := s.(out_vec);
     crypto_env := v |}.
End Setters.

Abbreviation CR O X := (M (crypto_state O X)).

Definition no_status {X A} (m : X -> (halt + A) * X) : M X A := fun x =>
  match m x with
  | (inl h, x') => (Halt h, x')
  | (inr a, x') => (Val a, x')
  end.

(** Call the environment. *)
Definition crypto_call {O X A} (m : M X A) : CR O X A := fun s =>
  let '(r, x) := m s.(crypto_env) in (r, set_crypto_env x s).
