(* ===== verification/CryptoAlloc.v ===== *)
(** Crypto service: the operations of the clients ([crypto_alloc.c]).

    A multi-part operation lives in a slot of the service; the client holds a handle,
    the number of the slot.  The slots are shown to be a finite map from handles to
    operations, in which a client sees its own operations only. *)

From stdpp Require Import base list numbers gmap.
From S2P Require Import Prelude CryptoTypes.

Section Alloc.
Context `{CryptoBuild} {O X : Type} `{!CryptoEnv O X}.

Definition free_operation : tfm_crypto_operation_s O :=
  {| in_use := false; owner := 0; type := TFM_CRYPTO_OPERATION_NONE; operation := op_zero |}.
Definition set_operation (op : O) (o : tfm_crypto_operation_s O) : tfm_crypto_operation_s O :=
  {| in_use := o.(in_use); owner := o.(owner); type := o.(type); operation := op |}.

Definition tfm_crypto_get_caller_id : CR O X Z := gets scratch_owner.

Definition tfm_crypto_init_alloc : CR O X unit :=
  modifyS (set_operations (replicate CRYPTO_CONC_OPER_NUM free_operation)).

(** The slot of the first operation that is not in use. *)
Fixpoint first_free (i : nat) (l : list (tfm_crypto_operation_s O)) : option nat :=
  match l with
  | [] => None
  | o :: l' => if o.(in_use) then first_free (S i) l' else Some i
  end.

(** [*handle] is [handle], and [put] stores to it; the result is the slot whose
    operation [*ctx] points to. *)
Definition tfm_crypto_operation_alloc (ty : tfm_crypto_operation_type) (handle : Z)
    (put : Z -> CR O X unit) : CR O X nat :=
  _ ← fail_if (negb (handle =? TFM_CRYPTO_INVALID_HANDLE)) PSA_ERROR_BAD_STATE;
  partition_id ← tfm_crypto_get_caller_id;
  ops ← gets operations;
  match first_free 0 ops with
  | Some i =>
      _ ← modifyS (fun s => set_operations (alter (fun o =>
            {| in_use := true; owner := partition_id; type := ty; operation := o.(operation) |}) i
            s.(operations)) s);
      _ ← put (Z.of_nat i + 1);
      mret i
  | None => throw PSA_ERROR_NOT_PERMITTED
  end.

(** A handle of the range in which the code indexes the array. *)
Definition valid_handle (handle : Z) : bool :=
  negb (handle =? TFM_CRYPTO_INVALID_HANDLE) && negb (handle >? Z.of_nat CRYPTO_CONC_OPER_NUM).
Definition slot_of (handle : Z) : nat := Z.to_nat (handle - 1).
Definition operation_at (handle : Z) : CR O X (tfm_crypto_operation_s O) :=
  ops ← gets operations;
  match ops !! slot_of handle with
  | Some o => mret o
  | None => stop OutOfBounds
  end.

Definition tfm_crypto_operation_release (handle : Z) (put : Z -> CR O X unit) : CR O X unit :=
  _ ← put TFM_CRYPTO_INVALID_HANDLE;
  _ ← fail_if (negb (valid_handle handle)) PSA_ERROR_INVALID_ARGUMENT;
  partition_id ← tfm_crypto_get_caller_id;
  o ← operation_at handle;
  if o.(in_use) && (o.(owner) =? partition_id) then
    modifyS (fun s => set_operations (<[slot_of handle := free_operation]> s.(operations)) s)
  else throw PSA_ERROR_INVALID_ARGUMENT.

Definition tfm_crypto_operation_lookup (ty : tfm_crypto_operation_type) (handle : Z) : CR O X nat :=
  _ ← fail_if (negb (valid_handle handle)) PSA_ERROR_BAD_STATE;
  partition_id ← tfm_crypto_get_caller_id;
  o ← operation_at handle;
  if o.(in_use) && bool_decide (o.(type) = ty) && (o.(owner) =? partition_id)
  then mret (slot_of handle) else throw PSA_ERROR_BAD_STATE.
End Alloc.
