(* ===== verification/CryptoOps.v ===== *)
(** Crypto service: the functions a client can request.

    One definition for each interface: [crypto_hash.c], [crypto_mac.c],
    [crypto_cipher.c], [crypto_aead.c], [crypto_key_derivation.c],
    [crypto_asymmetric.c], [crypto_key_management.c] and [crypto_rng.c], in the build
    where vectors are copied through the scratch memory.  The library is called
    through [psa_lib]; its status is the result of the function. *)

From stdpp Require Import base list numbers.
From S2P Require Import Prelude CryptoTypes CryptoAlloc.

Section Ops.
Context `{CryptoBuild} {O X : Type} `{!CryptoEnv O X}.
Notation CR := (CR O X).

(** ** Vectors *)

Definition out_at (i : nat) : CR vec := gets (fun s => nth i s.(out_vec) no_vec).
Definition in_at (i : nat) : CR vec := gets (fun s => nth i s.(in_vec) no_vec).
(** The bytes of an input vector. *)
Definition input (i : nat) : CR bytes :=
  v ← in_at i;
  s ← getS;
  mret (match v.(v_base) with
        | Some b => slice s.(scratch_buf) (Z.to_nat b) (Z.to_nat v.(v_len))
        | None => []
        end).
Definition out_size (i : nat) : CR Z := v ← out_at i; mret v.(v_len).
Definition set_out_len (i : nat) (n : Z) : CR unit :=
  modifyS (fun s => set_out_vec
    (alter (fun v => {| v_base := v.(v_base); v_len := n |}) i s.(out_vec)) s).
(** Write [l] to the buffer of output vector [i], which has room for its length. *)
Definition put_out (i : nat) (l : bytes) : CR unit :=
  v ← out_at i;
  if decide (l = []) then mret tt
  else match v.(v_base) with
       | Some b =>
           if Z.of_nat (length l) <=? v.(v_len)
           then modifyS (fun s => set_scratch_buf (splice s.(scratch_buf) (Z.to_nat b) l) s)
           else stop OutOfBounds
       | None => stop OutOfBounds
       end.
(** [(out_vec[i].base == NULL) || (out_vec[i].len < n)] *)
Definition need_out (i : nat) (n : Z) : CR unit :=
  v ← out_at i;
  fail_if (bool_decide (v.(v_base) = None) || (v.(v_len) <? n)) PSA_ERROR_PROGRAMMER_ERROR.
Definition put_handle (h : Z) : CR unit := put_out 0 (le32 h).

Definition return_status (status : Z) : CR unit := fail_if (negb (status =? PSA_SUCCESS)) status.

(** ** Calls of the library *)

(** A call without operation and output. *)
Definition call_plain (c : psa_call O) : CR unit :=
  r ← crypto_call (psa_lib c);
  return_status r.(pr_status).
(** A call whose output goes to vector [i]: its length is that of what was written,
    or 0 when the call failed and the code says so ([clear]). *)
Definition call_out (clear : bool) (i : nat) (c : Z -> psa_call O) : CR unit :=
  n ← out_size i;
  r ← crypto_call (psa_lib (c n));
  _ ← put_out i r.(pr_out);
  _ ← set_out_len i (if clear && negb (r.(pr_status) =? PSA_SUCCESS) then 0
                     else Z.of_nat (length r.(pr_out)));
  return_status r.(pr_status).
Definition single_part (m : CR unit) : CR unit :=
  if CRYPTO_SINGLE_PART_FUNCS_DISABLED then throw PSA_ERROR_NOT_SUPPORTED else m.

(** A call on the operation in [slot]. *)
Definition call_op (slot : nat) (c : O -> psa_call O) : CR (psa_result O) :=
  ops ← gets operations;
  match ops !! slot with
  | Some o =>
      r ← crypto_call (psa_lib (c o.(operation)));
      _ ← modifyS (fun s => set_operations (alter (set_operation r.(pr_op)) slot s.(operations)) s);
      mret r
  | None => stop OutOfBounds
  end.
Definition op_status (slot : nat) (c : O -> psa_call O) : CR unit :=
  r ← call_op slot c;
  return_status r.(pr_status).
Definition op_out (slot : nat) (clear : bool) (i : nat) (c : O -> Z -> psa_call O) : CR unit :=
  n ← out_size i;
  r ← call_op slot (fun o => c o n);
  _ ← put_out i r.(pr_out);
  _ ← set_out_len i (if clear && negb (r.(pr_status) =? PSA_SUCCESS) then 0
                     else Z.of_nat (length r.(pr_out)));
  return_status r.(pr_status).

(** [(void)tfm_crypto_operation_release(p_handle); return status;]: [m] runs on the
    operation, and the operation is released when [m] ends as [release] says. *)
Definition then_release (release : bool -> bool) (h : Z) (put : Z -> CR unit) (m : CR unit) : CR unit :=
  r ← attempt m;
  let ok := match r with inl _ => false | inr _ => true end in
  _ ← (if release ok then status_of (tfm_crypto_operation_release h put) else mret PSA_SUCCESS);
  match r with inl err => throw err | inr a => mret a end.
Definition always (ok : bool) : bool := true.
Definition on_success (ok : bool) : bool := ok.
Definition on_failure (ok : bool) : bool := negb ok.

(** The operation a request works on: a new one for [setup], which leaves its handle
    in [out_vec[0]]; otherwise the one of the client's handle, which goes to
    [out_vec[0]] when the request may release it ([ends]).  [None]: an abort without
    an operation, which succeeds. *)
Definition open_operation (ty : tfm_crypto_operation_type) (setup ends abort : bool)
    (iov : tfm_crypto_pack_iovec) : CR (option nat) :=
  r ← (if setup then
         _ ← need_out 0 4;
         _ ← put_handle iov.(op_handle);
         attempt (tfm_crypto_operation_alloc ty iov.(op_handle) put_handle)
       else
         r ← attempt (tfm_crypto_operation_lookup ty iov.(op_handle));
         if ends then
           _ ← need_out 0 4;
           _ ← put_handle iov.(op_handle);
           mret r
         else mret r);
  match r with
  | inr slot => mret (Some slot)
  | inl err => if abort then mret None else throw err
  end.

(** What [*p_handle] holds when the operation is released: the handle a set-up
    allocated, or the client's. *)
Definition handle_of (setup : bool) (slot : nat) (iov : tfm_crypto_pack_iovec) : Z :=
  if setup then Z.of_nat slot + 1 else iov.(op_handle).

(** ** crypto_hash.c *)

Definition tfm_crypto_can_do_hash (a : Z) : Z := if existsb (Z.eqb a) wanted_hash then 1 else 0.

(** Clone the operation of [slot] to a new one, whose handle goes to [out_vec[0]]. *)
Definition tfm_crypto_hash_clone (slot : nat) : CR unit :=
  _ ← need_out 0 4;
  v ← in_at 1;
  _ ← fail_if (bool_decide (v.(v_base) = None) || (v.(v_len) <? 4)) PSA_ERROR_PROGRAMMER_ERROR;
  d ← input 1;
  _ ← put_handle (of_le32 d);
  target ← tfm_crypto_operation_alloc TFM_CRYPTO_HASH_OPERATION (of_le32 d) put_handle;
  ops ← gets operations;
  match ops !! slot, ops !! target with
  | Some o, Some t =>
      r ← crypto_call (psa_lib (psa_hash_clone _ o.(operation) t.(operation)));
      _ ← modifyS (fun s => set_operations (alter (set_operation r.(pr_target)) target
            (alter (set_operation r.(pr_op)) slot s.(operations))) s);
      then_release on_failure (Z.of_nat target + 1) put_handle (return_status r.(pr_status))
  | _, _ => stop OutOfBounds
  end.

Definition tfm_crypto_hash_operation (iov : tfm_crypto_pack_iovec) : CR unit :=
  let sid := iov.(function_id) in
  let setup := sid =? TFM_CRYPTO_HASH_SETUP_SID in
  let abort := sid =? TFM_CRYPTO_HASH_ABORT_SID in
  let ends := (sid =? TFM_CRYPTO_HASH_FINISH_SID) || (sid =? TFM_CRYPTO_HASH_VERIFY_SID) || abort in
  o ← open_operation TFM_CRYPTO_HASH_OPERATION setup ends abort iov;
  match o with
  | None => mret tt
  | Some slot =>
      let h := handle_of setup slot iov in
      if setup then
        then_release on_failure h put_handle (op_status slot (fun o => psa_hash_setup _ o iov.(alg)))
      else if sid =? TFM_CRYPTO_HASH_UPDATE_SID then
        d ← input 1; op_status slot (fun o => psa_hash_update _ o d)
      else if sid =? TFM_CRYPTO_HASH_FINISH_SID then
        then_release on_success h put_handle (op_out slot true 1 (fun o n => psa_hash_finish _ o n))
      else if sid =? TFM_CRYPTO_HASH_VERIFY_SID then
        d ← input 1;
        then_release on_success h put_handle (op_status slot (fun o => psa_hash_verify _ o d))
      else if abort then
        then_release always h put_handle (op_status slot (fun o => psa_hash_abort _ o))
      else if sid =? TFM_CRYPTO_HASH_CLONE_SID then
        tfm_crypto_hash_clone slot
      else throw PSA_ERROR_NOT_SUPPORTED
  end.

Definition tfm_crypto_hash_interface (iov : tfm_crypto_pack_iovec) : CR unit :=
  let sid := iov.(function_id) in
  if negb (module_enabled TFM_CRYPTO_GROUP_ID_HASH) then throw PSA_ERROR_NOT_SUPPORTED
  else if sid =? TFM_CRYPTO_CAN_DO_HASH_SID then
    _ ← need_out 0 4;
    put_out 0 (le32 (tfm_crypto_can_do_hash iov.(alg)))
  else if sid =? TFM_CRYPTO_HASH_COMPUTE_SID then
    single_part (d ← input 1; call_out true 0 (fun n => psa_hash_compute _ iov.(alg) d n))
  else if sid =? TFM_CRYPTO_HASH_COMPARE_SID then
    single_part (d ← input 1; h ← input 2; call_plain (psa_hash_compare _ iov.(alg) d h))
  else tfm_crypto_hash_operation iov.

(** ** crypto_mac.c *)

Definition tfm_crypto_mac_operation (iov : tfm_crypto_pack_iovec) (key : tfm_crypto_key_id_s) : CR unit :=
  let sid := iov.(function_id) in
  let setup := (sid =? TFM_CRYPTO_MAC_SIGN_SETUP_SID) || (sid =? TFM_CRYPTO_MAC_VERIFY_SETUP_SID) in
  let abort := sid =? TFM_CRYPTO_MAC_ABORT_SID in
  let ends := (sid =? TFM_CRYPTO_MAC_SIGN_FINISH_SID) || (sid =? TFM_CRYPTO_MAC_VERIFY_FINISH_SID) || abort in
  o ← open_operation TFM_CRYPTO_MAC_OPERATION setup ends abort iov;
  match o with
  | None => mret tt
  | Some slot =>
      let h := handle_of setup slot iov in
      if sid =? TFM_CRYPTO_MAC_SIGN_SETUP_SID then
        then_release on_failure h put_handle (op_status slot (fun o => psa_mac_sign_setup _ o key iov.(alg)))
      else if sid =? TFM_CRYPTO_MAC_VERIFY_SETUP_SID then
        then_release on_failure h put_handle (op_status slot (fun o => psa_mac_verify_setup _ o key iov.(alg)))
      else if sid =? TFM_CRYPTO_MAC_UPDATE_SID then
        d ← input 1; op_status slot (fun o => psa_mac_update _ o d)
      else if sid =? TFM_CRYPTO_MAC_SIGN_FINISH_SID then
        then_release on_success h put_handle (op_out slot true 1 (fun o n => psa_mac_sign_finish _ o n))
      else if sid =? TFM_CRYPTO_MAC_VERIFY_FINISH_SID then
        d ← input 1;
        then_release on_success h put_handle (op_status slot (fun o => psa_mac_verify_finish _ o d))
      else if abort then
        then_release always h put_handle (op_status slot (fun o => psa_mac_abort _ o))
      else throw PSA_ERROR_NOT_SUPPORTED
  end.

Definition tfm_crypto_mac_interface (iov : tfm_crypto_pack_iovec) (key : tfm_crypto_key_id_s) : CR unit :=
  let sid := iov.(function_id) in
  if negb (module_enabled TFM_CRYPTO_GROUP_ID_MAC) then throw PSA_ERROR_NOT_SUPPORTED
  else if sid =? TFM_CRYPTO_MAC_COMPUTE_SID then
    single_part (d ← input 1; call_out true 0 (fun n => psa_mac_compute _ key iov.(alg) d n))
  else if sid =? TFM_CRYPTO_MAC_VERIFY_SID then
    single_part (d ← input 1; m ← input 2; call_plain (psa_mac_verify _ key iov.(alg) d m))
  else tfm_crypto_mac_operation iov key.

(** ** crypto_cipher.c *)

Definition PSA_ALG_IS_AEAD (a : Z) : bool := Z.land a 0x7f000000 =? 0x05000000.
Definition PSA_ALG_AEAD_WITH_SHORTENED_TAG (a tag_length : Z) : Z :=
  Z.lor (Z.land a (Z.lnot (Z.lor 0x003f0000 0x00008000)))
        (Z.land (Z.shiftl tag_length 16) 0x003f0000).

Definition tfm_crypto_can_do_cipher (key_type a : Z) : Z :=
  if existsb (Z.eqb key_type) wanted_key_type then
    let a := if PSA_ALG_IS_AEAD a then PSA_ALG_AEAD_WITH_SHORTENED_TAG a 0 else a in
    if existsb (Z.eqb a) wanted_cipher then 1 else 0
  else 0.

Definition tfm_crypto_cipher_operation (iov : tfm_crypto_pack_iovec) (key : tfm_crypto_key_id_s)
  : CR unit :=
  let sid := iov.(function_id) in
  let setup := (sid =? TFM_CRYPTO_CIPHER_ENCRYPT_SETUP_SID) || (sid =? TFM_CRYPTO_CIPHER_DECRYPT_SETUP_SID) in
  let abort := sid =? TFM_CRYPTO_CIPHER_ABORT_SID in
  let ends := (sid =? TFM_CRYPTO_CIPHER_FINISH_SID) || abort in
  o ← open_operation TFM_CRYPTO_CIPHER_OPERATION setup ends abort iov;
  match o with
  | None => mret tt
  | Some slot =>
      let h := handle_of setup slot iov in
      if sid =? TFM_CRYPTO_CIPHER_GENERATE_IV_SID then
        op_out slot true 0 (fun o n => psa_cipher_generate_iv _ o n)
      else if sid =? TFM_CRYPTO_CIPHER_SET_IV_SID then
        d ← input 1; op_status slot (fun o => psa_cipher_set_iv _ o d)
      else if sid =? TFM_CRYPTO_CIPHER_ENCRYPT_SETUP_SID then
        then_release on_failure h put_handle (op_status slot (fun o => psa_cipher_encrypt_setup _ o key iov.(alg)))
      else if sid =? TFM_CRYPTO_CIPHER_DECRYPT_SETUP_SID then
        then_release on_failure h put_handle (op_status slot (fun o => psa_cipher_decrypt_setup _ o key iov.(alg)))
      else if sid =? TFM_CRYPTO_CIPHER_UPDATE_SID then
        d ← input 1;
        then_release on_failure iov.(op_handle) (fun _ => mret tt)
          (op_out slot true 0 (fun o n => psa_cipher_update _ o d n))
      else if sid =? TFM_CRYPTO_CIPHER_FINISH_SID then
        then_release on_success h put_handle (op_out slot true 1 (fun o n => psa_cipher_finish _ o n))
      else if abort then
        then_release always h put_handle (op_status slot (fun o => psa_cipher_abort _ o))
      else throw PSA_ERROR_NOT_SUPPORTED
  end.

Definition tfm_crypto_cipher_interface (iov : tfm_crypto_pack_iovec) (key : tfm_crypto_key_id_s)
  : CR unit :=
  let sid := iov.(function_id) in
  if negb (module_enabled TFM_CRYPTO_GROUP_ID_CIPHER) then throw PSA_ERROR_NOT_SUPPORTED
  else if sid =? TFM_CRYPTO_CAN_DO_CIPHER_SID then
    _ ← need_out 0 4;
    v ← in_at 1;
    _ ← fail_if (bool_decide (v.(v_base) = None) || (v.(v_len) <? 2)) PSA_ERROR_PROGRAMMER_ERROR;
    d ← input 1;
    put_out 0 (le32 (tfm_crypto_can_do_cipher (of_le16 d) iov.(alg)))
  else if sid =? TFM_CRYPTO_CIPHER_ENCRYPT_SID then
    single_part (d ← input 1; call_out true 0 (fun n => psa_cipher_encrypt _ key iov.(alg) d n))
  else if sid =? TFM_CRYPTO_CIPHER_DECRYPT_SID then
    single_part (d ← input 1; call_out true 0 (fun n => psa_cipher_decrypt _ key iov.(alg) d n))
  else tfm_crypto_cipher_operation iov key.

(** ** crypto_aead.c *)

(** The nonce of a single-part request: [nonce_length] bytes from the start of
    [iov->aead_in.nonce]. *)
Definition aead_in_nonce (iov : tfm_crypto_pack_iovec) : CR bytes :=
  if iov.(aead_nonce_length) <=? TFM_CRYPTO_MAX_NONCE_LENGTH
  then mret (take (Z.to_nat iov.(aead_nonce_length)) iov.(aead_nonce))
  else stop OutOfBounds.

Definition tfm_crypto_aead_finish (slot : nat) : CR unit :=
  n ← out_size 2;
  t ← out_size 1;
  r ← call_op slot (fun o => psa_aead_finish _ o n t);
  _ ← put_out 2 r.(pr_out);
  _ ← put_out 1 r.(pr_out2);
  let ok := r.(pr_status) =? PSA_SUCCESS in
  _ ← set_out_len 2 (if ok then Z.of_nat (length r.(pr_out)) else 0);
  _ ← set_out_len 1 (if ok then Z.of_nat (length r.(pr_out2)) else 0);
  return_status r.(pr_status).

Definition tfm_crypto_aead_operation (iov : tfm_crypto_pack_iovec) (key : tfm_crypto_key_id_s)
  : CR unit :=
  let sid := iov.(function_id) in
  let setup := (sid =? TFM_CRYPTO_AEAD_ENCRYPT_SETUP_SID) || (sid =? TFM_CRYPTO_AEAD_DECRYPT_SETUP_SID) in
  let abort := sid =? TFM_CRYPTO_AEAD_ABORT_SID in
  let ends := (sid =? TFM_CRYPTO_AEAD_FINISH_SID) || (sid =? TFM_CRYPTO_AEAD_VERIFY_SID) || abort in
  o ← open_operation TFM_CRYPTO_AEAD_OPERATION setup ends abort iov;
  match o with
  | None => mret tt
  | Some slot =>
      let h := handle_of setup slot iov in
      if sid =? TFM_CRYPTO_AEAD_ENCRYPT_SETUP_SID then
        then_release on_failure h put_handle (op_status slot (fun o => psa_aead_encrypt_setup _ o key iov.(alg)))
      else if sid =? TFM_CRYPTO_AEAD_DECRYPT_SETUP_SID then
        then_release on_failure h put_handle (op_status slot (fun o => psa_aead_decrypt_setup _ o key iov.(alg)))
      else if sid =? TFM_CRYPTO_AEAD_FINISH_SID then
        then_release on_success h put_handle (tfm_crypto_aead_finish slot)
      else if abort then
        then_release always h put_handle (op_status slot (fun o => psa_aead_abort _ o))
      else if sid =? TFM_CRYPTO_AEAD_GENERATE_NONCE_SID then
        op_out slot true 0 (fun o n => psa_aead_generate_nonce _ o n)
      else if sid =? TFM_CRYPTO_AEAD_SET_NONCE_SID then
        d ← input 1; op_status slot (fun o => psa_aead_set_nonce _ o d)
      else if sid =? TFM_CRYPTO_AEAD_SET_LENGTHS_SID then
        op_status slot (fun o => psa_aead_set_lengths _ o iov.(ad_length) iov.(plaintext_length))
      else if sid =? TFM_CRYPTO_AEAD_UPDATE_SID then
        d ← input 1; op_out slot true 0 (fun o n => psa_aead_update _ o d n)
      else if sid =? TFM_CRYPTO_AEAD_UPDATE_AD_SID then
        d ← input 1; op_status slot (fun o => psa_aead_update_ad _ o d)
      else if sid =? TFM_CRYPTO_AEAD_VERIFY_SID then
        d ← input 1;
        then_release on_success h put_handle (op_out slot true 1 (fun o n => psa_aead_verify _ o n d))
      else throw PSA_ERROR_NOT_SUPPORTED
  end.

Definition tfm_crypto_aead_interface (iov : tfm_crypto_pack_iovec) (key : tfm_crypto_key_id_s)
  : CR unit :=
  let sid := iov.(function_id) in
  if negb (module_enabled TFM_CRYPTO_GROUP_ID_AEAD) then throw PSA_ERROR_NOT_SUPPORTED
  else if sid =? TFM_CRYPTO_AEAD_ENCRYPT_SID then
    single_part (
      nonce ← aead_in_nonce iov;
      d ← input 1; ad ← input 2;
      call_out true 0 (fun n => psa_aead_encrypt _ key iov.(alg) nonce ad d n))
  else if sid =? TFM_CRYPTO_AEAD_DECRYPT_SID then
    single_part (
      nonce ← aead_in_nonce iov;
      d ← input 1; ad ← input 2;
      call_out true 0 (fun n => psa_aead_decrypt _ key iov.(alg) nonce ad d n))
  else tfm_crypto_aead_operation iov key.

(** ** crypto_key_derivation.c *)

(** The attributes a client sent, to be completed with the owner of the key. *)
Definition client_attributes : CR bytes :=
  v ← in_at 1;
  _ ← fail_if (bool_decide (v.(v_base) = None) ||
               negb (v.(v_len) =? u32 (key_attr_size - TFM_CRYPTO_KEY_ATTR_OFFSET_CLIENT_SERVER)))
        PSA_ERROR_PROGRAMMER_ERROR;
  input 1.

Definition tfm_crypto_key_derivation_operation (iov : tfm_crypto_pack_iovec) (key : tfm_crypto_key_id_s)
  : CR unit :=
  let sid := iov.(function_id) in
  let abort := sid =? TFM_CRYPTO_KEY_DERIVATION_ABORT_SID in
  let setup := sid =? TFM_CRYPTO_KEY_DERIVATION_SETUP_SID in
  r ← (if setup then
         _ ← need_out 0 4;
         _ ← put_handle iov.(op_handle);
         attempt (tfm_crypto_operation_alloc TFM_CRYPTO_KEY_DERIVATION_OPERATION iov.(op_handle) put_handle)
       else attempt (tfm_crypto_operation_lookup TFM_CRYPTO_KEY_DERIVATION_OPERATION iov.(op_handle)));
  match r with
  | inl err =>
      if abort then _ ← need_out 0 4; put_handle iov.(op_handle) else throw err
  | inr slot =>
      if setup then
        then_release on_failure (handle_of setup slot iov) put_handle
          (op_status slot (fun o => psa_key_derivation_setup _ o iov.(alg)))
      else if sid =? TFM_CRYPTO_KEY_DERIVATION_GET_CAPACITY_SID then
        v ← out_at 0;
        _ ← fail_if (bool_decide (v.(v_base) = None) || negb (v.(v_len) =? 4)) PSA_ERROR_PROGRAMMER_ERROR;
        r ← call_op slot (fun o => psa_key_derivation_get_capacity _ o);
        _ ← put_out 0 r.(pr_out);
        return_status r.(pr_status)
      else if sid =? TFM_CRYPTO_KEY_DERIVATION_SET_CAPACITY_SID then
        op_status slot (fun o => psa_key_derivation_set_capacity _ o iov.(kd_capacity))
      else if sid =? TFM_CRYPTO_KEY_DERIVATION_INPUT_BYTES_SID then
        d ← input 1; op_status slot (fun o => psa_key_derivation_input_bytes _ o iov.(step) d)
      else if sid =? TFM_CRYPTO_KEY_DERIVATION_INPUT_INTEGER_SID then
        op_status slot (fun o => psa_key_derivation_input_integer _ o iov.(step) iov.(kd_value))
      else if sid =? TFM_CRYPTO_KEY_DERIVATION_OUTPUT_BYTES_SID then
        n ← out_size 0;
        r ← call_op slot (fun o => psa_key_derivation_output_bytes _ o n);
        _ ← put_out 0 r.(pr_out);
        return_status r.(pr_status)
      else if sid =? TFM_CRYPTO_KEY_DERIVATION_INPUT_KEY_SID then
        op_status slot (fun o => psa_key_derivation_input_key _ o iov.(step) key)
      else if sid =? TFM_CRYPTO_KEY_DERIVATION_OUTPUT_KEY_SID then
        _ ← need_out 0 4;
        attr ← client_attributes;
        r ← call_op slot (fun o => psa_key_derivation_output_key _ attr key.(kowner) o);
        _ ← put_handle r.(pr_key);
        return_status r.(pr_status)
      else if abort then
        _ ← need_out 0 4;
        _ ← put_handle iov.(op_handle);
        then_release always iov.(op_handle) put_handle
          (op_status slot (fun o => psa_key_derivation_abort _ o))
      else if sid =? TFM_CRYPTO_KEY_DERIVATION_KEY_AGREEMENT_SID then
        d ← input 1; op_status slot (fun o => psa_key_derivation_key_agreement _ o iov.(step) key d)
      else throw PSA_ERROR_NOT_SUPPORTED
  end.

Definition tfm_crypto_key_derivation_interface (iov : tfm_crypto_pack_iovec) (key : tfm_crypto_key_id_s)
  : CR unit :=
  if negb (module_enabled TFM_CRYPTO_GROUP_ID_KEY_DERIVATION) then throw PSA_ERROR_NOT_SUPPORTED
  else if iov.(function_id) =? TFM_CRYPTO_RAW_KEY_AGREEMENT_SID then
    d ← input 1; call_out false 0 (fun n => psa_raw_key_agreement _ iov.(alg) key d n)
  else tfm_crypto_key_derivation_operation iov key.

(** ** crypto_asymmetric.c *)

Definition tfm_crypto_asymmetric_sign_interface (iov : tfm_crypto_pack_iovec) (key : tfm_crypto_key_id_s)
  : CR unit :=
  let sid := iov.(function_id) in
  if negb (module_enabled TFM_CRYPTO_GROUP_ID_ASYM_SIGN) then throw PSA_ERROR_NOT_SUPPORTED
  else if sid =? TFM_CRYPTO_ASYMMETRIC_SIGN_MESSAGE_SID then
    d ← input 1; call_out true 0 (fun n => psa_sign_message _ key iov.(alg) d n)
  else if sid =? TFM_CRYPTO_ASYMMETRIC_VERIFY_MESSAGE_SID then
    d ← input 1; g ← input 2; call_plain (psa_verify_message _ key iov.(alg) d g)
  else if sid =? TFM_CRYPTO_ASYMMETRIC_SIGN_HASH_SID then
    d ← input 1; call_out true 0 (fun n => psa_sign_hash _ key iov.(alg) d n)
  else if sid =? TFM_CRYPTO_ASYMMETRIC_VERIFY_HASH_SID then
    d ← input 1; g ← input 2; call_plain (psa_verify_hash _ key iov.(alg) d g)
  else throw PSA_ERROR_NOT_SUPPORTED.

Definition tfm_crypto_asymmetric_encrypt_interface (iov : tfm_crypto_pack_iovec)
    (key : tfm_crypto_key_id_s) : CR unit :=
  let sid := iov.(function_id) in
  if negb (module_enabled TFM_CRYPTO_GROUP_ID_ASYM_ENCRYPT) then throw PSA_ERROR_NOT_SUPPORTED
  else if sid =? TFM_CRYPTO_ASYMMETRIC_ENCRYPT_SID then
    d ← input 1; salt ← input 2;
    call_out true 0 (fun n => psa_asymmetric_encrypt _ key iov.(alg) d salt n)
  else if sid =? TFM_CRYPTO_ASYMMETRIC_DECRYPT_SID then
    d ← input 1; salt ← input 2;
    call_out true 0 (fun n => psa_asymmetric_decrypt _ key iov.(alg) d salt n)
  else throw PSA_ERROR_NOT_SUPPORTED.

(** ** crypto_key_management.c *)

(** A call that makes a key: its identifier goes to [out_vec[0]]; when [only_success],
    a failure leaves the vector alone. *)
Definition make_key (only_success : bool) (c : psa_call O) : CR unit :=
  r ← crypto_call (psa_lib c);
  _ ← (if only_success then return_status r.(pr_status) else mret tt);
  _ ← put_handle r.(pr_key);
  return_status r.(pr_status).

Definition tfm_crypto_key_management_interface (iov : tfm_crypto_pack_iovec) (key : tfm_crypto_key_id_s)
  : CR unit :=
  let sid := iov.(function_id) in
  let own := key.(kowner) in
  if negb (module_enabled TFM_CRYPTO_GROUP_ID_KEY_MANAGEMENT) then throw PSA_ERROR_NOT_SUPPORTED
  else if sid =? TFM_CRYPTO_IMPORT_KEY_SID then
    attr ← client_attributes;
    d ← input 2;
    _ ← need_out 0 4;
    make_key false (psa_import_key _ attr own d)
  else if sid =? TFM_CRYPTO_DESTROY_KEY_SID then call_plain (psa_destroy_key _ key)
  else if sid =? TFM_CRYPTO_GET_KEY_ATTRIBUTES_SID then
    r ← crypto_call (psa_lib (psa_get_key_attributes _ key));
    v ← out_at 0;
    _ ← fail_if (bool_decide (v.(v_base) = None) || (v.(v_len) >? key_attr_size)) PSA_ERROR_PROGRAMMER_ERROR;
    _ ← put_out 0 (take (Z.to_nat v.(v_len)) r.(pr_out));
    return_status r.(pr_status)
  else if sid =? TFM_CRYPTO_EXPORT_KEY_SID then call_out true 0 (fun n => psa_export_key _ key n)
  else if sid =? TFM_CRYPTO_EXPORT_PUBLIC_KEY_SID then
    call_out true 0 (fun n => psa_export_public_key _ key n)
  else if sid =? TFM_CRYPTO_PURGE_KEY_SID then call_plain (psa_purge_key _ key)
  else if sid =? TFM_CRYPTO_COPY_KEY_SID then
    attr ← client_attributes;
    _ ← need_out 0 4;
    make_key true (psa_copy_key _ key attr own)
  else if sid =? TFM_CRYPTO_GENERATE_KEY_SID then
    attr ← client_attributes;
    _ ← need_out 0 4;
    make_key true (psa_generate_key _ attr own)
  else throw PSA_ERROR_NOT_SUPPORTED.

(** ** crypto_rng.c *)

Definition tfm_crypto_random_interface (iov : tfm_crypto_pack_iovec) : CR unit :=
  if negb (module_enabled TFM_CRYPTO_GROUP_ID_RANDOM) then throw PSA_ERROR_NOT_SUPPORTED
  else
    n ← out_size 0;
    r ← crypto_call (psa_lib (psa_generate_random _ n));
    _ ← put_out 0 r.(pr_out);
    return_status r.(pr_status).
End Ops.
