(* ===== verification/CryptoService.v ===== *)
(** Crypto service: a request ([crypto_init.c], [crypto_library.c]).

    The vectors of a client are copied to a scratch memory that belongs to the
    request, the request is handed to the function its identifier names, the outputs
    are written back and the scratch memory is cleared. *)

From stdpp Require Import base list numbers.
From S2P Require Import Prelude CryptoTypes CryptoAlloc CryptoOps.

Definition TFM_CRYPTO_IOVEC_ALIGNMENT : Z := 4.
Definition ALIGN (x a : Z) : Z := Z.land (u32 (x + (a - 1))) (Z.lnot (a - 1)).

(** [tfm_plat_builtin_key_descriptor_t] *)
Record tfm_plat_builtin_key_descriptor_t := {
  bk_key_id : Z;
  bk_lifetime : Z;
  bk_slot_number : Z;
}.

(** The loop over the table: the first descriptor of the key. *)
Fixpoint mbedtls_psa_platform_get_builtin_key (desc_table : list tfm_plat_builtin_key_descriptor_t)
    (key : tfm_crypto_key_id_s) : Z + (Z * Z) :=
  match desc_table with
  | [] => inl PSA_ERROR_DOES_NOT_EXIST
  | d :: rest =>
      if d.(bk_key_id) =? key.(kid) then inr (d.(bk_lifetime), d.(bk_slot_number))
      else mbedtls_psa_platform_get_builtin_key rest key
  end.

Section Service.
Context `{CryptoBuild} {O X : Type} `{!CryptoEnv O X}.
Notation CR := (CR O X).

(** ** The scratch memory *)

Definition tfm_crypto_set_scratch_owner (id : Z) : CR unit := modifyS (set_scratch_owner id).
Definition tfm_crypto_set_caller_id (id : Z) : CR unit := tfm_crypto_set_scratch_owner id.

(** The result is the index of the allocated space in [scratch.buf]. *)
Definition tfm_crypto_alloc_scratch (requested_size : Z) : CR Z :=
  _ ← fail_if (requested_size >? UINT32_MAX - (TFM_CRYPTO_IOVEC_ALIGNMENT - 1))
        PSA_ERROR_INSUFFICIENT_MEMORY;
  let size := ALIGN requested_size TFM_CRYPTO_IOVEC_ALIGNMENT in
  index ← gets scratch_alloc_index;
  _ ← fail_if (size >? u32 (CRYPTO_IOVEC_BUFFER_SIZE - index)) PSA_ERROR_INSUFFICIENT_MEMORY;
  _ ← modifyS (set_scratch_alloc_index (u32 (index + size)));
  mret index.

Definition tfm_crypto_clear_scratch : CR unit :=
  _ ← modifyS (set_scratch_owner 0);
  _ ← modifyS (fun s => set_scratch_buf
        (splice s.(scratch_buf) 0 (replicate (Z.to_nat s.(scratch_alloc_index)) 0)) s);
  modifyS (set_scratch_alloc_index 0).

(** ** The vectors of a request *)

(** [while ((len > 0) && (size[len - 1] == 0)) len--;] *)
Fixpoint filled (len : nat) (size : list Z) : nat :=
  match len with
  | 0%nat => 0%nat
  | Datatypes.S n => if nth n size 0 =? 0 then filled n size else len
  end.

Fixpoint for_each (l : list nat) (body : nat -> CR unit) : CR unit :=
  match l with
  | [] => mret tt
  | i :: l' => _ ← body i; for_each l' body
  end.

(** [status = f(); if (status != PSA_SUCCESS) { clear; return status; }] *)
Definition or_clear {A} (m : CR A) : CR A :=
  r ← attempt m;
  match r with
  | inl status => _ ← tfm_crypto_clear_scratch; throw status
  | inr a => mret a
  end.

(** [psa_read] into [size] bytes at [index]; the number of bytes read. *)
Definition read_into (handle : Z) (i : nat) (index size : Z) : CR Z :=
  d ← crypto_call (no_status (spm_read handle (Z.of_nat i) size));
  if Z.of_nat (length d) <=? size then
    _ ← modifyS (fun s => set_scratch_buf (splice s.(scratch_buf) (Z.to_nat index) d) s);
    mret (Z.of_nat (length d))
  else stop OutOfBounds.

Definition init_invec (msg : crypto_msg) (i : nat) : CR unit :=
  let size := nth i msg.(cm_in_size) 0 in
  index ← or_clear (tfm_crypto_alloc_scratch size);
  n ← read_into msg.(cm_handle) i index size;
  modifyS (fun s => set_in_vec (<[i := {| v_base := Some index; v_len := n |}]> s.(in_vec)) s).

Definition init_outvec (msg : crypto_msg) (i : nat) : CR unit :=
  let size := nth i msg.(cm_out_size) 0 in
  index ← or_clear (tfm_crypto_alloc_scratch size);
  modifyS (fun s => set_out_vec (<[i := {| v_base := Some index; v_len := size |}]> s.(out_vec)) s).

Definition tfm_crypto_init_iovecs (msg : crypto_msg) (in_len out_len : nat) : CR unit :=
  _ ← for_each (seq 1 (in_len - 1)) (init_invec msg);
  for_each (seq 0 out_len) (init_outvec msg).

(** ** The request *)

(** [in_vec[0]] holds [iov]. *)
Definition tfm_crypto_api_dispatcher (iov : tfm_crypto_pack_iovec) : CR unit :=
  v ← in_at 0;
  _ ← fail_if (negb (v.(v_len) =? sizeof_iovec)) PSA_ERROR_PROGRAMMER_ERROR;
  let group_id := TFM_CRYPTO_GET_GROUP_ID iov.(function_id) in
  let is_key_required := negb ((group_id =? TFM_CRYPTO_GROUP_ID_HASH) ||
                               (group_id =? TFM_CRYPTO_GROUP_ID_RANDOM)) in
  encoded_key ← (if is_key_required then
                   caller_id ← tfm_crypto_get_caller_id;
                   mret {| kid := iov.(key_id); kowner := caller_id |}
                 else mret {| kid := 0; kowner := 0 |});
  if group_id =? TFM_CRYPTO_GROUP_ID_KEY_MANAGEMENT then tfm_crypto_key_management_interface iov encoded_key
  else if group_id =? TFM_CRYPTO_GROUP_ID_HASH then tfm_crypto_hash_interface iov
  else if group_id =? TFM_CRYPTO_GROUP_ID_MAC then tfm_crypto_mac_interface iov encoded_key
  else if group_id =? TFM_CRYPTO_GROUP_ID_CIPHER then tfm_crypto_cipher_interface iov encoded_key
  else if group_id =? TFM_CRYPTO_GROUP_ID_AEAD then tfm_crypto_aead_interface iov encoded_key
  else if group_id =? TFM_CRYPTO_GROUP_ID_ASYM_SIGN then tfm_crypto_asymmetric_sign_interface iov encoded_key
  else if group_id =? TFM_CRYPTO_GROUP_ID_ASYM_ENCRYPT then
    tfm_crypto_asymmetric_encrypt_interface iov encoded_key
  else if group_id =? TFM_CRYPTO_GROUP_ID_KEY_DERIVATION then
    tfm_crypto_key_derivation_interface iov encoded_key
  else if group_id =? TFM_CRYPTO_GROUP_ID_RANDOM then tfm_crypto_random_interface iov
  else throw PSA_ERROR_NOT_SUPPORTED.

(** [psa_write] of an output vector. *)
Definition write_back (msg : crypto_msg) (i : nat) : CR unit :=
  v ← out_at i;
  s ← getS;
  let d := match v.(v_base) with
           | Some b => slice s.(scratch_buf) (Z.to_nat b) (Z.to_nat v.(v_len))
           | None => []
           end in
  crypto_call (no_status (spm_write msg.(cm_handle) (Z.of_nat i) d)).

(** The local variables [in_vec] and [out_vec] of a request. *)
Definition init_vectors : CR unit :=
  _ ← modifyS (set_in_vec (replicate PSA_MAX_IOVEC no_vec));
  modifyS (set_out_vec (replicate PSA_MAX_IOVEC no_vec)).

Definition tfm_crypto_call_srv (msg : crypto_msg) : CR unit :=
  _ ← init_vectors;
  let in_len := filled PSA_MAX_IOVEC msg.(cm_in_size) in
  let out_len := filled PSA_MAX_IOVEC msg.(cm_out_size) in
  _ ← fail_if (in_len <? 1)%nat PSA_ERROR_GENERIC_ERROR;
  d ← crypto_call (no_status (spm_read msg.(cm_handle) 0 sizeof_iovec));
  _ ← fail_if (negb (Z.of_nat (length d) =? sizeof_iovec)) PSA_ERROR_GENERIC_ERROR;
  _ ← modifyS (fun s => set_in_vec
        (<[0%nat := {| v_base := None; v_len := sizeof_iovec |}]> s.(in_vec)) s);
  _ ← tfm_crypto_init_iovecs msg in_len out_len;
  _ ← tfm_crypto_set_caller_id msg.(cm_client_id);
  status ← status_of (tfm_crypto_api_dispatcher (iov_of d));
  _ ← for_each (seq 0 out_len) (write_back msg);
  _ ← tfm_crypto_clear_scratch;
  return_status status.

Definition tfm_crypto_sfn (msg : crypto_msg) : CR unit :=
  if msg.(cm_type) =? PSA_IPC_CALL then tfm_crypto_call_srv msg else throw PSA_ERROR_NOT_SUPPORTED.

(** ** Start-up *)

Definition tfm_crypto_core_library_init : CR unit := crypto_call mbedtls_setup.

Definition tfm_crypto_engine_init : CR unit :=
  _ ← (if CRYPTO_NV_SEED then
         ok ← crypto_call tfm_plat_crypto_provision_entropy_seed;
         fail_if (negb ok) PSA_ERROR_GENERIC_ERROR
       else mret tt);
  _ ← tfm_crypto_core_library_init;
  crypto_call psa_crypto_init.

Definition tfm_crypto_module_init : CR unit := tfm_crypto_init_alloc.

Definition tfm_crypto_init : CR unit :=
  _ ← tfm_crypto_module_init;
  tfm_crypto_engine_init.
End Service.
