(* ===== verification/CryptoInv.v ===== *)
(** Crypto service: what every request keeps.

    [Inv q p F J]: the scratch memory is in the name of [q]; the operations of the
    clients other than [p] are [F]; [J] holds of the environment; the slots and the
    vectors are well formed.  Every function a client can request keeps it, whatever
    the library answers, when [J] survives the library calls that name [p]'s keys
    only. *)

From stdpp Require Import base list numbers.
From S2P Require Import Prelude CryptoTypes CryptoAlloc CryptoOps CryptoService.

(** The owners of the keys a call names or makes. *)
Definition call_owners {O} (c : psa_call O) : list Z :=
  match c with
  | psa_mac_compute _ k _ _ _ | psa_mac_verify _ k _ _ _ | psa_mac_sign_setup _ _ k _
  | psa_mac_verify_setup _ _ k _ | psa_cipher_encrypt _ k _ _ _ | psa_cipher_decrypt _ k _ _ _
  | psa_cipher_encrypt_setup _ _ k _ | psa_cipher_decrypt_setup _ _ k _
  | psa_aead_encrypt _ k _ _ _ _ _ | psa_aead_decrypt _ k _ _ _ _ _
  | psa_aead_encrypt_setup _ _ k _ | psa_aead_decrypt_setup _ _ k _
  | psa_raw_key_agreement _ _ k _ _ | psa_key_derivation_input_key _ _ _ k
  | psa_key_derivation_key_agreement _ _ _ k _ | psa_sign_message _ k _ _ _
  | psa_verify_message _ k _ _ _ | psa_sign_hash _ k _ _ _ | psa_verify_hash _ k _ _ _
  | psa_asymmetric_encrypt _ k _ _ _ _ | psa_asymmetric_decrypt _ k _ _ _ _
  | psa_destroy_key _ k | psa_get_key_attributes _ k | psa_export_key _ k _
  | psa_export_public_key _ k _ | psa_purge_key _ k => [k.(kowner)]
  | psa_key_derivation_output_key _ _ o _ | psa_import_key _ _ o _ | psa_generate_key _ _ o => [o]
  | psa_copy_key _ k _ o => [k.(kowner); o]
  | _ => []
  end.
Definition calls_for {O} (p : Z) (c : psa_call O) : Prop := Forall (eq p) (call_owners c).

(** The build fits the types of the code. *)
Class CryptoBuildOk `{CryptoBuild} : Prop := {
  iovec_buffer_size_ok : is_u32 CRYPTO_IOVEC_BUFFER_SIZE;
}.

Section Inv.
Context `{!CryptoBuild, !CryptoBuildOk} {O X : Type} `{!CryptoEnv O X}.
Implicit Types (s : crypto_state O X).

(** What the slot holds for a client other than [p]. *)
Definition foreign (p : Z) (o : tfm_crypto_operation_s O) : option (tfm_crypto_operation_s O) :=
  if o.(in_use) && negb (o.(owner) =? p) then Some o else None.
Definition slot_ok (o : tfm_crypto_operation_s O) : Prop := o.(in_use) = false -> o = free_operation.
Definition slots_ok (l : list (tfm_crypto_operation_s O)) : Prop :=
  length l = CRYPTO_CONC_OPER_NUM /\ Forall slot_ok l.

(** The vector lies in the allocated part of the scratch memory. *)
Definition vec_ok (allocated : Z) (v : vec) : Prop :=
  0 <= v.(v_len) /\
  match v.(v_base) with Some b => 0 <= b /\ b + v.(v_len) <= allocated | None => True end.
(** Nothing but zeros beyond the allocated part. *)
Record scratch_ok s : Prop := {
  so_index : 0 <= s.(scratch_alloc_index) <= CRYPTO_IOVEC_BUFFER_SIZE;
  so_size : Z.of_nat (length s.(scratch_buf)) = CRYPTO_IOVEC_BUFFER_SIZE;
  so_clear : drop (Z.to_nat s.(scratch_alloc_index)) s.(scratch_buf) =
    replicate (length s.(scratch_buf) - Z.to_nat s.(scratch_alloc_index)) 0;
  so_out : Forall (vec_ok s.(scratch_alloc_index)) s.(out_vec);
}.

Record Inv (q p : Z) (F : list (option (tfm_crypto_operation_s O))) (J : X -> Prop) s : Prop := {
  inv_owner : s.(scratch_owner) = q;
  inv_env : J s.(crypto_env);
  inv_slots : slots_ok s.(operations);
  inv_foreign : map (foreign p) s.(operations) = F;
  inv_scratch : scratch_ok s;
}.

(** [slot] holds an operation of [p]. *)
Definition mine (p : Z) (slot : nat) (l : list (tfm_crypto_operation_s O)) : Prop :=
  exists o, l !! slot = Some o /\ o.(in_use) = true /\ o.(owner) = p.

(** ** The pieces of the state *)

Lemma scratch_ok_out s v : scratch_ok s -> Forall (vec_ok s.(scratch_alloc_index)) v ->
  scratch_ok (set_out_vec v s).
Proof. intros [] Hv. by split. Qed.

Lemma drop_splice (l : bytes) i x n : (i + length x <= n)%nat -> (n <= length l)%nat ->
  drop n (splice l i x) = drop n l.
Proof.
  intros Hn Hl. apply list_eq. intros j. rewrite !lookup_drop, lookup_splice by lia.
  by rewrite decide_False by lia.
Qed.

Lemma scratch_ok_write s b x : scratch_ok s -> 0 <= b ->
  b + Z.of_nat (length x) <= s.(scratch_alloc_index) ->
  scratch_ok (set_scratch_buf (splice s.(scratch_buf) (Z.to_nat b) x) s).
Proof.
  intros [Hi Hs Hc Ho] Hb Hx. split; cbn -[splice]; [done| | |done].
  - rewrite length_splice by lia. done.
  - rewrite length_splice, drop_splice by lia. done.
Qed.

Lemma slots_ok_alter f i (l : list (tfm_crypto_operation_s O)) :
  slots_ok l -> (forall o, (f o).(in_use) = true) -> slots_ok (alter f i l).
Proof.
  intros [Hl Hf] Hu. split; [by rewrite length_alter|].
  apply Forall_alter; [done|]. intros o _ _ Ho. by rewrite Hu in Ho.
Qed.

Lemma foreign_alter p f i (l : list (tfm_crypto_operation_s O)) :
  (forall o, l !! i = Some o -> foreign p (f o) = foreign p o) ->
  map (foreign p) (alter f i l) = map (foreign p) l.
Proof.
  intros Hf. apply list_eq. intros j. rewrite !list_lookup_fmap.
  destruct (decide (j = i)) as [->|].
  - rewrite list_lookup_alter_eq. destruct (l !! i) eqn:E; cbn; [|done]. by rewrite Hf.
  - by rewrite list_lookup_alter_ne by done.
Qed.

(** A slot that is [p]'s, or free, is not seen by the others. *)
Lemma foreign_none p (o : tfm_crypto_operation_s O) :
  o.(in_use) = false \/ o.(owner) = p -> foreign p o = None.
Proof.
  unfold foreign. intros [->|<-]; [done|]. by rewrite Z.eqb_refl, andb_false_r.
Qed.

Lemma mine_alter p slot i f (l : list (tfm_crypto_operation_s O)) :
  (i = slot -> forall o, (f o).(in_use) = o.(in_use) /\ (f o).(owner) = o.(owner)) ->
  mine p slot l -> mine p slot (alter f i l).
Proof.
  intros Hf (o & Hl & Hu & Ho). destruct (decide (i = slot)) as [->|].
  - exists (f o). rewrite list_lookup_alter_eq, Hl. destruct (Hf eq_refl o) as [-> ->]. by split_and!.
  - exists o. by rewrite list_lookup_alter_ne by done.
Qed.

Lemma first_free_some l : forall k i, first_free k l = Some i ->
  exists j (o : tfm_crypto_operation_s O), i = (k + j)%nat /\ l !! j = Some o /\ o.(in_use) = false.
Proof.
  induction l as [|o l IH]; intros k i; [done|]. cbn. destruct (in_use o) eqn:E.
  - intros (j & o' & -> & Hl & Hu)%IH. exists (S j), o'. split_and!; [lia|done..].
  - intros [= <-]. exists 0%nat, o. split_and!; [lia|done..].
Qed.

Lemma nth_lookup_val {A} (l : list A) i d x : l !! i = Some x -> nth i l d = x.
Proof. rewrite nth_lookup. by intros ->. Qed.

Lemma out_vec_ok s i : scratch_ok s -> vec_ok s.(scratch_alloc_index) (nth i s.(out_vec) no_vec).
Proof.
  intros Hs. rewrite nth_lookup. destruct (out_vec s !! i) as [v|] eqn:E; [|done].
  eapply Forall_lookup_1, E. by apply so_out.
Qed.

Section Requests.
Context (p : Z) (F : list (option (tfm_crypto_operation_s O))) (J : X -> Prop).
Context (Hlib : forall c, calls_for p c -> keeps J (psa_lib c)).

(** The invariant with a condition on the slots. *)
Definition InvP (P : list (tfm_crypto_operation_s O) -> Prop) s : Prop :=
  Inv p p F J s /\ P s.(operations).
Abbreviation I := (InvP (fun _ => True)).
Abbreviation IM slot := (InvP (mine p slot)).

Lemma keeps_crypto_call {A} P (m : M X A) : keeps J m -> keeps (InvP P) (crypto_call m).
Proof.
  intros Hm s [[Ho He Hs Hf Hc] HP]. unfold crypto_call. specialize (Hm _ He).
  destruct (m _) as [r x]. split; [split|]; cbn; try done. by destruct Hc.
Qed.

Lemma keeps_psa_lib P c : calls_for p c -> keeps (InvP P) (crypto_call (psa_lib c)).
Proof. intros Hc. apply keeps_crypto_call. by apply Hlib. Qed.

Lemma keeps_put_out P i l : keeps (InvP P) (put_out i l).
Proof.
  intros s Hs. unfold put_out, out_at. rewrite bind_gets. case_decide; [done|].
  pose proof (out_vec_ok s i (inv_scratch _ _ _ _ _ (proj1 Hs))) as [? Hb].
  destruct (nth i (out_vec s) no_vec) as [[b|] n]; cbn in *; [|done].
  case_match eqn:Hn; [|done]. apply Z.leb_le in Hn. destruct Hs as [[Ho He Hl Hf Hc] HP].
  split; [split|]; try done. apply scratch_ok_write; [done|lia..].
Qed.

Lemma put_out_room P i l s : InvP P s ->
  wp (put_out i l) (fun _ s' => InvP P s' /\ s'.(out_vec) = s.(out_vec) /\
      Z.of_nat (length l) <= v_len (nth i s.(out_vec) no_vec))
    (fun _ => InvP P) (fun _ => InvP P) s.
Proof.
  intros Hs. pose proof (wp_keeps _ _ s (keeps_put_out P i l) Hs) as Hk. revert Hk.
  pose proof (out_vec_ok s i (inv_scratch _ _ _ _ _ (proj1 Hs))) as [? Hb].
  unfold put_out, out_at, wp. rewrite bind_gets. case_decide; subst; [done|].
  destruct (nth i (out_vec s) no_vec) as [[b|] n]; cbn in *; [|done].
  destruct (Z.leb_spec (Z.of_nat (length l)) n); by cbn.
Qed.

Lemma set_out_len_keeps P i n s : InvP P s -> 0 <= n <= v_len (nth i s.(out_vec) no_vec) ->
  InvP P (set_out_vec (alter (fun v => {| v_base := v.(v_base); v_len := n |}) i s.(out_vec)) s).
Proof.
  intros [[Ho He Hl Hf Hc] HP] Hn. split; [split|]; try done. apply scratch_ok_out; [done|].
  apply Forall_alter; [by apply so_out|]. intros v Hv [Hv1 Hv2].
  rewrite (nth_lookup_val _ _ _ _ Hv) in Hn. split; cbn; [lia|].
  destruct (v_base v); [lia|done].
Qed.

(** An output buffer and its length. *)
Lemma keeps_put_len P {A} i l n (k : CR O X A) : 0 <= n <= Z.of_nat (length l) ->
  keeps (InvP P) k -> keeps (InvP P) (_ ← put_out i l; _ ← set_out_len i n; k).
Proof.
  intros Hn Hk s Hs. pose proof (put_out_room P i l s Hs) as Hw. unfold wp in Hw.
  unfold mbind, M_bind. destruct (put_out i l s) as [[[]|e|h] s1]; [|done..].
  cbn. apply Hk, set_out_len_keeps; [tauto|]. destruct Hw as (_ & -> & ?). lia.
Qed.

Lemma keeps_need_out P i n : keeps (InvP P) (need_out i n).
Proof. unfold need_out, out_at. keeps_auto. Qed.

Lemma keeps_input P i : keeps (InvP P) (input i).
Proof. unfold input, in_at. keeps_auto. Qed.

Lemma keeps_out_size P i : keeps (InvP P) (out_size i).
Proof. unfold out_size, out_at. keeps_auto. Qed.

Lemma keeps_put_handle P h : keeps (InvP P) (put_handle h).
Proof. apply keeps_put_out. Qed.

Lemma keeps_return_status P n : keeps (InvP P) (return_status n).
Proof. unfold return_status. keeps_auto. Qed.

#[local] Hint Resolve keeps_psa_lib keeps_put_out keeps_need_out keeps_input keeps_out_size
  keeps_put_handle keeps_return_status : keeps.

Lemma keeps_call_plain P c : calls_for p c -> keeps (InvP P) (call_plain c).
Proof. intros Hc. unfold call_plain. keeps_auto. Qed.

Lemma length_or_zero {A} (b : bool) (l : list A) :
  0 <= (if b then 0 else Z.of_nat (length l)) <= Z.of_nat (length l).
Proof. destruct b; lia. Qed.

Lemma keeps_call_out P clear i c : (forall n, calls_for p (c n)) ->
  keeps (InvP P) (call_out clear i c).
Proof.
  intros Hc. unfold call_out. apply keeps_bind; [eauto with keeps|]. intros n.
  apply keeps_bind; [eauto with keeps|]. intros r.
  apply keeps_put_len; [apply length_or_zero|eauto with keeps].
Qed.

(** ** Operations *)

Lemma call_op_keeps slot c : (forall o, calls_for p (c o)) -> keeps (IM slot) (call_op slot c).
Proof.
  intros Hc. unfold call_op. apply keeps_bind; [auto with keeps|]. intros ops.
  destruct (ops !! slot) as [o|]; [|apply keeps_stop].
  apply keeps_bind; [by apply keeps_psa_lib|]. intros r. apply keeps_bind; [|intros; apply keeps_ret].
  apply keeps_modifyS. intros s [[Ho He Hl Hf Hs] Hm]. pose proof Hm as (o' & Hl' & Hu & Hp).
  split; [split|]; cbn; try done.
  - destruct Hl as [Hn Hf']. split; [by rewrite length_alter|].
    apply Forall_alter; [done|]. intros x Hx Hx' Hfree. cbn in Hfree. congruence.
  - rewrite foreign_alter; [done|]. intros x Hx. replace x with o' by congruence.
    rewrite !foreign_none by (right; done). done.
  - by destruct Hs.
  - apply mine_alter; [by intros|done].
Qed.

Lemma op_status_keeps slot c : (forall o, calls_for p (c o)) -> keeps (IM slot) (op_status slot c).
Proof.
  intros Hc. unfold op_status. apply keeps_bind; [by apply call_op_keeps|]. eauto with keeps.
Qed.

Lemma op_out_keeps slot clear i c : (forall o n, calls_for p (c o n)) ->
  keeps (IM slot) (op_out slot clear i c).
Proof.
  intros Hc. unfold op_out. apply keeps_bind; [eauto with keeps|]. intros n.
  apply keeps_bind; [apply call_op_keeps; auto|]. intros r.
  apply keeps_put_len; [apply length_or_zero|eauto with keeps].
Qed.

Lemma release_keeps h put : (forall x, keeps I (put x)) ->
  keeps I (tfm_crypto_operation_release h put).
Proof.
  intros Hput. unfold tfm_crypto_operation_release.
  apply keeps_bind; [apply Hput|]. intros _. apply keeps_bind; [auto with keeps|]. intros _.
  intros s [[Ho He Hl Hf Hs] _]. unfold tfm_crypto_get_caller_id, operation_at, gets, mbind, M_bind.
  destruct (operations s !! slot_of h) as [o|] eqn:E; cbn; [|done].
  case_match eqn:Hu; cbn; [|done]. apply andb_true_iff in Hu as [_ Hown%Z.eqb_eq].
  rewrite list_insert_alter. split; [split|]; cbn; try done.
  - destruct Hl as [Hn Hl]. split; [by rewrite length_alter|]. by apply Forall_alter.
  - rewrite foreign_alter; [done|]. intros x Hx. rewrite !foreign_none; [done|right; congruence|by left].
  - by destruct Hs.
Qed.

Lemma leads_then_release slot release h put m :
  keeps (IM slot) m -> (forall x, keeps I (put x)) ->
  leads (IM slot) (then_release release h put m) I.
Proof.
  intros Hm Hput. unfold then_release.
  apply leads_bind; [by intros s []|by apply keeps_attempt|]. intros r.
  apply leads_keeps; [by intros s []|]. apply keeps_bind; [|intros; keeps_auto].
  case_match; [apply keeps_status_of, release_keeps; auto|apply keeps_ret].
Qed.
End Requests.
End Inv.
