(* ===== verification/CryptoHandlers.v ===== *)
(** Crypto service: every interface keeps the invariant of the request. *)

From stdpp Require Import base list numbers.
From S2P Require Import Prelude CryptoTypes CryptoAlloc CryptoOps CryptoService CryptoInv.

Section Handlers.
Context `{!CryptoBuild, !CryptoBuildOk} {O X : Type} `{!CryptoEnv O X}.
Context (p : Z) (F : list (option (tfm_crypto_operation_s O))) (J : X -> Prop).
Context (Hlib : forall c, calls_for p c -> keeps J (psa_lib c)).
Implicit Types (s : crypto_state O X) (P : list (tfm_crypto_operation_s O) -> Prop).
Abbreviation InvP := (InvP p F J).
Abbreviation I := (InvP (fun _ => True)).
Abbreviation IM slot := (InvP (mine p slot)).

#[local] Hint Resolve keeps_put_out keeps_need_out keeps_input keeps_out_size
  keeps_put_handle keeps_return_status : keeps.
#[local] Hint Extern 1 (calls_for _ _) => (repeat constructor; congruence) : keeps.
#[local] Hint Extern 1 (keeps _ (crypto_call (psa_lib _))) =>
  (apply (keeps_psa_lib _ _ _ Hlib); intros) : keeps.
#[local] Hint Extern 1 (keeps _ (call_plain _)) => (apply (keeps_call_plain _ _ _ Hlib); intros) : keeps.
#[local] Hint Extern 1 (keeps _ (call_out _ _ _)) => (apply (keeps_call_out _ _ _ Hlib); intros) : keeps.
#[local] Hint Extern 1 (keeps _ (op_status _ _)) => (apply (op_status_keeps _ _ _ Hlib); intros) : keeps.
#[local] Hint Extern 1 (keeps _ (op_out _ _ _ _)) => (apply (op_out_keeps _ _ _ Hlib); intros) : keeps.

Lemma InvP_weaken P P' s : (forall l, P l -> P' l) -> InvP P s -> InvP P' s.
Proof. intros HP []. split; auto. Qed.

(** ** Slots *)

Lemma fill_slot P i f s o :
  (forall l, (forall x, l !! i = Some x -> x.(in_use) = false) -> P l -> P (alter f i l)) ->
  s.(operations) !! i = Some o -> o.(in_use) = false ->
  (f o).(in_use) = true -> (f o).(owner) = p ->
  InvP P s -> InvP (fun l => P l /\ mine p i l) (set_operations (alter f i s.(operations)) s).
Proof.
  intros HP Hi Hu Hfu Hfo [[Ho He [Hn Hl] Hf Hs] HPs].
  split; [split|split]; cbn; try done.
  - split; [by rewrite length_alter|]. apply Forall_alter; [done|].
    intros x Hx _ Hx'. congruence.
  - rewrite foreign_alter; [done|]. intros x Hx.
    rewrite !foreign_none; [done|left|right]; congruence.
  - by destruct Hs.
  - apply HP; [|done]. congruence.
  - exists (f o). by rewrite list_lookup_alter_eq, Hi.
Qed.

Lemma alloc_wp P ty h put s :
  (forall i f l, (forall x, l !! i = Some x -> x.(in_use) = false) -> P l -> P (alter f i l)) ->
  (forall P x, keeps (InvP P) (put x)) -> InvP P s ->
  wp (tfm_crypto_operation_alloc ty h put) (fun i => InvP (fun l => P l /\ mine p i l))
    (fun _ => InvP P) (fun _ => InvP P) s.
Proof.
  intros HP Hput Hs. unfold tfm_crypto_operation_alloc, tfm_crypto_get_caller_id.
  do 2 wp_step; [done|]. do 4 wp_step.
  destruct (first_free 0 (operations s)) as [i|] eqn:E; [|by apply wp_throw].
  destruct (first_free_some _ _ _ E) as (j & o & -> & Hi & Hu). cbn in *.
  do 3 wp_step. assert (HI : InvP (fun l => P l /\ mine p j l)
    (set_operations (alter (fun o => {| in_use := true; owner := scratch_owner s; type := ty;
       operation := operation o |}) j (operations s)) s)).
  { eapply fill_slot; eauto. apply (inv_owner _ _ _ _ _ (proj1 Hs)). }
  eapply wp_mono; [by apply wp_keeps, HI| | |].
  - intros [] s1 Hs1. by apply wp_ret.
  - intros e s1. apply InvP_weaken. tauto.
  - intros e s1. apply InvP_weaken. tauto.
Qed.

Lemma lookup_wp ty h s : I s ->
  wp (tfm_crypto_operation_lookup ty h) (fun i => IM i) (fun _ => I) (fun _ => I) s.
Proof.
  intros Hs. unfold tfm_crypto_operation_lookup, tfm_crypto_get_caller_id, operation_at.
  do 2 wp_step; [done|]. do 5 wp_step.
  destruct (operations s !! slot_of h) as [o|] eqn:E; [|by apply wp_stop]. apply wp_ret.
  destruct (in_use o && _ && _) eqn:Hu; [|by apply wp_throw]. apply wp_ret.
  rewrite !andb_true_iff, Z.eqb_eq in Hu. destruct Hs as [Hs _]. split; [done|].
  exists o. split_and!; [done|tauto|]. rewrite <- (inv_owner _ _ _ _ _ Hs). tauto.
Qed.

(** What the first part of a multi-part request ends with. *)
Definition opened (o : option nat) s : Prop :=
  match o with Some i => IM i s | None => I s end.
Definition opened_or {E} (r : E + nat) s : Prop :=
  match r with inr i => IM i s | inl _ => I s end.

Lemma opened_I {E} (r : E + nat) s : opened_or r s -> I s.
Proof. destruct r; [done|]. by apply InvP_weaken. Qed.

Lemma wp_opened {A} {E} (r : E + nat) (m : CR O X A) s :
  (forall P, keeps (InvP P) m) -> opened_or r s ->
  wp m (fun _ => opened_or r) (fun _ => I) (fun _ => I) s.
Proof.
  intros Hm Hs. destruct r as [e|i]; cbn in *; [by apply wp_keeps|].
  eapply wp_mono; [apply wp_keeps, Hs; apply Hm| | |]; cbn; try done;
    intros ? ?; by apply InvP_weaken.
Qed.

Lemma put_handle_all P x : keeps (InvP P) (put_handle x).
Proof. eauto with keeps. Qed.

(** A new operation; the handle of the client is put out first. *)
Lemma setup_wp ty h s : I s ->
  wp (_ ← need_out 0 4; _ ← put_handle h; attempt (tfm_crypto_operation_alloc ty h put_handle))
    (fun r => opened_or r) (fun _ => I) (fun _ => I) s.
Proof.
  intros Hs. apply wp_bind. eapply wp_mono; [apply wp_keeps, Hs; eauto with keeps| |done|done].
  intros ? s1 Hs1. apply wp_bind. eapply wp_mono; [apply wp_keeps, Hs1; eauto with keeps| |done|done].
  intros ? s2 Hs2. apply wp_attempt.
  eapply wp_mono; [apply (alloc_wp (fun _ => True)); [done|apply put_handle_all|done]| |done|done].
  intros i s3. apply InvP_weaken. tauto.
Qed.

(** The client's handle is put out whatever the lookup gave. *)
Lemma client_handle_wp (r : Z + nat) h s : opened_or r s ->
  wp (_ ← need_out 0 4; _ ← put_handle h; mret r) (fun r => opened_or r) (fun _ => I) (fun _ => I) s.
Proof.
  intros Hs. apply wp_bind. eapply wp_mono; [apply (wp_opened r), Hs; eauto with keeps| |done|done].
  intros ? s1 Hs1. apply wp_bind.
  eapply wp_mono; [apply (wp_opened r), Hs1; eauto with keeps| |done|done].
  intros ? s2 Hs2. by apply wp_ret.
Qed.

Lemma open_operation_wp ty setup ends abort iov s : I s ->
  wp (open_operation ty setup ends abort iov) (fun o => opened o) (fun _ => I) (fun _ => I) s.
Proof.
  intros Hs. unfold open_operation. apply wp_bind.
  assert (Hr : forall r : Z + nat, forall s1, opened_or r s1 ->
    wp (match r with
        | inr slot => mret (Some slot)
        | inl err => if abort then mret None else throw err
        end) (fun o => opened o) (fun _ => I) (fun _ => I) s1).
  { intros [e|i] s1 Hs1; [destruct abort|]; by repeat wp_step. }
  destruct setup; [eapply wp_mono; [by apply setup_wp|exact Hr|done|done]|].
  apply wp_bind, wp_attempt. eapply wp_mono; [by apply lookup_wp| | |done]; cbn.
  - intros i s1 Hi. destruct ends; [|apply wp_ret; by apply (Hr (inr i))].
    eapply wp_mono; [by apply (client_handle_wp (inr i))|exact Hr|done|done].
  - intros e s1 He. destruct ends; [|apply wp_ret; by apply (Hr (inl e))].
    eapply wp_mono; [by apply (client_handle_wp (inl e))|exact Hr|done|done].
Qed.
Lemma IM_I slot s : IM slot s -> I s.
Proof. by apply InvP_weaken. Qed.

Lemma leads_IM {A} slot (m : CR O X A) : keeps (IM slot) m -> leads (IM slot) m I.
Proof. intros Hm s Hs. by eapply IM_I, Hm. Qed.

Lemma keeps_bind_wp {A B} (m : CR O X A) (k : A -> CR O X B) R :
  (forall s, I s -> wp m R (fun _ => I) (fun _ => I) s) -> (forall a, leads (R a) (k a) I) ->
  keeps I (a ← m; k a).
Proof.
  intros Hm Hk s Hs. specialize (Hm s Hs). unfold wp in Hm. unfold mbind, M_bind.
  destruct (m s) as [[a|e|h] s1]; [by apply (Hk a)|done..].
Qed.

Lemma keeps_open {A} ty setup ends abort iov (k : option nat -> CR O X A) :
  (forall i, leads (IM i) (k (Some i)) I) -> keeps I (k None) ->
  keeps I (o ← open_operation ty setup ends abort iov; k o).
Proof.
  intros Hs Hn. eapply keeps_bind_wp; [intros; by apply open_operation_wp|].
  intros [i|]; [apply Hs|apply Hn].
Qed.

(** Follow a request that holds an operation to the calls it makes. *)
Ltac leads_op :=
  repeat lazymatch goal with
  | |- forall _, _ => intros ?
  | |- leads _ (if ?b then _ else _) _ => destruct b
  | |- leads _ (let _ := _ in _) _ => cbv zeta
  | |- leads _ (then_release _ _ _ _) _ =>
      apply leads_then_release; [solve [keeps_auto] | intros; solve [keeps_auto]]
  | |- leads _ (x ← input _; then_release _ _ _ _) _ =>
      apply leads_bind; [apply IM_I | apply keeps_input | intros ?]
  | |- leads _ _ _ => apply leads_IM; solve [keeps_auto]
  end.

Lemma mac_operation_keeps iov key : key.(kowner) = p -> keeps I (tfm_crypto_mac_operation iov key).
Proof. intros Hk. unfold tfm_crypto_mac_operation. apply keeps_open; [leads_op|keeps_auto]. Qed.

Lemma cipher_operation_keeps iov key : key.(kowner) = p -> keeps I (tfm_crypto_cipher_operation iov key).
Proof. intros Hk. unfold tfm_crypto_cipher_operation. apply keeps_open; [leads_op|keeps_auto]. Qed.

(** Two output buffers and their lengths. *)
Lemma keeps_put_len2 P {A} i j l l' n n' (k : CR O X A) : i <> j ->
  0 <= n <= Z.of_nat (length l) -> 0 <= n' <= Z.of_nat (length l') -> keeps (InvP P) k ->
  keeps (InvP P) (_ ← put_out i l; _ ← put_out j l'; _ ← set_out_len i n; _ ← set_out_len j n'; k).
Proof.
  intros Hij Hn Hn' Hk s Hs. pose proof (put_out_room _ _ _ P i l s Hs) as Hw. unfold wp in Hw.
  unfold mbind, M_bind. destruct (put_out i l s) as [[[]|e|h] s1]; [|done..].
  destruct Hw as (Hs1 & E1 & Hl). pose proof (put_out_room _ _ _ P j l' s1 Hs1) as Hw. unfold wp in Hw.
  destruct (put_out j l' s1) as [[[]|e|h] s2]; [|done..]. destruct Hw as (Hs2 & E2 & Hl').
  cbn. apply Hk, set_out_len_keeps.
  - apply set_out_len_keeps; [done|]. rewrite E2, E1. lia.
  - cbn. rewrite nth_lookup, list_lookup_alter_ne, <- nth_lookup, E2 by done. lia.
Qed.

Lemma aead_finish_keeps slot : keeps (IM slot) (tfm_crypto_aead_finish slot).
Proof.
  unfold tfm_crypto_aead_finish. apply keeps_bind; [eauto with keeps|]. intros n.
  apply keeps_bind; [eauto with keeps|]. intros t.
  apply keeps_bind; [apply (call_op_keeps _ _ _ Hlib); repeat constructor|]. intros r. cbv zeta.
  apply keeps_put_len2; [done|destruct (pr_status r =? _); lia..|eauto with keeps].
Qed.
#[local] Hint Resolve aead_finish_keeps : keeps.

Lemma aead_operation_keeps iov key : key.(kowner) = p -> keeps I (tfm_crypto_aead_operation iov key).
Proof. intros Hk. unfold tfm_crypto_aead_operation. apply keeps_open; [leads_op|keeps_auto]. Qed.

(** ** Clone *)

Lemma alloc_other slot i f (l : list (tfm_crypto_operation_s O)) :
  (forall x, l !! i = Some x -> x.(in_use) = false) -> mine p slot l -> mine p slot (alter f i l).
Proof.
  intros Hi Hm. apply mine_alter; [|done]. intros ->. destruct Hm as (o & Ho & Hu & _).
  specialize (Hi _ Ho). congruence.
Qed.

Lemma set_operation_keeps slot target op s :
  InvP (fun l => mine p slot l /\ mine p target l) s ->
  InvP (fun l => mine p slot l /\ mine p target l)
    (set_operations (alter (set_operation op) slot s.(operations)) s).
Proof.
  intros [[Ho He [Hn Hl] Hf Hs] [Hm Ht]]. pose proof Hm as (x & Hx & Hu & Hp).
  split; [split|split]; cbn; try done.
  - split; [by rewrite length_alter|]. apply Forall_alter; [done|].
    intros y Hy _ Hfree. cbn in Hfree. congruence.
  - rewrite foreign_alter; [done|]. intros y Hy. rewrite !foreign_none by (right; cbn; congruence). done.
  - by destruct Hs.
  - by apply mine_alter.
  - by apply mine_alter.
Qed.

Abbreviation IMM slot target := (InvP (fun l => mine p slot l /\ mine p target l)).

Lemma clone_call_leads slot target k :
  keeps (IMM slot target) (crypto_call (psa_lib k)) ->
  leads (IMM slot target)
    (r ← crypto_call (psa_lib k);
     _ ← modifyS (fun s => set_operations (alter (set_operation r.(pr_target)) target
           (alter (set_operation r.(pr_op)) slot s.(operations))) s);
     then_release on_failure (Z.of_nat target + 1) put_handle (return_status r.(pr_status))) I.
Proof.
  intros Hk s Hs. specialize (Hk s Hs). unfold mbind at 1, M_bind.
  destruct (crypto_call _ s) as [[r|e|h] s1]; [|by eapply InvP_weaken, Hk..].
  cbn beta iota. cbn in Hk. cbn [mbind M_bind modifyS].
  apply (leads_then_release p F J target); [keeps_auto|intros; keeps_auto|].
  apply (set_operation_keeps _ _ (pr_op r)) in Hk.
  apply (InvP_weaken _ (fun l => mine p target l /\ mine p slot l)) in Hk; [|tauto].
  apply (set_operation_keeps _ _ (pr_target r)) in Hk.
  apply (InvP_weaken _ (mine p target)) in Hk; [done|by intros l []].
Qed.

Lemma clone_leads slot : leads (IM slot) (tfm_crypto_hash_clone slot) I.
Proof.
  unfold tfm_crypto_hash_clone, in_at.
  do 5 (apply leads_bind; [apply IM_I|keeps_auto|intros ?]).
  intros s Hs. unfold mbind, M_bind.
  pose proof (alloc_wp (mine p slot) TFM_CRYPTO_HASH_OPERATION (of_le32 a2) put_handle s) as Hw.
  specialize (Hw (alloc_other slot) put_handle_all Hs). unfold wp in Hw.
  destruct (tfm_crypto_operation_alloc _ _ _ s) as [[t|e|h] s1]; [|by eapply IM_I..].
  unfold gets at 1.
  destruct (operations s1 !! slot), (operations s1 !! t); try (by eapply InvP_weaken, Hw).
  apply clone_call_leads; [|done]. apply (keeps_psa_lib _ _ _ Hlib). constructor.
Qed.

Lemma hash_operation_keeps iov : keeps I (tfm_crypto_hash_operation iov).
Proof.
  unfold tfm_crypto_hash_operation. apply keeps_open; [|keeps_auto].
  intros i. cbv zeta. destruct (_ =? TFM_CRYPTO_HASH_SETUP_SID); [leads_op|].
  destruct (_ =? TFM_CRYPTO_HASH_UPDATE_SID); [leads_op|].
  destruct (_ =? TFM_CRYPTO_HASH_FINISH_SID); [leads_op|].
  destruct (_ =? TFM_CRYPTO_HASH_VERIFY_SID); [leads_op|].
  destruct (_ =? TFM_CRYPTO_HASH_ABORT_SID); [leads_op|].
  destruct (_ =? TFM_CRYPTO_HASH_CLONE_SID); [apply clone_leads|leads_op].
Qed.

(** ** The interfaces *)

Lemma hash_interface_keeps iov : keeps I (tfm_crypto_hash_interface iov).
Proof.
  pose proof (hash_operation_keeps iov). unfold tfm_crypto_hash_interface, single_part. keeps_auto.
Qed.

Lemma mac_interface_keeps iov key : key.(kowner) = p -> keeps I (tfm_crypto_mac_interface iov key).
Proof.
  intros Hk. pose proof (mac_operation_keeps iov key Hk).
  unfold tfm_crypto_mac_interface, single_part. keeps_auto.
Qed.

Lemma cipher_interface_keeps iov key : key.(kowner) = p -> keeps I (tfm_crypto_cipher_interface iov key).
Proof.
  intros Hk. pose proof (cipher_operation_keeps iov key Hk).
  unfold tfm_crypto_cipher_interface, single_part, in_at. keeps_auto.
Qed.

Lemma aead_interface_keeps iov key : key.(kowner) = p -> keeps I (tfm_crypto_aead_interface iov key).
Proof.
  intros Hk. pose proof (aead_operation_keeps iov key Hk).
  unfold tfm_crypto_aead_interface, single_part, aead_in_nonce. keeps_auto.
Qed.

Lemma client_attributes_keeps P : keeps (InvP P) client_attributes.
Proof. unfold client_attributes, in_at. keeps_auto. Qed.
#[local] Hint Resolve client_attributes_keeps : keeps.
#[local] Hint Extern 1 (keeps _ (call_op _ _)) => (apply (call_op_keeps _ _ _ Hlib); intros) : keeps.
#[local] Hint Unfold out_at : keeps.

Lemma kd_setup_or_lookup_wp (setup : bool) ty h s : I s ->
  wp (if setup then
        _ ← need_out 0 4; _ ← put_handle h; attempt (tfm_crypto_operation_alloc ty h put_handle)
      else attempt (tfm_crypto_operation_lookup ty h))
    (fun r => opened_or r) (fun _ => I) (fun _ => I) s.
Proof.
  intros Hs. destruct setup; [by apply setup_wp|]. apply wp_attempt.
  eapply wp_mono; [by apply lookup_wp|done..].
Qed.

Lemma key_derivation_operation_keeps iov key : key.(kowner) = p ->
  keeps I (tfm_crypto_key_derivation_operation iov key).
Proof.
  intros Hk. unfold tfm_crypto_key_derivation_operation.
  eapply keeps_bind_wp; [intros; by apply kd_setup_or_lookup_wp|].
  intros [e|i]; unfold out_at.
  - apply leads_keeps; [by intros|keeps_auto].
  - match goal with |- leads _ ?m _ => change (leads (IM i) m I) end.
    leads_op. do 2 (apply leads_bind; [apply IM_I|keeps_auto|intros ?]).
    apply leads_then_release; [keeps_auto|intros; keeps_auto].
Qed.

Lemma key_derivation_interface_keeps iov key : key.(kowner) = p ->
  keeps I (tfm_crypto_key_derivation_interface iov key).
Proof.
  intros Hk. pose proof (key_derivation_operation_keeps iov key Hk).
  unfold tfm_crypto_key_derivation_interface. keeps_auto.
Qed.

Lemma asymmetric_sign_interface_keeps iov key : key.(kowner) = p ->
  keeps I (tfm_crypto_asymmetric_sign_interface iov key).
Proof. intros Hk. unfold tfm_crypto_asymmetric_sign_interface. keeps_auto. Qed.

Lemma asymmetric_encrypt_interface_keeps iov key : key.(kowner) = p ->
  keeps I (tfm_crypto_asymmetric_encrypt_interface iov key).
Proof. intros Hk. unfold tfm_crypto_asymmetric_encrypt_interface. keeps_auto. Qed.

Lemma key_management_interface_keeps iov key : key.(kowner) = p ->
  keeps I (tfm_crypto_key_management_interface iov key).
Proof.
  intros Hk. unfold tfm_crypto_key_management_interface, make_key, out_at. keeps_auto.
Qed.

Lemma random_interface_keeps iov : keeps I (tfm_crypto_random_interface iov).
Proof. unfold tfm_crypto_random_interface. keeps_auto. Qed.

#[local] Hint Resolve hash_interface_keeps mac_interface_keeps cipher_interface_keeps
  aead_interface_keeps key_derivation_interface_keeps asymmetric_sign_interface_keeps
  asymmetric_encrypt_interface_keeps key_management_interface_keeps random_interface_keeps : keeps.

(** The keys of a request are the caller's: groups without keys call no function with one. *)
Lemma dispatcher_keeps iov : keeps I (tfm_crypto_api_dispatcher iov).
Proof.
  unfold tfm_crypto_api_dispatcher, in_at, tfm_crypto_get_caller_id.
  apply keeps_bind; [auto with keeps|]. intros v. apply keeps_bind; [auto with keeps|]. intros _.
  cbv zeta. set (g := TFM_CRYPTO_GET_GROUP_ID (function_id iov)).
  destruct (negb _) eqn:Hg.
  - apply (keeps_bind_to _ _ _ (fun key => key.(kowner) = p)).
    + apply (keeps_to_bind _ _ _ (eq p)).
      * apply keeps_to_gets. intros s [Hs _]. by rewrite (inv_owner _ _ _ _ _ Hs).
      * intros c <-. by apply keeps_to_ret.
    + intros key Hk. keeps_auto.
  - apply negb_false_iff, orb_true_iff in Hg. rewrite !Z.eqb_eq in Hg.
    destruct Hg as [-> | ->]; apply keeps_bind; [apply keeps_ret|intros key|apply keeps_ret|intros key];
      cbn; keeps_auto.
Qed.
End Handlers.
