(* ===== verification/CryptoRequest.v ===== *)
(** Crypto service: a whole request. *)

From stdpp Require Import base list numbers.
From S2P Require Import Prelude CryptoTypes CryptoAlloc CryptoOps CryptoService CryptoInv CryptoHandlers.

(** The sizes in a message are [size_t]. *)
Definition msg_ok (msg : crypto_msg) : Prop :=
  Forall is_u32 msg.(cm_in_size) /\ Forall is_u32 msg.(cm_out_size).

Section Request.
Context `{!CryptoBuild, !CryptoBuildOk} {O X : Type} `{!CryptoEnv O X}.
Implicit Types (s : crypto_state O X).

(** Between requests: no owner, nothing allocated, nothing left in the memory. *)
Record idle s : Prop := {
  idle_owner : s.(scratch_owner) = 0;
  idle_index : s.(scratch_alloc_index) = 0;
  idle_clear : s.(scratch_buf) = replicate (Z.to_nat CRYPTO_IOVEC_BUFFER_SIZE) 0;
  idle_slots : slots_ok s.(operations);
}.

Section Phases.
Context (p : Z) (F : list (option (tfm_crypto_operation_s O))) (J : X -> Prop).

(** What others can tell of the service. *)
Record others s : Prop := {
  others_env : J s.(crypto_env);
  others_slots : slots_ok s.(operations);
  others_foreign : map (foreign p) s.(operations) = F;
}.
Definition Idle s : Prop := idle s /\ others s.
Abbreviation I0 := (Inv 0 p F J).
Abbreviation I1 := (Inv p p F J).

Lemma Inv_others q s : Inv q p F J s -> others s.
Proof. by intros []. Qed.

(** ** The scratch memory *)

Lemma align_range x : is_u32 x -> x <= UINT32_MAX - 3 ->
  x <= ALIGN x TFM_CRYPTO_IOVEC_ALIGNMENT <= UINT32_MAX.
Proof.
  unfold is_u32, UINT32_MAX. intros Hx Hb. unfold ALIGN, TFM_CRYPTO_IOVEC_ALIGNMENT.
  rewrite u32_small by (unfold is_u32; lia). change (4 - 1) with (Z.ones 2).
  rewrite <- Z.ldiff_land, Z.ldiff_ones_r, Z.shiftl_mul_pow2, Z.shiftr_div_pow2 by lia. change (Z.ones 2) with 3. lia.
Qed.

Lemma vec_ok_grow a b v : a <= b -> vec_ok a v -> vec_ok b v.
Proof. intros Hab [Hl Hb]. split; [done|]. destruct (v_base v); lia. Qed.

Lemma scratch_ok_grow s n : scratch_ok s ->
  s.(scratch_alloc_index) <= n <= CRYPTO_IOVEC_BUFFER_SIZE ->
  scratch_ok (set_scratch_alloc_index n s).
Proof.
  intros [Hi Hs Hc Ho] Hn. split; cbn; [lia|done| |].
  - apply (f_equal (drop (Z.to_nat n - Z.to_nat (scratch_alloc_index s)))) in Hc.
    rewrite drop_drop, drop_replicate in Hc.
    replace (Z.to_nat (scratch_alloc_index s) + _)%nat with (Z.to_nat n) in Hc by lia.
    rewrite Hc. f_equal. lia.
  - revert Ho. apply Forall_impl. intros v. apply vec_ok_grow. lia.
Qed.

Lemma alloc_scratch_wp q size s : is_u32 size -> Inv q p F J s ->
  wp (tfm_crypto_alloc_scratch size)
    (fun b s' => Inv q p F J s' /\ 0 <= b /\ b + size <= s'.(scratch_alloc_index))
    (fun _ => Inv q p F J) (fun _ _ => False) s.
Proof.
  intros Hz [Ho He Hl Hf Hs]. unfold tfm_crypto_alloc_scratch.
  do 2 wp_step; [done|]. pose proof (align_range size Hz) as Ha.
  change (TFM_CRYPTO_IOVEC_ALIGNMENT - 1) with 3 in *.
  do 4 wp_step; [done|]. wp_auto. destruct iovec_buffer_size_ok.
  pose proof (so_index _ Hs). unfold is_u32, UINT32_MAX in *.
  rewrite u32_small in H2 by (unfold is_u32; lia). rewrite u32_small by (unfold is_u32; lia).
  split; [split; try done; apply scratch_ok_grow; [done|lia]|cbn; lia].
Qed.

Lemma clear_scratch_run q s : Inv q p F J s ->
  exists s', tfm_crypto_clear_scratch s = (Val tt, s') /\ Idle s'.
Proof.
  intros [Ho He Hl Hf [Hi Hs Hc Hv]]. eexists. split; [done|]. split; [split|split]; cbn; try done.
  unfold splice. rewrite take_0, app_nil_l. cbn [plus]. rewrite length_replicate, Hc, <- replicate_add. f_equal. lia.
Qed.
Lemma or_clear_wp {A} q (m : CR O X A) Q s :
  wp m Q (fun _ => Inv q p F J) (fun _ => others) s ->
  wp (or_clear m) Q (fun _ => Idle) (fun _ => others) s.
Proof.
  intros Hm. unfold or_clear. apply wp_bind, wp_attempt. eapply wp_mono; [exact Hm|..]; [|cbn|done].
  - intros a s1 Hs1. by apply wp_ret.
  - intros e s1 Hs1. apply wp_bind. destruct (clear_scratch_run q s1 Hs1) as (s2 & E & Hi).
    eapply wp_run; [exact E|]. by apply wp_throw.
Qed.

Lemma keeps_call_inv {A} q (m : M X A) : keeps J m -> keeps (Inv q p F J) (crypto_call m).
Proof.
  intros Hm s [Ho He Hs Hf Hc]. unfold crypto_call. specialize (Hm _ He).
  destruct (m _) as [r x]. split; cbn; try done. by destruct Hc.
Qed.

Lemma keeps_call_others {A} (m : M X A) : keeps J m -> keeps others (crypto_call m).
Proof.
  intros Hm s [He Hs Hf]. unfold crypto_call. specialize (Hm _ He).
  destruct (m _) as [r x]. by split.
Qed.

Lemma call_no_status_wp {A} q (m : X -> (halt + A) * X) s : keeps J (no_status m) -> Inv q p F J s ->
  wp (crypto_call (no_status m)) (fun _ s' => Inv q p F J s' /\ s'.(scratch_alloc_index) = s.(scratch_alloc_index))
    (fun _ _ => False) (fun _ => others) s.
Proof.
  intros Hm Hs. pose proof (keeps_call_inv q _ Hm s Hs) as Hk. revert Hk.
  unfold wp, crypto_call, no_status. destruct (m _) as [[h|a] x]; cbn; [apply Inv_others|done].
Qed.

Lemma Inv_write q s b x : Inv q p F J s -> 0 <= b ->
  b + Z.of_nat (length x) <= s.(scratch_alloc_index) ->
  Inv q p F J (set_scratch_buf (splice s.(scratch_buf) (Z.to_nat b) x) s).
Proof. intros [Ho He Hl Hf Hs] Hb Hx. split; try done. by apply scratch_ok_write. Qed.

Lemma Inv_in_vec q s v : Inv q p F J s -> Inv q p F J (set_in_vec v s).
Proof. intros [Ho He Hl Hf []]. by split. Qed.

Lemma Inv_out_vec q s v : Inv q p F J s -> Forall (vec_ok s.(scratch_alloc_index)) v ->
  Inv q p F J (set_out_vec v s).
Proof. intros [Ho He Hl Hf Hs] Hv. split; try done. by apply scratch_ok_out. Qed.

(** ** The vectors *)

Context (Hread : forall h i n, keeps J (no_status (spm_read h i n))).
Context (Hwrite : forall h i d, keeps J (no_status (spm_write h i d))).

Lemma size_u32 l i : Forall is_u32 l -> is_u32 (nth i l 0).
Proof.
  intros Hl. rewrite nth_lookup. destruct (l !! i) eqn:E; [by eapply Forall_lookup_1, E|].
  by unfold is_u32.
Qed.

Lemma init_invec_wp msg i s : msg_ok msg -> I0 s ->
  wp (init_invec msg i) (fun _ => I0) (fun _ => Idle) (fun _ => others) s.
Proof.
  intros [Hm _] Hs. unfold init_invec, read_into. cbv zeta. apply wp_bind, (or_clear_wp 0).
  eapply wp_mono; [apply alloc_scratch_wp, Hs; by apply size_u32|cbn|done|done].
  intros b s1 (Hs1 & Hb & Hl). do 2 apply wp_bind.
  eapply wp_mono; [by apply call_no_status_wp|cbn|done|done].
  intros d s2 (Hs2 & E). destruct (Z.leb_spec (Z.of_nat (length d)) (nth i (cm_in_size msg) 0)).
  - do 4 wp_step. apply Inv_in_vec, Inv_write; [done|lia..].
  - apply wp_stop. by eapply Inv_others.
Qed.

Lemma init_outvec_wp msg i s : msg_ok msg -> I0 s ->
  wp (init_outvec msg i) (fun _ => I0) (fun _ => Idle) (fun _ => others) s.
Proof.
  intros [_ Hm] Hs. unfold init_outvec. cbv zeta. apply wp_bind, (or_clear_wp 0).
  pose proof (size_u32 _ i Hm) as Hz.
  eapply wp_mono; [by apply alloc_scratch_wp|cbn|done|done].
  intros b s1 (Hs1 & Hb & Hl). apply Inv_out_vec; [done|].
  apply Forall_insert; [apply Hs1|]. destruct Hz. split; cbn; lia.
Qed.

Lemma for_each_wp (K : crypto_state O X -> Prop) Er Ha l body s : K s ->
  (forall i s, K s -> wp (body i) (fun _ => K) Er Ha s) -> wp (for_each l body) (fun _ => K) Er Ha s.
Proof.
  intros Hs Hb. revert s Hs. induction l as [|i l IH]; intros s Hs; [done|]. cbn [for_each].
  apply wp_bind. eapply wp_mono; [by apply Hb|cbn|done|done]. intros _ s1. apply IH.
Qed.

Lemma init_iovecs_wp msg n m s : msg_ok msg -> I0 s ->
  wp (tfm_crypto_init_iovecs msg n m) (fun _ => I0) (fun _ => Idle) (fun _ => others) s.
Proof.
  intros Hm Hs. unfold tfm_crypto_init_iovecs. apply wp_bind.
  apply (wp_mono _ (fun _ => I0) _ (fun _ => Idle) _ (fun _ => others)); [|cbn|done|done].
  - apply for_each_wp; [done|]. intros i s1. by apply init_invec_wp.
  - intros _ s1 Hs1. apply for_each_wp; [done|]. intros i s2 Hs2. by apply init_outvec_wp.
Qed.

Lemma init_vectors_run s : Idle s ->
  exists s', init_vectors s = (Val tt, s') /\ I0 s' /\ Idle s'.
Proof.
  intros [[Ho Hi Hc Hl] [He Hl' Hf]]. eexists. split; [done|]. split; [split|split; split]; try done.
  destruct iovec_buffer_size_ok. split; cbn -[vec_ok].
  - rewrite Hi. lia.
  - rewrite Hc, length_replicate. lia.
  - rewrite Hi, Hc, length_replicate, drop_0. f_equal. lia.
  - by repeat constructor.
Qed.

(** ** The request *)

Context (Hlib : forall c, calls_for p c -> keeps J (psa_lib c)).

Lemma write_back_wp msg i s : I1 s ->
  wp (write_back msg i) (fun _ => I1) (fun _ _ => False) (fun _ => others) s.
Proof.
  intros Hs. unfold write_back, out_at. wp_auto.
  eapply wp_mono; [by apply (call_no_status_wp p)|by intros [] ? []|done|done].
Qed.

Lemma serve_finish_wp msg n status s : I1 s ->
  wp (_ ← for_each (seq 0 n) (write_back msg); _ ← tfm_crypto_clear_scratch; return_status status)
    (fun _ => Idle) (fun _ => Idle) (fun _ => others) s.
Proof.
  intros Hs. apply wp_bind.
  apply (wp_mono _ (fun _ => I1) _ (fun _ _ => False) _ (fun _ => others)); [|cbn|done|done].
  - apply for_each_wp; [done|]. intros i s1. apply write_back_wp.
  - intros _ s1 Hs1. apply wp_bind. destruct (clear_scratch_run p s1 Hs1) as (s2 & E & Hi).
    eapply wp_run; [exact E|]. unfold return_status. by wp_auto.
Qed.

Lemma dispatch_wp iov s : I1 s ->
  wp (status_of (tfm_crypto_api_dispatcher iov)) (fun _ => I1) (fun _ _ => False) (fun _ => others) s.
Proof.
  intros Hs. apply wp_status_of.
  eapply wp_mono; [apply wp_keeps; [by apply (dispatcher_keeps p F J)|done]|..].
  - by intros [] s1 [H1 _].
  - by intros e s1 [H1 _].
  - intros h s1 [H1 _]. by eapply Inv_others.
Qed.

Lemma set_caller_id_run s : I0 s ->
  exists s', tfm_crypto_set_caller_id p s = (Val tt, s') /\ I1 s'.
Proof. intros [Ho He Hl Hf []]. eexists. by split; [|split; [| | | |split]]. Qed.

Lemma read_iov_wp h s : I0 s -> Idle s ->
  wp (crypto_call (no_status (spm_read h 0 sizeof_iovec))) (fun _ s' => I0 s' /\ Idle s')
    (fun _ _ => False) (fun _ => others) s.
Proof.
  intros Hs Hi. pose proof (call_no_status_wp 0 _ s (Hread h 0 sizeof_iovec) Hs) as Hw.
  pose proof (keeps_call_others _ (Hread h 0 sizeof_iovec) s (proj2 Hi)) as Ho.
  revert Hw Ho. unfold wp, crypto_call. destruct (no_status _ _) as [[a|e|h'] x]; cbn; try tauto.
  intros [Hw _] Ho. split; [done|]. destruct Hi as [[] _]. by split.
Qed.

Lemma call_srv_wp msg s : msg_ok msg -> msg.(cm_client_id) = p -> Idle s ->
  wp (tfm_crypto_call_srv msg) (fun _ => Idle) (fun _ => Idle) (fun _ => others) s.
Proof.
  intros Hm Hp Hs. unfold tfm_crypto_call_srv. cbv zeta. apply wp_bind.
  destruct (init_vectors_run s Hs) as (s1 & E1 & H1 & Hi1). eapply wp_run; [exact E1|].
  do 2 wp_step; [done|]. apply wp_bind. clear s Hs E1.
  eapply wp_mono; [by apply read_iov_wp|cbn|done|done]. intros d s (H0' & Hi).
  do 2 wp_step; [done|]. do 3 wp_step.
  eapply wp_mono; [by apply init_iovecs_wp, Inv_in_vec|cbn|done|done]. intros _ s2 H2'.
  rewrite Hp. apply wp_bind. destruct (set_caller_id_run s2 H2') as (s3 & E3 & H3').
  eapply wp_run; [exact E3|]. apply wp_bind.
  eapply wp_mono; [by apply dispatch_wp|cbn|done|done]. intros status s4 H4'. by apply serve_finish_wp.
Qed.

(** A request of [p] leaves the service idle, whatever its outcome; if it does not
    return, it still left the others alone. *)
Lemma sfn_wp msg s : msg_ok msg -> msg.(cm_client_id) = p -> Idle s ->
  wp (tfm_crypto_sfn msg) (fun _ => Idle) (fun _ => Idle) (fun _ => others) s.
Proof.
  intros Hm Hp Hs. unfold tfm_crypto_sfn. destruct (_ =? _); [by apply call_srv_wp|].
  by apply wp_throw.
Qed.
End Phases.
End Request.
