(* ===== verification/CryptoSlots.v ===== *)
(** Crypto service: the slots as a finite map from handles to operations. *)

From stdpp Require Import base list numbers gmap fin_maps.
From S2P Require Import Prelude CryptoTypes CryptoAlloc CryptoOps CryptoService CryptoInv.

Section Slots.
Context `{!CryptoBuild} {O X : Type} `{!CryptoEnv O X}.
Implicit Types (s : crypto_state O X) (l : list (tfm_crypto_operation_s O)).

Definition view (o : tfm_crypto_operation_s O) : option (Z * tfm_crypto_operation_type * O) :=
  if o.(in_use) then Some (o.(owner), o.(type), o.(operation)) else None.
(** The operations the service holds, by slot (the handle minus one). *)
Definition held l : gmap nat (Z * tfm_crypto_operation_type * O) := omap view (map_seq 0 l).

Lemma lookup_held l i : held l !! i = l !! i ≫= view.
Proof. unfold held. by rewrite lookup_omap, lookup_map_seq_0. Qed.

Lemma held_alter_some l i o f v : l !! i = Some o -> view (f o) = Some v ->
  held (alter f i l) = <[i := v]> (held l).
Proof.
  intros Hi Hv. apply map_eq. intros j. rewrite lookup_held.
  destruct (decide (j = i)) as [->|].
  - by rewrite list_lookup_alter_eq, Hi, lookup_insert_eq.
  - by rewrite list_lookup_alter_ne, lookup_insert_ne, lookup_held by done.
Qed.

Lemma held_insert_none l i o x : l !! i = Some o -> view x = None ->
  held (<[i := x]> l) = delete i (held l).
Proof.
  intros Hi Hv. apply map_eq. intros j. rewrite lookup_held.
  destruct (decide (j = i)) as [->|].
  - rewrite list_lookup_insert_eq by (by eapply lookup_lt_Some). by rewrite lookup_delete_eq.
  - by rewrite list_lookup_insert_ne, lookup_delete_ne, lookup_held by done.
Qed.

Lemma first_free_none l : forall k, first_free k l = None -> forall i, (i < length l)%nat -> is_Some (held l !! i).
Proof.
  intros k Hk i Hi. rewrite lookup_held. revert k i Hk Hi.
  induction l as [|o l IH]; intros k i Hk Hi; cbn in *; [lia|].
  destruct (in_use o) eqn:E; [|done]. destruct i as [|i]; cbn; [|by eapply (IH (S k)); [|lia]].
  unfold view. rewrite E. eauto.
Qed.

Lemma held_free l i : l !! i = Some free_operation -> held l !! i = None.
Proof. rewrite lookup_held. by intros ->. Qed.

Lemma slots_ok_fill l i f : slots_ok l -> (forall o, (f o).(in_use) = true) -> slots_ok (alter f i l).
Proof.
  intros [Hn Hl] Hf. split; [by rewrite length_alter|]. apply Forall_alter; [done|].
  intros x _ _ Hx. by rewrite Hf in Hx.
Qed.

(** A store of handles: in the states [R] it runs and changes the scratch memory only. *)
Class Stores (R : crypto_state O X -> Prop) (put : Z -> CR O X unit) : Prop := {
  stores_run x s : R s ->
    exists buf, put x s = (Val tt, set_scratch_buf buf s) /\ R (set_scratch_buf buf s);
  stores_operations l s : R s -> R (set_operations l s);
}.

Section Alloc.
Context (R : crypto_state O X -> Prop) (put : Z -> CR O X unit) `{!Stores R put}.

Lemma alloc_held p ty s : R s -> slots_ok s.(operations) -> s.(scratch_owner) = p ->
  wp (tfm_crypto_operation_alloc ty TFM_CRYPTO_INVALID_HANDLE put)
    (fun i s' => (i < CRYPTO_CONC_OPER_NUM)%nat /\ held s.(operations) !! i = None /\
       held s'.(operations) = <[i := (p, ty, op_zero)]> (held s.(operations)) /\
       (exists l buf, put (Z.of_nat i + 1) (set_operations l s) = (Val tt, s') /\ slots_ok l /\
          s' = set_scratch_buf buf (set_operations l s)) /\ R s')
    (fun e s' => e = PSA_ERROR_NOT_PERMITTED /\ s' = s /\
       forall i, (i < CRYPTO_CONC_OPER_NUM)%nat -> is_Some (held s.(operations) !! i))
    (fun _ _ => False) s.
Proof.
  intros HR [Hn Hl] Hp. unfold tfm_crypto_operation_alloc, tfm_crypto_get_caller_id.
  do 2 wp_step; [done|]. do 4 wp_step. destruct (first_free 0 (operations s)) as [i|] eqn:E.
  - destruct (first_free_some _ _ _ E) as (j & o & -> & Hi & Hu). cbn [plus] in *.
    do 3 wp_step. edestruct stores_run as (buf & Es & HR'); [by apply stores_operations, HR|].
    eapply wp_run; [exact Es|]. apply wp_ret. cbn [operations set_scratch_buf set_operations].
    assert (o = free_operation) as -> by (by apply (proj1 (Forall_lookup _ _) Hl j)).
    split_and!; [rewrite <- Hn; by eapply lookup_lt_Some|by apply held_free| |do 2 eexists; split_and!|done];
      [eapply held_alter_some; [done|]; cbn; by rewrite Hp|exact Es| |done].
    by apply slots_ok_fill.
  - apply wp_throw. split_and!; [done..|]. intros i Hi. eapply first_free_none; [done|lia].
Qed.
End Alloc.

Lemma operation_at_valid h s : slots_ok s.(operations) -> valid_handle h = true -> is_u32 h ->
  exists o, s.(operations) !! slot_of h = Some o /\ h = Z.of_nat (slot_of h) + 1.
Proof.
  intros [Hn _] Hv Hh. unfold valid_handle, slot_of, is_u32, TFM_CRYPTO_INVALID_HANDLE in *.
  destruct (lookup_lt_is_Some_2 (operations s) (Z.to_nat (h - 1))) as [o Ho]; [lia|].
  exists o. split; [done|lia].
Qed.

(** The operation a client's handle names. *)
Definition of_handle l (h : Z) : option (Z * tfm_crypto_operation_type * O) :=
  if valid_handle h then held l !! slot_of h else None.

Lemma of_handle_valid s h o : valid_handle h = true -> s.(operations) !! slot_of h = Some o ->
  of_handle s.(operations) h = view o.
Proof. intros Hv Ho. unfold of_handle. by rewrite Hv, lookup_held, Ho. Qed.

Lemma of_handle_new l i v : (i < CRYPTO_CONC_OPER_NUM)%nat -> held l !! i = Some v ->
  of_handle l (Z.of_nat i + 1) = Some v.
Proof.
  intros Hi Hl. unfold of_handle, valid_handle, slot_of, TFM_CRYPTO_INVALID_HANDLE.
  rewrite andb_true_intro by lia. by replace (Z.to_nat _) with i by lia.
Qed.

Lemma lookup_held_wp p ty h s : slots_ok s.(operations) -> s.(scratch_owner) = p -> is_u32 h ->
  wp (tfm_crypto_operation_lookup ty h)
    (fun i s' => s' = s /\ i = slot_of h /\ exists o, of_handle s.(operations) h = Some (p, ty, o))
    (fun e s' => s' = s /\ e = PSA_ERROR_BAD_STATE /\
       forall o, of_handle s.(operations) h <> Some (p, ty, o))
    (fun _ _ => False) s.
Proof.
  intros Hs Hp Hh. unfold tfm_crypto_operation_lookup, tfm_crypto_get_caller_id, operation_at.
  do 2 wp_step.
  { split_and!; [done..|]. intros o. unfold of_handle. by destruct (valid_handle h). }
  destruct (operation_at_valid h s Hs) as (o & Ho & _); [by destruct (valid_handle h)|done|].
  do 5 wp_step. rewrite Ho. apply wp_ret.
  rewrite (of_handle_valid s h o) by (by destruct (valid_handle h)). unfold view.
  destruct (in_use o); cbn [andb]; [|apply wp_throw; by split_and!].
  case_bool_decide as Ht; cbn [andb]; [|apply wp_throw; split_and!; [done..|congruence]].
  destruct (Z.eqb_spec (owner o) (scratch_owner s)); [apply wp_ret|apply wp_throw].
  - split_and!; [done..|]. exists (operation o). congruence.
  - split_and!; [done..|congruence].
Qed.

Lemma release_held_wp R `{!Stores R put} p h s : R s -> slots_ok s.(operations) ->
  s.(scratch_owner) = p -> is_u32 h ->
  wp (tfm_crypto_operation_release h put)
    (fun _ s' => (exists ty o, of_handle s.(operations) h = Some (p, ty, o)) /\
       held s'.(operations) = delete (slot_of h) (held s.(operations)) /\
       exists l buf, put TFM_CRYPTO_INVALID_HANDLE s = (Val tt, set_scratch_buf buf s) /\
         s' = set_operations l (set_scratch_buf buf s))
    (fun e s' => e = PSA_ERROR_INVALID_ARGUMENT /\ s'.(operations) = s.(operations) /\
       forall ty o, of_handle s.(operations) h <> Some (p, ty, o))
    (fun _ _ => False) s.
Proof.
  intros HR Hs Hp Hh. unfold tfm_crypto_operation_release, tfm_crypto_get_caller_id, operation_at.
  apply wp_bind. destruct (stores_run TFM_CRYPTO_INVALID_HANDLE s HR) as (buf & E & _).
  eapply wp_run; [exact E|]. set (s1 := set_scratch_buf buf s).
  change (operations s) with (operations s1) in *. change (scratch_owner s) with (scratch_owner s1) in Hp.
  do 2 wp_step.
  { split_and!; [done..|]. intros ty o. unfold of_handle. by destruct (valid_handle h). }
  destruct (operation_at_valid h s1 Hs) as (o & Ho & _); [by destruct (valid_handle h)|done|].
  do 5 wp_step. rewrite Ho. apply wp_ret.
  rewrite (of_handle_valid s1 h o) by (by destruct (valid_handle h)). unfold view.
  destruct (in_use o) eqn:Eu; cbn [andb]; [|apply wp_throw; by split_and!].
  destruct (Z.eqb_spec (owner o) (scratch_owner s1)); [apply wp_modifyS|apply wp_throw].
  - split; [exists (type o), (operation o); congruence|].
    split; [by eapply held_insert_none|by do 2 eexists].
  - split_and!; [done..|congruence].
Qed.

(** C15: the slots of [crypto_alloc.c] implement a finite map from handles to
    operations.  An allocation adds a fresh handle, with the caller as its owner and
    a context that is all zeros, or refuses when every slot is taken and changes
    nothing; a lookup finds the operation of a handle exactly when the caller owns
    it and it has the type asked for; a release removes it exactly when the caller
    owns it. *)
Theorem crypto_slots_refine R put `{!Stores R put} p s :
  R s -> slots_ok s.(operations) -> s.(scratch_owner) = p ->
  (forall ty, wp (tfm_crypto_operation_alloc ty TFM_CRYPTO_INVALID_HANDLE put)
     (fun i s' => of_handle s.(operations) (Z.of_nat i + 1) = None /\
        held s'.(operations) = <[i := (p, ty, op_zero)]> (held s.(operations)) /\
        of_handle s'.(operations) (Z.of_nat i + 1) = Some (p, ty, op_zero))
     (fun e s' => e = PSA_ERROR_NOT_PERMITTED /\ s' = s /\
        forall i, (i < CRYPTO_CONC_OPER_NUM)%nat -> is_Some (held s.(operations) !! i))
     (fun _ _ => False) s) /\
  (forall ty h, is_u32 h -> wp (tfm_crypto_operation_lookup ty h)
     (fun i s' => s' = s /\ i = slot_of h /\ exists o, of_handle s.(operations) h = Some (p, ty, o))
     (fun e s' => s' = s /\ e = PSA_ERROR_BAD_STATE /\
        forall o, of_handle s.(operations) h <> Some (p, ty, o))
     (fun _ _ => False) s) /\
  (forall h, is_u32 h -> wp (tfm_crypto_operation_release h put)
     (fun _ s' => (exists ty o, of_handle s.(operations) h = Some (p, ty, o)) /\
        held s'.(operations) = delete (slot_of h) (held s.(operations)))
     (fun e s' => e = PSA_ERROR_INVALID_ARGUMENT /\ s'.(operations) = s.(operations) /\
        forall ty o, of_handle s.(operations) h <> Some (p, ty, o))
     (fun _ _ => False) s).
Proof.
  intros HR Hs Hp. split_and!; [|intros; by apply lookup_held_wp|].
  - intros ty. eapply wp_mono; [by apply (alloc_held R)| |done|done].
    intros i s' (Hi & Hfree & Hheld & _). split_and!; [|done|].
    + unfold of_handle, slot_of. replace (Z.to_nat _) with i by lia. by destruct (valid_handle _).
    + apply of_handle_new; [done|]. by rewrite Hheld, lookup_insert_eq.
  - intros h Hh. eapply wp_mono; [by apply (release_held_wp R)| |done|done].
    intros [] s' (H1 & H2 & _). done.
Qed.
End Slots.
