(* ===== verification/CryptoMultipart.v ===== *)
(** Crypto service: the life of a multi-part operation.

    The requests that begin one ([setups]) and the requests that abandon one
    ([aborts]), of every kind of operation, and what they do to the operations the
    service holds. *)

From stdpp Require Import base list numbers gmap.
From S2P Require Import Prelude CryptoTypes CryptoAlloc CryptoOps CryptoService CryptoInv CryptoSlots.

(** Decide the comparisons of identifiers. *)
Ltac sid_eval :=
  cbv zeta; repeat match goal with
  | |- context [?a =? ?b] =>
      let v := eval vm_compute in (a =? b) in
      match v with true => idtac | false => idtac end; change (a =? b) with v
  end; cbn [negb orb].

Section Multipart.
Context `{!CryptoBuild} {O X : Type} `{!CryptoEnv O X}.
Implicit Types (s : crypto_state O X) (iov : tfm_crypto_pack_iovec) (key : tfm_crypto_key_id_s).

(** ** The handle of the client *)

(** [out_vec[0]] has room for a handle. *)
Definition room s : Prop := exists b n,
  nth 0 s.(out_vec) no_vec = {| v_base := Some b; v_len := n |} /\
  4 <= n /\ 0 <= b /\ b + 4 <= Z.of_nat (length s.(scratch_buf)).
Definition handle_out s : Z :=
  match v_base (nth 0 s.(out_vec) no_vec) with
  | Some b => of_le32 (slice s.(scratch_buf) (Z.to_nat b) 4)
  | None => 0
  end.

Lemma slice_splice l i x : (i + length x <= length l)%nat -> slice (splice l i x) i (length x) = x.
Proof.
  intros Hl. apply list_eq. intros j. destruct (decide (j < length x)%nat).
  - rewrite lookup_slice, lookup_splice, decide_True by lia. f_equal. lia.
  - rewrite !lookup_ge_None_2; [done|lia|]. unfold slice. rewrite length_take. lia.
Qed.

Lemma put_handle_run x s : room s ->
  exists buf, put_handle x s = (Val tt, set_scratch_buf buf s) /\ room (set_scratch_buf buf s) /\
    (is_u32 x -> handle_out (set_scratch_buf buf s) = x).
Proof.
  intros (b & n & E & Hn & Hb & Hl). unfold put_handle, put_out, out_at. rewrite bind_gets, E.
  cbn -[splice]. destruct (Z.leb_spec (Z.of_nat 4) n); [|lia]. eexists. split; [done|]. split.
  - exists b, n. cbn -[splice]. rewrite length_splice by (cbn; lia). done.
  - intros Hx. unfold handle_out. cbn -[splice slice le32]. rewrite E. cbn -[splice slice le32].
    change 4%nat with (length (le32 x)). rewrite slice_splice by (cbn; lia).
    rewrite <- (app_nil_r (le32 x)). by apply of_le32_le32.
Qed.

#[export] Instance room_stores : Stores room put_handle.
Proof.
  split; [|done]. intros x s Hs. destruct (put_handle_run x s Hs) as (buf & ? & ? & _). eauto.
Qed.

Lemma need_out_run s : room s -> need_out 0 4 s = (Val tt, s).
Proof.
  intros (b & n & E & Hn & _). unfold need_out, out_at. rewrite bind_gets, E. cbn.
  by rewrite (proj2 (Z.ltb_ge n 4)) by lia.
Qed.

(** ** Calls on the operation of a slot *)

Lemma call_op_run slot c s o r x' : s.(operations) !! slot = Some o ->
  psa_lib (c o.(operation)) s.(crypto_env) = (Val r, x') ->
  call_op slot c s = (Val r, set_operations (alter (set_operation r.(pr_op)) slot s.(operations))
    (set_crypto_env x' s)).
Proof.
  intros Ho Hr. unfold call_op. rewrite bind_gets, Ho.
  erewrite bind_val by (unfold crypto_call; by rewrite Hr). done.
Qed.

Lemma held_lookup l i v : held l !! i = Some v ->
  exists o : tfm_crypto_operation_s O, l !! i = Some o /\ view o = Some v /\ o.(in_use) = true.
Proof.
  rewrite lookup_held. destruct (l !! i) as [o|]; [|done]. cbn. intros Hv. exists o.
  split_and!; [done..|]. unfold view in Hv. by destruct (in_use o).
Qed.

Lemma slots_ok_set_operation op i l v : slots_ok l -> held l !! i = Some v ->
  slots_ok (alter (set_operation op) i l).
Proof.
  intros [Hn Hl] (o & Ho & _ & Hu)%held_lookup. split; [by rewrite length_alter|].
  apply Forall_alter; [done|]. intros x Hx _ Hfree. cbn in Hfree. congruence.
Qed.

Lemma op_status_held p ty i o c s r x' :
  held s.(operations) !! i = Some (p, ty, o) ->
  psa_lib (c o) s.(crypto_env) = (Val r, x') ->
  exists l, op_status i c s = return_status r.(pr_status) (set_operations l (set_crypto_env x' s)) /\
    held l = <[i := (p, ty, r.(pr_op))]> (held s.(operations)) /\
    (slots_ok s.(operations) -> slots_ok l).
Proof.
  intros Hh Hr. pose proof (held_lookup _ _ _ Hh) as (x & Hx & Hv & Hu).
  unfold view in Hv. rewrite Hu in Hv. injection Hv as H1 H2 H3. subst.
  eexists. split; [unfold op_status; by erewrite bind_val by (by eapply call_op_run)|]. split.
  - eapply held_alter_some; [done|]. unfold view. cbn. by rewrite Hu.
  - intros Hs. by eapply slots_ok_set_operation.
Qed.

(** An operation that [then_release] frees. *)
Lemma release_owned p ty i o s : (i < CRYPTO_CONC_OPER_NUM)%nat -> Z.of_nat CRYPTO_CONC_OPER_NUM < 2 ^ 32 ->
  room s -> slots_ok s.(operations) -> s.(scratch_owner) = p ->
  held s.(operations) !! i = Some (p, ty, o) ->
  wp (status_of (tfm_crypto_operation_release (Z.of_nat i + 1) put_handle))
    (fun _ s' => held s'.(operations) = delete i (held s.(operations)) /\ handle_out s' = 0 /\
       s'.(crypto_env) = s.(crypto_env))
    (fun _ _ => False) (fun _ _ => False) s.
Proof.
  intros Hi Hn Hr Hs Hp Hh. apply wp_status_of.
  pose proof (of_handle_new _ _ _ Hi Hh) as Hof.
  eapply wp_mono; [apply (release_held_wp room p); try done; unfold is_u32; lia|..|done]; cbn.
  - intros _ s' (_ & Hd & l & buf & Hput & ->).
    replace (slot_of _) with i in Hd by (unfold slot_of; lia). split_and!; [done| |done].
    destruct (put_handle_run TFM_CRYPTO_INVALID_HANDLE s Hr) as (buf' & Hput' & _ & Hout).
    assert (set_scratch_buf buf s = set_scratch_buf buf' s) as E by congruence.
    change (handle_out (set_scratch_buf buf s) = 0). rewrite E. by apply Hout.
  - intros e s' (_ & _ & Hne). by destruct (Hne ty o).
Qed.

(** ** Beginning an operation *)

(** A request that begins an operation: its identifier and group, the type of the
    operation, the call of the library on the new context, and the interface. *)
Record setup := {
  su_sid : Z;
  su_group : Z;
  su_type : tfm_crypto_operation_type;
  su_call : tfm_crypto_pack_iovec -> tfm_crypto_key_id_s -> O -> psa_call O;
  su_run : tfm_crypto_pack_iovec -> tfm_crypto_key_id_s -> CR O X unit;
}.

Definition setups : list setup :=
  [ {| su_sid := TFM_CRYPTO_HASH_SETUP_SID; su_group := TFM_CRYPTO_GROUP_ID_HASH;
       su_type := TFM_CRYPTO_HASH_OPERATION; su_call := fun iov _ o => psa_hash_setup _ o iov.(alg);
       su_run := fun iov _ => tfm_crypto_hash_interface iov |};
    {| su_sid := TFM_CRYPTO_MAC_SIGN_SETUP_SID; su_group := TFM_CRYPTO_GROUP_ID_MAC;
       su_type := TFM_CRYPTO_MAC_OPERATION; su_call := fun iov k o => psa_mac_sign_setup _ o k iov.(alg);
       su_run := tfm_crypto_mac_interface |};
    {| su_sid := TFM_CRYPTO_MAC_VERIFY_SETUP_SID; su_group := TFM_CRYPTO_GROUP_ID_MAC;
       su_type := TFM_CRYPTO_MAC_OPERATION; su_call := fun iov k o => psa_mac_verify_setup _ o k iov.(alg);
       su_run := tfm_crypto_mac_interface |};
    {| su_sid := TFM_CRYPTO_CIPHER_ENCRYPT_SETUP_SID; su_group := TFM_CRYPTO_GROUP_ID_CIPHER;
       su_type := TFM_CRYPTO_CIPHER_OPERATION;
       su_call := fun iov k o => psa_cipher_encrypt_setup _ o k iov.(alg);
       su_run := tfm_crypto_cipher_interface |};
    {| su_sid := TFM_CRYPTO_CIPHER_DECRYPT_SETUP_SID; su_group := TFM_CRYPTO_GROUP_ID_CIPHER;
       su_type := TFM_CRYPTO_CIPHER_OPERATION;
       su_call := fun iov k o => psa_cipher_decrypt_setup _ o k iov.(alg);
       su_run := tfm_crypto_cipher_interface |};
    {| su_sid := TFM_CRYPTO_AEAD_ENCRYPT_SETUP_SID; su_group := TFM_CRYPTO_GROUP_ID_AEAD;
       su_type := TFM_CRYPTO_AEAD_OPERATION;
       su_call := fun iov k o => psa_aead_encrypt_setup _ o k iov.(alg);
       su_run := tfm_crypto_aead_interface |};
    {| su_sid := TFM_CRYPTO_AEAD_DECRYPT_SETUP_SID; su_group := TFM_CRYPTO_GROUP_ID_AEAD;
       su_type := TFM_CRYPTO_AEAD_OPERATION;
       su_call := fun iov k o => psa_aead_decrypt_setup _ o k iov.(alg);
       su_run := tfm_crypto_aead_interface |};
    {| su_sid := TFM_CRYPTO_KEY_DERIVATION_SETUP_SID; su_group := TFM_CRYPTO_GROUP_ID_KEY_DERIVATION;
       su_type := TFM_CRYPTO_KEY_DERIVATION_OPERATION;
       su_call := fun iov _ o => psa_key_derivation_setup _ o iov.(alg);
       su_run := tfm_crypto_key_derivation_interface |} ].

(** What each of them does, in the order of the code. *)
Definition begin_operation ty iov (c : O -> psa_call O) : CR O X unit :=
  i ← (_ ← need_out 0 4;
       _ ← put_handle iov.(op_handle);
       tfm_crypto_operation_alloc ty iov.(op_handle) put_handle);
  then_release on_failure (Z.of_nat i + 1) put_handle (op_status i c).

Lemma open_setup ty ends iov (k : option nat -> CR O X unit) s :
  (o ← open_operation ty true ends false iov; k o) s =
    (i ← (_ ← need_out 0 4; _ ← put_handle iov.(op_handle);
          tfm_crypto_operation_alloc ty iov.(op_handle) put_handle); k (Some i)) s.
Proof.
  unfold open_operation, attempt, mbind, M_bind. destruct (need_out 0 4 s) as [[] s1]; [|done..].
  destruct (put_handle _ s1) as [[] s2]; [|done..].
  by destruct (tfm_crypto_operation_alloc _ _ _ s2) as [[] s3].
Qed.

Lemma setup_is_begin k iov key s : k ∈ setups -> module_enabled k.(su_group) = true ->
  iov.(function_id) = k.(su_sid) -> k.(su_run) iov key s = begin_operation k.(su_type) iov (k.(su_call) iov key) s.
Proof.
  intros Hk Hm Hid. unfold setups in Hk. rewrite !elem_of_cons, elem_of_nil in Hk.
  destruct_or! Hk; try done; subst k; cbn in Hm, Hid |- *.
  1: unfold tfm_crypto_hash_interface, tfm_crypto_hash_operation.
  2-3: unfold tfm_crypto_mac_interface, tfm_crypto_mac_operation.
  4-5: unfold tfm_crypto_cipher_interface, tfm_crypto_cipher_operation.
  6-7: unfold tfm_crypto_aead_interface, tfm_crypto_aead_operation.
  8: unfold tfm_crypto_key_derivation_interface, tfm_crypto_key_derivation_operation.
  all: rewrite Hm, Hid; sid_eval.
  1-7: apply open_setup.
  unfold begin_operation, attempt, mbind, M_bind. destruct (need_out 0 4 s) as [[] s1]; [|done..].
  destruct (put_handle _ s1) as [[] s2]; [|done..].
  by destruct (tfm_crypto_operation_alloc _ _ _ s2) as [[] s3].
Qed.

Lemma wp_runs_as {S A} (m m' : M S A) Q E Ha (t t' : S) : m t = m' t' -> wp m' Q E Ha t' -> wp m Q E Ha t.
Proof. unfold wp. by intros ->. Qed.

(** The new operation is in place and its handle is out. *)
Record begun p ty s (i : nat) s' : Prop := {
  bg_slot : (i < CRYPTO_CONC_OPER_NUM)%nat;
  bg_fresh : held s.(operations) !! i = None;
  bg_held : held s'.(operations) = <[i := (p, ty, op_zero)]> (held s.(operations));
  bg_slots : slots_ok s'.(operations);
  bg_room : room s';
  bg_out : handle_out s' = Z.of_nat i + 1;
  bg_env : s'.(crypto_env) = s.(crypto_env);
  bg_owner : s'.(scratch_owner) = p;
}.

Lemma begun_wp p ty iov s : room s -> slots_ok s.(operations) -> s.(scratch_owner) = p ->
  Z.of_nat CRYPTO_CONC_OPER_NUM < 2 ^ 32 -> iov.(op_handle) = TFM_CRYPTO_INVALID_HANDLE ->
  wp (_ ← need_out 0 4; _ ← put_handle iov.(op_handle);
      tfm_crypto_operation_alloc ty iov.(op_handle) put_handle) (begun p ty s)
    (fun e s' => e = PSA_ERROR_NOT_PERMITTED /\ s'.(operations) = s.(operations) /\
       handle_out s' = 0 /\ s'.(crypto_env) = s.(crypto_env) /\
       forall i, (i < CRYPTO_CONC_OPER_NUM)%nat -> is_Some (held s.(operations) !! i))
    (fun _ _ => False) s.
Proof.
  intros Hr Hs Hp Hn Hh. rewrite Hh. apply wp_bind.
  eapply wp_run; [by apply need_out_run|]. apply wp_bind.
  destruct (put_handle_run TFM_CRYPTO_INVALID_HANDLE s Hr) as (b0 & E0 & Hr0 & Ho0).
  eapply wp_run; [exact E0|].
  eapply wp_mono; [by apply (alloc_held room put_handle p)|..|done]; cbn.
  - intros i s' (Hi & Hf & Hheld & (l & buf & Hput & Hl & ->) & HR).
    destruct (put_handle_run (Z.of_nat i + 1) (set_operations l (set_scratch_buf b0 s)))
      as (b1 & E1 & _ & Ho1); [done|].
    split; try done. assert (E : forall x y : crypto_state O X, (Val tt, x) = (Val tt, y) -> x = y)
      by congruence. rewrite (E _ _ (eq_trans (eq_sym Hput) E1)). apply Ho1. unfold is_u32. lia.
  - intros e s' (-> & -> & Hfull). split_and!; try done. by apply Ho0.
Qed.

(** A request that begins an operation, of any kind.  When it succeeds, the
    service holds exactly one operation more: under a handle that named none, it
    belongs to the caller, has the right type and is what the library made of an
    all-zero context; the caller receives that handle.  When it fails, because the
    slots are taken or because the library refuses, the service holds what it held
    and the caller receives handle 0: a failed set-up leaks no slot. *)
Theorem multipart_setup k iov key p s r x' :
  k ∈ setups -> module_enabled k.(su_group) = true -> iov.(function_id) = k.(su_sid) ->
  iov.(op_handle) = TFM_CRYPTO_INVALID_HANDLE ->
  Z.of_nat CRYPTO_CONC_OPER_NUM < 2 ^ 32 ->
  room s -> slots_ok s.(operations) -> s.(scratch_owner) = p ->
  psa_lib (k.(su_call) iov key op_zero) s.(crypto_env) = (Val r, x') ->
  wp (k.(su_run) iov key)
    (fun _ s' => r.(pr_status) = PSA_SUCCESS /\ s'.(crypto_env) = x' /\
       exists i, held s.(operations) !! i = None /\ handle_out s' = Z.of_nat i + 1 /\
         held s'.(operations) = <[i := (p, k.(su_type), r.(pr_op))]> (held s.(operations)))
    (fun e s' => held s'.(operations) = held s.(operations) /\ handle_out s' = 0 /\
       ((e = PSA_ERROR_NOT_PERMITTED /\ s'.(crypto_env) = s.(crypto_env) /\
         forall i, (i < CRYPTO_CONC_OPER_NUM)%nat -> is_Some (held s.(operations) !! i)) \/
        (e = r.(pr_status) /\ e <> PSA_SUCCESS /\ s'.(crypto_env) = x')))
    (fun _ _ => False) s.
Proof.
  intros Hk Hm Hid Hh Hn Hr Hs Hp Hlib.
  eapply wp_ext; [by apply setup_is_begin|]. unfold begin_operation. apply wp_bind.
  eapply wp_mono; [by apply (begun_wp p)| | |done].
  2: { intros e s' (-> & Ho & Hout & He & Hfull). rewrite Ho. split_and!; [done..|by left]. }
  intros i s1 [Hi Hf Hheld Hs1 Hr1 Hout He Hp1]. unfold then_release. apply wp_bind, wp_attempt.
  destruct (op_status_held p (su_type k) i op_zero (su_call k iov key) s1 r x')
    as (l & Erun & Hl & Hok); [by rewrite Hheld, lookup_insert_eq|by rewrite He|].
  eapply wp_runs_as; [exact Erun|]. unfold return_status. apply wp_fail_if; intros Hst; cbn [on_failure negb].
  - apply wp_bind. eapply wp_mono; [apply (release_owned p (su_type k) i (pr_op r)); try done; [by apply Hok|]| |done|done].
    + cbn [operations set_operations]. by rewrite Hl, lookup_insert_eq.
    + intros _ s' (Hd & Ho & Hx). apply wp_throw. cbn [operations set_operations set_crypto_env crypto_env] in Hd, Hx.
      rewrite Hd, Hl, Hheld, insert_insert_eq, delete_insert_id by done.
      split_and!; [done..|]. right. split_and!; [done| |done].
      intros E. by rewrite E in Hst.
  - wp_auto. split_and!; [by apply negb_false_iff, Z.eqb_eq in Hst|done|].
    exists i. split_and!; [done..|]. cbn [operations set_operations]. by rewrite Hl, Hheld, insert_insert_eq.
Qed.

(** ** Abandoning an operation *)

Definition aborts : list setup :=
  [ {| su_sid := TFM_CRYPTO_HASH_ABORT_SID; su_group := TFM_CRYPTO_GROUP_ID_HASH;
       su_type := TFM_CRYPTO_HASH_OPERATION; su_call := fun _ _ o => psa_hash_abort _ o;
       su_run := fun iov _ => tfm_crypto_hash_interface iov |};
    {| su_sid := TFM_CRYPTO_MAC_ABORT_SID; su_group := TFM_CRYPTO_GROUP_ID_MAC;
       su_type := TFM_CRYPTO_MAC_OPERATION; su_call := fun _ _ o => psa_mac_abort _ o;
       su_run := tfm_crypto_mac_interface |};
    {| su_sid := TFM_CRYPTO_CIPHER_ABORT_SID; su_group := TFM_CRYPTO_GROUP_ID_CIPHER;
       su_type := TFM_CRYPTO_CIPHER_OPERATION; su_call := fun _ _ o => psa_cipher_abort _ o;
       su_run := tfm_crypto_cipher_interface |};
    {| su_sid := TFM_CRYPTO_AEAD_ABORT_SID; su_group := TFM_CRYPTO_GROUP_ID_AEAD;
       su_type := TFM_CRYPTO_AEAD_OPERATION; su_call := fun _ _ o => psa_aead_abort _ o;
       su_run := tfm_crypto_aead_interface |};
    {| su_sid := TFM_CRYPTO_KEY_DERIVATION_ABORT_SID; su_group := TFM_CRYPTO_GROUP_ID_KEY_DERIVATION;
       su_type := TFM_CRYPTO_KEY_DERIVATION_OPERATION;
       su_call := fun _ _ o => psa_key_derivation_abort _ o;
       su_run := tfm_crypto_key_derivation_interface |} ].

Definition abort_operation ty iov (c : O -> psa_call O) : CR O X unit :=
  r ← attempt (tfm_crypto_operation_lookup ty iov.(op_handle));
  _ ← need_out 0 4;
  _ ← put_handle iov.(op_handle);
  match r with
  | inl _ => mret tt
  | inr i => then_release always iov.(op_handle) put_handle (op_status i c)
  end.

Lemma open_abort ty iov (k : option nat -> CR O X unit) s :
  (o ← open_operation ty false true true iov; k o) s =
    (r ← attempt (tfm_crypto_operation_lookup ty iov.(op_handle));
     _ ← need_out 0 4; _ ← put_handle iov.(op_handle);
     match r with inl _ => k None | inr i => k (Some i) end) s.
Proof.
  unfold open_operation, attempt, mbind, M_bind.
  destruct (tfm_crypto_operation_lookup _ _ s) as [[] s1]; [..|done];
    destruct (need_out 0 4 s1) as [[] s2]; try done; by destruct (put_handle _ s2) as [[] s3].
Qed.

Lemma abort_is_abort k iov key s : k ∈ aborts -> module_enabled k.(su_group) = true ->
  iov.(function_id) = k.(su_sid) ->
  k.(su_run) iov key s = abort_operation k.(su_type) iov (k.(su_call) iov key) s.
Proof.
  intros Hk Hm Hid. unfold aborts in Hk. rewrite !elem_of_cons, elem_of_nil in Hk.
  destruct_or! Hk; try done; subst k; cbn in Hm, Hid |- *.
  1: unfold tfm_crypto_hash_interface, tfm_crypto_hash_operation.
  2: unfold tfm_crypto_mac_interface, tfm_crypto_mac_operation.
  3: unfold tfm_crypto_cipher_interface, tfm_crypto_cipher_operation.
  4: unfold tfm_crypto_aead_interface, tfm_crypto_aead_operation.
  5: unfold tfm_crypto_key_derivation_interface, tfm_crypto_key_derivation_operation.
  all: rewrite Hm, Hid; sid_eval.
  1-4: apply open_abort.
  unfold abort_operation, attempt, mbind, M_bind.
  destruct (tfm_crypto_operation_lookup _ _ s) as [[] s1]; [..|done];
    destruct (need_out 0 4 s1) as [[] s2]; try done; by destruct (put_handle _ s2) as [[[]| |] s3].
Qed.

Lemma of_handle_slot (l : list (tfm_crypto_operation_s O)) h v :
  slots_ok l -> is_u32 h -> of_handle l h = Some v ->
  (slot_of h < CRYPTO_CONC_OPER_NUM)%nat /\ h = Z.of_nat (slot_of h) + 1 /\ held l !! slot_of h = Some v.
Proof.
  intros Hl Hh Hv. unfold of_handle in Hv. destruct (valid_handle h) eqn:E; [|done].
  unfold valid_handle, slot_of, is_u32, TFM_CRYPTO_INVALID_HANDLE in *. split_and!; [lia..|done].
Qed.

(** An abort, of any kind of operation.  When the caller's handle names an
    operation of that kind that the caller owns, the library aborts it, the service
    forgets it whatever the library answers, and the caller receives handle 0 and the
    library's status.  Otherwise the abort succeeds without calling the library, and
    the service and the caller's handle stay as they were. *)
Theorem multipart_abort k iov key p s :
  k ∈ aborts -> module_enabled k.(su_group) = true -> iov.(function_id) = k.(su_sid) ->
  is_u32 iov.(op_handle) -> Z.of_nat CRYPTO_CONC_OPER_NUM < 2 ^ 32 ->
  room s -> slots_ok s.(operations) -> s.(scratch_owner) = p ->
  (forall o r x', of_handle s.(operations) iov.(op_handle) = Some (p, k.(su_type), o) ->
     psa_lib (k.(su_call) iov key o) s.(crypto_env) = (Val r, x') ->
     let gone s' := held s'.(operations) = delete (slot_of iov.(op_handle)) (held s.(operations)) /\
       handle_out s' = 0 /\ s'.(crypto_env) = x' in
     wp (k.(su_run) iov key) (fun _ s' => r.(pr_status) = PSA_SUCCESS /\ gone s')
       (fun e s' => e = r.(pr_status) /\ e <> PSA_SUCCESS /\ gone s') (fun _ _ => False) s) /\
  ((forall o, of_handle s.(operations) iov.(op_handle) <> Some (p, k.(su_type), o)) ->
     wp (k.(su_run) iov key)
       (fun _ s' => s'.(operations) = s.(operations) /\ handle_out s' = iov.(op_handle) /\
          s'.(crypto_env) = s.(crypto_env))
       (fun _ _ => False) (fun _ _ => False) s).
Proof.
  intros Hk Hm Hid Hh Hn Hr Hs Hp.
  pose proof (lookup_held_wp p k.(su_type) iov.(op_handle) s Hs Hp Hh) as Hl.
  destruct (put_handle_run iov.(op_handle) s Hr) as (buf & Eput & Hr1 & Hout).
  split.
  - intros o r x' Ho Hlib gone. eapply wp_ext; [by apply abort_is_abort|].
    unfold abort_operation. apply wp_bind, wp_attempt. eapply wp_mono; [exact Hl|..|done]; cbn.
    2: { intros e s' (_ & _ & Hne). by destruct (Hne o). }
    intros i s' (-> & -> & _). apply wp_bind. eapply wp_run; [by apply need_out_run|].
    apply wp_bind. eapply wp_run; [exact Eput|].
    destruct (of_handle_slot _ _ _ Hs Hh Ho) as (Hi & Ehandle & Hheld).
    unfold then_release. apply wp_bind, wp_attempt.
    destruct (op_status_held p (su_type k) (slot_of iov.(op_handle)) o (su_call k iov key)
      (set_scratch_buf buf s) r x') as (l & Erun & El & Hok); [done..|].
    eapply wp_runs_as; [exact Erun|]. cbn [always]. specialize (Hok Hs).
    assert (Hrel : wp (status_of (tfm_crypto_operation_release (op_handle iov) put_handle))
      (fun _ => gone) (fun _ _ => False) (fun _ _ => False)
      (set_operations l (set_crypto_env x' (set_scratch_buf buf s)))).
    { rewrite Ehandle at 1.
      eapply wp_mono; [apply (release_owned p (su_type k) _ (pr_op r)); try done| |done|done];
        cbn [operations set_operations].
      - by rewrite El, lookup_insert_eq.
      - intros _ s' (Hd & Hz & He). split_and!; [|done|done]. by rewrite Hd, El, delete_insert_eq. }
    unfold return_status. apply wp_fail_if; intros Hst; apply wp_bind;
      (eapply wp_mono; [exact Hrel| |done|done]); intros ? s' Hg.
    + apply wp_throw. split_and!; [done| |done]. intros E. by rewrite E in Hst.
    + apply wp_ret. split; [by apply negb_false_iff, Z.eqb_eq in Hst|done].
  - intros Hno. eapply wp_ext; [by apply abort_is_abort|].
    unfold abort_operation. apply wp_bind, wp_attempt. eapply wp_mono; [exact Hl|..|done]; cbn.
    { intros i s' (-> & -> & o & Ho). by destruct (Hno o). }
    intros e s' (-> & _ & _). apply wp_bind. eapply wp_run; [by apply need_out_run|].
    apply wp_bind. eapply wp_run; [exact Eput|]. apply wp_ret. split_and!; [done| |done]. by apply Hout.
Qed.
End Multipart.
