(* ===== verification/CryptoClients.v ===== *)
(** Crypto service: what the clients can rely on.

    The states the service goes through between requests ([crypto_reachable]), and
    what a request of one client cannot do to the others. *)

From stdpp Require Import base list numbers gmap.
From S2P Require Import Prelude CryptoTypes CryptoAlloc CryptoOps CryptoService CryptoInv CryptoRequest CryptoSlots.

Section Clients.
Context `{!CryptoBuild, !CryptoBuildOk} {O X : Type} `{!CryptoEnv O X}.
Implicit Types (s : crypto_state O X).

Definition returned {A} (r : outcome A) : Prop := match r with Halt _ => False | _ => True end.

(** The service starts with its static data at zero, and serves requests. *)
Inductive crypto_reachable : crypto_state O X -> Prop :=
  | reach_boot s : s.(scratch_owner) = 0 -> s.(scratch_alloc_index) = 0 ->
      s.(scratch_buf) = replicate (Z.to_nat CRYPTO_IOVEC_BUFFER_SIZE) 0 ->
      crypto_reachable (tfm_crypto_init s).2
  | reach_request msg s : crypto_reachable s -> msg_ok msg ->
      returned (tfm_crypto_sfn msg s).1 -> crypto_reachable (tfm_crypto_sfn msg s).2.

Lemma init_idle s : s.(scratch_owner) = 0 -> s.(scratch_alloc_index) = 0 ->
  s.(scratch_buf) = replicate (Z.to_nat CRYPTO_IOVEC_BUFFER_SIZE) 0 -> idle (tfm_crypto_init s).2.
Proof.
  intros Ho Hi Hb.
  assert (Hk : forall A (m : M X A), keeps idle (crypto_call m)).
  { intros A m s1 []. unfold crypto_call. destruct (m _) as [r x]. by split. }
  unfold tfm_crypto_init, tfm_crypto_module_init, tfm_crypto_init_alloc. rewrite bind_modifyS.
  assert (Hs : idle (set_operations (replicate CRYPTO_CONC_OPER_NUM free_operation) s)).
  { split; [done..|]. split; cbn; [apply length_replicate|]. by apply Forall_replicate. }
  revert Hs. generalize (set_operations (replicate CRYPTO_CONC_OPER_NUM free_operation) s).
  change (keeps idle tfm_crypto_engine_init). unfold tfm_crypto_engine_init, tfm_crypto_core_library_init.
  keeps_auto; apply Hk.
Qed.

(** Every outcome of a request, from a state between requests. *)
Lemma request_outcome p J msg s : msg_ok msg -> msg.(cm_client_id) = p ->
  (forall c, calls_for p c -> keeps J (psa_lib c)) ->
  (forall h i n, keeps J (no_status (spm_read h i n))) ->
  (forall h i d, keeps J (no_status (spm_write h i d))) ->
  idle s -> J s.(crypto_env) ->
  others p (map (foreign p) s.(operations)) J (tfm_crypto_sfn msg s).2 /\
  (returned (tfm_crypto_sfn msg s).1 -> idle (tfm_crypto_sfn msg s).2).
Proof.
  intros Hm Hp Hlib Hr Hw Hi HJ.
  assert (Hs : Idle p (map (foreign p) s.(operations)) J s) by (split; [done|by split; [|apply Hi|]]).
  pose proof (sfn_wp p _ J Hr Hw Hlib msg s Hm Hp Hs) as H1. unfold wp in H1.
  destruct (tfm_crypto_sfn msg s) as [[a|e|h] s1]; cbn; [by destruct H1..|done].
Qed.

Lemma reachable_idle s : crypto_reachable s -> idle s.
Proof.
  induction 1 as [s|msg s _ IH Hm Hr]; [by apply init_idle|].
  by apply (request_outcome msg.(cm_client_id) (fun _ => True)).
Qed.

(** C14: between requests the scratch memory that all clients share belongs to nobody
    and is all zeros: whatever a request put there, its inputs and outputs, is gone
    when it returns, by any path; and a slot that is not in use holds no context. *)
Theorem crypto_leaves_no_trace s : crypto_reachable s ->
  s.(scratch_owner) = 0 /\ s.(scratch_alloc_index) = 0 /\
  s.(scratch_buf) = replicate (Z.to_nat CRYPTO_IOVEC_BUFFER_SIZE) 0 /\
  length s.(operations) = CRYPTO_CONC_OPER_NUM /\
  forall i o, s.(operations) !! i = Some o -> o.(in_use) = false -> o.(operation) = op_zero.
Proof.
  intros [Ho Hi Hb [Hn Hl]]%reachable_idle. split_and!; [done..|].
  intros i o Hio Hu. by rewrite (proj1 (Forall_lookup _ _) Hl i o Hio Hu).
Qed.

Lemma foreign_held p l l' h q ty (o : O) : q <> p -> map (foreign p) l = map (foreign p) l' ->
  of_handle l h = Some (q, ty, o) -> of_handle l' h = Some (q, ty, o).
Proof.
  intros Hq Hf. unfold of_handle. destruct (valid_handle h); [|done]. rewrite !lookup_held.
  apply (f_equal (lookup (slot_of h))) in Hf. rewrite !list_lookup_fmap in Hf.
  destruct (l !! slot_of h) as [x|]; [|done]. cbn. unfold view.
  destruct (in_use x) eqn:Eu; [|done]. intros [= <- <- <-].
  cbn in Hf. unfold foreign in Hf. rewrite Eu in Hf.
  destruct (Z.eqb_spec (owner x) p); [done|]. cbn in Hf.
  destruct (l' !! slot_of h) as [y|]; [|done]. cbn in Hf.
  destruct (in_use y && _); [|done]. injection Hf as <-. cbn. by rewrite Eu.
Qed.

(** C12: a request never touches the operations of another client.  Whatever the
    request asks, whatever the library and the SPM answer, and even if it never
    returns: exactly the same handles name operations of clients other than the
    caller before and after, with the same type and the same context. *)
Theorem crypto_clients_isolated msg s h q ty o :
  crypto_reachable s -> msg_ok msg -> q <> msg.(cm_client_id) ->
  of_handle (tfm_crypto_sfn msg s).2.(operations) h = Some (q, ty, o) <->
  of_handle s.(operations) h = Some (q, ty, o).
Proof.
  intros Hs%reachable_idle Hm Hq.
  destruct (request_outcome msg.(cm_client_id) (fun _ => True) msg s) as [Ho _]; try done.
  pose proof (others_foreign _ _ _ _ Ho) as Hf.
  split; apply foreign_held with (p := msg.(cm_client_id)); done.
Qed.

(** C13: a request reaches the caller's keys only.  Any property of the library's
    state that survives every library call whose keys, used or made, belong to the
    caller (and the copying of vectors) survives every request of the caller: the
    key identifier the client sends never selects a key of another owner. *)
Theorem crypto_keys_confined J msg s :
  (forall c, calls_for msg.(cm_client_id) c -> keeps J (psa_lib c)) ->
  (forall h i n, keeps J (no_status (spm_read h i n))) ->
  (forall h i d, keeps J (no_status (spm_write h i d))) ->
  crypto_reachable s -> msg_ok msg -> J s.(crypto_env) -> J (tfm_crypto_sfn msg s).2.(crypto_env).
Proof.
  intros Hl Hr Hw Hs%reachable_idle Hm HJ.
  by apply (request_outcome msg.(cm_client_id) J).
Qed.
End Clients.
