(* ===== verification/CryptoHash.v ===== *)
(** Crypto service: a whole request, from the client's vectors and back. *)

From stdpp Require Import base list numbers.
From S2P Require Import Prelude CryptoTypes CryptoAlloc CryptoOps CryptoService CryptoInv CryptoRequest CryptoMultipart CryptoClients.

Section Hash.
Context `{!CryptoBuild, !CryptoBuildOk} {O X : Type} `{!CryptoEnv O X}.
Implicit Types (s : crypto_state O X).

Lemma alloc_scratch_run size s : 0 <= size <= UINT32_MAX - 3 -> 0 <= s.(scratch_alloc_index) ->
  s.(scratch_alloc_index) + ALIGN size TFM_CRYPTO_IOVEC_ALIGNMENT <= CRYPTO_IOVEC_BUFFER_SIZE ->
  tfm_crypto_alloc_scratch size s =
    (Val s.(scratch_alloc_index),
     set_scratch_alloc_index (s.(scratch_alloc_index) + ALIGN size TFM_CRYPTO_IOVEC_ALIGNMENT) s).
Proof.
  intros Hz Hi Hfit. pose proof (align_range size) as Ha. destruct iovec_buffer_size_ok.
  unfold is_u32, UINT32_MAX in *. specialize (Ha ltac:(lia) ltac:(lia)).
  unfold tfm_crypto_alloc_scratch. cbv zeta. change (TFM_CRYPTO_IOVEC_ALIGNMENT - 1) with 3.
  unfold UINT32_MAX. rewrite bind_fail_no by lia. rewrite bind_gets.
  rewrite bind_fail_no by (rewrite u32_small by (unfold is_u32; lia); lia).
  rewrite bind_modifyS. rewrite u32_small by (unfold is_u32; lia). done.
Qed.

Lemma or_clear_run {A} (m : CR O X A) s a s' : m s = (Val a, s') -> or_clear m s = (Val a, s').
Proof. intros E. unfold or_clear. by erewrite bind_val by (by apply attempt_val). Qed.

Lemma crypto_call_run {A} (m : M X A) s a x : m s.(crypto_env) = (Val a, x) ->
  crypto_call m s = (Val a, set_crypto_env x s).
Proof. unfold crypto_call. by intros ->. Qed.

Lemma no_status_run {A} (m : X -> (halt + A) * X) x a x' : m x = (inr a, x') ->
  no_status m x = (Val a, x').
Proof. unfold no_status. by intros ->. Qed.

Lemma read_into_run h i index size s d x' :
  spm_read h (Z.of_nat i) size s.(crypto_env) = (inr d, x') -> Z.of_nat (length d) <= size ->
  read_into h i index size s = (Val (Z.of_nat (length d)),
    set_scratch_buf (splice s.(scratch_buf) (Z.to_nat index) d) (set_crypto_env x' s)).
Proof.
  intros Hr Hd. unfold read_into. erewrite bind_val by (by apply crypto_call_run, no_status_run).
  destruct (Z.leb_spec (Z.of_nat (length d)) size); [done|lia].
Qed.

Lemma init_invec_run msg i s d x' :
  let size := nth i msg.(cm_in_size) 0 in
  0 <= size <= UINT32_MAX - 3 -> 0 <= s.(scratch_alloc_index) ->
  s.(scratch_alloc_index) + ALIGN size TFM_CRYPTO_IOVEC_ALIGNMENT <= CRYPTO_IOVEC_BUFFER_SIZE ->
  spm_read msg.(cm_handle) (Z.of_nat i) size s.(crypto_env) = (inr d, x') ->
  Z.of_nat (length d) <= size ->
  init_invec msg i s = (Val tt,
    set_in_vec (<[i := {| v_base := Some s.(scratch_alloc_index); v_len := Z.of_nat (length d) |}]> s.(in_vec))
      (set_scratch_buf (splice s.(scratch_buf) (Z.to_nat s.(scratch_alloc_index)) d)
         (set_crypto_env x' (set_scratch_alloc_index
            (s.(scratch_alloc_index) + ALIGN size TFM_CRYPTO_IOVEC_ALIGNMENT) s)))).
Proof.
  intros size Hz Hi Hfit Hr Hd. unfold init_invec. fold size. cbv zeta.
  erewrite bind_val by (by apply or_clear_run, alloc_scratch_run).
  by erewrite bind_val by (by apply read_into_run).
Qed.

Lemma init_outvec_run msg i s :
  let size := nth i msg.(cm_out_size) 0 in
  0 <= size <= UINT32_MAX - 3 -> 0 <= s.(scratch_alloc_index) ->
  s.(scratch_alloc_index) + ALIGN size TFM_CRYPTO_IOVEC_ALIGNMENT <= CRYPTO_IOVEC_BUFFER_SIZE ->
  init_outvec msg i s = (Val tt,
    set_out_vec (<[i := {| v_base := Some s.(scratch_alloc_index); v_len := size |}]> s.(out_vec))
      (set_scratch_alloc_index (s.(scratch_alloc_index) + ALIGN size TFM_CRYPTO_IOVEC_ALIGNMENT) s)).
Proof.
  intros size Hz Hi Hfit. unfold init_outvec. fold size. cbv zeta.
  by erewrite bind_val by (by apply or_clear_run, alloc_scratch_run).
Qed.

Lemma for_each_one body i s s' : body i s = (Val tt, s') -> for_each [i] body s = (Val tt, s').
Proof. intros E. cbn. by erewrite bind_val by exact E. Qed.

(** The request of [psa_hash_compute]: the identifier, the input and room for the hash. *)
Record hash_request msg d : Prop := {
  hr_type : msg.(cm_type) = PSA_IPC_CALL;
  hr_in : exists n, msg.(cm_in_size) = [sizeof_iovec; n; 0; 0] /\ 0 < n <= UINT32_MAX - 3;
  hr_out : exists m, msg.(cm_out_size) = [m; 0; 0; 0] /\ 0 < m <= UINT32_MAX - 3;
  hr_fit : ALIGN (nth 1 msg.(cm_in_size) 0) TFM_CRYPTO_IOVEC_ALIGNMENT +
    ALIGN (nth 0 msg.(cm_out_size) 0) TFM_CRYPTO_IOVEC_ALIGNMENT <= CRYPTO_IOVEC_BUFFER_SIZE;
  hr_iov : Z.of_nat (length d) = sizeof_iovec;
  hr_sid : (iov_of d).(function_id) = TFM_CRYPTO_HASH_COMPUTE_SID;
  hr_enabled : module_enabled TFM_CRYPTO_GROUP_ID_HASH = true;
  hr_single : CRYPTO_SINGLE_PART_FUNCS_DISABLED = false;
}.

(** The vectors of the request in the scratch memory: the input at its start, the
    output after it. *)
Definition hash_ready msg data x s : Prop :=
  let a := ALIGN (nth 1 msg.(cm_in_size) 0) TFM_CRYPTO_IOVEC_ALIGNMENT in
  let b := ALIGN (nth 0 msg.(cm_out_size) 0) TFM_CRYPTO_IOVEC_ALIGNMENT in
  nth 0 s.(in_vec) no_vec = {| v_base := None; v_len := sizeof_iovec |} /\
  nth 1 s.(in_vec) no_vec = {| v_base := Some 0; v_len := Z.of_nat (length data) |} /\
  s.(out_vec) = [{| v_base := Some a; v_len := nth 0 msg.(cm_out_size) 0 |}; no_vec; no_vec; no_vec] /\
  s.(scratch_alloc_index) = a + b /\
  slice s.(scratch_buf) 0 (length data) = data /\
  Z.of_nat (length s.(scratch_buf)) = CRYPTO_IOVEC_BUFFER_SIZE /\ s.(crypto_env) = x.

Lemma align_pos x : 0 < x <= UINT32_MAX - 3 -> x <= ALIGN x TFM_CRYPTO_IOVEC_ALIGNMENT <= UINT32_MAX.
Proof. intros Hx. apply align_range; unfold is_u32, UINT32_MAX in *; lia. Qed.

Lemma hash_vectors_run msg d data x1 x2 s :
  hash_request msg d -> idle s -> s.(crypto_env) = x1 ->
  s.(in_vec) = {| v_base := None; v_len := sizeof_iovec |} :: replicate 3 no_vec ->
  s.(out_vec) = replicate 4 no_vec ->
  spm_read msg.(cm_handle) 1 (nth 1 msg.(cm_in_size) 0) x1 = (inr data, x2) ->
  Z.of_nat (length data) <= nth 1 msg.(cm_in_size) 0 ->
  exists s', tfm_crypto_init_iovecs msg 2 1 s = (Val tt, s') /\ hash_ready msg data x2 s'.
Proof.
  intros [] [Ho Hi Hb Hl] Hx Hin Hout Hr Hd.
  destruct hr_in0 as (n & En & Hn), hr_out0 as (m & Em & Hm). rewrite En, Em in *. cbn in Hd, Hr, hr_fit0.
  pose proof (align_pos n Hn). pose proof (align_pos m Hm). destruct iovec_buffer_size_ok.
  unfold tfm_crypto_init_iovecs. cbn [seq Nat.sub].
  rewrite (bind_val _ _ _ _ _ (for_each_one _ _ _ _ (init_invec_run msg 1 s data x2
    ltac:(rewrite En; cbn; lia) ltac:(lia) ltac:(rewrite En, Hi; cbn -[ALIGN]; lia)
    ltac:(rewrite En, Hx; exact Hr) ltac:(rewrite En; exact Hd)))).
  eexists. split; [apply for_each_one, init_outvec_run|]; rewrite ?En, ?Em.
  1-3: cbn -[ALIGN]; rewrite ?En, ?Hi; cbn -[ALIGN]; lia.
  unfold hash_ready. cbn -[splice slice ALIGN]. rewrite En, Em, Hi, Hin, Hout.
  cbn -[splice slice ALIGN replicate]. rewrite Hb.
  assert (length data <= length (replicate (Z.to_nat CRYPTO_IOVEC_BUFFER_SIZE) 0%Z))%nat
    by (rewrite length_replicate; lia).
  split_and!; [done..|by apply (slice_splice _ 0)| |done].
  rewrite length_splice by done. rewrite length_replicate. lia.
Qed.

Definition delivered (r : psa_result O) : bytes :=
  if r.(pr_status) =? PSA_SUCCESS then r.(pr_out) else [].

Lemma set_out_len_run n v rest s : s.(out_vec) = v :: rest ->
  set_out_len 0 n s = (Val tt, set_out_vec ({| v_base := v.(v_base); v_len := n |} :: rest) s).
Proof. intros E. unfold set_out_len, modifyS. by rewrite E. Qed.

(** A call whose output goes to the first vector: that vector then holds what is
    delivered. *)
Lemma call_out_run c s a m r x : s.(out_vec) = {| v_base := Some a; v_len := m |} :: replicate 3 no_vec ->
  0 <= a -> a + m <= Z.of_nat (length s.(scratch_buf)) ->
  psa_lib (c m) s.(crypto_env) = (Val r, x) -> Z.of_nat (length r.(pr_out)) <= m ->
  exists s', call_out true 0 c s = return_status r.(pr_status) s' /\ s'.(crypto_env) = x /\
    s'.(out_vec) = {| v_base := Some a; v_len := Z.of_nat (length (delivered r)) |} :: replicate 3 no_vec /\
    slice s'.(scratch_buf) (Z.to_nat a) (length (delivered r)) = delivered r.
Proof.
  intros Eo Ha Hm Hlib Hlen. unfold call_out, out_size, out_at.
  erewrite bind_val by (by rewrite bind_gets, Eo). cbn [nth v_len].
  erewrite bind_val by (by apply crypto_call_run).
  set (s1 := set_crypto_env x s). assert (exists buf, put_out 0 (pr_out r) s1 = (Val tt, set_scratch_buf buf s1) /\
    slice buf (Z.to_nat a) (length (pr_out r)) = pr_out r) as (buf & Eput & Ebuf).
  { unfold put_out, out_at. rewrite bind_gets. cbn [s1 set_crypto_env out_vec]. rewrite Eo. cbn [nth v_base v_len].
    case_decide as El.
    - exists (scratch_buf s). split; [by destruct s|]. by rewrite El.
    - destruct (Z.leb_spec (Z.of_nat (length (pr_out r))) m); [|lia].
      eexists. split; [done|]. apply slice_splice. cbn. lia. }
  erewrite bind_val by exact Eput. erewrite bind_val by (by apply set_out_len_run).
  eexists. split; [done|]. split_and!; [done|..]; cbn -[slice]; unfold delivered;
    destruct (pr_status r =? PSA_SUCCESS); done.
Qed.

Lemma write_back_run msg s a n v rest x : s.(out_vec) = {| v_base := Some a; v_len := Z.of_nat n |} :: rest ->
  slice s.(scratch_buf) (Z.to_nat a) n = v ->
  spm_write msg.(cm_handle) 0 v s.(crypto_env) = (inr tt, x) ->
  write_back msg 0 s = (Val tt, set_crypto_env x s).
Proof.
  intros Eo Ev Hw. unfold write_back, out_at. rewrite bind_gets, bind_getS, Eo. cbn [nth v_base v_len].
  rewrite Nat2Z.id, Ev. by apply crypto_call_run, no_status_run.
Qed.

Lemma input_run i s b n : nth i s.(in_vec) no_vec = {| v_base := Some b; v_len := Z.of_nat n |} ->
  input i s = (Val (slice s.(scratch_buf) (Z.to_nat b) n), s).
Proof.
  intros E. unfold input, in_at. rewrite bind_gets, bind_getS, E. cbn [v_base v_len]. by rewrite Nat2Z.id.
Qed.

Lemma status_of_return st s : status_of (return_status st) s = (Val st, s).
Proof.
  unfold return_status, status_of. destruct (Z.eqb_spec st PSA_SUCCESS) as [->|]; done.
Qed.

Lemma dispatch_hash_run msg d data x r x' s : hash_request msg d -> hash_ready msg data x s ->
  psa_lib (psa_hash_compute _ (iov_of d).(alg) data (nth 0 msg.(cm_out_size) 0)) x = (Val r, x') ->
  Z.of_nat (length r.(pr_out)) <= nth 0 msg.(cm_out_size) 0 ->
  exists s', status_of (tfm_crypto_api_dispatcher (iov_of d)) s = (Val r.(pr_status), s') /\
    s'.(crypto_env) = x' /\
    exists a rest, s'.(out_vec) = {| v_base := Some a; v_len := Z.of_nat (length (delivered r)) |} :: rest /\
      slice s'.(scratch_buf) (Z.to_nat a) (length (delivered r)) = delivered r.
Proof.
  intros [] (Hv0 & Hv1 & Eo & Ei & Ed & Eb & Ex) Hlib Hlen.
  destruct hr_in0 as (n & En & Hn), hr_out0 as (m & Em & Hm). rewrite En, Em in *. cbn [nth] in *.
  pose proof (align_pos n Hn). pose proof (align_pos m Hm).
  destruct (call_out_run (fun k => psa_hash_compute _ (iov_of d).(alg) data k) s _ m r x' Eo)
    as (s' & Erun & Ex' & Eo' & Es); [lia|lia|by rewrite Ex|done|].
  exists s'. split_and!; [|done|by eexists _, _].
  assert (E : tfm_crypto_api_dispatcher (iov_of d) s = return_status (pr_status r) s').
  { rewrite <- Erun. unfold tfm_crypto_api_dispatcher, in_at. rewrite bind_gets, Hv0. cbn [v_len].
    rewrite bind_fail_no by done. rewrite hr_sid0. sid_eval. rewrite bind_mret.
    unfold tfm_crypto_hash_interface. rewrite hr_enabled0, hr_sid0. sid_eval.
    unfold single_part. rewrite hr_single0.
    rewrite (bind_val _ _ _ _ _ (input_run 1 s 0 _ Hv1)). change (Z.to_nat 0) with 0%nat. by rewrite Ed. }
  unfold status_of. rewrite E. pose proof (status_of_return (pr_status r) s') as Hst.
  exact Hst.
Qed.

(** A [psa_hash_compute] request, from the client's vectors and back.  The
    library hashes exactly the bytes the SPM read from the client's input vector, with
    the algorithm of the request and the room of the client's output vector; the
    client receives exactly what the library wrote when it succeeded, nothing when it
    failed, and the library's status. *)
Theorem hash_compute_delivers msg d data r s x1 x2 x3 x4 :
  crypto_reachable s -> hash_request msg d ->
  spm_read msg.(cm_handle) 0 sizeof_iovec s.(crypto_env) = (inr d, x1) ->
  spm_read msg.(cm_handle) 1 (nth 1 msg.(cm_in_size) 0) x1 = (inr data, x2) ->
  Z.of_nat (length data) <= nth 1 msg.(cm_in_size) 0 ->
  psa_lib (psa_hash_compute _ (iov_of d).(alg) data (nth 0 msg.(cm_out_size) 0)) x2 = (Val r, x3) ->
  Z.of_nat (length r.(pr_out)) <= nth 0 msg.(cm_out_size) 0 ->
  spm_write msg.(cm_handle) 0 (delivered r) x3 = (inr tt, x4) ->
  exists s', tfm_crypto_sfn msg s = return_status r.(pr_status) s' /\ s'.(crypto_env) = x4.
Proof.
  intros Hs%reachable_idle Hm Hread Hdata Hd Hlib Hr Hw.
  destruct (hr_in _ _ Hm) as (n & En & Hn), (hr_out _ _ Hm) as (m & Em & Hml).
  unfold tfm_crypto_sfn. rewrite (hr_type _ _ Hm). cbn [Z.eqb PSA_IPC_CALL]. unfold tfm_crypto_call_srv.
  rewrite En, Em. replace (filled PSA_MAX_IOVEC [sizeof_iovec; n; 0; 0]) with 2%nat.
  2: { cbn. by destruct (Z.eqb_spec n 0); [lia|]. }
  replace (filled PSA_MAX_IOVEC [m; 0; 0; 0]) with 1%nat by (cbn; by destruct (Z.eqb_spec m 0); [lia|]).
  cbv zeta. rewrite (bind_val init_vectors _ _ tt (set_out_vec (replicate 4 no_vec)
    (set_in_vec (replicate 4 no_vec) s))) by done.
  rewrite bind_fail_no by done. erewrite bind_val by (by apply crypto_call_run, no_status_run).
  rewrite bind_fail_no by (by rewrite (hr_iov _ _ Hm)). rewrite bind_modifyS.
  edestruct (hash_vectors_run msg d data x1 x2) as (s1 & E1 & Hrun);
    [done| | | | |exact Hdata|done|erewrite bind_val by exact E1]; [by destruct Hs|done..|].
  rewrite (bind_val (tfm_crypto_set_caller_id _) _ _ tt (set_scratch_owner msg.(cm_client_id) s1)) by done.
  edestruct (dispatch_hash_run msg d data x2 r x3 (set_scratch_owner msg.(cm_client_id) s1))
    as (s2 & E2 & Ex & a & rest & Eo & Es); [done..|]. erewrite bind_val by exact E2.
  erewrite bind_val by (apply for_each_one; eapply write_back_run; [exact Eo|exact Es|by rewrite Ex]).
  by eexists.
Qed.
End Hash.
