(* ===== verification/CryptoSample.v ===== *)
(** Crypto service: a concrete service, at which the theorems are applied.

    The library of the sample counts: a context is a number that every call on it
    increases, a hash is the sum of its input, and the owners of the keys of each call
    are logged. *)

From stdpp Require Import base list numbers gmap.
From S2P Require Import Prelude CryptoTypes CryptoAlloc CryptoOps CryptoService CryptoInv CryptoRequest CryptoSlots CryptoMultipart CryptoClients CryptoHash.

#[local] Instance sample_build : CryptoBuild :=
  {| CRYPTO_CONC_OPER_NUM := 2%nat; CRYPTO_IOVEC_BUFFER_SIZE := 32;
     CRYPTO_SINGLE_PART_FUNCS_DISABLED := false; CRYPTO_NV_SEED := false;
     module_enabled := fun _ => true; wanted_hash := [0x02000009]; wanted_key_type := [];
     wanted_cipher := []; key_attr_size := 36; TFM_CRYPTO_KEY_ATTR_OFFSET_CLIENT_SERVER := 4 |}.

#[local] Instance sample_build_ok : CryptoBuildOk.
Proof. split. unfold is_u32. cbn. lia. Qed.

(** The vectors of each message, and the owners of the keys used so far. *)
Record sample_env := { se_in : list (list bytes); se_out : bytes; se_log : list Z }.

Definition sample_result (op : Z) (out : bytes) : psa_result Z :=
  {| pr_status := PSA_SUCCESS; pr_op := op; pr_target := op; pr_out := out; pr_out2 := []; pr_key := 1 |}.
Definition sample_lib (c : psa_call Z) : M sample_env (psa_result Z) := fun x =>
  (Val (match c with
        | psa_hash_compute _ _ d n => sample_result 0 (take (Z.to_nat n) [u8 (foldr Z.add 0 d)])
        | psa_mac_compute _ k _ _ n => sample_result 0 (take (Z.to_nat n) [u8 k.(kid)])
        | psa_hash_setup _ o _ | psa_hash_update _ o _ | psa_hash_abort _ o => sample_result (o + 1) []
        | _ => sample_result 0 []
        end),
   {| se_in := x.(se_in); se_out := x.(se_out); se_log := call_owners c ++ x.(se_log) |}).

#[local] Instance sample_crypto : CryptoEnv Z sample_env :=
  {| op_zero := 0; psa_lib := sample_lib;
     spm_read := fun h i n x =>
       (inr (take (Z.to_nat n) (nth (Z.to_nat i) (nth (Z.to_nat h) x.(se_in) []) [])), x);
     spm_write := fun _ _ d x => (inr tt, {| se_in := x.(se_in); se_out := d; se_log := x.(se_log) |});
     tfm_plat_crypto_provision_entropy_seed := mret true;
     mbedtls_setup := mret tt; psa_crypto_init := mret tt |}.

(** A request: the bytes of [tfm_crypto_pack_iovec]. *)
Definition sample_iov (sid key alg handle : Z) : bytes :=
  le32 key ++ le32 alg ++ le32 handle ++ replicate 28 0 ++ [u8 sid; u8 (sid / 2 ^ 8)] ++ replicate 14 0.
Definition sample_msg (handle client n m : Z) : crypto_msg :=
  {| cm_type := PSA_IPC_CALL; cm_handle := handle; cm_client_id := client;
     cm_in_size := [sizeof_iovec; n; 0; 0]; cm_out_size := [m; 0; 0; 0] |}.
Definition sample_boot (l : list (list bytes)) : crypto_state Z sample_env :=
  (tfm_crypto_init {| operations := []; scratch_buf := replicate 32 0; scratch_alloc_index := 0;
     scratch_owner := 0; in_vec := []; out_vec := [];
     crypto_env := {| se_in := l; se_out := []; se_log := [] |} |}).2.

Lemma sample_boot_reachable l : crypto_reachable (sample_boot l).
Proof. by apply reach_boot. Qed.

Lemma sample_msg_ok h client n m : is_u32 n -> is_u32 m -> msg_ok (sample_msg h client n m).
Proof.
  intros Hn Hm. split; cbn; repeat (apply Forall_cons_2; [done || (unfold is_u32, sizeof_iovec; lia)|]);
    apply Forall_nil_2.
Qed.

(** Client 1 begins a hash; client 2 asks to abort it; client 3 computes a MAC with its
    key 7; client 4 hashes. *)
Definition sample_start : crypto_state Z sample_env :=
  sample_boot
    [ [sample_iov TFM_CRYPTO_HASH_SETUP_SID 0 0x02000009 0];
      [sample_iov TFM_CRYPTO_HASH_ABORT_SID 0 0 1];
      [sample_iov TFM_CRYPTO_MAC_COMPUTE_SID 7 0x03800009 0; [1; 2; 3]];
      [sample_iov TFM_CRYPTO_HASH_COMPUTE_SID 0 0x02000009 0; [1; 2; 3]] ].
Definition sample_begun : crypto_state Z sample_env := (tfm_crypto_sfn (sample_msg 0 1 0 4) sample_start).2.

Lemma sample_begun_reachable : crypto_reachable sample_begun.
Proof.
  apply reach_request; [apply sample_boot_reachable|by apply sample_msg_ok|].
  vm_compute. exact I.
Qed.

Lemma crypto_clients_isolated_witness :
  of_handle sample_begun.(operations) 1 = Some (1, TFM_CRYPTO_HASH_OPERATION, 1) /\
  of_handle (tfm_crypto_sfn (sample_msg 1 2 0 4) sample_begun).2.(operations) 1 =
    Some (1, TFM_CRYPTO_HASH_OPERATION, 1).
Proof.
  assert (H1 : of_handle sample_begun.(operations) 1 = Some (1, TFM_CRYPTO_HASH_OPERATION, 1)) by by vm_compute.
  split; [exact H1|].
  apply (crypto_clients_isolated (sample_msg 1 2 0 4) sample_begun 1 1 TFM_CRYPTO_HASH_OPERATION 1);
    [exact sample_begun_reachable|by apply sample_msg_ok|done|exact H1].
Defined.

Lemma crypto_leaves_no_trace_witness :
  sample_begun.(scratch_buf) = replicate 32 0 /\ sample_begun.(scratch_owner) = 0.
Proof.
  pose proof (crypto_leaves_no_trace sample_begun sample_begun_reachable) as (Ho & _ & Hb & _).
  exact (conj Hb Ho).
Defined.

(** Only keys of client 3 were used. *)
Definition only_owner (p : Z) (x : sample_env) : Prop := Forall (eq p) x.(se_log).

Lemma crypto_keys_confined_witness :
  only_owner 3 (tfm_crypto_sfn (sample_msg 2 3 3 1) sample_begun).2.(crypto_env).
Proof.
  apply (crypto_keys_confined (only_owner 3)).
  - intros c Hc x Hx. apply Forall_app. split; [exact Hc|exact Hx].
  - intros h i n x Hx. exact Hx.
  - intros h i d x Hx. exact Hx.
  - exact sample_begun_reachable.
  - by apply sample_msg_ok.
  - constructor.
Defined.

Lemma hash_compute_delivers_witness : exists s',
  tfm_crypto_sfn (sample_msg 3 4 3 8) sample_begun = (Val tt, s') /\ s'.(crypto_env).(se_out) = [6].
Proof.
  destruct (hash_compute_delivers (sample_msg 3 4 3 8)
    (sample_iov TFM_CRYPTO_HASH_COMPUTE_SID 0 0x02000009 0) [1; 2; 3] (sample_result 0 [6]) sample_begun
    sample_begun.(crypto_env) sample_begun.(crypto_env)
    {| se_in := sample_begun.(crypto_env).(se_in); se_out := sample_begun.(crypto_env).(se_out);
       se_log := sample_begun.(crypto_env).(se_log) |}
    {| se_in := sample_begun.(crypto_env).(se_in); se_out := [6];
       se_log := sample_begun.(crypto_env).(se_log) |}) as (s' & E & Hx).
  - exact sample_begun_reachable.
  - split; [reflexivity|exists 3; split; [reflexivity|unfold UINT32_MAX; lia]
      |exists 8; split; [reflexivity|unfold UINT32_MAX; lia]|intros [=]|reflexivity..].
  - vm_compute. reflexivity.
  - vm_compute. reflexivity.
  - vm_compute. intros [=].
  - vm_compute. reflexivity.
  - vm_compute. intros [=].
  - reflexivity.
  - exists s'. split; [exact E|rewrite Hx; reflexivity].
Defined.

(** A request in progress: the caller is client 1 and has room for a handle. *)
Definition sample_serving (ops : list (tfm_crypto_operation_s Z)) : crypto_state Z sample_env :=
  {| operations := ops; scratch_buf := replicate 32 0; scratch_alloc_index := 4; scratch_owner := 1;
     in_vec := replicate 4 no_vec;
     out_vec := {| v_base := Some 0; v_len := 4 |} :: replicate 3 no_vec;
     crypto_env := {| se_in := []; se_out := []; se_log := [] |} |}.
Definition sample_hash : tfm_crypto_operation_s Z :=
  {| in_use := true; owner := 1; type := TFM_CRYPTO_HASH_OPERATION; operation := 5 |}.
Definition no_key : tfm_crypto_key_id_s := {| kid := 0; kowner := 0 |}.
Definition sample_setup : setup (O := Z) (X := sample_env) :=
  {| su_sid := TFM_CRYPTO_HASH_SETUP_SID; su_group := TFM_CRYPTO_GROUP_ID_HASH;
     su_type := TFM_CRYPTO_HASH_OPERATION; su_call := fun iov _ o => psa_hash_setup _ o iov.(alg);
     su_run := fun iov _ => tfm_crypto_hash_interface iov |}.
Definition sample_abort : setup (O := Z) (X := sample_env) :=
  {| su_sid := TFM_CRYPTO_HASH_ABORT_SID; su_group := TFM_CRYPTO_GROUP_ID_HASH;
     su_type := TFM_CRYPTO_HASH_OPERATION; su_call := fun _ _ o => psa_hash_abort _ o;
     su_run := fun iov _ => tfm_crypto_hash_interface iov |}.
Definition sample_setup_iov : tfm_crypto_pack_iovec :=
  iov_of (sample_iov TFM_CRYPTO_HASH_SETUP_SID 0 0x02000009 0).
Definition sample_abort_iov : tfm_crypto_pack_iovec :=
  iov_of (sample_iov TFM_CRYPTO_HASH_ABORT_SID 0 0 1).

Lemma sample_room ops : room (sample_serving ops).
Proof. exists 0, 4. cbn. split_and!; [done|lia..]. Qed.

Lemma sample_slots ops : ops = [free_operation; free_operation] \/ ops = [sample_hash; free_operation] ->
  slots_ok (sample_serving ops).(operations).
Proof. intros [-> | ->]; split; try done; repeat (apply Forall_cons_2; [by intros ?|]); apply Forall_nil_2. Qed.

Lemma multipart_setup_witness :
  match tfm_crypto_hash_interface sample_setup_iov (sample_serving [free_operation; free_operation]) with
  | (Val _, s') => exists i, handle_out s' = Z.of_nat i + 1 /\
      held s'.(operations) = <[i := (1, TFM_CRYPTO_HASH_OPERATION, 1)]> ∅
  | _ => False
  end.
Proof.
  pose proof (multipart_setup sample_setup sample_setup_iov no_key 1
    (sample_serving [free_operation; free_operation]) (sample_result 1 [])
    {| se_in := []; se_out := []; se_log := [] |}
    ltac:(left) eq_refl eq_refl eq_refl ltac:(cbn; lia) (sample_room _)
    (sample_slots _ (or_introl eq_refl)) eq_refl eq_refl) as Hw.
  unfold wp in Hw. change (su_run sample_setup sample_setup_iov no_key)
    with (tfm_crypto_hash_interface sample_setup_iov) in Hw.
  destruct (tfm_crypto_hash_interface _ _) as [[a|e|h] s']; [|exfalso|done].
  - destruct Hw as (_ & _ & i & _ & Ho & Hh). by exists i.
  - destruct Hw as (_ & _ & [(_ & _ & Hfull)|(He & Hne & _)]); [|by destruct Hne].
    destruct (Hfull 0%nat ltac:(cbn; lia)) as [v Hv]. vm_compute in Hv. discriminate Hv.
Defined.

Lemma multipart_abort_witness :
  match tfm_crypto_hash_interface sample_abort_iov (sample_serving [sample_hash; free_operation]) with
  | (Val _, s') => handle_out s' = 0
  | _ => False
  end.
Proof.
  destruct (multipart_abort sample_abort sample_abort_iov no_key 1
    (sample_serving [sample_hash; free_operation])
    ltac:(left) eq_refl eq_refl
    ltac:(replace (op_handle sample_abort_iov) with 1 by (vm_compute; reflexivity); unfold is_u32; lia)
    ltac:(cbn; lia) (sample_room _)
    (sample_slots _ (or_intror eq_refl)) eq_refl) as [Hw _].
  specialize (Hw 5 (sample_result 6 []) {| se_in := []; se_out := []; se_log := [] |} eq_refl eq_refl).
  unfold wp in Hw. change (su_run sample_abort sample_abort_iov no_key)
    with (tfm_crypto_hash_interface sample_abort_iov) in Hw.
  destruct (tfm_crypto_hash_interface _ _) as [[a|e|h] s']; [tauto| |done].
  destruct Hw as (He & Hne & _). by destruct Hne.
Defined.

#[local] Instance sample_stores : Stores (O := Z) (X := sample_env) (fun _ => True) (fun _ => mret tt).
Proof. split; [|done]. intros x s _. exists s.(scratch_buf). split; [by destruct s|done]. Qed.

Lemma crypto_slots_refine_witness :
  wp (tfm_crypto_operation_lookup TFM_CRYPTO_HASH_OPERATION 1)
    (fun i s' => i = 0%nat) (fun _ _ => False) (fun _ _ => False)
    (sample_serving [sample_hash; free_operation]).
Proof.
  destruct (crypto_slots_refine (fun _ => True) (fun _ => mret tt) 1
    (sample_serving [sample_hash; free_operation]) I (sample_slots _ (or_intror eq_refl)) eq_refl)
    as (_ & Hl & _).
  eapply wp_mono; [apply (Hl TFM_CRYPTO_HASH_OPERATION 1); unfold is_u32; lia|..|done]; cbn.
  - by intros i s' (_ & -> & _).
  - intros e s' (_ & _ & Hne). by destruct (Hne 5).
Defined.
