(* ===== verification/MbTypes.v ===== *)
(** Mailbox between cores: the data.

    The queue that the non-secure core shares with the secure one
    ([interface/include/multi_core/tfm_mailbox.h]), the private data of either side
    ([tfm_ns_mailbox.h], [platform/include/tfm_hal_mailbox.h], [tfm_spe_mailbox.c]) and
    the calls of the SPM, which are the parameter [MboxEnv].  The state of both cores
    is one record; the code of a side uses the fields of that side and the shared ones. *)

From stdpp Require Import base list numbers.
From S2P Require Import Prelude SpmTypes.

Definition MAILBOX_PSA_FRAMEWORK_VERSION : Z := 1.
Definition MAILBOX_PSA_VERSION : Z := 2.
Definition MAILBOX_PSA_CONNECT : Z := 3.
Definition MAILBOX_PSA_CALL : Z := 4.
Definition MAILBOX_PSA_CLOSE : Z := 5.

Definition INT32_MIN : Z := - 2 ^ 31.
Definition MAILBOX_SUCCESS : Z := 0.
Definition MAILBOX_QUEUE_FULL : Z := INT32_MIN + 1.
Definition MAILBOX_INVAL_PARAMS : Z := INT32_MIN + 2.
Definition MAILBOX_NO_PEND_EVENT : Z := INT32_MIN + 4.
Definition MAILBOX_CALLBACK_REG_ERROR : Z := INT32_MIN + 6.
Definition MAILBOX_INIT_ERROR : Z := INT32_MIN + 7.
Definition MAILBOX_GENERIC_ERROR : Z := INT32_MIN + 8.
Definition MAILBOX_MSG_NULL_HANDLE : Z := 0.
Definition SPM_ERROR_BAD_PARAMETERS : Z := -249.
Definition SPM_ERROR_GENERIC : Z := -253.

(** A client's vector: an address and a length. *)
Record mb_vec := { mv_base : Z; mv_len : Z }.
Definition null_vec : mb_vec := {| mv_base := 0; mv_len := 0 |}.
Definition MAX_IOVEC : nat := Z.to_nat PSA_MAX_IOVEC.

(** The union of the parameters of the calls: the first word is the handle of a call
    or a close and the identifier of a service otherwise, the second one the type of a
    call or the version of a connection. *)
Record psa_client_params_t := {
  handle_or_sid : Z;
  type_or_version : Z;
  pc_in_vec : list mb_vec;
  pc_in_len : Z;
  pc_out_vec : list mb_vec;
  pc_out_len : Z;
}.

Record mailbox_msg_t := { call_type : Z; params : psa_client_params_t; mm_client_id : Z }.
Record mailbox_reply_t := { return_val : Z; out_vec_len : list Z }.
Record mailbox_slot_t := { slot_msg : mailbox_msg_t; slot_reply : mailbox_reply_t }.
Record ns_mailbox_slot_t := { slot_owner : Z; is_woken : bool }.
Record secure_mailbox_slot_t := { sq_msg : mailbox_msg_t; sq_ns_slot_idx : Z; sq_msg_handle : Z }.
(** [struct vectors] *)
Record vectors_t := { lv_in_vec : list mb_vec; lv_out_vec : list mb_vec; lv_out_len : Z; lv_in_use : bool }.

Definition zero_params : psa_client_params_t :=
  {| handle_or_sid := 0; type_or_version := 0; pc_in_vec := replicate MAX_IOVEC null_vec; pc_in_len := 0;
     pc_out_vec := replicate MAX_IOVEC null_vec; pc_out_len := 0 |}.
Definition zero_msg : mailbox_msg_t := {| call_type := 0; params := zero_params; mm_client_id := 0 |}.
Definition zero_reply : mailbox_reply_t := {| return_val := 0; out_vec_len := replicate MAX_IOVEC 0 |}.
Definition zero_slot : mailbox_slot_t := {| slot_msg := zero_msg; slot_reply := zero_reply |}.
Definition zero_ns_slot : ns_mailbox_slot_t := {| slot_owner := 0; is_woken := false |}.
Definition zero_secure_slot : secure_mailbox_slot_t :=
  {| sq_msg := zero_msg; sq_ns_slot_idx := 0; sq_msg_handle := 0 |}.
Definition zero_vectors : vectors_t :=
  {| lv_in_vec := replicate MAX_IOVEC null_vec; lv_out_vec := replicate MAX_IOVEC null_vec;
     lv_out_len := 0; lv_in_use := false |}.

(** An entry of the table of client identifiers. *)
Record ns_mailbox_client_id_info_t := { client_id_base : Z; client_id_limit : Z; ci_source : Z }.

(** The build. *)
Class MboxBuild := {
  NUM_MAILBOX_QUEUE_SLOT : nat;
  MB_BACKEND_IPC : bool;                       (* CONFIG_TFM_SPM_BACKEND_IPC *)
  MB_CONNECTION_BASED : bool;                  (* CONFIG_TFM_CONNECTION_BASED_SERVICE_API *)
  MAILBOX_SUPPORT_NS_CLIENT_ID_ZERO : bool;
  ns_mailbox_client_id_info : list ns_mailbox_client_id_info_t;
  CLIENT_ID_OWNER_MAGIC : Z;
}.

(** [client_params_t] as the mailbox fills it. *)
Record client_params_t := {
  ns_client_id_stateless : Z;
  p_invecs : list mb_vec;
  p_outvecs : list mb_vec;
}.

(** The SPM and the platform.  A call returns its status and the lengths the SPM
    wrote to the output vectors; [client_data] is the number of the slot whose
    [msg_handle] the code passes.  A call that is not answered at once is answered
    later (see [MbSystem]). *)
Class MboxEnv (X : Type) := {
  spm_framework_version : X -> (halt + Z) * X;
  spm_version : Z -> X -> (halt + Z) * X;
  agent_psa_call : Z -> Z -> client_params_t -> Z -> X -> (halt + (Z * list Z)) * X;
  agent_psa_connect : Z -> Z -> Z -> Z -> X -> (halt + Z) * X;
  agent_psa_close : Z -> Z -> X -> (halt + Z) * X;
  tfm_mailbox_hal_notify_peer : X -> (halt + unit) * X;
  tfm_ns_mailbox_hal_notify_peer : X -> (halt + unit) * X;
  tfm_ns_mailbox_os_wake_task_isr : Z -> X -> (halt + unit) * X;
  tfm_ns_mailbox_os_lock_acquire : X -> (halt + Z) * X;
  tfm_ns_mailbox_os_lock_release : X -> (halt + Z) * X;
}.

(** ** The state *)

Record mb_state (X : Type) := {
  (* shared: the status words and the slots *)
  pend_slots : Z;
  replied_slots : Z;
  slots : list mailbox_slot_t;
  (* non-secure *)
  slots_ns : list ns_mailbox_slot_t;
  ns_empty_slots : Z;
  (* secure: spe_mailbox_queue, vectors, ns_mailbox_client_id_range_owner *)
  spe_empty_slots : Z;
  queue : list secure_mailbox_slot_t;
  ns_slot_count : Z;
  vectors : list vectors_t;
  client_id_range_owner : list Z;
  mb_env : X;
}.
Arguments pend_slots {X}.
Arguments replied_slots {X}.
Arguments slots {X}.
Arguments slots_ns {X}.
Arguments ns_empty_slots {X}.
Arguments spe_empty_slots {X}.
Arguments queue {X}.
Arguments ns_slot_count {X}.
Arguments vectors {X}.
Arguments client_id_range_owner {X}.
Arguments mb_env {X}.

Section Setters.
Context {X : Type}.
Definition set_pend_slots (v : Z) (s : mb_state X) : mb_state X :=
  {| pend_slots := v; replied_slots := s.(replied_slots); slots := s.(slots); slots_ns := s.(slots_ns);
     ns_empty_slots := s.(ns_empty_slots); spe_empty_slots := s.(spe_empty_slots); queue := s.(queue);
     ns_slot_count := s.(ns_slot_count); vectors := s.(vectors);
     client_id_range_owner := s.(client_id_range_owner); mb_env := s.(mb_env) |}.
Definition set_replied_slots (v : Z) (s : mb_state X) : mb_state X :=
  {| pend_slots := s.(pend_slots); replied_slots := v; slots := s.(slots); slots_ns := s.(slots_ns);
     ns_empty_slots := s.(ns_empty_slots); spe_empty_slots := s.(spe_empty_slots); queue := s.(queue);
     ns_slot_count := s.(ns_slot_count); vectors := s.(vectors);
     client_id_range_owner := s.(client_id_range_owner); mb_env := s.(mb_env) |}.
Definition set_slots (v : list mailbox_slot_t) (s : mb_state X) : mb_state X :=
  {| pend_slots := s.(pend_slots); replied_slots := s.(replied_slots); slots := v;
     slots_ns := s.(slots_ns); ns_empty_slots := s.(ns_empty_slots);
     spe_empty_slots := s.(spe_empty_slots); queue := s.(queue); ns_slot_count := s.(ns_slot_count);
     vectors := s.(vectors); client_id_range_owner := s.(client_id_range_owner); mb_env := s.(mb_env) |}.
Definition set_slots_ns (v : list ns_mailbox_slot_t) (s : mb_state X) : mb_state X :=
  {| pend_slots := s.(pend_slots); replied_slots := s.(replied_slots); slots := s.(slots);
     slots_ns := v; ns_empty_slots := s.(ns_empty_slots); spe_empty_slots := s.(spe_empty_slots);
     queue := s.(queue); ns_slot_count := s.(ns_slot_count); vectors := s.(vectors);
     client_id_range_owner := s.(client_id_range_owner); mb_env := s.(mb_env) |}.
Definition set_ns_empty_slots (v : Z) (s : mb_state X) : mb_state X :=
  {| pend_slots := s.(pend_slots); replied_slots := s.(replied_slots); slots := s.(slots);
     slots_ns := s.(slots_ns); ns_empty_slots := v; spe_empty_slots := s.(spe_empty_slots);
     queue := s.(queue); ns_slot_count := s.(ns_slot_count); vectors := s.(vectors);
     client_id_range_owner := s.(client_id_range_owner); mb_env := s.(mb_env) |}.
Definition set_spe_empty_slots (v : Z) (s : mb_state X) : mb_state X :=
  {| pend_slots := s.(pend_slots); replied_slots := s.(replied_slots); slots := s.(slots);
     slots_ns := s.(slots_ns); ns_empty_slots := s.(ns_empty_slots); spe_empty_slots := v;
     queue := s.(queue); ns_slot_count := s.(ns_slot_count); vectors := s.(vectors);
     client_id_range_owner := s.(client_id_range_owner); mb_env := s.(mb_env) |}.
Definition set_queue (v : list secure_mailbox_slot_t) (s : mb_state X) : mb_state X :=
  {| pend_slots := s.(pend_slots); replied_slots := s.(replied_slots); slots := s.(slots);
     slots_ns := s.(slots_ns); ns_empty_slots := s.(ns_empty_slots);
     spe_empty_slots := s.(spe_empty_slots); queue := v; ns_slot_count := s.(ns_slot_count);
     vectors := s.(vectors); client_id_range_owner := s.(client_id_range_owner); mb_env := s.(mb_env) |}.
Definition set_ns_slot_count (v : Z) (s : mb_state X) : mb_state X :=
  {| pend_slots := s.(pend_slots); replied_slots := s.(replied_slots); slots := s.(slots);
     slots_ns := s.(slots_ns); ns_empty_slots := s.(ns_empty_slots);
     spe_empty_slots := s.(spe_empty_slots); queue := s.(queue); ns_slot_count := v;
     vectors := s.(vectors); client_id_range_owner := s.(client_id_range_owner); mb_env := s.(mb_env) |}.
Definition set_vectors (v : list vectors_t) (s : mb_state X) : mb_state X :=
  {| pend_slots := s.(pend_slots); replied_slots := s.(replied_slots); slots := s.(slots);
     slots_ns := s.(slots_ns); ns_empty_slots := s.(ns_empty_slots);
     spe_empty_slots := s.(spe_empty_slots); queue := s.(queue); ns_slot_count := s.(ns_slot_count);
     vectors := v; client_id_range_owner := s.(client_id_range_owner); mb_env := s.(mb_env) |}.
Definition set_client_id_range_owner (v : list Z) (s : mb_state X) : mb_state X :=
  {| pend_slots := s.(pend_slots); replied_slots := s.(replied_slots); slots := s.(slots);
     slots_ns := s.(slots_ns); ns_empty_slots := s.(ns_empty_slots);
     spe_empty_slots := s.(spe_empty_slots); queue := s.(queue); ns_slot_count := s.(ns_slot_count);
     vectors := s.(vectors); client_id_range_owner := v; mb_env := s.(mb_env) |}.
Definition set_mb_env (v : X) (s : mb_state X) : mb_state X :=
  {| pend_slots := s.(pend_slots); replied_slots := s.(replied_slots); slots := s.(slots);
     slots_ns := s.(slots_ns); ns_empty_slots := s.(ns_empty_slots);
     spe_empty_slots := s.(spe_empty_slots); queue := s.(queue); ns_slot_count := s.(ns_slot_count);
     vectors := s.(vectors); client_id_range_owner := s.(client_id_range_owner); mb_env := v |}.
End Setters.

Abbreviation MB X := (M (mb_state X)).

(** Call the environment. *)
Definition mb_call {X A} (m : X -> (halt + A) * X) : MB X A := fun s =>
  match m s.(mb_env) with
  | (inl h, x) => (Halt h, set_mb_env x s)
  | (inr a, x) => (Val a, set_mb_env x s)
  end.

(** What [tfm_mailbox_config.h] enforces. *)
Class MboxBuildOk `{!MboxBuild} : Prop := {
  slots_at_least_one : (1 <= NUM_MAILBOX_QUEUE_SLOT)%nat;
  slots_at_most_32 : (NUM_MAILBOX_QUEUE_SLOT <= 32)%nat;
}.

(** ** Bit masks of slots *)

(** [1 << idx] *)
Definition slot_bit (idx : nat) : Z := Z.shiftl 1 (Z.of_nat idx).
Definition bit_on (m : Z) (idx : nat) : bool := truth (Z.land m (slot_bit idx)).
Definition bit_set (m : Z) (idx : nat) : Z := Z.lor m (slot_bit idx).
Definition bits_clear (m mask : Z) : Z := Z.land m (Z.lnot mask).
