(* ===== verification/MbSpe.v ===== *)
(** Mailbox between cores: the secure side ([tfm_spe_mailbox.c],
    [tfm_multi_core_client_id.c]). *)

From stdpp Require Import base list numbers.
From S2P Require Import Prelude SpmTypes MbTypes.

Section Spe.
Context `{!MboxBuild} {X : Type} `{!MboxEnv X}.
Abbreviation MBX := (MB X).

(** ** Identifiers of the non-secure clients *)

(** The result of a signed operation; an overflow is undefined. *)
Definition int32_op (x : Z) : MBX Z :=
  if (INT32_MIN <=? x) && (x <? 2 ^ 31) then mret x else stop OutOfBounds.

(** The index of the first entry that satisfies [p]. *)
Fixpoint index_of {A} (p : A -> bool) (i : nat) (l : list A) : option nat :=
  match l with
  | [] => None
  | a :: l' => if p a then Some i else index_of p (S i) l'
  end.

Definition tfm_multi_core_register_client_id_range (owner irq_source : Z) : MBX unit :=
  _ ← fail_if (owner =? 0) SPM_ERROR_BAD_PARAMETERS;
  match index_of (fun e => e.(ci_source) =? irq_source) 0 ns_mailbox_client_id_info with
  | Some i =>
      owners ← gets client_id_range_owner;
      _ ← fail_if (negb (nth i owners 0 =? 0)) SPM_ERROR_GENERIC;
      modifyS (fun s => set_client_id_range_owner (<[i := owner]> s.(client_id_range_owner)) s)
  | None => throw SPM_ERROR_GENERIC
  end.

Definition tfm_multi_core_hal_client_id_translate (owner client_id_in : Z) : MBX Z :=
  _ ← fail_if (owner =? 0) SPM_ERROR_BAD_PARAMETERS;
  _ ← fail_if (if MAILBOX_SUPPORT_NS_CLIENT_ID_ZERO then client_id_in >? 0 else client_id_in >=? 0)
        SPM_ERROR_BAD_PARAMETERS;
  owners ← gets client_id_range_owner;
  match index_of (Z.eqb owner) 0 owners with
  | None => throw SPM_ERROR_GENERIC
  | Some i =>
      match ns_mailbox_client_id_info !! i with
      | None => stop OutOfBounds
      | Some e =>
          range ← int32_op (e.(client_id_limit) - e.(client_id_base));
          minus ← int32_op (-1 * range);
          min_client_id ← int32_op (minus - 1);
          _ ← fail_if (client_id_in <? min_client_id) SPM_ERROR_GENERIC;
          next ← int32_op (e.(client_id_limit) + 1);
          client_id ← int32_op (next + client_id_in);
          _ ← fail_if (client_id >=? 0) SPM_ERROR_GENERIC;
          mret client_id
      end
  end.

(** ** The secure queue *)

(** The inline functions ignore a slot that does not exist. *)
Definition set_spe_queue_empty_status (idx : nat) : MBX unit :=
  if (idx <? NUM_MAILBOX_QUEUE_SLOT)%nat
  then modifyS (fun s => set_spe_empty_slots (bit_set s.(spe_empty_slots) idx) s) else mret tt.
Definition clear_spe_queue_empty_status (idx : nat) : MBX unit :=
  if (idx <? NUM_MAILBOX_QUEUE_SLOT)%nat
  then modifyS (fun s => set_spe_empty_slots (bits_clear s.(spe_empty_slots) (slot_bit idx)) s) else mret tt.
Definition get_spe_queue_empty_status (idx : nat) : MBX bool :=
  gets (fun s => (idx <? NUM_MAILBOX_QUEUE_SLOT)%nat && bit_on s.(spe_empty_slots) idx).

Definition get_nspe_queue_pend_status : MBX Z := gets pend_slots.
Definition set_nspe_queue_replied_status (mask : Z) : MBX unit :=
  modifyS (fun s => set_replied_slots (Z.lor s.(replied_slots) mask) s).
Definition clear_nspe_queue_pend_status (mask : Z) : MBX unit :=
  modifyS (fun s => set_pend_slots (bits_clear s.(pend_slots) mask) s).

Definition get_spe_mailbox_msg_handle (idx : nat) : MBX Z :=
  _ ← fail_if (NUM_MAILBOX_QUEUE_SLOT <=? idx)%nat MAILBOX_INVAL_PARAMS;
  mret (Z.of_nat idx + 1).
Definition get_spe_mailbox_msg_idx (handle : Z) : MBX nat :=
  _ ← fail_if (handle =? MAILBOX_MSG_NULL_HANDLE) MAILBOX_INVAL_PARAMS;
  mret (Z.to_nat (u8 (handle - 1))).

Definition mailbox_clean_queue_slot (idx : nat) : MBX unit :=
  if (idx <? NUM_MAILBOX_QUEUE_SLOT)%nat then
    _ ← modifyS (fun s => set_queue (<[idx := zero_secure_slot]> s.(queue)) s);
    set_spe_queue_empty_status idx
  else mret tt.

(** The number of the slot whose reply is meant. *)
Definition get_nspe_reply_addr (idx : nat) : MBX nat :=
  _ ← panic_if (NUM_MAILBOX_QUEUE_SLOT <=? idx)%nat;
  q ← gets queue;
  let ns_slot_idx := sq_ns_slot_idx (nth idx q zero_secure_slot) in
  n ← gets ns_slot_count;
  _ ← panic_if ((Z.of_nat NUM_MAILBOX_QUEUE_SLOT <=? ns_slot_idx) || (n <=? ns_slot_idx));
  mret (Z.to_nat ns_slot_idx).

Definition upd_reply (i : nat) (f : mailbox_reply_t -> mailbox_reply_t) : MBX unit :=
  modifyS (fun s => set_slots
    (alter (fun x => {| slot_msg := x.(slot_msg); slot_reply := f x.(slot_reply) |}) i s.(slots)) s).
Definition upd_vectors (i : nat) (f : vectors_t -> vectors_t) : MBX unit :=
  modifyS (fun s => set_vectors (alter f i s.(vectors)) s).
Definition set_lv_in_use (b : bool) (v : vectors_t) : vectors_t :=
  {| lv_in_vec := v.(lv_in_vec); lv_out_vec := v.(lv_out_vec); lv_out_len := v.(lv_out_len); lv_in_use := b |}.
Definition set_lv_in_vec (l : list mb_vec) (v : vectors_t) : vectors_t :=
  {| lv_in_vec := l; lv_out_vec := v.(lv_out_vec); lv_out_len := v.(lv_out_len); lv_in_use := v.(lv_in_use) |}.
Definition set_lv_out_vec (l : list mb_vec) (v : vectors_t) : vectors_t :=
  {| lv_in_vec := v.(lv_in_vec); lv_out_vec := l; lv_out_len := v.(lv_out_len); lv_in_use := v.(lv_in_use) |}.
Definition set_lv_out_len (n : Z) (v : vectors_t) : vectors_t :=
  {| lv_in_vec := v.(lv_in_vec); lv_out_vec := v.(lv_out_vec); lv_out_len := n; lv_in_use := v.(lv_in_use) |}.

(** [result] is the [uint32_t] that is stored to the [int32_t] of the reply. *)
Definition mailbox_direct_reply (idx : nat) (result : Z) : MBX unit :=
  i ← get_nspe_reply_addr idx;
  _ ← upd_reply i (fun r => {| return_val := s32 result; out_vec_len := r.(out_vec_len) |});
  vs ← gets vectors;
  let v := nth idx vs zero_vectors in
  _ ← (if v.(lv_in_use) && (result =? PSA_SUCCESS) then
         upd_reply i (fun r => {| return_val := r.(return_val); out_vec_len := map mv_len v.(lv_out_vec) |})
       else mret tt);
  _ ← upd_vectors idx (set_lv_in_use false);
  mailbox_clean_queue_slot idx.

(** ** Dispatching a message *)

(** One round of the loops of [local_copy_vects]: the local copy of a vector. *)
Definition copy_vec (src : list mb_vec) (len i : Z) (put : mb_vec -> MBX unit) : MBX (option unit) :=
  if i <? len then
    let v := nth (Z.to_nat i) src null_vec in
    _ ← put v;
    _ ← fail_if ((v.(mv_base) =? 0) && negb (v.(mv_len) =? 0)) MAILBOX_INVAL_PARAMS;
    mret None
  else
    _ ← put null_vec;
    mret None.
Definition put_in_vec (idx : nat) (i : Z) (v : mb_vec) : MBX unit :=
  upd_vectors idx (fun x => set_lv_in_vec (<[Z.to_nat i := v]> x.(lv_in_vec)) x).
Definition put_out_vec (idx : nat) (i : Z) (v : mb_vec) : MBX unit :=
  upd_vectors idx (fun x => set_lv_out_vec (<[Z.to_nat i := v]> x.(lv_out_vec)) x).

(** The result is the new value of [*control]. *)
Definition local_copy_vects (params : psa_client_params_t) (idx : nat) (control : Z) : MBX Z :=
  let in_len := params.(pc_in_len) in
  let out_len := params.(pc_out_len) in
  _ ← fail_if ((in_len >? PSA_MAX_IOVEC) || (out_len >? PSA_MAX_IOVEC) ||
               (u32 (in_len + out_len) >? PSA_MAX_IOVEC)) MAILBOX_INVAL_PARAMS;
  _ ← for_range 0 PSA_MAX_IOVEC (fun i => copy_vec params.(pc_in_vec) in_len i (put_in_vec idx i));
  _ ← for_range 0 PSA_MAX_IOVEC (fun i => copy_vec params.(pc_out_vec) out_len i (put_out_vec idx i));
  _ ← upd_vectors idx (set_lv_out_len out_len);
  _ ← upd_vectors idx (set_lv_in_use true);
  mret (PARAM_SET_NS_OUTVEC (PARAM_SET_NS_INVEC control)).

(** The lengths the SPM writes through [p_outvecs]. *)
Definition put_lens (lens : list Z) (vs : list mb_vec) : list mb_vec :=
  imap (fun k v => {| mv_base := v.(mv_base); mv_len := nth k lens v.(mv_len) |}) vs.
Definition write_out_lens (idx : nat) (lens : list Z) : MBX unit :=
  upd_vectors idx (fun x => set_lv_out_vec (put_lens lens x.(lv_out_vec)) x).

(** What is known when the switch ends: the status and whether it is to be returned
    at once. *)
Definition call_result (sync0 : bool) (psa_ret : Z) : Z * bool :=
  (psa_ret, sync0 || negb (psa_ret =? PSA_SUCCESS)).

Definition translated (msg : mailbox_msg_t) : MBX (Z + Z) :=
  attempt (tfm_multi_core_hal_client_id_translate CLIENT_ID_OWNER_MAGIC msg.(mm_client_id)).

Definition dispatch_call (msg : mailbox_msg_t) (idx : nat) (control : Z) (sync0 : bool) : MBX (Z * bool) :=
  c ← translated msg;
  match c with
  | inl _ => mret (PSA_ERROR_INVALID_ARGUMENT, true)
  | inr client_id =>
      r ← attempt (local_copy_vects msg.(params) idx control);
      match r with
      | inl _ => mret (PSA_ERROR_INVALID_ARGUMENT, true)
      | inr control =>
          vs ← gets vectors;
          let v := nth idx vs zero_vectors in
          a ← mb_call (agent_psa_call msg.(params).(handle_or_sid) control
                {| ns_client_id_stateless := client_id; p_invecs := v.(lv_in_vec); p_outvecs := v.(lv_out_vec) |}
                (Z.of_nat idx));
          _ ← write_out_lens idx a.2;
          mret (call_result sync0 a.1)
      end
  end.

(** The switch over the type of the call; an error is [MAILBOX_INVAL_PARAMS]. *)
Definition dispatch_type (msg : mailbox_msg_t) (idx : nat) : MBX (Z * bool) :=
  let p := msg.(params) in
  let control := PARAM_PACK p.(type_or_version) p.(pc_in_len) p.(pc_out_len) in
  let sync0 := negb MB_BACKEND_IPC in
  if msg.(call_type) =? MAILBOX_PSA_FRAMEWORK_VERSION then
    v ← mb_call spm_framework_version; mret (v, true)
  else if msg.(call_type) =? MAILBOX_PSA_VERSION then
    v ← mb_call (spm_version p.(handle_or_sid)); mret (v, true)
  else if msg.(call_type) =? MAILBOX_PSA_CALL then dispatch_call msg idx control sync0
  else if MB_CONNECTION_BASED && (msg.(call_type) =? MAILBOX_PSA_CONNECT) then
    c ← translated msg;
    match c with
    | inl _ => mret (PSA_ERROR_INVALID_ARGUMENT, true)
    | inr client_id =>
        r ← mb_call (agent_psa_connect p.(handle_or_sid) p.(type_or_version) client_id (Z.of_nat idx));
        mret (call_result sync0 r)
    end
  else if MB_CONNECTION_BASED && (msg.(call_type) =? MAILBOX_PSA_CLOSE) then
    c ← translated msg;
    match c with
    | inl _ => mret (PSA_ERROR_INVALID_ARGUMENT, true)
    | inr client_id =>
        r ← mb_call (agent_psa_close p.(handle_or_sid) client_id);
        mret (call_result sync0 r)
    end
  else throw MAILBOX_INVAL_PARAMS.

(** The result is the new value of [*reply_slots]. *)
Definition tfm_mailbox_dispatch (msg : mailbox_msg_t) (idx : nat) (reply_slots : Z) : MBX Z :=
  r ← dispatch_type msg idx;
  let '(psa_ret, sync) := r in
  if sync : bool then
    _ ← mailbox_direct_reply idx (u32 psa_ret);
    mret (bit_set reply_slots idx)
  else mret reply_slots.

(** ** Handling the messages *)

(** A slot that is pending: its message is copied. *)
Definition take_slot (idx : nat) : MBX mailbox_msg_t :=
  _ ← clear_spe_queue_empty_status idx;
  ns ← gets slots;
  let msg := slot_msg (nth idx ns zero_slot) in
  h ← get_spe_mailbox_msg_handle idx;
  _ ← modifyS (fun s => set_queue (<[idx :=
        {| sq_msg := msg; sq_ns_slot_idx := Z.of_nat idx; sq_msg_handle := h |}]> s.(queue)) s);
  mret msg.

(** The body of the loop: the message is copied and dispatched.  The result is the
    new [reply_slots] and [msg_dispatched]. *)
Definition handle_slot (idx : nat) (acc : Z * Z) : MBX (Z * Z) :=
  msg ← take_slot idx;
  r ← attempt (tfm_mailbox_dispatch msg idx acc.1);
  match r with
  | inr reply_slots => mret (reply_slots, acc.2 + 1)
  | inl _ => _ ← mailbox_clean_queue_slot idx; mret acc
  end.

(** One round of the loop. *)
Definition handle_round (pend : Z) (idx : nat) (acc : Z * Z) : MBX (Z * Z) :=
  if bit_on pend idx then handle_slot idx acc else mret acc.

(** The last part, in a critical section. *)
Definition handle_end (pend reply_slots : Z) : MBX unit :=
  _ ← clear_nspe_queue_pend_status pend;
  set_nspe_queue_replied_status reply_slots.

Definition tfm_mailbox_handle_msg : MBX Z :=
  pend ← get_nspe_queue_pend_status;
  _ ← fail_if (pend =? 0) MAILBOX_NO_PEND_EVENT;
  n ← gets ns_slot_count;
  r ← fold_range 0 (Z.min n (Z.of_nat NUM_MAILBOX_QUEUE_SLOT)) (0, 0)
        (fun i acc => handle_round pend (Z.to_nat i) acc);
  _ ← handle_end pend r.1;
  _ ← (if r.1 =? 0 then mret tt else mb_call tfm_mailbox_hal_notify_peer);
  mret r.2.

(** ** Replying later *)

Definition tfm_mailbox_reply_msg (handle reply : Z) : MBX unit :=
  idx ← (if handle =? MAILBOX_MSG_NULL_HANDLE then mret 0%nat else get_spe_mailbox_msg_idx handle);
  e ← get_spe_queue_empty_status idx;
  _ ← fail_if e MAILBOX_NO_PEND_EVENT;
  _ ← mailbox_direct_reply idx (u32 reply);
  _ ← set_nspe_queue_replied_status (slot_bit idx);
  mb_call tfm_mailbox_hal_notify_peer.

(** The callbacks registered with the RPC module; [owner] is the number of the slot
    whose [msg_handle] the pointer names. *)
Definition mailbox_handle_req : MBX unit :=
  _ ← attempt tfm_mailbox_handle_msg;
  mret tt.
Definition mailbox_reply (owner : option nat) (ret : Z) : MBX unit :=
  q ← gets queue;
  let handle := match owner with
                | Some idx => sq_msg_handle (nth idx q zero_secure_slot)
                | None => MAILBOX_MSG_NULL_HANDLE
                end in
  _ ← attempt (tfm_mailbox_reply_msg handle ret);
  mret tt.
Definition mailbox_process_new_msg : MBX Z :=
  status ← tfm_mailbox_handle_msg;
  mret (u32 status).

(** ** Start-up *)

Definition all_empty : Z := u32 (u32 (slot_bit (NUM_MAILBOX_QUEUE_SLOT - 1) - 1) +
                                 slot_bit (NUM_MAILBOX_QUEUE_SLOT - 1)).

(** [access] says whether the HAL finds the range readable and writable for the
    non-secure side; [count] is the number of slots the non-secure side announced. *)
Definition validate_mailbox_address_ranges (status_ok slots_ok : bool) : MBX unit :=
  n ← gets ns_slot_count;
  _ ← fail_if ((n >? Z.of_nat NUM_MAILBOX_QUEUE_SLOT) || (n =? 0)) MAILBOX_INIT_ERROR;
  _ ← fail_if (negb status_ok) MAILBOX_INVAL_PARAMS;
  fail_if (negb slots_ok) MAILBOX_INVAL_PARAMS.

(** [hal]: what [tfm_mailbox_hal_init] does, in particular to [ns_slot_count];
    [registered]: whether the RPC module took the callbacks. *)
Definition tfm_mailbox_init (registered : bool) (hal : MBX unit) (status_ok slots_ok : bool) : MBX unit :=
  _ ← modifyS (set_queue (replicate NUM_MAILBOX_QUEUE_SLOT zero_secure_slot));
  _ ← modifyS (set_ns_slot_count 0);
  _ ← modifyS (set_spe_empty_slots all_empty);
  _ ← fail_if (negb registered) MAILBOX_CALLBACK_REG_ERROR;
  _ ← hal;
  validate_mailbox_address_ranges status_ok slots_ok.
End Spe.
