(* ===== verification/MbNs.v ===== *)
(** Mailbox between cores: the non-secure side ([interface/src/multi_core/]:
    [tfm_ns_mailbox.c] with [TFM_MULTI_CORE_NS_OS], [tfm_ns_mailbox_common.c],
    [tfm_multi_core_psa_ns_api.c]; the inline functions of [tfm_ns_mailbox.h]).

    A client sleeps in the middle of its call and the notification interrupt of the
    secure core wakes it, so [tfm_ns_mailbox_client_call] and
    [tfm_ns_mailbox_wake_reply_owner_isr] are written as programs of atomic steps:
    [client_step] and [isr_step] run the next one, which is what a lock or a critical
    section of the C code covers, or an access to what only the caller touches. *)

From stdpp Require Import base list numbers.
From S2P Require Import Prelude SpmTypes MbTypes.

Section Ns.
Context `{!MboxBuild} {X : Type} `{!MboxEnv X}.
Abbreviation MBX := (MB X).

(** ** The status of the queue *)

Definition upd_slot_ns (idx : nat) (f : ns_mailbox_slot_t -> ns_mailbox_slot_t) : MBX unit :=
  modifyS (fun s => set_slots_ns (alter f idx s.(slots_ns)) s).

Definition set_queue_slot_empty (idx : nat) : MBX unit :=
  if (idx <? NUM_MAILBOX_QUEUE_SLOT)%nat
  then modifyS (fun s => set_ns_empty_slots (bit_set s.(ns_empty_slots) idx) s) else mret tt.
Definition clear_queue_slot_empty (idx : nat) : MBX unit :=
  if (idx <? NUM_MAILBOX_QUEUE_SLOT)%nat
  then modifyS (fun s => set_ns_empty_slots (bits_clear s.(ns_empty_slots) (slot_bit idx)) s) else mret tt.
Definition set_queue_slot_pend (idx : nat) : MBX unit :=
  if (idx <? NUM_MAILBOX_QUEUE_SLOT)%nat
  then modifyS (fun s => set_pend_slots (bit_set s.(pend_slots) idx) s) else mret tt.
Definition clear_queue_slot_all_replied : MBX Z :=
  status ← gets replied_slots;
  _ ← modifyS (set_replied_slots 0);
  mret status.
Definition set_woken (b : bool) (x : ns_mailbox_slot_t) : ns_mailbox_slot_t :=
  {| slot_owner := x.(slot_owner); is_woken := b |}.
Definition set_queue_slot_woken (idx : nat) : MBX unit :=
  if (idx <? NUM_MAILBOX_QUEUE_SLOT)%nat then upd_slot_ns idx (set_woken true) else mret tt.
Definition is_queue_slot_woken (idx : nat) : MBX bool :=
  gets (fun s => (idx <? NUM_MAILBOX_QUEUE_SLOT)%nat && is_woken (nth idx s.(slots_ns) zero_ns_slot)).
Definition clear_queue_slot_woken (idx : nat) : MBX unit :=
  if (idx <? NUM_MAILBOX_QUEUE_SLOT)%nat then upd_slot_ns idx (set_woken false) else mret tt.
Definition set_msg_owner (idx : nat) (owner : Z) : MBX unit :=
  if (idx <? NUM_MAILBOX_QUEUE_SLOT)%nat
  then upd_slot_ns idx (fun x => {| slot_owner := owner; is_woken := x.(is_woken) |}) else mret tt.

(** The first of [k] slots from [i] on whose bit is set; the one behind them if none. *)
Fixpoint first_on (status : Z) (i k : nat) : nat :=
  match k with
  | O => i
  | Datatypes.S k' => if bit_on status i then i else first_on status (Datatypes.S i) k'
  end.

(** ** A client's call *)

Definition acquire_empty_slot : MBX nat :=
  status ← gets ns_empty_slots;
  if status =? 0 then mret NUM_MAILBOX_QUEUE_SLOT
  else
    let idx := first_on status 0 NUM_MAILBOX_QUEUE_SLOT in
    _ ← clear_queue_slot_empty idx;
    mret idx.

(** The parts of [mailbox_tx_client_req] behind the acquisition. *)
Definition fill_message (idx : nat) (msg : mailbox_msg_t) : MBX unit :=
  modifyS (fun s => set_slots
    (alter (fun x => {| slot_msg := msg; slot_reply := x.(slot_reply) |}) idx s.(slots)) s).

(** [mailbox_rx_client_reply]: the copy of the reply, and the release of the slot. *)
Definition copy_reply (idx : nat) : MBX mailbox_reply_t :=
  gets (fun s => slot_reply (nth idx s.(slots) zero_slot)).
Definition release_slot (idx : nat) : MBX unit :=
  _ ← clear_queue_slot_woken idx;
  set_queue_slot_empty idx.

Definition mailbox_wait_reply_signal (idx : nat) : MBX bool :=
  w ← is_queue_slot_woken idx;
  if w : bool then _ ← clear_queue_slot_woken idx; mret true else mret false.

(** Where a call is: the function and what it holds. *)
Inductive stage :=
  | Start                                    (* tfm_ns_mailbox_client_call entered *)
  | Locked                                   (* the lock is taken *)
  | Acquired (idx : nat)                     (* mailbox_tx_client_req: acquire_empty_slot done *)
  | Filled (idx : nat)                       (* the message is written *)
  | Owned (idx : nat)                        (* set_msg_owner done *)
  | Pended (idx : nat)                       (* set_queue_slot_pend done *)
  | Waiting (idx : nat)                      (* mailbox_wait_reply *)
  | Signalled (idx : nat)                    (* mailbox_rx_client_reply *)
  | Copied (idx : nat) (r : mailbox_reply_t)    (* the reply is copied *)
  | Unowned (idx : nat) (r : mailbox_reply_t)   (* set_msg_owner(idx, NULL) done *)
  | Exiting (ret : Z) (r : option mailbox_reply_t)   (* the label exit *)
  | Done (ret : Z) (r : option mailbox_reply_t).     (* returned; [r] is what *reply got *)

(** The next step of a call with the message [msg] by the task [task]. *)
Definition client_step (msg : mailbox_msg_t) (task : Z) (st : stage) : MBX stage :=
  match st with
  | Start =>
      r ← mb_call tfm_ns_mailbox_os_lock_acquire;
      mret (if negb (r =? MAILBOX_SUCCESS) then Done MAILBOX_QUEUE_FULL None else Locked)
  | Locked =>
      idx ← acquire_empty_slot;
      mret (if (NUM_MAILBOX_QUEUE_SLOT <=? idx)%nat then Exiting MAILBOX_QUEUE_FULL None else Acquired idx)
  | Acquired idx => _ ← fill_message idx msg; mret (Filled idx)
  | Filled idx => _ ← set_msg_owner idx task; mret (Owned idx)
  | Owned idx => _ ← set_queue_slot_pend idx; mret (Pended idx)
  | Pended idx => _ ← mb_call tfm_ns_mailbox_hal_notify_peer; mret (Waiting idx)
  | Waiting idx =>
      is_replied ← mailbox_wait_reply_signal idx;
      mret (if is_replied : bool then Signalled idx else Waiting idx)
  | Signalled idx => r ← copy_reply idx; mret (Copied idx r)
  | Copied idx r => _ ← set_msg_owner idx 0; mret (Unowned idx r)
  | Unowned idx r => _ ← release_slot idx; mret (Exiting MAILBOX_SUCCESS (Some r))
  | Exiting ret r =>
      l ← mb_call tfm_ns_mailbox_os_lock_release;
      mret (Done (if negb (l =? MAILBOX_SUCCESS) then MAILBOX_GENERIC_ERROR else ret) r)
  | Done ret r => mret (Done ret r)
  end.

(** ** The interrupt *)

Inductive isr_t :=
  | IsrIdle
  | IsrLoop (replied_status : Z) (idx : nat)
  | IsrWake (replied_status : Z) (idx : nat).    (* is_woken is set, the task is not woken yet *)

(** The next step of [tfm_ns_mailbox_wake_reply_owner_isr]. *)
Definition isr_step (i : isr_t) : MBX isr_t :=
  match i with
  | IsrIdle =>
      replied ← clear_queue_slot_all_replied;
      mret (if replied =? 0 then IsrIdle else IsrLoop replied 0)
  | IsrLoop replied idx =>
      if (NUM_MAILBOX_QUEUE_SLOT <=? idx)%nat then mret IsrIdle
      else if negb (bit_on replied idx) then mret (IsrLoop replied (Datatypes.S idx))
      else _ ← set_queue_slot_woken idx; mret (IsrWake replied idx)
  | IsrWake replied idx =>
      s ← gets slots_ns;
      _ ← mb_call (tfm_ns_mailbox_os_wake_task_isr (slot_owner (nth idx s zero_ns_slot)));
      let replied' := bits_clear replied (slot_bit idx) in
      mret (if replied' =? 0 then IsrIdle else IsrLoop replied' (Datatypes.S idx))
  end.

(** ** Start-up *)

(** [memset] of the queue, [hal] and [os_lock_init] are the platform's. *)
Definition tfm_ns_mailbox_init (hal os_lock_init : MBX unit) : MBX unit :=
  _ ← modifyS (fun s => set_pend_slots 0 (set_replied_slots 0
        (set_slots (replicate NUM_MAILBOX_QUEUE_SLOT zero_slot)
        (set_slots_ns (replicate NUM_MAILBOX_QUEUE_SLOT zero_ns_slot) (set_ns_empty_slots 0 s)))));
  _ ← modifyS (set_ns_empty_slots (slot_bit (NUM_MAILBOX_QUEUE_SLOT - 1) - 1));
  _ ← modifyS (fun s => set_ns_empty_slots
        (u32 (s.(ns_empty_slots) + slot_bit (NUM_MAILBOX_QUEUE_SLOT - 1))) s);
  _ ← hal;
  os_lock_init.
End Ns.

(** ** The API of the non-secure clients *)

Definition PSA_NULL_HANDLE : Z := 0.
Definition PSA_VERSION_NONE : Z := 0.
Definition NON_SECURE_CLIENT_ID : Z := -1.
Definition PSA_INTER_CORE_COMM_ERR : Z := INT32_MIN + 255.

Definition no_reply : mailbox_reply_t :=
  {| return_val := MAILBOX_GENERIC_ERROR; out_vec_len := replicate MAX_IOVEC 0 |}.

Section Api.
(** The monad of the caller; [client_call] is [tfm_ns_mailbox_client_call]: its status and
    what it left in [*reply].  [stack] is what the caller's structure holds before it
    is filled. *)
Context {W : Type} (client_call : Z -> psa_client_params_t -> Z -> mailbox_reply_t ->
                                  M W (Z * mailbox_reply_t)).
Variable stack : psa_client_params_t.

Definition with_words (a b : Z) : psa_client_params_t :=
  {| handle_or_sid := a; type_or_version := b; pc_in_vec := stack.(pc_in_vec); pc_in_len := stack.(pc_in_len);
     pc_out_vec := stack.(pc_out_vec); pc_out_len := stack.(pc_out_len) |}.

Definition PSA_FRAMEWORK_VERSION_MULTICORE : M W Z :=
  r ← client_call MAILBOX_PSA_FRAMEWORK_VERSION zero_params NON_SECURE_CLIENT_ID no_reply;
  mret (if r.1 =? MAILBOX_SUCCESS then u32 r.2.(return_val) else PSA_VERSION_NONE).

Definition PSA_VERSION_MULTICORE (sid : Z) : M W Z :=
  r ← client_call MAILBOX_PSA_VERSION (with_words sid stack.(type_or_version)) NON_SECURE_CLIENT_ID no_reply;
  mret (if r.1 =? MAILBOX_SUCCESS then u32 r.2.(return_val) else PSA_VERSION_NONE).

Definition PSA_CONNECT_MULTICORE (sid version : Z) : M W Z :=
  r ← client_call MAILBOX_PSA_CONNECT (with_words sid version) NON_SECURE_CLIENT_ID no_reply;
  mret (if r.1 =? MAILBOX_SUCCESS then r.2.(return_val) else PSA_NULL_HANDLE).

(** [in_vec] and [out_vec] are the client's arrays, [None] for a null pointer. *)
Definition call_arrays_bad (in_vec : option (list mb_vec)) (in_len : Z)
    (out_vec : option (list mb_vec)) (out_len : Z) : bool :=
  (in_len >? PSA_MAX_IOVEC) || (out_len >? PSA_MAX_IOVEC) || (u32 (in_len + out_len) >? PSA_MAX_IOVEC) ||
  (bool_decide (in_vec = None) && (in_len >? 0)) || (bool_decide (out_vec = None) && (out_len >? 0)).

(** [memcpy] of the first [n] vectors. *)
Definition copy_vecs (src : option (list mb_vec)) (n : Z) (dst : list mb_vec) : list mb_vec :=
  let src := take (Z.to_nat n) (default [] src) in src ++ drop (length src) dst.

(** The status and the lengths left in the client's [out_vec]. *)
Definition PSA_CALL_MULTICORE (handle type : Z) (in_vec : option (list mb_vec)) (in_len : Z)
    (out_vec : option (list mb_vec)) (out_len : Z) : M W (Z * option (list mb_vec)) :=
  if call_arrays_bad in_vec in_len out_vec out_len
  then mret (PSA_ERROR_PROGRAMMER_ERROR, out_vec)
  else
    r ← client_call MAILBOX_PSA_CALL
          {| handle_or_sid := handle; type_or_version := type;
             pc_in_vec := copy_vecs in_vec in_len stack.(pc_in_vec); pc_in_len := in_len;
             pc_out_vec := copy_vecs out_vec out_len stack.(pc_out_vec); pc_out_len := out_len |}
          NON_SECURE_CLIENT_ID no_reply;
    let n := Z.to_nat out_len in
    mret (if r.1 =? MAILBOX_SUCCESS then r.2.(return_val) else PSA_INTER_CORE_COMM_ERR,
          (fun l => zip_with (fun v len => {| mv_base := v.(mv_base); mv_len := len |})
                      (take n l) r.2.(out_vec_len) ++ drop n l) <$> out_vec).

Definition PSA_CLOSE_MULTICORE (handle : Z) : M W unit :=
  _ ← client_call MAILBOX_PSA_CLOSE (with_words handle stack.(type_or_version)) NON_SECURE_CLIENT_ID no_reply;
  mret tt.
End Api.
