(* ===== verification/MbSystem.v ===== *)
(** Mailbox between cores: the two cores together.

    The non-secure calls, the interrupt that wakes them and the secure partition run
    interleaved, one atomic step at a time ([step]).  A call is known by a number; the
    steps of the code are those of [MbNs] and [MbSpe], and what the relation adds is
    history: which call a slot belongs to, which slots the SPM owes a reply, and what
    happened to each call. *)

From stdpp Require Import base list numbers gmap.
From S2P Require Import Prelude SpmTypes MbTypes MbSpe MbNs.

(** What happened to a call: the secure side read its message; the SPM answered it,
    with the lengths it left in the output vectors. *)
Inductive event :=
  | ReadMsg (msg : mailbox_msg_t)
  | Answer (ret : Z) (lens : list Z).

Record call_t := { cl_msg : mailbox_msg_t; cl_task : Z; cl_stage : stage; cl_events : list event }.

(** The secure partition: between requests, or in [tfm_mailbox_handle_msg], in front of
    the round [idx] of its loop. *)
Inductive spe_t :=
  | SpeIdle
  | SpeScan (pend : Z) (idx : nat) (acc : Z * Z).

Record sys (X : Type) := {
  mem : mb_state X;
  calls : gmap nat call_t;
  isr : isr_t;
  spe : spe_t;
  tag : gmap nat nat;       (* the call that holds a slot *)
  owed : gset nat;          (* the slots whose call the SPM has not answered *)
}.
Arguments mem {X}.
Arguments calls {X}.
Arguments isr {X}.
Arguments spe {X}.
Arguments tag {X}.
Arguments owed {X}.

(** The slot a call holds. *)
Definition slot_of (st : stage) : option nat :=
  match st with
  | Acquired i | Filled i | Owned i | Pended i | Waiting i | Signalled i | Copied i _ | Unowned i _ => Some i
  | Start | Locked | Exiting _ _ | Done _ _ => None
  end.

Definition at_stage (st : stage) (cl : call_t) : call_t :=
  {| cl_msg := cl.(cl_msg); cl_task := cl.(cl_task); cl_stage := st; cl_events := cl.(cl_events) |}.
Definition add_events (es : list event) (cl : call_t) : call_t :=
  {| cl_msg := cl.(cl_msg); cl_task := cl.(cl_task); cl_stage := cl.(cl_stage); cl_events := cl.(cl_events) ++ es |}.

Definition retag (c : nat) (st st' : stage) (t : gmap nat nat) : gmap nat nat :=
  match slot_of st, slot_of st' with
  | None, Some i => <[i := c]> t
  | Some i, None => delete i t
  | _, _ => t
  end.

(** Record what happened to the call in slot [i]. *)
Definition log (i : nat) (es : list event) (t : gmap nat nat) (cs : gmap nat call_t) : gmap nat call_t :=
  match t !! i with
  | Some c => alter (add_events es) c cs
  | None => cs
  end.

Section System.
Context `{!MboxBuild} {X : Type} `{!MboxEnv X}.
Abbreviation MBX := (MB X).

Definition lens_at (i : nat) (s : mb_state X) : list Z :=
  map mv_len (lv_out_vec (nth i s.(vectors) zero_vectors)).

(** What a round of the loop does to the call in slot [i]: whether the SPM owes it
    a reply from now on, and the events. *)
Definition round_effect (pend : Z) (i : nat) (s : mb_state X) : bool * list event :=
  if bit_on pend i then
    match take_slot i s with
    | (Val msg, s1) =>
        match dispatch_type msg i s1 with
        | (Val (ret, true), s2) => (false, [ReadMsg msg; Answer ret (lens_at i s2)])
        | (Val (ret, false), _) => (true, [ReadMsg msg])
        | _ => (false, [ReadMsg msg])
        end
    | _ => (false, [])
    end
  else (false, []).

(** The SPM answers the call in slot [i]: it writes the lengths and calls the callback. *)
Definition spm_replies (i : nat) (ret : Z) (lens : list Z) : MBX unit :=
  _ ← write_out_lens i lens;
  mailbox_reply (Some i) ret.

Definition scan_bound (s : mb_state X) : nat :=
  Z.to_nat (Z.min s.(ns_slot_count) (Z.of_nat NUM_MAILBOX_QUEUE_SLOT)).

Inductive step (a : sys X) : sys X -> Prop :=
  | step_call c msg task :
      a.(calls) !! c = None ->
      step a {| mem := a.(mem); isr := a.(isr); spe := a.(spe); tag := a.(tag); owed := a.(owed);
                calls := <[c := {| cl_msg := msg; cl_task := task; cl_stage := Start; cl_events := [] |}]> a.(calls) |}
  | step_client c cl st m :
      a.(calls) !! c = Some cl ->
      client_step cl.(cl_msg) cl.(cl_task) cl.(cl_stage) a.(mem) = (Val st, m) ->
      step a {| mem := m; isr := a.(isr); spe := a.(spe); owed := a.(owed);
                tag := retag c cl.(cl_stage) st a.(tag);
                calls := <[c := at_stage st cl]> a.(calls) |}
  | step_isr i m :
      isr_step a.(isr) a.(mem) = (Val i, m) ->
      step a {| mem := m; isr := i; spe := a.(spe); tag := a.(tag); owed := a.(owed); calls := a.(calls) |}
  | step_scan :
      a.(spe) = SpeIdle ->
      a.(mem).(pend_slots) <> 0 ->
      step a {| mem := a.(mem); isr := a.(isr); tag := a.(tag); owed := a.(owed); calls := a.(calls);
                spe := SpeScan a.(mem).(pend_slots) 0 (0, 0) |}
  | step_round pend i acc acc' m :
      a.(spe) = SpeScan pend i acc ->
      (i < scan_bound a.(mem))%nat ->
      handle_round pend i acc a.(mem) = (Val acc', m) ->
      step a {| mem := m; isr := a.(isr); tag := a.(tag); spe := SpeScan pend (S i) acc';
                owed := (if (round_effect pend i a.(mem)).1 then {[i]} ∪ a.(owed) else a.(owed));
                calls := log i (round_effect pend i a.(mem)).2 a.(tag) a.(calls) |}
  | step_end pend i acc m :
      a.(spe) = SpeScan pend i acc ->
      (scan_bound a.(mem) <= i)%nat ->
      (_ ← handle_end pend acc.1; if acc.1 =? 0 then mret tt else mb_call tfm_mailbox_hal_notify_peer)
        a.(mem) = (Val tt, m) ->
      step a {| mem := m; isr := a.(isr); tag := a.(tag); owed := a.(owed); calls := a.(calls); spe := SpeIdle |}
  | step_reply i ret lens m :
      a.(spe) = SpeIdle ->
      i ∈ a.(owed) ->
      length lens = MAX_IOVEC ->
      spm_replies i ret lens a.(mem) = (Val tt, m) ->
      step a {| mem := m; isr := a.(isr); tag := a.(tag); spe := a.(spe);
                owed := a.(owed) ∖ {[i]};
                calls := log i [Answer ret lens] a.(tag) a.(calls) |}.

(** Both sides have started and nothing has been called. *)
Record initial (a : sys X) : Prop := {
  init_ns : exists s hal, tfm_ns_mailbox_init (mret tt) (mret tt) s = (Val tt, hal) /\
              exists m, tfm_mailbox_init true (modifyS (set_ns_slot_count (Z.of_nat NUM_MAILBOX_QUEUE_SLOT)))
                          true true hal = (Val tt, m) /\ a.(mem) = m /\
              s.(vectors) = replicate NUM_MAILBOX_QUEUE_SLOT zero_vectors;
  init_calls : a.(calls) = ∅;
  init_isr : a.(isr) = IsrIdle;
  init_spe : a.(spe) = SpeIdle;
  init_tag : a.(tag) = ∅;
  init_owed : a.(owed) = ∅;
}.

Definition reachable (a : sys X) : Prop := exists a0, initial a0 /\ rtc step a0 a.
End System.
