(* ===== verification/MbInv.v ===== *)
(** Mailbox between cores: the protocol of a slot.

    A slot is always in one of the phases below, which say where the call it carries
    is: who may touch the slot, which status bits are on, and what the history of the
    call is.  [view] is all of the state that concerns one slot; a step of either core
    changes the view of one slot, or moves every slot along at once. *)

From stdpp Require Import base list numbers gmap.
From S2P Require Import Prelude SpmTypes MbTypes MbSpe MbNs MbSystem.

(** ** Bit masks *)

Lemma bit_on_testbit m i : bit_on m i = Z.testbit m (Z.of_nat i).
Proof.
  unfold bit_on, slot_bit. rewrite Z.shiftl_1_l, land_pow2 by lia.
  destruct (Z.testbit m (Z.of_nat i)) eqn:E; [|done].
  apply truth_true. pose proof (Z.pow_pos_nonneg 2 (Z.of_nat i)). lia.
Qed.

Lemma bit_on_0 i : bit_on 0 i = false.
Proof. rewrite bit_on_testbit. apply Z.bits_0. Qed.

Lemma bit_on_lor m m' i : bit_on (Z.lor m m') i = bit_on m i || bit_on m' i.
Proof. rewrite !bit_on_testbit. apply Z.lor_spec. Qed.

Lemma bit_on_slot_bit i j : bit_on (slot_bit i) j = bool_decide (i = j).
Proof.
  rewrite bit_on_testbit. unfold slot_bit. rewrite Z.shiftl_1_l, Z.pow2_bits_eqb by lia.
  case_bool_decide; lia.
Qed.

Lemma bit_on_set m i j : bit_on (bit_set m i) j = bit_on m j || bool_decide (i = j).
Proof. unfold bit_set. by rewrite bit_on_lor, bit_on_slot_bit. Qed.

Lemma bit_on_clear m mask i : bit_on (bits_clear m mask) i = bit_on m i && negb (bit_on mask i).
Proof. rewrite !bit_on_testbit. unfold bits_clear. by rewrite Z.land_spec, Z.lnot_spec by lia. Qed.

Lemma bit_on_nonzero m i : bit_on m i = true -> m <> 0.
Proof. intros E ->. by rewrite bit_on_0 in E. Qed.

Create HintDb bits discriminated.
#[export] Hint Rewrite bit_on_0 bit_on_lor bit_on_slot_bit bit_on_set bit_on_clear : bits.

Lemma first_on_spec st i k :
  (i <= first_on st i k <= i + k)%nat /\ (first_on st i k < i + k -> bit_on st (first_on st i k) = true)%nat.
Proof.
  revert i. induction k as [|k IH]; intros i; simpl; [lia|].
  destruct (bit_on st i) eqn:E; [split; [lia|done]|].
  destruct (IH (Datatypes.S i)). split; [lia|]. intros. apply H0. lia.
Qed.

(** ** The view of a slot *)

Record flags := {
  f_empty : bool;          (* empty for the non-secure side *)
  f_pend : bool;
  f_repl : bool;
  f_woken : bool;
  f_spe : bool;            (* empty for the secure side *)
  f_isr : bool;            (* the interrupt handler has still to wake the owner *)
  f_owed : bool;
  f_scan : option bool;    (* in the scan of the secure side; in front of its round *)
  f_ans : bool;            (* answered by the scan *)
}.

Record view := {
  v_flags : flags;
  v_slot : option mailbox_slot_t;
  v_sq : option secure_mailbox_slot_t;
  v_vec : option vectors_t;
  v_tag : option nat;
  v_call : option call_t;
}.

Definition isr_has (h : isr_t) (i : nat) : bool :=
  match h with
  | IsrIdle => false
  | IsrLoop b k => bit_on b i && (k <=? i)%nat
  | IsrWake b k => bit_on b i && (k <? i)%nat
  end.
Definition scan_at (h : spe_t) (i : nat) : option bool :=
  match h with
  | SpeIdle => None
  | SpeScan pend k _ => if bit_on pend i then Some (k <=? i)%nat else None
  end.
Definition scan_ans (h : spe_t) (i : nat) : bool :=
  match h with SpeIdle => false | SpeScan _ _ acc => bit_on acc.1 i end.

Definition call_in {X} (a : sys X) (i : nat) : option call_t :=
  a.(tag) !! i ≫= fun c => a.(calls) !! c.

Definition flags_at {X} (a : sys X) (i : nat) : flags :=
  {| f_empty := bit_on a.(mem).(ns_empty_slots) i;
     f_pend := bit_on a.(mem).(pend_slots) i;
     f_repl := bit_on a.(mem).(replied_slots) i;
     f_woken := from_option is_woken false (a.(mem).(slots_ns) !! i);
     f_spe := bit_on a.(mem).(spe_empty_slots) i;
     f_isr := isr_has a.(isr) i;
     f_owed := bool_decide (i ∈ a.(owed));
     f_scan := scan_at a.(spe) i;
     f_ans := scan_ans a.(spe) i |}.

Definition view_at {X} (a : sys X) (i : nat) : view :=
  {| v_flags := flags_at a i; v_slot := a.(mem).(slots) !! i; v_sq := a.(mem).(queue) !! i;
     v_vec := a.(mem).(vectors) !! i; v_tag := a.(tag) !! i; v_call := call_in a i |}.

(** ** The phases *)

Inductive phase :=
  | Free                (* no call has it *)
  | Held                (* the call prepares its message, or takes its reply *)
  | Pending             (* the message waits for a scan *)
  | Scanned             (* in a scan, in front of its round *)
  | ScanAnswered        (* answered in this scan *)
  | ScanOwed            (* taken by the SPM in this scan *)
  | ScanLost            (* refused in this scan *)
  | Owed                (* at the SPM *)
  | Replied             (* the reply waits for the interrupt *)
  | InIsr               (* seen by the interrupt *)
  | Woken               (* the call may go on *)
  | Lost.               (* refused: nobody will answer *)

#[export] Instance phase_eq_dec : EqDecision phase.
Proof. solve_decision. Defined.

Definition flags_of (p : phase) : flags :=
  let on q := bool_decide (p = q) in
  {| f_empty := on Free;
     f_pend := on Pending || on Scanned || on ScanAnswered || on ScanOwed || on ScanLost;
     f_repl := on Replied;
     f_woken := on Woken;
     f_spe := negb (on ScanOwed || on Owed);
     f_isr := on InIsr;
     f_owed := on ScanOwed || on Owed;
     f_scan := match p with
               | Scanned => Some true
               | ScanAnswered | ScanOwed | ScanLost => Some false
               | _ => None
               end;
     f_ans := on ScanAnswered |}.

(** The calls the secure side knows. *)
Definition known_type `{!MboxBuild} (t : Z) : bool :=
  (t =? MAILBOX_PSA_FRAMEWORK_VERSION) || (t =? MAILBOX_PSA_VERSION) || (t =? MAILBOX_PSA_CALL) ||
  (MB_CONNECTION_BASED && ((t =? MAILBOX_PSA_CONNECT) || (t =? MAILBOX_PSA_CLOSE))).

(** [r] is the answer of the SPM to the message of the call, which was read once. *)
Definition answered_by `{!MboxBuild} (cl : call_t) (r : mailbox_reply_t) : Prop :=
  known_type cl.(cl_msg).(call_type) = true /\
  exists ret lens, cl.(cl_events) = [ReadMsg cl.(cl_msg); Answer ret lens] /\
    r.(return_val) = s32 (u32 ret) /\
    (cl.(cl_msg).(call_type) = MAILBOX_PSA_CALL -> u32 ret = PSA_SUCCESS -> r.(out_vec_len) = lens).

Section Phases.
Context `{!MboxBuild}.

Definition waits (i : nat) (cl : call_t) : Prop :=
  cl.(cl_stage) = Pended i \/ cl.(cl_stage) = Waiting i.

(** What a call that holds its slot alone relies on. *)
Definition held_ok (i : nat) (v : view) (cl : call_t) : Prop :=
  match cl.(cl_stage) with
  | Acquired j => j = i /\ cl.(cl_events) = []
  | Filled j | Owned j => j = i /\ cl.(cl_events) = [] /\ slot_msg <$> v.(v_slot) = Some cl.(cl_msg)
  | Signalled j => j = i /\ exists sl, v.(v_slot) = Some sl /\ answered_by cl sl.(slot_reply)
  | Copied j r | Unowned j r => j = i /\ answered_by cl r
  | _ => False
  end.

Definition sent_ok (i : nat) (v : view) (cl : call_t) : Prop :=
  waits i cl /\ cl.(cl_events) = [] /\ slot_msg <$> v.(v_slot) = Some cl.(cl_msg).

Definition owed_ok (i : nat) (v : view) (cl : call_t) : Prop :=
  waits i cl /\ known_type cl.(cl_msg).(call_type) = true /\ cl.(cl_events) = [ReadMsg cl.(cl_msg)] /\
  v.(v_sq) = Some {| sq_msg := cl.(cl_msg); sq_ns_slot_idx := Z.of_nat i; sq_msg_handle := Z.of_nat i + 1 |} /\
  (cl.(cl_msg).(call_type) = MAILBOX_PSA_CALL -> lv_in_use <$> v.(v_vec) = Some true).

Definition done_ok (i : nat) (v : view) (cl : call_t) : Prop :=
  waits i cl /\ exists sl, v.(v_slot) = Some sl /\ answered_by cl sl.(slot_reply).

Definition lost_ok (i : nat) (v : view) (cl : call_t) : Prop :=
  waits i cl /\ cl.(cl_events) = [ReadMsg cl.(cl_msg)] /\ known_type cl.(cl_msg).(call_type) = false.

Definition content_ok (i : nat) (v : view) (p : phase) (cl : call_t) : Prop :=
  match p with
  | Free => False
  | Held => held_ok i v cl
  | Pending | Scanned => sent_ok i v cl
  | ScanOwed | Owed => owed_ok i v cl
  | ScanAnswered | Replied | InIsr | Woken => done_ok i v cl
  | ScanLost | Lost => lost_ok i v cl
  end.

Definition phase_ok (i : nat) (v : view) (p : phase) : Prop :=
  v.(v_flags) = flags_of p /\
  (p = Free /\ v.(v_tag) = None \/ exists cl, v.(v_call) = Some cl /\ content_ok i v p cl).

(** A call that holds no slot. *)
Definition outside_ok (cl : call_t) : Prop :=
  match cl.(cl_stage) with
  | Start | Locked => cl.(cl_events) = []
  | Exiting ret r | Done ret r =>
      match r with
      | Some r => answered_by cl r
      | None => cl.(cl_events) = [] /\ ret <> MAILBOX_SUCCESS
      end
  | _ => True
  end.

Record mem_ok {X} (m : mb_state X) : Prop := {
  mo_slots : length m.(slots) = NUM_MAILBOX_QUEUE_SLOT;
  mo_slots_ns : length m.(slots_ns) = NUM_MAILBOX_QUEUE_SLOT;
  mo_queue : length m.(queue) = NUM_MAILBOX_QUEUE_SLOT;
  mo_vectors : length m.(vectors) = NUM_MAILBOX_QUEUE_SLOT;
  mo_count : m.(ns_slot_count) = Z.of_nat NUM_MAILBOX_QUEUE_SLOT;
  mo_out : Forall (fun v => length v.(lv_out_vec) = MAX_IOVEC) m.(vectors);
}.

Record sys_ok {X} (a : sys X) : Prop := {
  ok_mem : mem_ok a.(mem);
  ok_slot : forall i, (i < NUM_MAILBOX_QUEUE_SLOT)%nat -> exists p, phase_ok i (view_at a i) p;
  ok_held : forall c cl i, a.(calls) !! c = Some cl -> slot_of cl.(cl_stage) = Some i ->
    (i < NUM_MAILBOX_QUEUE_SLOT)%nat /\ a.(tag) !! i = Some c;
  ok_tag : forall i c, a.(tag) !! i = Some c -> (i < NUM_MAILBOX_QUEUE_SLOT)%nat;
  ok_owed : forall i, i ∈ a.(owed) -> (i < NUM_MAILBOX_QUEUE_SLOT)%nat;
  ok_outside : forall c cl, a.(calls) !! c = Some cl -> outside_ok cl;
}.

Lemma phase_of_flags i v p q : phase_ok i v p -> v.(v_flags) = flags_of q -> p = q \/
  (p = Held \/ p = Lost) /\ (q = Held \/ q = Lost).
Proof. intros [E _] E'. rewrite E in E'. destruct p, q; vm_compute in E'; naive_solver. Qed.

Lemma content_slot i v p cl : content_ok i v p cl -> slot_of cl.(cl_stage) = Some i.
Proof.
  destruct p; simpl; unfold sent_ok, owed_ok, done_ok, lost_ok, waits, held_ok; try done;
    try (intros [[-> | ->] _]; done).
  destruct (cl_stage cl); naive_solver.
Qed.

Section System.
Context {X : Type} (a : sys X) (OK : sys_ok a).

(** The call that holds a slot, and only it. *)
Lemma tag_call i c : a.(tag) !! i = Some c ->
  exists cl, a.(calls) !! c = Some cl /\ slot_of cl.(cl_stage) = Some i.
Proof.
  intros E. destruct (ok_slot a OK i (ok_tag a OK i c E)) as (p & _ & [(_ & F) | (cl & C & K)]).
  - simpl in F. congruence.
  - exists cl. split; [|by eapply content_slot]. simpl in C. unfold call_in in C. by rewrite E in C.
Qed.

Lemma tag_other c cl i j : a.(calls) !! c = Some cl -> slot_of cl.(cl_stage) = Some i -> j <> i ->
  a.(tag) !! j <> Some c.
Proof. intros C S1 N E. destruct (tag_call j c E) as (cl' & C' & S2). congruence. Qed.

Lemma tag_outside c cl j : a.(calls) !! c = Some cl -> slot_of cl.(cl_stage) = None ->
  a.(tag) !! j <> Some c.
Proof. intros C S1 E. destruct (tag_call j c E) as (cl' & C' & S2). congruence. Qed.

Lemma slot_phase c cl i : a.(calls) !! c = Some cl -> slot_of cl.(cl_stage) = Some i ->
  exists p, (v_flags (view_at a i)) = flags_of p /\ content_ok i (view_at a i) p cl.
Proof.
  intros C S1. destruct (ok_held a OK c cl i C S1) as [L T].
  destruct (ok_slot a OK i L) as (p & F & [(_ & F') | (cl' & C' & K)]); [simpl in F'; congruence|].
  exists p. split; [done|]. simpl in C'. unfold call_in in C'. rewrite T in C'. simpl in C'. by simplify_eq.
Qed.
End System.
End Phases.
