(* ===== verification/MbNsSteps.v ===== *)
(** Mailbox between cores: the steps of the non-secure side keep the protocol. *)

From stdpp Require Import base list numbers gmap.
From S2P Require Import Prelude SpmTypes MbTypes MbSpe MbNs MbSystem MbInv.

(** Two memories that agree on a slot. *)
Record same_at {X} (m m' : mb_state X) (j : nat) : Prop := {
  sa_empty : bit_on m'.(ns_empty_slots) j = bit_on m.(ns_empty_slots) j;
  sa_pend : bit_on m'.(pend_slots) j = bit_on m.(pend_slots) j;
  sa_repl : bit_on m'.(replied_slots) j = bit_on m.(replied_slots) j;
  sa_spe : bit_on m'.(spe_empty_slots) j = bit_on m.(spe_empty_slots) j;
  sa_woken : from_option is_woken false (m'.(slots_ns) !! j) = from_option is_woken false (m.(slots_ns) !! j);
  sa_slot : m'.(slots) !! j = m.(slots) !! j;
  sa_queue : m'.(queue) !! j = m.(queue) !! j;
  sa_vectors : m'.(vectors) !! j = m.(vectors) !! j;
}.

Lemma view_same {X} (a a' : sys X) j : same_at a.(mem) a'.(mem) j ->
  isr_has a'.(isr) j = isr_has a.(isr) j -> scan_at a'.(spe) j = scan_at a.(spe) j ->
  scan_ans a'.(spe) j = scan_ans a.(spe) j -> (j ∈ a'.(owed) <-> j ∈ a.(owed)) ->
  a'.(tag) !! j = a.(tag) !! j -> call_in a' j = call_in a j ->
  view_at a' j = view_at a j.
Proof.
  intros [] E1 E2 E3 E4 E5 E6. unfold view_at, flags_at. f_equal; try done. f_equal; try done.
  apply bool_decide_ext, E4.
Qed.

(** A change to the call [c] is no change to a slot of another call. *)
Lemma call_in_other {X} (a a' : sys X) c cl j : a'.(calls) = <[c := cl]> a.(calls) ->
  a'.(tag) !! j = a.(tag) !! j -> a.(tag) !! j <> Some c -> call_in a' j = call_in a j.
Proof.
  intros E1 E2 N. unfold call_in. rewrite E1, E2. destruct (tag a !! j) as [c'|]; [|done].
  simpl. apply lookup_insert_ne. congruence.
Qed.

(** What one slot's update leaves to the others. *)
Ltac same_tac :=
  constructor; simpl; autorewrite with bits; rewrite ?list_lookup_alter_ne, ?list_lookup_insert_ne by congruence;
  rewrite ?(bool_decide_eq_false_2 (_ = _)) by congruence; rewrite ?orb_false_r, ?andb_true_r; try reflexivity.

Lemma mb_call_inv {X A} (m : X -> (halt + A) * X) s a s' :
  mb_call m s = (Val a, s') -> exists x, s' = set_mb_env x s.
Proof. unfold mb_call. destruct (m (mb_env s)) as [[h | b] x]; naive_solver. Qed.

(** The status bits of a slot after a step, from those before ([F]). *)
Ltac flags_tac F :=
  unfold flags_at in F |- *; simpl in F |- *; autorewrite with bits; rewrite ?list_lookup_alter_eq;
  repeat match goal with E : _ !! _ = Some _ |- _ => rewrite E in F |- * end; simpl in F |- *;
  rewrite ?(bool_decide_eq_true_2 (_ = _)) by done; rewrite ?orb_true_r, ?andb_false_r;
  revert F; unfold flags_of; simpl; intros F; injection F; intros; f_equal; congruence.

Section NsSteps.
Context `{!MboxBuild} `{!MboxBuildOk} {X : Type} `{!MboxEnv X}.

Lemma mem_ok_env x (m : mb_state X) : mem_ok m -> mem_ok (set_mb_env x m).
Proof. by intros []. Qed.

Ltac mem_tac := match goal with OK : mem_ok _ |- _ => destruct OK; constructor; simpl; rewrite ?length_alter, ?length_insert; done end.

(** A call that goes on outside the slots. *)
Lemma outside_step (a : sys X) c cl st m : sys_ok a -> a.(calls) !! c = Some cl ->
  slot_of cl.(cl_stage) = None -> slot_of st = None ->
  mem_ok m -> (forall j, same_at a.(mem) m j) -> outside_ok (at_stage st cl) ->
  sys_ok {| mem := m; isr := a.(isr); spe := a.(spe); owed := a.(owed);
            tag := a.(tag); calls := <[c := at_stage st cl]> a.(calls) |}.
Proof.
  intros OK C S1 S2 MO SA OO. destruct (OK) as [_ OS OH OT OW OU]. constructor; simpl; try done.
  - intros j L. rewrite (view_same a); simpl; auto; try done;
      eapply call_in_other; [done..|by eapply tag_outside].
  - intros c' cl' j. rewrite lookup_insert_Some. intros [[<- <-] | [_ E]]; [simpl; congruence|eauto].
  - intros c' cl'. rewrite lookup_insert_Some. intros [[_ <-] | [_ E]]; eauto.
Qed.

(** A call that goes on in its slot. *)
Lemma inside_step (a : sys X) c cl i st m : sys_ok a -> a.(calls) !! c = Some cl ->
  slot_of cl.(cl_stage) = Some i -> slot_of st = Some i ->
  mem_ok m -> (forall j, j <> i -> same_at a.(mem) m j) ->
  let a' := {| mem := m; isr := a.(isr); spe := a.(spe); owed := a.(owed);
               tag := a.(tag); calls := <[c := at_stage st cl]> a.(calls) |} in
  (exists p, v_flags (view_at a' i) = flags_of p /\ content_ok i (view_at a' i) p (at_stage st cl)) ->
  sys_ok a'.
Proof.
  intros OK C S1 S2 MO SA a' (p & F & K). destruct (OK) as [_ OS OH OT OW OU].
  destruct (OH _ _ _ C S1) as [L T].
  constructor; simpl; try done.
  - intros j Lj. destruct (decide (j = i)) as [->|N].
    + exists p. split; [done|]. right. exists (at_stage st cl). split; [|done].
      simpl. unfold call_in. simpl. rewrite T. simpl. apply lookup_insert_eq.
    + rewrite (view_same a); simpl; auto; try done;
      eapply call_in_other; [done..|by eapply tag_other].
  - intros c' cl' j. rewrite lookup_insert_Some. intros [[<- <-] | [_ E]]; [simpl; naive_solver|eauto].
  - intros c' cl'. rewrite lookup_insert_Some. intros [[_ <-] | [_ E]]; [|eauto].
    unfold outside_ok. simpl. by destruct st.
Qed.

(** A call takes a slot. *)
Lemma enter_step (a : sys X) c cl i st m : sys_ok a -> a.(calls) !! c = Some cl ->
  slot_of cl.(cl_stage) = None -> slot_of st = Some i -> (i < NUM_MAILBOX_QUEUE_SLOT)%nat ->
  a.(tag) !! i = None ->
  mem_ok m -> (forall j, j <> i -> same_at a.(mem) m j) ->
  let a' := {| mem := m; isr := a.(isr); spe := a.(spe); owed := a.(owed);
               tag := <[i := c]> a.(tag); calls := <[c := at_stage st cl]> a.(calls) |} in
  (exists p, v_flags (view_at a' i) = flags_of p /\ content_ok i (view_at a' i) p (at_stage st cl)) ->
  sys_ok a'.
Proof.
  intros OK C S1 S2 L T0 MO SA a' (p & F & K). destruct (OK) as [_ OS OH OT OW OU].
  constructor; simpl; try done.
  - intros j Lj. destruct (decide (j = i)) as [->|N].
    + exists p. split; [done|]. right. exists (at_stage st cl). split; [|done].
      simpl. unfold call_in. simpl. rewrite lookup_insert_eq. simpl. apply lookup_insert_eq.
    + rewrite (view_same a); simpl; rewrite ?lookup_insert_ne by done; auto; try done;
      eapply call_in_other; [done|simpl; by rewrite lookup_insert_ne|by eapply tag_outside].
  - intros c' cl' j. rewrite lookup_insert_Some. intros [[<- <-] | [N E]] Sj.
    + simpl in Sj. simplify_eq. by rewrite lookup_insert_eq.
    + destruct (OH _ _ _ E Sj) as [Lj Tj]. split; [done|]. rewrite lookup_insert_ne; [done|]. congruence.
  - intros j c'. rewrite lookup_insert_Some. naive_solver.
  - intros c' cl'. rewrite lookup_insert_Some. intros [[_ <-] | [_ E]]; [|eauto].
    unfold outside_ok. simpl. by destruct st.
Qed.

(** A call gives its slot back. *)
Lemma leave_step (a : sys X) c cl i st m : sys_ok a -> a.(calls) !! c = Some cl ->
  slot_of cl.(cl_stage) = Some i -> slot_of st = None ->
  mem_ok m -> (forall j, j <> i -> same_at a.(mem) m j) -> outside_ok (at_stage st cl) ->
  let a' := {| mem := m; isr := a.(isr); spe := a.(spe); owed := a.(owed);
               tag := delete i a.(tag); calls := <[c := at_stage st cl]> a.(calls) |} in
  v_flags (view_at a' i) = flags_of Free ->
  sys_ok a'.
Proof.
  intros OK C S1 S2 MO SA OO a' F. destruct (OK) as [_ OS OH OT OW OU].
  destruct (OH _ _ _ C S1) as [L T].
  constructor; simpl; try done.
  - intros j Lj. destruct (decide (j = i)) as [->|N].
    + exists Free. split; [done|]. left. split; [done|]. simpl. apply lookup_delete_eq.
    + rewrite (view_same a); simpl; rewrite ?lookup_delete_ne by done; auto; try done;
      eapply call_in_other; [done|simpl; by rewrite lookup_delete_ne|by eapply tag_other].
  - intros c' cl' j. rewrite lookup_insert_Some. intros [[<- <-] | [N E]] Sj; [simpl in Sj; congruence|].
    destruct (OH _ _ _ E Sj) as [Lj Tj]. split; [done|]. rewrite lookup_delete_ne; [done|]. congruence.
  - intros j c'. rewrite lookup_delete_Some. naive_solver.
  - intros c' cl'. rewrite lookup_insert_Some. intros [[_ <-] | [_ E]]; eauto.
Qed.

(** ** The steps of a call *)

Lemma held_phase i v p cl : content_ok i v p cl -> (forall j, cl.(cl_stage) <> Pended j) ->
  (forall j, cl.(cl_stage) <> Waiting j) -> p = Held /\ held_ok i v cl.
Proof.
  intros K N1 N2. destruct p; simpl in K; try done;
    unfold sent_ok, owed_ok, done_ok, lost_ok, waits in K; naive_solver.
Qed.

Lemma waiting_phase i v p cl : content_ok i v p cl -> waits i cl -> p <> Held.
Proof. intros K W ->. simpl in K. unfold held_ok in K. destruct W as [W | W]; by rewrite W in K. Qed.

Lemma slot_lt (m : mb_state X) i : mem_ok m -> (i < NUM_MAILBOX_QUEUE_SLOT)%nat ->
  is_Some (m.(slots) !! i) /\ is_Some (m.(slots_ns) !! i) /\ is_Some (m.(queue) !! i) /\ is_Some (m.(vectors) !! i).
Proof. intros [] L. rewrite !lookup_lt_is_Some. lia. Qed.

Section Client.
Variables (a : sys X) (c : nat) (cl : call_t).
Hypotheses (OK : sys_ok a) (C : a.(calls) !! c = Some cl).

(** The slot of a call that does not wait. *)
Lemma holder i : slot_of cl.(cl_stage) = Some i -> (forall j, cl.(cl_stage) <> Pended j) ->
  (forall j, cl.(cl_stage) <> Waiting j) ->
  (i <? NUM_MAILBOX_QUEUE_SLOT)%nat = true /\ flags_at a i = flags_of Held /\ held_ok i (view_at a i) cl.
Proof.
  intros S1 N1 N2. destruct (ok_held a OK c cl i C S1) as [L _].
  destruct (slot_phase a OK c cl i C S1) as (p & F & K). destruct (held_phase i _ p cl K N1 N2) as [-> K'].
  split; [by apply Nat.ltb_lt|done].
Qed.

Lemma enter_ok m st : cl.(cl_stage) = Start \/ cl.(cl_stage) = Locked ->
  client_step cl.(cl_msg) cl.(cl_task) cl.(cl_stage) a.(mem) = (Val st, m) ->
  sys_ok {| mem := m; isr := a.(isr); spe := a.(spe); owed := a.(owed);
            tag := retag c cl.(cl_stage) st a.(tag); calls := <[c := at_stage st cl]> a.(calls) |}.
Proof.
  intros S1 E. pose proof (ok_outside a OK c cl C) as O. pose proof (ok_mem a OK) as MO.
  unfold outside_ok in O. destruct S1 as [S1 | S1]; rewrite S1 in *.
  - simpl in E. inv_run E. apply mb_call_inv in Hrun as [x ->].
    destruct (negb _); (apply outside_step; [done|done|by rewrite S1|done|by apply mem_ok_env|same_tac|done]).
  - unfold client_step, acquire_empty_slot in E. inv_run E.
    destruct (ns_empty_slots (mem a) =? 0) eqn:Z0.
    + inv_run Hrun2. rewrite Nat.leb_refl. apply outside_step; [done|done|by rewrite S1|done|done|same_tac|done].
    + unfold clear_queue_slot_empty in Hrun2. revert Hrun2.
      set (i := first_on (ns_empty_slots (mem a)) 0 NUM_MAILBOX_QUEUE_SLOT) in *.
      destruct (first_on_spec (ns_empty_slots (mem a)) 0 NUM_MAILBOX_QUEUE_SLOT) as [_ B]. fold i in B.
      destruct (i <? NUM_MAILBOX_QUEUE_SLOT)%nat eqn:L; intros R; inv_run R;
        [apply Nat.ltb_lt in L; rewrite (proj2 (Nat.leb_gt _ _)) by done
        |apply Nat.ltb_ge in L; rewrite (proj2 (Nat.leb_le _ _)) by done;
          apply outside_step; [done|done|by rewrite S1|done|done|same_tac|done]].

      destruct (ok_slot a OK i) as (p & F & P); [lia|]. simpl in F.
      assert (p = Free) as ->.
      { pose proof (f_equal f_empty F) as FE. simpl in FE. rewrite B in FE by lia. by destruct p. }
      destruct P as [[_ T] | (? & _ & [])].
      apply enter_step; [done|done|by rewrite S1|done|lia|done|mem_tac|intros; same_tac|].
      exists Held. split; [|done]. simpl. unfold flags_at in *. simpl.
      rewrite bit_on_clear, bit_on_slot_bit, bool_decide_eq_true_2, andb_false_r by done.
      by injection F as _ -> -> -> -> -> -> -> ->.
Qed.

Lemma prepare_ok i m st :
  cl.(cl_stage) = Acquired i \/ cl.(cl_stage) = Filled i \/ cl.(cl_stage) = Owned i ->
  client_step cl.(cl_msg) cl.(cl_task) cl.(cl_stage) a.(mem) = (Val st, m) ->
  sys_ok {| mem := m; isr := a.(isr); spe := a.(spe); owed := a.(owed);
            tag := retag c cl.(cl_stage) st a.(tag); calls := <[c := at_stage st cl]> a.(calls) |}.
Proof.
  intros S1 E. pose proof (ok_mem a OK) as MO.
  destruct (holder i) as (L & F & K); [destruct S1 as [-> | [-> | ->]]; done..|].
  unfold held_ok in K. destruct (slot_lt _ i MO ltac:(by apply Nat.ltb_lt)) as ([sl SL] & [sn SN] & _).
  destruct S1 as [S1 | [S1 | S1]]; rewrite S1 in *; unfold client_step, fill_message, set_msg_owner, set_queue_slot_pend,
    upd_slot_ns in E; rewrite ?L in E; inv_run E; unfold retag; simpl;
    (apply inside_step with i; [done|done|by rewrite S1|done|mem_tac|intros; same_tac|]).
  - exists Held. split; [simpl; flags_tac F|]. destruct K as [_ K]. simpl. split; [done|]. split; [done|].
    simpl. by rewrite list_lookup_alter_eq, SL.
  - exists Held. split; [simpl; flags_tac F|]. exact K.
  - exists Pending. split; [simpl; flags_tac F|]. split; [by left|]. apply K.
Qed.

Lemma take_ok i r m st :
  cl.(cl_stage) = Signalled i \/ cl.(cl_stage) = Copied i r \/ cl.(cl_stage) = Unowned i r ->
  client_step cl.(cl_msg) cl.(cl_task) cl.(cl_stage) a.(mem) = (Val st, m) ->
  sys_ok {| mem := m; isr := a.(isr); spe := a.(spe); owed := a.(owed);
            tag := retag c cl.(cl_stage) st a.(tag); calls := <[c := at_stage st cl]> a.(calls) |}.
Proof.
  intros S1 E. pose proof (ok_mem a OK) as MO.
  destruct (holder i) as (L & F & K); [destruct S1 as [-> | [-> | ->]]; done..|].
  unfold held_ok in K. destruct (slot_lt _ i MO ltac:(by apply Nat.ltb_lt)) as ([sl SL] & [sn SN] & _).
  destruct S1 as [S1 | [S1 | S1]]; rewrite S1 in *; unfold client_step, copy_reply, release_slot, set_msg_owner,
    clear_queue_slot_woken, set_queue_slot_empty, upd_slot_ns in E; rewrite ?L in E; inv_run E; unfold retag; simpl.
  - apply inside_step with i; [done|done|by rewrite S1|done|mem_tac|intros; same_tac|].
    exists Held. split; [simpl; flags_tac F|]. destruct K as (_ & sl' & SL' & K). simpl. split; [done|].
    rewrite (nth_lookup_Some _ _ _ sl); [|done]. simpl in SL'. by simplify_eq.
  - apply inside_step with i; [done|done|by rewrite S1|done|mem_tac|intros; same_tac|].
    exists Held. split; [simpl; flags_tac F|]. exact K.
  - apply leave_step; [done|done|by rewrite S1|done|mem_tac|intros; same_tac|exact (proj2 K)|].
    simpl. flags_tac F.
Qed.

Lemma waiting_content i v v' p st : content_ok i v p cl -> waits i cl -> waits i (at_stage st cl) ->
  v'.(v_slot) = v.(v_slot) -> v'.(v_sq) = v.(v_sq) -> v'.(v_vec) = v.(v_vec) ->
  content_ok i v' p (at_stage st cl).
Proof.
  intros K W W' E1 E2 E3. pose proof (waiting_phase _ _ _ _ K W).
  destruct p; simpl in *; unfold sent_ok, owed_ok, done_ok, lost_ok in *; try done; rewrite ?E1, ?E2, ?E3; naive_solver.
Qed.

Lemma woken_phase i p : flags_at a i = flags_of p -> is_woken <$> a.(mem).(slots_ns) !! i = Some true -> p = Woken.
Proof.
  intros F W. apply (f_equal f_woken) in F. simpl in F. destruct (slots_ns (mem a) !! i); simplify_eq/=.
  rewrite W in F. by destruct p.
Qed.

Lemma wait_signal i sn (s : mb_state X) : (i < NUM_MAILBOX_QUEUE_SLOT)%nat -> s.(slots_ns) !! i = Some sn ->
  mailbox_wait_reply_signal i s =
    (Val (is_woken sn), if is_woken sn then set_slots_ns (alter (set_woken false) i s.(slots_ns)) s else s).
Proof.
  intros L E. apply Nat.ltb_lt in L.
  unfold mailbox_wait_reply_signal, is_queue_slot_woken, clear_queue_slot_woken, upd_slot_ns.
  rewrite bind_gets, L, (nth_lookup_Some _ _ _ _ E). simpl. by destruct (is_woken sn).
Qed.

Lemma wait_ok i m st : waits i cl ->
  client_step cl.(cl_msg) cl.(cl_task) cl.(cl_stage) a.(mem) = (Val st, m) ->
  sys_ok {| mem := m; isr := a.(isr); spe := a.(spe); owed := a.(owed);
            tag := retag c cl.(cl_stage) st a.(tag); calls := <[c := at_stage st cl]> a.(calls) |}.
Proof.
  intros W E. pose proof (ok_mem a OK) as MO.
  assert (slot_of cl.(cl_stage) = Some i) as S1 by (destruct W as [-> | ->]; done).
  destruct (ok_held a OK c cl i C S1) as [L _].
  destruct (slot_phase a OK c cl i C S1) as (p & F & K).
  destruct (slot_lt _ i MO L) as (_ & [sn SN] & _). pose proof W as W'.
  unfold client_step in E. destruct W as [W | W]; rewrite W in *.
  { inv_run E. apply mb_call_inv in Hrun as [x ->]. apply inside_step with i; try done; [by rewrite W|by apply mem_ok_env|].
    exists p. split; [exact F|]. eapply waiting_content; try done. by right. }
  inv_run E. rewrite (wait_signal i sn) in Hrun by done. injection Hrun as <- <-.
  destruct (is_woken sn) eqn:WK; unfold retag; simpl.
  - assert (p = Woken) as -> by (apply (woken_phase i); [exact F|by rewrite SN; simpl; rewrite WK]).
    apply inside_step with i; [done|done|by rewrite W|done|mem_tac|intros; same_tac|].
    exists Held. split; [|by destruct K]. simpl in F |- *. flags_tac F.
  - apply inside_step with i; [done|done|by rewrite W|done|done|intros; same_tac|].
    exists p. split; [exact F|]. eapply waiting_content; try done. by right.
Qed.

Lemma leave_ok m st : (exists ret r, cl.(cl_stage) = Exiting ret r \/ cl.(cl_stage) = Done ret r) ->
  client_step cl.(cl_msg) cl.(cl_task) cl.(cl_stage) a.(mem) = (Val st, m) ->
  sys_ok {| mem := m; isr := a.(isr); spe := a.(spe); owed := a.(owed);
            tag := retag c cl.(cl_stage) st a.(tag); calls := <[c := at_stage st cl]> a.(calls) |}.
Proof.
  intros (ret & r & S1) E. pose proof (ok_outside a OK c cl C) as O. unfold outside_ok in O.
  pose proof (ok_mem a OK) as MO. unfold client_step in E. destruct S1 as [S1 | S1]; rewrite S1 in *; inv_run E.
  - apply mb_call_inv in Hrun as [x ->].
    apply outside_step; [done|done|by rewrite S1|done|by apply mem_ok_env|same_tac|].
    unfold outside_ok. simpl. destruct r; [done|]. destruct O. split; [done|]. by destruct (negb _).
  - apply outside_step; [done|done|by rewrite S1|done|done|same_tac|exact O].
Qed.

(** Every step of a call. *)
Lemma client_ok m st :
  client_step cl.(cl_msg) cl.(cl_task) cl.(cl_stage) a.(mem) = (Val st, m) ->
  sys_ok {| mem := m; isr := a.(isr); spe := a.(spe); owed := a.(owed);
            tag := retag c cl.(cl_stage) st a.(tag); calls := <[c := at_stage st cl]> a.(calls) |}.
Proof.
  destruct (cl_stage cl) eqn:S1; rewrite <- S1; intros E;
    [eapply enter_ok|eapply enter_ok|eapply prepare_ok|eapply prepare_ok|eapply prepare_ok|eapply wait_ok|eapply wait_ok
    |eapply (take_ok _ no_reply)|eapply take_ok|eapply take_ok|eapply leave_ok|eapply leave_ok]; try exact E; unfold waits; rewrite S1; eauto 10.
Qed.
End Client.

(** ** A new call, and the interrupt *)

Lemma call_ok (a : sys X) c msg task : sys_ok a -> a.(calls) !! c = None ->
  sys_ok {| mem := a.(mem); isr := a.(isr); spe := a.(spe); tag := a.(tag); owed := a.(owed);
            calls := <[c := {| cl_msg := msg; cl_task := task; cl_stage := Start; cl_events := [] |}]> a.(calls) |}.
Proof.
  intros OK C. destruct (OK) as [OM OS OH OT OW OU]. constructor; simpl; try done.
  - intros j L. rewrite (view_same a); simpl; auto; [same_tac|].
    eapply call_in_other; [done..|]. intros T. by destruct (tag_call a OK j c T) as (? & E & _); simplify_eq.
  - intros c' cl' j. rewrite lookup_insert_Some. intros [[<- <-] | [_ E]]; [done|eauto].
  - intros c' cl'. rewrite lookup_insert_Some. intros [[_ <-] | [_ E]]; [done|eauto].
Qed.

(** A step that concerns no call's own state. *)
Lemma phases_step (a : sys X) (m : mb_state X) h h' : sys_ok a -> mem_ok m ->
  let a' := {| mem := m; isr := h; spe := h'; tag := a.(tag); owed := a.(owed); calls := a.(calls) |} in
  (forall j, (j < NUM_MAILBOX_QUEUE_SLOT)%nat -> forall p, phase_ok j (view_at a j) p ->
     exists p', phase_ok j (view_at a' j) p') ->
  sys_ok a'.
Proof.
  intros OK MO a' P. destruct (OK) as [_ OS OH OT OW OU]. constructor; try done.
  intros j L. destruct (OS j L) as [p K]. eauto.
Qed.

Lemma isr_begin (a : sys X) i m : sys_ok a -> a.(isr) = IsrIdle -> isr_step IsrIdle a.(mem) = (Val i, m) ->
  sys_ok {| mem := m; isr := i; spe := a.(spe); tag := a.(tag); owed := a.(owed); calls := a.(calls) |}.
Proof.
  intros OK I E. pose proof (ok_mem a OK) as MO. unfold isr_step, clear_queue_slot_all_replied in E. inv_run E.
  apply phases_step; [done|mem_tac|]. intros j L p [F P].
  assert (isr_has (if replied_slots (mem a) =? 0 then IsrIdle else IsrLoop (replied_slots (mem a)) 0) j =
    bit_on (replied_slots (mem a)) j) as I'.
  { destruct (_ =? 0) eqn:Z0; simpl; [|by rewrite andb_true_r]. apply Z.eqb_eq in Z0. by rewrite Z0, bit_on_0. }
  exists (if decide (p = Replied) then InIsr else p). split.
  - simpl in F |- *. unfold flags_at in F |- *. simpl. rewrite I', bit_on_0. rewrite I in F.
    injection F; intros. destruct p; simpl in *; unfold flags_of; simpl; f_equal; congruence.
  - destruct (decide (p = Replied)) as [->|]; [|exact P]. destruct P as [[? _] | P]; [done|by right].
Qed.

Lemma isr_loop (a : sys X) b k i m : sys_ok a -> a.(isr) = IsrLoop b k -> isr_step (IsrLoop b k) a.(mem) = (Val i, m) ->
  sys_ok {| mem := m; isr := i; spe := a.(spe); tag := a.(tag); owed := a.(owed); calls := a.(calls) |}.
Proof.
  intros OK I E. pose proof (ok_mem a OK) as MO. unfold isr_step in E.
  destruct (NUM_MAILBOX_QUEUE_SLOT <=? k)%nat eqn:K; [|destruct (bit_on b k) eqn:B]; simpl in E.
  - apply Nat.leb_le in K. inv_run E. apply phases_step; [done|done|]. intros j L p [F P]. exists p. split; [|done].
    rewrite <- F. simpl. unfold flags_at. rewrite I. f_equal. simpl.
    rewrite (proj2 (Nat.leb_gt _ _)) by lia. by rewrite andb_false_r.
  - apply Nat.leb_gt in K. unfold set_queue_slot_woken, upd_slot_ns in E. rewrite (proj2 (Nat.ltb_lt _ _)) in E by done.
    inv_run E. apply phases_step; [done|mem_tac|]. intros j L p [F P].
    destruct (decide (j = k)) as [->|N].
    + simpl in F.
      assert (p = InIsr) as ->.
      { apply (f_equal f_isr) in F. simpl in F. rewrite I in F. simpl in F. rewrite B, Nat.leb_refl in F. by destruct p. }
      exists Woken. split; [|by right; destruct P as [[? _] | P]].
      simpl. destruct (slot_lt _ k MO L) as (_ & [sn SN] & _).
      unfold flags_at in F |- *. simpl. rewrite list_lookup_alter_eq, SN in *. simpl.
      rewrite Nat.ltb_irrefl, andb_false_r. injection F; intros. unfold flags_of; simpl; f_equal; congruence.
    + exists p. split; [|done]. rewrite <- F. simpl. unfold flags_at. rewrite I. simpl.
      rewrite list_lookup_alter_ne by congruence. f_equal. f_equal. apply eq_true_iff_eq.
      rewrite Nat.ltb_lt, Nat.leb_le. lia.
  - inv_run E. apply phases_step; [done|done|]. intros j L p [F P]. exists p. split; [|done].
    rewrite <- F. simpl. unfold flags_at. rewrite I. f_equal. unfold isr_has.
    destruct (decide (j = k)) as [->|N]; [simpl; by rewrite B|]. simpl isr. f_equal.
    apply eq_true_iff_eq. rewrite !Nat.leb_le. lia.
Qed.

Lemma isr_wake (a : sys X) b k i m : sys_ok a -> a.(isr) = IsrWake b k -> isr_step (IsrWake b k) a.(mem) = (Val i, m) ->
  sys_ok {| mem := m; isr := i; spe := a.(spe); tag := a.(tag); owed := a.(owed); calls := a.(calls) |}.
Proof.
  intros OK I E. pose proof (ok_mem a OK) as MO. unfold isr_step in E. inv_run E. apply mb_call_inv in Hrun as [x ->].
  apply phases_step; [done|by apply mem_ok_env|]. intros j L p [F P]. exists p. split; [|done].
  rewrite <- F. simpl. unfold flags_at. rewrite I. f_equal. simpl.
  assert (bit_on (bits_clear b (slot_bit k)) j && (S k <=? j)%nat = bit_on b j && (k <? j)%nat) as B.
  { autorewrite with bits. unfold Nat.ltb. destruct (S k <=? j)%nat eqn:E; [|by rewrite !andb_false_r].
    apply Nat.leb_le in E. rewrite bool_decide_eq_false_2 by lia. by rewrite !andb_true_r. }
  rewrite <- B. destruct (_ =? 0) eqn:Z0; [|done]. apply Z.eqb_eq in Z0. by rewrite Z0, bit_on_0.
Qed.
End NsSteps.
