(* ===== verification/MbSpeSteps.v ===== *)
(** Mailbox between cores: the steps of the secure side keep the protocol. *)

From stdpp Require Import base list numbers gmap.
From S2P Require Import Prelude SpmTypes MbTypes MbSpe MbNs MbSystem MbInv MbNsSteps.

Section SpeSteps.
Context `{!MboxBuild} `{!MboxBuildOk} {X : Type} `{!MboxEnv X}.
Abbreviation MBX := (MB X).

(** ** What dispatching a message may change *)

(** Only the local vectors of the slot and the state of the SPM. *)
Definition vectors_only (i : nat) (s s' : mb_state X) : Prop :=
  exists vs x, s' = set_vectors vs (set_mb_env x s) /\ length vs = length s.(vectors) /\
    (forall j, j <> i -> vs !! j = s.(vectors) !! j) /\
    (Forall (fun v => length v.(lv_out_vec) = MAX_IOVEC) s.(vectors) ->
     Forall (fun v => length v.(lv_out_vec) = MAX_IOVEC) vs).

Lemma vectors_only_refl i s : vectors_only i s s.
Proof. exists s.(vectors), s.(mb_env). by destruct s. Qed.

Lemma vectors_only_env i s s' x : vectors_only i s s' -> vectors_only i s (set_mb_env x s').
Proof. intros (vs & y & -> & ?). exists vs, x. done. Qed.

Lemma vectors_only_upd i s s' f : (forall v, length (f v).(lv_out_vec) = length v.(lv_out_vec)) ->
  vectors_only i s s' -> vectors_only i s (set_vectors (alter f i s'.(vectors)) s').
Proof.
  intros L (vs & x & -> & E1 & E2 & E3). exists (alter f i vs), x. simpl. split; [done|].
  split; [by rewrite length_alter|]. split.
  - intros j N. rewrite list_lookup_alter_ne by congruence. auto.
  - intros F. specialize (E3 F). apply Forall_lookup. intros j v.
    rewrite list_lookup_alter. case_decide as D; subst; [rewrite fmap_Some; intros (w & E & ->); rewrite L|intros E];
      by eapply Forall_lookup_1 in E; [|exact E3].
Qed.

Lemma keeps_upd_vectors i s f : (forall v, length (f v).(lv_out_vec) = length v.(lv_out_vec)) ->
  keeps (vectors_only i s) (upd_vectors i f).
Proof. intros L. apply keeps_modifyS. intros s'. by apply vectors_only_upd. Qed.

Lemma keeps_mb_call i s {A} (m : X -> (halt + A) * X) : keeps (vectors_only i s) (mb_call m).
Proof.
  intros s' V. unfold mb_call. destruct (m (mb_env s')) as [[h | b] x]; by apply vectors_only_env.
Qed.

Lemma keeps_local_copy p i control s : keeps (vectors_only i s) (local_copy_vects p i control).
Proof.
  unfold local_copy_vects, copy_vec, put_in_vec, put_out_vec.
  keeps_auto; apply keeps_upd_vectors; intros; simpl; rewrite ?length_insert; done.
Qed.

Lemma keeps_translated msg i s : keeps (vectors_only i s) (translated msg).
Proof. unfold translated, tfm_multi_core_hal_client_id_translate, int32_op. keeps_auto. Qed.

Lemma vectors_only_some i s s' j : vectors_only i s s' ->
  is_Some (s.(vectors) !! j) -> is_Some (s'.(vectors) !! j).
Proof. intros (vs & x & -> & E & _). simpl. rewrite !lookup_lt_is_Some, E. done. Qed.

(** The vectors are in use once they are copied. *)
Definition in_use (i : nat) (s : mb_state X) : Prop := from_option lv_in_use false (s.(vectors) !! i) = true.

Lemma local_copy_in_use p i control s c s' : local_copy_vects p i control s = (Val c, s') ->
  is_Some (s.(vectors) !! i) -> in_use i s'.
Proof.
  intros E L. pose proof (keeps_local_copy p i control s s (vectors_only_refl i s)) as V. rewrite E in V.
  apply (vectors_only_some i s s' i V) in L. unfold local_copy_vects in E. inv_run E. unfold in_use.
  unfold upd_vectors in Hrun3. inv_run Hrun3. simpl in L |- *. rewrite list_lookup_alter_eq in L |- *. destruct L as [v L].
  by apply fmap_Some in L as E; destruct E as (w & -> & _).
Qed.

(** ** A message is dispatched *)

(** What the dispatch of a message leaves: a result for a call the secure side knows,
    and the vectors in use when the SPM has taken a call or has succeeded. *)
Definition dispatched (msg : mailbox_msg_t) (i : nat) (s : mb_state X) (r : Z * bool) (s' : mb_state X) : Prop :=
  vectors_only i s s' /\
  (msg.(call_type) = MAILBOX_PSA_CALL -> (r.2 = false \/ u32 r.1 = PSA_SUCCESS) -> in_use i s').

Lemma wp_mb_call i s s' {A} (m : X -> (halt + A) * X) Q E :
  vectors_only i s s' -> (forall a x, vectors_only i s (set_mb_env x s') -> Q a (set_mb_env x s')) ->
  wp (mb_call m) Q E (fun _ _ => True) s'.
Proof.
  intros V K. unfold wp, mb_call. destruct (m (mb_env s')) as [[h | b] x]; [done|].
  apply K. by apply vectors_only_env.
Qed.

Lemma in_use_write i lens s : in_use i s ->
  in_use i (set_vectors (alter (fun x => set_lv_out_vec (put_lens lens x.(lv_out_vec)) x) i s.(vectors)) s).
Proof.
  unfold in_use. simpl. rewrite list_lookup_alter_eq. by destruct (vectors s !! i).
Qed.

Lemma wp_translated msg i s : wp (translated msg) (fun _ => vectors_only i s) (fun _ _ => False) (fun _ _ => True) s.
Proof.
  pose proof (keeps_translated msg i s s (vectors_only_refl i s)) as V. unfold translated, attempt, wp in *.
  by destruct (tfm_multi_core_hal_client_id_translate _ _ s) as [[] ?].
Qed.

Lemma wp_dispatch_call msg i control sync0 s : is_Some (s.(vectors) !! i) ->
  wp (dispatch_call msg i control sync0)
    (fun r s' => vectors_only i s s' /\ (r.2 = false \/ u32 r.1 = PSA_SUCCESS -> in_use i s'))
    (fun _ _ => False) (fun _ _ => True) s.
Proof.
  intros L. unfold dispatch_call. apply wp_bind. eapply wp_mono; [apply (wp_translated msg i)| |done|done].
  intros [e | client] s1 V; [apply wp_ret; split; [done|]; by intros [? | ?]|].
  apply wp_bind, wp_attempt. pose proof (keeps_local_copy msg.(params) i control s s1 V) as V2.
  pose proof (local_copy_in_use msg.(params) i control s1) as U. unfold wp.
  destruct (local_copy_vects _ _ _ s1) as [[c | e | h] s2] eqn:E2; simpl in V2; [| |done].
  - specialize (U c s2 eq_refl (vectors_only_some _ _ _ _ V L)).
    apply wp_bind, wp_gets. cbv zeta. apply wp_bind. eapply wp_mb_call; [exact V2|]. intros a x V3.
    unfold write_out_lens, upd_vectors. wp_auto. split.
    + apply vectors_only_upd; [|done]. intros v. apply length_imap.
    + intros _. apply in_use_write. exact U.
  - apply wp_ret. split; [done|]. by intros [? | ?].
Qed.

(** A connection is asked for or closed. *)
Lemma wp_agent msg i s (m : Z -> X -> (halt + Z) * X) sync0 E :
  wp (c ← translated msg;
      match c with
      | inl _ => mret (PSA_ERROR_INVALID_ARGUMENT, true)
      | inr client_id => r ← mb_call (m client_id); mret (call_result sync0 r)
      end) (fun _ => vectors_only i s) E (fun _ _ => True) s.
Proof.
  apply wp_bind. eapply wp_mono; [apply (wp_translated msg i)| |done|done].
  intros [e | client] s1 V; [by apply wp_ret|]. wp_step. by eapply wp_mb_call.
Qed.

Lemma wp_dispatch_type msg i s : is_Some (s.(vectors) !! i) ->
  wp (dispatch_type msg i) (fun r s' => dispatched msg i s r s' /\ known_type msg.(call_type) = true)
    (fun _ s' => s' = s /\ known_type msg.(call_type) = false) (fun _ _ => True) s.
Proof.
  intros L. unfold dispatch_type, dispatched, known_type. cbv zeta.
  pose proof (vectors_only_refl i s) as V0.
  destruct (call_type msg =? MAILBOX_PSA_FRAMEWORK_VERSION) eqn:T1.
  { apply Z.eqb_eq in T1. rewrite T1. wp_step. by eapply wp_mb_call. }
  destruct (call_type msg =? MAILBOX_PSA_VERSION) eqn:T2.
  { apply Z.eqb_eq in T2. rewrite T2. wp_step. by eapply wp_mb_call. }
  destruct (call_type msg =? MAILBOX_PSA_CALL) eqn:T3.
  { eapply wp_mono; [by apply wp_dispatch_call| |done|done]. naive_solver. }
  apply Z.eqb_neq in T3.
  destruct (MB_CONNECTION_BASED && (call_type msg =? MAILBOX_PSA_CONNECT)) eqn:T4;
    [|destruct (MB_CONNECTION_BASED && (call_type msg =? MAILBOX_PSA_CLOSE)) eqn:T5].
  - eapply wp_mono; [apply (wp_agent msg i _ _ _ (fun _ _ => False))| |done|done]. intros r s' V. split; [split; [done|congruence]|].
    apply andb_true_iff in T4 as [-> ->]. done.
  - eapply wp_mono; [apply (wp_agent msg i _ _ _ (fun _ _ => False))| |done|done]. intros r s' V. split; [split; [done|congruence]|].
    apply andb_true_iff in T5 as [-> ->]. by rewrite orb_true_r.
  - apply wp_throw. split; [done|]. simpl. destruct MB_CONNECTION_BASED; simpl in *; [by rewrite T4, T5|done].
Qed.

(** ** The reply *)

Definition reply_of (v : vectors_t) (res : Z) (r : mailbox_reply_t) : mailbox_reply_t :=
  {| return_val := s32 res;
     out_vec_len := if v.(lv_in_use) && (res =? PSA_SUCCESS) then map mv_len v.(lv_out_vec) else r.(out_vec_len) |}.

(** [mailbox_direct_reply] for a slot of the queue that is its own. *)
Lemma direct_reply_run i res (s : mb_state X) sl v q : mem_ok s -> (i < NUM_MAILBOX_QUEUE_SLOT)%nat ->
  s.(slots) !! i = Some sl -> s.(vectors) !! i = Some v -> s.(queue) !! i = Some q ->
  q.(sq_ns_slot_idx) = Z.of_nat i ->
  exists l, mailbox_direct_reply i res s =
    (Val tt, set_spe_empty_slots (bit_set s.(spe_empty_slots) i) (set_queue (<[i := zero_secure_slot]> s.(queue))
      (set_vectors (alter (set_lv_in_use false) i s.(vectors)) (set_slots l s)))) /\
    l !! i = Some {| slot_msg := sl.(slot_msg); slot_reply := reply_of v res sl.(slot_reply) |} /\
    (forall j, j <> i -> l !! j = s.(slots) !! j) /\ length l = length s.(slots).
Proof.
  intros MO L SL SV SQ Q. unfold mailbox_direct_reply, get_nspe_reply_addr, mailbox_clean_queue_slot,
    set_spe_queue_empty_status, upd_reply, upd_vectors, reply_of.
  rewrite (proj2 (Nat.ltb_lt _ _)) by done. pose proof (mo_count s MO) as N.
  assert (forall A (k : nat -> MBX A), (x ← (_ ← panic_if (NUM_MAILBOX_QUEUE_SLOT <=? i)%nat;
    q ← gets queue;
    let ns_slot_idx := sq_ns_slot_idx (nth i q zero_secure_slot) in
    n ← gets ns_slot_count;
    _ ← panic_if ((Z.of_nat NUM_MAILBOX_QUEUE_SLOT <=? ns_slot_idx) || (n <=? ns_slot_idx));
    mret (Z.to_nat ns_slot_idx)); k x) s = k i s) as E.
  { intros A k. rewrite (proj2 (Nat.leb_gt _ _)) by done. unfold mbind, M_bind, gets, panic_if. simpl.
    rewrite (nth_lookup_Some _ _ _ _ SQ), Q, N. rewrite !(proj2 (Z.leb_gt _ _)) by lia. simpl. by rewrite Nat2Z.id. }
  rewrite E. unfold mbind, M_bind, gets, modifyS. simpl. rewrite (nth_lookup_Some _ _ _ _ SV).
  destruct (lv_in_use v && (res =? PSA_SUCCESS)); simpl; eexists; (split; [reflexivity|]);
    rewrite ?list_lookup_alter_eq, ?SL; (split; [done|]); (split; [|by rewrite ?length_alter]);
    intros j Nj; by rewrite ?list_lookup_alter_ne by congruence.
Qed.

(** ** A step that concerns one call *)

Lemma log_step (a : sys X) i cl es m h owed' : sys_ok a -> (i < NUM_MAILBOX_QUEUE_SLOT)%nat ->
  call_in a i = Some cl -> slot_of cl.(cl_stage) = Some i -> mem_ok m ->
  (forall j, j <> i -> same_at a.(mem) m j /\ scan_at h j = scan_at a.(spe) j /\
     scan_ans h j = scan_ans a.(spe) j /\ (j ∈ owed' <-> j ∈ a.(owed))) ->
  let a' := {| mem := m; isr := a.(isr); tag := a.(tag); spe := h; owed := owed';
               calls := log i es a.(tag) a.(calls) |} in
  (exists p, v_flags (view_at a' i) = flags_of p /\ content_ok i (view_at a' i) p (add_events es cl)) ->
  sys_ok a'.
Proof.
  intros OK L C S1 MO SA a' (p & F & K). destruct (OK) as [_ OS OH OT OW OU].
  pose proof C as C'. unfold call_in in C'. destruct (a.(tag) !! i) as [c|] eqn:T; [simpl in C'|done].
  assert (log i es a.(tag) a.(calls) = alter (add_events es) c a.(calls)) as E by (unfold log; by rewrite T).
  constructor; simpl; rewrite ?E; try done.
  - intros j Lj. destruct (decide (j = i)) as [->|N].
    + exists p. split; [done|]. right. exists (add_events es cl). split; [|done].
      simpl. unfold call_in. simpl. rewrite E, T. simpl. by rewrite lookup_alter_eq, C'.
    + destruct (SA j N) as (S' & E1 & E2 & E3). rewrite (view_same a); simpl; auto. unfold call_in. simpl. rewrite E.
      destruct (a.(tag) !! j) as [c'|] eqn:T'; [simpl|done]. apply lookup_alter_ne. intros ->.
      by apply (tag_other a OK c' cl i j C' S1 N).
  - intros c' cl' j. rewrite lookup_alter_Some. intros [(-> & x & E1 & ->) | [_ E1]]; simpl; eauto.
  - intros j. destruct (decide (j = i)) as [->|N]; [done|]. destruct (SA j N) as (_ & _ & _ & ->). apply OW.
  - intros c' cl'. rewrite lookup_alter_Some. intros [(-> & x & E1 & ->) | [_ E1]]; [|by eauto].
    assert (x = cl) as -> by congruence. unfold outside_ok. simpl. by destruct (cl_stage cl).
Qed.

(** ** A round of the scan *)

Lemma same_at_trans (m m1 m2 : mb_state X) j : same_at m m1 j -> same_at m1 m2 j -> same_at m m2 j.
Proof. intros [] []. constructor; congruence. Qed.

Lemma same_at_vectors i j (s s' : mb_state X) : vectors_only i s s' -> j <> i -> same_at s s' j.
Proof. intros (vs & x & -> & _ & E & _) N. constructor; simpl; auto. Qed.

Lemma mem_ok_vectors i (s s' : mb_state X) : mem_ok s -> vectors_only i s s' -> mem_ok s'.
Proof. intros [] (vs & x & -> & E & _ & F). constructor; simpl; auto; congruence. Qed.

(** The state after [take_slot]. *)
Definition taken (i : nat) (msg : mailbox_msg_t) (s : mb_state X) : mb_state X :=
  set_queue (<[i := {| sq_msg := msg; sq_ns_slot_idx := Z.of_nat i; sq_msg_handle := Z.of_nat i + 1 |}]> s.(queue))
    (set_spe_empty_slots (bits_clear s.(spe_empty_slots) (slot_bit i)) s).

Lemma take_run i sl (s : mb_state X) : (i < NUM_MAILBOX_QUEUE_SLOT)%nat -> s.(slots) !! i = Some sl ->
  take_slot i s = (Val sl.(slot_msg), taken i sl.(slot_msg) s).
Proof.
  intros L E. unfold take_slot, clear_spe_queue_empty_status, get_spe_mailbox_msg_handle.
  rewrite (proj2 (Nat.ltb_lt _ _)), (proj2 (Nat.leb_gt _ _)) by done.
  unfold mbind, M_bind, modifyS, gets. simpl. by rewrite (nth_lookup_Some _ _ _ _ E).
Qed.

Lemma mem_ok_taken i msg s : mem_ok s -> mem_ok (taken i msg s).
Proof. intros []. constructor; simpl; rewrite ?length_insert; done. Qed.

Lemma same_at_taken i msg (s : mb_state X) j : j <> i -> same_at s (taken i msg s) j.
Proof. intros N. same_tac. Qed.

Lemma scan_step pend i (acc acc' : Z * Z) j : j <> i ->
  scan_at (SpeScan pend (S i) acc') j = scan_at (SpeScan pend i acc) j.
Proof.
  intros N. unfold scan_at. destruct (bit_on pend j); [|done]. f_equal. apply eq_true_iff_eq.
  rewrite !Nat.leb_le. lia.
Qed.

Lemma log_nil i t (cs : gmap nat call_t) : log i [] t cs = cs.
Proof.
  unfold log. destruct (t !! i) as [c|]; [|done]. apply map_eq. intros c'.
  rewrite lookup_alter. case_decide; [subst|done]. destruct (cs !! c') as [[]|]; [|done].
  unfold add_events. simpl. by rewrite app_nil_r.
Qed.

Section Round.
Variables (a : sys X) (pend : Z) (i : nat) (acc : Z * Z).
Hypotheses (OK : sys_ok a) (SC : a.(spe) = SpeScan pend i acc) (L : (i < NUM_MAILBOX_QUEUE_SLOT)%nat).

Lemma round_skip : bit_on pend i = false ->
  sys_ok {| mem := a.(mem); isr := a.(isr); tag := a.(tag); spe := SpeScan pend (S i) acc;
            owed := a.(owed); calls := a.(calls) |}.
Proof.
  intros B. apply phases_step; [done|by destruct OK|]. intros j Lj p [F P]. exists p. split; [|done].
  rewrite <- F. simpl. unfold flags_at. rewrite SC. cbn [spe mem isr owed]. f_equal.
  destruct (decide (j = i)) as [->|N]; [unfold scan_at; by rewrite B|by apply scan_step].
Qed.

(** The slot of the round, and its message. *)
Lemma round_slot : bit_on pend i = true -> exists cl sl,
  flags_at a i = flags_of Scanned /\ call_in a i = Some cl /\ waits i cl /\ cl.(cl_events) = [] /\
  slot_of cl.(cl_stage) = Some i /\ a.(mem).(slots) !! i = Some sl /\ sl.(slot_msg) = cl.(cl_msg).
Proof.
  intros B. destruct (ok_slot a OK i L) as (p & F & P). simpl in F.
  assert (p = Scanned) as ->.
  { pose proof (f_equal f_scan F) as FS. simpl in FS. rewrite SC in FS. simpl in FS. rewrite B, Nat.leb_refl in FS.
    by destruct p. }
  destruct P as [[? _] | (cl & C & K)]; [done|]. pose proof (content_slot _ _ _ _ K) as S1.
  destruct K as (W & E & M). apply fmap_Some in M as (sl & SL & M). by exists cl, sl.
Qed.

Variables (cl : call_t) (sl : mailbox_slot_t) (s2 : mb_state X).
Hypotheses (B : bit_on pend i = true) (F : flags_at a i = flags_of Scanned) (C : call_in a i = Some cl)
  (W : waits i cl) (E : cl.(cl_events) = []) (S1 : slot_of cl.(cl_stage) = Some i)
  (SL : a.(mem).(slots) !! i = Some sl) (M : sl.(slot_msg) = cl.(cl_msg))
  (V : vectors_only i (taken i cl.(cl_msg) a.(mem)) s2).

Lemma round_mem : mem_ok s2.
Proof. eapply mem_ok_vectors; [|exact V]. apply mem_ok_taken. by destruct OK. Qed.

Lemma round_same j : j <> i -> same_at a.(mem) s2 j.
Proof. intros N. eapply same_at_trans; [by apply same_at_taken|by eapply same_at_vectors]. Qed.

Lemma round_queue : s2.(queue) !! i =
  Some {| sq_msg := cl.(cl_msg); sq_ns_slot_idx := Z.of_nat i; sq_msg_handle := Z.of_nat i + 1 |}.
Proof.
  destruct V as (vs & x & -> & _). simpl. apply list_lookup_insert_eq. by rewrite (mo_queue _ (ok_mem a OK)).
Qed.

(** The status bits of the slot behind its round. *)
Lemma round_flags (m : mb_state X) (acc' : Z * Z) (owed' : gset nat) cs q : q = ScanAnswered \/ q = ScanOwed \/ q = ScanLost ->
  m.(ns_empty_slots) = a.(mem).(ns_empty_slots) -> m.(pend_slots) = a.(mem).(pend_slots) ->
  m.(replied_slots) = a.(mem).(replied_slots) -> m.(slots_ns) = a.(mem).(slots_ns) ->
  bit_on m.(spe_empty_slots) i = f_spe (flags_of q) -> bool_decide (i ∈ owed') = f_owed (flags_of q) ->
  bit_on acc'.1 i = f_ans (flags_of q) ->
  flags_at {| mem := m; isr := a.(isr); tag := a.(tag); spe := SpeScan pend (S i) acc'; owed := owed';
              calls := cs |} i = flags_of q.
Proof.
  intros Q E1 E2 E3 E4 E5 E6 E7. unfold flags_at in F |- *. cbn [mem isr spe owed] in *.
  rewrite E1, E2, E3, E4, E5, E6. unfold scan_ans, scan_at. rewrite B, E7, (proj2 (Nat.leb_gt _ _)) by lia.
  injection F; intros. unfold flags_of in *. destruct Q as [-> | [-> | ->]]; simpl; f_equal; congruence.
Qed.

Lemma round_others m (acc' : Z * Z) (owed' : gset nat) : (forall j, j <> i -> same_at s2 m j) ->
  (forall j, j <> i -> bit_on acc'.1 j = bit_on acc.1 j) -> (forall j, j <> i -> (j ∈ owed' <-> j ∈ a.(owed))) ->
  forall j, j <> i -> same_at a.(mem) m j /\ scan_at (SpeScan pend (S i) acc') j = scan_at a.(spe) j /\
     scan_ans (SpeScan pend (S i) acc') j = scan_ans a.(spe) j /\ (j ∈ owed' <-> j ∈ a.(owed)).
Proof.
  intros E1 E2 E3 j N. rewrite SC. split; [eapply same_at_trans; [by apply round_same|auto]|].
  split; [by apply scan_step|]. simpl. auto.
Qed.

Lemma round_answer ret m n : known_type cl.(cl_msg).(call_type) = true -> s2.(slots) !! i = Some sl ->
  (cl.(cl_msg).(call_type) = MAILBOX_PSA_CALL -> u32 ret = PSA_SUCCESS -> in_use i s2) ->
  mailbox_direct_reply i (u32 ret) s2 = (Val tt, m) ->
  sys_ok {| mem := m; isr := a.(isr); tag := a.(tag); spe := SpeScan pend (S i) (bit_set acc.1 i, n); owed := a.(owed);
            calls := log i [ReadMsg cl.(cl_msg); Answer ret (lens_at i s2)] a.(tag) a.(calls) |}.
Proof.
  intros KT SL2 U R. pose proof round_mem as MO. destruct (slot_lt _ i MO L) as (_ & _ & _ & [v SV]).
  destruct (direct_reply_run i (u32 ret) s2 sl v _ MO L SL2 SV round_queue eq_refl) as (l & R' & L1 & L2 & L3).
  rewrite R' in R. injection R as <-. eapply log_step; [done|exact L|exact C|exact S1| | |].
  - destruct MO. constructor; simpl; rewrite ?length_insert, ?length_alter, ?L3; try done.
    apply Forall_alter; [done|]. by intros [].
  - apply round_others; [intros; same_tac; by rewrite L2| |done]. intros j N. simpl.
    by rewrite bit_on_set, bool_decide_eq_false_2, orb_false_r by congruence.
  - exists ScanAnswered. split.
    + pose proof (f_equal f_owed F) as FO. destruct V as (vs & x & -> & _). apply round_flags; simpl; try done; [by left| |];
        autorewrite with bits; by rewrite bool_decide_eq_true_2, orb_true_r by done.
    + split; [done|]. simpl. eexists. split; [exact L1|]. split; [exact KT|]. exists ret, (lens_at i s2). simpl. rewrite E.
      split; [done|]. split; [done|]. intros T Z0. unfold lens_at. rewrite (nth_lookup_Some _ _ _ _ SV), Z0.
      specialize (U T Z0). unfold in_use in U. rewrite SV in U. simpl in U. by rewrite U.
Qed.

(** The reply is never refused. *)
Lemma round_replies res : exists m, mailbox_direct_reply i res s2 = (Val tt, m).
Proof.
  pose proof round_mem as MO. destruct (slot_lt _ i MO L) as (_ & _ & _ & [v SV]).
  assert (s2.(slots) !! i = Some sl) as SL2 by (destruct V as (vs & x & -> & _); exact SL).
  destruct (direct_reply_run i res s2 sl v _ MO L SL2 SV round_queue eq_refl) as (l & R & _). eauto.
Qed.

Lemma round_owed n : known_type cl.(cl_msg).(call_type) = true -> (cl.(cl_msg).(call_type) = MAILBOX_PSA_CALL -> in_use i s2) ->
  sys_ok {| mem := s2; isr := a.(isr); tag := a.(tag); spe := SpeScan pend (S i) (acc.1, n); owed := {[i]} ∪ a.(owed);
            calls := log i [ReadMsg cl.(cl_msg)] a.(tag) a.(calls) |}.
Proof.
  intros KT U. eapply log_step; [done|exact L|exact C|exact S1|exact round_mem| |].
  - apply round_others; [done|done|]. intros j N. set_solver.
  - exists ScanOwed. split.
    + pose proof (f_equal f_ans F) as FA. simpl in FA. rewrite SC in FA.
      destruct V as (vs & x & -> & _). apply round_flags; simpl; try done; [by right; left| |].
      * autorewrite with bits. by rewrite bool_decide_eq_true_2, andb_false_r by done.
      * apply bool_decide_eq_true_2. set_solver.
    + split; [done|]. simpl. rewrite E. split; [done|]. split; [done|]. split; [exact round_queue|].
      intros T. specialize (U T). unfold in_use in U. destruct (slot_lt _ i round_mem L) as (_ & _ & _ & [v SV]).
      simpl. rewrite SV in *. simpl in *. by rewrite U.
Qed.

Lemma round_lost m : known_type cl.(cl_msg).(call_type) = false ->
  mailbox_clean_queue_slot i s2 = (Val tt, m) ->
  sys_ok {| mem := m; isr := a.(isr); tag := a.(tag); spe := SpeScan pend (S i) acc; owed := a.(owed);
            calls := log i [ReadMsg cl.(cl_msg)] a.(tag) a.(calls) |}.
Proof.
  intros U R. unfold mailbox_clean_queue_slot, set_spe_queue_empty_status in R.
  rewrite (proj2 (Nat.ltb_lt _ _)) in R by done. unfold mbind, M_bind, modifyS in R. injection R as <-. pose proof round_mem as MO.
  eapply log_step; [done|exact L|exact C|exact S1| | |].
  - destruct MO. by constructor; simpl; rewrite ?length_insert.
  - apply round_others; [intros; same_tac|done|done].
  - exists ScanLost. split.
    + pose proof (f_equal f_ans F) as FA. simpl in FA. rewrite SC in FA. pose proof (f_equal f_owed F) as FO.
      destruct V as (vs & x & -> & _). apply round_flags; simpl; try done; [by right; right|].
      autorewrite with bits. by rewrite bool_decide_eq_true_2, orb_true_r by done.
    + split; [done|]. simpl. by rewrite E.
Qed.
End Round.

Lemma scan_bound_all (m : mb_state X) : mem_ok m -> scan_bound m = NUM_MAILBOX_QUEUE_SLOT.
Proof. intros []. unfold scan_bound. rewrite mo_count. lia. Qed.

Lemma round_ok (a : sys X) pend i acc acc' m : sys_ok a -> a.(spe) = SpeScan pend i acc ->
  (i < scan_bound a.(mem))%nat -> handle_round pend i acc a.(mem) = (Val acc', m) ->
  sys_ok {| mem := m; isr := a.(isr); tag := a.(tag); spe := SpeScan pend (S i) acc';
            owed := (if (round_effect pend i a.(mem)).1 then {[i]} ∪ a.(owed) else a.(owed));
            calls := log i (round_effect pend i a.(mem)).2 a.(tag) a.(calls) |}.
Proof.
  intros OK SC L R. rewrite (scan_bound_all _ (ok_mem a OK)) in L. unfold handle_round, round_effect in *.
  destruct (bit_on pend i) eqn:B; [|injection R as <- <-; rewrite log_nil; by apply round_skip].
  destruct (round_slot a pend i acc OK SC L B) as (cl & sl & F & C & W & E & S1 & SL & M).
  pose proof (take_run i sl a.(mem) L SL) as T. rewrite M in T.
  unfold handle_slot in R. rewrite (bind_val _ _ _ _ _ T) in R. rewrite T.
  pose proof (mem_ok_taken i cl.(cl_msg) _ (ok_mem a OK)) as MO.
  pose proof (wp_dispatch_type cl.(cl_msg) i (taken i cl.(cl_msg) a.(mem)) (proj2 (proj2 (proj2 (slot_lt _ i MO L))))) as D.
  unfold wp in D. unfold tfm_mailbox_dispatch, attempt, mbind, M_bind in R.
  destruct (dispatch_type _ _ _) as [[[ret sync] | e | h] s2] eqn:ED; [| |discriminate R].
  - destruct D as [[V U] KT]. destruct sync.
    + destruct (mailbox_direct_reply i (u32 ret) s2) as [[[] | |] m'] eqn:ER; simpl in R.
      * injection R as <- <-. apply (round_answer a pend i acc OK SC L cl sl s2); auto.
        destruct V as (vs & x & -> & _). exact SL.
      * destruct (round_replies a i OK L cl sl s2 SL V (u32 ret)) as (m2 & ER2). by rewrite ER2 in ER.
      * discriminate R.
    + simpl in R. injection R as <- <-. eapply (round_owed a pend i acc OK SC L cl); eauto.
  - destruct D as [-> U]. destruct (mailbox_clean_queue_slot i _) as [[[] | |] m'] eqn:ER; simpl in R; try discriminate R.
    injection R as <- <-. eapply (round_lost a pend i acc OK SC L cl); eauto using vectors_only_refl.
Qed.

(** ** The start and the end of the scan *)

Lemma scan_ok (a : sys X) : sys_ok a -> a.(spe) = SpeIdle ->
  sys_ok {| mem := a.(mem); isr := a.(isr); tag := a.(tag); owed := a.(owed); calls := a.(calls);
            spe := SpeScan a.(mem).(pend_slots) 0 (0, 0) |}.
Proof.
  intros OK SC. apply phases_step; [done|by destruct OK|]. intros j L p [F P].
  exists (if decide (p = Pending) then Scanned else p). split.
  - simpl in F |- *. unfold flags_at, scan_at, scan_ans in *. rewrite SC in F. cbn [mem isr spe owed].
    rewrite bit_on_0, (proj2 (Nat.leb_le 0 j)) by lia. injection F; intros.
    destruct p; simpl in *; unfold flags_of; simpl; f_equal; try congruence;
      match goal with E : bit_on (pend_slots _) _ = _ |- _ => by rewrite E end.
  - destruct (decide (p = Pending)) as [->|]; [|exact P]. destruct P as [[? _] | P]; [done|by right].
Qed.

(** The phase of a slot when its scan ends. *)
Definition scan_done (p : phase) : phase :=
  match p with
  | ScanAnswered => Replied
  | ScanOwed => Owed
  | ScanLost => Lost
  | p => p
  end.

Lemma end_ok (a : sys X) pend i acc m : sys_ok a -> a.(spe) = SpeScan pend i acc ->
  (scan_bound a.(mem) <= i)%nat ->
  (_ ← handle_end pend acc.1; if acc.1 =? 0 then mret tt else mb_call tfm_mailbox_hal_notify_peer)
    a.(mem) = (Val tt, m) ->
  sys_ok {| mem := m; isr := a.(isr); tag := a.(tag); owed := a.(owed); calls := a.(calls); spe := SpeIdle |}.
Proof.
  intros OK SC L R. rewrite (scan_bound_all _ (ok_mem a OK)) in L. pose proof (ok_mem a OK) as MO.
  assert (exists x, m = set_mb_env x (set_replied_slots (Z.lor a.(mem).(replied_slots) acc.1)
    (set_pend_slots (bits_clear a.(mem).(pend_slots) pend) a.(mem)))) as [x ->].
  { unfold handle_end, clear_nspe_queue_pend_status, set_nspe_queue_replied_status in R. inv_run R.
    destruct (acc.1 =? 0); [|by apply mb_call_inv in Hrun0].
    inv_run Hrun0. eexists. match goal with |- ?s = _ => by instantiate (1 := mb_env s) end. }
  apply phases_step; [done|by destruct MO|]. intros j Lj p [F P]. exists (scan_done p). split.
  - simpl in F |- *. unfold flags_at, scan_at, scan_ans in *. rewrite SC in F. simpl in F |- *.
    autorewrite with bits. destruct (bit_on pend j); [rewrite (proj2 (Nat.leb_gt _ _)) in F by lia|];
      injection F; intros; destruct p; simpl in *; unfold flags_of; simpl; try congruence; f_equal;
      rewrite ?andb_true_r, ?andb_false_r; repeat match goal with E : ?x = _ |- context [?x || _] => rewrite E end;
      simpl; congruence.
  - destruct P as [[-> ?] | (cl & C & K)]; [by left|]. right. exists cl. split; [exact C|]. by destruct p.
Qed.

(** ** The SPM answers *)

Lemma put_lens_lens lens vs : length lens = length vs -> map mv_len (put_lens lens vs) = lens.
Proof.
  revert lens. unfold put_lens. induction vs as [|v vs IH]; intros [|n lens] E; try done.
  rewrite imap_cons. simpl. f_equal. apply (IH lens). simpl in E. lia.
Qed.

(** [tfm_mailbox_reply_msg] for a slot the secure side has taken. *)
Lemma reply_msg_run i ret (s : mb_state X) : (i < NUM_MAILBOX_QUEUE_SLOT)%nat ->
  bit_on s.(spe_empty_slots) i = false ->
  tfm_mailbox_reply_msg (Z.of_nat i + 1) ret s =
    (_ ← mailbox_direct_reply i (u32 ret); _ ← set_nspe_queue_replied_status (slot_bit i);
     mb_call tfm_mailbox_hal_notify_peer) s.
Proof.
  intros L E. pose proof slots_at_most_32. unfold tfm_mailbox_reply_msg, get_spe_mailbox_msg_idx, MAILBOX_MSG_NULL_HANDLE.
  rewrite !(proj2 (Z.eqb_neq (Z.of_nat i + 1) 0)) by lia.
  rewrite u8_small by (unfold is_u8; lia). replace (Z.to_nat _) with i by lia.
  unfold get_spe_queue_empty_status, mbind, M_bind, fail_if, gets. simpl. by rewrite E, andb_false_r.
Qed.

(** The state in which the peer is notified of a reply; [l] are the slots. *)
Definition replied_state (i : nat) (lens : list Z) (l : list mailbox_slot_t) (s : mb_state X) : mb_state X :=
  set_replied_slots (Z.lor s.(replied_slots) (slot_bit i))
    (set_spe_empty_slots (bit_set s.(spe_empty_slots) i) (set_queue (<[i := zero_secure_slot]> s.(queue))
      (set_vectors (alter (set_lv_in_use false) i
         (alter (fun x => set_lv_out_vec (put_lens lens x.(lv_out_vec)) x) i s.(vectors))) (set_slots l s)))).

Lemma spm_replies_run i ret lens (s : mb_state X) sl v q : mem_ok s -> (i < NUM_MAILBOX_QUEUE_SLOT)%nat ->
  bit_on s.(spe_empty_slots) i = false -> s.(slots) !! i = Some sl -> s.(vectors) !! i = Some v ->
  s.(queue) !! i = Some q -> q.(sq_ns_slot_idx) = Z.of_nat i -> q.(sq_msg_handle) = Z.of_nat i + 1 ->
  exists l, spm_replies i ret lens s = mb_call tfm_mailbox_hal_notify_peer (replied_state i lens l s) /\
    l !! i = Some {| slot_msg := sl.(slot_msg);
      slot_reply := reply_of (set_lv_out_vec (put_lens lens v.(lv_out_vec)) v) (u32 ret) sl.(slot_reply) |} /\
    (forall j, j <> i -> l !! j = s.(slots) !! j) /\ length l = length s.(slots).
Proof.
  intros MO L E SL SV SQ Q1 Q2. unfold spm_replies, write_out_lens, upd_vectors.
  rewrite bind_modifyS. unfold mailbox_reply. rewrite bind_gets. cbv zeta.
  cbn [queue set_vectors]. rewrite (nth_lookup_Some _ _ _ _ SQ), Q2. set (s1 := set_vectors _ s).
  assert (mem_ok s1) as MO1.
  { eapply mem_ok_vectors; [exact MO|]. apply vectors_only_upd; [|apply vectors_only_refl]. intros. apply length_imap. }
  destruct (direct_reply_run i (u32 ret) s1 sl (set_lv_out_vec (put_lens lens v.(lv_out_vec)) v) q MO1 L SL)
    as (l & R' & L1 & L2 & L3); [simpl; by rewrite list_lookup_alter_eq, SV|exact SQ|exact Q1|].
  exists l. split; [|done]. unfold attempt, mbind, M_bind. rewrite reply_msg_run by done.
  rewrite (bind_val _ _ _ _ _ R'). unfold set_nspe_queue_replied_status. rewrite bind_modifyS.
  unfold mb_call. simpl. by destruct (tfm_mailbox_hal_notify_peer (mb_env s)) as [[h | []] x].
Qed.

(** A slot whose call the SPM has taken. *)
Lemma owed_slot (a : sys X) i : sys_ok a -> a.(spe) = SpeIdle -> i ∈ a.(owed) -> exists cl sl v,
  flags_at a i = flags_of Owed /\ call_in a i = Some cl /\ owed_ok i (view_at a i) cl /\
  a.(mem).(slots) !! i = Some sl /\ a.(mem).(vectors) !! i = Some v /\
  forall ret lens, exists l, spm_replies i ret lens a.(mem) =
    mb_call tfm_mailbox_hal_notify_peer (replied_state i lens l a.(mem)) /\
    l !! i = Some {| slot_msg := sl.(slot_msg);
      slot_reply := reply_of (set_lv_out_vec (put_lens lens v.(lv_out_vec)) v) (u32 ret) sl.(slot_reply) |} /\
    (forall j, j <> i -> l !! j = a.(mem).(slots) !! j) /\ length l = length a.(mem).(slots).
Proof.
  intros OK SC O. pose proof (ok_owed a OK i O) as L. pose proof (ok_mem a OK) as MO.
  destruct (ok_slot a OK i L) as (p & F & P). simpl in F. assert (p = Owed) as ->.
  { pose proof (f_equal f_owed F) as FO. pose proof (f_equal f_scan F) as FS. simpl in FO, FS. rewrite SC in FS.
    rewrite bool_decide_eq_true_2 in FO by done. by destruct p. }
  destruct P as [[? _] | (cl & C & K)]; [done|]. destruct (slot_lt _ i MO L) as ([sl SL] & _ & _ & [v SV]).
  exists cl, sl, v. split_and!; try done. intros ret lens. destruct K as (_ & _ & _ & Q & _).
  eapply spm_replies_run; [exact MO|exact L| |exact SL|exact SV|exact Q|done|done].
  pose proof (f_equal f_spe F) as FE. exact FE.
Qed.

Lemma reply_ok (a : sys X) i ret lens m : sys_ok a -> a.(spe) = SpeIdle -> i ∈ a.(owed) ->
  length lens = MAX_IOVEC -> spm_replies i ret lens a.(mem) = (Val tt, m) ->
  sys_ok {| mem := m; isr := a.(isr); tag := a.(tag); spe := a.(spe); owed := a.(owed) ∖ {[i]};
            calls := log i [Answer ret lens] a.(tag) a.(calls) |}.
Proof.
  intros OK SC O LL R. pose proof (ok_owed a OK i O) as L. pose proof (ok_mem a OK) as MO.
  destruct (owed_slot a i OK SC O) as (cl & sl & v & F & C & K & SL & SV & T).
  destruct (T ret lens) as (l & T' & L1 & L2 & L3). rewrite T' in R. apply mb_call_inv in R as [x ->].
  pose proof (content_slot i (view_at a i) Owed cl K) as S1. destruct K as (W & KT & E & Q & U). simpl in Q, U.
  eapply log_step; [done|exact L|exact C|exact S1| | |].
  - destruct MO. constructor; simpl; rewrite ?length_insert, ?length_alter, ?L3; try done.
    apply Forall_alter; [apply Forall_alter; [done|]; intros; simpl; unfold put_lens; by rewrite length_imap|]. by intros [].
  - intros j N. split; [same_tac; by rewrite L2|]. rewrite SC. split; [done|]. split; [done|]. set_solver.
  - exists Replied. split.
    + simpl. unfold flags_at in F |- *. rewrite SC in *. simpl in F |- *. autorewrite with bits.
      rewrite !bool_decide_eq_true_2 by done. rewrite !orb_true_r, bool_decide_eq_false_2 by set_solver.
      injection F; intros. unfold flags_of. simpl. f_equal; congruence.
    + split; [done|]. simpl. eexists. split; [exact L1|]. split; [exact KT|]. exists ret, lens. simpl. rewrite E.
      split; [done|]. split; [done|]. intros CT Z0. specialize (U CT). rewrite SV in U. simpl in U. injection U as U.
      rewrite U, Z0. simpl. apply put_lens_lens. rewrite LL.
      by rewrite (Forall_lookup_1 _ _ _ _ (mo_out _ MO) SV).
Qed.
End SpeSteps.
