(* ===== verification/MbProtocol.v ===== *)
(** Mailbox between cores: the protocol holds.

    Every step of the two cores keeps [sys_ok], so every state that they reach from
    start-up has it.  What clients see follows: an answer is the SPM's answer to the
    call that gets it, a call the SPM has taken or answered is never forgotten, and a
    call of a type that the secure side does not know is. *)

From stdpp Require Import base list numbers gmap.
From S2P Require Import Prelude SpmTypes MbTypes MbSpe MbNs MbSystem MbInv MbNsSteps MbSpeSteps.

Section Protocol.
Context `{!MboxBuild} `{!MboxBuildOk} {X : Type} `{!MboxEnv X}.

(** ** Start-up *)

Lemma all_empty_ones : all_empty = Z.ones (Z.of_nat NUM_MAILBOX_QUEUE_SLOT).
Proof.
  pose proof slots_at_least_one. pose proof slots_at_most_32. unfold all_empty, slot_bit.
  rewrite !Z.shiftl_1_l, Z.ones_equiv. set (n := NUM_MAILBOX_QUEUE_SLOT) in *.
  replace (Z.of_nat n) with (Z.succ (Z.of_nat (n - 1))) by lia. rewrite Z.pow_succ_r by lia.
  assert (1 <= 2 ^ Z.of_nat (n - 1) <= 2 ^ 31) as B.
  { split; [pose proof (Z.pow_pos_nonneg 2 (Z.of_nat (n - 1))); lia|apply Z.pow_le_mono_r; lia]. }
  rewrite (u32_small (_ - 1)) by (unfold is_u32; lia). rewrite u32_small by (unfold is_u32; lia). lia.
Qed.

Lemma all_empty_bit i : (i < NUM_MAILBOX_QUEUE_SLOT)%nat -> bit_on all_empty i = true.
Proof. intros L. rewrite all_empty_ones, bit_on_testbit. apply Z.ones_spec_low. lia. Qed.

Lemma initial_ok (a : sys X) : initial a -> sys_ok a.
Proof.
  intros [(s & hal & E1 & m & E2 & M & V) C I SC T O]. pose proof slots_at_least_one. pose proof slots_at_most_32.
  unfold tfm_ns_mailbox_init in E1. inv_run E1.
  unfold tfm_mailbox_init, validate_mailbox_address_ranges in E2. inv_run E2.
  assert (u32 (slot_bit (NUM_MAILBOX_QUEUE_SLOT - 1) - 1 + slot_bit (NUM_MAILBOX_QUEUE_SLOT - 1)) = all_empty) as AE.
  { unfold all_empty, u32. by rewrite Zplus_mod_idemp_l. }
  rewrite AE in *. clear AE. destruct a as [mm cs h sp tg ow]. simpl in *. subst. constructor; simpl.
  - constructor; simpl; rewrite ?V, ?length_replicate; try done. apply Forall_replicate. done.
  - intros i L. exists Free. split; [|left; split; [done|apply lookup_empty]].
    simpl. unfold flags_at, flags_of. simpl.
    rewrite !bit_on_0, all_empty_bit, lookup_replicate_2, bool_decide_eq_false_2 by (done || set_solver). done.
  - intros c cl i. by rewrite lookup_empty.
  - intros i c. by rewrite lookup_empty.
  - intros i. set_solver.
  - intros c cl. by rewrite lookup_empty.
Qed.

(** ** Every step *)

Lemma step_ok (a a' : sys X) : sys_ok a -> step a a' -> sys_ok a'.
Proof.
  intros OK [c msg task C | c cl st m C R | i m R | SC _ | pend i acc acc' m SC L R | pend i acc m SC L R
            | i ret lens m SC O LL R].
  - by apply call_ok.
  - by apply client_ok.
  - destruct (isr a) as [|b k|b k] eqn:I; [by apply isr_begin|by eapply isr_loop|by eapply isr_wake].
  - by apply scan_ok.
  - by eapply round_ok.
  - by eapply end_ok.
  - by apply reply_ok.
Qed.

Lemma steps_ok (a a' : sys X) : sys_ok a -> rtc step a a' -> sys_ok a'.
Proof. intros OK. induction 1; eauto using step_ok. Qed.

Lemma reachable_ok (a : sys X) : reachable a -> sys_ok a.
Proof. intros (a0 & I & S). eapply steps_ok; [|exact S]. by apply initial_ok. Qed.

(** ** The steps are those of the code *)

Lemma rounds_steps (a : sys X) pend i acc r m : mem_ok a.(mem) -> a.(spe) = SpeScan pend i acc -> sys_ok a ->
  fold_range (Z.of_nat i) (Z.of_nat NUM_MAILBOX_QUEUE_SLOT) acc (fun k acc => handle_round pend (Z.to_nat k) acc)
    a.(mem) = (Val r, m) ->
  exists a' j, rtc step a a' /\ a'.(spe) = SpeScan pend j r /\ (NUM_MAILBOX_QUEUE_SLOT <= j)%nat /\ a'.(mem) = m /\ sys_ok a'.
Proof.
  remember (NUM_MAILBOX_QUEUE_SLOT - i)%nat as k eqn:K. revert a i acc K.
  induction k as [|k IH]; intros a i acc K MO SC OK R.
  - rewrite fold_range_nil in R by lia. injection R as <- <-. exists a, i. split; [done|]. split; [done|]. split; [lia|done].
  - rewrite fold_range_step in R by lia. apply bind_val_inv in R as (acc1 & m1 & R1 & R2). rewrite Nat2Z.id in R1.
    pose proof (step_round a pend i acc acc1 m1 SC ltac:(rewrite scan_bound_all by done; lia) R1) as ST.
    replace (Z.of_nat i + 1) with (Z.of_nat (S i)) in R2 by lia. pose proof (step_ok _ _ OK ST) as OK1.
    match type of ST with step _ ?a1 =>
      destruct (IH a1 (S i) acc1 ltac:(lia) (ok_mem _ OK1) eq_refl OK1 R2) as (a' & j & S1 & ?) end.
    exists a', j. split; [by eapply rtc_l|done].
Qed.

(** A run of [tfm_mailbox_handle_msg] that nobody interrupts is a sequence of steps. *)
Lemma handle_msg_steps (a : sys X) n m : sys_ok a -> a.(spe) = SpeIdle ->
  tfm_mailbox_handle_msg a.(mem) = (Val n, m) -> exists a', rtc step a a' /\ a'.(mem) = m /\ a'.(spe) = SpeIdle.
Proof.
  intros OK SC R. unfold tfm_mailbox_handle_msg, get_nspe_queue_pend_status in R.
  rewrite bind_gets in R. apply bind_val_inv in R as (u & s1 & R1 & R). apply fail_if_val_inv in R1 as [Z0 ->].
  apply Z.eqb_neq in Z0. rewrite bind_gets in R. apply bind_val_inv in R as (r & m1 & R1 & R).
  pose proof (ok_mem a OK) as MO. rewrite (mo_count _ MO), Z.min_id in R1.
  pose proof (step_scan a SC Z0) as ST. pose proof (step_ok _ _ OK ST) as OK1.
  edestruct (rounds_steps _ a.(mem).(pend_slots) 0 (0, 0) r m1 (ok_mem _ OK1) eq_refl OK1 R1)
    as (a1 & j & S1 & SC1 & J & M1 & OK2).
  apply bind_val_inv in R as (u1 & m2 & R2 & R). apply bind_val_inv in R as (u2 & m3 & R3 & R). injection R as _ <-.
  assert ((_ ← handle_end a.(mem).(pend_slots) r.1; if r.1 =? 0 then mret tt else mb_call tfm_mailbox_hal_notify_peer)
    a1.(mem) = (Val tt, m3)) as RE.
  { rewrite M1. rewrite (bind_val _ _ _ _ _ R2). by destruct u2. }
  pose proof (step_end a1 _ j r m3 SC1 ltac:(rewrite scan_bound_all by apply OK2; lia) RE) as ST2.
  eexists. split; [eapply rtc_l; [exact ST|]; eapply rtc_r; [exact S1|exact ST2]|done].
Qed.

(** ** What is certain about a call *)

(** Later, a call has the same message and at least the same history. *)
Definition later (cl cl' : call_t) : Prop :=
  cl'.(cl_msg) = cl.(cl_msg) /\ cl.(cl_events) `prefix_of` cl'.(cl_events).

#[export] Instance later_preorder : PreOrder later.
Proof.
  split; [by intros cl|]. intros x y z [E1 P1] [E2 P2]. split; [congruence|]. by etrans.
Qed.

Lemma log_later i es t cs c cl : cs !! c = Some cl -> exists cl', log i es t cs !! c = Some cl' /\ later cl cl'.
Proof.
  intros C. unfold log. destruct (t !! i) as [c'|]; [|by exists cl].
  destruct (decide (c' = c)) as [->|N]; [|rewrite lookup_alter_ne by done; by exists cl].
  rewrite lookup_alter_eq, C. eexists. split; [done|]. split; [done|]. by eexists.
Qed.

Lemma step_later (a a' : sys X) c cl : step a a' -> a.(calls) !! c = Some cl ->
  exists cl', a'.(calls) !! c = Some cl' /\ later cl cl'.
Proof.
  intros [c' msg task C' | c' cl' st m C' R | i m R | SC _ | pend i acc acc' m SC L R | pend i acc m SC L R
         | i ret lens m SC O LL R] C; simpl; try (by exists cl); try (by apply log_later).
  - rewrite lookup_insert_ne by congruence. by exists cl.
  - destruct (decide (c' = c)) as [->|N]; [|rewrite lookup_insert_ne by done; by exists cl].
    rewrite lookup_insert_eq. simplify_eq. eexists. split; [done|]. by split.
Qed.

Lemma steps_later (a a' : sys X) c cl : rtc step a a' -> a.(calls) !! c = Some cl ->
  exists cl', a'.(calls) !! c = Some cl' /\ later cl cl'.
Proof.
  intros S. revert cl. induction S as [|a b a' S _ IH]; intros cl C; [by exists cl|].
  destruct (step_later a b c cl S C) as (cl1 & C1 & L1). destruct (IH cl1 C1) as (cl2 & C2 & L2).
  exists cl2. split; [done|]. by etrans.
Qed.

(** C16: whatever the interleaving of the two cores, of any number of non-secure calls
    and of the interrupt, a call that returns with a reply returns the answer to its
    own message: the secure side read that message exactly once and the SPM answered
    it exactly once; the value is the one the SPM gave, as a 32-bit integer, and the
    lengths that a successful [psa_call] reports are those the SPM left in the vectors
    of that call.  A call that returns without a reply was never sent, and says so. *)
Theorem mailbox_answers (a : sys X) c cl ret r : reachable a ->
  a.(calls) !! c = Some cl -> cl.(cl_stage) = Done ret r ->
  match r with
  | Some rep =>
      exists ans lens, cl.(cl_events) = [ReadMsg cl.(cl_msg); Answer ans lens] /\
        rep.(return_val) = s32 (u32 ans) /\
        (cl.(cl_msg).(call_type) = MAILBOX_PSA_CALL -> u32 ans = PSA_SUCCESS -> rep.(out_vec_len) = lens)
  | None => cl.(cl_events) = [] /\ ret <> MAILBOX_SUCCESS
  end.
Proof.
  intros R C S. pose proof (ok_outside a (reachable_ok a R) c cl C) as O. unfold outside_ok in O. rewrite S in O.
  destruct r; [|done]. by destruct O as [_ ?].
Qed.

(** Where a waiting call can be. *)
Inductive place := InQueue | AtSpm | Announced | InHandler | Awake.
Definition at_place (a : sys X) (i : nat) (w : place) : bool :=
  match w with
  | InQueue => bit_on a.(mem).(pend_slots) i && negb (bool_decide (i ∈ a.(owed)))
  | AtSpm => bool_decide (i ∈ a.(owed))
  | Announced => bit_on a.(mem).(replied_slots) i
  | InHandler => isr_has a.(isr) i
  | Awake => from_option is_woken false (a.(mem).(slots_ns) !! i)
  end.

Lemma call_places (a : sys X) c cl i : sys_ok a ->
  a.(calls) !! c = Some cl -> cl.(cl_stage) = Waiting i -> known_type cl.(cl_msg).(call_type) = true ->
  exists! w, at_place a i w = true.
Proof.
  intros OK C S K.
  destruct (slot_phase a OK c cl i C) as (p & F & P); [by rewrite S|]. simpl in F.
  assert (waits i cl) as W by by right.
  pose proof (waiting_phase i _ p cl P W) as N.
  pose proof (f_equal f_pend F) as F1. pose proof (f_equal f_owed F) as F2. pose proof (f_equal f_repl F) as F3.
  pose proof (f_equal f_isr F) as F4. pose proof (f_equal f_woken F) as F5. simpl in F1, F2, F3, F4, F5.
  unfold at_place. rewrite F1, F2, F3, F4, F5. destruct p; simpl in P; try done;
    try (destruct P as (_ & _ & P); congruence);
    [exists InQueue|exists InQueue|exists InQueue|exists AtSpm|exists AtSpm|exists Announced|exists InHandler|exists Awake];
    (split; [reflexivity|intros [] E; (reflexivity || discriminate E)]).
Qed.

(** C17: no call is lost between the cores.  In every reachable state a call that waits
    and is of a type the secure side knows is in exactly one of five places: its
    message is in the queue, or the SPM owes it an answer, or its answer is announced,
    or the interrupt handler is about to wake it, or its flag is set, so that its next
    step takes the answer. *)
Theorem no_call_lost (a : sys X) c cl i : reachable a ->
  a.(calls) !! c = Some cl -> cl.(cl_stage) = Waiting i -> known_type cl.(cl_msg).(call_type) = true ->
  exists! w, at_place a i w = true.
Proof. intros R. by apply call_places, reachable_ok. Qed.

Lemma unread_or_lost i v p cl : content_ok i v p cl -> known_type cl.(cl_msg).(call_type) = false ->
  cl.(cl_events) <> [] -> waits i cl /\ cl.(cl_events) = [ReadMsg cl.(cl_msg)].
Proof.
  intros Q K E. destruct p; simpl in Q; unfold sent_ok, owed_ok, done_ok, lost_ok, answered_by in Q;
    try done; try (destruct Q as (? & ? & ?); done); try (destruct Q as (_ & ? & _ & Q & _); congruence);
    try (destruct Q as (_ & Q & _); congruence).
  unfold held_ok, answered_by in Q. destruct (cl_stage cl); try done;
    first [destruct Q as (_ & ? & _ & Q & _); congruence | destruct Q as (_ & Q & _); congruence | destruct Q; congruence].
Qed.

(** C21: a call of a type that the secure side does not know is refused without an
    answer.  Once the secure side has read its message, the caller waits, in this state
    and in every later one, whatever happens. *)
Theorem unknown_call_waits_forever (a a' : sys X) c cl : reachable a ->
  a.(calls) !! c = Some cl -> known_type cl.(cl_msg).(call_type) = false -> cl.(cl_events) <> [] ->
  rtc step a a' ->
  exists cl' i, a'.(calls) !! c = Some cl' /\ waits i cl' /\ cl'.(cl_events) = [ReadMsg cl.(cl_msg)].
Proof.
  intros R C K E S. destruct (steps_later a a' c cl S C) as (cl' & C' & M & P).
  pose proof (steps_ok a a' (reachable_ok a R) S) as OK. rewrite <- M in K |- *.
  assert (cl'.(cl_events) <> []) as E' by (destruct P as [l ->]; by destruct (cl_events cl)).
  destruct (slot_of cl'.(cl_stage)) as [i|] eqn:SO.
  - destruct (slot_phase a' OK c cl' i C' SO) as (p & _ & Q). exists cl', i. split; [done|].
    by eapply unread_or_lost.
  - pose proof (ok_outside a' OK c cl' C') as O. unfold outside_ok, answered_by in O.
    destruct (cl_stage cl') as [| | | | | | | | | |? []|? []]; try done; destruct O; congruence.
Qed.
End Protocol.
