(* ===== verification/MbSafe.v ===== *)
(** Mailbox between cores: a hostile non-secure side.

    The secure side reads what the other core writes.  Here that core may write
    anything at any time; what reaches the SPM is checked all the same. *)

From stdpp Require Import base list numbers relations.
From S2P Require Import Prelude SpmTypes MbTypes MbSpe.

Section Safe.
Context `{!MboxBuild} `{!MboxBuildOk} {X : Type} `{!MboxEnv X}.
Abbreviation MBX := (MB X).

(** ** Client identifiers *)

(** A range of negative identifiers. *)
Definition entry_ok (e : ns_mailbox_client_id_info_t) : Prop :=
  INT32_MIN <= e.(client_id_base) /\ e.(client_id_base) <= e.(client_id_limit) < 0.

Lemma int32_op_run x (s : mb_state X) : INT32_MIN <= x < 2 ^ 31 -> int32_op x s = (Val x, s).
Proof.
  intros B. unfold int32_op. rewrite (proj2 (Z.leb_le _ _)), (proj2 (Z.ltb_lt _ _)) by lia. done.
Qed.

Lemma int32_op_inv x y (s s' : mb_state X) : int32_op x s = (Val y, s') -> y = x /\ s' = s.
Proof. unfold int32_op. destruct (_ && _); intros E; [by injection E as -> ->|done]. Qed.

Lemma index_of_spec {A} (p : A -> bool) k l i : index_of p k l = Some i ->
  exists x, (k <= i)%nat /\ l !! (i - k)%nat = Some x /\ p x = true.
Proof.
  revert k. induction l as [|x l IH]; intros k; simpl; [done|]. destruct (p x) eqn:P.
  - intros [= <-]. exists x. rewrite Nat.sub_diag. done.
  - intros E. destruct (IH _ E) as (y & L & E' & P'). exists y. split; [lia|].
    replace (i - k)%nat with (Datatypes.S (i - Datatypes.S k)) by lia. done.
Qed.

(** C20: the identifier under which the SPM knows a non-secure client.  For an owner
    with the range [base..limit] of negative identifiers the computation never leaves
    the 32-bit integers, whatever the client claims; a claim from [- (limit - base + 1)]
    to [-1] is mapped one to one onto the range, and every other one is refused - with
    one exception: in a build that accepts the claim 0 that client becomes [limit + 1],
    which is outside the range. *)
Theorem client_id_confined owner cid i e (s : mb_state X) :
  owner <> 0 -> INT32_MIN <= cid < 2 ^ 31 ->
  index_of (Z.eqb owner) 0 s.(client_id_range_owner) = Some i ->
  ns_mailbox_client_id_info !! i = Some e -> entry_ok e ->
  let width := e.(client_id_limit) - e.(client_id_base) + 1 in
  let id := e.(client_id_limit) + 1 + cid in
  let run := tfm_multi_core_hal_client_id_translate owner cid s in
  (- width <= cid < 0 -> run = (Val id, s) /\ e.(client_id_base) <= id <= e.(client_id_limit)) /\
  (cid < - width -> run = (Err SPM_ERROR_GENERIC, s)) /\
  (0 < cid -> run = (Err SPM_ERROR_BAD_PARAMETERS, s)) /\
  (cid = 0 -> run = (if MAILBOX_SUPPORT_NS_CLIENT_ID_ZERO
                     then if id <? 0 then Val id else Err SPM_ERROR_GENERIC
                     else Err SPM_ERROR_BAD_PARAMETERS, s)).
Proof.
  intros O C I E [B1 B2] width id run.
  assert (cid <= 0 -> (cid = 0 -> MAILBOX_SUPPORT_NS_CLIENT_ID_ZERO = true) ->
    run = (if cid <? - width then Err SPM_ERROR_GENERIC else if id >=? 0 then Err SPM_ERROR_GENERIC else Val id, s)) as R.
  { intros N Z0. subst run. unfold tfm_multi_core_hal_client_id_translate.
    rewrite (proj2 (Z.eqb_neq _ _)) by done. rewrite bind_fail_no by done.
    rewrite bind_fail_no by (destruct MAILBOX_SUPPORT_NS_CLIENT_ID_ZERO; [lia|]; destruct (decide (cid = 0)); [by specialize (Z0 e0)|lia]).
    rewrite bind_gets, I, E. unfold INT32_MIN in *.
    rewrite (bind_val _ _ _ _ _ (int32_op_run (client_id_limit e - client_id_base e) s ltac:(unfold INT32_MIN; lia))).
    rewrite (bind_val _ _ _ _ _ (int32_op_run (-1 * (client_id_limit e - client_id_base e)) s ltac:(unfold INT32_MIN; lia))).
    rewrite (bind_val _ _ _ _ _ (int32_op_run (-1 * (client_id_limit e - client_id_base e) - 1) s ltac:(unfold INT32_MIN; lia))).
    replace (-1 * (client_id_limit e - client_id_base e) - 1) with (- width) by (unfold width; lia).
    destruct (cid <? - width) eqn:W; [done|]. rewrite bind_fail_no by done.
    rewrite (bind_val _ _ _ _ _ (int32_op_run (client_id_limit e + 1) s ltac:(unfold INT32_MIN; lia))).
    rewrite (bind_val _ _ _ _ _ (int32_op_run (client_id_limit e + 1 + cid) s ltac:(unfold INT32_MIN; unfold width in W; lia))).
    fold id. by destruct (id >=? 0). }
  split_and!.
  - intros W. rewrite R by lia. rewrite (proj2 (Z.ltb_ge _ _)) by lia.
    destruct (id >=? 0) eqn:G; [unfold id in G; lia|]. split; [done|]. unfold id, width in *. lia.
  - intros W. rewrite R by (unfold width in *; lia). by rewrite (proj2 (Z.ltb_lt _ _)) by lia.
  - intros P. subst run. unfold tfm_multi_core_hal_client_id_translate.
    rewrite (proj2 (Z.eqb_neq _ _)) by done. rewrite bind_fail_no by done.
    apply bind_fail_yes. destruct MAILBOX_SUPPORT_NS_CLIENT_ID_ZERO; lia.
  - intros ->. destruct MAILBOX_SUPPORT_NS_CLIENT_ID_ZERO eqn:Z0.
    + rewrite R by done. rewrite (proj2 (Z.ltb_ge _ _)) by (unfold width; lia). rewrite Z.geb_leb, Z.leb_antisym.
      by destruct (id <? 0).
    + subst run. unfold tfm_multi_core_hal_client_id_translate.
      rewrite (proj2 (Z.eqb_neq _ _)) by done. rewrite bind_fail_no by done. rewrite Z0. by apply bind_fail_yes.
Qed.

(** ** What reaches the SPM *)

(** An identifier of the range registered for the mailbox; the one behind it is
    possible in a build that accepts the claim 0. *)
Definition id_allowed (owners : list Z) (id : Z) : Prop :=
  exists i e, owners !! i = Some CLIENT_ID_OWNER_MAGIC /\ ns_mailbox_client_id_info !! i = Some e /\
    e.(client_id_base) <= id <= e.(client_id_limit) + (if MAILBOX_SUPPORT_NS_CLIENT_ID_ZERO then 1 else 0) /\ id < 0.

(** The vectors of a call: [n] of them are the client's, none of them a null pointer
    with a length, and the others are null. *)
Definition vecs_checked (n : Z) (l : list mb_vec) : Prop :=
  length l = MAX_IOVEC /\
  (forall k v, l !! k = Some v -> v.(mv_base) = 0 -> v.(mv_len) = 0) /\
  (forall k v, l !! k = Some v -> n <= Z.of_nat k -> v = null_vec).

Definition checked_call (owners : list Z) (control : Z) (p : client_params_t) (idx : Z) : Prop :=
  id_allowed owners p.(ns_client_id_stateless) /\ 0 <= idx < Z.of_nat NUM_MAILBOX_QUEUE_SLOT /\
  exists type in_len out_len,
    control = PARAM_SET_NS_OUTVEC (PARAM_SET_NS_INVEC (PARAM_PACK type in_len out_len)) /\
    in_len <= PSA_MAX_IOVEC /\ out_len <= PSA_MAX_IOVEC /\ u32 (in_len + out_len) <= PSA_MAX_IOVEC /\
    vecs_checked in_len p.(p_invecs) /\ vecs_checked out_len p.(p_outvecs).

(** The private data of the secure side. *)
Record spe_ok (owners : list Z) (s : mb_state X) : Prop := {
  so_queue : length s.(queue) = NUM_MAILBOX_QUEUE_SLOT;
  so_vectors : length s.(vectors) = NUM_MAILBOX_QUEUE_SLOT;
  so_vec : Forall (fun v => length v.(lv_in_vec) = MAX_IOVEC /\ length v.(lv_out_vec) = MAX_IOVEC) s.(vectors);
  so_handle : Forall (fun q => 0 <= q.(sq_msg_handle) <= Z.of_nat NUM_MAILBOX_QUEUE_SLOT) s.(queue);
  so_owners : s.(client_id_range_owner) = owners;
}.

(** The other core writes to the memory it can reach. *)
Record scribble (s s' : mb_state X) : Prop := {
  sc_spe_empty : s'.(spe_empty_slots) = s.(spe_empty_slots);
  sc_queue : s'.(queue) = s.(queue);
  sc_count : s'.(ns_slot_count) = s.(ns_slot_count);
  sc_vectors : s'.(vectors) = s.(vectors);
  sc_owners : s'.(client_id_range_owner) = s.(client_id_range_owner);
  sc_env : s'.(mb_env) = s.(mb_env);
}.

(** The secure side at work while the other core writes: the rounds and the end of a
    scan, with any pending bits, and the replies of the SPM. *)
Inductive attacked (s : mb_state X) : mb_state X -> Prop :=
  | at_write s' : scribble s s' -> attacked s s'
  | at_round pend i acc : (i < NUM_MAILBOX_QUEUE_SLOT)%nat -> attacked s (handle_round pend i acc s).2
  | at_end pend reply_slots : attacked s (handle_end pend reply_slots s).2
  | at_notify : attacked s (mb_call tfm_mailbox_hal_notify_peer s).2
  | at_lens i lens : attacked s (write_out_lens i lens s).2
  | at_reply i ret : attacked s (mailbox_reply i ret s).2.

Section Reach.
Variables (owners : list Z) (I : X -> Prop).
Hypothesis I_version : forall x, I x -> I (spm_framework_version x).2 /\ (forall sid, I (spm_version sid x).2).
Hypothesis I_notify : forall x, I x -> I (tfm_mailbox_hal_notify_peer x).2.
Hypothesis I_call : forall handle control p idx x,
  checked_call owners control p idx -> I x -> I (agent_psa_call handle control p idx x).2.
Hypothesis I_connect : forall sid version id idx x, id_allowed owners id ->
  0 <= idx < Z.of_nat NUM_MAILBOX_QUEUE_SLOT -> I x -> I (agent_psa_connect sid version id idx x).2.
Hypothesis I_close : forall handle id x, id_allowed owners id -> I x -> I (agent_psa_close handle id x).2.

Definition J (s : mb_state X) : Prop := spe_ok owners s /\ I s.(mb_env).

Lemma J_scribble s s' : scribble s s' -> J s -> J s'.
Proof. intros [] [[] ?]. split; [constructor|]; congruence. Qed.

Lemma J_mb_call {A} (m : X -> (halt + A) * X) : (forall x, I x -> I (m x).2) -> keeps J (mb_call m).
Proof.
  intros K s [[] E]. unfold mb_call. specialize (K _ E). destruct (m (mb_env s)) as [[h | b] x]; by split.
Qed.

Lemma J_upd_vectors i f :
  (forall v, length (f v).(lv_in_vec) = length v.(lv_in_vec) /\ length (f v).(lv_out_vec) = length v.(lv_out_vec)) ->
  keeps J (upd_vectors i f).
Proof.
  intros L. apply keeps_modifyS. intros s [[] E]. split; [|done].
  constructor; simpl; rewrite ?length_alter; try done. apply Forall_alter; [done|].
  intros v _ [E1 E2]. destruct (L v) as [-> ->]. done.
Qed.

Lemma J_queue i q : 0 <= q.(sq_msg_handle) <= Z.of_nat NUM_MAILBOX_QUEUE_SLOT ->
  keeps J (modifyS (fun s => set_queue (<[i := q]> s.(queue)) s)).
Proof.
  intros L. apply keeps_modifyS. intros s [[] E]. split; [|done].
  constructor; simpl; rewrite ?length_insert; try done. by apply Forall_insert.
Qed.

Lemma J_upd_reply i f : keeps J (upd_reply i f).
Proof. apply keeps_modifyS. intros s. by apply J_scribble. Qed.
Lemma J_spe_empty f : keeps J (modifyS (fun s => set_spe_empty_slots (f s) s)).
Proof. apply keeps_modifyS. by intros s [[] E]. Qed.
#[local] Hint Resolve J_upd_reply J_spe_empty : keeps.

Lemma J_clean i : keeps J (mailbox_clean_queue_slot i).
Proof.
  unfold mailbox_clean_queue_slot, set_spe_queue_empty_status. keeps_auto. apply J_queue. simpl. lia.
Qed.

Lemma J_direct_reply i res : keeps J (mailbox_direct_reply i res).
Proof.
  unfold mailbox_direct_reply, get_nspe_reply_addr. keeps_auto; [|apply J_clean]. by apply J_upd_vectors.
Qed.

(** *** The copy of the vectors *)

Definition put_expected (src : list mb_vec) (len : Z) (k : nat) : mb_vec :=
  if Z.of_nat k <? len then nth k src null_vec else null_vec.

(** The first [k] vectors are copied. *)
Definition copied (src : list mb_vec) (len k : Z) (l : list mb_vec) : Prop :=
  forall j, Z.of_nat j < k -> (j < MAX_IOVEC)%nat -> l !! j = Some (put_expected src len j) /\
    (mv_base (put_expected src len j) = 0 -> mv_len (put_expected src len j) = 0).

Lemma copied_checked src len l : length l = MAX_IOVEC -> copied src len PSA_MAX_IOVEC l -> vecs_checked len l.
Proof.
  intros L C. split; [done|]. split; intros k v E; pose proof (lookup_lt_Some _ _ _ E) as B; rewrite L in B;
    destruct (C k) as [E' N]; try done; try (unfold MAX_IOVEC in *; lia); rewrite E in E'; injection E' as ->; [done|].
  intros G. unfold put_expected. by rewrite (proj2 (Z.ltb_ge _ _)) by lia.
Qed.

Lemma copied_next src len k l : 0 <= k < PSA_MAX_IOVEC -> length l = MAX_IOVEC -> copied src len k l ->
  (k < len -> mv_base (nth (Z.to_nat k) src null_vec) = 0 -> mv_len (nth (Z.to_nat k) src null_vec) = 0) ->
  copied src len (k + 1) (<[Z.to_nat k := put_expected src len (Z.to_nat k)]> l).
Proof.
  intros B L C N j Hj Lj. destruct (decide (j = Z.to_nat k)) as [->|NE].
  - rewrite list_lookup_insert_eq by lia. split; [done|]. unfold put_expected. rewrite Z2Nat.id by lia.
    destruct (k <? len) eqn:K; [apply N; lia|done].
  - rewrite list_lookup_insert_ne by done. apply C; [lia|done].
Qed.

Lemma copy_vec_inv src len k (put : mb_vec -> MBX unit) (s s' : mb_state X) r : 0 <= k ->
  copy_vec src len k put s = (Val r, s') ->
  r = None /\ put (put_expected src len (Z.to_nat k)) s = (Val tt, s') /\
  (k < len -> mv_base (nth (Z.to_nat k) src null_vec) = 0 -> mv_len (nth (Z.to_nat k) src null_vec) = 0).
Proof.
  intros K E. unfold copy_vec, put_expected in *. rewrite Z2Nat.id by done.
  destruct (k <? len) eqn:L; inv_run E; (split; [done|]); [|split; [by destruct a|lia]].
  destruct a. split; [done|]. intros _ Z0. rewrite Z0 in Hrun1. simpl in Hrun1. apply negb_false_iff in Hrun1. lia.
Qed.

(** The slot's vectors have their sizes, and [Q] holds of them. *)
Definition local_vecs (i : nat) (Q : vectors_t -> Prop) (s : mb_state X) : Prop :=
  exists v, s.(vectors) !! i = Some v /\ length v.(lv_in_vec) = MAX_IOVEC /\ length v.(lv_out_vec) = MAX_IOVEC /\ Q v.

Lemma local_vecs_upd i (Q Q' : vectors_t -> Prop) f (s s' : mb_state X) :
  local_vecs i Q s -> upd_vectors i f s = (Val tt, s') ->
  (forall v, length v.(lv_in_vec) = MAX_IOVEC -> length v.(lv_out_vec) = MAX_IOVEC -> Q v ->
     length (f v).(lv_in_vec) = MAX_IOVEC /\ length (f v).(lv_out_vec) = MAX_IOVEC /\ Q' (f v)) ->
  local_vecs i Q' s'.
Proof.
  intros (v & E & L1 & L2 & K) R F. unfold upd_vectors in R. inv_run R.
  exists (f v). simpl. rewrite list_lookup_alter_eq, E. split; [done|]. by apply F.
Qed.

Lemma local_copy_checked p i control c (s s' : mb_state X) : local_vecs i (fun _ => True) s ->
  local_copy_vects p i control s = (Val c, s') ->
  c = PARAM_SET_NS_OUTVEC (PARAM_SET_NS_INVEC control) /\
  p.(pc_in_len) <= PSA_MAX_IOVEC /\ p.(pc_out_len) <= PSA_MAX_IOVEC /\
  u32 (p.(pc_in_len) + p.(pc_out_len)) <= PSA_MAX_IOVEC /\
  local_vecs i (fun v => vecs_checked p.(pc_in_len) v.(lv_in_vec) /\ vecs_checked p.(pc_out_len) v.(lv_out_vec)) s'.
Proof.
  intros V E. unfold local_copy_vects in E. inv_run E.
  apply orb_false_iff in Hrun as [B1 B3]. apply orb_false_iff in B1 as [B1 B2].
  split; [done|]. split_and!; [lia..|].
  apply (for_range_val (fun k => local_vecs i (fun v => copied p.(pc_in_vec) p.(pc_in_len) k v.(lv_in_vec)))) in Hrun1 as [_ V1].
  - rewrite Z.max_r in V1 by done.
    apply (for_range_val (fun k => local_vecs i (fun v => copied p.(pc_in_vec) p.(pc_in_len) PSA_MAX_IOVEC v.(lv_in_vec) /\
      copied p.(pc_out_vec) p.(pc_out_len) k v.(lv_out_vec)))) in Hrun0 as [_ V2].
    + rewrite Z.max_r in V2 by done.
      repeat match goal with u : unit |- _ => destruct u end.
      match type of V2 with local_vecs _ ?CC _ => apply (local_vecs_upd i CC CC _ _ _ V2) in Hrun2 as V3; [|done] end.
      eapply local_vecs_upd in Hrun3; [exact Hrun3|exact V3|].
      intros v L1 L2 [C1 C2]. split_and!; try done; by eapply copied_checked.
    + intros k t t' r B V2 R. apply copy_vec_inv in R as (-> & R & N); [|lia]. split; [done|].
      eapply local_vecs_upd in R; [exact R|exact V2|]. intros v L1 L2 [C1 C2]. simpl. rewrite length_insert.
      split_and!; try done. apply copied_next; [lia|done..].
    + destruct V1 as (v & ? & ? & ? & C1). exists v. split_and!; try done. intros j Hj. lia.
  - intros k t t' r B V2 R. apply copy_vec_inv in R as (-> & R & N); [|lia]. split; [done|].
    eapply local_vecs_upd in R; [exact R|exact V2|]. intros v L1 L2 C1. simpl. rewrite length_insert.
    split_and!; try done. apply copied_next; [lia|done..].
  - destruct V as (v & ? & ? & ? & _). exists v. split_and!; try done. intros j Hj. lia.
Qed.

(** *** The messages *)

Lemma translated_allowed msg (s s' : mb_state X) id : spe_ok owners s ->
  translated msg s = (Val (inr id), s') -> s' = s /\ id_allowed owners id.
Proof.
  intros OK E. unfold translated, attempt in E.
  destruct (tfm_multi_core_hal_client_id_translate _ _ s) as [[v | e | h] s1] eqn:R; simplify_eq.
  unfold tfm_multi_core_hal_client_id_translate in R. inv_run R. rename Hrun1 into C, Hrun3 into R.
  destruct (index_of _ _ _) as [i|] eqn:IX; [|done]. destruct (ns_mailbox_client_id_info !! i) as [e|] eqn:EI; [|done].
  inv_run R. repeat match goal with E : int32_op _ _ = _ |- _ => apply int32_op_inv in E as [-> ->] end. split; [done|].
  destruct (index_of_spec _ _ _ _ IX) as (o & _ & EO & PO). rewrite Nat.sub_0_r in EO. apply Z.eqb_eq in PO. subst o.
  rewrite (so_owners _ _ OK) in EO. exists i, e. split; [done|]. split; [done|].
  repeat match goal with E : (_ <? _) = false |- _ => apply Z.ltb_ge in E | E : (_ >=? _) = false |- _ => rewrite Z.geb_leb in E; apply Z.leb_gt in E end.
  destruct MAILBOX_SUPPORT_NS_CLIENT_ID_ZERO; [rewrite Z.gtb_ltb in C; apply Z.ltb_ge in C|]; lia.
Qed.

Lemma J_translated msg : keeps J (translated msg).
Proof. unfold translated, tfm_multi_core_hal_client_id_translate, int32_op. keeps_auto. Qed.

Lemma J_local_copy p i control : keeps J (local_copy_vects p i control).
Proof.
  unfold local_copy_vects, copy_vec, put_in_vec, put_out_vec.
  keeps_auto; apply J_upd_vectors; intros; simpl; rewrite ?length_insert; done.
Qed.

Lemma J_write_lens i lens : keeps J (write_out_lens i lens).
Proof. apply J_upd_vectors. intros v. simpl. unfold put_lens. by rewrite length_imap. Qed.

Lemma J_dispatch_call msg i sync0 : (i < NUM_MAILBOX_QUEUE_SLOT)%nat ->
  keeps J (dispatch_call msg i
    (PARAM_PACK msg.(params).(type_or_version) msg.(params).(pc_in_len) msg.(params).(pc_out_len)) sync0).
Proof.
  intros L s K. unfold dispatch_call. pose proof (J_translated msg s K) as KT.
  destruct (translated msg s) as [[[e | id] | e | h] s1] eqn:ET; unfold mbind, M_bind; rewrite ET; try done.
  destruct (translated_allowed msg s s1 id (proj1 K) ET) as [-> IA].
  set (control := PARAM_PACK _ _ _). pose proof (J_local_copy msg.(params) i control s K) as KC.
  pose proof (local_copy_checked msg.(params) i control) as LC. unfold attempt.
  destruct (local_copy_vects _ i control s) as [[c | e | h] s2] eqn:EC; try done.
  assert (local_vecs i (fun _ => True) s) as LV.
  { destruct K as [[] _]. destruct (lookup_lt_is_Some_2 s.(vectors) i) as [v V]; [lia|].
    destruct (Forall_lookup_1 _ _ _ _ so_vec0 V). by exists v. }
  destruct (LC c s s2 LV EC) as (-> & B1 & B2 & B3 & v & V & L1 & L2 & C1 & C2). simpl in KC.
  unfold gets. rewrite (nth_lookup_Some _ _ _ _ V).
  assert (keeps J (a ← mb_call (agent_psa_call msg.(params).(handle_or_sid)
      (PARAM_SET_NS_OUTVEC (PARAM_SET_NS_INVEC control))
      {| ns_client_id_stateless := id; p_invecs := v.(lv_in_vec); p_outvecs := v.(lv_out_vec) |} (Z.of_nat i));
    _ ← write_out_lens i a.2; mret (call_result sync0 a.1))) as KK; [|exact (KK s2 KC)].
  apply keeps_bind; [|intros a; apply keeps_bind; [apply J_write_lens|intros; apply keeps_ret]].
  apply J_mb_call. intros x. apply I_call. split; [done|]. split; [lia|]. by exists msg.(params).(type_or_version), msg.(params).(pc_in_len), msg.(params).(pc_out_len).
Qed.

Lemma J_agent msg (m : Z -> X -> (halt + Z) * X) sync0 : (forall id x, id_allowed owners id -> I x -> I (m id x).2) ->
  keeps J (c ← translated msg;
      match c with
      | inl _ => mret (PSA_ERROR_INVALID_ARGUMENT, true)
      | inr client_id => r ← mb_call (m client_id); mret (call_result sync0 r)
      end).
Proof.
  intros K s Js. pose proof (J_translated msg s Js) as KT.
  destruct (translated msg s) as [[[e | id] | e | h] s1] eqn:ET; unfold mbind at 1, M_bind at 1; rewrite ET; try done.
  destruct (translated_allowed msg s s1 id (proj1 Js) ET) as [-> IA].
  refine (keeps_bind J (mb_call (m id)) (fun r => mret (call_result sync0 r)) _ _ s Js); [apply J_mb_call; auto|].
  intros. apply keeps_ret.
Qed.

Lemma J_dispatch_type msg i : (i < NUM_MAILBOX_QUEUE_SLOT)%nat -> keeps J (dispatch_type msg i).
Proof.
  intros L. unfold dispatch_type. cbv zeta.
  destruct (_ =? MAILBOX_PSA_FRAMEWORK_VERSION); [|destruct (_ =? MAILBOX_PSA_VERSION);
    [|destruct (_ =? MAILBOX_PSA_CALL); [by apply J_dispatch_call|]]].
  - apply keeps_bind; [apply J_mb_call; intros x Ix; apply (I_version x Ix)|intros; apply keeps_ret].
  - apply keeps_bind; [apply J_mb_call; intros x Ix; apply (I_version x Ix)|intros; apply keeps_ret].
  - destruct (_ && _); [apply J_agent; intros; apply I_connect; [done|lia|done]|].
    destruct (_ && _); [apply J_agent; intros; by apply I_close|apply keeps_throw].
Qed.

Lemma J_take_slot i : keeps J (take_slot i).
Proof.
  unfold take_slot, clear_spe_queue_empty_status. apply keeps_bind; [keeps_auto|intros _].
  apply keeps_bind; [keeps_auto|intros ns]. cbv zeta.
  apply (keeps_bind_to J _ _ (fun h => 0 <= h <= Z.of_nat NUM_MAILBOX_QUEUE_SLOT)).
  - intros s K. unfold get_spe_mailbox_msg_handle. destruct (NUM_MAILBOX_QUEUE_SLOT <=? i)%nat eqn:B; [done|].
    apply Nat.leb_gt in B. split; [done|]. intros h [= <-]. lia.
  - intros h B. apply keeps_bind; [by apply J_queue|intros; apply keeps_ret].
Qed.

Lemma J_handle_round pend i acc : (i < NUM_MAILBOX_QUEUE_SLOT)%nat -> keeps J (handle_round pend i acc).
Proof.
  intros L. unfold handle_round, handle_slot, tfm_mailbox_dispatch. destruct (bit_on pend i); [|apply keeps_ret].
  repeat first [apply J_take_slot | apply J_dispatch_type; exact L | apply J_direct_reply | apply J_clean | keeps_step].
Qed.

Lemma J_reply i ret : keeps J (mailbox_reply i ret).
Proof.
  unfold mailbox_reply, tfm_mailbox_reply_msg, get_spe_mailbox_msg_idx, get_spe_queue_empty_status, set_nspe_queue_replied_status.
  repeat first [apply J_direct_reply | apply J_mb_call; exact I_notify | apply keeps_modifyS; intros ?; by apply J_scribble | keeps_step].
Qed.

Lemma J_attacked s s' : attacked s s' -> J s -> J s'.
Proof.
  intros [s1 W | pend i acc L | pend r | | i lens | i ret] K.
  - by eapply J_scribble.
  - by apply J_handle_round.
  - revert K. apply J_scribble. done.
  - revert K. by apply J_mb_call.
  - revert K. apply J_write_lens.
  - revert K. apply J_reply.
Qed.

(** C19: whatever the other core writes, and whenever, only checked requests reach the
    SPM, and the secure side's own tables keep their shape.  Let [I] be any property
    of the state of the SPM that survives a version query, a notification, and those
    calls, connections and closings that are made in the name of an identifier of the
    range registered for the mailbox, for a slot of the queue, with vectors of which
    none is a null pointer with a length, none beyond the announced number is set, and
    at most four are announced.  Then [I] survives every sequence of rounds of the
    scan, replies and hostile writes, in any order. *)
Theorem hostile_ns_contained (s s' : mb_state X) :
  spe_ok owners s -> I s.(mb_env) -> rtc attacked s s' -> spe_ok owners s' /\ I s'.(mb_env).
Proof.
  intros OK K R. assert (J s) as Js by done. clear OK K. induction R as [|s s1 s2 A _ IH]; [done|].
  apply IH. by eapply J_attacked.
Qed.
End Reach.
End Safe.
