(* ===== verification/MbLive.v ===== *)
(** Mailbox between cores: a waiting call can always be completed.

    The SPM and the platform answer when they are called; nothing is assumed about the
    order of the steps.  From every reachable state the steps left to do for a call can
    be done: no deadlock, no step of either core that cannot be taken. *)

From stdpp Require Import base list numbers gmap.
From S2P Require Import Prelude SpmTypes MbTypes MbSpe MbNs MbSystem MbInv MbNsSteps MbSpeSteps MbProtocol.

(** ** Computations that do not stop *)

Definition runs {S A} (I : S -> Prop) (m : M S A) : Prop :=
  forall s, I s -> (forall h, (m s).1 <> Halt h) /\ I (m s).2.

Section Runs.
Context {S : Type} (I : S -> Prop).

Lemma runs_ret {A} (a : A) : runs I (mret (M := M S) a).
Proof. by intros s. Qed.
Lemma runs_throw {A} e : runs I (throw (A := A) e).
Proof. by intros s. Qed.
Lemma runs_gets {A} (f : S -> A) : runs I (gets f).
Proof. by intros s. Qed.
Lemma runs_modifyS f : (forall s, I s -> I (f s)) -> runs I (modifyS f).
Proof. intros K s Is. split; [done|by apply K]. Qed.
Lemma runs_fail_if b e : runs I (fail_if b e).
Proof. destruct b; by intros s. Qed.
Lemma runs_bind {A B} (m : M S A) (f : A -> M S B) : runs I m -> (forall a, runs I (f a)) -> runs I (x ← m; f x).
Proof.
  intros Hm Hf s Is. destruct (Hm s Is) as [Nh Is1]. unfold mbind, M_bind.
  destruct (m s) as [[a | e | h] s1]; [by apply Hf|done|by destruct (Nh h)].
Qed.
Lemma runs_attempt {A} (m : M S A) : runs I m -> runs I (attempt m).
Proof.
  intros Hm s Is. destruct (Hm s Is) as [Nh Is1]. unfold attempt.
  destruct (m s) as [[a | e | h] s1]; [done|done|by destruct (Nh h)].
Qed.
Lemma runs_for_range {A} lo hi (body : Z -> M S (option A)) : (forall i, runs I (body i)) -> runs I (for_range lo hi body).
Proof.
  intros Hb. unfold for_range. generalize (Z.to_nat (hi - lo)) as n. intros n. revert lo.
  induction n as [|n IH]; intros lo; [apply runs_ret|]. simpl. apply runs_bind; [apply Hb|].
  intros [a|]; [apply runs_ret|apply IH].
Qed.
End Runs.

Create HintDb runs discriminated.
#[export] Hint Resolve runs_ret runs_throw runs_gets runs_fail_if : runs.
Ltac runs_step :=
  lazymatch goal with
  | |- forall _, _ => intros ?
  | |- runs _ (mbind _ _) => apply runs_bind
  | |- runs _ (match ?x with _ => _ end) => destruct x
  | |- runs _ (let _ := _ in _) => cbv zeta
  | |- runs _ (for_range _ _ _) => apply runs_for_range
  | |- runs _ (attempt _) => apply runs_attempt
  | |- runs _ (modifyS _) => apply runs_modifyS
  | |- runs _ _ => solve [eauto with runs]
  end.

(** The SPM and the platform return. *)
Class MboxResponsive (X : Type) `{!MboxEnv X} : Prop := {
  spm_framework_version_runs x : exists r x', spm_framework_version x = (inr r, x');
  spm_version_runs sid x : exists r x', spm_version sid x = (inr r, x');
  agent_psa_call_runs h c p i x : exists r x', agent_psa_call h c p i x = (inr r, x');
  agent_psa_connect_runs sid v id i x : exists r x', agent_psa_connect sid v id i x = (inr r, x');
  agent_psa_close_runs h id x : exists r x', agent_psa_close h id x = (inr r, x');
  hal_notify_runs x : exists r x', tfm_mailbox_hal_notify_peer x = (inr r, x');
  ns_notify_runs x : exists r x', tfm_ns_mailbox_hal_notify_peer x = (inr r, x');
  wake_runs t x : exists r x', tfm_ns_mailbox_os_wake_task_isr t x = (inr r, x');
  lock_acquire_runs x : exists r x', tfm_ns_mailbox_os_lock_acquire x = (inr r, x');
  lock_release_runs x : exists r x', tfm_ns_mailbox_os_lock_release x = (inr r, x');
}.

Section Live.
Context `{!MboxBuild} `{!MboxBuildOk} {X : Type} `{!MboxEnv X} `{!MboxResponsive X}.
Abbreviation MBX := (MB X).

Lemma runs_mb_call I {A} (m : X -> (halt + A) * X) : (forall x, exists r x', m x = (inr r, x')) ->
  (forall s x, I s -> I (set_mb_env x s)) -> runs I (mb_call m).
Proof.
  intros Hm K s Is. unfold mb_call. destruct (Hm (mb_env s)) as (r & x & ->). split; [done|]. by apply K.
Qed.

(** The table of client identifiers: ranges of negative numbers, an owner each. *)
Definition ids_ok (s : mb_state X) : Prop :=
  length s.(client_id_range_owner) = length ns_mailbox_client_id_info /\
  Forall (fun e => INT32_MIN <= e.(client_id_base) /\ e.(client_id_base) <= e.(client_id_limit) < 0) ns_mailbox_client_id_info.

Lemma index_of_lt {A} (p : A -> bool) k l i : index_of p k l = Some i -> (i < k + length l)%nat.
Proof.
  revert k. induction l as [|x l IH]; intros k; simpl; [done|].
  destruct (p x); [intros [= ->]; lia|]. intros E. apply IH in E. lia.
Qed.

Lemma wp_int32_op x (Q : Z -> mb_state X -> Prop) E (T : halt -> mb_state X -> Prop) s :
  INT32_MIN <= x < 2 ^ 31 -> Q x s -> wp (int32_op x) Q E T s.
Proof.
  intros B K. unfold int32_op. rewrite (proj2 (Z.leb_le _ _)), (proj2 (Z.ltb_lt _ _)) by lia. by apply wp_ret.
Qed.

Lemma translate_runs owner cid s : ids_ok s ->
  wp (tfm_multi_core_hal_client_id_translate owner cid) (fun _ s' => s' = s) (fun _ s' => s' = s) (fun _ _ => False) s.
Proof.
  intros [EL F]. unfold tfm_multi_core_hal_client_id_translate. wp_auto; try done.
  assert (cid <= 0) as C by (destruct MAILBOX_SUPPORT_NS_CLIENT_ID_ZERO; lia).
  destruct (index_of _ _ _) as [i|] eqn:IX; [|done]. apply index_of_lt in IX. rewrite EL in IX.
  destruct (lookup_lt_is_Some_2 ns_mailbox_client_id_info i IX) as [e EI]. rewrite EI.
  destruct (Forall_lookup_1 _ _ _ _ F EI) as [B1 B2]. unfold INT32_MIN in *.
  do 3 (apply wp_bind, wp_int32_op; [unfold INT32_MIN; lia|]). wp_auto; [done|].
  apply wp_int32_op; [unfold INT32_MIN; lia|]. apply wp_bind, wp_int32_op; [unfold INT32_MIN; lia|]. wp_auto; done.
Qed.

Lemma runs_translated msg : runs ids_ok (translated msg).
Proof.
  apply runs_attempt. intros s K. pose proof (translate_runs CLIENT_ID_OWNER_MAGIC msg.(mm_client_id) s K) as T.
  unfold wp in T. destruct (tfm_multi_core_hal_client_id_translate _ _ s) as [[] s']; simpl in *; subst; done.
Qed.

Lemma runs_upd_vectors i f : runs ids_ok (upd_vectors i f).
Proof. by apply runs_modifyS. Qed.

Lemma runs_dispatch_type msg i : runs ids_ok (dispatch_type msg i).
Proof.
  destruct MboxResponsive0. unfold dispatch_type, dispatch_call, local_copy_vects, copy_vec, put_in_vec, put_out_vec, write_out_lens.
  repeat first [apply runs_translated | apply runs_upd_vectors | apply runs_mb_call; [solve [auto]|done] | runs_step].
Qed.

(** ** The steps of the secure side can be taken *)

Lemma round_runs (a : sys X) pend i acc : sys_ok a -> ids_ok a.(mem) -> a.(spe) = SpeScan pend i acc ->
  (i < NUM_MAILBOX_QUEUE_SLOT)%nat -> exists acc' m, handle_round pend i acc a.(mem) = (Val acc', m).
Proof.
  intros OK IDS SC L. unfold handle_round. destruct (bit_on pend i) eqn:B; [|by eexists _, _].
  destruct (round_slot a pend i acc OK SC L B) as (cl & sl & F & C & W & E & S1 & SL & M).
  pose proof (take_run i sl a.(mem) L SL) as T. unfold handle_slot. rewrite (bind_val _ _ _ _ _ T). rewrite M.
  pose proof (mem_ok_taken i cl.(cl_msg) _ (ok_mem a OK)) as MO.
  destruct (runs_dispatch_type cl.(cl_msg) i (taken i cl.(cl_msg) a.(mem)) IDS) as [NH _].
  pose proof (wp_dispatch_type cl.(cl_msg) i (taken i cl.(cl_msg) a.(mem)) (proj2 (proj2 (proj2 (slot_lt _ i MO L))))) as D.
  unfold wp in D. unfold tfm_mailbox_dispatch, attempt, mbind, M_bind.
  destruct (dispatch_type _ _ _) as [[[ret []] | e | h] s2] eqn:ED; simpl; [|by eexists _, _| |by destruct (NH h)].
  - destruct D as [[V _] _].
    destruct (round_replies a i OK L cl sl s2 SL V (u32 ret)) as (m2 & ->). by eexists _, _.
  - unfold mailbox_clean_queue_slot, set_spe_queue_empty_status. rewrite (proj2 (Nat.ltb_lt _ _)) by done. by eexists _, _.
Qed.

Lemma notify_runs (m : mb_state X) : exists x, mb_call tfm_mailbox_hal_notify_peer m = (Val tt, set_mb_env x m).
Proof. unfold mb_call. destruct (hal_notify_runs (mb_env m)) as ([] & x & ->). by exists x. Qed.

(** What the other agents leave to a call: it is where it was, and as it was. *)
Definition unmoved (c : nat) (cl : call_t) (a : sys X) : Prop :=
  exists cl', a.(calls) !! c = Some cl' /\ cl'.(cl_stage) = cl.(cl_stage) /\ cl'.(cl_msg) = cl.(cl_msg).

Lemma unmoved_log c cl i es t cs : cs !! c = Some cl -> exists cl', log i es t cs !! c = Some cl' /\
  cl'.(cl_stage) = cl.(cl_stage) /\ cl'.(cl_msg) = cl.(cl_msg).
Proof.
  intros C. unfold log. destruct (t !! i) as [c'|]; [|by exists cl]. rewrite lookup_alter.
  case_decide; subst; [rewrite C|]; eauto.
Qed.

(** A state in which the system can be driven on: a call [c] in the place of [cl]. *)
Record live (c : nat) (cl : call_t) (a : sys X) : Prop := {
  lv_ok : sys_ok a;
  lv_ids : ids_ok a.(mem);
  lv_call : unmoved c cl a;
}.

Lemma runs_keeps {S A} (I : S -> Prop) (m : M S A) : runs I m -> keeps I m.
Proof. intros K s Is. by apply K. Qed.

Lemma ids_call {A} (m : X -> (halt + A) * X) : keeps ids_ok (mb_call m).
Proof. intros s K. unfold mb_call. by destruct (m (mb_env s)) as [[] ?]. Qed.

Ltac ids_tac := repeat first [apply ids_call | apply (runs_keeps _ _ (runs_dispatch_type _ _)) | apply keeps_modifyS; done | keeps_step].

Lemma ids_client msg t st : keeps ids_ok (client_step msg t st).
Proof.
  destruct st; unfold client_step, release_slot, acquire_empty_slot, clear_queue_slot_empty, fill_message, set_msg_owner, set_queue_slot_pend,
    mailbox_wait_reply_signal, is_queue_slot_woken, clear_queue_slot_woken, copy_reply, set_queue_slot_empty, upd_slot_ns; ids_tac.
Qed.

Lemma ids_isr h : keeps ids_ok (isr_step h).
Proof. destruct h; unfold isr_step, clear_queue_slot_all_replied, set_queue_slot_woken, upd_slot_ns; ids_tac. Qed.

Lemma ids_reply i res : keeps ids_ok (mailbox_direct_reply i res).
Proof.
  unfold mailbox_direct_reply, get_nspe_reply_addr, upd_reply, upd_vectors, mailbox_clean_queue_slot, set_spe_queue_empty_status. ids_tac.
Qed.

Lemma ids_round pend i acc : keeps ids_ok (handle_round pend i acc).
Proof.
  unfold handle_round, handle_slot, take_slot, clear_spe_queue_empty_status, get_spe_mailbox_msg_handle,
    tfm_mailbox_dispatch, mailbox_clean_queue_slot, set_spe_queue_empty_status.
  repeat first [apply ids_reply | progress ids_tac].
Qed.

Lemma ids_end pend acc : keeps ids_ok (_ ← handle_end pend acc; if acc =? 0 then mret tt else mb_call tfm_mailbox_hal_notify_peer).
Proof. unfold handle_end, clear_nspe_queue_pend_status, set_nspe_queue_replied_status. ids_tac. Qed.

Lemma ids_spm i ret lens : keeps ids_ok (spm_replies i ret lens).
Proof.
  unfold spm_replies, write_out_lens, upd_vectors, mailbox_reply, tfm_mailbox_reply_msg, get_spe_mailbox_msg_idx,
    get_spe_queue_empty_status, set_nspe_queue_replied_status. repeat first [apply ids_reply | progress ids_tac].
Qed.

Lemma keeps_val {S A} (I : S -> Prop) (m : M S A) s o s' : keeps I m -> I s -> m s = (o, s') -> I s'.
Proof. intros K Is E. specialize (K s Is). by rewrite E in K. Qed.

Lemma ids_step (a a' : sys X) : step a a' -> ids_ok a.(mem) -> ids_ok a'.(mem).
Proof.
  intros [c msg task C | c cl st m C R | i m R | SC _ | pend i acc acc' m SC L R | pend i acc m SC L R
         | i ret lens m SC O LL R] K; simpl; try exact K; (eapply keeps_val; [|exact K|exact R]);
    auto using ids_client, ids_isr, ids_round, ids_end, ids_spm.
Qed.

(** A step that does not move the call. *)
Lemma live_step c cl (a a' : sys X) : live c cl a -> step a a' -> unmoved c cl a' -> live c cl a'.
Proof. intros [] S U. split; [by eapply step_ok|by eapply ids_step|done]. Qed.

Lemma end_runs (m : mb_state X) pend acc : exists m',
  (_ ← handle_end pend acc; if acc =? 0 then mret tt else mb_call tfm_mailbox_hal_notify_peer) m = (Val tt, m') /\
  m'.(pend_slots) = bits_clear m.(pend_slots) pend.
Proof.
  unfold handle_end, clear_nspe_queue_pend_status, set_nspe_queue_replied_status, modifyS, mbind, M_bind. simpl.
  destruct (acc =? 0); [by eexists|]. match goal with |- context [mb_call _ ?s] => destruct (notify_runs s) as [x ->] end.
  by eexists.
Qed.

Lemma scan_drives c cl (a : sys X) pend i acc : live c cl a -> a.(spe) = SpeScan pend i acc ->
  exists a', rtc step a a' /\ live c cl a' /\ a'.(spe) = SpeIdle /\ a'.(isr) = a.(isr) /\
    forall j, bit_on pend j = true -> bit_on a'.(mem).(pend_slots) j = false.
Proof.
  remember (NUM_MAILBOX_QUEUE_SLOT - i)%nat as k eqn:K. revert a i acc K.
  induction k as [|k IH]; intros a i acc K LV SC; pose proof (lv_ok _ _ _ LV) as OK;
    pose proof (scan_bound_all _ (ok_mem a OK)) as SB; destruct (lv_call _ _ _ LV) as (cl' & C & E1 & E2).
  - destruct (end_runs a.(mem) pend acc.1) as (m & R & P).
    pose proof (step_end a pend i acc m SC ltac:(lia) R) as ST.
    eexists. split; [by apply rtc_once|]. split; [apply (live_step c cl a); [done|exact ST|by exists cl']|].
    split_and!; try done. intros j B. simpl. rewrite P, bit_on_clear, B. by rewrite andb_false_r.
  - destruct (round_runs a pend i acc OK (lv_ids _ _ _ LV) SC ltac:(lia)) as (acc' & m & R).
    pose proof (step_round a pend i acc acc' m SC ltac:(lia) R) as ST.
    match type of ST with step _ ?a1 => assert (live c cl a1) as LV1 end.
    { apply (live_step c cl a); [done|exact ST|]. unfold unmoved. simpl.
      destruct (unmoved_log c cl' i (round_effect pend i a.(mem)).2 a.(tag) a.(calls) C) as (x & ? & ? & ?).
      exists x. split; [done|]. split; congruence. }
    edestruct IH as (a' & S & LV' & SC' & I' & P); [|exact LV1|done|]; [lia|].
    exists a'. split; [by eapply rtc_l|]. done.
Qed.

Lemma spe_drives c cl (a : sys X) : live c cl a ->
  exists a', rtc step a a' /\ live c cl a' /\ a'.(spe) = SpeIdle /\ a'.(isr) = a.(isr).
Proof.
  intros LV. destruct (spe a) as [|pend i acc] eqn:SC; [by exists a|].
  destruct (scan_drives c cl a pend i acc LV SC) as (a' & ? & ? & ? & ? & _). by exists a'.
Qed.

(** A pending request is taken. *)
Lemma queue_drives c cl (a : sys X) j : live c cl a -> a.(spe) = SpeIdle -> bit_on a.(mem).(pend_slots) j = true ->
  exists a', rtc step a a' /\ live c cl a' /\ a'.(spe) = SpeIdle /\ a'.(isr) = a.(isr) /\
    bit_on a'.(mem).(pend_slots) j = false.
Proof.
  intros LV SC B. pose proof (step_scan a SC (bit_on_nonzero _ _ B)) as ST.
  match type of ST with step _ ?a1 => assert (live c cl a1) as LV1 end.
  { apply (live_step c cl a); [done|exact ST|by destruct LV]. }
  destruct (scan_drives c cl _ a.(mem).(pend_slots) 0 (0, 0) LV1 eq_refl) as (a' & S & ? & ? & ? & P).
  exists a'. split; [by eapply rtc_l|]. auto.
Qed.

(** ** The interrupt *)

Definition isr_left (h : isr_t) : nat :=
  match h with
  | IsrIdle => 0
  | IsrLoop _ k => 4 * (NUM_MAILBOX_QUEUE_SLOT - k) + 2
  | IsrWake _ k => Nat.max 3 (4 * (NUM_MAILBOX_QUEUE_SLOT - k))
  end.

(** What the interrupt handler leaves, once it has begun. *)
Definition isr_frame (m m' : mb_state X) : Prop :=
  m'.(pend_slots) = m.(pend_slots) /\ m'.(replied_slots) = m.(replied_slots).

Lemma isr_runs (h : isr_t) (m : mb_state X) : h <> IsrIdle -> exists h' m',
  isr_step h m = (Val h', m') /\ isr_frame m m' /\ (isr_left h' < isr_left h)%nat.
Proof.
  intros N. destruct h as [|b k|b k]; [done| |]; unfold isr_step.
  - destruct (NUM_MAILBOX_QUEUE_SLOT <=? k)%nat eqn:K; [|apply Nat.leb_gt in K; destruct (bit_on b k); simpl].
    + eexists _, _. split; [done|]. split; [done|]. simpl. lia.
    + unfold set_queue_slot_woken, upd_slot_ns. rewrite (proj2 (Nat.ltb_lt _ _)) by done.
      eexists _, _. split; [done|]. split; [done|]. simpl. lia.
    + eexists _, _. split; [done|]. split; [done|]. simpl. lia.
  - rewrite bind_gets. unfold mb_call, mbind, M_bind.
    match goal with |- context [tfm_ns_mailbox_os_wake_task_isr ?t ?x] => destruct (wake_runs t x) as (r & x' & ->) end.
    eexists _, _. split; [done|]. split; [done|]. destruct (_ =? 0); simpl; lia.
Qed.

Lemma isr_drives c cl (a : sys X) : live c cl a -> a.(isr) <> IsrIdle ->
  exists a', rtc step a a' /\ live c cl a' /\ a'.(isr) = IsrIdle /\ a'.(spe) = a.(spe) /\ a'.(owed) = a.(owed) /\
    isr_frame a.(mem) a'.(mem).
Proof.
  remember (isr_left a.(isr)) as n eqn:N. revert a N.
  induction n as [n IH] using lt_wf_ind. intros a -> LV I.
  destruct (isr_runs a.(isr) a.(mem) I) as (h & m & R & [F1 F2] & L). pose proof (step_isr a h m R) as ST.
  match type of ST with step _ ?a1 => assert (live c cl a1) as LV1 end.
  { apply (live_step c cl a); [done|exact ST|by destruct LV]. }
  assert (h = IsrIdle \/ h <> IsrIdle) as [->|NI] by (destruct h; [by left|by right..]).
  - eexists. split; [by apply rtc_once|]. done.
  - edestruct IH as (a' & S & LV' & I' & SC & O & [G1 G2]); [|done|exact LV1|done|]; [done|].
    exists a'. split; [by eapply rtc_l|]. split_and!; try done. split; [by rewrite G1|by rewrite G2].
Qed.

(** An announced reply is seen. *)
Lemma announced_drives c cl (a : sys X) i : live c cl a -> a.(isr) = IsrIdle -> bit_on a.(mem).(replied_slots) i = true ->
  exists a', rtc step a a' /\ live c cl a' /\ a'.(isr) = IsrIdle /\ a'.(spe) = a.(spe) /\ a'.(owed) = a.(owed) /\
    a'.(mem).(pend_slots) = a.(mem).(pend_slots) /\ a'.(mem).(replied_slots) = 0.
Proof.
  intros LV I B. assert (isr_step a.(isr) a.(mem) =
    (Val (IsrLoop a.(mem).(replied_slots) 0), set_replied_slots 0 a.(mem))) as R.
  { rewrite I. unfold isr_step, clear_queue_slot_all_replied, modifyS, gets, mbind, M_bind. simpl.
    by rewrite (proj2 (Z.eqb_neq _ _)) by (by eapply bit_on_nonzero). }
  pose proof (step_isr a _ _ R) as ST.
  match type of ST with step _ ?a1 => assert (live c cl a1) as LV1 end.
  { apply (live_step c cl a); [done|exact ST|by destruct LV]. }
  edestruct (isr_drives c cl) as (a' & S & LV' & I' & SC & O & [G1 G2]); [exact LV1|done|].
  exists a'. split; [by eapply rtc_l|]. done.
Qed.

(** ** The SPM answers *)

Lemma owed_drives c cl (a : sys X) i : live c cl a -> a.(spe) = SpeIdle -> i ∈ a.(owed) ->
  exists a', rtc step a a' /\ live c cl a' /\ a'.(spe) = SpeIdle /\ a'.(isr) = a.(isr) /\
    bit_on a'.(mem).(replied_slots) i = true.
Proof.
  intros LV SC O. pose proof (lv_ok _ _ _ LV) as OK.
  destruct (owed_slot a i OK SC O) as (cl0 & sl & v & _ & _ & _ & _ & _ & T).
  destruct (T PSA_SUCCESS (replicate MAX_IOVEC 0)) as (l & R & _).
  destruct (notify_runs (replied_state i (replicate MAX_IOVEC 0) l a.(mem))) as [x N]. rewrite N in R.
  pose proof (step_reply a i PSA_SUCCESS (replicate MAX_IOVEC 0) _ SC O (length_replicate _ _) R) as ST.
  destruct (lv_call _ _ _ LV) as (cl' & C & E1 & E2).
  match type of ST with step _ ?a1 => assert (live c cl a1) as LV1 end.
  { apply (live_step c cl a); [done|exact ST|]. unfold unmoved. simpl.
    destruct (unmoved_log c cl' i [Answer PSA_SUCCESS (replicate MAX_IOVEC 0)] a.(tag) a.(calls) C) as (y & ? & ? & ?).
    exists y. split; [done|]. split; congruence. }
  eexists. split; [by apply rtc_once|]. split_and!; try done. simpl.
  rewrite bit_on_lor, bit_on_slot_bit, bool_decide_eq_true_2 by done. apply orb_true_r.
Qed.

(** ** The call itself *)

Lemma client_drives (a : sys X) c cl st m : a.(calls) !! c = Some cl ->
  client_step cl.(cl_msg) cl.(cl_task) cl.(cl_stage) a.(mem) = (Val st, m) ->
  exists a', step a a' /\ a'.(calls) !! c = Some (at_stage st cl).
Proof.
  intros C R. eexists. split; [by eapply step_client|]. simpl. apply lookup_insert_eq.
Qed.

(** From the moment its flag is set a call returns by its own steps. *)
Lemma tail_drives (a : sys X) c cl i : sys_ok a -> a.(calls) !! c = Some cl -> cl.(cl_stage) = Waiting i ->
  at_place a i Awake = true -> exists a' cl' r, rtc step a a' /\ a'.(calls) !! c = Some cl' /\
    cl'.(cl_msg) = cl.(cl_msg) /\ (exists ret, cl'.(cl_stage) = Done ret (Some r)).
Proof.
  intros OK C E W. destruct (ok_held a OK c cl i C) as [L _]; [by rewrite E|].
  destruct (slot_lt _ i (ok_mem a OK) L) as (_ & [sn SN] & _). unfold at_place in W. rewrite SN in W. simpl in W.
  destruct (client_drives a c cl (Signalled i) (if is_woken sn then set_slots_ns (alter (set_woken false) i a.(mem).(slots_ns)) a.(mem) else a.(mem)) C)
    as (a1 & S1 & C1); [rewrite E; unfold client_step; by rewrite (bind_val _ _ _ _ _ (wait_signal i sn _ L SN)), W|].
  edestruct (client_drives a1 c) as (a2 & S2 & C2); [exact C1|reflexivity|].
  edestruct (client_drives a2 c) as (a3 & S3 & C3); [exact C2|simpl; unfold set_msg_owner; rewrite (proj2 (Nat.ltb_lt _ _)) by done; reflexivity|].
  edestruct (client_drives a3 c) as (a4 & S4 & C4); [exact C3|simpl; unfold release_slot, clear_queue_slot_woken, set_queue_slot_empty;
    rewrite (proj2 (Nat.ltb_lt _ _)) by done; reflexivity|].
  destruct (lock_release_runs a4.(mem).(mb_env)) as (r & x & LR).
  edestruct (client_drives a4 c) as (a5 & S5 & C5);
    [exact C4|simpl; unfold mb_call, mbind, M_bind; rewrite LR; reflexivity|].
  eexists a5, _, _. split; [do 5 (eapply rtc_l; [eassumption|]); apply rtc_refl|]. split; [exact C5|]. split; [done|]. by eexists.
Qed.

Section Waiting.
Variables (c i : nat) (cl : call_t).
Hypotheses (WT : cl.(cl_stage) = Waiting i) (KT : known_type cl.(cl_msg).(call_type) = true).

Lemma live_place (a : sys X) : live c cl a -> exists! w, at_place a i w = true.
Proof.
  intros [OK _ (cl' & C & E1 & E2)]. eapply call_places; [exact OK|exact C|congruence|congruence].
Qed.

(** The call is only there. *)
Lemma place_only (a : sys X) w w' : live c cl a -> at_place a i w = true -> w <> w' -> at_place a i w' = false.
Proof.
  intros LV E N. destruct (live_place a LV) as (x & _ & U). apply not_true_is_false. intros E'.
  apply U in E as <-. by apply U in E'.
Qed.

Definition can_wake (a : sys X) : Prop :=
  exists a', rtc step a a' /\ live c cl a' /\ at_place a' i Awake = true.

Lemma announced_wakes (a : sys X) : live c cl a -> a.(isr) = IsrIdle -> at_place a i Announced = true -> can_wake a.
Proof.
  intros LV I B. destruct (announced_drives c cl a i LV I B) as (a' & S & LV' & I' & SC & O & P & R).
  exists a'. split; [done|]. split; [done|]. destruct (live_place a' LV') as (w & W & _).
  pose proof (place_only a Announced InQueue LV B ltac:(done)) as N1.
  pose proof (place_only a Announced AtSpm LV B ltac:(done)) as N2.
  unfold at_place in N1, N2. rewrite N2, andb_true_r in N1. apply bool_decide_eq_false in N2.
  destruct w; unfold at_place in *; [by rewrite P, N1 in W|apply bool_decide_eq_true in W; congruence|by rewrite R, bit_on_0 in W|by rewrite I' in W|exact W].
Qed.

Lemma owed_wakes (a : sys X) : live c cl a -> a.(spe) = SpeIdle -> a.(isr) = IsrIdle -> at_place a i AtSpm = true -> can_wake a.
Proof.
  intros LV SC I O. apply bool_decide_eq_true in O.
  destruct (owed_drives c cl a i LV SC O) as (a' & S & LV' & _ & I' & R).
  destruct (announced_wakes a' LV' ltac:(congruence) R) as (a2 & S2 & K). exists a2. split; [by etrans|done].
Qed.

Lemma quiet_wakes (a : sys X) : live c cl a -> a.(spe) = SpeIdle -> a.(isr) = IsrIdle ->
  bit_on a.(mem).(pend_slots) i = false -> can_wake a.
Proof.
  intros LV SC I P. destruct (live_place a LV) as (w & W & _). destruct w.
  - unfold at_place in W. by rewrite P in W.
  - by apply owed_wakes.
  - by apply announced_wakes.
  - unfold at_place in W. by rewrite I in W.
  - by exists a.
Qed.

Lemma waiting_wakes (a : sys X) : live c cl a -> can_wake a.
Proof.
  intros LV. destruct (spe_drives c cl a LV) as (a1 & S1 & LV1 & SC1 & _).
  assert (exists a2, rtc step a1 a2 /\ live c cl a2 /\ a2.(spe) = SpeIdle /\ a2.(isr) = IsrIdle) as (a2 & S2 & LV2 & SC2 & I2).
  { assert (a1.(isr) = IsrIdle \/ a1.(isr) <> IsrIdle) as [I|I] by (destruct (isr a1); [by left|by right..]).
    - by exists a1.
    - destruct (isr_drives c cl a1 LV1 I) as (a2 & ? & ? & ? & ? & _). exists a2. split_and!; try done. congruence. }
  destruct (bit_on a2.(mem).(pend_slots) i) eqn:P.
  - destruct (queue_drives c cl a2 i LV2 SC2 P) as (a3 & S3 & LV3 & SC3 & I3 & P3).
    destruct (quiet_wakes a3 LV3 SC3 ltac:(congruence) P3) as (a4 & S4 & K).
    exists a4. split; [|done]. etrans; [exact S1|]. etrans; [exact S2|]. by etrans.
  - destruct (quiet_wakes a2 LV2 SC2 I2 P) as (a4 & S4 & K).
    exists a4. split; [|done]. etrans; [exact S1|]. by etrans.
Qed.
End Waiting.

(** C18: a waiting call can always be completed.  When the SPM and the platform answer
    what they are asked, then from every reachable state in which a call of a known
    type waits there are steps that end with its return and a reply: there is no
    deadlock between the two cores, the interrupt and the other calls, whatever has
    happened before. *)
Theorem waiting_call_can_return (a : sys X) c cl i : reachable a -> ids_ok a.(mem) ->
  a.(calls) !! c = Some cl -> cl.(cl_stage) = Waiting i -> known_type cl.(cl_msg).(call_type) = true ->
  exists a' cl' ret r, rtc step a a' /\ a'.(calls) !! c = Some cl' /\
    cl'.(cl_msg) = cl.(cl_msg) /\ cl'.(cl_stage) = Done ret (Some r).
Proof.
  intros R IDS C S K. assert (live c cl a) as LV by (split; [by apply reachable_ok|done|by exists cl]).
  destruct (waiting_wakes c i cl S K a LV) as (a1 & S1 & LV1 & W1).
  destruct LV1 as [OK1 _ (cl1 & C1 & E1 & E2)].
  destruct (tail_drives a1 c cl1 i OK1 C1 ltac:(congruence) W1) as (a2 & cl2 & r & S2 & C2 & E3 & ret & D).
  exists a2, cl2, ret, r. split; [by etrans|]. split; [done|]. split; [congruence|done].
Qed.
End Live.
