(* ===== verification/MbSample.v ===== *)
(** Mailbox between cores: an executable scheduler, and concrete systems.

    [play] runs the step relation along a list of moves; what it reaches is reachable,
    so that theorems can be applied to states that are computed. *)

From stdpp Require Import base list numbers gmap.
From S2P Require Import Prelude SpmTypes MbTypes MbSpe MbNs MbSystem MbInv MbProtocol MbSafe MbLive.

(** ** Moves *)

Inductive move :=
  | Call (c : nat) (msg : mailbox_msg_t) (task : Z)
  | Client (c : nat)
  | Isr
  | Spe
  | Reply (i : nat) (ret : Z) (lens : list Z).

Section Play.
Context `{!MboxBuild} {X : Type} `{!MboxEnv X}.

Definition play1 (v : move) (a : sys X) : option (sys X) :=
  match v with
  | Call c msg task =>
      match a.(calls) !! c with
      | None => Some {| mem := a.(mem); isr := a.(isr); spe := a.(spe); tag := a.(tag); owed := a.(owed);
          calls := <[c := {| cl_msg := msg; cl_task := task; cl_stage := Start; cl_events := [] |}]> a.(calls) |}
      | Some _ => None
      end
  | Client c =>
      match a.(calls) !! c with
      | Some cl =>
          match client_step cl.(cl_msg) cl.(cl_task) cl.(cl_stage) a.(mem) with
          | (Val st, m) => Some {| mem := m; isr := a.(isr); spe := a.(spe); owed := a.(owed);
              tag := retag c cl.(cl_stage) st a.(tag); calls := <[c := at_stage st cl]> a.(calls) |}
          | _ => None
          end
      | None => None
      end
  | Isr =>
      match isr_step a.(isr) a.(mem) with
      | (Val i, m) => Some {| mem := m; isr := i; spe := a.(spe); tag := a.(tag); owed := a.(owed); calls := a.(calls) |}
      | _ => None
      end
  | Spe =>
      match a.(spe) with
      | SpeIdle =>
          if decide (a.(mem).(pend_slots) = 0) then None
          else Some {| mem := a.(mem); isr := a.(isr); tag := a.(tag); owed := a.(owed); calls := a.(calls);
                       spe := SpeScan a.(mem).(pend_slots) 0 (0, 0) |}
      | SpeScan pend i acc =>
          if decide (i < scan_bound a.(mem))%nat then
            match handle_round pend i acc a.(mem) with
            | (Val acc', m) => Some {| mem := m; isr := a.(isr); tag := a.(tag); spe := SpeScan pend (S i) acc';
                owed := (if (round_effect pend i a.(mem)).1 then {[i]} ∪ a.(owed) else a.(owed));
                calls := log i (round_effect pend i a.(mem)).2 a.(tag) a.(calls) |}
            | _ => None
            end
          else
            match (_ ← handle_end pend acc.1; if acc.1 =? 0 then mret tt else mb_call tfm_mailbox_hal_notify_peer) a.(mem) with
            | (Val _, m) => Some {| mem := m; isr := a.(isr); tag := a.(tag); owed := a.(owed); calls := a.(calls); spe := SpeIdle |}
            | _ => None
            end
      end
  | Reply i ret lens =>
      match a.(spe) with
      | SpeIdle =>
          if decide (i ∈ a.(owed) /\ length lens = MAX_IOVEC) then
            match spm_replies i ret lens a.(mem) with
            | (Val _, m) => Some {| mem := m; isr := a.(isr); tag := a.(tag); spe := a.(spe); owed := a.(owed) ∖ {[i]};
                calls := log i [Answer ret lens] a.(tag) a.(calls) |}
            | _ => None
            end
          else None
      | SpeScan _ _ _ => None
      end
  end.

Fixpoint play (vs : list move) (a : sys X) : option (sys X) :=
  match vs with
  | [] => Some a
  | v :: vs => a' ← play1 v a; play vs a'
  end.

Lemma play1_step v (a a' : sys X) : play1 v a = Some a' -> step a a'.
Proof.
  destruct v as [c msg task|c| | |i ret lens]; simpl.
  - destruct (calls a !! c) eqn:C; [done|]. intros [= <-]. by apply step_call.
  - destruct (calls a !! c) as [cl|] eqn:C; [|done].
    destruct (client_step _ _ _ _) as [[st| |] m] eqn:R; [|done..]. intros [= <-]. by apply step_client.
  - destruct (isr_step _ _) as [[i| |] m] eqn:R; [|done..]. intros [= <-]. by apply step_isr.
  - destruct (spe a) as [|pend i acc] eqn:SC.
    + case_decide as D; [done|]. intros [= <-]. by apply step_scan.
    + case_decide as D.
      * destruct (handle_round _ _ _ _) as [[acc'| |] m] eqn:R; [|done..]. intros [= <-]. by eapply step_round.
      * match goal with |- match ?x with _ => _ end = _ -> _ => destruct x as [[[]| |] m] eqn:R; [|done..] end.
        intros [= <-]. eapply step_end; [done|lia|exact R].
  - destruct (spe a) eqn:SC; [|done]. case_decide as D; [|done].
    destruct (spm_replies _ _ _ _) as [[[]| |] m] eqn:R; [|done..]. intros [= <-]. destruct D.
    rewrite <- SC. by eapply step_reply.
Qed.

Lemma play_steps vs (a a' : sys X) : play vs a = Some a' -> rtc step a a'.
Proof.
  revert a. induction vs as [|v vs IH]; intros a; simpl; [by intros [= <-]|].
  destruct (play1 v a) as [a1|] eqn:E; simpl; [|done]. intros P. eapply rtc_l; [by eapply play1_step|auto].
Qed.
End Play.

(** ** A build with two slots *)

#[local] Instance sample_build : MboxBuild := {|
  NUM_MAILBOX_QUEUE_SLOT := 2;
  MB_BACKEND_IPC := true;
  MB_CONNECTION_BASED := true;
  MAILBOX_SUPPORT_NS_CLIENT_ID_ZERO := true;
  ns_mailbox_client_id_info := [{| client_id_base := -100; client_id_limit := -11; ci_source := 3 |}];
  CLIENT_ID_OWNER_MAGIC := 77;
|}.
#[local] Instance sample_build_ok : MboxBuildOk.
Proof. constructor; simpl; lia. Qed.

(** An SPM that answers calls later and keeps the list of the clients it has seen. *)
#[local] Instance sample_env : MboxEnv (list Z) := {|
  spm_framework_version x := (inr 257, x);
  spm_version _ x := (inr 1, x);
  agent_psa_call _ _ p _ x := (inr (PSA_SUCCESS, []), p.(ns_client_id_stateless) :: x);
  agent_psa_connect _ _ id _ x := (inr PSA_SUCCESS, id :: x);
  agent_psa_close _ id x := (inr PSA_SUCCESS, id :: x);
  tfm_mailbox_hal_notify_peer x := (inr tt, x);
  tfm_ns_mailbox_hal_notify_peer x := (inr tt, x);
  tfm_ns_mailbox_os_wake_task_isr _ x := (inr tt, x);
  tfm_ns_mailbox_os_lock_acquire x := (inr MAILBOX_SUCCESS, x);
  tfm_ns_mailbox_os_lock_release x := (inr MAILBOX_SUCCESS, x);
|}.
#[local] Instance sample_responsive : MboxResponsive (list Z).
Proof. constructor; intros; by eexists _, _. Qed.

Definition sample_off : mb_state (list Z) :=
  {| pend_slots := 5; replied_slots := 0; slots := []; slots_ns := []; ns_empty_slots := 0; spe_empty_slots := 0;
     queue := []; ns_slot_count := 0; vectors := replicate 2 zero_vectors; client_id_range_owner := [77]; mb_env := [] |}.

Definition sample_start : sys (list Z) :=
  {| mem := (tfm_mailbox_init true (modifyS (set_ns_slot_count 2)) true true
               (tfm_ns_mailbox_init (mret tt) (mret tt) sample_off).2).2;
     calls := ∅; isr := IsrIdle; spe := SpeIdle; tag := ∅; owed := ∅ |}.

Lemma sample_initial : initial sample_start.
Proof. constructor; try reflexivity. exists sample_off. eexists. split; [reflexivity|]. eexists. by repeat split. Qed.

Definition sample_msg (t cid : Z) : mailbox_msg_t :=
  {| call_type := t; mm_client_id := cid;
     params := {| handle_or_sid := 64; type_or_version := 5;
       pc_in_vec := {| mv_base := 4096; mv_len := 8 |} :: replicate 3 null_vec; pc_in_len := 1;
       pc_out_vec := {| mv_base := 8192; mv_len := 16 |} :: replicate 3 null_vec; pc_out_len := 1 |} |}.

Definition after (vs : list move) : sys (list Z) := default sample_start (play vs sample_start).

Lemma after_reachable vs : bool_decide (is_Some (play vs sample_start)) = true -> reachable (after vs).
Proof.
  intros E. apply bool_decide_eq_true in E as [a E]. exists sample_start. split; [exact sample_initial|].
  unfold after. rewrite E. by apply (play_steps vs).
Qed.

Definition sends (c : nat) (msg : mailbox_msg_t) : list move := Call c msg 9 :: replicate 6 (Client c).

(** ** The witnesses *)

(** Two calls at once; the second one is answered first. *)
Definition sample_waits : list move :=
  sends 0 (sample_msg MAILBOX_PSA_CALL (-1)) ++ sends 1 (sample_msg MAILBOX_PSA_CALL (-2)).
Definition sample_answered : list move :=
  sample_waits ++ replicate 4 Spe ++ [Reply 1 7 [1; 0; 0; 0]; Reply 0 PSA_SUCCESS [6; 0; 0; 0]] ++ replicate 5 Isr ++
  replicate 5 (Client 0).

Definition sample_call : call_t := default {| cl_msg := zero_msg; cl_task := 0; cl_stage := Start; cl_events := [] |}
  ((after sample_answered).(calls) !! 0%nat).

Example sample_call_done : sample_call.(cl_stage) =
  Done MAILBOX_SUCCESS (Some {| return_val := 0; out_vec_len := [6; 0; 0; 0] |}).
Proof. vm_compute. reflexivity. Qed.

Lemma mailbox_answers_witness :
  exists ans lens, sample_call.(cl_events) = [ReadMsg sample_call.(cl_msg); Answer ans lens] /\
    0 = s32 (u32 ans) /\
    (sample_call.(cl_msg).(call_type) = MAILBOX_PSA_CALL -> u32 ans = PSA_SUCCESS -> [6; 0; 0; 0] = lens).
Proof.
  apply (mailbox_answers (after sample_answered) 0%nat sample_call MAILBOX_SUCCESS
    (Some {| return_val := 0; out_vec_len := [6; 0; 0; 0] |})).
  - apply after_reachable. vm_compute. reflexivity.
  - vm_compute. reflexivity.
  - vm_compute. reflexivity.
Defined.

Lemma no_call_lost_witness :
  exists! w, at_place (after (sample_waits ++ replicate 4 Spe)) 1 w = true.
Proof.
  apply (no_call_lost (after (sample_waits ++ replicate 4 Spe)) 1%nat
    {| cl_msg := sample_msg MAILBOX_PSA_CALL (-2); cl_task := 9; cl_stage := Waiting 1;
       cl_events := [ReadMsg (sample_msg MAILBOX_PSA_CALL (-2))] |} 1%nat).
  - apply after_reachable. vm_compute. reflexivity.
  - vm_compute. reflexivity.
  - reflexivity.
  - reflexivity.
Defined.

(** A message of the type 9. *)
Definition sample_refused : list move := sends 0 (sample_msg 9 (-1)) ++ replicate 2 Spe.

Lemma unknown_call_waits_forever_witness :
  exists cl' i, (after (sample_refused ++ replicate 2 Spe)).(calls) !! 0%nat = Some cl' /\ waits i cl' /\
    cl'.(cl_events) = [ReadMsg (sample_msg 9 (-1))].
Proof.
  apply (unknown_call_waits_forever (after sample_refused) (after (sample_refused ++ replicate 2 Spe)) 0%nat
    {| cl_msg := sample_msg 9 (-1); cl_task := 9; cl_stage := Waiting 0; cl_events := [ReadMsg (sample_msg 9 (-1))] |}).
  - apply after_reachable. vm_compute. reflexivity.
  - vm_compute. reflexivity.
  - reflexivity.
  - done.
  - apply (play_steps (replicate 2 Spe)). vm_compute. reflexivity.
Defined.

Lemma waiting_call_can_return_witness :
  exists a' cl' ret r, rtc step (after sample_waits) a' /\ a'.(calls) !! 0%nat = Some cl' /\
    cl'.(cl_msg) = sample_msg MAILBOX_PSA_CALL (-1) /\ cl'.(cl_stage) = Done ret (Some r).
Proof.
  apply (waiting_call_can_return (after sample_waits) 0%nat
    {| cl_msg := sample_msg MAILBOX_PSA_CALL (-1); cl_task := 9; cl_stage := Waiting 0; cl_events := [] |} 0%nat).
  - apply after_reachable. vm_compute. reflexivity.
  - split; [vm_compute; reflexivity|]. repeat constructor; simpl; unfold INT32_MIN; lia.
  - vm_compute. reflexivity.
  - reflexivity.
  - reflexivity.
Defined.

(** The claim 0 becomes an identifier that is not in the range [-100..-11]. *)
Lemma client_id_confined_witness :
  tfm_multi_core_hal_client_id_translate 77 0 sample_start.(mem) = (Val (-10), sample_start.(mem)).
Proof.
  destruct (client_id_confined 77 0 0%nat {| client_id_base := -100; client_id_limit := -11; ci_source := 3 |}
    sample_start.(mem)) as (_ & _ & _ & Z0); [done|unfold INT32_MIN; lia|reflexivity|reflexivity| |exact (Z0 eq_refl)].
  unfold entry_ok, INT32_MIN. simpl. lia.
Defined.

(** The other core puts a message with the claim -3 into the first slot and marks both
    slots. *)
Definition sample_hostile : mb_state (list Z) :=
  set_slots [{| slot_msg := sample_msg MAILBOX_PSA_CALL (-3); slot_reply := zero_reply |}; zero_slot]
    (set_pend_slots 3 (set_ns_empty_slots 255 sample_start.(mem))).

Lemma hostile_ns_contained_witness :
  spe_ok [77] (handle_round 3 0 (0, 0) sample_hostile).2 /\
  Forall (fun id => -100 <= id <= -10) (mb_env (handle_round 3 0 (0, 0) sample_hostile).2).
Proof.
  assert (forall id, id_allowed [77] id -> -100 <= id <= -10) as K.
  { intros id (i & e & O & E & B). destruct i as [|i]; [|done]. injection E as <-. simpl in B. lia. }
  apply (hostile_ns_contained [77] (fun x => Forall (fun id => -100 <= id <= -10) x)) with (s := sample_start.(mem)).
  - done.
  - done.
  - intros handle control p idx x [A _] F. constructor; [by apply K|done].
  - intros sid version id idx x A _ F. constructor; [by apply K|done].
  - intros handle id x A F. constructor; [by apply K|done].
  - constructor; try reflexivity; repeat constructor; simpl; lia.
  - constructor.
  - eapply rtc_l; [apply at_write with (s' := sample_hostile); constructor; reflexivity|].
    apply rtc_once. apply at_round. simpl. lia.
Defined.

(** The round has reached the SPM in the name of the identifier -13. *)
Example sample_hostile_seen : mb_env (handle_round 3 0 (0, 0) sample_hostile).2 = [-13].
Proof. vm_compute. reflexivity. Qed.
