(* ===== verification/BootData.v ===== *)
(** Boot data: the area the bootloader shares with the runtime firmware.

    The bootloader appends records to it ([platform/ext/common/boot_hal_bl2.c]), the
    SPM checks it once and hands each partition the records of its own kind
    ([secure_fw/spm/core/tfm_boot_data.c]).  A record is a type, a length and that
    many bytes; four bits of the type say whom it is for.

    Offsets are from the beginning of the shared area; [bs_buf] is the buffer of the
    partition that asks. *)

From stdpp Require Import base list numbers.
From S2P Require Import Prelude.

(** ** Constants and records ([tfm_boot_status.h]) *)

Definition TLV_MAJOR_CORE : Z := 0.
Definition TLV_MAJOR_IAS : Z := 1.
Definition TLV_MAJOR_FWU : Z := 2.
Definition TLV_MAJOR_MBS : Z := 3.
Definition TLV_MAJOR_INVALID : Z := 15.
Definition SW_VERSION : Z := 0.
Definition SW_MEASURE_VALUE : Z := 8.
Definition SW_MEASURE_METADATA : Z := 10.
Definition SW_MEASURE_VALUE_NON_EXTENDABLE : Z := 11.
Definition SHARED_DATA_TLV_INFO_MAGIC : Z := 8214.
Definition SHARED_DATA_HEADER_SIZE : Z := 4.
Definition SHARED_DATA_ENTRY_HEADER_SIZE : Z := 4.
Definition UINT16_MAX : Z := 2 ^ 16 - 1.
Definition BOOT_DATA_VALID : Z := 1.
Definition BOOT_DATA_INVALID : Z := 0.

Definition SHARED_DATA_ENTRY_SIZE (size : Z) : Z := u32 (size + SHARED_DATA_ENTRY_HEADER_SIZE).
Definition MASK_LEFT_SHIFT (data mask position : Z) : Z := Z.shiftl (Z.land data mask) position.
Definition MASK_RIGHT_SHIFT (data mask position : Z) : Z := Z.shiftr (u16 (Z.land data mask)) position.
Definition SET_TLV_TYPE (major minor : Z) : Z :=
  Z.lor (MASK_LEFT_SHIFT major 15 12) (MASK_LEFT_SHIFT minor 4095 0).
Definition GET_MAJOR (tlv_type : Z) : Z := Z.shiftr tlv_type 12.
Definition GET_MINOR (tlv_type : Z) : Z := Z.land tlv_type 4095.
Definition GET_FWU_MODULE (tlv_type : Z) : Z := MASK_RIGHT_SHIFT tlv_type 4095 6.
Definition GET_FWU_CLAIM (tlv_type : Z) : Z := MASK_RIGHT_SHIFT tlv_type 63 0.
Definition SET_MBS_MINOR (slot_index claim : Z) : Z :=
  Z.lor (MASK_LEFT_SHIFT slot_index 63 6) (MASK_LEFT_SHIFT claim 63 0).

(** [struct shared_data_tlv_entry] *)
Record shared_data_tlv_entry := {
  tlv_type : Z;
  tlv_len : Z;
}.

(** ** The state *)

Record boot_state := {
  bs_valid : Z;     (* is_boot_data_valid *)
  bs_area : bytes;  (* the shared area *)
  bs_buf : bytes;   (* the caller's buffer *)
}.
Definition set_valid (v : Z) (s : boot_state) : boot_state :=
  {| bs_valid := v; bs_area := s.(bs_area); bs_buf := s.(bs_buf) |}.
Definition set_area (a : bytes) (s : boot_state) : boot_state :=
  {| bs_valid := s.(bs_valid); bs_area := a; bs_buf := s.(bs_buf) |}.
Definition set_buf (b : bytes) (s : boot_state) : boot_state :=
  {| bs_valid := s.(bs_valid); bs_area := s.(bs_area); bs_buf := b |}.

Abbreviation BD := (M boot_state).

Definition in_range (l : bytes) (off n : Z) : bool :=
  (0 <=? off) && (0 <=? n) && (off + n <=? Z.of_nat (length l)).

(** Reads and writes of [n] bytes at an offset. *)
Definition read_at {S} (l : bytes) (off n : Z) : M S bytes :=
  if in_range l off n then mret (slice l (Z.to_nat off) (Z.to_nat n)) else stop OutOfBounds.
Definition area_read (off n : Z) : BD bytes := s ← getS; read_at s.(bs_area) off n.
Definition area_write (off : Z) (d : bytes) : BD unit :=
  s ← getS;
  if in_range s.(bs_area) off (Z.of_nat (length d))
  then modifyS (set_area (splice s.(bs_area) (Z.to_nat off) d)) else stop OutOfBounds.
Definition buf_read (off n : Z) : BD bytes := s ← getS; read_at s.(bs_buf) off n.
Definition buf_write (off : Z) (d : bytes) : BD unit :=
  s ← getS;
  if in_range s.(bs_buf) off (Z.of_nat (length d))
  then modifyS (set_buf (splice s.(bs_buf) (Z.to_nat off) d)) else stop OutOfBounds.

(** [memcpy(&tlv_entry, offset, SHARED_DATA_ENTRY_HEADER_SIZE)] *)
Definition read_entry {S} (l : bytes) (off : Z) : M S shared_data_tlv_entry :=
  d ← read_at l off SHARED_DATA_ENTRY_HEADER_SIZE;
  mret {| tlv_type := of_le16 d; tlv_len := of_le16 (drop 2 d) |}.

(** The fields of the header. *)
Definition area_magic : BD Z := d ← area_read 0 2; mret (of_le16 d).
Definition area_tot_len : BD Z := d ← area_read 2 2; mret (of_le16 d).

(** ** The bootloader's side ([boot_hal_bl2.c]) *)

(** Whether an entry of this type is there; [Some] leaves the function. *)
Definition find_step (tlv_end major_type minor_type : Z) (offset : Z) : BD (Z + unit) :=
  if offset <? tlv_end then
    s ← getS;
    e ← read_entry s.(bs_area) offset;
    _ ← fail_if ((GET_MAJOR e.(tlv_type) =? major_type) && (GET_MINOR e.(tlv_type) =? minor_type)) (-1);
    mret (inl (offset + SHARED_DATA_ENTRY_SIZE e.(tlv_len)))
  else mret (inr tt).

(** The area is set up when its header does not make sense. *)
Definition init_area : BD unit :=
  s ← getS;
  magic ← area_magic;
  tot ← area_tot_len;
  if negb (magic =? SHARED_DATA_TLV_INFO_MAGIC) || (tot >? Z.of_nat (length s.(bs_area))) then
    _ ← modifyS (set_area (replicate (length s.(bs_area)) 0));
    area_write 0 (le16 SHARED_DATA_TLV_INFO_MAGIC ++ le16 SHARED_DATA_HEADER_SIZE)
  else mret tt.

Definition boot_add_data_to_shared_area (major_type minor_type size : Z) (data : option bytes) : BD unit :=
  match data with
  | None => throw (-1)
  | Some data =>
      _ ← init_area;
      s ← getS;
      let data_size := Z.of_nat (length s.(bs_area)) in
      tlv_end ← area_tot_len;
      _ ← while_loop (find_step tlv_end major_type minor_type) SHARED_DATA_HEADER_SIZE;
      _ ← fail_if (SHARED_DATA_ENTRY_SIZE size >? UINT16_MAX - tlv_end) (-1);
      _ ← fail_if (SHARED_DATA_ENTRY_SIZE size + tlv_end >? data_size) (-1);
      _ ← area_write tlv_end (le16 (u16 (SET_TLV_TYPE major_type minor_type)) ++ le16 (u16 size));
      d ← read_at data 0 size;
      _ ← area_write (tlv_end + SHARED_DATA_ENTRY_HEADER_SIZE) d;
      area_write 2 (le16 (u16 (tlv_end + SHARED_DATA_ENTRY_SIZE size)))
  end.

Section Build.
(** The measurement slots there are, the access policy of the build, in which the first element
    stands for an array that must not be empty. *)
Class BootBuild := {
  BOOT_MEASUREMENT_SLOT_MAX : Z;
  access_policy_table : list (Z * Z);
}.
Context `{BootBuild}.

(** [metadata] is the structure as bytes. *)
Definition boot_store_measurement (index : Z) (measurement : option bytes) (measurement_size : Z)
    (metadata : bytes) (lock_measurement : bool) : BD unit :=
  _ ← fail_if (index >=? BOOT_MEASUREMENT_SLOT_MAX) (-1);
  _ ← boot_add_data_to_shared_area TLV_MAJOR_MBS (u16 (SET_MBS_MINOR index SW_MEASURE_METADATA))
        (Z.of_nat (length metadata)) (Some metadata);
  let claim := if lock_measurement then SW_MEASURE_VALUE_NON_EXTENDABLE else SW_MEASURE_VALUE in
  boot_add_data_to_shared_area TLV_MAJOR_MBS (u16 (SET_MBS_MINOR index claim)) measurement_size measurement.

(** ** The SPM's side ([tfm_boot_data.c]) *)

(** [partition_id]: the partition that runs. *)
Definition tfm_core_check_boot_data_access_policy (partition_id major_type : Z) : Z :=
  if existsb (fun p => (partition_id =? p.1) && (major_type =? p.2)) (drop 1 access_policy_table)
  then 0 else -1.

(** [ns_overlap]: the test against the non-secure data, which the memory map of the
    platform decides. *)
Definition tfm_core_validate_boot_data (ns_overlap : bool) : BD unit :=
  s ← getS;
  if Z.of_nat (length s.(bs_area)) <? SHARED_DATA_HEADER_SIZE then mret tt
  else
    _ ← assert_that (negb ns_overlap);
    magic ← area_magic;
    if magic =? SHARED_DATA_TLV_INFO_MAGIC then modifyS (set_valid BOOT_DATA_VALID) else mret tt.

(** One round of the copying loop at [offset], with [ptr] bytes of the buffer in use. *)
Definition copy_step (tlv_end tlv_major buf_size : Z) (x : Z * Z) : BD (Z * Z + unit) :=
  let '(offset, ptr) := x in
  if offset <? tlv_end then
    s ← getS;
    e ← read_entry s.(bs_area) offset;
    let next_tlv_offset := u32 (SHARED_DATA_ENTRY_HEADER_SIZE + e.(tlv_len)) in
    _ ← fail_if (next_tlv_offset <? SHARED_DATA_ENTRY_HEADER_SIZE) PSA_ERROR_INVALID_ARGUMENT;
    if GET_MAJOR e.(tlv_type) =? tlv_major then
      _ ← fail_if (ptr + next_tlv_offset >? buf_size) PSA_ERROR_INVALID_ARGUMENT;
      d ← area_read offset next_tlv_offset;
      _ ← buf_write ptr d;
      h ← buf_read 2 2;
      _ ← buf_write 2 (le16 (u16 (of_le16 h + next_tlv_offset)));
      mret (inl (offset + next_tlv_offset, ptr + next_tlv_offset))
    else mret (inl (offset + next_tlv_offset, ptr))
  else mret (inr tt).

(** [may_write n]: the memory check of the caller's buffer for [n] bytes. *)
Definition tfm_core_get_boot_data_handler (partition_id : Z) (may_write : Z -> bool)
    (arg_major arg_size : Z) : BD unit :=
  let tlv_major := u8 arg_major in
  let buf_size := u16 arg_size in
  _ ← fail_if (negb (may_write buf_size)) PSA_ERROR_INVALID_ARGUMENT;
  s ← getS;
  _ ← fail_if (negb (s.(bs_valid) =? BOOT_DATA_VALID)) PSA_ERROR_INVALID_ARGUMENT;
  _ ← fail_if (truth (tfm_core_check_boot_data_access_policy partition_id tlv_major))
        PSA_ERROR_INVALID_ARGUMENT;
  tlv_end ← area_tot_len;
  _ ← fail_if (tlv_end >? Z.of_nat (length s.(bs_area))) PSA_ERROR_INVALID_ARGUMENT;
  _ ← fail_if (buf_size <? SHARED_DATA_HEADER_SIZE) PSA_ERROR_INVALID_ARGUMENT;
  _ ← buf_write 0 (le16 SHARED_DATA_TLV_INFO_MAGIC ++ le16 SHARED_DATA_HEADER_SIZE);
  while_loop (copy_step tlv_end tlv_major buf_size) (SHARED_DATA_HEADER_SIZE, SHARED_DATA_HEADER_SIZE).
End Build.

(** * Boot data: what the shared area holds, and what a partition gets of it.

    [holds area es]: the area is a header, the records [es] one after the other, and
    bytes nobody uses.  Appending a record adds it to the list; the SPM's copy for a
    partition is the list of the records of the partition's kind. *)

Abbreviation tlv := (Z * bytes)%type.

Definition zlen {A} (l : list A) : Z := Z.of_nat (length l).

Definition enc (e : tlv) : bytes := le16 e.1 ++ le16 (zlen e.2) ++ e.2.
Definition enc_all (es : list tlv) : bytes := concat (enc <$> es).
Definition tlv_ok (e : tlv) : Prop := is_u16 e.1 /\ zlen e.2 < 2 ^ 16.

(** The header and the records. *)
Definition image (es : list tlv) : bytes :=
  le16 SHARED_DATA_TLV_INFO_MAGIC ++ le16 (4 + zlen (enc_all es)) ++ enc_all es.
Definition records_ok (es : list tlv) : Prop := Forall tlv_ok es /\ 4 + zlen (enc_all es) < 2 ^ 16.
Definition holds (area : bytes) (es : list tlv) : Prop :=
  records_ok es /\ exists rest, area = image es ++ rest.

Definition same_type (major minor : Z) (e : tlv) : bool :=
  (GET_MAJOR e.1 =? major) && (GET_MINOR e.1 =? minor).
Definition of_major (major : Z) (e : tlv) : bool := GET_MAJOR e.1 =? major.
Definition select (major : Z) (es : list tlv) : list tlv := List.filter (of_major major) es.

(** ** Fields *)

Lemma zlen_app {A} (l k : list A) : zlen (l ++ k) = zlen l + zlen k.
Proof. unfold zlen. rewrite length_app. lia. Qed.

Lemma zlen_nonneg {A} (l : list A) : 0 <= zlen l.
Proof. unfold zlen. lia. Qed.

Lemma enc_all_app es fs : enc_all (es ++ fs) = enc_all es ++ enc_all fs.
Proof. unfold enc_all. by rewrite fmap_app, concat_app. Qed.

Lemma enc_all_cons e es : enc_all (e :: es) = enc e ++ enc_all es.
Proof. done. Qed.

Lemma zlen_enc e : zlen (enc e) = 4 + zlen e.2.
Proof. unfold enc. rewrite !zlen_app. unfold zlen. simpl. lia. Qed.

Lemma enc_all_snoc es e : enc_all (es ++ [e]) = enc_all es ++ enc e.
Proof. rewrite enc_all_app, enc_all_cons. change (enc_all []) with (@nil Z). by rewrite app_nil_r. Qed.

Lemma zlen_snoc es e : zlen (enc_all (es ++ [e])) = zlen (enc_all es) + 4 + zlen e.2.
Proof. rewrite enc_all_snoc, zlen_app, zlen_enc. lia. Qed.

Lemma zlen_image es : zlen (image es) = 4 + zlen (enc_all es).
Proof. unfold image. rewrite !zlen_app. unfold zlen. simpl. lia. Qed.

Lemma SET_TLV_TYPE_value major minor : 0 <= major < 16 -> 0 <= minor < 4096 ->
  SET_TLV_TYPE major minor = 4096 * major + minor.
Proof.
  intros HM Hm. unfold SET_TLV_TYPE, MASK_LEFT_SHIFT.
  change 15 with (Z.ones 4). change 4095 with (Z.ones 12). rewrite !Z.land_ones by lia.
  rewrite !Z.mod_small, Z.shiftl_0_r by lia.
  assert (Z.land (Z.shiftl major 12) minor = 0) as Hl; cycle 1.
  { pose proof (Z.add_lor_land (Z.shiftl major 12) minor) as Hs.
    rewrite Hl, (Z.shiftl_mul_pow2 major 12) in Hs by lia. rewrite Z.shiftl_mul_pow2 by lia. lia. }
  apply Z.bits_inj'. intros n Hn. rewrite Z.land_spec, Z.bits_0.
  destruct (Z.lt_ge_cases n 12) as [Hlt|Hge]; [by rewrite Z.shiftl_spec_low|].
  rewrite andb_comm, (Z.bits_above_log2 minor n); [done|lia|].
  destruct (Z.eq_dec minor 0) as [->|]; [rewrite Z.log2_nonpos; lia|].
  apply Z.log2_lt_pow2; [lia|]. apply (Z.lt_le_trans _ (2 ^ 12)); [lia|]. apply Z.pow_le_mono_r; lia.
Qed.

Lemma SET_TLV_TYPE_u16 major minor : 0 <= major < 16 -> 0 <= minor < 4096 ->
  is_u16 (SET_TLV_TYPE major minor).
Proof. intros. rewrite SET_TLV_TYPE_value by done. unfold is_u16. lia. Qed.

Lemma GET_SET_MAJOR major minor : 0 <= major < 16 -> 0 <= minor < 4096 ->
  GET_MAJOR (SET_TLV_TYPE major minor) = major.
Proof.
  intros. rewrite SET_TLV_TYPE_value by done. unfold GET_MAJOR. rewrite Z.shiftr_div_pow2 by lia. lia.
Qed.

(** ** Reading and overwriting a part *)

Lemma slice_mid (a d b : bytes) : slice (a ++ d ++ b) (length a) (length d) = d.
Proof. unfold slice. by rewrite drop_app_length, take_app_length. Qed.

Lemma splice_mid (a d d' b : bytes) : length d' = length d ->
  splice (a ++ d ++ b) (length a) d' = a ++ d' ++ b.
Proof.
  intros Hl. unfold splice. rewrite take_app_length, Hl, drop_app_add', drop_app_length; done.
Qed.

Lemma read_at_mid {S} (a d b : bytes) off n (s : S) : off = zlen a -> n = zlen d ->
  read_at (a ++ d ++ b) off n s = (Val d, s).
Proof.
  intros -> ->. unfold read_at, in_range, zlen. rewrite !length_app.
  rewrite !(proj2 (Z.leb_le _ _)) by lia. cbn [andb]. by rewrite !Nat2Z.id, slice_mid.
Qed.

Lemma area_read_mid s a d b off n : s.(bs_area) = a ++ d ++ b -> off = zlen a -> n = zlen d ->
  area_read off n s = (Val d, s).
Proof. intros Hs ??. unfold area_read. rewrite bind_getS, Hs. by apply read_at_mid. Qed.

Lemma buf_read_mid s a d b off n : s.(bs_buf) = a ++ d ++ b -> off = zlen a -> n = zlen d ->
  buf_read off n s = (Val d, s).
Proof. intros Hs ??. unfold buf_read. rewrite bind_getS, Hs. by apply read_at_mid. Qed.

Lemma in_range_mid (a d b d' : bytes) : length d' = length d ->
  in_range (a ++ d ++ b) (zlen a) (zlen d') = true.
Proof.
  intros Hl. unfold in_range, zlen. rewrite !length_app, Hl.
  rewrite !(proj2 (Z.leb_le _ _)) by lia. done.
Qed.

Lemma area_write_mid s a d d' b off : s.(bs_area) = a ++ d ++ b -> off = zlen a ->
  length d' = length d -> area_write off d' s = (Val tt, set_area (a ++ d' ++ b) s).
Proof.
  intros Hs -> Hl. unfold area_write. rewrite bind_getS, Hs. fold (zlen d').
  rewrite in_range_mid by done. unfold modifyS, zlen. by rewrite Nat2Z.id, splice_mid.
Qed.

Lemma buf_write_mid s a d d' b off : s.(bs_buf) = a ++ d ++ b -> off = zlen a ->
  length d' = length d -> buf_write off d' s = (Val tt, set_buf (a ++ d' ++ b) s).
Proof.
  intros Hs -> Hl. unfold buf_write. rewrite bind_getS, Hs. fold (zlen d').
  rewrite in_range_mid by done. unfold modifyS, zlen. by rewrite Nat2Z.id, splice_mid.
Qed.

Lemma read_entry_here {S} (a b : bytes) (e : tlv) off (s : S) : tlv_ok e -> off = zlen a ->
  read_entry (a ++ enc e ++ b) off s = (Val {| tlv_type := e.1; tlv_len := zlen e.2 |}, s).
Proof.
  intros [Ht Hl] Hoff. unfold read_entry.
  replace (a ++ enc e ++ b) with (a ++ (le16 e.1 ++ le16 (zlen e.2)) ++ (e.2 ++ b))
    by (unfold enc; by rewrite <- !app_assoc).
  rewrite (bind_val _ _ s (le16 e.1 ++ le16 (zlen e.2)) s) by (by apply read_at_mid).
  rewrite of_le16_le16 by done. change (drop 2 (le16 e.1 ++ le16 (zlen e.2))) with (le16 (zlen e.2)).
  rewrite <- (app_nil_r (le16 (zlen e.2))), of_le16_le16; [done|].
  unfold is_u16. pose proof (zlen_nonneg e.2). lia.
Qed.

(** The area around a record. *)
Lemma image_split es1 e es2 rest :
  image (es1 ++ e :: es2) ++ rest =
    (le16 SHARED_DATA_TLV_INFO_MAGIC ++ le16 (4 + zlen (enc_all (es1 ++ e :: es2))) ++ enc_all es1) ++
    enc e ++ (enc_all es2 ++ rest).
Proof. unfold image. rewrite enc_all_app, enc_all_cons. by rewrite <- !app_assoc. Qed.

Lemma zlen_prefix x es1 : zlen (le16 SHARED_DATA_TLV_INFO_MAGIC ++ le16 x ++ enc_all es1) = 4 + zlen (enc_all es1).
Proof. rewrite !zlen_app. unfold zlen. simpl. lia. Qed.

Lemma read_entry_of {S} es1 e es2 rest (s : S) : tlv_ok e ->
  read_entry (image (es1 ++ e :: es2) ++ rest) (4 + zlen (enc_all es1)) s =
    (Val {| tlv_type := e.1; tlv_len := zlen e.2 |}, s).
Proof. intros He. rewrite image_split. apply read_entry_here; [done|]. by rewrite zlen_prefix. Qed.

Lemma holds_magic s es : holds s.(bs_area) es -> area_magic s = (Val SHARED_DATA_TLV_INFO_MAGIC, s).
Proof.
  intros [_ [rest Ha]]. unfold area_magic.
  assert (area_read 0 2 s = (Val (le16 SHARED_DATA_TLV_INFO_MAGIC ++ []), s)) as Hr.
  { eapply (area_read_mid _ []); [|done..]. rewrite Ha. unfold image. by rewrite <- !app_assoc. }
  rewrite (bind_val _ _ _ _ _ Hr), of_le16_le16; [done|]. by vm_compute.
Qed.

Lemma holds_tot_len s es : holds s.(bs_area) es -> area_tot_len s = (Val (4 + zlen (enc_all es)), s).
Proof.
  intros [[_ Hlt] [rest Ha]]. unfold area_tot_len.
  assert (area_read 2 2 s = (Val (le16 (4 + zlen (enc_all es)) ++ []), s)) as Hr.
  { eapply (area_read_mid _ (le16 SHARED_DATA_TLV_INFO_MAGIC)); [|done..].
    rewrite Ha. unfold image. by rewrite <- !app_assoc. }
  rewrite (bind_val _ _ _ _ _ Hr), of_le16_le16; [done|].
  unfold is_u16. pose proof (zlen_nonneg (enc_all es)). lia.
Qed.

Lemma holds_fits area es : holds area es -> 4 + zlen (enc_all es) <= zlen area.
Proof. intros [_ [rest ->]]. rewrite zlen_app, zlen_image. pose proof (zlen_nonneg rest). lia. Qed.

(** ** Appending a record *)

Lemma find_ok s es major minor : holds s.(bs_area) es ->
  wp (while_loop (find_step (4 + zlen (enc_all es)) major minor) SHARED_DATA_HEADER_SIZE)
    (fun _ s' => s' = s /\ existsb (same_type major minor) es = false)
    (fun e s' => e = -1 /\ s' = s /\ existsb (same_type major minor) es = true)
    (fun _ _ => False) s.
Proof.
  intros Hh. pose proof Hh as [[Hok Hlt] [rest Ha]].
  apply (wp_while _ (fun off s' => s' = s /\ exists es1 es2, es = es1 ++ es2 /\
      off = 4 + zlen (enc_all es1) /\ existsb (same_type major minor) es1 = false))
    with (measure := fun off => 4 + zlen (enc_all es) - off).
  - intros off s' (-> & es1 & es2 & -> & -> & Hno). unfold find_step.
    destruct es2 as [|e es2].
    { rewrite app_nil_r in *. rewrite (proj2 (Z.ltb_ge _ _)) by lia. by apply wp_ret. }
    pose proof (proj1 (Forall_app _ _ _) Hok) as [_ Hok2]. pose proof (Forall_inv Hok2) as He.
    rewrite enc_all_app, enc_all_cons, !zlen_app, zlen_enc in *.
    pose proof (zlen_nonneg (enc_all es1)). pose proof (zlen_nonneg (enc_all es2)). pose proof (zlen_nonneg e.2).
    rewrite (proj2 (Z.ltb_lt _ _)) by lia. apply wp_bind, wp_getS, wp_bind.
    rewrite Ha. eapply wp_run; [by apply read_entry_of|]. cbn [tlv_type tlv_len].
    apply wp_bind. apply wp_fail_if; fold (same_type major minor e); intros E.
    { rewrite existsb_app. cbn [existsb]. rewrite E, orb_true_r. done. }
    apply wp_ret. unfold SHARED_DATA_ENTRY_SIZE, SHARED_DATA_ENTRY_HEADER_SIZE.
    destruct He as [_ He2]. rewrite u32_small by (unfold is_u32; lia). split; [|lia]. split; [done|].
    exists (es1 ++ [e]), es2. rewrite <- app_assoc, zlen_snoc, existsb_app. cbn [existsb].
    rewrite Hno, E. split_and!; try done. lia.
  - split; [done|]. exists [], es. split_and!; done.
  - pose proof (zlen_nonneg (enc_all es)). unfold SHARED_DATA_HEADER_SIZE. lia.
Qed.

(** The area with one record more: the new bytes replace unused ones. *)
Definition grown (es : list tlv) (e : tlv) (rest : bytes) : bytes :=
  image (es ++ [e]) ++ drop (Z.to_nat (4 + zlen e.2)) rest.

(** The three writes that append a record. *)
Definition append_record (tlv_end : Z) (e : tlv) : BD unit :=
  _ ← area_write tlv_end (le16 e.1 ++ le16 (zlen e.2));
  _ ← area_write (tlv_end + SHARED_DATA_ENTRY_HEADER_SIZE) e.2;
  area_write 2 (le16 (tlv_end + (4 + zlen e.2))).

Lemma length_le16 x : length (le16 x) = 2%nat.
Proof. done. Qed.

Lemma append_record_ok s es e rest : s.(bs_area) = image es ++ rest -> 4 + zlen e.2 <= zlen rest ->
  append_record (4 + zlen (enc_all es)) e s = (Val tt, set_area (grown es e rest) s).
Proof.
  intros Ha Hle. unfold append_record, grown, image in *.
  set (M := le16 SHARED_DATA_TLV_INFO_MAGIC) in *. set (n := Z.to_nat (4 + zlen e.2)).
  pose proof (zlen_nonneg e.2) as He. unfold zlen in Hle, He, n.
  destruct rest as [|r0 [|r1 [|r2 [|r3 rest]]]]; try (cbn [length] in Hle; lia).
  set (h := le16 e.1 ++ le16 (zlen e.2)).
  rewrite (bind_val _ _ _ _ _ (area_write_mid s (M ++ le16 (4 + zlen (enc_all es)) ++ enc_all es)
    [r0; r1; r2; r3] h rest _ ltac:(rewrite Ha; by rewrite <- !app_assoc)
    ltac:(by rewrite zlen_prefix) eq_refl)).
  rewrite (bind_val _ _ _ _ _ (area_write_mid (set_area _ s)
    ((M ++ le16 (4 + zlen (enc_all es)) ++ enc_all es) ++ h) (take (length e.2) rest) e.2
    (drop (length e.2) rest) _ ltac:(cbn [bs_area set_area]; rewrite take_drop; by rewrite <- !app_assoc)
    ltac:(rewrite zlen_app, zlen_prefix; done)
    ltac:(rewrite length_take; cbn [length] in Hle; lia))).
  erewrite (area_write_mid _ M (le16 (4 + zlen (enc_all es))));
    [|cbn [bs_area set_area]; rewrite <- !app_assoc; reflexivity|done|done].
  refine (f_equal (fun a => (Val tt, set_area a s)) _). rewrite zlen_snoc, enc_all_snoc.
  replace (4 + (zlen (enc_all es) + 4 + zlen e.2)) with (4 + zlen (enc_all es) + (4 + zlen e.2)) by lia.
  replace n with (4 + length e.2)%nat by (subst n; lia). cbn [drop Nat.add]. unfold enc, h.
  by rewrite <- !app_assoc.
Qed.

(** An area whose header does not make sense. *)
Definition fresh (area : bytes) : Prop :=
  4 <= zlen area /\
  (of_le16 (slice area 0 2) <> SHARED_DATA_TLV_INFO_MAGIC \/ zlen area < of_le16 (slice area 2 2)).

Definition empty_area (n : nat) : bytes := image [] ++ replicate (n - 4) 0.

Lemma empty_area_holds n : holds (empty_area n) [].
Proof. split; [split; [constructor|done]|]. by eexists. Qed.

Lemma init_holds s es : holds s.(bs_area) es -> init_area s = (Val tt, s).
Proof.
  intros Hh. unfold init_area. rewrite bind_getS, (bind_val _ _ _ _ _ (holds_magic s es Hh)),
    (bind_val _ _ _ _ _ (holds_tot_len s es Hh)). pose proof (holds_fits _ _ Hh). fold (zlen s.(bs_area)).
  rewrite Z.eqb_refl. destruct (Z.gtb_spec (4 + zlen (enc_all es)) (zlen (bs_area s))); [lia|done].
Qed.

Lemma area_read_run s off n : in_range s.(bs_area) off n = true ->
  area_read off n s = (Val (slice s.(bs_area) (Z.to_nat off) (Z.to_nat n)), s).
Proof. intros Hr. unfold area_read. rewrite bind_getS. unfold read_at. by rewrite Hr. Qed.

Lemma init_fresh s : fresh s.(bs_area) ->
  init_area s = (Val tt, set_area (empty_area (length s.(bs_area))) s).
Proof.
  intros [Hle Hbad]. unfold init_area, area_magic, area_tot_len. rewrite bind_getS.
  assert (in_range s.(bs_area) 0 2 = true /\ in_range s.(bs_area) 2 2 = true) as [H1 H2].
  { unfold in_range, zlen in *. rewrite !(proj2 (Z.leb_le _ _)) by lia. done. }
  rewrite (bind_val (d ← area_read 0 2; _) _ _ _ _ (bind_val _ _ _ _ _ (area_read_run _ _ _ H1))).
  rewrite (bind_val (d ← area_read 2 2; _) _ _ _ _ (bind_val _ _ _ _ _ (area_read_run _ _ _ H2))).
  cbv beta. change (Z.to_nat 0) with 0%nat. change (Z.to_nat 2) with 2%nat. fold (zlen s.(bs_area)).
  replace (_ || _) with true; cycle 1.
  { symmetry. apply orb_true_iff. destruct Hbad as [Hne|Hgt]; [left|right].
    - by rewrite (proj2 (Z.eqb_neq _ _)).
    - destruct (Z.gtb_spec (of_le16 (slice (bs_area s) 2 2)) (zlen (bs_area s))); [done|lia]. }
  rewrite bind_modifyS. unfold empty_area.
  rewrite (area_write_mid _ [] (replicate 4 0) _ (replicate (length s.(bs_area) - 4) 0)); [done| |done|done].
  cbn [bs_area set_area app]. rewrite <- replicate_add. f_equal. unfold zlen in Hle. lia.
Qed.

(** The record of a call. *)
Definition record_of (major minor size : Z) (data : bytes) : tlv :=
  (SET_TLV_TYPE major minor, take (Z.to_nat size) data).

Definition arguments_ok (major minor size : Z) (data : bytes) : Prop :=
  0 <= major < 16 /\ 0 <= minor < 4096 /\ 0 <= size <= zlen data /\ size + 4 < 2 ^ 32.

(** Whether the record is one more of its type, or does not fit. *)
Definition add_refused (area : bytes) (es : list tlv) (major minor size : Z) : bool :=
  existsb (same_type major minor) es ||
  (4 + size >? UINT16_MAX - (4 + zlen (enc_all es))) || (4 + size + (4 + zlen (enc_all es)) >? zlen area).

Lemma add_to_holding s es major minor size data : holds s.(bs_area) es ->
  arguments_ok major minor size data ->
  wp (boot_add_data_to_shared_area major minor size (Some data))
    (fun _ s' => add_refused s.(bs_area) es major minor size = false /\
       exists area, s' = set_area area s /\ zlen area = zlen s.(bs_area) /\
         holds area (es ++ [record_of major minor size data]))
    (fun e s' => e = -1 /\ s' = s /\ add_refused s.(bs_area) es major minor size = true)
    (fun _ _ => False) s.
Proof.
  intros Hh (HM & Hm & Hs & Hs2). pose proof Hh as [[Hok Hlt] [rest Ha]].
  unfold boot_add_data_to_shared_area, add_refused. apply wp_bind.
  eapply wp_run; [by apply (init_holds s es)|]. apply wp_bind, wp_getS. cbv zeta. apply wp_bind.
  eapply wp_run; [by apply (holds_tot_len s es)|]. apply wp_bind.
  eapply wp_mono; [by apply (find_ok s es)|..]; cbn beta; [|intros ? ? (-> & -> & ->); done|done].
  intros [] s' [-> Hno]. rewrite Hno. cbn [orb].
  unfold SHARED_DATA_ENTRY_SIZE, SHARED_DATA_ENTRY_HEADER_SIZE.
  rewrite (u32_small (size + 4)) by (unfold is_u32; lia). rewrite (Z.add_comm size 4). fold (zlen s.(bs_area)).
  apply wp_bind. apply wp_fail_if; intros E1; rewrite E1; [by rewrite ?orb_true_l|].
  apply wp_bind. apply wp_fail_if; intros E2; rewrite E2; [done|].
  destruct (Z.gtb_spec (4 + size) (UINT16_MAX - (4 + zlen (enc_all es)))) as [|Hfit]; [done|].
  destruct (Z.gtb_spec (4 + size + (4 + zlen (enc_all es))) (zlen (bs_area s))) as [|Hroom]; [done|].
  unfold UINT16_MAX in Hfit. pose proof (zlen_nonneg (enc_all es)).
  set (e := record_of major minor size data).
  assert (zlen e.2 = size) as Hsize by (unfold e, record_of, zlen in *; cbn; rewrite length_take; lia).
  assert (tlv_ok e) as He by (split; [by apply SET_TLV_TYPE_u16|lia]).
  rewrite (u16_small (SET_TLV_TYPE major minor)), (u16_small size), (u16_small (_ + _))
    by first [apply He | unfold is_u16; lia].
  assert (4 + zlen e.2 <= zlen rest) as Hle.
  { rewrite Ha, zlen_app, zlen_image in Hroom. lia. }
  pose proof (append_record_ok s es e rest Ha Hle) as Happ. unfold append_record in Happ. rewrite Hsize in Happ.
  assert (forall s' : boot_state, read_at data 0 size s' = (Val e.2, s')) as Hread.
  { intros s'. unfold read_at, in_range. rewrite !(proj2 (Z.leb_le _ _)) by (unfold zlen in *; lia). done. }
  eapply wp_ext; [|eapply wp_run; [exact Happ|]].
  - unfold mbind, M_bind. change (record_of major minor size data).1 with (SET_TLV_TYPE major minor).
    destruct (area_write _ _ s) as [[[]|?|?] s1]; [|done..]. rewrite Hread.
    replace (4 + zlen (enc_all es) + (4 + size)) with (4 + size + (4 + zlen (enc_all es))) by lia.
    destruct (area_write _ _ s1) as [[[]|?|?] s2]; done.
  - split; [done|]. exists (grown es e rest). split; [done|]. unfold grown. split.
    + rewrite Ha, !zlen_app, !zlen_image, zlen_snoc. unfold zlen at 3. rewrite length_drop.
      unfold zlen in *. lia.
    + split; [|by eexists]. split; [by apply Forall_app_2; [|constructor]|]. rewrite zlen_snoc. lia.
Qed.

(** ** The copy for a partition *)

Definition room (buf : bytes) (sel : list tlv) : bytes := drop (Z.to_nat (4 + zlen (enc_all sel))) buf.

(** The writes that add a record to the buffer. *)
Definition copy_record (ptr n : Z) (d : bytes) : BD unit :=
  _ ← buf_write ptr d;
  h ← buf_read 2 2;
  buf_write 2 (le16 (u16 (of_le16 h + n))).

Lemma copy_record_ok s sel buf0 e : s.(bs_buf) = image sel ++ room buf0 sel ->
  4 + zlen (enc_all (sel ++ [e])) <= zlen buf0 -> 4 + zlen (enc_all (sel ++ [e])) < 2 ^ 16 ->
  copy_record (4 + zlen (enc_all sel)) (4 + zlen e.2) (enc e) s =
    (Val tt, set_buf (image (sel ++ [e]) ++ room buf0 (sel ++ [e])) s).
Proof.
  intros Hb Hle Hlt. unfold copy_record. rewrite zlen_snoc in *.
  pose proof (zlen_nonneg e.2). pose proof (zlen_nonneg (enc_all sel)).
  assert (room buf0 sel = take (length (enc e)) (room buf0 sel) ++ room buf0 (sel ++ [e])) as Hroom.
  { rewrite <- (take_drop (length (enc e)) (room buf0 sel)) at 1. f_equal. unfold room.
    rewrite drop_drop, zlen_snoc. f_equal. pose proof (zlen_enc e). unfold zlen in *. lia. }
  unfold image in *. set (M := le16 SHARED_DATA_TLV_INFO_MAGIC) in *.
  rewrite (bind_val _ _ _ _ _ (buf_write_mid s (M ++ le16 (4 + zlen (enc_all sel)) ++ enc_all sel)
    (take (length (enc e)) (room buf0 sel)) (enc e) (room buf0 (sel ++ [e])) _
    ltac:(rewrite Hb, <- Hroom; by rewrite <- !app_assoc) ltac:(by rewrite zlen_prefix)
    ltac:(rewrite length_take; unfold room; rewrite length_drop; pose proof (zlen_enc e); unfold zlen in *; lia))).
  match goal with |- (mbind _ _) ?x = _ => set (s1 := x) end.
  assert (buf_read 2 2 s1 = (Val (le16 (4 + zlen (enc_all sel)) ++ []), s1)) as Hr.
  { eapply (buf_read_mid _ M); [|done..]. unfold s1. cbn [bs_buf set_buf]. by rewrite <- !app_assoc. }
  rewrite (bind_val _ _ _ _ _ Hr), of_le16_le16 by (unfold is_u16; lia).
  rewrite u16_small by (unfold is_u16; lia).
  erewrite (buf_write_mid _ M (le16 (4 + zlen (enc_all sel))));
    [|unfold s1; cbn [bs_buf set_buf]; rewrite <- !app_assoc; reflexivity|done|done].
  refine (f_equal (fun a => (Val tt, set_buf a s)) _). rewrite enc_all_snoc.
  rewrite zlen_app, zlen_enc, <- !app_assoc. do 2 f_equal. f_equal. lia.
Qed.

Lemma select_app major es fs : select major (es ++ fs) = select major es ++ select major fs.
Proof. apply List.filter_app. Qed.

Lemma zlen_select major es : zlen (enc_all (select major es)) <= zlen (enc_all es).
Proof.
  induction es as [|e es IH]; [done|]. unfold select in *. cbn [List.filter]. rewrite enc_all_cons, zlen_app.
  pose proof (zlen_nonneg (enc e)). destruct (of_major major e); [|lia]. rewrite enc_all_cons, zlen_app. lia.
Qed.

Lemma select_ok major es : records_ok es -> records_ok (select major es).
Proof.
  intros [Hok Hlt]. split; [|pose proof (zlen_select major es); lia].
  apply List.Forall_forall. intros e He. apply List.filter_In in He as [He _].
  by apply (proj1 (List.Forall_forall _ _) Hok).
Qed.

(** What the buffer holds once the records of [es] have been looked at. *)
Definition copied (buf0 : bytes) (major : Z) (es : list tlv) (s : boot_state) : boot_state :=
  set_buf (image (select major es) ++ room buf0 (select major es)) s.

(** A record of the kind that is asked for. *)
Lemma copy_one {X} s es1 e es2 rest buf0 major (x : X) Q E H :
  s.(bs_area) = image (es1 ++ e :: es2) ++ rest -> of_major major e = true ->
  4 + zlen (enc_all (select major (es1 ++ [e]))) <= zlen buf0 ->
  4 + zlen (enc_all (select major (es1 ++ [e]))) < 2 ^ 16 ->
  Q x (copied buf0 major (es1 ++ [e]) s) ->
  wp (d ← area_read (4 + zlen (enc_all es1)) (4 + zlen e.2);
      _ ← buf_write (4 + zlen (enc_all (select major es1))) d;
      h ← buf_read 2 2;
      _ ← buf_write 2 (le16 (u16 (of_le16 h + (4 + zlen e.2))));
      mret x) Q E H (copied buf0 major es1 s).
Proof.
  intros Ha Hm Hle Hlt HQ.
  assert (select major (es1 ++ [e]) = select major es1 ++ [e]) as Hs1.
  { rewrite select_app. unfold select at 2. cbn [List.filter]. by rewrite Hm. }
  rewrite Hs1 in *. apply wp_bind. eapply wp_run.
  { eapply (area_read_mid _ _ (enc e)); [cbn [bs_area copied set_buf]; rewrite Ha; apply image_split| |].
    - by rewrite zlen_prefix.
    - by rewrite zlen_enc. }
  pose proof (copy_record_ok (copied buf0 major es1 s) (select major es1) buf0 e eq_refl Hle Hlt) as Hc.
  unfold copy_record in Hc. unfold wp. unfold mbind, M_bind in *.
  destruct (buf_write _ _ _) as [[[]|?|?] s1]; [|done..].
  destruct (buf_read 2 2 s1) as [[h|?|?] s2]; [|done..]. rewrite Hc. cbn. unfold copied in *. by rewrite Hs1 in *.
Qed.

Lemma copy_loop s es major buf_size buf0 : holds s.(bs_area) es -> buf_size <= zlen buf0 ->
  4 <= buf_size < 2 ^ 16 ->
  wp (while_loop (copy_step (4 + zlen (enc_all es)) major buf_size) (4, 4))
    (fun _ s' => s' = copied buf0 major es s /\ 4 + zlen (enc_all (select major es)) <= buf_size)
    (fun e _ => e = PSA_ERROR_INVALID_ARGUMENT /\ buf_size < 4 + zlen (enc_all (select major es)))
    (fun _ _ => False) (copied buf0 major [] s).
Proof.
  intros Hh Hbuf Hsz. pose proof Hh as [[Hok Hlt] [rest Ha]].
  apply (wp_while _ (fun x s' => exists es1 es2, es = es1 ++ es2 /\ x.1 = 4 + zlen (enc_all es1) /\
      x.2 = 4 + zlen (enc_all (select major es1)) /\ x.2 <= buf_size /\ s' = copied buf0 major es1 s))
    with (measure := fun x => 4 + zlen (enc_all es) - x.1).
  - intros [off ptr] s' (es1 & es2 & -> & Hoff & Hptr & Hle & ->). cbn [fst snd] in *. subst off ptr.
    unfold copy_step. destruct es2 as [|e es2].
    { rewrite app_nil_r in *. rewrite (proj2 (Z.ltb_ge _ _)) by lia. by apply wp_ret. }
    pose proof (proj1 (Forall_app _ _ _) Hok) as [_ Hok2]. pose proof (Forall_inv Hok2) as He.
    pose proof (zlen_enc e) as Hze. pose proof (zlen_nonneg e.2). pose proof (zlen_nonneg (enc_all es2)).
    pose proof (zlen_nonneg (enc_all es1)).
    assert (zlen (enc_all (es1 ++ e :: es2)) = zlen (enc_all es1) + (4 + zlen e.2) + zlen (enc_all es2)) as Hz.
    { rewrite enc_all_app, enc_all_cons, !zlen_app. lia. }
    rewrite Hz in *. rewrite (proj2 (Z.ltb_lt _ _)) by lia. apply wp_bind, wp_getS, wp_bind.
    change (bs_area (copied buf0 major es1 s)) with (bs_area s). rewrite Ha.
    eapply wp_run; [by apply read_entry_of|]. cbn [tlv_type tlv_len]. cbv zeta.
    unfold SHARED_DATA_ENTRY_HEADER_SIZE. destruct He as [He1 He2]. rewrite u32_small by (unfold is_u32; lia).
    apply wp_bind. apply wp_fail_if; intros Ef; [apply Z.ltb_lt in Ef; lia|].
    assert (select major (es1 ++ e :: es2) = select major (es1 ++ [e]) ++ select major es2) as Hsel.
    { by rewrite <- select_app, <- app_assoc. }
    assert (es1 ++ e :: es2 = (es1 ++ [e]) ++ es2) as Hes by (by rewrite <- app_assoc).
    fold (of_major major e). destruct (of_major major e) eqn:Em; cycle 1.
    + apply wp_ret. split; [|cbn; lia]. exists (es1 ++ [e]), es2. unfold copied.
      assert (select major (es1 ++ [e]) = select major es1) as ->.
      { rewrite select_app. unfold select at 2. cbn [List.filter]. by rewrite Em, app_nil_r. }
      cbn [fst snd]. rewrite zlen_snoc. split_and!; try done. lia.
    + assert (select major (es1 ++ [e]) = select major es1 ++ [e]) as Hs1.
      { rewrite select_app. unfold select at 2. cbn [List.filter]. by rewrite Em. }
      apply wp_bind. apply wp_fail_if; intros Eo.
      { split; [done|]. rewrite Hsel, Hs1, enc_all_app, zlen_app, zlen_snoc.
        pose proof (zlen_nonneg (enc_all (select major es2))).
        destruct (Z.gtb_spec (4 + zlen (enc_all (select major es1)) + (4 + zlen e.2)) buf_size); [lia|done]. }
      destruct (Z.gtb_spec (4 + zlen (enc_all (select major es1)) + (4 + zlen e.2)) buf_size) as [|Hfit]; [done|].
      eapply copy_one; [done|done|rewrite Hs1, zlen_snoc; lia..|].
      split; [|cbn; lia]. exists (es1 ++ [e]), es2. cbn [fst snd]. rewrite Hs1, !zlen_snoc.
      split_and!; try done; lia.
  - exists [], es. cbn [fst snd]. change (zlen (enc_all (select major []))) with 0.
    change (zlen (enc_all [])) with 0. split_and!; try done; lia.
  - cbn [fst]. pose proof (zlen_nonneg (enc_all es)). lia.
Qed.

(** ** From the bootloader to a partition *)

(** One record the bootloader has for the runtime firmware. *)
Record boot_record := { br_major : Z; br_minor : Z; br_data : bytes }.
Definition br_ok (r : boot_record) : Prop :=
  0 <= r.(br_major) < 16 /\ 0 <= r.(br_minor) < 4096 /\ zlen r.(br_data) < 2 ^ 16.
Definition to_tlv (r : boot_record) : tlv := (SET_TLV_TYPE r.(br_major) r.(br_minor), r.(br_data)).

Fixpoint add_records (rs : list boot_record) : BD unit :=
  match rs with
  | [] => mret tt
  | r :: rs' =>
      _ ← boot_add_data_to_shared_area r.(br_major) r.(br_minor) (zlen r.(br_data)) (Some r.(br_data));
      add_records rs'
  end.

Lemma add_one s s' es r : holds s.(bs_area) es -> br_ok r ->
  boot_add_data_to_shared_area r.(br_major) r.(br_minor) (zlen r.(br_data)) (Some r.(br_data)) s = (Val tt, s') ->
  s' = set_area s'.(bs_area) s /\ holds s'.(bs_area) (es ++ [to_tlv r]).
Proof.
  intros Hh (HM & Hm & Hl) Hrun. pose proof (zlen_nonneg r.(br_data)).
  assert (arguments_ok r.(br_major) r.(br_minor) (zlen r.(br_data)) r.(br_data)) as Hargs.
  { split_and!; try lia; done. }
  destruct (wp_val _ _ _ _ _ _ _ (add_to_holding s es _ _ _ _ Hh Hargs) Hrun) as (_ & area & -> & _ & Hh').
  split; [done|]. unfold record_of in Hh'. unfold zlen in Hh'.
  by rewrite Nat2Z.id, firstn_all in Hh'.
Qed.

Lemma add_records_hold rs s s' es : holds s.(bs_area) es -> Forall br_ok rs ->
  add_records rs s = (Val tt, s') ->
  s' = set_area s'.(bs_area) s /\ holds s'.(bs_area) (es ++ (to_tlv <$> rs)).
Proof.
  revert s es. induction rs as [|r rs IH]; intros s es Hh Hok Hrun; cbn [add_records] in Hrun.
  { injection Hrun as <-. rewrite app_nil_r. by destruct s. }
  inversion Hok as [|? ? Hr Hrs]; subst. apply bind_val_inv in Hrun as ([] & s1 & H1 & H2).
  destruct (add_one s s1 es r Hh Hr H1) as [Hs1 Hh1]. destruct (IH s1 _ Hh1 Hrs H2) as [Hs' Hh'].
  split; [rewrite Hs', Hs1; done|]. by rewrite <- app_assoc in Hh'.
Qed.

(** An area the bootloader finds unused becomes the empty one. *)
Lemma add_records_fresh rs s s' : fresh s.(bs_area) -> rs <> [] -> Forall br_ok rs ->
  add_records rs s = (Val tt, s') ->
  s' = set_area s'.(bs_area) s /\ holds s'.(bs_area) (to_tlv <$> rs).
Proof.
  intros Hf Hne Hok Hrun. set (s0 := set_area (empty_area (length s.(bs_area))) s).
  assert (holds s0.(bs_area) []) as H0 by apply empty_area_holds.
  assert (add_records rs s0 = (Val tt, s')) as Hrun0; cycle 1.
  { destruct (add_records_hold rs s0 s' [] H0 Hok Hrun0) as [Hs Hh]. split; [by rewrite Hs at 1|done]. }
  assert (forall major minor size data, boot_add_data_to_shared_area major minor size (Some data) s0 =
    boot_add_data_to_shared_area major minor size (Some data) s) as Heq.
  { intros. unfold boot_add_data_to_shared_area.
    by rewrite (bind_val _ _ _ _ _ (init_fresh s Hf)), (bind_val _ _ _ _ _ (init_holds s0 [] H0)). }
  destruct rs as [|r rs]; [done|]. rewrite <- Hrun. cbn [add_records]. unfold mbind, M_bind. by rewrite Heq.
Qed.

Lemma select_records major rs : Forall br_ok rs ->
  select major (to_tlv <$> rs) = to_tlv <$> List.filter (fun r => r.(br_major) =? major) rs.
Proof.
  induction 1 as [|r rs (HM & Hm & _) _ IH]; [done|]. unfold select in *. cbn [fmap list_fmap List.filter].
  unfold of_major at 1. cbn [fst to_tlv]. rewrite GET_SET_MAJOR by done.
  destruct (br_major r =? major); [cbn [fmap list_fmap]; by rewrite <- IH|done].
Qed.

Section Handler.
Context `{BootBuild}.

Definition may_ask (part major : Z) : bool := tfm_core_check_boot_data_access_policy part major =? 0.

Lemma policy_truth part major : truth (tfm_core_check_boot_data_access_policy part major) = negb (may_ask part major).
Proof. unfold may_ask, truth. done. Qed.

Lemma handler_refuses s part may major size :
  may (u16 size) = false \/ s.(bs_valid) <> BOOT_DATA_VALID \/ may_ask part (u8 major) = false ->
  tfm_core_get_boot_data_handler part may major size s = (Err PSA_ERROR_INVALID_ARGUMENT, s).
Proof.
  intros Hno. unfold tfm_core_get_boot_data_handler. cbv zeta.
  destruct (may (u16 size)) eqn:E1; [|done]. cbn [negb].
  rewrite (bind_fail_no false), bind_getS by done.
  destruct (Z.eqb_spec s.(bs_valid) BOOT_DATA_VALID) as [Hv|]; [|done]. cbn [negb].
  rewrite (bind_fail_no false), policy_truth by done.
  destruct Hno as [|[|Hno]]; [done..|]. rewrite Hno. done.
Qed.

Lemma handler_delivers s es part may major size :
  holds s.(bs_area) es -> s.(bs_valid) = BOOT_DATA_VALID -> may size = true ->
  is_u8 major -> may_ask part major = true -> 0 <= size < 2 ^ 16 -> size <= zlen s.(bs_buf) ->
  wp (tfm_core_get_boot_data_handler part may major size)
    (fun _ s' => s' = copied s.(bs_buf) major es s /\ 4 + zlen (enc_all (select major es)) <= size)
    (fun e _ => e = PSA_ERROR_INVALID_ARGUMENT /\ size < 4 + zlen (enc_all (select major es)))
    (fun _ _ => False) s.
Proof.
  intros Hh Hv Hmay HM Hpol Hsz Hbuf. unfold tfm_core_get_boot_data_handler. cbv zeta.
  rewrite (u16_small size), (u8_small major), Hmay by done. cbn [negb].
  apply wp_bind, wp_fail_if; [done|]; intros _. apply wp_bind, wp_getS. rewrite Hv, policy_truth, Hpol.
  apply wp_bind, wp_fail_if; [done|]; intros _. apply wp_bind, wp_fail_if; [done|]; intros _.
  apply wp_bind. eapply wp_run; [by apply (holds_tot_len s es)|].
  pose proof (holds_fits _ _ Hh). fold (zlen s.(bs_area)).
  apply wp_bind. apply wp_fail_if; intros E1.
  { destruct (Z.gtb_spec (4 + zlen (enc_all es)) (zlen (bs_area s))); [lia|done]. }
  pose proof (zlen_nonneg (enc_all (select major es))).
  apply wp_bind. apply wp_fail_if; intros E2; unfold SHARED_DATA_HEADER_SIZE in E2.
  { apply Z.ltb_lt in E2. split; [done|lia]. }
  apply Z.ltb_ge in E2. apply wp_bind.
  eapply wp_run.
  { apply (buf_write_mid s [] (take 4 s.(bs_buf)) _ (drop 4 s.(bs_buf))); [by rewrite app_nil_l, take_drop|done|].
    rewrite length_take, length_app, !length_le16. unfold zlen in Hbuf. lia. }
  apply (copy_loop s es major size s.(bs_buf)); [done|done|lia].
Qed.

End Handler.
