(* ===== verification/FlashMap.v ===== *)
(** Flash areas: the bootloader's view of flash ([bl2/src/flash_map.c],
    [bl2/ext/mcuboot/flash_map_extended.c]).

    The firmware update partition links the same code.  A flash area is a range of the
    flash device; reads and writes of any alignment are made of whole data items and
    whole program units.  The device is the driver of [FlashNor]; that all areas are on
    one device is how the default flash map is built. *)

From stdpp Require Import base list numbers gmap.
From S2P Require Import Prelude FlashNor.

(** [struct flash_area] *)
Record flash_area := {
  fa_id : Z;
  fa_device_id : Z;
  fa_off : Z;
  fa_size : Z;
}.

(** The layout of the flash, what [GetInfo] of the driver says, and the addition with
    a check for overflow that the bootloader library provides. *)
Class FlashMapBuild := {
  flash_map : list flash_area;
  FLASH_PROGRAM_UNIT : Z;
  fi_uniform : bool;      (* sector_info == NULL *)
  fi_sector_size : Z;
  fi_program_unit : Z;
  fi_erased_value : Z;
  boot_u32_safe_add : Z -> Z -> option Z;
}.

(** [flash_driver]: the [Initialize] functions of the drivers. *)
Class FlashDrivers (H : Type) := { flash_driver : list (M H Z) }.

Definition FLOOR_ALIGN (value alignment : Z) : Z := Z.land value (Z.lnot (alignment - 1)).
Definition CEILING_ALIGN (value alignment : Z) : Z :=
  Z.land (u32 (value + (alignment - 1))) (Z.lnot (alignment - 1)).

Section Areas.
Context {H : Type} `{!ArmDriverFlash H} `{FlashMapBuild}.

(** [ret = driver->ReadData(...); if (ret < 0) return ret;] *)
Definition drv_read (addr cnt : Z) : M H bytes := fun h =>
  match ReadData addr cnt h with
  | ((ret, l), h') => if ret <? 0 then (Err ret, h') else (Val l, h')
  end.

(** [if (driver->ProgramData(...) < 0) return -1;] *)
Definition drv_program (addr : Z) (l : bytes) (cnt : Z) : M H unit := fun h =>
  match ProgramData addr l cnt h with
  | (ret, h') => if ret <? 0 then (Err (-1), h') else (Val tt, h')
  end.

Definition is_range_valid (area : option flash_area) (off len : Z) : bool :=
  match area with
  | None => false
  | Some area =>
      match boot_u32_safe_add off len with
      | None => false
      | Some size => negb (fa_size area <? size)
      end
  end.

Definition flash_area_open (id : Z) : Z + flash_area :=
  match List.find (fun a => id =? fa_id a) flash_map with
  | None => inl (-1)
  | Some a => inr a
  end.

(** The drivers of the list are initialised one after the other. *)
Fixpoint init_drivers (l : list (M H Z)) : M H Z :=
  match l with
  | [] => mret 0
  | init :: l' =>
      rc ← init;
      if negb (rc =? ARM_DRIVER_OK) then mret (-1) else init_drivers l'
  end.

Definition flash_area_driver_init `{!FlashDrivers H} : M H Z := init_drivers flash_driver.

Definition flash_area_close (area : flash_area) : M H unit := mret tt.
Definition flash_area_get_size (fa : flash_area) : Z := fa_size fa.
Definition flash_area_erased_val (fa : flash_area) : Z := fi_erased_value.
Definition flash_area_align (area : flash_area) : Z := fi_program_unit.

(** ** Reading *)

(** The part before the first aligned item: its bytes and how many they are. *)
Definition area_head (area : flash_area) (off len : Z) : M H (bytes * Z) :=
  let aligned_off := FLOOR_ALIGN off data_width in
  if negb (aligned_off =? off) then
    temp_buffer ← drv_read (u32 (fa_off area + aligned_off)) 1;
    let read_length :=
      if u32 (off - aligned_off + len) >=? data_width then data_width - (off - aligned_off) else len in
    mret (slice temp_buffer (Z.to_nat (off - aligned_off)) (Z.to_nat read_length), read_length)
  else mret ([], 0).

(** The whole items. *)
Definition area_body (area : flash_area) (off i item_number : Z) : M H bytes :=
  if truth item_number then drv_read (u32 (fa_off area + off + i)) item_number else mret [].

(** The last, incomplete item. *)
Definition area_tail (area : flash_area) (off i item_number remaining_len : Z) : M H bytes :=
  if remaining_len =? 0 then mret []
  else
    temp_buffer ← drv_read (u32 (fa_off area + off + i + item_number * data_width)) 1;
    mret (take (Z.to_nat remaining_len) temp_buffer).

Definition flash_area_read (area : flash_area) (off len : Z) : M H bytes :=
  _ ← fail_if (negb (is_range_valid (Some area) off len)) (-1);
  '(head, i) ← area_head area off len;
  let remaining_len := len - i in
  if remaining_len =? 0 then mret head
  else
    let item_number := remaining_len / data_width in
    body ← area_body area off i item_number;
    tail ← area_tail area off i item_number (remaining_len - item_number * data_width);
    mret (head ++ body ++ tail).

(** ** Writing *)

(** Copy from [from] behind the bytes a program unit has so far, until it is full. *)
Definition fill_unit (unit_buf from : bytes) : bytes := take (Z.to_nat FLASH_PROGRAM_UNIT) (unit_buf ++ from).
Definition copied_of (unit_buf from : bytes) : Z :=
  Z.of_nat (length (fill_unit unit_buf from)) - Z.of_nat (length unit_buf).
Definition unit_full (unit_buf : bytes) : bool := Z.of_nat (length unit_buf) =? FLASH_PROGRAM_UNIT.

(** The first program unit; the number of bytes of [src] it took. *)
Definition write_head (area : flash_area) (aligned_off : Z) (add_padding src len_padding : bytes) : M H Z :=
  if truth (Z.of_nat (length add_padding)) then
    let unit1 := fill_unit add_padding src in
    let src_written_idx := copied_of add_padding src in
    let whole := src_written_idx =? Z.of_nat (length src) in
    let unit2 := if whole then fill_unit unit1 len_padding else unit1 in
    let k := if whole then copied_of unit1 len_padding else Z.of_nat (length len_padding) in
    _ ← fail_if (negb (k =? Z.of_nat (length len_padding))) (-1);
    _ ← fail_if (negb (unit_full unit2)) (-1);
    _ ← drv_program (u32 (fa_off area + aligned_off)) unit2 (FLASH_PROGRAM_UNIT / data_width);
    mret src_written_idx
  else mret 0.

(** The whole program units: what [src] has at its beginning is programmed. *)
Definition write_body (area : flash_area) (off : Z) (src : bytes) (src_written_idx : Z) : M H Z :=
  let write_size := FLOOR_ALIGN (Z.of_nat (length src) - src_written_idx) FLASH_PROGRAM_UNIT in
  if write_size >? 0 then
    _ ← drv_program (u32 (fa_off area + off + src_written_idx)) (take (Z.to_nat write_size) src)
          (write_size / data_width);
    mret (src_written_idx + write_size)
  else mret src_written_idx.

(** The last program unit. *)
Definition write_tail (area : flash_area) (off add_padding_size aligned_len : Z) (src len_padding : bytes)
    (last_unit_start_off : Z) : M H unit :=
  if truth (Z.of_nat (length len_padding)) then
    let rest := drop (Z.to_nat last_unit_start_off) src in
    let unit1 := fill_unit [] rest in
    _ ← fail_if (negb (copied_of [] rest =? Z.of_nat (length rest))) (-1);
    let unit2 := fill_unit unit1 len_padding in
    let write_size := add_padding_size + last_unit_start_off + FLASH_PROGRAM_UNIT in
    _ ← fail_if (negb (unit_full unit2) ||
                 negb (copied_of unit1 len_padding =? Z.of_nat (length len_padding)) ||
                 negb (aligned_len =? write_size)) (-1);
    drv_program (u32 (fa_off area + off + last_unit_start_off)) unit2 (FLASH_PROGRAM_UNIT / data_width)
  else mret tt.

(** [src] is the buffer, of [len] bytes. *)
Definition flash_area_write (area : flash_area) (off : Z) (src : bytes) : M H unit :=
  let len := Z.of_nat (length src) in
  let aligned_off := FLOOR_ALIGN off FLASH_PROGRAM_UNIT in
  let add_padding_size := off - aligned_off in
  _ ← fail_if (negb (is_range_valid (Some area) off len)) (-1);
  add_padding ← (if truth FLASH_PROGRAM_UNIT
                 then or_return (flash_area_read area aligned_off add_padding_size) (-1) else mret []);
  let aligned_len := CEILING_ALIGN (u32 (len + add_padding_size)) FLASH_PROGRAM_UNIT in
  let len_padding_size := u32 (aligned_len - len - add_padding_size) in
  _ ← fail_if (negb (is_range_valid (Some area) aligned_off aligned_len)) (-1);
  len_padding ← or_return (flash_area_read area (u32 (off + len)) len_padding_size) (-1);
  src_written_idx ← write_head area aligned_off add_padding src len_padding;
  if src_written_idx <? len then
    last_unit_start_off ← write_body area off src src_written_idx;
    write_tail area off add_padding_size aligned_len src len_padding last_unit_start_off
  else mret tt.

(** ** Erasing *)

(** One round: [deleted_len] bytes are erased, the next sector is at [off]. *)
Definition area_erase_step (area : flash_area) (len : Z) (x : Z * Z) : M H (Z * Z + Z) := fun h =>
  let '(deleted_len, off) := x in
  if deleted_len <? len then
    match EraseSector (u32 (fa_off area + off)) h with
    | (rc, h') =>
        if negb (rc =? 0) then (Val (inr rc), h')
        else (Val (inl (u32 (deleted_len + fi_sector_size), u32 (off + fi_sector_size))), h')
    end
  else (Val (inr 0), h).

Definition flash_area_erase (area : flash_area) (off len : Z) : M H unit :=
  _ ← fail_if (negb (is_range_valid (Some area) off len)) (-1);
  rc ← (if fi_uniform then while_loop (area_erase_step area len) (0, off) else mret 0);
  fail_if (negb (rc =? 0)) rc.
End Areas.

(** * Flash areas: what their operations do on a driver that works. *)

(** What the code relies on: the addition checks for overflow; a program unit is a
    power of two and a whole number of data items. *)
Class FlashMapOk `{!ArmDriverFlash H} `{FlashMapBuild} := {
  safe_add_ok : forall a b, is_u32 a -> is_u32 b ->
    boot_u32_safe_add a b = if a + b <? 2 ^ 32 then Some (a + b) else None;
  unit_pow : exists k, 0 <= k /\ FLASH_PROGRAM_UNIT = 2 ^ k;
  unit_items : (data_width | FLASH_PROGRAM_UNIT);
}.
#[export] Hint Mode FlashMapOk + + + : typeclass_instances.

Lemma FLOOR_ALIGN_pow2 x k : 0 <= k -> FLOOR_ALIGN x (2 ^ k) = x / 2 ^ k * 2 ^ k.
Proof.
  intros Hk. unfold FLOOR_ALIGN. replace (2 ^ k - 1) with (Z.ones k) by (rewrite Z.ones_equiv; lia).
  rewrite <- Z.ldiff_land, Z.ldiff_ones_r by done. rewrite Z.shiftl_mul_pow2, Z.shiftr_div_pow2 by done. done.
Qed.

Lemma CEILING_ALIGN_pow2 x k : 0 <= k -> 0 <= x -> x + 2 ^ k <= 2 ^ 32 ->
  CEILING_ALIGN x (2 ^ k) = (x + (2 ^ k - 1)) / 2 ^ k * 2 ^ k.
Proof.
  intros Hk Hx Hle. pose proof (Z.pow_pos_nonneg 2 k ltac:(lia) Hk).
  pose proof (FLOOR_ALIGN_pow2 (x + (2 ^ k - 1)) k Hk) as Hf. unfold FLOOR_ALIGN in Hf.
  unfold CEILING_ALIGN. rewrite u32_small by (unfold is_u32; lia). done.
Qed.

Section Spec.
Context {H : Type} `{!ArmDriverFlash H} `{!FlashMapBuild} (flash : H -> Z -> Z) (sector ev : Z)
  `{!DriverContract flash sector ev} `{!FlashMapOk}.

Abbreviation U := FLASH_PROGRAM_UNIT.
Abbreviation contents := (flash_bytes flash).

(** An area a device can have. *)
Definition area_ok (area : flash_area) : Prop :=
  0 <= fa_off area /\ 0 <= fa_size area /\ (U | fa_off area) /\ (U | fa_size area) /\
  fa_off area + fa_size area <= 2 ^ 32 - U - 4.

Lemma unit_pos : 0 < U.
Proof. destruct unit_pow as (k & Hk & ->). by apply Z.pow_pos_nonneg. Qed.

Lemma FLOOR_unit x : FLOOR_ALIGN x U = x / U * U.
Proof. destruct unit_pow as (k & Hk & ->). by apply FLOOR_ALIGN_pow2. Qed.

Lemma FLOOR_width x : FLOOR_ALIGN x data_width = x / data_width * data_width.
Proof.
  destruct data_width_cases as [-> | [-> | ->]].
  - apply (FLOOR_ALIGN_pow2 x 0). lia.
  - apply (FLOOR_ALIGN_pow2 x 1). lia.
  - apply (FLOOR_ALIGN_pow2 x 2). lia.
Qed.

Lemma width_divides x : (U | x) -> (data_width | x).
Proof. intros. etrans; [apply unit_items|done]. Qed.

Lemma is_range_valid_ok area off len : area_ok area -> is_u32 off -> is_u32 len ->
  is_range_valid (Some area) off len = (off + len <=? fa_size area).
Proof.
  intros (B0 & B1 & _ & _ & B2) Ho Hl. unfold is_range_valid. rewrite safe_add_ok by done. pose proof unit_pos.
  destruct (Z.ltb_spec (off + len) (2 ^ 32)).
  - rewrite Z.leb_antisym. done.
  - symmetry. apply Z.leb_gt. lia.
Qed.

Lemma drv_read_spec h addr cnt : (data_width | addr) -> 0 <= addr -> 0 < cnt ->
  addr + cnt * data_width <= 2 ^ 32 ->
  exists h', drv_read addr cnt h = (Val (contents h addr (cnt * data_width)), h') /\
    forall a, flash h' a = flash h a.
Proof.
  intros Ha B0 Hc Hle. destruct (contract_read h addr cnt Ha B0 Hc Hle) as (ret & h' & Hr & Hret & Hf).
  exists h'. unfold drv_read. rewrite Hr, (proj2 (Z.ltb_ge _ _)) by lia. done.
Qed.

(** ** Reading *)

Lemma area_head_spec area off len h : area_ok area -> 0 <= off -> 0 <= len -> off + len <= fa_size area ->
  exists n h', area_head area off len h = (Val (contents h (fa_off area + off) n, n), h') /\
    0 <= n <= len /\ (n = len \/ (data_width | fa_off area + off + n)) /\
    forall a, flash h' a = flash h a.
Proof.
  intros (B0 & B1 & B2 & _ & B3) Ho Hl Hle. pose proof unit_pos. pose proof data_width_cases as Hw.
  pose proof (width_divides _ B2) as Hdw. unfold area_head. rewrite FLOOR_width.
  destruct (aligned_bounds off ltac:(lia)) as (Hdiv & Hal & Hlt & Hub).
  set (al := off / data_width * data_width) in *.
  destruct (Z.eqb_spec al off) as [Heq|Hne]; cbn [negb].
  { exists 0, h. split_and!; try done. right. rewrite Z.add_0_r. apply Z.divide_add_r; [done|by rewrite <- Heq]. }
  rewrite (u32_small (fa_off area + al)) by (unfold is_u32; lia).
  destruct (drv_read_spec h (fa_off area + al) 1) as (h' & Hr & Hf); [by apply Z.divide_add_r|lia|lia|lia|].
  rewrite (bind_val _ _ _ _ _ Hr), Z.mul_1_l, u32_small by (unfold is_u32; lia).
  set (n := if _ >=? _ then _ else _).
  assert (0 <= n <= len /\ off - al + n <= data_width /\ (n = len \/ off + n = al + data_width))
    as (Hn & Hn' & Hn'').
  { subst n. destruct (Z.geb_spec (off - al + len) data_width); lia. }
  exists n, h'. rewrite slice_flash_bytes by lia. replace (fa_off area + al + (off - al)) with (fa_off area + off) by lia.
  split; [done|]. split; [done|]. split; [|done].
  destruct Hn'' as [|Heq]; [by left|right]. replace (fa_off area + off + n) with (fa_off area + (al + data_width)) by lia.
  repeat apply Z.divide_add_r; done.
Qed.

Lemma area_body_spec area off i cnt h : 0 <= fa_off area + off + i -> 0 <= cnt ->
  fa_off area + off + i + cnt * data_width <= 2 ^ 32 - 1 -> cnt = 0 \/ (data_width | fa_off area + off + i) ->
  exists h', area_body area off i cnt h = (Val (contents h (fa_off area + off + i) (cnt * data_width)), h') /\
    forall a, flash h' a = flash h a.
Proof.
  intros B0 Hc Hle Hd. unfold area_body. destruct (truth cnt) eqn:E.
  - apply truth_true in E. destruct Hd as [|Hd]; [done|]. pose proof data_width_cases.
    rewrite u32_small by (unfold is_u32; nia). apply drv_read_spec; [done|lia|lia|lia].
  - apply truth_false in E as ->. by exists h.
Qed.

Lemma area_tail_spec area off i cnt rem h :
  let at_ := fa_off area + off + i + cnt * data_width in
  0 <= at_ -> at_ + data_width <= 2 ^ 32 -> 0 <= rem < data_width -> rem = 0 \/ (data_width | at_) ->
  exists h', area_tail area off i cnt rem h = (Val (contents h at_ rem), h') /\
    forall a, flash h' a = flash h a.
Proof.
  intros at_ B0 Hle Hr Hd. unfold area_tail. destruct (Z.eqb_spec rem 0) as [->|Hne]; [by exists h|].
  destruct Hd as [|Hd]; [done|]. rewrite u32_small by (unfold is_u32; lia).
  destruct (drv_read_spec h at_ 1) as (h' & Hrd & Hf); [done|lia|lia|lia|].
  exists h'. rewrite (bind_val _ _ _ _ _ Hrd), Z.mul_1_l. split; [|done].
  pose proof (slice_flash_bytes flash h at_ data_width 0 rem) as Hsl. unfold slice in Hsl.
  change (Z.to_nat 0) with 0%nat in Hsl. rewrite drop_0, Z.add_0_r in Hsl. by rewrite Hsl by lia.
Qed.

(** A read of an area returns the bytes of the area, at any offset and of any length. *)
Lemma flash_area_read_spec area off len h : area_ok area -> 0 <= off -> 0 <= len -> off + len <= fa_size area ->
  exists h', flash_area_read area off len h = (Val (contents h (fa_off area + off) len), h') /\
    forall a, flash h' a = flash h a.
Proof.
  intros Hok Ho Hl Hle. pose proof Hok as (B0 & B1 & B2 & _ & B3). pose proof unit_pos. unfold flash_area_read.
  rewrite is_range_valid_ok by (done || unfold is_u32; lia). rewrite (proj2 (Z.leb_le _ _)) by done.
  rewrite (bind_fail_no false) by done.
  destruct (area_head_spec area off len h Hok Ho Hl Hle) as (n & h1 & Hh1 & Hn & Hd & Hf1).
  rewrite (bind_val _ _ _ _ _ Hh1). cbv zeta. destruct (Z.eqb_spec (len - n) 0) as [He|Hne].
  { exists h1. replace n with len by lia. done. }
  destruct Hd as [|Hd]; [lia|]. pose proof data_width_cases as Hw.
  set (q := (len - n) / data_width).
  assert (0 <= q /\ q * data_width <= len - n /\ len - n - q * data_width < data_width) as (Hq & Hq1 & Hq2).
  { subst q. destruct Hw as [-> | [-> | ->]]; lia. }
  assert (0 <= q * data_width) by nia.
  destruct (area_body_spec area off n q h1) as (h2 & Hh2 & Hf2); [lia|lia|lia|by right|].
  rewrite (bind_val _ _ _ _ _ Hh2).
  destruct (area_tail_spec area off n q (len - n - q * data_width) h2) as (h3 & Hh3 & Hf3); [lia|lia|lia|..].
  { right. apply Z.divide_add_r; [done|]. by exists q. }
  rewrite (bind_val _ _ _ _ _ Hh3). exists h3. split; [|intros; by rewrite Hf3, Hf2, Hf1].
  rewrite (flash_bytes_ext flash h h1) by done.
  rewrite (flash_bytes_ext flash h h2) by (intros; by rewrite Hf2, Hf1).
  unfold mret, M_ret. do 2 f_equal. replace len with (n + (q * data_width + (len - n - q * data_width))) at 2 by lia.
  rewrite !flash_bytes_app by lia. do 2 f_equal; f_equal; lia.
Qed.

Lemma flash_area_read_refused area off len h : area_ok area -> is_u32 off -> is_u32 len ->
  fa_size area < off + len -> flash_area_read area off len h = (Err (-1), h).
Proof.
  intros. unfold flash_area_read. rewrite is_range_valid_ok by done. by rewrite (proj2 (Z.leb_gt _ _)).
Qed.

(** ** Writing *)

(** The bytes [l] laid over a memory at address [a]. *)
Definition overlay (f : Z -> Z) (a : Z) (l : bytes) : Z -> Z := fun x =>
  if decide (a <= x < a + Z.of_nat (length l)) then default 0 (l !! Z.to_nat (x - a)) else f x.

Lemma overlay_nil f a x : overlay f a [] x = f x.
Proof. unfold overlay. rewrite decide_False; [done|]. simpl. lia. Qed.

Lemma overlay_ext f g a l x : f x = g x -> overlay f a l x = overlay g a l x.
Proof. unfold overlay. by intros ->. Qed.

Lemma overlay_app f a l k x : overlay (overlay f a l) (a + Z.of_nat (length l)) k x = overlay f a (l ++ k) x.
Proof.
  unfold overlay. rewrite length_app, Nat2Z.inj_add.
  destruct (decide (a + Z.of_nat (length l) <= x < a + Z.of_nat (length l) + Z.of_nat (length k))) as [Hd|Hd].
  - rewrite decide_True by lia. rewrite lookup_app_r by lia. do 2 f_equal. lia.
  - destruct (decide (a <= x < a + Z.of_nat (length l))) as [Hd2|Hd2].
    + rewrite decide_True by lia. by rewrite lookup_app_l by lia.
    + by rewrite decide_False by lia.
Qed.

(** Bytes a memory holds already may be written again around others. *)
Lemma overlay_context f h (a n m : Z) l x : 0 <= n -> 0 <= m ->
  (forall y, a <= y < a + n -> f y = flash h y) ->
  (forall y, a + n + Z.of_nat (length l) <= y < a + n + Z.of_nat (length l) + m -> f y = flash h y) ->
  overlay f a (contents h a n ++ l ++ contents h (a + n + Z.of_nat (length l)) m) x = overlay f (a + n) l x.
Proof.
  intros Bn Bm Hf1 Hf2. unfold overlay. rewrite !length_app, !length_flash_bytes, !Nat2Z.inj_add, !Z2Nat.id by done.
  destruct (decide (a + n <= x < a + n + Z.of_nat (length l))) as [Hd|Hd].
  - rewrite decide_True by lia. rewrite lookup_app_r; rewrite length_flash_bytes; [|lia].
    rewrite lookup_app_l by lia. do 2 f_equal. lia.
  - destruct (decide (a <= x < a + (n + (Z.of_nat (length l) + m)))) as [Hd2|Hd2]; [|done].
    destruct (Z.lt_ge_cases x (a + n)) as [Hlt|Hge].
    + rewrite lookup_app_l by (rewrite length_flash_bytes; lia). unfold flash_bytes.
      rewrite list_lookup_fmap, lookup_seqZ_lt by lia. cbn. rewrite Hf1 by lia. f_equal. lia.
    + rewrite lookup_app_r by (rewrite length_flash_bytes; lia). rewrite length_flash_bytes.
      rewrite lookup_app_r by lia. unfold flash_bytes.
      rewrite list_lookup_fmap, lookup_seqZ_lt by lia. cbn. rewrite Hf2 by lia. f_equal. lia.
Qed.

Lemma drv_program_spec h addr l : (data_width | addr) -> 0 <= addr ->
  (data_width | Z.of_nat (length l)) -> addr + Z.of_nat (length l) <= 2 ^ 32 ->
  exists h', drv_program addr l (Z.of_nat (length l) / data_width) h = (Val tt, h') /\
    forall a, flash h' a = overlay (flash h) addr l a.
Proof.
  intros Ha B0 [q Hq] Hle. pose proof data_width_cases as Hw. rewrite Hq, Z.div_mul by lia.
  destruct (contract_program h addr l q Ha B0 Hq ltac:(lia)) as (ret & h' & Hr & Hret & Hf).
  exists h'. unfold drv_program. rewrite Hr, (proj2 (Z.ltb_ge _ _)) by lia. split; [done|].
  intros a. rewrite Hf. unfold overlay. by rewrite Hq.
Qed.

(** What a write leaves in flash.  The whole program units of a write that does not
    begin on a program unit are taken from the beginning of the buffer again. *)
Definition first_part (off : Z) (src : bytes) : Z :=
  if off mod U =? 0 then 0 else Z.min (U - off mod U) (Z.of_nat (length src)).
Definition middle_part (off : Z) (src : bytes) : Z := (Z.of_nat (length src) - first_part off src) / U * U.
Definition written (off : Z) (src : bytes) : bytes :=
  let n := first_part off src in
  let m := middle_part off src in
  take (Z.to_nat n) src ++ take (Z.to_nat m) src ++ drop (Z.to_nat (n + m)) src.

Section Write.
Context (area : flash_area) (off : Z) (src : bytes) (h0 : H).
Context (Harea : area_ok area) (Hoff : 0 <= off) (Hfit : off + Z.of_nat (length src) <= fa_size area).

Abbreviation len := (Z.of_nat (length src)).
Abbreviation al := (off / U * U).
Abbreviation aps := (off - al).
Abbreviation A := ((len + aps + (U - 1)) / U * U).
Abbreviation lps := (A - len - aps).
Abbreviation base := (fa_off area).

Lemma al_nonneg : 0 <= al.
Proof. pose proof unit_pos. apply Z.mul_nonneg_nonneg; [apply Z.div_pos|]; lia. Qed.

Lemma geometry : 0 <= aps < U /\ len + aps <= A < len + aps + U /\ aps = off mod U /\ (U | A) /\ (U | al) /\
  al + A <= fa_size area.
Proof.
  pose proof unit_pos as Hu. assert (U <> 0) as Hne by lia. pose proof (Z.div_mod off U Hne) as Hd.
  pose proof (Z.mod_pos_bound off U Hu). pose proof (Z.div_mod (len + aps + (U - 1)) U Hne) as Hd2.
  pose proof (Z.mod_pos_bound (len + aps + (U - 1)) U Hu).
  assert (0 <= aps < U) by lia. assert (len + aps <= A < len + aps + U) by lia.
  assert ((U | A) /\ (U | al)) as [Ba Bal] by (split; by eexists).
  split_and!; try lia; [done|done|].
  destruct Harea as (_ & _ & _ & [q Hq] & _). destruct Ba as [a Ha], Bal as [b Hb].
  assert ((b + a) * U < (q + 1) * U) as Hlt by lia. apply Z.mul_lt_mono_pos_r in Hlt; [|done].
  assert ((b + a) * U <= q * U) by (apply Z.mul_le_mono_nonneg_r; lia). lia.
Qed.

(** The padding a program unit is completed with. *)
Definition pad_before : bytes := contents h0 (base + al) aps.
Definition pad_after : bytes := contents h0 (base + off + len) lps.

Lemma length_before : Z.of_nat (length pad_before) = aps.
Proof. unfold pad_before. rewrite length_flash_bytes. pose proof geometry. lia. Qed.

Lemma length_after : Z.of_nat (length pad_after) = lps.
Proof. unfold pad_after. rewrite length_flash_bytes. pose proof geometry. lia. Qed.

Lemma fill_fits u f : Z.of_nat (length u) + Z.of_nat (length f) <= U -> fill_unit u f = u ++ f.
Proof. intros. unfold fill_unit. apply take_ge. rewrite length_app. lia. Qed.

Lemma fill_over u f : Z.of_nat (length u) <= U ->
  fill_unit u f = u ++ take (Z.to_nat (U - Z.of_nat (length u))) f.
Proof.
  intros. unfold fill_unit. rewrite take_app. rewrite (take_ge u) by lia. do 2 f_equal. lia.
Qed.

Lemma first_range : 0 <= first_part off src <= len.
Proof. unfold first_part. pose proof geometry as (? & _ & Hm & _). case_match; lia. Qed.

(** Programming one unit that was completed with what flash holds. *)
Lemma program_unit h a n l m : (U | a) -> 0 <= a -> 0 <= n -> 0 <= m -> n + Z.of_nat (length l) + m = U ->
  a + U <= 2 ^ 32 ->
  (forall y, a <= y < a + n -> flash h y = flash h0 y) ->
  (forall y, a + n + Z.of_nat (length l) <= y < a + U -> flash h y = flash h0 y) ->
  exists h', drv_program a (contents h0 a n ++ l ++ contents h0 (a + n + Z.of_nat (length l)) m) (U / data_width) h =
      (Val tt, h') /\
    forall x, flash h' x = overlay (flash h) (a + n) l x.
Proof.
  intros Ha B0 Bn Bm Hsum Hle Hf1 Hf2.
  assert (Z.of_nat (length (contents h0 a n ++ l ++ contents h0 (a + n + Z.of_nat (length l)) m)) = U) as Hlen.
  { rewrite !length_app, !length_flash_bytes. lia. }
  destruct (drv_program_spec h a (contents h0 a n ++ l ++ contents h0 (a + n + Z.of_nat (length l)) m))
    as (h' & Hr & Hf); [by apply width_divides|done|rewrite Hlen; apply unit_items|lia|].
  exists h'. rewrite Hlen in Hr. split; [done|]. intros x. rewrite Hf.
  apply overlay_context; [done|done|done|]. intros y Hy. apply Hf2. lia.
Qed.

Lemma head_program h l m (n : Z) : (forall a, flash h a = flash h0 a) -> 0 <= m -> aps + Z.of_nat (length l) + m = U ->
  exists h', (_ ← drv_program (u32 (base + al)) (contents h0 (base + al) aps ++ l ++
                contents h0 (base + al + aps + Z.of_nat (length l)) m) (U / data_width);
              mret n) h = (Val n, h') /\
    forall a, flash h' a = overlay (flash h0) (base + off) l a.
Proof.
  intros Hf Bm Hsum. pose proof geometry as (Hg1 & Hg2 & Hm & HA & Hal & Hend). pose proof unit_pos as Hu. pose proof al_nonneg.
  pose proof Harea as (B0 & _ & B2 & _ & B3). rewrite u32_small by (unfold is_u32; lia).
  destruct (program_unit h (base + al) aps l m) as (h' & Hr & Hf');
    [by apply Z.divide_add_r|lia|lia|lia|lia|lia|intros; apply Hf..|].
  exists h'. rewrite (bind_val _ _ _ _ _ Hr). split; [done|]. intros a. rewrite Hf'.
  replace (base + al + aps) with (base + off) by lia. apply overlay_ext, Hf.
Qed.

Lemma write_head_spec h : (forall a, flash h a = flash h0 a) ->
  exists h', write_head area al pad_before src pad_after h = (Val (first_part off src), h') /\
    forall a, flash h' a = overlay (flash h0) (base + off) (take (Z.to_nat (first_part off src)) src) a.
Proof.
  intros Hf. pose proof geometry as (Hg1 & Hg2 & Hm & HA & Hal & Hend). pose proof unit_pos as Hu. pose proof al_nonneg.
  pose proof Harea as (B0 & _ & B2 & _ & B3). unfold write_head, first_part. rewrite <- Hm, length_before, length_after.
  destruct (Z.eqb_spec aps 0) as [Hz|Hz].
  { rewrite Hz. exists h. split; [done|]. intros a. by rewrite overlay_nil. }
  rewrite (proj2 (truth_true _)) by done. cbv zeta. unfold copied_of.
  pose proof length_before as Lb. pose proof length_after as La.
  rewrite (fill_over pad_before src), Lb by lia.
  assert (take (Z.to_nat (U - aps)) src = take (Z.to_nat (Z.min (U - aps) len)) src) as ->.
  { destruct (Z.le_ge_cases (U - aps) len); [by rewrite Z.min_l|]. rewrite Z.min_r, !take_ge by lia. done. }
  set (n := Z.min (U - aps) len). assert (0 <= n <= len) as Hn by lia.
  assert (Z.of_nat (length (take (Z.to_nat n) src)) = n) as Ln by (rewrite length_take; lia).
  rewrite length_app, Nat2Z.inj_add, Lb, Ln. replace (aps + n - aps) with n by lia.
  destruct (Z.eqb_spec n len) as [Hw|Hw].
  - assert (A = U) as HAU by (destruct HA as [a Ha]; assert (a = 1) by nia; lia).
    rewrite fill_fits by (rewrite length_app, Nat2Z.inj_add, Lb, Ln, La; lia).
    rewrite !length_app, !Nat2Z.inj_add, Lb, Ln, La. replace (_ - _ =? lps) with true by lia.
    cbn [negb]. rewrite (bind_fail_no false) by done. unfold unit_full.
    rewrite !length_app, !Nat2Z.inj_add, Lb, Ln, La. replace (_ =? U) with true by lia. cbn [negb].
    rewrite (bind_fail_no false), <- app_assoc by done.
    unfold pad_before, pad_after. replace (base + off + len) with (base + al + aps + Z.of_nat (length (take (Z.to_nat n) src))) by lia.
    apply head_program; [done|lia..].
  - rewrite Z.eqb_refl. cbn [negb]. rewrite (bind_fail_no false) by done. unfold unit_full.
    rewrite !length_app, !Nat2Z.inj_add, Lb, Ln. replace (_ =? U) with true by lia. cbn [negb].
    rewrite (bind_fail_no false) by done. unfold pad_before.
    destruct (head_program h (take (Z.to_nat n) src) 0 n Hf) as (h' & Hr & Hf'); [lia..|].
    exists h'. change (contents h0 _ 0) with (@nil Z) in Hr. by rewrite app_nil_r in Hr.
Qed.
Abbreviation n1 := (first_part off src).
Abbreviation m1 := (middle_part off src).

Lemma first_aligned : n1 < len -> (U | off + n1).
Proof.
  unfold first_part. pose proof geometry as (Hg & _ & Hm & _ & Hal & _). rewrite <- Hm. intros Hlt.
  destruct (Z.eqb_spec aps 0).
  - by replace (off + 0) with al by lia.
  - replace (off + _) with (al + U) by lia. apply Z.divide_add_r; [done|]. apply Z.divide_refl.
Qed.

Lemma middle_range : n1 < len -> 0 <= m1 /\ m1 <= len - n1 < m1 + U /\ (U | m1).
Proof.
  intros Hlt. unfold middle_part. pose proof unit_pos as Hu. assert (U <> 0) as Hne by lia.
  pose proof (Z.div_mod (len - n1) U Hne). pose proof (Z.mod_pos_bound (len - n1) U Hu).
  assert (0 <= (len - n1) / U) by (apply Z.div_pos; lia).
  split_and!; [|lia..|by eexists]. apply Z.mul_nonneg_nonneg; lia.
Qed.

(** What is left after the whole units and the padding make one unit or nothing. *)
Lemma last_unit : n1 < len -> if lps =? 0 then n1 + m1 = len else len - (n1 + m1) + lps = U.
Proof.
  intros Hlt. pose proof geometry as (Hg & Hg2 & _ & HA & Hal & _). pose proof unit_pos as Hu.
  destruct (first_aligned Hlt) as [a Ha]. destruct (middle_range Hlt) as (Bm & Hm & [b Hb]).
  destruct HA as [c Hc], Hal as [d Hd].
  assert (len - (n1 + m1) + lps = (c + d - a - b) * U) as Hk by lia.
  destruct (Z.eqb_spec lps 0) as [Hz|Hz].
  - assert (c + d - a - b = 0) by nia. lia.
  - assert (c + d - a - b = 1) by nia. lia.
Qed.

Lemma write_body_spec h : n1 < len ->
  exists h', write_body area off src n1 h = (Val (n1 + m1), h') /\
    forall a, flash h' a = overlay (flash h) (base + off + n1) (take (Z.to_nat m1) src) a.
Proof.
  intros Hlt. unfold write_body. rewrite FLOOR_unit. fold (middle_part off src). cbv zeta.
  destruct (middle_range Hlt) as (Bm & Hm & HUm). pose proof first_range. pose proof unit_pos.
  pose proof Harea as (B0 & _ & B2 & _ & B3).
  destruct (Z.gtb_spec m1 0) as [Hpos|Hz]; cycle 1.
  { assert (m1 = 0) as -> by lia. rewrite Z.add_0_r. exists h. split; [done|]. intros. by rewrite overlay_nil. }
  assert (Z.of_nat (length (take (Z.to_nat m1) src)) = m1) as Hl by (rewrite length_take; lia).
  destruct (drv_program_spec h (base + off + n1) (take (Z.to_nat m1) src)) as (h' & Hr & Hf).
  - apply width_divides. rewrite <- Z.add_assoc. apply Z.divide_add_r; [done|by apply first_aligned].
  - lia.
  - rewrite Hl. by apply width_divides.
  - lia.
  - exists h'. rewrite Hl in Hr. rewrite u32_small by (unfold is_u32; lia). by rewrite (bind_val _ _ _ _ _ Hr).
Qed.

Lemma write_tail_spec h : n1 < len ->
  (forall a, base + off + len <= a -> flash h a = flash h0 a) ->
  exists h', write_tail area off aps A src pad_after (n1 + m1) h = (Val tt, h') /\
    forall a, flash h' a = overlay (flash h) (base + off + (n1 + m1)) (drop (Z.to_nat (n1 + m1)) src) a.
Proof.
  intros Hlt Hf. unfold write_tail. pose proof length_after as La. rewrite La.
  pose proof (last_unit Hlt) as Hlast. pose proof (middle_range Hlt) as (Bm & Hm & HUm).
  pose proof geometry as (Hg1 & Hg2 & Hgm & HA & Hal & Hend). pose proof unit_pos as Hu. pose proof al_nonneg.
  pose proof Harea as (B0 & _ & B2 & _ & B3). pose proof first_range.
  destruct (Z.eqb_spec lps 0) as [Hz|Hz].
  { rewrite Hz. exists h. split; [done|]. intros a. rewrite drop_ge by lia. by rewrite overlay_nil. }
  rewrite (proj2 (truth_true _)) by done. cbv zeta. set (rest := drop (Z.to_nat (n1 + m1)) src).
  assert (Z.of_nat (length rest) = len - (n1 + m1)) as Lr by (unfold rest; rewrite length_drop; lia).
  unfold copied_of. rewrite (fill_fits [] rest) by (cbn [length]; lia). rewrite app_nil_l. cbn [length].
  change (Z.of_nat 0) with 0. rewrite Z.sub_0_r, Z.eqb_refl. cbn [negb]. rewrite (bind_fail_no false) by done.
  rewrite (fill_fits rest pad_after) by lia. unfold unit_full. rewrite length_app, Nat2Z.inj_add, La, Lr.
  rewrite (proj2 (Z.eqb_eq (_ + lps) U)), (proj2 (Z.eqb_eq (_ - _) lps)), (proj2 (Z.eqb_eq A _)) by lia.
  rewrite (bind_fail_no (_ || _)) by done.
  rewrite u32_small by (unfold is_u32; lia).
  destruct (program_unit h (base + off + (n1 + m1)) 0 rest lps) as (h' & Hr & Hf').
  - replace (base + off + (n1 + m1)) with (base + (off + n1 + m1)) by lia.
    apply Z.divide_add_r; [done|]. apply Z.divide_add_r; [by apply first_aligned|done].
  - lia.
  - lia.
  - lia.
  - lia.
  - lia.
  - intros. lia.
  - intros y Hy. apply Hf. lia.
  - exists h'. change (contents h0 _ 0) with (@nil Z) in Hr. rewrite app_nil_l, !Z.add_0_r, Lr in Hr.
    unfold pad_after. replace (base + off + len) with (base + off + (n1 + m1) + (len - (n1 + m1))) by lia.
    split; [done|]. intros a. by rewrite Hf', Z.add_0_r.
Qed.
Lemma units_spec h : (forall a, flash h a = flash h0 a) ->
  exists h', (k ← write_head area al pad_before src pad_after;
              if k <? len then
                l ← write_body area off src k; write_tail area off aps A src pad_after l
              else mret tt) h = (Val tt, h') /\
    forall a, flash h' a = overlay (flash h0) (base + off) (written off src) a.
Proof.
  intros Hf. destruct (write_head_spec h Hf) as (h1 & Hr1 & Hf1). rewrite (bind_val _ _ _ _ _ Hr1).
  pose proof first_range as Hn. unfold written.
  destruct (Z.ltb_spec n1 len) as [Hlt|Hge]; cycle 1.
  { exists h1. split; [done|]. intros a. rewrite Hf1. assert (n1 = len) as Hn1 by lia.
    unfold middle_part. rewrite Hn1, Z.sub_diag, Z.div_0_l, Z.mul_0_l, Z.add_0_r by (pose proof unit_pos; lia).
    rewrite (drop_ge src), take_0, !app_nil_r by lia. done. }
  destruct (middle_range Hlt) as (Bm & Hm & _).
  destruct (write_body_spec h1 Hlt) as (h2 & Hr2 & Hf2). rewrite (bind_val _ _ _ _ _ Hr2).
  assert (Z.of_nat (length (take (Z.to_nat n1) src)) = n1) as Ln by (rewrite length_take; lia).
  assert (Z.of_nat (length (take (Z.to_nat m1) src)) = m1) as Lm by (rewrite length_take; lia).
  destruct (write_tail_spec h2 Hlt) as (h3 & Hr3 & Hf3).
  { intros a Ha. rewrite Hf2. unfold overlay. rewrite decide_False by lia. rewrite Hf1.
    unfold overlay. by rewrite decide_False by lia. }
  exists h3. split; [done|]. intros a. rewrite Hf3, app_assoc, <- overlay_app, length_app, Nat2Z.inj_add, Ln, Lm.
  replace (base + off + (n1 + m1)) with (base + off + n1 + m1) by lia.
  apply overlay_ext. rewrite Hf2, <- overlay_app, Ln. apply overlay_ext, Hf1.
Qed.
End Write.

(** A write of an area: it ends, and the flash holds [written] at the place and what it
    held before everywhere else. *)
Lemma flash_area_write_spec area off src h : area_ok area -> 0 <= off ->
  off + Z.of_nat (length src) <= fa_size area ->
  exists h', flash_area_write area off src h = (Val tt, h') /\
    forall a, flash h' a = overlay (flash h) (fa_off area + off) (written off src) a.
Proof.
  intros Hok Ho Hfit. pose proof Hok as (B0 & B1 & _ & _ & B3). pose proof unit_pos as Hu.
  unfold flash_area_write. cbv zeta. rewrite FLOOR_unit.
  rewrite (is_range_valid_ok area off (Z.of_nat (length src))) by (done || unfold is_u32; lia).
  rewrite (proj2 (Z.leb_le (off + _) _)) by done.
  pose proof (geometry area off src Hok Hfit) as (Hg1 & Hg2 & Hgm & HA & Hal & Hend).
  assert (0 <= off / U * U) by (by apply (al_nonneg off src)).
  rewrite (bind_fail_no false), (proj2 (truth_true U)) by (done || lia).
  destruct (flash_area_read_spec area (off / U * U) (off - off / U * U) h Hok) as (h1 & Hr1 & Hf1); [lia..|].
  rewrite (bind_val _ _ _ _ _ (or_return_val _ _ _ _ _ Hr1)).
  rewrite (u32_small (_ + (off - _))) by (unfold is_u32; lia).
  assert (CEILING_ALIGN (Z.of_nat (length src) + (off - off / U * U)) U =
    (Z.of_nat (length src) + (off - off / U * U) + (U - 1)) / U * U) as ->.
  { destruct unit_pow as (k & Hk & HU). rewrite HU in *. apply CEILING_ALIGN_pow2; lia. }
  rewrite (u32_small (_ - Z.of_nat _ - _)), (u32_small (off + _)) by (unfold is_u32; lia).
  rewrite is_range_valid_ok by (done || unfold is_u32; lia). rewrite (proj2 (Z.leb_le _ _)) by lia.
  rewrite (bind_fail_no false) by done.
  match goal with |- context [flash_area_read area (off + _) ?l] =>
    destruct (flash_area_read_spec area (off + Z.of_nat (length src)) l h1 Hok) as (h2 & Hr2 & Hf2); [lia..|] end.
  rewrite (bind_val _ _ _ _ _ (or_return_val _ _ _ _ _ Hr2)).
  rewrite (flash_bytes_ext flash h h1) by done. rewrite (Z.add_assoc (fa_off area) off).
  apply (units_spec area off src h Hok Ho Hfit). intros. by rewrite Hf2, Hf1.
Qed.

Lemma flash_area_write_refused area off src h : area_ok area -> is_u32 off ->
  is_u32 (Z.of_nat (length src)) -> fa_size area < off + Z.of_nat (length src) ->
  flash_area_write area off src h = (Err (-1), h).
Proof.
  intros. unfold flash_area_write. cbv zeta. rewrite (is_range_valid_ok area off (Z.of_nat (length src))) by done.
  by rewrite (proj2 (Z.leb_gt (off + _) _)).
Qed.

(** On a program unit, or within one, a write stores what it was given. *)
Lemma written_exact off src : (U | off) \/ Z.of_nat (length src) <= U - off mod U -> written off src = src.
Proof.
  pose proof unit_pos as Hu. intros Hc. unfold written, middle_part, first_part.
  pose proof (Z.mod_pos_bound off U Hu). destruct (Z.eqb_spec (off mod U) 0) as [Hz|Hz].
  - rewrite take_0, Z.sub_0_r, Z.add_0_l. apply take_drop.
  - destruct Hc as [Hd|Hle]; [apply Z.mod_divide in Hd; lia|].
    rewrite Z.min_r, Z.sub_diag, Z.div_0_l, Z.mul_0_l, Z.add_0_r by lia.
    rewrite take_0, Nat2Z.id, firstn_all, drop_ge, app_nil_r by lia. done.
Qed.

Lemma length_written off src : 0 <= off -> length (written off src) = length src.
Proof.
  pose proof unit_pos as Hu. intros Ho. unfold written, middle_part, first_part.
  pose proof (Z.mod_pos_bound off U Hu).
  set (n := if _ =? 0 then _ else _). assert (0 <= n <= Z.of_nat (length src)) by (subst n; case_match; lia).
  set (m := _ / U * U). assert (0 <= m <= Z.of_nat (length src) - n).
  { subst m. assert (U <> 0) as Hne by lia. pose proof (Z.div_mod (Z.of_nat (length src) - n) U Hne).
    pose proof (Z.mod_pos_bound (Z.of_nat (length src) - n) U Hu).
    assert (0 <= (Z.of_nat (length src) - n) / U) by (apply Z.div_pos; lia). split; [apply Z.mul_nonneg_nonneg|]; lia. }
  rewrite !length_app, !length_take, length_drop. lia.
Qed.

(** ** Erasing *)

Lemma flash_area_erase_spec area k h : area_ok area -> fi_uniform = true -> fi_sector_size = sector ->
  0 < sector -> (sector | fa_off area) -> fa_size area = k * sector -> 0 <= k ->
  fa_off area + fa_size area + sector <= 2 ^ 32 ->
  exists h', flash_area_erase area 0 (fa_size area) h = (Val tt, h') /\
    forall a, flash h' a =
      if decide (fa_off area <= a < fa_off area + fa_size area) then ev else flash h a.
Proof.
  intros Hok Hun Hsec Hpos Hdiv Hsz Hk Hend. pose proof Hok as (B0 & B1 & _ & _ & B3). pose proof unit_pos.
  unfold flash_area_erase. rewrite is_range_valid_ok by (done || unfold is_u32; lia).
  rewrite (proj2 (Z.leb_le _ _)) by lia. rewrite (bind_fail_no false) by done. rewrite Hun.
  destruct (while_loop_total (area_erase_step area (fa_size area))
    (fun x h1 => exists j, 0 <= j <= k /\ x = (j * sector, j * sector) /\
       forall a, flash h1 a = if decide (fa_off area <= a < fa_off area + j * sector) then ev else flash h a)
    (fun rc h1 => rc = 0 /\ forall a, flash h1 a =
       if decide (fa_off area <= a < fa_off area + fa_size area) then ev else flash h a)
    (fun x => fa_size area - x.1)) with (x := (0, 0)) (s := h) as (rc & h' & Hrun & -> & Hpost).
  - intros x h1 (j & Hj & -> & Hf). unfold area_erase_step.
    destruct (Z.ltb_spec (j * sector) (fa_size area)) as [Hlt|Hge]; cycle 1.
    { exists (inr 0), h1. split; [done|]. split; [done|]. assert (j = k) as -> by nia. by rewrite Hsz. }
    assert (j < k) by nia. assert ((j + 1) * sector <= k * sector) by nia.
    assert (0 <= j * sector) by nia. rewrite u32_small by (unfold is_u32; lia).
    destruct (contract_erase h1 (fa_off area + j * sector)) as (h2 & He & Hf2).
    { apply Z.divide_add_r; [done|by exists j]. } { lia. } { lia. }
    exists (inl ((j + 1) * sector, (j + 1) * sector)), h2. rewrite He. cbn [negb Z.eqb].
    rewrite Hsec, u32_small by (unfold is_u32; lia). split; [do 4 f_equal; lia|].
    split; [|cbn [fst]; lia]. exists (j + 1). split; [lia|]. split; [done|]. intros a. rewrite Hf2, Hf.
    destruct (decide (fa_off area + j * sector <= a < fa_off area + j * sector + sector)).
    + by rewrite decide_True by lia.
    + destruct (decide (fa_off area <= a < fa_off area + j * sector)).
      * by rewrite decide_True by lia.
      * by rewrite decide_False by lia.
  - exists 0. split; [lia|]. split; [done|]. intros a. by rewrite decide_False by lia.
  - cbn [fst]. lia.
  - exists h'. by rewrite (bind_val _ _ _ _ _ Hrun).
Qed.

Lemma length_fill u f : length (fill_unit u f) = (Z.to_nat U `min` (length u + length f))%nat.
Proof. unfold fill_unit. by rewrite length_take, length_app. Qed.
(** Reading back what was laid over the flash. *)
Lemma overlay_contents h h' a l : (forall x, flash h' x = overlay (flash h) a l x) ->
  contents h' a (Z.of_nat (length l)) = l.
Proof.
  intros Hf. apply list_eq. intros i. unfold flash_bytes. rewrite list_lookup_fmap.
  destruct (Nat.lt_ge_cases i (length l)) as [Hi|Hi].
  - rewrite lookup_seqZ_lt by lia. cbn. rewrite Hf. unfold overlay. rewrite decide_True by lia.
    replace (Z.to_nat _) with i by lia. destruct (lookup_lt_is_Some_2 l i Hi) as [x Hx]. by rewrite Hx.
  - rewrite lookup_seqZ_ge by lia. by rewrite lookup_ge_None_2.
Qed.

(** The byte of a write that does not begin on a program unit, at the beginning of its
    first whole unit: the first byte of the buffer, not the one that belongs there. *)
Lemma misaligned_write_repeats off src : 0 <= off -> off mod U <> 0 ->
  U - off mod U + U <= Z.of_nat (length src) ->
  written off src !! Z.to_nat (U - off mod U) = src !! 0%nat.
Proof.
  pose proof unit_pos as Hu. intros Ho Hmod Hlen. unfold written, middle_part, first_part.
  pose proof (Z.mod_pos_bound off U Hu). rewrite (proj2 (Z.eqb_neq _ _)), Z.min_l by lia.
  set (n := U - off mod U) in *. set (m := _ / U * U). assert (U <= m) as Hm.
  { subst m. assert (1 <= (Z.of_nat (length src) - n) / U) by (apply Z.div_le_lower_bound; lia). nia. }
  rewrite lookup_app_r; rewrite length_take; [|lia]. rewrite Nat.min_l, Nat.sub_diag by lia.
  rewrite lookup_app_l by (rewrite length_take; lia). rewrite lookup_take_lt by lia. done.
Qed.

(** C27: reads and writes of a flash area are exact at the byte. Let the area lie in the
    device on whole program units. A read inside the area, of any length at any offset,
    gives the bytes flash holds there and changes nothing; a read or a write that leaves
    the area is refused before the device is touched. A write that begins on a program
    unit, or that stays within one, of any length, leaves the buffer at its place and every
    other byte of the device, the rest of its first and last program unit included, as it
    was, so that a read of the same range gives the buffer back. *)
Theorem area_accesses_exact area off h : area_ok area -> is_u32 off ->
  (forall len, is_u32 len ->
     if off + len <=? fa_size area
     then exists h', flash_area_read area off len h = (Val (contents h (fa_off area + off) len), h') /\
       forall a, flash h' a = flash h a
     else flash_area_read area off len h = (Err (-1), h)) /\
  (forall src, is_u32 (Z.of_nat (length src)) -> (U | off) \/ Z.of_nat (length src) <= U - off mod U ->
     if off + Z.of_nat (length src) <=? fa_size area
     then exists h', flash_area_write area off src h = (Val tt, h') /\
       (forall a, flash h' a = overlay (flash h) (fa_off area + off) src a) /\
       exists h'', flash_area_read area off (Z.of_nat (length src)) h' = (Val src, h'')
     else flash_area_write area off src h = (Err (-1), h)).
Proof.
  intros Hok Ho. pose proof Ho as [Ho0 _]. split.
  - intros len Hl. pose proof Hl as [Hl0 _]. destruct (Z.leb_spec (off + len) (fa_size area)).
    + by apply flash_area_read_spec.
    + by apply flash_area_read_refused.
  - intros src Hl Hex. destruct (Z.leb_spec (off + Z.of_nat (length src)) (fa_size area)) as [Hle|].
    + destruct (flash_area_write_spec area off src h Hok Ho0 Hle) as (h' & Hr & Hf).
      rewrite written_exact in Hf by done. exists h'. split_and!; [done|done|].
      destruct (flash_area_read_spec area off (Z.of_nat (length src)) h' Hok) as (h'' & Hr' & _); [lia..|].
      exists h''. by rewrite Hr', (overlay_contents h).
    + by apply flash_area_write_refused.
Qed.
End Spec.
