(* ===== verification/FwuTypes.v ===== *)
(** Firmware update: constants, states, messages, and the interface to the bootloader.

    The service ([firmware_update/tfm_fwu_req_mngr.c]) is written against the functions
    of [bootloader/tfm_bootloader_fwu_abstraction.h]: the class [FwuBootloader].  The
    implementation on MCUboot is an instance of it (file [McuBoot]).

    A field of a structure that nothing was written to yet is [None]. *)

From stdpp Require Import base list numbers.
From S2P Require Import Prelude.

(** ** [psa/update.h], [tfm_fwu_defs.h], [psa/error.h] *)

Definition PSA_ERROR_BAD_STATE : Z := -137.
Definition PSA_ERROR_DEPENDENCY_NEEDED : Z := -156.
Definition PSA_SUCCESS_REBOOT : Z := 1.
Definition PSA_SUCCESS_RESTART : Z := 2.

Definition PSA_FWU_READY : Z := 0.
Definition PSA_FWU_WRITING : Z := 1.
Definition PSA_FWU_CANDIDATE : Z := 2.
Definition PSA_FWU_STAGED : Z := 3.
Definition PSA_FWU_FAILED : Z := 4.
Definition PSA_FWU_TRIAL : Z := 5.
Definition PSA_FWU_REJECTED : Z := 6.
Definition PSA_FWU_UPDATED : Z := 7.
Definition PSA_FWU_FLAG_VOLATILE_STAGING : Z := 1.

Definition TFM_FWU_START : Z := 1001.
Definition TFM_FWU_WRITE : Z := 1002.
Definition TFM_FWU_FINISH : Z := 1003.
Definition TFM_FWU_CANCEL : Z := 1004.
Definition TFM_FWU_INSTALL : Z := 1005.
Definition TFM_FWU_CLEAN : Z := 1006.
Definition TFM_FWU_REJECT : Z := 1007.
Definition TFM_FWU_REQUEST_REBOOT : Z := 1008.
Definition TFM_FWU_ACCEPT : Z := 1009.
Definition TFM_FWU_QUERY : Z := 1010.

(** [sizeof] of the types a message carries. *)
Definition sizeof_component : Z := 1.
Definition sizeof_size_t : Z := 4.
Definition sizeof_status : Z := 4.

(** The options of the build; [sizeof_component_info] depends on the platform's part of
    the structure. *)
Class FwuBuild := {
  FWU_COMPONENT_NUMBER : Z;
  TFM_CONFIG_FWU_MAX_MANIFEST_SIZE : Z;
  PSA_FWU_MAX_WRITE_SIZE : Z;
  TFM_FWU_BUF_SIZE : Z;
  FWU_SUPPORT_TRIAL_STATE : bool;
  FWU_MCUBOOT_BOOTLOADER_LIB : bool;
  sizeof_component_info : Z;
}.

(** The number of components fits the type of a component; buffers are not empty. *)
Class FwuBuildOk `{FwuBuild} := {
  components_u8 : 0 < FWU_COMPONENT_NUMBER < 2 ^ 8;
  buf_size_pos : 0 < TFM_FWU_BUF_SIZE < 2 ^ 32;
  write_size_u32 : 0 <= PSA_FWU_MAX_WRITE_SIZE < 2 ^ 32;
  manifest_size_u32 : 0 <= TFM_CONFIG_FWU_MAX_MANIFEST_SIZE < 2 ^ 32;
}.

(** [psa_fwu_image_version_t] *)
Record psa_fwu_image_version_t := {
  v_major : Z;
  v_minor : Z;
  v_patch : Z;
  v_build : Z;
}.

(** [psa_fwu_component_info_t]; [ci_digest] is the implementation's part. *)
Record psa_fwu_component_info_t := {
  ci_state : option Z;
  ci_error : option Z;
  ci_version : option psa_fwu_image_version_t;
  ci_max_size : option Z;
  ci_flags : option Z;
  ci_location : option Z;
  ci_digest : option bytes;
}.
Definition indeterminate_info : psa_fwu_component_info_t := {|
  ci_state := None; ci_error := None; ci_version := None; ci_max_size := None;
  ci_flags := None; ci_location := None; ci_digest := None;
|}.
Definition set_ci_state (x : Z) (i : psa_fwu_component_info_t) : psa_fwu_component_info_t := {|
  ci_state := Some x; ci_error := i.(ci_error); ci_version := i.(ci_version); ci_max_size := i.(ci_max_size);
  ci_flags := i.(ci_flags); ci_location := i.(ci_location); ci_digest := i.(ci_digest);
|}.
Definition set_ci_error (x : Z) (i : psa_fwu_component_info_t) : psa_fwu_component_info_t := {|
  ci_state := i.(ci_state); ci_error := Some x; ci_version := i.(ci_version); ci_max_size := i.(ci_max_size);
  ci_flags := i.(ci_flags); ci_location := i.(ci_location); ci_digest := i.(ci_digest);
|}.

(** [tfm_fwu_ctx_t] *)
Record tfm_fwu_ctx_t := {
  cx_error : Z;
  component_state : Z;
  in_use : bool;
}.

(** [psa_msg_t], as far as the service reads it. *)
Record fwu_msg := {
  fm_type : Z;
  fm_handle : Z;
  fm_in_size : list Z;
  fm_out_size : list Z;
}.

(** ** The bootloader *)

(** The calls there are, with their arguments. *)
Inductive bl_call :=
  | CallStage (component : Z) (manifest_size : Z)
  | CallLoad (component image_offset : Z) (block : bytes)
  | CallInstall (candidates : list Z)
  | CallAccept (trials : list Z)
  | CallRejectStaged (component : Z)
  | CallRejectTrial (component : Z)
  | CallClean (component : Z)
  | CallInfo (component : Z) (query_state query_impl_info : bool).

(** [tfm_bootloader_fwu_abstraction.h].  Each function gives a status; the last fills in
    the structure it is passed.  A [NULL] manifest is [None]. *)
Class FwuBootloader (B : Type) := {
  fwu_bootloader_init : M B Z;
  fwu_bootloader_staging_area_init : Z -> option bytes -> Z -> M B Z;
  fwu_bootloader_load_image : Z -> Z -> bytes -> M B Z;
  fwu_bootloader_install_image : list Z -> M B Z;
  fwu_bootloader_mark_image_accepted : list Z -> M B Z;
  fwu_bootloader_reject_staged_image : Z -> M B Z;
  fwu_bootloader_reject_trial_image : Z -> M B Z;
  fwu_bootloader_clean_component : Z -> M B Z;
  fwu_bootloader_get_image_info :
    Z -> bool -> bool -> psa_fwu_component_info_t -> M B (Z * psa_fwu_component_info_t);
}.

(** The SPM's functions for a message, and the reset of the platform. *)
Class FwuIo (X : Type) := {
  psa_read : Z -> Z -> Z -> M X bytes;
  psa_write : Z -> Z -> psa_fwu_component_info_t -> M X unit;
  tfm_platform_system_reset : M X unit;
}.

(** ** The state of the service

    [fwu_ctx] is the service's own; [fs_bl] and [fs_io] are the state of the bootloader
    functions and of the SPM.  [fs_calls] is not in the program: it records the calls to
    the bootloader, oldest first, each with the contexts at that moment. *)
Record fwu_state (B X : Type) := {
  fwu_ctx : list tfm_fwu_ctx_t;
  fs_bl : B;
  fs_io : X;
  fs_calls : list (bl_call * list tfm_fwu_ctx_t);
}.
Arguments fwu_ctx {B X} _.
Arguments fs_bl {B X} _.
Arguments fs_io {B X} _.
Arguments fs_calls {B X} _.

Section Setters.
Context {B X : Type}.

Definition set_fwu_ctx (c : list tfm_fwu_ctx_t) (s : fwu_state B X) : fwu_state B X :=
  {| fwu_ctx := c; fs_bl := s.(fs_bl); fs_io := s.(fs_io); fs_calls := s.(fs_calls) |}.
Definition set_fs_bl (b : B) (s : fwu_state B X) : fwu_state B X :=
  {| fwu_ctx := s.(fwu_ctx); fs_bl := b; fs_io := s.(fs_io); fs_calls := s.(fs_calls) |}.
Definition set_fs_io (x : X) (s : fwu_state B X) : fwu_state B X :=
  {| fwu_ctx := s.(fwu_ctx); fs_bl := s.(fs_bl); fs_io := x; fs_calls := s.(fs_calls) |}.
Definition log_call (k : bl_call) (s : fwu_state B X) : fwu_state B X :=
  {| fwu_ctx := s.(fwu_ctx); fs_bl := s.(fs_bl); fs_io := s.(fs_io);
     fs_calls := s.(fs_calls) ++ [(k, s.(fwu_ctx))] |}.
End Setters.

(** ** The client's side ([interface/src/tfm_fwu_api.c])

    What each function passes to [psa_call]: the type, the input vectors and the sizes of
    the output vectors. *)
Record fwu_request := {
  rq_type : Z;
  rq_in : list bytes;
  rq_out : list Z;
}.

Section Client.
Context `{FwuBuild}.

Definition psa_fwu_start (component : Z) (manifest : bytes) : fwu_request :=
  {| rq_type := TFM_FWU_START; rq_in := [[component]; manifest]; rq_out := [] |}.
Definition psa_fwu_write (component image_offset : Z) (block : bytes) : fwu_request :=
  {| rq_type := TFM_FWU_WRITE; rq_in := [[component]; le32 image_offset; block]; rq_out := [] |}.
Definition psa_fwu_finish (component : Z) : fwu_request :=
  {| rq_type := TFM_FWU_FINISH; rq_in := [[component]]; rq_out := [] |}.
Definition psa_fwu_install : fwu_request :=
  {| rq_type := TFM_FWU_INSTALL; rq_in := []; rq_out := [] |}.
Definition psa_fwu_cancel (component : Z) : fwu_request :=
  {| rq_type := TFM_FWU_CANCEL; rq_in := [[component]]; rq_out := [] |}.
Definition psa_fwu_clean (component : Z) : fwu_request :=
  {| rq_type := TFM_FWU_CLEAN; rq_in := [[component]]; rq_out := [] |}.
Definition psa_fwu_query (component : Z) : fwu_request :=
  {| rq_type := TFM_FWU_QUERY; rq_in := [[component]]; rq_out := [sizeof_component_info] |}.
Definition psa_fwu_request_reboot : fwu_request :=
  {| rq_type := TFM_FWU_REQUEST_REBOOT; rq_in := []; rq_out := [] |}.
Definition psa_fwu_accept : fwu_request :=
  {| rq_type := TFM_FWU_ACCEPT; rq_in := []; rq_out := [] |}.
Definition psa_fwu_reject (error : Z) : fwu_request :=
  {| rq_type := TFM_FWU_REJECT; rq_in := [le32 error]; rq_out := [] |}.
End Client.
