(* ===== verification/FwuService.v ===== *)
(** Firmware update: the handlers of the service ([tfm_fwu_req_mngr.c]).

    The build is the one without memory-mapped vectors.  A handler gives the status it
    returns at its end, or leaves with [throw] where the code returns early. *)

From stdpp Require Import base list numbers.
From S2P Require Import Prelude FwuTypes.

Section Service.
Context `{FwuBuild} {B X : Type} `{!FwuBootloader B} `{!FwuIo X}.
Abbreviation FWU := (M (fwu_state B X)).

(** ** Calls *)

Definition on_io {A} (m : M X A) : FWU A := fun s =>
  let '(r, x) := m s.(fs_io) in (r, set_fs_io x s).

(** A call of the bootloader is recorded when it is made. *)
Definition on_bl {A} (k : bl_call) (m : M B A) : FWU A := fun s =>
  let '(r, b) := m s.(fs_bl) in (r, set_fs_bl b (log_call k s)).

Definition get_image_info (component : Z) (query_state query_impl_info : bool)
    (info : psa_fwu_component_info_t) : FWU (Z * psa_fwu_component_info_t) :=
  on_bl (CallInfo component query_state query_impl_info)
    (fwu_bootloader_get_image_info component query_state query_impl_info info).

(** [fwu_ctx[component]] *)
Definition ctx_at (component : Z) : FWU tfm_fwu_ctx_t :=
  s ← getS;
  match (if component <? 0 then None else s.(fwu_ctx) !! Z.to_nat component) with
  | Some c => mret c
  | None => stop OutOfBounds
  end.
Definition put_ctx (component : Z) (c : tfm_fwu_ctx_t) : FWU unit :=
  _ ← ctx_at component;
  modifyS (fun s => set_fwu_ctx (<[Z.to_nat component := c]> s.(fwu_ctx)) s).

Definition set_state (component x : Z) : FWU unit :=
  c ← ctx_at component;
  put_ctx component {| cx_error := c.(cx_error); component_state := x; in_use := c.(in_use) |}.
Definition set_error (component x : Z) : FWU unit :=
  c ← ctx_at component;
  put_ctx component {| cx_error := x; component_state := c.(component_state); in_use := c.(in_use) |}.
Definition set_in_use (component : Z) (x : bool) : FWU unit :=
  c ← ctx_at component;
  put_ctx component {| cx_error := c.(cx_error); component_state := c.(component_state); in_use := x |}.

Definition in_size (msg : fwu_msg) (i : nat) : Z := nth i msg.(fm_in_size) 0.
Definition out_size (msg : fwu_msg) (i : nat) : Z := nth i msg.(fm_out_size) 0.

(** [psa_read(msg->handle, 0, &component, sizeof(component))]; the variable was not
    initialised. *)
Definition read_component (msg : fwu_msg) : FWU Z :=
  d ← on_io (psa_read msg.(fm_handle) 0 sizeof_component);
  match d with
  | b :: _ => mret (u8 b)
  | [] => stop OutOfBounds
  end.

(** [info.state], which a successful call with [query_state] has set. *)
Definition info_state (info : psa_fwu_component_info_t) : FWU Z :=
  match info.(ci_state) with
  | Some x => mret x
  | None => stop OutOfBounds
  end.

(** ** One component *)

(** The part of [tfm_fwu_start] from the look at the component's context. *)
Definition start_component (component : Z) (manifest : option bytes) (manifest_size : Z) : FWU Z :=
  c ← ctx_at component;
  if c.(in_use) then
    _ ← fail_if (negb (c.(component_state) =? PSA_FWU_READY)) PSA_ERROR_BAD_STATE;
    mret PSA_SUCCESS
  else
    '(status, info) ← get_image_info component true false indeterminate_info;
    _ ← fail_if (negb (status =? PSA_SUCCESS)) status;
    st ← info_state info;
    _ ← fail_if (negb (st =? PSA_FWU_READY)) PSA_ERROR_BAD_STATE;
    status ← on_bl (CallStage component manifest_size)
               (fwu_bootloader_staging_area_init component manifest manifest_size);
    _ ← fail_if (negb (status =? PSA_SUCCESS)) status;
    _ ← set_in_use component true;
    _ ← set_state component PSA_FWU_WRITING;
    mret PSA_SUCCESS.

Definition tfm_fwu_start (msg : fwu_msg) : FWU Z :=
  _ ← fail_if (negb (in_size msg 0 =? sizeof_component)) PSA_ERROR_PROGRAMMER_ERROR;
  _ ← fail_if (in_size msg 1 >? TFM_CONFIG_FWU_MAX_MANIFEST_SIZE) PSA_ERROR_NOT_SUPPORTED;
  component ← read_component msg;
  _ ← fail_if (component >=? FWU_COMPONENT_NUMBER) PSA_ERROR_DOES_NOT_EXIST;
  let manifest_size := in_size msg 1 in
  data ← (if manifest_size >? 0 then on_io (psa_read msg.(fm_handle) 1 manifest_size) else mret []);
  start_component component (if TFM_CONFIG_FWU_MAX_MANIFEST_SIZE =? 0 then None else Some data) manifest_size.

(** One round of the loop: what is left to write, at which offset, and the last status. *)
Definition write_step (msg : fwu_msg) (component : Z) (x : Z * Z * Z) : FWU (Z * Z * Z + Z) :=
  let '(block_size, image_offset, status) := x in
  if block_size >? 0 then
    let write_size := if TFM_FWU_BUF_SIZE <=? block_size then TFM_FWU_BUF_SIZE else block_size in
    block ← on_io (psa_read msg.(fm_handle) 2 write_size);
    _ ← fail_if (negb (Z.of_nat (length block) =? write_size)) PSA_ERROR_PROGRAMMER_ERROR;
    status ← on_bl (CallLoad component image_offset block)
               (fwu_bootloader_load_image component image_offset block);
    _ ← fail_if (negb (status =? PSA_SUCCESS)) status;
    mret (inl (block_size - write_size, u32 (image_offset + write_size), status))
  else mret (inr status).

Definition tfm_fwu_write (msg : fwu_msg) : FWU Z :=
  _ ← fail_if (in_size msg 2 >? PSA_FWU_MAX_WRITE_SIZE) PSA_ERROR_INVALID_ARGUMENT;
  let block_size := in_size msg 2 in
  _ ← fail_if (negb (in_size msg 0 =? sizeof_component) || negb (in_size msg 1 =? sizeof_size_t))
        PSA_ERROR_PROGRAMMER_ERROR;
  component ← read_component msg;
  _ ← fail_if (component >=? FWU_COMPONENT_NUMBER) PSA_ERROR_DOES_NOT_EXIST;
  d ← on_io (psa_read msg.(fm_handle) 1 sizeof_size_t);
  let image_offset := of_le32 d in
  c ← ctx_at component;
  _ ← fail_if (negb c.(in_use) || negb (c.(component_state) =? PSA_FWU_WRITING)) PSA_ERROR_BAD_STATE;
  while_loop (write_step msg component) (block_size, image_offset, PSA_SUCCESS).

Definition tfm_fwu_finish (msg : fwu_msg) : FWU Z :=
  _ ← fail_if (negb (in_size msg 0 =? sizeof_component)) PSA_ERROR_PROGRAMMER_ERROR;
  component ← read_component msg;
  _ ← fail_if (component >=? FWU_COMPONENT_NUMBER) PSA_ERROR_DOES_NOT_EXIST;
  c ← ctx_at component;
  _ ← fail_if (negb c.(in_use) || negb (c.(component_state) =? PSA_FWU_WRITING)) PSA_ERROR_BAD_STATE;
  _ ← set_state component PSA_FWU_CANDIDATE;
  mret PSA_SUCCESS.

Definition tfm_fwu_cancel (msg : fwu_msg) : FWU Z :=
  _ ← fail_if (negb (in_size msg 0 =? sizeof_component)) PSA_ERROR_PROGRAMMER_ERROR;
  component ← read_component msg;
  _ ← fail_if (component >=? FWU_COMPONENT_NUMBER) PSA_ERROR_DOES_NOT_EXIST;
  c ← ctx_at component;
  if c.(in_use) then
    if (c.(component_state) =? PSA_FWU_WRITING) || (c.(component_state) =? PSA_FWU_CANDIDATE) then
      _ ← set_state component PSA_FWU_FAILED;
      _ ← set_error component PSA_SUCCESS;
      mret PSA_SUCCESS
    else throw PSA_ERROR_BAD_STATE
  else throw PSA_ERROR_BAD_STATE.

Definition tfm_fwu_clean (msg : fwu_msg) : FWU Z :=
  _ ← fail_if (negb (in_size msg 0 =? sizeof_component)) PSA_ERROR_PROGRAMMER_ERROR;
  component ← read_component msg;
  _ ← fail_if (component >=? FWU_COMPONENT_NUMBER) PSA_ERROR_DOES_NOT_EXIST;
  c ← ctx_at component;
  if c.(in_use) then
    if (c.(component_state) =? PSA_FWU_FAILED) || (c.(component_state) =? PSA_FWU_UPDATED) then
      status ← on_bl (CallClean component) (fwu_bootloader_clean_component component);
      _ ← fail_if (negb (status =? PSA_SUCCESS)) status;
      _ ← set_state component PSA_FWU_READY;
      _ ← set_in_use component false;
      mret PSA_SUCCESS
    else throw PSA_ERROR_BAD_STATE
  else throw PSA_ERROR_BAD_STATE.

Definition tfm_fwu_query (msg : fwu_msg) : FWU Z :=
  _ ← fail_if (negb (in_size msg 0 =? sizeof_component) || negb (out_size msg 0 =? sizeof_component_info))
        PSA_ERROR_PROGRAMMER_ERROR;
  component ← read_component msg;
  _ ← fail_if (component >=? FWU_COMPONENT_NUMBER) PSA_ERROR_DOES_NOT_EXIST;
  c ← ctx_at component;
  let st := c.(component_state) in
  let query_state := negb c.(in_use) in
  let query_impl_info :=
    if FWU_MCUBOOT_BOOTLOADER_LIB then c.(in_use) && (st =? PSA_FWU_CANDIDATE) else true in
  let info :=
    if c.(in_use) then
      let info := set_ci_state st indeterminate_info in
      if (st =? PSA_FWU_REJECTED) || (st =? PSA_FWU_FAILED) then set_ci_error c.(cx_error) info else info
    else indeterminate_info in
  '(result, info) ← get_image_info component query_state query_impl_info info;
  _ ← (if result =? PSA_SUCCESS then on_io (psa_write msg.(fm_handle) 0 info) else mret tt);
  mret result.

(** ** All components *)

Fixpoint for_components (l : list Z) (body : Z -> FWU unit) : FWU unit :=
  match l with
  | [] => mret tt
  | c :: l' => _ ← body c; for_components l' body
  end.

(** One round of the loop over the components: the candidates found so far, and the
    local variable [info]. *)
Definition install_check (component : Z) (acc : list Z * psa_fwu_component_info_t)
  : FWU (list Z * psa_fwu_component_info_t) :=
  let '(candidates, info) := acc in
  c ← ctx_at component;
  if c.(in_use) then
    let st := c.(component_state) in
    if (st =? PSA_FWU_STAGED) || (st =? PSA_FWU_REJECTED) then throw PSA_ERROR_BAD_STATE
    else if st =? PSA_FWU_CANDIDATE then mret (candidates ++ [component], info)
    else mret (candidates, info)
  else
    '(status, info) ← get_image_info component true false info;
    _ ← fail_if (negb (status =? PSA_SUCCESS)) status;
    st ← info_state info;
    _ ← fail_if (st =? PSA_FWU_TRIAL) PSA_ERROR_BAD_STATE;
    mret (candidates, info).

Definition install_outcome (status component : Z) : FWU unit :=
  if status =? PSA_SUCCESS then
    set_state component (if FWU_SUPPORT_TRIAL_STATE then PSA_FWU_TRIAL else PSA_FWU_UPDATED)
  else if negb (status =? PSA_SUCCESS_REBOOT) && negb (status =? PSA_SUCCESS_RESTART) then
    _ ← set_state component PSA_FWU_FAILED;
    set_error component status
  else set_state component PSA_FWU_STAGED.

Definition tfm_fwu_install : FWU Z :=
  '(candidates, _) ← fold_range 0 FWU_COMPONENT_NUMBER ([], indeterminate_info) install_check;
  _ ← fail_if (bool_decide (candidates = [])) PSA_ERROR_BAD_STATE;
  status ← on_bl (CallInstall candidates) (fwu_bootloader_install_image candidates);
  if status =? PSA_ERROR_DEPENDENCY_NEEDED then mret status
  else
    _ ← for_components candidates (install_outcome status);
    mret status.

Definition tfm_fwu_request_reboot : FWU Z :=
  _ ← on_io tfm_platform_system_reset;
  mret PSA_SUCCESS.

Definition accept_check (component : Z) (acc : list Z * psa_fwu_component_info_t)
  : FWU (list Z * psa_fwu_component_info_t) :=
  let '(trials, info) := acc in
  c ← ctx_at component;
  if c.(in_use) then
    if c.(component_state) =? PSA_FWU_TRIAL then mret (trials ++ [component], info) else mret (trials, info)
  else
    '(status, info) ← get_image_info component true false info;
    _ ← fail_if (negb (status =? PSA_SUCCESS)) status;
    st ← info_state info;
    if st =? PSA_FWU_TRIAL then
      _ ← set_in_use component true;
      _ ← set_state component PSA_FWU_TRIAL;
      mret (trials ++ [component], info)
    else mret (trials, info).

Definition tfm_fwu_accept : FWU Z :=
  if FWU_SUPPORT_TRIAL_STATE then
    '(trials, _) ← fold_range 0 FWU_COMPONENT_NUMBER ([], indeterminate_info) accept_check;
    _ ← fail_if (bool_decide (trials = [])) PSA_ERROR_BAD_STATE;
    status ← on_bl (CallAccept trials) (fwu_bootloader_mark_image_accepted trials);
    _ ← fail_if (negb (status =? PSA_SUCCESS)) status;
    _ ← for_components trials (fun component => set_state component PSA_FWU_UPDATED);
    mret status
  else throw PSA_ERROR_NOT_SUPPORTED.

(** The local variables of [tfm_fwu_reject]: the status, whether a component in STAGED
    or TRIAL was found, and [info]. *)
Record reject_locals := {
  rl_status : Z;
  rl_found : bool;
  rl_info : psa_fwu_component_info_t;
}.

(** The part for a component that runs on trial. *)
Definition reject_trial (error component : Z) (info : psa_fwu_component_info_t) : FWU reject_locals :=
  status ← on_bl (CallRejectTrial component) (fwu_bootloader_reject_trial_image component);
  if (status =? PSA_SUCCESS_REBOOT) || (status =? PSA_SUCCESS_RESTART) then
    _ ← set_state component PSA_FWU_REJECTED;
    _ ← set_error component error;
    mret {| rl_status := status; rl_found := true; rl_info := info |}
  else if status =? PSA_SUCCESS then
    _ ← set_state component PSA_FWU_FAILED;
    _ ← set_error component error;
    mret {| rl_status := status; rl_found := true; rl_info := info |}
  else throw status.

Definition reject_check (error component : Z) (l : reject_locals) : FWU reject_locals :=
  c ← ctx_at component;
  if c.(in_use) then
    if c.(component_state) =? PSA_FWU_STAGED then
      _ ← set_state component PSA_FWU_FAILED;
      _ ← set_error component error;
      status ← on_bl (CallRejectStaged component) (fwu_bootloader_reject_staged_image component);
      _ ← fail_if (negb (status =? PSA_SUCCESS)) status;
      mret {| rl_status := status; rl_found := true; rl_info := l.(rl_info) |}
    else if c.(component_state) =? PSA_FWU_TRIAL then reject_trial error component l.(rl_info)
    else mret l
  else
    '(status, info) ← get_image_info component true false l.(rl_info);
    _ ← fail_if (negb (status =? PSA_SUCCESS)) status;
    st ← info_state info;
    if st =? PSA_FWU_TRIAL then
      _ ← set_in_use component true;
      _ ← set_state component PSA_FWU_TRIAL;
      reject_trial error component info
    else mret {| rl_status := status; rl_found := l.(rl_found); rl_info := info |}.

Definition tfm_fwu_reject (msg : fwu_msg) : FWU Z :=
  _ ← fail_if (negb (in_size msg 0 =? sizeof_status)) PSA_ERROR_PROGRAMMER_ERROR;
  d ← on_io (psa_read msg.(fm_handle) 0 sizeof_status);
  _ ← fail_if (negb (Z.of_nat (length d) =? sizeof_status)) PSA_ERROR_PROGRAMMER_ERROR;
  let error := s32 (of_le32 d) in
  l ← fold_range 0 FWU_COMPONENT_NUMBER
        {| rl_status := PSA_SUCCESS; rl_found := false; rl_info := indeterminate_info |}
        (reject_check error);
  _ ← fail_if (negb l.(rl_found)) PSA_ERROR_BAD_STATE;
  mret l.(rl_status).

(** ** The service function *)

(** The status the SPM gets, whichever way the handler returned. *)
Definition returned (m : FWU Z) : FWU Z := fun s =>
  match m s with
  | (Err e, s') => (Val e, s')
  | r => r
  end.

Definition handler (msg : fwu_msg) : FWU Z :=
  let t := msg.(fm_type) in
  if t =? TFM_FWU_START then tfm_fwu_start msg
  else if t =? TFM_FWU_WRITE then tfm_fwu_write msg
  else if t =? TFM_FWU_FINISH then tfm_fwu_finish msg
  else if t =? TFM_FWU_INSTALL then tfm_fwu_install
  else if t =? TFM_FWU_CANCEL then tfm_fwu_cancel msg
  else if t =? TFM_FWU_CLEAN then tfm_fwu_clean msg
  else if t =? TFM_FWU_QUERY then tfm_fwu_query msg
  else if t =? TFM_FWU_REQUEST_REBOOT then tfm_fwu_request_reboot
  else if t =? TFM_FWU_ACCEPT then tfm_fwu_accept
  else if t =? TFM_FWU_REJECT then tfm_fwu_reject msg
  else throw PSA_ERROR_NOT_SUPPORTED.

Definition tfm_firmware_update_service_sfn (msg : fwu_msg) : FWU Z := returned (handler msg).

Definition tfm_fwu_entry : FWU Z := returned (
  r ← (fun s => let '(r, b) := fwu_bootloader_init s.(fs_bl) in (r, set_fs_bl b s));
  _ ← fail_if (negb (r =? 0)) PSA_ERROR_GENERIC_ERROR;
  mret PSA_SUCCESS).

(** [fwu_ctx] is static: all zeros after a reset. *)
Definition initial_ctx : list tfm_fwu_ctx_t :=
  replicate (Z.to_nat FWU_COMPONENT_NUMBER) {| cx_error := 0; component_state := 0; in_use := false |}.
End Service.
