(* ===== verification/FwuStates.v ===== *)
(** Firmware update: the states of a component.

    The states and the moves between them are those of the PSA specification.  Whatever
    message arrives and whatever the bootloader and the SPM do, a component moves along
    the diagram, on the request the move belongs to, and the bootloader is called only
    where its interface says it may be. *)

From stdpp Require Import base list numbers.
From S2P Require Import Prelude FwuTypes FwuService.

(** ** The diagram *)

(** What the service has on record of a component: nothing, or its state. *)
Definition view (c : tfm_fwu_ctx_t) : option Z := if c.(in_use) then Some c.(component_state) else None.

Section States.
Context `{FwuBuild}.

(** The state an installation that needs no reboot leads to. *)
Definition installed_state : Z := if FWU_SUPPORT_TRIAL_STATE then PSA_FWU_TRIAL else PSA_FWU_UPDATED.

(** The moves a request of a type can make. A component that runs on trial after a
    reboot is taken on record by the request that accepts or rejects it. *)
Inductive move : Z -> option Z -> option Z -> Prop :=
  | move_start : move TFM_FWU_START None (Some PSA_FWU_WRITING)
  | move_finish : move TFM_FWU_FINISH (Some PSA_FWU_WRITING) (Some PSA_FWU_CANDIDATE)
  | move_cancel st : st = PSA_FWU_WRITING \/ st = PSA_FWU_CANDIDATE ->
      move TFM_FWU_CANCEL (Some st) (Some PSA_FWU_FAILED)
  | move_clean st : st = PSA_FWU_FAILED \/ st = PSA_FWU_UPDATED -> move TFM_FWU_CLEAN (Some st) None
  | move_install st : st = installed_state \/ st = PSA_FWU_STAGED \/ st = PSA_FWU_FAILED ->
      move TFM_FWU_INSTALL (Some PSA_FWU_CANDIDATE) (Some st)
  | move_adopt t : t = TFM_FWU_ACCEPT \/ t = TFM_FWU_REJECT -> move t None (Some PSA_FWU_TRIAL)
  | move_accept v : v = None \/ v = Some PSA_FWU_TRIAL -> move TFM_FWU_ACCEPT v (Some PSA_FWU_UPDATED)
  | move_unstage : move TFM_FWU_REJECT (Some PSA_FWU_STAGED) (Some PSA_FWU_FAILED)
  | move_reject v st : v = None \/ v = Some PSA_FWU_TRIAL -> st = PSA_FWU_REJECTED \/ st = PSA_FWU_FAILED ->
      move TFM_FWU_REJECT v (Some st).

(** A component stays or makes one move. *)
Definition step_of (t : Z) (c c' : tfm_fwu_ctx_t) : Prop := c' = c \/ move t (view c) (view c').
Definition moves (t : Z) (l l' : list tfm_fwu_ctx_t) : Prop := Forall2 (step_of t) l l'.

(** A component on record is in one of the states of an update. *)
Definition ctx_ok (c : tfm_fwu_ctx_t) : Prop :=
  c.(in_use) = true -> PSA_FWU_WRITING <= c.(component_state) <= PSA_FWU_UPDATED.
Definition ctxs_ok (l : list tfm_fwu_ctx_t) : Prop :=
  Z.of_nat (length l) = FWU_COMPONENT_NUMBER /\ Forall ctx_ok l.

(** The components in a state, in order. *)
Definition is_in (v : Z) (l : list tfm_fwu_ctx_t) (component : Z) : bool :=
  match l !! Z.to_nat component with
  | Some c => c.(in_use) && (c.(component_state) =? v)
  | None => false
  end.
Definition components_in (v : Z) (l : list tfm_fwu_ctx_t) : list Z :=
  List.filter (is_in v l) (seqZ 0 FWU_COMPONENT_NUMBER).

Definition on_record (l : list tfm_fwu_ctx_t) (component : Z) (v : option Z) : Prop :=
  0 <= component < FWU_COMPONENT_NUMBER /\ exists c, l !! Z.to_nat component = Some c /\ view c = v.

(** Where a function of the bootloader may be called, given the contexts at the call. A
    staged image is withdrawn when its component is on record as failed already. *)
Definition call_right (k : bl_call * list tfm_fwu_ctx_t) : Prop :=
  let l := k.2 in
  match k.1 with
  | CallStage c _ => on_record l c None
  | CallLoad c _ d => on_record l c (Some PSA_FWU_WRITING) /\ 0 < Z.of_nat (length d) <= TFM_FWU_BUF_SIZE
  | CallInstall cs => cs <> [] /\ cs = components_in PSA_FWU_CANDIDATE l
  | CallAccept cs => cs <> [] /\ cs = components_in PSA_FWU_TRIAL l
  | CallRejectStaged c => on_record l c (Some PSA_FWU_FAILED)
  | CallRejectTrial c => on_record l c (Some PSA_FWU_TRIAL)
  | CallClean c => on_record l c (Some PSA_FWU_FAILED) \/ on_record l c (Some PSA_FWU_UPDATED)
  | CallInfo c query_state _ => exists v, on_record l c v /\ query_state = bool_decide (v = None)
  end.

(** The same among the components below [i]. *)
Definition found_below (v : Z) (l : list tfm_fwu_ctx_t) (i : Z) : list Z :=
  List.filter (is_in v l) (seqZ 0 i).

Lemma found_below_step v l i : 0 <= i ->
  found_below v l (i + 1) = found_below v l i ++ (if is_in v l i then [i] else []).
Proof.
  intros Hi. unfold found_below. rewrite seqZ_app by lia. change (seqZ (0 + i) 1) with [0 + i].
  rewrite List.filter_app, Z.add_0_l. cbn [List.filter]. by destruct (is_in v l i).
Qed.

Lemma is_in_insert v l i j c : i <> j -> 0 <= i -> 0 <= j -> is_in v (<[Z.to_nat i := c]> l) j = is_in v l j.
Proof. intros. unfold is_in. by rewrite list_lookup_insert_ne by lia. Qed.

Lemma filter_ext_in_Z (f g : Z -> bool) l : (forall x, In x l -> f x = g x) -> List.filter f l = List.filter g l.
Proof. intros. by apply List.filter_ext_in. Qed.

Lemma found_below_insert v l i c : 0 <= i -> found_below v (<[Z.to_nat i := c]> l) i = found_below v l i.
Proof.
  intros Hi. apply filter_ext_in_Z. intros j Hj. apply list_elem_of_In, elem_of_seqZ in Hj.
  apply is_in_insert; lia.
Qed.

Lemma is_in_spec v l component : is_in v l component = true <->
  exists c, l !! Z.to_nat component = Some c /\ view c = Some v.
Proof.
  unfold is_in, view. destruct (l !! Z.to_nat component) as [c|]; [|split; [done|by intros (? & ? & _)]].
  rewrite andb_true_iff, Z.eqb_eq. split.
  - intros [Hu Hs]. exists c. rewrite Hu, Hs. done.
  - intros (c' & [= <-] & Hv). destruct (in_use c); by simplify_eq.
Qed.

Lemma in_components_in v l component : In component (components_in v l) <->
  0 <= component < FWU_COMPONENT_NUMBER /\ is_in v l component = true.
Proof.
  unfold components_in. rewrite List.filter_In, <- list_elem_of_In, elem_of_seqZ.
  split; intros [? ?]; split; (done || lia).
Qed.

Lemma NoDup_components_in v l : NoDup (components_in v l).
Proof. apply NoDup_ListNoDup, List.NoDup_filter, NoDup_ListNoDup, NoDup_seqZ. Qed.

(** ** Moves *)

Lemma moves_refl t l : moves t l l.
Proof. induction l; constructor; [by left|done]. Qed.

Lemma moves_length t l l' : moves t l l' -> length l' = length l.
Proof. intros Hm. symmetry. by eapply Forall2_length. Qed.

Lemma moves_insert t l0 l i c0 c : moves t l0 l -> l0 !! i = Some c0 -> step_of t c0 c ->
  moves t l0 (<[i := c]> l).
Proof. intros Hm Hi Hs. rewrite <- (list_insert_id l0 i c0 Hi). by apply Forall2_insert. Qed.

Lemma ctxs_ok_insert l i c : ctxs_ok l -> ctx_ok c -> ctxs_ok (<[i := c]> l).
Proof. intros [Hl Hf] Hc. split; [by rewrite length_insert|]. by apply Forall_insert. Qed.

Lemma ctx_ok_state e st u : PSA_FWU_WRITING <= st <= PSA_FWU_UPDATED ->
  ctx_ok {| cx_error := e; component_state := st; in_use := u |}.
Proof. intros Hst _. done. Qed.

Lemma ctx_ok_idle e st : ctx_ok {| cx_error := e; component_state := st; in_use := false |}.
Proof. by intros ?. Qed.
End States.

(** ** Rules for the calls of the service *)

Section Rules.
Context `{FwuBuild} {B X : Type} `{!FwuBootloader B} `{!FwuIo X}.
Implicit Types s : fwu_state B X.

Lemma wp_on_io {A} (m : M X A) (Q : A -> fwu_state B X -> Prop) E P s :
  (forall a x, Q a (set_fs_io x s)) -> (forall e x, E e (set_fs_io x s)) -> (forall h x, P h (set_fs_io x s)) ->
  wp (on_io m) Q E P s.
Proof. intros HQ HE HP. unfold wp, on_io. destruct (m s.(fs_io)) as [[a|e|h] x]; auto. Qed.

Lemma wp_on_bl {A} k (m : M B A) (Q : A -> fwu_state B X -> Prop) E P s :
  (forall a b, Q a (set_fs_bl b (log_call k s))) -> (forall e b, E e (set_fs_bl b (log_call k s))) ->
  (forall h b, P h (set_fs_bl b (log_call k s))) ->
  wp (on_bl k m) Q E P s.
Proof. intros HQ HE HP. unfold wp, on_bl. destruct (m s.(fs_bl)) as [[a|e|h] b]; auto. Qed.

Lemma ctx_at_run s component c : 0 <= component -> s.(fwu_ctx) !! Z.to_nat component = Some c ->
  ctx_at component s = (Val c, s).
Proof.
  intros H0 Hc. unfold ctx_at. rewrite bind_getS, (proj2 (Z.ltb_ge _ _)) by done. by rewrite Hc.
Qed.

Lemma wp_ctx_at component (Q : tfm_fwu_ctx_t -> fwu_state B X -> Prop) E P s :
  (forall c, 0 <= component -> s.(fwu_ctx) !! Z.to_nat component = Some c -> Q c s) -> P OutOfBounds s ->
  wp (ctx_at component) Q E P s.
Proof.
  intros HQ HP. unfold ctx_at. apply wp_bind, wp_getS. destruct (Z.ltb_spec component 0) as [|H0]; [done|].
  destruct (s.(fwu_ctx) !! Z.to_nat component) eqn:E1; [|done]. apply wp_ret. by apply HQ.
Qed.

Lemma put_ctx_run s component c c' : 0 <= component -> s.(fwu_ctx) !! Z.to_nat component = Some c ->
  put_ctx component c' s = (Val tt, set_fwu_ctx (<[Z.to_nat component := c']> s.(fwu_ctx)) s).
Proof. intros H0 Hc. unfold put_ctx. by rewrite (bind_val _ _ _ _ _ (ctx_at_run s component c H0 Hc)). Qed.

(** The assignments to the fields of a context. *)
Lemma set_state_run s component c x : 0 <= component -> s.(fwu_ctx) !! Z.to_nat component = Some c ->
  set_state component x s = (Val tt, set_fwu_ctx (<[Z.to_nat component :=
    {| cx_error := c.(cx_error); component_state := x; in_use := c.(in_use) |}]> s.(fwu_ctx)) s).
Proof.
  intros H0 Hc. unfold set_state. rewrite (bind_val _ _ _ _ _ (ctx_at_run s component c H0 Hc)).
  by apply (put_ctx_run _ _ c).
Qed.

Lemma set_error_run s component c x : 0 <= component -> s.(fwu_ctx) !! Z.to_nat component = Some c ->
  set_error component x s = (Val tt, set_fwu_ctx (<[Z.to_nat component :=
    {| cx_error := x; component_state := c.(component_state); in_use := c.(in_use) |}]> s.(fwu_ctx)) s).
Proof.
  intros H0 Hc. unfold set_error. rewrite (bind_val _ _ _ _ _ (ctx_at_run s component c H0 Hc)).
  by apply (put_ctx_run _ _ c).
Qed.

Lemma set_in_use_run s component c x : 0 <= component -> s.(fwu_ctx) !! Z.to_nat component = Some c ->
  set_in_use component x s = (Val tt, set_fwu_ctx (<[Z.to_nat component :=
    {| cx_error := c.(cx_error); component_state := c.(component_state); in_use := x |}]> s.(fwu_ctx)) s).
Proof.
  intros H0 Hc. unfold set_in_use. rewrite (bind_val _ _ _ _ _ (ctx_at_run s component c H0 Hc)).
  by apply (put_ctx_run _ _ c).
Qed.

Lemma inserted (l : list tfm_fwu_ctx_t) i c c' : l !! i = Some c -> <[i := c']> l !! i = Some c'.
Proof. intros Hc. apply list_lookup_insert_eq. by eapply lookup_lt_Some. Qed.

Lemma set_fwu_ctx_twice l l' s : set_fwu_ctx l (set_fwu_ctx l' s) = set_fwu_ctx l s.
Proof. done. Qed.

(** Assignments followed by the rest of a handler. *)
Lemma wp_set_state {A} component c x (k : M (fwu_state B X) A) Q E P s :
  0 <= component -> s.(fwu_ctx) !! Z.to_nat component = Some c ->
  wp k Q E P (set_fwu_ctx (<[Z.to_nat component :=
      {| cx_error := c.(cx_error); component_state := x; in_use := c.(in_use) |}]> s.(fwu_ctx)) s) ->
  wp (_ ← set_state component x; k) Q E P s.
Proof. intros Hpos Hc Hk. apply wp_bind. eapply wp_run; [by apply set_state_run|done]. Qed.

Lemma wp_use_then_state {A} component c x (k : M (fwu_state B X) A) Q E P s :
  0 <= component -> s.(fwu_ctx) !! Z.to_nat component = Some c ->
  wp k Q E P (set_fwu_ctx (<[Z.to_nat component :=
      {| cx_error := c.(cx_error); component_state := x; in_use := true |}]> s.(fwu_ctx)) s) ->
  wp (_ ← set_in_use component true; _ ← set_state component x; k) Q E P s.
Proof.
  intros Hpos Hc Hk. apply wp_bind. eapply wp_run; [by apply set_in_use_run|].
  eapply wp_set_state; [done|by eapply inserted|]. rewrite set_fwu_ctx_twice. cbn [fwu_ctx set_fwu_ctx].
  by rewrite list_insert_insert_eq.
Qed.

Lemma wp_state_then_error {A} component c x e (k : M (fwu_state B X) A) Q E P s :
  0 <= component -> s.(fwu_ctx) !! Z.to_nat component = Some c ->
  wp k Q E P (set_fwu_ctx (<[Z.to_nat component :=
      {| cx_error := e; component_state := x; in_use := c.(in_use) |}]> s.(fwu_ctx)) s) ->
  wp (_ ← set_state component x; _ ← set_error component e; k) Q E P s.
Proof.
  intros Hpos Hc Hk. apply wp_bind. eapply wp_run; [by apply set_state_run|].
  apply wp_bind. eapply wp_run; [apply set_error_run; [done|by eapply inserted]|].
  rewrite set_fwu_ctx_twice. cbn [fwu_ctx set_fwu_ctx]. by rewrite list_insert_insert_eq.
Qed.

Lemma wp_for_components (P : list Z -> fwu_state B X -> Prop) l body (Q : unit -> fwu_state B X -> Prop) E R s :
  P l s -> (forall c l s, P (c :: l) s -> wp (body c) (fun _ s' => P l s') E R s) ->
  (forall s, P [] s -> Q tt s) -> wp (for_components l body) Q E R s.
Proof.
  intros HP Hb HQ. revert s HP. induction l as [|c l IH]; intros s HP; cbn [for_components].
  - by apply wp_ret, HQ.
  - apply wp_bind. eapply wp_mono; [by apply Hb|..]; cbn beta; [|done..]. intros _ s' HP'. by apply IH.
Qed.
End Rules.
