(* ===== verification/FwuLifecycle.v ===== *)
(** Firmware update: every request keeps to the diagram of the states, and to the
    contract of the bootloader's interface. *)

From stdpp Require Import base list numbers.
From S2P Require Import Prelude FwuTypes FwuService FwuStates.

Section Lifecycle.
Context `{FwuBuildOk} {B X : Type} `{!FwuBootloader B} `{!FwuIo X}.
Implicit Types s : fwu_state B X.

(** What holds at every moment of a request of type [t] that began with the contexts
    [l0], in particular when it ends, however it ends. *)
Definition on_track (t : Z) (l0 : list tfm_fwu_ctx_t) (s : fwu_state B X) : Prop :=
  moves t l0 s.(fwu_ctx) /\ ctxs_ok s.(fwu_ctx) /\ Forall call_right s.(fs_calls).
Abbreviation throughout P m s := (wp m (fun _ => P) (fun _ => P) (fun _ => P) s).

Lemma on_track_io t l0 x s : on_track t l0 s -> on_track t l0 (set_fs_io x s).
Proof. done. Qed.

Lemma on_track_call t l0 b k s : on_track t l0 s -> call_right (k, s.(fwu_ctx)) ->
  on_track t l0 (set_fs_bl b (log_call k s)).
Proof. intros (Hm & Hok & Hc) Hk. split_and!; try done. apply Forall_app_2; [done|by constructor]. Qed.

Lemma on_track_put t l0 i c0 c s : on_track t l0 s -> l0 !! i = Some c0 -> step_of t c0 c -> ctx_ok c ->
  on_track t l0 (set_fwu_ctx (<[i := c]> s.(fwu_ctx)) s).
Proof.
  intros (Hm & Hok & Hc) Hi Hs Hcok. split_and!; [by eapply moves_insert|by apply ctxs_ok_insert|done].
Qed.

Lemma on_record_of s component c : ctxs_ok s.(fwu_ctx) -> 0 <= component ->
  s.(fwu_ctx) !! Z.to_nat component = Some c -> on_record s.(fwu_ctx) component (view c).
Proof.
  intros [Hl _] Hpos Hc. split; [|by exists c]. apply lookup_lt_Some in Hc. lia.
Qed.

Lemma not_in_use c : c.(in_use) = false -> view c = None.
Proof. unfold view. by intros ->. Qed.

Lemma in_use_view c : c.(in_use) = true -> view c = Some c.(component_state).
Proof. unfold view. by intros ->. Qed.

Lemma read_component_ok t l0 msg (Q : Z -> fwu_state B X -> Prop) s : on_track t l0 s ->
  (forall component x, is_u8 component -> Q component (set_fs_io x s)) ->
  wp (read_component msg) Q (fun _ => on_track t l0) (fun _ => on_track t l0) s.
Proof.
  intros Ht HQ. unfold read_component. apply wp_bind. apply wp_on_io; [|done..].
  intros [|b d] x; [done|]. apply wp_ret. apply HQ, u8_range.
Qed.

(** The state a successful query of the bootloader reports. *)
Lemma info_state_ok t l0 info (Q : Z -> fwu_state B X -> Prop) s : on_track t l0 s ->
  (forall x, info.(ci_state) = Some x -> Q x s) ->
  wp (info_state info) Q (fun _ => on_track t l0) (fun _ => on_track t l0) s.
Proof. intros Ht HQ. unfold info_state. destruct (ci_state info); [apply wp_ret; auto|done]. Qed.

Lemma start_component_on_track l0 component manifest size s : on_track TFM_FWU_START l0 s ->
  s.(fwu_ctx) = l0 -> throughout (on_track TFM_FWU_START l0) (start_component component manifest size) s.
Proof.
  intros Ht Hl. unfold start_component. apply wp_bind. apply wp_ctx_at; [|done]. intros c Hpos Hc.
  pose proof (on_record_of s component c (proj1 (proj2 Ht)) Hpos Hc) as Hrec.
  destruct (in_use c) eqn:Eu; [apply wp_bind, wp_fail_if; [done|]; intros _; by apply wp_ret|].
  rewrite (not_in_use c Eu) in Hrec.
  apply wp_bind. unfold get_image_info.
  assert (forall b, on_track TFM_FWU_START l0 (set_fs_bl b (log_call (CallInfo component true false) s))) as Hc1.
  { intros b. apply on_track_call; [done|]. by exists None. }
  apply wp_on_bl; [|intros; apply Hc1..]. intros [status info] b1.
  apply wp_bind, wp_fail_if; [done|intros _]. apply wp_bind. eapply info_state_ok; [done|]. intros st _.
  apply wp_bind, wp_fail_if; [done|intros _]. apply wp_bind.
  set (s1 := set_fs_bl b1 _). specialize (Hc1 b1). fold s1 in Hc1.
  assert (forall b, on_track TFM_FWU_START l0 (set_fs_bl b (log_call (CallStage component size) s1))) as Hc2.
  { intros b. by apply on_track_call. }
  apply wp_on_bl; [|intros; apply Hc2..]. intros status2 b2. apply wp_bind, wp_fail_if; [done|intros _].
  eapply wp_use_then_state; [done|exact Hc|]. apply wp_ret.
  apply (on_track_put _ _ _ c); [done|by rewrite <- Hl| |by apply ctx_ok_state].
  right. rewrite (not_in_use c Eu). constructor.
Qed.

Lemma start_on_track l0 msg s : on_track TFM_FWU_START l0 s -> s.(fwu_ctx) = l0 ->
  throughout (on_track TFM_FWU_START l0) (tfm_fwu_start msg) s.
Proof.
  intros Ht Hl. unfold tfm_fwu_start.
  apply wp_bind, wp_fail_if; [done|intros _]. apply wp_bind, wp_fail_if; [done|intros _].
  apply wp_bind. eapply read_component_ok; [done|]. intros component x Hu8.
  apply wp_bind, wp_fail_if; [done|intros Hlt]. cbv zeta. apply wp_bind.
  destruct (in_size msg 1 >? 0).
  - apply wp_on_io; [|done..]. intros d y. by apply start_component_on_track.
  - apply wp_ret. by apply start_component_on_track.
Qed.

Lemma write_on_track l0 msg s : on_track TFM_FWU_WRITE l0 s -> s.(fwu_ctx) = l0 ->
  throughout (on_track TFM_FWU_WRITE l0) (tfm_fwu_write msg) s.
Proof.
  intros Ht Hl. unfold tfm_fwu_write. apply wp_bind, wp_fail_if; [done|intros Hmax]. cbv zeta.
  apply wp_bind, wp_fail_if; [done|intros _].
  apply wp_bind. eapply read_component_ok; [done|]. intros component x Hu8.
  apply wp_bind, wp_fail_if; [done|intros Hlt]. apply wp_bind. apply wp_on_io; [|done..]. intros d y.
  apply wp_bind. apply wp_ctx_at; [|done]. cbn [fwu_ctx set_fs_io]. intros c Hpos Hc.
  apply wp_bind, wp_fail_if; [done|intros Hst]. apply orb_false_iff in Hst as [Hu Hw].
  apply negb_false_iff in Hu. apply negb_false_iff, Z.eqb_eq in Hw.
  pose proof (on_record_of s component c (proj1 (proj2 Ht)) Hpos Hc) as Hrec.
  rewrite (in_use_view c Hu), Hw in Hrec.
  destruct (Z.gtb_spec (in_size msg 2) PSA_FWU_MAX_WRITE_SIZE) as [|Hle]; [done|].
  pose proof write_size_u32. pose proof buf_size_pos.
  apply (wp_while _ (fun x s' => on_track TFM_FWU_WRITE l0 s' /\ s'.(fwu_ctx) = s.(fwu_ctx)))
    with (measure := fun x => Z.max 0 x.1.1); [|done|cbn [fst]; lia].
  clear Hc Hlt Ht Hl. intros [[bs off] st] s' [Ht Hl]. unfold write_step.
  destruct (Z.gtb_spec bs 0) as [Hbs|]; [|by apply wp_ret].
  set (n := if TFM_FWU_BUF_SIZE <=? bs then TFM_FWU_BUF_SIZE else bs).
  assert (0 < n <= TFM_FWU_BUF_SIZE /\ n <= bs) as Hn by (subst n; destruct (Z.leb_spec TFM_FWU_BUF_SIZE bs); lia).
  apply wp_bind. apply wp_on_io; [|done..]. intros block z.
  apply wp_bind, wp_fail_if; [done|intros Hlen]. apply negb_false_iff, Z.eqb_eq in Hlen.
  apply wp_bind. set (s1 := set_fs_io z s').
  assert (forall b, on_track TFM_FWU_WRITE l0 (set_fs_bl b (log_call (CallLoad component off block) s1))) as Hc1.
  { intros b. apply on_track_call; [done|]. split; [|lia]. cbn [snd]. by replace (fwu_ctx s1) with (fwu_ctx s). }
  apply wp_on_bl; [|intros; apply Hc1..]. intros status b.
  apply wp_bind, wp_fail_if; [intros _; apply Hc1|intros _]. apply wp_ret. cbn [fst].
  split; [split; [apply Hc1|done]|lia].
Qed.

Lemma finish_on_track l0 msg s : on_track TFM_FWU_FINISH l0 s -> s.(fwu_ctx) = l0 ->
  throughout (on_track TFM_FWU_FINISH l0) (tfm_fwu_finish msg) s.
Proof.
  intros Ht Hl. unfold tfm_fwu_finish. apply wp_bind, wp_fail_if; [done|intros _].
  apply wp_bind. eapply read_component_ok; [done|]. intros component x Hu8.
  apply wp_bind, wp_fail_if; [done|intros Hlt].
  apply wp_bind. apply wp_ctx_at; [|done]. cbn [fwu_ctx set_fs_io]. intros c Hpos Hc.
  apply wp_bind, wp_fail_if; [done|intros Hst]. apply orb_false_iff in Hst as [Hu Hw].
  apply negb_false_iff in Hu. apply negb_false_iff, Z.eqb_eq in Hw.
  eapply wp_set_state; [done|exact Hc|]. apply wp_ret.
  apply (on_track_put _ _ _ c); [done|by rewrite <- Hl| |by apply ctx_ok_state].
  right. rewrite (in_use_view c Hu), Hw, Hu. constructor.
Qed.

Lemma cancel_on_track l0 msg s : on_track TFM_FWU_CANCEL l0 s -> s.(fwu_ctx) = l0 ->
  throughout (on_track TFM_FWU_CANCEL l0) (tfm_fwu_cancel msg) s.
Proof.
  intros Ht Hl. unfold tfm_fwu_cancel. apply wp_bind, wp_fail_if; [done|intros _].
  apply wp_bind. eapply read_component_ok; [done|]. intros component x Hu8.
  apply wp_bind, wp_fail_if; [done|intros Hlt].
  apply wp_bind. apply wp_ctx_at; [|done]. cbn [fwu_ctx set_fs_io]. intros c Hpos Hc.
  destruct (in_use c) eqn:Hu; [|by apply wp_throw]. destruct (_ || _) eqn:Hst; [|by apply wp_throw].
  apply orb_true_iff in Hst. rewrite !Z.eqb_eq in Hst.
  eapply wp_state_then_error; [done|exact Hc|]. apply wp_ret.
  apply (on_track_put _ _ _ c); [done|by rewrite <- Hl| |by apply ctx_ok_state].
  right. rewrite (in_use_view c Hu), Hu. by constructor.
Qed.

Lemma clean_on_track l0 msg s : on_track TFM_FWU_CLEAN l0 s -> s.(fwu_ctx) = l0 ->
  throughout (on_track TFM_FWU_CLEAN l0) (tfm_fwu_clean msg) s.
Proof.
  intros Ht Hl. unfold tfm_fwu_clean. apply wp_bind, wp_fail_if; [done|intros _].
  apply wp_bind. eapply read_component_ok; [done|]. intros component x Hu8.
  apply wp_bind, wp_fail_if; [done|intros Hlt].
  apply wp_bind. apply wp_ctx_at; [|done]. cbn [fwu_ctx set_fs_io]. intros c Hpos Hc.
  pose proof (on_record_of s component c (proj1 (proj2 Ht)) Hpos Hc) as Hrec.
  destruct (in_use c) eqn:Hu; [|by apply wp_throw]. destruct (_ || _) eqn:Hst; [|by apply wp_throw].
  apply orb_true_iff in Hst. rewrite !Z.eqb_eq in Hst. rewrite (in_use_view c Hu) in Hrec.
  apply wp_bind. set (s1 := set_fs_io x s).
  assert (forall b, on_track TFM_FWU_CLEAN l0 (set_fs_bl b (log_call (CallClean component) s1))) as Hc1.
  { intros b. apply on_track_call; [done|]. destruct Hst as [Hst|Hst]; rewrite Hst in Hrec; [by left|by right]. }
  apply wp_on_bl; [|intros; apply Hc1..]. intros status b.
  apply wp_bind, wp_fail_if; [intros _; apply Hc1|intros _].
  eapply wp_set_state; [done|exact Hc|]. apply wp_bind.
  eapply wp_run; [apply set_in_use_run; [done|by eapply inserted]|]. apply wp_ret.
  rewrite set_fwu_ctx_twice. cbn [fwu_ctx set_fwu_ctx]. rewrite list_insert_insert_eq.
  apply (on_track_put _ _ _ c); [apply Hc1|by rewrite <- Hl| |by apply ctx_ok_idle].
  right. rewrite (in_use_view c Hu). by constructor.
Qed.

Lemma query_on_track l0 msg s : on_track TFM_FWU_QUERY l0 s ->
  throughout (on_track TFM_FWU_QUERY l0) (tfm_fwu_query msg) s.
Proof.
  intros Ht. unfold tfm_fwu_query. apply wp_bind, wp_fail_if; [done|intros _].
  apply wp_bind. eapply read_component_ok; [done|]. intros component x Hu8.
  apply wp_bind, wp_fail_if; [done|intros Hlt].
  apply wp_bind. apply wp_ctx_at; [|done]. cbn [fwu_ctx set_fs_io]. intros c Hpos Hc. cbv zeta.
  pose proof (on_record_of s component c (proj1 (proj2 Ht)) Hpos Hc) as Hrec.
  apply wp_bind. unfold get_image_info. match goal with |- wp (on_bl (CallInfo _ _ ?q) _) _ _ _ _ => set (qi := q) end.
  set (s1 := set_fs_io x s).
  assert (forall b, on_track TFM_FWU_QUERY l0 (set_fs_bl b (log_call (CallInfo component (negb (in_use c)) qi) s1)))
    as Hc1.
  { intros b. apply on_track_call; [done|]. exists (view c). split; [done|]. unfold view. by destruct (in_use c). }
  apply wp_on_bl; [|intros; apply Hc1..]. intros [result info] b. apply wp_bind.
  destruct (result =? PSA_SUCCESS); [|apply wp_ret, wp_ret, Hc1].
  apply wp_on_io; intros; [apply wp_ret|..]; apply Hc1.
Qed.

(** ** The requests for all components *)

(** The contexts from component [i] on are those the request began with. *)
Definition intact (l0 : list tfm_fwu_ctx_t) (i : Z) (s : fwu_state B X) : Prop :=
  forall j, i <= j -> s.(fwu_ctx) !! Z.to_nat j = l0 !! Z.to_nat j.

Lemma intact_insert l0 i c s : 0 <= i -> intact l0 i s ->
  intact l0 (i + 1) (set_fwu_ctx (<[Z.to_nat i := c]> s.(fwu_ctx)) s).
Proof. intros Hi Hin j Hj. cbn [fwu_ctx set_fwu_ctx]. rewrite list_lookup_insert_ne by lia. apply Hin. lia. Qed.

(** A query of the bootloader about a component without a record. *)
Lemma query_idle_ok t l0 component info c (Q : Z * psa_fwu_component_info_t -> fwu_state B X -> Prop) s :
  on_track t l0 s -> 0 <= component -> s.(fwu_ctx) !! Z.to_nat component = Some c -> c.(in_use) = false ->
  (forall r s', on_track t l0 s' -> s'.(fwu_ctx) = s.(fwu_ctx) -> Q r s') ->
  wp (get_image_info component true false info) Q (fun _ => on_track t l0) (fun _ => on_track t l0) s.
Proof.
  intros Ht Hpos Hc Hu HQ.
  assert (forall b, on_track t l0 (set_fs_bl b (log_call (CallInfo component true false) s))) as Hc1.
  { intros b. apply on_track_call; [done|]. exists None. split; [|done].
    rewrite <- (not_in_use c Hu). apply (on_record_of s component c (proj1 (proj2 Ht)) Hpos Hc). }
  apply wp_on_bl; [|intros; apply Hc1..]. intros r b. apply HQ; [apply Hc1|done].
Qed.

Lemma install_check_ok l0 i acc s : 0 <= i -> on_track TFM_FWU_INSTALL l0 s -> s.(fwu_ctx) = l0 ->
  acc.1 = found_below PSA_FWU_CANDIDATE l0 i ->
  wp (install_check i acc) (fun acc' s' => on_track TFM_FWU_INSTALL l0 s' /\ s'.(fwu_ctx) = l0 /\
      acc'.1 = found_below PSA_FWU_CANDIDATE l0 (i + 1))
    (fun _ => on_track TFM_FWU_INSTALL l0) (fun _ => on_track TFM_FWU_INSTALL l0) s.
Proof.
  intros Hi Ht Hl Hacc. destruct acc as [cands info]. cbn [fst] in Hacc. unfold install_check.
  apply wp_bind. apply wp_ctx_at; [|done]. intros c Hpos Hc. rewrite found_below_step by done.
  assert (is_in PSA_FWU_CANDIDATE l0 i = c.(in_use) && (c.(component_state) =? PSA_FWU_CANDIDATE)) as Hin.
  { unfold is_in. by rewrite <- Hl, Hc. }
  rewrite Hin, <- Hacc. destruct (in_use c) eqn:Hu; cbn [andb]; cbv zeta.
  - destruct (_ || _); [by apply wp_throw|]. destruct (_ =? PSA_FWU_CANDIDATE); apply wp_ret.
    + done.
    + by rewrite app_nil_r.
  - apply wp_bind. eapply query_idle_ok; [done..|]. intros [status info'] s1 Ht1 Hl1.
    apply wp_bind, wp_fail_if; [done|intros _]. apply wp_bind. eapply info_state_ok; [done|]. intros st _.
    apply wp_bind, wp_fail_if; [done|intros _]. apply wp_ret. rewrite app_nil_r. split_and!; [done|congruence|done].
Qed.

(** Every component of a list makes one move out of state [v]. *)
Definition to_move (t v : Z) (l0 : list tfm_fwu_ctx_t) (rest : list Z) (s : fwu_state B X) : Prop :=
  on_track t l0 s /\ NoDup rest /\ forall component, In component rest -> 0 <= component /\
    exists c, s.(fwu_ctx) !! Z.to_nat component = Some c /\ view c = Some v.

Lemma to_move_next t v l0 component rest s e st : to_move t v l0 (component :: rest) s ->
  (forall c0, l0 !! Z.to_nat component = Some c0 -> step_of t c0 {| cx_error := e; component_state := st; in_use := true |}) ->
  PSA_FWU_WRITING <= st <= PSA_FWU_UPDATED ->
  to_move t v l0 rest (set_fwu_ctx (<[Z.to_nat component :=
    {| cx_error := e; component_state := st; in_use := true |}]> s.(fwu_ctx)) s).
Proof.
  intros (Ht & Hnd & Hin) Hstep Hst. inversion Hnd as [|? ? Hni Hnd2]; subst.
  destruct (Hin component) as (Hpos & c & Hc & Hv); [by left|].
  assert (exists c0, l0 !! Z.to_nat component = Some c0) as [c0 Hc0].
  { apply lookup_lt_is_Some_2. rewrite <- (moves_length _ _ _ (proj1 Ht)). by eapply lookup_lt_Some. }
  split_and!; [|done|].
  - eapply on_track_put; [done|exact Hc0|by apply Hstep|by apply ctx_ok_state].
  - intros component' Hin'. destruct (Hin component') as (Hpos' & c' & Hc' & Hv'); [by right|].
    split; [done|]. exists c'. cbn [fwu_ctx set_fwu_ctx]. rewrite list_lookup_insert_ne; [done|].
    intros Heq. apply Hni. apply list_elem_of_In. by replace component with component' by lia.
Qed.

Lemma in_state_in_use c v : view c = Some v -> c.(in_use) = true /\ c.(component_state) = v.
Proof. unfold view. destruct (in_use c); by intros [= ->]. Qed.

Lemma install_outcome_ok l0 status component rest s :
  (forall c, In c (component :: rest) -> is_in PSA_FWU_CANDIDATE l0 c = true) ->
  to_move TFM_FWU_INSTALL PSA_FWU_CANDIDATE l0 (component :: rest) s ->
  wp (install_outcome status component) (fun _ s' => to_move TFM_FWU_INSTALL PSA_FWU_CANDIDATE l0 rest s')
    (fun _ => on_track TFM_FWU_INSTALL l0) (fun _ => on_track TFM_FWU_INSTALL l0) s.
Proof.
  intros Hcand Htm. pose proof Htm as (Ht & _ & Hin). destruct (Hin component) as (Hpos & c & Hc & Hv); [by left|].
  apply in_state_in_use in Hv as [Hu Hst].
  assert (forall e st, st = installed_state \/ st = PSA_FWU_STAGED \/ st = PSA_FWU_FAILED ->
    to_move TFM_FWU_INSTALL PSA_FWU_CANDIDATE l0 rest (set_fwu_ctx (<[Z.to_nat component :=
      {| cx_error := e; component_state := st; in_use := true |}]> s.(fwu_ctx)) s)) as Hnext.
  { intros e st Hs. eapply to_move_next; [done| |].
    - intros c0 Hc0. right. destruct (proj1 (is_in_spec _ _ _) (Hcand component (or_introl eq_refl))) as (c1 & Hc1 & Hv1).
      simplify_eq. rewrite Hv1. by constructor.
    - destruct Hs as [->|[->| ->]]; [|done..]. unfold installed_state. by destruct FWU_SUPPORT_TRIAL_STATE. }
  unfold install_outcome. destruct (status =? PSA_SUCCESS).
  - eapply wp_run; [by apply set_state_run|]. rewrite Hu. apply Hnext. by left.
  - destruct (_ && _).
    + apply wp_bind. eapply wp_run; [by apply set_state_run|].
      eapply wp_run; [apply set_error_run; [done|by eapply inserted]|].
      rewrite set_fwu_ctx_twice. cbn [fwu_ctx set_fwu_ctx]. rewrite list_insert_insert_eq. rewrite Hu.
      apply Hnext. by right; right.
    + eapply wp_run; [by apply set_state_run|]. rewrite Hu. apply Hnext. by right; left.
Qed.

Lemma install_on_track l0 s : on_track TFM_FWU_INSTALL l0 s -> s.(fwu_ctx) = l0 ->
  throughout (on_track TFM_FWU_INSTALL l0) tfm_fwu_install s.
Proof.
  intros Ht Hl. unfold tfm_fwu_install. apply wp_bind.
  apply (wp_fold_range (fun i acc s' => on_track TFM_FWU_INSTALL l0 s' /\ s'.(fwu_ctx) = l0 /\
      acc.1 = found_below PSA_FWU_CANDIDATE l0 i)); [pose proof components_u8; lia|done| |].
  { intros i acc s' Hi (Ht' & Hl' & Hacc). apply install_check_ok; [lia|done..]. }
  intros [cands info] s1 (Ht1 & Hl1 & Hacc). cbn [fst] in Hacc. fold (components_in PSA_FWU_CANDIDATE l0) in Hacc.
  apply wp_bind, wp_fail_if; [done|intros Hne]. apply bool_decide_eq_false in Hne. apply wp_bind.
  assert (forall b, on_track TFM_FWU_INSTALL l0 (set_fs_bl b (log_call (CallInstall cands) s1))) as Hc1.
  { intros b. apply on_track_call; [done|]. split; [done|]. cbn [snd]. by rewrite Hl1. }
  apply wp_on_bl; [|intros; apply Hc1..]. intros status b.
  destruct (status =? PSA_ERROR_DEPENDENCY_NEEDED); [apply wp_ret, Hc1|]. apply wp_bind.
  apply (wp_for_components (fun rest s' => (forall c, In c rest -> is_in PSA_FWU_CANDIDATE l0 c = true) /\
      to_move TFM_FWU_INSTALL PSA_FWU_CANDIDATE l0 rest s')).
  - rewrite Hacc. assert (forall c, In c (components_in PSA_FWU_CANDIDATE l0) -> is_in PSA_FWU_CANDIDATE l0 c = true)
      as Hall by (intros c Hc; by apply in_components_in in Hc as [_ Hc]).
    split; [done|]. rewrite <- Hacc at 2. split; [apply Hc1|]. split; [apply NoDup_components_in|].
    intros component Hin. split; [apply in_components_in in Hin; lia|].
    cbn [fwu_ctx set_fs_bl log_call]. rewrite Hl1. by apply is_in_spec, Hall.
  - intros c rest s' [Hall Htm]. eapply wp_mono; [by apply install_outcome_ok|..]; cbn beta; [|done..].
    intros _ s2 Htm'. split; [|done]. intros c' Hc'. apply Hall. by right.
  - intros s' [_ Htm]. apply wp_ret. apply Htm.
Qed.

(** A component found on trial was so before, or had no record. *)
Lemma trial_origin t l0 l i c : t = TFM_FWU_ACCEPT \/ t = TFM_FWU_REJECT -> moves t l0 l -> l !! i = Some c ->
  view c = Some PSA_FWU_TRIAL ->
  forall c0, l0 !! i = Some c0 -> view c0 = None \/ view c0 = Some PSA_FWU_TRIAL.
Proof.
  intros Ht Hm Hc Hv c0 Hc0. destruct (Forall2_lookup_lr _ _ _ _ _ _ Hm Hc0 Hc) as [->|Hmv]; [by right|].
  rewrite Hv in Hmv. destruct (view c0) as [st|]; [|by left].
  inversion Hmv; subst; try done; destruct Ht; try done.
  all: match goal with H1 : _ \/ _ |- _ => destruct H1; subst; done end.
Qed.

Lemma adopt_ok t l0 i c s : t = TFM_FWU_ACCEPT \/ t = TFM_FWU_REJECT -> on_track t l0 s -> 0 <= i ->
  intact l0 i s -> s.(fwu_ctx) !! Z.to_nat i = Some c -> c.(in_use) = false ->
  on_track t l0 (set_fwu_ctx (<[Z.to_nat i :=
    {| cx_error := c.(cx_error); component_state := PSA_FWU_TRIAL; in_use := true |}]> s.(fwu_ctx)) s).
Proof.
  intros Ht Htr Hi Hin Hc Hu. eapply on_track_put; [done|by rewrite <- Hin, Hc by lia| |by apply ctx_ok_state].
  right. rewrite (not_in_use c Hu). by constructor.
Qed.

Lemma accept_check_ok l0 i acc s : 0 <= i -> on_track TFM_FWU_ACCEPT l0 s -> intact l0 i s ->
  acc.1 = found_below PSA_FWU_TRIAL s.(fwu_ctx) i ->
  wp (accept_check i acc) (fun acc' s' => on_track TFM_FWU_ACCEPT l0 s' /\ intact l0 (i + 1) s' /\
      acc'.1 = found_below PSA_FWU_TRIAL s'.(fwu_ctx) (i + 1))
    (fun _ => on_track TFM_FWU_ACCEPT l0) (fun _ => on_track TFM_FWU_ACCEPT l0) s.
Proof.
  intros Hi Ht Hin Hacc. destruct acc as [trials info]. cbn [fst] in Hacc. unfold accept_check.
  assert (intact l0 (i + 1) s) as Hin1 by (intros j Hj; apply Hin; lia).
  apply wp_bind. apply wp_ctx_at; [|done]. intros c Hpos Hc.
  assert (is_in PSA_FWU_TRIAL s.(fwu_ctx) i = c.(in_use) && (c.(component_state) =? PSA_FWU_TRIAL)) as Hisin.
  { unfold is_in. by rewrite Hc. }
  destruct (in_use c) eqn:Hu; cbn [andb] in Hisin.
  - destruct (_ =? PSA_FWU_TRIAL); apply wp_ret; cbn [fst]; rewrite found_below_step, Hisin, <- Hacc by done.
    + done.
    + by rewrite app_nil_r.
  - apply wp_bind. eapply query_idle_ok; [done..|]. intros [status info'] s1 Ht1 Hl1.
    apply wp_bind, wp_fail_if; [done|intros _]. apply wp_bind. eapply info_state_ok; [done|]. intros st _.
    assert (intact l0 i s1) as Hin' by (intros j Hj; rewrite Hl1; by apply Hin).
    rewrite <- Hl1 in *. destruct (st =? PSA_FWU_TRIAL).
    + eapply wp_use_then_state; [done|exact Hc|]. apply wp_ret. cbn [fst]. split_and!.
      * apply adopt_ok; (done || by left).
      * by apply intact_insert.
      * cbn [fwu_ctx set_fwu_ctx]. rewrite found_below_step, found_below_insert, <- Hacc by done.
        unfold is_in. by rewrite (inserted _ _ c).
    + apply wp_ret. cbn [fst]. rewrite found_below_step, Hisin, app_nil_r by done. split_and!; [done| |done].
      intros j Hj. apply Hin'. lia.
Qed.

Lemma accept_on_track l0 s : on_track TFM_FWU_ACCEPT l0 s -> s.(fwu_ctx) = l0 ->
  throughout (on_track TFM_FWU_ACCEPT l0) tfm_fwu_accept s.
Proof.
  intros Ht Hl. unfold tfm_fwu_accept. destruct FWU_SUPPORT_TRIAL_STATE; [|by apply wp_throw]. apply wp_bind.
  apply (wp_fold_range (fun i acc s' => on_track TFM_FWU_ACCEPT l0 s' /\ intact l0 i s' /\
      acc.1 = found_below PSA_FWU_TRIAL s'.(fwu_ctx) i)); [pose proof components_u8; lia| | |].
  { split_and!; [done| |done]. intros j _. by rewrite Hl. }
  { intros i acc s' Hi (Ht' & Hin & Hacc). apply accept_check_ok; [lia|done..]. }
  intros [trials info] s1 (Ht1 & _ & Hacc). cbn [fst] in Hacc. fold (components_in PSA_FWU_TRIAL s1.(fwu_ctx)) in Hacc.
  apply wp_bind, wp_fail_if; [done|intros Hne]. apply bool_decide_eq_false in Hne. apply wp_bind.
  assert (forall b, on_track TFM_FWU_ACCEPT l0 (set_fs_bl b (log_call (CallAccept trials) s1))) as Hc1.
  { intros b. apply on_track_call; [done|]. by split. }
  apply wp_on_bl; [|intros; apply Hc1..]. intros status b.
  apply wp_bind, wp_fail_if; [intros _; apply Hc1|intros _]. apply wp_bind.
  apply (wp_for_components (to_move TFM_FWU_ACCEPT PSA_FWU_TRIAL l0)).
  - rewrite Hacc. rewrite <- Hacc at 2. split; [apply Hc1|]. split; [apply NoDup_components_in|].
    intros component Hin. apply in_components_in in Hin as [Hr Hin]. split; [lia|]. by apply is_in_spec in Hin.
  - intros c rest s' Htm. pose proof Htm as (Ht' & _ & Hin). destruct (Hin c) as (Hpos & cx & Hcx & Hv); [by left|].
    eapply wp_run; [by apply set_state_run|]. apply in_state_in_use in Hv as Hv'. destruct Hv' as [Hu _]. rewrite Hu.
    eapply to_move_next; [done| |done]. intros c0 Hc0. right. constructor.
    eapply trial_origin; [by left|apply Ht'|exact Hcx|done|done].
  - intros s' Htm. apply wp_ret. apply Htm.
Qed.

(** The rejection of a component on trial. *)
Lemma reject_trial_ok l0 error i info c s : 0 <= i -> on_track TFM_FWU_REJECT l0 s -> intact l0 (i + 1) s ->
  s.(fwu_ctx) !! Z.to_nat i = Some c -> view c = Some PSA_FWU_TRIAL ->
  wp (reject_trial error i info) (fun _ s' => on_track TFM_FWU_REJECT l0 s' /\ intact l0 (i + 1) s')
    (fun _ => on_track TFM_FWU_REJECT l0) (fun _ => on_track TFM_FWU_REJECT l0) s.
Proof.
  intros Hi Ht Hin Hc Hv. unfold reject_trial. apply wp_bind.
  assert (forall b, on_track TFM_FWU_REJECT l0 (set_fs_bl b (log_call (CallRejectTrial i) s))) as Hc1.
  { intros b. apply on_track_call; [done|]. unfold call_right. cbn [fst snd]. rewrite <- Hv.
    apply (on_record_of s i c (proj1 (proj2 Ht)) Hi Hc). }
  pose proof (in_state_in_use _ _ Hv) as [Hu _].
  assert (exists c0, l0 !! Z.to_nat i = Some c0) as [c0 Hc0].
  { apply lookup_lt_is_Some_2. rewrite <- (moves_length _ _ _ (proj1 Ht)). by eapply lookup_lt_Some. }
  pose proof (trial_origin _ _ _ _ _ (or_intror eq_refl) (proj1 Ht) Hc Hv c0 Hc0) as Hfrom.
  apply wp_on_bl; [|intros; apply Hc1..]. intros status b.
  assert (forall st, st = PSA_FWU_REJECTED \/ st = PSA_FWU_FAILED ->
    let s' := set_fs_bl b (log_call (CallRejectTrial i) s) in
    let s2 := set_fwu_ctx (<[Z.to_nat i := {| cx_error := error; component_state := st; in_use := c.(in_use) |}]>
       s'.(fwu_ctx)) s' in
    on_track TFM_FWU_REJECT l0 s2 /\ intact l0 (i + 1) s2) as Hend.
  { intros st Hst s' s2. split.
    - apply (on_track_put _ _ _ c0); [apply Hc1|done| |].
      + right. rewrite Hu. by constructor.
      + apply ctx_ok_state. by destruct Hst as [->| ->].
    - intros j Hj. cbn [fwu_ctx set_fwu_ctx set_fs_bl log_call s2 s']. rewrite list_lookup_insert_ne by lia. by apply Hin. }
  destruct (_ || _); [|destruct (status =? PSA_SUCCESS); [|apply wp_throw, Hc1]].
  - eapply wp_state_then_error; [done|exact Hc|]. apply wp_ret. apply Hend. by left.
  - eapply wp_state_then_error; [done|exact Hc|]. apply wp_ret. apply Hend. by right.
Qed.

Lemma reject_check_ok l0 error i l s : 0 <= i -> on_track TFM_FWU_REJECT l0 s -> intact l0 i s ->
  wp (reject_check error i l) (fun _ s' => on_track TFM_FWU_REJECT l0 s' /\ intact l0 (i + 1) s')
    (fun _ => on_track TFM_FWU_REJECT l0) (fun _ => on_track TFM_FWU_REJECT l0) s.
Proof.
  intros Hi Ht Hin. unfold reject_check.
  assert (intact l0 (i + 1) s) as Hin1 by (intros j Hj; apply Hin; lia).
  apply wp_bind. apply wp_ctx_at; [|done]. intros c Hpos Hc. destruct (in_use c) eqn:Hu.
  - destruct (Z.eqb_spec c.(component_state) PSA_FWU_STAGED) as [Hst|Hst].
    + eapply wp_state_then_error; [done|exact Hc|]. rewrite Hu. set (s1 := set_fwu_ctx _ s).
      assert (on_track TFM_FWU_REJECT l0 s1) as Ht1.
      { eapply on_track_put; [done|by rewrite <- Hin, Hc by lia| |by apply ctx_ok_state].
        right. rewrite (in_use_view c Hu), Hst. constructor. }
      apply wp_bind.
      assert (forall b, on_track TFM_FWU_REJECT l0 (set_fs_bl b (log_call (CallRejectStaged i) s1))) as Hc1.
      { intros b. apply on_track_call; [done|]. split; [apply (on_record_of s i c (proj1 (proj2 Ht)) Hpos Hc)|].
        cbn [snd s1 fwu_ctx set_fwu_ctx]. eexists. split; [by eapply inserted|done]. }
      apply wp_on_bl; [|intros; apply Hc1..]. intros status b.
      apply wp_bind, wp_fail_if; [intros _; apply Hc1|intros _]. apply wp_ret. split; [apply Hc1|].
      by apply (intact_insert l0 i _ s).
    + destruct (Z.eqb_spec c.(component_state) PSA_FWU_TRIAL) as [Htr|Htr]; [|by apply wp_ret].
      eapply reject_trial_ok; [done..|exact Hc|]. by rewrite (in_use_view c Hu), Htr.
  - apply wp_bind. eapply query_idle_ok; [done..|]. intros [status info'] s1 Ht1 Hl1.
    apply wp_bind, wp_fail_if; [done|intros _]. apply wp_bind. eapply info_state_ok; [done|]. intros st _.
    assert (intact l0 i s1) as Hin' by (intros j Hj; rewrite Hl1; by apply Hin).
    rewrite <- Hl1 in *. destruct (st =? PSA_FWU_TRIAL).
    + eapply wp_use_then_state; [done|exact Hc|].
      eapply reject_trial_ok; [done|by apply adopt_ok; (done || by right)|by apply intact_insert|by eapply inserted|done].
    + apply wp_ret. split; [done|]. intros j Hj. apply Hin'. lia.
Qed.

Lemma reject_on_track l0 msg s : on_track TFM_FWU_REJECT l0 s -> s.(fwu_ctx) = l0 ->
  throughout (on_track TFM_FWU_REJECT l0) (tfm_fwu_reject msg) s.
Proof.
  intros Ht Hl. unfold tfm_fwu_reject. apply wp_bind, wp_fail_if; [done|intros _].
  apply wp_bind. apply wp_on_io; [|done..]. intros d x. apply wp_bind, wp_fail_if; [done|intros _]. cbv zeta.
  apply wp_bind.
  apply (wp_fold_range (fun i _ s' => on_track TFM_FWU_REJECT l0 s' /\ intact l0 i s')); [pose proof components_u8; lia| | |].
  { split; [done|]. intros j _. by rewrite <- Hl. }
  { intros i l s' Hi [Ht' Hin]. apply reject_check_ok; [lia|done..]. }
  intros l s1 [Ht1 _]. apply wp_bind, wp_fail_if; [done|intros _]. by apply wp_ret.
Qed.

Lemma handler_on_track msg s : on_track msg.(fm_type) s.(fwu_ctx) s ->
  throughout (on_track msg.(fm_type) s.(fwu_ctx)) (handler msg) s.
Proof.
  intros Ht. unfold handler. cbv zeta.
  destruct (Z.eqb_spec msg.(fm_type) TFM_FWU_START) as [E|_]; [rewrite E in *; by apply start_on_track|].
  destruct (Z.eqb_spec msg.(fm_type) TFM_FWU_WRITE) as [E|_]; [rewrite E in *; by apply write_on_track|].
  destruct (Z.eqb_spec msg.(fm_type) TFM_FWU_FINISH) as [E|_]; [rewrite E in *; by apply finish_on_track|].
  destruct (Z.eqb_spec msg.(fm_type) TFM_FWU_INSTALL) as [E|_]; [rewrite E in *; by apply install_on_track|].
  destruct (Z.eqb_spec msg.(fm_type) TFM_FWU_CANCEL) as [E|_]; [rewrite E in *; by apply cancel_on_track|].
  destruct (Z.eqb_spec msg.(fm_type) TFM_FWU_CLEAN) as [E|_]; [rewrite E in *; by apply clean_on_track|].
  destruct (Z.eqb_spec msg.(fm_type) TFM_FWU_QUERY) as [E|_]; [rewrite E in *; by apply query_on_track|].
  destruct (Z.eqb_spec msg.(fm_type) TFM_FWU_REQUEST_REBOOT) as [E|_].
  { unfold tfm_fwu_request_reboot. apply wp_bind. apply wp_on_io; intros; [by apply wp_ret|done..]. }
  destruct (Z.eqb_spec msg.(fm_type) TFM_FWU_ACCEPT) as [E|_]; [rewrite E in *; by apply accept_on_track|].
  destruct (Z.eqb_spec msg.(fm_type) TFM_FWU_REJECT) as [E|_]; [rewrite E in *; by apply reject_on_track|].
  by apply wp_throw.
Qed.

(** ** The life of a component *)

(** The messages of a run, in order; a handler that does not return ends it. *)
Inductive run : list fwu_msg -> fwu_state B X -> fwu_state B X -> Prop :=
  | run_nil s : run [] s s
  | run_last msg s o s' : tfm_firmware_update_service_sfn msg s = (o, s') -> run [msg] s s'
  | run_cons msg msgs s status s1 s' :
      tfm_firmware_update_service_sfn msg s = (Val status, s1) -> run msgs s1 s' -> run (msg :: msgs) s s'.

Lemma request_on_track msg s o s' : on_track msg.(fm_type) s.(fwu_ctx) s ->
  tfm_firmware_update_service_sfn msg s = (o, s') -> on_track msg.(fm_type) s.(fwu_ctx) s'.
Proof.
  intros Ht Hrun. pose proof (handler_on_track msg s Ht) as Hw. unfold wp in Hw.
  unfold tfm_firmware_update_service_sfn, returned in Hrun.
  destruct (handler msg s) as [[a|e|h] s1]; by injection Hrun as <- <-.
Qed.

Lemma reached_ok msgs s s' : run msgs s s' -> ctxs_ok s.(fwu_ctx) -> Forall call_right s.(fs_calls) ->
  ctxs_ok s'.(fwu_ctx) /\ Forall call_right s'.(fs_calls).
Proof.
  assert (forall msg s o s', ctxs_ok s.(fwu_ctx) -> Forall call_right s.(fs_calls) ->
    tfm_firmware_update_service_sfn msg s = (o, s') -> ctxs_ok s'.(fwu_ctx) /\ Forall call_right s'.(fs_calls)) as Hone.
  { intros msg s0 o s1 Hok Hc Hr. eapply request_on_track in Hr; [|by split_and!; [apply moves_refl|..]].
    destruct Hr as (_ & ? & ?). done. }
  induction 1 as [s0|msg s0 o s1 Hr|msg msgs s0 st s1 s2 Hr Hrun IH]; intros Hok Hc; [done|by eapply Hone|].
  destruct (Hone _ _ _ _ Hok Hc Hr) as [Hok1 Hc1]. by apply IH.
Qed.

Lemma initial_ctx_ok : ctxs_ok initial_ctx.
Proof.
  split; [unfold initial_ctx; rewrite length_replicate; pose proof components_u8; lia|].
  apply Forall_replicate. by intros ?.
Qed.

(** C22: the components live by the diagram of the specification. After a reset and
    whatever messages (of any type, with any contents), whatever the bootloader and the
    SPM answered to the service, and even if a call never returned: a component on
    record is in one of the states of an update, never in READY, so that the branch of
    [tfm_fwu_start] for such a component is never taken with success; and the next
    request moves every component along one edge of the diagram that belongs to the
    type of the request, or leaves it exactly as it was. In particular a type the service
    does not know, a query and a write change no component, nothing leaves REJECTED but a
    reset, and only a cancelled, failed or accepted update can be cleaned. *)
Theorem components_follow_diagram msgs s s' msg o s'' :
  s.(fwu_ctx) = initial_ctx -> s.(fs_calls) = [] -> run msgs s s' ->
  tfm_firmware_update_service_sfn msg s' = (o, s'') ->
  ctxs_ok s'.(fwu_ctx) /\ moves msg.(fm_type) s'.(fwu_ctx) s''.(fwu_ctx).
Proof.
  intros Hl Hc Hrun Hm. destruct (reached_ok msgs s s' Hrun) as [Hok Hc'].
  { rewrite Hl. apply initial_ctx_ok. } { by rewrite Hc. }
  split; [done|]. eapply request_on_track in Hm; [apply Hm|]. split_and!; [apply moves_refl|done..].
Qed.

End Lifecycle.
