(* ===== verification/McuBoot.v ===== *)
(** Firmware update: the bootloader interface on MCUboot
    ([bootloader/mcuboot/tfm_mcuboot_fwu.c]).

    The partition works on the image slots through the flash areas of [FlashMap] and
    learns the versions of the running images from the boot data of [BootData].  What
    the MCUboot library provides ([bootutil], the layout of an image) and the hash
    functions of the crypto service are parameters. *)

From stdpp Require Import base list numbers gmap.
From S2P Require Import Prelude FlashNor FlashMap BootData FwuTypes.

Definition PSA_ALG_SHA_256 : Z := 33554441.

(** [struct image_version] *)
Record image_version := {
  iv_major : Z;
  iv_minor : Z;
  iv_revision : Z;
  iv_build_num : Z;
}.

(** The build: which flash areas are the slots, whether the running image can be on
    trial, whether accepting it needs a write, and the layout of an image and its trailer
    ([bootutil/image.h], [bootutil_priv.h]). *)
Class McuBuild := {
  FLASH_AREA_0_ID : Z;
  FLASH_AREA_1_ID : Z;
  FLASH_AREA_2_ID : Z;
  FLASH_AREA_3_ID : Z;
  swap_upgrade : bool;      (* neither DIRECT_XIP nor RAM_LOAD nor OVERWRITE_ONLY *)
  confirm_needed : bool;    (* DIRECT_XIP with REVERT, or a SWAP strategy *)
  BOOT_MAGIC_SZ : Z;
  BOOT_MAX_ALIGN : Z;
  BOOT_MAGIC_ALIGN_SIZE : Z;
  BOOT_TMPBUF_SZ : Z;
  BOOT_FLAG_SET : Z;
  ALIGN_DOWN : Z -> Z -> Z;
  ALIGN_UP : Z -> Z -> Z;
  IMAGE_MAGIC : Z;
  IMAGE_TLV_DEPENDENCY : Z;
  TFM_FWU_MAX_DIGEST_SIZE : Z;
  TFM_SP_FWU : Z;
  sizeof_image_version : Z;
  sizeof_image_header : Z;
  sizeof_image_dependency : Z;
  version_of : bytes -> image_version;
  header_magic : bytes -> Z;
  header_version : bytes -> image_version;
  dep_image_id : bytes -> Z;
  dep_min_version : bytes -> image_version;
  dep_on_stack : bytes;     (* the local variable [dep] before anything is read to it *)
}.

(** [bootutil] on the flash device; an iterator is an abstract value. *)
Class Bootutil (H : Type) := {
  tlv_iter : Type;
  boot_set_pending_multi : Z -> bool -> M H Z;
  boot_set_confirmed_multi : Z -> M H Z;
  boot_read_image_ok : flash_area -> M H (Z * Z);
  bootutil_tlv_iter_begin : bytes -> flash_area -> Z -> bool -> M H (Z * tlv_iter);
  bootutil_tlv_iter_next : tlv_iter -> M H (Z * tlv_iter * Z * Z);
}.

(** A hash operation of the crypto service. *)
Class HashService (G : Type) := {
  psa_hash_setup : Z -> M G Z;
  psa_hash_update : bytes -> M G Z;
  psa_hash_finish : Z -> M G (Z * bytes);
}.

(** [tfm_fwu_mcuboot_ctx_t] *)
Record tfm_fwu_mcuboot_ctx_t := {
  fap : option flash_area;
  loaded_size : Z;
}.

(** [boot_shared_data] is the buffer [bs_buf] of the partition. *)
Record mcu_state (H G : Type) := {
  mcuboot_ctx : list tfm_fwu_mcuboot_ctx_t;
  mc_boot : boot_state;
  mc_flash : H;
  mc_hash : G;
}.
Arguments mcuboot_ctx {H G} _.
Arguments mc_boot {H G} _.
Arguments mc_flash {H G} _.
Arguments mc_hash {H G} _.

(** Comparison of versions, not including the build number. *)
Definition is_version_greater_or_equal (v1 v2 : image_version) : bool :=
  if v1.(iv_major) >? v2.(iv_major) then true
  else if v1.(iv_major) <? v2.(iv_major) then false
  else if v1.(iv_minor) >? v2.(iv_minor) then true
  else if v1.(iv_minor) <? v2.(iv_minor) then false
  else v1.(iv_revision) >=? v2.(iv_revision).

Section Mcuboot.
Context {H G : Type} `{!ArmDriverFlash H} `{!FlashDrivers H} `{!FlashMapBuild} `{!FwuBuild} `{!BootBuild} `{!McuBuild}
  `{!Bootutil H} `{!HashService G}.
Abbreviation MCU := (M (mcu_state H G)).

Definition set_mcuboot_ctx (l : list tfm_fwu_mcuboot_ctx_t) (s : mcu_state H G) : mcu_state H G :=
  {| mcuboot_ctx := l; mc_boot := s.(mc_boot); mc_flash := s.(mc_flash); mc_hash := s.(mc_hash) |}.
Definition set_mc_boot (b : boot_state) (s : mcu_state H G) : mcu_state H G :=
  {| mcuboot_ctx := s.(mcuboot_ctx); mc_boot := b; mc_flash := s.(mc_flash); mc_hash := s.(mc_hash) |}.
Definition set_mc_flash (h : H) (s : mcu_state H G) : mcu_state H G :=
  {| mcuboot_ctx := s.(mcuboot_ctx); mc_boot := s.(mc_boot); mc_flash := h; mc_hash := s.(mc_hash) |}.
Definition set_mc_hash (g : G) (s : mcu_state H G) : mcu_state H G :=
  {| mcuboot_ctx := s.(mcuboot_ctx); mc_boot := s.(mc_boot); mc_flash := s.(mc_flash); mc_hash := g |}.

Definition on_flash {A} (m : M H A) : MCU A := fun s =>
  let '(r, h) := m s.(mc_flash) in (r, set_mc_flash h s).
Definition on_hash {A} (m : M G A) : MCU A := fun s =>
  let '(r, g) := m s.(mc_hash) in (r, set_mc_hash g s).

(** The status of a function that may return early. *)
Definition as_status (m : MCU Z) : MCU Z := fun s =>
  match m s with
  | (Err e, s') => (Val e, s')
  | r => r
  end.

Definition MCUBOOT_IMAGE_NUMBER : Z := FWU_COMPONENT_NUMBER.
Definition FLASH_AREA_IMAGE_PRIMARY (x : Z) : Z :=
  if MCUBOOT_IMAGE_NUMBER =? 1 then FLASH_AREA_0_ID
  else if x =? 0 then FLASH_AREA_0_ID else if x =? 1 then FLASH_AREA_1_ID else 255.
Definition FLASH_AREA_IMAGE_SECONDARY (x : Z) : Z :=
  if MCUBOOT_IMAGE_NUMBER =? 1 then FLASH_AREA_2_ID
  else if x =? 0 then FLASH_AREA_2_ID else if x =? 1 then FLASH_AREA_3_ID else 255.
Definition MAX_IMAGE_INFO_LENGTH : Z :=
  MCUBOOT_IMAGE_NUMBER * (sizeof_image_version + SHARED_DATA_ENTRY_HEADER_SIZE).

(** [mcuboot_ctx[component]] *)
Definition mctx_at (component : Z) : MCU tfm_fwu_mcuboot_ctx_t :=
  s ← getS;
  match (if component <? 0 then None else s.(mcuboot_ctx) !! Z.to_nat component) with
  | Some c => mret c
  | None => stop OutOfBounds
  end.
Definition put_mctx (component : Z) (c : tfm_fwu_mcuboot_ctx_t) : MCU unit :=
  _ ← mctx_at component;
  modifyS (fun s => set_mcuboot_ctx (<[Z.to_nat component := c]> s.(mcuboot_ctx)) s).
Definition set_fap (component : Z) (f : option flash_area) : MCU unit :=
  c ← mctx_at component; put_mctx component {| fap := f; loaded_size := c.(loaded_size) |}.
Definition set_loaded_size (component n : Z) : MCU unit :=
  c ← mctx_at component; put_mctx component {| fap := c.(fap); loaded_size := n |}.

(** [if (flash_area_open(id, &fap) != 0) return e;] *)
Definition open_area (id e : Z) : MCU flash_area :=
  match flash_area_open id with
  | inl _ => throw e
  | inr a => mret a
  end.

(** ** The versions of the running images *)

Definition version_step (component tlv_end : Z) (tlv_curr : Z) : MCU (Z + image_version) :=
  if tlv_curr <? tlv_end then
    s ← getS;
    let data := s.(mc_boot).(bs_buf) in
    e ← read_entry data tlv_curr;
    if (GET_FWU_CLAIM e.(tlv_type) =? SW_VERSION) && (GET_FWU_MODULE e.(tlv_type) =? component) then
      _ ← fail_if (negb (e.(tlv_len) =? sizeof_image_version)) PSA_ERROR_DATA_CORRUPT;
      d ← read_at data (tlv_curr + SHARED_DATA_ENTRY_HEADER_SIZE) e.(tlv_len);
      mret (inr (version_of d))
    else mret (inl (tlv_curr + (SHARED_DATA_ENTRY_HEADER_SIZE + e.(tlv_len))))
  else throw PSA_ERROR_DATA_CORRUPT.

Definition get_active_image_version (component : Z) : MCU image_version :=
  s ← getS;
  let data := s.(mc_boot).(bs_buf) in
  magic ← read_at data 0 2;
  _ ← fail_if (negb (of_le16 magic =? SHARED_DATA_TLV_INFO_MAGIC)) PSA_ERROR_DATA_CORRUPT;
  tot ← read_at data 2 2;
  while_loop (version_step component (of_le16 tot)) SHARED_DATA_HEADER_SIZE.

(** The partition asks the SPM for the boot data with its own buffer. *)
Definition tfm_core_get_boot_data (major_type len : Z) : MCU unit := fun s =>
  let '(r, b) := tfm_core_get_boot_data_handler TFM_SP_FWU (fun _ => true) major_type len s.(mc_boot) in
  (r, set_mc_boot b s).

(** The result of [flash_area_driver_init] is not looked at. *)
Definition mcu_init : MCU Z := as_status (
  s ← getS;
  _ ← or_return (tfm_core_get_boot_data TLV_MAJOR_FWU (Z.of_nat (length s.(mc_boot).(bs_buf))))
        PSA_ERROR_STORAGE_FAILURE;
  _ ← on_flash flash_area_driver_init;
  mret PSA_SUCCESS).

(** ** Loading an image *)

Definition mcu_staging_area_init (component : Z) (manifest : option bytes) (manifest_size : Z) : MCU Z := as_status (
  _ ← fail_if (negb (manifest_size =? 0) || (component >=? FWU_COMPONENT_NUMBER)) PSA_ERROR_INVALID_ARGUMENT;
  f ← open_area (FLASH_AREA_IMAGE_SECONDARY component) PSA_ERROR_STORAGE_FAILURE;
  _ ← or_return (on_flash (flash_area_erase f 0 (fa_size f))) PSA_ERROR_GENERIC_ERROR;
  _ ← set_fap component (Some f);
  _ ← set_loaded_size component 0;
  mret PSA_SUCCESS).

(** [block] is never [NULL] here: it is the buffer of the service. *)
Definition mcu_load_image (component image_offset : Z) (block : bytes) : MCU Z := as_status (
  _ ← fail_if (component >=? FWU_COMPONENT_NUMBER) PSA_ERROR_INVALID_ARGUMENT;
  c ← mctx_at component;
  match c.(fap) with
  | None => throw PSA_ERROR_BAD_STATE
  | Some f =>
      _ ← or_return (on_flash (flash_area_write f image_offset block)) PSA_ERROR_STORAGE_FAILURE;
      _ ← set_loaded_size component (u32 (c.(loaded_size) + Z.of_nat (length block)));
      mret PSA_SUCCESS
  end).

(** ** The trailer of an image *)

Definition boot_magic_off (f : flash_area) : Z := u32 (flash_area_get_size f - BOOT_MAGIC_SZ).
Definition boot_image_ok_off (f : flash_area) : Z :=
  ALIGN_DOWN (u32 (boot_magic_off f - BOOT_MAX_ALIGN)) BOOT_MAX_ALIGN.

Definition erase_image_ok (f : flash_area) : MCU unit :=
  let off := boot_image_ok_off f in
  let align := ALIGN_UP BOOT_MAX_ALIGN (flash_area_align f) in
  _ ← fail_if (align >? BOOT_MAX_ALIGN) PSA_ERROR_STORAGE_FAILURE;
  or_return (on_flash (flash_area_write f off (replicate (Z.to_nat align) (flash_area_erased_val f))))
    PSA_ERROR_STORAGE_FAILURE.

Definition erase_boot_magic (f : flash_area) : MCU unit :=
  let pad_off := ALIGN_DOWN (boot_magic_off f) BOOT_MAX_ALIGN in
  or_return (on_flash (flash_area_write f pad_off
    (replicate (Z.to_nat BOOT_MAGIC_ALIGN_SIZE) (flash_area_erased_val f)))) PSA_ERROR_STORAGE_FAILURE.

Definition mcu_reject_staged_image (component : Z) : MCU Z := as_status (
  _ ← fail_if (component >=? FWU_COMPONENT_NUMBER) PSA_ERROR_INVALID_ARGUMENT;
  c ← mctx_at component;
  match c.(fap) with
  | Some f => _ ← erase_boot_magic f; mret PSA_SUCCESS
  | None => throw PSA_ERROR_DOES_NOT_EXIST
  end).

Definition mcu_reject_trial_image (component : Z) : MCU Z :=
  if component >=? FWU_COMPONENT_NUMBER then mret PSA_ERROR_INVALID_ARGUMENT else mret PSA_SUCCESS_REBOOT.

(** ** Installing *)

(** One dependency of a candidate; the bytes of the local variable [dep] stay from one
    dependency to the next. *)
Definition dependency_step (candidates : list Z) (f : flash_area) (x : tlv_iter * bytes)
  : MCU (tlv_iter * bytes + bytes) :=
  let '(it, dep_buf) := x in
  '(rc, it, off, len) ← on_flash (bootutil_tlv_iter_next it);
  if rc <? 0 then throw PSA_ERROR_STORAGE_FAILURE
  else if rc >? 0 then mret (inr dep_buf)
  else
    _ ← fail_if (len >? sizeof_image_dependency) PSA_ERROR_INVALID_ARGUMENT;
    d ← or_return (on_flash (flash_area_read f off len)) PSA_ERROR_STORAGE_FAILURE;
    let dep := splice dep_buf 0 d in
    _ ← fail_if (dep_image_id dep >? MCUBOOT_IMAGE_NUMBER) PSA_ERROR_DATA_CORRUPT;
    image_ver ← or_return (get_active_image_version (dep_image_id dep)) PSA_ERROR_STORAGE_FAILURE;
    check_pass ←
      (if is_version_greater_or_equal image_ver (dep_min_version dep) then mret true
       else if existsb (fun c => c =? dep_image_id dep) candidates then
         c ← mctx_at (dep_image_id dep);
         match c.(fap) with
         | None => mret false
         | Some f2 =>
             hdr ← or_return (on_flash (flash_area_read f2 0 sizeof_image_header)) PSA_ERROR_STORAGE_FAILURE;
             mret ((header_magic hdr =? IMAGE_MAGIC) &&
                   is_version_greater_or_equal (header_version hdr) (dep_min_version dep))
         end
       else mret false);
    _ ← fail_if (negb check_pass) PSA_ERROR_DEPENDENCY_NEEDED;
    mret (inl (it, dep)).

(** The candidates one after the other. *)
Fixpoint check_candidates (candidates : list Z) (rest : list Z) (dep_buf : bytes) : MCU unit :=
  match rest with
  | [] => mret tt
  | component :: rest' =>
      _ ← fail_if (component >=? FWU_COMPONENT_NUMBER) PSA_ERROR_INVALID_ARGUMENT;
      c ← mctx_at component;
      match c.(fap) with
      | None => throw PSA_ERROR_INVALID_ARGUMENT
      | Some f =>
          hdr ← or_return (on_flash (flash_area_read f 0 sizeof_image_header)) PSA_ERROR_STORAGE_FAILURE;
          _ ← fail_if (negb (header_magic hdr =? IMAGE_MAGIC)) PSA_ERROR_DATA_CORRUPT;
          '(rc, it) ← on_flash (bootutil_tlv_iter_begin hdr f IMAGE_TLV_DEPENDENCY true);
          _ ← fail_if (truth rc) PSA_ERROR_STORAGE_FAILURE;
          dep_buf ← while_loop (dependency_step candidates f) (it, dep_buf);
          check_candidates candidates rest' dep_buf
      end
  end.

(** Take back the candidates that were marked already; stop at the first failure. *)
Fixpoint unmark (marked : list Z) : MCU unit :=
  match marked with
  | [] => mret tt
  | component :: rest =>
      status ← mcu_reject_staged_image component;
      if status =? PSA_SUCCESS then unmark rest else mret tt
  end.

Fixpoint mark_candidates (marked rest : list Z) : MCU unit :=
  match rest with
  | [] => mret tt
  | component :: rest' =>
      rc ← on_flash (boot_set_pending_multi component false);
      if truth rc then
        _ ← unmark marked;
        throw PSA_ERROR_STORAGE_FAILURE
      else mark_candidates (marked ++ [component]) rest'
  end.

Definition mcu_install_image (candidates : list Z) : MCU Z := as_status (
  _ ← (if MCUBOOT_IMAGE_NUMBER >? 1 then check_candidates candidates candidates dep_on_stack else mret tt);
  _ ← mark_candidates [] candidates;
  mret PSA_SUCCESS_REBOOT).

(** ** Accepting *)

Fixpoint open_trials (trials : list Z) : MCU unit :=
  match trials with
  | [] => mret tt
  | component :: rest =>
      _ ← fail_if (component >=? FWU_COMPONENT_NUMBER) PSA_ERROR_INVALID_ARGUMENT;
      f ← open_area (FLASH_AREA_IMAGE_SECONDARY component) PSA_ERROR_STORAGE_FAILURE;
      _ ← set_fap component (Some f);
      open_trials rest
  end.

(** The loop that is to take the confirmations back: [n] rounds, each for the component
    whose confirmation failed. *)
Fixpoint unconfirm (n : nat) (component : Z) : MCU unit :=
  match n with
  | 0%nat => mret tt
  | Datatypes.S n' =>
      c ← mctx_at component;
      match c.(fap) with
      | None => stop OutOfBounds
      | Some f =>
          r ← attempt (erase_image_ok f);
          match r with
          | inl _ => mret tt
          | inr _ => unconfirm n' component
          end
      end
  end.

Fixpoint confirm_trials (confirmed : nat) (trials : list Z) : MCU unit :=
  match trials with
  | [] => mret tt
  | component :: rest =>
      rc ← on_flash (boot_set_confirmed_multi component);
      if truth rc then
        _ ← unconfirm confirmed component;
        throw PSA_ERROR_STORAGE_FAILURE
      else confirm_trials (Datatypes.S confirmed) rest
  end.

Definition mcu_mark_image_accepted (trials : list Z) : MCU Z := as_status (
  if confirm_needed then
    _ ← open_trials trials;
    _ ← confirm_trials 0 trials;
    mret PSA_SUCCESS
  else mret PSA_SUCCESS).

(** ** Cleaning *)

Definition mcu_clean_component (component : Z) : MCU Z := as_status (
  _ ← fail_if (component >=? FWU_COMPONENT_NUMBER) PSA_ERROR_INVALID_ARGUMENT;
  c ← mctx_at component;
  match c.(fap) with
  | None => throw PSA_ERROR_DOES_NOT_EXIST
  | Some f =>
      _ ← or_return (on_flash (flash_area_erase f 0 (fa_size f))) PSA_ERROR_STORAGE_FAILURE;
      _ ← set_fap component None;
      mret PSA_SUCCESS
  end).

(** [fwu_bootloader_abort], which no file of the repository calls. *)
Definition fwu_bootloader_abort (component : Z) : MCU Z := as_status (
  _ ← fail_if (component >=? FWU_COMPONENT_NUMBER) PSA_ERROR_INVALID_ARGUMENT;
  c ← mctx_at component;
  match c.(fap) with
  | None => throw PSA_ERROR_INVALID_ARGUMENT
  | Some f =>
      _ ← attempt (on_flash (flash_area_erase f 0 (fa_size f)));
      _ ← on_flash (flash_area_close f);
      _ ← set_fap component None;
      _ ← set_loaded_size component 0;
      mret PSA_SUCCESS
  end).

(** ** Information about an image *)

(** One block of the image is read and hashed. *)
Definition hash_step (f : flash_area) (data_size off : Z) : MCU (Z + unit) :=
  if off <? data_size then
    let blk_sz := if data_size - off >? BOOT_TMPBUF_SZ then BOOT_TMPBUF_SZ else data_size - off in
    d ← or_return (on_flash (flash_area_read f off blk_sz)) PSA_ERROR_STORAGE_FAILURE;
    status ← on_hash (psa_hash_update d);
    _ ← fail_if (negb (status =? PSA_SUCCESS)) status;
    mret (inl (u32 (off + blk_sz)))
  else mret (inr tt).

(** The hash of the first [data_size] bytes of the slot. *)
Definition util_img_hash (f : flash_area) (data_size buf_size : Z) : MCU bytes :=
  status ← on_hash (psa_hash_setup PSA_ALG_SHA_256);
  _ ← fail_if (negb (status =? PSA_SUCCESS)) status;
  _ ← while_loop (hash_step f data_size) 0;
  '(status, hash) ← on_hash (psa_hash_finish buf_size);
  _ ← fail_if (negb (status =? PSA_SUCCESS)) status;
  mret hash.

(** The digest; the caller copies it to the structure. *)
Definition get_second_image_digest (component : Z) : MCU bytes :=
  _ ← fail_if (component >=? FWU_COMPONENT_NUMBER) PSA_ERROR_INVALID_ARGUMENT;
  c ← mctx_at component;
  match c.(fap) with
  | None => throw PSA_ERROR_INVALID_ARGUMENT
  | Some _ =>
      f ← open_area (FLASH_AREA_IMAGE_SECONDARY component) PSA_ERROR_STORAGE_FAILURE;
      or_return (util_img_hash f c.(loaded_size) TFM_FWU_MAX_DIGEST_SIZE) PSA_ERROR_STORAGE_FAILURE
  end.

Definition info_area (f : flash_area) (i : psa_fwu_component_info_t) : psa_fwu_component_info_t := {|
  ci_state := i.(ci_state); ci_error := i.(ci_error); ci_version := i.(ci_version);
  ci_max_size := Some (fa_size f); ci_flags := Some PSA_FWU_FLAG_VOLATILE_STAGING;
  ci_location := Some (fa_id f); ci_digest := i.(ci_digest) |}.
Definition info_version (v : image_version) (i : psa_fwu_component_info_t) : psa_fwu_component_info_t := {|
  ci_state := i.(ci_state); ci_error := i.(ci_error);
  ci_version := Some {| v_major := v.(iv_major); v_minor := v.(iv_minor);
                        v_patch := v.(iv_revision); v_build := v.(iv_build_num) |};
  ci_max_size := i.(ci_max_size); ci_flags := i.(ci_flags); ci_location := i.(ci_location);
  ci_digest := i.(ci_digest) |}.

(** The first bytes of the digest field are overwritten. *)
Definition info_digest (hash : bytes) (i : psa_fwu_component_info_t) : psa_fwu_component_info_t := {|
  ci_state := i.(ci_state); ci_error := i.(ci_error); ci_version := i.(ci_version);
  ci_max_size := i.(ci_max_size); ci_flags := i.(ci_flags); ci_location := i.(ci_location);
  ci_digest := Some (match i.(ci_digest) with Some d => splice d 0 hash | None => hash end) |}.

(** The state of the running image, when it is asked for. *)
Definition query_running (f : flash_area) (query_state : bool) (info : psa_fwu_component_info_t)
  : MCU psa_fwu_component_info_t :=
  if query_state then
    if swap_upgrade then
      '(rc, image_ok) ← on_flash (boot_read_image_ok f);
      _ ← fail_if (truth rc) PSA_ERROR_STORAGE_FAILURE;
      mret (set_ci_state (if image_ok =? BOOT_FLAG_SET then PSA_FWU_READY else PSA_FWU_TRIAL) info)
    else mret (set_ci_state PSA_FWU_READY info)
  else mret info.

(** The structure as far as it was filled in, and the status. *)
Definition mcu_get_image_info (component : Z) (query_state query_impl_info : bool)
    (info : psa_fwu_component_info_t) : MCU (Z * psa_fwu_component_info_t) :=
  if component >=? FWU_COMPONENT_NUMBER then mret (PSA_ERROR_INVALID_ARGUMENT, info)
  else match flash_area_open (FLASH_AREA_IMAGE_PRIMARY component) with
  | inl _ => mret (PSA_ERROR_STORAGE_FAILURE, info)
  | inr f =>
      let info := info_area f info in
      r ← attempt (query_running f query_state info);
      match r with
      | inl e => mret (e, info)
      | inr info =>
          r ← attempt (get_active_image_version component);
          match r with
          | inl _ => mret (PSA_ERROR_STORAGE_FAILURE, info)
          | inr v =>
              let info := info_version v info in
              if query_impl_info then
                r ← attempt (get_second_image_digest component);
                match r with
                | inl e => mret (e, info)
                | inr hash => mret (PSA_SUCCESS, info_digest hash info)
                end
              else mret (PSA_SUCCESS, info)
          end
      end
  end.
End Mcuboot.

(** The instance of the interface. *)
#[export] Instance mcuboot_bootloader {H G : Type} `{!ArmDriverFlash H} `{!FlashDrivers H} `{!FlashMapBuild}
    `{!FwuBuild} `{!BootBuild} `{!McuBuild} `{!Bootutil H} `{!HashService G} : FwuBootloader (mcu_state H G) := {|
  fwu_bootloader_init := mcu_init;
  fwu_bootloader_staging_area_init := mcu_staging_area_init;
  fwu_bootloader_load_image := mcu_load_image;
  fwu_bootloader_install_image := mcu_install_image;
  fwu_bootloader_mark_image_accepted := mcu_mark_image_accepted;
  fwu_bootloader_reject_staged_image := mcu_reject_staged_image;
  fwu_bootloader_reject_trial_image := mcu_reject_trial_image;
  fwu_bootloader_clean_component := mcu_clean_component;
  fwu_bootloader_get_image_info := mcu_get_image_info;
|}.
