(* ===== verification/FwuWrite.v ===== *)
(** Firmware update: two requests of the service in detail: a block of an image on its way
    to the bootloader, and the status of a rejection.

    What the SPM does for [psa_read] is the class [FwuIoOk]: a vector is read from its
    beginning, each byte once. *)

From stdpp Require Import base list numbers.
From S2P Require Import Prelude FwuTypes FwuService FwuStates.

(** [unread x h i]: the bytes of vector [i] of message [h] that were not read yet. *)
Class FwuIoOk (X : Type) `{!FwuIo X} := {
  unread : X -> Z -> Z -> bytes;
  read_next : forall x h i n, 0 <= n -> exists x',
    psa_read h i n x = (Val (take (Z.to_nat n) (unread x h i)), x') /\
    unread x' h i = drop (Z.to_nat n) (unread x h i) /\
    forall h' j, h' <> h \/ j <> i -> unread x' h' j = unread x h' j;
}.

(** A message that carries a request of the client. *)
Definition carries {X} `{FwuIoOk X} (x : X) (msg : fwu_msg) (rq : fwu_request) : Prop :=
  msg.(fm_type) = rq.(rq_type) /\
  msg.(fm_in_size) = (fun v : bytes => Z.of_nat (length v)) <$> rq.(rq_in) /\
  msg.(fm_out_size) = rq.(rq_out) /\
  forall i v, rq.(rq_in) !! i = Some v -> unread x msg.(fm_handle) (Z.of_nat i) = v.

Section Write.
Context `{FwuBuildOk} {B X : Type} `{!FwuBootloader B} `{!FwuIo X} `{!FwuIoOk X}.
Implicit Types s : fwu_state B X.

Lemma on_io_read s msg i n : 0 <= n -> exists x',
  on_io (psa_read msg.(fm_handle) i n) s =
    (Val (take (Z.to_nat n) (unread s.(fs_io) msg.(fm_handle) i)), set_fs_io x' s) /\
  unread x' msg.(fm_handle) i = drop (Z.to_nat n) (unread s.(fs_io) msg.(fm_handle) i) /\
  forall h' j, h' <> msg.(fm_handle) \/ j <> i -> unread x' h' j = unread s.(fs_io) h' j.
Proof.
  intros Hn. destruct (read_next s.(fs_io) msg.(fm_handle) i n Hn) as (x' & Hr & Hu & Hf).
  exists x'. unfold on_io. by rewrite Hr.
Qed.

Lemma read_component_run s msg component rest : is_u8 component ->
  unread s.(fs_io) msg.(fm_handle) 0 = component :: rest -> exists x',
  read_component msg s = (Val component, set_fs_io x' s) /\
  forall h' j, h' <> msg.(fm_handle) \/ j <> 0 -> unread x' h' j = unread s.(fs_io) h' j.
Proof.
  intros Hu8 Hu. destruct (on_io_read s msg 0 sizeof_component ltac:(done)) as (x' & Hr & _ & Hf).
  exists x'. split; [|done]. unfold read_component. rewrite (bind_val _ _ _ _ _ Hr), Hu.
  unfold sizeof_component. change (Z.to_nat 1) with 1%nat. cbn [take]. by rewrite u8_small.
Qed.

(** The blocks the service passes on, with their offsets. *)
Fixpoint blocks (fuel : nat) (off : Z) (data : bytes) : list (Z * bytes) :=
  match fuel with
  | 0%nat => []
  | Datatypes.S n =>
      match data with
      | [] => []
      | _ => (off, take (Z.to_nat TFM_FWU_BUF_SIZE) data) ::
             blocks n (u32 (off + TFM_FWU_BUF_SIZE)) (drop (Z.to_nat TFM_FWU_BUF_SIZE) data)
      end
  end.
Definition blocks_of (off : Z) (data : bytes) : list (Z * bytes) := blocks (length data) off data.

Lemma blocks_fuel n off data : (length data <= n)%nat -> blocks n off data = blocks_of off data.
Proof.
  unfold blocks_of. pose proof buf_size_pos as Hb.
  assert (forall k n off data, (length data <= k)%nat -> (length data <= n)%nat ->
    blocks n off data = blocks k off data) as Hgen; [|intros; by apply Hgen].
  clear n off data. induction k as [|k IH]; intros n off data Hk Hn.
  { destruct data; [|simpl in Hk; lia]. by destruct n. }
  destruct data as [|b data]; [by destruct n|]. destruct n as [|n]; [simpl in Hn; lia|].
  cbn [blocks]. f_equal. apply IH; rewrite length_drop; cbn [length] in *; lia.
Qed.

Lemma blocks_cons off data : data <> [] -> blocks_of off data =
  (off, take (Z.to_nat TFM_FWU_BUF_SIZE) data) ::
  blocks_of (u32 (off + TFM_FWU_BUF_SIZE)) (drop (Z.to_nat TFM_FWU_BUF_SIZE) data).
Proof.
  intros Hne. destruct data as [|b data]; [done|]. unfold blocks_of at 1. cbn [length blocks].
  f_equal. apply blocks_fuel. pose proof buf_size_pos. rewrite length_drop. cbn [length]. lia.
Qed.

(** The blocks put together are the data. *)
Lemma blocks_concat off data : concat (snd <$> blocks_of off data) = data.
Proof.
  pose proof buf_size_pos as Hb.
  assert (forall n off data, (length data <= n)%nat -> concat (snd <$> blocks_of off data) = data) as Hgen;
    [|by eapply Hgen].
  clear off data. induction n as [|n IH]; intros off data Hn.
  { destruct data; [done|simpl in Hn; lia]. }
  destruct data as [|b data]; [done|]. rewrite blocks_cons by done. cbn [fmap list_fmap concat snd].
  rewrite IH by (rewrite length_drop; cbn [length] in *; lia). apply take_drop.
Qed.

(** The calls for blocks of a component. *)
Definition load_calls (component : Z) (l : list tfm_fwu_ctx_t) (bs : list (Z * bytes)) :
  list (bl_call * list tfm_fwu_ctx_t) :=
  (fun b => (CallLoad component b.1 b.2, l)) <$> bs.

(** One handler's view of the loop: how far it got. *)
Definition progress (component : Z) (s0 : fwu_state B X) (done rest : list (Z * bytes)) (s : fwu_state B X) : Prop :=
  s.(fwu_ctx) = s0.(fwu_ctx) /\ s.(fs_calls) = s0.(fs_calls) ++ load_calls component s0.(fwu_ctx) done.

(** The function for a block ends with a status, not otherwise. *)
Definition load_gives_status : Prop := forall component off d b e b',
  fwu_bootloader_load_image (B := B) component off d b <> (Err e, b').

Lemma wp_on_load component off d (Q : Z -> fwu_state B X -> Prop) E P s : load_gives_status ->
  (forall a b, Q a (set_fs_bl b (log_call (CallLoad component off d) s))) ->
  (forall h b, P h (set_fs_bl b (log_call (CallLoad component off d) s))) ->
  wp (on_bl (CallLoad component off d) (fwu_bootloader_load_image component off d)) Q E P s.
Proof.
  intros Hst HQ HP. unfold wp, on_bl. destruct (fwu_bootloader_load_image component off d s.(fs_bl)) as [[a|e|h] b] eqn:Er;
    [done|by apply Hst in Er|done].
Qed.

Lemma write_loop_ok msg component s0 s off data st :
  load_gives_status -> s.(fwu_ctx) = s0.(fwu_ctx) -> s.(fs_calls) = s0.(fs_calls) -> is_u32 (Z.of_nat (length data)) ->
  unread s.(fs_io) msg.(fm_handle) 2 = data -> st = PSA_SUCCESS ->
  wp (while_loop (write_step msg component) (Z.of_nat (length data), off, st))
    (fun r s' => r = PSA_SUCCESS /\ s'.(fwu_ctx) = s0.(fwu_ctx) /\
       s'.(fs_calls) = s0.(fs_calls) ++ load_calls component s0.(fwu_ctx) (blocks_of off data))
    (fun e s' => exists sent, sent `prefix_of` blocks_of off data /\ s'.(fwu_ctx) = s0.(fwu_ctx) /\
       s'.(fs_calls) = s0.(fs_calls) ++ load_calls component s0.(fwu_ctx) sent /\ e <> PSA_SUCCESS)
    (fun _ s' => exists sent, sent `prefix_of` blocks_of off data /\ s'.(fwu_ctx) = s0.(fwu_ctx) /\
       s'.(fs_calls) = s0.(fs_calls) ++ load_calls component s0.(fwu_ctx) sent) s.
Proof.
  intros Hload Hctx Hcalls Hlen Hun ->. pose proof buf_size_pos as Hb.
  apply (wp_while _ (fun x s' => exists sent rest, blocks_of off data = sent ++ blocks_of x.1.2 rest /\
      x.1.1 = Z.of_nat (length rest) /\ x.2 = PSA_SUCCESS /\ unread s'.(fs_io) msg.(fm_handle) 2 = rest /\
      s'.(fwu_ctx) = s0.(fwu_ctx) /\ s'.(fs_calls) = s0.(fs_calls) ++ load_calls component s0.(fwu_ctx) sent))
    with (measure := fun x => x.1.1).
  - intros [[bs o] st] s' (sent & rest & Hbl & Hbs & Hst & Hrest & Hc & Hl). cbn [fst snd] in *. subst bs st.
    unfold write_step. destruct (Z.gtb_spec (Z.of_nat (length rest)) 0) as [Hpos|Hz]; cycle 1.
    { destruct rest; [|simpl in Hz; lia]. change (blocks_of o []) with (@nil (Z * bytes)) in Hbl.
      rewrite app_nil_r in Hbl. apply wp_ret. by rewrite Hbl. }
    set (n := if _ <=? _ then _ else _).
    assert (n = Z.min TFM_FWU_BUF_SIZE (Z.of_nat (length rest))) as Hn.
    { subst n. destruct (Z.leb_spec TFM_FWU_BUF_SIZE (Z.of_nat (length rest))); lia. }
    destruct (on_io_read s' msg 2 n ltac:(lia)) as (x & Hr & Hu & _). rewrite Hrest in Hr, Hu.
    assert (take (Z.to_nat n) rest = take (Z.to_nat TFM_FWU_BUF_SIZE) rest /\
            drop (Z.to_nat n) rest = drop (Z.to_nat TFM_FWU_BUF_SIZE) rest) as [Ht Hd].
    { destruct (Z.le_ge_cases TFM_FWU_BUF_SIZE (Z.of_nat (length rest))).
      - rewrite Hn, Z.min_l by lia. done.
      - rewrite Hn, Z.min_r, !take_ge, !drop_ge by lia. done. }
    rewrite Ht, Hd in *. clear Ht Hd. set (d := take _ rest) in *.
    assert (Z.of_nat (length d) = n) as Hld by (unfold d; rewrite length_take; lia).
    assert (rest <> []) as Hne by (intros ->; simpl in Hpos; lia). rewrite (blocks_cons o rest) in Hbl by done. fold d in Hbl.
    apply wp_bind. eapply wp_run; [exact Hr|]. apply wp_bind, wp_fail_if.
    { intros Hf. apply negb_true_iff, Z.eqb_neq in Hf. lia. }
    intros _. apply wp_bind. set (s1 := set_fs_io x s').
    assert (forall b, let s2 := set_fs_bl b (log_call (CallLoad component o d) s1) in
      s2.(fwu_ctx) = s0.(fwu_ctx) /\
      s2.(fs_calls) = s0.(fs_calls) ++ load_calls component s0.(fwu_ctx) (sent ++ [(o, d)])) as Hs2.
    { intros b s2. split; [done|]. cbn [s2 s1 fs_calls set_fs_bl log_call set_fs_io fwu_ctx]. rewrite Hl, Hc.
      unfold load_calls. by rewrite fmap_app, app_assoc. }
    assert (sent ++ [(o, d)] `prefix_of` blocks_of off data) as Hpre.
    { rewrite Hbl. apply prefix_app. by eexists. }
    apply wp_on_load; [done| |].
    + intros status b. specialize (Hs2 b). destruct Hs2 as [Hs2 Hs3].
      apply wp_bind, wp_fail_if.
      { intros Hf. apply negb_true_iff, Z.eqb_neq in Hf. by exists (sent ++ [(o, d)]). }
      intros Hf. apply negb_false_iff, Z.eqb_eq in Hf. apply wp_ret. cbn [fst snd]. split; [|lia].
      exists (sent ++ [(o, d)]), (drop (Z.to_nat TFM_FWU_BUF_SIZE) rest).
      split; [|split; [rewrite length_drop; lia|by split_and!]]. rewrite Hbl, <- app_assoc. cbn [app].
      destruct (Z.le_ge_cases TFM_FWU_BUF_SIZE (Z.of_nat (length rest))); [by rewrite Hn, Z.min_l by lia|].
      rewrite !drop_ge by lia. done.
    + intros h b. exists (sent ++ [(o, d)]). split; [done|apply Hs2].
  - exists [], data. cbn [fst snd]. split_and!; try done. by rewrite app_nil_r.
  - cbn [fst]. unfold is_u32 in Hlen. lia.
Qed.

(** A write request up to the loop. *)
Lemma write_prologue s msg component image_offset block :
  is_u8 component -> component < FWU_COMPONENT_NUMBER -> is_u32 image_offset ->
  Z.of_nat (length block) <= PSA_FWU_MAX_WRITE_SIZE ->
  carries s.(fs_io) msg (psa_fwu_write component image_offset block) ->
  on_record s.(fwu_ctx) component (Some PSA_FWU_WRITING) ->
  exists x, tfm_fwu_write msg s =
      while_loop (write_step msg component) (Z.of_nat (length block), image_offset, PSA_SUCCESS) (set_fs_io x s) /\
    unread x msg.(fm_handle) 2 = block /\
    forall h j, h <> msg.(fm_handle) -> unread x h j = unread s.(fs_io) h j.
Proof.
  intros Hu8 Hlt Hoff Hmax (_ & Hin & _ & Hun) [[Hpos _] (c & Hc & Hv)].
  pose proof (Hun 0%nat [component] eq_refl) as U0. pose proof (Hun 1%nat (le32 image_offset) eq_refl) as U1.
  pose proof (Hun 2%nat block eq_refl) as U2. change (Z.of_nat 0) with 0 in U0. change (Z.of_nat 1) with 1 in U1.
  change (Z.of_nat 2) with 2 in U2.
  assert (in_size msg 0 = 1 /\ in_size msg 1 = 4 /\ in_size msg 2 = Z.of_nat (length block)) as (S0 & S1 & S2).
  { unfold in_size. rewrite Hin. done. }
  assert (c.(in_use) = true /\ c.(component_state) = PSA_FWU_WRITING) as [Hu Hst].
  { unfold view in Hv. destruct (in_use c); by simplify_eq. }
  destruct (read_component_run s msg component [] Hu8 U0) as (x1 & Hr1 & Hf1).
  destruct (on_io_read (set_fs_io x1 s) msg 1 sizeof_size_t ltac:(done)) as (x2 & Hr2 & _ & Hf2).
  cbn [fs_io set_fs_io] in *. rewrite Hf1, U1 in Hr2 by (by right).
  exists x2. split; [|split; [by rewrite Hf2, Hf1, U2 by (by right)|intros; by rewrite Hf2, Hf1 by (by left)]].
  unfold tfm_fwu_write. rewrite S0, S1, S2.
  destruct (Z.gtb_spec (Z.of_nat (length block)) PSA_FWU_MAX_WRITE_SIZE); [lia|].
  rewrite (bind_fail_no false) by done. cbv zeta. rewrite (bind_fail_no (_ || _)) by done.
  rewrite (bind_val _ _ _ _ _ Hr1). destruct (Z.geb_spec component FWU_COMPONENT_NUMBER); [lia|].
  rewrite (bind_fail_no false), (bind_val _ _ _ _ _ Hr2) by done.
  rewrite (bind_val _ _ _ _ _ (ctx_at_run (set_fs_io x2 (set_fs_io x1 s)) component c Hpos Hc)), Hu, Hst.
  rewrite (bind_fail_no (_ || _)) by done. change (set_fs_io x2 (set_fs_io x1 s)) with (set_fs_io x2 s).
  change (take (Z.to_nat sizeof_size_t) (le32 image_offset)) with (le32 image_offset ++ []).
  by rewrite of_le32_le32.
Qed.

(** A block of an image reaches the bootloader as the client sent it. Let a component
    be in WRITING, and let a message carry a [psa_fwu_write] for it with a block no larger
    than the limit. Whatever the bootloader answers, the calls it gets for the request are
    the first ones of a list of blocks that is fixed by the request: each at most as large
    as the service's buffer, at consecutive offsets from the client's, and together
    exactly the client's bytes. When the request returns success the bootloader got all of
    them; when it returns an error the bootloader refused one and got none after it. No
    component changes its state. *)
Theorem write_delivers_block s msg component image_offset block :
  load_gives_status -> is_u8 component -> component < FWU_COMPONENT_NUMBER -> is_u32 image_offset ->
  Z.of_nat (length block) <= PSA_FWU_MAX_WRITE_SIZE ->
  carries s.(fs_io) msg (psa_fwu_write component image_offset block) ->
  on_record s.(fwu_ctx) component (Some PSA_FWU_WRITING) ->
  let all := blocks_of image_offset block in
  concat (snd <$> all) = block /\
  exists sent, sent `prefix_of` all /\
    match tfm_firmware_update_service_sfn msg s with
    | (o, s') =>
        s'.(fwu_ctx) = s.(fwu_ctx) /\
        s'.(fs_calls) = s.(fs_calls) ++ load_calls component s.(fwu_ctx) sent /\
        (o = Val PSA_SUCCESS -> sent = all)
    end.
Proof.
  intros Hload Hu8 Hlt Hoff Hmax Hcar Hrec all. split; [apply blocks_concat|].
  destruct (write_prologue s msg component image_offset block Hu8 Hlt Hoff Hmax Hcar Hrec) as (x & Hrun & Hun & _).
  pose proof write_size_u32.
  assert (is_u32 (Z.of_nat (length block))) as Hlen by (unfold is_u32; lia).
  pose proof (write_loop_ok msg component s (set_fs_io x s) image_offset block PSA_SUCCESS
    Hload eq_refl eq_refl Hlen Hun eq_refl) as Hw.
  unfold tfm_firmware_update_service_sfn, returned, handler.
  replace (fm_type msg) with TFM_FWU_WRITE by (symmetry; apply Hcar). cbn [Z.eqb Pos.eqb]. cbv zeta.
  change (TFM_FWU_WRITE =? TFM_FWU_START) with false. change (TFM_FWU_WRITE =? TFM_FWU_WRITE) with true.
  cbv iota. rewrite Hrun. unfold wp in Hw.
  destruct (while_loop _ _ _) as [[r|e|h] s'].
  - destruct Hw as (-> & Hc & Hl). exists all. split_and!; done.
  - destruct Hw as (sent & Hpre & Hc & Hl & Hne). exists sent. split_and!; [done..|]. by intros [= ->].
  - destruct Hw as (sent & Hpre & Hc & Hl). by exists sent.
Qed.

(** The loop when the bootloader takes every block: [P got b] says what the bootloader's
    state is when it has taken the bytes [got]. *)
Lemma write_loop_takes msg component s off data (P : bytes -> B -> Prop) :
  (forall got d b, P got b -> (TFM_FWU_BUF_SIZE | Z.of_nat (length got)) -> d <> [] -> got ++ d `prefix_of` data ->
     exists b', fwu_bootloader_load_image component (off + Z.of_nat (length got)) d b = (Val PSA_SUCCESS, b') /\
       P (got ++ d) b') ->
  0 <= off -> off + Z.of_nat (length data) < 2 ^ 32 -> P [] s.(fs_bl) ->
  unread s.(fs_io) msg.(fm_handle) 2 = data ->
  exists s', while_loop (write_step msg component) (Z.of_nat (length data), off, PSA_SUCCESS) s = (Val PSA_SUCCESS, s') /\
    s'.(fwu_ctx) = s.(fwu_ctx) /\ P data s'.(fs_bl) /\
    forall h j, h <> msg.(fm_handle) -> unread s'.(fs_io) h j = unread s.(fs_io) h j.
Proof.
  intros Hstep Hoff Hlen HP Hun. pose proof buf_size_pos as Hb.
  destruct (while_loop_ghost (write_step msg component) (fun x (g : bytes * bytes) s' =>
      data = g.1 ++ g.2 /\ x = (Z.of_nat (length g.2), u32 (off + Z.of_nat (length g.1)), PSA_SUCCESS) /\
      (g.2 = [] \/ (TFM_FWU_BUF_SIZE | Z.of_nat (length g.1))) /\ P g.1 s'.(fs_bl) /\
      unread s'.(fs_io) msg.(fm_handle) 2 = g.2 /\ s'.(fwu_ctx) = s.(fwu_ctx) /\
      forall h j, h <> msg.(fm_handle) -> unread s'.(fs_io) h j = unread s.(fs_io) h j)
    (fun r s' => r = PSA_SUCCESS /\ s'.(fwu_ctx) = s.(fwu_ctx) /\ P data s'.(fs_bl) /\
      forall h j, h <> msg.(fm_handle) -> unread s'.(fs_io) h j = unread s.(fs_io) h j)
    (fun g => Z.of_nat (length g.2))) with (x := (Z.of_nat (length data), off, PSA_SUCCESS)) (g := (@nil Z, data)) (s := s)
    as (r & s' & Hrun & -> & Hpost); [| | |by exists s'].
  - clear Hun HP. intros x [got rest] s' (Hd & -> & Hal & HP & Hun & Hc & Hfr). cbn [fst snd] in *. unfold write_step.
    destruct (Z.gtb_spec (Z.of_nat (length rest)) 0) as [Hpos|Hz]; cycle 1.
    { destruct rest; [|simpl in Hz; lia]. rewrite app_nil_r in Hd. subst got. exists (inr PSA_SUCCESS), s'. done. }
    destruct Hal as [->|Hal]; [simpl in Hpos; lia|]. rewrite Hd, length_app, Nat2Z.inj_add in Hlen.
    rewrite (u32_small (off + Z.of_nat (length got))) by (unfold is_u32; lia).
    set (n := if _ <=? _ then _ else _).
    assert (n = Z.min TFM_FWU_BUF_SIZE (Z.of_nat (length rest))) as Hn.
    { subst n. destruct (Z.leb_spec TFM_FWU_BUF_SIZE (Z.of_nat (length rest))); lia. }
    destruct (on_io_read s' msg 2 n ltac:(lia)) as (x & Hr & Hu & Hf). rewrite Hun in Hr, Hu.
    set (d := take (Z.to_nat n) rest) in *. set (rest' := drop (Z.to_nat n) rest) in *.
    assert (rest = d ++ rest') as Hrest by (symmetry; apply take_drop).
    assert (Z.of_nat (length d) = n) as Hld by (unfold d; rewrite length_take; lia).
    destruct (Hstep got d s'.(fs_bl) HP Hal) as (b' & Hb' & HP').
    { intros E. rewrite E in Hld. simpl in Hld. lia. } { rewrite Hd, Hrest. exists rest'. by rewrite <- app_assoc. }
    exists (inl (Z.of_nat (length rest'), u32 (off + Z.of_nat (length (got ++ d))), PSA_SUCCESS)),
      (set_fs_bl b' (log_call (CallLoad component (off + Z.of_nat (length got)) d) (set_fs_io x s'))). split.
    + rewrite (bind_val _ _ _ _ _ Hr), Hld, Z.eqb_refl. cbn [negb]. rewrite (bind_fail_no false) by done.
      erewrite bind_val; [|unfold on_bl; cbn [fs_bl set_fs_io]; rewrite Hb'; reflexivity].
      rewrite Z.eqb_refl. cbn [negb]. rewrite (bind_fail_no false) by done. unfold mret, M_ret.
      rewrite length_app, Nat2Z.inj_add, Hld, Hrest, length_app, Nat2Z.inj_add, Hld.
      replace (n + Z.of_nat (length rest') - n) with (Z.of_nat (length rest')) by lia.
      by replace (off + Z.of_nat (length got) + n) with (off + (Z.of_nat (length got) + n)) by lia.
    + assert (Z.of_nat (length rest') = Z.of_nat (length rest) - n) as Hl'.
      { rewrite Hrest, length_app. lia. }
      exists (got ++ d, rest'). cbn [fst snd]. split; [|lia]. split_and!; try done.
      * by rewrite Hd, Hrest, <- app_assoc.
      * destruct (Z.le_ge_cases TFM_FWU_BUF_SIZE (Z.of_nat (length rest))).
        -- right. rewrite length_app, Nat2Z.inj_add, Hld, Hn, Z.min_l by lia. apply Z.divide_add_r; [done|apply Z.divide_refl].
        -- left. apply length_zero_iff_nil. lia.
      * intros h j Hh. cbn [fs_io set_fs_bl log_call set_fs_io]. rewrite Hf by (by left). by apply Hfr.
  - cbn [fst snd app length]. rewrite Z.add_0_r, u32_small by (unfold is_u32; lia). split_and!; try done.
    right. by exists 0.
  - cbn [snd]. lia.
Qed.
End Write.

(** * Firmware update: the status of a rejection.

    [tfm_fwu_reject] keeps the status of the component it looked at last. *)

Lemma s32_le32 x : - 2 ^ 31 <= x < 2 ^ 31 -> s32 (of_le32 (le32 x)) = x.
Proof.
  intros Hx. assert (of_le32 (le32 x) = u32 x) as ->.
  { unfold of_le32, le32, u32, u8. cbn -[Z.mul Z.pow Z.add Z.modulo Z.div]. lia. }
  unfold s32. rewrite (u32_small (u32 x)) by (unfold is_u32, u32; lia).
  unfold u32. case_match; lia.
Qed.

Section Reject.
Context `{FwuBuildOk} {B X : Type} `{!FwuBootloader B} `{!FwuIo X} `{!FwuIoOk X}.
Implicit Types s : fwu_state B X.

(** States of the bootloader in which every component but [trial] runs an accepted image
    and in which the rejection of [trial] needs a reboot. *)
Record needs_reboot (good : B -> Prop) (trial : Z) : Prop := {
  nr_others : forall i info b, 0 <= i < FWU_COMPONENT_NUMBER -> i <> trial -> good b -> exists info' b',
    fwu_bootloader_get_image_info i true false info b = (Val (PSA_SUCCESS, info'), b') /\
    info'.(ci_state) = Some PSA_FWU_READY /\ good b';
  nr_trial : forall b, good b -> exists b',
    fwu_bootloader_reject_trial_image trial b = (Val PSA_SUCCESS_REBOOT, b') /\ good b';
}.

(** The contexts when only [trial] has a record. *)
Definition only_trial (l : list tfm_fwu_ctx_t) (trial : Z) : Prop :=
  Z.of_nat (length l) = FWU_COMPONENT_NUMBER /\ 0 <= trial /\
  forall i c, l !! i = Some c -> view c = if decide (i = Z.to_nat trial) then Some PSA_FWU_TRIAL else None.

Definition rejected_ctx (error : Z) : tfm_fwu_ctx_t :=
  {| cx_error := error; component_state := PSA_FWU_REJECTED; in_use := true |}.

(** The loop below component [i]. *)
Definition rejected_below (good : B -> Prop) (trial error : Z) (l0 : list tfm_fwu_ctx_t) (i : Z) (l : reject_locals) s : Prop :=
  good s.(fs_bl) /\
  if i <=? trial then l.(rl_found) = false /\ s.(fwu_ctx) = l0
  else l.(rl_found) = true /\ s.(fwu_ctx) = <[Z.to_nat trial := rejected_ctx error]> l0 /\
    l.(rl_status) = if i =? trial + 1 then PSA_SUCCESS_REBOOT else PSA_SUCCESS.

Lemma reject_round good trial error l0 i l s : needs_reboot good trial -> only_trial l0 trial ->
  0 <= i < FWU_COMPONENT_NUMBER -> rejected_below good trial error l0 i l s ->
  wp (reject_check error i l) (rejected_below good trial error l0 (i + 1)) (fun _ _ => False) (fun _ _ => False) s.
Proof.
  intros [Hoth Htr] (Hlen & Hpos & Hview) Hi [Hg Hbelow]. unfold reject_check.
  destruct (lookup_lt_is_Some_2 l0 (Z.to_nat i)) as [c0 Hc0]; [lia|].
  destruct (decide (i = trial)) as [->|Hne].
  - rewrite (proj2 (Z.leb_le _ _)) in Hbelow by lia. destruct Hbelow as [_ Hl].
    assert (s.(fwu_ctx) !! Z.to_nat trial = Some c0) as Hc by (by rewrite Hl).
    pose proof (Hview _ _ Hc0) as Hv. rewrite decide_True in Hv by done.
    assert (c0.(in_use) = true /\ c0.(component_state) = PSA_FWU_TRIAL) as [Hu Hst].
    { unfold view in Hv. destruct (in_use c0); by simplify_eq. }
    apply wp_bind. eapply wp_run; [by apply ctx_at_run|]. rewrite Hu, Hst.
    change (PSA_FWU_TRIAL =? PSA_FWU_STAGED) with false. change (PSA_FWU_TRIAL =? PSA_FWU_TRIAL) with true. cbv iota.
    unfold reject_trial. apply wp_bind. destruct (Htr s.(fs_bl) Hg) as (b & Hb & Hg').
    eapply wp_run; [unfold on_bl; rewrite Hb; reflexivity|].
    change (PSA_SUCCESS_REBOOT =? PSA_SUCCESS_REBOOT) with true. cbn [orb].
    eapply wp_state_then_error; [done|exact Hc|]. apply wp_ret. split; [done|].
    rewrite (proj2 (Z.leb_gt _ _)) by lia. rewrite Z.eqb_refl. cbn [rl_found rl_status fwu_ctx set_fwu_ctx set_fs_bl log_call].
    split; [done|]. split; [|done]. by rewrite Hl, Hu.
  - assert (s.(fwu_ctx) !! Z.to_nat i = Some c0) as Hc.
    { destruct (i <=? trial); destruct Hbelow as [_ Hl]; [by rewrite Hl|]. destruct Hl as [-> _].
      by rewrite list_lookup_insert_ne by lia. }
    pose proof (Hview _ _ Hc0) as Hv. rewrite decide_False in Hv by lia.
    assert (c0.(in_use) = false) as Hu by (unfold view in Hv; by destruct (in_use c0)).
    apply wp_bind. eapply wp_run; [apply ctx_at_run; [lia|exact Hc]|]. rewrite Hu. apply wp_bind.
    destruct (Hoth i l.(rl_info) s.(fs_bl) Hi Hne Hg) as (info' & b & Hb & Hst & Hg').
    eapply wp_run; [unfold get_image_info, on_bl; rewrite Hb; reflexivity|].
    apply wp_bind, wp_fail_if; [done|]. intros _. apply wp_bind. unfold info_state. rewrite Hst. apply wp_ret.
    change (PSA_FWU_READY =? PSA_FWU_TRIAL) with false. cbv iota. apply wp_ret. split; [done|].
    destruct (Z.leb_spec i trial) as [Hle|Hgt].
    + rewrite (proj2 (Z.leb_le (i + 1) trial)) by lia. apply Hbelow.
    + rewrite (proj2 (Z.leb_gt (i + 1) trial)), (proj2 (Z.eqb_neq (i + 1) (trial + 1))) by lia.
      destruct Hbelow as (Hf & Hl & _). done.
Qed.

(** C40: a rejection that needs a reboot says so only by luck. Let exactly one component be
    on trial, let the others run accepted images without an update, and let the
    bootloader answer the rejection of the one with "a reboot is required". Then the
    request of the client marks the component as REJECTED, a state that only a reboot
    leaves, with the client's error code, and returns [PSA_SUCCESS_REBOOT] when the
    component is the last of all, but [PSA_SUCCESS], which says that no reboot is needed,
    when another component comes after it: the status of the query about that one has
    taken the place of the bootloader's answer. *)
Theorem reject_reports_last_component good s msg trial error :
  needs_reboot good trial -> good s.(fs_bl) -> only_trial s.(fwu_ctx) trial -> trial < FWU_COMPONENT_NUMBER ->
  - 2 ^ 31 <= error < 2 ^ 31 -> carries s.(fs_io) msg (psa_fwu_reject error) ->
  exists s', tfm_firmware_update_service_sfn msg s =
      (Val (if trial =? FWU_COMPONENT_NUMBER - 1 then PSA_SUCCESS_REBOOT else PSA_SUCCESS), s') /\
    s'.(fwu_ctx) = <[Z.to_nat trial := rejected_ctx error]> s.(fwu_ctx).
Proof.
  intros Hnr Hg Hone Hlt Herr (Htype & Hin & _ & Hun). pose proof Hone as (_ & Hpos & _).
  pose proof (Hun 0%nat (le32 error) eq_refl) as U0. change (Z.of_nat 0) with 0 in U0.
  destruct (on_io_read s msg 0 sizeof_status ltac:(done)) as (x & Hr & _ & _). rewrite U0 in Hr.
  change (take (Z.to_nat sizeof_status) (le32 error)) with (le32 error) in Hr.
  assert (s32 (of_le32 (le32 error)) = error) as Hs32.
  { by apply s32_le32. }
  assert (wp (tfm_fwu_reject msg)
    (fun r s' => r = (if trial =? FWU_COMPONENT_NUMBER - 1 then PSA_SUCCESS_REBOOT else PSA_SUCCESS) /\
       s'.(fwu_ctx) = <[Z.to_nat trial := rejected_ctx error]> s.(fwu_ctx))
    (fun _ _ => False) (fun _ _ => False) s) as Hw.
  { unfold tfm_fwu_reject, in_size. rewrite Hin. cbn [rq_in psa_fwu_reject fmap list_fmap nth].
    apply wp_bind, wp_fail_if; [done|]. intros _. apply wp_bind. eapply wp_run; [exact Hr|].
    apply wp_bind, wp_fail_if; [done|]. intros _. rewrite Hs32. apply wp_bind.
    apply (wp_fold_range (rejected_below good trial error s.(fwu_ctx))); [lia| | |].
    - split; [done|]. by rewrite (proj2 (Z.leb_le _ _)).
    - intros i l s1 Hi Hb. by apply reject_round.
    - intros l s1 [_ Hb]. rewrite (proj2 (Z.leb_gt _ _)) in Hb by done. destruct Hb as (-> & Hl & Hst).
      apply wp_bind, wp_fail_if; [done|]. intros _. apply wp_ret. split; [|done]. rewrite Hst.
      destruct (Z.eqb_spec FWU_COMPONENT_NUMBER (trial + 1)), (Z.eqb_spec trial (FWU_COMPONENT_NUMBER - 1)); lia || done. }
  unfold tfm_firmware_update_service_sfn, returned, handler. rewrite Htype. cbn [rq_type psa_fwu_reject]. cbv zeta.
  change (TFM_FWU_REJECT =? TFM_FWU_REJECT) with true.
  repeat match goal with |- context [TFM_FWU_REJECT =? ?t] => change (TFM_FWU_REJECT =? t) with false; cbv iota end.
  unfold wp in Hw. destruct (tfm_fwu_reject msg s) as [[r|e|h] s']; [|done..]. destruct Hw as [-> Hl]. by exists s'.
Qed.
End Reject.
