(* ===== verification/FwuImage.v ===== *)
(** Firmware update: an image on its way to the flash.

    The service, the functions on MCUboot, the flash areas and a flash driver that works,
    together: what the client writes is what the slot holds. *)

From stdpp Require Import base list numbers gmap.
From S2P Require Import Prelude FlashNor FlashMap BootData FwuTypes FwuService FwuStates FwuWrite McuBoot.

Section Image.
Context {H G X : Type} `{!ArmDriverFlash H} `{!FlashDrivers H} `{!FlashMapBuild} `{!FwuBuild} `{!BootBuild}
  `{!McuBuild} `{!Bootutil H} `{!HashService G} `{!FwuIo X} `{!FwuBuildOk} `{!FwuIoOk X}.
Context (flash : H -> Z -> Z) (sector ev : Z) `{!DriverContract flash sector ev} `{!FlashMapOk}.
Implicit Types b : mcu_state H G.
Implicit Types s : fwu_state (mcu_state H G) X.

(** What the flash device of a state holds. *)
Definition held b : Z -> Z := flash b.(mc_flash).

Lemma on_flash_run {A} (m : M H A) b r h : m b.(mc_flash) = (r, h) -> on_flash m b = (r, set_mc_flash h b).
Proof. intros Hm. unfold on_flash. by rewrite Hm. Qed.

Lemma mctx_at_run b component c : 0 <= component -> b.(mcuboot_ctx) !! Z.to_nat component = Some c ->
  mctx_at component b = (Val c, b).
Proof. intros Hpos Hc. unfold mctx_at. rewrite bind_getS, (proj2 (Z.ltb_ge _ _)) by done. by rewrite Hc. Qed.

Lemma put_mctx_run b component c c' : 0 <= component -> b.(mcuboot_ctx) !! Z.to_nat component = Some c ->
  put_mctx component c' b = (Val tt, set_mcuboot_ctx (<[Z.to_nat component := c']> b.(mcuboot_ctx)) b).
Proof. intros Hpos Hc. unfold put_mctx. by rewrite (bind_val _ _ _ _ _ (mctx_at_run b component c Hpos Hc)). Qed.

Lemma set_loaded_size_run b component c n : 0 <= component -> b.(mcuboot_ctx) !! Z.to_nat component = Some c ->
  set_loaded_size component n b =
    (Val tt, set_mcuboot_ctx (<[Z.to_nat component := {| fap := c.(fap); loaded_size := n |}]> b.(mcuboot_ctx)) b).
Proof.
  intros Hpos Hc. unfold set_loaded_size. rewrite (bind_val _ _ _ _ _ (mctx_at_run b component c Hpos Hc)).
  by apply (put_mctx_run _ _ c).
Qed.

Lemma set_fap_run b component c f : 0 <= component -> b.(mcuboot_ctx) !! Z.to_nat component = Some c ->
  set_fap component f b =
    (Val tt, set_mcuboot_ctx (<[Z.to_nat component := {| fap := f; loaded_size := c.(loaded_size) |}]> b.(mcuboot_ctx)) b).
Proof.
  intros Hpos Hc. unfold set_fap. rewrite (bind_val _ _ _ _ _ (mctx_at_run b component c Hpos Hc)).
  by apply (put_mctx_run _ _ c).
Qed.

(** The area the service loads an image of a component into. *)
Definition loads_into b (component : Z) (f : flash_area) : Prop :=
  exists c, b.(mcuboot_ctx) !! Z.to_nat component = Some c /\ c.(fap) = Some f.

Lemma load_image_ok b component f off d : 0 <= component < FWU_COMPONENT_NUMBER -> loads_into b component f ->
  area_ok f -> 0 <= off -> off + Z.of_nat (length d) <= fa_size f ->
  exists b', mcu_load_image component off d b = (Val PSA_SUCCESS, b') /\ loads_into b' component f /\
    b'.(mc_boot) = b.(mc_boot) /\ forall a, held b' a = overlay (held b) (fa_off f + off) (written off d) a.
Proof.
  intros [Hpos Hlt] (c & Hc & Hf) Hok Hoff Hle.
  destruct (flash_area_write_spec flash sector ev f off d b.(mc_flash) Hok Hoff Hle) as (h & Hw & Hh).
  unfold mcu_load_image, as_status. destruct (Z.geb_spec component FWU_COMPONENT_NUMBER); [lia|].
  rewrite (bind_fail_no false), (bind_val _ _ _ _ _ (mctx_at_run b component c Hpos Hc)), Hf by done.
  rewrite (bind_val _ _ _ _ _ (or_return_val _ _ _ _ _ (on_flash_run _ b _ _ Hw))).
  rewrite (bind_val _ _ _ _ _ (set_loaded_size_run (set_mc_flash h b) component c _ Hpos Hc)).
  eexists. split; [reflexivity|]. split; [|done]. eexists. cbn [mcuboot_ctx set_mcuboot_ctx set_mc_flash].
  split; [apply list_lookup_insert_eq; by eapply lookup_lt_Some|done].
Qed.

(** An area the size of whole sectors. *)
Definition slot_ok (f : flash_area) : Prop :=
  area_ok f /\ fi_uniform = true /\ fi_sector_size = sector /\ 0 < sector /\ (sector | fa_off f) /\
  (exists k, 0 <= k /\ fa_size f = k * sector) /\ fa_off f + fa_size f + sector <= 2 ^ 32.

(** The memory with the slot erased. *)
Definition erased (f : flash_area) (m : Z -> Z) : Z -> Z := fun a =>
  if decide (fa_off f <= a < fa_off f + fa_size f) then ev else m a.

Lemma staging_ok b component f m : 0 <= component < FWU_COMPONENT_NUMBER -> slot_ok f ->
  flash_area_open (FLASH_AREA_IMAGE_SECONDARY component) = inr f ->
  Z.of_nat (length b.(mcuboot_ctx)) = FWU_COMPONENT_NUMBER ->
  exists b', mcu_staging_area_init component m 0 b = (Val PSA_SUCCESS, b') /\ loads_into b' component f /\
    b'.(mc_boot) = b.(mc_boot) /\ forall a, held b' a = erased f (held b) a.
Proof.
  intros [Hpos Hlt] (Hok & Hun & Hsec & Hs0 & Hdiv & (k & Hk & Hsz) & Hend) Hopen Hlen.
  destruct (lookup_lt_is_Some_2 b.(mcuboot_ctx) (Z.to_nat component)) as [c Hc]; [lia|].
  destruct (flash_area_erase_spec flash sector ev f k b.(mc_flash) Hok Hun Hsec Hs0 Hdiv Hsz Hk Hend) as (h & He & Hh).
  unfold mcu_staging_area_init, as_status. destruct (Z.geb_spec component FWU_COMPONENT_NUMBER); [lia|].
  rewrite (bind_fail_no (_ || _)) by done. unfold open_area. rewrite Hopen, bind_mret.
  rewrite (bind_val _ _ _ _ _ (or_return_val _ _ _ _ _ (on_flash_run _ b _ _ He))).
  rewrite (bind_val _ _ _ _ _ (set_fap_run (set_mc_flash h b) component c _ Hpos Hc)).
  rewrite (bind_val _ _ _ _ _ (set_loaded_size_run (set_mcuboot_ctx _ (set_mc_flash h b)) component
    {| fap := Some f; loaded_size := loaded_size c |} _ Hpos
    ltac:(apply list_lookup_insert_eq; by eapply lookup_lt_Some))).
  eexists. split; [reflexivity|]. split; [|done]. eexists. cbn [mcuboot_ctx set_mcuboot_ctx set_mc_flash].
  rewrite list_insert_insert_eq. split; [apply list_lookup_insert_eq; by eapply lookup_lt_Some|done].
Qed.

(** ** The requests of an update *)

(** The library reads the flag of the running image and leaves the flash as it is. *)
Definition flag_read_only : Prop := forall f h, forall a, flash (boot_read_image_ok f h).2 a = flash h a.

(** Nothing the partition or the flash holds changes. *)
Definition same_state b b' : Prop :=
  b'.(mcuboot_ctx) = b.(mcuboot_ctx) /\ b'.(mc_boot) = b.(mc_boot) /\ forall a, held b' a = held b a.

Lemma same_state_refl b : same_state b b.
Proof. done. Qed.

Lemma same_state_trans b1 b2 b3 : same_state b1 b2 -> same_state b2 b3 -> same_state b1 b3.
Proof. intros (? & ? & E1) (? & ? & E2). split_and!; [congruence|congruence|]. intros. by rewrite E2, E1. Qed.

Abbreviation steady m b := (wp m (fun _ b' => same_state b b') (fun _ b' => same_state b b') (fun _ b' => same_state b b') b).

Lemma steady_bind {A C} (m : M (mcu_state H G) A) (k : A -> M (mcu_state H G) C) b :
  steady m b -> (forall a b', same_state b b' -> steady (k a) b') -> steady (mbind k m) b.
Proof.
  intros Hm Hk. apply wp_bind. eapply wp_mono; [exact Hm|..]; cbn beta; [|done..].
  intros a b' Hs. eapply wp_mono; [by apply Hk|..]; cbn beta; intros; by eapply same_state_trans.
Qed.

Lemma steady_pure {A} (m : M (mcu_state H G) A) b : (m b).2 = b -> steady m b.
Proof. unfold wp. destruct (m b) as [[a|e|h] b']; intros <-; apply same_state_refl. Qed.

Lemma steady_fail c e b : steady (fail_if c e) b.
Proof. apply steady_pure. by destruct c. Qed.

Lemma steady_read l off n b : steady (read_at l off n) b.
Proof. apply steady_pure. unfold read_at. by destruct (in_range l off n). Qed.

Lemma steady_while {Y R} (step : Y -> M (mcu_state H G) (Y + R)) x b :
  (forall x b', steady (step x) b') -> steady (while_loop step x) b.
Proof.
  intros Hs. pose proof (keeps_while_loop (same_state b) step x) as Hk. unfold wp.
  assert (keeps (same_state b) (while_loop step x)) as Hkeep.
  { apply Hk. intros x' b' Hb'. specialize (Hs x' b'). unfold wp in Hs.
    destruct (step x' b') as [[r|e|h] b'']; cbn; by eapply same_state_trans. }
  specialize (Hkeep b (same_state_refl b)). destruct (while_loop step x b) as [[r|e|h] b']; done.
Qed.

Lemma version_steady component b : steady (get_active_image_version component) b.
Proof.
  unfold get_active_image_version.
  apply steady_bind; [by apply steady_pure|]. intros s0 b1 _. cbv zeta.
  apply steady_bind. { apply steady_read. } intros magic b2 _.
  apply steady_bind. { apply steady_fail. } intros _ b3 _.
  apply steady_bind. { apply steady_read. } intros tot b4 _.
  apply steady_while. intros cur b5. unfold version_step. case_match; [|by apply steady_pure].
  apply steady_bind; [by apply steady_pure|]. intros s1 b6 _. cbv zeta.
  apply steady_bind. { apply steady_bind; [apply steady_read|]. intros; by apply steady_pure. } intros e b7 _.
  case_match; [|by apply steady_pure].
  apply steady_bind. { apply steady_fail. } intros _ b8 _.
  apply steady_bind. { apply steady_read. } intros d b9 _. by apply steady_pure.
Qed.

Lemma steady_attempt {A} (m : M (mcu_state H G) A) b : steady m b -> steady (attempt m) b.
Proof. intros Hm. apply wp_attempt. eapply wp_mono; [exact Hm|..]; done. Qed.

Lemma info_steady component info b : flag_read_only -> steady (mcu_get_image_info component true false info) b.
Proof.
  intros Hro. unfold mcu_get_image_info. case_match; [by apply steady_pure|]. case_match; [by apply steady_pure|].
  cbv zeta. apply steady_bind.
  { apply steady_attempt. unfold query_running. destruct swap_upgrade; [|by apply steady_pure]. apply steady_bind.
    - pose proof (Hro f b.(mc_flash)) as Hf. unfold wp, on_flash.
      destruct (boot_read_image_ok f b.(mc_flash)) as [[r|e|h0] h]; by split_and!.
    - intros [rc ok] b1 _. apply steady_bind; [apply steady_fail|]. intros _ b2 _. by apply steady_pure. }
  intros [e|info'] b1 _; [by apply steady_pure|].
  apply steady_bind; [apply steady_attempt, version_steady|]. intros [e|v] b2 _; by apply steady_pure.
Qed.

Lemma attempt_gives {A} (m : M (mcu_state H G) A) b :
  wp (attempt m) (fun _ _ => True) (fun _ _ => False) (fun _ _ => True) b.
Proof. unfold wp, attempt. by destruct (m b) as [[a|e|h] b']. Qed.

(** The query gives a status, not an early return. *)
Lemma info_gives component q1 q2 info b :
  wp (mcu_get_image_info component q1 q2 info) (fun _ _ => True) (fun _ _ => False) (fun _ _ => True) b.
Proof.
  unfold mcu_get_image_info. case_match; [done|]. case_match; [done|]. cbv zeta.
  apply wp_bind. eapply wp_mono; [apply attempt_gives|..]; cbn beta; [|done..].
  intros [e|info'] b1 _; [done|]. apply wp_bind. eapply wp_mono; [apply attempt_gives|..]; cbn beta; [|done..].
  intros [e|v] b2 _; [done|]. destruct q2; [|done].
  apply wp_bind. eapply wp_mono; [apply attempt_gives|..]; cbn beta; [|done..]. by intros [e|d] b3 _.
Qed.

Lemma wp_on_bl_of {A} k (m : M (mcu_state H G) A) (Q : A -> fwu_state (mcu_state H G) X -> Prop) E P s :
  wp m (fun a b => Q a (set_fs_bl b (log_call k s))) (fun e b => E e (set_fs_bl b (log_call k s)))
    (fun h b => P h (set_fs_bl b (log_call k s))) s.(fs_bl) ->
  wp (on_bl k m) Q E P s.
Proof. unfold wp, on_bl. by destruct (m s.(fs_bl)) as [[a|e|h] b]. Qed.

(** Vectors of other messages are as they were. *)
Definition others_unread (h : Z) (x x' : X) : Prop := forall h' j, h' <> h -> unread x' h' j = unread x h' j.

(** The component is in WRITING, its image goes to the area [f], and the flash holds [m]. *)
Definition writing s component f (m : Z -> Z) : Prop :=
  on_record s.(fwu_ctx) component (Some PSA_FWU_WRITING) /\ loads_into s.(fs_bl) component f /\
  forall a, held s.(fs_bl) a = m a.

Lemma start_component_erases s component f m : 0 <= component < FWU_COMPONENT_NUMBER -> slot_ok f ->
  flash_area_open (FLASH_AREA_IMAGE_SECONDARY component) = inr f ->
  Z.of_nat (length s.(fs_bl).(mcuboot_ctx)) = FWU_COMPONENT_NUMBER -> flag_read_only ->
  on_record s.(fwu_ctx) component None ->
  wp (start_component component m 0)
    (fun _ s' => writing s' component f (erased f (held s.(fs_bl))) /\ s'.(fs_io) = s.(fs_io))
    (fun e _ => e <> PSA_SUCCESS) (fun _ _ => True) s.
Proof.
  intros Hr Hslot Hopen Hlen Hro [[Hpos _] (c & Hc & Hv)].
  assert (c.(in_use) = false) as Hu by (unfold view in Hv; by destruct (in_use c)).
  unfold start_component. apply wp_bind. eapply wp_run; [by apply ctx_at_run|]. rewrite Hu. apply wp_bind.
  unfold get_image_info. apply wp_on_bl_of.
  eapply wp_mono; [apply (wp_and _ _ _ _ _ _ _ _ (info_steady component indeterminate_info s.(fs_bl) Hro)
    (info_gives component true false indeterminate_info s.(fs_bl)))|..]; cbn beta; [|by intros ? ? [_ []]|done].
  intros [status info] b1 [(E1 & _ & E3) _]. apply wp_bind, wp_fail_if.
    { intros Hf. by apply negb_true_iff, Z.eqb_neq in Hf. }
    intros _. apply wp_bind. unfold info_state. destruct (ci_state info) as [st|]; [|done]. apply wp_ret.
    apply wp_bind, wp_fail_if; [done|]. intros _. apply wp_bind.
    destruct (staging_ok b1 component f m Hr Hslot Hopen) as (b2 & Hst & Hload & _ & Hheld); [by rewrite E1|].
    eapply wp_run. { unfold on_bl. cbn [fs_bl set_fs_bl log_call fwu_bootloader_staging_area_init mcuboot_bootloader].
      rewrite Hst. reflexivity. }
    apply wp_bind, wp_fail_if; [done|]. intros _.
    eapply wp_use_then_state; [done|exact Hc|]. apply wp_ret. split; [|done]. split_and!; [|done|].
    + split; [lia|]. eexists. split; [eapply inserted; exact Hc|done].
    + intros a. cbn [fs_bl set_fwu_ctx set_fs_bl]. rewrite Hheld. unfold erased. by case_decide.
Qed.

(** What has to hold for an update of a component: its slot is a slot, and the library's
    query leaves the flash alone. *)
Definition updatable s component f : Prop :=
  0 <= component < FWU_COMPONENT_NUMBER /\ slot_ok f /\
  flash_area_open (FLASH_AREA_IMAGE_SECONDARY component) = inr f /\
  Z.of_nat (length s.(fs_bl).(mcuboot_ctx)) = FWU_COMPONENT_NUMBER /\ flag_read_only.

Lemma component_u8 component : 0 <= component < FWU_COMPONENT_NUMBER -> is_u8 component.
Proof. intros Hr. pose proof components_u8. unfold is_u8. lia. Qed.

Lemma start_erases s msg component f s1 : updatable s component f ->
  carries s.(fs_io) msg (psa_fwu_start component []) -> on_record s.(fwu_ctx) component None ->
  tfm_firmware_update_service_sfn msg s = (Val PSA_SUCCESS, s1) ->
  writing s1 component f (erased f (held s.(fs_bl))) /\ others_unread msg.(fm_handle) s.(fs_io) s1.(fs_io).
Proof.
  intros (Hr & Hslot & Hopen & Hlen & Hro) (Htype & Hin & _ & Hun) Hrec Hrun.
  pose proof (Hun 0%nat [component] eq_refl) as U0. change (Z.of_nat 0) with 0 in U0.
  destruct (read_component_run s msg component [] (component_u8 _ Hr) U0) as (x & Hrd & Hfr).
  pose proof (start_component_erases (set_fs_io x s) component f
    (if TFM_CONFIG_FWU_MAX_MANIFEST_SIZE =? 0 then None else Some []) Hr Hslot Hopen Hlen Hro Hrec) as Hw.
  assert (tfm_fwu_start msg s = start_component component
    (if TFM_CONFIG_FWU_MAX_MANIFEST_SIZE =? 0 then None else Some []) 0 (set_fs_io x s)) as Heq.
  { unfold tfm_fwu_start. unfold in_size. rewrite Hin. cbn [rq_in psa_fwu_start fmap list_fmap nth length].
    pose proof manifest_size_u32. rewrite (bind_fail_no false) by done. change (Z.of_nat 0) with 0.
    destruct (Z.gtb_spec 0 TFM_CONFIG_FWU_MAX_MANIFEST_SIZE); [lia|]. rewrite (bind_fail_no false) by done.
    rewrite (bind_val _ _ _ _ _ Hrd). destruct (Z.geb_spec component FWU_COMPONENT_NUMBER); [lia|].
    rewrite (bind_fail_no false) by done. reflexivity. }
  unfold tfm_firmware_update_service_sfn, returned, handler in Hrun. rewrite Htype in Hrun. cbn [rq_type psa_fwu_start] in Hrun.
  change (TFM_FWU_START =? TFM_FWU_START) with true in Hrun. cbv iota zeta in Hrun. rewrite Heq in Hrun.
  unfold wp in Hw. destruct (start_component _ _ _ _) as [[r|e|h] s'].
  - destruct Hw as [Hw Hio]. injection Hrun as -> <-. split; [done|]. rewrite Hio. intros h' j Hh. apply Hfr. by left.
  - injection Hrun as -> <-. done.
  - discriminate Hrun.
Qed.

(** One block. *)
Lemma write_stores s msg component f off block m : 0 <= component < FWU_COMPONENT_NUMBER -> area_ok f ->
  (FLASH_PROGRAM_UNIT | TFM_FWU_BUF_SIZE) -> (FLASH_PROGRAM_UNIT | off) -> 0 <= off ->
  off + Z.of_nat (length block) <= fa_size f -> Z.of_nat (length block) <= PSA_FWU_MAX_WRITE_SIZE ->
  carries s.(fs_io) msg (psa_fwu_write component off block) -> writing s component f m ->
  exists s1, tfm_firmware_update_service_sfn msg s = (Val PSA_SUCCESS, s1) /\
    writing s1 component f (overlay m (fa_off f + off) block) /\
    others_unread msg.(fm_handle) s.(fs_io) s1.(fs_io).
Proof.
  intros Hr Hok Hbuf Hal Hoff Hle Hmax Hcar (Hrec & Hload & Hheld).
  pose proof Hok as (A0 & A1 & A2 & _ & A3). pose proof unit_pos.
  assert (is_u32 off) as Hu32 by (unfold is_u32; lia).
  destruct (write_prologue s msg component off block (component_u8 _ Hr) (proj2 Hr) Hu32 Hmax Hcar Hrec)
    as (x & Hrun & Hun & Hfr).
  destruct (write_loop_takes msg component (set_fs_io x s) off block (fun got b =>
    loads_into b component f /\ forall a, held b a = overlay m (fa_off f + off) got a)) as (s1 & Hloop & Hc & [Hl1 Hh1] & Hf1).
  - intros got d b [Hlb Hhb] Hdiv Hne [rest Hpre].
    assert (length block = length got + length d + length rest)%nat as Hlens by (rewrite Hpre, !length_app; lia).
    destruct (load_image_ok b component f (off + Z.of_nat (length got)) d Hr Hlb Hok) as (b' & Hb' & Hlb' & _ & Hhb');
      [lia|lia|].
    exists b'. split; [done|]. split; [done|]. intros a. rewrite Hhb'.
    rewrite written_exact by (left; apply Z.divide_add_r; [done|exact (Z.divide_trans _ _ _ Hbuf Hdiv)]).
    rewrite <- overlay_app. rewrite <- Z.add_assoc. by apply overlay_ext.
  - done.
  - lia.
  - cbn [fs_bl set_fs_io]. split; [done|]. intros a. by rewrite overlay_nil.
  - done.
  - exists s1. unfold tfm_firmware_update_service_sfn, returned, handler.
    replace (fm_type msg) with TFM_FWU_WRITE by (symmetry; apply Hcar). cbv zeta.
    change (TFM_FWU_WRITE =? TFM_FWU_START) with false. change (TFM_FWU_WRITE =? TFM_FWU_WRITE) with true.
    cbv iota. rewrite Hrun, Hloop. split; [done|]. split; [|intros h j Hh; rewrite Hf1 by done; by apply Hfr].
    split_and!; [|done|done]. rewrite Hc. done.
Qed.

(** A run of messages that all return success. *)
Fixpoint all_succeed (msgs : list fwu_msg) s s' : Prop :=
  match msgs with
  | [] => s' = s
  | msg :: msgs' => exists s1, tfm_firmware_update_service_sfn msg s = (Val PSA_SUCCESS, s1) /\ all_succeed msgs' s1 s'
  end.

(** The writes [ws] (offset and block) laid over a memory, one after the other. *)
Definition laid (f : flash_area) (ws : list (Z * bytes)) (m : Z -> Z) : Z -> Z :=
  fold_left (fun m w => overlay m (fa_off f + w.1) w.2) ws m.

Definition block_ok (f : flash_area) (w : Z * bytes) : Prop :=
  0 <= w.1 /\ (FLASH_PROGRAM_UNIT | w.1) /\ w.1 + Z.of_nat (length w.2) <= fa_size f /\
  Z.of_nat (length w.2) <= PSA_FWU_MAX_WRITE_SIZE.

Lemma carries_others x x' msg rq h : carries x msg rq -> others_unread h x x' -> msg.(fm_handle) <> h ->
  carries x' msg rq.
Proof. intros (Ht & Hi & Ho & Hu) Hf Hne. split_and!; [done..|]. intros i v Hv. rewrite Hf by done. by apply Hu. Qed.

Lemma laid_ext f ws m m' a : (forall a, m a = m' a) -> laid f ws m a = laid f ws m' a.
Proof.
  revert m m'. induction ws as [|w ws IH]; intros m m' Hm; [apply Hm|]. apply IH. intros. by apply overlay_ext.
Qed.

Lemma writes_store component f msgs ws s m : 0 <= component < FWU_COMPONENT_NUMBER -> area_ok f ->
  (FLASH_PROGRAM_UNIT | TFM_FWU_BUF_SIZE) -> Forall (block_ok f) ws -> NoDup (fm_handle <$> msgs) ->
  Forall2 (fun msg w => carries s.(fs_io) msg (psa_fwu_write component w.1 w.2)) msgs ws ->
  writing s component f m ->
  exists s', all_succeed msgs s s' /\ writing s' component f (laid f ws m).
Proof.
  intros Hr Hok Hbuf. revert msgs s m. induction ws as [|w ws IH]; intros msgs s m Hws Hnd Hcar Hw.
  { apply Forall2_nil_inv_r in Hcar as ->. by exists s. }
  apply Forall2_cons_inv_r in Hcar as (msg & msgs' & Hc & Hcs & ->).
  inversion Hws as [|? ? (B0 & B1 & B2 & B3) Hws']; subst. cbn [fmap list_fmap] in Hnd.
  inversion Hnd as [|? ? Hni Hnd']; subst.
  destruct (write_stores s msg component f w.1 w.2 m Hr Hok Hbuf B1 B0 B2 B3 Hc Hw) as (s1 & Hrun & Hw1 & Hf1).
  destruct (IH msgs' s1 (overlay m (fa_off f + w.1) w.2) Hws' Hnd') as (s' & Hall & Hw'); [|done|].
  - clear -Hcs Hf1 Hni. induction Hcs as [|msg' w' msgs' ws' Hc' Hcs' IH']; constructor.
    + eapply carries_others; [exact Hc'|exact Hf1|]. intros E. apply Hni. rewrite <- E. by left.
    + apply IH'. intros Hin. apply Hni. by right.
  - exists s'. split; [by exists s1|done].
Qed.

(** Blocks that follow each other from an offset. *)
Fixpoint consecutive (off : Z) (ws : list (Z * bytes)) : Prop :=
  match ws with
  | [] => True
  | w :: ws' => w.1 = off /\ consecutive (off + Z.of_nat (length w.2)) ws'
  end.

Lemma laid_consecutive f off ws m a : consecutive off ws ->
  laid f ws m a = overlay m (fa_off f + off) (concat (snd <$> ws)) a.
Proof.
  revert off m. induction ws as [|[o d] ws IH]; intros off m Hc; cbn [fmap list_fmap concat snd].
  { by rewrite overlay_nil. }
  destruct Hc as [Ho Hc]. cbn [fst snd] in Ho, Hc. subst o. cbn [laid fold_left fst snd].
  fold (laid f ws (overlay m (fa_off f + off) d)). rewrite (IH (off + Z.of_nat (length d))) by done.
  by rewrite Z.add_assoc, overlay_app.
Qed.

(** C24: an image reaches its slot byte for byte. Let the client begin an update of a
    component without one, and let the request return success. Whatever blocks it then
    writes, each at an offset on a program unit, within the slot and within the limit of a
    request, every request returns success, and the flash device holds, in the slot of
    the component, the blocks at their offsets (a later block over an earlier one) on
    erased flash, and outside the slot exactly what it held before the update began;
    blocks that follow each other from offset 0 make the slot begin with the image they
    are the pieces of. This goes through the four layers: the requests are split to the
    service's buffer, MCUboot's part finds the area, the flash areas align the accesses,
    and the driver stores whole program units. *)
Theorem image_reaches_slot s component f start s1 msgs ws :
  updatable s component f -> (FLASH_PROGRAM_UNIT | TFM_FWU_BUF_SIZE) ->
  on_record s.(fwu_ctx) component None -> NoDup (fm_handle <$> start :: msgs) ->
  carries s.(fs_io) start (psa_fwu_start component []) ->
  Forall2 (fun msg w => carries s.(fs_io) msg (psa_fwu_write component w.1 w.2)) msgs ws ->
  Forall (block_ok f) ws ->
  tfm_firmware_update_service_sfn start s = (Val PSA_SUCCESS, s1) ->
  exists s2, all_succeed msgs s1 s2 /\
    writing s2 component f (laid f ws (erased f (held s.(fs_bl)))) /\
    (consecutive 0 ws -> forall a, held s2.(fs_bl) a =
       overlay (erased f (held s.(fs_bl))) (fa_off f) (concat (snd <$> ws)) a).
Proof.
  intros Hup Hbuf Hidle Hnd Hstart Hcar Hws Hrun. pose proof Hup as (Hr & (Hok & _) & _).
  cbn [fmap list_fmap] in Hnd. inversion Hnd as [|? ? Hni Hnd']; subst.
  destruct (start_erases s start component f s1 Hup Hstart Hidle Hrun) as [Hw Hf].
  destruct (writes_store component f msgs ws s1 (erased f (held s.(fs_bl)))) as (s2 & Hall & Hw2); try done.
  - clear -Hcar Hf Hni. induction Hcar as [|msg w msgs ws Hc Hcs IH]; constructor.
    + eapply carries_others; [exact Hc|exact Hf|]. intros E. apply Hni. rewrite <- E. by left.
    + apply IH. intros Hin. apply Hni. by right.
  - exists s2. split; [done|]. split; [done|]. intros Hcon a. destruct Hw2 as (_ & _ & Hh).
    by rewrite Hh, (laid_consecutive f 0), Z.add_0_r.
Qed.
End Image.
