(* ===== verification/FwuSample.v ===== *)
(** Firmware update and boot data: concrete runs.

    Two components with slots of 64 bytes on the flash of [FlashNor]'s driver, program
    units of 8 bytes; the bootloader has left the versions of the two images and one
    record for another partition.  The first image is on trial, the second accepted. *)

From stdpp Require Import base list numbers gmap.
From S2P Require Import Prelude FlashNor FlashMap BootData FwuTypes FwuService FwuStates FwuLifecycle McuBoot FwuWrite FwuImage.

(** ** The build *)

#[export] Instance sample_map : FlashMapBuild := {|
  flash_map := [ {| fa_id := 1; fa_device_id := 0; fa_off := 0; fa_size := 64 |};
                 {| fa_id := 2; fa_device_id := 0; fa_off := 64; fa_size := 64 |};
                 {| fa_id := 3; fa_device_id := 0; fa_off := 128; fa_size := 64 |};
                 {| fa_id := 4; fa_device_id := 0; fa_off := 192; fa_size := 64 |} ];
  FLASH_PROGRAM_UNIT := 8;
  fi_uniform := true;
  fi_sector_size := sim_sector;
  fi_program_unit := 8;
  fi_erased_value := 255;
  boot_u32_safe_add a b := if a + b <? 2 ^ 32 then Some (a + b) else None;
|}.

#[export] Instance sample_map_ok : FlashMapOk (H := sim_flash).
Proof. constructor; [done|by exists 3|by exists 2]. Qed.

#[export] Instance sample_drivers : FlashDrivers sim_flash := {| flash_driver := [mret ARM_DRIVER_OK] |}.

#[export] Instance sample_fwu : FwuBuild := {|
  FWU_COMPONENT_NUMBER := 2;
  TFM_CONFIG_FWU_MAX_MANIFEST_SIZE := 0;
  PSA_FWU_MAX_WRITE_SIZE := 32;
  TFM_FWU_BUF_SIZE := 8;
  FWU_SUPPORT_TRIAL_STATE := true;
  FWU_MCUBOOT_BOOTLOADER_LIB := true;
  sizeof_component_info := 40;
|}.

#[export] Instance sample_fwu_ok : FwuBuildOk.
Proof. by constructor. Qed.

(** Partition 5 is the update partition. *)
#[export] Instance sample_policy : BootBuild := {|
  BOOT_MEASUREMENT_SLOT_MAX := 8;
  access_policy_table := [(0, TLV_MAJOR_INVALID); (5, TLV_MAJOR_FWU); (6, TLV_MAJOR_IAS)];
|}.

Definition sample_version (l : bytes) : image_version :=
  {| iv_major := nth 0 l 0; iv_minor := nth 1 l 0; iv_revision := of_le16 (drop 2 l); iv_build_num := of_le32 (drop 4 l) |}.

#[export] Instance sample_mcu : McuBuild := {|
  FLASH_AREA_0_ID := 1;
  FLASH_AREA_1_ID := 2;
  FLASH_AREA_2_ID := 3;
  FLASH_AREA_3_ID := 4;
  swap_upgrade := true;
  confirm_needed := true;
  BOOT_MAGIC_SZ := 16;
  BOOT_MAX_ALIGN := 8;
  BOOT_MAGIC_ALIGN_SIZE := 16;
  BOOT_TMPBUF_SZ := 16;
  BOOT_FLAG_SET := 1;
  ALIGN_DOWN x a := x / a * a;
  ALIGN_UP x a := (x + (a - 1)) / a * a;
  IMAGE_MAGIC := 61;
  IMAGE_TLV_DEPENDENCY := 64;
  TFM_FWU_MAX_DIGEST_SIZE := 32;
  TFM_SP_FWU := 5;
  sizeof_image_version := 8;
  sizeof_image_header := 12;
  sizeof_image_dependency := 12;
  version_of := sample_version;
  header_magic := of_le32;
  header_version l := sample_version (drop 4 l);
  dep_image_id := of_le32;
  dep_min_version l := sample_version (drop 4 l);
  dep_on_stack := replicate 12 0;
|}.

(** The flag of an image is the byte 40 of its slot. *)
#[export] Instance sample_bootutil : Bootutil sim_flash := {|
  tlv_iter := unit;
  boot_set_pending_multi _ _ := mret 0;
  boot_set_confirmed_multi _ := mret 0;
  boot_read_image_ok f := fun h => (Val (0, h (fa_off f + 40)), h);
  bootutil_tlv_iter_begin _ _ _ _ := mret (0, tt);
  bootutil_tlv_iter_next _ := mret (1, tt, 0, 0);
|}.

#[export] Instance sample_hash : HashService unit := {|
  psa_hash_setup _ := mret 0;
  psa_hash_update _ := mret 0;
  psa_hash_finish _ := mret (0, []);
|}.

(** The bytes of a vector that were not read yet. *)
Definition sample_io : Type := Z -> Z -> bytes.
#[export] Instance sample_fwu_io : FwuIo sample_io := {|
  psa_read h i n := fun x =>
    (Val (take (Z.to_nat n) (x h i)),
     fun h' j => if (h' =? h) && (j =? i) then drop (Z.to_nat n) (x h i) else x h' j);
  psa_write _ _ _ := mret tt;
  tfm_platform_system_reset := mret tt;
|}.

#[export] Instance sample_io_ok : FwuIoOk sample_io.
Proof.
  refine {| unread := fun x => x |}. intros x h i n Hn. eexists. split; [reflexivity|]. split.
  - by rewrite !Z.eqb_refl.
  - intros h' j Hne. destruct (Z.eqb_spec h' h), (Z.eqb_spec j i); cbn [andb]; try done. lia.
Defined.

(** ** Boot data *)

Definition sample_records : list boot_record :=
  [ {| br_major := TLV_MAJOR_FWU; br_minor := SW_VERSION; br_data := [1; 2; 3; 0; 4; 0; 0; 0] |};
    {| br_major := TLV_MAJOR_IAS; br_minor := 9; br_data := [77; 78] |};
    {| br_major := TLV_MAJOR_FWU; br_minor := 64; br_data := [2; 0; 0; 0; 9; 0; 0; 0] |} ].

Definition sample_boot : boot_state := {| bs_valid := 0; bs_area := replicate 64 165; bs_buf := replicate 32 0 |}.
Definition booted : boot_state := (add_records sample_records sample_boot).2.
Definition validated : boot_state := (tfm_core_validate_boot_data false booted).2.


(** ** The update service *)

(** The flash is programmed with the low byte of the address; the image of the second
    component is confirmed. *)
Definition sample_flash : sim_flash := fun a => if a =? 104 then 1 else a mod 256.
Definition sample_state (x : sample_io) : fwu_state (mcu_state sim_flash unit) sample_io := {|
  fwu_ctx := initial_ctx;
  fs_bl := {| mcuboot_ctx := replicate 2 {| fap := None; loaded_size := 0 |};
              mc_boot := validated; mc_flash := sample_flash; mc_hash := tt |};
  fs_io := x;
  fs_calls := [];
|}.

(** The partition after its start: it has the versions. *)
Definition started (x : sample_io) : fwu_state (mcu_state sim_flash unit) sample_io :=
  (tfm_fwu_entry (sample_state x)).2.

(** A request of the client as the SPM presents it. *)
Definition message_for (handle : Z) (rq : fwu_request) : fwu_msg := {|
  fm_type := rq.(rq_type);
  fm_handle := handle;
  fm_in_size := (fun v : bytes => Z.of_nat (length v)) <$> rq.(rq_in);
  fm_out_size := rq.(rq_out);
|}.

(** The vectors of requests; the place in the list is the handle. *)
Definition vectors (rqs : list fwu_request) : sample_io := fun h i =>
  nth (Z.to_nat i) (rq_in (nth (Z.to_nat h) rqs psa_fwu_install)) [].

(** An update of the second component: begin, two blocks, finish, install. *)
Definition sample_block (a : Z) (n : nat) : bytes := (fun i => 100 + a + Z.of_nat i) <$> seq 0 n.
Definition sample_requests : list fwu_request :=
  [ psa_fwu_start 1 []; psa_fwu_write 1 0 (sample_block 0 16); psa_fwu_write 1 16 (sample_block 16 13);
    psa_fwu_finish 1; psa_fwu_cancel 1; psa_fwu_clean 1; psa_fwu_reject (-7) ].
Definition sample_msgs : list fwu_msg :=
  imap (fun i rq => message_for (Z.of_nat i) rq) sample_requests.
Definition sample_start : fwu_state (mcu_state sim_flash unit) sample_io := started (vectors sample_requests).
Definition nth_msg (i : nat) : fwu_msg := nth i sample_msgs (message_for 0 psa_fwu_install).

(** The state after the first messages. *)
Fixpoint serve (msgs : list fwu_msg) (s : fwu_state (mcu_state sim_flash unit) sample_io) :=
  match msgs with
  | [] => s
  | msg :: msgs' => serve msgs' (tfm_firmware_update_service_sfn msg s).2
  end.
Definition after (n : nat) := serve (take n sample_msgs) sample_start.

Definition is_val {A} (o : outcome A) : bool := match o with Val _ => true | _ => false end.
Fixpoint all_return (msgs : list fwu_msg) (s : fwu_state (mcu_state sim_flash unit) sample_io) : bool :=
  match msgs with
  | [] => true
  | msg :: msgs' =>
      let r := tfm_firmware_update_service_sfn msg s in
      is_val r.1 && all_return msgs' r.2
  end.
Lemma serve_run msgs s : all_return msgs s = true -> run msgs s (serve msgs s).
Proof.
  revert s. induction msgs as [|msg msgs IH]; intros s Hr; [constructor|]. cbn [all_return serve] in *.
  apply andb_true_iff in Hr as [Hv Hr]. destruct (tfm_firmware_update_service_sfn msg s) as [[st|e|h] s1] eqn:E; try done.
  eapply run_cons; [exact E|]. by apply IH.
Qed.

Example sample_starts : (tfm_fwu_entry (sample_state (vectors sample_requests))).1 = Val PSA_SUCCESS.
Proof. vm_compute. reflexivity. Qed.

(** What the six requests of the update leave on record. *)
Example sample_runs :
  (fun n => view <$> fwu_ctx (after n)) <$> [1; 3; 4; 5; 6]%nat =
    [ [None; Some PSA_FWU_WRITING]; [None; Some PSA_FWU_WRITING]; [None; Some PSA_FWU_CANDIDATE];
      [None; Some PSA_FWU_FAILED]; [None; None] ].
Proof. vm_compute. reflexivity. Qed.

Lemma components_follow_diagram_witness :
  ctxs_ok (after 3).(fwu_ctx) /\ moves TFM_FWU_FINISH (after 3).(fwu_ctx) (after 4).(fwu_ctx).
Proof.
  apply (components_follow_diagram (take 3 sample_msgs) sample_start (after 3) (nth_msg 3) (Val PSA_SUCCESS)).
  - vm_compute. reflexivity.
  - vm_compute. reflexivity.
  - apply serve_run. vm_compute. reflexivity.
  - vm_compute. reflexivity.
Defined.


(** The calls there were. *)
Example sample_calls : fst <$> (after 6).(fs_calls) =
  [ CallInfo 1 true false; CallStage 1 0;
    CallLoad 1 0 (sample_block 0 8); CallLoad 1 8 (sample_block 8 8);
    CallLoad 1 16 (sample_block 16 8); CallLoad 1 24 (sample_block 24 5); CallClean 1 ].
Proof. vm_compute. reflexivity. Qed.

(** ** Blocks and images *)

Lemma carries_vectors i rq (x : sample_io) : (forall h j, x h j = vectors sample_requests h j) ->
  nth i sample_requests psa_fwu_install = rq ->
  carries x (message_for (Z.of_nat i) rq) rq.
Proof.
  intros Hx <-. split_and!; [done..|]. intros j v Hv. cbn [fm_handle message_for].
  change (x (Z.of_nat i) (Z.of_nat j) = v). rewrite Hx. unfold vectors. rewrite !Nat2Z.id.
  by apply nth_lookup_Some with (d := []) in Hv.
Qed.

Lemma sample_load_status : load_gives_status (B := mcu_state sim_flash unit).
Proof.
  intros component off d b e b'. cbn [fwu_bootloader_load_image mcuboot_bootloader]. unfold mcu_load_image, as_status.
  match goal with |- context [match ?m with _ => _ end] => destruct m as [[a|e'|h] b''] end; discriminate.
Qed.

(** The second block, of 13 bytes, goes to the bootloader in two pieces. *)
Lemma write_delivers_block_witness :
  (after 3).(fs_calls) = (after 2).(fs_calls) ++
    load_calls 1 (after 2).(fwu_ctx) [(16, sample_block 16 8); (24, sample_block 24 5)].
Proof.
  destruct (write_delivers_block (after 2) (nth_msg 2) 1 16 (sample_block 16 13)) as (_ & sent & _ & Hrun).
  - exact sample_load_status.
  - by vm_compute.
  - by vm_compute.
  - by vm_compute.
  - vm_compute. discriminate.
  - split_and!; [reflexivity..|]. intros [|[|[|i]]] v Hv; [..|discriminate]; injection Hv as <-; vm_compute; reflexivity.
  - split; [split; [discriminate|reflexivity]|]. eexists. split; vm_compute; reflexivity.
  - destruct (tfm_firmware_update_service_sfn (nth_msg 2) (after 2)) as [o s'] eqn:E.
    assert (s' = after 3) as -> by exact (eq_sym (f_equal snd E)).
    destruct Hrun as (_ & Hc & Hall). rewrite Hc, Hall.
    + vm_compute. reflexivity.
    + transitivity ((tfm_firmware_update_service_sfn (nth_msg 2) (after 2)).1); [by rewrite E|].
      vm_compute. reflexivity.
Defined.

Definition second_slot : flash_area := {| fa_id := 4; fa_device_id := 0; fa_off := 192; fa_size := 64 |}.

Lemma second_slot_ok : slot_ok sim_sector second_slot.
Proof.
  unfold slot_ok, area_ok, sim_sector. cbn. split_and!; try lia; try done; try (by eexists (_ : Z)).
  - by exists 24.
  - by exists 8.
  - by exists 12.
  - by exists 4.
Qed.

Lemma sample_flag_read_only : flag_read_only (fun h : sim_flash => h).
Proof. done. Qed.

(** The second slot holds the image of 29 bytes, and after it erased flash. *)
Lemma image_reaches_slot_witness :
  exists s2, all_succeed [nth_msg 1; nth_msg 2] (after 1) s2 /\
    forall a, held (fun h : sim_flash => h) s2.(fs_bl) a =
      overlay (erased 255 second_slot (held (fun h : sim_flash => h) sample_start.(fs_bl))) 192 (sample_block 0 29) a.
Proof.
  destruct (image_reaches_slot (fun h : sim_flash => h) sim_sector 255 sample_start 1 second_slot (nth_msg 0) (after 1)
    [nth_msg 1; nth_msg 2] [(0, sample_block 0 16); (16, sample_block 16 13)]) as (s2 & Hall & _ & Himg).
  - split_and!; [done|done|exact second_slot_ok|by vm_compute|by vm_compute|exact sample_flag_read_only].
  - by exists 1.
  - split; [split; [discriminate|reflexivity]|]. eexists. split; vm_compute; reflexivity.
  - apply (bool_decide_unpack _). vm_compute. exact I.
  - apply (carries_vectors 0); reflexivity.
  - repeat constructor; [apply (carries_vectors 1)|apply (carries_vectors 2)]; reflexivity.
  - repeat constructor; try (by vm_compute); try (by exists 0); try (by exists 2); vm_compute; discriminate.
  - vm_compute. reflexivity.
  - exists s2. split; [exact Hall|]. intros a. rewrite Himg by (split; [reflexivity|split; [vm_compute; reflexivity|exact I]]).
    reflexivity.
Defined.

(** ** A rejection *)

(** The first component is on record as on trial. *)
Definition on_trial : fwu_state (mcu_state sim_flash unit) sample_io :=
  set_fwu_ctx [ {| cx_error := 0; component_state := PSA_FWU_TRIAL; in_use := true |};
                {| cx_error := 0; component_state := 0; in_use := false |} ] sample_start.

Lemma sample_needs_reboot : needs_reboot (fun b => b = on_trial.(fs_bl)) 0.
Proof.
  constructor.
  - intros i info b Hi Hne ->. assert (i = 1) as -> by (change FWU_COMPONENT_NUMBER with 2 in Hi; lia).
    do 2 eexists. split; [vm_compute; reflexivity|]. split; [reflexivity|vm_compute; reflexivity].
  - intros b ->. eexists. by split.
Qed.

(** A reboot is needed, and the answer is [PSA_SUCCESS]. *)
Lemma reject_reports_last_component_witness :
  (tfm_firmware_update_service_sfn (nth_msg 6) on_trial).1 = Val PSA_SUCCESS /\
  (tfm_firmware_update_service_sfn (nth_msg 6) on_trial).2.(fwu_ctx) !! 0%nat = Some (rejected_ctx (-7)).
Proof.
  destruct (reject_reports_last_component (fun b => b = on_trial.(fs_bl)) on_trial (nth_msg 6) 0 (-7)) as (s' & Hrun & Hctx).
  - exact sample_needs_reboot.
  - reflexivity.
  - split; [reflexivity|]. split; [done|]. intros [|[|i]] c Hc; [injection Hc as <-; reflexivity..|].
    by apply lookup_lt_Some in Hc; vm_compute in Hc; lia.
  - done.
  - lia.
  - apply (carries_vectors 6); reflexivity.
  - rewrite Hrun. cbn [fst snd]. split; [reflexivity|]. rewrite Hctx. vm_compute. reflexivity.
Defined.

(** ** Flash areas *)

(** Five bytes at the offset 11 of the second slot, within one program unit. *)
Lemma area_accesses_exact_witness :
  exists h h', flash_area_write second_slot 11 [1; 2; 3; 4; 5] sample_flash = (Val tt, h) /\
    flash_area_read second_slot 11 5 h = (Val [1; 2; 3; 4; 5], h') /\ h 202 = 202 /\ h 208 = 208.
Proof.
  destruct (area_accesses_exact (fun h : sim_flash => h) sim_sector 255 second_slot 11 sample_flash) as [_ Hw].
  - exact (proj1 second_slot_ok).
  - split; done.
  - destruct (Hw [1; 2; 3; 4; 5]) as (h & Hr & Hh & h' & Hr').
    + split; done.
    + right. vm_compute. discriminate.
    + exists h, h'. split; [exact Hr|]. split; [exact Hr'|]. by rewrite !Hh.
Defined.

(** Twelve bytes from the offset 12: the first whole unit begins with the first byte again. *)
Example misaligned_write :
  (flash_area_write second_slot 12 ((fun i => 100 + Z.of_nat i) <$> seq 0 12) sample_flash).1 = Val tt /\
  (fun a => (flash_area_write second_slot 12 ((fun i => 100 + Z.of_nat i) <$> seq 0 12) sample_flash).2 a) <$> seqZ 204 12 =
    [100; 101; 102; 103; 100; 101; 102; 103; 104; 105; 106; 107].
Proof. split; vm_compute; reflexivity. Qed.
