(* ===== verification/NsCtx.v ===== *)
(** Non-secure client extension: which thread of the non-secure world is calling
    ([spm/ns_client_ext/]).

    The scheduler of the non-secure world tells the SPM which of its threads runs: it
    acquires a context for a thread, and loads and saves it when the thread is switched
    in and out.  Threads of one group share a context.  The functions are called with
    interrupts off, so each is one step. *)

From stdpp Require Import base list numbers.
From S2P Require Import Prelude.

(** ** Constants *)

Definition TFM_NS_CLIENT_INVALID_ID : Z := 0.
Definition TFM_NS_CLIENT_INVALID_TOKEN : Z := 2 ^ 32 - 1.
Definition TFM_NS_CLIENT_ERR_SUCCESS : Z := 0.
Definition TFM_NS_CLIENT_ERR_INVALID_TOKEN : Z := 1.
Definition TFM_NS_CLIENT_ERR_INVALID_NSID : Z := 2.
Definition TFM_NS_CLIENT_ERR_INVALID_ACCESS : Z := 3.
Definition TFM_NS_CONTEXT_MAX_TID : Z := 255.
Definition DEFAULT_NS_CLIENT_ID : Z := -1.

(** The number of contexts, and whether the non-secure world manages its identifiers.
    The header sets the number to 1; the code is written for any that an index of eight
    bits can take. *)
Class NsBuild := {
  TFM_NS_CONTEXT_MAX : Z;
  TFM_NS_MANAGE_NSID : bool;
}.

(** [struct tfm_ns_ctx_t] *)
Record tfm_ns_ctx_t := {
  nsid : Z;
  gid : Z;
  tid : Z;
  ref_cnt : Z;
}.
Definition set_ref_cnt (n : Z) (c : tfm_ns_ctx_t) : tfm_ns_ctx_t :=
  {| nsid := c.(nsid); gid := c.(gid); tid := c.(tid); ref_cnt := n |}.
Definition set_gid (g : Z) (c : tfm_ns_ctx_t) : tfm_ns_ctx_t :=
  {| nsid := c.(nsid); gid := g; tid := c.(tid); ref_cnt := c.(ref_cnt) |}.
Definition set_thread (t n : Z) (c : tfm_ns_ctx_t) : tfm_ns_ctx_t :=
  {| nsid := n; gid := c.(gid); tid := t; ref_cnt := c.(ref_cnt) |}.

(** [struct client_id_region_t] *)
Record client_id_region_t := {
  base : Z;
  limit : Z;
}.

Record ns_state := {
  ns_ctx_data : list tfm_ns_ctx_t;
  active_ns_ctx_index : Z;
  client_id_regions : client_id_region_t;
}.
Definition set_ctx_data (l : list tfm_ns_ctx_t) (s : ns_state) : ns_state :=
  {| ns_ctx_data := l; active_ns_ctx_index := s.(active_ns_ctx_index); client_id_regions := s.(client_id_regions) |}.
Definition set_active (i : Z) (s : ns_state) : ns_state :=
  {| ns_ctx_data := s.(ns_ctx_data); active_ns_ctx_index := i; client_id_regions := s.(client_id_regions) |}.
Definition set_regions (r : client_id_region_t) (s : ns_state) : ns_state :=
  {| ns_ctx_data := s.(ns_ctx_data); active_ns_ctx_index := s.(active_ns_ctx_index); client_id_regions := r |}.

Abbreviation NS := (M ns_state).

(** ** Tokens *)

Definition MAKE_NS_CLIENT_TOKEN (tid gid idx : Z) : Z :=
  Z.land (u32 (Z.lor (Z.lor (Z.land tid 255) (Z.shiftl (Z.land gid 255) 8)) (Z.shiftl (Z.land idx 255) 16))) 16777215.
Definition IS_INVALID_TOKEN (token : Z) : bool := truth (Z.land token 4278190080).
Definition NS_CLIENT_TOKEN_TO_CTX_IDX (token : Z) : Z := Z.land (Z.shiftr token 16) 255.
Definition NS_CLIENT_TOKEN_TO_GID (token : Z) : Z := Z.land (Z.shiftr token 8) 255.
Definition NS_CLIENT_TOKEN_TO_TID (token : Z) : Z := Z.land token 255.

Section Contexts.
Context `{NsBuild}.

(** ** The contexts ([tfm_ns_ctx.c]) *)

(** [ns_ctx_data[idx]] *)
Definition ns_ctx_at (idx : Z) : NS tfm_ns_ctx_t :=
  s ← getS;
  match (if idx <? 0 then None else s.(ns_ctx_data) !! Z.to_nat idx) with
  | Some c => mret c
  | None => stop OutOfBounds
  end.
Definition upd_ns_ctx (idx : Z) (f : tfm_ns_ctx_t -> tfm_ns_ctx_t) : NS unit :=
  c ← ns_ctx_at idx;
  modifyS (fun s => set_ctx_data (<[Z.to_nat idx := f c]> s.(ns_ctx_data)) s).

Definition init_ns_ctx : NS bool :=
  _ ← fold_range 0 TFM_NS_CONTEXT_MAX tt (fun i _ => upd_ns_ctx i (set_ref_cnt 0));
  _ ← modifyS (set_active TFM_NS_CONTEXT_MAX);
  mret true.

(** One round of the scan for a group: [inr] leaves the function. *)
Definition scan_step (g : Z) (x : Z * Z) : NS (Z * Z + (Z + option Z)) :=
  let '(i, empty_ctx_idx) := x in
  if i <? TFM_NS_CONTEXT_MAX then
    c ← ns_ctx_at i;
    if c.(ref_cnt) >? 0 then
      if c.(gid) =? g then
        if c.(ref_cnt) <? TFM_NS_CONTEXT_MAX_TID then
          _ ← upd_ns_ctx i (fun c => set_ref_cnt (u8 (c.(ref_cnt) + 1)) c);
          mret (inr (inr (Some i)))
        else mret (inr (inr None))
      else mret (inl (i + 1, empty_ctx_idx))
    else mret (inl (i + 1, if empty_ctx_idx =? TFM_NS_CONTEXT_MAX then i else empty_ctx_idx))
  else mret (inr (inl empty_ctx_idx)).

(** The index that is given out, or nothing. *)
Definition acquire_ns_ctx (g : Z) : NS (option Z) :=
  r ← while_loop (scan_step g) (0, TFM_NS_CONTEXT_MAX);
  match r with
  | inr r => mret r
  | inl empty_ctx_idx =>
      if empty_ctx_idx <? TFM_NS_CONTEXT_MAX then
        _ ← upd_ns_ctx empty_ctx_idx (fun c => set_ref_cnt (u8 (c.(ref_cnt) + 1)) c);
        _ ← upd_ns_ctx empty_ctx_idx (set_gid g);
        mret (Some empty_ctx_idx)
      else mret None
  end.

Definition drop_ref (c : tfm_ns_ctx_t) : tfm_ns_ctx_t := set_ref_cnt (u8 (c.(ref_cnt) - 1)) c.

Definition release_ns_ctx (g t idx : Z) : NS bool :=
  if idx >=? TFM_NS_CONTEXT_MAX then mret false
  else
    c ← ns_ctx_at idx;
    if negb (c.(gid) =? g) then mret false
    else
      s ← getS;
      _ ← (if idx =? s.(active_ns_ctx_index) then
             if c.(tid) =? t then
               _ ← (if c.(ref_cnt) >? 0 then upd_ns_ctx idx drop_ref else mret tt);
               modifyS (set_active TFM_NS_CONTEXT_MAX)
             else if c.(ref_cnt) >? 1 then upd_ns_ctx idx drop_ref else mret tt
           else if c.(ref_cnt) >? 0 then upd_ns_ctx idx drop_ref else mret tt);
      mret true.

Definition load_ns_ctx (g t n idx : Z) : NS bool :=
  if idx >=? TFM_NS_CONTEXT_MAX then mret false
  else
    c ← ns_ctx_at idx;
    if negb (c.(gid) =? g) || (c.(ref_cnt) =? 0) then mret false
    else
      _ ← upd_ns_ctx idx (set_thread t n);
      _ ← modifyS (set_active idx);
      mret true.

Definition save_ns_ctx (g t idx : Z) : NS bool :=
  s ← getS;
  if negb (idx =? s.(active_ns_ctx_index)) || (idx >=? TFM_NS_CONTEXT_MAX) then mret false
  else
    c ← ns_ctx_at idx;
    if negb (c.(gid) =? g) || negb (c.(tid) =? t) || (c.(ref_cnt) =? 0) then mret false
    else
      _ ← modifyS (set_active TFM_NS_CONTEXT_MAX);
      mret true.

Definition get_nsid_from_active_ns_ctx : NS Z :=
  s ← getS;
  if s.(active_ns_ctx_index) <? TFM_NS_CONTEXT_MAX then
    c ← ns_ctx_at s.(active_ns_ctx_index);
    mret c.(nsid)
  else mret TFM_NS_CLIENT_INVALID_ID.

(** ** The veneers ([tfm_ns_client_ext.c])

    [thread_mode]: the caller runs in thread mode. *)

Definition tfm_nsce_init (thread_mode : bool) (ctx_requested : Z) : NS Z :=
  if thread_mode then mret 0
  else if ctx_requested =? 0 then mret TFM_NS_CONTEXT_MAX
  else mret (if ctx_requested <=? TFM_NS_CONTEXT_MAX then ctx_requested else TFM_NS_CONTEXT_MAX).

Definition tfm_nsce_acquire_ctx (thread_mode : bool) (group_id thread_id : Z) : NS Z :=
  if thread_mode then mret TFM_NS_CLIENT_ERR_INVALID_ACCESS
  else
    r ← acquire_ns_ctx group_id;
    match r with
    | None => mret TFM_NS_CLIENT_INVALID_TOKEN
    | Some ns_ctx_idx => mret (MAKE_NS_CLIENT_TOKEN thread_id group_id (u8 ns_ctx_idx))
    end.

Definition by_token (token : Z) (f : Z -> Z -> Z -> NS bool) : NS Z :=
  if IS_INVALID_TOKEN token then mret TFM_NS_CLIENT_ERR_INVALID_TOKEN
  else
    ok ← f (NS_CLIENT_TOKEN_TO_GID token) (NS_CLIENT_TOKEN_TO_TID token) (NS_CLIENT_TOKEN_TO_CTX_IDX token);
    mret (if ok : bool then TFM_NS_CLIENT_ERR_SUCCESS else TFM_NS_CLIENT_ERR_INVALID_TOKEN).

Definition tfm_nsce_release_ctx (thread_mode : bool) (token : Z) : NS Z :=
  if thread_mode then mret TFM_NS_CLIENT_ERR_INVALID_ACCESS else by_token token release_ns_ctx.

Definition tfm_nsce_load_ctx (thread_mode : bool) (token n : Z) : NS Z :=
  if thread_mode then mret TFM_NS_CLIENT_ERR_INVALID_ACCESS
  else if n >=? 0 then mret TFM_NS_CLIENT_ERR_INVALID_NSID
  else by_token token (fun g t idx => load_ns_ctx g t n idx).

Definition tfm_nsce_save_ctx (thread_mode : bool) (token : Z) : NS Z :=
  if thread_mode then mret TFM_NS_CLIENT_ERR_INVALID_ACCESS else by_token token save_ns_ctx.

(** ** The identifier the SPM sees ([tfm_spm_ns_ctx.c]) *)

Definition tz_ns_agent_register_client_id_range (client_id_base client_id_limit : Z) : NS unit :=
  modifyS (set_regions {| base := client_id_base; limit := client_id_limit |}).

(** The result of a signed operation; an overflow is undefined. *)
Definition signed (x : Z) : NS Z :=
  if (- 2 ^ 31 <=? x) && (x <? 2 ^ 31) then mret x else stop OutOfBounds.

(** The status, and the identifier on success; the place for it is never null. *)
Definition tz_ns_agent_client_id_translate (client_id_in : Z) : NS (option Z) :=
  if client_id_in >=? 0 then mret None
  else
    s ← getS;
    let r := s.(client_id_regions) in
    d ← signed (r.(limit) - r.(base));
    m ← signed (-1 * d);
    min_client_id ← signed (m - 1);
    if client_id_in <? min_client_id then mret None
    else
      l ← signed (r.(limit) + 1);
      out ← signed (l + client_id_in);
      mret (Some out).

Definition tfm_nspm_get_current_client_id : NS Z :=
  input_client_id ← (if TFM_NS_MANAGE_NSID then get_nsid_from_active_ns_ctx else mret DEFAULT_NS_CLIENT_ID);
  r ← tz_ns_agent_client_id_translate input_client_id;
  match r with
  | None => mret TFM_NS_CLIENT_INVALID_ID
  | Some translated_client_id => mret translated_client_id
  end.

(** The part of [tfm_nspm_ctx_init] that is not about registers. *)
Definition tfm_nspm_ctx_init : NS unit :=
  if TFM_NS_MANAGE_NSID then
    ok ← init_ns_ctx;
    panic_if (negb ok)
  else mret tt.

(** All zeros but the index, before anything ran. *)
Definition reset_state : ns_state := {|
  ns_ctx_data := replicate (Z.to_nat TFM_NS_CONTEXT_MAX) {| nsid := 0; gid := 0; tid := 0; ref_cnt := 0 |};
  active_ns_ctx_index := TFM_NS_CONTEXT_MAX;
  client_id_regions := {| base := 0; limit := 0 |};
|}.
End Contexts.

(** * Non-secure client extension: the identifier the SPM sees is that of the thread the
    non-secure scheduler loaded last. *)

(** ** Tokens *)

Lemma land_255 x : Z.land x 255 = x mod 2 ^ 8.
Proof. change 255 with (Z.ones 8). by rewrite Z.land_ones. Qed.

Lemma token_fields token :
  NS_CLIENT_TOKEN_TO_TID token = token mod 2 ^ 8 /\
  NS_CLIENT_TOKEN_TO_GID token = token / 2 ^ 8 mod 2 ^ 8 /\
  NS_CLIENT_TOKEN_TO_CTX_IDX token = token / 2 ^ 16 mod 2 ^ 8.
Proof.
  unfold NS_CLIENT_TOKEN_TO_TID, NS_CLIENT_TOKEN_TO_GID, NS_CLIENT_TOKEN_TO_CTX_IDX.
  by rewrite !land_255, !Z.shiftr_div_pow2.
Qed.

Lemma make_token t g i : is_u8 t -> is_u8 g -> is_u8 i -> MAKE_NS_CLIENT_TOKEN t g i = t + g * 2 ^ 8 + i * 2 ^ 16.
Proof.
  intros Ht Hg Hi. unfold MAKE_NS_CLIENT_TOKEN, is_u8 in *.
  rewrite !land_255, !Z.mod_small, !Z.shiftl_mul_pow2 by lia.
  rewrite (lor_high_add t g 8), (lor_high_add (t + g * 2 ^ 8) i 16) by lia.
  change 16777215 with (Z.ones 24). rewrite Z.land_ones, u32_small, Z.mod_small by (unfold is_u32; lia). done.
Qed.

Lemma token_valid token : is_u32 token -> IS_INVALID_TOKEN token = false <-> token < 2 ^ 24.
Proof.
  intros Hu. unfold IS_INVALID_TOKEN. rewrite truth_false.
  assert (Z.land token 4278190080 = token / 2 ^ 24 * 2 ^ 24) as ->.
  { change 4278190080 with (Z.shiftl 255 24). apply Z.bits_inj'. intros n Hn.
    rewrite Z.land_spec, Z.shiftl_spec by done. destruct (Z.ltb_spec n 24).
    - rewrite (Z.testbit_neg_r 255), andb_false_r, Z.mul_pow2_bits_low by lia. done.
    - rewrite Z.mul_pow2_bits, Z.div_pow2_bits by lia. replace (n - 24 + 24) with n by lia.
      destruct (Z.ltb_spec n 32).
      + change 255 with (Z.ones 8). rewrite Z.ones_spec_low, andb_true_r by lia. done.
      + assert (Z.testbit token n = false) as ->; [|done].
        rewrite <- (Z.mod_small token (2 ^ 32)) by (unfold is_u32 in Hu; lia). apply Z.mod_pow2_bits_high. lia. }
  unfold is_u32 in Hu. lia.
Qed.

(** A valid token is its three fields. *)
Lemma token_eq t1 t2 : is_u32 t1 -> is_u32 t2 -> IS_INVALID_TOKEN t1 = false -> IS_INVALID_TOKEN t2 = false ->
  NS_CLIENT_TOKEN_TO_TID t1 = NS_CLIENT_TOKEN_TO_TID t2 -> NS_CLIENT_TOKEN_TO_GID t1 = NS_CLIENT_TOKEN_TO_GID t2 ->
  NS_CLIENT_TOKEN_TO_CTX_IDX t1 = NS_CLIENT_TOKEN_TO_CTX_IDX t2 -> t1 = t2.
Proof.
  intros U1 U2 V1%token_valid V2%token_valid; try done.
  destruct (token_fields t1) as (-> & -> & ->), (token_fields t2) as (-> & -> & ->).
  unfold is_u32 in *. lia.
Qed.

(** In thread mode the veneer for a context answers with a number that is a token. *)
Lemma thread_mode_answer_is_token `{NsBuild} g t s :
  tfm_nsce_acquire_ctx true g t s = (Val (MAKE_NS_CLIENT_TOKEN 3 0 0), s) /\
  MAKE_NS_CLIENT_TOKEN 3 0 0 <> TFM_NS_CLIENT_INVALID_TOKEN.
Proof. split; [|done]. reflexivity. Qed.

(** ** Calls and what they mean *)

Inductive ns_call :=
  | CInit (requested : Z)
  | CAcquire (group_id thread_id : Z)
  | CRelease (token : Z)
  | CLoad (token id : Z)
  | CSave (token : Z).

(** The arguments as their C types allow. *)
Definition call_ok (c : ns_call) : Prop :=
  match c with
  | CInit n => is_u32 n
  | CAcquire g t => is_u8 g /\ is_u8 t
  | CRelease token | CSave token => is_u32 token
  | CLoad token n => is_u32 token /\ - 2 ^ 31 <= n < 2 ^ 31
  end.

(** The thread that runs, by the answers of the calls: the token it was loaded with and
    the identifier it was given. *)
Definition after_call (cur : option (Z * Z)) (c : ns_call) (answer : Z) : option (Z * Z) :=
  match c with
  | CLoad token n => if answer =? TFM_NS_CLIENT_ERR_SUCCESS then Some (token, n) else cur
  | CSave token => if answer =? TFM_NS_CLIENT_ERR_SUCCESS then None else cur
  | CRelease token =>
      if (answer =? TFM_NS_CLIENT_ERR_SUCCESS) && bool_decide (fst <$> cur = Some token) then None else cur
  | _ => cur
  end.

Section Spec.
Context `{NsBuild} (max_ok : 0 < TFM_NS_CONTEXT_MAX < 2 ^ 8).
Implicit Types s : ns_state.

Definition exec (thread_mode : bool) (c : ns_call) : NS Z :=
  match c with
  | CInit n => tfm_nsce_init thread_mode n
  | CAcquire g t => tfm_nsce_acquire_ctx thread_mode g t
  | CRelease token => tfm_nsce_release_ctx thread_mode token
  | CLoad token n => tfm_nsce_load_ctx thread_mode token n
  | CSave token => tfm_nsce_save_ctx thread_mode token
  end.

(** The calls of the non-secure world one after the other, and the running thread. *)
Fixpoint exec_all (cur : option (Z * Z)) (l : list (bool * ns_call)) : NS (option (Z * Z)) :=
  match l with
  | [] => mret cur
  | (thread_mode, c) :: l' => r ← exec thread_mode c; exec_all (after_call cur c r) l'
  end.

Definition used (c : tfm_ns_ctx_t) : Prop := 0 < c.(ref_cnt).

(** Context [idx] serves the group [g]. *)
Definition serves s (idx g : Z) : Prop :=
  0 <= idx /\ exists c, s.(ns_ctx_data) !! Z.to_nat idx = Some c /\ used c /\ c.(gid) = g.

Definition running s (cur : option (Z * Z)) : Prop :=
  match cur with
  | None => s.(active_ns_ctx_index) = TFM_NS_CONTEXT_MAX
  | Some (token, n) =>
      is_u32 token /\ IS_INVALID_TOKEN token = false /\ - 2 ^ 31 <= n < 0 /\
      s.(active_ns_ctx_index) = NS_CLIENT_TOKEN_TO_CTX_IDX token /\
      exists c, s.(ns_ctx_data) !! Z.to_nat (NS_CLIENT_TOKEN_TO_CTX_IDX token) = Some c /\ used c /\
        c.(gid) = NS_CLIENT_TOKEN_TO_GID token /\ c.(tid) = NS_CLIENT_TOKEN_TO_TID token /\ c.(nsid) = n
  end.

Record ns_ok (r : client_id_region_t) (cur : option (Z * Z)) s : Prop := {
  ok_length : Z.of_nat (length s.(ns_ctx_data)) = TFM_NS_CONTEXT_MAX;
  ok_counts : Forall (fun c => is_u8 c.(ref_cnt)) s.(ns_ctx_data);
  ok_groups : forall i j g, serves s i g -> serves s j g -> i = j;
  ok_running : running s cur;
  ok_region : s.(client_id_regions) = r;
}.

Lemma ns_ctx_at_ok s r cur idx : ns_ok r cur s -> 0 <= idx < TFM_NS_CONTEXT_MAX ->
  exists c, s.(ns_ctx_data) !! Z.to_nat idx = Some c /\ ns_ctx_at idx s = (Val c, s).
Proof.
  intros [Hl _ _ _ _] Hi. destruct (lookup_lt_is_Some_2 s.(ns_ctx_data) (Z.to_nat idx)) as [c Hc]; [lia|].
  exists c. split; [done|]. unfold ns_ctx_at. rewrite bind_getS, (proj2 (Z.ltb_ge _ _)), Hc by lia. done.
Qed.

Lemma upd_ns_ctx_run s idx c f : 0 <= idx -> s.(ns_ctx_data) !! Z.to_nat idx = Some c ->
  upd_ns_ctx idx f s = (Val tt, set_ctx_data (<[Z.to_nat idx := f c]> s.(ns_ctx_data)) s).
Proof.
  intros Hi Hc. unfold upd_ns_ctx, ns_ctx_at. unfold mbind at 1, M_bind at 1.
  rewrite bind_getS, (proj2 (Z.ltb_ge _ _)), Hc by lia. done.
Qed.

(** A change of one context. *)
Lemma ns_ok_put r cur cur' s idx c c' : ns_ok r cur s -> 0 <= idx -> s.(ns_ctx_data) !! Z.to_nat idx = Some c ->
  is_u8 c'.(ref_cnt) -> (used c' -> (used c /\ c'.(gid) = c.(gid)) \/ forall j, ~ serves s j c'.(gid)) ->
  forall s', s'.(ns_ctx_data) = <[Z.to_nat idx := c']> s.(ns_ctx_data) -> s'.(client_id_regions) = s.(client_id_regions) ->
  running s' cur' -> ns_ok r cur' s'.
Proof.
  intros [Hl Hcnt Hg Hrun Hr] Hi Hc Hu8 Hgrp s' Hs' Hr' Hrun'.
  assert (forall j g, serves s' j g -> (j <> idx /\ serves s j g) \/ (j = idx /\ used c' /\ c'.(gid) = g)) as Hinv.
  { intros j g (Hj & cj & Hcj & Hu & Hgid). rewrite Hs' in Hcj. destruct (decide (j = idx)) as [->|Hne].
    - rewrite list_lookup_insert_eq in Hcj by (by eapply lookup_lt_Some). injection Hcj as <-. by right.
    - rewrite list_lookup_insert_ne in Hcj by lia. left. split; [done|]. split; [done|]. by exists cj. }
  assert (forall j g, used c' -> c'.(gid) = g -> serves s j g -> j = idx) as Hone.
  { intros j g Hu Heq Hs. destruct (Hgrp Hu) as [[Huc Hgc]|Hno]; [|by rewrite <- Heq in Hs; apply Hno in Hs].
    apply (Hg j idx g Hs). split; [done|]. exists c. split_and!; [done|done|congruence]. }
  constructor; [by rewrite Hs', length_insert| |..].
  - rewrite Hs'. by apply Forall_insert.
  - intros i j g H1%Hinv H2%Hinv.
    destruct H1 as [[N1 S1]|(-> & U1 & G1)], H2 as [[N2 S2]|(-> & U2 & G2)]; [by eapply Hg| | |done].
    + by eapply Hone.
    + symmetry. by eapply Hone.
  - done.
  - congruence.
Qed.

Abbreviation never := (fun _ _ => False).

(** ** Acquiring *)

(** What the scan knows below [i]: no context serves the group, and the first free one. *)
Definition scanned s (g i e : Z) : Prop :=
  0 <= i <= TFM_NS_CONTEXT_MAX /\ (forall j, 0 <= j < i -> ~ serves s j g) /\
  (e = TFM_NS_CONTEXT_MAX \/ (0 <= e < TFM_NS_CONTEXT_MAX /\ forall c, s.(ns_ctx_data) !! Z.to_nat e = Some c -> ~ used c)).

Definition scan_result s (g : Z) (r : Z + option Z) s' : Prop :=
  match r with
  | inl e => s' = s /\ scanned s g TFM_NS_CONTEXT_MAX e
  | inr None => s' = s
  | inr (Some i) => 0 <= i < TFM_NS_CONTEXT_MAX /\ exists c, s.(ns_ctx_data) !! Z.to_nat i = Some c /\ used c /\ c.(gid) = g /\
      c.(ref_cnt) < TFM_NS_CONTEXT_MAX_TID /\
      s' = set_ctx_data (<[Z.to_nat i := set_ref_cnt (u8 (c.(ref_cnt) + 1)) c]> s.(ns_ctx_data)) s
  end.

Lemma not_serves s i g c : s.(ns_ctx_data) !! Z.to_nat i = Some c -> ~ used c \/ c.(gid) <> g -> ~ serves s i g.
Proof. intros Hc Hno (_ & c' & Hc' & Hu & Hg). rewrite Hc in Hc'. injection Hc' as <-. by destruct Hno. Qed.

Lemma scanned_step s g i e c e' : scanned s g i e -> i < TFM_NS_CONTEXT_MAX ->
  s.(ns_ctx_data) !! Z.to_nat i = Some c -> ~ used c \/ c.(gid) <> g ->
  e' = e \/ (e' = i /\ ~ used c) -> scanned s g (i + 1) e'.
Proof.
  intros (Hi & Hbelow & He) Hlt Hc Hno He'. split; [lia|]. split.
  - intros j Hj. destruct (decide (j = i)) as [->|]; [by eapply not_serves|apply Hbelow; lia].
  - destruct He' as [->|[-> Hfree]]; [done|]. right. split; [lia|]. intros c'. rewrite Hc. by intros [= <-].
Qed.

Lemma ctx_scan_ok s r cur g : ns_ok r cur s ->
  wp (while_loop (scan_step g) (0, TFM_NS_CONTEXT_MAX)) (scan_result s g) never never s.
Proof.
  intros Hok. apply (wp_while _ (fun x s' => s' = s /\ scanned s g x.1 x.2))
    with (measure := fun x => TFM_NS_CONTEXT_MAX - x.1); [|split; [done|]|cbn [fst]; lia].
  - intros [i e] s' [-> Hsc]. cbn [fst snd] in *. pose proof Hsc as (Hi & _). unfold scan_step.
    destruct (Z.ltb_spec i TFM_NS_CONTEXT_MAX) as [Hlt|Hge]; cycle 1.
    { apply wp_ret. split; [done|]. by replace TFM_NS_CONTEXT_MAX with i by lia. }
    destruct (ns_ctx_at_ok s r cur i Hok) as (c & Hc & Hat); [lia|].
    apply wp_bind. eapply wp_run; [exact Hat|].
    destruct (Z.gtb_spec c.(ref_cnt) 0) as [Hu|Hfree].
    + destruct (Z.eqb_spec c.(gid) g) as [Hg|Hg].
      * destruct (Z.ltb_spec c.(ref_cnt) TFM_NS_CONTEXT_MAX_TID) as [Hroom|]; [|by apply wp_ret].
        apply wp_bind. eapply wp_run; [by apply upd_ns_ctx_run; [lia|]|]. apply wp_ret.
        split; [lia|]. exists c. split_and!; try done.
      * apply wp_ret. cbn [fst snd]. split; [|lia]. split; [done|]. by eapply scanned_step; [..|right|left].
    + apply wp_ret. cbn [fst snd]. assert (~ used c) by (unfold used; lia). split; [|lia]. split; [done|].
      eapply scanned_step; [done|done|exact Hc|by left|]. destruct (e =? _); [right; done|by left].
  - cbn [fst snd]. split; [lia|]. split; [intros; lia|by left].
Qed.

(** A running thread keeps its context when the count of a context in use changes, or
    when another one changes. *)
Lemma running_thread_kept s cur idx c c' : 0 <= idx -> running s cur -> s.(ns_ctx_data) !! Z.to_nat idx = Some c ->
  (used c -> used c' /\ c'.(gid) = c.(gid) /\ c'.(tid) = c.(tid) /\ c'.(nsid) = c.(nsid)) ->
  running (set_ctx_data (<[Z.to_nat idx := c']> s.(ns_ctx_data)) s) cur.
Proof.
  intros Hi Hrun Hc Hkeep. destruct cur as [[token n]|]; [|done].
  destruct Hrun as (B & Hv & Hn & Ha & c0 & Hc0 & Hu & Hg & Ht & Hid). cbn [running active_ns_ctx_index set_ctx_data ns_ctx_data].
  split_and!; try done; try lia. destruct (decide (Z.to_nat (NS_CLIENT_TOKEN_TO_CTX_IDX token) = Z.to_nat idx)) as [E|E].
  - rewrite E in *. rewrite Hc in Hc0. injection Hc0 as ->. destruct (Hkeep Hu) as (K1 & K2 & K3 & K4). exists c'.
    rewrite list_lookup_insert_eq by (by eapply lookup_lt_Some). split_and!; congruence || done.
  - exists c0. rewrite list_lookup_insert_ne by done. done.
Qed.

Lemma acquire_ok r cur g s : ns_ok r cur s ->
  wp (acquire_ns_ctx g) (fun o s' => ns_ok r cur s' /\
    match o with Some i => 0 <= i < TFM_NS_CONTEXT_MAX /\ serves s' i g | None => s' = s end) never never s.
Proof.
  intros Hok. pose proof Hok as [Hl Hcnt _ Hrun _]. unfold acquire_ns_ctx. apply wp_bind.
  eapply wp_mono; [by eapply ctx_scan_ok|..]; cbn beta; [|done..]. intros [e|[i|]] s1 Hres.
  - destruct Hres as [-> (_ & Hno & He)]. destruct (Z.ltb_spec e TFM_NS_CONTEXT_MAX) as [Hlt|]; [|by apply wp_ret].
    destruct He as [|[He Hfree]]; [lia|]. destruct (ns_ctx_at_ok s r cur e Hok He) as (c & Hc & _).
    specialize (Hfree c Hc). assert (is_u8 c.(ref_cnt)) as H8 by (by eapply Forall_lookup_1 in Hcnt).
    assert (c.(ref_cnt) = 0) as H0 by (unfold used, is_u8 in *; lia).
    apply wp_bind. eapply wp_run; [apply upd_ns_ctx_run; [lia|exact Hc]|]. cbv beta. rewrite H0. change (u8 (0 + 1)) with 1.
    apply wp_bind. eapply wp_run.
    { apply upd_ns_ctx_run; [lia|]. apply list_lookup_insert_eq. by eapply lookup_lt_Some. }
    apply wp_ret. cbn [ns_ctx_data set_ctx_data]. rewrite list_insert_insert_eq. split; [|split; [lia|]].
    + eapply (ns_ok_put r cur cur s e c (set_gid g (set_ref_cnt 1 c))); [done|lia|exact Hc|done| |reflexivity|done|].
      * intros _. right. intros j Hj. apply (Hno j); [|done]. destruct Hj as (Hj0 & cj & Hcj & _).
        apply lookup_lt_Some in Hcj. lia.
      * apply (running_thread_kept s cur e c (set_gid g (set_ref_cnt 1 c))); [lia|done|done|]. intros Hu. by apply Hfree in Hu.
    + split; [lia|]. eexists. cbn [ns_ctx_data set_ctx_data].
      split; [apply list_lookup_insert_eq; by eapply lookup_lt_Some|]. done.
  - destruct Hres as (Hi & c & Hc & Hu & Hg & Hroom & ->). apply wp_ret.
    assert (u8 (c.(ref_cnt) + 1) = c.(ref_cnt) + 1) as E1.
    { apply u8_small. unfold used, is_u8, TFM_NS_CONTEXT_MAX_TID in *. lia. }
    assert (used (set_ref_cnt (u8 (c.(ref_cnt) + 1)) c)) as Hu'.
    { unfold used in *. cbn [ref_cnt set_ref_cnt]. rewrite E1. lia. }
    split; [|split; [done|]].
    + eapply (ns_ok_put r cur cur s i c (set_ref_cnt (u8 (c.(ref_cnt) + 1)) c)); [done|lia|exact Hc|apply u8_range|by left|reflexivity|done|].
      by apply (running_thread_kept s cur i c); [lia|done|done|].
    + split; [lia|]. eexists. cbn [ns_ctx_data set_ctx_data].
      split; [apply list_lookup_insert_eq; by eapply lookup_lt_Some|]. done.
  - apply wp_ret. by destruct Hres.
Qed.

(** ** Releasing, loading, saving *)

Section Token.
Context (token : Z) (Hu : is_u32 token) (Hv : IS_INVALID_TOKEN token = false).
Abbreviation t := (NS_CLIENT_TOKEN_TO_TID token).
Abbreviation g := (NS_CLIENT_TOKEN_TO_GID token).
Abbreviation idx := (NS_CLIENT_TOKEN_TO_CTX_IDX token).

Lemma idx_range : 0 <= idx < 2 ^ 8.
Proof. destruct (token_fields token) as (_ & _ & ->). lia. Qed.

(** The token of the running thread is the one with its context, group and thread. *)
Lemma running_token s token' n : running s (Some (token', n)) -> s.(active_ns_ctx_index) = idx ->
  (exists c, s.(ns_ctx_data) !! Z.to_nat idx = Some c /\ c.(gid) = g /\ c.(tid) = t) -> token' = token.
Proof.
  intros (U' & V' & _ & Ha & c' & Hc' & _ & Hg' & Ht' & _) Hact (c & Hc & Hg & Ht).
  rewrite Ha in Hact. rewrite Hact, Hc in Hc'. injection Hc' as <-. apply token_eq; congruence.
Qed.

Lemma drop_ref_fields c : (drop_ref c).(gid) = c.(gid) /\ (drop_ref c).(tid) = c.(tid) /\ (drop_ref c).(nsid) = c.(nsid) /\
  is_u8 (drop_ref c).(ref_cnt).
Proof. split_and!; try done. apply u8_range. Qed.

Lemma drop_ref_used c : 1 < c.(ref_cnt) -> is_u8 c.(ref_cnt) -> used (drop_ref c).
Proof. intros Hgt H8. unfold used, drop_ref. cbn [ref_cnt set_ref_cnt]. rewrite u8_small; unfold is_u8 in *; lia. Qed.

(** The count of a context in use goes down. *)
Lemma drop_ok r cur s c : ns_ok r cur s -> s.(ns_ctx_data) !! Z.to_nat idx = Some c -> used c ->
  forall cur' a, running (set_active a (set_ctx_data (<[Z.to_nat idx := drop_ref c]> s.(ns_ctx_data)) s)) cur' ->
  ns_ok r cur' (set_active a (set_ctx_data (<[Z.to_nat idx := drop_ref c]> s.(ns_ctx_data)) s)).
Proof.
  intros Hok Hc Huc cur' a Hrun. pose proof idx_range. destruct (drop_ref_fields c) as (E1 & _ & _ & E2).
  eapply (ns_ok_put r cur cur' s idx c (drop_ref c)); [done|lia|done|done|by left|done|done|done].
Qed.

Lemma set_active_same s : set_active s.(active_ns_ctx_index) s = s.
Proof. by destruct s. Qed.

Lemma stopped r cur s : ns_ok r cur s -> ns_ok r None (set_active TFM_NS_CONTEXT_MAX s).
Proof. by intros [? ? ? _ ?]. Qed.

Lemma release_ok r cur s : ns_ok r cur s ->
  wp (release_ns_ctx g t idx) (fun ok s' => if ok : bool
    then ns_ok r (if bool_decide (fst <$> cur = Some token) then None else cur) s' else s' = s) never never s.
Proof.
  intros Hok. pose proof Hok as [Hl Hcnt _ Hrun _]. pose proof idx_range as Hi. unfold release_ns_ctx.
  destruct (Z.geb_spec idx TFM_NS_CONTEXT_MAX); [by apply wp_ret|].
  destruct (ns_ctx_at_ok s r cur idx Hok) as (c & Hc & Hat); [lia|]. apply wp_bind. eapply wp_run; [exact Hat|].
  destruct (Z.eqb_spec c.(gid) g) as [Hg|]; cbn [negb]; [|by apply wp_ret].
  apply wp_bind, wp_getS. apply wp_bind. pose proof (Forall_lookup_1 _ _ _ _ Hcnt Hc) as H8.
  destruct (drop_ref_fields c) as (F1 & F2 & F3 & F4).
  destruct (Z.eqb_spec idx s.(active_ns_ctx_index)) as [Ha|Ha].
  - destruct cur as [[token' n]|]; [|exfalso; cbn [running] in Hrun; lia].
    pose proof Hrun as (_ & _ & _ & Ha' & c' & Hc' & Hu' & _ & Ht' & _). rewrite <- Ha', <- Ha in Hc'.
    rewrite Hc in Hc'. injection Hc' as <-. destruct (Z.eqb_spec c.(tid) t) as [Ht|Ht].
    + assert (token' = token) as -> by (eapply running_token; [exact Hrun|done|by exists c]).
      cbn [fst fmap option_fmap option_map]. rewrite bool_decide_eq_true_2 by done.
      destruct (Z.gtb_spec c.(ref_cnt) 0) as [Hpos|Hz]; [|unfold used in *; lia].
      apply wp_bind. eapply wp_run; [by apply upd_ns_ctx_run; [lia|]|]. apply wp_modifyS, wp_ret.
      by eapply drop_ok.
    + assert (bool_decide (fst <$> Some (token', n) = Some token) = false) as ->.
      { apply bool_decide_eq_false_2. intros [= ->]. apply Ht. congruence. }
      destruct (Z.gtb_spec c.(ref_cnt) 1) as [Hgt|]; [|by apply wp_ret, wp_ret].
      eapply wp_run; [by apply upd_ns_ctx_run; [lia|]|]. apply wp_ret.
      rewrite <- (set_active_same (set_ctx_data _ s)). eapply drop_ok; [done|done|done|].
      rewrite set_active_same. apply (running_thread_kept s (Some (token', n)) idx c); [lia|done|done|].
      intros _. split_and!; [by apply drop_ref_used|done..].
  - assert (bool_decide (fst <$> cur = Some token) = false) as ->.
    { apply bool_decide_eq_false_2. destruct cur as [[token' n]|]; [|done]. intros [= ->].
      apply Ha. symmetry. apply Hrun. }
    destruct (Z.gtb_spec c.(ref_cnt) 0) as [Hpos|]; [|by apply wp_ret, wp_ret].
    eapply wp_run; [by apply upd_ns_ctx_run; [lia|]|]. apply wp_ret.
    rewrite <- (set_active_same (set_ctx_data _ s)). eapply drop_ok; [done|done|done|]. rewrite set_active_same.
    destruct cur as [[token' n]|]; [|done].
    destruct Hrun as (B1 & B2 & B3 & Ha' & c' & Hc' & Hrest). split_and!; try done; try lia. exists c'. split; [|done].
    cbn [ns_ctx_data set_ctx_data]. rewrite list_lookup_insert_ne; [done|]. destruct (token_fields token') as (_ & _ & E).
    rewrite Ha' in Ha. lia.
Qed.

Lemma load_ok r cur n s : - 2 ^ 31 <= n < 0 -> ns_ok r cur s ->
  wp (load_ns_ctx g t n idx) (fun ok s' => if ok : bool then ns_ok r (Some (token, n)) s' else s' = s) never never s.
Proof.
  intros Hn Hok. pose proof Hok as [Hl Hcnt _ _ _]. pose proof idx_range as Hi. unfold load_ns_ctx.
  destruct (Z.geb_spec idx TFM_NS_CONTEXT_MAX); [by apply wp_ret|].
  destruct (ns_ctx_at_ok s r cur idx Hok) as (c & Hc & Hat); [lia|]. apply wp_bind. eapply wp_run; [exact Hat|].
  destruct (Z.eqb_spec c.(gid) g) as [Hg|]; cbn [negb orb]; [|by apply wp_ret].
  destruct (Z.eqb_spec c.(ref_cnt) 0) as [|Hz]; [by apply wp_ret|].
  pose proof (Forall_lookup_1 _ _ _ _ Hcnt Hc) as H8.
  assert (used c) as Huc by (cbn beta in H8; unfold used, is_u8 in *; lia).
  apply wp_bind. eapply wp_run; [by apply upd_ns_ctx_run; [lia|]|]. apply wp_bind, wp_modifyS, wp_ret.
  eapply (ns_ok_put r cur (Some (token, n)) s idx c (set_thread t n c)); [done|lia|done|done|by left|done|done|].
  split_and!; try done; try lia. exists (set_thread t n c). split; [|done].
  apply list_lookup_insert_eq. by eapply lookup_lt_Some.
Qed.

Lemma save_ok r cur s : ns_ok r cur s ->
  wp (save_ns_ctx g t idx) (fun ok s' => if ok : bool then ns_ok r None s' else s' = s) never never s.
Proof.
  intros Hok. pose proof idx_range. unfold save_ns_ctx. apply wp_bind, wp_getS.
  destruct (Z.eqb_spec idx s.(active_ns_ctx_index)); cbn [negb orb]; [|by apply wp_ret].
  destruct (Z.geb_spec idx TFM_NS_CONTEXT_MAX); [by apply wp_ret|].
  destruct (ns_ctx_at_ok s r cur idx Hok) as (c & Hc & Hat); [lia|]. apply wp_bind. eapply wp_run; [exact Hat|].
  destruct (_ || _); [by apply wp_ret|]. apply wp_bind, wp_modifyS, wp_ret. by eapply stopped.
Qed.
End Token.

Lemma exec_ok r cur thread_mode c s : call_ok c -> ns_ok r cur s ->
  wp (exec thread_mode c) (fun a s' => ns_ok r (after_call cur c a) s') never never s.
Proof.
  intros Hc Hok. destruct c as [n|g t|token|token n|token]; cbn [exec after_call].
  - unfold tfm_nsce_init. by repeat case_match; apply wp_ret.
  - unfold tfm_nsce_acquire_ctx. destruct thread_mode; [by apply wp_ret|]. apply wp_bind.
    eapply wp_mono; [by eapply acquire_ok|..]; cbn beta; [|done..]. by intros [i|] s' [? _]; apply wp_ret.
  - unfold tfm_nsce_release_ctx. destruct thread_mode; [by apply wp_ret|]. unfold by_token.
    destruct (IS_INVALID_TOKEN token) eqn:Hv; [by apply wp_ret|]. apply wp_bind.
    eapply wp_mono; [by eapply release_ok|..]; cbn beta; [|done..]. intros [] s' Hs; apply wp_ret; [done|by subst].
  - unfold tfm_nsce_load_ctx. destruct thread_mode; [by apply wp_ret|]. destruct Hc as [Hu Hn].
    destruct (Z.geb_spec n 0); [by apply wp_ret|]. unfold by_token.
    destruct (IS_INVALID_TOKEN token) eqn:Hv; [by apply wp_ret|]. apply wp_bind.
    eapply wp_mono; [eapply load_ok; [done|done|lia|done]|..]; cbn beta; [|done..]. intros [] s' Hs; apply wp_ret; [done|by subst].
  - unfold tfm_nsce_save_ctx. destruct thread_mode; [by apply wp_ret|]. unfold by_token.
    destruct (IS_INVALID_TOKEN token) eqn:Hv; [by apply wp_ret|]. apply wp_bind.
    eapply wp_mono; [by eapply save_ok|..]; cbn beta; [|done..]. intros [] s' Hs; apply wp_ret; [done|by subst].
Qed.

Lemma exec_all_ok r l cur s : Forall (fun c => call_ok c.2) l -> ns_ok r cur s ->
  wp (exec_all cur l) (fun cur' s' => ns_ok r cur' s') never never s.
Proof.
  intros Hl. revert cur s. induction Hl as [|[tm c] l Hc _ IH]; intros cur s Hok; cbn [exec_all]; [by apply wp_ret|].
  apply wp_bind. eapply wp_mono; [by eapply exec_ok|..]; cbn beta; [|done..]. intros a s' Hok'. by apply IH.
Qed.

(** ** From the start *)

Definition region_ok (r : client_id_region_t) : Prop := - 2 ^ 31 <= r.(base) /\ r.(base) <= r.(limit) < 0.

Lemma reset_ok : ns_ok reset_state.(client_id_regions) None reset_state.
Proof.
  constructor; try done.
  - cbn [ns_ctx_data reset_state]. rewrite length_replicate. lia.
  - by apply Forall_replicate.
  - intros i j g (_ & c & Hc & Hu & _). by apply lookup_replicate in Hc as [-> _].
Qed.

Lemma init_ok r s : ns_ok r None s -> wp tfm_nspm_ctx_init (fun _ s' => ns_ok r None s') never never s.
Proof.
  intros Hok. unfold tfm_nspm_ctx_init, init_ns_ctx. destruct TFM_NS_MANAGE_NSID; [|by apply wp_ret].
  apply wp_bind, wp_bind. pose proof (ok_length _ _ _ Hok) as Hl.
  assert (forall n i s', ns_ok r None s' -> 0 <= i -> i + Z.of_nat n <= TFM_NS_CONTEXT_MAX ->
    wp (fold_fuel n i tt (fun i _ => upd_ns_ctx i (set_ref_cnt 0))) (fun _ s' => ns_ok r None s') never never s') as Hloop.
  { induction n as [|n IH]; intros i s' Hok' Hi Hle; cbn [fold_fuel]; [by apply wp_ret|].
    destruct (ns_ctx_at_ok s' r None i Hok') as (c & Hc & _); [lia|]. apply wp_bind.
    eapply wp_run; [by apply upd_ns_ctx_run|]. apply IH; [|lia..].
    eapply (ns_ok_put r None None s' i c (set_ref_cnt 0 c)); [done|done|done|done|intros Hu; by apply Z.lt_irrefl in Hu|done|done|].
    exact (ok_running _ _ _ Hok'). }
  eapply wp_mono; [apply Hloop; [exact Hok|lia..]|..]; cbn beta; [|done..]. intros _ s' Hok'.
  apply wp_bind, wp_modifyS, wp_ret. apply wp_ret. by eapply stopped.
Qed.

Lemma signed_run x s : - 2 ^ 31 <= x < 2 ^ 31 -> signed x s = (Val x, s).
Proof. intros Hx. unfold signed. rewrite (proj2 (Z.leb_le _ _)), (proj2 (Z.ltb_lt _ _)) by lia. done. Qed.

Lemma translate_run r cur s n : ns_ok r cur s -> region_ok r -> - 2 ^ 31 <= n < 0 ->
  tz_ns_agent_client_id_translate n s =
    (Val (if n <? r.(base) - r.(limit) - 1 then None else Some (r.(limit) + 1 + n)), s).
Proof.
  intros Hok [Hb Hl] Hn. unfold tz_ns_agent_client_id_translate. destruct (Z.geb_spec n 0); [lia|].
  rewrite bind_getS, (ok_region _ _ _ Hok).
  rewrite (bind_val _ _ _ _ _ (signed_run (limit r - base r) s ltac:(lia))).
  rewrite (bind_val _ _ _ _ _ (signed_run (-1 * (limit r - base r)) s ltac:(lia))).
  rewrite (bind_val _ _ _ _ _ (signed_run (-1 * (limit r - base r) - 1) s ltac:(lia))).
  replace (-1 * (limit r - base r) - 1) with (base r - limit r - 1) by lia.
  destruct (Z.ltb_spec n (base r - limit r - 1)); [done|].
  rewrite (bind_val _ _ _ _ _ (signed_run (limit r + 1) s ltac:(lia))).
  by rewrite (bind_val _ _ _ _ _ (signed_run (limit r + 1 + n) s ltac:(lia))).
Qed.

(** The identifier of the running thread, moved to the range of the agent. *)
Definition identity_of (r : client_id_region_t) (cur : option (Z * Z)) : Z :=
  match cur with
  | Some (_, n) => if n <? r.(base) - r.(limit) - 1 then TFM_NS_CLIENT_INVALID_ID else r.(limit) + 1 + n
  | None => TFM_NS_CLIENT_INVALID_ID
  end.

Lemma current_run r cur s : TFM_NS_MANAGE_NSID = true -> ns_ok r cur s -> region_ok r ->
  tfm_nspm_get_current_client_id s = (Val (identity_of r cur), s).
Proof.
  intros Hm Hok Hr. unfold tfm_nspm_get_current_client_id. rewrite Hm. unfold get_nsid_from_active_ns_ctx.
  pose proof (ok_running _ _ _ Hok) as Hrun. destruct cur as [[token n]|]; cbn [running identity_of] in *.
  - destruct Hrun as (_ & _ & Hn & Ha & c & Hc & _ & _ & _ & Hid).
    pose proof (idx_range token) as Hi. pose proof (lookup_lt_Some _ _ _ Hc) as Hlt. pose proof (ok_length _ _ _ Hok).
    unfold mbind at 1, M_bind at 1. rewrite bind_getS, Ha, (proj2 (Z.ltb_lt _ _)) by lia.
    unfold ns_ctx_at. unfold mbind at 1, M_bind at 1. rewrite bind_getS, (proj2 (Z.ltb_ge _ _)), Hc by lia.
    unfold mret at 1 2, M_ret. rewrite Hid, (bind_val _ _ _ _ _ (translate_run r _ s n Hok Hr Hn)). by destruct (n <? _).
  - unfold mbind at 1, M_bind at 1. by rewrite bind_getS, Hrun, (proj2 (Z.ltb_ge _ _)) by lia.
Qed.

(** The start of the SPM and of the agent, then the calls. *)
Definition session (r : client_id_region_t) (l : list (bool * ns_call)) : NS (option (Z * Z)) :=
  _ ← tfm_nspm_ctx_init;
  _ ← tz_ns_agent_register_client_id_range r.(base) r.(limit);
  exec_all None l.

(** C25: the SPM sees the identifier of the thread that the non-secure scheduler loaded
    last. After the start and whatever calls of the veneers (in handler or thread mode,
    with tokens that were given out or made up), every call returns, no access leaves the
    table, two contexts in use never serve the same group, and the identifier of the
    caller is, by the answers alone: the one given with the last successful load, moved to
    the range of the agent, unless that thread was successfully saved or released since;
    otherwise, and for an identifier the range has no room for, the invalid one. It is
    never outside the range of the agent, so never that of another agent or of a secure
    partition. *)
Theorem ns_identity_is_loaded_thread r l : TFM_NS_MANAGE_NSID = true -> region_ok r ->
  Forall (fun c => call_ok c.2) l ->
  exists cur s, session r l reset_state = (Val cur, s) /\
    (forall i j g, serves s i g -> serves s j g -> i = j) /\
    tfm_nspm_get_current_client_id s = (Val (identity_of r cur), s) /\
    (identity_of r cur = TFM_NS_CLIENT_INVALID_ID \/ r.(base) <= identity_of r cur <= r.(limit)).
Proof.
  intros Hm Hr Hl.
  assert (wp (session r l) (fun cur s => ns_ok r cur s) never never reset_state) as Hw.
  { unfold session. apply wp_bind. eapply wp_mono; [apply init_ok, reset_ok|..]; cbn beta; [|done..]. intros _ s1 Hok.
    apply wp_bind, wp_modifyS. apply exec_all_ok; [done|]. destruct r. by destruct Hok. }
  unfold wp in Hw. destruct (session r l reset_state) as [[cur|e|h] s]; [|done..]. exists cur, s.
  split; [done|]. split; [apply Hw|]. split; [by apply current_run|].
  destruct cur as [[token n]|]; [|by left]. pose proof (ok_running _ _ _ Hw) as (_ & _ & Hn & _). unfold identity_of.
  destruct Hr as [Hb Hlim]. destruct (Z.ltb_spec n (r.(base) - r.(limit) - 1)); [by left|right; lia].
Qed.
End Spec.

(** ** A concrete non-secure world *)

#[export] Instance sample_ns : NsBuild := {| TFM_NS_CONTEXT_MAX := 2; TFM_NS_MANAGE_NSID := true |}.

(** Threads 1 and 2 of group 7 and thread 1 of group 9; the last is switched in and out, then
    the second of the others; a thread-mode call changes nothing. *)
Definition sample_calls : list (bool * ns_call) :=
  [ (false, CInit 0); (false, CAcquire 7 1); (false, CAcquire 7 2); (false, CAcquire 9 1);
    (false, CLoad (MAKE_NS_CLIENT_TOKEN 1 9 1) (-3)); (false, CSave (MAKE_NS_CLIENT_TOKEN 1 9 1));
    (false, CLoad (MAKE_NS_CLIENT_TOKEN 2 7 0) (-5)); (true, CSave (MAKE_NS_CLIENT_TOKEN 2 7 0));
    (false, CRelease (MAKE_NS_CLIENT_TOKEN 1 7 0)); (false, CLoad 4294967295 (-1)) ].

Definition sample_region : client_id_region_t := {| base := -1000; limit := -500 |}.

Lemma ns_identity_is_loaded_thread_witness :
  exists s, session sample_region sample_calls reset_state = (Val (Some (MAKE_NS_CLIENT_TOKEN 2 7 0, -5)), s) /\
    (tfm_nspm_get_current_client_id s).1 = Val (-504).
Proof.
  destruct (ns_identity_is_loaded_thread ltac:(split; reflexivity) sample_region sample_calls) as (cur & s & Hrun & _ & Hid & _).
  - reflexivity.
  - split; [discriminate|]. split; [discriminate|reflexivity].
  - repeat constructor; discriminate.
  - assert (cur = Some (MAKE_NS_CLIENT_TOKEN 2 7 0, -5)) as ->.
    { assert (Val cur = Val (Some (MAKE_NS_CLIENT_TOKEN 2 7 0, -5))) as E; [|by injection E as ->].
      rewrite <- (f_equal fst Hrun : _ = Val cur). vm_compute. reflexivity. }
    exists s. split; [exact Hrun|]. by rewrite Hid.
Defined.
