(* ===== verification/GptTypes.v ===== *)
(** Partition tables: data and state ([src/lib/gpt/], [src/lib/efi_guid/]).

    A device carries a primary and a backup copy of a table: a header and an array of
    entries, one per partition.  The library keeps the header in memory, and one block of
    flash in a buffer.  The structures are packed, so each is the list of its bytes in
    the flash.  The flash driver is a record of functions handed to [gpt_init]; the random
    generator of the crypto service is a parameter. *)

From stdpp Require Import base list numbers.
From S2P Require Import Prelude.

(** ** Constants ([gpt_defs.h], [gpt.h], [gpt_flash.h]) *)

Definition MBR_LBA : Z := 0.
Definition MBR_UNUSED_BYTES : nat := 446.
Definition MBR_SIG : Z := 0xAA55.
Definition MBR_TYPE_GPT : Z := 0xEE.
Definition GPT_HEADER_SIZE : nat := 92.
Definition GPT_SIG : bytes := [69; 70; 73; 32; 80; 65; 82; 84].   (* "EFI PART" *)
Definition GPT_ENTRY_SIZE : Z := 128.
Definition GPT_ENTRY_NAME_LENGTH : Z := 72.
Definition GPT_MIN_PARTITIONS : Z := 4.
Definition PRIMARY_GPT_LBA : Z := 1.
Definition GPT_FLASH_SUCCESS : Z := 0.

(** The build: the size of a block of flash, and what a 32-bit variable on the stack
    holds before it is written. *)
Class GptBuild := {
  TFM_GPT_BLOCK_SIZE : Z;
  stack_u32 : Z;
}.

(** ** Identifiers ([efi_guid_structs.h], [efi_guid.c])

    A GUID is its 16 bytes, which is what [efi_guid_cmp] compares. *)

Abbreviation efi_guid_t := bytes.

Definition efi_guid_eqb (g1 g2 : efi_guid_t) : bool := bytes_eqb g1 g2.
Definition NULL_GUID : efi_guid_t := replicate 16 0.

Class GptRandom (X : Type) := {
  psa_generate_random : nat -> M X bytes;
}.

(** The version and variant bits of a random GUID: [time_hi_and_version] is the
    halfword at offset 6, [clock_seq_hi_and_reserved] the byte at offset 8. *)
Definition guid_version_4 (g : efi_guid_t) : efi_guid_t :=
  let clock_seq_hi := Z.lor (Z.land (nth 8 g 0) 0x3F) 0x80 in
  let time_hi := Z.lor (Z.land (of_le16 (drop 6 g)) 0x0FFF) 0x4000 in
  splice (splice g 8 [clock_seq_hi]) 6 (le16 time_hi).

Definition efi_guid_generate_random `{GptRandom X} : M X efi_guid_t :=
  guid ← psa_generate_random 16;
  mret (guid_version_4 guid).

(** ** Structures in the flash *)

(** [struct mbr_entry_t], [struct mbr_t] *)
Record mbr_entry_t := {
  mbr_status : Z;
  mbr_first_sector : bytes;
  mbr_os_type : Z;
  mbr_last_sector : bytes;
  mbr_first_lba : Z;
  mbr_size : Z;
}.
Record mbr_t := {
  mbr_partitions : list mbr_entry_t;
  mbr_sig : Z;
}.

Definition mbr_entry_of (l : bytes) : mbr_entry_t :=
  {| mbr_status := nth 0 l 0; mbr_first_sector := slice l 1 3; mbr_os_type := nth 4 l 0;
     mbr_last_sector := slice l 5 3; mbr_first_lba := of_le32 (drop 8 l); mbr_size := of_le32 (drop 12 l) |}.
Definition mbr_of (l : bytes) : mbr_t :=
  {| mbr_partitions := [mbr_entry_of l; mbr_entry_of (drop 16 l); mbr_entry_of (drop 32 l); mbr_entry_of (drop 48 l)];
     mbr_sig := of_le16 (drop 64 l) |}.

(** [struct gpt_entry_t] *)
Record gpt_entry_t := {
  partition_type : efi_guid_t;
  unique_guid : efi_guid_t;
  start : Z;
  end_ : Z;   (* [end] *)
  attr : Z;
  name : bytes;
}.

Definition entry_bytes (e : gpt_entry_t) : bytes :=
  e.(partition_type) ++ e.(unique_guid) ++ le64 e.(start) ++ le64 e.(end_) ++ le64 e.(attr) ++ e.(name).
Definition entry_of (l : bytes) : gpt_entry_t :=
  {| partition_type := slice l 0 16; unique_guid := slice l 16 16; start := of_le64 (drop 32 l);
     end_ := of_le64 (drop 40 l); attr := of_le64 (drop 48 l); name := slice l 56 72 |}.

(** [struct gpt_header_t] *)
Record gpt_header_t := {
  signature : bytes;
  revision : Z;
  size : Z;
  header_crc : Z;
  reserved : Z;
  current_lba : Z;
  backup_lba : Z;
  first_lba : Z;
  last_lba : Z;
  flash_guid : efi_guid_t;
  array_lba : Z;
  num_partitions : Z;
  entry_size : Z;
  array_crc : Z;
}.

Definition header_bytes (h : gpt_header_t) : bytes :=
  h.(signature) ++ le32 h.(revision) ++ le32 h.(size) ++ le32 h.(header_crc) ++ le32 h.(reserved) ++
  le64 h.(current_lba) ++ le64 h.(backup_lba) ++ le64 h.(first_lba) ++ le64 h.(last_lba) ++
  h.(flash_guid) ++ le64 h.(array_lba) ++ le32 h.(num_partitions) ++ le32 h.(entry_size) ++ le32 h.(array_crc).
Definition header_of (l : bytes) : gpt_header_t :=
  {| signature := slice l 0 8; revision := of_le32 (drop 8 l); size := of_le32 (drop 12 l);
     header_crc := of_le32 (drop 16 l); reserved := of_le32 (drop 20 l); current_lba := of_le64 (drop 24 l);
     backup_lba := of_le64 (drop 32 l); first_lba := of_le64 (drop 40 l); last_lba := of_le64 (drop 48 l);
     flash_guid := slice l 56 16; array_lba := of_le64 (drop 72 l); num_partitions := of_le32 (drop 80 l);
     entry_size := of_le32 (drop 84 l); array_crc := of_le32 (drop 88 l) |}.

(** [struct gpt_t] *)
Record gpt_t := {
  header : gpt_header_t;
  num_used_partitions : Z;
}.

(** [struct partition_entry_t] *)
Record partition_entry_t := {
  pe_start : Z;
  pe_size : Z;
  pe_name : bytes;
  pe_attr : Z;
  pe_partition_guid : efi_guid_t;
  pe_type_guid : efi_guid_t;
}.

Definition zero_entry : gpt_entry_t := entry_of (replicate 128 0).
Definition zero_gpt : gpt_t := {| header := header_of (replicate 92 0); num_used_partitions := 0 |}.

Definition set_header_crc (v : Z) (r : gpt_header_t) : gpt_header_t :=
  {| signature := r.(signature); revision := r.(revision); size := r.(size); header_crc := v;
     reserved := r.(reserved); current_lba := r.(current_lba); backup_lba := r.(backup_lba);
     first_lba := r.(first_lba); last_lba := r.(last_lba); flash_guid := r.(flash_guid);
     array_lba := r.(array_lba); num_partitions := r.(num_partitions); entry_size := r.(entry_size);
     array_crc := r.(array_crc) |}.
Definition set_array_crc (v : Z) (r : gpt_header_t) : gpt_header_t :=
  {| signature := r.(signature); revision := r.(revision); size := r.(size); header_crc := r.(header_crc);
     reserved := r.(reserved); current_lba := r.(current_lba); backup_lba := r.(backup_lba);
     first_lba := r.(first_lba); last_lba := r.(last_lba); flash_guid := r.(flash_guid);
     array_lba := r.(array_lba); num_partitions := r.(num_partitions); entry_size := r.(entry_size);
     array_crc := v |}.
Definition set_lbas (current backup array : Z) (r : gpt_header_t) : gpt_header_t :=
  {| signature := r.(signature); revision := r.(revision); size := r.(size); header_crc := r.(header_crc);
     reserved := r.(reserved); current_lba := current; backup_lba := backup; first_lba := r.(first_lba);
     last_lba := r.(last_lba); flash_guid := r.(flash_guid); array_lba := array;
     num_partitions := r.(num_partitions); entry_size := r.(entry_size); array_crc := r.(array_crc) |}.
Definition set_partition_type (v : efi_guid_t) (r : gpt_entry_t) : gpt_entry_t :=
  {| partition_type := v; unique_guid := r.(unique_guid); start := r.(start); end_ := r.(end_);
     attr := r.(attr); name := r.(name) |}.
Definition set_range (first last : Z) (r : gpt_entry_t) : gpt_entry_t :=
  {| partition_type := r.(partition_type); unique_guid := r.(unique_guid); start := first; end_ := last;
     attr := r.(attr); name := r.(name) |}.
Definition set_attr (v : Z) (r : gpt_entry_t) : gpt_entry_t :=
  {| partition_type := r.(partition_type); unique_guid := r.(unique_guid); start := r.(start);
     end_ := r.(end_); attr := v; name := r.(name) |}.
Definition set_name (v : bytes) (r : gpt_entry_t) : gpt_entry_t :=
  {| partition_type := r.(partition_type); unique_guid := r.(unique_guid); start := r.(start);
     end_ := r.(end_); attr := r.(attr); name := v |}.
Definition set_header (v : gpt_header_t) (r : gpt_t) : gpt_t :=
  {| header := v; num_used_partitions := r.(num_used_partitions) |}.
Definition set_num_used (v : Z) (r : gpt_t) : gpt_t :=
  {| header := r.(header); num_used_partitions := v |}.

(** ** The flash driver ([struct gpt_flash_driver_t])

    [read] fills a buffer, given with what it holds before. *)
Record gpt_flash_driver_t (X : Type) := {
  drv_init : option (M X Z);
  drv_uninit : option (M X Z);
  drv_read : option (Z -> bytes -> M X (Z * bytes));
  drv_write : option (Z -> bytes -> M X Z);
  drv_erase : option (Z -> Z -> M X Z);
}.
Arguments drv_init {X} _.
Arguments drv_uninit {X} _.
Arguments drv_read {X} _.
Arguments drv_write {X} _.
Arguments drv_erase {X} _.

(** ** The state

    The static variables of the library.  A [struct gpt_t *] points to [cached_gpt] or to a
    local variable of a function that is running; those are in [gs_locals], the oldest
    first. *)
Inductive gpt_ptr :=
  | CachedGpt
  | StackGpt (n : nat).

Record gpt_state (X : Type) := {
  gs_world : X;   (* the flash and the random generator *)
  gs_driver : option (gpt_flash_driver_t X);   (* plat_flash_driver *)
  gs_lba_buf : bytes;   (* lba_buf *)
  gs_cached_lba : Z;   (* cached_lba *)
  gs_write_buffered : bool;   (* write_buffered *)
  gs_in_flush : bool;   (* in_flush of flush_lba_buf *)
  gs_num_writes : Z;   (* num_writes of write_entry *)
  gs_cached_gpt : gpt_t;   (* cached_gpt *)
  gs_cached_gpt_read : bool;   (* cached_gpt_read *)
  gs_cached_gpt_primary : bool;   (* cached_gpt_primary *)
  gs_backup_gpt_lba : Z;   (* backup_gpt_lba *)
  gs_primary_array_lba : Z;   (* primary_gpt_array_lba *)
  gs_backup_array_lba : Z;   (* backup_gpt_array_lba *)
  gs_plat_max_partitions : Z;   (* plat_max_partitions *)
  gs_locals : list gpt_t;   (* tables on the stack *)
}.
Arguments gs_world {X} _.
Arguments gs_driver {X} _.
Arguments gs_lba_buf {X} _.
Arguments gs_cached_lba {X} _.
Arguments gs_write_buffered {X} _.
Arguments gs_in_flush {X} _.
Arguments gs_num_writes {X} _.
Arguments gs_cached_gpt {X} _.
Arguments gs_cached_gpt_read {X} _.
Arguments gs_cached_gpt_primary {X} _.
Arguments gs_backup_gpt_lba {X} _.
Arguments gs_primary_array_lba {X} _.
Arguments gs_backup_array_lba {X} _.
Arguments gs_plat_max_partitions {X} _.
Arguments gs_locals {X} _.

Section State.
Context {X : Type}.
Abbreviation GPT := (M (gpt_state X)).

Definition set_world (v : X) (s : gpt_state X) : gpt_state X :=
  {| gs_world := v; gs_driver := s.(gs_driver); gs_lba_buf := s.(gs_lba_buf);
     gs_cached_lba := s.(gs_cached_lba); gs_write_buffered := s.(gs_write_buffered);
     gs_in_flush := s.(gs_in_flush); gs_num_writes := s.(gs_num_writes);
     gs_cached_gpt := s.(gs_cached_gpt); gs_cached_gpt_read := s.(gs_cached_gpt_read);
     gs_cached_gpt_primary := s.(gs_cached_gpt_primary); gs_backup_gpt_lba := s.(gs_backup_gpt_lba);
     gs_primary_array_lba := s.(gs_primary_array_lba); gs_backup_array_lba := s.(gs_backup_array_lba);
     gs_plat_max_partitions := s.(gs_plat_max_partitions); gs_locals := s.(gs_locals) |}.
Definition set_driver (v : option (gpt_flash_driver_t X)) (s : gpt_state X) : gpt_state X :=
  {| gs_world := s.(gs_world); gs_driver := v; gs_lba_buf := s.(gs_lba_buf);
     gs_cached_lba := s.(gs_cached_lba); gs_write_buffered := s.(gs_write_buffered);
     gs_in_flush := s.(gs_in_flush); gs_num_writes := s.(gs_num_writes);
     gs_cached_gpt := s.(gs_cached_gpt); gs_cached_gpt_read := s.(gs_cached_gpt_read);
     gs_cached_gpt_primary := s.(gs_cached_gpt_primary); gs_backup_gpt_lba := s.(gs_backup_gpt_lba);
     gs_primary_array_lba := s.(gs_primary_array_lba); gs_backup_array_lba := s.(gs_backup_array_lba);
     gs_plat_max_partitions := s.(gs_plat_max_partitions); gs_locals := s.(gs_locals) |}.
Definition set_lba_buf (v : bytes) (s : gpt_state X) : gpt_state X :=
  {| gs_world := s.(gs_world); gs_driver := s.(gs_driver); gs_lba_buf := v;
     gs_cached_lba := s.(gs_cached_lba); gs_write_buffered := s.(gs_write_buffered);
     gs_in_flush := s.(gs_in_flush); gs_num_writes := s.(gs_num_writes);
     gs_cached_gpt := s.(gs_cached_gpt); gs_cached_gpt_read := s.(gs_cached_gpt_read);
     gs_cached_gpt_primary := s.(gs_cached_gpt_primary); gs_backup_gpt_lba := s.(gs_backup_gpt_lba);
     gs_primary_array_lba := s.(gs_primary_array_lba); gs_backup_array_lba := s.(gs_backup_array_lba);
     gs_plat_max_partitions := s.(gs_plat_max_partitions); gs_locals := s.(gs_locals) |}.
Definition set_cached_lba (v : Z) (s : gpt_state X) : gpt_state X :=
  {| gs_world := s.(gs_world); gs_driver := s.(gs_driver); gs_lba_buf := s.(gs_lba_buf);
     gs_cached_lba := v; gs_write_buffered := s.(gs_write_buffered); gs_in_flush := s.(gs_in_flush);
     gs_num_writes := s.(gs_num_writes); gs_cached_gpt := s.(gs_cached_gpt);
     gs_cached_gpt_read := s.(gs_cached_gpt_read); gs_cached_gpt_primary := s.(gs_cached_gpt_primary);
     gs_backup_gpt_lba := s.(gs_backup_gpt_lba); gs_primary_array_lba := s.(gs_primary_array_lba);
     gs_backup_array_lba := s.(gs_backup_array_lba); gs_plat_max_partitions := s.(gs_plat_max_partitions);
     gs_locals := s.(gs_locals) |}.
Definition set_write_buffered (v : bool) (s : gpt_state X) : gpt_state X :=
  {| gs_world := s.(gs_world); gs_driver := s.(gs_driver); gs_lba_buf := s.(gs_lba_buf);
     gs_cached_lba := s.(gs_cached_lba); gs_write_buffered := v; gs_in_flush := s.(gs_in_flush);
     gs_num_writes := s.(gs_num_writes); gs_cached_gpt := s.(gs_cached_gpt);
     gs_cached_gpt_read := s.(gs_cached_gpt_read); gs_cached_gpt_primary := s.(gs_cached_gpt_primary);
     gs_backup_gpt_lba := s.(gs_backup_gpt_lba); gs_primary_array_lba := s.(gs_primary_array_lba);
     gs_backup_array_lba := s.(gs_backup_array_lba); gs_plat_max_partitions := s.(gs_plat_max_partitions);
     gs_locals := s.(gs_locals) |}.
Definition set_in_flush (v : bool) (s : gpt_state X) : gpt_state X :=
  {| gs_world := s.(gs_world); gs_driver := s.(gs_driver); gs_lba_buf := s.(gs_lba_buf);
     gs_cached_lba := s.(gs_cached_lba); gs_write_buffered := s.(gs_write_buffered); gs_in_flush := v;
     gs_num_writes := s.(gs_num_writes); gs_cached_gpt := s.(gs_cached_gpt);
     gs_cached_gpt_read := s.(gs_cached_gpt_read); gs_cached_gpt_primary := s.(gs_cached_gpt_primary);
     gs_backup_gpt_lba := s.(gs_backup_gpt_lba); gs_primary_array_lba := s.(gs_primary_array_lba);
     gs_backup_array_lba := s.(gs_backup_array_lba); gs_plat_max_partitions := s.(gs_plat_max_partitions);
     gs_locals := s.(gs_locals) |}.
Definition set_num_writes (v : Z) (s : gpt_state X) : gpt_state X :=
  {| gs_world := s.(gs_world); gs_driver := s.(gs_driver); gs_lba_buf := s.(gs_lba_buf);
     gs_cached_lba := s.(gs_cached_lba); gs_write_buffered := s.(gs_write_buffered);
     gs_in_flush := s.(gs_in_flush); gs_num_writes := v; gs_cached_gpt := s.(gs_cached_gpt);
     gs_cached_gpt_read := s.(gs_cached_gpt_read); gs_cached_gpt_primary := s.(gs_cached_gpt_primary);
     gs_backup_gpt_lba := s.(gs_backup_gpt_lba); gs_primary_array_lba := s.(gs_primary_array_lba);
     gs_backup_array_lba := s.(gs_backup_array_lba); gs_plat_max_partitions := s.(gs_plat_max_partitions);
     gs_locals := s.(gs_locals) |}.
Definition set_cached_gpt (v : gpt_t) (s : gpt_state X) : gpt_state X :=
  {| gs_world := s.(gs_world); gs_driver := s.(gs_driver); gs_lba_buf := s.(gs_lba_buf);
     gs_cached_lba := s.(gs_cached_lba); gs_write_buffered := s.(gs_write_buffered);
     gs_in_flush := s.(gs_in_flush); gs_num_writes := s.(gs_num_writes); gs_cached_gpt := v;
     gs_cached_gpt_read := s.(gs_cached_gpt_read); gs_cached_gpt_primary := s.(gs_cached_gpt_primary);
     gs_backup_gpt_lba := s.(gs_backup_gpt_lba); gs_primary_array_lba := s.(gs_primary_array_lba);
     gs_backup_array_lba := s.(gs_backup_array_lba); gs_plat_max_partitions := s.(gs_plat_max_partitions);
     gs_locals := s.(gs_locals) |}.
Definition set_cached_gpt_read (v : bool) (s : gpt_state X) : gpt_state X :=
  {| gs_world := s.(gs_world); gs_driver := s.(gs_driver); gs_lba_buf := s.(gs_lba_buf);
     gs_cached_lba := s.(gs_cached_lba); gs_write_buffered := s.(gs_write_buffered);
     gs_in_flush := s.(gs_in_flush); gs_num_writes := s.(gs_num_writes);
     gs_cached_gpt := s.(gs_cached_gpt); gs_cached_gpt_read := v;
     gs_cached_gpt_primary := s.(gs_cached_gpt_primary); gs_backup_gpt_lba := s.(gs_backup_gpt_lba);
     gs_primary_array_lba := s.(gs_primary_array_lba); gs_backup_array_lba := s.(gs_backup_array_lba);
     gs_plat_max_partitions := s.(gs_plat_max_partitions); gs_locals := s.(gs_locals) |}.
Definition set_cached_gpt_primary (v : bool) (s : gpt_state X) : gpt_state X :=
  {| gs_world := s.(gs_world); gs_driver := s.(gs_driver); gs_lba_buf := s.(gs_lba_buf);
     gs_cached_lba := s.(gs_cached_lba); gs_write_buffered := s.(gs_write_buffered);
     gs_in_flush := s.(gs_in_flush); gs_num_writes := s.(gs_num_writes);
     gs_cached_gpt := s.(gs_cached_gpt); gs_cached_gpt_read := s.(gs_cached_gpt_read);
     gs_cached_gpt_primary := v; gs_backup_gpt_lba := s.(gs_backup_gpt_lba);
     gs_primary_array_lba := s.(gs_primary_array_lba); gs_backup_array_lba := s.(gs_backup_array_lba);
     gs_plat_max_partitions := s.(gs_plat_max_partitions); gs_locals := s.(gs_locals) |}.
Definition set_backup_gpt_lba (v : Z) (s : gpt_state X) : gpt_state X :=
  {| gs_world := s.(gs_world); gs_driver := s.(gs_driver); gs_lba_buf := s.(gs_lba_buf);
     gs_cached_lba := s.(gs_cached_lba); gs_write_buffered := s.(gs_write_buffered);
     gs_in_flush := s.(gs_in_flush); gs_num_writes := s.(gs_num_writes);
     gs_cached_gpt := s.(gs_cached_gpt); gs_cached_gpt_read := s.(gs_cached_gpt_read);
     gs_cached_gpt_primary := s.(gs_cached_gpt_primary); gs_backup_gpt_lba := v;
     gs_primary_array_lba := s.(gs_primary_array_lba); gs_backup_array_lba := s.(gs_backup_array_lba);
     gs_plat_max_partitions := s.(gs_plat_max_partitions); gs_locals := s.(gs_locals) |}.
Definition set_primary_array_lba (v : Z) (s : gpt_state X) : gpt_state X :=
  {| gs_world := s.(gs_world); gs_driver := s.(gs_driver); gs_lba_buf := s.(gs_lba_buf);
     gs_cached_lba := s.(gs_cached_lba); gs_write_buffered := s.(gs_write_buffered);
     gs_in_flush := s.(gs_in_flush); gs_num_writes := s.(gs_num_writes);
     gs_cached_gpt := s.(gs_cached_gpt); gs_cached_gpt_read := s.(gs_cached_gpt_read);
     gs_cached_gpt_primary := s.(gs_cached_gpt_primary); gs_backup_gpt_lba := s.(gs_backup_gpt_lba);
     gs_primary_array_lba := v; gs_backup_array_lba := s.(gs_backup_array_lba);
     gs_plat_max_partitions := s.(gs_plat_max_partitions); gs_locals := s.(gs_locals) |}.
Definition set_backup_array_lba (v : Z) (s : gpt_state X) : gpt_state X :=
  {| gs_world := s.(gs_world); gs_driver := s.(gs_driver); gs_lba_buf := s.(gs_lba_buf);
     gs_cached_lba := s.(gs_cached_lba); gs_write_buffered := s.(gs_write_buffered);
     gs_in_flush := s.(gs_in_flush); gs_num_writes := s.(gs_num_writes);
     gs_cached_gpt := s.(gs_cached_gpt); gs_cached_gpt_read := s.(gs_cached_gpt_read);
     gs_cached_gpt_primary := s.(gs_cached_gpt_primary); gs_backup_gpt_lba := s.(gs_backup_gpt_lba);
     gs_primary_array_lba := s.(gs_primary_array_lba); gs_backup_array_lba := v;
     gs_plat_max_partitions := s.(gs_plat_max_partitions); gs_locals := s.(gs_locals) |}.
Definition set_plat_max_partitions (v : Z) (s : gpt_state X) : gpt_state X :=
  {| gs_world := s.(gs_world); gs_driver := s.(gs_driver); gs_lba_buf := s.(gs_lba_buf);
     gs_cached_lba := s.(gs_cached_lba); gs_write_buffered := s.(gs_write_buffered);
     gs_in_flush := s.(gs_in_flush); gs_num_writes := s.(gs_num_writes);
     gs_cached_gpt := s.(gs_cached_gpt); gs_cached_gpt_read := s.(gs_cached_gpt_read);
     gs_cached_gpt_primary := s.(gs_cached_gpt_primary); gs_backup_gpt_lba := s.(gs_backup_gpt_lba);
     gs_primary_array_lba := s.(gs_primary_array_lba); gs_backup_array_lba := s.(gs_backup_array_lba);
     gs_plat_max_partitions := v; gs_locals := s.(gs_locals) |}.
Definition set_locals (v : list gpt_t) (s : gpt_state X) : gpt_state X :=
  {| gs_world := s.(gs_world); gs_driver := s.(gs_driver); gs_lba_buf := s.(gs_lba_buf);
     gs_cached_lba := s.(gs_cached_lba); gs_write_buffered := s.(gs_write_buffered);
     gs_in_flush := s.(gs_in_flush); gs_num_writes := s.(gs_num_writes);
     gs_cached_gpt := s.(gs_cached_gpt); gs_cached_gpt_read := s.(gs_cached_gpt_read);
     gs_cached_gpt_primary := s.(gs_cached_gpt_primary); gs_backup_gpt_lba := s.(gs_backup_gpt_lba);
     gs_primary_array_lba := s.(gs_primary_array_lba); gs_backup_array_lba := s.(gs_backup_array_lba);
     gs_plat_max_partitions := s.(gs_plat_max_partitions); gs_locals := v |}.

(** ** Access to the state *)

Definition on_world {A} (m : M X A) : GPT A := fun s =>
  let '(r, x) := m s.(gs_world) in (r, set_world x s).

Definition table_at (p : gpt_ptr) : GPT gpt_t := fun s =>
  match p with
  | CachedGpt => (Val s.(gs_cached_gpt), s)
  | StackGpt n => match s.(gs_locals) !! n with Some t => (Val t, s) | None => (Halt OutOfBounds, s) end
  end.
Definition put_table (p : gpt_ptr) (t : gpt_t) : GPT unit :=
  match p with
  | CachedGpt => modifyS (set_cached_gpt t)
  | StackGpt n => modifyS (fun s => set_locals (<[n := t]> s.(gs_locals)) s)
  end.

(** A function with a local [struct gpt_t], which holds [t] at first. *)
Definition with_local {A} (t : gpt_t) (k : gpt_ptr -> GPT A) : GPT A :=
  n ← gets (fun s => length s.(gs_locals));
  _ ← modifyS (fun s => set_locals (s.(gs_locals) ++ [t]) s);
  r ← attempt (k (StackGpt n));
  _ ← modifyS (fun s => set_locals (take n s.(gs_locals)) s);
  match r with inl e => throw e | inr a => mret a end.

(** [f] runs whatever status [m] returns. *)
Definition after {A} (m : GPT A) (f : GPT unit) : GPT A :=
  r ← attempt m;
  _ ← f;
  match r with inl e => throw e | inr a => mret a end.

(** A call of a function of the driver; a null pointer there or in its place is an access
    to address 0. *)
Definition call_driver {F A} (sel : gpt_flash_driver_t X -> option F) (k : F -> M X A) : GPT A :=
  d ← gets gs_driver;
  match d ≫= sel with
  | Some f => on_world (k f)
  | None => stop OutOfBounds
  end.
Definition driver_read (lba : Z) (buf : bytes) : GPT (Z * bytes) := call_driver drv_read (fun f => f lba buf).
Definition driver_write (lba : Z) (buf : bytes) : GPT Z := call_driver drv_write (fun f => f lba buf).
Definition driver_erase (lba n : Z) : GPT Z := call_driver drv_erase (fun f => f lba n).
End State.
