(* ===== verification/GptIo.v ===== *)
(** Partition tables: checksums and the block buffer
    ([src/lib/ext/efi_soft_crc/src/efi_soft_crc.c], [src/lib/gpt/src/gpt_defs.c] and
    [src/lib/gpt/src/io/]).

    Reading a block may write out the one that is buffered, and writing entries reads
    blocks: the C functions are mutually recursive, and [in_flush] stops the recursion.
    Here each of them takes the [read_from_flash] it calls, and the knot is tied at the end
    with as many levels as can be reached. *)

From stdpp Require Import base list numbers.
From S2P Require Import Prelude GptTypes.

(** ** CRC-32 *)

Definition POLYNOMIAL : Z := 0xEDB88320.

Definition crc32_bit (crc32 : Z) : Z :=
  let mask := u32 (- Z.land crc32 1) in
  Z.lxor (Z.shiftr crc32 1) (Z.land POLYNOMIAL mask).
Definition crc32_byte (crc32 b : Z) : Z := Nat.iter 8 crc32_bit (Z.lxor crc32 b).
Definition efi_soft_crc32_update (old_crc32 : Z) (buf : bytes) : Z :=
  u32 (Z.lnot (fold_left crc32_byte buf (u32 (Z.lnot old_crc32)))).

Section Io.
Context {X : Type} `{!GptBuild}.
Implicit Types (p : gpt_ptr) (h : gpt_header_t).
Abbreviation GPT := (M (gpt_state X)).

(** ** Common definitions ([gpt_defs.c], [gpt_io.c]) *)

Definition get_gpt_array_lba (is_primary : bool) : GPT Z :=
  gets (fun s : gpt_state X => if is_primary then s.(gs_primary_array_lba) else s.(gs_backup_array_lba)).
Definition set_gpt_array_lba (new_value : Z) (is_primary : bool) : GPT unit :=
  modifyS (fun s : gpt_state X => if is_primary then set_primary_array_lba new_value s else set_backup_array_lba new_value s).
Definition put_backup_gpt_lba (v : Z) : GPT unit := modifyS (S := gpt_state X) (set_backup_gpt_lba v).
Definition put_cached_lba (v : Z) : GPT unit := modifyS (S := gpt_state X) (set_cached_lba v).
Definition put_write_buffered (v : bool) : GPT unit := modifyS (S := gpt_state X) (set_write_buffered v).
Definition put_lba_buf (v : bytes) : GPT unit := modifyS (S := gpt_state X) (set_lba_buf v).

Definition gpt_entry_per_lba_count : Z := TFM_GPT_BLOCK_SIZE / GPT_ENTRY_SIZE.
Definition partition_entry_lba (t : gpt_t) (array_index : Z) : Z :=
  u64 (t.(header).(array_lba) + array_index / gpt_entry_per_lba_count).
Definition partition_array_last_lba (t : gpt_t) : Z :=
  if t.(num_used_partitions) =? 0 then t.(header).(array_lba)
  else partition_entry_lba t (u32 (t.(num_used_partitions) - 1)).

(** ** Reading and writing blocks *)

(** The header of the other copy of the table. *)
Definition swap_headers (src : gpt_header_t) : GPT gpt_header_t :=
  array ← get_gpt_array_lba (negb (src.(current_lba) =? PRIMARY_GPT_LBA));
  let dst := set_header_crc 0 (set_lbas src.(backup_lba) src.(current_lba) array src) in
  mret (set_header_crc (efi_soft_crc32_update 0 (header_bytes dst)) dst).

Definition write_to_flash (lba : Z) (skip_erase : bool) : GPT unit :=
  _ ← (if skip_erase then mret tt
       else n ← driver_erase lba 1; fail_if (negb (n =? 1)) PSA_ERROR_STORAGE_FAILURE);
  buf ← gets gs_lba_buf;
  n ← driver_write lba buf;
  fail_if (negb (n =? TFM_GPT_BLOCK_SIZE)) PSA_ERROR_STORAGE_FAILURE.

(** The header goes out through the buffer, whose content is put back. *)
Definition write_header_to_flash (p : gpt_ptr) : GPT unit :=
  t ← table_at p;
  lba_buf ← gets gs_lba_buf;
  let temp_buf := slice lba_buf 0 GPT_HEADER_SIZE in
  _ ← put_lba_buf (splice lba_buf 0 (header_bytes t.(header)));
  after (write_to_flash t.(header).(current_lba) false)
    (buf ← gets gs_lba_buf; put_lba_buf (splice buf 0 temp_buf)).

Definition entry_offset (array_index : Z) : nat :=
  Z.to_nat (array_index mod gpt_entry_per_lba_count * GPT_ENTRY_SIZE).

(** A local [struct gpt_t] before it is written; its header always is before it is read. *)
Definition stack_gpt : gpt_t := {| header := zero_gpt.(header); num_used_partitions := stack_u32 |}.

(** Both copies of the header. *)
Definition write_headers_to_flash (primary_table : gpt_ptr) : GPT unit :=
  backup ← gets gs_backup_gpt_lba;
  _ ← (if negb (backup =? 0) then
         t ← table_at primary_table;
         with_local t (fun backup_gpt =>
           h ← swap_headers t.(header);
           _ ← put_table backup_gpt (set_header h t);
           write_header_to_flash backup_gpt)
       else mret tt);
  write_header_to_flash primary_table.

Section Knot.
Variable read_from_flash_below : Z -> M (gpt_state X) unit.

Definition read_entry_with (p : gpt_ptr) (array_index : Z) : GPT gpt_entry_t :=
  t ← table_at p;
  _ ← read_from_flash_below (partition_entry_lba t array_index);
  buf ← gets gs_lba_buf;
  mret (entry_of (slice buf (entry_offset array_index) (Z.to_nat GPT_ENTRY_SIZE))).

(** The checksum of the array; the number of entries does not change in the loop. *)
Definition array_crc_with (p : gpt_ptr) : GPT Z :=
  t ← table_at p;
  fold_range 0 t.(header).(num_partitions) 0 (fun i crc =>
    e ← read_entry_with p i;
    mret (efi_soft_crc32_update crc (entry_bytes e))).

Definition update_header_with (p : gpt_ptr) (num_partitions : Z) : GPT unit :=
  t ← table_at p;
  _ ← put_table p (set_num_used num_partitions t);
  crc ← array_crc_with p;
  t ← table_at p;
  let h := set_header_crc 0 (set_array_crc crc t.(header)) in
  put_table p (set_header (set_header_crc (efi_soft_crc32_update 0 (header_bytes h)) h) t).

(** The buffer holds the block of entries. *)
Definition write_entry_and_header_with (p : gpt_ptr) (lbas_into_array : Z) : GPT unit :=
  t ← table_at p;
  _ ← write_to_flash (u64 (t.(header).(array_lba) + lbas_into_array)) false;
  _ ← update_header_with p t.(num_used_partitions);
  write_header_to_flash p.

Definition write_entries_with (primary_table : gpt_ptr) (lbas_into_array : Z) : GPT unit :=
  with_local stack_gpt (fun backup_table =>
    backup ← gets gs_backup_gpt_lba;
    _ ← (if backup =? 0 then mret tt
         else
           t ← table_at primary_table;
           h ← swap_headers t.(header);
           _ ← put_table backup_table (set_header h stack_gpt);
           if h.(array_lba) =? 0 then mret tt
           else
             _ ← write_entry_and_header_with backup_table lbas_into_array;
             read_from_flash_below (u64 (h.(array_lba) + lbas_into_array)));
    t ← table_at primary_table;
    if t.(header).(array_lba) =? 0 then throw PSA_ERROR_STORAGE_FAILURE
    else write_entry_and_header_with primary_table lbas_into_array).

(** Write out the buffer: to both copies of the table, if the block is part of one. *)
Definition flush_buffered_with (primary_table : gpt_ptr) : GPT unit :=
  cached_lba ← gets gs_cached_lba;
  t ← table_at primary_table;
  backup ← gets gs_backup_gpt_lba;
  backup_array ← get_gpt_array_lba false;
  let array := t.(header).(array_lba) in
  let array_size := u64 (partition_array_last_lba t - array + 1) in
  if (cached_lba =? PRIMARY_GPT_LBA) || (negb (backup =? 0) && (cached_lba =? backup))
  then write_headers_to_flash primary_table
  else if (array <=? cached_lba) && (cached_lba <=? partition_array_last_lba t)
  then write_entries_with primary_table (u32 (cached_lba - array))
  else if negb (backup_array =? 0) && (backup_array <=? cached_lba) &&
          (cached_lba <=? u64 (backup_array + array_size - 1))
  then write_entries_with primary_table (u32 (cached_lba - backup_array))
  else write_to_flash cached_lba false.

Definition flush_lba_buf_with (primary_table : gpt_ptr) : GPT unit :=
  in_flush ← gets gs_in_flush;
  if in_flush : bool then mret tt
  else
    _ ← modifyS (set_in_flush true);
    _ ← put_write_buffered false;
    after (flush_buffered_with primary_table) (modifyS (set_in_flush false)).

Definition read_from_flash_step (required_lba : Z) : GPT unit :=
  cached_lba ← gets gs_cached_lba;
  if negb (required_lba =? cached_lba) then
    buffered ← gets gs_write_buffered;
    read ← gets gs_cached_gpt_read;
    _ ← (if buffered && negb (cached_lba =? 0) && read then
           primary ← gets gs_cached_gpt_primary;
           if primary : bool then flush_lba_buf_with CachedGpt
           else
             t ← table_at CachedGpt;
             with_local t (fun primary_gpt =>
               h ← swap_headers t.(header);
               _ ← put_table primary_gpt (set_header h t);
               flush_lba_buf_with primary_gpt)
         else mret tt);
    _ ← put_write_buffered false;
    buf ← gets gs_lba_buf;
    '(n, buf') ← driver_read required_lba buf;
    _ ← put_lba_buf buf';
    _ ← fail_if (negb (n =? TFM_GPT_BLOCK_SIZE)) PSA_ERROR_STORAGE_FAILURE;
    put_cached_lba required_lba
  else mret tt.
End Knot.

(** A flush reads blocks, and a flush inside a flush does nothing. *)
Fixpoint read_from_flash_depth (n : nat) (required_lba : Z) : GPT unit :=
  match n with
  | O => stop OutOfFuel
  | Datatypes.S n' => read_from_flash_step (read_from_flash_depth n') required_lba
  end.
Definition read_from_flash : Z -> M (gpt_state X) unit := read_from_flash_depth 2.

Definition read_entry_from_flash := read_entry_with read_from_flash.
Definition update_header := update_header_with read_from_flash.
Definition write_entry_and_header := write_entry_and_header_with read_from_flash.
Definition write_entries_to_flash := write_entries_with read_from_flash.
Definition flush_lba_buf := flush_lba_buf_with read_from_flash.

(** ** Reading tables ([gpt_io_read.c]) *)

Definition invalidate_cached_gpt : GPT unit :=
  _ ← modifyS (S := gpt_state X) (set_cached_gpt zero_gpt);
  _ ← modifyS (set_cached_gpt_read false);
  modifyS (set_cached_gpt_primary true).

(** The table read is [cached_gpt]. *)
Definition read_table_from_flash (is_primary : bool) : GPT unit :=
  _ ← (if is_primary then read_from_flash PRIMARY_GPT_LBA
       else
         backup ← gets gs_backup_gpt_lba;
         if negb (backup =? 0) then read_from_flash backup else throw PSA_ERROR_STORAGE_FAILURE);
  buf ← gets gs_lba_buf;
  let h := header_of (slice buf 0 GPT_HEADER_SIZE) in
  _ ← put_table CachedGpt {| header := h; num_used_partitions := 0 |};
  set_gpt_array_lba h.(array_lba) is_primary.

Definition read_table (is_primary : bool) : GPT gpt_ptr :=
  read ← gets gs_cached_gpt_read;
  primary ← gets gs_cached_gpt_primary;
  array ← get_gpt_array_lba is_primary;
  if read && Bool.eqb is_primary primary then mret CachedGpt
  else if read && negb (array =? 0) then
    t ← table_at CachedGpt;
    alt ← swap_headers t.(header);
    _ ← set_gpt_array_lba t.(header).(array_lba) (negb is_primary);
    _ ← put_table CachedGpt (set_header alt t);
    _ ← modifyS (set_cached_gpt_primary is_primary);
    mret CachedGpt
  else
    _ ← read_table_from_flash is_primary;
    _ ← modifyS (set_cached_gpt_read true);
    _ ← modifyS (set_cached_gpt_primary is_primary);
    mret CachedGpt.

Definition mbr_load : GPT mbr_t :=
  buf ← gets gs_lba_buf;
  '(n, buf') ← driver_read MBR_LBA buf;
  _ ← put_lba_buf buf';
  _ ← fail_if (negb (n =? TFM_GPT_BLOCK_SIZE)) PSA_ERROR_STORAGE_FAILURE;
  let mbr := mbr_of (slice buf' MBR_UNUSED_BYTES 66) in
  _ ← fail_if (negb (mbr.(mbr_sig) =? MBR_SIG)) PSA_ERROR_INVALID_SIGNATURE;
  mret mbr.

(** ** Writing entries ([gpt_io_write.c])

    The buffer is written out at every n-th write, n being the number of entries in a
    block. *)
Definition write_entry (primary_table : gpt_ptr) (array_index : Z) (entry : gpt_entry_t) : GPT unit :=
  t ← table_at primary_table;
  _ ← read_from_flash (partition_entry_lba t array_index);
  buf ← gets gs_lba_buf;
  _ ← put_lba_buf (splice buf (entry_offset array_index) (entry_bytes entry));
  _ ← modifyS (fun s => set_num_writes (u32 (s.(gs_num_writes) + 1)) s);
  num_writes ← gets gs_num_writes;
  if num_writes =? gpt_entry_per_lba_count then
    _ ← modifyS (set_num_writes 0);
    _ ← put_write_buffered false;
    cached_lba ← gets gs_cached_lba;
    t ← table_at primary_table;
    write_entries_to_flash primary_table (u32 (cached_lba - t.(header).(array_lba)))
  else put_write_buffered true.

(** ** Searching and validating ([gpt_defs.c]) *)

Definition gpt_entry_cmp_guid (guid : efi_guid_t) (entry : gpt_entry_t) : bool :=
  efi_guid_eqb entry.(unique_guid) guid.

(** The [repeat_index]-th entry that compares equal, and its index.  Blocks that cannot be
    read are passed over.  The loop carries the number of matches and whether a read failed. *)
Definition find_gpt_entry (table : gpt_ptr) (compare : gpt_entry_t -> bool) (repeat_index : Z)
    : GPT (gpt_entry_t * Z) :=
  t ← table_at table;
  _ ← fail_if (t.(num_used_partitions) =? 0) PSA_ERROR_DOES_NOT_EXIST;
  while_loop (fun '(i, num_found, io_failure) =>
    t ← table_at table;
    if negb (i <? t.(num_used_partitions)) then
      throw (if io_failure : bool then PSA_ERROR_STORAGE_FAILURE else PSA_ERROR_DOES_NOT_EXIST)
    else
      r ← attempt (read_entry_from_flash table i);
      match r with
      | inl _ => mret (inl (u32 (i + 1), num_found, true))
      | inr entry =>
          if compare entry then
            if num_found =? repeat_index then mret (inr (entry, i))
            else mret (inl (u32 (i + 1), u32 (num_found + 1), io_failure))
          else mret (inl (u32 (i + 1), num_found, io_failure))
      end) (0, 0, false).

Definition count_used_partitions (table : gpt_ptr) : GPT Z :=
  t ← table_at table;
  r ← for_range 0 t.(header).(num_partitions) (fun i =>
    entry ← read_entry_from_flash table i;
    mret (if efi_guid_eqb NULL_GUID entry.(partition_type) then Some i else None));
  mret (match r with Some i => i | None => t.(header).(num_partitions) end).

Definition validate_backup_gpt_lba (backup_lba primary_lba partition_array_end : Z) (h : gpt_header_t) : GPT unit :=
  _ ← fail_if (S := gpt_state X) (backup_lba <=? primary_lba) PSA_ERROR_INVALID_SIGNATURE;
  _ ← fail_if (backup_lba <=? h.(first_lba)) PSA_ERROR_INVALID_SIGNATURE;
  _ ← fail_if (backup_lba <=? h.(last_lba)) PSA_ERROR_INVALID_SIGNATURE;
  fail_if (backup_lba <=? partition_array_end) PSA_ERROR_INVALID_SIGNATURE.

Definition validate_array_lba (partition_array_end usable_lba_start : Z) : GPT unit :=
  fail_if (S := gpt_state X) (partition_array_end >=? usable_lba_start) PSA_ERROR_INVALID_SIGNATURE.

(** The checksum of a header is taken with its own field 0. *)
Definition header_checksum (h : gpt_header_t) : Z :=
  efi_soft_crc32_update 0 (header_bytes (set_header_crc 0 h)).

Definition validate_table (p : gpt_ptr) (is_primary : bool) : GPT unit :=
  t ← table_at p;
  let h := t.(header) in
  _ ← fail_if (negb (bytes_eqb h.(signature) GPT_SIG)) PSA_ERROR_INVALID_SIGNATURE;
  _ ← fail_if (negb (h.(header_crc) =? header_checksum h)) PSA_ERROR_INVALID_SIGNATURE;
  backup ← gets gs_backup_gpt_lba;
  let table_lba := if is_primary then PRIMARY_GPT_LBA else backup in
  _ ← fail_if (negb (table_lba =? h.(current_lba))) PSA_ERROR_INVALID_SIGNATURE;
  _ ← fail_if (negb (h.(entry_size) =? GPT_ENTRY_SIZE)) PSA_ERROR_NOT_SUPPORTED;
  calc_crc ← array_crc_with read_from_flash p;
  t ← table_at p;
  let h := t.(header) in
  _ ← fail_if (negb (calc_crc =? h.(array_crc))) PSA_ERROR_INVALID_SIGNATURE;
  let array_end := partition_entry_lba t (u32 (h.(num_partitions) - 1)) in
  _ ← (if is_primary then
         _ ← validate_backup_gpt_lba h.(backup_lba) h.(current_lba) array_end h;
         validate_array_lba array_end h.(first_lba)
       else
         _ ← validate_backup_gpt_lba h.(current_lba) h.(backup_lba) array_end h;
         validate_array_lba (u64 (Z.lnot h.(array_lba))) (u64 (Z.lnot h.(last_lba))));
  _ ← (if is_primary then put_backup_gpt_lba h.(backup_lba) else mret tt);
  set_gpt_array_lba h.(array_lba) is_primary.

(** The bytes written to [ascii]; both loops run over the 72 bytes of a name. *)
Definition unicode_to_ascii (unicode : bytes) : Z + bytes :=
  if nth 0 unicode 0 =? 0 then inl PSA_ERROR_INVALID_ARGUMENT
  else if existsb (fun k => negb (nth (2 * k + 1) unicode 0 =? 0)) (seq 0 36) then inl PSA_ERROR_INVALID_ARGUMENT
  else
    let chars := map (fun k => nth (2 * k) unicode 0) (seq 0 36) in
    inr (match list_find (fun c => c = 0) chars with Some (k, _) => take (k + 1) chars | None => chars end).
End Io.
