(* ===== verification/Gpt.v ===== *)
(** Partition tables: the operations ([src/lib/gpt/src/gpt_parse.c],
    [src/lib/gpt/src/gpt_modify.c]). *)

From stdpp Require Import base list numbers sorting.
From S2P Require Import Prelude GptTypes GptIo.

Section Gpt.
Context {X : Type} `{!GptBuild} `{!GptRandom X}.
Abbreviation GPT := (M (gpt_state X)).

(** ** [gpt_parse.c] *)

Definition parse_entry (entry : gpt_entry_t) : partition_entry_t :=
  {| pe_start := entry.(start); pe_size := u64 (entry.(end_) - entry.(start) + 1); pe_name := entry.(name);
     pe_attr := entry.(attr); pe_partition_guid := entry.(unique_guid); pe_type_guid := entry.(partition_type) |}.
Definition gpt_entry_cmp_name (n : bytes) (entry : gpt_entry_t) : bool := bytes_eqb n entry.(name).
Definition gpt_entry_cmp_type (type : efi_guid_t) (entry : gpt_entry_t) : bool :=
  efi_guid_eqb entry.(partition_type) type.

Definition gpt_entry_read_cmp (compare : gpt_entry_t -> bool) (index : Z) : GPT partition_entry_t :=
  primary_table ← read_table true;
  '(cached_entry, _) ← find_gpt_entry primary_table compare index;
  mret (parse_entry cached_entry).
Definition gpt_entry_read (guid : efi_guid_t) := gpt_entry_read_cmp (gpt_entry_cmp_guid guid) 0.
Definition gpt_entry_read_by_name (n : bytes) (index : Z) := gpt_entry_read_cmp (gpt_entry_cmp_name n) index.
Definition gpt_entry_read_by_type (type : efi_guid_t) (index : Z) := gpt_entry_read_cmp (gpt_entry_cmp_type type) index.

(** The end of [gpt_uninit], and [fail_load] of [gpt_init]. *)
Definition forget_all : GPT unit :=
  _ ← modifyS (S := gpt_state X) (set_driver None);
  _ ← modifyS (S := gpt_state X) (set_plat_max_partitions 0);
  _ ← put_backup_gpt_lba 0;
  _ ← put_cached_lba 0;
  _ ← set_gpt_array_lba 0 true;
  _ ← set_gpt_array_lba 0 false;
  _ ← invalidate_cached_gpt;
  put_write_buffered false.

Definition check_entry_size (p : gpt_ptr) : GPT unit :=
  t ← table_at p;
  fail_if (negb (t.(header).(entry_size) =? GPT_ENTRY_SIZE)) PSA_ERROR_NOT_SUPPORTED.

Definition count_into (p : gpt_ptr) : GPT unit :=
  n ← count_used_partitions p;
  t ← table_at p;
  put_table p (set_num_used n t).

(** The part of [gpt_init] that leaves through [fail_load]. *)
Definition gpt_load : GPT unit :=
  mbr ← mbr_load;
  let os_type := match mbr.(mbr_partitions) with e :: _ => e.(mbr_os_type) | [] => 0 end in
  primary_table ← (if os_type =? MBR_TYPE_GPT then read_table true else throw PSA_ERROR_NOT_SUPPORTED);
  _ ← check_entry_size primary_table;
  t ← table_at primary_table;
  _ ← put_backup_gpt_lba t.(header).(backup_lba);
  backup ← gets gs_backup_gpt_lba;
  primary_table ← (if negb (backup =? 0) then
    _ ← invalidate_cached_gpt;
    backup_table ← read_table false;
    _ ← check_entry_size backup_table;
    _ ← invalidate_cached_gpt;
    read_table true
  else mret primary_table);
  count_into primary_table.

Definition gpt_init (flash_driver : gpt_flash_driver_t X) (max_partitions : Z) : GPT unit :=
  _ ← invalidate_cached_gpt;
  _ ← put_cached_lba 0;
  _ ← put_write_buffered false;
  _ ← fail_if (max_partitions <? GPT_MIN_PARTITIONS) PSA_ERROR_INVALID_ARGUMENT;
  _ ← fail_if (negb (bool_decide (is_Some flash_driver.(drv_read)) && bool_decide (is_Some flash_driver.(drv_write)) &&
                     bool_decide (is_Some flash_driver.(drv_erase)))) PSA_ERROR_INVALID_ARGUMENT;
  _ ← modifyS (fun s => match s.(gs_driver) with None => set_driver (Some flash_driver) s | Some _ => s end);
  _ ← modifyS (fun s => if s.(gs_plat_max_partitions) =? 0 then set_plat_max_partitions (u32 max_partitions) s else s);
  d ← gets gs_driver;
  _ ← match d ≫= drv_init with
      | Some f => r ← on_world f; fail_if (negb (r =? 0)) PSA_ERROR_STORAGE_FAILURE
      | None => mret tt
      end;
  r ← attempt gpt_load;
  match r with
  | inl ret => _ ← forget_all; throw ret
  | inr _ => mret tt
  end.

Definition gpt_uninit : GPT unit :=
  d ← gets gs_driver;
  ret ← match d with
    | None => mret PSA_SUCCESS
    | Some flash_driver =>
        buffered ← gets gs_write_buffered;
        ret ← (if buffered : bool then
                 primary_table ← read_table true;
                 status_of (flush_lba_buf primary_table)
               else mret PSA_SUCCESS);
        match flash_driver.(drv_uninit) with
        | Some f => r ← on_world f; mret (if negb (r =? 0) then PSA_ERROR_STORAGE_FAILURE else ret)
        | None => mret ret
        end
    end;
  _ ← forget_all;
  fail_if (negb (ret =? PSA_SUCCESS)) ret.

(** What [gpt_validate] and [gpt_restore] do first. *)
Definition flush_and_invalidate : GPT unit :=
  buffered ← gets gs_write_buffered;
  _ ← (if buffered : bool then
         primary_table ← read_table true;
         _ ← flush_lba_buf primary_table;
         put_write_buffered false
       else mret tt);
  _ ← put_cached_lba 0;
  invalidate_cached_gpt.

(** [invalidate_cached_gpt] on the way out of a failed step. *)
Definition or_invalidate {A} (m : GPT A) : GPT A :=
  r ← attempt m;
  match r with inl e => _ ← invalidate_cached_gpt; throw e | inr a => mret a end.

Definition gpt_validate (is_primary : bool) : GPT unit :=
  backup ← gets gs_backup_gpt_lba;
  _ ← fail_if (negb is_primary && (backup =? 0)) PSA_ERROR_STORAGE_FAILURE;
  _ ← flush_and_invalidate;
  table ← read_table is_primary;
  _ ← or_invalidate (validate_table table is_primary);
  or_invalidate (count_into table).

(** ** [gpt_modify.c]: one entry *)

(** Every operation on an entry finds it first. *)
Definition find_primary (guid : efi_guid_t) : GPT (gpt_ptr * gpt_entry_t * Z) :=
  primary_table ← read_table true;
  '(cached_entry, cached_index) ← find_gpt_entry primary_table (gpt_entry_cmp_guid guid) 0;
  mret (primary_table, cached_entry, cached_index).

Definition gpt_entry_rename (guid : efi_guid_t) (n : bytes) : GPT unit :=
  _ ← fail_if (nth 0 n 0 =? 0) PSA_ERROR_INVALID_ARGUMENT;
  '(primary_table, cached_entry, cached_index) ← find_primary guid;
  if bytes_eqb cached_entry.(name) n then mret tt
  else write_entry primary_table cached_index (set_name (splice n (Z.to_nat (GPT_ENTRY_NAME_LENGTH - 2)) [0; 0]) cached_entry).

Definition gpt_entry_change_type (guid type : efi_guid_t) : GPT unit :=
  _ ← fail_if (efi_guid_eqb NULL_GUID type) PSA_ERROR_INVALID_ARGUMENT;
  '(primary_table, cached_entry, cached_index) ← find_primary guid;
  write_entry primary_table cached_index (set_partition_type type cached_entry).

Definition gpt_attr_add (guid : efi_guid_t) (a : Z) : GPT unit :=
  if a =? 0 then mret tt
  else
    '(primary_table, cached_entry, cached_index) ← find_primary guid;
    write_entry primary_table cached_index (set_attr (Z.lor cached_entry.(attr) a) cached_entry).

Definition gpt_attr_remove (guid : efi_guid_t) (a : Z) : GPT unit :=
  if a =? 0 then mret tt
  else
    '(primary_table, cached_entry, cached_index) ← find_primary guid;
    write_entry primary_table cached_index (set_attr (Z.land cached_entry.(attr) (u64 (Z.lnot a))) cached_entry).

Definition gpt_attr_set (guid : efi_guid_t) (a : Z) : GPT unit :=
  '(primary_table, cached_entry, cached_index) ← find_primary guid;
  write_entry primary_table cached_index (set_attr a cached_entry).

(** ** Creating an entry *)

Definition overlaps (first last : Z) (entry : gpt_entry_t) : bool :=
  ((first >=? entry.(start)) && (first <=? entry.(end_))) ||
  ((last >=? entry.(start)) && (last <=? entry.(end_))) ||
  ((first <=? entry.(start)) && (last >=? entry.(end_))).

(** The start chosen for a caller that leaves it open, and the end of the entry before:
    the loop goes over the whole array, used or not. *)
Definition lowest_free_lba (primary_table : gpt_ptr) : GPT (Z * Z) :=
  t ← table_at primary_table;
  while_loop (fun '(i, prev_end) =>
    if negb (i <? t.(header).(num_partitions)) then mret (inr (0, prev_end))
    else
      entry ← read_entry_from_flash primary_table i;
      if u64 (entry.(start) - 1) >? prev_end then mret (inr (u64 (prev_end + 1), prev_end))
      else mret (inl (u32 (i + 1), entry.(end_)))) (0, t.(header).(first_lba)).

Definition outside_usable (t : gpt_t) (first last : Z) : bool :=
  (first <? t.(header).(first_lba)) || (last <? t.(header).(first_lba)) ||
  (first >? t.(header).(last_lba)) || (last >? t.(header).(last_lba)).

Definition check_overlap (primary_table : gpt_ptr) (first last : Z) : GPT unit :=
  t ← table_at primary_table;
  _ ← for_range 0 t.(num_used_partitions) (fun i =>
    entry ← read_entry_from_flash primary_table i;
    _ ← fail_if (overlaps first last entry) PSA_ERROR_INVALID_ARGUMENT;
    mret (None : option unit));
  mret tt.

Definition gpt_entry_create (type : efi_guid_t) (start size a : Z) (n : bytes) : GPT efi_guid_t :=
  primary_table ← read_table true;
  t ← table_at primary_table;
  max ← gets gs_plat_max_partitions;
  _ ← fail_if (t.(num_used_partitions) >=? max) PSA_ERROR_INSUFFICIENT_STORAGE;
  _ ← fail_if (size =? 0) PSA_ERROR_INVALID_ARGUMENT;
  _ ← fail_if (nth 0 n 0 =? 0) PSA_ERROR_INVALID_ARGUMENT;
  start_lba ← (if start =? 0 then
    '(start_lba, prev_end) ← lowest_free_lba primary_table;
    _ ← fail_if (negb (start_lba =? u64 (prev_end + 1))) PSA_ERROR_INSUFFICIENT_STORAGE;
    mret start_lba
  else mret start);
  let end_lba := u64 (start_lba + size - 1) in
  t ← table_at primary_table;
  _ ← fail_if (outside_usable t start_lba end_lba) PSA_ERROR_INVALID_ARGUMENT;
  _ ← check_overlap primary_table start_lba end_lba;
  guid ← or_return (on_world efi_guid_generate_random) PSA_ERROR_STORAGE_FAILURE;
  let new_entry := {| partition_type := type; unique_guid := guid; start := start_lba; end_ := end_lba;
                      attr := a; name := n |} in
  t ← table_at primary_table;
  _ ← put_table primary_table (set_num_used (u32 (t.(num_used_partitions) + 1)) t);
  r ← attempt (write_entry primary_table t.(num_used_partitions) new_entry);
  _ ← match r with
      | inl ret =>
          t ← table_at primary_table;
          _ ← put_table primary_table (set_num_used (u32 (t.(num_used_partitions) - 1)) t);
          throw ret
      | inr _ => mret tt
      end;
  buffered ← gets gs_write_buffered;
  _ ← (if buffered : bool then flush_lba_buf primary_table
       else t ← table_at primary_table; update_header primary_table t.(num_used_partitions));
  mret guid.

(** ** Removing an entry *)

(** The entries after the removed one move up by one; the buffer holds the block being
    changed and a second one the next block. *)
Definition shuffle_block (t : gpt_t) (i : Z) : GPT unit :=
  '(read_ret, array_buf) ← driver_read i (replicate (Z.to_nat TFM_GPT_BLOCK_SIZE) 0);
  _ ← fail_if (negb (read_ret =? TFM_GPT_BLOCK_SIZE)) PSA_ERROR_STORAGE_FAILURE;
  buf ← gets gs_lba_buf;
  _ ← put_lba_buf (splice buf (Z.to_nat (GPT_ENTRY_SIZE * (gpt_entry_per_lba_count - 1))) (slice array_buf 0 128));
  backup_array ← get_gpt_array_lba false;
  _ ← (if negb (backup_array =? 0)
       then write_to_flash (u64 (backup_array + i - 1 - t.(header).(array_lba))) false else mret tt);
  _ ← write_to_flash (i - 1) false;
  put_lba_buf (splice array_buf 0 (drop 128 array_buf)).

Definition gpt_entry_remove (guid : efi_guid_t) : GPT unit :=
  '(primary_table, _, cached_index) ← find_primary guid;
  t ← table_at primary_table;
  let per_lba := gpt_entry_per_lba_count in
  let array_end_lba := partition_array_last_lba t in
  _ ← (if negb (cached_index =? u32 (t.(num_used_partitions) - 1)) || (cached_index <? per_lba) then
    let lba_index := cached_index mod per_lba in
    buf ← gets gs_lba_buf;
    _ ← (if negb (lba_index + 1 =? per_lba) then
           put_lba_buf (splice buf (Z.to_nat (lba_index * GPT_ENTRY_SIZE))
             (slice buf (Z.to_nat ((lba_index + 1) * GPT_ENTRY_SIZE)) (Z.to_nat ((per_lba - lba_index - 1) * GPT_ENTRY_SIZE))))
         else mret tt);
    _ ← for_range (partition_entry_lba t cached_index + 1) (array_end_lba + 1) (fun i =>
          _ ← shuffle_block t i; mret (None : option unit));
    mret tt
  else mret tt);
  _ ← put_cached_lba array_end_lba;
  _ ← put_write_buffered false;
  let num_used := u32 (t.(num_used_partitions) - 1) in
  _ ← put_table primary_table (set_num_used num_used t);
  let entries_in_last_lba := num_used mod per_lba in
  let skip_erase := entries_in_last_lba =? 0 in
  buf ← gets gs_lba_buf;
  _ ← put_lba_buf
        (if skip_erase then replicate (Z.to_nat TFM_GPT_BLOCK_SIZE) 0
         else splice buf (Z.to_nat (GPT_ENTRY_SIZE * entries_in_last_lba))
                (replicate (Z.to_nat ((per_lba - entries_in_last_lba) * GPT_ENTRY_SIZE)) 0));
  backup_array ← get_gpt_array_lba false;
  _ ← (if negb (backup_array =? 0)
       then write_to_flash (u64 (backup_array + array_end_lba - t.(header).(array_lba))) skip_erase else mret tt);
  _ ← write_to_flash array_end_lba skip_erase;
  t ← table_at primary_table;
  _ ← update_header primary_table t.(num_used_partitions);
  backup ← gets gs_backup_gpt_lba;
  _ ← (if negb (backup =? 0) then
         with_local stack_gpt (fun backup_table =>
           t ← table_at primary_table;
           h ← swap_headers t.(header);
           _ ← put_table backup_table (set_header h stack_gpt);
           write_header_to_flash backup_table)
       else mret tt);
  write_header_to_flash primary_table.

(** ** Moving data *)

Definition move_lba (old_lba new_lba : Z) (skip_erase : bool) : GPT unit :=
  _ ← read_from_flash old_lba;
  write_to_flash new_lba skip_erase.

(** One erase for the blocks of the target outside the source: how many were erased, 0 if
    not all were.  [size_t] and [ssize_t] are 32 bits wide. *)
Definition consecutive_erase (lba non_overlap_blocks : Z) : GPT Z :=
  erase_ret ← driver_erase lba (u32 non_overlap_blocks);
  mret (if negb (erase_ret =? s32 non_overlap_blocks) then 0 else non_overlap_blocks).

Definition move_partition_data (old_lba new_lba num_blocks : Z) : GPT unit :=
  if old_lba =? new_lba then mret tt
  else
    _ ← (if old_lba <? new_lba then
      let non_overlap_blocks :=
        if u64 (old_lba + num_blocks - 1) <? new_lba then num_blocks else new_lba - old_lba in
      non_overlap_blocks ← consecutive_erase (u64 (new_lba + (num_blocks - non_overlap_blocks))) non_overlap_blocks;
      for_range 0 num_blocks (fun k =>
        let block := num_blocks - k in
        _ ← move_lba (u64 (old_lba + block - 1)) (u64 (new_lba + block - 1)) (block <? non_overlap_blocks);
        mret (None : option unit))
    else
      let non_overlap_blocks :=
        if u64 (new_lba + num_blocks - 1) <? old_lba then num_blocks else old_lba - new_lba in
      non_overlap_blocks ← consecutive_erase new_lba non_overlap_blocks;
      for_range 0 num_blocks (fun block =>
        _ ← move_lba (u64 (old_lba + block)) (u64 (new_lba + block)) (block <? non_overlap_blocks);
        mret (None : option unit)));
    put_write_buffered false.

(** ** Moving and copying partitions *)

(** Entries of the block in the buffer, then those of the other blocks. *)
Definition check_move_overlap (primary_table : gpt_ptr) (guid : efi_guid_t) (first last : Z) : GPT unit :=
  t ← table_at primary_table;
  checked_lba ← gets gs_cached_lba;
  let num_entries_in_last_lba := t.(num_used_partitions) mod gpt_entry_per_lba_count in
  let num_entries_in_cached_lba :=
    if (checked_lba =? partition_array_last_lba t) && negb (num_entries_in_last_lba =? 0)
    then num_entries_in_last_lba else gpt_entry_per_lba_count in
  _ ← for_range 0 num_entries_in_cached_lba (fun i =>
    buf ← gets gs_lba_buf;
    let entry := entry_of (slice buf (Z.to_nat (i * GPT_ENTRY_SIZE)) 128) in
    _ ← fail_if (negb (efi_guid_eqb entry.(unique_guid) guid) && overlaps first last entry) PSA_ERROR_INVALID_ARGUMENT;
    mret (None : option unit));
  _ ← for_range 0 t.(num_used_partitions) (fun i =>
    t ← table_at primary_table;
    if partition_entry_lba t i =? checked_lba then mret (None : option unit)
    else
      entry ← read_entry_from_flash primary_table i;
      _ ← fail_if (overlaps first last entry) PSA_ERROR_INVALID_ARGUMENT;
      mret None);
  mret tt.

Definition move_partition (guid : efi_guid_t) (start end_ : Z) (no_copy : bool) : GPT unit :=
  primary_table ← read_table true;
  _ ← fail_if (end_ <? start) PSA_ERROR_INVALID_ARGUMENT;
  t ← table_at primary_table;
  _ ← fail_if (outside_usable t start end_) PSA_ERROR_INVALID_ARGUMENT;
  '(cached_entry, cached_index) ← find_gpt_entry primary_table (gpt_entry_cmp_guid guid) 0;
  if (start =? cached_entry.(GptTypes.start)) && (end_ =? cached_entry.(GptTypes.end_)) then mret tt
  else
    _ ← check_move_overlap primary_table guid start end_;
    _ ← (if no_copy then mret tt else move_partition_data cached_entry.(GptTypes.start) start (u64 (end_ - start + 1)));
    write_entry primary_table cached_index (set_range start end_ cached_entry).

Definition gpt_entry_move (guid : efi_guid_t) (start end_ : Z) := move_partition guid start end_ false.
Definition gpt_entry_move_no_copy (guid : efi_guid_t) (start end_ : Z) := move_partition guid start end_ true.

Definition duplicate_partition (old_guid : efi_guid_t) (start : Z) (no_copy : bool) : GPT efi_guid_t :=
  old_entry ← gpt_entry_read old_guid;
  new_guid ← gpt_entry_create old_entry.(pe_type_guid) start old_entry.(pe_size) old_entry.(pe_attr) old_entry.(pe_name);
  if no_copy then mret new_guid
  else
    new_start ← (if start =? 0 then new_entry ← gpt_entry_read new_guid; mret new_entry.(pe_start) else mret start);
    _ ← move_partition_data old_entry.(pe_start) new_start old_entry.(pe_size);
    mret new_guid.

Definition gpt_entry_duplicate (old_guid : efi_guid_t) (start : Z) := duplicate_partition old_guid start false.
Definition gpt_entry_duplicate_no_copy (old_guid : efi_guid_t) (start : Z) := duplicate_partition old_guid start true.

(** ** Restoring a table from the other copy *)

Definition restore_table (restore_from : gpt_ptr) (is_primary : bool) : GPT unit :=
  _ ← or_invalidate (validate_table restore_from is_primary);
  with_local stack_gpt (fun restore_to =>
    t ← table_at restore_from;
    h ← swap_headers t.(header);
    _ ← put_table restore_to (set_header h stack_gpt);
    _ ← move_partition_data t.(header).(array_lba) h.(array_lba)
          ((t.(header).(num_partitions) + gpt_entry_per_lba_count - 1) / gpt_entry_per_lba_count);
    _ ← write_header_to_flash restore_to;
    count_into restore_from).

Definition gpt_restore (is_primary : bool) : GPT unit :=
  backup ← gets gs_backup_gpt_lba;
  _ ← fail_if (negb is_primary && (backup =? 0)) PSA_ERROR_STORAGE_FAILURE;
  _ ← flush_and_invalidate;
  table ← read_table (negb is_primary);
  restore_table table (negb is_primary).

(** ** Defragmentation *)

Definition cmp_u64 (a b : Z) : Z := Z.b2z (a >? b) - Z.b2z (a <? b).
Definition u64_le (a b : Z) : Prop := cmp_u64 a b <= 0.
#[export] Instance u64_le_dec : RelDecision u64_le.
Proof. intros a b. unfold u64_le. apply _. Defined.
(** [qsort(arr, n, sizeof(uint64_t), cmp_u64)] *)
Definition qsort_u64 (arr : list Z) : list Z := merge_sort u64_le arr.

(** The index of [key] in a sorted array, or -1; [None] is out of fuel. *)
Fixpoint bsearch_from (fuel : nat) (arr : list Z) (key l r : Z) : option Z :=
  match fuel with
  | O => None
  | Datatypes.S fuel' =>
      if l <? r then
        let m := l + (r - l) / 2 in
        let item := nth (Z.to_nat m) arr 0 in
        if item <? key then bsearch_from fuel' arr key (m + 1) r
        else if item >? key then bsearch_from fuel' arr key l m
        else Some m
      else Some (-1)
  end.
Definition bsearch_index (arr : list Z) (len key : Z) : option Z :=
  bsearch_from (Datatypes.S (Z.to_nat len)) arr key 0 len.

(** The round [i] of the sort from the entry being placed and the indices handled; the
    next entry and indices, or [None] when there is nothing left to do. *)
Definition sort_round (primary_table : gpt_ptr) (num_used : Z) (lba_arr : list Z) (i : Z)
    (curr_entry : gpt_entry_t) (handled : list bool) : GPT (option (gpt_entry_t * list bool)) :=
  new_index ← match bsearch_index lba_arr num_used curr_entry.(start) with
    | Some k => mret k | None => stop OutOfFuel end;
  _ ← fail_if (new_index <? 0) PSA_ERROR_STORAGE_FAILURE;
  if i =? u32 (num_used - 1) then
    _ ← write_entry primary_table new_index curr_entry;
    mret None
  else
    saved_entry ← read_entry_from_flash primary_table new_index;
    if efi_guid_eqb saved_entry.(unique_guid) curr_entry.(unique_guid) then
      let handled := <[Z.to_nat new_index := true]> handled in
      match list_find (fun b => b = false) handled with
      | None => mret None
      | Some (next_entry, _) =>
          saved_entry ← read_entry_from_flash primary_table (Z.of_nat next_entry);
          mret (Some (saved_entry, handled))
      end
    else
      _ ← write_entry primary_table new_index curr_entry;
      mret (Some (saved_entry, <[Z.to_nat new_index := true]> handled)).

Definition sort_partition_array (primary_table : gpt_ptr) : GPT unit :=
  t ← table_at primary_table;
  let num_used := t.(num_used_partitions) in
  _ ← assert_that (negb (num_used =? 0));
  lba_arr ← fold_range 0 num_used [] (fun i arr =>
    entry ← read_entry_from_flash primary_table i;
    mret (arr ++ [entry.(start)]));
  let lba_arr := qsort_u64 lba_arr in
  curr_entry ← read_entry_from_flash primary_table 0;
  while_loop (fun '(i, curr_entry, handled) =>
    if negb (i <? num_used) then mret (inr tt)
    else
      r ← sort_round primary_table num_used lba_arr i curr_entry handled;
      match r with
      | None => mret (inr tt)
      | Some (curr_entry, handled) => mret (inl (u32 (i + 1), curr_entry, handled))
      end) (0, curr_entry, replicate (Z.to_nat num_used) false).

(** One partition moves down to [prev_end]; the end of it plus one. *)
Definition defragment_entry (primary_table : gpt_ptr) (i prev_end : Z) : GPT Z :=
  entry ← read_entry_from_flash primary_table i;
  if prev_end =? entry.(start) then mret (u64 (entry.(end_) + 1))
  else
    let num_blocks := u64 (entry.(end_) - entry.(start) + 1) in
    _ ← move_partition_data entry.(start) prev_end num_blocks;
    let last := u64 (prev_end + num_blocks - 1) in
    _ ← write_entry primary_table i (set_range prev_end last entry);
    mret (u64 (last + 1)).

Definition gpt_defragment : GPT unit :=
  primary_table ← read_table true;
  _ ← sort_partition_array primary_table;
  t ← table_at primary_table;
  _ ← fold_range 0 t.(num_used_partitions) t.(header).(first_lba) (defragment_entry primary_table);
  buffered ← gets gs_write_buffered;
  if buffered : bool then flush_lba_buf primary_table
  else t ← table_at primary_table; update_header primary_table t.(num_used_partitions).
End Gpt.
