(* ===== verification/GptBytes.v ===== *)
(** Partition tables: the structures and their bytes, and the checksum. *)

From stdpp Require Import base list numbers.
From S2P Require Import Prelude GptTypes GptIo.

(** ** Slices *)

Lemma slice_slice_app (l : bytes) a n m : slice l a n ++ slice l (a + n) m = slice l a (n + m).
Proof. unfold slice. by rewrite <- drop_drop, take_take_drop. Qed.

Lemma slice_all (l : bytes) n : length l = n -> slice l 0 n = l.
Proof. intros <-. unfold slice. by rewrite drop_0, take_ge. Qed.

Lemma le32_slice (l : bytes) i : is_bytes l -> (i + 4 <= length l)%nat -> le32 (of_le32 (drop i l)) = slice l i 4.
Proof.
  intros Hb Hl. assert (is_bytes (drop i l)) as Hd by (by apply Forall_drop).
  assert (4 <= length (drop i l))%nat as Hdl by (rewrite length_drop; lia).
  unfold slice. destruct (drop i l) as [|b0 [|b1 [|b2 [|b3 r]]]]; simpl in Hdl; try lia.
  simpl take. rewrite take_0. change (of_le32 (b0 :: b1 :: b2 :: b3 :: r)) with (of_le32 [b0; b1; b2; b3]).
  apply le32_of_le32. unfold is_bytes in *. do 4 apply Forall_cons_1 in Hd as [? Hd]. apply Forall_cons_2; [done|]. apply Forall_cons_2; [done|]. apply Forall_cons_2; [done|]. apply Forall_cons_2; [done|]. constructor.
Qed.

Lemma le64_slice (l : bytes) i : is_bytes l -> (i + 8 <= length l)%nat -> le64 (of_le64 (drop i l)) = slice l i 8.
Proof.
  intros Hb Hl. replace (slice l i 8) with (slice l i 4 ++ slice l (i + 4) 4) by apply slice_slice_app.
  rewrite <- !le32_slice by (done || lia).
  assert (is_u32 (of_le32 (drop i l))) as H1 by (by apply of_le32_range, Forall_drop).
  assert (is_u32 (of_le32 (drop (i + 4) l))) as H2 by (by apply of_le32_range, Forall_drop).
  unfold le64, of_le64. rewrite drop_drop. unfold is_u32 in *. f_equal.
  - unfold le32, u8. f_equal; [lia|]. f_equal; [lia|]. f_equal; [lia|]. f_equal. lia.
  - f_equal. lia.
Qed.

Lemma of_le64_range l : is_bytes l -> is_u64 (of_le64 l).
Proof.
  intros Hb. assert (is_u32 (of_le32 l)) as H1 by (by apply of_le32_range).
  assert (is_u32 (of_le32 (drop 4 l))) as H2 by (by apply of_le32_range, Forall_drop).
  unfold of_le64, is_u64, is_u32 in *. lia.
Qed.

Lemma le64_bytes x : is_bytes (le64 x).
Proof. apply Forall_app_2; apply le32_bytes. Qed.

#[local] Opaque le32 le64.

(** Drop the fields before the one that is read. *)
Ltac field_width a :=
  lazymatch a with
  | le32 _ => constr:(4%nat)
  | le64 _ => constr:(8%nat)
  | _ => lazymatch goal with Hlen : length a = ?n |- _ => constr:(n) end
  end.
Ltac skip_fields :=
  repeat lazymatch goal with
  | |- context [drop 0 _] => rewrite drop_0
  | |- context [drop ?i (?a ++ ?r)] =>
      let k := field_width a in rewrite (drop_after a r k i) by (done || lia); cbn [Nat.sub]
  | |- context [slice (?a ++ ?r) 0 _] => rewrite (slice_app_l a r) by done
  | |- context [slice (?a ++ ?r) ?i _] =>
      let k := field_width a in rewrite (slice_after a r k i) by (done || lia); cbn [Nat.sub]
  end.

(** ** Entries *)

Definition guid_ok (g : efi_guid_t) : Prop := length g = 16%nat /\ is_bytes g.
Definition entry_ok (e : gpt_entry_t) : Prop :=
  guid_ok e.(partition_type) /\ guid_ok e.(unique_guid) /\ is_u64 e.(start) /\ is_u64 e.(end_) /\ is_u64 e.(attr) /\
  length e.(name) = 72%nat /\ is_bytes e.(name).

Lemma length_entry_bytes e : entry_ok e -> length (entry_bytes e) = 128%nat.
Proof. intros ((? & _) & (? & _) & _ & _ & _ & ? & _). unfold entry_bytes. rewrite !length_app, !le64_length. lia. Qed.

Lemma entry_bytes_ok e : entry_ok e -> is_bytes (entry_bytes e).
Proof. intros ((_ & ?) & (_ & ?) & _ & _ & _ & _ & ?). unfold entry_bytes. repeat apply Forall_app_2; first [done | apply le32_bytes | apply le64_bytes]. Qed.

Lemma entry_of_bytes e l : entry_ok e -> entry_of (entry_bytes e ++ l) = e.
Proof.
  destruct e as [ty gu st en at_ na]. intros ([Hty _] & [Hgu _] & Hst & Hen & Hat & Hna & _). cbn in *.
  unfold entry_of, entry_bytes. cbn [partition_type unique_guid start end_ attr name]. rewrite <- !app_assoc.
  f_equal; skip_fields; by rewrite ?of_le64_le64.
Qed.

Lemma entry_bytes_of l : length l = 128%nat -> is_bytes l -> entry_bytes (entry_of l) = l.
Proof.
  intros Hl Hb. unfold entry_of, entry_bytes. cbn [partition_type unique_guid start end_ attr name].
  rewrite !le64_slice by (done || lia). rewrite !slice_slice_app. by apply slice_all.
Qed.

Lemma entry_of_ok l : length l = 128%nat -> is_bytes l -> entry_ok (entry_of l).
Proof.
  intros Hl Hb. unfold entry_ok, guid_ok, entry_of. cbn [partition_type unique_guid start end_ attr name].
  rewrite !length_slice by lia. split_and!; try done; try (by apply is_bytes_slice); by apply of_le64_range, Forall_drop.
Qed.

(** ** Headers *)

Definition header_ok (h : gpt_header_t) : Prop :=
  length h.(signature) = 8%nat /\ is_bytes h.(signature) /\ is_u32 h.(revision) /\ is_u32 h.(size) /\ is_u32 h.(header_crc) /\
  is_u32 h.(reserved) /\ is_u64 h.(current_lba) /\ is_u64 h.(backup_lba) /\ is_u64 h.(first_lba) /\ is_u64 h.(last_lba) /\
  guid_ok h.(flash_guid) /\ is_u64 h.(array_lba) /\ is_u32 h.(num_partitions) /\ is_u32 h.(entry_size) /\ is_u32 h.(array_crc).

Lemma length_header_bytes h : header_ok h -> length (header_bytes h) = 92%nat.
Proof. intros (? & _ & _ & _ & _ & _ & _ & _ & _ & _ & (? & _) & _). unfold header_bytes. rewrite !length_app, !le64_length, !le32_length. lia. Qed.

Lemma gpt_header_bytes_ok h : header_ok h -> is_bytes (header_bytes h).
Proof.
  intros (_ & ? & _ & _ & _ & _ & _ & _ & _ & _ & (_ & ?) & _). unfold header_bytes.
  repeat apply Forall_app_2; first [done | apply le32_bytes | apply le64_bytes].
Qed.

Lemma gpt_header_of_bytes h l : header_ok h -> header_of (header_bytes h ++ l) = h.
Proof.
  destruct h as [si re sz hc rs cu ba fi la fg ar np es ac].
  intros (Hsi & _ & Hre & Hsz & Hhc & Hrs & Hcu & Hba & Hfi & Hla & [Hfg _] & Har & Hnp & Hes & Hac). cbn in *.
  unfold header_of, header_bytes.
  cbn [signature revision size header_crc reserved current_lba backup_lba first_lba last_lba flash_guid array_lba
    num_partitions entry_size array_crc].
  rewrite <- !app_assoc. f_equal; skip_fields; by rewrite ?of_le32_le32, ?of_le64_le64.
Qed.

(** ** The checksum *)

(** Folds whose steps keep [P] and lose nothing. *)
Section Folds.
Context {A B : Type} (f : A -> B -> A) (P : A -> Prop) (Q : B -> Prop).
Hypothesis step_keeps : forall a b, P a -> Q b -> P (f a b).

Lemma fold_left_keeps l a : P a -> Forall Q l -> P (fold_left f l a).
Proof using step_keeps. revert a. induction l as [|b l IH]; intros a Ha Hl; [done|]. apply Forall_cons_1 in Hl as [Hb Hl]. simpl. auto. Qed.

Hypothesis step_inj : forall a a' b, P a -> P a' -> Q b -> f a b = f a' b -> a = a'.

Lemma fold_left_inj l a a' : P a -> P a' -> Forall Q l -> fold_left f l a = fold_left f l a' -> a = a'.
Proof using step_keeps step_inj.
  revert a a'. induction l as [|b l IH]; intros a a' Ha Ha' Hl E; [done|]. apply Forall_cons_1 in Hl as [Hb Hl].
  simpl in E. apply IH in E; eauto.
Qed.

Lemma fold_left_one_step l1 b b' l2 a : P a -> Forall Q l1 -> Q b -> Q b' -> Forall Q l2 ->
  fold_left f (l1 ++ b :: l2) a = fold_left f (l1 ++ b' :: l2) a -> exists d, P d /\ f d b = f d b'.
Proof using step_keeps step_inj.
  intros Ha H1 Hb Hb' H2 E. rewrite !fold_left_app in E. simpl in E.
  exists (fold_left f l1 a). assert (P (fold_left f l1 a)) by (by apply fold_left_keeps). split; [done|].
  eapply fold_left_inj; eauto.
Qed.
End Folds.

Lemma lxor_range x y n : 0 <= n -> 0 <= x < 2 ^ n -> 0 <= y < 2 ^ n -> 0 <= Z.lxor x y < 2 ^ n.
Proof.
  intros Hn Hx Hy. assert (0 <= Z.lxor x y) by (apply Z.lxor_nonneg; lia). split; [done|].
  destruct (Z.eq_dec (Z.lxor x y) 0) as [->|]; [lia|].
  assert (forall z, 0 <= z < 2 ^ n -> Z.log2 z < n \/ z = 0) as Hlog.
  { intros z Hz. destruct (Z.eq_dec z 0); [by right|left]. apply Z.log2_lt_pow2; lia. }
  destruct (Hlog x Hx) as [? | -> ]; [|rewrite Z.lxor_0_l; lia]. destruct (Hlog y Hy) as [? | -> ]; [|rewrite Z.lxor_0_r; lia].
  apply Z.log2_lt_pow2; [lia|]. eapply Z.le_lt_trans; [apply Z.log2_lxor; lia|]. by apply Z.max_lub_lt.
Qed.

Lemma lxor_u32 c b : is_u32 c -> is_u8 b -> is_u32 (Z.lxor c b).
Proof. unfold is_u32, is_u8. intros. apply lxor_range; lia. Qed.

Lemma lnot_u32 x : is_u32 x -> u32 (Z.lnot x) = 2 ^ 32 - 1 - x.
Proof. unfold is_u32, u32, Z.lnot. intros. symmetry. apply (Z.mod_unique _ _ (-1)); lia. Qed.

(** One bit: divide by two, and add the polynomial if the bit is set. *)
Lemma crc32_bit_eq c : is_u32 c -> crc32_bit c = Z.lxor (c / 2) (if Z.odd c then POLYNOMIAL else 0).
Proof.
  intros Hc. unfold crc32_bit. cbv zeta. rewrite <- Z.div2_spec, Z.div2_div. f_equal.
  change 1 with (Z.ones 1). rewrite Z.land_ones, Zmod_odd by done.
  destruct (Z.odd c); [reflexivity|]. change (u32 (- 0)) with 0. apply Z.land_0_r.
Qed.

Lemma crc32_bit_range c : is_u32 c -> is_u32 (crc32_bit c).
Proof.
  intros Hc. rewrite crc32_bit_eq by done. unfold is_u32 in *.
  assert (0 <= (if Z.odd c then POLYNOMIAL else 0) < 2 ^ 32) as Hp by (destruct (Z.odd c); unfold POLYNOMIAL; lia).
  apply lxor_range; lia.
Qed.

(** The top bit of the result tells which case was taken. *)
Lemma crc32_bit_inj c d : is_u32 c -> is_u32 d -> crc32_bit c = crc32_bit d -> c = d.
Proof.
  intros Hc Hd. rewrite !crc32_bit_eq by done. unfold is_u32 in *. intros E.
  assert (forall x, 0 <= x < 2 ^ 32 -> Z.testbit (x / 2) 31 = false) as Htop.
  { intros x Hx. rewrite <- (Z.mod_small (x / 2) (2 ^ 31)) by lia. by apply Z.mod_pow2_bits_high. }
  assert (Z.odd c = Z.odd d) as Ho.
  { apply (f_equal (fun z => Z.testbit z 31)) in E. rewrite !Z.lxor_spec, !Htop in E by lia.
    by destruct (Z.odd c), (Z.odd d). }
  rewrite Ho in E. apply (f_equal (fun z => Z.lxor z (if Z.odd d then POLYNOMIAL else 0))) in E.
  rewrite !Z.lxor_assoc, Z.lxor_nilpotent, !Z.lxor_0_r in E.
  rewrite (Z_div_mod_eq_full c 2), (Z_div_mod_eq_full d 2), E, !Zmod_odd, Ho. done.
Qed.

Lemma crc32_byte_range c b : is_u32 c -> is_u8 b -> is_u32 (crc32_byte c b).
Proof.
  intros Hc Hb. unfold crc32_byte.
  assert (is_u32 (Z.lxor c b)) as Hx by (by apply lxor_u32).
  generalize 8%nat as n. intros n. revert Hx. generalize (Z.lxor c b) as d.
  induction n as [|n IH]; intros d Hd; [done|]. simpl. apply crc32_bit_range. by apply IH.
Qed.

Lemma crc32_iter_inj n c d : is_u32 c -> is_u32 d -> Nat.iter n crc32_bit c = Nat.iter n crc32_bit d -> c = d.
Proof.
  intros Hc Hd.
  assert (forall k x, is_u32 x -> is_u32 (Nat.iter k crc32_bit x)) as Hr.
  { intros k x Hx. induction k as [|k IH]; [done|]. by apply crc32_bit_range. }
  induction n as [|n IH]; [done|]. simpl. intros E. apply IH. apply crc32_bit_inj; auto.
Qed.

Lemma crc32_byte_inj c d b b' : is_u32 c -> is_u32 d -> is_u8 b -> is_u8 b' ->
  crc32_byte c b = crc32_byte d b' -> Z.lxor c b = Z.lxor d b'.
Proof. unfold crc32_byte. intros. eapply crc32_iter_inj; [by apply lxor_u32..|eassumption]. Qed.

Lemma crc32_byte_inj_l c d b : is_u32 c -> is_u32 d -> is_u8 b -> crc32_byte c b = crc32_byte d b -> c = d.
Proof.
  intros Hc Hd Hb E%crc32_byte_inj; [|done..].
  apply (f_equal (fun z => Z.lxor z b)) in E. by rewrite !Z.lxor_assoc, Z.lxor_nilpotent, !Z.lxor_0_r in E.
Qed.

Lemma crc32_bytes_range l c : is_u32 c -> is_bytes l -> is_u32 (fold_left crc32_byte l c).
Proof. apply fold_left_keeps, crc32_byte_range. Qed.

Lemma crc32_range c l : is_u32 (efi_soft_crc32_update c l).
Proof. apply u32_range. Qed.

Lemma crc32_update_eq c l : is_bytes l ->
  efi_soft_crc32_update c l = 2 ^ 32 - 1 - fold_left crc32_byte l (u32 (Z.lnot c)).
Proof. intros Hl. apply lnot_u32, crc32_bytes_range; [apply u32_range|done]. Qed.

(** The checksum of a sequence is taken piece by piece. *)
Lemma crc32_app c l1 l2 : is_u32 c -> is_bytes l1 -> is_bytes l2 ->
  efi_soft_crc32_update (efi_soft_crc32_update c l1) l2 = efi_soft_crc32_update c (l1 ++ l2).
Proof.
  intros Hc H1 H2. rewrite (crc32_update_eq _ l2), (crc32_update_eq _ (l1 ++ l2)), fold_left_app by (done || by apply Forall_app_2).
  rewrite lnot_u32 by apply crc32_range. rewrite crc32_update_eq by done. do 2 f_equal. lia.
Qed.

(** A changed byte changes the checksum. *)
Lemma crc32_detects_byte c l1 b b' l2 : is_bytes l1 -> is_bytes l2 -> is_u8 b -> is_u8 b' ->
  efi_soft_crc32_update c (l1 ++ b :: l2) = efi_soft_crc32_update c (l1 ++ b' :: l2) -> b = b'.
Proof.
  intros H1 H2 Hb Hb' E.
  assert (forall x, is_u8 x -> is_bytes (l1 ++ x :: l2)) as Hl by (intros; by apply Forall_app_2, Forall_cons_2).
  rewrite !crc32_update_eq in E by auto.
  destruct (fold_left_one_step crc32_byte is_u32 is_u8 crc32_byte_range crc32_byte_inj_l l1 b b' l2 (u32 (Z.lnot c)))
    as (d & Hd & Ed%crc32_byte_inj); try done; [apply u32_range|lia|].
  apply (f_equal (Z.lxor d)) in Ed. by rewrite <- !Z.lxor_assoc, Z.lxor_nilpotent, !Z.lxor_0_l in Ed.
Qed.
