(* ===== verification/GptLaws.v ===== *)
(** Partition tables: what the library relies on, its access to blocks, reading through the
    buffer and the checksum of an array.

    The flash is a map from block addresses to bytes.  Erasing sets every bit, programming
    clears bits; an access that is not answered with success leaves the blocks it names in
    an unknown state and the others alone. *)

From stdpp Require Import base list numbers.
From S2P Require Import Prelude GptTypes GptIo GptBytes.

(** The build makes room for whole entries. *)
Class GptBuildOk `{GptBuild} : Prop := {
  block_size_range : 512 <= TFM_GPT_BLOCK_SIZE < 2 ^ 31;
  block_size_entries : TFM_GPT_BLOCK_SIZE mod 128 = 0;
}.

Definition agree_off (D : Z -> Prop) (f g : Z -> bytes) : Prop := forall l, ~ D l -> g l = f l.
Definition nowhere : Z -> Prop := fun _ => False.

(** [access_can_fail] tells whether an access inside the device may be answered with an
    error, or the device lose power. *)
Class GptFlash (X : Type) `{!GptBuild} `{!GptRandom X} := {
  blocks : X -> Z -> bytes;
  nblocks : Z;
  access_can_fail : bool;
  flash_init : option (M X Z);
  flash_uninit : option (M X Z);
  flash_read : Z -> bytes -> M X (Z * bytes);
  flash_write : Z -> bytes -> M X Z;
  flash_erase : Z -> Z -> M X Z;
  nblocks_range : 0 <= nblocks < 2 ^ 62;
  length_block x l : Z.of_nat (length (blocks x l)) = TFM_GPT_BLOCK_SIZE;
  block_bytes x l : is_bytes (blocks x l);
  flash_read_law lba buf x : Z.of_nat (length buf) = TFM_GPT_BLOCK_SIZE -> is_bytes buf ->
    wp (flash_read lba buf) (fun r x' => agree_off nowhere (blocks x) (blocks x') /\
        Z.of_nat (length r.2) = TFM_GPT_BLOCK_SIZE /\ is_bytes r.2 /\
        if r.1 =? TFM_GPT_BLOCK_SIZE then r.2 = blocks x lba else 0 <= lba < nblocks -> access_can_fail = true)
      (fun _ _ => False) (fun _ x' => access_can_fail = true /\ agree_off nowhere (blocks x) (blocks x')) x;
  flash_write_law lba buf x : Z.of_nat (length buf) = TFM_GPT_BLOCK_SIZE -> is_bytes buf ->
    wp (flash_write lba buf) (fun r x' => agree_off (eq lba) (blocks x) (blocks x') /\
        if r =? TFM_GPT_BLOCK_SIZE then blocks x' lba = zip_with Z.land (blocks x lba) buf
        else 0 <= lba < nblocks -> access_can_fail = true)
      (fun _ _ => False) (fun _ x' => access_can_fail = true /\ agree_off (eq lba) (blocks x) (blocks x')) x;
  flash_erase_law lba n x :
    wp (flash_erase lba n) (fun r x' => agree_off (fun l => lba <= l < lba + n) (blocks x) (blocks x') /\
        if r =? n then forall l, lba <= l < lba + n -> blocks x' l = replicate (Z.to_nat TFM_GPT_BLOCK_SIZE) 255
        else 0 <= lba -> 0 < n -> lba + n <= nblocks -> access_can_fail = true)
      (fun _ _ => False) (fun _ x' => access_can_fail = true /\ agree_off (fun l => lba <= l < lba + n) (blocks x) (blocks x')) x;
  random_law n x :
    wp (psa_generate_random n) (fun r x' => blocks x' = blocks x /\ length r = n /\ is_bytes r)
      (fun _ x' => blocks x' = blocks x) (fun _ x' => access_can_fail = true /\ blocks x' = blocks x) x;
}.

Definition flash_driver `{GptFlash X} : gpt_flash_driver_t X :=
  {| drv_init := flash_init; drv_uninit := flash_uninit; drv_read := Some flash_read;
     drv_write := Some flash_write; drv_erase := Some flash_erase |}.

(** ** Sets of blocks *)

Lemma agree_off_refl D f : agree_off D f f.
Proof. done. Qed.
Lemma agree_off_trans D D' f g h : agree_off D f g -> agree_off D' g h -> agree_off (fun l => D l \/ D' l) f h.
Proof. intros H1 H2 l Hl. rewrite (H2 l), (H1 l); tauto. Qed.
Lemma agree_off_weaken (D D' : Z -> Prop) f g : (forall l, D l -> D' l) -> agree_off D f g -> agree_off D' f g.
Proof. intros HD H1 l Hl. apply H1. auto. Qed.

(** Programming an erased block. *)
Lemma program_erased buf n : length buf = n -> is_bytes buf -> zip_with Z.land (replicate n 255) buf = buf.
Proof.
  intros <-. induction buf as [|b buf IH]; intros Hb; [done|]. apply Forall_cons_1 in Hb as [Hb Hbs]. simpl.
  rewrite IH by done. f_equal. rewrite Z.land_comm. change 255 with (Z.ones 8). rewrite Z.land_ones by done.
  by apply Z.mod_small.
Qed.
Lemma program_zeros (buf : bytes) n : length buf = n -> zip_with Z.land buf (replicate n 0) = replicate n 0.
Proof. intros <-. induction buf as [|b buf IH]; [done|]. simpl. rewrite Z.land_0_r. by f_equal. Qed.

(** ** Access to blocks *)

Section Access.
Context {X : Type} {gbuild : GptBuild} {grand : GptRandom X} {gflash : GptFlash X} {gbuild_ok : GptBuildOk}.
Abbreviation GPT := (M (gpt_state X)).
Implicit Types (s : gpt_state X) (x : X).

Definition buf_ok (b : bytes) : Prop := Z.of_nat (length b) = TFM_GPT_BLOCK_SIZE /\ is_bytes b.

Lemma wp_on_world {A} (m : M X A) (Q : A -> gpt_state X -> Prop) E H s :
  wp m (fun a x' => Q a (set_world x' s)) (fun e x' => E e (set_world x' s)) (fun h x' => H h (set_world x' s)) s.(gs_world) ->
  wp (on_world m) Q E H s.
Proof. unfold wp, on_world. by destruct (m s.(gs_world)) as [[] ?]. Qed.

Lemma driver_read_spec lba buf s (Q : Z * bytes -> gpt_state X -> Prop) E H :
  s.(gs_driver) = Some flash_driver -> buf_ok buf ->
  (forall r x', agree_off nowhere (blocks s.(gs_world)) (blocks x') -> buf_ok r.2 ->
     (if r.1 =? TFM_GPT_BLOCK_SIZE then r.2 = blocks s.(gs_world) lba else 0 <= lba < nblocks -> access_can_fail = true) ->
     Q r (set_world x' s)) ->
  (forall h x', access_can_fail = true -> agree_off nowhere (blocks s.(gs_world)) (blocks x') -> H h (set_world x' s)) ->
  wp (driver_read lba buf) Q E H s.
Proof.
  intros Hd [Hl Hb] HQ HH. unfold driver_read, call_driver. wp_step. wp_step. rewrite Hd. cbn [mbind option_bind flash_driver drv_read].
  apply wp_on_world. eapply wp_mono; [by apply flash_read_law|..]; cbn beta; [|done|].
  - intros r x' (?&?&?&?). apply HQ; [done|by split|done].
  - intros h x' [? ?]. by apply HH.
Qed.

Lemma driver_write_spec lba buf s (Q : Z -> gpt_state X -> Prop) E H :
  s.(gs_driver) = Some flash_driver -> buf_ok buf ->
  (forall r x', agree_off (eq lba) (blocks s.(gs_world)) (blocks x') ->
     (if r =? TFM_GPT_BLOCK_SIZE then blocks x' lba = zip_with Z.land (blocks s.(gs_world) lba) buf
      else 0 <= lba < nblocks -> access_can_fail = true) -> Q r (set_world x' s)) ->
  (forall h x', access_can_fail = true -> agree_off (eq lba) (blocks s.(gs_world)) (blocks x') -> H h (set_world x' s)) ->
  wp (driver_write lba buf) Q E H s.
Proof.
  intros Hd [Hl Hb] HQ HH. unfold driver_write, call_driver. wp_step. wp_step. rewrite Hd. cbn [mbind option_bind flash_driver drv_write].
  apply wp_on_world. eapply wp_mono; [by apply flash_write_law|..]; cbn beta; [|done|].
  - intros r x' (?&?). by apply HQ.
  - intros h x' [? ?]. by apply HH.
Qed.

Lemma driver_erase_spec lba n s (Q : Z -> gpt_state X -> Prop) E H :
  s.(gs_driver) = Some flash_driver ->
  (forall r x', agree_off (fun l => lba <= l < lba + n) (blocks s.(gs_world)) (blocks x') ->
     (if r =? n then forall l, lba <= l < lba + n -> blocks x' l = replicate (Z.to_nat TFM_GPT_BLOCK_SIZE) 255
      else 0 <= lba -> 0 < n -> lba + n <= nblocks -> access_can_fail = true) -> Q r (set_world x' s)) ->
  (forall h x', access_can_fail = true -> agree_off (fun l => lba <= l < lba + n) (blocks s.(gs_world)) (blocks x') -> H h (set_world x' s)) ->
  wp (driver_erase lba n) Q E H s.
Proof.
  intros Hd HQ HH. unfold driver_erase, call_driver. wp_step. wp_step. rewrite Hd. cbn [mbind option_bind flash_driver drv_erase].
  apply wp_on_world. eapply wp_mono; [by apply flash_erase_law|..]; cbn beta; [|done|].
  - intros r x' (?&?). by apply HQ.
  - intros h x' [? ?]. by apply HH.
Qed.

(** [buf] is in block [lba], and the other blocks are as before. *)
Definition stored_at (lba : Z) (buf : bytes) (f g : Z -> bytes) : Prop := g lba = buf /\ agree_off (eq lba) f g.

Definition blk s : Z -> bytes := blocks s.(gs_world).

(** How a failed operation ends: an access failed, and only the blocks in [D] are in
    doubt. *)
Definition failed {E} (D : Z -> Prop) s : E -> gpt_state X -> Prop := fun _ s' =>
  access_can_fail = true /\ agree_off D (blk s) (blk s').

(** A block is written as a whole, or only it is in doubt. *)
Lemma write_to_flash_spec lba s :
  s.(gs_driver) = Some flash_driver -> buf_ok s.(gs_lba_buf) -> 0 <= lba < nblocks ->
  wp (write_to_flash lba false)
    (fun _ s' => exists x', s' = set_world x' s /\ stored_at lba s.(gs_lba_buf) (blk s) (blocks x'))
    (failed (eq lba) s) (failed (eq lba) s) s.
Proof.
  intros Hd Hb Hl. unfold write_to_flash. apply wp_bind.
  assert (forall f g, agree_off (fun l => lba <= l < lba + 1) f g -> agree_off (eq lba) f g) as Hone.
  { intros f g. apply agree_off_weaken. intros. lia. }
  assert (forall f g h, agree_off (eq lba) f g -> agree_off (eq lba) g h -> agree_off (eq lba) f h) as Htwo.
  { intros f g h ??. eapply agree_off_weaken; [|by eapply agree_off_trans]. naive_solver. }
  apply wp_bind, driver_erase_spec; [done|..].
  2: { intros h x' ? Ho%Hone. by split. }
  intros r x' Ho%Hone Hr. apply wp_fail_if.
  { intros Hn. rewrite negb_true_iff in Hn. rewrite Hn in Hr. split; [by apply Hr; lia|done]. }
  intros Hn. rewrite negb_false_iff in Hn. rewrite Hn in Hr. specialize (Hr lba ltac:(lia)).
  wp_step. wp_step. wp_step.
  apply driver_write_spec; [done|done|..].
  2: { intros h x'' ? Ho'. split; [done|]. by eapply Htwo. }
  cbn [gs_world set_world gs_lba_buf]. intros r' x'' Ho' Hw. apply wp_fail_if; intros Hn'.
  - rewrite negb_true_iff in Hn'. rewrite Hn' in Hw. split; [auto|]. by eapply Htwo.
  - rewrite negb_false_iff in Hn'. rewrite Hn' in Hw. exists x''. split; [done|]. split; [|by eapply Htwo].
    rewrite Hw, Hr. apply program_erased; [|apply Hb]. destruct Hb. lia.
Qed.
End Access.

(** * Partition tables: reading through the buffer, and the checksum of an array.

    What a block operation does to the state is written as an equation between states, so
    that the fields it does not name are seen to stay. *)

(** [wp_step] through the accessors of the state. *)
Ltac gpt_step :=
  lazymatch goal with
  | |- wp (put_lba_buf _) _ _ _ _ => apply wp_modifyS
  | |- wp (put_cached_lba _) _ _ _ _ => apply wp_modifyS
  | |- wp (put_write_buffered _) _ _ _ _ => apply wp_modifyS
  | |- wp (put_backup_gpt_lba _) _ _ _ _ => apply wp_modifyS
  | |- wp (set_gpt_array_lba _ _) _ _ _ _ => apply wp_modifyS
  | |- wp (get_gpt_array_lba _) _ _ _ _ => apply wp_gets
  | |- _ => wp_step
  end.

Ltac gpt_auto := repeat gpt_step.

Section Cache.
Context {X : Type} {gbuild : GptBuild} {grand : GptRandom X} {gflash : GptFlash X} {gbuild_ok : GptBuildOk}.
Abbreviation GPT := (M (gpt_state X)).
Implicit Types (s : gpt_state X) (x : X) (p : gpt_ptr) (t : gpt_t) (f : Z -> bytes).

(** ** Tables and the buffer *)

Definition tbl p s : option gpt_t :=
  match p with CachedGpt => Some s.(gs_cached_gpt) | StackGpt n => s.(gs_locals) !! n end.
Definition set_tbl p t s : gpt_state X :=
  match p with CachedGpt => set_cached_gpt t s | StackGpt n => set_locals (<[n := t]> s.(gs_locals)) s end.
Definition set_io x b c s : gpt_state X := set_world x (set_lba_buf b (set_cached_lba c s)).

Lemma table_at_run p t s : tbl p s = Some t -> table_at p s = (Val t, s).
Proof. destruct p as [|n]; simpl; [by intros [= <-]|]. by intros ->. Qed.
Lemma put_table_run p t s : put_table p t s = (Val tt, set_tbl p t s).
Proof. by destruct p. Qed.
Lemma tbl_set_same p t t0 s : tbl p s = Some t0 -> tbl p (set_tbl p t s) = Some t.
Proof. destruct p as [|n]; simpl; [done|]. intros Hn. apply list_lookup_insert_eq. by eapply lookup_lt_Some. Qed.
Lemma tbl_set_io p x b c s : tbl p (set_io x b c s) = tbl p s.
Proof. by destruct p. Qed.
Lemma tbl_set_world p x s : tbl p (set_world x s) = tbl p s.
Proof. by destruct p. Qed.
Lemma tbl_set_lba_buf p b s : tbl p (set_lba_buf b s) = tbl p s.
Proof. by destruct p. Qed.
Lemma set_tbl_twice p t t' s : set_tbl p t (set_tbl p t' s) = set_tbl p t s.
Proof. destruct p as [|n]; simpl; [done|]. unfold set_locals. simpl. by rewrite list_insert_insert_eq. Qed.
Lemma set_io_twice x b c x' b' c' s : set_io x b c (set_io x' b' c' s) = set_io x b c s.
Proof. done. Qed.
Lemma set_tbl_io p t x b c s : set_tbl p t (set_io x b c s) = set_io x b c (set_tbl p t s).
Proof. by destruct p. Qed.
Lemma set_world_io x s : set_world x s = set_io x s.(gs_lba_buf) s.(gs_cached_lba) s.
Proof. by destruct s. Qed.
Lemma set_io_same s : set_io s.(gs_world) s.(gs_lba_buf) s.(gs_cached_lba) s = s.
Proof. by destruct s. Qed.
Lemma set_write_buffered_same b s : s.(gs_write_buffered) = b -> set_write_buffered b s = s.
Proof. intros <-. by destruct s. Qed.

Lemma wp_table_at p t (Q : gpt_t -> gpt_state X -> Prop) E H s :
  tbl p s = Some t -> Q t s -> wp (table_at p) Q E H s.
Proof. intros Ht HQ. eapply wp_run; [by apply table_at_run|done]. Qed.
Lemma wp_put_table p t (Q : unit -> gpt_state X -> Prop) E H s :
  Q tt (set_tbl p t s) -> wp (put_table p t) Q E H s.
Proof. intros HQ. eapply wp_run; [apply put_table_run|done]. Qed.

(** A local table is a new cell while the function runs. *)
Lemma wp_with_local {A} t (k : gpt_ptr -> GPT A) (Q : A -> gpt_state X -> Prop) E H s :
  let n := length s.(gs_locals) in
  let leave s' := set_locals (take n s'.(gs_locals)) s' in
  wp (k (StackGpt n)) (fun a s' => Q a (leave s')) (fun e s' => E e (leave s')) H (set_locals (s.(gs_locals) ++ [t]) s) ->
  wp (with_local t k) Q E H s.
Proof.
  cbv zeta. intros Hk. unfold with_local. gpt_step. gpt_step. gpt_step. gpt_step. gpt_step. gpt_step.
  eapply wp_mono; [exact Hk|..]; cbn beta; [|..|done]; intros; by repeat gpt_step.
Qed.

Lemma wp_after {A} (m : GPT A) (f : GPT unit) (Q : A -> gpt_state X -> Prop) E H s :
  wp m (fun a => wp f (fun _ => Q a) E H) (fun e => wp f (fun _ => E e) E H) H s -> wp (after m f) Q E H s.
Proof.
  intros Hm. unfold after. gpt_step. gpt_step. eapply wp_mono; [exact Hm|..]; cbn beta; [| |done].
  - intros a s' Hf. gpt_step. eapply wp_mono; [exact Hf|..]; cbn beta; [|done..]. intros. by gpt_step.
  - intros e s' Hf. gpt_step. eapply wp_mono; [exact Hf|..]; cbn beta; [|done..]. intros. by gpt_step.
Qed.

(** ** Failures *)

Lemma failed_weaken {A} (D D' : Z -> Prop) s (e : A) s' : (forall l, D l -> D' l) -> failed D s e s' -> failed D' s e s'.
Proof. intros HD [Hf Ha]. split; [done|]. by eapply agree_off_weaken. Qed.

(** A later failure, seen from an earlier state. *)
Lemma failed_later {A} (D D1 D2 : Z -> Prop) s s1 (e : A) s' : agree_off D1 (blk s) (blk s1) ->
  (forall l, D1 l -> D l) -> (forall l, D2 l -> D l) -> failed D2 s1 e s' -> failed D s e s'.
Proof.
  intros H1 HD1 HD2 [Hf Ha]. split; [done|]. eapply agree_off_weaken; [|by eapply agree_off_trans].
  intros l [?|?]; auto.
Qed.

Lemma agree_nowhere f g l : agree_off nowhere f g -> g l = f l.
Proof. intros Ha. apply Ha. intros []. Qed.

(** ** Reading a block when nothing is waiting to be written *)

Definition clean s : Prop :=
  s.(gs_driver) = Some flash_driver /\ s.(gs_write_buffered) = false /\ buf_ok s.(gs_lba_buf).

Lemma clean_io x b c s : clean s -> buf_ok b -> clean (set_io x b c s).
Proof. intros (?&?&_) ?. by split_and!. Qed.
Lemma clean_tbl p t s : clean s -> clean (set_tbl p t s).
Proof. by destruct p. Qed.
Lemma buf_ok_blk s l : buf_ok (blk s l).
Proof. split; [apply length_block|apply block_bytes]. Qed.

(** The buffer holds the block it is marked with, if that is one of [D]. *)
Definition coherent (D : Z -> Prop) s : Prop := D s.(gs_cached_lba) -> s.(gs_lba_buf) = blk s s.(gs_cached_lba).

(** A read that failed. *)
Definition unread s : Z -> gpt_state X -> Prop := fun e s' => e = PSA_ERROR_STORAGE_FAILURE /\ failed nowhere s e s'.

Lemma read_clean n lba s : clean s -> 0 <= lba < nblocks ->
  wp (read_from_flash_depth (Datatypes.S n) lba)
    (fun _ s' => exists x', agree_off nowhere (blk s) (blocks x') /\
       s' = if lba =? s.(gs_cached_lba) then s else set_io x' (blk s lba) lba s)
    (unread s) (failed nowhere s) s.
Proof.
  intros (Hd & Hb & Hbuf) Hl. cbn [read_from_flash_depth]. unfold read_from_flash_step. gpt_step. gpt_step.
  destruct (lba =? s.(gs_cached_lba)); cbn [negb].
  { gpt_step. by exists s.(gs_world). }
  gpt_step. gpt_step. gpt_step. gpt_step. rewrite Hb. cbn [andb]. gpt_step. gpt_step. gpt_step. gpt_step.
  rewrite set_write_buffered_same by done. gpt_step. gpt_step. gpt_step.
  apply driver_read_spec; [done|done|..].
  2: { intros h x' ? ?. by split. }
  intros [r b] x' Ha Hb' Hr. cbn [fst snd] in *. gpt_step. gpt_step. gpt_step. apply wp_fail_if.
  - intros Hn. rewrite negb_true_iff in Hn. rewrite Hn in Hr. split; [done|]. split; [auto|done].
  - intros Hn. rewrite negb_false_iff in Hn. rewrite Hn in Hr. gpt_step. exists x'. split; [done|].
    unfold blk. by rewrite <- Hr.
Qed.

(** ** The entries of an array

    An array is seen as its blocks, counted from 0. *)

Definition per : Z := gpt_entry_per_lba_count.
Definition ent f (i : Z) : bytes := slice (f (i / per)) (entry_offset i) 128.
Definition array_at (B : Z) f : Z -> bytes := fun k => f (B + k).
Definition crc_of f (n : Z) : Z := fold_left (fun c i => efi_soft_crc32_update c (ent f i)) (seqZ 0 n) 0.
(** The number of blocks of an array of [np] entries. *)
Definition array_blocks (np : Z) : Z := (np - 1) / per + 1.
Definition in_array (B np : Z) : Z -> Prop := fun l => B <= l < B + array_blocks np.

Lemma per_pos : 4 <= per.
Proof. unfold per, gpt_entry_per_lba_count, GPT_ENTRY_SIZE. pose proof block_size_range. lia. Qed.
Lemma per_block : per * 128 = TFM_GPT_BLOCK_SIZE.
Proof. unfold per, gpt_entry_per_lba_count, GPT_ENTRY_SIZE. pose proof block_size_entries. lia. Qed.

Lemma entry_block_range i np : 0 <= i < np -> 0 <= i / per < array_blocks np.
Proof. intros Hi. unfold array_blocks. pose proof per_pos. split; [apply Z.div_pos; lia|]. apply Z.lt_succ_r, Z.div_le_mono; lia. Qed.

Lemma entry_offset_fits i : (entry_offset i + 128 <= Z.to_nat TFM_GPT_BLOCK_SIZE)%nat.
Proof.
  unfold entry_offset. fold per. unfold GPT_ENTRY_SIZE. pose proof per_pos. pose proof per_block.
  pose proof (Z.mod_pos_bound i per ltac:(lia)). nia.
Qed.

Lemma ent_ok f i : buf_ok (f (i / per)) -> length (ent f i) = 128%nat /\ is_bytes (ent f i).
Proof.
  intros [Hl Hb]. split; [|by apply is_bytes_slice]. apply length_slice. pose proof (entry_offset_fits i). lia.
Qed.

Lemma crc_of_step f n : 0 <= n -> crc_of f (n + 1) = efi_soft_crc32_update (crc_of f n) (ent f n).
Proof. intros Hn. unfold crc_of. rewrite seqZ_app, fold_left_app by lia. done. Qed.

Lemma crc_of_ext f g n : (forall k, 0 <= k < array_blocks n -> f k = g k) -> crc_of f n = crc_of g n.
Proof.
  intros Hfg. destruct (Z.le_gt_cases n 0). { unfold crc_of. by rewrite seqZ_nil. }
  assert (forall m, 0 <= m -> m <= n -> crc_of f m = crc_of g m) as Hm; [|apply Hm; lia].
  intros m Hm. pattern m. apply natlike_ind; [done| |done]. intros j Hj IH Hjn.
  unfold Z.succ. rewrite !crc_of_step, IH by lia. f_equal. unfold ent. rewrite Hfg; [done|]. apply entry_block_range. lia.
Qed.

(** Reading entry [i] of the array in block [B]. *)
Lemma read_entry_clean n p t i s np : clean s -> tbl p s = Some t ->
  let B := t.(header).(array_lba) in
  0 <= B -> B + array_blocks np <= nblocks -> 0 <= i < np -> coherent (eq (B + i / per)) s ->
  wp (read_entry_with (read_from_flash_depth (Datatypes.S n)) p i)
    (fun e s' => e = entry_of (ent (array_at B (blk s)) i) /\
       exists x', agree_off nowhere (blk s) (blocks x') /\ s' = set_io x' (blk s (B + i / per)) (B + i / per) s)
    (unread s) (failed nowhere s) s.
Proof.
  cbv zeta. intros Hc Ht HB Hfit Hi Hcoh. unfold read_entry_with. pose proof (entry_block_range i np Hi).
  assert (partition_entry_lba t i = t.(header).(array_lba) + i / per) as Hlba.
  { unfold partition_entry_lba. fold per. unfold u64. pose proof nblocks_range. rewrite Z.mod_small; lia. }
  gpt_step. apply (wp_table_at p t); [done|]. rewrite Hlba. gpt_step.
  eapply wp_mono; [apply read_clean; [done|lia]|..]; cbn beta; [|done..].
  intros _ s' (x' & Ha & ->). gpt_step. gpt_step. gpt_step.
  destruct (Z.eqb_spec (t.(header).(array_lba) + i / per) s.(gs_cached_lba)) as [E|E].
  - rewrite (Hcoh ltac:(done)), <- E. split; [done|]. exists s.(gs_world). split; [done|].
    rewrite <- (set_io_same s) at 1. f_equal; [|done]. rewrite E. by apply Hcoh.
  - split; [done|]. by exists x'.
Qed.

Lemma array_crc_clean n p t s : clean s -> tbl p s = Some t ->
  let B := t.(header).(array_lba) in let np := t.(header).(num_partitions) in
  0 <= B -> B + array_blocks np <= nblocks -> 0 < np -> coherent (in_array B np) s ->
  wp (array_crc_with (read_from_flash_depth (Datatypes.S n)) p)
    (fun crc s' => crc = crc_of (array_at B (blk s)) np /\
       exists x', agree_off nowhere (blk s) (blocks x') /\
         s' = set_io x' (blk s (B + array_blocks np - 1)) (B + array_blocks np - 1) s)
    (unread s) (failed nowhere s) s.
Proof.
  cbv zeta. intros Hc Ht HB Hfit Hnp Hcoh. set (B := t.(header).(array_lba)) in *. set (np := t.(header).(num_partitions)) in *.
  unfold array_crc_with. gpt_step. apply (wp_table_at p t); [done|]. fold np.
  set (P := fun i (crc : Z) s' => crc = crc_of (array_at B (blk s)) i /\
    exists x', agree_off nowhere (blk s) (blocks x') /\
      (i = 0 /\ s' = s \/ 0 < i /\ s' = set_io x' (blk s (B + (i - 1) / per)) (B + (i - 1) / per) s)).
  apply (wp_fold_range P); [lia|..].
  - split; [done|]. exists s.(gs_world). split; [done|]. by left.
  - intros i crc s' Hi (-> & x' & Ha & Hs'). pose proof (entry_block_range i np Hi).
    assert (clean s' /\ tbl p s' = Some t /\ coherent (eq (B + i / per)) s' /\ agree_off nowhere (blk s) (blk s') /\
      forall x b c, set_io x b c s' = set_io x b c s) as (Hc' & Ht' & Hcoh' & Ha' & Hio).
    { destruct Hs' as [[-> ->]|[Hpos ->]].
      - split_and!; [done|done| |done|done]. intros E. apply Hcoh. unfold in_array. rewrite <- E. lia.
      - split_and!; [apply clean_io; [done|apply buf_ok_blk]|by rewrite tbl_set_io| |done|done].
        intros E. unfold coherent, set_io, blk in *. cbn in *. symmetry. by apply agree_nowhere. }
    gpt_step. eapply wp_mono; [eapply (read_entry_clean n p t i s' np); try done; unfold B in *; lia|..]; cbn beta.
    + intros e s'' (-> & x'' & Ha'' & ->). gpt_step. rewrite Hio. fold B.
      assert (ent (array_at B (blk s')) i = ent (array_at B (blk s)) i) as He.
      { unfold ent, array_at. by rewrite (agree_nowhere _ _ _ Ha'). }
      split.
      * rewrite crc_of_step by lia. f_equal. rewrite He. apply entry_bytes_of; apply ent_ok, buf_ok_blk.
      * exists x''. split; [|right; split; [lia|]].
        { eapply agree_off_weaken; [|by eapply agree_off_trans]. by intros ? [?|?]. }
        rewrite (agree_nowhere _ _ _ Ha'). by replace (i + 1 - 1) with i by lia.
    + intros e s'' [-> ?]. split; [done|]. eapply failed_later; try done; by intros.
    + intros e s''. eapply failed_later; try done; by intros.
  - intros crc s' (-> & x' & Ha & [[? _]|[_ ->]]); [lia|]. split; [done|]. exists x'. split; [done|].
    unfold array_blocks. by replace (B + ((np - 1) / per + 1) - 1) with (B + (np - 1) / per) by lia.
Qed.
End Cache.
