(* ===== verification/GptFlush.v ===== *)
(** Partition tables: writing a block of entries to both copies.

    Each copy goes out as a block of its array followed by its header, the backup first.
    So an access that fails leaves the other copy as it was. *)

From stdpp Require Import base list numbers.
From S2P Require Import Prelude GptTypes GptIo GptBytes GptLaws.

Definition upd_block (f : Z -> bytes) (l : Z) (b : bytes) : Z -> bytes := fun l' => if l' =? l then b else f l'.

Lemma upd_block_same f l b : upd_block f l b l = b.
Proof. unfold upd_block. by rewrite Z.eqb_refl. Qed.
Lemma upd_block_other f l b l' : l' <> l -> upd_block f l b l' = f l'.
Proof. intros Hl. unfold upd_block. by destruct (Z.eqb_spec l' l). Qed.
Lemma stored_upd l b f g : stored_at l b f g -> forall l', g l' = upd_block f l b l'.
Proof. intros [Hs Ha] l'. unfold upd_block. destruct (Z.eqb_spec l' l) as [->|]; [done|]. apply Ha. congruence. Qed.

Section Flush.
Context {X : Type} {gbuild : GptBuild} {grand : GptRandom X} {gflash : GptFlash X} {gbuild_ok : GptBuildOk}.
Abbreviation GPT := (M (gpt_state X)).
Implicit Types (s : gpt_state X) (x : X) (p : gpt_ptr) (t : gpt_t) (f : Z -> bytes) (h : gpt_header_t).

(** ** Headers *)

(** A header made to fit an array. *)
Definition sealed f h : gpt_header_t :=
  let h' := set_header_crc 0 (set_array_crc (crc_of f h.(num_partitions)) h) in
  set_header_crc (efi_soft_crc32_update 0 (header_bytes h')) h'.

Lemma crc_of_range f n : is_u32 (crc_of f n).
Proof.
  unfold crc_of. destruct (Z.le_gt_cases n 0). { rewrite seqZ_nil by done. by vm_compute. }
  replace n with ((n - 1) + 1) by lia. rewrite seqZ_app, fold_left_app by lia. apply crc32_range.
Qed.

Lemma sealed_ok f h : header_ok h -> header_ok (sealed f h).
Proof. intros Hh. pose proof (crc_of_range f h.(num_partitions)). unfold header_ok, sealed in *. cbn in *. pose proof (crc32_range 0). naive_solver. Qed.
Lemma sealed_sealed f g h : sealed f (sealed g h) = sealed f h.
Proof. done. Qed.
Lemma sealed_ext f g h : (forall k, 0 <= k < array_blocks h.(num_partitions) -> f k = g k) -> sealed f h = sealed g h.
Proof. intros Hfg. unfold sealed. by rewrite (crc_of_ext f g). Qed.
Lemma sealed_checksum f h : (sealed f h).(header_crc) = header_checksum (sealed f h).
Proof. done. Qed.

Lemma header_in_block h (b : bytes) : header_ok h -> buf_ok b ->
  header_of (slice (splice b 0 (header_bytes h)) 0 GPT_HEADER_SIZE) = h /\ buf_ok (splice b 0 (header_bytes h)).
Proof.
  intros Hh [Hl Hb]. pose proof (length_header_bytes h Hh) as Hlen. pose proof block_size_range.
  split; [|split; [rewrite length_splice; [done|lia]|by apply is_bytes_splice, gpt_header_bytes_ok]].
  unfold splice. rewrite take_0. cbn [app]. change GPT_HEADER_SIZE with 92%nat. rewrite slice_app_l by done.
  rewrite <- (app_nil_r (header_bytes h)). by apply gpt_header_of_bytes.
Qed.

Lemma splice_back (b x : bytes) : (length x <= length b)%nat -> splice (splice b 0 x) 0 (slice b 0 (length x)) = b.
Proof.
  intros Hl. unfold splice, slice. rewrite !take_0, !drop_0. cbn [app].
  rewrite !Nat.add_0_l, length_take_le, drop_app_length by done. by rewrite take_drop.
Qed.

Lemma write_header_spec p t s : s.(gs_driver) = Some flash_driver -> buf_ok s.(gs_lba_buf) -> tbl p s = Some t ->
  header_ok t.(header) -> 0 <= t.(header).(current_lba) < nblocks ->
  wp (write_header_to_flash p)
    (fun _ s' => exists x', s' = set_world x' s /\
       stored_at t.(header).(current_lba) (splice s.(gs_lba_buf) 0 (header_bytes t.(header))) (blk s) (blocks x'))
    (failed (eq t.(header).(current_lba)) s) (failed (eq t.(header).(current_lba)) s) s.
Proof.
  intros Hd Hb Ht Hh Hl. unfold write_header_to_flash. gpt_step. apply (wp_table_at p t); [done|].
  gpt_auto. apply wp_after.
  destruct (header_in_block t.(header) s.(gs_lba_buf) Hh Hb) as [_ Hb'].
  eapply wp_mono; [apply write_to_flash_spec; [done|done|done]|..]; cbn beta.
  - intros _ s' (x' & -> & Hst). gpt_auto. exists x'. split; [|done].
    pose proof (length_header_bytes _ Hh) as Hlen. destruct Hb as [Hbl _]. pose proof block_size_range.
    cbn [gs_lba_buf set_world set_lba_buf]. change GPT_HEADER_SIZE with 92%nat. rewrite <- Hlen, splice_back by lia. by destruct s.
  - intros e s' Hf. gpt_auto. exact Hf.
  - done.
Qed.

(** ** The checksums of a table *)

Lemma update_header_clean n p t s used : clean s -> tbl p s = Some t ->
  let B := t.(header).(array_lba) in let np := t.(header).(num_partitions) in
  0 <= B -> B + array_blocks np <= nblocks -> 0 < np -> coherent (in_array B np) s ->
  wp (update_header_with (read_from_flash_depth (Datatypes.S n)) p used)
    (fun _ s' => exists x', agree_off nowhere (blk s) (blocks x') /\
       s' = set_tbl p {| header := sealed (array_at B (blk s)) t.(header); num_used_partitions := used |}
              (set_io x' (blk s (B + array_blocks np - 1)) (B + array_blocks np - 1) s))
    (failed nowhere s) (failed nowhere s) s.
Proof.
  cbv zeta. intros Hc Ht HB Hfit Hnp Hcoh. unfold update_header_with. gpt_step. apply (wp_table_at p t); [done|].
  gpt_step. apply wp_put_table. gpt_step. set (t1 := set_num_used used t).
  assert (tbl p (set_tbl p t1 s) = Some t1) as Ht1 by (by eapply tbl_set_same).
  assert (blk (set_tbl p t1 s) = blk s) as Hblk by (by destruct p).
  eapply wp_mono; [eapply (array_crc_clean n p t1)|..]; try done.
  - by apply clean_tbl.
  - by destruct p.
  - intros crc s' (-> & x' & Ha & ->). rewrite Hblk in *. gpt_step.
    apply (wp_table_at p t1); [by rewrite tbl_set_io|]. gpt_auto. apply wp_put_table.
    exists x'. split; [done|]. rewrite set_tbl_io, set_tbl_twice, <- set_tbl_io. done.
  - intros e s' [_ Hf]. unfold failed in *. by rewrite Hblk in Hf.
  - intros e s'. unfold failed. by rewrite Hblk.
Qed.

(** ** One copy of the table *)

(** Where the array and the header of a table are. *)
Definition placed h : Prop :=
  header_ok h /\ 0 < h.(num_partitions) /\ 0 <= h.(array_lba) /\
  h.(array_lba) + array_blocks h.(num_partitions) <= nblocks /\ 0 <= h.(current_lba) < nblocks /\
  ~ in_array h.(array_lba) h.(num_partitions) h.(current_lba).
Definition copy_blocks h : Z -> Prop := fun l => in_array h.(array_lba) h.(num_partitions) l \/ l = h.(current_lba).

(** The flash after a block of the array and the header that fits are written. *)
Definition copy_written h k b f : Z -> bytes :=
  let f' := upd_block f (h.(array_lba) + k) b in
  let last := h.(array_lba) + array_blocks h.(num_partitions) - 1 in
  upd_block f' h.(current_lba) (splice (f' last) 0 (header_bytes (sealed (array_at h.(array_lba) f') h))).

Lemma write_entry_and_header_clean n p t k s : clean s -> tbl p s = Some t -> placed t.(header) ->
  0 <= k < array_blocks t.(header).(num_partitions) ->
  ~ in_array t.(header).(array_lba) t.(header).(num_partitions) s.(gs_cached_lba) ->
  let h := t.(header) in let f' := upd_block (blk s) (h.(array_lba) + k) s.(gs_lba_buf) in
  let last := h.(array_lba) + array_blocks h.(num_partitions) - 1 in
  wp (write_entry_and_header_with (read_from_flash_depth (Datatypes.S n)) p k)
    (fun _ s' => exists x', (forall l, blocks x' l = copy_written h k s.(gs_lba_buf) (blk s) l) /\
       s' = set_tbl p (set_header (sealed (array_at h.(array_lba) f') h) t) (set_io x' (f' last) last s))
    (failed (copy_blocks h) s) (failed (copy_blocks h) s) s.
Proof.
  cbv zeta. intros Hc Ht (Hh & Hnp & HB & Hfit & HC & Hsep) Hk Hcached.
  set (h := t.(header)) in *. set (f' := upd_block (blk s) (h.(array_lba) + k) s.(gs_lba_buf)).
  set (last := h.(array_lba) + array_blocks h.(num_partitions) - 1).
  assert (copy_blocks h (h.(array_lba) + k)) as HDk by (left; unfold in_array; lia).
  assert (copy_blocks h h.(current_lba)) as HDc by (by right).
  unfold write_entry_and_header_with. gpt_step. apply (wp_table_at p t); [done|]. fold h.
  assert (u64 (h.(array_lba) + k) = h.(array_lba) + k) as -> by (unfold u64; pose proof nblocks_range; rewrite Z.mod_small; lia).
  gpt_step. eapply wp_mono; [apply write_to_flash_spec; [apply Hc|apply Hc|lia]|..]; cbn beta.
  2, 3: intros e s'; apply failed_weaken; by intros l <-.
  intros _ s1 (x1 & -> & Hst1). pose proof (stored_upd _ _ _ _ Hst1) as Hf1. fold f' in Hf1.
  assert (agree_off (eq (h.(array_lba) + k)) (blk s) (blk (set_world x1 s))) as Ha1 by apply Hst1.
  gpt_step. eapply wp_mono; [eapply (update_header_clean n p t)|..]; cbn beta; try done.
  { by intros Hin%Hcached. }
  2, 3: intros e s'; apply (failed_later _ (eq (h.(array_lba) + k)) nowhere); [done|by intros l <-|by intros].
  intros _ s2 (x2 & Ha2 & ->). fold h. fold last. set (h2 := sealed (array_at h.(array_lba) (blk (set_world x1 s))) h).
  assert (forall l, blk (set_world x1 s) l = f' l) as Hb1 by done.
  assert (h2 = sealed (array_at h.(array_lba) f') h) as Eh2.
  { unfold h2. apply sealed_ext. intros j Hj. by unfold array_at. }
  rewrite Hb1. set (t2 := {| header := h2; num_used_partitions := t.(num_used_partitions) |}).
  set (s2 := set_tbl p t2 (set_io x2 (f' last) last (set_world x1 s))).
  assert (s2 = set_tbl p t2 (set_io x2 (f' last) last s)) as Es2 by done.
  assert (forall l, blk s2 l = f' l) as Hb2.
  { intros l. rewrite <- Hb1, <- (agree_nowhere _ _ l Ha2). unfold s2, blk. by destruct p. }
  assert (buf_ok (f' last)) as Hbuf by (rewrite <- Hb1; apply buf_ok_blk).
  assert (s2.(gs_lba_buf) = f' last /\ s2.(gs_driver) = Some flash_driver) as [Hlb Hdr] by (destruct p; split; [done|apply Hc|done|apply Hc]).
  eapply wp_mono; [eapply (write_header_spec p t2)|..]; cbn beta.
  - done.
  - by rewrite Hlb.
  - unfold s2. eapply tbl_set_same. by rewrite tbl_set_io, tbl_set_world.
  - by apply sealed_ok.
  - done.
  - intros _ s3 (x3 & -> & Hst3). exists x3. cbn [header t2] in *. rewrite Hlb, Eh2 in *.
    change (current_lba (sealed _ h)) with h.(current_lba) in Hst3. split.
    + intros l. rewrite (stored_upd _ _ _ _ Hst3). unfold copy_written. cbv zeta. fold f'. fold last.
      destruct (Z.eq_dec l h.(current_lba)) as [->|]; [by rewrite !upd_block_same|].
      rewrite !upd_block_other by done. apply Hb2.
    + unfold s2, t2, set_header. rewrite Eh2. destruct p; reflexivity.
  - intros e s3. apply (failed_later _ (eq (h.(array_lba) + k)) (eq h.(current_lba))); [|by intros l <-..].
    intros l Hl. rewrite Hb2. rewrite <- Hb1. by apply Ha1.
  - intros e s3. apply (failed_later _ (eq (h.(array_lba) + k)) (eq h.(current_lba))); [|by intros l <-..].
    intros l Hl. rewrite Hb2. rewrite <- Hb1. by apply Ha1.
Qed.

Lemma upd_block_ext f g l b l' : f l' = g l' -> upd_block f l b l' = upd_block g l b l'.
Proof. unfold upd_block. by intros ->. Qed.

Lemma copy_written_ext h k b f g : (forall l, f l = g l) -> forall l, copy_written h k b f l = copy_written h k b g l.
Proof.
  intros Hfg l. unfold copy_written. cbv zeta.
  assert (forall l', upd_block f (h.(array_lba) + k) b l' = upd_block g (h.(array_lba) + k) b l') as Hu by (intros; by apply upd_block_ext).
  rewrite Hu. rewrite (sealed_ext _ (array_at h.(array_lba) (upd_block g (h.(array_lba) + k) b))) by (intros; unfold array_at; apply Hu).
  apply upd_block_ext, Hu.
Qed.

Lemma copy_written_other h k b f l : 0 <= k < array_blocks h.(num_partitions) -> ~ copy_blocks h l -> copy_written h k b f l = f l.
Proof.
  intros Hk Hl. unfold copy_written, copy_blocks, in_array in *. cbv zeta. rewrite !upd_block_other; [done|lia|tauto].
Qed.

(** The array and the header that a written copy has. *)
Lemma copy_written_array h k b f j : placed h -> 0 <= j < array_blocks h.(num_partitions) ->
  array_at h.(array_lba) (copy_written h k b f) j = upd_block (array_at h.(array_lba) f) k b j.
Proof.
  intros (_ & _ & _ & _ & _ & Hsep) Hj. unfold array_at, copy_written. cbv zeta.
  rewrite upd_block_other by (intros E; apply Hsep; rewrite <- E; unfold in_array; lia).
  unfold upd_block. destruct (Z.eqb_spec (h.(array_lba) + j) (h.(array_lba) + k)), (Z.eqb_spec j k); done || lia.
Qed.

Lemma copy_written_header h k b f : placed h -> (forall l, buf_ok (f l)) -> buf_ok b ->
  let h' := sealed (upd_block (array_at h.(array_lba) f) k b) h in
  header_of (slice (copy_written h k b f h.(current_lba)) 0 GPT_HEADER_SIZE) = h'.
Proof.
  intros (Hh & Hnp & _) Hf Hb. cbv zeta. unfold copy_written. cbv zeta. rewrite upd_block_same.
  rewrite (sealed_ext (upd_block (array_at _ _) _ _) (array_at h.(array_lba) (upd_block f (h.(array_lba) + k) b))).
  - apply header_in_block; [by apply sealed_ok|]. unfold upd_block. by destruct (_ =? _).
  - intros j _. unfold array_at, upd_block.
    destruct (Z.eqb_spec (h.(array_lba) + j) (h.(array_lba) + k)), (Z.eqb_spec j k); done || lia.
Qed.

(** ** Both copies *)

(** The header of the backup of a table with header [h] and backup array at [array]. *)
Definition backup_of (array : Z) h : gpt_header_t :=
  let h' := set_header_crc 0 (set_lbas h.(backup_lba) h.(current_lba) array h) in
  set_header_crc (efi_soft_crc32_update 0 (header_bytes h')) h'.

(** Headers, arrays and the space for partitions are apart from each other, in the order in
    which a formatted device has them. *)
Record layout (array : Z) h : Prop := {
  lo_header : header_ok h;
  lo_signature : h.(signature) = GPT_SIG;
  lo_entry_size : h.(entry_size) = GPT_ENTRY_SIZE;
  lo_current : h.(current_lba) = PRIMARY_GPT_LBA;
  lo_entries : 0 < h.(num_partitions);
  lo_array : PRIMARY_GPT_LBA < h.(array_lba);
  lo_first : h.(array_lba) + array_blocks h.(num_partitions) <= h.(first_lba);
  lo_last : h.(first_lba) <= h.(last_lba) < array;
  lo_backup : array + array_blocks h.(num_partitions) <= h.(backup_lba) < nblocks;
}.

Lemma array_blocks_pos np : 0 < np -> 0 < array_blocks np.
Proof. intros. unfold array_blocks. pose proof per_pos. pose proof (Z.div_pos (np - 1) per). lia. Qed.

Lemma layout_placed array h : layout array h -> placed h.
Proof.
  intros [Hh _ _ Hc Hnp Ha Hf Hl Hb]. pose proof (array_blocks_pos _ Hnp). unfold placed, in_array, PRIMARY_GPT_LBA in *.
  split_and!; try done; lia.
Qed.

Lemma layout_backup_placed array h : layout array h -> placed (backup_of array h).
Proof.
  intros [Hh _ _ Hc Hnp Ha Hf Hl Hb]. pose proof (array_blocks_pos _ Hnp). pose proof nblocks_range.
  unfold placed, in_array, PRIMARY_GPT_LBA, backup_of, header_ok, is_u64 in *. cbn in *. pose proof (crc32_range 0).
  destruct Hh as (?&?&?&?&?&?&?&?&?&?&?&?&?&?&?). split_and!; try done; lia.
Qed.

Lemma layout_copies_apart array h l : layout array h -> copy_blocks h l -> ~ copy_blocks (backup_of array h) l.
Proof.
  intros [Hh _ _ Hc Hnp Ha Hf Hl Hb]. unfold copy_blocks, in_array, PRIMARY_GPT_LBA, backup_of in *. cbn.
  pose proof (array_blocks_pos _ Hnp). lia.
Qed.

(** What ends in the flash when block [k] of the array is written, and what may be there
    when that fails: the primary copy as it was, or the backup copy as it will be. *)
Definition both_written array h k b f : Z -> bytes := copy_written h k b (copy_written (backup_of array h) k b f).
Definition half_written {A} array h k b s : A -> gpt_state X -> Prop := fun _ s' => access_can_fail = true /\
  (agree_off (copy_blocks (backup_of array h)) (blk s) (blk s') \/
   agree_off (copy_blocks h) (copy_written (backup_of array h) k b (blk s)) (blk s')).

Lemma wp_swap_headers h array (Q : gpt_header_t -> gpt_state X -> Prop) E H s :
  h.(current_lba) = PRIMARY_GPT_LBA -> s.(gs_backup_array_lba) = array -> Q (backup_of array h) s ->
  wp (swap_headers h) Q E H s.
Proof. intros Hc Ha HQ. unfold swap_headers. gpt_step. gpt_step.
  assert (h.(current_lba) =? PRIMARY_GPT_LBA = true) as -> by (by apply Z.eqb_eq). cbn [negb]. rewrite Ha. gpt_auto. exact HQ. Qed.

Lemma upd_array B f k b j : upd_block f (B + k) b (B + j) = upd_block (array_at B f) k b j.
Proof. unfold upd_block, array_at. destruct (Z.eqb_spec (B + j) (B + k)), (Z.eqb_spec j k); done || lia. Qed.

(** The primary copy, once the backup is written. *)
Lemma write_primary_half n k s s4 array n0 : clean s4 ->
  let h := s.(gs_cached_gpt).(header) in let b := s.(gs_lba_buf) in
  layout array h -> 0 <= k < array_blocks h.(num_partitions) ->
  s4.(gs_cached_lba) = array + k -> s4.(gs_lba_buf) = b -> s4.(gs_cached_gpt) = s.(gs_cached_gpt) ->
  (forall l, blk s4 l = copy_written (backup_of array h) k b (blk s) l) ->
  (forall t x b c, let s' := set_tbl CachedGpt t (set_io x b c s4) in
     set_locals (take n0 s'.(gs_locals)) s' = set_cached_gpt t (set_io x b c s)) ->
  let last := h.(array_lba) + array_blocks h.(num_partitions) - 1 in
  let arr := upd_block (array_at h.(array_lba) (blk s)) k b in
  wp (t ← table_at CachedGpt;
      if t.(header).(array_lba) =? 0 then throw PSA_ERROR_STORAGE_FAILURE
      else write_entry_and_header_with (read_from_flash_depth (Datatypes.S n)) CachedGpt k)
    (fun _ s' => exists x', (forall l, blocks x' l = both_written array h k b (blk s) l) /\
       set_locals (take n0 s'.(gs_locals)) s' =
         set_cached_gpt (set_header (sealed arr h) s.(gs_cached_gpt)) (set_io x' (arr (last - h.(array_lba))) last s))
    (half_written array h k b s) (half_written array h k b s) s4.
Proof.
  cbv zeta. intros Hc Hlay Hk Hcl Hb Hcg Hblk Hleave. set (h := s.(gs_cached_gpt).(header)) in *. set (b := s.(gs_lba_buf)) in *.
  pose proof Hlay as [_ _ _ Hcur Hnp Ha Hf Hl Hbk]. pose proof (array_blocks_pos _ Hnp) as Hmpos. unfold PRIMARY_GPT_LBA in *.
  gpt_step. apply (wp_table_at _ s4.(gs_cached_gpt)); [done|]. rewrite Hcg. fold h.
  destruct (Z.eqb_spec h.(array_lba) 0) as [E0|_]; [lia|].
  assert (forall j, 0 <= j < array_blocks h.(num_partitions) ->
    upd_block (blk s4) (h.(array_lba) + k) b (h.(array_lba) + j) = upd_block (array_at h.(array_lba) (blk s)) k b j) as Harr.
  { intros j Hj. rewrite upd_array. unfold upd_block. destruct (j =? k); [done|]. unfold array_at. rewrite Hblk.
    apply copy_written_other; [done|]. eapply layout_copies_apart; [done|]. left. unfold in_array. lia. }
  eapply wp_mono; [eapply (write_entry_and_header_clean n CachedGpt s4.(gs_cached_gpt) k s4)|..]; cbn beta; rewrite ?Hcg, ?Hb; fold h.
  - done.
  - simpl. by rewrite Hcg.
  - by eapply layout_placed.
  - done.
  - rewrite Hcl. unfold in_array. lia.
  - intros _ s5 (x5 & Hx5 & ->). exists x5. split.
    + intros l. rewrite Hx5. by apply copy_written_ext.
    + rewrite Hleave. f_equal; [f_equal|f_equal].
      * apply sealed_ext. intros j Hj. unfold array_at at 1. by apply Harr.
      * set (last := h.(array_lba) + array_blocks h.(num_partitions) - 1). replace last with (h.(array_lba) + (last - h.(array_lba))) at 1 by lia.
        apply Harr. lia.
  - intros e s5 [Hfail Ho]. split; [done|]. right. intros l Hl5. rewrite (Ho l Hl5). apply Hblk.
  - intros e s5 [Hfail Ho]. split; [done|]. right. intros l Hl5. rewrite (Ho l Hl5). apply Hblk.
Qed.

(** The local table of a function leaves no trace. *)
Lemma leave_local s g t1 t2 t x1 x2 x (b1 b2 b : bytes) c1 c2 c :
  let n := length s.(gs_locals) in
  let s4 := set_io x2 b2 c2 (set_tbl (StackGpt n) t2 (set_io x1 b1 c1 (set_tbl (StackGpt n) t1 (set_locals (s.(gs_locals) ++ [g]) s)))) in
  let s' := set_tbl CachedGpt t (set_io x b c s4) in
  set_locals (take n s'.(gs_locals)) s' = set_cached_gpt t (set_io x b c s).
Proof.
  cbv zeta. match goal with |- set_locals (take _ (gs_locals ?s')) _ = _ => set (s1 := s') end.
  assert (forall l t', <[length s.(gs_locals) := t']> (s.(gs_locals) ++ [l]) = s.(gs_locals) ++ [t']) as Hi.
  { intros l t'. by rewrite insert_app_r_alt, Nat.sub_diag by lia. }
  assert (gs_locals s1 = s.(gs_locals) ++ [t2]) as ->.
  { change (gs_locals s1) with (<[length s.(gs_locals) := t2]> (<[length s.(gs_locals) := t1]> (s.(gs_locals) ++ [g]))). by rewrite !Hi. }
  rewrite take_app_length. subst s1. destruct s. reflexivity.
Qed.

Lemma write_entries_clean n k s array : clean s -> layout array s.(gs_cached_gpt).(header) ->
  let h := s.(gs_cached_gpt).(header) in
  s.(gs_backup_gpt_lba) = h.(backup_lba) -> s.(gs_backup_array_lba) = array ->
  0 <= k < array_blocks h.(num_partitions) -> s.(gs_cached_lba) = h.(array_lba) + k ->
  let last := h.(array_lba) + array_blocks h.(num_partitions) - 1 in
  let arr := upd_block (array_at h.(array_lba) (blk s)) k s.(gs_lba_buf) in
  wp (write_entries_with (read_from_flash_depth (Datatypes.S n)) CachedGpt k)
    (fun _ s' => exists x', (forall l, blocks x' l = both_written array h k s.(gs_lba_buf) (blk s) l) /\
       s' = set_cached_gpt (set_header (sealed arr h) s.(gs_cached_gpt)) (set_io x' (arr (last - h.(array_lba))) last s))
    (half_written array h k s.(gs_lba_buf) s) (half_written array h k s.(gs_lba_buf) s) s.
Proof.
  cbv zeta. intros Hc Hlay Hbk Hba Hk Hcached. set (h := s.(gs_cached_gpt).(header)) in *. set (b := s.(gs_lba_buf)).
  set (n0 := length s.(gs_locals)). set (hb := backup_of array h).
  assert (placed h) as Hph by (by eapply layout_placed). assert (placed hb) as Hpb by (by apply layout_backup_placed).
  assert (array_blocks hb.(num_partitions) = array_blocks h.(num_partitions)) as Hm by done.
  pose proof Hlay as [_ _ _ Hcur Hnp Ha Hf Hl Hb]. pose proof (array_blocks_pos _ Hnp) as Hmpos. unfold PRIMARY_GPT_LBA in *.
  unfold write_entries_with. apply wp_with_local. fold n0. set (s1 := set_locals (s.(gs_locals) ++ [stack_gpt]) s).
  assert (tbl (StackGpt n0) s1 = Some stack_gpt) as Ht1 by (simpl; by apply list_lookup_middle).
  gpt_auto. change (gs_backup_gpt_lba s1) with s.(gs_backup_gpt_lba). rewrite Hbk.
  destruct (Z.eqb_spec h.(backup_lba) 0) as [E0|_]; [lia|]. gpt_auto.
  apply (wp_table_at _ s.(gs_cached_gpt)); [done|]. gpt_auto. apply (wp_swap_headers h array); [done|done|]. fold hb.
  gpt_auto. apply wp_put_table. change (array_lba hb) with array.
  destruct (Z.eqb_spec array 0) as [E0|_]; [lia|]. gpt_auto.
  set (tb := set_header hb stack_gpt). set (s2 := set_tbl (StackGpt n0) tb s1).
  assert (clean s2) as Hc2 by done.
  eapply wp_mono; [eapply (write_entry_and_header_clean n (StackGpt n0) tb k s2)|..]; cbn beta.
  { done. }
  { by eapply tbl_set_same. }
  { done. }
  { done. }
  { change (gs_cached_lba s2) with s.(gs_cached_lba). rewrite Hcached. unfold in_array. cbn. lia. }
  2, 3: intros e s' [Hfail Ho]; split; [done|]; left; exact Ho.
  intros _ s3' (x3 & Hx3 & ->). change (header tb) with hb. change (array_lba hb) with array. change (num_partitions hb) with h.(num_partitions).
  change (gs_lba_buf s2) with b in *. change (blk s2) with (blk s) in *.
  match goal with |- context [set_tbl (StackGpt n0) ?t (set_io x3 ?c ?l s2)] =>
    set (tb' := t); set (c3 := c); set (l3 := l); set (s3 := set_tbl (StackGpt n0) tb' (set_io x3 c3 l3 s2)) end.
  assert (forall l, blk s3 l = copy_written hb k b (blk s) l) as Hblk3 by done.
  assert (blk s3 (array + k) = b) as Hbk3.
  { rewrite Hblk3. unfold copy_written. cbv zeta. rewrite upd_block_other, upd_block_same; [done|]. cbn. lia. }
  assert (clean s3) as Hc3.
  { apply clean_tbl, clean_io; [done|]. unfold c3, upd_block. destruct (_ =? _); [apply Hc|apply buf_ok_blk]. }
  assert (u64 (array + k) = array + k) as -> by (unfold u64; pose proof nblocks_range; rewrite Z.mod_small; lia).
  eapply wp_mono; [apply read_clean; [done|lia]|..]; cbn beta.
  2: intros e s' [_ [Hfail Ho]]; split; [done|]; right; intros l Hl'; exact (eq_trans (Ho l (fun F => F)) (Hblk3 l)).
  2: intros e s' [Hfail Ho]; split; [done|]; right; intros l Hl'; exact (eq_trans (Ho l (fun F => F)) (Hblk3 l)).
  intros _ s4 (x4 & Hx4 & Hs4).
  assert (exists x4', s4 = set_io x4' b (array + k) s3 /\ forall l, blocks x4' l = blk s3 l) as (x4' & -> & Hx4').
  { rewrite Hbk3 in Hs4. change (gs_cached_lba s3) with l3 in Hs4. destruct (Z.eqb_spec (array + k) l3) as [E|E].
    - exists s3.(gs_world). split; [|done]. rewrite Hs4, <- (set_io_same s3) at 1. f_equal; [|by change (gs_cached_lba s3) with l3].
      change (gs_lba_buf s3) with c3. unfold c3. fold l3. rewrite <- E. by rewrite upd_block_same.
    - exists x4. split; [done|]. intros l. by apply agree_nowhere. }
  apply (write_primary_half n k s); try done.
  - intros l. rewrite <- Hblk3. apply Hx4'.
  - intros t x b' c. apply leave_local.
Qed.
End Flush.
