(* ===== verification/GptInv.v ===== *)
(** Partition tables: the state between operations.

    Both copies of the table are in the flash and agree; a block of entries may be in the
    buffer, changed and not yet written.  What the buffer and the array say together is the
    array that the library works on. *)

From stdpp Require Import base list numbers.
From S2P Require Import Prelude GptTypes GptIo GptBytes GptLaws GptFlush.

Section Inv.
Context {X : Type} {gbuild : GptBuild} {grand : GptRandom X} {gflash : GptFlash X} {gbuild_ok : GptBuildOk}.
Abbreviation GPT := (M (gpt_state X)).
Implicit Types (s : gpt_state X) (x : X) (t : gpt_t) (f : Z -> bytes) (h : gpt_header_t) (array : Z).

Definition hdr s : gpt_header_t := s.(gs_cached_gpt).(header).
Definition used s : Z := s.(gs_cached_gpt).(num_used_partitions).
Definition nblk s : Z := array_blocks (hdr s).(num_partitions).
(** The primary array in the flash. *)
Definition flash_array s : Z -> bytes := array_at (hdr s).(array_lba) (blk s).

(** The primary table is the one in memory, and the flash holds it twice. *)
Record gpt_core array s : Prop := {
  gc_driver : s.(gs_driver) = Some flash_driver;
  gc_read : s.(gs_cached_gpt_read) = true;
  gc_primary : s.(gs_cached_gpt_primary) = true;
  gc_layout : layout array (hdr s);
  gc_backup_lba : s.(gs_backup_gpt_lba) = (hdr s).(backup_lba);
  gc_backup_array : s.(gs_backup_array_lba) = array;
  gc_used : 0 <= used s <= (hdr s).(num_partitions);
  gc_sealed : hdr s = sealed (flash_array s) (hdr s);
  gc_mirror : forall k, 0 <= k < nblk s -> array_at array (blk s) k = flash_array s k;
  gc_primary_header : header_of (slice (blk s PRIMARY_GPT_LBA) 0 GPT_HEADER_SIZE) = hdr s;
  gc_backup_header : header_of (slice (blk s (hdr s).(backup_lba)) 0 GPT_HEADER_SIZE) =
    sealed (flash_array s) (backup_of array (hdr s));
}.

(** Nothing waits in the buffer, or a block of used entries does. *)
Definition buffer_ok s : Prop :=
  buf_ok s.(gs_lba_buf) /\
  if s.(gs_write_buffered) then exists k, s.(gs_cached_lba) = (hdr s).(array_lba) + k /\ 0 <= k /\ k * per < used s
  else coherent (fun l => l <> 0) s.

Definition gpt_inv array s : Prop := gpt_core array s /\ s.(gs_in_flush) = false /\ buffer_ok s.

(** The array the library works on. *)
Definition cur_array s : Z -> bytes :=
  if s.(gs_write_buffered) then upd_block (flash_array s) (s.(gs_cached_lba) - (hdr s).(array_lba)) s.(gs_lba_buf)
  else flash_array s.

(** What an operation on the blocks leaves alone. *)
Record kept s s' : Prop := {
  kp_used : used s' = used s;
  kp_header : exists f, hdr s' = sealed f (hdr s) \/ hdr s' = hdr s;
  kp_max : s'.(gs_plat_max_partitions) = s.(gs_plat_max_partitions);
  kp_locals : s'.(gs_locals) = s.(gs_locals);
  kp_data : forall array l, gpt_core array s -> ~ copy_blocks (hdr s) l -> ~ copy_blocks (backup_of array (hdr s)) l -> blk s' l = blk s l;
}.

Lemma layout_sealed array f h : layout array h -> layout array (sealed f h).
Proof. intros [Hh ????????]. split; try done. by apply sealed_ok. Qed.

(** The flash after a write of block [k]: both arrays have it, and nothing else. *)
Lemma both_written_array array h k b f j : layout array h -> 0 <= k < array_blocks h.(num_partitions) ->
  0 <= j < array_blocks h.(num_partitions) ->
  array_at h.(array_lba) (both_written array h k b f) j = upd_block (array_at h.(array_lba) f) k b j.
Proof.
  intros Hlay Hk Hj. unfold both_written. rewrite copy_written_array by (done || by eapply layout_placed).
  apply upd_block_ext. unfold array_at. apply copy_written_other; [done|]. eapply layout_copies_apart; [done|].
  left. unfold in_array. lia.
Qed.

Lemma backup_block_apart array h l : layout array h -> copy_blocks (backup_of array h) l -> ~ copy_blocks h l.
Proof. intros Hlay Hb Hp. by eapply layout_copies_apart. Qed.

Lemma both_written_backup_array array h k b f j : layout array h -> 0 <= k < array_blocks h.(num_partitions) ->
  0 <= j < array_blocks h.(num_partitions) ->
  array_at array (both_written array h k b f) j = upd_block (array_at array f) k b j.
Proof.
  intros Hlay Hk Hj. unfold both_written. unfold array_at at 1. rewrite copy_written_other; [|done|].
  - change array with (array_lba (backup_of array h)) at 2. apply (copy_written_array (backup_of array h)); [|done].
    by apply layout_backup_placed.
  - apply (backup_block_apart array); [done|]. left. unfold in_array. cbn. lia.
Qed.

Lemma buf_ok_copy h k b f l : (forall l, buf_ok (f l)) -> buf_ok b -> header_ok h -> buf_ok (copy_written h k b f l).
Proof.
  intros Hf Hb Hh. unfold copy_written, upd_block. cbv zeta. destruct (_ =? _); [|by destruct (_ =? _)].
  apply header_in_block; [by apply sealed_ok|]. by destruct (_ =? _).
Qed.

(** Writing block [k] out takes the state to the one where the array has it. *)
Lemma inv_after_write array s k b x' : gpt_core array s -> 0 <= k < nblk s -> buf_ok b ->
  (forall l, blocks x' l = both_written array (hdr s) k b (blk s) l) ->
  let arr := upd_block (flash_array s) k b in
  let last := (hdr s).(array_lba) + nblk s - 1 in
  let s' := set_cached_gpt (set_header (sealed arr (hdr s)) s.(gs_cached_gpt)) (set_io x' (arr (nblk s - 1)) last s) in
  gpt_core array s' /\ buf_ok s'.(gs_lba_buf) /\ coherent (fun l => l <> 0) s' /\ kept s s' /\
  forall j, 0 <= j < nblk s -> flash_array s' j = arr j.
Proof.
  cbv zeta. intros Hcore Hk Hb Hx. pose proof Hcore as [Hd Hr Hp Hlay Hbk Hba Hu Hse Hmi Hph Hbh].
  set (arr := upd_block (flash_array s) k b). set (last := (hdr s).(array_lba) + nblk s - 1).
  set (s' := set_cached_gpt _ _). pose proof Hlay as [Hh _ _ Hcur Hnp Ha Hf Hl Hbl]. unfold PRIMARY_GPT_LBA in *.
  pose proof (layout_backup_placed array (hdr s) Hlay) as Hpb.
  assert (hdr s' = sealed arr (hdr s)) as Ehdr by done. assert (blk s' = blocks x') as Eblk by done.
  fold (nblk s) in Hf, Hbl.
  assert (forall j, 0 <= j < nblk s -> flash_array s' j = arr j) as Harr.
  { intros j Hj. unfold flash_array at 1. unfold array_at. rewrite Ehdr, Eblk, Hx.
    change (array_lba (sealed arr (hdr s))) with (array_lba (hdr s)). by apply (both_written_array array). }
  assert (buf_ok (arr (nblk s - 1))) as Hbuf by (unfold arr, upd_block; destruct (_ =? _); [done|apply buf_ok_blk]).
  assert (forall h', sealed (flash_array s') (sealed arr h') = sealed arr h' \/ h'.(num_partitions) <> (hdr s).(num_partitions)) as Hsea.
  { intros h'. destruct (Z.eq_dec h'.(num_partitions) (hdr s).(num_partitions)) as [E|]; [left|by right].
    rewrite sealed_sealed. apply sealed_ext. rewrite E. exact Harr. }
  split_and!.
  - split; try done.
    + rewrite Ehdr. by apply layout_sealed.
    + rewrite Ehdr. by destruct (Hsea (hdr s)) as [->|[]].
    + intros j Hj. change (nblk s') with (nblk s) in Hj. rewrite Harr by done. unfold array_at at 1. rewrite Eblk, Hx.
      change (both_written array (hdr s) k b (blk s) (array + j)) with (array_at array (both_written array (hdr s) k b (blk s)) j).
      rewrite both_written_backup_array by done. apply upd_block_ext. by apply Hmi.
    + rewrite Ehdr, Eblk, Hx. unfold both_written. change PRIMARY_GPT_LBA with 1. rewrite <- Hcur at 1.
      rewrite copy_written_header; [|by eapply layout_placed|intros l; apply buf_ok_copy; [intros; apply buf_ok_blk|done|apply Hpb]|done].
      apply sealed_ext. intros j Hj. unfold arr. apply upd_block_ext. unfold flash_array, array_at. apply copy_written_other; [done|].
      eapply layout_copies_apart; [done|]. left. unfold in_array. lia.
    + rewrite Ehdr, Eblk, Hx. unfold both_written. change (backup_lba (sealed arr (hdr s))) with (backup_lba (hdr s)).
      rewrite copy_written_other; [|done|apply (backup_block_apart array); [done|by right]].
      change (backup_lba (hdr s)) with (current_lba (backup_of array (hdr s))).
      rewrite copy_written_header; [|by apply layout_backup_placed|intros; apply buf_ok_blk|done].
      change (backup_of array (sealed arr (hdr s))) with (sealed arr (backup_of array (hdr s))).
      destruct (Hsea (backup_of array (hdr s))) as [->|[]]; [|done].
      apply sealed_ext. intros j Hj. unfold arr. apply upd_block_ext. by apply Hmi.
  - exact Hbuf.
  - intros _. change (gs_cached_lba s') with last. change (gs_lba_buf s') with (arr (nblk s - 1)).
    rewrite <- Harr by lia. unfold flash_array, array_at. change (array_lba (hdr s')) with (array_lba (hdr s)). f_equal. unfold last. lia.
  - split; try done.
    + exists arr. by left.
    + intros array' l [_ _ _ Hlay' _ Hba' _ _ _ _ _] Hl1 Hl2. rewrite Hba in Hba'. subst array'. rewrite Eblk, Hx.
      unfold both_written. by rewrite !copy_written_other.
  - exact Harr.
Qed.

Lemma kept_refl s : kept s s.
Proof. split; try done. exists (flash_array s). by right. Qed.

Lemma kept_core_hdr s s' : kept s s' -> nblk s' = nblk s /\ (hdr s').(array_lba) = (hdr s).(array_lba) /\
  (hdr s').(num_partitions) = (hdr s).(num_partitions) /\ (hdr s').(first_lba) = (hdr s).(first_lba) /\
  (hdr s').(last_lba) = (hdr s).(last_lba) /\ (hdr s').(current_lba) = (hdr s).(current_lba) /\
  (hdr s').(backup_lba) = (hdr s).(backup_lba).
Proof. intros [_ [f [E|E]] _ _ _]; unfold nblk; by rewrite E. Qed.

Lemma kept_copies array s s' l : kept s s' ->
  (copy_blocks (hdr s') l <-> copy_blocks (hdr s) l) /\
  (copy_blocks (backup_of array (hdr s')) l <-> copy_blocks (backup_of array (hdr s)) l).
Proof. intros [_ [f [E|E]] _ _ _]; by rewrite E. Qed.

Lemma kept_trans array s s1 s2 : gpt_core array s -> gpt_core array s1 -> kept s s1 -> kept s1 s2 -> kept s s2.
Proof.
  intros Hc Hc1 K1 K2. pose proof K1 as [U1 [f1 E1] M1 L1 D1]. pose proof K2 as [U2 [f2 E2] M2 L2 D2]. split; try congruence.
  - destruct E1 as [E1|E1], E2 as [E2|E2]; rewrite E2, E1; [exists f2; by left|exists f1; by left|exists f2; by left|exists f1; by right].
  - intros array' l Hcore Hl1 Hl2. assert (array' = array) as ->.
    { by rewrite <- (gc_backup_array _ _ Hcore), <- (gc_backup_array _ _ Hc). }
    destruct (kept_copies array s s1 l K1) as [Hp Hb]. rewrite (D2 array), (D1 array); try done; [by rewrite Hp|by rewrite Hb].
Qed.

(** ** Flushing *)

Lemma flush_spec n array s : gpt_inv array s -> s.(gs_write_buffered) = true ->
  let k := s.(gs_cached_lba) - (hdr s).(array_lba) in
  wp (flush_lba_buf_with (read_from_flash_depth (Datatypes.S n)) CachedGpt)
    (fun _ s' => gpt_inv array s' /\ s'.(gs_write_buffered) = false /\ kept s s' /\
       forall j, 0 <= j < nblk s -> flash_array s' j = cur_array s j)
    (half_written array (hdr s) k s.(gs_lba_buf) s) (half_written array (hdr s) k s.(gs_lba_buf) s) s.
Proof.
  cbv zeta. intros (Hcore & Hfl & Hbuf & Hdirty) Hw. rewrite Hw in Hdirty. destruct Hdirty as (k & Hck & Hk0 & Hku).
  pose proof Hcore as [Hd Hr Hp Hlay Hbk Hba Hu Hse Hmi Hph Hbh].
  pose proof Hlay as [Hh _ _ Hcur Hnp Ha Hf Hl Hbl]. unfold PRIMARY_GPT_LBA in *. pose proof per_pos as Hper.
  assert (0 <= k * per < (hdr s).(num_partitions)) as Hkp by nia.
  pose proof (entry_block_range _ _ Hkp) as Hkm. rewrite Z.div_mul in Hkm by lia.
  replace (s.(gs_cached_lba) - (hdr s).(array_lba)) with k by lia.
  unfold flush_lba_buf_with. gpt_step. gpt_step. rewrite Hfl. gpt_auto.
  set (s1 := set_write_buffered false (set_in_flush true s)).
  assert (gpt_core array s1) as Hcore1 by (by destruct Hcore).
  apply wp_after. unfold flush_buffered_with. gpt_auto. apply (wp_table_at _ s.(gs_cached_gpt)); [done|]. gpt_auto.
  change (gs_cached_lba s1) with s.(gs_cached_lba). change (gs_backup_gpt_lba s1) with s.(gs_backup_gpt_lba).
  rewrite Hck, Hbk. fold (hdr s). unfold PRIMARY_GPT_LBA. fold (nblk s) in Hkm, Hf, Hbl.
  destruct (Z.eqb_spec ((hdr s).(array_lba) + k) 1) as [?|_]; [lia|]. cbn [orb].
  destruct (Z.eqb_spec (hdr s).(backup_lba) 0) as [?|_]; [lia|]. cbn [negb andb].
  destruct (Z.eqb_spec ((hdr s).(array_lba) + k) (hdr s).(backup_lba)) as [?|_]; [lia|].
  assert ((hdr s).(array_lba) + k <= partition_array_last_lba s.(gs_cached_gpt)) as Hlast.
  { unfold partition_array_last_lba, partition_entry_lba. fold (used s) (hdr s) per.
    destruct (Z.eqb_spec (used s) 0) as [?|_]; [lia|].
    assert (is_u32 (num_partitions (hdr s))) as Hn32 by apply Hh. unfold is_u32 in Hn32.
    rewrite (u32_small (used s - 1)) by (unfold is_u32; lia). unfold u64. pose proof nblocks_range.
    assert (0 <= used s - 1 < (hdr s).(num_partitions)) as Hup by nia.
    pose proof (entry_block_range _ _ Hup) as Hlm. fold (nblk s) in Hlm.
    rewrite Z.mod_small by lia. apply Zplus_le_compat_l, Z.div_le_lower_bound; lia. }
  rewrite (proj2 (Z.leb_le _ _)) by lia. rewrite (proj2 (Z.leb_le _ _) Hlast). cbn [andb].
  replace ((hdr s).(array_lba) + k - (hdr s).(array_lba)) with k by lia.
  assert (is_u32 (num_partitions (hdr s))) as Hn32 by apply Hh. unfold is_u32 in Hn32.
  rewrite u32_small by (unfold is_u32; nia).
  eapply wp_mono; [apply (write_entries_clean n k s1 array); try done|..]; cbn beta.
  - intros _ s2 (x' & Hx & ->). gpt_step.
    destruct (inv_after_write array s1 k s.(gs_lba_buf) x' Hcore1 Hkm Hbuf Hx) as (Hcore' & Hbuf' & Hcoh & Hkept & Harr).
    change (gs_cached_gpt s1) with s.(gs_cached_gpt) in *. change (hdr s1) with (hdr s) in *. fold (hdr s). fold (nblk s).
    change (nblk s1) with (nblk s) in *.
    replace ((hdr s).(array_lba) + nblk s - 1 - (hdr s).(array_lba)) with (nblk s - 1) by lia.
    match goal with |- gpt_inv _ (set_in_flush _ ?t) /\ _ => set (s2 := t) in * end.
    split_and!.
    + split; [by destruct Hcore'|]. split; [done|]. by split.
    + done.
    + destruct Hkept as [Ku [f Kf] Km Kl Kd]. split; try done; [by exists f|]. intros a l Hca. apply Kd. by destruct Hca.
    + intros j Hj. change (flash_array (set_in_flush false s2) j) with (flash_array s2 j). rewrite Harr by done.
      unfold cur_array. rewrite Hw. f_equal; lia.
  - intros e s2 Hf2. gpt_step. exact Hf2.
  - done.
Qed.
End Inv.
