(* ===== verification/GptOps.v ===== *)
(** Partition tables: reading and writing entries.

    The array the library works on changes in one place per write, whether or not a block
    is written out on the way; and at every point where an access can fail, one of the
    copies in the flash is whole. *)

From stdpp Require Import base list numbers.
From S2P Require Import Prelude GptTypes GptIo GptBytes GptLaws GptFlush GptInv.

Section Ops.
Context {X : Type} {gbuild : GptBuild} {grand : GptRandom X} {gflash : GptFlash X} {gbuild_ok : GptBuildOk}.
Abbreviation GPT := (M (gpt_state X)).
Implicit Types (s : gpt_state X) (x : X) (t : gpt_t) (f g arr : Z -> bytes) (h : gpt_header_t) (array : Z).

(** ** A copy of a table in the flash *)

(** Header [h], made to fit [arr], and the blocks of [arr]. *)
Definition holds_copy h arr g : Prop :=
  header_of (slice (g h.(current_lba)) 0 GPT_HEADER_SIZE) = sealed arr h /\
  forall k, 0 <= k < array_blocks h.(num_partitions) -> array_at h.(array_lba) g k = arr k.

(** One of the copies is whole, with an array that satisfies [P]. *)
Definition recoverable array s (P : (Z -> bytes) -> Prop) g : Prop :=
  exists arr, P arr /\ (holds_copy (hdr s) arr g \/ holds_copy (backup_of array (hdr s)) arr g).
Definition interrupted {A} array s (P : (Z -> bytes) -> Prop) : A -> gpt_state X -> Prop :=
  fun _ s' => access_can_fail = true /\ recoverable array s P (blk s').

Definition same_array s arr arr' : Prop := forall k, 0 <= k < nblk s -> arr k = arr' k.

Lemma holds_copy_off h arr f g (D : Z -> Prop) : holds_copy h arr f -> agree_off D f g ->
  (forall l, copy_blocks h l -> ~ D l) -> holds_copy h arr g.
Proof.
  intros [Hh Ha] Hfg HD. split.
  - rewrite (Hfg h.(current_lba)); [done|]. apply HD. by right.
  - intros k Hk. unfold array_at. rewrite (Hfg (h.(array_lba) + k)); [by apply Ha|]. apply HD. left. unfold in_array. lia.
Qed.

Lemma core_holds array s : gpt_core array s ->
  holds_copy (hdr s) (flash_array s) (blk s) /\ holds_copy (backup_of array (hdr s)) (flash_array s) (blk s).
Proof.
  intros [_ _ _ Hlay _ _ _ Hse Hmi Hph Hbh]. split; split.
  - rewrite (lo_current _ _ Hlay), Hph. exact Hse.
  - done.
  - exact Hbh.
  - exact Hmi.
Qed.

(** A write of block [k] that fails leaves the old array or the new one. *)
Lemma half_written_recoverable {A} array s k b (a : A) s' : gpt_core array s -> 0 <= k < nblk s -> buf_ok b ->
  half_written array (hdr s) k b s a s' ->
  interrupted array s (fun arr => same_array s arr (flash_array s) \/ same_array s arr (upd_block (flash_array s) k b)) a s'.
Proof.
  intros Hcore Hk Hb [Hf Hw]. pose proof (core_holds array s Hcore) as [Hp _]. destruct Hcore as [_ _ _ Hlay _ _ _ _ Hmi _ _].
  split; [done|]. destruct Hw as [Ha|Ha].
  - exists (flash_array s). split; [by left|]. left. eapply holds_copy_off; [done|done|]. intros l. by apply layout_copies_apart.
  - exists (upd_block (flash_array s) k b). split; [by right|]. right.
    eapply holds_copy_off; [|done|]; [|intros l; by apply backup_block_apart].
    pose proof (layout_backup_placed array (hdr s) Hlay) as Hpb.
    assert (forall j, 0 <= j < nblk s -> upd_block (array_at array (blk s)) k b j = upd_block (flash_array s) k b j) as Harr.
    { intros j Hj. apply upd_block_ext. by apply Hmi. }
    split.
    + rewrite copy_written_header; [|done|intros; apply buf_ok_blk|done]. by apply sealed_ext.
    + intros j Hj. rewrite copy_written_array by done. by apply Harr.
Qed.

(** ** Reading through the buffer *)

(** The arrays before a read: in the flash, and in force. *)
Definition either_array s arr : Prop := same_array s arr (flash_array s) \/ same_array s arr (cur_array s).

Lemma inv_cur_block array s k : gpt_inv array s -> 0 <= k -> s.(gs_cached_lba) = (hdr s).(array_lba) + k ->
  s.(gs_lba_buf) = cur_array s k.
Proof.
  intros (Hcore & _ & _ & Hb) Hk Hc. unfold cur_array. destruct s.(gs_write_buffered).
  - unfold upd_block. destruct (Z.eqb_spec k (s.(gs_cached_lba) - (hdr s).(array_lba))); [done|lia].
  - unfold coherent in Hb. rewrite Hb; [|].
    + unfold flash_array, array_at. by rewrite Hc.
    + destruct Hcore as [_ _ _ [_ _ _ _ _ Ha _ _ _] _ _ _ _ _ _ _]. unfold PRIMARY_GPT_LBA in Ha.
      lia.
Qed.

Lemma holds_copy_kept array s s' arr g : kept s s' ->
  (holds_copy (hdr s') arr g <-> holds_copy (hdr s) arr g) /\
  (holds_copy (backup_of array (hdr s')) arr g <-> holds_copy (backup_of array (hdr s)) arr g).
Proof. intros [_ [f [E|E]] _ _ _]; by rewrite E. Qed.

(** A state with nothing to flush whose flash holds [arr]: whatever fails next, it stays. *)
Lemma settled_recoverable {A} array s s1 (P : (Z -> bytes) -> Prop) (a : A) s' : gpt_core array s1 -> kept s s1 ->
  P (flash_array s1) -> access_can_fail = true -> agree_off nowhere (blk s1) (blk s') -> interrupted array s P a s'.
Proof.
  intros Hcore Hkept HP Hf Ha. split; [done|]. exists (flash_array s1). split; [done|]. left.
  apply (holds_copy_kept array s s1); [done|]. eapply holds_copy_off; [by eapply core_holds|done|]. by intros l _ [].
Qed.

Lemma half_interrupted {A} array s k b (P : (Z -> bytes) -> Prop) (a : A) s' : gpt_core array s -> 0 <= k < nblk s -> buf_ok b ->
  (forall arr, same_array s arr (flash_array s) \/ same_array s arr (upd_block (flash_array s) k b) -> P arr) ->
  half_written array (hdr s) k b s a s' -> interrupted array s P a s'.
Proof.
  intros Hcore Hk Hb HP Hw. destruct (half_written_recoverable array s k b a s' Hcore Hk Hb Hw) as [Hf (arr & Harr & Hh)].
  split; [done|]. exists arr. auto.
Qed.

Lemma inv_dirty_block array s : gpt_inv array s -> s.(gs_write_buffered) = true ->
  0 <= s.(gs_cached_lba) - (hdr s).(array_lba) < nblk s.
Proof.
  intros (Hcore & _ & _ & Hd) Hw. rewrite Hw in Hd. destruct Hd as (k & -> & Hk & Hku). destruct Hcore as [_ _ _ _ _ _ Hu _ _ _ _].
  pose proof per_pos. assert (0 <= k * per < (hdr s).(num_partitions)) as Hkp by nia.
  pose proof (entry_block_range _ _ Hkp) as Hkm. rewrite Z.div_mul in Hkm by lia. unfold nblk. lia.
Qed.

Lemma cur_clean s : s.(gs_write_buffered) = false -> cur_array s = flash_array s.
Proof. unfold cur_array. by intros ->. Qed.

(** The flash seen again, another block in the buffer. *)
Lemma inv_set_io array s x b c : gpt_core array s -> s.(gs_in_flush) = false -> s.(gs_write_buffered) = false ->
  agree_off nowhere (blk s) (blocks x) -> buf_ok b -> (c <> 0 -> b = blk s c) ->
  let s' := set_io x b c s in
  gpt_inv array s' /\ kept s s' /\ same_array s (flash_array s') (flash_array s).
Proof.
  cbv zeta. intros Hcore Hfl Hw Ha Hb Hc. set (s' := set_io x b c s).
  assert (forall l, blk s' l = blk s l) as Hblk by (intros l; by apply agree_nowhere).
  assert (same_array s (flash_array s') (flash_array s)) as Hfa by (intros k _; apply Hblk).
  destruct Hcore as [Hd Hr Hp Hlay Hbk Hba Hu Hse Hmi Hph Hbh].
  split_and!; [split; [|split; [done|split; [done|]]]| |done].
  - split; try done; change (hdr s') with (hdr s); change (nblk s') with (nblk s).
    + rewrite Hse at 1. symmetry. by apply sealed_ext.
    + intros k Hk. rewrite Hfa by done. rewrite <- Hmi by done. apply Hblk.
    + by rewrite Hblk.
    + rewrite Hblk, Hbh. symmetry. by apply sealed_ext.
  - change (gs_write_buffered s') with s.(gs_write_buffered). rewrite Hw. intros Hne. change (gs_lba_buf s') with b.
    change (gs_cached_lba s') with c in *. rewrite Hblk. by apply Hc.
  - split; try done. exists (flash_array s). by right.
Qed.

Lemma read_spec array lba s : gpt_inv array s -> 0 < lba < nblocks ->
  wp (read_from_flash lba)
    (fun _ s' => gpt_inv array s' /\ kept s s' /\ s'.(gs_cached_lba) = lba /\ same_array s (cur_array s') (cur_array s) /\
       either_array s (flash_array s'))
    (interrupted array s (either_array s)) (interrupted array s (either_array s)) s.
Proof.
  intros Hinv Hl. pose proof Hinv as (Hcore & Hfl & Hbuf & Hco). unfold read_from_flash. cbn [read_from_flash_depth].
  unfold read_from_flash_step. gpt_step. gpt_step.
  destruct (Z.eqb_spec lba s.(gs_cached_lba)) as [->|Hne]; cbn [negb].
  { gpt_step. split; [done|]. split; [apply kept_refl|]. split_and!; [done..|by left]. }
  gpt_auto.
  assert (wp (if s.(gs_write_buffered) && negb (s.(gs_cached_lba) =? 0) && s.(gs_cached_gpt_read)
     then primary ← gets gs_cached_gpt_primary;
          if primary : bool then flush_lba_buf_with (read_from_flash_depth 1) CachedGpt
          else t ← table_at CachedGpt;
               with_local t (fun primary_gpt => h ← swap_headers t.(header); _ ← put_table primary_gpt (set_header h t);
                  flush_lba_buf_with (read_from_flash_depth 1) primary_gpt)
     else mret tt)
    (fun _ s1 => gpt_inv array s1 /\ s1.(gs_write_buffered) = false /\ kept s s1 /\ same_array s (flash_array s1) (cur_array s))
    (interrupted array s (either_array s)) (interrupted array s (either_array s)) s) as Hflush.
  { destruct s.(gs_write_buffered) eqn:Hw.
    - pose proof (inv_dirty_block _ _ Hinv Hw) as Hk. pose proof (gc_layout _ _ Hcore) as [_ _ _ _ _ Ha _ _ _]. unfold PRIMARY_GPT_LBA in Ha.
      rewrite (gc_read _ _ Hcore). destruct (Z.eqb_spec s.(gs_cached_lba) 0); [lia|]. cbn [andb negb]. gpt_auto.
      rewrite (gc_primary _ _ Hcore).
      assert (same_array s (upd_block (flash_array s) (s.(gs_cached_lba) - (hdr s).(array_lba)) s.(gs_lba_buf)) (cur_array s)) as Hcur.
      { unfold cur_array. by rewrite Hw. }
      eapply wp_mono; [by apply flush_spec|..]; cbn beta.
      + tauto.
      + intros e s1. eapply half_interrupted; [done..|]. intros arr [?|Harr]; [by left|right]. intros j Hj. rewrite Harr by done. by apply Hcur.
      + intros e s1. eapply half_interrupted; [done..|]. intros arr [?|Harr]; [by left|right]. intros j Hj. rewrite Harr by done. by apply Hcur.
    - cbn [andb]. gpt_auto. split; [done|]. split; [done|]. split; [apply kept_refl|]. by rewrite cur_clean. }
  eapply wp_mono; [exact Hflush|..]; cbn beta; [|done..]. clear Hflush.
  intros _ s1 (Hinv1 & Hw1 & Hk1 & Harr1). pose proof Hinv1 as (Hcore1 & Hfl1 & Hbuf1 & Hco1). rewrite Hw1 in Hco1.
  gpt_auto. rewrite set_write_buffered_same by done.
  apply driver_read_spec; [apply Hcore1|done|..].
  2: { intros e x' Hf Ha. eapply (settled_recoverable array s s1); [done|done| |done|exact Ha]. right. exact Harr1. }
  intros [r b] x' Ha Hb' Hr. cbn [fst snd] in *. gpt_auto.
  - eapply (settled_recoverable array s s1); [done|done|right; exact Harr1| |exact Ha].
    assert (r =? TFM_GPT_BLOCK_SIZE = false) as Hn by (by apply negb_true_iff). rewrite Hn in Hr. apply Hr. lia.
  - assert (r =? TFM_GPT_BLOCK_SIZE = true) as Hn by (by apply negb_false_iff). rewrite Hn in Hr. subst b.
    change (set_cached_lba lba (set_lba_buf (blocks (gs_world s1) lba) (set_world x' s1))) with (set_io x' (blk s1 lba) lba s1).
    destruct (inv_set_io array s1 x' (blk s1 lba) lba) as (Hinv2 & Hk2 & Harr2); try done.
    split; [done|]. split; [|split; [done|]].
    + by eapply (kept_trans array).
    + assert (same_array s (flash_array (set_io x' (blk s1 lba) lba s1)) (cur_array s)) as Harr.
      { intros j Hj. rewrite Harr2; [by apply Harr1|]. by destruct (kept_core_hdr _ _ Hk1) as [-> _]. }
      rewrite (cur_clean (set_io _ _ _ _)) by done. split; [done|by right].
Qed.

(** ** Entries *)

Lemma entry_lba array s i : gpt_core array s -> 0 <= i < (hdr s).(num_partitions) ->
  partition_entry_lba s.(gs_cached_gpt) i = (hdr s).(array_lba) + i / per /\ 0 <= i / per < nblk s /\
  0 < (hdr s).(array_lba) + i / per < nblocks.
Proof.
  intros Hcore Hi. pose proof (gc_layout _ _ Hcore) as [_ _ _ _ _ Ha Hf Hl Hb]. unfold PRIMARY_GPT_LBA in Ha. fold (nblk s) in Hf, Hb.
  pose proof (entry_block_range _ _ Hi) as Hk. fold (nblk s) in Hk. unfold partition_entry_lba. fold per (hdr s).
  pose proof nblocks_range. unfold u64. rewrite Z.mod_small by lia. lia.
Qed.

Definition entry_at f i : gpt_entry_t := entry_of (ent f i).

Lemma read_entry_spec array s i : gpt_inv array s -> 0 <= i < (hdr s).(num_partitions) ->
  wp (read_entry_from_flash CachedGpt i)
    (fun e s' => e = entry_at (cur_array s) i /\ gpt_inv array s' /\ kept s s' /\
       s'.(gs_cached_lba) = (hdr s).(array_lba) + i / per /\ same_array s (cur_array s') (cur_array s))
    (interrupted array s (either_array s)) (interrupted array s (either_array s)) s.
Proof.
  intros Hinv Hi. pose proof Hinv as (Hcore & _). destruct (entry_lba _ _ _ Hcore Hi) as (Hlba & Hk & Hr).
  unfold read_entry_from_flash, read_entry_with. gpt_step. apply (wp_table_at _ s.(gs_cached_gpt)); [done|]. rewrite Hlba.
  gpt_step. eapply wp_mono; [by apply read_spec|..]; cbn beta; [|done..].
  intros _ s' (Hinv' & Hkept & Hc & Harr & _). gpt_auto. split; [|done].
  destruct (kept_core_hdr _ _ Hkept) as (_ & Ha & _). rewrite (inv_cur_block array s' (i / per)) by (done || lia || by rewrite Ha).
  by rewrite Harr.
Qed.

(** The array with an entry replaced. *)
Definition with_entry f i e : Z -> bytes :=
  upd_block f (i / per) (splice (f (i / per)) (entry_offset i) (entry_bytes e)).

Lemma entry_offset_Z i : Z.of_nat (entry_offset i) = i mod per * 128.
Proof.
  unfold entry_offset. fold per. unfold GPT_ENTRY_SIZE. assert (0 < per) as Hp by (pose proof per_pos; lia).
  pose proof (Z.mod_pos_bound i per Hp). rewrite Z2Nat.id; [done|]. apply Z.mul_nonneg_nonneg; [|done]. by apply Z.mod_pos_bound.
Qed.

Lemma ent_with_entry f i e j : buf_ok (f (i / per)) -> entry_ok e -> 0 <= i -> 0 <= j ->
  ent (with_entry f i e) j = if j =? i then entry_bytes e else ent f j.
Proof.
  intros [Hl Hb] He Hi Hj. pose proof (length_entry_bytes e He) as Hle. pose proof (entry_offset_fits i) as Hfi.
  pose proof (entry_offset_fits j) as Hfj. unfold ent, with_entry, upd_block. destruct (Z.eqb_spec (j / per) (i / per)) as [Ek|Ek].
  2: { destruct (Z.eqb_spec j i) as [->|]; [done|done]. }
  assert (entry_offset j + 128 <= entry_offset i \/ entry_offset i + 128 <= entry_offset j \/ j = i)%nat as Hsep.
  { pose proof (entry_offset_Z i). pose proof (entry_offset_Z j). destruct (Z.lt_trichotomy (j mod per) (i mod per)) as [?|[E|?]]; [lia| |lia].
    right. right. rewrite (Z_div_mod_eq_full i per), (Z_div_mod_eq_full j per). by rewrite E, Ek. }
  apply list_eq. intros n. destruct (decide (n < 128)%nat) as [Hn|Hn].
  - rewrite lookup_slice, lookup_splice by lia. destruct (Z.eqb_spec j i) as [->|Hne].
    + rewrite decide_True by lia. f_equal. lia.
    + rewrite decide_False by (destruct Hsep as [?|[?|?]]; [lia|lia|done]). rewrite lookup_slice by done. by rewrite Ek.
  - rewrite lookup_ge_None_2 by (rewrite length_slice; rewrite ?length_splice; lia).
    destruct (j =? i); [|rewrite Ek]; rewrite lookup_ge_None_2; rewrite ?length_slice; lia || done.
Qed.

(** Outside the block in the buffer the flash has the array in force. *)
Lemma flash_elsewhere s k j : s.(gs_cached_lba) = (hdr s).(array_lba) + k -> j <> k -> flash_array s j = cur_array s j.
Proof.
  intros Hc Hj. unfold cur_array. destruct s.(gs_write_buffered); [|done]. rewrite upd_block_other; [done|]. lia.
Qed.

Lemma interrupted_kept {A} array s s1 P (a : A) s' : kept s s1 -> interrupted array s1 P a s' -> interrupted array s P a s'.
Proof.
  intros Hk [Hf (arr & HP & Hh)]. split; [done|]. exists arr. split; [done|].
  destruct Hh as [Hh|Hh]; [left|right]; by apply (holds_copy_kept array s s1).
Qed.

(** The fields of the buffer do not matter to the copies. *)
Lemma core_buffer array s b w n : gpt_core array s -> gpt_core array (set_write_buffered w (set_num_writes n (set_lba_buf b s))).
Proof. by intros []. Qed.
Lemma kept_buffer s s' b w n : kept (set_write_buffered w (set_num_writes n (set_lba_buf b s))) s' -> kept s s'.
Proof.
  intros [Ku [f Kf] Km Kl Kd]. split; try done; [by exists f|]. intros a l Hc. apply Kd. by apply core_buffer.
Qed.

Lemma nblk_u32 array s k : gpt_core array s -> 0 <= k < nblk s -> u32 k = k.
Proof.
  intros Hcore Hk. apply u32_small. assert (is_u32 (hdr s).(num_partitions)) as Hn by apply (gc_layout _ _ Hcore).
  pose proof (lo_entries _ _ (gc_layout _ _ Hcore)). unfold nblk, array_blocks in Hk. unfold is_u32 in *.
  assert (((hdr s).(num_partitions) - 1) / per <= (hdr s).(num_partitions) - 1) by (apply Z.div_le_upper_bound; pose proof per_pos; nia). lia.
Qed.

Lemma write_entry_spec array s i e : gpt_inv array s -> 0 <= i < used s -> entry_ok e ->
  let new := with_entry (cur_array s) i e in
  let P arr := either_array s arr \/ same_array s arr new in
  wp (write_entry CachedGpt i e)
    (fun _ s' => gpt_inv array s' /\ kept s s' /\ same_array s (cur_array s') new)
    (interrupted array s P) (interrupted array s P) s.
Proof.
  cbv zeta. intros Hinv Hi He. pose proof Hinv as (Hcore & _). pose proof (gc_used _ _ Hcore) as Hu.
  destruct (entry_lba _ _ i Hcore ltac:(lia)) as (Hlba & Hk & Hr). set (k := i / per) in *.
  unfold write_entry. gpt_step. apply (wp_table_at _ s.(gs_cached_gpt)); [done|]. rewrite Hlba. gpt_step.
  eapply wp_mono; [by apply read_spec|..]; cbn beta.
  2, 3: intros a s' [Hf (arr & HP & Hh)]; split; [done|]; exists arr; split; [by left|done].
  intros _ s1 (Hinv1 & Hkept & Hc & Harr & Heither). destruct (kept_core_hdr _ _ Hkept) as (Hn1 & Ha1 & _).
  pose proof Hinv1 as (Hcore1 & Hfl1 & Hbuf1 & _). rewrite <- Ha1 in Hc.
  assert (gs_lba_buf s1 = cur_array s k) as Hb1 by (rewrite (inv_cur_block array s1 k) by (done || lia); by apply Harr).
  gpt_auto. rewrite Hb1. set (nb := splice (cur_array s k) (entry_offset i) (entry_bytes e)).
  assert (buf_ok nb) as Hnb.
  { rewrite Hb1 in Hbuf1. destruct Hbuf1 as [Hbl Hbb]. split; [|by apply is_bytes_splice, entry_bytes_ok].
    pose proof (entry_offset_fits i). unfold nb. rewrite length_splice; [done|]. rewrite length_entry_bytes by done. lia. }
  assert (same_array s (upd_block (flash_array s1) k nb) (with_entry (cur_array s) i e)) as Hnew.
  { intros j Hj. unfold with_entry, upd_block. fold k. destruct (Z.eqb_spec j k); [done|]. rewrite (flash_elsewhere s1 k j) by done. by apply Harr. }
  set (nw := u32 (gs_num_writes (set_lba_buf nb s1) + 1)).
  change (gs_num_writes (set_num_writes nw (set_lba_buf nb s1))) with nw. destruct (nw =? gpt_entry_per_lba_count).
  - gpt_auto. apply (wp_table_at _ s1.(gs_cached_gpt)); [done|].
    set (s3 := set_write_buffered false (set_num_writes 0 (set_num_writes nw (set_lba_buf nb s1)))).
    assert (gpt_core array s3) as Hcore3 by (exact (core_buffer array s1 nb false 0 Hcore1)).
    change (gs_cached_lba s3) with s1.(gs_cached_lba). rewrite Hc. fold (hdr s1).
    replace ((hdr s1).(array_lba) + k - (hdr s1).(array_lba)) with k by lia.
    assert (0 <= k < nblk s3) as Hk3 by (change (nblk s3) with (nblk s1); lia). rewrite (nblk_u32 array s3) by done.
    assert (forall A (a : A) s', half_written array (hdr s3) k nb s3 a s' ->
      interrupted array s (fun arr => either_array s arr \/ same_array s arr (with_entry (cur_array s) i e)) a s') as Hfail.
    { intros A a s' Hhalf. apply (interrupted_kept _ _ s1); [done|]. eapply (half_interrupted array s3); [done..| |exact Hhalf].
      unfold same_array. change (nblk s3) with (nblk s1). rewrite Hn1. intros arr [Ho|Ho]; [left|right].
      - destruct Heither as [H1|H1]; [left|right]; intros j Hj; rewrite Ho by done; by apply H1.
      - intros j Hj. rewrite Ho by done. by apply Hnew. }
    eapply wp_mono; [apply (write_entries_clean 1 k s3 array)|..]; cbn beta.
    + split_and!; [apply Hcore3|done|exact Hnb].
    + apply Hcore3.
    + apply (gc_backup_lba _ _ Hcore3).
    + apply Hcore3.
    + exact Hk3.
    + exact Hc.
    + change (gs_lba_buf s3) with nb. intros _ s4 (x' & Hx & ->).
      destruct (inv_after_write array s3 k nb x' Hcore3 Hk3 Hnb Hx) as (Hcore4 & Hbuf4 & Hcoh4 & Hkept4 & Harr4).
      change (header (gs_cached_gpt s3)) with (hdr s3) in *. fold (nblk s3) in *.
      replace ((hdr s3).(array_lba) + nblk s3 - 1 - (hdr s3).(array_lba)) with (nblk s3 - 1) by lia.
      change (array_at (array_lba (hdr s3)) (blk s3)) with (flash_array s3).
      set (s4 := set_cached_gpt _ _) in *. split; [by split_and!|]. split.
      * apply (kept_trans array s s1); [done..|]. exact (kept_buffer s1 s4 nb false 0 Hkept4).
      * rewrite cur_clean by done. intros j Hj. rewrite Harr4 by (change (nblk s3) with (nblk s1); by rewrite Hn1). by apply Hnew.
    + apply Hfail.
    + apply Hfail.
  - gpt_auto. set (s3 := set_write_buffered true (set_num_writes nw (set_lba_buf nb s1))).
    split; [|split].
    + split; [by apply core_buffer|]. split; [done|]. split; [done|]. exists k. split; [done|]. split; [lia|].
      change (used s3) with (used s1). rewrite (kp_used _ _ Hkept). pose proof per_pos. unfold k. pose proof (Z.mul_div_le i per). lia.
    + apply (kept_trans array s s1); [done..|]. apply (kept_buffer _ _ nb true nw), kept_refl.
    + unfold cur_array. cbn [gs_write_buffered s3 set_write_buffered]. change (gs_cached_lba s3) with s1.(gs_cached_lba).
      change (hdr s3) with (hdr s1). rewrite Hc. replace ((hdr s1).(array_lba) + k - (hdr s1).(array_lba)) with k by lia. exact Hnew.
Qed.
End Ops.
