(* ===== verification/GptEdit.v ===== *)
(** Partition tables: the operations on the list of entries: finding an entry, changing it,
    creating a partition. *)

From stdpp Require Import base list numbers.
From S2P Require Import Prelude GptTypes GptIo Gpt GptBytes GptLaws GptFlush GptInv GptOps.

(** The position of the [n]-th element that satisfies [p]. *)
Fixpoint nth_match {A} (p : A -> bool) (n : nat) (l : list A) : option nat :=
  match l with
  | [] => None
  | a :: l' =>
      if p a then match n with O => Some O | S n' => S <$> nth_match p n' l' end
      else S <$> nth_match p n l'
  end.

Section Find.
Context {X : Type} {gbuild : GptBuild} {grand : GptRandom X} {gflash : GptFlash X} {gbuild_ok : GptBuildOk}.
Abbreviation GPT := (M (gpt_state X)).
Implicit Types (s : gpt_state X) (x : X) (f arr : Z -> bytes) (array : Z).

(** The entries in use. *)
Definition entries_of f (n : Z) : list gpt_entry_t := entry_at f <$> seqZ 0 n.
Definition entries s : list gpt_entry_t := entries_of (cur_array s) (used s).

Lemma entries_lookup f n i : 0 <= i < n -> entries_of f n !! Z.to_nat i = Some (entry_at f i).
Proof. intros Hi. unfold entries_of. rewrite list_lookup_fmap, lookup_seqZ_lt by lia. cbn. do 2 f_equal. lia. Qed.

Lemma length_entries_of f n : 0 <= n -> Z.of_nat (length (entries_of f n)) = n.
Proof. intros. unfold entries_of. rewrite length_fmap, length_seqZ. lia. Qed.

Lemma entries_of_ext f g n : (forall i, 0 <= i < n -> ent f i = ent g i) -> entries_of f n = entries_of g n.
Proof.
  intros Hfg. unfold entries_of. apply list_fmap_ext. intros k i Hk. apply lookup_seqZ in Hk as [-> ?]. unfold entry_at. rewrite Hfg; [done|lia].
Qed.

Lemma same_array_entries array s arr arr' n : gpt_core array s -> same_array s arr arr' -> n <= (hdr s).(num_partitions) ->
  entries_of arr n = entries_of arr' n.
Proof.
  intros Hcore Hs Hn. apply entries_of_ext. intros i Hi. unfold ent. rewrite Hs; [done|]. apply entry_block_range. lia.
Qed.

Lemma entries_kept array s s' : gpt_core array s -> kept s s' -> same_array s (cur_array s') (cur_array s) -> entries s' = entries s.
Proof.
  intros Hcore Hk Hs. unfold entries. rewrite (kp_used _ _ Hk). eapply same_array_entries; [done|done|]. apply (gc_used _ _ Hcore).
Qed.

Lemma cur_array_ok array s k : gpt_inv array s -> buf_ok (cur_array s k).
Proof.
  intros (_ & _ & Hb & _). unfold cur_array, upd_block. destruct s.(gs_write_buffered); [destruct (_ =? _); [done|]|]; apply buf_ok_blk.
Qed.

Lemma entry_at_ok array s i : gpt_inv array s -> entry_ok (entry_at (cur_array s) i).
Proof. intros Hinv. apply entry_of_ok; apply ent_ok; by eapply cur_array_ok. Qed.

(** Writing an entry replaces it in the list. *)
Lemma entries_with_entry array s i e n : gpt_inv array s -> 0 <= i < n -> entry_ok e ->
  entries_of (with_entry (cur_array s) i e) n = <[Z.to_nat i := e]> (entries_of (cur_array s) n).
Proof.
  intros Hinv Hi He. apply list_eq. intros k. destruct (decide (k < Z.to_nat n)%nat) as [Hk|Hk].
  - rewrite <- (Nat2Z.id k), entries_lookup by lia. unfold entry_at. rewrite ent_with_entry; [|by eapply cur_array_ok|done|lia..].
    destruct (Z.eqb_spec (Z.of_nat k) i) as [<-|Hne].
    + rewrite Nat2Z.id, list_lookup_insert_eq; [|pose proof (length_entries_of (cur_array s) n ltac:(lia)); lia].
      f_equal. rewrite <- (app_nil_r (entry_bytes e)). by apply entry_of_bytes.
    + rewrite list_lookup_insert_ne by lia. by rewrite entries_lookup by lia.
  - rewrite !lookup_ge_None_2; [done|rewrite length_insert|]; [pose proof (length_entries_of (cur_array s) n ltac:(lia)); lia|].
    pose proof (length_entries_of (with_entry (cur_array s) i e) n ltac:(lia)). lia.
Qed.

(** What a step that only reads keeps. *)
Record unchanged array s s' : Prop := {
  un_inv : gpt_inv array s';
  un_kept : kept s s';
  un_array : same_array s (cur_array s') (cur_array s);
}.

Lemma unchanged_refl array s : gpt_inv array s -> unchanged array s s.
Proof. intros. split; [done|apply kept_refl|by intros ??]. Qed.

Lemma unchanged_trans array s s1 s2 : gpt_inv array s -> unchanged array s s1 -> unchanged array s1 s2 -> unchanged array s s2.
Proof.
  intros [Hcore _] [I1 K1 A1] [I2 K2 A2]. split; [done| |].
  - apply (kept_trans array s s1); [done|apply I1|done|done].
  - intros k Hk. rewrite A2; [by apply A1|]. by destruct (kept_core_hdr _ _ K1) as [-> _].
Qed.

Lemma unchanged_entries array s s' : gpt_inv array s -> unchanged array s s' -> entries s' = entries s /\ used s' = used s.
Proof. intros [Hcore _] [I K A]. split; [by eapply entries_kept|apply K]. Qed.

Lemma unchanged_at array s s' i : gpt_inv array s -> unchanged array s s' -> 0 <= i < (hdr s).(num_partitions) ->
  entry_at (cur_array s') i = entry_at (cur_array s) i.
Proof. intros _ [_ _ Ha] Hi. unfold entry_at, ent. rewrite Ha; [done|]. by apply entry_block_range. Qed.

(** ** Devices whose accesses succeed *)

Hypothesis accesses_succeed : access_can_fail = false.

Lemma never_interrupted {A} array s P (a : A) s' (Q : Prop) : interrupted array s P a s' -> Q.
Proof using accesses_succeed. intros [Hf _]. congruence. Qed.

Lemma read_entry_works array s i E H : gpt_inv array s -> 0 <= i < (hdr s).(num_partitions) ->
  wp (read_entry_from_flash CachedGpt i)
    (fun e s' => e = entry_at (cur_array s) i /\ unchanged array s s' /\ s'.(gs_cached_lba) = (hdr s).(array_lba) + i / per) E H s.
Proof using accesses_succeed gbuild_ok.
  intros Hinv Hi. eapply wp_mono; [by eapply read_entry_spec|..]; cbn beta.
  - intros e s' (-> & Hinv' & Hk & Hc & Ha). by split_and!.
  - intros e s' Hf. by eapply never_interrupted.
  - intros e s' Hf. by eapply never_interrupted.
Qed.

(** ** Finding an entry *)

Lemma find_spec array s compare (idx : Z) : gpt_inv array s -> 0 <= idx < 2 ^ 32 ->
  wp (find_gpt_entry CachedGpt compare idx)
    (fun r s' => unchanged array s s' /\ 0 <= r.2 < used s /\ nth_match compare (Z.to_nat idx) (entries s) = Some (Z.to_nat r.2) /\
       r.1 = entry_at (cur_array s) r.2 /\ s'.(gs_cached_lba) = (hdr s).(array_lba) + r.2 / per)
    (fun e s' => e = PSA_ERROR_DOES_NOT_EXIST /\ unchanged array s s' /\ nth_match compare (Z.to_nat idx) (entries s) = None)
    (fun _ _ => False) s.
Proof using accesses_succeed gbuild_ok.
  intros Hinv Hidx. pose proof (gc_used _ _ (proj1 Hinv)) as Hu.
  assert (is_u32 (hdr s).(num_partitions)) as Hn32 by apply (gc_layout _ _ (proj1 Hinv)). unfold is_u32 in Hn32.
  unfold find_gpt_entry. gpt_step. apply (wp_table_at _ s.(gs_cached_gpt)); [done|]. gpt_step. fold (used s).
  apply wp_fail_if; intros H0.
  { split; [done|]. split; [by apply unchanged_refl|]. apply Z.eqb_eq in H0. unfold entries. by rewrite H0. }
  set (P := fun '(i, num_found, io_failure) s' => unchanged array s s' /\ io_failure = false /\ 0 <= i <= used s /\
    0 <= num_found <= i /\ num_found <= idx /\
    nth_match compare (Z.to_nat idx) (entries s) =
      (fun k => Z.to_nat i + k)%nat <$> nth_match compare (Z.to_nat (idx - num_found)) (drop (Z.to_nat i) (entries s))).
  apply (wp_while _ P _ _ _ (fun '(i, _, _) => used s - i)).
  2: { split; [by apply unchanged_refl|]. split_and!; [done|lia..|]. rewrite Z.sub_0_r, drop_0. by destruct (nth_match _ _ _). }
  2: { lia. }
  intros [[i nf] io] s1 (Hun & -> & Hi & Hnf & Hnfi & Hm). gpt_step. apply (wp_table_at _ s1.(gs_cached_gpt)); [done|].
  fold (used s1). destruct (unchanged_entries array s s1 Hinv Hun) as [_ Hus]. rewrite Hus.
  destruct (Z.ltb_spec i (used s)) as [Hlt|Hge]; cbn [negb].
  2: { gpt_step. split; [done|]. split; [done|]. rewrite Hm, drop_ge; [done|].
       pose proof (length_entries_of (cur_array s) (used s) ltac:(lia)). unfold entries. lia. }
  pose proof (kept_core_hdr _ _ (un_kept _ _ _ Hun)) as (_ & Ha1 & Hnp1 & _).
  gpt_step. gpt_step. eapply wp_mono; [eapply (read_entry_works array s1 i (fun _ _ => False) (fun _ _ => False)); [apply Hun|lia]|..]; cbn beta; [|by intros ? ? []..].
  intros e s2 (-> & Hun2 & Hc2). rewrite (unchanged_at array s s1) by (done || lia).
  assert (unchanged array s s2) as Hun02 by (by eapply unchanged_trans).
  assert (drop (Z.to_nat i) (entries s) = entry_at (cur_array s) i :: drop (Z.to_nat (i + 1)) (entries s)) as Hdrop.
  { erewrite drop_S; [|apply entries_lookup; lia]. do 2 f_equal. lia. }
  rewrite Hdrop in Hm. cbn [nth_match] in Hm. rewrite (u32_small (i + 1)) by (unfold is_u32; lia).
  destruct (compare (entry_at (cur_array s) i)) eqn:Hcmp.
  - destruct (Z.eqb_spec nf idx) as [->|Hne]; gpt_step.
    + split; [done|]. cbn. rewrite Z.sub_diag in Hm. simpl in Hm. rewrite Nat.add_0_r in Hm. split_and!; try done; try lia.
    + rewrite (u32_small (nf + 1)) by (unfold is_u32; lia). split; [|lia]. split_and!; try done; try lia.
      replace (Z.to_nat (idx - nf)) with (S (Z.to_nat (idx - (nf + 1)))) in Hm by lia. rewrite Hm.
      destruct (nth_match _ _ (drop _ _)); [|done]. cbn. f_equal. lia.
  - gpt_step. split; [|lia]. split_and!; try done; try lia. rewrite Hm.
    destruct (nth_match _ _ (drop _ _)); [|done]. cbn. f_equal. lia.
Qed.
End Find.

(** * Partition tables: operations on one entry are operations on the list of entries. *)

Section Update.
Context {X : Type} {gbuild : GptBuild} {grand : GptRandom X} {gflash : GptFlash X} {gbuild_ok : GptBuildOk}.
Abbreviation GPT := (M (gpt_state X)).
Implicit Types (s : gpt_state X) (x : X) (array : Z) (guid : efi_guid_t).

(** The first entry with an identifier. *)
Definition position guid s : option nat := nth_match (gpt_entry_cmp_guid guid) 0 (entries s).

(** [m] changes the entry of [guid] by [f], or reports that there is none. *)
Definition updates array (m : GPT unit) guid (f : gpt_entry_t -> gpt_entry_t) s : Prop :=
  wp m
    (fun _ s' => gpt_inv array s' /\ kept s s' /\ exists i, position guid s = Some i /\ entries s' = alter f i (entries s))
    (fun e s' => e = PSA_ERROR_DOES_NOT_EXIST /\ position guid s = None /\ gpt_inv array s' /\ kept s s' /\ entries s' = entries s)
    (fun _ _ => False) s.

Lemma read_table_primary array s : gpt_inv array s -> read_table true s = (Val CachedGpt, s).
Proof.
  intros [Hcore _]. unfold read_table, get_gpt_array_lba. rewrite !bind_gets.
  by rewrite (gc_read _ _ Hcore), (gc_primary _ _ Hcore).
Qed.

Lemma wp_read_table array s (Q : gpt_ptr -> gpt_state X -> Prop) E H : gpt_inv array s -> Q CachedGpt s -> wp (read_table true) Q E H s.
Proof. intros Hi HQ. eapply wp_run; [by eapply read_table_primary|done]. Qed.

Lemma alter_as_insert {A} (f : A -> A) (l : list A) i a : l !! i = Some a -> alter f i l = <[i := f a]> l.
Proof.
  intros Hl. apply list_eq. intros k. destruct (decide (k = i)) as [->|Hk].
  - rewrite list_lookup_alter_eq, Hl, list_lookup_insert_eq; [done|]. by eapply lookup_lt_Some.
  - by rewrite list_lookup_alter_ne, list_lookup_insert_ne by done.
Qed.

Hypothesis accesses_succeed : access_can_fail = false.

Lemma write_entry_works array s i e E H : gpt_inv array s -> 0 <= i < used s -> entry_ok e ->
  wp (write_entry CachedGpt i e)
    (fun _ s' => gpt_inv array s' /\ kept s s' /\ entries s' = <[Z.to_nat i := e]> (entries s)) E H s.
Proof using accesses_succeed gbuild_ok.
  intros Hinv Hi He. pose proof (gc_used _ _ (proj1 Hinv)) as Hu.
  eapply wp_mono; [by apply (write_entry_spec array s i e)|..]; cbn beta.
  - intros _ s' (Hinv' & Hk & Ha). split_and!; [done..|]. unfold entries at 1. rewrite (kp_used _ _ Hk).
    rewrite (same_array_entries array s _ _ _ (proj1 Hinv) Ha) by lia. by eapply entries_with_entry.
  - intros a s' Hf. by eapply never_interrupted.
  - intros a s' Hf. by eapply never_interrupted.
Qed.

Lemma find_primary_spec array s guid : gpt_inv array s ->
  wp (find_primary guid)
    (fun r s' => let '(p, e, i) := r in p = CachedGpt /\ unchanged array s s' /\ 0 <= i < used s /\
       position guid s = Some (Z.to_nat i) /\ entries s !! Z.to_nat i = Some e /\ entry_ok e /\
       s'.(gs_cached_lba) = (hdr s).(array_lba) + i / per)
    (fun e s' => e = PSA_ERROR_DOES_NOT_EXIST /\ unchanged array s s' /\ position guid s = None)
    (fun _ _ => False) s.
Proof using accesses_succeed gbuild_ok.
  intros Hinv. unfold find_primary. gpt_step. eapply wp_read_table; [done|]. gpt_step.
  eapply wp_mono; [by apply (find_spec accesses_succeed array s _ 0)|..]; cbn beta; [|done..].
  intros [e i] s' (Hun & Hi & Hm & He & Hc). cbn [fst snd] in *. subst e. gpt_step.
  split_and!; try done; [lia|lia|by apply entries_lookup|by eapply entry_at_ok].
Qed.

(** Every operation that finds an entry and writes it back changed. *)
Lemma update_spec array s guid (f : gpt_entry_t -> gpt_entry_t) (write : gpt_entry_t -> bool) :
  gpt_inv array s -> (forall e, entry_ok e -> entry_ok (f e)) ->
  updates array
    ('(primary_table, cached_entry, cached_index) ← find_primary guid;
     if write cached_entry then mret tt else write_entry primary_table cached_index (f cached_entry))
    guid (fun e => if write e then e else f e) s.
Proof using accesses_succeed gbuild_ok.
  intros Hinv Hf. unfold updates. gpt_step. eapply wp_mono; [by apply find_primary_spec|..]; cbn beta; [| |done].
  - intros [[p e] i] s1 (-> & Hun & Hi & Hpos & He & Heok & _). destruct (unchanged_entries array s s1 Hinv Hun) as [He1 Hu1].
    destruct (write e) eqn:Hw.
    + gpt_step. split; [apply Hun|]. split; [apply Hun|]. exists (Z.to_nat i). split; [done|]. rewrite He1.
      rewrite (alter_as_insert _ _ _ e) by done. rewrite Hw. by rewrite list_insert_id.
    + eapply wp_mono; [apply (write_entry_works array s1 i (f e) (fun _ _ => False) (fun _ _ => False)); [apply Hun|lia|auto]|..];
        cbn beta; [|by intros ? ? []..].
      intros _ s2 (Hinv2 & Hk2 & He2). split; [done|]. split.
      { apply (kept_trans array s s1); [apply Hinv|apply Hun|apply Hun|done]. }
      exists (Z.to_nat i). split; [done|]. rewrite He2, He1, (alter_as_insert _ _ _ e) by done. by rewrite Hw.
  - intros e s1 (-> & Hun & Hpos). destruct (unchanged_entries array s s1 Hinv Hun) as [He1 _].
    split_and!; [done|done|apply Hun|apply Hun|done].
Qed.

Lemma update_always array s guid (f : gpt_entry_t -> gpt_entry_t) : gpt_inv array s -> (forall e, entry_ok e -> entry_ok (f e)) ->
  updates array ('(primary_table, cached_entry, cached_index) ← find_primary guid;
                 write_entry primary_table cached_index (f cached_entry)) guid f s.
Proof using accesses_succeed gbuild_ok. intros Hinv Hf. exact (update_spec array s guid f (fun _ => false) Hinv Hf). Qed.

Definition name_ok (n : bytes) : Prop := length n = 72%nat /\ is_bytes n.

End Update.

(** * Partition tables: creating a partition.

    The new entry goes to the end of the list; partitions stay apart from each other and
    inside the space of the device that is theirs. *)

Section Create.
Context {X : Type} {gbuild : GptBuild} {grand : GptRandom X} {gflash : GptFlash X} {gbuild_ok : GptBuildOk}.
Abbreviation GPT := (M (gpt_state X)).
Implicit Types (s : gpt_state X) (x : X) (array : Z).

(** Partitions of a device: inside the usable blocks, and apart. *)
Definition apart (e e' : gpt_entry_t) : Prop := e.(end_) < e'.(start) \/ e'.(end_) < e.(start).
Definition within h (e : gpt_entry_t) : Prop := h.(first_lba) <= e.(start) <= e.(end_) /\ e.(end_) <= h.(last_lba).
Definition partitions_ok h (es : list gpt_entry_t) : Prop :=
  Forall (within h) es /\ forall i j e e', i <> j -> es !! i = Some e -> es !! j = Some e' -> apart e e'.

Lemma partitions_ok_snoc h es e : partitions_ok h es -> within h e -> Forall (apart e) es -> partitions_ok h (es ++ [e]).
Proof.
  intros [Hw Ha] He Hn. split; [by apply Forall_app_2, Forall_cons_2|]. rewrite Forall_lookup in Hn.
  assert (forall i a, (es ++ [e]) !! i = Some a -> es !! i = Some a \/ i = length es /\ a = e) as Hcase.
  { intros i a Hi. apply lookup_app_Some in Hi as [?|[? Hi]]; [by left|right]. apply list_lookup_singleton_Some in Hi as [? ->]. split; [lia|done]. }
  intros i j a b Hij [Hi|[-> ->]]%Hcase [Hj|[-> ->]]%Hcase; [by eapply Ha| | |done].
  - apply or_comm. by eapply Hn.
  - by eapply Hn.
Qed.

Lemma overlaps_false first last e : first <= last -> e.(start) <= e.(end_) -> overlaps first last e = false ->
  e.(end_) < first \/ last < e.(start).
Proof. intros H1 H2 Ho. unfold overlaps in Ho. rewrite !Z.geb_leb in Ho. lia. Qed.
Lemma overlaps_true first last e : overlaps first last e = true -> e.(start) <= last /\ first <= e.(end_) \/ last < first \/ e.(end_) < e.(start).
Proof. intros Ho. unfold overlaps in Ho. rewrite !Z.geb_leb in Ho. lia. Qed.

(** The check of the range, for a last block below the addition's overflow. *)
Lemma outside_usable_spec t (first size : Z) : is_u64 first -> 0 < size < 2 ^ 63 -> t.(header).(last_lba) < 2 ^ 62 ->
  let last := first + size - 1 in
  if outside_usable t first (u64 last) then first < t.(header).(first_lba) \/ t.(header).(last_lba) < last
  else t.(header).(first_lba) <= first /\ last <= t.(header).(last_lba) /\ u64 last = last.
Proof.
  cbv zeta. intros Hf Hs Hl. unfold outside_usable, is_u64 in *.
  assert (first <= t.(header).(last_lba) -> u64 (first + size - 1) = first + size - 1) as Hend.
  { intros. apply Z.mod_small. lia. }
  destruct (Z.le_gt_cases first t.(header).(last_lba)); [rewrite Hend by done|];
    match goal with |- context [if ?b then _ else _] => destruct b eqn:Hout end; lia.
Qed.

(** A partition that overlaps with none. *)
Lemma partitions_ok_new h es e : partitions_ok h es -> h.(first_lba) <= e.(start) <= e.(end_) -> e.(end_) <= h.(last_lba) ->
  Forall (fun e' => overlaps e.(start) e.(end_) e' = false) es -> partitions_ok h (es ++ [e]).
Proof.
  intros Hok Hs He Hf. apply partitions_ok_snoc; [done|done|]. destruct Hok as [Hw _]. rewrite Forall_forall in Hw, Hf |- *.
  intros e' He'. destruct (Hw e' He'). apply or_comm. apply (overlaps_false e.(start) e.(end_)); [lia|lia|by apply Hf].
Qed.

Lemma partitions_ok_header h h' es : h'.(first_lba) = h.(first_lba) -> h'.(last_lba) = h.(last_lba) ->
  partitions_ok h es -> partitions_ok h' es.
Proof. intros Ef El [Hw Ha]. split; [|done]. revert Hw. apply Forall_impl. intros e. unfold within. by rewrite Ef, El. Qed.

(** Steps that do not touch the flash. *)
Lemma unchanged_world array s x : gpt_inv array s -> blocks x = blk s -> unchanged array s (set_world x s).
Proof.
  intros (Hcore & Hfl & Hb & Hco) Hx. assert (blk (set_world x s) = blk s) as Hblk by done.
  assert (flash_array (set_world x s) = flash_array s) as Hfa by (unfold flash_array; by rewrite Hblk).
  split.
  - split; [|split; [done|split; [done|]]].
    + destruct Hcore. split; try done; rewrite ?Hfa, ?Hblk; done.
    + cbn [gs_write_buffered set_world]. destruct s.(gs_write_buffered); [done|]. unfold coherent. by rewrite Hblk.
  - split; try done; [exists (flash_array s); by right|]. intros. by rewrite Hblk.
  - unfold cur_array. rewrite Hfa. by intros ??.
Qed.

(** One more entry in use. *)
Definition with_used n s : gpt_state X := set_cached_gpt (set_num_used n s.(gs_cached_gpt)) s.

Lemma inv_with_used array s n : gpt_inv array s -> used s <= n <= (hdr s).(num_partitions) -> gpt_inv array (with_used n s).
Proof.
  intros (Hcore & Hfl & Hb & Hco) Hn. split; [|split; [done|split; [done|]]].
  - destruct Hcore. split; try done. change (used (with_used n s)) with n. change (hdr (with_used n s)) with (hdr s). lia.
  - change (gs_write_buffered (with_used n s)) with s.(gs_write_buffered). destruct s.(gs_write_buffered); [|done].
    destruct Hco as (k & ? & ? & ?). exists k. split; [done|]. change (used (with_used n s)) with n. lia.
Qed.

Lemma kept_with_used s s' n : 0 <= used s <= (hdr s).(num_partitions) -> kept s s' -> kept (with_used n s) (with_used n s').
Proof.
  intros Hu [Ku Kh Km Kl Kd]. split; try done. intros array l Hc. apply (Kd array l). by destruct Hc.
Qed.

Hypothesis accesses_succeed : access_can_fail = false.

Lemma update_header_works array s E H : gpt_inv array s -> s.(gs_write_buffered) = false ->
  wp (update_header CachedGpt (used s)) (fun _ s' => unchanged array s s' /\ s'.(gs_write_buffered) = false) E H s.
Proof using accesses_succeed gbuild_ok.
  intros Hinv Hw. pose proof Hinv as (Hcore & Hfl & Hb & Hco). rewrite Hw in Hco.
  pose proof (gc_layout _ _ Hcore) as [Hh _ _ Hcur Hnp Ha Hf Hl Hbk]. unfold PRIMARY_GPT_LBA in *. fold (nblk s) in *.
  pose proof (array_blocks_pos _ Hnp) as Hm. fold (nblk s) in Hm.
  eapply wp_mono; [eapply (update_header_clean 1 CachedGpt s.(gs_cached_gpt))|..]; cbn beta; fold (hdr s); fold (nblk s).
  - split; [apply Hcore|done].
  - done.
  - lia.
  - lia.
  - done.
  - intros Hin. apply Hco. unfold in_array in Hin. lia.
  - intros _ s' (x' & Hag & ->).
    destruct (inv_set_io array s x' (blk s ((hdr s).(array_lba) + nblk s - 1)) ((hdr s).(array_lba) + nblk s - 1)) as (Hi & Hk & Ha'); try done.
    { apply buf_ok_blk. }
    set (s1 := set_io _ _ _ _) in *.
    assert (set_tbl CachedGpt {| header := sealed (array_at (array_lba (hdr s)) (blk s)) (hdr s); num_used_partitions := used s |} s1 = s1) as ->.
    { fold (flash_array s). rewrite <- (gc_sealed _ _ Hcore). unfold s1. destruct s as [? ? ? ? ? ? ? [? ?]]. done. }
    split; [|done]. split; [done|done|]. by rewrite !cur_clean.
  - intros e s' [Hfail _]. congruence.
  - intros e s' [Hfail _]. congruence.
Qed.

Lemma flush_works array s E H : gpt_inv array s -> s.(gs_write_buffered) = true ->
  wp (flush_lba_buf CachedGpt) (fun _ s' => unchanged array s s' /\ s'.(gs_write_buffered) = false) E H s.
Proof using accesses_succeed gbuild_ok.
  intros Hinv Hw. eapply wp_mono; [by apply (flush_spec 1 array s)|..]; cbn beta.
  - intros _ s' (Hi & Hw' & Hk & Ha). split; [|done]. split; [done|done|]. by rewrite (cur_clean s').
  - intros e s' [Hfail _]. congruence.
  - intros e s' [Hfail _]. congruence.
Qed.

(** Make sure that the entries are in the flash. *)
Lemma settle_works array s E H : gpt_inv array s ->
  wp (if s.(gs_write_buffered) then flush_lba_buf CachedGpt
      else t ← table_at CachedGpt; update_header CachedGpt t.(num_used_partitions))
    (fun _ s' => unchanged array s s' /\ s'.(gs_write_buffered) = false) E H s.
Proof using accesses_succeed gbuild_ok.
  intros Hinv. destruct s.(gs_write_buffered) eqn:Hw; [by apply flush_works|].
  gpt_step. apply (wp_table_at _ s.(gs_cached_gpt)); [done|]. by apply update_header_works.
Qed.

Lemma lowest_free_works array s : gpt_inv array s ->
  wp (lowest_free_lba CachedGpt) (fun r s' => unchanged array s s' /\ is_u64 r.1) (fun _ _ => False) (fun _ _ => False) s.
Proof using accesses_succeed gbuild_ok.
  intros Hinv. assert (is_u32 (hdr s).(num_partitions)) as Hn by apply (gc_layout _ _ (proj1 Hinv)). unfold is_u32 in Hn.
  unfold lowest_free_lba. gpt_step. apply (wp_table_at _ s.(gs_cached_gpt)); [done|]. fold (hdr s).
  apply (wp_while _ (fun '(i, _) s' => unchanged array s s' /\ 0 <= i <= (hdr s).(num_partitions)) _ _ _
           (fun '(i, _) => (hdr s).(num_partitions) - i)); [|split; [by apply unchanged_refl|lia]|lia].
  intros [i prev] s1 [Hun Hi]. destruct (Z.ltb_spec i (hdr s).(num_partitions)); cbn [negb].
  2: { gpt_step. split; [done|]. unfold is_u64. cbn. lia. }
  pose proof (kept_core_hdr _ _ (un_kept _ _ _ Hun)) as (_ & _ & Hnp1 & _).
  gpt_step. eapply wp_mono; [eapply (read_entry_works accesses_succeed array s1 i (fun _ _ => False) (fun _ _ => False)); [apply Hun|lia]|..];
    cbn beta; [|by intros ? ? []..].
  intros e s2 (_ & Hun2 & _). assert (unchanged array s s2) by (by eapply unchanged_trans). destruct (_ >? _); gpt_step.
  - split; [done|]. unfold is_u64, u64. cbn. lia.
  - rewrite u32_small by (unfold is_u32; lia). split; [split; [done|lia]|lia].
Qed.

Lemma check_overlap_works array s first last : gpt_inv array s ->
  wp (check_overlap CachedGpt first last)
    (fun _ s' => unchanged array s s' /\ Forall (fun e => overlaps first last e = false) (entries s))
    (fun e s' => e = PSA_ERROR_INVALID_ARGUMENT /\ unchanged array s s' /\ Exists (fun e => overlaps first last e = true) (entries s))
    (fun _ _ => False) s.
Proof using accesses_succeed gbuild_ok.
  intros Hinv. pose proof (gc_used _ _ (proj1 Hinv)) as Hu. unfold check_overlap. gpt_step. apply (wp_table_at _ s.(gs_cached_gpt)); [done|].
  fold (used s). gpt_step.
  apply (wp_for_range (fun i s' => unchanged array s s' /\ forall j, 0 <= j < i -> overlaps first last (entry_at (cur_array s) j) = false)).
  - lia.
  - split; [by apply unchanged_refl|]. intros; lia.
  - intros i s1 Hi [Hun Hno]. pose proof (kept_core_hdr _ _ (un_kept _ _ _ Hun)) as (_ & _ & Hnp1 & _).
    gpt_step. eapply wp_mono; [eapply (read_entry_works accesses_succeed array s1 i (fun _ _ => False) (fun _ _ => False)); [apply Hun|lia]|..];
      cbn beta; [|by intros ? ? []..].
    intros e s2 (-> & Hun2 & _). rewrite (unchanged_at array s s1) by (done || lia).
    assert (unchanged array s s2) by (by eapply unchanged_trans). gpt_step. apply wp_fail_if; intros Ho.
    + split; [done|]. split; [done|]. apply Exists_exists. exists (entry_at (cur_array s) i). split; [|done].
      apply list_elem_of_In, list_elem_of_lookup. exists (Z.to_nat i). by apply entries_lookup.
    + gpt_step. split; [done|]. split; [done|]. intros j Hj. destruct (Z.eq_dec j i) as [->|]; [done|]. apply Hno. lia.
  - intros s1 [Hun Hno]. gpt_step. split; [done|]. apply Forall_lookup. intros k e Hk.
    assert (k < length (entries s))%nat as Hlt by (by eapply lookup_lt_Some).
    pose proof (length_entries_of (cur_array s) (used s) ltac:(lia)) as Hlen. unfold entries in *.
    rewrite <- (Nat2Z.id k), entries_lookup in Hk by lia. injection Hk as <-. apply Hno. lia.
Qed.

Lemma guid_version_4_ok g : guid_ok g -> guid_ok (guid_version_4 g).
Proof.
  intros [Hl Hb]. unfold guid_version_4. cbv zeta.
  assert (is_bytes [Z.lor (Z.land (nth 8 g 0) 63) 128]) as H1.
  { apply Forall_cons_2; [|constructor]. apply lor_range; [lia| |lia]. change 63 with (Z.ones 6). rewrite Z.land_ones by lia. lia. }
  assert (forall z, is_bytes (le16 z)) as H2 by (intros; repeat apply Forall_cons_2; [apply u8_range|apply u8_range|constructor]).
  split; [rewrite !length_splice; cbn; rewrite ?length_splice; cbn; lia|]. apply is_bytes_splice, H2. by apply is_bytes_splice.
Qed.

Lemma random_guid_works array s (Q : efi_guid_t -> gpt_state X -> Prop) E H : gpt_inv array s ->
  (forall g s', guid_ok g -> unchanged array s s' -> Q g s') ->
  (forall s', unchanged array s s' -> E PSA_ERROR_STORAGE_FAILURE s') ->
  wp (or_return (on_world efi_guid_generate_random) PSA_ERROR_STORAGE_FAILURE) Q E H s.
Proof using accesses_succeed.
  intros Hinv HQ HE. gpt_step. apply wp_on_world. unfold efi_guid_generate_random. gpt_step.
  eapply wp_mono; [apply random_law|..]; cbn beta.
  - intros r x (Hx & Hl & Hb). gpt_step. apply HQ; [by apply guid_version_4_ok|by apply unchanged_world].
  - intros e x Hx. apply HE. by apply unchanged_world.
  - intros h x [Hf _]. congruence.
Qed.

(** The entry at the end of the list, and the table settled in the flash. *)
Lemma append_works array s e (g : efi_guid_t) : gpt_inv array s -> used s < (hdr s).(num_partitions) -> entry_ok e ->
  wp (t ← table_at CachedGpt;
      _ ← put_table CachedGpt (set_num_used (u32 (t.(num_used_partitions) + 1)) t);
      r ← attempt (write_entry CachedGpt t.(num_used_partitions) e);
      _ ← match r with
          | inl ret =>
              t ← table_at CachedGpt;
              _ ← put_table CachedGpt (set_num_used (u32 (t.(num_used_partitions) - 1)) t);
              throw ret
          | inr _ => mret tt
          end;
      buffered ← gets gs_write_buffered;
      _ ← (if buffered : bool then flush_lba_buf CachedGpt
           else t ← table_at CachedGpt; update_header CachedGpt t.(num_used_partitions));
      mret g)
    (fun g' s' => g' = g /\ gpt_inv array s' /\ s'.(gs_write_buffered) = false /\ kept (with_used (used s + 1) s) s' /\
       entries s' = entries s ++ [e]) (fun _ _ => False) (fun _ _ => False) s.
Proof using accesses_succeed gbuild_ok.
  intros Hinv Hroom He. pose proof (gc_used _ _ (proj1 Hinv)) as Hu.
  assert (is_u32 (hdr s).(num_partitions)) as Hn by apply (gc_layout _ _ (proj1 Hinv)). unfold is_u32 in Hn.
  gpt_step. apply (wp_table_at _ s.(gs_cached_gpt)); [done|]. gpt_step. apply wp_put_table. fold (used s).
  rewrite u32_small by (unfold is_u32; lia). change (set_tbl _ _ s) with (with_used (used s + 1) s). set (s1 := with_used (used s + 1) s).
  assert (gpt_inv array s1) as Hinv1 by (apply inv_with_used; [done|lia]).
  assert (entries s1 = entries s ++ [entry_at (cur_array s) (used s)]) as He1.
  { unfold entries. change (used s1) with (used s + 1). change (cur_array s1) with (cur_array s). unfold entries_of.
    rewrite seqZ_app, fmap_app by lia. cbn [fmap list_fmap seqZ]. done. }
  gpt_step. gpt_step. eapply wp_mono; [apply (write_entry_works accesses_succeed array s1 (used s) e (fun _ _ => False) (fun _ _ => False))|..];
    cbn beta; [done|change (used s1) with (used s + 1); lia|done| |by intros ? ? []..].
  intros _ s2 (Hinv2 & Hk2 & He2). gpt_auto.
  eapply wp_mono; [by apply (settle_works array s2 (fun _ _ => False) (fun _ _ => False))|..]; cbn beta; [|by intros ? ? []..].
  intros _ s3 [Hun Hw]. gpt_step. split; [done|]. split; [apply Hun|]. split; [done|]. split.
  - apply (kept_trans array s1 s2); [apply Hinv1|apply Hinv2|done|apply Hun].
  - rewrite (proj1 (unchanged_entries array s2 s3 Hinv2 Hun)), He2, He1.
    pose proof (length_entries_of (cur_array s) (used s) ltac:(lia)) as Hlen. unfold entries in *.
    rewrite insert_app_r_alt by lia. replace (Z.to_nat (used s) - length (entries_of (cur_array s) (used s)))%nat with O by lia. done.
Qed.

(** Why a partition is not created. *)
Definition refused s (start size : Z) (n : bytes) (err : Z) : Prop :=
  err = PSA_ERROR_INSUFFICIENT_STORAGE /\ (s.(gs_plat_max_partitions) <= used s \/ start = 0) \/
  err = PSA_ERROR_INVALID_ARGUMENT /\
    (size = 0 \/ nth 0 n 0 = 0 \/ start = 0 \/ start < (hdr s).(first_lba) \/ (hdr s).(last_lba) < start + size - 1 \/
     Exists (fun e => e.(GptTypes.start) <= start + size - 1 /\ start <= e.(end_)) (entries s)) \/
  err = PSA_ERROR_STORAGE_FAILURE.   (* no random identifier *)

Definition declined array s (start size : Z) (n : bytes) (err : Z) s' : Prop :=
  gpt_inv array s' /\ kept s s' /\ entries s' = entries s /\ refused s start size n err.

Lemma declined_unchanged array s s' start size n err : gpt_inv array s -> unchanged array s s' -> refused s start size n err ->
  declined array s start size n err s'.
Proof. intros Hinv Hun Hr. split; [apply Hun|]. split; [apply Hun|]. split; [by apply (unchanged_entries array s s')|done]. Qed.

End Create.
