(* ===== verification/GptValid.v ===== *)
(** Partition tables: which tables the library accepts.

    [table_valid] is the condition of the format, and [validate_table] decides it.  A copy
    that an interrupted write leaves whole satisfies it; a copy with one byte changed in
    its header or in its entries does not. *)

From stdpp Require Import base list numbers sets.
From S2P Require Import Prelude GptTypes GptIo Gpt GptBytes GptLaws GptFlush GptInv GptOps GptEdit.

(** ** The bytes of a header *)

Lemma header_field_bytes l : length l = 92%nat -> is_bytes l ->
  header_bytes (header_of l) = l /\
  header_bytes (set_header_crc 0 (header_of l)) = slice l 0 16 ++ le32 0 ++ slice l 20 72.
Proof.
  intros Hl Hb. unfold header_of, set_header_crc, header_bytes.
  cbn [signature revision size header_crc reserved current_lba backup_lba first_lba last_lba flash_guid array_lba
    num_partitions entry_size array_crc].
  rewrite !le64_slice, !le32_slice by (done || lia). split.
  - rewrite !slice_slice_app. by apply slice_all.
  - rewrite !slice_slice_app, (app_assoc (slice l 8 4)), slice_slice_app, (app_assoc (slice l 0 8)), slice_slice_app. done.
Qed.

(** One byte changed. *)
Lemma slice_insert (l : bytes) o b i n : (i + n <= length l)%nat ->
  slice (<[o := b]> l) i n = if decide (i <= o < i + n)%nat then <[(o - i)%nat := b]> (slice l i n) else slice l i n.
Proof.
  intros Hl. apply list_eq. intros k. destruct (decide (k < n)%nat) as [Hk|Hk].
  - rewrite lookup_slice by done. destruct (decide (i + k = o)%nat) as [<-|Hne].
    + rewrite list_lookup_insert_eq by lia. rewrite decide_True by lia. replace (i + k - i)%nat with k by lia.
      rewrite list_lookup_insert_eq; [done|]. rewrite length_slice; lia.
    + rewrite list_lookup_insert_ne by done. destruct (decide _); [rewrite list_lookup_insert_ne by lia|]; by rewrite lookup_slice.
  - rewrite lookup_ge_None_2 by (rewrite length_slice; rewrite ?length_insert; lia).
    rewrite lookup_ge_None_2; [done|]. destruct (decide _); rewrite ?length_insert, length_slice; lia.
Qed.

Lemma crc32_detects_insert c l o b b0 : is_bytes l -> is_u8 b -> l !! o = Some b0 -> b <> b0 ->
  efi_soft_crc32_update c (<[o := b]> l) <> efi_soft_crc32_update c l.
Proof.
  intros Hl Hb Ho Hne E. apply Hne. pose proof (lookup_lt_Some _ _ _ Ho).
  rewrite insert_take_drop in E by done. rewrite <- (take_drop_middle l o b0 Ho) in E at 3.
  apply crc32_detects_byte in E; [done|by apply Forall_take|by apply Forall_drop|done|].
  by eapply Forall_lookup_1 in Ho.
Qed.

Lemma header_byte_detected l o b b0 : length l = 92%nat -> is_bytes l -> is_u8 b -> l !! o = Some b0 -> b <> b0 ->
  (header_of l).(header_crc) = header_checksum (header_of l) ->
  (header_of (<[o := b]> l)).(header_crc) <> header_checksum (header_of (<[o := b]> l)).
Proof.
  intros Hl Hb Hu Ho Hne Hcrc E. pose proof (lookup_lt_Some _ _ _ Ho) as Hlt. set (l' := <[o := b]> l) in *.
  assert (length l' = 92%nat) as Hl' by (unfold l'; by rewrite length_insert).
  assert (is_bytes l') as Hb' by (by apply Forall_insert).
  unfold header_checksum in *. rewrite (proj2 (header_field_bytes l Hl Hb)) in Hcrc. rewrite (proj2 (header_field_bytes l' Hl' Hb')) in E.
  assert (forall m, length m = 92%nat -> is_bytes m -> le32 (header_of m).(header_crc) = slice m 16 4) as Hfield.
  { intros m Hm Hmb. apply le32_slice; [done|lia]. }
  assert (is_bytes (slice l 0 16 ++ le32 0 ++ slice l 20 72)) as Hz.
  { apply Forall_app_2; [by apply is_bytes_slice|]. apply Forall_app_2; [apply le32_bytes|by apply is_bytes_slice]. }
  destruct (decide (16 <= o < 20)%nat) as [Hin|Hout].
  - unfold l' in E at 2 3. rewrite !slice_insert, !decide_False in E by lia. rewrite <- Hcrc in E.
    apply (f_equal le32) in E. rewrite !Hfield in E by done. unfold l' in E. rewrite slice_insert, decide_True in E by lia.
    apply (f_equal (fun m => m !! (o - 16)%nat)) in E.
    rewrite list_lookup_insert_eq, lookup_slice in E by (rewrite ?length_slice; lia).
    replace (16 + (o - 16))%nat with o in E by lia. congruence.
  - assert ((header_of l').(header_crc) = (header_of l).(header_crc)) as Hsame.
    { assert (le32 (header_of l').(header_crc) = le32 (header_of l).(header_crc)) as Heq.
      { rewrite !Hfield by done. unfold l'. by rewrite slice_insert, decide_False by lia. }
      apply (f_equal (fun m => of_le32 (m ++ []))) in Heq. rewrite !of_le32_le32 in Heq; [done|..]; apply of_le32_range, Forall_drop; done. }
    rewrite Hsame, Hcrc in E. symmetry in E. revert E.
    assert (slice l' 0 16 ++ le32 0 ++ slice l' 20 72 = <[o := b]> (slice l 0 16 ++ le32 0 ++ slice l 20 72)) as ->.
    { unfold l'. rewrite !slice_insert by lia. destruct (decide (0 <= o < 0 + 16)%nat), (decide (20 <= o < 20 + 72)%nat); try lia.
      - rewrite insert_app_l by (rewrite length_slice; lia). by rewrite Nat.sub_0_r.
      - rewrite insert_app_r_alt by (rewrite length_slice; lia). rewrite insert_app_r_alt by (rewrite length_slice, le32_length; lia).
        rewrite length_slice, le32_length by lia. by replace (o - 16 - 4)%nat with (o - 20)%nat by lia. }
    apply (crc32_detects_insert _ _ _ _ b0); try done.
    destruct (decide (o < 16)%nat).
    + rewrite lookup_app_l, lookup_slice by (rewrite ?length_slice; lia). done.
    + rewrite lookup_app_r by (rewrite length_slice; lia). rewrite lookup_app_r by (rewrite length_slice, le32_length; lia).
      rewrite length_slice, le32_length by lia. rewrite lookup_slice by lia. rewrite <- Ho. f_equal. lia.
Qed.

Section Valid.
Context {X : Type} {gbuild : GptBuild} {grand : GptRandom X} {gflash : GptFlash X} {gbuild_ok : GptBuildOk}.
Abbreviation GPT := (M (gpt_state X)).
Implicit Types (s : gpt_state X) (x : X) (p : gpt_ptr) (t : gpt_t) (f g arr : Z -> bytes) (h : gpt_header_t) (array : Z) (ess : list (list gpt_entry_t)).

(** What a test of the code has found. *)
Ltac found :=
  repeat match goal with
  | H : negb (bytes_eqb _ _) = true |- _ => apply negb_true_iff, bool_decide_eq_false in H
  | H : negb (bytes_eqb _ _) = false |- _ => apply negb_false_iff, bool_decide_eq_true in H
  | H : negb (_ =? _) = true |- _ => apply negb_true_iff, Z.eqb_neq in H
  | H : negb (_ =? _) = false |- _ => apply negb_false_iff, Z.eqb_eq in H
  | H : (_ <=? _) = true |- _ => apply Z.leb_le in H
  | H : (_ <=? _) = false |- _ => apply Z.leb_gt in H
  | H : (_ >=? _) = true |- _ => rewrite Z.geb_leb in H; apply Z.leb_le in H
  | H : (_ >=? _) = false |- _ => rewrite Z.geb_leb in H; apply Z.leb_gt in H
  end.

(** The header in block [lba] for the array [arr]. *)
Record table_valid (is_primary : bool) (lba : Z) arr h : Prop := {
  tv_signature : h.(signature) = GPT_SIG;
  tv_header_crc : h.(header_crc) = header_checksum h;
  tv_lba : h.(current_lba) = lba;
  tv_entry_size : h.(entry_size) = GPT_ENTRY_SIZE;
  tv_array_crc : h.(array_crc) = crc_of arr h.(num_partitions);
  tv_placed :
    let array_end := h.(array_lba) + (h.(num_partitions) - 1) / per in
    let before lba := h.(first_lba) < lba /\ h.(last_lba) < lba /\ array_end < lba in
    if is_primary then h.(current_lba) < h.(backup_lba) /\ before h.(backup_lba) /\ array_end < h.(first_lba)
    else h.(backup_lba) < h.(current_lba) /\ before h.(current_lba) /\ h.(last_lba) < h.(array_lba);
}.

(** What is checked before the array is read. *)
Definition header_sound (lba : Z) h : Prop :=
  h.(signature) = GPT_SIG /\ h.(header_crc) = header_checksum h /\ h.(current_lba) = lba /\ h.(entry_size) = GPT_ENTRY_SIZE.
(** The array is on the device. *)
Definition array_fits h : Prop :=
  0 < h.(num_partitions) /\ 0 <= h.(array_lba) /\ h.(array_lba) + array_blocks h.(num_partitions) <= nblocks.

Definition lba_of (is_primary : bool) s : Z := if is_primary then PRIMARY_GPT_LBA else s.(gs_backup_gpt_lba).

(** A refusal, or a read that failed. *)
Definition refuses (valid : Prop) s (e : Z) s' : Prop :=
  agree_off nowhere (blk s) (blk s') /\
  (e = PSA_ERROR_STORAGE_FAILURE /\ access_can_fail = true \/
   (e = PSA_ERROR_INVALID_SIGNATURE \/ e = PSA_ERROR_NOT_SUPPORTED) /\ ~ valid).

Lemma refuses_now (valid : Prop) s e s' : agree_off nowhere (blk s) (blk s') ->
  (e = PSA_ERROR_INVALID_SIGNATURE \/ e = PSA_ERROR_NOT_SUPPORTED) -> (valid -> False) -> refuses valid s e s'.
Proof. intros Ha He Hv. split; [done|]. by right. Qed.

(** The last entry is in the last block. *)
Lemma array_end_lba t : header_ok t.(header) -> array_fits t.(header) ->
  partition_entry_lba t (u32 (t.(header).(num_partitions) - 1)) = t.(header).(array_lba) + (t.(header).(num_partitions) - 1) / per.
Proof.
  intros (_&_&_&_&_&_&_&_&_&_&_&_&Hnp&_) (Hpos & HB & Hfit). unfold is_u32 in Hnp. unfold partition_entry_lba. fold per.
  rewrite u32_small by (unfold is_u32; lia). unfold array_blocks in Hfit. pose proof per_pos.
  assert (0 <= (t.(header).(num_partitions) - 1) / per) by (apply Z.div_pos; lia). pose proof nblocks_range.
  apply Z.mod_small. lia.
Qed.

Lemma u64_lnot (z : Z) : is_u64 z -> u64 (Z.lnot z) = 2 ^ 64 - 1 - z.
Proof. unfold is_u64, u64, Z.lnot. intros. symmetry. apply (Z.mod_unique _ _ (-1)); lia. Qed.

(** The answers of [validate_table], for a device whose accesses may fail. *)
Lemma validate_spec p is_primary t s : clean s -> tbl p s = Some t -> header_ok t.(header) ->
  (header_sound (lba_of is_primary s) t.(header) ->
     array_fits t.(header) /\ coherent (in_array t.(header).(array_lba) t.(header).(num_partitions)) s) ->
  let valid := table_valid is_primary (lba_of is_primary s) (array_at t.(header).(array_lba) (blk s)) t.(header) in
  wp (validate_table p is_primary)
    (fun _ s' => valid /\ agree_off nowhere (blk s) (blk s') /\ tbl p s' = Some t /\
       (if is_primary then s'.(gs_primary_array_lba) else s'.(gs_backup_array_lba)) = t.(header).(array_lba))
    (refuses valid s)
    (failed nowhere s) s.
Proof.
  cbv zeta. intros Hc Ht Hh Hfit. set (h := t.(header)) in *. unfold validate_table.
  gpt_step. apply (wp_table_at p t); [done|]. fold h.
  set (valid := table_valid _ _ _ _). pose proof (agree_off_refl nowhere (blk s)) as Hsame.
  gpt_auto; found; [apply refuses_now; [done|tauto|]; by intros []..|].
  destruct Hfit as [(Hnp & HB & Hfit) Hcoh]; [by split_and!|].
  eapply wp_mono; [eapply (array_crc_clean 1 p t); try done|..]; cbn beta.
  2: { intros e s' [-> [Hf Ha]]. split; [done|]. by left. }
  2: done.
  fold h. intros crc s' (-> & x' & Ha & ->). set (s' := set_io _ _ _ s).
  assert (tbl p s' = Some t) as Ht' by (unfold s'; by rewrite tbl_set_io).
  gpt_step. apply (wp_table_at p t); [done|]. fold h. rewrite array_end_lba by done. fold h.
  unfold validate_backup_gpt_lba, validate_array_lba.
  assert (is_u64 h.(array_lba) /\ is_u64 h.(last_lba)) as [Har Hla] by (unfold header_ok in Hh; tauto).
  rewrite !u64_lnot by done. gpt_step. apply wp_fail_if; intros Hcrc; found; [by apply refuses_now; [done|tauto|intros []]|].
  assert (forall q, q -> (valid -> q -> False) -> refuses valid s PSA_ERROR_INVALID_SIGNATURE s') as Hno.
  { intros q Hq Hv. apply refuses_now; [done|tauto|auto]. }
  destruct is_primary; gpt_auto; found.
  all: try (eapply Hno; [eassumption|]; intros [_ _ _ _ _ Hpl]; cbn in Hpl; lia).
  all: split; [by split; [..|cbn; lia]|by split_and!; [|destruct p|]].
Qed.

(** ** What an interrupted write leaves *)

(** A valid table with its header in block [lba], whose array is [arr]. *)
Definition valid_copy (is_primary : bool) (lba : Z) g arr : Prop :=
  let h := header_of (slice (g lba) 0 GPT_HEADER_SIZE) in
  table_valid is_primary lba (array_at h.(array_lba) g) h /\
  forall k, 0 <= k < array_blocks h.(num_partitions) -> array_at h.(array_lba) g k = arr k.

(** One of the copies is valid, and has the entries of one of the lists [ess]. *)
Definition survives {A} s (ess : list (list gpt_entry_t)) : A -> gpt_state X -> Prop := fun _ s' =>
  access_can_fail = true /\ exists is_primary arr,
    valid_copy is_primary (if is_primary then PRIMARY_GPT_LBA else (hdr s).(backup_lba)) (blk s') arr /\
    entries_of arr (used s) ∈ ess.

Lemma copy_valid array s arr g : gpt_core array s ->
  (holds_copy (hdr s) arr g -> valid_copy true PRIMARY_GPT_LBA g arr) /\
  (holds_copy (backup_of array (hdr s)) arr g -> valid_copy false (hdr s).(backup_lba) g arr).
Proof.
  intros Hcore. pose proof (gc_layout _ _ Hcore) as [Hh Hsig Hes Hcur Hnp Ha Hf Hl Hb].
  pose proof (array_blocks_pos _ Hnp) as Hm. unfold array_blocks in *. split; intros [Hhd Har]; unfold valid_copy.
  - rewrite Hcur in Hhd. rewrite Hhd. split; [|exact Har]. split; try done.
    + cbn. symmetry. by apply crc_of_ext.
    + cbv zeta. cbn. lia.
  - change (current_lba (backup_of array (hdr s))) with (hdr s).(backup_lba) in Hhd. rewrite Hhd.
    split; [|exact Har]. split; try done.
    + cbn. symmetry. by apply crc_of_ext.
    + cbv zeta. cbn. lia.
Qed.

(** What the entries of the arrays of an interrupted operation are. *)
Lemma interrupted_survives {A} array s (P : (Z -> bytes) -> Prop) ess (a : A) s' : gpt_core array s ->
  (forall arr, P arr -> exists arr', same_array s arr arr' /\ entries_of arr' (used s) ∈ ess) ->
  interrupted array s P a s' -> survives s ess a s'.
Proof.
  intros Hcore HP [Hf (arr & Harr & Hc)]. destruct (HP arr Harr) as (arr' & Hsame & Hin). pose proof (gc_used _ _ Hcore) as Hu.
  rewrite <- (same_array_entries array s arr arr') in Hin by (done || lia).
  destruct (copy_valid array s arr (blk s') Hcore) as [Hp Hb]. split; [done|].
  destruct Hc as [Hc|Hc]; [exists true, arr|exists false, arr]; split; auto.
Qed.

(** What is in the flash, before the buffer is written out. *)
Definition flash_entries s : list gpt_entry_t := entries_of (flash_array s) (used s).

Lemma either_entries array s arr ess : gpt_core array s -> either_array s arr -> flash_entries s ∈ ess -> entries s ∈ ess ->
  exists arr', same_array s arr arr' /\ entries_of arr' (used s) ∈ ess.
Proof. intros Hcore [H|H] Hf He; [by exists (flash_array s)|by exists (cur_array s)]. Qed.

(** C28: whatever access fails, and whenever power is lost, one of the two copies on the
    flash is a valid table (signature, place, and both checksums), and its entries are
    those the flash had, those in force, or those with the entry written: while an entry
    is read, while one is written, and while the buffer is written out. *)
Theorem interrupted_access_survives array s i e : gpt_inv array s -> 0 <= i < used s -> entry_ok e ->
  let written := <[Z.to_nat i := e]> (entries s) in
  wp (read_entry_from_flash CachedGpt i)
    (fun e' s' => entries s !! Z.to_nat i = Some e' /\ gpt_inv array s' /\ entries s' = entries s)
    (survives s [flash_entries s; entries s]) (survives s [flash_entries s; entries s]) s /\
  wp (write_entry CachedGpt i e)
    (fun _ s' => gpt_inv array s' /\ entries s' = written)
    (survives s [flash_entries s; entries s; written]) (survives s [flash_entries s; entries s; written]) s /\
  (s.(gs_write_buffered) = true ->
   wp (flush_lba_buf CachedGpt)
    (fun _ s' => gpt_inv array s' /\ entries s' = entries s /\ flash_entries s' = entries s)
    (survives s [flash_entries s; entries s]) (survives s [flash_entries s; entries s]) s).
Proof.
  cbv zeta. intros Hinv Hi He. pose proof Hinv as (Hcore & _). pose proof (gc_used _ _ Hcore) as Hu. split; [|split].
  - eapply wp_mono; [apply (read_entry_spec array s i); [done|lia]|..]; cbn beta.
    + intros e' s' (-> & Hinv' & Hk & _ & Ha). split; [by apply entries_lookup|]. split; [done|]. by eapply entries_kept.
    + intros e' s'. apply (interrupted_survives array); [done|]. intros arr Harr. eapply either_entries; [done..| |]; set_solver.
    + intros e' s'. apply (interrupted_survives array); [done|]. intros arr Harr. eapply either_entries; [done..| |]; set_solver.
  - assert (entries_of (with_entry (cur_array s) i e) (used s) = <[Z.to_nat i := e]> (entries s)) as Hnew by (by eapply entries_with_entry).
    eapply wp_mono; [by apply (write_entry_spec array s i e)|..]; cbn beta.
    + intros _ s' (Hinv' & Hk & Ha). split; [done|]. unfold entries at 1. rewrite (kp_used _ _ Hk), <- Hnew.
      eapply same_array_entries; [done..|lia].
    + intros a s'. apply (interrupted_survives array); [done|]. intros arr [Harr|Harr]; [eapply either_entries; [done..| |]; set_solver|].
      exists (with_entry (cur_array s) i e). rewrite Hnew. set_solver.
    + intros a s'. apply (interrupted_survives array); [done|]. intros arr [Harr|Harr]; [eapply either_entries; [done..| |]; set_solver|].
      exists (with_entry (cur_array s) i e). rewrite Hnew. set_solver.
  - intros Hw. pose proof (inv_dirty_block _ _ Hinv Hw) as Hk.
    assert (forall A (a : A) s', half_written array (hdr s) (s.(gs_cached_lba) - (hdr s).(array_lba)) s.(gs_lba_buf) s a s' ->
      survives s [flash_entries s; entries s] a s') as Hhalf.
    { intros A a s' Hh. eapply (interrupted_survives array s (either_array s)); [done| |].
      - intros arr Harr. eapply either_entries; [done..| |]; set_solver.
      - eapply (half_interrupted array s); [done|done|apply Hinv| |exact Hh]. intros arr [?|Ha]; [by left|right].
        unfold cur_array. by rewrite Hw. }
    eapply wp_mono; [by apply (flush_spec 1 array s)|..]; cbn beta; [|apply Hhalf..].
    intros _ s' (Hinv' & Hw' & Hkept & Ha). split; [done|].
    assert (same_array s (flash_array s') (cur_array s)) as Hs by done.
    assert (flash_entries s' = entries s) as Hfe.
    { unfold flash_entries. rewrite (kp_used _ _ Hkept). eapply same_array_entries; [done..|lia]. }
    split; [|done]. rewrite <- Hfe. unfold entries, flash_entries. by rewrite cur_clean.
Qed.

(** ** Corruption *)

(** The checksum of the entries is that of their bytes one after the other. *)
Lemma crc_of_concat f n : (forall k, buf_ok (f k)) -> crc_of f n = efi_soft_crc32_update 0 (concat (ent f <$> seqZ 0 n)).
Proof.
  intros Hf. destruct (Z.le_gt_cases n 0). { unfold crc_of. rewrite seqZ_nil by done. by vm_compute. }
  assert (0 <= n) as Hn by lia. revert n Hn H. apply (natlike_ind (fun n => 0 < n -> crc_of f n = efi_soft_crc32_update 0 (concat (ent f <$> seqZ 0 n)))); [lia|].
  intros n Hn IH _. unfold Z.succ. rewrite crc_of_step, seqZ_app by lia. change (seqZ (0 + n) 1) with [0 + n].
  rewrite fmap_app, concat_app, Z.add_0_l. simpl concat. rewrite app_nil_r.
  assert (is_bytes (concat (ent f <$> seqZ 0 n))) as Hb.
  { apply Forall_concat, Forall_fmap, Forall_true. intros i. by apply ent_ok. }
  rewrite <- crc32_app; [|done|done|by apply ent_ok]. f_equal. destruct (Z.eq_dec n 0) as [->|]; [by vm_compute|apply IH; lia].
Qed.

Lemma entry_byte_detected f f' n i o b b0 : (forall k, buf_ok (f k)) -> (forall k, buf_ok (f' k)) -> 0 <= i < n ->
  (forall j, 0 <= j < n -> ent f' j = if decide (j = i) then <[o := b]> (ent f i) else ent f j) ->
  ent f i !! o = Some b0 -> is_u8 b -> b <> b0 -> crc_of f' n <> crc_of f n.
Proof.
  intros Hf Hf' Hi Hent Ho Hb Hne. rewrite !crc_of_concat by done.
  assert (seqZ 0 n = seqZ 0 i ++ i :: seqZ (i + 1) (n - i - 1)) as ->.
  { replace n with (i + (1 + (n - i - 1))) at 1 by lia. by rewrite seqZ_app, seqZ_app by lia. }
  assert (ent f' <$> seqZ 0 i = ent f <$> seqZ 0 i) as E1.
  { apply list_fmap_ext. intros k j Hk. apply lookup_seqZ in Hk. rewrite Hent, decide_False by lia. done. }
  assert (ent f' <$> seqZ (i + 1) (n - i - 1) = ent f <$> seqZ (i + 1) (n - i - 1)) as E2.
  { apply list_fmap_ext. intros k j Hk. apply lookup_seqZ in Hk. rewrite Hent, decide_False by lia. done. }
  rewrite !fmap_app, !fmap_cons, !concat_app, E1, E2. simpl concat. rewrite Hent, decide_True by (done || lia).
  set (l1 := concat _). set (l2 := concat _).
  assert (is_bytes l1 /\ is_bytes l2) as [H1 H2].
  { split; apply Forall_concat, Forall_fmap, Forall_true; intros j; by apply ent_ok. }
  rewrite <- (insert_app_l _ l2) by (by eapply lookup_lt_Some).
  replace (l1 ++ <[o := b]> (ent f i ++ l2)) with (<[(length l1 + o)%nat := b]> (l1 ++ ent f i ++ l2)).
  2: { rewrite insert_app_r. done. }
  apply (crc32_detects_insert _ _ _ _ b0); [|done| |done].
  - apply Forall_app_2; [done|]. apply Forall_app_2; [by apply ent_ok|done].
  - rewrite lookup_app_r by lia. replace (length l1 + o - length l1)%nat with o by lia. rewrite lookup_app_l; [done|]. by eapply lookup_lt_Some.
Qed.

Lemma read_header_ok b : buf_ok b -> header_ok (header_of (slice b 0 GPT_HEADER_SIZE)).
Proof.
  intros [Hl Hb]. pose proof block_size_range. assert (length (slice b 0 GPT_HEADER_SIZE) = 92%nat) as Hh by (apply length_slice; change GPT_HEADER_SIZE with 92%nat; lia).
  assert (is_bytes (slice b 0 GPT_HEADER_SIZE)) as Hhb by (by apply is_bytes_slice). revert Hh Hhb. generalize (slice b 0 GPT_HEADER_SIZE). intros l Hh Hhb.
  unfold header_ok, guid_ok, header_of. cbn [signature revision size header_crc reserved current_lba backup_lba first_lba last_lba
    flash_guid array_lba num_partitions entry_size array_crc]. rewrite !length_slice by lia.
  split_and!; try done; try (by apply is_bytes_slice); first [by apply of_le64_range, Forall_drop|by apply of_le32_range, Forall_drop].
Qed.

(** Byte [o] of block [l] belongs to the table: to the header in block [lba] or to one of
    its entries. *)
Definition table_byte (lba : Z) h (l : Z) (o : nat) : Prop :=
  l = lba /\ (o < GPT_HEADER_SIZE)%nat \/
  exists i, 0 <= i < h.(num_partitions) /\ l = h.(array_lba) + i / per /\ (entry_offset i <= o < entry_offset i + 128)%nat.
Definition poke g (l : Z) (o : nat) (b : Z) : Z -> bytes := upd_block g l (<[o := b]> (g l)).

Lemma poke_ok g l o b k : (forall l, buf_ok (g l)) -> is_u8 b -> buf_ok (poke g l o b k).
Proof.
  intros Hg Hb. unfold poke, upd_block. destruct (_ =? _); [|done]. destruct (Hg l) as [Hl Hbs]. split; [by rewrite length_insert|].
  by apply Forall_insert.
Qed.

Lemma poked_entry g l o b B n i j : 0 <= i < n -> 0 <= j < n -> (forall l, buf_ok (g l)) -> l = B + i / per ->
  (entry_offset i <= o < entry_offset i + 128)%nat ->
  ent (array_at B (poke g l o b)) j =
    if decide (j = i) then <[(o - entry_offset i)%nat := b]> (ent (array_at B g) i) else ent (array_at B g) j.
Proof.
  intros Hi Hj Hg -> Ho. destruct (Hg (B + i / per)) as [Hl _]. pose proof (entry_offset_fits i) as Hfi. pose proof (entry_offset_fits j) as Hfj.
  unfold ent, array_at, poke, upd_block. destruct (Z.eqb_spec (B + j / per) (B + i / per)) as [E|E].
  2: { destruct (decide (j = i)) as [->|]; [lia|done]. }
  rewrite slice_insert by lia. destruct (decide (j = i)) as [->|Hne]; [by rewrite decide_True by lia|]. rewrite E.
  rewrite decide_False; [done|]. pose proof (entry_offset_Z i). pose proof (entry_offset_Z j).
  assert (i mod per <> j mod per) as Hmod.
  { intros Em. apply Hne. rewrite (Z_div_mod_eq_full j per), (Z_div_mod_eq_full i per), Em. f_equal. f_equal. lia. }
  lia.
Qed.

(** C31: a copy of the table with one byte changed, anywhere in its header or in its
    entries and to any other value, is refused: [validate_table] does not succeed on it. *)
Theorem corruption_rejected p is_primary t s g l o b b0 : clean s -> tbl p s = Some t ->
  let lba := lba_of is_primary s in let h := header_of (slice (g lba) 0 GPT_HEADER_SIZE) in
  (forall k, buf_ok (g k)) -> table_valid is_primary lba (array_at h.(array_lba) g) h -> array_fits h -> ~ in_array h.(array_lba) h.(num_partitions) lba ->
  table_byte lba h l o -> g l !! o = Some b0 -> is_u8 b -> b <> b0 ->
  (forall k, blk s k = poke g l o b k) -> t.(header) = header_of (slice (blk s lba) 0 GPT_HEADER_SIZE) ->
  coherent (in_array h.(array_lba) h.(num_partitions)) s ->
  wp (validate_table p is_primary) (fun _ _ => False)
    (fun e _ => e = PSA_ERROR_INVALID_SIGNATURE \/ e = PSA_ERROR_NOT_SUPPORTED \/
                e = PSA_ERROR_STORAGE_FAILURE /\ access_can_fail = true)
    (fun _ _ => access_can_fail = true) s.
Proof.
  cbv zeta. intros Hc Ht Hg Hv Hfit Hsep Hbyte Ho Hb Hne Hblk Hth Hcoh. set (lba := lba_of is_primary s) in *.
  set (h := header_of (slice (g lba) 0 GPT_HEADER_SIZE)) in *. pose proof block_size_range.
  assert (forall k, buf_ok (blk s k)) as Hbuf by (intros; rewrite Hblk; by apply poke_ok).
  assert (t.(header).(header_crc) <> header_checksum t.(header) \/
    t.(header) = h /\ crc_of (array_at h.(array_lba) (blk s)) h.(num_partitions) <> h.(array_crc)) as Hbad.
  { rewrite Hth, Hblk. destruct Hbyte as [[-> Hol]|(i & Hi & Hl & Hoi)].
    - left. unfold poke. rewrite upd_block_same, slice_insert, decide_True, Nat.sub_0_r by (destruct (Hg lba); change GPT_HEADER_SIZE with 92%nat in *; lia).
      apply (header_byte_detected _ _ _ b0); [| |done| |done|apply Hv].
      + apply length_slice. destruct (Hg lba). change GPT_HEADER_SIZE with 92%nat. lia.
      + by apply is_bytes_slice, Hg.
      + by rewrite lookup_slice.
    - right. pose proof (entry_block_range _ _ Hi). unfold poke. rewrite upd_block_other by (intros E; apply Hsep; unfold in_array; lia).
      split; [done|]. rewrite (tv_array_crc _ _ _ _ Hv).
      apply (entry_byte_detected _ _ _ i (o - entry_offset i)%nat b b0); try done.
      + intros k. apply Hg.
      + intros k. apply Hbuf.
      + intros j Hj. rewrite <- (poked_entry g l o b _ _ i j Hi Hj Hg Hl Hoi). unfold ent, array_at. by rewrite Hblk.
      + unfold ent, array_at. rewrite <- Hl, lookup_slice by lia. rewrite <- Ho. f_equal. lia. }
  eapply wp_mono; [apply (validate_spec p is_primary t s); [done|done|by rewrite Hth; apply read_header_ok|]|..]; cbn beta.
  - intros (_ & Hcrc & _). destruct Hbad as [Hbad|[-> _]]; [by destruct Hbad|done].
  - intros _ s' [Hval _]. destruct Hbad as [Hbad|[Eh Hbad]]; [by apply Hbad, Hval|]. apply Hbad. rewrite Eh in Hval. symmetry. apply Hval.
  - intros e s' [_ Hr]. tauto.
  - by intros h' s' [Hf _].
Qed.
End Valid.
