(* ===== verification/GptMove.v ===== *)
(** Partition tables: moving the blocks of a partition. *)

From stdpp Require Import base list numbers.
From S2P Require Import Prelude GptTypes GptIo Gpt GptBytes GptLaws GptFlush.

Section Move.
Context {X : Type} {gbuild : GptBuild} {grand : GptRandom X} {gflash : GptFlash X} {gbuild_ok : GptBuildOk}.
Abbreviation GPT := (M (gpt_state X)).
Implicit Types (s : gpt_state X) (x : X).

Definition erased : bytes := replicate (Z.to_nat TFM_GPT_BLOCK_SIZE) 255.

(** An access that failed. *)
Definition fault {E} : E -> gpt_state X -> Prop := fun _ _ => access_can_fail = true.

(** A write without an erase, to a block that is erased. *)
Lemma write_erased_spec lba s : s.(gs_driver) = Some flash_driver -> buf_ok s.(gs_lba_buf) -> 0 <= lba < nblocks ->
  blk s lba = erased ->
  wp (write_to_flash lba true) (fun _ s' => exists x', s' = set_world x' s /\ stored_at lba s.(gs_lba_buf) (blk s) (blocks x'))
    fault fault s.
Proof.
  intros Hd Hb Hl He. unfold write_to_flash. gpt_auto. apply driver_write_spec; [done|done|..].
  2: { by intros. }
  intros r x' Ho Hw. gpt_auto.
  - apply negb_true_iff in H. rewrite H in Hw. by apply Hw.
  - apply negb_false_iff in H. rewrite H in Hw. exists x'. split; [done|]. split; [|done]. fold (blk s) in Hw.
    rewrite Hw, He. apply program_erased; [|apply Hb]. destruct Hb. lia.
Qed.

(** One block. *)
Lemma move_lba_spec src dst (skip : bool) s : clean s -> 0 <= src < nblocks -> 0 <= dst < nblocks ->
  coherent (eq src) s -> (skip = true -> blk s dst = erased) ->
  wp (move_lba src dst skip)
    (fun _ s' => exists x', s' = set_io x' (blk s src) src s /\ forall l, blocks x' l = upd_block (blk s) dst (blk s src) l)
    fault fault s.
Proof.
  intros Hc Hs Hdst Hcoh Hskip. unfold move_lba. gpt_step. eapply wp_mono; [by apply (read_clean 1 src s)|..]; cbn beta.
  2: by intros e s' [_ [Hf _]].
  2: by intros e s' [Hf _].
  intros _ s1 (x1 & Ha & Hs1).
  assert (exists x2, s1 = set_io x2 (blk s src) src s /\ agree_off nowhere (blk s) (blocks x2)) as (x2 & -> & Ha2).
  { destruct (Z.eqb_spec src s.(gs_cached_lba)) as [E|E]; [|by exists x1]. exists s.(gs_world). split; [|done].
    rewrite Hs1, E, <- Hcoh by done. by rewrite set_io_same. }
  set (s2 := set_io x2 (blk s src) src s).
  assert (clean s2) as (Hd2 & _ & Hb2) by (apply clean_io; [done|apply buf_ok_blk]).
  assert (forall x', stored_at dst s2.(gs_lba_buf) (blk s2) (blocks x') -> exists x'', set_world x' s2 = set_io x'' (blk s src) src s /\
    forall l, blocks x'' l = upd_block (blk s) dst (blk s src) l) as Hdone.
  { intros x' Hst. exists x'. split; [done|]. intros l. rewrite (stored_upd _ _ _ _ Hst l). apply upd_block_ext. by apply agree_nowhere. }
  destruct skip.
  - eapply wp_mono; [apply (write_erased_spec dst s2); [done|done|done|]|..]; cbn beta; [|by intros _ s' (x' & -> & Hst); apply Hdone|done..].
    rewrite <- (Hskip eq_refl). by apply agree_nowhere.
  - eapply wp_mono; [by apply (write_to_flash_spec dst s2)|..]; cbn beta.
    + intros _ s' (x' & -> & Hst). by apply Hdone.
    + by intros e s' [Hf _].
    + by intros e s' [Hf _].
Qed.

(** Blocks one after the other: none is overwritten before it is read. *)
Lemma move_blocks_spec (src dst : Z -> Z) (skip : Z -> bool) n s : 0 <= n -> clean s ->
  (forall i, 0 <= i < n -> 0 <= src i < nblocks /\ 0 <= dst i < nblocks) ->
  (forall i j, 0 <= j < i -> i < n -> dst j <> src i /\ dst j <> dst i /\ src j <> src i) ->
  (forall i, 0 <= i < n -> skip i = true -> blk s (dst i) = erased) -> coherent (eq (src 0)) s ->
  wp (for_range 0 n (fun i => _ ← move_lba (src i) (dst i) (skip i); mret (None : option unit)))
    (fun _ s' => clean s' /\ (forall i, 0 <= i < n -> blk s' (dst i) = blk s (src i)) /\
       agree_off (fun l => exists i, 0 <= i < n /\ l = dst i) (blk s) (blk s'))
    fault fault s.
Proof.
  intros Hn Hc Hdev Hsep Hskip Hcoh.
  apply (wp_for_range (fun i s' => clean s' /\ (forall j, 0 <= j < i -> blk s' (dst j) = blk s (src j)) /\
    agree_off (fun l => exists j, 0 <= j < i /\ l = dst j) (blk s) (blk s') /\ (i < n -> coherent (eq (src i)) s'))); [done|..].
  - split; [done|]. split; [lia|]. split; [|done]. apply agree_off_refl.
  - intros i s1 Hi (Hc1 & Hdone & Hoff & Hcoh1). destruct (Hdev i Hi) as [Hsrc Hdst].
    assert (blk s1 (src i) = blk s (src i)) as Hsi.
    { apply Hoff. intros (j & Hj & E). destruct (Hsep i j) as (? & ? & ?); [lia|lia|congruence]. }
    gpt_step. eapply wp_mono; [apply (move_lba_spec (src i) (dst i) (skip i) s1); try done; [apply Hcoh1; lia|]|..]; cbn beta; [| |done..].
    + intros Hsk. rewrite <- (Hskip i Hi Hsk). apply Hoff. intros (j & Hj & E). destruct (Hsep i j) as (? & ? & ?); [lia|lia|congruence].
    + intros _ s2 (x' & -> & Hx'). gpt_step. split; [done|]. rewrite Hsi in *.
      change (blk (set_io x' (blk s (src i)) (src i) s1)) with (blocks x').
      split; [apply clean_io; [done|apply buf_ok_blk]|]. split; [|split].
      * intros j Hj. rewrite Hx'. destruct (Z.eq_dec j i) as [->|]; [apply upd_block_same|].
        rewrite upd_block_other; [apply Hdone; lia|]. destruct (Hsep i j) as (? & ? & ?); [lia|lia|done].
      * intros l Hl. rewrite Hx', upd_block_other; [apply Hoff|]; [intros (j & Hj & ->)|intros ->]; apply Hl; [exists j|exists i]; split; (done || lia).
      * intros Hlt E. change (gs_cached_lba (set_io x' (blk s (src i)) (src i) s1)) with (src i) in E. exfalso.
        destruct (Hsep (i + 1) i) as (? & ? & ?); [lia|lia|congruence].
  - intros s1 (? & ? & ? & _). done.
Qed.

Lemma consecutive_erase_spec lba n s (Q : Z -> gpt_state X -> Prop) : s.(gs_driver) = Some flash_driver -> 0 < n < 2 ^ 31 ->
  (forall m x', agree_off (fun l => lba <= l < lba + n) (blk s) (blocks x') ->
     m = 0 \/ m = n /\ (forall l, lba <= l < lba + n -> blocks x' l = erased) -> Q m (set_world x' s)) ->
  wp (consecutive_erase lba n) Q fault fault s.
Proof.
  intros Hd Hn HQ. unfold consecutive_erase. rewrite u32_small by (unfold is_u32; lia).
  assert (s32 n = n) as -> by (unfold s32; rewrite u32_small by (unfold is_u32; lia); case_match; lia).
  gpt_step. apply driver_erase_spec; [done|..]; [|by intros].
  intros r x' Ha Hr. gpt_step. apply HQ; [done|]. destruct (r =? n); cbn; [by right|by left].
Qed.

(** What a move does. *)
Definition moved s (old_lba new_lba n : Z) s' : Prop :=
  clean s' /\ (forall k, 0 <= k < n -> blk s' (new_lba + k) = blk s (old_lba + k)) /\
  agree_off (fun l => new_lba <= l < new_lba + n) (blk s) (blk s').

Lemma moved_unbuffered s o w n s' : moved s o w n s' -> moved s o w n (set_write_buffered false s').
Proof. by intros ((? & ? & ?) & ? & ?). Qed.

(** The blocks in the order [pos], after [base] blocks of the target outside the source
    were erased, or some were. *)
Lemma move_after_erase s x' (old_lba new_lba n m base : Z) (pos src dst : Z -> Z) (skip : Z -> bool) : clean s -> 0 < n ->
  0 <= old_lba -> old_lba + n <= nblocks -> 0 <= new_lba -> new_lba + n <= nblocks -> base <= n ->
  (new_lba + base <= old_lba \/ old_lba + n <= new_lba) -> coherent (fun l => old_lba <= l < old_lba + n) s ->
  agree_off (fun l => new_lba <= l < new_lba + base) (blk s) (blocks x') ->
  m = 0 \/ m = base /\ (forall l, new_lba <= l < new_lba + base -> blocks x' l = erased) ->
  (forall i, 0 <= i < n -> 0 <= pos i < n /\ src i = old_lba + pos i /\ dst i = new_lba + pos i /\ (skip i = true -> pos i < m)) ->
  (forall i j, 0 <= j < i -> i < n -> pos j <> pos i /\ new_lba + pos j <> old_lba + pos i) ->
  (forall k, 0 <= k < n -> exists i, 0 <= i < n /\ k = pos i) ->
  wp (for_range 0 n (fun i => _ ← move_lba (src i) (dst i) (skip i); mret (None : option unit)))
    (fun _ => moved s old_lba new_lba n) fault fault (set_world x' s).
Proof.
  intros Hc Hn Ho Hon Hw Hwn Hbase Hapart Hcoh Ha Hm Hpos Hsep Hall. set (s1 := set_world x' s).
  assert (forall k, 0 <= k < n -> blk s1 (old_lba + k) = blk s (old_lba + k)) as Hsrc by (intros; apply Ha; lia).
  eapply wp_mono; [apply (move_blocks_spec src dst skip n s1)|..]; cbn beta; [lia|done|..].
  - intros i Hi. destruct (Hpos i Hi) as (? & -> & -> & _). lia.
  - intros i j Hj Hi. destruct (Hpos i ltac:(lia)) as (? & -> & -> & _), (Hpos j ltac:(lia)) as (? & -> & -> & _).
    destruct (Hsep i j Hj Hi). lia.
  - intros i Hi Hs. destruct (Hpos i Hi) as (? & _ & -> & Hlt). specialize (Hlt Hs).
    destruct Hm as [->|[-> He]]; [lia|]. apply He. lia.
  - destruct (Hpos 0 ltac:(lia)) as (? & -> & _). intros E.
    change (gs_lba_buf s1) with s.(gs_lba_buf). change (gs_cached_lba s1) with s.(gs_cached_lba) in *.
    rewrite <- E, Hsrc by done. rewrite E. apply Hcoh. lia.
  - intros _ s2 (Hc2 & Hd2 & Ho2). split; [done|]. split.
    + intros k Hk. destruct (Hall k Hk) as (i & Hi & ->). destruct (Hpos i Hi) as (Hp & Es & Ed & _).
      specialize (Hd2 i Hi). rewrite Es, Ed, Hsrc in Hd2 by done. exact Hd2.
    + intros l Hl. rewrite Ho2; [apply Ha; lia|]. intros (i & Hi & ->). destruct (Hpos i Hi) as (? & _ & Ed & _). lia.
  - done.
  - done.
Qed.

(** C32: moving the data of a partition down, or up to blocks it does not share with where
    it was, is exact: every block of the new place holds what the old one held, whether
    the blocks were erased together or one by one, and no other block changes.  Anything
    else is an access that failed. *)
Theorem move_data_exact s (old_lba new_lba n : Z) : clean s -> 0 < n < 2 ^ 31 ->
  0 <= old_lba -> old_lba + n <= nblocks -> 0 <= new_lba -> new_lba + n <= nblocks ->
  new_lba < old_lba \/ old_lba + n <= new_lba ->
  coherent (fun l => old_lba <= l < old_lba + n) s ->
  wp (move_partition_data old_lba new_lba n)
    (fun _ => moved s old_lba new_lba n) fault fault s.
Proof.
  intros Hc Hn Ho Hon Hnw Hnn Hdir Hcoh. pose proof nblocks_range. unfold move_partition_data.
  destruct (Z.eqb_spec old_lba new_lba); [lia|]. pose proof Hc as (Hd & Hw & Hb).
  assert (forall z, 0 <= z < nblocks -> u64 z = z) as Hu64 by (intros; apply Z.mod_small; lia).
  apply wp_bind. destruct (Z.ltb_spec old_lba new_lba) as [Hup|Hdown].
  - rewrite (Hu64 (old_lba + n - 1)) by lia. destruct (Z.ltb_spec (old_lba + n - 1) new_lba); [|lia].
    cbv zeta. rewrite Z.sub_diag, Z.add_0_r, (Hu64 new_lba) by lia.
    gpt_step. apply consecutive_erase_spec; [done|done|]. intros m x' Ha Hm.
    eapply wp_mono; [eapply (move_after_erase s x' old_lba new_lba n m n (fun k => n - k - 1)); try done; try lia|..]; cbn beta; [| | |done..].
    + intros i Hi. rewrite !Hu64 by lia. lia.
    + intros k Hk. exists (n - k - 1). lia.
    + intros _ s' Hmoved. gpt_step. by apply moved_unbuffered.
  - rewrite (Hu64 (new_lba + n - 1)) by lia. set (base := if new_lba + n - 1 <? old_lba then n else old_lba - new_lba).
    assert (0 < base <= n /\ new_lba + base <= old_lba) as Hbase by (unfold base; destruct (Z.ltb_spec (new_lba + n - 1) old_lba); lia).
    cbv zeta. gpt_step. apply consecutive_erase_spec; [done|lia|]. intros m x' Ha Hm.
    eapply wp_mono; [eapply (move_after_erase s x' old_lba new_lba n m base (fun k => k)); try done; try lia|..]; cbn beta; [| | |done..].
    + intros i Hi. rewrite !Hu64 by lia. lia.
    + intros k Hk. by exists k.
    + intros _ s' Hmoved. gpt_step. by apply moved_unbuffered.
Qed.
End Move.
