(* ===== verification/GptSample.v ===== *)
(** Partition tables: a NOR flash of 24 blocks, tables on it, and what the library does
    with them. *)

From stdpp Require Import base list numbers gmap sorting.
From S2P Require Import Prelude GptTypes GptIo Gpt GptBytes GptLaws GptFlush GptInv GptOps GptEdit GptValid GptMove.

(** ** The device *)

#[export] Instance sample_build : GptBuild := {| TFM_GPT_BLOCK_SIZE := 512; stack_u32 := 77 |}.
#[export] Instance sample_build_ok : GptBuildOk.
Proof. by split. Qed.

(** [budget] counts the accesses that still succeed; the one after them is answered with an
    error, and then power is lost. *)
Record nor := { cells : gmap Z bytes; budget : Z; seed : Z }.

#[export] Instance sample_random : GptRandom nor := {|
  psa_generate_random n := fun x =>
    (Val (replicate n (u8 x.(seed))), {| cells := x.(cells); budget := x.(budget); seed := x.(seed) + 1 |})
|}.

(** Blocks hold 512 bytes whatever was stored. *)
Definition as_block (b : bytes) : bytes := (fun i => u8 (nth i b 0)) <$> seq 0 512.
Definition nor_block (x : nor) (l : Z) : bytes := as_block (default [] (x.(cells) !! l)).
Definition on_device (lba n : Z) : bool := (0 <=? lba) && (0 <? n) && (lba + n <=? 24).

Definition access {A} (can_fail : bool) (ok : M nor A) (refused : A) : M nor A := fun x =>
  if can_fail && (x.(budget) =? 0) then (Val refused, {| cells := x.(cells); budget := -1; seed := x.(seed) |})
  else if can_fail && (x.(budget) <? 0) then (Halt PowerLoss, x)
  else ok {| cells := x.(cells); budget := x.(budget) - 1; seed := x.(seed) |}.
Definition set_cells (f : gmap Z bytes -> gmap Z bytes) : M nor unit :=
  modifyS (fun x => {| cells := f x.(cells); budget := x.(budget); seed := x.(seed) |}).

Definition nor_read (can_fail : bool) (lba : Z) (buf : bytes) : M nor (Z * bytes) :=
  access can_fail (x ← getS; mret (if on_device lba 1 then (512, nor_block x lba) else (-4, buf))) (-1, buf).
Definition nor_write (can_fail : bool) (lba : Z) (buf : bytes) : M nor Z :=
  access can_fail
    (x ← getS;
     if on_device lba 1 then _ ← set_cells (<[lba := zip_with Z.land (nor_block x lba) buf]>); mret 512 else mret (-4)) (-1).
Definition erased_cells (lba n : Z) (m : gmap Z bytes) : gmap Z bytes :=
  foldr (fun l => <[l := replicate 512 255]>) m (seqZ lba n).
Definition nor_erase (can_fail : bool) (lba n : Z) : M nor Z :=
  access can_fail
    (if on_device lba n then _ ← set_cells (erased_cells lba n); mret n else mret (-4)) (-1).

Lemma as_block_ok b : Z.of_nat (length (as_block b)) = 512 /\ is_bytes (as_block b).
Proof. unfold as_block. split; [by rewrite length_fmap, length_seq|]. apply Forall_fmap, Forall_true. intros i. apply u8_range. Qed.

Lemma as_block_id b : length b = 512%nat -> is_bytes b -> as_block b = b.
Proof.
  intros Hl Hb. apply list_eq. intros i. unfold as_block. rewrite list_lookup_fmap.
  destruct (decide (i < 512)%nat) as [Hi|Hi].
  - rewrite lookup_seq_lt by done. cbn. destruct (lookup_lt_is_Some_2 b i) as [c Hc]; [lia|].
    rewrite Hc. rewrite (nth_lookup_Some _ _ _ _ Hc). f_equal. eapply Forall_lookup_1 in Hc; [|exact Hb]. by apply Z.mod_small.
  - rewrite lookup_seq_ge, lookup_ge_None_2 by lia. done.
Qed.

Lemma nor_block_set x l b l' k j : nor_block {| cells := <[l := b]> x.(cells); budget := k; seed := j |} l' =
  if decide (l = l') then as_block b else nor_block x l'.
Proof. unfold nor_block. cbn. destruct (decide (l = l')) as [->|]; [by rewrite lookup_insert_eq|by rewrite lookup_insert_ne]. Qed.

Lemma erased_cells_lookup lba n m l : erased_cells lba n m !! l =
  if decide (lba <= l < lba + n) then Some (replicate 512 255) else m !! l.
Proof.
  unfold erased_cells. assert (l ∈ seqZ lba n <-> lba <= l < lba + n) as Hin by apply elem_of_seqZ.
  destruct (decide (lba <= l < lba + n)) as [Hl|Hl].
  - apply Hin in Hl. clear Hin. induction (seqZ lba n) as [|k ks IH]; [by apply not_elem_of_nil in Hl|]. cbn.
    destruct (decide (k = l)) as [->|]; [by rewrite lookup_insert_eq|]. rewrite lookup_insert_ne by done. apply IH.
    apply elem_of_cons in Hl as [?|?]; [congruence|done].
  - assert (l ∉ seqZ lba n) as Hn by (by rewrite Hin). clear Hin. induction (seqZ lba n) as [|k ks IH]; [done|]. cbn.
    apply not_elem_of_cons in Hn as [??]. rewrite lookup_insert_ne by done. by apply IH.
Qed.

(** The device, whose accesses may fail or never do. *)
Lemma wp_access {A} can_fail (ok : M nor A) refused (Q : A -> nor -> Prop) E H x :
  (forall b, wp ok Q E H {| cells := x.(cells); budget := b; seed := x.(seed) |}) ->
  (can_fail = true -> Q refused {| cells := x.(cells); budget := -1; seed := x.(seed) |}) ->
  (can_fail = true -> H PowerLoss x) -> wp (access can_fail ok refused) Q E H x.
Proof.
  intros Hok Hr Hh. unfold wp, access in *. destruct can_fail; cbn [andb]; [|apply (Hok _)].
  destruct (x.(budget) =? 0); [by apply Hr|]. destruct (x.(budget) <? 0); [by apply Hh|apply (Hok _)].
Qed.

Lemma program_block (x : nor) l buf : Z.of_nat (length buf) = 512 -> is_bytes buf ->
  as_block (zip_with Z.land (nor_block x l) buf) = zip_with Z.land (nor_block x l) buf.
Proof.
  intros Hl Hb. destruct (as_block_ok (default [] (cells x !! l))) as [Hl' Hb']. fold (nor_block x l) in Hl', Hb'.
  apply as_block_id; [rewrite length_zip_with; lia|]. apply Forall_lookup_2. intros i c Hc.
  apply lookup_zip_with_Some in Hc as (u & v & -> & Hu & Hv). eapply Forall_lookup_1 in Hu; [|done]. eapply Forall_lookup_1 in Hv; [|done].
  unfold is_u8 in *. assert (0 <= Z.land u v) by (apply Z.land_nonneg; lia). pose proof (land_split u v).
  assert (0 <= Z.land u (Z.lnot v)) by (apply Z.land_nonneg; lia). lia.
Qed.

Lemma nor_read_ok can_fail lba buf x : Z.of_nat (length buf) = 512 -> is_bytes buf ->
  wp (nor_read can_fail lba buf) (fun r x' => agree_off nowhere (nor_block x) (nor_block x') /\
      Z.of_nat (length r.2) = 512 /\ is_bytes r.2 /\
      if r.1 =? 512 then r.2 = nor_block x lba else 0 <= lba < 24 -> can_fail = true)
    (fun _ _ => False) (fun _ x' => can_fail = true /\ agree_off nowhere (nor_block x) (nor_block x')) x.
Proof.
  intros Hl Hb. apply wp_access; [|by intros ->..]. intros b. wp_auto. unfold on_device. destruct (_ && _) eqn:Hd; cbn.
  - split; [done|]. destruct (as_block_ok (default [] (cells x !! lba))). by split_and!.
  - split_and!; try done. lia.
Qed.

Lemma nor_write_ok can_fail lba buf x : Z.of_nat (length buf) = 512 -> is_bytes buf ->
  wp (nor_write can_fail lba buf) (fun r x' => agree_off (eq lba) (nor_block x) (nor_block x') /\
      if r =? 512 then nor_block x' lba = zip_with Z.land (nor_block x lba) buf else 0 <= lba < 24 -> can_fail = true)
    (fun _ _ => False) (fun _ x' => can_fail = true /\ agree_off (eq lba) (nor_block x) (nor_block x')) x.
Proof.
  intros Hl Hb. apply wp_access; [|by intros ->..]. intros b. unfold set_cells, on_device. wp_step. wp_step. destruct (_ && _) eqn:Hd; wp_auto.
  - cbn [cells budget seed]. change (nor_block {| cells := x.(cells); budget := b; seed := x.(seed) |} lba) with (nor_block x lba). split.
    + intros l Hne. by rewrite nor_block_set, decide_False.
    + rewrite Z.eqb_refl, nor_block_set, decide_True by done. by apply program_block.
  - split; [done|]. cbn. lia.
Qed.

Lemma nor_erase_ok can_fail lba n x :
  wp (nor_erase can_fail lba n) (fun r x' => agree_off (fun l => lba <= l < lba + n) (nor_block x) (nor_block x') /\
      if r =? n then forall l, lba <= l < lba + n -> nor_block x' l = replicate (Z.to_nat 512) 255
      else 0 <= lba -> 0 < n -> lba + n <= 24 -> can_fail = true)
    (fun _ _ => False) (fun _ x' => can_fail = true /\ agree_off (fun l => lba <= l < lba + n) (nor_block x) (nor_block x')) x.
Proof.
  apply wp_access.
  - intros b. unfold set_cells, on_device. destruct (_ && _) eqn:Hd; wp_auto.
    + unfold agree_off, nor_block. cbn [cells]. rewrite Z.eqb_refl. split; intros l Hl; rewrite erased_cells_lookup.
      * by rewrite decide_False.
      * rewrite decide_True by done. by vm_compute.
    + split; [done|]. destruct (Z.eqb_spec (-4) n); [lia|]. lia.
  - intros ->. split; [done|]. destruct (Z.eqb_spec (-1) n); [lia|done].
  - by intros ->.
Qed.

Definition nor_flash (can_fail : bool) : GptFlash nor.
Proof.
  refine {| blocks := nor_block; nblocks := 24; access_can_fail := can_fail; flash_init := None; flash_uninit := None;
            flash_read := nor_read can_fail; flash_write := nor_write can_fail; flash_erase := nor_erase can_fail |}.
  - done.
  - intros x l. apply as_block_ok.
  - intros x l. apply as_block_ok.
  - intros. by apply nor_read_ok.
  - intros. by apply nor_write_ok.
  - intros. apply nor_erase_ok.
  - intros n x. split; [done|]. split; [apply length_replicate|]. apply Forall_replicate, u8_range.
Defined.

(** ** A device with a table *)

Definition zeros (n : nat) : bytes := replicate n 0.
Definition sample_guid (k : Z) : efi_guid_t := replicate 16 k.
Definition sample_name (k : Z) : bytes := [k; 0] ++ zeros 70.
Definition sample_entry (k first last : Z) : gpt_entry_t :=
  {| partition_type := sample_guid 99; unique_guid := sample_guid k; start := first; end_ := last; attr := 0; name := sample_name k |}.

(** Two blocks of four entries each; the primary copy in blocks 1 to 3, the backup in 21 to 23. *)
Definition array_bytes (es : list gpt_entry_t) : bytes := concat (map entry_bytes es) ++ zeros ((8 - length es) * 128).
Definition sample_header (primary : bool) (es : list gpt_entry_t) : gpt_header_t :=
  let h := {| signature := GPT_SIG; revision := 65536; size := 92; header_crc := 0; reserved := 0;
    current_lba := if primary then 1 else 23; backup_lba := if primary then 23 else 1; first_lba := 4; last_lba := 20;
    flash_guid := sample_guid 7; array_lba := if primary then 2 else 21; num_partitions := 8; entry_size := 128;
    array_crc := efi_soft_crc32_update 0 (array_bytes es) |} in
  set_header_crc (header_checksum h) h.
Definition mbr_block : bytes := zeros 446 ++ [0; 0; 0; 0; 238; 0; 0; 0; 1; 0; 0; 0; 23; 0; 0; 0] ++ zeros 48 ++ [85; 170].
Definition sample_cells (es : list gpt_entry_t) : gmap Z bytes :=
  list_to_map (imap (fun i b => (Z.of_nat i, b))
    ([mbr_block; header_bytes (sample_header true es); take 512 (array_bytes es); drop 512 (array_bytes es)] ++
     map (fun k => replicate 512 (Z.of_nat k + 100)) (seq 0 17) ++
     [take 512 (array_bytes es); drop 512 (array_bytes es); header_bytes (sample_header false es)])).
Definition power_on (es : list gpt_entry_t) (b : Z) : gpt_state nor :=
  {| gs_world := {| cells := sample_cells es; budget := b; seed := 42 |}; gs_driver := None; gs_lba_buf := zeros 512;
     gs_cached_lba := 0; gs_write_buffered := false; gs_in_flush := false; gs_num_writes := 0; gs_cached_gpt := zero_gpt;
     gs_cached_gpt_read := false; gs_cached_gpt_primary := true; gs_backup_gpt_lba := 0; gs_primary_array_lba := 0;
     gs_backup_array_lba := 0; gs_plat_max_partitions := 0; gs_locals := [] |}.

(** [m], after the library is initialised on a device whose accesses may fail or not. *)
Definition started {A} (can_fail : bool) (es : list gpt_entry_t) (m : M (gpt_state nor) A) :=
  (_ ← gpt_init (@flash_driver _ _ _ (nor_flash can_fail)) 8; m) (power_on es 1000).

Definition sample_entries : list gpt_entry_t :=
  [sample_entry 1 4 5; sample_entry 2 8 9; sample_entry 3 12 12; sample_entry 4 15 18; sample_entry 5 19 19].

(** The library is up, and an attribute of the last entry waits in the buffer.  (The driver
    is the one [gpt_init] registered; it is named again to be seen without computing.) *)
Definition sample_state (can_fail : bool) : gpt_state nor :=
  set_driver (Some (@flash_driver _ _ _ (nor_flash can_fail))) (started can_fail sample_entries (gpt_attr_set (sample_guid 5) 77)).2.

Lemma sample_inv can_fail : @gpt_inv _ _ _ (nor_flash can_fail) 21 (sample_state can_fail).
Proof.
 assert (header_of (slice (@blk _ _ _ (nor_flash can_fail) (sample_state can_fail) 1) 0 GPT_HEADER_SIZE) = hdr (sample_state can_fail)) as Hh
  by (destruct can_fail; vm_compute; reflexivity).
 split; [|split; [by destruct can_fail; vm_compute|]].
 - split.
  + reflexivity.
  + by destruct can_fail; vm_compute.
  + by destruct can_fail; vm_compute.
  + split.
    * rewrite <- Hh. apply read_header_ok, buf_ok_blk.
    * destruct can_fail; vm_compute; reflexivity.
    * destruct can_fail; vm_compute; reflexivity.
    * destruct can_fail; vm_compute; reflexivity.
    * destruct can_fail; vm_compute; reflexivity.
    * destruct can_fail; vm_compute; reflexivity.
    * destruct can_fail; vm_compute; discriminate.
    * destruct can_fail; vm_compute; (split; [discriminate|reflexivity]).
    * destruct can_fail; vm_compute; (split; [discriminate|reflexivity]).
  + by destruct can_fail; vm_compute.
  + by destruct can_fail; vm_compute.
  + destruct can_fail; vm_compute; (split; discriminate).
  + destruct can_fail; vm_compute; reflexivity.
  + assert (nblk (sample_state can_fail) = 2) as -> by (by destruct can_fail; vm_compute).
   intros k Hk. assert (k = 0 \/ k = 1) as [-> | ->] by lia; destruct can_fail; vm_compute; reflexivity.
  + exact Hh.
  + destruct can_fail; vm_compute; reflexivity.
 - split; [split; [by destruct can_fail; vm_compute|]|].
  + apply bytes_check_ok. destruct can_fail; vm_compute; reflexivity.
  + assert (gs_write_buffered (sample_state can_fail) = true) as -> by (by destruct can_fail; vm_compute).
   exists 1. destruct can_fail; vm_compute; (split; [reflexivity|split; [discriminate|reflexivity]]).
Qed.

Lemma sample_entries_now can_fail : @entries _ _ _ (nor_flash can_fail) (sample_state can_fail) =
  [sample_entry 1 4 5; sample_entry 2 8 9; sample_entry 3 12 12; sample_entry 4 15 18; set_attr 77 (sample_entry 5 19 19)].
Proof. destruct can_fail; vm_compute; reflexivity. Qed.

Lemma sample_partitions_ok can_fail :
  partitions_ok (hdr (sample_state can_fail)) (@entries _ _ _ (nor_flash can_fail) (sample_state can_fail)).
Proof.
  rewrite sample_entries_now.
  assert ((hdr (sample_state can_fail)).(first_lba) = 4 /\ (hdr (sample_state can_fail)).(last_lba) = 20) as [Hf Hl]
    by (destruct can_fail; vm_compute; by split).
  split.
  - repeat apply Forall_cons_2; try apply Forall_nil_2; unfold within; rewrite Hf, Hl; cbn; lia.
  - intros [|[|[|[|[|i]]]]] [|[|[|[|[|j]]]]] e e' Hne He He'; cbn in He, He'; try discriminate; try done;
      injection He as <-; injection He' as <-; unfold apart; cbn; lia.
Qed.

(** ** The theorems at work *)



Lemma interrupted_access_survives_witness :
  let s := sample_state true in let e := sample_entry 8 8 9 in
  @access_can_fail _ _ _ (nor_flash true) = true /\
  wp (write_entry CachedGpt 1 e)
    (fun _ s' => @gpt_inv _ _ _ (nor_flash true) 21 s')
    (@survives _ _ _ (nor_flash true) _ s [@flash_entries _ _ _ (nor_flash true) s; @entries _ _ _ (nor_flash true) s; <[1%nat := e]> (@entries _ _ _ (nor_flash true) s)])
    (@survives _ _ _ (nor_flash true) _ s [@flash_entries _ _ _ (nor_flash true) s; @entries _ _ _ (nor_flash true) s; <[1%nat := e]> (@entries _ _ _ (nor_flash true) s)]) s.
Proof.
  cbv zeta. split; [reflexivity|].
  destruct (interrupted_access_survives (gflash := nor_flash true) 21 (sample_state true) 1 (sample_entry 8 8 9)) as (_ & Hw & _).
  - apply sample_inv.
  - vm_compute. split; [discriminate|reflexivity].
  - split_and!; try done; try (split; [done|]); by apply bytes_check_ok.
  - eapply wp_mono; [exact Hw|..]; cbn beta; [tauto|intros e s' Hs; exact Hs..].
Defined.

(** One byte of the second entry is changed on the flash. *)
Definition intact_state : gpt_state nor :=
  set_driver (Some (@flash_driver _ _ _ (nor_flash true))) (started true sample_entries (mret tt)).2.
Definition poked_state : gpt_state nor :=
  let x := intact_state.(gs_world) in
  set_world {| cells := <[2 := <[160%nat := 3]> (nor_block x 2)]> x.(cells); budget := x.(budget); seed := x.(seed) |} intact_state.

Lemma poked_blocks k : @blk _ _ _ (nor_flash true) poked_state k = poke (@blk _ _ _ (nor_flash true) intact_state) 2 160 3 k.
Proof.
  unfold blk, poke, upd_block, poked_state. cbn [gs_world set_world blocks nor_flash]. rewrite nor_block_set.
  destruct (as_block_ok (default [] (cells (gs_world intact_state) !! 2))) as [Hl Hb]. fold (nor_block (gs_world intact_state) 2) in Hl, Hb.
  destruct (Z.eqb_spec k 2) as [->|Hne]; [rewrite decide_True by done|by rewrite decide_False].
  apply as_block_id; [rewrite length_insert; lia|]. by apply Forall_insert.
Qed.

Lemma corruption_rejected_witness :
  wp (validate_table CachedGpt true) (fun _ _ => False)
    (fun e _ => e = PSA_ERROR_INVALID_SIGNATURE \/ e = PSA_ERROR_NOT_SUPPORTED \/ e = PSA_ERROR_STORAGE_FAILURE /\ true = true)
    (fun _ _ => true = true) poked_state.
Proof.
  apply (corruption_rejected (gflash := nor_flash true) CachedGpt true (gs_cached_gpt poked_state) poked_state
           (@blk _ _ _ (nor_flash true) intact_state) 2 160 3 8).
  - split; [reflexivity|]. split; [vm_compute; reflexivity|]. split; [vm_compute; reflexivity|]. apply bytes_check_ok. vm_compute. reflexivity.
  - vm_compute. reflexivity.
  - intros k. apply as_block_ok.
  - split; try (vm_compute; reflexivity). vm_compute. split_and!; reflexivity.
  - vm_compute. split_and!; first [reflexivity|discriminate].
  - vm_compute. intros [H _]. by apply H.
  - right. exists 1. vm_compute. split_and!; first [reflexivity|discriminate|lia].
  - vm_compute. reflexivity.
  - done.
  - done.
  - exact poked_blocks.
  - vm_compute. reflexivity.
  - intros _. vm_compute. reflexivity.
Defined.

Lemma move_data_exact_witness :
  let s := intact_state in
  wp (move_partition_data 8 6 3) (fun _ s' => @blk _ _ _ (nor_flash true) s' 7 = @blk _ _ _ (nor_flash true) s 9)
    (fun _ _ => true = true) (fun _ _ => true = true) s.
Proof.
  cbv zeta. eapply wp_mono; [apply (move_data_exact (gflash := nor_flash true) intact_state 8 6 3)|..]; cbn beta.
  - split; [reflexivity|]. split; [vm_compute; reflexivity|]. split; [vm_compute; reflexivity|]. apply bytes_check_ok. vm_compute. reflexivity.
  - done.
  - done.
  - vm_compute. discriminate.
  - done.
  - vm_compute. discriminate.
  - left. done.
  - vm_compute. intros [H _]. by destruct H.
  - intros _ s' (_ & Hm & _). exact (Hm 1 ltac:(lia)).
  - done.
  - done.
Defined.

(** ** What goes wrong *)

Definition primary_entries (n : nat) (s : gpt_state nor) : list (Z * Z * Z) :=
  map (fun i => let e := entry_of (slice (nor_block s.(gs_world) (2 + Z.of_nat i / 4)) (i mod 4 * 128) 128) in
                (nth 0 e.(unique_guid) 0, e.(start), e.(end_))) (seq 0 n).
Definition first_bytes (lbas : list Z) (s : gpt_state nor) : bytes := map (fun l => nth 0 (nor_block s.(gs_world) l) 0) lbas.

(** Defragmentation: two pairs of partitions that have to change places.  The loop that sorts
    the array has a round per partition and spends one on noticing that the first pair is
    done, so the last entry is not written: partition 3 is lost, and 4 is there twice. *)
Example defragment_loses_entry :
  let r := started false [sample_entry 2 8 9; sample_entry 1 4 5; sample_entry 4 15 18; sample_entry 3 12 12] gpt_defragment in
  r.1 = Val tt /\ primary_entries 4 r.2 = [(1, 4, 5); (2, 6, 7); (4, 8, 11); (4, 12, 15)].
Proof. vm_compute. by split. Qed.

(** A size close to 2^64 wraps: the partition ends before it starts. *)
Example create_wraps :
  let r := started false [sample_entry 1 4 5] (gpt_entry_create (sample_guid 99) 18 (2 ^ 64 - 4) 3 (sample_name 66)) in
  primary_entries 2 r.2 = [(1, 4, 5); (42, 18, 13)].
Proof. vm_compute. reflexivity. Qed.

(** A move up onto blocks of its own: blocks 4 to 8 hold 100 to 104; after the move to 7,
    block 8 holds 96, the bits that 101 and 104 have in common. *)
Example overlapping_move_corrupts :
  let r := started false [sample_entry 1 4 8] (gpt_entry_move (sample_guid 1) 7 11) in
  r.1 = Val tt /\ first_bytes [7; 8; 9; 10; 11] r.2 = [100; 96; 102; 103; 104].
Proof. vm_compute. by split. Qed.

(** With no attribute to add, an entry that does not exist is not reported. *)
Example attr_add_nothing :
  (started false [sample_entry 1 6 9] (gpt_attr_add (sample_guid 8) 0)).1 = Val tt /\
  (started false [sample_entry 1 6 9] (gpt_attr_add (sample_guid 8) 1)).1 = Err PSA_ERROR_DOES_NOT_EXIST.
Proof. vm_compute. by split. Qed.

(** A removal that loses power half way: the arrays of both copies are written, and the
    headers are not, so neither copy is valid at the next start. *)
Definition restart (primary : bool) (s : gpt_state nor) : outcome unit :=
  ((_ ← gpt_init (@flash_driver _ _ _ (nor_flash false)) 8; gpt_validate primary) (set_world s.(gs_world) (power_on [] 0))).1.
Example remove_not_power_safe :
  let s := ((_ ← gpt_init (@flash_driver _ _ _ (nor_flash true)) 8; gpt_entry_remove (sample_guid 2)) (power_on sample_entries 12)).2 in
  restart true s = Err PSA_ERROR_INVALID_SIGNATURE /\ restart false s = Err PSA_ERROR_INVALID_SIGNATURE.
Proof. vm_compute. by split. Qed.
